(* ===== verification/_CoqProject ===== *)
-Q . S2P
Prelude.v
Bytes.v
Sequence.v
Extension.v
Tracks.v
Rtp.v
Rtcp.v
Annexb.v
Packets.v
ExtensionSources.v
Nalus.v
Vp8Opus.v
Vp9.v
Av1.v
Av1Props.v
Av1Roundtrip.v
H264.v
H265.v
Jitter.v
JitterSpec.v
JitterProps.v
Twcc.v
TwccPublish.v
Srtp.v
SrtpProps.v
TwccProps.v
TwccLoop.v
Crc.v
Crc32c.v
SctpPacket.v
DataChannel.v
SctpSession.v
SctpRuns.v
SctpProps.v
SctpDelivery.v
Scheduler.v
SchedulerProps.v
Pacing.v
PacingProps.v
SdpText.v
SdpOffer.v
SdpAnswer.v
SdpProps.v
SdpFeed.v
SdpLoop.v
Stun.v
StunProps.v
Ice.v
IceProps.v
IceRuns.v
EndToEnd.v
