(* ===== verification/Prelude.v ===== *)
(** * srtc: a verification development

    srtc is a WebRTC library in C++: it cuts encoded media frames into RTP
    packets, protects and sends them, and at the other end puts packets back in
    order and together into frames; control packets (RTCP) carry reports and
    requests between the two; data channels carry messages over SCTP.  This
    development models the media path, the control path and the data channels of
    that program and proves what makes them correct.

    ** The program and the files

    A publisher's frame goes through [Packetizer*::generate], which takes sequence
    numbers and timestamps from the track's sources, header extensions from the
    extension sources, and returns [RtpPacket]s; they are serialized, kept in
    [SendRtpHistory] for retransmission and sent.  A subscriber parses datagrams
    into [RtpPacket]s, gives them to [JitterBuffer::consume] and regularly calls
    [processDeque] (frames), [processNack] (numbers to ask for) and
    [getTimeoutMillis] (when to come back).  The jitter buffer asks a
    [Depacketizer*] for the kind of a packet and for the frames of a run of
    packets.  [PeerCandidate] dispatches the received control packets.  A
    [SctpSession] at each end makes an association, cuts the messages of the
    application into chunks, sends them until they are acknowledged and puts those
    of the peer together.  A [PeerCandidate] finds out with an [IceAgent] whether the
    other end can be reached, and lets OpenSSL agree on keys.  Before all that [SdpOffer::generate] prints what one end
    has, and [SdpAnswer::parse] reads the other's answer into the tracks.

    - [Prelude]: machine integers ([u8] .. [i64]: the wrap-around of a C++
      conversion), big-endian bytes, bit lemmas, the option monad's
      [guard_true] (an [assert]), tactics and hints.
    - [Bytes]: [ByteBuffer], [ByteWriter], [ByteReader] (src/byte_buffer.cpp),
      [BitReader] (src/bit_reader.cpp).  [Wire] holds the round trips.
    - [Sequence]: [ExtendedValue] (src/extended_value.cpp) and
      [ReplayProtection] (src/replay_protection.cpp).
    - [Extension]: [RtpExtension], [RtpExtensionBuilder], [ExtensionMap].
    - [Tracks]: [Track], [Media], [SimulcastLayer], [RtpPacketSource],
      [RtpTimeSource], [RtcpPacketSource].
    - [Rtp]: [RtpPacket] (src/rtp_packet.cpp), [SendRtpHistory].
    - [Rtcp]: [RtcpPacket], [Nack], [ReportsHistory], and [Control], the reports
      and handlers of src/peer_candidate.cpp.
    - [Annexb]: [NaluParser] of src/codec_h264.cpp and src/codec_h265.cpp and the
      classification of NALUs.
    - [Packets]: [PacketKind], [JitterBufferItem], the interfaces
      [RtpExtensionSource] and [Depacketizer] as type classes, [Packetizer],
      [PacketizerVideo], [DepacketizerVideo]; [chunk_loop] and [collect], what VP8
      and VP9 have in common, and [whole_frame], what a depacketizer and the
      jitter buffer need of a frame's packets.
    - [ExtensionSources]: the instances of [RtpExtensionSource].
    - [Vp8Opus], [Vp9], [H264], [H265]: packetizers and depacketizers, the instances
      of [Depacketizer]; [Vp9.CodecVP9] is src/codec_vp9.cpp.  [Av1]: the OBU parser
      (src/codec_av1.cpp) and the packetizer and depacketizer of AV1; [Av1Props]:
      which payloads stop it; [Av1Roundtrip]: frames through both.  [Nalus] holds what H.264 and H.265 have in common, over the
      classes [NaluCodec], [NaluReceiver] and [NaluWire].
    - [Jitter]: [JitterBuffer] (src/jitter_buffer.cpp).  [JitterSpec]: the same
      buffer as a plain queue, and the refinement.  [JitterProps]: invariant and
      properties.
    - [Srtp]: [CryptoBytes], [CryptoWriter], [KeyDerivation] (src/srtp_util.cpp),
      [SrtpCrypto] (src/srtp_crypto.cpp) and [SrtpConnection]
      (src/srtp_connection.cpp) around the ciphers of OpenSSL.  [SrtpProps]: its
      properties.
    - [Twcc]: the subscriber's side of transport-wide congestion control,
      [SubscribePacketHistory] with its report [Builder] (src/twcc_subscribe.cpp)
      and [RtpResponderTWCC].  [TwccPublish]: the publisher's side,
      [PublishPacketHistory] (src/twcc_publish.cpp), [Filter] (src/util.cpp) and
      the feedback half of [RtpExtensionSourceTWCC]; [Feedback] sends the reports
      from one to the other.  [TwccProps]: the format of a report, written and
      read.  [TwccLoop]: both windows, and the loop as a whole.
    - [Crc]: the division of polynomials behind a checksum, for every instance of
      [Polynomial].  [Crc32c]: the checksum of src/sctp/sctp_crc32.cpp.  [SctpPacket]: packets, chunks and parameters
      (src/sctp/sctp_packet.cpp, sctp_packet_builder.cpp, sctp_defs.h).
      [DataChannel]: [DataChannelMessage], [DataChannelReceiveBuffer].
      [SctpSession]: src/sctp/sctp_session.cpp with the queue of
      src/peer_candidate.cpp, as computations over the state of one end.
      [SctpRuns]: which computations stop.  [SctpProps]: the TSNs received, the
      acknowledgements, the handshake.  [SctpDelivery]: messages from one session
      to the other.
    - [Scheduler]: [LoopScheduler], [ScopedScheduler] and the tasks that call them
      (src/scheduler.cpp).  [SchedulerProps]: its properties.
    - [Pacing]: [SendPacer] (src/send_pacer.cpp), the counters of [TrackStats] and
      the part of [PeerCandidate::run] that sends frames.  [PacingProps]: its
      properties.
    - [SdpText]: what a session description is made of: lines, numbers, keys with
      values, fingerprints.  [SdpOffer]: [SdpOffer] (src/sdp_offer.cpp).
      [SdpAnswer]: the parser of src/sdp_answer.cpp and [HighestTrackSelector]
      (src/track_selector.cpp).  [SdpProps]: their properties.  [SdpFeed]: the
      parser over the lines that the offer prints; [SdpLoop]: over a whole offer.
    - [Stun]: src/stun (utils, stunmessage, stun5389, stuncrc32, stunhmac), on the
      memory of a message.  [StunProps]: messages as lists of attributes, the
      validation, addresses, the checksum.  [Ice]: [IceAgent] (src/ice_agent.cpp)
      and the connectivity checks, timers and DTLS states of
      src/peer_candidate.cpp, on the scheduler of [Scheduler].  [IceProps]: what one
      end sends, the other answers.  [IceRuns]: all runs of a candidate.
    - [EndToEnd]: frames through packetizer, jitter buffer and depacketizer.

    ** Conventions

    A method of a class [C] of the source is a definition of the same name in
    [Module C]; the members are the fields of a record, with the source's names.
    A method that changes its object returns the new state.  Integers are [Z]
    with the wrap-around of their width written where the code computes; bytes
    are [list Z].  [None] at the outermost level is where the program would stop
    or be undefined: a failed [assert], a read through a null pointer or past the
    end, a signed overflow.  Errors that the program reports are values.  Clocks
    ([steady_clock::now()], nanoseconds; NTP time) and random numbers are
    arguments.  A loop of the source is a [Fixpoint]; where its recursion is not
    structural it has fuel, an upper bound of its rounds that the caller computes
    (the length of the input, the distance of two sequence numbers), and running
    out of fuel is [None], so that every theorem with a result [Some] says that
    the bound is enough.  [float] and [double] are the IEEE 754 numbers of
    [SpecFloat], rounded after every operation.

    ** What the theorems show

    - End to end: [EndToEnd.vp8_end_to_end] and [vp9_end_to_end] (a frame sent is
      the frame received), [Vp9.vp9_roundtrip], [vp9_key_header], [av1_roundtrip], [H264.h264_roundtrip], [H264.h264_packets],
      [H265.h265_roundtrip], [H265.h265_packets], [Vp8Opus.vp8_roundtrip].
    - The jitter buffer: [deque_refines_queue] (the ring of slots implements a
      queue), [buffer_safe] (invariant over every interleaving of operations, no
      operation stops), [consume_accepts], [deque_delivers], [nack_exact],
      [timeout_no_missed_work], and what goes wrong at the edges:
      [full_window_collides], [older_than_first_overflows],
      [incomplete_frame_spins].
    - SRTP: [srtp_refines_window] (protected media, reordered, repeated or lost, is
      unprotected exactly when an abstract window accepts its 48-bit index),
      [control_refines_replay], [srtp_receive_safe] (no datagram stops the
      receiver, none gets through without its tag), [ivs_follow_rfc],
      [ivs_never_repeat], [derivation_follows_rfc], [create_matches], and the
      edges: [forged_packets_silence], [forged_media_hangs_control],
      [burst_loss_stalls].
    - Congestion control: [feedback_roundtrip] (what a subscriber receives is what
      the publisher learns, up to the rounding of the deltas),
      [subscriber_refines] (the window of arrivals, whatever arrives),
      [publisher_total] (no report, however malformed, stops the publisher or
      keeps it busy forever), [publisher_remembers], and what goes wrong:
      [generate_hangs], [deltas_drift], [unknown_packet_restarts].
    - Data channels: [message_delivered] (what one session sends the other
      delivers), [handshake_established] (two sessions that start at once are both
      established), [tsns_refine_set] (the cumulative TSN and the set behind it are
      the set of TSNs received), [sack_roundtrip] (an acknowledgement removes what
      was received and nothing else), [ordered_delivery], [reassembly_roundtrip],
      [packet_roundtrip], [send_bounds], [session_total], [receive_stops_iff],
      [cookie_authentic], [packet_parse_safe], [burst_rejected], [crc32c_exact] (the
      checksum is the CRC-32C but for one wrong entry of a table) and what that
      entry does: [unlucky_chunk_never_arrives]; [late_fragment_lost].
    - Pacing: [packets_in_order] (each packet once, in order, under any pacing),
      [numbers_in_order] (no call stops the pacer; the numbers of the transport are
      consecutive), [books_balance], [run_sends_due], [paced_within_spread].
    - Tasks: [tasks_accounted] (each task runs once, is cancelled or waits),
      [run_in_order], [run_returns], [cancelled_never_runs], [scope_end], and the
      edge [far_timeout_negative].
    - Negotiation: [offer_understood] (what an offer says, the parser of the answer
      understands), [answer_typed] (whatever its text, an accepted answer has
      well-formed tracks with the SSRCs of the offer), [answer_handled] (no answer
      that names the media of the offer stops the program), [highest_is_best],
      [numbers_roundtrip], [fingerprint_roundtrip].
    - Connectivity: [validation_exact] (the validation accepts exactly the headers
      followed by padded attributes), [stun_crc32_exact], [binding_exchange] (a
      request is answered, and the answer selects the candidate), [candidate_defined]
      (no run of a candidate gets stuck, provided that STUN messages are validated;
      the program does not do so: [overlong_read]), [candidate_states] (the states
      of the handshake; keep-alives are never scheduled).
    - Wire formats: [rtp_roundtrip], [rtx_roundtrip], [rtcp_roundtrip],
      [findAny_encode] and its edge [findAny_stops], [addOrReplaceU16_correct], [nalus_of_stream],
      [fields_roundtrip], [leb128_roundtrip], [expgolomb_decodes].
    - Untrusted input: [control_packet_safe], [extension_parse_safe],
      [nalus_safe], [vp9_parse_safe], [h264_extract_stops_iff], [h265_extract_stops_iff],
      [av1_extract_stops_iff], [h265_kind_total], [rtcp_zero_length_aborts].
    - Control: [nack_delivered], [subscribe_reports_understood],
      [publish_reports_understood], [rtt_of_report].
    - Numbers and state: [extend_reconstructs], [replay_rejected],
      [replay_refines_set], [history_find], [sequences_consecutive],
      [timestamp_drift], [bytebuffer_refines_list],
      [extension_map_cache_transparent].

    ** Parameters

    The packetizers are proved for every extension source with the laws of
    [PacketSources] (the extension it gives is small, its state keeps an
    invariant), which [ExtensionSources] discharges; the jitter buffer for every
    [Depacketizer] with [depacketizer_total], which [vp8_total] and [vp9_total]
    prove of the VP8 and VP9 depacketizers; those of H.264, H.265 and AV1 do not have it
    ([h264_extract_stops_iff], [h265_extract_stops_iff], [av1_extract_stops_iff]).  SRTP is proved for every [Evp] (the calls into OpenSSL) with
    [EvpLaws]: output sizes, and decryption undoing encryption; [SrtpProps.Demo]
    gives a toy cipher that has them, on which the witnesses run.  The cookies of
    SCTP and the integrity of STUN messages use its HMAC.  The answer's parser is proved for every [Inet]
    ([inet_pton]) and every [Selector] of tracks.

    ** Not modelled

    Sockets, event loops, threads and locks, logging; OpenSSL (DTLS, X.509, AES,
    SHA1); the command line tools and the vendored code they use. *)

From Stdlib Require Export ZArith Lia.
From stdpp Require Export base numbers list option.

#[global] Set Default Proof Using "Type".

Create HintDb srtc.
Create Rewrite HintDb srtc.

Open Scope Z_scope.

(** ** Machine integers

    A C++ [uintN_t] value is a [Z] in [0, 2^N).  Conversions and arithmetic
    that the source performs at a fixed width go through these functions. *)

Definition u8 (z : Z) : Z := z mod 2 ^ 8.
Definition u16 (z : Z) : Z := z mod 2 ^ 16.
Definition u32 (z : Z) : Z := z mod 2 ^ 32.
Definition u64 (z : Z) : Z := z mod 2 ^ 64.

(** Two's complement reading of an unsigned value, [static_cast<int16_t>] and
    the like. *)
Definition to_signed (w z : Z) : Z :=
  let m := z mod 2 ^ w in if m <? 2 ^ (w - 1) then m else m - 2 ^ w.

Definition i16 (z : Z) : Z := to_signed 16 z.
Definition i32 (z : Z) : Z := to_signed 32 z.
Definition i64 (z : Z) : Z := to_signed 64 z.

Definition is_u8 (z : Z) : Prop := 0 <= z < 2 ^ 8.
Definition is_u16 (z : Z) : Prop := 0 <= z < 2 ^ 16.
Definition is_u32 (z : Z) : Prop := 0 <= z < 2 ^ 32.
Definition is_u64 (z : Z) : Prop := 0 <= z < 2 ^ 64.

Definition bytes_ok (l : list Z) : Prop := Forall is_u8 l.

#[global] Instance is_u8_dec z : Decision (is_u8 z).
Proof. unfold is_u8. apply _. Defined.
#[global] Instance is_u16_dec z : Decision (is_u16 z).
Proof. unfold is_u16. apply _. Defined.
#[global] Instance is_u32_dec z : Decision (is_u32 z).
Proof. unfold is_u32. apply _. Defined.
#[global] Instance is_u64_dec z : Decision (is_u64 z).
Proof. unfold is_u64. apply _. Defined.
#[global] Instance bytes_ok_dec l : Decision (bytes_ok l).
Proof. unfold bytes_ok. apply _. Defined.

(** The test [(x & (1 << n)) != 0]. *)
Definition has_bit (x n : Z) : bool := negb (Z.land x (Z.shiftl 1 n) =? 0).

(** ** Arithmetic lemmas *)

(** [zdm]: linear arithmetic with division and modulo by constants. *)
Ltac zdm := Z.div_mod_to_equations; lia.

Lemma u8_range z : is_u8 (u8 z).
Proof. apply Z.mod_pos_bound. lia. Qed.
Lemma u16_range z : is_u16 (u16 z).
Proof. apply Z.mod_pos_bound. lia. Qed.
Lemma u32_range z : is_u32 (u32 z).
Proof. apply Z.mod_pos_bound. lia. Qed.
Lemma u64_range z : is_u64 (u64 z).
Proof. apply Z.mod_pos_bound. lia. Qed.

Lemma u8_small z : is_u8 z -> u8 z = z.
Proof. apply Z.mod_small. Qed.
Lemma u16_small z : is_u16 z -> u16 z = z.
Proof. apply Z.mod_small. Qed.
Lemma u32_small z : is_u32 z -> u32 z = z.
Proof. apply Z.mod_small. Qed.
Lemma u64_small z : is_u64 z -> u64 z = z.
Proof. apply Z.mod_small. Qed.

Lemma i64_small z : - 2 ^ 63 <= z < 2 ^ 63 -> i64 z = z.
Proof.
  intros H. unfold i64, to_signed. cbv zeta. change (64 - 1) with 63.
  destruct (decide (0 <= z)).
  - rewrite Z.mod_small by lia. destruct (Z.ltb_spec z (2 ^ 63)); lia.
  - replace (z mod 2 ^ 64) with (z + 2 ^ 64) by zdm.
    destruct (Z.ltb_spec (z + 2 ^ 64) (2 ^ 63)); lia.
Qed.

#[export] Hint Resolve u8_range u16_range u32_range u64_range : srtc.
#[export] Hint Rewrite u8_small u16_small u32_small u64_small using
  (solve [eauto with srtc | unfold is_u8, is_u16, is_u32, is_u64 in *; lia]) : srtc.

(** *** Bit operations as arithmetic *)

Lemma testbit_high a n i : 0 <= a < 2 ^ n -> n <= i -> Z.testbit a i = false.
Proof.
  intros Ha Hi. destruct (decide (0 <= n)).
  - rewrite <- (Z.mod_small a (2 ^ n)) by lia. apply Z.mod_pow2_bits_high. lia.
  - rewrite Z.pow_neg_r in Ha by lia. lia.
Qed.

(** A disjoint [|] is an addition: the low operand fits below the shift. *)
Lemma lor_shiftl_add a b n :
  0 <= n -> 0 <= b < 2 ^ n -> Z.lor (Z.shiftl a n) b = a * 2 ^ n + b.
Proof.
  intros Hn Hb.
  assert (Z.land (Z.shiftl a n) b = 0) as Hz.
  { apply Z.bits_inj'. intros i Hi. rewrite Z.land_spec, Z.bits_0.
    destruct (decide (i < n)).
    - by rewrite Z.shiftl_spec_low by lia.
    - rewrite (testbit_high b n i) by lia. apply andb_false_r. }
  pose proof (Z.add_lor_land (Z.shiftl a n) b) as E.
  rewrite Hz in E. rewrite Z.shiftl_mul_pow2 in E |- * by lia. lia.
Qed.

Lemma land_ones_mod a n : 0 <= n -> Z.land a (2 ^ n - 1) = a mod 2 ^ n.
Proof. intros. rewrite <- Z.land_ones, Z.ones_equiv by lia. f_equal. Qed.

Lemma shiftr_div a n : 0 <= n -> Z.shiftr a n = a / 2 ^ n.
Proof. intros. by apply Z.shiftr_div_pow2. Qed.

Lemma has_bit_testbit x n : 0 <= n -> has_bit x n = Z.testbit x n.
Proof.
  intros Hn. unfold has_bit. destruct (Z.testbit x n) eqn:E.
  - destruct (Z.eqb_spec (Z.land x (Z.shiftl 1 n)) 0) as [Hz|]; [|done].
    apply (f_equal (fun z => Z.testbit z n)) in Hz.
    rewrite Z.land_spec, Z.bits_0, E, Z.shiftl_spec, Z.sub_diag in Hz by lia. done.
  - destruct (Z.eqb_spec (Z.land x (Z.shiftl 1 n)) 0) as [|Hz]; [done|].
    destruct Hz. apply Z.bits_inj'. intros i Hi.
    rewrite Z.land_spec, Z.bits_0, Z.shiftl_1_l, Z.pow2_bits_eqb by lia.
    destruct (Z.eqb_spec n i) as [<-|]; [by rewrite E | apply andb_false_r].
Qed.

Lemma land_mod_low x m n k :
  0 <= k <= n -> 0 <= m < 2 ^ k -> Z.land (x mod 2 ^ n) m = Z.land x m.
Proof.
  intros Hk Hm. apply Z.bits_inj'. intros i Hi. rewrite !Z.land_spec.
  destruct (decide (i < n)).
  - by rewrite Z.mod_pow2_bits_low by lia.
  - rewrite (testbit_high m k i) by lia. by rewrite !andb_false_r.
Qed.

(** ** List lemmas *)

Lemma take_length_app {A} (l k : list A) n : n = length l -> take n (l ++ k) = l.
Proof. intros ->. apply take_app_length. Qed.

Lemma drop_length_app {A} (l k : list A) n : n = length l -> drop n (l ++ k) = k.
Proof. intros ->. apply drop_app_length. Qed.

Lemma bytes_ok_app l k : bytes_ok (l ++ k) <-> bytes_ok l /\ bytes_ok k.
Proof. apply Forall_app. Qed.

Lemma bytes_ok_take n l : bytes_ok l -> bytes_ok (take n l).
Proof. apply Forall_take. Qed.

Lemma bytes_ok_drop n l : bytes_ok l -> bytes_ok (drop n l).
Proof. apply Forall_drop. Qed.

Lemma bytes_ok_nil : bytes_ok [].
Proof. constructor. Qed.

Lemma bytes_ok_cons b l : is_u8 b -> bytes_ok l -> bytes_ok (b :: l).
Proof. by constructor. Qed.

Lemma bytes_ok_lookup l i b : bytes_ok l -> l !! i = Some b -> is_u8 b.
Proof. intros Hl Hi. by eapply Forall_lookup_1 in Hi. Qed.

#[export] Hint Resolve bytes_ok_take bytes_ok_drop bytes_ok_nil bytes_ok_cons : srtc.

Lemma Forall_elem {A} (P : A -> Prop) l x : Forall P l -> x ∈ l -> P x.
Proof. intros Hl Hx. by eapply list.Forall_forall in Hl. Qed.

(** ** Results of fallible code

    A C++ operation that can stop the program (an [assert], [std::abort], an
    access outside an array) returns [option]: [None] is the stop.  The
    monadic notation is stdpp's [x <- m; k]. *)

Definition guard_true (b : bool) : option unit := if b then Some tt else None.

Lemma bind_Some_inv {A B} (m : option A) (k : A -> option B) r :
  (m ≫= k) = Some r -> exists a, m = Some a /\ k a = Some r.
Proof. destruct m; simpl; [eauto | done]. Qed.

(** Peel a successful bind in a hypothesis. *)
Ltac inv_bind :=
  repeat match goal with
  | H : (?m ≫= _) = Some _ |- _ =>
      let a := fresh "a" in let Ha := fresh "Ha" in
      apply bind_Some_inv in H as (a & Ha & H)
  end.

(** Case analysis on every [if] and [match] scrutinee of the goal. *)
Ltac case_all :=
  repeat match goal with
  | |- context [ match ?x with _ => _ end ] =>
      lazymatch x with context [ match _ with _ => _ end ] => fail | _ => destruct x eqn:? end
  end.

(** *** Big-endian bytes *)

Lemma lor_shiftl_shiftl a b m n :
  0 <= n <= m -> 0 <= b < 2 ^ (m - n) ->
  Z.lor (Z.shiftl a m) (Z.shiftl b n) = Z.shiftl (a * 2 ^ (m - n) + b) n.
Proof.
  intros Hn Hb. rewrite <- lor_shiftl_add, Z.shiftl_lor, Z.shiftl_shiftl by lia.
  do 2 f_equal. lia.
Qed.

(** The most significant bytes of [v], [n] of them, as the writers emit them. *)
Fixpoint be_bytes (n : nat) (v : Z) : list Z :=
  match n with
  | O => []
  | S n => u8 (Z.shiftr v (8 * Z.of_nat n)) :: be_bytes n v
  end.

Definition be_value (l : list Z) : Z := fold_left (fun acc b => acc * 2 ^ 8 + b) l 0.

Lemma length_be_bytes n v : length (be_bytes n v) = n.
Proof. induction n; simpl; auto. Qed.

Lemma be_bytes_ok n v : bytes_ok (be_bytes n v).
Proof. induction n; simpl; eauto with srtc. Qed.

Lemma be_fold_bytes n v acc :
  fold_left (fun acc b => acc * 2 ^ 8 + b) (be_bytes n v) acc =
  acc * 2 ^ (8 * Z.of_nat n) + v mod 2 ^ (8 * Z.of_nat n).
Proof.
  revert acc. induction n as [|n IH]; intros acc.
  - simpl. rewrite Z.mod_1_r. lia.
  - cbn [be_bytes fold_left]. rewrite IH. unfold u8. rewrite shiftr_div by lia.
    replace (8 * Z.of_nat (S n)) with (8 * Z.of_nat n + 8) by lia.
    set (k := 8 * Z.of_nat n). assert (0 < 2 ^ k) by (apply Z.pow_pos_nonneg; lia).
    rewrite Z.pow_add_r by lia. rewrite (Z.rem_mul_r v) by lia. lia.
Qed.

Lemma be_value_bytes n v : 0 <= v < 2 ^ (8 * Z.of_nat n) -> be_value (be_bytes n v) = v.
Proof. intros. unfold be_value. rewrite be_fold_bytes, Z.mod_small by lia. lia. Qed.

Lemma be_value_range l : bytes_ok l -> 0 <= be_value l < 2 ^ (8 * Z.of_nat (length l)).
Proof.
  intros Hl. unfold be_value.
  enough (forall acc, 0 <= acc -> 0 <= fold_left (fun acc b => acc * 2 ^ 8 + b) l acc <
    (acc + 1) * 2 ^ (8 * Z.of_nat (length l))) as H by (specialize (H 0); lia).
  induction Hl as [|b l Hb Hl IH]; intros acc Hacc; [simpl; lia|].
  cbn [fold_left length]. unfold is_u8 in Hb. specialize (IH (acc * 2 ^ 8 + b)).
  replace (8 * Z.of_nat (S (length l))) with (8 + 8 * Z.of_nat (length l)) by lia.
  rewrite Z.pow_add_r by lia.
  assert (0 < 2 ^ (8 * Z.of_nat (length l))) by (apply Z.pow_pos_nonneg; lia). nia.
Qed.

Lemma be_fold_acc l acc :
  fold_left (fun acc b => acc * 2 ^ 8 + b) l acc =
  acc * 2 ^ (8 * Z.of_nat (length l)) + fold_left (fun acc b => acc * 2 ^ 8 + b) l 0.
Proof.
  revert acc. induction l as [|x l IH]; intros acc; [cbn; lia|]. cbn [fold_left length].
  rewrite (IH (acc * 2 ^ 8 + x)), (IH (0 * 2 ^ 8 + x)).
  replace (8 * Z.of_nat (S (length l))) with (8 + 8 * Z.of_nat (length l)) by lia.
  rewrite Z.pow_add_r by lia. lia.
Qed.

Lemma be_value_cons b l : be_value (b :: l) = b * 2 ^ (8 * Z.of_nat (length l)) + be_value l.
Proof. unfold be_value. cbn [fold_left]. rewrite be_fold_acc. lia. Qed.

Lemma be_value_app l k : be_value (l ++ k) = be_value l * 2 ^ (8 * Z.of_nat (length k)) + be_value k.
Proof.
  induction l as [|a l IH]; [done|]. cbn [app]. rewrite !be_value_cons, IH, length_app.
  replace (8 * Z.of_nat (length l + length k)) with (8 * Z.of_nat (length l) + 8 * Z.of_nat (length k)) by lia.
  rewrite Z.pow_add_r by lia. lia.
Qed.

Lemma be_value_zeros n : be_value (replicate n 0) = 0.
Proof. induction n as [|n IH]; [done|]. cbn [replicate]. rewrite be_value_cons, IH. lia. Qed.

Lemma be_bytes_value l : bytes_ok l -> be_bytes (length l) (be_value l) = l.
Proof.
  intros Hl. unfold be_value.
  enough (forall acc, be_bytes (length l)
    (fold_left (fun acc b => acc * 2 ^ 8 + b) l acc) = l) by auto.
  induction Hl as [|b l Hb Hl IH]; intros acc; [done|].
  cbn [fold_left length be_bytes]. rewrite IH. f_equal.
  pose proof (be_value_range l Hl) as Hr. unfold be_value in Hr.
  rewrite be_fold_acc, shiftr_div by lia.
  rewrite Z.div_add_l by (apply Z.pow_nonzero; lia). rewrite Z.div_small by lia.
  unfold u8. rewrite Z.add_0_r. unfold is_u8 in Hb.
  rewrite Z.add_comm, Z.mod_add by lia. by apply Z.mod_small.
Qed.

Lemma bytes_ok_cons_iff b l : bytes_ok (b :: l) <-> is_u8 b /\ bytes_ok l.
Proof. unfold bytes_ok. by rewrite list.Forall_cons. Qed.

(** Split a [bytes_ok] hypothesis on an explicit list into bounds that [lia]
    reads. *)
Ltac bytes_bounds :=
  repeat match goal with
  | H : bytes_ok (_ :: _) |- _ => apply bytes_ok_cons_iff in H as [? H]
  | H : bytes_ok [] |- _ => clear H
  end; unfold is_u8 in *.

(** Facts about one byte, checked on its 256 values. *)
Lemma byte_forall (P : Z -> bool) :
  forallb P (seqZ 0 256) = true -> forall b, is_u8 b -> P b = true.
Proof.
  intros H b Hb. rewrite forallb_forall in H. apply H.
  apply list_elem_of_In, elem_of_seqZ. unfold is_u8 in Hb. lia.
Qed.

Lemma byte_land_7f b : is_u8 b -> Z.land b 0x7F = b mod 128.
Proof.
  intros Hb. apply Z.eqb_eq. revert b Hb.
  apply (byte_forall (fun b => Z.land b 0x7F =? b mod 128)). by vm_compute.
Qed.

Lemma byte_land_80 b : is_u8 b -> (Z.land b 0x80 =? 0) = (b <? 128).
Proof.
  intros Hb. apply eqb_prop. revert b Hb.
  apply (byte_forall (fun b => eqb (Z.land b 0x80 =? 0) (b <? 128))). by vm_compute.
Qed.
