(* ===== verification/Bytes.v ===== *)
(** * Bytes: [ByteBuffer], [ByteWriter], [ByteReader] (src/byte_buffer.cpp) and
    [BitReader] (src/bit_reader.cpp)

    [ByteBuffer] is modelled at the level of its allocation: [mBuf] is an
    array of cells, [None] for a byte nobody has written, with the length and
    the capacity kept apart.  The refinement theorem says that every sequence
    of operations behaves as the corresponding operations on a list of bytes
    and never touches memory outside the allocation; the other files of the
    development therefore write a buffer as its list of bytes.

    [size_t] lengths and positions are [nat]: the sizes involved are sizes of
    objects in memory, so their sums do not wrap. *)

From S2P Require Import Prelude.

(** ** ByteBuffer *)

Module ByteBuffer.

Record t := mk {
  mBuf : list (option Z);
  mLen : nat;
  mCap : nat
}.

(** [std::memcpy(mBuf + off, src, n)] and [std::memset]: [None] outside the
    allocation. *)
Definition store (mem : list (option Z)) (off : nat) (src : list (option Z))
  : option (list (option Z)) :=
  if decide (off + length src <= length mem)%nat
  then Some (take off mem ++ src ++ drop (off + length src) mem)
  else None.

(** [new uint8_t[n]]: uninitialised cells. *)
Definition alloc (n : nat) : list (option Z) := replicate n None.

Definition make_empty : t := mk [] 0 0.
Definition make_size (size : nat) : t := mk (alloc size) 0 size.
Definition make_from (src : list Z) : t :=
  mk (Some <$> src) (length src) (length src).

(** Move construction: the new object and what is left of the source. *)
Definition move (other : t) : t * t := (other, mk [] 0 0).

Definition empty (b : t) : bool := (mLen b =? 0)%nat.
Definition clear (b : t) : t := mk (mBuf b) 0 (mCap b).
Definition free (b : t) : t := mk [] 0 0.
Definition assign (b : t) (src : list Z) : t :=
  mk (Some <$> src) (length src) (length src).

(** [resize] asserts [size <= mCap]. *)
Definition resize (b : t) (size : nat) : option t :=
  if decide (size <= mCap b)%nat then Some (mk (mBuf b) size (mCap b)) else None.

Definition ensureCapacity (b : t) (capacity : nat) : option t :=
  if decide (mCap b < capacity)%nat then
    let newCap := Nat.max (capacity + 128) (mCap b * 3 / 2) in
    newBuf ← (if decide (0 < mLen b)%nat
              then store (alloc newCap) 0 (take (mLen b) (mBuf b))
              else Some (alloc newCap));
    Some (mk newBuf (mLen b) newCap)
  else Some b.

Definition reserve (b : t) (size : nat) : option t := ensureCapacity b size.

Definition append (b : t) (src : list Z) : option t :=
  if decide (0 < length src)%nat then
    b1 ← ensureCapacity b (mLen b + length src);
    mem ← store (mBuf b1) (mLen b1) (Some <$> src);
    Some (mk mem (mLen b1 + length src) (mCap b1))
  else Some b.

Definition append_buffer (b other : t) : option t :=
  if decide (0 < mLen other)%nat then
    b1 ← ensureCapacity b (mLen b + mLen other);
    mem ← store (mBuf b1) (mLen b1) (take (mLen other) (mBuf other));
    Some (mk mem (mLen b1 + mLen other) (mCap b1))
  else Some b.

Definition padding (b : t) (c : Z) (size : nat) : option t :=
  b1 ← ensureCapacity b (mLen b + size);
  mem ← store (mBuf b1) (mLen b1) (replicate size (Some c));
  Some (mk mem (mLen b1 + size) (mCap b1)).

(** [front] asserts that the buffer is not empty; reading an uninitialised
    cell is [None] as well. *)
Definition front (b : t) : option Z :=
  if decide (0 < mLen b)%nat then mjoin (mBuf b !! 0%nat) else None.

Definition size (b : t) : nat := mLen b.
Definition capacity (b : t) : nat := mCap b.

(** The bytes of the buffer, all initialised. *)
Definition contents (b : t) : option (list Z) := mapM id (take (mLen b) (mBuf b)).

Definition copy (b : t) : option t := make_from <$> contents b.

Definition eqb (b other : t) : option bool :=
  if decide (mLen b = mLen other) then
    x ← contents b; y ← contents other; Some (bool_decide (x = y))
  else Some false.

(** *** Representation *)

(** The allocation has [mCap] cells, the length fits in it, and the first
    [mLen] cells hold [l]. *)
Definition represents (b : t) (l : list Z) : Prop :=
  length (mBuf b) = mCap b /\ (mLen b <= mCap b)%nat /\
  take (mLen b) (mBuf b) = Some <$> l.

Lemma represents_length b l : represents b l -> mLen b = length l.
Proof.
  intros (Hm & Hl & Ht). apply (f_equal length) in Ht.
  rewrite length_take, length_fmap in Ht. lia.
Qed.

Lemma contents_represents b l : represents b l -> contents b = Some l.
Proof.
  intros (_ & _ & Ht). unfold contents. rewrite Ht.
  apply mapM_Some. clear. induction l; simpl; by constructor.
Qed.

Lemma store_ok mem off src :
  (off + length src <= length mem)%nat ->
  store mem off src = Some (take off mem ++ src ++ drop (off + length src) mem).
Proof. intros. unfold store. by rewrite decide_True. Qed.

Lemma ensureCapacity_represents b l n :
  represents b l ->
  exists b', ensureCapacity b n = Some b' /\ represents b' l /\ (n <= mCap b')%nat.
Proof.
  intros Hr. pose proof (represents_length _ _ Hr) as Hlen.
  destruct Hr as (Hm & Hl & Ht). unfold ensureCapacity.
  destruct (decide (mCap b < n)%nat) as [Hc|Hc]; cycle 1.
  { exists b. split_and!; done || lia. }
  set (newCap := Nat.max _ _).
  assert (n + 128 <= newCap)%nat by lia.
  assert (length (alloc newCap) = newCap) as Ha by apply length_replicate.
  destruct (decide (0 < mLen b)%nat) as [H0|H0].
  - assert (length (take (mLen b) (mBuf b)) = mLen b) as Hlt
      by (rewrite length_take; lia).
    rewrite store_ok by lia. simpl. eexists. split; [done|].
    unfold represents. simpl. rewrite length_app, length_drop, Ha, Hlt.
    split_and!; try lia. by rewrite take_length_app.
  - simpl. eexists. split; [done|]. unfold represents. simpl.
    replace (mLen b) with 0%nat in * by lia. destruct l; [|done].
    split_and!; [done|lia|done|lia].
Qed.

(** Writing initialised cells after the contents extends the contents. *)
Lemma store_represents b l cells src :
  represents b l -> cells = Some <$> src ->
  (mLen b + length src <= mCap b)%nat ->
  exists mem, store (mBuf b) (mLen b) cells = Some mem /\
    represents (mk mem (mLen b + length src) (mCap b)) (l ++ src).
Proof.
  intros Hr -> Hfit. pose proof (represents_length _ _ Hr) as Hlen.
  destruct Hr as (Hm & Hl & Ht).
  assert (length (Some <$> src) = length src) as Hs by apply length_fmap.
  rewrite store_ok by lia. eexists. split; [done|]. unfold represents. simpl.
  rewrite !length_app, length_take, length_drop, Hs.
  split_and!; try lia. rewrite app_assoc, Ht, <- fmap_app.
  apply take_length_app. rewrite length_fmap, length_app. lia.
Qed.

Lemma append_represents b l src :
  represents b l -> exists b', append b src = Some b' /\ represents b' (l ++ src).
Proof.
  intros Hr. unfold append. destruct (decide (0 < length src)%nat) as [H0|H0].
  - destruct (ensureCapacity_represents b l (mLen b + length src) Hr)
      as (b1 & -> & Hr1 & Hc). simpl.
    pose proof (represents_length _ _ Hr). pose proof (represents_length _ _ Hr1).
    destruct (store_represents b1 l _ src Hr1 eq_refl) as (mem & -> & Hr2); [lia|].
    eauto.
  - destruct src; [|simpl in *; lia]. rewrite app_nil_r. eauto.
Qed.

Lemma append_buffer_represents b l other k :
  represents b l -> represents other k ->
  exists b', append_buffer b other = Some b' /\ represents b' (l ++ k).
Proof.
  intros Hr Hk. pose proof (represents_length _ _ Hk) as Hlk. unfold append_buffer.
  destruct (decide (0 < mLen other)%nat) as [H0|H0].
  - destruct (ensureCapacity_represents b l (mLen b + mLen other) Hr)
      as (b1 & -> & Hr1 & Hc). simpl.
    pose proof (represents_length _ _ Hr). pose proof (represents_length _ _ Hr1).
    destruct (store_represents b1 l _ k Hr1 (proj2 (proj2 Hk))) as (mem & -> & Hr2); [lia|].
    rewrite Hlk. eauto.
  - destruct k; [|simpl in *; lia]. rewrite app_nil_r. eauto.
Qed.

Lemma padding_represents b l c n :
  represents b l ->
  exists b', padding b c n = Some b' /\ represents b' (l ++ replicate n c).
Proof.
  intros Hr. unfold padding.
  destruct (ensureCapacity_represents b l (mLen b + n) Hr) as (b1 & -> & Hr1 & Hc). simpl.
  pose proof (represents_length _ _ Hr). pose proof (represents_length _ _ Hr1).
  assert (replicate n (Some c) = Some <$> replicate n c) as E by (by rewrite fmap_replicate).
  destruct (store_represents b1 l _ _ Hr1 E) as (mem & -> & Hr2);
    rewrite length_replicate in *; [lia|]. eauto.
Qed.

Lemma resize_represents b l n :
  represents b l -> (n <= length l)%nat ->
  exists b', resize b n = Some b' /\ represents b' (take n l).
Proof.
  intros Hr Hn. pose proof (represents_length _ _ Hr). destruct Hr as (Hm & Hl & Ht).
  unfold resize. rewrite decide_True by lia. eexists. split; [done|].
  unfold represents. simpl. split_and!; [done|lia|].
  rewrite fmap_take, <- Ht, take_take. f_equal. lia.
Qed.

Lemma make_from_represents l : represents (make_from l) l.
Proof.
  unfold represents, make_from. simpl. rewrite length_fmap.
  split_and!; [done..|]. rewrite <- (length_fmap Some l). by rewrite firstn_all.
Qed.

(** *** The abstract specification: a buffer is a list of bytes *)

Inductive op :=
  | OpClear
  | OpFree
  | OpAssign (src : list Z)
  | OpReserve (n : nat)
  | OpAppend (src : list Z)
  | OpAppendBuffer (src : list Z)
  | OpPadding (c : Z) (n : nat)
  | OpResize (n : nat)
  | OpCopy.

Definition run_op (o : op) (b : t) : option t :=
  match o with
  | OpClear => Some (clear b)
  | OpFree => Some (free b)
  | OpAssign src => Some (assign b src)
  | OpReserve n => reserve b n
  | OpAppend src => append b src
  | OpAppendBuffer src => append_buffer b (make_from src)
  | OpPadding c n => padding b c n
  | OpResize n => resize b n
  | OpCopy => copy b
  end.

(** What the callers rely on; [resize] is only specified for shrinking, since
    growing exposes uninitialised bytes. *)
Definition spec_op (o : op) (l : list Z) : option (list Z) :=
  match o with
  | OpClear | OpFree => Some []
  | OpAssign src => Some src
  | OpReserve _ => Some l
  | OpAppend src | OpAppendBuffer src => Some (l ++ src)
  | OpPadding c n => Some (l ++ replicate n c)
  | OpResize n => if decide (n <= length l)%nat then Some (take n l) else None
  | OpCopy => Some l
  end.

Fixpoint run_ops (os : list op) (b : t) : option t :=
  match os with
  | [] => Some b
  | o :: os => b' ← run_op o b; run_ops os b'
  end.

Fixpoint spec_ops (os : list op) (l : list Z) : option (list Z) :=
  match os with
  | [] => Some l
  | o :: os => l' ← spec_op o l; spec_ops os l'
  end.

Lemma run_op_represents o b l l' :
  represents b l -> spec_op o l = Some l' ->
  exists b', run_op o b = Some b' /\ represents b' l'.
Proof.
  intros Hr. destruct o; simpl; intros Hs; simplify_eq.
  - exists (clear b). split; [done|]. destruct Hr as (? & ? & ?).
    split_and!; simpl; [done|lia|done].
  - exists (free b). done.
  - exists (assign b l'). split; [done|]. apply make_from_represents.
  - destruct (ensureCapacity_represents b l' n Hr) as (b' & ? & ? & ?). eauto.
  - by apply append_represents.
  - apply append_buffer_represents; [done|]. apply make_from_represents.
  - by apply padding_represents.
  - case_decide; simplify_eq. by apply resize_represents.
  - unfold copy. rewrite (contents_represents _ _ Hr). simpl.
    eauto using make_from_represents.
Qed.

Lemma eqb_represents b l c k :
  represents b l -> represents c k -> eqb b c = Some (bool_decide (l = k)).
Proof.
  intros Hb Hc. unfold eqb.
  rewrite (represents_length _ _ Hb), (represents_length _ _ Hc).
  rewrite (contents_represents _ _ Hb), (contents_represents _ _ Hc).
  case_decide; simpl; [done|]. f_equal. symmetry. apply bool_decide_eq_false.
  congruence.
Qed.

Lemma front_represents b x l : represents b (x :: l) -> front b = Some x.
Proof.
  intros Hr. pose proof (represents_length _ _ Hr) as Hl. destruct Hr as (_ & _ & Ht).
  unfold front. simpl in Hl. rewrite decide_True by lia. rewrite Hl in Ht.
  destruct (mBuf b) as [|c m]; simpl in *; by simplify_eq.
Qed.

(** every sequence of buffer operations that the list specification
    allows runs without leaving the allocation (no store outside [mBuf], no
    failed [resize] assertion), and its observable state - size, bytes,
    emptiness, copy - is the one of the list. *)
Theorem bytebuffer_refines_list os l' :
  spec_ops os [] = Some l' ->
  exists b, run_ops os make_empty = Some b /\
    length (mBuf b) = mCap b /\ (mLen b <= mCap b)%nat /\
    size b = length l' /\ contents b = Some l' /\
    (empty b = true <-> l' = []).
Proof.
  assert (forall b l, represents b l -> spec_ops os l = Some l' ->
    exists b', run_ops os b = Some b' /\ represents b' l') as Hgen.
  { induction os as [|o os IH]; simpl; intros b l Hr Hs.
    - simplify_eq. eauto.
    - inv_bind. destruct (run_op_represents o b l a Hr Ha) as (b' & -> & Hr').
      simpl. eauto. }
  intros Hs. destruct (Hgen make_empty [] (make_from_represents []) Hs) as (b & Hrun & Hr).
  exists b. pose proof (represents_length _ _ Hr) as Hlen.
  pose proof (contents_represents _ _ Hr). destruct Hr as (? & ? & _).
  split_and!; try done. unfold empty. rewrite Nat.eqb_eq, Hlen.
  split; [by destruct l' | by intros ->].
Qed.

Definition demo_ops : list op :=
  [OpAppend [1; 2; 3]; OpPadding 9 2; OpResize 4; OpAppendBuffer [7]; OpCopy; OpReserve 400].

Lemma bytebuffer_refines_list_witness :
  exists b, run_ops demo_ops make_empty = Some b /\
    length (mBuf b) = mCap b /\ (mLen b <= mCap b)%nat /\
    size b = 5%nat /\ contents b = Some [1; 2; 3; 9; 7] /\
    (empty b = true <-> [1; 2; 3; 9; 7] = []).
Proof.
  apply (bytebuffer_refines_list demo_ops [1; 2; 3; 9; 7]). vm_compute. reflexivity.
Defined.

End ByteBuffer.

(** ** ByteWriter

    The writer appends to its buffer, here the list of the buffer's bytes. *)

Module ByteWriter.

Definition write (buf value : list Z) : list Z := buf ++ value.
Definition padding (buf : list Z) (c : Z) (size : nat) : list Z := buf ++ replicate size c.

Definition writeU8 (buf : list Z) (value : Z) : list Z := write buf [u8 value].

Definition writeU16 (buf : list Z) (value : Z) : list Z :=
  write buf [u8 (Z.shiftr value 8); u8 value].

Definition writeU24 (buf : list Z) (value : Z) : list Z :=
  write buf [u8 (Z.shiftr value 16); u8 (Z.shiftr value 8); u8 value].

Definition writeU32 (buf : list Z) (value : Z) : list Z :=
  write buf [u8 (Z.shiftr value 24); u8 (Z.shiftr value 16);
             u8 (Z.shiftr value 8); u8 value].

Definition writeU48 (buf : list Z) (value : Z) : list Z :=
  write buf [u8 (Z.shiftr value 40); u8 (Z.shiftr value 32);
             u8 (Z.shiftr value 24); u8 (Z.shiftr value 16);
             u8 (Z.shiftr value 8); u8 value].

Definition writeU64 (buf : list Z) (value : Z) : list Z :=
  write buf [u8 (Z.shiftr value 56); u8 (Z.shiftr value 48);
             u8 (Z.shiftr value 40); u8 (Z.shiftr value 32);
             u8 (Z.shiftr value 24); u8 (Z.shiftr value 16);
             u8 (Z.shiftr value 8); u8 value].

(** The [while (true)] loop of [writeLEB128]; [None] when the fuel runs out. *)
Fixpoint leb128_loop (fuel : nat) (buf : list Z) (remaining : Z) : option (list Z) :=
  match fuel with
  | O => None
  | S fuel =>
      let sevenBits := Z.land remaining 0x7F in
      let remaining := Z.shiftr remaining 7 in
      if remaining =? 0 then Some (writeU8 buf sevenBits)
      else leb128_loop fuel (writeU8 buf (Z.lor 0x80 sevenBits)) remaining
  end.

(** Five groups of seven bits cover 32 bits. *)
Definition writeLEB128 (buf : list Z) (value : Z) : option (list Z) :=
  leb128_loop 5 buf value.

End ByteWriter.

(** ** ByteReader

    The reader's [mLen] is the length of its list of bytes. *)

Module ByteReader.

Record t := mk { mBuf : list Z; mPos : nat }.

Definition make (buf : list Z) : t := mk buf 0.

Definition size (r : t) : nat := length (mBuf r).
Definition position (r : t) : nat := mPos r.
Definition remaining (r : t) : nat :=
  if decide (size r <= mPos r)%nat then 0 else size r - mPos r.

(** The bytes from [current()] to the end. *)
Definition current (r : t) : list Z := drop (mPos r) (mBuf r).

(** [check_read]: the program aborts when fewer than [n] bytes are left. *)
Definition check_read (r : t) (n : nat) : option unit :=
  guard_true (mPos r + n <=? size r)%nat.

(** The bytes of a read of [n] and the reader after it. *)
Definition take_bytes (r : t) (n : nat) : option (list Z * t) :=
  _ ← check_read r n;
  Some (take n (current r), mk (mBuf r) (mPos r + n)).

Definition readU8 (r : t) : option (Z * t) :=
  '(bs, r) ← take_bytes r 1;
  match bs with [a] => Some (a, r) | _ => None end.

Definition readU16 (r : t) : option (Z * t) :=
  '(bs, r) ← take_bytes r 2;
  match bs with
  | [a; b] => Some (u16 (Z.lor (Z.shiftl a 8) b), r)
  | _ => None
  end.

Definition readU32 (r : t) : option (Z * t) :=
  '(bs, r) ← take_bytes r 4;
  match bs with
  | [a; b; c; d] =>
      Some (u32 (Z.lor (Z.lor (Z.lor (Z.shiftl a 24) (Z.shiftl b 16)) (Z.shiftl c 8)) d), r)
  | _ => None
  end.

Definition readU64 (r : t) : option (Z * t) :=
  '(bs, r) ← take_bytes r 8;
  match bs with
  | [a; b; c; d; e; f; g; h] =>
      Some (u64 (Z.lor (Z.lor (Z.lor (Z.lor (Z.lor (Z.lor (Z.lor
        (Z.shiftl a 56) (Z.shiftl b 48)) (Z.shiftl c 40)) (Z.shiftl d 32))
        (Z.shiftl e 24)) (Z.shiftl f 16)) (Z.shiftl g 8)) h), r)
  | _ => None
  end.

(** The loop of [readLEB128] reads at most five bytes, since [shift] grows by
    seven and stops the loop at 32. *)
Fixpoint leb128_loop (fuel : nat) (r : t) (result shift : Z) : option (Z * t) :=
  match fuel with
  | O => None
  | S fuel =>
      match current r with
      | [] => Some (result, r)
      | byte :: _ =>
          let r := mk (mBuf r) (S (mPos r)) in
          let result := Z.lor result (u32 (Z.shiftl (Z.land byte 0x7F) shift)) in
          if Z.land byte 0x80 =? 0 then Some (result, r)
          else if 32 <=? shift + 7 then Some (result, r)
          else leb128_loop fuel r result (shift + 7)
      end
  end.

Definition readLEB128 (r : t) : option (Z * t) := leb128_loop 5 r 0 0.

Definition readByteBuffer (r : t) (n : nat) : option (list Z * t) := take_bytes r n.
Definition readString (r : t) (n : nat) : option (list Z * t) := take_bytes r n.
Definition read (r : t) (n : nat) : option (list Z * t) := take_bytes r n.

Definition skip (r : t) (n : nat) : option t :=
  _ ← check_read r n; Some (mk (mBuf r) (mPos r + n)).

(** *** Reading at a known position *)

(** A reader that has consumed [pre] and has [post] left. *)
Definition reader_at (pre post : list Z) : t := mk (pre ++ post) (length pre).

Lemma make_reader_at l : make l = reader_at [] l.
Proof. done. Qed.

Lemma remaining_at pre post : remaining (reader_at pre post) = length post.
Proof.
  unfold remaining, size, reader_at. simpl. rewrite length_app. case_decide; lia.
Qed.

Lemma position_at pre post : position (reader_at pre post) = length pre.
Proof. done. Qed.

Lemma current_at pre post : current (reader_at pre post) = post.
Proof. unfold current, reader_at. simpl. apply drop_app_length. Qed.

Lemma check_read_at pre post n :
  check_read (reader_at pre post) n = guard_true (n <=? length post)%nat.
Proof.
  unfold check_read, size, reader_at. simpl. rewrite length_app. f_equal.
  destruct (Nat.leb_spec (length pre + n) (length pre + length post)), (Nat.leb_spec n (length post)); lia.
Qed.

Lemma take_bytes_at pre bs post :
  take_bytes (reader_at pre (bs ++ post)) (length bs) = Some (bs, reader_at (pre ++ bs) post).
Proof.
  unfold take_bytes. rewrite check_read_at, length_app.
  replace (_ <=? _)%nat with true by (symmetry; apply Nat.leb_le; lia). simpl.
  rewrite current_at, take_app_length. unfold reader_at. simpl.
  by rewrite length_app, app_assoc.
Qed.

Lemma take_bytes_at_n n pre bs post :
  n = length bs ->
  take_bytes (reader_at pre (bs ++ post)) n = Some (bs, reader_at (pre ++ bs) post).
Proof. intros ->. apply take_bytes_at. Qed.

Lemma take_bytes_short pre post n :
  (length post < n)%nat -> take_bytes (reader_at pre post) n = None.
Proof.
  intros. unfold take_bytes. rewrite check_read_at.
  by replace (_ <=? _)%nat with false by (symmetry; apply Nat.leb_gt; lia).
Qed.

Lemma take_bytes_split pre post n :
  (n <= length post)%nat ->
  take_bytes (reader_at pre post) n =
  Some (take n post, reader_at (pre ++ take n post) (drop n post)).
Proof.
  intros. rewrite <- (take_drop n post) at 1. apply take_bytes_at_n.
  rewrite length_take. lia.
Qed.

Lemma skip_at pre bs post n :
  n = length bs ->
  skip (reader_at pre (bs ++ post)) n = Some (reader_at (pre ++ bs) post).
Proof.
  intros ->. unfold skip. rewrite check_read_at, length_app.
  replace (_ <=? _)%nat with true by (symmetry; apply Nat.leb_le; lia). simpl.
  unfold reader_at. simpl. by rewrite length_app, app_assoc.
Qed.

Lemma skip_split pre post n :
  (n <= length post)%nat ->
  skip (reader_at pre post) n = Some (reader_at (pre ++ take n post) (drop n post)).
Proof.
  intros. rewrite <- (take_drop n post) at 1. apply skip_at. rewrite length_take. lia.
Qed.

Lemma readU8_at pre a post :
  readU8 (reader_at pre (a :: post)) = Some (a, reader_at (pre ++ [a]) post).
Proof. unfold readU8. change (a :: post) with ([a] ++ post). by rewrite take_bytes_at_n. Qed.

Lemma readU16_at pre a b post :
  is_u8 a -> is_u8 b ->
  readU16 (reader_at pre (a :: b :: post)) =
  Some (be_value [a; b], reader_at (pre ++ [a; b]) post).
Proof.
  unfold is_u8. intros. unfold readU16.
  change (a :: b :: post) with ([a; b] ++ post). rewrite take_bytes_at_n by done.
  cbn [mbind option_bind]. rewrite lor_shiftl_add by lia. do 2 f_equal.
  rewrite u16_small; unfold be_value, is_u16; cbn [fold_left]; lia.
Qed.

Lemma readU32_at pre a b c d post :
  is_u8 a -> is_u8 b -> is_u8 c -> is_u8 d ->
  readU32 (reader_at pre (a :: b :: c :: d :: post)) =
  Some (be_value [a; b; c; d], reader_at (pre ++ [a; b; c; d]) post).
Proof.
  unfold is_u8. intros. unfold readU32.
  change (a :: b :: c :: d :: post) with ([a; b; c; d] ++ post).
  rewrite take_bytes_at_n by done.
  cbn [mbind option_bind]. rewrite !lor_shiftl_shiftl, lor_shiftl_add by lia. do 2 f_equal.
  rewrite u32_small; unfold be_value, is_u32; cbn [fold_left]; lia.
Qed.

Lemma readU64_at pre a b c d e f g h post :
  bytes_ok [a; b; c; d; e; f; g; h] ->
  readU64 (reader_at pre ([a; b; c; d; e; f; g; h] ++ post)) =
  Some (be_value [a; b; c; d; e; f; g; h],
        reader_at (pre ++ [a; b; c; d; e; f; g; h]) post).
Proof.
  intros Hok. pose proof (be_value_range _ Hok) as Hr.
  bytes_bounds.
  unfold readU64. rewrite (take_bytes_at_n 8) by done.
  cbn [mbind option_bind]. rewrite !lor_shiftl_shiftl, lor_shiftl_add by lia. do 2 f_equal.
  rewrite u64_small; unfold be_value, is_u64; cbn [fold_left]; lia.
Qed.

(** Reads that have enough bytes succeed, whatever the bytes. *)
Lemma readU8_some pre post :
  (1 <= length post)%nat ->
  exists v, readU8 (reader_at pre post) = Some (v, reader_at (pre ++ take 1 post) (drop 1 post)).
Proof.
  intros H. unfold readU8. rewrite take_bytes_split by done. destruct post; simpl in H; [lia|].
  cbn [mbind option_bind take drop]. rewrite take_0. by eexists.
Qed.

Lemma readU64_some pre post :
  (8 <= length post)%nat ->
  exists v, readU64 (reader_at pre post) = Some (v, reader_at (pre ++ take 8 post) (drop 8 post)).
Proof.
  intros H. unfold readU64. rewrite take_bytes_split by done.
  do 8 (destruct post; simpl in H; [lia|]). cbn [mbind option_bind take drop]. by eexists.
Qed.

Lemma readU16_some pre post :
  (2 <= length post)%nat ->
  exists v, readU16 (reader_at pre post) = Some (v, reader_at (pre ++ take 2 post) (drop 2 post)).
Proof.
  intros H. unfold readU16. rewrite take_bytes_split by done.
  do 2 (destruct post; simpl in H; [lia|]). cbn [mbind option_bind take drop]. by eexists.
Qed.

Lemma readU32_some pre post :
  (4 <= length post)%nat ->
  exists v, readU32 (reader_at pre post) = Some (v, reader_at (pre ++ take 4 post) (drop 4 post)).
Proof.
  intros H. unfold readU32. rewrite take_bytes_split by done.
  do 4 (destruct post; simpl in H; [lia|]). cbn [mbind option_bind take drop]. by eexists.
Qed.

Lemma readU16_range r v r' : readU16 r = Some (v, r') -> is_u16 v.
Proof.
  unfold readU16. intros E. apply bind_Some_inv in E as ([bs r1] & _ & E).
  destruct bs as [|a [|b []]]; try done. injection E as <- _. apply u16_range.
Qed.

End ByteReader.

(** ** Round trips *)

Module Wire.
Import ByteReader.

(** The fixed-width big-endian fields that both the writer and the reader
    know. *)
Inductive width := W8 | W16 | W32 | W64.

Definition width_bytes (w : width) : nat :=
  match w with W8 => 1 | W16 => 2 | W32 => 4 | W64 => 8 end.

Definition write_field (w : width) : list Z -> Z -> list Z :=
  match w with
  | W8 => ByteWriter.writeU8
  | W16 => ByteWriter.writeU16
  | W32 => ByteWriter.writeU32
  | W64 => ByteWriter.writeU64
  end.

Definition read_field (w : width) : t -> option (Z * t) :=
  match w with W8 => readU8 | W16 => readU16 | W32 => readU32 | W64 => readU64 end.

Definition field_ok (f : width * Z) : Prop :=
  0 <= f.2 < 2 ^ (8 * Z.of_nat (width_bytes f.1)).

Fixpoint read_fields (ws : list width) (r : t) : option (list Z * t) :=
  match ws with
  | [] => Some ([], r)
  | w :: ws =>
      '(v, r) ← read_field w r;
      '(vs, r) ← read_fields ws r;
      Some (v :: vs, r)
  end.

Lemma write_field_be w buf v : write_field w buf v = buf ++ be_bytes (width_bytes w) v.
Proof.
  destruct w; simpl; unfold ByteWriter.writeU8, ByteWriter.writeU16,
    ByteWriter.writeU32, ByteWriter.writeU64, ByteWriter.write;
    by rewrite ?Z.shiftr_0_r.
Qed.

Lemma read_field_be w pre bs post :
  bytes_ok bs -> length bs = width_bytes w ->
  read_field w (reader_at pre (bs ++ post)) = Some (be_value bs, reader_at (pre ++ bs) post).
Proof.
  intros Hok Hl.
  destruct w; simpl in Hl;
    repeat match goal with
    | H : length ?l = S _ |- _ => destruct l as [|? l]; simpl in H; [done|]; injection H as H
    | H : length ?l = 0%nat |- _ => apply nil_length_inv in H as ->
    end; cbn [read_field].
  - cbn [app]. rewrite readU8_at. do 2 f_equal.
  - bytes_bounds. cbn [app]. by rewrite readU16_at.
  - bytes_bounds. cbn [app]. by rewrite readU32_at.
  - by apply readU64_at.
Qed.

Lemma read_write_field w pre v post :
  field_ok (w, v) ->
  read_field w (reader_at pre (write_field w [] v ++ post)) =
  Some (v, reader_at (pre ++ write_field w [] v) post).
Proof.
  intros Hv. rewrite write_field_be. cbn [app].
  rewrite read_field_be by (apply be_bytes_ok || apply length_be_bytes).
  rewrite be_value_bytes by done. done.
Qed.

(** The writers and readers of each width, in the form clients rewrite with. *)
Lemma writeU8_be buf v : ByteWriter.writeU8 buf v = buf ++ be_bytes 1 v.
Proof. apply (write_field_be W8). Qed.
Lemma writeU16_be buf v : ByteWriter.writeU16 buf v = buf ++ be_bytes 2 v.
Proof. apply (write_field_be W16). Qed.
Lemma writeU32_be buf v : ByteWriter.writeU32 buf v = buf ++ be_bytes 4 v.
Proof. apply (write_field_be W32). Qed.
Lemma writeU64_be buf v : ByteWriter.writeU64 buf v = buf ++ be_bytes 8 v.
Proof. apply (write_field_be W64). Qed.

Lemma read_be w pre v post : field_ok (w, v) ->
  read_field w (reader_at pre (be_bytes (width_bytes w) v ++ post)) =
  Some (v, reader_at (pre ++ be_bytes (width_bytes w) v) post).
Proof.
  intros Hv. pose proof (read_write_field w pre v post Hv) as H.
  by rewrite write_field_be in H.
Qed.

Lemma readU8_be pre v post : is_u8 v ->
  readU8 (reader_at pre (be_bytes 1 v ++ post)) = Some (v, reader_at (pre ++ be_bytes 1 v) post).
Proof. apply (read_be W8). Qed.
Lemma readU16_be pre v post : is_u16 v ->
  readU16 (reader_at pre (be_bytes 2 v ++ post)) = Some (v, reader_at (pre ++ be_bytes 2 v) post).
Proof. apply (read_be W16). Qed.
Lemma readU32_be pre v post : is_u32 v ->
  readU32 (reader_at pre (be_bytes 4 v ++ post)) = Some (v, reader_at (pre ++ be_bytes 4 v) post).
Proof. apply (read_be W32). Qed.
Lemma readU64_be pre v post : is_u64 v ->
  readU64 (reader_at pre (be_bytes 8 v ++ post)) = Some (v, reader_at (pre ++ be_bytes 8 v) post).
Proof. apply (read_be W64). Qed.

(** any sequence of fixed-width fields written one after the other is read
    back, field by field, with the bytes around them untouched, and the reader
    stops exactly behind the last field. *)
Theorem fields_roundtrip fs pre post :
  Forall field_ok fs ->
  let body := fold_left (fun buf f => write_field f.1 buf f.2) fs [] in
  length body = list_sum (map (fun f => width_bytes f.1) fs) /\
  read_fields (map fst fs) (reader_at pre (body ++ post)) =
  Some (map snd fs, reader_at (pre ++ body) post).
Proof.
  intros Hfs.
  assert (forall buf, fold_left (fun buf f => write_field f.1 buf f.2) fs buf =
    buf ++ concat (map (fun f => be_bytes (width_bytes f.1) f.2) fs)) as E.
  { clear. induction fs as [|f fs IH]; intros buf; simpl; [by rewrite app_nil_r|].
    by rewrite IH, write_field_be, <- app_assoc. }
  cbv zeta. rewrite E. cbn [app]. split.
  { clear. induction fs as [|f fs IH]; simpl; [done|].
    by rewrite length_app, length_be_bytes, IH. }
  clear E. revert pre. induction Hfs as [|[w v] fs Hf Hfs IH]; intros pre; simpl.
  { by rewrite app_nil_r. }
  rewrite <- app_assoc.
  rewrite read_field_be by (apply be_bytes_ok || apply length_be_bytes).
  simpl. rewrite IH. simpl. rewrite be_value_bytes by done. by rewrite <- app_assoc.
Qed.

Lemma fields_roundtrip_witness :
  let fs := [(W16, 0x8061); (W16, 513); (W32, 4000000000); (W8, 255); (W64, 2 ^ 63)] in
  let body := fold_left (fun buf f => write_field f.1 buf f.2) fs [] in
  length body = 17%nat /\
  read_fields (map fst fs) (reader_at [9] (body ++ [1; 2])) =
  Some (map snd fs, reader_at ([9] ++ body) [1; 2]).
Proof.
  apply (fields_roundtrip
    [(W16, 0x8061); (W16, 513); (W32, 4000000000); (W8, 255); (W64, 2 ^ 63)] [9] [1; 2]).
  repeat constructor; vm_compute; congruence.
Defined.

(** *** LEB128 *)

Lemma u8_or_80 x : 0 <= x < 128 -> u8 (Z.lor 0x80 x) = 128 + x.
Proof.
  intros. replace (Z.lor 0x80 x) with (128 + x).
  - by rewrite u8_small by (unfold is_u8; lia).
  - symmetry. by apply (lor_shiftl_add 1 x 7).
Qed.

Lemma leb128_step v :
  0 <= v -> Z.land v 0x7F = v mod 128 /\ Z.shiftr v 7 = v / 128.
Proof.
  intros. split; [by apply (land_ones_mod v 7) | by apply (shiftr_div v 7)].
Qed.

Lemma leb128_write_buf fuel buf v :
  ByteWriter.leb128_loop fuel buf v = app buf <$> ByteWriter.leb128_loop fuel [] v.
Proof.
  revert buf v. induction fuel as [|fuel IH]; intros buf v; [done|].
  cbn [ByteWriter.leb128_loop]. destruct (_ =? 0); [done|].
  rewrite IH, (IH (ByteWriter.writeU8 [] _)). destruct (ByteWriter.leb128_loop _ _ _); [|done].
  simpl. unfold ByteWriter.writeU8, ByteWriter.write. by rewrite <- !app_assoc.
Qed.

(** One step of the reader, on a byte [b] whose payload is [b mod 128]. *)
Lemma leb128_read_step fuel b pre post result shift :
  is_u8 b -> 0 <= shift -> 0 <= result < 2 ^ shift ->
  b mod 128 * 2 ^ shift < 2 ^ 32 ->
  leb128_loop (S fuel) (reader_at pre (b :: post)) result shift =
  let r := reader_at (pre ++ [b]) post in
  let result := b mod 128 * 2 ^ shift + result in
  if b <? 128 then Some (result, r)
  else if 32 <=? shift + 7 then Some (result, r)
  else leb128_loop fuel r result (shift + 7).
Proof.
  intros Hb Hs Hr Hfit. cbn [leb128_loop]. rewrite current_at.
  rewrite byte_land_80, byte_land_7f by done.
  assert (0 <= b mod 128 * 2 ^ shift).
  { apply Z.mul_nonneg_nonneg; [apply Z.mod_pos_bound|apply Z.pow_nonneg]; lia. }
  rewrite Z.lor_comm, u32_small, lor_shiftl_add; try done.
  - unfold reader_at. cbn [mBuf mPos]. by rewrite length_app, Nat.add_1_r, <- app_assoc.
  - rewrite Z.shiftl_mul_pow2 by lia. unfold is_u32. lia.
Qed.

(** The reader undoes the writer from any intermediate state of the two
    loops. *)
Lemma leb128_loops fuel : forall v shift result pre post,
  0 <= shift -> shift + 7 * Z.of_nat fuel = 35 ->
  0 <= v < 2 ^ (32 - shift) -> 0 <= result < 2 ^ shift ->
  exists bs, ByteWriter.leb128_loop fuel [] v = Some bs /\
    leb128_loop fuel (reader_at pre (bs ++ post)) result shift =
    Some (v * 2 ^ shift + result, reader_at (pre ++ bs) post).
Proof.
  induction fuel as [|fuel IH]; intros v shift result pre post Hs Hf Hv Hr.
  { replace (32 - shift) with (-3) in Hv by lia. simpl in Hv. lia. }
  assert (shift <= 32) as H32.
  { destruct (decide (shift <= 32)); [done|]. rewrite Z.pow_neg_r in Hv; lia. }
  assert (0 < 2 ^ shift) by (apply Z.pow_pos_nonneg; lia).
  assert (2 ^ 32 = 2 ^ (32 - shift) * 2 ^ shift) as E32
    by (rewrite <- Z.pow_add_r by lia; f_equal; lia).
  destruct (leb128_step v) as [E1 E2]; [lia|].
  assert (v / 128 * 128 + v mod 128 = v /\ 0 <= v mod 128 < 128 /\ 0 <= v / 128)
    as (Ev & Hm & Hd) by zdm.
  assert (v mod 128 * 2 ^ shift < 2 ^ 32) by (rewrite E32; apply Z.mul_lt_mono_pos_r; lia).
  cbn [ByteWriter.leb128_loop]. rewrite E1, E2.
  destruct (Z.eqb_spec (v / 128) 0) as [Hz|Hnz].
  - exists [v mod 128]. split; [unfold ByteWriter.writeU8; by rewrite u8_small by (unfold is_u8; lia)|].
    cbn [app]. rewrite leb128_read_step; rewrite ?Z.mod_mod by lia;
      try done; [|unfold is_u8; lia]. cbv zeta.
    destruct (Z.ltb_spec (v mod 128) 128); [|lia]. do 3 f_equal. lia.
  - assert (128 <= v) by zdm.
    assert (shift + 7 < 32) as Hcont.
    { destruct (decide (shift + 7 < 32)); [done|]. exfalso.
      assert (2 ^ (32 - shift) <= 2 ^ 7) by (apply Z.pow_le_mono_r; lia). lia. }
    assert (2 ^ (shift + 7) = 128 * 2 ^ shift) as E7 by (rewrite Z.pow_add_r by lia; lia).
    assert (2 ^ (32 - shift) = 128 * 2 ^ (32 - (shift + 7))) as E25.
    { replace (32 - shift) with (7 + (32 - (shift + 7))) by lia.
      rewrite Z.pow_add_r by lia. lia. }
    destruct (IH (v / 128) (shift + 7) (v mod 128 * 2 ^ shift + result)
      (pre ++ [128 + v mod 128]) post) as (bs & Hw & Hrd); [lia|lia|lia|nia|].
    exists ((128 + v mod 128) :: bs). split.
    { unfold ByteWriter.writeU8. rewrite u8_or_80 by done.
      by rewrite leb128_write_buf, Hw. }
    assert ((128 + v mod 128) mod 128 = v mod 128) as Emod by zdm.
    cbn [app]. rewrite leb128_read_step; rewrite ?Emod; try done; [|unfold is_u8; lia].
    cbv zeta. destruct (Z.ltb_spec (128 + v mod 128) 128); [lia|].
    destruct (Z.leb_spec 32 (shift + 7)); [lia|]. rewrite Hrd, <- app_assoc, E7.
    replace (v / 128 * (128 * 2 ^ shift) + (v mod 128 * 2 ^ shift + result))
      with ((v / 128 * 128 + v mod 128) * 2 ^ shift + result) by ring.
    by rewrite Ev.
Qed.

Lemma leb128_length fuel v bs :
  ByteWriter.leb128_loop fuel [] v = Some bs -> (1 <= length bs <= fuel)%nat.
Proof.
  revert v bs. induction fuel as [|fuel IH]; intros v bs Hw; [done|].
  cbn [ByteWriter.leb128_loop] in Hw. destruct (_ =? 0); [simplify_eq; simpl; lia|].
  rewrite leb128_write_buf in Hw.
  destruct (ByteWriter.leb128_loop fuel [] (Z.shiftr v 7)) as [bs'|] eqn:E; [|done].
  simpl in Hw. simplify_eq. apply IH in E. simpl. lia.
Qed.

(** LEB128: the five-round writer loop terminates for every 32-bit value,
    emits between one and five bytes, and the reader gets the value back and
    stops behind it whatever follows. *)
Theorem leb128_roundtrip v pre post :
  is_u32 v ->
  exists bs, ByteWriter.writeLEB128 [] v = Some bs /\ (1 <= length bs <= 5)%nat /\
    readLEB128 (reader_at pre (bs ++ post)) = Some (v, reader_at (pre ++ bs) post).
Proof.
  intros Hv. destruct (leb128_loops 5 v 0 0 pre post) as (bs & Hw & Hr);
    [lia|lia|exact Hv|lia|].
  exists bs. split_and!; [done|by apply leb128_length in Hw; lia..|].
  unfold readLEB128. rewrite Hr. by rewrite Z.mul_1_r, Z.add_0_r.
Qed.

Lemma leb128_roundtrip_witness :
  is_u32 4294967295 /\ exists bs, ByteWriter.writeLEB128 [] 4294967295 = Some bs /\
    (1 <= length bs <= 5)%nat /\
    readLEB128 (reader_at [7] (bs ++ [8])) = Some (4294967295, reader_at ([7] ++ bs) [8]).
Proof.
  split; [vm_compute; split; congruence|].
  apply (leb128_roundtrip 4294967295 [7] [8]). vm_compute; split; congruence.
Defined.

End Wire.

(** ** BitReader *)

Module BitReader.

(** [data] and [bitPos]; [dataSize] is the length of [data]. *)
Record t := mk { data : list Z; bitPos : nat }.

Definition make (buffer : list Z) : t := mk buffer 0.

(** Beyond the end a bit reads as 0 and the position stays. *)
Definition readBit (r : t) : Z * t :=
  match data r !! (bitPos r / 8)%nat with
  | None => (0, r)
  | Some byte =>
      (Z.land (Z.shiftr byte (7 - Z.of_nat (bitPos r mod 8))) 1,
       mk (data r) (S (bitPos r)))
  end.

Fixpoint readBits_loop (n : nat) (value : Z) (r : t) : Z * t :=
  match n with
  | O => (value, r)
  | S n =>
      let '(bit, r) := readBit r in
      readBits_loop n (Z.lor (u32 (Z.shiftl value 1)) bit) r
  end.

Definition readBits (n : nat) (r : t) : Z * t := readBits_loop n 0 r.

(** [while (readBit() == 0 && leadingZeros < 32) leadingZeros++;] *)
Fixpoint count_zeros (fuel leadingZeros : nat) (r : t) : nat * t :=
  match fuel with
  | O => (leadingZeros, r)
  | S fuel =>
      let '(bit, r) := readBit r in
      if (bit =? 0) && (leadingZeros <? 32)%nat
      then count_zeros fuel (S leadingZeros) r
      else (leadingZeros, r)
  end.

(** [None] is the undefined behaviour of [(1 << leadingZeros) - 1] on a 32-bit
    [int]: from 31 leading zeros on it overflows. *)
Definition readUnsignedExpGolomb (r : t) : option Z * t :=
  let '(leadingZeros, r) := count_zeros 33 0 r in
  if decide (leadingZeros = 0%nat) then (Some 0, r)
  else
    let '(remainingBits, r) := readBits leadingZeros r in
    if decide (leadingZeros <= 30)%nat
    then (Some (u32 (Z.shiftl 1 (Z.of_nat leadingZeros) - 1 + remainingBits)), r)
    else (None, r).

(** *** The bit string of a byte string *)

Definition byte_bits (b : Z) : list bool :=
  [Z.testbit b 7; Z.testbit b 6; Z.testbit b 5; Z.testbit b 4;
   Z.testbit b 3; Z.testbit b 2; Z.testbit b 1; Z.testbit b 0].

Definition bits_of (l : list Z) : list bool := concat (map byte_bits l).

Lemma bits_of_lookup l i :
  bits_of l !! i =
  (fun b => Z.testbit b (7 - Z.of_nat (i mod 8))) <$> l !! (i / 8)%nat.
Proof.
  revert i. induction l as [|b l IH]; intros i; [by rewrite !lookup_nil|].
  unfold bits_of in *. cbn [map concat].
  destruct (decide (i < 8)%nat) as [Hi|Hi].
  - rewrite lookup_app_l by (simpl; lia).
    rewrite Nat.div_small, Nat.mod_small by lia. simpl.
    do 8 (destruct i as [|i]; [done|]). lia.
  - rewrite lookup_app_r by (simpl; lia). rewrite IH. simpl length.
    assert (i = (i - 8) + 1 * 8)%nat as Ei by lia.
    assert (i / 8 = S ((i - 8) / 8))%nat as -> by (rewrite Ei at 1; rewrite Nat.div_add; lia).
    assert (i mod 8 = (i - 8) mod 8)%nat as -> by (rewrite Ei at 1; by rewrite Nat.Div0.mod_add).
    done.
Qed.

(** [r] stands in front of the bits [bs]. *)
Definition at_bits (r : t) (bs : list bool) : Prop := drop (bitPos r) (bits_of (data r)) = bs.

Lemma readBit_at r b bs :
  at_bits r (b :: bs) ->
  exists r', readBit r = (Z.b2z b, r') /\ at_bits r' bs /\
    data r' = data r /\ bitPos r' = S (bitPos r).
Proof.
  unfold at_bits. intros H.
  assert (bits_of (data r) !! bitPos r = Some b) as Hb.
  { rewrite <- (Nat.add_0_r (bitPos r)), <- lookup_drop, H. done. }
  assert (bitPos r mod 8 < 8)%nat as Hm by (apply Nat.mod_upper_bound; lia).
  rewrite bits_of_lookup in Hb. apply fmap_Some in Hb as (byte & Hl & Hb).
  unfold readBit. rewrite Hl. eexists. split; [f_equal|split_and!; try done].
  - rewrite Hb.
    change 1 with (2 ^ 1 - 1). rewrite land_ones_mod, shiftr_div by lia.
    rewrite <- Z.testbit_spec' by lia. done.
  - simpl. by rewrite <- Nat.add_1_r, <- drop_drop, H.
Qed.

(** Beyond the last bit the reader stays and yields zeros. *)
Lemma readBit_end r : at_bits r [] -> readBit r = (0, r).
Proof.
  unfold at_bits. intros H.
  assert (bits_of (data r) !! bitPos r = None) as Hn.
  { rewrite <- (Nat.add_0_r (bitPos r)), <- lookup_drop, H. done. }
  rewrite bits_of_lookup in Hn. unfold readBit. by apply fmap_None in Hn as ->.
Qed.

(** The number a list of bits denotes, most significant bit first. *)
Definition bits_value (acc : Z) (bs : list bool) : Z :=
  fold_left (fun acc b => 2 * acc + Z.b2z b) bs acc.

Lemma bits_value_range acc bs n :
  0 <= acc < 2 ^ n -> 0 <= n ->
  0 <= bits_value acc bs < 2 ^ (n + Z.of_nat (length bs)).
Proof.
  revert acc n. induction bs as [|b bs IH]; intros acc n Ha Hn; simpl.
  { by rewrite Z.add_0_r. }
  specialize (IH (2 * acc + Z.b2z b) (n + 1)). rewrite Z.pow_add_r in IH by lia.
  replace (n + Z.of_nat (S (length bs))) with (n + 1 + Z.of_nat (length bs)) by lia.
  apply IH; [destruct b; simpl; lia|lia].
Qed.

Lemma readBits_loop_at bs : forall acc n r rest,
  at_bits r (bs ++ rest) -> 0 <= acc < 2 ^ n -> 0 <= n ->
  n + Z.of_nat (length bs) <= 32 ->
  exists r', readBits_loop (length bs) acc r = (bits_value acc bs, r') /\
    at_bits r' rest /\ data r' = data r /\ bitPos r' = (bitPos r + length bs)%nat.
Proof.
  induction bs as [|b bs IH]; intros acc n r rest Hr Ha Hn Hl; simpl.
  { exists r. by rewrite Nat.add_0_r. }
  simpl in Hr, Hl. destruct (readBit_at _ _ _ Hr) as (r1 & -> & Hr1 & Hd & Hp).
  assert (2 ^ n < 2 ^ 32) by (apply Z.pow_lt_mono_r; lia).
  assert (Z.lor (u32 (Z.shiftl acc 1)) (Z.b2z b) = 2 * acc + Z.b2z b) as ->.
  { rewrite u32_small.
    - rewrite lor_shiftl_add by (destruct b; simpl; lia). lia.
    - rewrite Z.shiftl_mul_pow2 by lia. unfold is_u32.
      assert (2 ^ (n + 1) <= 2 ^ 32) by (apply Z.pow_le_mono_r; lia).
      rewrite Z.pow_add_r in * by lia. lia. }
  destruct (IH (2 * acc + Z.b2z b) (n + 1) r1 rest) as (r2 & -> & ? & ? & ?); try done; try lia.
  { rewrite Z.pow_add_r by lia. destruct b; simpl; lia. }
  exists r2. split_and!; [done|done|congruence|lia].
Qed.

Lemma count_zeros_at k : forall fuel z r rest,
  at_bits r (replicate k false ++ true :: rest) -> (k < fuel)%nat -> (z + k <= 32)%nat ->
  exists r', count_zeros fuel z r = ((z + k)%nat, r') /\ at_bits r' rest /\
    data r' = data r /\ bitPos r' = (bitPos r + k + 1)%nat.
Proof.
  induction k as [|k IH]; intros [|fuel] z r rest Hr Hf Hz; try lia; simpl in Hr;
    destruct (readBit_at _ _ _ Hr) as (r1 & E1 & Hr1 & Hd & Hp);
    cbn [count_zeros]; rewrite E1.
  - exists r1. rewrite Nat.add_0_r. split_and!; simpl; [done|done|done|lia].
  - simpl. destruct (Nat.ltb_spec z 32); [|lia].
    destruct (IH fuel (S z) r1 rest) as (r2 & -> & ? & ? & ?); [done|lia|lia|].
    exists r2. split_and!; [f_equal; lia|done|congruence|lia].
Qed.

(** *** Exp-Golomb codes: [n] zeros, a one, [n] bits *)

Definition expgolomb_value (suffix : list bool) : Z :=
  2 ^ Z.of_nat (length suffix) - 1 + bits_value 0 suffix.

(** on a well-formed unsigned Exp-Golomb code of up to 30 leading zeros
    the reader returns the value the code denotes (ITU-T H.264 9.1) and
    consumes exactly the code, whatever follows it. *)
Theorem expgolomb_decodes r suffix rest :
  (length suffix <= 30)%nat ->
  at_bits r (replicate (length suffix) false ++ true :: suffix ++ rest) ->
  exists r', readUnsignedExpGolomb r = (Some (expgolomb_value suffix), r') /\
    at_bits r' rest /\ bitPos r' = (bitPos r + 2 * length suffix + 1)%nat.
Proof.
  intros Hl Hr. unfold readUnsignedExpGolomb.
  destruct (count_zeros_at _ 33 0 _ _ Hr) as (r1 & -> & Hr1 & Hd1 & Hp1); [lia|lia|].
  cbn [Nat.add]. destruct (decide (length suffix = 0%nat)) as [H0|H0].
  { apply nil_length_inv in H0 as ->. exists r1. simpl in *.
    split_and!; [done|done|lia]. }
  unfold readBits.
  destruct (readBits_loop_at suffix 0 0 r1 rest Hr1) as (r2 & -> & Hr2 & Hd2 & Hp2);
    [lia|lia|lia|].
  rewrite decide_True by done. exists r2. split_and!; [|done|lia].
  do 2 f_equal. unfold expgolomb_value.
  pose proof (bits_value_range 0 suffix 0) as Hv.
  specialize (Hv ltac:(lia) ltac:(lia)). rewrite Z.add_0_l in Hv.
  assert (2 ^ Z.of_nat (length suffix) <= 2 ^ 30) by (apply Z.pow_le_mono_r; lia).
  rewrite Z.shiftl_1_l, u32_small by (unfold is_u32; lia). done.
Qed.

Lemma expgolomb_decodes_witness :
  exists r', readUnsignedExpGolomb (make [0x2D; 0xFF]) = (Some 4, r') /\
    at_bits r' [true; false; true; true; true; true; true; true; true; true; true]
    /\ bitPos r' = 5%nat.
Proof.
  apply (expgolomb_decodes (make [0x2D; 0xFF]) [false; true]
    [true; false; true; true; true; true; true; true; true; true; true]).
  - simpl. lia.
  - reflexivity.
Defined.

End BitReader.
