(* ===== verification/Sequence.v ===== *)
(** * Sequence: [ExtendedValue] (src/extended_value.cpp) and
    [ReplayProtection] (src/replay_protection.cpp)

    The clock is an argument of the operations that read it
    ([std::chrono::steady_clock::now()], in nanoseconds). *)

From stdpp Require Import gmap.
From S2P Require Import Prelude.

(** ** ExtendedValue *)

Module ExtendedValue.

(** The template argument [T] is [uint16_t] or [uint32_t]: [w] is its width. *)
Record t := mk {
  mRolloverValue : Z;
  mRolloverTime : Z;
  mLastValue : option Z
}.

(** 1000 ms. *)
Definition mRolloverBack : Z := 1000 * 1000000.

Definition mRolloverIncrement (w : Z) : Z := 2 ^ w.

Definition make : t := mk 0 0 None.

Definition extend (w now : Z) (s : t) (src : Z) : Z * t :=
  let inc := mRolloverIncrement w in
  let s := if mRolloverValue s =? 0 then mk inc now (mLastValue s) else s in
  match mLastValue s with
  | None => (Z.lor (mRolloverValue s) src, mk (mRolloverValue s) (mRolloverTime s) (Some src))
  | Some last =>
      let max := 2 ^ w - 1 in
      let margin := max / 4 in
      if (max - margin <=? last) && (src <=? margin) then
        let rv := u64 (mRolloverValue s + inc) in
        (Z.lor rv src, mk rv now (Some src))
      else if (last <=? margin) && (max - margin <=? src)
              && (now - mRolloverTime s <=? mRolloverBack) then
        (Z.lor (u64 (mRolloverValue s - inc)) src, s)
      else (Z.lor (mRolloverValue s) src, mk (mRolloverValue s) (mRolloverTime s) (Some src))
  end.

Definition get (s : t) : option Z :=
  (fun last => Z.lor (mRolloverValue s) last) <$> mLastValue s.

(** *** Correctness against the true, unbounded counter *)

(** [s] has last seen the counter value [cur], in the epoch that began at time
    [since]. *)
Definition tracks (w : Z) (s : t) (cur since : Z) : Prop :=
  mRolloverValue s = cur / 2 ^ w * 2 ^ w /\ mLastValue s = Some (cur mod 2 ^ w) /\
  mRolloverTime s = since /\ 2 ^ w <= cur < 2 ^ 64.

(** Next counter value [e], seen at [now]: at most a quarter of the range away
    from [cur] and, when it belongs to the previous epoch, at most a second
    after the rollover. *)
Definition close_to (w cur since now e : Z) : Prop :=
  Z.abs (e - cur) <= 2 ^ (w - 2) /\ 2 ^ w <= e < 2 ^ 64 /\
  (e / 2 ^ w < cur / 2 ^ w -> now - since <= mRolloverBack).

(** What the object follows afterwards: a late value of the previous epoch
    does not move it. *)
Definition next_cur (w cur e : Z) : Z := if e / 2 ^ w <? cur / 2 ^ w then cur else e.
Definition next_since (w cur since now e : Z) : Z :=
  if cur / 2 ^ w <? e / 2 ^ w then now else since.

Lemma lor_epoch w q r : 0 <= w -> 0 <= r < 2 ^ w -> Z.lor (q * 2 ^ w) r = q * 2 ^ w + r.
Proof. intros. rewrite <- lor_shiftl_add by lia. by rewrite Z.shiftl_mul_pow2 by lia. Qed.

Lemma extend_tracks w s cur since now e :
  2 <= w <= 32 -> tracks w s cur since -> close_to w cur since now e ->
  exists s', extend w now s (e mod 2 ^ w) = (e, s') /\
    tracks w s' (next_cur w cur e) (next_since w cur since now e).
Proof.
  intros Hw (Hrv & Hl & Ht & Hcur) (Hd & He & Htime). subst since.
  assert (0 < 2 ^ (w - 2)) as Hp by (apply Z.pow_pos_nonneg; lia).
  assert (2 ^ w = 4 * 2 ^ (w - 2)) as Hw4.
  { replace w with (2 + (w - 2)) at 1 by lia. rewrite Z.pow_add_r by lia. lia. }
  assert ((2 ^ w - 1) / 4 = 2 ^ (w - 2) - 1) as Hmargin by zdm.
  pose proof (Z.div_mod cur (2 ^ w)) as Ec. pose proof (Z.mod_pos_bound cur (2 ^ w)) as Bc.
  pose proof (Z.div_mod e (2 ^ w)) as Ee. pose proof (Z.mod_pos_bound e (2 ^ w)) as Be.
  assert (1 <= cur / 2 ^ w) by (apply Z.div_le_lower_bound; lia).
  assert (1 <= e / 2 ^ w) by (apply Z.div_le_lower_bound; lia).
  unfold extend. rewrite Hl, Hrv, Hmargin. unfold mRolloverIncrement.
  set (P := 2 ^ (w - 2)) in *. set (W := 2 ^ w) in *.
  set (qc := cur / W) in *. set (rc := cur mod W) in *.
  set (qe := e / W) in *. set (re := e mod W) in *.
  specialize (Ec ltac:(lia)). specialize (Bc ltac:(lia)).
  specialize (Ee ltac:(lia)). specialize (Be ltac:(lia)).
  destruct (Z.eqb_spec (qc * W) 0) as [Hz|_]; [nia|].
  cbn [mLastValue mRolloverValue mRolloverTime]. rewrite Hl, ?Hrv.
  assert (Z.lor (qe * W) re = e) as Hlor by (unfold W; rewrite lor_epoch by (fold W; lia); fold W; lia).
  assert (qe * W <= e) by nia.
  unfold tracks, next_cur, next_since. fold W. fold qe qc rc.
  assert (0 < W) by lia. assert (qe = qc \/ qe = qc + 1 \/ qe = qc - 1) as Hq.
  { assert (W * (qe - qc) < W * 2 /\ W * -2 < W * (qe - qc)) as [Hlt Hgt] by lia.
    apply Z.mul_lt_mono_pos_l in Hlt, Hgt; lia. }
  assert (qe = qc + 1 -> u64 (qc * W + W) = (qc + 1) * W) as Hup.
  { intros Hq1. rewrite Hq1 in *. rewrite u64_small; [ring|]. unfold is_u64. lia. }
  replace (u64 (qc * W - W)) with ((qc - 1) * W)
    by (rewrite u64_small; [ring|unfold is_u64; nia]).
  destruct Hq as [Hq | [Hq | Hq]]; rewrite Hq in *;
  repeat match goal with
  | |- context [?a <=? ?b] => destruct (Z.leb_spec a b); cbn [andb]; try lia
  | |- context [?a <? ?b] => destruct (Z.ltb_spec a b); try lia
  end; rewrite ?Hup, Hlor by done; eexists; (split; [done|]);
  cbn [mRolloverValue mRolloverTime mLastValue]; fold qe re qc rc; rewrite ?Hq;
  split_and!; done || lia.
Qed.

(** The first value ever seen is placed in the epoch [2^w, 2^(w+1)). *)
Lemma extend_first w now src :
  2 <= w <= 32 -> 0 <= src < 2 ^ w ->
  exists s', extend w now make src = (2 ^ w + src, s') /\ tracks w s' (2 ^ w + src) now.
Proof.
  intros Hw Hs. unfold extend, make, mRolloverIncrement. cbn [mRolloverValue Z.eqb mLastValue mRolloverTime].
  assert (Z.lor (2 ^ w) src = 2 ^ w + src) as ->.
  { rewrite <- (Z.mul_1_l (2 ^ w)) at 1. rewrite lor_epoch by lia. lia. }
  eexists. split; [done|]. unfold tracks. cbn [mRolloverValue mRolloverTime mLastValue].
  assert (2 ^ w <= 2 ^ 32) by (apply Z.pow_le_mono_r; lia).
  assert ((src + 1 * 2 ^ w) / 2 ^ w = 1) by (rewrite Z.div_add, Z.div_small by lia; lia).
  assert ((src + 1 * 2 ^ w) mod 2 ^ w = src) by (rewrite Z.mod_add, Z.mod_small by lia; lia).
  replace (2 ^ w + src) with (src + 1 * 2 ^ w) by lia.
  split_and!; lia || congruence.
Qed.

Fixpoint extend_all (w : Z) (s : t) (l : list (Z * Z)) : list Z :=
  match l with
  | [] => []
  | (now, src) :: l => let '(v, s) := extend w now s src in v :: extend_all w s l
  end.

(** A sequence of (time, counter value) observations in which each is close to
    what the object follows. *)
Fixpoint close_run (w cur since : Z) (l : list (Z * Z)) : Prop :=
  match l with
  | [] => True
  | (now, e) :: l =>
      close_to w cur since now e /\
      close_run w (next_cur w cur e) (next_since w cur since now e) l
  end.

(** C38: however often the 16 or 32 bit counter wraps, and with values arriving
    out of order by up to a quarter of the range (across a rollover: up to one
    second late), [extend] reconstructs the sender's unbounded counter, counted
    from the epoch of the first value. *)
Theorem extend_reconstructs w t0 e0 l :
  2 <= w <= 32 -> 2 ^ w <= e0 < 2 ^ (w + 1) -> close_run w e0 t0 l ->
  extend_all w make ((t0, e0 mod 2 ^ w) :: map (fun o => (o.1, o.2 mod 2 ^ w)) l) =
  e0 :: map snd l.
Proof.
  intros Hw He0 Hrun.
  assert (0 <= e0 mod 2 ^ w < 2 ^ w /\ 2 ^ w + e0 mod 2 ^ w = e0) as [Hb Ee0].
  { rewrite Z.pow_add_r in He0 by lia.
    pose proof (Z.div_mod e0 (2 ^ w)). pose proof (Z.mod_pos_bound e0 (2 ^ w)).
    assert (e0 / 2 ^ w = 1) as Hq; [|rewrite Hq in *; lia].
    symmetry. apply Z.div_unique with (e0 - 2 ^ w); lia. }
  destruct (extend_first w t0 _ Hw Hb) as (s & Hx & Ht). rewrite Ee0 in *.
  cbn [extend_all]. rewrite Hx. f_equal. clear Hx Hb Ee0 He0.
  revert s e0 t0 Ht Hrun. induction l as [|[now e] l IH]; intros s cur since Ht Hrun; [done|].
  destruct Hrun as [Hc Hrun].
  destruct (extend_tracks w s cur since now e Hw Ht Hc) as (s' & Hx & Ht').
  cbn [map extend_all fst snd]. rewrite Hx. f_equal. by apply (IH _ _ _ Ht').
Qed.

Lemma extend_reconstructs_witness :
  extend_all 16 make [(0, 65530); (10, 65535); (20, 3); (30, 65534); (40, 4)] =
  [131066; 131071; 131075; 131070; 131076].
Proof.
  apply (extend_reconstructs 16 0 131066
    [(10, 131071); (20, 131075); (30, 131070); (40, 131076)]); [lia|lia|].
  cbn. repeat split; vm_compute; congruence.
Defined.

(** *** Bounds *)

(** Either fresh, or past the first value. *)
Definition ext_ok (w : Z) (s : t) : Prop :=
  (mRolloverValue s = 0 /\ mLastValue s = None) \/
  (exists j v, 1 <= j /\ mRolloverValue s = j * 2 ^ w /\ mLastValue s = Some v /\ 0 <= v < 2 ^ w).

Lemma ext_ok_make w : ext_ok w make.
Proof. by left. Qed.

Lemma extend_bounds w now s src :
  2 <= w <= 32 -> ext_ok w s -> mRolloverValue s < 2 ^ 62 -> 0 <= src < 2 ^ w ->
  ext_ok w (extend w now s src).2 /\ 0 <= (extend w now s src).1 < 2 ^ 62 + 2 ^ 33.
Proof.
  intros Hw Hs Hr Hsrc.
  assert (4 <= 2 ^ w <= 2 ^ 32) as HW.
  { change 4 with (2 ^ 2). split; apply Z.pow_le_mono_r; lia. }
  unfold extend, mRolloverIncrement. destruct Hs as [[E0 El]|(j & v & Hj & Ej & El & Hv)].
  - rewrite E0. cbn [Z.eqb mLastValue mRolloverValue mRolloverTime]. rewrite El. cbn [fst snd].
    pose proof (lor_epoch w 1 src) as E. rewrite Z.mul_1_l in E. rewrite E by lia. split; [|lia].
    right. exists 1, src. cbn [mRolloverValue mLastValue]. rewrite Z.mul_1_l. split_and!; done || lia.
  - assert (mRolloverValue s =? 0 = false) as -> by (apply Z.eqb_neq; rewrite Ej; nia).
    rewrite El, Ej in *.
    case_match; cbn [fst snd].
    { rewrite u64_small by (unfold is_u64; nia). replace (j * 2 ^ w + 2 ^ w) with ((j + 1) * 2 ^ w) by ring.
      rewrite lor_epoch by lia. split; [|nia]. right. exists (j + 1), src. cbn [mRolloverValue mLastValue]. split_and!; done || lia. }
    case_match; cbn [fst snd].
    { rewrite u64_small by (unfold is_u64; nia). replace (j * 2 ^ w - 2 ^ w) with ((j - 1) * 2 ^ w) by ring.
      rewrite lor_epoch by lia. split; [|nia]. right. exists j, v. done. }
    rewrite lor_epoch by lia. split; [|nia]. right. exists j, src. cbn [mRolloverValue mLastValue]. split_and!; done || lia.
Qed.

End ExtendedValue.

(** ** ReplayProtection *)

Module ReplayProtection.

Record t := mk {
  mMaxPossibleValue : Z;
  mSize : Z;
  mStorageSize : Z;
  mMaxDistanceForward : Z;
  mCurMax : Z;
  mStorage : option (list Z)
}.

(** The constructor's two assertions. *)
Definition make (maxPossibleValue size : Z) : option t :=
  _ ← guard_true ((maxPossibleValue =? 2 ^ 16 - 1) || (maxPossibleValue =? 2 ^ 32 - 1));
  _ ← guard_true (size <=? 4096);
  Some (mk maxPossibleValue size (u32 (size + 8 - 1) / 8) (size / 4) 0 None).

Definition getRolloverForwadDistance (maxPossibleValue curMaxValue value : Z) : Z :=
  u32 (maxPossibleValue - curMaxValue + 1 + value).

Definition storage_index (storageSize value : Z) : nat := Z.to_nat ((value / 8) mod storageSize).
Definition storage_shift (value : Z) : Z := Z.land value 7.

Definition isSet (storage : list Z) (storageSize value : Z) : bool :=
  has_bit (default 0 (storage !! storage_index storageSize value)) (storage_shift value).

(** [storage[index] |= (1 << shift)]: the update is lost outside the array,
    which the invariant excludes. *)
Definition setImpl (storage : list Z) (storageSize value : Z) : list Z :=
  let index := storage_index storageSize value in
  <[index := u8 (Z.lor (default 0 (storage !! index)) (Z.shiftl 1 (storage_shift value)))]> storage.

Definition clearImpl (storage : list Z) (storageSize value : Z) : list Z :=
  let index := storage_index storageSize value in
  <[index := u8 (Z.land (default 0 (storage !! index))
                        (Z.lnot (Z.shiftl 1 (storage_shift value))))]> storage.

Definition canProceed (s : t) (value : Z) : bool :=
  match mStorage s with
  | None => true
  | Some storage =>
      if value =? mCurMax s then false
      else if mCurMax s <? value then
        let distance := value - mCurMax s in
        if mMaxDistanceForward s <? distance then false else true
      else if getRolloverForwadDistance (mMaxPossibleValue s) (mCurMax s) value
              <=? mMaxDistanceForward s then true
      else
        let distance := mCurMax s - value in
        if mSize s <=? distance then false
        else negb (isSet storage (mStorageSize s) value)
  end.

(** The [while] loop of [setForward]; [None] when the fuel runs out. *)
Fixpoint clear_to (fuel : nat) (maxPossible storageSize value : Z) (storage : list Z) (cur : Z)
  : option (list Z) :=
  if cur =? value then Some storage
  else match fuel with
  | O => None
  | S fuel =>
      clear_to fuel maxPossible storageSize value
        (clearImpl storage storageSize cur) (Z.land (cur + 1) maxPossible)
  end.

Definition with_storage (s : t) (cur : Z) (storage : list Z) : t :=
  mk (mMaxPossibleValue s) (mSize s) (mStorageSize s) (mMaxDistanceForward s) cur (Some storage).

(** A forward step is at most [mMaxDistanceForward] values long. *)
Definition setForward (s : t) (storage : list Z) (value : Z) : option t :=
  let cur := Z.land (mCurMax s + 1) (mMaxPossibleValue s) in
  storage ← clear_to (Z.to_nat (mMaxDistanceForward s)) (mMaxPossibleValue s)
              (mStorageSize s) value storage cur;
  Some (with_storage s value (setImpl storage (mStorageSize s) value)).

(** [set] asserts [canProceed]. *)
Definition set (s : t) (value : Z) : option (bool * t) :=
  _ ← guard_true (canProceed s value);
  match mStorage s with
  | None =>
      let storage := replicate (Z.to_nat (mStorageSize s)) 0 in
      Some (true, with_storage s value (setImpl storage (mStorageSize s) value))
  | Some storage =>
      if value =? mCurMax s then Some (false, s)
      else if mCurMax s <? value then
        let distance := value - mCurMax s in
        if mMaxDistanceForward s <? distance then Some (false, s)
        else s' ← setForward s storage value; Some (true, s')
      else if getRolloverForwadDistance (mMaxPossibleValue s) (mCurMax s) value
              <=? mMaxDistanceForward s then
        s' ← setForward s storage value; Some (true, s')
      else
        let distance := mCurMax s - value in
        if mSize s <=? distance then Some (false, s)
        else Some (true, with_storage s (mCurMax s) (setImpl storage (mStorageSize s) value))
  end.

(** *** The bit ring *)

(** The bit of the ring that a value uses. *)
Definition ring_pos (storageSize value : Z) : Z := value mod (8 * storageSize).

Lemma ring_split ss v :
  0 < ss -> 0 <= v ->
  ring_pos ss v = 8 * Z.of_nat (storage_index ss v) + storage_shift v /\
  0 <= storage_shift v < 8 /\ (storage_index ss v < Z.to_nat ss)%nat.
Proof.
  intros Hss Hv. unfold ring_pos, storage_index, storage_shift.
  change 7 with (2 ^ 3 - 1). rewrite land_ones_mod by lia. change (2 ^ 3) with 8.
  pose proof (Z.mod_pos_bound (v / 8) ss Hss).
  pose proof (Z.mod_pos_bound v 8 ltac:(lia)).
  rewrite Z.rem_mul_r by lia. rewrite Z2Nat.id by lia. lia.
Qed.

Lemma isSet_testbit st ss v :
  0 < ss -> 0 <= v ->
  isSet st ss v = Z.testbit (default 0 (st !! storage_index ss v)) (storage_shift v).
Proof. intros Hss Hv. apply has_bit_testbit. destruct (ring_split ss v); lia. Qed.

Lemma testbit_u8 x i : 0 <= i < 8 -> Z.testbit (u8 x) i = Z.testbit x i.
Proof. intros. unfold u8. by rewrite Z.mod_pow2_bits_low by lia. Qed.

(** Updating the bit of [v] changes the bit of [u] exactly when the two share
    a ring position. *)
Lemma isSet_update st ss v u f (b : bool) :
  0 < ss -> 0 <= v -> 0 <= u -> length st = Z.to_nat ss ->
  (forall x i j, 0 <= i < 8 -> 0 <= j < 8 ->
    Z.testbit (f x i) j = if decide (i = j) then b else Z.testbit x j) ->
  isSet (<[storage_index ss v := u8 (f (default 0 (st !! storage_index ss v)) (storage_shift v))]> st)
    ss u =
  if decide (ring_pos ss u = ring_pos ss v) then b else isSet st ss u.
Proof.
  intros Hss Hv Hu Hlen Hf. rewrite !isSet_testbit by done.
  destruct (ring_split ss v Hss Hv) as (Ev & Bv & Iv).
  destruct (ring_split ss u Hss Hu) as (Eu & Bu & Iu). rewrite Ev, Eu.
  destruct (decide (storage_index ss u = storage_index ss v)) as [Hi|Hi].
  - rewrite Hi, list_lookup_insert_eq by lia. simpl. rewrite testbit_u8, Hf by done.
    repeat case_decide; (done || lia).
  - rewrite list_lookup_insert_ne by done. rewrite decide_False by lia. done.
Qed.

Lemma isSet_setImpl st ss v u :
  0 < ss -> 0 <= v -> 0 <= u -> length st = Z.to_nat ss ->
  isSet (setImpl st ss v) ss u =
  if decide (ring_pos ss u = ring_pos ss v) then true else isSet st ss u.
Proof.
  intros. apply (isSet_update st ss v u (fun x i => Z.lor x (Z.shiftl 1 i))); try done.
  intros x i j Hi Hj. rewrite Z.lor_spec, Z.shiftl_1_l, Z.pow2_bits_eqb by lia.
  case_decide; destruct (Z.eqb_spec i j); 
    by rewrite ?orb_true_r, ?orb_false_r || lia.
Qed.

Lemma isSet_clearImpl st ss v u :
  0 < ss -> 0 <= v -> 0 <= u -> length st = Z.to_nat ss ->
  isSet (clearImpl st ss v) ss u =
  if decide (ring_pos ss u = ring_pos ss v) then false else isSet st ss u.
Proof.
  intros. apply (isSet_update st ss v u (fun x i => Z.land x (Z.lnot (Z.shiftl 1 i)))); try done.
  intros x i j Hi Hj. rewrite Z.land_spec, Z.lnot_spec, Z.shiftl_1_l, Z.pow2_bits_eqb by lia.
  case_decide; destruct (Z.eqb_spec i j); 
    by rewrite ?andb_true_r, ?andb_false_r || lia.
Qed.

(** Values less than a ring apart do not collide. *)
Lemma ring_pos_inj ss u v : 0 < ss -> Z.abs (u - v) < 8 * ss -> ring_pos ss u = ring_pos ss v -> u = v.
Proof.
  unfold ring_pos. intros Hss Hd He.
  pose proof (Z.div_mod u (8 * ss) ltac:(lia)). pose proof (Z.div_mod v (8 * ss) ltac:(lia)).
  assert (u / (8 * ss) = v / (8 * ss)); [|lia].
  assert (8 * ss * (u / (8 * ss) - v / (8 * ss)) < 8 * ss * 1) as H1 by lia.
  assert (8 * ss * -1 < 8 * ss * (u / (8 * ss) - v / (8 * ss))) as H2 by lia.
  apply Z.mul_lt_mono_pos_l in H1, H2; lia.
Qed.

Lemma land_max max x : max = 2 ^ 16 - 1 \/ max = 2 ^ 32 - 1 -> Z.land x max = x mod (max + 1).
Proof. intros [-> | ->]; by rewrite land_ones_mod by lia. Qed.

(** The loop of [setForward] ends after the [k] values in between and clears
    exactly their ring positions. *)
Lemma clear_to_spec max ss value : max = 2 ^ 16 - 1 \/ max = 2 ^ 32 - 1 -> 0 < ss ->
  forall k fuel st c, (Z.to_nat k <= fuel)%nat -> 0 <= k < max + 1 -> 0 <= c <= max ->
  value = (c + k) mod (max + 1) -> length st = Z.to_nat ss ->
  exists st', clear_to fuel max ss value st c = Some st' /\ length st' = Z.to_nat ss /\
    forall u, 0 <= u -> isSet st' ss u = true <->
      isSet st ss u = true /\
      forall j, 0 <= j < k -> ring_pos ss u <> ring_pos ss ((c + j) mod (max + 1)).
Proof.
  intros Hmax Hss k fuel. revert k. induction fuel as [|fuel IH]; intros k st c Hf Hk Hc Hv Hlen;
    destruct (decide (k = 0)) as [->|Hk0]; try lia; cbn [clear_to].
  1,2: rewrite Z.add_0_r, Z.mod_small in Hv by lia; rewrite Hv, Z.eqb_refl;
    exists st; split_and!; [done|done|]; intros u Hu; intuition lia.
  assert (value <> c) as Hne.
  { rewrite Hv. intros He. destruct (decide (c + k < max + 1)).
    - rewrite Z.mod_small in He by lia. lia.
    - replace (c + k) with (c + k - (max + 1) + 1 * (max + 1)) in He by lia.
      rewrite Z.mod_add, Z.mod_small in He by lia. lia. }
  destruct (Z.eqb_spec c value); [congruence|]. rewrite land_max by done.
  assert (0 <= (c + 1) mod (max + 1) < max + 1) as Hc1 by (apply Z.mod_pos_bound; lia).
  destruct (IH (k - 1) (clearImpl st ss c) ((c + 1) mod (max + 1))) as (st' & Hst' & Hl' & Hu');
    [lia|lia|lia| | |].
  { rewrite Hv, Zplus_mod_idemp_l. f_equal. lia. }
  { unfold clearImpl. by rewrite length_insert. }
  exists st'. split_and!; [done|done|]. intros u Hu. rewrite Hu' by done.
  rewrite isSet_clearImpl by lia. split.
  - intros [Hs Hj]. case_decide as Hr; [done|]. split; [done|]. intros j Hjk.
    destruct (decide (j = 0)) as [->|]; [by rewrite Z.add_0_r, Z.mod_small by lia|].
    specialize (Hj (j - 1) ltac:(lia)). rewrite Zplus_mod_idemp_l in Hj.
    by replace (c + 1 + (j - 1)) with (c + j) in Hj by lia.
  - intros [Hs Hj]. rewrite decide_False; cycle 1.
    { specialize (Hj 0 ltac:(lia)). by rewrite Z.add_0_r, Z.mod_small in Hj by lia. }
    split; [done|]. intros j Hjk. specialize (Hj (j + 1) ltac:(lia)).
    rewrite Zplus_mod_idemp_l. by replace (c + 1 + j) with (c + (j + 1)) by lia.
Qed.

(** *** The abstract specification: the set of the values seen

    [None] before the first value, then the greatest value of the current
    epoch and the values of the epoch accepted so far. *)

Definition spec : Type := option (Z * gset Z).

Definition spec_can (max size : Z) (sp : spec) (v : Z) : bool :=
  match sp with
  | None => true
  | Some (m, seen) =>
      if decide (m < v) then bool_decide (v - m <= size / 4)
      else bool_decide (v <> m) &&
        (bool_decide (max + 1 - m + v <= size / 4) ||
         (bool_decide (m - v < size) && bool_decide (v ∉ seen)))
  end.

Definition spec_set (max size : Z) (sp : spec) (v : Z) : spec :=
  match sp with
  | None => Some (v, {[ v ]})
  | Some (m, seen) =>
      if decide (m < v) then Some (v, {[ v ]} ∪ seen)
      else if decide (max + 1 - m + v <= size / 4) then Some (v, {[ v ]})
      else Some (m, {[ v ]} ∪ seen)
  end.

Record params_ok (max size : Z) (s : t) : Prop := {
  po_max : max = 2 ^ 16 - 1 \/ max = 2 ^ 32 - 1;
  po_size : 1 <= size <= 4096;
  po_eqs : mMaxPossibleValue s = max /\ mSize s = size /\
           mStorageSize s = (size + 7) / 8 /\ mMaxDistanceForward s = size / 4
}.

Definition represents (max size : Z) (s : t) (sp : spec) : Prop :=
  params_ok max size s /\
  match sp with
  | None => mStorage s = None
  | Some (m, seen) => exists st,
      mStorage s = Some st /\ length st = Z.to_nat (mStorageSize s) /\
      mCurMax s = m /\ 0 <= m <= max /\ m ∈ seen /\ (forall u, u ∈ seen -> 0 <= u <= m) /\
      forall u, 0 <= u <= m -> m - u < size ->
        isSet st (mStorageSize s) u = true <-> u ∈ seen
  end.

Lemma canProceed_represents max size s sp v :
  represents max size s sp -> 0 <= v <= max -> canProceed s v = spec_can max size sp v.
Proof.
  intros [[Hmax Hsize (E1 & E2 & E3 & E4)] Hr] Hv. unfold canProceed, spec_can.
  destruct sp as [[m seen]|]; [|by rewrite Hr].
  destruct Hr as (st & -> & Hlen & -> & Hm & Hin & Hseen & Hbits). rewrite E1, E2, E4.
  destruct (Z.eqb_spec v m) as [->|Hne].
  { rewrite decide_False by lia. by rewrite bool_decide_false by auto. }
  destruct (Z.ltb_spec m v).
  { rewrite decide_True by lia. destruct (Z.ltb_spec (size / 4) (v - m));
      [rewrite bool_decide_false|rewrite bool_decide_true]; done || lia. }
  rewrite decide_False, (bool_decide_true (v <> m)) by lia. cbn [andb].
  unfold getRolloverForwadDistance. rewrite u32_small by (unfold is_u32; lia).
  replace (max - m + 1 + v) with (max + 1 - m + v) by lia.
  destruct (Z.leb_spec (max + 1 - m + v) (size / 4));
    [by rewrite bool_decide_true by done|rewrite bool_decide_false by lia]. cbn [orb].
  destruct (Z.leb_spec size (m - v));
    [by rewrite bool_decide_false by lia|rewrite bool_decide_true by lia]. cbn [andb].
  specialize (Hbits v ltac:(lia) ltac:(lia)).
  destruct (isSet st (mStorageSize s) v) eqn:Eb; simpl; symmetry.
  - apply bool_decide_eq_false. intros Hn. apply Hn. by apply Hbits.
  - apply bool_decide_eq_true. intros Hn. apply Hbits in Hn. congruence.
Qed.

(** [setForward] by [d] values: [v] becomes the maximum, the positions of the
    values stepped over are cleared, the others keep their bits. *)
Lemma setForward_spec max size s st v d :
  params_ok max size s -> length st = Z.to_nat (mStorageSize s) ->
  0 <= mCurMax s <= max -> 1 <= d <= size / 4 -> v = (mCurMax s + d) mod (max + 1) ->
  exists st', setForward s st v = Some (with_storage s v st') /\
    length st' = Z.to_nat (mStorageSize s) /\
    forall u, 0 <= u ->
      isSet st' (mStorageSize s) u = true <->
      ring_pos (mStorageSize s) u = ring_pos (mStorageSize s) v \/
      (isSet st (mStorageSize s) u = true /\
       forall j, 1 <= j < d -> ring_pos (mStorageSize s) u <>
         ring_pos (mStorageSize s) ((mCurMax s + j) mod (max + 1))).
Proof.
  intros [Hmax Hsize (E1 & E2 & E3 & E4)] Hlen Hcur Hd Hv.
  assert (0 < mStorageSize s) as Hss by (rewrite E3; zdm).
  assert (size / 4 < max + 1) by zdm.
  assert (0 <= v < max + 1) by (rewrite Hv; apply Z.mod_pos_bound; lia).
  assert (0 <= (mCurMax s + 1) mod (max + 1) < max + 1) by (apply Z.mod_pos_bound; lia).
  unfold setForward. rewrite E1, E4, land_max by done.
  destruct (clear_to_spec max (mStorageSize s) v Hmax Hss (d - 1) (Z.to_nat (size / 4)) st
    ((mCurMax s + 1) mod (max + 1))) as (st1 & -> & Hl1 & Hu1); [lia|lia|lia| |done|].
  { rewrite Hv, Zplus_mod_idemp_l. f_equal. lia. }
  cbn [mbind option_bind]. eexists. split; [done|]. split.
  { unfold setImpl. by rewrite length_insert. }
  intros u Hu. rewrite isSet_setImpl by lia.
  case_decide as Hr; [intuition|]. rewrite Hu1 by done. split.
  - intros [? Hj]. right. split; [done|]. intros j Hjd. specialize (Hj (j - 1) ltac:(lia)).
    rewrite Zplus_mod_idemp_l in Hj. by replace (mCurMax s + 1 + (j - 1)) with (mCurMax s + j) in Hj by lia.
  - intros [?|[? Hj]]; [done|]. split; [done|]. intros j Hjd.
    rewrite Zplus_mod_idemp_l. replace (mCurMax s + 1 + j) with (mCurMax s + (j + 1)) by lia.
    apply Hj. lia.
Qed.

(** The four ways a value enters the ring: the first value of all, a step
    forward in the same epoch, a step forward across the end of the range, and
    a late value inside the window. *)
Section Entering.
Variables (max size m v : Z) (s : t) (st : list Z).
Hypothesis Hpo : params_ok max size s.
Hypothesis Hv : 0 <= v <= max.

Lemma storage_bounds :
  0 < mStorageSize s /\ size <= 8 * mStorageSize s /\ size / 4 < 8 * mStorageSize s /\ size / 4 < max + 1.
Proof using Hpo. destruct Hpo as [? ? (E1 & E2 & -> & E4)]. zdm. Qed.

Lemma first_represents :
  represents max size (with_storage s v (setImpl (replicate (Z.to_nat (mStorageSize s)) 0) (mStorageSize s) v))
    (Some (v, {[ v ]})).
Proof using Hpo Hv.
  destruct storage_bounds as (Hss & Hring & _). pose proof Hpo as [Hmax Hsize _].
  split; [by destruct Hpo; split|].
  eexists. split_and!; [done| |done|lia|lia|set_solver|set_solver|].
  { unfold setImpl. rewrite length_insert. apply length_replicate. }
  intros u Hu Hd. cbn [mStorageSize with_storage].
  rewrite isSet_setImpl by (rewrite ?length_replicate; lia).
  rewrite elem_of_singleton. case_decide as Hp.
  - apply ring_pos_inj in Hp; lia.
  - split; [|intros ->; done]. rewrite isSet_testbit by lia.
    rewrite lookup_replicate_2 by (destruct (ring_split (mStorageSize s) u); lia).
    simpl. by rewrite Z.testbit_0_l.
Qed.

Hypothesis Hlen : length st = Z.to_nat (mStorageSize s).
Hypothesis Hcur : mCurMax s = m.
Hypothesis Hm : 0 <= m <= max.
Lemma rollover_represents : v < m -> max + 1 - m + v <= size / 4 ->
  exists s', setForward s st v = Some s' /\ represents max size s' (Some (v, {[ v ]})).
Proof using All.
  intros Hlt Hroll. destruct storage_bounds as (Hss & Hring & Hfwd & Hfm). pose proof Hpo as [_ Hsize _].
  destruct (setForward_spec max size s st v (max + 1 - m + v) Hpo Hlen)
    as (st' & -> & Hl' & Hu'); [lia|lia| |].
  { rewrite Hcur. replace (m + (max + 1 - m + v)) with (v + 1 * (max + 1)) by lia.
    rewrite Z.mod_add, Z.mod_small; lia. }
  eexists. split; [done|]. split; [by destruct Hpo; split|].
  exists st'. split_and!; [done|done|done|lia|lia|set_solver|set_solver by lia|].
  intros u Hu Hd. cbn [mStorageSize with_storage]. rewrite Hu', Hcur by lia.
  rewrite elem_of_singleton.
  destruct (decide (u = v)) as [->|Huv]; [by intuition|].
  split; [|done]. intros [Hp%ring_pos_inj|[_ Hj]]; [lia|lia|lia|].
  destruct (Hj (max + 1 - m + u)); [lia|].
  replace (m + (max + 1 - m + u)) with (u + 1 * (max + 1)) by lia.
  by rewrite Z.mod_add, Z.mod_small by lia.
Qed.

Variable seen : gset Z.
Hypothesis Hseen : forall u, u ∈ seen -> 0 <= u <= m.
Hypothesis Hbits : forall u, 0 <= u <= m -> m - u < size -> isSet st (mStorageSize s) u = true <-> u ∈ seen.

Lemma forward_represents : m < v -> v - m <= size / 4 ->
  exists s', setForward s st v = Some s' /\ represents max size s' (Some (v, {[ v ]} ∪ seen)).
Proof using All.
  intros Hlt Hfar. destruct storage_bounds as (Hss & Hring & Hfwd & Hfm). pose proof Hpo as [_ Hsize _].
  destruct (setForward_spec max size s st v (v - m) Hpo Hlen) as (st' & -> & Hl' & Hu');
    [lia|lia|rewrite Hcur, Z.mod_small; lia|].
  eexists. split; [done|]. split; [by destruct Hpo; split|].
  exists st'. split_and!; [done|done|done|lia|lia|set_solver| |].
  { intros u [->%elem_of_singleton|Hu]%elem_of_union; [lia|]. specialize (Hseen u Hu). lia. }
  intros u Hu Hd. cbn [mStorageSize with_storage]. rewrite Hu', Hcur by lia.
  rewrite elem_of_union, elem_of_singleton.
  destruct (decide (u = v)) as [->|Huv]; [by intuition|].
  assert (ring_pos (mStorageSize s) u <> ring_pos (mStorageSize s) v) as Hruv.
  { intros Hp%ring_pos_inj; lia. }
  destruct (decide (u <= m)) as [Hum|Hum].
  - rewrite Hbits by lia. split; [intuition|]. intros [?|?]; [done|]. right. split; [done|].
    intros j Hj. rewrite Z.mod_small by lia. intros Hp%ring_pos_inj; lia.
  - split; [|intros [?|Hus]; [done|]; specialize (Hseen u Hus); lia].
    intros [?|[_ Hj]]; [done|]. destruct (Hj (u - m)); [lia|].
    by replace (m + (u - m)) with u by lia; rewrite Z.mod_small by lia.
Qed.

Lemma inside_represents : m ∈ seen -> v < m -> m - v < size ->
  represents max size (with_storage s m (setImpl st (mStorageSize s) v)) (Some (m, {[ v ]} ∪ seen)).
Proof using All.
  intros Hin Hlt Hd. destruct storage_bounds as (Hss & Hring & _). pose proof Hpo as [_ Hsize _].
  split; [by destruct Hpo; split|]. eexists.
  split_and!; [done|unfold setImpl; by rewrite length_insert|done|lia|lia|set_solver| |].
  { intros u [->%elem_of_singleton|Hu]%elem_of_union; [lia|]. specialize (Hseen u Hu). lia. }
  intros u Hu Hdu. cbn [mStorageSize with_storage]. rewrite isSet_setImpl by lia.
  rewrite elem_of_union, elem_of_singleton. case_decide as Hp.
  - apply ring_pos_inj in Hp; [|lia|lia]. intuition.
  - rewrite Hbits by lia. split; [intuition|]. intros [->|?]; done.
Qed.
End Entering.

(** [set] after a positive [canProceed] runs to completion, reports success
    and does to the ring what the specification does to the set. *)
Lemma set_represents max size s sp v :
  represents max size s sp -> 0 <= v <= max -> canProceed s v = true ->
  exists s', set s v = Some (true, s') /\ represents max size s' (spec_set max size sp v).
Proof.
  intros Hrep Hv Hcan. pose proof (canProceed_represents _ _ _ _ _ Hrep Hv) as Hsc.
  rewrite Hcan in Hsc. destruct Hrep as [Hpo Hr].
  unfold set. rewrite Hcan. cbn [guard_true mbind option_bind].
  destruct sp as [[m seen]|]; [|rewrite Hr; eexists; split; [done|by apply first_represents]].
  destruct Hr as (st & Hst & Hlen & Hm0 & Hm & Hin & Hseen & Hbits).
  pose proof Hpo as [Hmax Hsize (E1 & E2 & E3 & E4)]. rewrite Hst, Hm0, E2, E4.
  cbn [spec_can] in Hsc. cbn [spec_set].
  destruct (Z.eqb_spec v m) as [->|Hne].
  { rewrite decide_False, bool_decide_false in Hsc by auto with lia. done. }
  destruct (Z.ltb_spec m v) as [Hlt|Hge].
  - rewrite decide_True in Hsc by lia. rewrite decide_True by lia.
    symmetry in Hsc. apply bool_decide_eq_true in Hsc.
    destruct (Z.ltb_spec (size / 4) (v - m)); [lia|].
    destruct (forward_represents max size m v s st Hpo Hv Hlen Hm0 Hm seen) as (s' & -> & Hs'); try done.
    by exists s'.
  - rewrite decide_False in Hsc by lia. rewrite decide_False by lia.
    rewrite bool_decide_true in Hsc by done. cbn [andb] in Hsc.
    unfold getRolloverForwadDistance. rewrite E1, u32_small by (unfold is_u32; lia).
    replace (max - m + 1 + v) with (max + 1 - m + v) by lia.
    destruct (Z.leb_spec (max + 1 - m + v) (size / 4)) as [Hroll|Hroll].
    + rewrite decide_True by done.
      destruct (rollover_represents max size m v s st) as (s' & -> & Hs'); try done; [lia|].
      by exists s'.
    + rewrite decide_False by lia. rewrite bool_decide_false in Hsc by lia. cbn [orb] in Hsc.
      symmetry in Hsc. apply andb_true_iff in Hsc as [Hd _]. apply bool_decide_eq_true in Hd.
      destruct (Z.leb_spec size (m - v)); [lia|].
      eexists. split; [done|]. apply inside_represents; done || lia.
Qed.

(** *** Sequences of packets *)

(** What [SrtpCrypto] does with the sequence number of an incoming packet
    that decrypts: test, then record. *)
Definition feed (s : t) (v : Z) : option (bool * t) :=
  if canProceed s v then set s v else Some (false, s).

Fixpoint feed_all (s : t) (vs : list Z) : option (list bool * t) :=
  match vs with
  | [] => Some ([], s)
  | v :: vs =>
      '(d, s) ← feed s v;
      '(ds, s) ← feed_all s vs;
      Some (d :: ds, s)
  end.

Fixpoint spec_feed_all (max size : Z) (sp : spec) (vs : list Z) : list bool * spec :=
  match vs with
  | [] => ([], sp)
  | v :: vs =>
      let d := spec_can max size sp v in
      let '(ds, sp) := spec_feed_all max size (if d then spec_set max size sp v else sp) vs in
      (d :: ds, sp)
  end.

Lemma feed_represents max size s sp v :
  represents max size s sp -> 0 <= v <= max ->
  let d := spec_can max size sp v in
  exists s', feed s v = Some (d, s') /\
    represents max size s' (if d then spec_set max size sp v else sp).
Proof.
  intros Hrep Hv. cbv zeta. unfold feed.
  rewrite <- (canProceed_represents _ _ _ _ _ Hrep Hv).
  destruct (canProceed s v) eqn:Hc; [|eauto].
  by apply set_represents.
Qed.

Lemma make_represents max size s :
  make max size = Some s -> 1 <= size -> represents max size s None.
Proof.
  unfold make, guard_true. intros Hmk Hs.
  destruct (Z.eqb_spec max (2 ^ 16 - 1)), (Z.eqb_spec max (2 ^ 32 - 1)); simpl in Hmk; try done;
  destruct (Z.leb_spec size 4096); simpl in Hmk; try done; simplify_eq;
  (split; [|done]); constructor; cbn [mMaxPossibleValue mSize mStorageSize mMaxDistanceForward];
  try lia; (split_and!; [done|done| |done]);
  rewrite u32_small by (unfold is_u32; lia); f_equal; lia.
Qed.

Lemma feed_all_represents max size s sp vs :
  represents max size s sp -> Forall (fun v => 0 <= v <= max) vs ->
  exists s', feed_all s vs = Some ((spec_feed_all max size sp vs).1, s') /\
    represents max size s' (spec_feed_all max size sp vs).2.
Proof.
  intros Hrep Hvs. revert s sp Hrep.
  induction Hvs as [|v vs Hv Hvs IH]; intros s sp Hrep; simpl; [eauto|].
  destruct (feed_represents _ _ _ _ _ Hrep Hv) as (s1 & -> & Hrep1). simpl.
  destruct (IH _ _ Hrep1) as (s2 & -> & Hrep2).
  destruct (spec_feed_all _ _ _ vs) as [ds sp2]. simpl in *. eauto.
Qed.

(** C35: the ring of bits implements a set: for every sequence of 16 or 32 bit
    sequence numbers the accept/reject decisions are those of the abstract
    window that remembers the accepted values of the epoch in a set, no
    assertion fails, every store is inside the storage and the clearing loop
    ends. *)
Theorem replay_refines_set max size s vs :
  make max size = Some s -> 1 <= size -> Forall (fun v => 0 <= v <= max) vs ->
  exists s', feed_all s vs = Some ((spec_feed_all max size None vs).1, s') /\
    represents max size s' (spec_feed_all max size None vs).2.
Proof. intros Hmk Hs Hvs. by apply feed_all_represents; [apply make_represents|]. Qed.

Lemma replay_refines_set_witness :
  exists s', feed_all (mk 65535 16 2 4 0 None) [65530; 65534; 65530; 65532; 0; 65535; 1; 3; 2; 3] =
    Some ((spec_feed_all 65535 16 None [65530; 65534; 65530; 65532; 0; 65535; 1; 3; 2; 3]).1, s') /\
    represents 65535 16 s'
      (spec_feed_all 65535 16 None [65530; 65534; 65530; 65532; 0; 65535; 1; 3; 2; 3]).2.
Proof.
  apply (replay_refines_set 65535 16 (mk 65535 16 2 4 0 None)); [reflexivity|lia|].
  repeat constructor; lia.
Defined.

(** The greatest value never went down along a run. *)
Fixpoint no_rollover (s : t) (vs : list Z) : Prop :=
  match vs with
  | [] => True
  | v :: vs =>
      match feed s v with
      | Some (_, s') => mCurMax s <= mCurMax s' /\ no_rollover s' vs
      | None => True
      end
  end.

(** The abstract values already accepted stay rejected while the maximum does
    not go down. *)
Lemma seen_rejected max size s m seen v vs :
  represents max size s (Some (m, seen)) -> v ∈ seen -> 0 <= v <= max ->
  Forall (fun v => 0 <= v <= max) vs -> no_rollover s (vs ++ [v]) ->
  exists ds s', feed_all s vs = Some (ds, s') /\ feed s' v = Some (false, s').
Proof.
  intros Hrep Hin Hv Hvs. revert s m seen Hrep Hin.
  induction Hvs as [|u vs Hu Hvs IH]; intros s m seen Hrep Hin; simpl;
    [destruct (feed_represents _ _ _ _ _ Hrep Hv) as (s1 & Hf & Hrep1)
    |destruct (feed_represents _ _ _ _ _ Hrep Hu) as (s1 & Hf & Hrep1)];
    rewrite Hf; intros [Hle Hno];
    pose proof Hrep as [_ (st & _ & _ & Hm & _ & _ & Hseen & _)];
    specialize (Hseen v Hin); cbn [spec_can spec_set] in *.
  - exists [], s. split; [done|]. unfold feed.
    rewrite (canProceed_represents _ _ _ _ _ Hrep Hv). cbn [spec_can].
    rewrite decide_False in * by lia.
    destruct (decide (v = m)) as [->|Hne]; [by rewrite bool_decide_false by auto|].
    rewrite (bool_decide_true (v <> m)) in * by done. cbn [andb] in *.
    rewrite (bool_decide_false (v ∉ seen)) in * by auto. rewrite andb_false_r, orb_false_r in *.
    case_bool_decide as Hroll; [|done]. exfalso.
    rewrite decide_False, decide_True in Hrep1 by lia.
    destruct Hrep1 as [_ (st1 & _ & _ & Hm1 & _)]. lia.
  - assert (exists m' seen', represents max size s1 (Some (m', seen')) /\ v ∈ seen')
      as (m' & seen' & Hrep' & Hin').
    { destruct (decide (m < u)).
      { destruct (bool_decide _); [|by eauto]. do 2 eexists; split; [done|set_solver]. }
      destruct (decide (u = m)) as [->|].
      { rewrite bool_decide_false in Hrep1 by auto. cbn [andb] in Hrep1. eauto. }
      destruct (bool_decide (u <> m) && _); [|by eauto].
      destruct (decide (max + 1 - m + u <= size / 4)); [|do 2 eexists; split; [done|set_solver]].
      destruct Hrep1 as [_ (st1 & _ & _ & Hm1 & _)]. lia. }
    destruct (IH _ _ _ Hrep' Hin' Hno) as (ds & s2 & Hfa & ?).
    simpl. rewrite Hfa. simpl. eauto.
Qed.

(** no replay: once a sequence number has been accepted, it is rejected
    whenever it comes again, whatever came in between, as long as the maximum
    has not gone down (the counter has not wrapped, the repeated value itself
    included). *)
Theorem replay_rejected max size s0 pre v mid ds1 s1 s2 :
  make max size = Some s0 -> 1 <= size ->
  Forall (fun v => 0 <= v <= max) (pre ++ v :: mid) ->
  feed_all s0 pre = Some (ds1, s1) -> feed s1 v = Some (true, s2) ->
  no_rollover s2 (mid ++ [v]) ->
  exists ds s3, feed_all s2 mid = Some (ds, s3) /\ feed s3 v = Some (false, s3).
Proof.
  intros Hmk Hs [Hpre [Hv Hmid]%Forall_cons_1]%Forall_app Hf1 Hf2 Hno.
  destruct (feed_all_represents max size s0 None pre (make_represents _ _ _ Hmk Hs) Hpre) as (s1' & E & Hrep1).
  rewrite Hf1 in E. injection E as _ <-.
  destruct (feed_represents _ _ _ _ _ Hrep1 Hv) as (s2' & E & Hrep2).
  rewrite Hf2 in E. injection E as Ed <-. rewrite <- Ed in Hrep2.
  assert (exists m seen, spec_set max size (spec_feed_all max size None pre).2 v = Some (m, seen)
    /\ v ∈ seen) as (m & seen & Eset & Hin).
  { unfold spec_set. repeat case_match; do 2 eexists; (split; [done|set_solver]). }
  rewrite Eset in Hrep2. by eapply seen_rejected.
Qed.

Lemma replay_rejected_witness :
  exists ds s3, feed_all (mk 65535 16 2 4 12 (Some [0; 20])) [13; 11; 15] = Some (ds, s3) /\
    feed s3 12 = Some (false, s3).
Proof.
  apply (replay_rejected 65535 16 (mk 65535 16 2 4 0 None) [10] 12 [13; 11; 15]
    [true] (mk 65535 16 2 4 10 (Some [0; 4]))).
  - reflexivity.
  - lia.
  - repeat constructor; lia.
  - reflexivity.
  - reflexivity.
  - vm_compute. repeat split; congruence.
Defined.

End ReplayProtection.
