(* ===== verification/Extension.v ===== *)
(** * Extension: RTP header extensions

    [RtpExtension] (src/rtp_extension.cpp), [RtpExtensionBuilder]
    (src/rtp_extension_builder.cpp) and [ExtensionMap] (src/extension_map.cpp).
    A pointer and a size into a buffer are the list of the bytes they denote. *)

From stdpp Require Import strings.
From S2P Require Import Prelude Bytes.
Import ByteReader.

(** ** RtpExtension *)

Module RtpExtension.

Definition kOneByte : Z := 0xBEDE.
Definition kTwoByte : Z := 0x1000.

Record t := mk { mId : Z; mData : list Z }.

Definition make_empty : t := mk 0 [].

Definition isValidExtensionId (id : Z) : bool :=
  (id =? kOneByte) || (Z.land id 0xFFF0 =? kTwoByte).

Definition empty (e : t) : bool := (mId e =? 0) || bool_decide (mData e = []).

Definition size (e : t) : nat :=
  if empty e then 0 else 2 + 2 + 4 * ((length (mData e) + 3) / 4).

Definition clear (e : t) : t := mk 0 [].

Definition copy (e : t) : t := if empty e then make_empty else mk (mId e) (mData e).

Record Element := mkElement { el_id : Z; el_bytes : list Z }.

(** [Some None]: the walk stops; [None]: the reader aborted. *)
Definition nextElement (id : Z) (r : ByteReader.t) : option (option (Element * ByteReader.t)) :=
  if negb (isValidExtensionId id) then Some None
  else if id =? kOneByte then
    if decide (remaining r < 1)%nat then Some None
    else
      '(value, r) ← readU8 r;
      if value =? 0 then Some None
      else
        let id := Z.shiftr value 4 in
        if id =? 0x0F then Some None
        else
          let len := Z.to_nat (Z.land value 0x0F + 1) in
          if decide (remaining r < len)%nat then Some None
          else
            let out := mkElement id (take len (current r)) in
            r ← skip r len;
            Some (Some (out, r))
  else
    if decide (remaining r < 2)%nat then Some None
    else
      '(id, r) ← readU8 r;
      if id =? 0 then Some None
      else
        '(len, r) ← readU8 r;
        let len := Z.to_nat len in
        if decide (remaining r < len)%nat then Some None
        else
          let out := mkElement id (take len (current r)) in
          r ← skip r len;
          Some (Some (out, r)).

(** [findAny]: the loop [while (nextElement(reader, elem))] up to the first
    element with the id.  [None]: an abort, or no fuel left. *)
Fixpoint find_loop (fuel : nat) (id nExtId : Z) (r : ByteReader.t) : option (option (list Z)) :=
  match fuel with
  | O => None
  | S fuel =>
      step ← nextElement id r;
      match step with
      | None => Some None
      | Some (elem, r) =>
          if el_id elem =? nExtId then Some (Some (el_bytes elem))
          else find_loop fuel id nExtId r
      end
  end.

(** Every element takes at least one byte. *)
Definition findAny (e : t) (nExtId : Z) : option (option (list Z)) :=
  if empty e then Some None
  else find_loop (S (length (mData e))) (mId e) nExtId (ByteReader.make (mData e)).

Definition find_fixed (w : Wire.width) (e : t) (nExtId : Z) : option (option Z) :=
  value ← findAny e nExtId;
  match value with
  | Some bs =>
      if decide (Wire.width_bytes w <= length bs)%nat then
        '(v, _) ← Wire.read_field w (ByteReader.make bs); Some (Some v)
      else Some None
  | None => Some None
  end.

Definition findU16 := find_fixed Wire.W16.
Definition findU32 := find_fixed Wire.W32.
Definition findU64 := find_fixed Wire.W64.

(** The loop of [trimPadding]: the position behind the last element. *)
Fixpoint trim_loop (fuel : nat) (id : Z) (r : ByteReader.t) (last : nat) : option nat :=
  match fuel with
  | O => None
  | S fuel =>
      step ← nextElement id r;
      match step with
      | None => Some last
      | Some (_, r) => trim_loop fuel id r (position r)
      end
  end.

Definition trimPadding (e : t) : option t :=
  if empty e then Some e
  else
    last ← trim_loop (S (length (mData e))) (mId e) (ByteReader.make (mData e)) 0;
    Some (mk (mId e) (take last (mData e))).

(** *** The wire format of an element *)

Definition encode_element (id : Z) (el : Element) : list Z :=
  if id =? kOneByte then
    Z.lor (Z.shiftl (el_id el) 4) (Z.of_nat (length (el_bytes el)) - 1) :: el_bytes el
  else el_id el :: Z.of_nat (length (el_bytes el)) :: el_bytes el.

Definition encode_elements (id : Z) (els : list Element) : list Z :=
  concat (map (encode_element id) els).

(** What each format can carry. *)
Definition wf_element (id : Z) (el : Element) : Prop :=
  if id =? kOneByte then 1 <= el_id el <= 14 /\ (1 <= length (el_bytes el) <= 16)%nat
  else 1 <= el_id el <= 255 /\ (length (el_bytes el) <= 255)%nat.

Lemma encode_element_length id el : (1 <= length (encode_element id el))%nat.
Proof. unfold encode_element. destruct (_ =? _); simpl; lia. Qed.

Lemma one_byte_header id len :
  0 <= id <= 14 -> 0 <= len < 16 ->
  Z.lor (Z.shiftl id 4) len = id * 16 + len.
Proof. intros. by rewrite lor_shiftl_add by lia. Qed.

(** Reading a well-formed element yields it and stops behind it. *)
Lemma nextElement_encode id el pre post :
  isValidExtensionId id = true -> wf_element id el ->
  nextElement id (reader_at pre (encode_element id el ++ post)) =
  Some (Some (el, reader_at (pre ++ encode_element id el) post)).
Proof.
  unfold nextElement, wf_element, encode_element. intros -> Hwf. cbn [negb].
  destruct el as [i bs]. cbn [el_id el_bytes] in *.
  destruct (Z.eqb_spec id kOneByte) as [->|Hne]; destruct Hwf as [Hi Hl].
  - rewrite one_byte_header by lia. cbn [app]. rewrite remaining_at.
    rewrite decide_False by (simpl; lia). rewrite readU8_at. cbn [mbind option_bind].
    destruct (Z.eqb_spec (i * 16 + (Z.of_nat (length bs) - 1)) 0); [lia|].
    assert (Z.shiftr (i * 16 + (Z.of_nat (length bs) - 1)) 4 = i) as -> by (rewrite shiftr_div by lia; zdm).
    assert (Z.land (i * 16 + (Z.of_nat (length bs) - 1)) 0x0F = Z.of_nat (length bs) - 1) as ->.
    { change 0x0F with (2 ^ 4 - 1). rewrite land_ones_mod by lia. zdm. }
    destruct (Z.eqb_spec i 0x0F); [lia|].
    replace (Z.to_nat (Z.of_nat (length bs) - 1 + 1)) with (length bs) by lia.
    rewrite remaining_at, decide_False by (rewrite length_app; lia).
    rewrite current_at, take_app_length, skip_at by done. simpl. by rewrite <- app_assoc.
  - cbn [app]. rewrite remaining_at, decide_False by (simpl; lia).
    rewrite readU8_at. cbn [mbind option_bind]. destruct (Z.eqb_spec i 0); [lia|].
    rewrite readU8_at. cbn [mbind option_bind]. rewrite Nat2Z.id.
    rewrite remaining_at, decide_False by (rewrite length_app; lia).
    rewrite current_at, take_app_length, skip_at by done. simpl. by rewrite <- !app_assoc.
Qed.

(** The walk stops at the end and at zero padding. *)
Lemma nextElement_padding id pre n :
  nextElement id (reader_at pre (replicate n 0)) = Some None.
Proof.
  unfold nextElement. destruct (isValidExtensionId id); [|done]. cbn [negb].
  destruct (id =? kOneByte); rewrite remaining_at, length_replicate;
    (case_decide; [done|]); (destruct n as [|n]; [lia|]); cbn [replicate];
    rewrite readU8_at; done.
Qed.

(** On arbitrary bytes a step never aborts, and an element found lies between
    the reader's position and the end. *)
Lemma nextElement_total id pre post :
  nextElement id (reader_at pre post) = Some None \/
  exists el hd bs post', post = hd ++ bs ++ post' /\ (1 <= length hd)%nat /\ el_bytes el = bs /\
    nextElement id (reader_at pre post) = Some (Some (el, reader_at (pre ++ hd ++ bs) post')).
Proof.
  unfold nextElement. destruct (isValidExtensionId id); [|by left]. cbn [negb].
  destruct (id =? kOneByte); rewrite remaining_at; (case_decide; [by left|]).
  - destruct post as [|v post]; [simpl in *; lia|]. rewrite readU8_at. cbn [mbind option_bind].
    destruct (v =? 0); [by left|]. destruct (_ =? 0x0F); [by left|].
    set (len := Z.to_nat _). rewrite remaining_at. case_decide; [by left|]. right.
    rewrite current_at, skip_split by lia.
    exists (mkElement (Z.shiftr v 4) (take len post)), [v], (take len post), (drop len post).
    split_and!; [cbn [app]; by rewrite take_drop|simpl; lia|done|].
    cbn [mbind option_bind app]. by rewrite <- app_assoc.
  - destruct post as [|i post]; [simpl in *; lia|]. rewrite readU8_at. cbn [mbind option_bind].
    destruct (i =? 0); [by left|].
    destruct post as [|l post]; [simpl in *; lia|]. rewrite readU8_at. cbn [mbind option_bind].
    set (len := Z.to_nat l). rewrite remaining_at. case_decide; [by left|]. right.
    rewrite current_at, skip_split by lia.
    exists (mkElement i (take len post)), [i; l], (take len post), (drop len post).
    split_and!; [cbn [app]; by rewrite take_drop|simpl; lia|done|].
    cbn [mbind option_bind app]. by rewrite <- !app_assoc.
Qed.

(** The value of the first element with an id. *)
Fixpoint find_first (nExtId : Z) (els : list Element) : option (list Z) :=
  match els with
  | [] => None
  | el :: els => if el_id el =? nExtId then Some (el_bytes el) else find_first nExtId els
  end.

Lemma find_loop_encode id nExtId els pad : isValidExtensionId id = true ->
  Forall (wf_element id) els -> forall fuel pre,
  (length (encode_elements id els) < fuel)%nat ->
  find_loop fuel id nExtId (reader_at pre (encode_elements id els ++ replicate pad 0)) =
  Some (find_first nExtId els).
Proof.
  intros Hid Hels. induction Hels as [|el els Hel Hels IH]; intros fuel pre Hf;
    (destruct fuel as [|fuel]; [lia|]).
  - cbn [find_loop encode_elements map concat app]. by rewrite nextElement_padding.
  - unfold encode_elements in *. cbn [map concat] in *. rewrite length_app in Hf.
    pose proof (encode_element_length id el).
    cbn [find_loop]. rewrite <- app_assoc, nextElement_encode by done.
    cbn [mbind option_bind find_first]. destruct (el_id el =? nExtId); [done|].
    apply IH. lia.
Qed.

Lemma trim_loop_encode id els pad : isValidExtensionId id = true ->
  Forall (wf_element id) els -> forall fuel pre last,
  (length (encode_elements id els) < fuel)%nat -> last = length pre ->
  trim_loop fuel id (reader_at pre (encode_elements id els ++ replicate pad 0)) last =
  Some (length pre + length (encode_elements id els))%nat.
Proof.
  intros Hid Hels. induction Hels as [|el els Hel Hels IH]; intros fuel pre last Hf ->;
    (destruct fuel as [|fuel]; [lia|]).
  - cbn [trim_loop encode_elements map concat app]. rewrite nextElement_padding. simpl. f_equal. lia.
  - unfold encode_elements in *. cbn [map concat] in *. rewrite length_app in *.
    pose proof (encode_element_length id el).
    cbn [trim_loop]. rewrite <- app_assoc, nextElement_encode by done.
    cbn [mbind option_bind]. rewrite position_at, IH by (done || lia).
    f_equal. rewrite length_app. lia.
Qed.

Lemma valid_id_nonzero id : isValidExtensionId id = true -> (id =? 0) = false.
Proof. intros H. apply Z.eqb_neq. intros ->. done. Qed.

(** [trimPadding] drops exactly the zero padding behind the elements. *)
Lemma trimPadding_encode id els pad :
  isValidExtensionId id = true -> Forall (wf_element id) els ->
  trimPadding (mk id (encode_elements id els ++ replicate pad 0)) =
  Some (mk id (encode_elements id els)).
Proof.
  intros Hid Hels. unfold trimPadding, empty. cbn [mId mData].
  rewrite valid_id_nonzero by done. cbn [orb]. case_bool_decide as Hnil.
  { apply app_nil in Hnil as [-> ->]. done. }
  rewrite make_reader_at, trim_loop_encode by (done || (rewrite length_app; lia)).
  simpl. by rewrite take_app_length.
Qed.

Lemma findAny_elements id els pad nExtId :
  isValidExtensionId id = true -> Forall (wf_element id) els ->
  findAny (mk id (encode_elements id els ++ replicate pad 0)) nExtId =
  Some (find_first nExtId els).
Proof.
  intros Hid Hels. unfold findAny, empty. cbn [mId mData].
  rewrite valid_id_nonzero by done. cbn [orb]. case_bool_decide as Hnil.
  { destruct els as [|el els]; [done|]. apply app_nil in Hnil as [Hnil _].
    apply (f_equal length) in Hnil. unfold encode_elements in Hnil.
    cbn [map concat] in Hnil. rewrite length_app in Hnil.
    pose proof (encode_element_length id el). simpl in Hnil. lia. }
  rewrite make_reader_at. apply find_loop_encode; [done..|]. rewrite length_app. lia.
Qed.

(** A zero byte ends the search, whatever lies behind it. *)
Lemma nextElement_zero id pre rest : nextElement id (reader_at pre (0 :: rest)) = Some None.
Proof.
  unfold nextElement. destruct (isValidExtensionId id); [|done]. cbn [negb]. rewrite remaining_at. cbn [length].
  destruct (id =? kOneByte).
  - rewrite decide_False by lia. by rewrite readU8_at.
  - case_decide; [done|]. by rewrite readU8_at.
Qed.

Lemma findAny_stops id els rest nExtId :
  isValidExtensionId id = true -> Forall (wf_element id) els ->
  findAny (mk id (encode_elements id els ++ 0 :: rest)) nExtId = Some (find_first nExtId els).
Proof.
  intros Hid Hels. unfold findAny, empty. cbn [mId mData]. rewrite valid_id_nonzero by done. cbn [orb].
  rewrite bool_decide_eq_false_2 by (intros E; by destruct (encode_elements id els)). rewrite make_reader_at.
  match goal with |- find_loop ?n _ _ (reader_at ?p _) = _ => assert (length (encode_elements id els) < n)%nat as Hf
    by (rewrite length_app; lia); revert Hf; generalize n; generalize p end.
  induction Hels as [|el els Hel Hels IH]; intros pre fuel Hf; (destruct fuel as [|fuel]; [lia|]); cbn [find_loop].
  - cbn [encode_elements map concat app]. by rewrite nextElement_zero.
  - unfold encode_elements in *. cbn [map concat] in *. rewrite length_app in Hf. pose proof (encode_element_length id el).
    rewrite <- app_assoc, nextElement_encode by done. cbn [mbind option_bind find_first]. destruct (el_id el =? nExtId); [done|].
    apply IH. lia.
Qed.

(** looking up an extension in a sequence of elements of either RFC 8285 format,
    with padding behind the last one or not, returns the bytes of the first
    element with that id, and nothing when there is none.  (Padding between
    elements, which the format allows, ends the search: [findAny_stops].) *)
Theorem findAny_encode id els pad nExtId :
  isValidExtensionId id = true -> Forall (wf_element id) els ->
  findAny (mk id (encode_elements id els ++ replicate pad 0)) nExtId =
  Some (find_first nExtId els).
Proof. apply findAny_elements. Qed.

Lemma findAny_encode_witness :
  findAny (mk kOneByte (encode_elements kOneByte
    [mkElement 3 [7; 8]; mkElement 5 [1; 2; 3]] ++ replicate 2 0)) 5 = Some (Some [1; 2; 3]).
Proof.
  apply (findAny_encode kOneByte [mkElement 3 [7; 8]; mkElement 5 [1; 2; 3]] 2 5); [done|].
  repeat constructor; simpl; lia.
Defined.

Lemma find_loop_total id nExtId fuel : forall pre post, (length post < fuel)%nat ->
  exists r, find_loop fuel id nExtId (reader_at pre post) = Some r /\
    forall bs, r = Some bs -> exists before after, post = before ++ bs ++ after.
Proof.
  induction fuel as [|fuel IH]; intros pre post Hf; [lia|]. cbn [find_loop].
  destruct (nextElement_total id pre post) as [-> | (el & hd & bs & post' & -> & Hhd & Hbs & ->)];
    cbn [mbind option_bind]; [by eexists|].
  destruct (el_id el =? nExtId).
  { eexists. split; [done|]. intros ? [= <-]. rewrite Hbs. eauto. }
  destruct (IH (pre ++ hd ++ bs) post') as (r & -> & Hr); [rewrite !length_app in Hf; lia|].
  exists r. split; [done|]. intros bs' E. destruct (Hr bs' E) as (b & a & ->).
  exists (hd ++ bs ++ b), a. by rewrite <- !app_assoc.
Qed.

Lemma findAny_total e nExtId : is_Some (findAny e nExtId).
Proof.
  unfold findAny. destruct (empty e); [by eexists|]. rewrite make_reader_at.
  destruct (find_loop_total (mId e) nExtId (S (length (mData e))) [] (mData e)) as (r & -> & _); [lia|by eexists].
Qed.

Lemma trim_loop_total id fuel : forall pre post last, (length post < fuel)%nat ->
  (last <= length pre)%nat ->
  exists n, trim_loop fuel id (reader_at pre post) last = Some n /\
    (n <= length (pre ++ post))%nat.
Proof.
  induction fuel as [|fuel IH]; intros pre post last Hf Hl; [lia|]. cbn [trim_loop].
  destruct (nextElement_total id pre post) as [-> | (el & hd & bs & post' & -> & Hhd & Hbs & ->)];
    cbn [mbind option_bind].
  { eexists. split; [done|]. rewrite length_app. lia. }
  rewrite position_at.
  destruct (IH (pre ++ hd ++ bs) post' (length (pre ++ hd ++ bs))) as (n & -> & Hn);
    [rewrite !length_app in Hf; lia|lia|].
  exists n. split; [done|]. by rewrite <- !app_assoc in Hn.
Qed.

(** C39: on any bytes whatsoever, of any profile id, looking up and trimming an
    extension received from the network terminate without aborting; a value
    found is a slice of the data, and trimming keeps a prefix of it. *)
Theorem extension_parse_safe e nExtId :
  (exists r, findAny e nExtId = Some r /\
     forall bs, r = Some bs -> exists before after, mData e = before ++ bs ++ after) /\
  (exists e', trimPadding e = Some e' /\ mId e' = mId e /\ mData e' `prefix_of` mData e).
Proof.
  unfold findAny, trimPadding. destruct (empty e).
  { split; eexists; (split; [done|]); [done|]. by split. }
  rewrite make_reader_at. split.
  - apply find_loop_total. lia.
  - destruct (trim_loop_total (mId e) (S (length (mData e))) [] (mData e) 0) as (n & -> & Hn);
      [lia|done|].
    eexists. split; [done|]. split; [done|]. simpl. exists (drop n (mData e)). by rewrite take_drop.
Qed.

End RtpExtension.

(** ** RtpExtensionBuilder

    The builder's state is its buffer [mBuf]. *)

Module RtpExtensionBuilder.

Definition make : list Z := [].

Definition addStringValue (buf : list Z) (id : Z) (value : list Z) : list Z :=
  let len := Nat.min 255 (length value) in
  let buf := ByteWriter.writeU8 buf id in
  let buf := ByteWriter.writeU8 buf (Z.of_nat len) in
  ByteWriter.write buf (take len value).

(** The length byte is clamped to 255, the data is not. *)
Definition addBinaryValue (buf : list Z) (id : Z) (value : list Z) : list Z :=
  let len := Nat.min 255 (length value) in
  let buf := ByteWriter.writeU8 buf id in
  let buf := ByteWriter.writeU8 buf (Z.of_nat len) in
  ByteWriter.write buf value.

Definition addU16Value (buf : list Z) (id value : Z) : list Z :=
  ByteWriter.writeU16 (ByteWriter.writeU8 (ByteWriter.writeU8 buf id) 2) value.
Definition addU32Value (buf : list Z) (id value : Z) : list Z :=
  ByteWriter.writeU32 (ByteWriter.writeU8 (ByteWriter.writeU8 buf id) 4) value.
Definition addU64Value (buf : list Z) (id value : Z) : list Z :=
  ByteWriter.writeU64 (ByteWriter.writeU8 (ByteWriter.writeU8 buf id) 8) value.

(** The search loop shared by [addOrReplaceU16Value] and [contains]: the
    offset of the value of the element [id], and its length byte. *)
Fixpoint find_offset (fuel : nat) (id : Z) (r : ByteReader.t) : option (option (nat * Z)) :=
  match fuel with
  | O => None
  | S fuel =>
      if decide (2 < remaining r)%nat then
        '(extensionId, r) ← readU8 r;
        '(extensionLen, r) ← readU8 r;
        if extensionId =? id then Some (Some (position r, extensionLen))
        else
          r ← skip r (Z.to_nat extensionLen);
          find_offset fuel id r
      else Some None
  end.

Definition addOrReplaceU16Value (buf : list Z) (id value : Z) : option (list Z) :=
  found ← find_offset (S (length buf)) id (ByteReader.make buf);
  match found with
  | Some (offset, len) =>
      _ ← guard_true (len =? 2);
      _ ← guard_true (bool_decide (offset + 1 < length buf)%nat);
      let buf := <[offset := Z.land (Z.shiftr value 8) 0xFF]> buf in
      Some (<[(offset + 1)%nat := Z.land value 0xFF]> buf)
  | None => Some (addU16Value buf id value)
  end.

Fixpoint contains_loop (fuel : nat) (id : Z) (r : ByteReader.t) : option bool :=
  match fuel with
  | O => None
  | S fuel =>
      if decide (2 < remaining r)%nat then
        '(extensionId, r) ← readU8 r;
        if extensionId =? id then Some true
        else
          '(extensionLen, r) ← readU8 r;
          r ← skip r (Z.to_nat extensionLen);
          contains_loop fuel id r
      else Some false
  end.

Definition contains (buf : list Z) (id : Z) : option bool :=
  contains_loop (S (length buf)) id (ByteReader.make buf).

Definition build (buf : list Z) : RtpExtension.t :=
  if bool_decide (buf = []) then RtpExtension.mk 0 [] else RtpExtension.mk RtpExtension.kTwoByte buf.

Definition from (e : RtpExtension.t) : list Z :=
  if RtpExtension.empty e then make else RtpExtension.mData e.

(** *** The builder produces the two-byte format *)

Abbreviation elem := RtpExtension.Element.
Abbreviation enc := (RtpExtension.encode_elements RtpExtension.kTwoByte).
Abbreviation wf_elem := (RtpExtension.wf_element RtpExtension.kTwoByte).

(** What an element of the builder's loops must be: their condition
    [remaining > 2] also asks for a value of at least one byte. *)
Definition loop_ok (el : elem) : Prop :=
  wf_elem el /\ RtpExtension.el_bytes el <> [].

Lemma enc_cons el els : enc (el :: els) =
  RtpExtension.el_id el :: Z.of_nat (length (RtpExtension.el_bytes el)) ::
  RtpExtension.el_bytes el ++ enc els.
Proof. done. Qed.

Lemma enc_app els1 els2 : enc (els1 ++ els2) = enc els1 ++ enc els2.
Proof. unfold RtpExtension.encode_elements. by rewrite map_app, concat_app. Qed.

Lemma wf_elem_bounds el : wf_elem el ->
  1 <= RtpExtension.el_id el <= 255 /\ (length (RtpExtension.el_bytes el) <= 255)%nat.
Proof. done. Qed.

(** Every [add] operation appends one element. *)
Definition added (buf buf' : list Z) (id : Z) (bytes : list Z) : Prop :=
  forall els, buf = enc els -> buf' = enc (els ++ [RtpExtension.mkElement id bytes]).

Lemma add_appends buf id len bytes :
  1 <= id <= 255 -> len = Z.of_nat (length bytes) -> len <= 255 ->
  added buf (ByteWriter.write (ByteWriter.writeU8 (ByteWriter.writeU8 buf id) len) bytes) id bytes.
Proof.
  intros Hid -> Hl els ->. rewrite enc_app, enc_cons.
  unfold ByteWriter.writeU8, ByteWriter.write.
  rewrite !u8_small by (unfold is_u8; lia). cbn [RtpExtension.el_id RtpExtension.el_bytes].
  unfold RtpExtension.encode_elements. simpl. by rewrite app_nil_r, <- !app_assoc.
Qed.

Lemma addStringValue_added buf id value : 1 <= id <= 255 ->
  added buf (addStringValue buf id value) id (take (Nat.min 255 (length value)) value).
Proof. intros. apply add_appends; [done|rewrite length_take; lia|lia]. Qed.

Lemma addBinaryValue_added buf id value : 1 <= id <= 255 -> (length value <= 255)%nat ->
  added buf (addBinaryValue buf id value) id value.
Proof.
  intros. unfold addBinaryValue. rewrite Nat.min_r by done. apply add_appends; [done|done|lia].
Qed.

Lemma add_fixed_added w buf id v : 1 <= id <= 255 ->
  added buf (Wire.write_field w (ByteWriter.writeU8 (ByteWriter.writeU8 buf id)
    (Z.of_nat (Wire.width_bytes w))) v) id (be_bytes (Wire.width_bytes w) v).
Proof.
  intros Hid. rewrite Wire.write_field_be. apply add_appends; [done|by rewrite length_be_bytes|].
  destruct w; simpl; lia.
Qed.

(** The search loop finds the first element with the id. *)
Lemma find_offset_enc id els : Forall loop_ok els -> forall fuel pre,
  (length (enc els) < fuel)%nat ->
  find_offset fuel id (reader_at pre (enc els)) =
  Some (match list_find (fun el => RtpExtension.el_id el = id) els with
        | Some (i, el) => Some ((length pre + length (enc (take i els)) + 2)%nat,
                                Z.of_nat (length (RtpExtension.el_bytes el)))
        | None => None
        end).
Proof.
  intros Hels. induction Hels as [|el els [Hel Hne] Hels IH]; intros fuel pre Hf;
    (destruct fuel as [|fuel]; [simpl in Hf; lia|]).
  - cbn [find_offset]. rewrite remaining_at. by rewrite decide_False by (simpl; lia).
  - rewrite enc_cons in *. cbn [find_offset]. rewrite remaining_at.
    assert (1 <= length (RtpExtension.el_bytes el))%nat
      by (destruct (RtpExtension.el_bytes el); simpl; [done|lia]).
    cbn [length] in Hf |- *. rewrite length_app in *.
    rewrite decide_True by lia. rewrite readU8_at. cbn [mbind option_bind].
    rewrite readU8_at. cbn [mbind option_bind]. cbn [list_find].
    destruct (Z.eqb_spec (RtpExtension.el_id el) id) as [He|He].
    { rewrite decide_True by done. cbn [take]. rewrite position_at, !length_app. simpl.
      do 3 f_equal. lia. }
    rewrite decide_False by done. rewrite Nat2Z.id, skip_at by done. cbn [mbind option_bind].
    rewrite IH by lia.
    destruct (list_find _ els) as [[i el']|]; [|done].
    cbn -[RtpExtension.encode_elements length]. rewrite enc_cons.
    cbn [length app]. rewrite !length_app. cbn [length]. do 3 f_equal. lia.
Qed.

Lemma contains_loop_offset id fuel : forall r found,
  find_offset fuel id r = Some found -> contains_loop fuel id r = Some (bool_decide (is_Some found)).
Proof.
  induction fuel as [|fuel IH]; intros r found Hf; [done|]. cbn [find_offset contains_loop] in *.
  case_decide; [|by simplify_eq].
  destruct (readU8 r) as [[i r1]|]; simpl in *; [|done].
  destruct (readU8 r1) as [[l r2]|]; simpl in *; [|done].
  destruct (i =? id); [by simplify_eq|].
  destruct (skip r2 _); simpl in *; [by apply IH|done].
Qed.

Lemma set_u16_enc els i el v :
  els !! i = Some el -> length (RtpExtension.el_bytes el) = 2%nat ->
  let offset := (length (enc (take i els)) + 2)%nat in
  <[(offset + 1)%nat := Z.land v 0xFF]> (<[offset := Z.land (Z.shiftr v 8) 0xFF]> (enc els)) =
  enc (<[i := RtpExtension.mkElement (RtpExtension.el_id el) (be_bytes 2 v)]> els) /\
  (offset + 1 < length (enc els))%nat.
Proof.
  intros Hi Hl. cbv zeta.
  assert (length (take i els) = i) as Hli
    by (rewrite length_take; apply lookup_lt_Some in Hi; lia).
  pose proof (take_drop_middle els i el Hi) as Hels.
  set (pre := take i els) in *. set (post := drop (S i) els) in *. clearbody pre post. subst els.
  replace i with (length pre + 0)%nat by lia. rewrite insert_app_r. cbn [insert list_insert].
  rewrite !enc_app, !enc_cons.
  destruct el as [id [|x [|y [|]]]]; simpl in Hl; try done.
  cbn [RtpExtension.el_id RtpExtension.el_bytes].
  split; [|rewrite length_app; simpl; lia].
  change 0xFF with (2 ^ 8 - 1). rewrite !land_ones_mod by lia.
  rewrite insert_app_r. cbn [insert list_insert app length].
  rewrite <- Nat.add_assoc, insert_app_r. cbn [Nat.add insert list_insert].
  rewrite length_be_bytes. cbn [be_bytes app]. by rewrite Z.shiftr_0_r.
Qed.

Lemma find_first_insert els i el id bs :
  list_find (fun el => RtpExtension.el_id el = id) els = Some (i, el) ->
  let els' := <[i := RtpExtension.mkElement id bs]> els in
  RtpExtension.find_first id els' = Some bs /\
  forall id', id' <> id -> RtpExtension.find_first id' els' = RtpExtension.find_first id' els.
Proof.
  revert i. induction els as [|e els IH]; intros i Hf; [done|]. simpl in Hf.
  case_decide as He.
  - injection Hf as <- <-. simpl. rewrite Z.eqb_refl. split; [done|]. intros id' Hne.
    destruct (Z.eqb_spec id id'); [congruence|]. destruct (Z.eqb_spec (RtpExtension.el_id e) id'); [congruence|done].
  - destruct (list_find _ els) as [[j e']|]; [|done]. simpl in Hf. injection Hf as <- <-.
    destruct (IH j eq_refl) as [H1 H2]. simpl.
    destruct (Z.eqb_spec (RtpExtension.el_id e) id); [congruence|]. split; [done|].
    intros id' Hne. destruct (RtpExtension.el_id e =? id'); [done|]. by apply H2.
Qed.

Lemma find_first_snoc els id bs :
  list_find (fun el => RtpExtension.el_id el = id) els = None ->
  let els' := els ++ [RtpExtension.mkElement id bs] in
  RtpExtension.find_first id els' = Some bs /\
  forall id', id' <> id -> RtpExtension.find_first id' els' = RtpExtension.find_first id' els.
Proof.
  induction els as [|e els IH]; intros Hf; simpl in *.
  - rewrite Z.eqb_refl. split; [done|]. intros id' Hne. by destruct (Z.eqb_spec id id').
  - case_decide as He; [done|]. destruct (list_find _ els); [done|].
    destruct (IH eq_refl) as [H1 H2]. destruct (Z.eqb_spec (RtpExtension.el_id e) id); [congruence|].
    split; [done|]. intros id' Hne. destruct (RtpExtension.el_id e =? id'); [done|]. by apply H2.
Qed.

(** The extension that carries a list of elements. *)
Definition built (els : list elem) : RtpExtension.t := build (enc els).

Lemma findAny_built els id : Forall wf_elem els ->
  RtpExtension.findAny (built els) id = Some (RtpExtension.find_first id els).
Proof.
  intros Hels. unfold built, build. case_bool_decide as Hnil.
  - destruct els as [|el els]; [done|]. rewrite enc_cons in Hnil. done.
  - rewrite <- (app_nil_r (enc els)). change [] with (replicate 0 0).
    by apply RtpExtension.findAny_elements.
Qed.

(** The element replaced, or a new one at the end. *)
Lemma addOrReplaceU16_spec els id v :
  Forall loop_ok els -> 1 <= id <= 255 -> is_u16 v ->
  (forall el, el ∈ els -> RtpExtension.el_id el = id -> length (RtpExtension.el_bytes el) = 2%nat) ->
  exists els', addOrReplaceU16Value (enc els) id v = Some (enc els') /\ Forall loop_ok els' /\
    RtpExtension.findU16 (built els') id = Some (Some v) /\
    (forall id', id' <> id ->
       RtpExtension.findAny (built els') id' = RtpExtension.findAny (built els) id') /\
    contains (enc els) id = Some (bool_decide (id ∈ RtpExtension.el_id <$> els)) /\
    (length (enc els') <= length (enc els) + 4)%nat /\
    forall el, el ∈ els' -> el ∈ els \/ el = RtpExtension.mkElement id (be_bytes 2 v).
Proof.
  intros Hels Hid Hv H2.
  assert (forall els, Forall loop_ok els -> Forall wf_elem els) as Hweak
    by (intros ?; apply Forall_impl; by intros ? []).
  assert (loop_ok (RtpExtension.mkElement id (be_bytes 2 v))) as Hnew.
  { split; [|done]. unfold RtpExtension.wf_element. simpl. lia. }
  assert (forall els', Forall loop_ok els' -> RtpExtension.find_first id els' = Some (be_bytes 2 v) ->
    RtpExtension.findU16 (built els') id = Some (Some v)) as HU16.
  { intros els' Hok Hff. unfold RtpExtension.findU16, RtpExtension.find_fixed.
    rewrite findAny_built, Hff by auto. cbn [mbind option_bind].
    rewrite decide_True by done. rewrite make_reader_at, <- (app_nil_r (be_bytes 2 v)).
    rewrite (Wire.read_field_be Wire.W16) by (apply be_bytes_ok || done).
    cbn [mbind option_bind]. by rewrite (be_value_bytes 2) by done. }
  pose proof (find_offset_enc id els Hels (S (length (enc els))) [] ltac:(lia)) as Hoff.
  cbn [length Nat.add] in Hoff. unfold addOrReplaceU16Value, contains.
  rewrite make_reader_at, (contains_loop_offset _ _ _ _ Hoff), Hoff. cbn [mbind option_bind].
  destruct (list_find _ els) as [[i el]|] eqn:Hfind.
  - pose proof Hfind as (Hi & Hel & _)%list_find_Some.
    assert (el ∈ els) as Hin by (by eapply list_elem_of_lookup_2).
    pose proof (H2 el Hin Hel) as Hl2. rewrite Hl2. cbn [guard_true Z.eqb Z.of_nat Pos.of_succ_nat mbind option_bind].
    destruct (set_u16_enc els i el v Hi Hl2) as [Hset Hlt]. rewrite Hset. rewrite bool_decide_true by done.
    cbn [guard_true mbind option_bind]. rewrite Hel.
    destruct (find_first_insert els i el id (be_bytes 2 v) Hfind) as [Hff Hother].
    assert (Forall loop_ok (<[i:=RtpExtension.mkElement id (be_bytes 2 v)]> els)) as Hok'
      by (by apply Forall_insert).
    eexists. split_and!; [done|done|by apply HU16| | |rewrite Hel in Hset; rewrite <- Hset, !length_insert; lia|].
    + intros id' Hne. rewrite !findAny_built by auto. f_equal. by apply Hother.
    + f_equal. rewrite !bool_decide_true; [done| |by eauto].
      apply list_elem_of_fmap. eauto.
    + intros x Hx. apply list_elem_of_lookup in Hx as [j Hj]. apply list_lookup_insert_Some in Hj as [(-> & <- & _)|(_ & Hj)];
        [by right|left; by eapply list_elem_of_lookup_2].
  - destruct (find_first_snoc els id (be_bytes 2 v) Hfind) as [Hff Hother].
    exists (els ++ [RtpExtension.mkElement id (be_bytes 2 v)]).
    assert (Forall loop_ok (els ++ [RtpExtension.mkElement id (be_bytes 2 v)])) as Hok'
      by (apply Forall_app; split; [done|]; constructor; [done|constructor]).
    split_and!; [|done|by apply HU16| | |rewrite enc_app, length_app; simpl; lia|].
    + f_equal. by apply (add_fixed_added Wire.W16 (enc els) id v Hid).
    + intros id' Hne. rewrite !findAny_built by auto. f_equal. by apply Hother.
    + f_equal. rewrite !bool_decide_false; [done| |by intros []].
      intros (el & He & Hin)%list_elem_of_fmap. apply list_find_None in Hfind.
      exact (Forall_elem _ _ el Hfind Hin (eq_sym He)).
    + intros x [Hx|Hx%list_elem_of_singleton]%elem_of_app; [by left|by right].
Qed.

(** replacing a 16-bit extension in a builder that holds any mix of
    extensions: the operation does not abort, the extension then built reports
    the new value under the id, every other id is looked up as before, and
    [contains] tells whether the id was there. *)
Theorem addOrReplaceU16_correct els id v :
  Forall loop_ok els -> 1 <= id <= 255 -> is_u16 v ->
  (forall el, el ∈ els -> RtpExtension.el_id el = id -> length (RtpExtension.el_bytes el) = 2%nat) ->
  exists els', addOrReplaceU16Value (enc els) id v = Some (enc els') /\ Forall loop_ok els' /\
    RtpExtension.findU16 (built els') id = Some (Some v) /\
    (forall id', id' <> id ->
       RtpExtension.findAny (built els') id' = RtpExtension.findAny (built els) id') /\
    contains (enc els) id = Some (bool_decide (id ∈ RtpExtension.el_id <$> els)).
Proof.
  intros Hels Hid Hv H2. destruct (addOrReplaceU16_spec els id v Hels Hid Hv H2) as (els' & H1 & H3 & H4 & H5 & H6 & _).
  by exists els'.
Qed.

Definition demo_elements : list elem :=
  [RtpExtension.mkElement 3 [1; 2; 3]; RtpExtension.mkElement 5 [0; 9]; RtpExtension.mkElement 6 [4]].

Lemma addOrReplaceU16_correct_witness :
  exists els', addOrReplaceU16Value (enc demo_elements) 5 513 = Some (enc els') /\
    Forall loop_ok els' /\ RtpExtension.findU16 (built els') 5 = Some (Some 513) /\
    (forall id', id' <> 5 ->
       RtpExtension.findAny (built els') id' = RtpExtension.findAny (built demo_elements) id') /\
    contains (enc demo_elements) 5 = Some (bool_decide (5 ∈ RtpExtension.el_id <$> demo_elements)).
Proof.
  apply (addOrReplaceU16_correct demo_elements 5 513).
  - repeat constructor; simpl; try lia; done.
  - lia.
  - vm_compute. split; congruence.
  - intros el. unfold demo_elements. rewrite !elem_of_cons, elem_of_nil.
    intros [->|[->|[->|[]]]]; simpl; done.
Defined.

End RtpExtensionBuilder.

(** ** ExtensionMap

    The lookups are [const] in the source but update the one-entry cache
    [mLastId], [mLastName], so they return the new state as well. *)

Module ExtensionMap.

Record Entry := mkEntry { id : Z; name : string }.

Record t := mk { mEntryList : list Entry; mLastId : Z; mLastName : string }.

Definition make : t := mk [] 0 "".

Definition add (m : t) (i : Z) (n : string) : t :=
  mk (mEntryList m ++ [mkEntry i n]) (mLastId m) (mLastName m).

Definition findByName (m : t) (n : string) : Z * t :=
  if bool_decide (mLastName m = n) && negb (mLastId m =? 0) then (mLastId m, m)
  else match list_find (fun e => name e = n) (mEntryList m) with
       | Some (_, e) => (id e, mk (mEntryList m) (id e) n)
       | None => (0, m)
       end.

Definition findById (m : t) (i : Z) : string * t :=
  if (mLastId m =? i) && negb (bool_decide (mLastName m = "")) then (mLastName m, m)
  else match list_find (fun e => id e = i) (mEntryList m) with
       | Some (_, e) => (name e, mk (mEntryList m) (id e) (name e))
       | None => ("", m)
       end.

Definition clear (m : t) : t := mk [] 0 "".

(** *** The specification: a plain association list *)

Inductive op := OpAdd (i : Z) (n : string) | OpByName (n : string) | OpById (i : Z) | OpClear.
Inductive result := RNone | RId (i : Z) | RName (n : string).

Definition step (m : t) (o : op) : result * t :=
  match o with
  | OpAdd i n => (RNone, add m i n)
  | OpByName n => let '(i, m) := findByName m n in (RId i, m)
  | OpById i => let '(n, m) := findById m i in (RName n, m)
  | OpClear => (RNone, clear m)
  end.

Fixpoint run (m : t) (os : list op) : list result :=
  match os with
  | [] => []
  | o :: os => let '(r, m) := step m o in r :: run m os
  end.

Definition spec_step (l : list Entry) (o : op) : result * list Entry :=
  match o with
  | OpAdd i n => (RNone, l ++ [mkEntry i n])
  | OpByName n => (RId (default 0 ((fun e => id e.2) <$> list_find (fun e => name e = n) l)), l)
  | OpById i => (RName (default "" ((fun e => name e.2) <$> list_find (fun e => id e = i) l)), l)
  | OpClear => (RNone, [])
  end.

Fixpoint spec_run (l : list Entry) (os : list op) : list result :=
  match os with
  | [] => []
  | o :: os => let '(r, l) := spec_step l o in r :: spec_run l os
  end.

(** The SDP assigns every id and every name once; 0 and the empty string are
    the "not found" results. *)
Fixpoint adds_fresh (l : list Entry) (os : list op) : Prop :=
  match os with
  | [] => True
  | OpAdd i n :: os =>
      i <> 0 /\ n <> ""%string /\ Forall (fun e => id e <> i /\ name e <> n) l /\
      adds_fresh (l ++ [mkEntry i n]) os
  | OpClear :: os => adds_fresh [] os
  | _ :: os => adds_fresh l os
  end.

Definition unique (l : list Entry) : Prop :=
  (forall e1 e2, e1 ∈ l -> e2 ∈ l -> id e1 = id e2 \/ name e1 = name e2 -> e1 = e2) /\
  (forall e, e ∈ l -> id e <> 0 /\ name e <> ""%string).

Definition coherent (m : t) (l : list Entry) : Prop :=
  mEntryList m = l /\ unique l /\
  ((mLastId m = 0 /\ mLastName m = ""%string) \/ mkEntry (mLastId m) (mLastName m) ∈ l).

Lemma find_unique (P : Entry -> Prop) `{forall e, Decision (P e)} l e :
  e ∈ l -> P e -> (forall e', e' ∈ l -> P e' -> e' = e) ->
  exists i, list_find P l = Some (i, e).
Proof.
  intros Hin HP Hu. destruct (list_find_elem_of P l e Hin HP) as [[i e'] Hf].
  pose proof Hf as (Hi & HP' & _)%list_find_Some. apply list_elem_of_lookup_2 in Hi.
  rewrite <- (Hu e') by done. eauto.
Qed.

Lemma step_coherent m l o : coherent m l -> adds_fresh l [o] ->
  (step m o).1 = (spec_step l o).1 /\ coherent (step m o).2 (spec_step l o).2.
Proof.
  intros (Hl & [Hu Hnz] & Hc) Hfresh. destruct m as [es li ln]. cbn [mEntryList mLastId mLastName] in *.
  subst es. destruct o as [i n|n|i|]; simpl.
  - split; [done|]. destruct Hfresh as (Hi & Hn & Hf & _).
    split_and!; [done| |].
    + split.
      * intros e1 e2 [He1|He1%list_elem_of_singleton]%elem_of_app [He2|He2%list_elem_of_singleton]%elem_of_app;
          [by apply Hu|..]; subst; simpl; intros [E|E]; try done; exfalso;
          first [destruct (Forall_elem _ _ e1 Hf He1)|destruct (Forall_elem _ _ e2 Hf He2)];
          simplify_eq; congruence.
      * intros e [He|He%list_elem_of_singleton]%elem_of_app; [by apply Hnz|by subst e].
    + destruct Hc as [?|Hc]; [by left|right]. apply elem_of_app. by left.
  - unfold findByName. cbn [mEntryList mLastId mLastName].
    destruct (bool_decide (ln = n) && negb (li =? 0)) eqn:Hhit.
    + apply andb_true_iff in Hhit as [Hn Hi]. apply bool_decide_eq_true in Hn as ->.
      destruct Hc as [[-> _]|Hc]; [done|].
      destruct (find_unique (fun e => name e = n) l _ Hc eq_refl) as [j ->].
      { intros e' He' E. apply Hu; auto. }
      simpl. split; [done|]. split_and!; [done|done|by right].
    + destruct (list_find _ l) as [[j e]|] eqn:Hf; simpl; (split; [done|]).
      * apply list_find_Some in Hf as (Hj & <- & _). apply list_elem_of_lookup_2 in Hj.
        split_and!; [done|done|right]. by destruct e.
      * by split_and!.
  - unfold findById. cbn [mEntryList mLastId mLastName].
    destruct ((li =? i) && negb (bool_decide (ln = ""))) eqn:Hhit.
    + apply andb_true_iff in Hhit as [Hi Hn]. apply Z.eqb_eq in Hi as ->.
      destruct Hc as [[_ ->]|Hc]; [done|].
      destruct (find_unique (fun e => id e = i) l _ Hc eq_refl) as [j ->].
      { intros e' He' E. apply Hu; auto. }
      simpl. split; [done|]. split_and!; [done|done|by right].
    + destruct (list_find _ l) as [[j e]|] eqn:Hf; simpl; (split; [done|]).
      * apply list_find_Some in Hf as (Hj & <- & _). apply list_elem_of_lookup_2 in Hj.
        split_and!; [done|done|right]. by destruct e.
      * by split_and!.
  - split; [done|]. split_and!; [done|split; intros * ?%elem_of_nil; done|by left].
Qed.

(** the cache is invisible: with every id and name added once, any
    interleaving of additions, lookups in both directions and clearing gives
    the answers of a plain association list. *)
Theorem extension_map_cache_transparent os :
  adds_fresh [] os -> run make os = spec_run [] os.
Proof.
  assert (coherent make []) as Hc.
  { split_and!; [done|split; intros * ?%elem_of_nil; done|by left]. }
  revert Hc. generalize make as m. generalize (@nil Entry) as l.
  induction os as [|o os IH]; intros l m Hc Hf; [done|].
  assert (adds_fresh l [o] /\ adds_fresh (spec_step l o).2 os) as [Ho Hos].
  { destruct o; simpl in *; tauto. }
  destruct (step_coherent m l o Hc Ho) as [Hr Hc']. simpl.
  destruct (step m o) as [r m'], (spec_step l o) as [r' l']. simpl in *. subst r'.
  f_equal. by apply IH.
Qed.

Lemma extension_map_cache_transparent_witness :
  run make [OpAdd 1 "mid"; OpByName "mid"; OpAdd 3 "twcc"; OpById 3; OpByName "rid"; OpById 1] =
  spec_run [] [OpAdd 1 "mid"; OpByName "mid"; OpAdd 3 "twcc"; OpById 3; OpByName "rid"; OpById 1].
Proof.
  apply extension_map_cache_transparent. simpl.
  split_and!; try done; repeat constructor; done.
Defined.

End ExtensionMap.
