(* ===== verification/Tracks.v ===== *)
(** * Tracks: the negotiated parameters of a media track (src/track.cpp,
    include/srtc/track.h, include/srtc/srtc.h) with its media (src/media.cpp)
    and simulcast layer (src/simulcast_layer.cpp), and the per-track generators of
    sequence numbers and timestamps (src/rtp_packet_source.cpp,
    src/rtp_time_source.cpp, src/rtcp_packet_source.cpp).

    The objects a [Track] shares by pointer and changes (statistics, packet and
    time sources) are separate states here; the random numbers that seed the
    sources are arguments. *)

From stdpp Require Import strings.
From S2P Require Import Prelude Bytes Extension.

Inductive Codec := VP8 | VP9 | H264 | H265 | AV1 | Opus | Rtx.
#[export] Instance Codec_eq_dec : EqDecision Codec.
Proof. solve_decision. Defined.

Inductive MediaType := Video | Audio.
#[export] Instance MediaType_eq_dec : EqDecision MediaType.
Proof. solve_decision. Defined.

Inductive Direction := Publish | Subscribe.

Definition isVideoCodec (c : Codec) : bool :=
  match c with VP8 | VP9 | H264 | H265 | AV1 => true | Opus | Rtx => false end.
Definition isAudioCodec (c : Codec) : bool :=
  match c with Opus => true | _ => false end.

(** ** Media and simulcast layers *)

Module Media.

(** [mId] is the string's bytes. *)
Record t := mk { mId : list Z; mType : MediaType; mExtensionMap : ExtensionMap.t }.

Definition make (id : list Z) (type : MediaType) : t := mk id type ExtensionMap.make.

(** [getExtensionMap().findByName(name)].  The lookup cache of the map is
    transparent ([ExtensionMap]), so that the lookup does not change it here. *)
Definition findByName (m : t) (name : string) : Z := (ExtensionMap.findByName (mExtensionMap m) name).1.

End Media.

Module SimulcastLayer.

Record t := mk { name : list Z; width : Z; height : Z; frames_per_second : Z; kilobits_per_second : Z }.

(** The layers' allocation for one of them; [None] when the fuel of the
    variable-length encoding runs out, which it does not for 32 bits. *)
Fixpoint write_bitrates (w : list Z) (l : list t) : option (list Z) :=
  match l with
  | [] => Some w
  | layer :: l => w ← ByteWriter.writeLEB128 w (kilobits_per_second layer); write_bitrates w l
  end.

Definition write_resolution (w : list Z) (layer : t) : list Z :=
  let w := ByteWriter.writeU16 w (u16 (width layer - 1)) in
  let w := ByteWriter.writeU16 w (u16 (height layer - 1)) in
  ByteWriter.writeU8 w (u8 (Z.min (frames_per_second layer) 255)).

Definition buildGoogleVLA (ridId : Z) (l : list t) : option (list Z) :=
  let listSize := Z.of_nat (length l) in
  if (listSize =? 0) || (4 <? listSize) then Some []
  else if 3 <? ridId then Some []
  else
    let w := ByteWriter.writeU8 []
      (u8 (Z.lor (Z.lor (u16 (Z.shiftl ridId 6)) (Z.shiftl (u16 (listSize - 1)) 4)) 0x01)) in
    let w := ByteWriter.writeU8 w 0 in
    w ← write_bitrates w l;
    Some (fold_left write_resolution l w).

End SimulcastLayer.

Module Track.

Record CodecOptions := mkCodecOptions {
  profileLevelId : Z; minptime : Z; stereo : bool
}.

(** [Track::SimulcastLayer]: a layer with its index. *)
Record SimulcastLayerIndexed := mkLayer { layer : SimulcastLayer.t; index : Z }.

Record t := mk {
  mMedia : Media.t;
  mDirection : Direction;
  mSSRC : Z;
  mPayloadId : Z;
  mRtxSSRC : Z;
  mRtxPayloadId : Z;
  mCodec : Codec;
  mCodecOptions : option CodecOptions;
  mSimulcastLayer : option SimulcastLayerIndexed;
  mClockRate : Z;
  mHasNack : bool;
  mHasPli : bool
}.

Definition mMediaType (t : t) : MediaType := Media.mType (mMedia t).

Definition isSimulcast (t : t) : bool := bool_decide (is_Some (mSimulcastLayer t)).

End Track.

(** [TrackBuilder]: the same fields before [build]. *)
Module TrackBuilder.
Import Track.

Definition make (media : Media.t) (direction : Direction) (ssrc payloadId clockRate : Z) : t :=
  mk media direction ssrc payloadId 0 0 H264 None None clockRate false false.

Definition rtx (b : t) (rtxSsrc rtxPayloadId : Z) : t :=
  mk (mMedia b) (mDirection b) (mSSRC b) (mPayloadId b) rtxSsrc rtxPayloadId (mCodec b)
     (mCodecOptions b) (mSimulcastLayer b) (mClockRate b) (mHasNack b) (mHasPli b).
Definition codec (b : t) (c : Codec) (o : option CodecOptions) : t :=
  mk (mMedia b) (mDirection b) (mSSRC b) (mPayloadId b) (mRtxSSRC b) (mRtxPayloadId b) c
     o (mSimulcastLayer b) (mClockRate b) (mHasNack b) (mHasPli b).
Definition simulcastLayer (b : t) (l : option SimulcastLayerIndexed) : t :=
  mk (mMedia b) (mDirection b) (mSSRC b) (mPayloadId b) (mRtxSSRC b) (mRtxPayloadId b)
     (mCodec b) (mCodecOptions b) l (mClockRate b) (mHasNack b) (mHasPli b).
Definition nack (b : t) (x : bool) : t :=
  mk (mMedia b) (mDirection b) (mSSRC b) (mPayloadId b) (mRtxSSRC b) (mRtxPayloadId b)
     (mCodec b) (mCodecOptions b) (mSimulcastLayer b) (mClockRate b) x (mHasPli b).
Definition pli (b : t) (x : bool) : t :=
  mk (mMedia b) (mDirection b) (mSSRC b) (mPayloadId b) (mRtxSSRC b) (mRtxPayloadId b)
     (mCodec b) (mCodecOptions b) (mSimulcastLayer b) (mClockRate b) (mHasNack b) x.
Definition build (b : t) : t := b.

End TrackBuilder.

(** ** RtpPacketSource *)

Module RtpPacketSource.

Record t := mk { mGeneratedCount : Z; mRollover : Z; mNextSequence : Z }.

(** [random] is the draw of [mRandom], in [0, 30000]. *)
Definition make (random : Z) : t := mk 0 0 random.
Definition clear (random : Z) (s : t) : t := mk 0 0 random.

Definition getNextSequence (s : t) : (Z * Z) * t :=
  let count := u32 (mGeneratedCount s + 1) in
  let next := u16 (mNextSequence s + 1) in
  let rollover := if (1 <? count) && (next =? 0) then u32 (mRollover s + 1) else mRollover s in
  ((rollover, next), mk count rollover next).

Fixpoint take_sequences (n : nat) (s : t) : list (Z * Z) * t :=
  match n with
  | O => ([], s)
  | S n =>
      let '(x, s) := getNextSequence s in
      let '(xs, s) := take_sequences n s in
      (x :: xs, s)
  end.

(** The state after [n] packets. *)
Definition state_at (random n : Z) : t :=
  mk n ((random + n) / 2 ^ 16) ((random + n) mod 2 ^ 16).

Lemma getNextSequence_at random n :
  0 <= random <= 30000 -> 0 <= n < 2 ^ 32 - 1 ->
  getNextSequence (state_at random n) =
  (((random + (n + 1)) / 2 ^ 16, (random + (n + 1)) mod 2 ^ 16), state_at random (n + 1)).
Proof.
  intros Hr Hn. unfold getNextSequence, state_at. cbn [mGeneratedCount mRollover mNextSequence].
  rewrite (u32_small (n + 1)) by (unfold is_u32; lia).
  assert (u16 ((random + n) mod 2 ^ 16 + 1) = (random + (n + 1)) mod 2 ^ 16) as ->.
  { unfold u16. rewrite Zplus_mod_idemp_l. f_equal. lia. }
  enough ((if (1 <? n + 1) && ((random + (n + 1)) mod 2 ^ 16 =? 0)
           then u32 ((random + n) / 2 ^ 16 + 1) else (random + n) / 2 ^ 16) =
          (random + (n + 1)) / 2 ^ 16) as -> by done.
  rewrite u32_small by (unfold is_u32; zdm).
  destruct (Z.ltb_spec 1 (n + 1)), (Z.eqb_spec ((random + (n + 1)) mod 2 ^ 16) 0);
    cbn [andb]; zdm.
Qed.

(** The packets after the first [k]. *)
Lemma take_sequences_at random n : forall k,
  0 <= random <= 30000 -> 0 <= k -> k + Z.of_nat n < 2 ^ 32 ->
  (take_sequences n (state_at random k)).1 =
  map (fun k => ((random + k) / 2 ^ 16, (random + k) mod 2 ^ 16)) (seqZ (k + 1) (Z.of_nat n)).
Proof.
  induction n as [|n IH]; intros k Hr Hk Hn; [done|].
  cbn [take_sequences]. rewrite getNextSequence_at by lia.
  specialize (IH (k + 1)). destruct (take_sequences n _) as [xs s]. cbn [fst] in *.
  rewrite IH by lia. rewrite (seqZ_cons (k + 1)) by lia. cbn [map].
  do 2 f_equal. f_equal; lia.
Qed.

Lemma take_sequences_make random n :
  0 <= random <= 30000 -> Z.of_nat n < 2 ^ 32 ->
  (take_sequences n (make random)).1 =
  map (fun k => ((random + k) / 2 ^ 16, (random + k) mod 2 ^ 16)) (seqZ 1 (Z.of_nat n)).
Proof.
  intros Hr Hn. pose proof (take_sequences_at random n 0 Hr ltac:(lia) ltac:(lia)) as H.
  unfold state_at in H. by rewrite Z.add_0_r, Z.div_small, Z.mod_small in H by lia.
Qed.

(** the first four billion packets of a source carry consecutive extended
    sequence numbers: the rollover counter and the 16-bit sequence number are
    the high and low parts of the random start plus the packet's rank. *)
Theorem sequences_consecutive random n :
  0 <= random <= 30000 -> Z.of_nat n < 2 ^ 32 ->
  (take_sequences n (make random)).1 =
  map (fun k => ((random + k) / 2 ^ 16, (random + k) mod 2 ^ 16)) (seqZ 1 (Z.of_nat n)).
Proof. apply take_sequences_make. Qed.

Lemma sequences_consecutive_witness :
  (take_sequences 3 (make 30000)).1 =
  map (fun k => ((30000 + k) / 2 ^ 16, (30000 + k) mod 2 ^ 16)) (seqZ 1 3).
Proof. apply (sequences_consecutive 30000 3); lia. Defined.

End RtpPacketSource.

(** ** RtcpPacketSource *)

Module RtcpPacketSource.

Definition make : Z := 0.
Definition getNextSequence (mNextSequence : Z) : Z * Z :=
  let next := u32 (mNextSequence + 1) in (next, next).
Definition clear (mNextSequence : Z) : Z := 0.

End RtcpPacketSource.

(** ** RtpTimeSource

    Presentation times are microseconds ([int64_t]), the steady clock is an
    argument in nanoseconds. *)

Module RtpTimeSource.

Record t := mk {
  mClockRate : Z;
  mCurrPts : option Z;
  mCurrTime : Z;
  mCurrRtp : Z
}.

Definition make (clockRate now random : Z) : t := mk clockRate None now random.

(** The product is exact; the one of [int64_t] would overflow after more than three
    years between two frames at 90 kHz. *)
Definition getFrameTimestamp (s : t) (now pts : Z) : Z * t :=
  let curr := default pts (mCurrPts s) in
  let elapsed_usec := pts - curr in
  if elapsed_usec <? 0 then (mCurrRtp s, mk (mClockRate s) (Some curr) (mCurrTime s) (mCurrRtp s))
  else
    let rtp := u32 (mCurrRtp s + u32 (Z.quot (elapsed_usec * mClockRate s) 1000000)) in
    (rtp, mk (mClockRate s) (Some pts) now rtp).

Definition getCurrentTimestamp (s : t) (now : Z) : Z :=
  let elapsed_usec := Z.quot (now - mCurrTime s) 1000 in
  u32 (mCurrRtp s + Z.quot (elapsed_usec * mClockRate s) 1000000).

Fixpoint frames (s : t) (l : list (Z * Z)) : t :=
  match l with
  | [] => s
  | (now, pts) :: l => frames (getFrameTimestamp s now pts).2 l
  end.

Fixpoint sorted_from (p : Z) (l : list Z) : Prop :=
  match l with [] => True | q :: l => p <= q /\ sorted_from q l end.

(** The last presentation time of a run that starts at [p]. *)
Definition last_pts (p : Z) (l : list Z) : Z := List.last l p.

Lemma last_pts_cons p q l : last_pts p (q :: l) = last_pts q l.
Proof. unfold last_pts. revert q. induction l; intros; [done|]. simpl in *. by destruct l. Qed.

(** over frames with non-decreasing presentation times the RTP clock
    advances, modulo 2^32, by the elapsed media time at the track's clock rate
    minus a rounding loss of less than one tick per frame; it never runs
    ahead. *)
Theorem timestamp_drift rate t0 random p0 now0 l :
  0 < rate -> is_u32 random -> sorted_from p0 (map snd l) ->
  let s := frames (make rate t0 random) ((now0, p0) :: l) in
  exists loss, mCurrRtp s = u32 (random + ((last_pts p0 (map snd l) - p0) * rate - loss) / 1000000) /\
    ((last_pts p0 (map snd l) - p0) * rate - loss) mod 1000000 = 0 /\
    0 <= loss <= 999999 * Z.of_nat (length l).
Proof.
  intros Hrate Hrandom Hs. cbv zeta. cbn [frames].
  assert (forall s p base ticks, mClockRate s = rate -> mCurrPts s = Some p ->
    mCurrRtp s = u32 (base + ticks) -> sorted_from p (map snd l) ->
    exists loss t', mCurrRtp (frames s l) = u32 (base + t') /\
      (t' - ticks) * 1000000 = (last_pts p (map snd l) - p) * rate - loss /\
      0 <= loss <= 999999 * Z.of_nat (length l)) as Hgen.
  { clear Hs. induction l as [|[now q] l IH]; intros s p base ticks Hr Hp Hrtp Hs.
    { exists 0, ticks. simpl. split_and!; [done|unfold last_pts; simpl; lia|lia..]. }
    cbn [map snd sorted_from] in Hs. destruct Hs as [Hpq Hs].
    cbn [frames map snd]. unfold getFrameTimestamp. rewrite Hp, Hr. cbn [default from_option id].
    destruct (Z.ltb_spec (q - p) 0); [lia|].
    assert (0 <= (q - p) * rate) by nia.
    rewrite Z.quot_div_nonneg by lia. cbn [snd].
    edestruct (IH (mk rate (Some q) now (u32 (mCurrRtp s + u32 ((q - p) * rate / 1000000))))
      q base (ticks + (q - p) * rate / 1000000)) as (loss & t' & E1 & E2 & E3); [done|done| |done|].
    { cbn [mCurrRtp]. rewrite Hrtp. unfold u32. rewrite Zplus_mod_idemp_l, Zplus_mod_idemp_r.
      f_equal. lia. }
    exists (loss + ((q - p) * rate) mod 1000000), t'.
    split_and!; [done| | |].
    - rewrite last_pts_cons.
      pose proof (Z.div_mod ((q - p) * rate) 1000000 ltac:(lia)). lia.
    - pose proof (Z.mod_pos_bound ((q - p) * rate) 1000000). lia.
    - pose proof (Z.mod_pos_bound ((q - p) * rate) 1000000). cbn [length]. lia. }
  unfold getFrameTimestamp, make. cbn [mCurrPts default from_option id mCurrRtp mClockRate].
  rewrite Z.sub_diag. cbn [Z.ltb Z.compare Z.mul]. rewrite Z.quot_0_l by lia. cbn [snd].
  edestruct (Hgen (mk rate (Some p0) now0 (u32 (random + u32 0))) p0 random 0)
    as (loss & t' & E1 & E2 & E3); [done|done| |done|].
  { cbn [mCurrRtp]. done. }
  exists loss. rewrite E1. rewrite <- E2, Z.sub_0_r. rewrite Z.div_mul, Z.mod_mul by lia. done.
Qed.

Lemma timestamp_drift_witness :
  let l := [(1, 33333); (2, 66666); (3, 100000)] in
  let s := frames (make 90000 0 4294967295) ((0, 0) :: l) in
  exists loss, mCurrRtp s = u32 (4294967295 + ((last_pts 0 (map snd l) - 0) * 90000 - loss) / 1000000) /\
    ((last_pts 0 (map snd l) - 0) * 90000 - loss) mod 1000000 = 0 /\ 0 <= loss <= 999999 * 3.
Proof.
  apply (timestamp_drift 90000 0 4294967295 0 0 [(1, 33333); (2, 66666); (3, 100000)]).
  - lia.
  - vm_compute; split; congruence.
  - simpl. lia.
Defined.

End RtpTimeSource.
