(* ===== verification/Rtp.v ===== *)
(** * Rtp: [RtpPacket] (src/rtp_packet.cpp) and [SendRtpHistory]
    (src/send_rtp_history.cpp)

    A shared pointer to a packet that is not modified any more is the packet;
    the mutable parts of a packet ([setExtension], [setSendInfo], the moves)
    return the new packet. *)

From stdpp Require Import gmap.
From S2P Require Import Prelude Bytes Tracks Extension.
Import ByteReader.

Module RtpPacket.

Definition kMaxPayloadSize : nat := 1200.
Definition kHeaderSize : nat := 12.

Record t := mk {
  mTrack : Track.t;
  mSSRC : Z;
  mPayloadId : Z;
  mMarker : bool;
  mRollover : Z;
  mSequence : Z;
  mTimestamp : Z;
  mPaddingSize : Z;
  mPayload : list Z;
  mExtension : RtpExtension.t;
  mSendInfo : option bool
}.

(** The constructor for a packet of the track's main stream. *)
Definition make (track : Track.t) (marker : bool) (rollover sequence timestamp padding : Z)
  (extension : RtpExtension.t) (payload : list Z) : t :=
  mk track (Track.mSSRC track) (Track.mPayloadId track) marker rollover sequence timestamp
     padding payload extension None.

Definition setExtension (p : t) (e : RtpExtension.t) : t :=
  mk (mTrack p) (mSSRC p) (mPayloadId p) (mMarker p) (mRollover p) (mSequence p) (mTimestamp p)
     (mPaddingSize p) (mPayload p) e (mSendInfo p).

Definition setSendInfo (p : t) (is_last_packet_in_frame : bool) : t :=
  mk (mTrack p) (mSSRC p) (mPayloadId p) (mMarker p) (mRollover p) (mSequence p) (mTimestamp p)
     (mPaddingSize p) (mPayload p) (mExtension p) (Some is_last_packet_in_frame).

Definition getPayloadSize (p : t) : nat := length (mPayload p).

(** ** Generation *)

Definition writeExtension (buf : list Z) (e : RtpExtension.t) : list Z :=
  if RtpExtension.empty e then buf
  else
    let buf := ByteWriter.writeU16 buf (RtpExtension.mId e) in
    let extensionSize := length (RtpExtension.mData e) in
    let buf := ByteWriter.writeU16 buf (u16 (Z.of_nat ((extensionSize + 3) / 4))) in
    let buf := ByteWriter.write buf (RtpExtension.mData e) in
    (* for (padding = extensionSize; padding % 4 != 0; ...) writeU8(0) *)
    ByteWriter.write buf (replicate ((4 - extensionSize mod 4) mod 4) 0).

Definition writePayload (buf payload : list Z) : list Z := ByteWriter.write buf payload.

Definition writePadding (buf : list Z) (padding : Z) : list Z :=
  if padding =? 0 then buf
  else ByteWriter.writeU8 (ByteWriter.padding buf 0 (Z.to_nat (padding - 1))) padding.

(** V=2 | P | X | CC | M | PT *)
Definition header_bits (pad ext marker : bool) (payloadId : Z) : Z :=
  u16 (Z.lor (Z.lor (Z.lor (Z.lor (Z.shiftl 2 14)
    (if pad then Z.shiftl 1 13 else 0)) (if ext then Z.shiftl 1 12 else 0))
    (if marker then Z.shiftl 1 7 else 0)) (Z.land payloadId 0x7F)).

Definition generate (p : t) : list Z * Z :=
  let pad := negb (mPaddingSize p =? 0) in
  let ext := negb (RtpExtension.empty (mExtension p)) in
  let buf := ByteWriter.writeU16 [] (header_bits pad ext (mMarker p) (mPayloadId p)) in
  let buf := ByteWriter.writeU16 buf (mSequence p) in
  let buf := ByteWriter.writeU32 buf (mTimestamp p) in
  let buf := ByteWriter.writeU32 buf (mSSRC p) in
  let buf := writeExtension buf (mExtension p) in
  let buf := writePayload buf (mPayload p) in
  let buf := writePadding buf (mPaddingSize p) in
  (buf, mRollover p).

(** Retransmission: the sequence number comes from the track's RTX source.
    [None] is the failed assertion [rtxPayloadId > 0]. *)
Definition generateRtx (p : t) (extension : RtpExtension.t) (source : RtpPacketSource.t)
  : option ((list Z * Z) * RtpPacketSource.t) :=
  let rtxPayloadId := Track.mRtxPayloadId (mTrack p) in
  _ ← guard_true (0 <? rtxPayloadId);
  let pad := negb (mPaddingSize p =? 0) in
  let ext := negb (RtpExtension.empty extension) in
  let buf := ByteWriter.writeU16 [] (header_bits pad ext (mMarker p) rtxPayloadId) in
  let '((rtxRollover, rtxSequence), source) := RtpPacketSource.getNextSequence source in
  let buf := ByteWriter.writeU16 buf rtxSequence in
  let buf := ByteWriter.writeU32 buf (mTimestamp p) in
  let buf := ByteWriter.writeU32 buf (Track.mRtxSSRC (mTrack p)) in
  let buf := writeExtension buf extension in
  let buf := ByteWriter.writeU16 buf (mSequence p) in
  let buf := writePayload buf (mPayload p) in
  let buf := writePadding buf (mPaddingSize p) in
  Some ((buf, rtxRollover), source).

(** ** Parsing *)

(** The extension part: [Some None] when the packet is refused. *)
Definition parse_extension (header : Z) (r : ByteReader.t)
  : option (option (RtpExtension.t * ByteReader.t)) :=
  if has_bit header 12 then
    if decide (remaining r < 4)%nat then Some None
    else
      '(extId, r) ← readU16 r;
      '(words, r) ← readU16 r;
      let extSize := Z.to_nat (words * 4) in
      if decide (remaining r < extSize)%nat then Some None
      else
        '(extData, r) ← readByteBuffer r extSize;
        if RtpExtension.isValidExtensionId extId then
          extension ← RtpExtension.trimPadding (RtpExtension.mk extId extData);
          Some (Some (extension, r))
        else Some (Some (RtpExtension.make_empty, r))
  else Some (Some (RtpExtension.make_empty, r)).

(** Removing the padding: [None] when the packet is refused. *)
Definition strip_padding (padding : bool) (payload : list Z) : option (list Z) :=
  if padding then
    match list.last payload with
    | None => None
    | Some paddingCount =>
        if Z.of_nat (length payload) <? paddingCount then None
        else Some (take (length payload - Z.to_nat paddingCount) payload)
    end
  else Some payload.

(** [None]: an abort or a failed assertion; [Some None]: [return {}]. *)
Definition fromUdpPacket (track : Track.t) (data : list Z) : option (option t) :=
  let r := ByteReader.make data in
  if decide (remaining r < 4 + 4 + 4)%nat then Some None
  else
    '(header, r) ← readU16 r;
    let padding := has_bit header 13 in
    let marker := has_bit header 7 in
    let payloadId := Z.land header 0x7F in
    '(sequence, r) ← readU16 r;
    '(timestamp, r) ← readU32 r;
    '(ssrc, r) ← readU32 r;
    _ ← guard_true
      (((ssrc =? Track.mSSRC track) && (payloadId =? Track.mPayloadId track)) ||
       ((ssrc =? Track.mRtxSSRC track) && (payloadId =? Track.mRtxPayloadId track)));
    ext ← parse_extension header r;
    match ext with
    | None => Some None
    | Some (extension, r) =>
        '(payload, r) ← readByteBuffer r (remaining r);
        match strip_padding padding payload with
        | None => Some None
        | Some payload =>
            Some (Some (mk track ssrc payloadId marker 0 sequence timestamp 0
                           payload extension None))
        end
    end.

(** ** The wire format *)

Definition header_fields (p a x m : bool) (pt : Z) : Prop :=
  let h := header_bits p x m pt in
  is_u16 h /\ has_bit h 13 = p /\ has_bit h 12 = x /\ has_bit h 7 = m /\ Z.land h 0x7F = pt.

Lemma header_bits_fields p x m pt :
  0 <= pt < 128 ->
  is_u16 (header_bits p x m pt) /\ has_bit (header_bits p x m pt) 13 = p /\
  has_bit (header_bits p x m pt) 12 = x /\ has_bit (header_bits p x m pt) 7 = m /\
  Z.land (header_bits p x m pt) 0x7F = pt.
Proof.
  intros Hpt.
  assert (forall p x m, forallb (fun pt => bool_decide (
    is_u16 (header_bits p x m pt) /\ has_bit (header_bits p x m pt) 13 = p /\
    has_bit (header_bits p x m pt) 12 = x /\ has_bit (header_bits p x m pt) 7 = m /\
    Z.land (header_bits p x m pt) 0x7F = pt)) (seqZ 0 128) = true) as H
    by (by intros [] [] []; vm_compute).
  specialize (H p x m). rewrite forallb_forall in H.
  specialize (H pt). apply bool_decide_eq_true in H; [done|].
  apply list_elem_of_In, elem_of_seqZ. lia.
Qed.

(** The bytes that follow the fixed header for an extension. *)
Definition extension_bytes (e : RtpExtension.t) : list Z := writeExtension [] e.
Definition padding_bytes (n : Z) : list Z := writePadding [] n.

Lemma writeExtension_app buf e : writeExtension buf e = buf ++ extension_bytes e.
Proof.
  unfold extension_bytes, writeExtension. destruct (RtpExtension.empty e); [by rewrite app_nil_r|].
  unfold ByteWriter.writeU16, ByteWriter.write. by rewrite <- !app_assoc.
Qed.

Lemma writePadding_app buf n : writePadding buf n = buf ++ padding_bytes n.
Proof.
  unfold padding_bytes, writePadding. destruct (n =? 0); [by rewrite app_nil_r|].
  unfold ByteWriter.writeU8, ByteWriter.padding, ByteWriter.write. by rewrite <- !app_assoc.
Qed.

(** An extension that the library builds: two-byte (or one-byte) elements,
    small enough for the length field. *)
Definition wf_extension (e : RtpExtension.t) : Prop :=
  RtpExtension.empty e = true \/
  exists els, RtpExtension.isValidExtensionId (RtpExtension.mId e) = true /\
    is_u16 (RtpExtension.mId e) /\
    Forall (RtpExtension.wf_element (RtpExtension.mId e)) els /\
    RtpExtension.mData e = RtpExtension.encode_elements (RtpExtension.mId e) els /\
    Z.of_nat (length (RtpExtension.mData e)) <= 4 * 65535.

(** The value of an extension: all empty ones count as the same. *)
Definition normal_extension (e : RtpExtension.t) : RtpExtension.t :=
  if RtpExtension.empty e then RtpExtension.make_empty else e.

(** The zeros that align [n] bytes to words. *)
Lemma align_words n : (4 * ((n + 3) / 4) = n + (4 - n mod 4) mod 4)%nat.
Proof.
  pose proof (Nat.div_mod_eq (n + 3) 4).
  pose proof (Nat.mod_upper_bound (n + 3) 4 ltac:(lia)).
  pose proof (Nat.div_mod_eq n 4).
  pose proof (Nat.mod_upper_bound n 4 ltac:(lia)).
  destruct (n mod 4)%nat as [|[|[|[|]]]]; [change ((4 - 0) mod 4)%nat with 0%nat
    |change ((4 - 1) mod 4)%nat with 3%nat|change ((4 - 2) mod 4)%nat with 2%nat
    |change ((4 - 3) mod 4)%nat with 1%nat|]; lia.
Qed.

Lemma parse_extension_bytes header e pre post :
  wf_extension e -> has_bit header 12 = negb (RtpExtension.empty e) ->
  parse_extension header (reader_at pre (extension_bytes e ++ post)) =
  Some (Some (normal_extension e, reader_at (pre ++ extension_bytes e) post)).
Proof.
  intros Hwf Hbit. unfold parse_extension, extension_bytes, normal_extension, writeExtension.
  rewrite Hbit. destruct (RtpExtension.empty e) eqn:He; cbn [negb]; [by rewrite app_nil_r|].
  destruct Hwf as [?|(els & Hid & Hu16 & Hels & Hdata & Hlen)]; [congruence|].
  set (data := RtpExtension.mData e) in *. set (pad := ((4 - length data mod 4) mod 4)%nat).
  assert (4 * ((length data + 3) / 4) = length data + pad)%nat as Hwords by apply align_words.
  assert (is_u16 (Z.of_nat ((length data + 3) / 4))) as Hw16.
  { assert (pad < 4)%nat by (apply Nat.mod_upper_bound; lia). unfold is_u16. lia. }
  rewrite (u16_small _ Hw16), !Wire.writeU16_be. unfold ByteWriter.write.
  assert (4 <= length ((([] ++ be_bytes 2 (RtpExtension.mId e)) ++
    be_bytes 2 (Z.of_nat ((length data + 3) / 4))) ++ data))%nat as Hl4.
  { rewrite !length_app, !length_be_bytes. simpl. lia. }
  rewrite remaining_at, decide_False by (rewrite !length_app in *; lia).
  cbn [app]. rewrite <- !app_assoc.
  rewrite Wire.readU16_be by done. cbn [mbind option_bind].
  rewrite Wire.readU16_be by done. cbn [mbind option_bind].
  replace (Z.to_nat (Z.of_nat ((length data + 3) / 4) * 4)) with (length (data ++ replicate pad 0))
    by (rewrite length_app, length_replicate; lia).
  rewrite (app_assoc data). rewrite remaining_at, decide_False by (rewrite !length_app; lia).
  unfold readByteBuffer. rewrite take_bytes_at. cbn [mbind option_bind]. rewrite Hid.
  assert (RtpExtension.trimPadding (RtpExtension.mk (RtpExtension.mId e) (data ++ replicate pad 0))
    = Some e) as ->.
  { rewrite Hdata, RtpExtension.trimPadding_encode, <- Hdata by done. by destruct e. }
  cbn [mbind option_bind]. by rewrite <- !app_assoc.
Qed.

Lemma strip_padding_bytes n payload :
  0 <= n < 256 ->
  strip_padding (negb (n =? 0)) (payload ++ padding_bytes n) = Some payload.
Proof.
  intros Hn. unfold strip_padding, padding_bytes, writePadding.
  destruct (Z.eqb_spec n 0) as [->|Hne]; cbn [negb]; [by rewrite app_nil_r|].
  unfold ByteWriter.writeU8, ByteWriter.padding, ByteWriter.write. cbn [app].
  rewrite u8_small by (unfold is_u8; lia). rewrite app_assoc, last_snoc.
  rewrite !length_app, length_replicate. cbn [length].
  destruct (Z.ltb_spec (Z.of_nat (length payload + Z.to_nat (n - 1) + 1)) n); [lia|].
  f_equal. rewrite <- app_assoc. apply take_length_app. lia.
Qed.

(** The fixed header. *)
Definition fixed_header (h sequence timestamp ssrc : Z) : list Z :=
  be_bytes 2 h ++ be_bytes 2 sequence ++ be_bytes 4 timestamp ++ be_bytes 4 ssrc.

(** Parsing any packet with the given parts. *)
Lemma fromUdpPacket_parts track pt ssrc marker sequence timestamp e padding payload :
  0 <= pt < 128 -> is_u32 ssrc -> is_u16 sequence -> is_u32 timestamp -> is_u8 padding ->
  wf_extension e ->
  (ssrc = Track.mSSRC track /\ pt = Track.mPayloadId track) \/
  (ssrc = Track.mRtxSSRC track /\ pt = Track.mRtxPayloadId track) ->
  fromUdpPacket track
    (fixed_header (header_bits (negb (padding =? 0)) (negb (RtpExtension.empty e)) marker pt)
       sequence timestamp ssrc ++ extension_bytes e ++ payload ++ padding_bytes padding) =
  Some (Some (mk track ssrc pt marker 0 sequence timestamp 0 payload (normal_extension e) None)).
Proof.
  intros Hpt Hssrc Hseq Hts Hpad He Htrack.
  destruct (header_bits_fields (negb (padding =? 0)) (negb (RtpExtension.empty e)) marker pt Hpt)
    as (Hh & Hb13 & Hb12 & Hb7 & Hb).
  unfold fromUdpPacket, fixed_header. rewrite make_reader_at, remaining_at.
  rewrite decide_False by (rewrite !length_app, !length_be_bytes; lia).
  rewrite <- !app_assoc.
  rewrite Wire.readU16_be by done. cbn [mbind option_bind]. rewrite Hb13, Hb7, Hb.
  rewrite Wire.readU16_be by done. cbn [mbind option_bind].
  rewrite Wire.readU32_be by done. cbn [mbind option_bind].
  rewrite Wire.readU32_be by done. cbn [mbind option_bind].
  replace (_ || _) with true; cycle 1.
  { symmetry. apply orb_true_iff. rewrite !andb_true_iff, !Z.eqb_eq. done. }
  cbn [guard_true mbind option_bind].
  rewrite parse_extension_bytes by done. cbn [mbind option_bind].
  rewrite remaining_at. unfold readByteBuffer.
  rewrite <- (app_nil_r (payload ++ padding_bytes padding)) at 1.
  rewrite (take_bytes_at_n (length (payload ++ padding_bytes padding))) by done.
  cbn [mbind option_bind]. by rewrite strip_padding_bytes.
Qed.

(** What a packet of the library satisfies. *)
Record wf (p : t) : Prop := {
  wf_payload_id : 0 <= mPayloadId p < 128;
  wf_ssrc : is_u32 (mSSRC p);
  wf_sequence : is_u16 (mSequence p);
  wf_timestamp : is_u32 (mTimestamp p);
  wf_padding : is_u8 (mPaddingSize p);
  wf_ext : wf_extension (mExtension p)
}.

(** What the receiver knows of a packet: not its rollover count, its send
    information and the amount of padding. *)
Definition received (track : Track.t) (p : t) : t :=
  mk track (mSSRC p) (mPayloadId p) (mMarker p) 0 (mSequence p) (mTimestamp p) 0
     (mPayload p) (normal_extension (mExtension p)) None.

Lemma generate_parts p :
  (generate p).1 =
  fixed_header (header_bits (negb (mPaddingSize p =? 0)) (negb (RtpExtension.empty (mExtension p)))
      (mMarker p) (mPayloadId p)) (mSequence p) (mTimestamp p) (mSSRC p) ++
  extension_bytes (mExtension p) ++ mPayload p ++ padding_bytes (mPaddingSize p).
Proof.
  unfold generate, fixed_header, writePayload, ByteWriter.write. cbn [fst].
  rewrite writePadding_app, writeExtension_app, !Wire.writeU32_be, !Wire.writeU16_be.
  by rewrite <- !app_assoc.
Qed.

Lemma length_extension_bytes e : length (extension_bytes e) = RtpExtension.size e.
Proof.
  unfold extension_bytes, writeExtension, RtpExtension.size. destruct (RtpExtension.empty e); [done|].
  unfold ByteWriter.write. rewrite !Wire.writeU16_be, !length_app, !length_be_bytes, length_replicate.
  pose proof (align_words (length (RtpExtension.mData e))). cbn [length]. lia.
Qed.

Lemma length_padding_bytes n : 0 <= n -> length (padding_bytes n) = Z.to_nat n.
Proof.
  intros Hn. unfold padding_bytes, writePadding. destruct (Z.eqb_spec n 0) as [->|]; [done|].
  unfold ByteWriter.writeU8, ByteWriter.padding, ByteWriter.write.
  rewrite !length_app, length_replicate. cbn [length]. lia.
Qed.

(** The size of a packet on the wire. *)
Lemma generate_length p :
  0 <= mPaddingSize p ->
  length (generate p).1 =
  (kHeaderSize + RtpExtension.size (mExtension p) + length (mPayload p) + Z.to_nat (mPaddingSize p))%nat.
Proof.
  intros Hp. rewrite generate_parts. unfold fixed_header.
  rewrite !length_app, !length_be_bytes, length_extension_bytes, length_padding_bytes by done.
  unfold kHeaderSize. lia.
Qed.

(** C10: a generated RTP packet - any marker, padding, extension and payload -
    is parsed back by the receiver without an abort, field by field, with the
    padding and the extension's alignment bytes removed. *)
Theorem rtp_roundtrip track p :
  wf p ->
  (mSSRC p = Track.mSSRC track /\ mPayloadId p = Track.mPayloadId track) \/
  (mSSRC p = Track.mRtxSSRC track /\ mPayloadId p = Track.mRtxPayloadId track) ->
  fromUdpPacket track (generate p).1 = Some (Some (received track p)).
Proof.
  intros [] Htrack. rewrite generate_parts. by apply fromUdpPacket_parts.
Qed.

Definition demo_track : Track.t :=
  TrackBuilder.rtx (TrackBuilder.make (Media.make [] Video) Publish 1000 96 90000) 2000 97.

Definition demo_packet : t :=
  make demo_track true 0 65535 4000000000 3
    (RtpExtension.mk RtpExtension.kTwoByte
       (RtpExtension.encode_elements RtpExtension.kTwoByte [RtpExtension.mkElement 3 [1; 2; 3]]))
    [10; 20; 30].

Lemma demo_packet_wf : wf demo_packet.
Proof.
  constructor; try (vm_compute; split; congruence). right.
  exists [RtpExtension.mkElement 3 [1; 2; 3]].
  split_and!; try done. repeat constructor; simpl; lia.
Defined.

Lemma rtp_roundtrip_witness :
  fromUdpPacket demo_track (generate demo_packet).1 = Some (Some (received demo_track demo_packet)).
Proof. apply rtp_roundtrip; [apply demo_packet_wf|by left]. Defined.

(** a retransmission succeeds and is an RTP packet of the track's RTX
    stream whose payload is the original sequence number followed by the
    original payload, with the next sequence number of the RTX source. *)
Theorem rtx_roundtrip p extension source :
  wf p -> 0 < Track.mRtxPayloadId (mTrack p) < 128 -> is_u32 (Track.mRtxSSRC (mTrack p)) ->
  wf_extension extension ->
  let next := RtpPacketSource.getNextSequence source in
  exists buf, generateRtx p extension source = Some ((buf, next.1.1), next.2) /\
  fromUdpPacket (mTrack p) buf =
  Some (Some (mk (mTrack p) (Track.mRtxSSRC (mTrack p)) (Track.mRtxPayloadId (mTrack p))
    (mMarker p) 0 next.1.2 (mTimestamp p) 0 (be_bytes 2 (mSequence p) ++ mPayload p)
    (normal_extension extension) None)).
Proof.
  intros [] Hpt Hssrc Hext. cbv zeta. unfold generateRtx.
  destruct (Z.ltb_spec 0 (Track.mRtxPayloadId (mTrack p))); [|lia].
  cbn [guard_true mbind option_bind].
  assert (is_u16 (RtpPacketSource.getNextSequence source).1.2) as Hseq by apply u16_range.
  destruct (RtpPacketSource.getNextSequence source) as [[rollover sequence] next].
  eexists. split; [done|]. cbn [fst snd] in *.
  rewrite writePadding_app, !Wire.writeU16_be, writeExtension_app, !Wire.writeU32_be.
  unfold writePayload, ByteWriter.write. rewrite <- !app_assoc.
  rewrite <- (fromUdpPacket_parts _ _ _ (mMarker p) sequence (mTimestamp p) extension
    (mPaddingSize p) (be_bytes 2 (mSequence p) ++ mPayload p)); try done; try lia; try (by right).
Qed.

Lemma rtx_roundtrip_witness :
  let next := RtpPacketSource.getNextSequence (RtpPacketSource.mk 1 0 43) in
  exists buf, generateRtx demo_packet RtpExtension.make_empty (RtpPacketSource.mk 1 0 43) =
    Some ((buf, next.1.1), next.2) /\
  fromUdpPacket demo_track buf =
  Some (Some (mk demo_track 2000 97 true 0 next.1.2 4000000000 0 [255; 255; 10; 20; 30]
    RtpExtension.make_empty None)).
Proof.
  apply (rtx_roundtrip demo_packet RtpExtension.make_empty (RtpPacketSource.mk 1 0 43)).
  - apply demo_packet_wf.
  - simpl. lia.
  - vm_compute; split; congruence.
  - by left.
Defined.

End RtpPacket.

(** ** SendRtpHistory *)

Module SendRtpHistory.

Definition kMaxHistory : nat := 512.

(** [packetList] has the newest packet first. *)
Record TrackHistory := mkHistory {
  packetList : list RtpPacket.t;
  packetMap : gmap Z RtpPacket.t
}.

(** [mTrackMap]. *)
Abbreviation t := (gmap Z TrackHistory).

Definition make : t := ∅.

(** One round of the [while] loop drops the oldest packet. *)
Definition evict (item : TrackHistory) : TrackHistory :=
  match list.last (packetList item) with
  | None => item
  | Some back =>
      mkHistory (take (length (packetList item) - 1) (packetList item))
                (delete (RtpPacket.mSequence back) (packetMap item))
  end.

Fixpoint evict_loop (fuel : nat) (item : TrackHistory) : option TrackHistory :=
  if decide (kMaxHistory <= length (packetList item))%nat then
    match fuel with
    | O => None
    | S fuel => evict_loop fuel (evict item)
    end
  else Some item.

Definition save (h : t) (packet : RtpPacket.t) : option t :=
  let ssrc := RtpPacket.mSSRC packet in
  let item := default (mkHistory [] ∅) (h !! ssrc) in
  item ← evict_loop (S (length (packetList item))) item;
  Some (<[ssrc := mkHistory (packet :: packetList item)
                   (<[RtpPacket.mSequence packet := packet]> (packetMap item))]> h).

Definition find (h : t) (ssrc sequence : Z) : option RtpPacket.t :=
  item ← h !! ssrc; packetMap item !! sequence.

Fixpoint save_all (h : t) (ps : list RtpPacket.t) : option t :=
  match ps with
  | [] => Some h
  | p :: ps => h ← save h p; save_all h ps
  end.

(** *** Specification: the last 512 packets of each stream *)

(** The packets of one stream, newest first. *)
Definition stream (ssrc : Z) (saved : list RtpPacket.t) : list RtpPacket.t :=
  filter (fun p => RtpPacket.mSSRC p = ssrc) saved.

Definition spec_find (saved : list RtpPacket.t) (ssrc sequence : Z) : option RtpPacket.t :=
  snd <$> list_find (fun p => RtpPacket.mSequence p = sequence) (take kMaxHistory (stream ssrc saved)).

(** No sequence number occurs twice among 512 successive packets. *)
Definition distinct_window (l : list RtpPacket.t) : Prop :=
  forall i j p q, (i < j < i + kMaxHistory)%nat -> l !! i = Some p -> l !! j = Some q ->
    RtpPacket.mSequence p <> RtpPacket.mSequence q.

(** [l]: everything saved for the stream, newest first. *)
Definition item_ok (item : TrackHistory) (l : list RtpPacket.t) : Prop :=
  packetList item = take kMaxHistory l /\
  forall s, packetMap item !! s =
    snd <$> list_find (fun p => RtpPacket.mSequence p = s) (take kMaxHistory l).

Definition history_ok (h : t) (saved : list RtpPacket.t) : Prop :=
  forall ssrc, match h !! ssrc with
    | Some item => item_ok item (stream ssrc saved)
    | None => stream ssrc saved = []
    end.

Lemma kMaxHistory_S : kMaxHistory = S (kMaxHistory - 1).
Proof. unfold kMaxHistory. lia. Qed.

Lemma take_kMaxHistory (p : RtpPacket.t) l : take kMaxHistory (p :: l) = p :: take (kMaxHistory - 1) l.
Proof. rewrite kMaxHistory_S at 1. done. Qed.

Lemma evict_loop_short fuel item :
  (length (packetList item) < kMaxHistory)%nat -> evict_loop fuel item = Some item.
Proof. intros. destruct fuel; cbn [evict_loop]; by rewrite decide_False by lia. Qed.

Lemma find_snoc s (l : list RtpPacket.t) b :
  (snd <$> list_find (fun p => RtpPacket.mSequence p = s) (l ++ [b])) =
  match snd <$> list_find (fun p => RtpPacket.mSequence p = s) l with
  | Some p => Some p
  | None => if decide (RtpPacket.mSequence b = s) then Some b else None
  end.
Proof.
  induction l as [|x l IH]; simpl; [by destruct (decide _)|]. destruct (decide (RtpPacket.mSequence x = s)); simpl; [done|].
  destruct (list_find _ (l ++ [b])) as [[]|], (list_find _ l) as [[]|]; simpl in *;
    exact IH.
Qed.

Lemma find_none s (l : list RtpPacket.t) :
  (forall p, p ∈ l -> RtpPacket.mSequence p <> s) ->
  list_find (fun p => RtpPacket.mSequence p = s) l = None.
Proof. intros H. apply list_find_None, list.Forall_forall. auto. Qed.

(** Making room keeps the newest 511 packets and forgets the sequence number
    of the dropped one. *)
Lemma evict_ok item l :
  item_ok item l -> distinct_window l ->
  exists item', evict_loop (S (length (packetList item))) item = Some item' /\
    packetList item' = take (kMaxHistory - 1) l /\
    forall s, packetMap item' !! s =
      snd <$> list_find (fun p => RtpPacket.mSequence p = s) (take (kMaxHistory - 1) l).
Proof.
  intros [Hl Hm] Hd. cbn [evict_loop]. rewrite Hl, length_take.
  destruct (decide (kMaxHistory <= kMaxHistory `min` length l)%nat) as [Hfull|Hroom]; cycle 1.
  { exists item. rewrite !take_ge in * by lia. split_and!; [done|done|].
    intros s. by rewrite Hm. }
  assert (kMaxHistory - 1 < length l)%nat as Hlt by (unfold kMaxHistory in *; lia).
  destruct (lookup_lt_is_Some_2 l (kMaxHistory - 1) Hlt) as [back Hback].
  assert (take kMaxHistory l = take (kMaxHistory - 1) l ++ [back]) as Etake
    by (rewrite <- (take_S_r l (kMaxHistory - 1) back Hback); by rewrite <- kMaxHistory_S).
  assert (evict item = mkHistory (take (kMaxHistory - 1) l)
    (delete (RtpPacket.mSequence back) (packetMap item))) as Hev.
  { unfold evict. rewrite Hl, Etake, last_snoc, length_app, length_take.
    f_equal. apply take_length_app. rewrite length_take. simpl. lia. }
  rewrite Hev. rewrite Nat.min_l by lia.
  rewrite evict_loop_short by (cbn [packetList]; rewrite length_take; unfold kMaxHistory; lia).
  eexists. split; [done|]. split; [done|]. intros s. cbn [packetMap].
  rewrite lookup_delete, Hm, Etake, find_snoc.
  case_decide as Hs.
  - subst s. rewrite find_none; [done|]. intros p [i Hp]%list_elem_of_lookup_1.
    apply lookup_take_Some in Hp as [Hp Hi]. apply (Hd i (kMaxHistory - 1)%nat p back); try done.
    lia.
  - by destruct (list_find _ _) as [[]|].
Qed.

Lemma distinct_window_tail p l : distinct_window (p :: l) -> distinct_window l.
Proof. intros Hd i j x y Hij Hi Hj. apply (Hd (S i) (S j)); [lia|done|done]. Qed.

Lemma save_ok h saved p :
  history_ok h saved ->
  (forall ssrc, distinct_window (stream ssrc (p :: saved))) ->
  exists h', save h p = Some h' /\ history_ok h' (p :: saved).
Proof.
  intros Hh Hd. unfold save. set (ssrc := RtpPacket.mSSRC p).
  assert (stream ssrc (p :: saved) = p :: stream ssrc saved) as Estream
    by (unfold stream; by rewrite filter_cons_True).
  assert (item_ok (default (mkHistory [] ∅) (h !! ssrc)) (stream ssrc saved)) as Hitem.
  { specialize (Hh ssrc). destruct (h !! ssrc); [done|]. rewrite Hh. split; [done|].
    intros s. by rewrite take_nil. }
  destruct (evict_ok _ _ Hitem) as (item' & -> & Hl' & Hm').
  { apply (distinct_window_tail p). by rewrite <- Estream. }
  cbn [mbind option_bind]. eexists. split; [done|]. intros ssrc'. rewrite lookup_insert.
  case_decide as Hs.
  - subst ssrc'. rewrite Estream. split; cbn [packetList packetMap].
    + rewrite Hl', (take_kMaxHistory p). done.
    + intros s. rewrite lookup_insert.
      rewrite (take_kMaxHistory p). cbn [list_find].
      destruct (decide (RtpPacket.mSequence p = s)); [done|].
      rewrite Hm'. by destruct (list_find _ _) as [[]|].
  - unfold stream in *. rewrite filter_cons_False by done. apply Hh.
Qed.

(** C40: the send history is the last 512 packets of each stream: looking up a
    (stream, sequence number) pair finds the packet exactly when it is among
    them, however many streams are interleaved. *)
Theorem history_find ps ssrc sequence :
  (forall ssrc, distinct_window (stream ssrc (reverse ps))) ->
  exists h, save_all make ps = Some h /\
    find h ssrc sequence = spec_find (reverse ps) ssrc sequence.
Proof.
  intros Hd.
  assert (forall saved h, history_ok h saved ->
    (forall ssrc, distinct_window (stream ssrc (reverse ps ++ saved))) ->
    exists h', save_all h ps = Some h' /\ history_ok h' (reverse ps ++ saved)) as Hgen.
  { clear Hd. induction ps as [|p ps IH]; intros saved h Hh Hd; cbn [save_all]; [by exists h|].
    rewrite reverse_cons, <- app_assoc in Hd |- *. cbn [app] in *.
    destruct (save_ok h saved p Hh) as (h1 & -> & Hh1).
    { intros s. specialize (Hd s). unfold stream in *. rewrite list.filter_app in Hd.
      revert Hd. generalize (filter (fun p => RtpPacket.mSSRC p = s) (reverse ps)).
      intros l. induction l as [|x l IHl]; [done|]. intros H. apply IHl. by eapply distinct_window_tail. }
    cbn [mbind option_bind]. by apply IH. }
  destruct (Hgen [] make) as (h & Hs & Hh).
  { intros s. unfold make. by rewrite lookup_empty. }
  { by rewrite app_nil_r. }
  rewrite app_nil_r in Hh. exists h. split; [done|]. unfold find, spec_find.
  specialize (Hh ssrc). destruct (h !! ssrc) as [item|]; [apply Hh|].
  rewrite Hh. by rewrite take_nil.
Qed.

Definition demo_history : list RtpPacket.t :=
  map (fun s => RtpPacket.make RtpPacket.demo_track false 0 s 0 0 RtpExtension.make_empty [])
    [65534; 65535; 0; 1].

Lemma history_find_witness :
  exists h, save_all make demo_history = Some h /\
    find h 1000 65535 = spec_find (reverse demo_history) 1000 65535.
Proof.
  apply history_find. intros ssrc i j p q Hij Hi Hj.
  unfold stream in *. destruct (decide (ssrc = 1000)) as [->|Hne].
  - vm_compute in Hi, Hj.
    destruct i as [|[|[|[|i]]]]; try discriminate Hi;
    destruct j as [|[|[|[|j]]]]; try discriminate Hj;
    injection Hi as <-; injection Hj as <-; simpl; lia.
  - change (reverse demo_history) with (rev demo_history) in Hi. simpl in Hi.
    by rewrite !filter_cons_False in Hi by (vm_compute; congruence).
Defined.

End SendRtpHistory.
