(* ===== verification/Rtcp.v ===== *)
(** * RTCP: control packets, their reports and the round-trip time

    [RtcpPacket] (src/rtcp_packet.cpp) with the compound packets of
    src/rtcp_packet_multi.cpp, [Nack] (the compression of src/util.cpp and the
    requests of src/peer_candidate.cpp), [ReportsHistory]
    (src/sender_reports_history.cpp and its twin for receiver reference time
    reports), and [Control]: the reports that one peer writes and the
    dispatcher that reads them at the other (src/peer_candidate.cpp). *)

From stdpp Require Import gmap.
From S2P Require Import Prelude Bytes Tracks.

(** ** RtcpPacket *)

Module RtcpPacket.

Definition kSenderReport : Z := 200.
Definition kReceiverReport : Z := 201.
Definition kFeedback : Z := 205.
Definition kPayloadSpecific : Z := 206.
Definition kExtendedReport : Z := 207.

Record t := mk { mSSRC : Z; mRC : Z; mPayloadId : Z; mPayload : list Z }.

(** The zero bytes that bring a length to a multiple of four. *)
Definition word_padding (lenRaw : nat) : nat := (3 - (lenRaw + 3) mod 4)%nat.

Definition generate (p : t) : list Z :=
  let header :=
    u16 (Z.lor (Z.lor (Z.shiftl 2 14) (Z.shiftl (Z.land (mRC p) 0x1F) 8)) (mPayloadId p)) in
  let lenRaw := (2 + 2 + 4 + length (mPayload p))%nat in
  let lenRTCP := ((lenRaw + 3) / 4 - 1)%nat in
  let w := ByteWriter.writeU16 [] header in
  let w := ByteWriter.writeU16 w (u16 (Z.of_nat lenRTCP)) in
  let w := ByteWriter.writeU32 w (mSSRC p) in
  let w := ByteWriter.write w (mPayload p) in
  ByteWriter.padding w 0 (word_padding lenRaw).

(** [RtcpPacketMulti]: the packets one after the other. *)
Definition combine (packetList : list t) : list Z := concat (map generate packetList).

(** The payload without its trailing padding.  The last byte is the count. *)
Definition strip_padding (padding : bool) (payload : list Z) : list Z :=
  match padding, list.last payload with
  | true, Some amount =>
      if amount <=? Z.of_nat (length payload)
      then take (length payload - Z.to_nat amount) payload else payload
  | _, _ => payload
  end.

(** One round of the loop at [ptr] with at least eight bytes left: the packet
    and the bytes that follow it, [None] inside when the loop breaks.  A length
    field of zero makes the unsigned [len - 8] wrap around and the allocation
    of the payload fails: the outer [None]. *)
Definition parse_one (data : list Z) : option (option (t * list Z)) :=
  match data with
  | b0 :: pt :: l1 :: l0 :: s3 :: s2 :: s1 :: s0 :: _ =>
      let padding := negb (Z.land b0 0x20 =? 0) in
      let rc := Z.land b0 0x1f in
      let len4 := Z.lor (Z.shiftl l1 8) l0 in
      let len := Z.to_nat ((len4 + 1) * 4) in
      let ssrc := Z.lor (Z.lor (Z.lor (Z.shiftl s3 24) (Z.shiftl s2 16)) (Z.shiftl s1 8)) s0 in
      if (length data <? len)%nat then Some None
      else
        _ ← guard_true (8 <=? len)%nat;
        let payload := strip_padding padding (take (len - 8) (drop 8 data)) in
        Some (Some (mk ssrc rc pt payload, drop len data))
  | _ => Some None
  end.

Fixpoint parse_loop (fuel : nat) (data : list Z) : option (list t) :=
  match fuel with
  | O => None
  | S fuel =>
      r ← parse_one data;
      match r with
      | None => Some []
      | Some (p, rest) =>
          ps ← parse_loop fuel rest;
          Some (p :: ps)
      end
  end.

(** Every packet takes at least eight bytes: the length is enough fuel. *)
Definition fromUdpPacket (data : list Z) : option (list t) :=
  parse_loop (S (length data)) data.

Record wf (p : t) : Prop := {
  wf_ssrc : is_u32 (mSSRC p);
  wf_rc : 0 <= mRC p < 32;
  wf_pt : is_u8 (mPayloadId p);
  wf_payload : bytes_ok (mPayload p);
  wf_size : Z.of_nat (length (mPayload p)) <= 262136
}.

(** What arrives: the payload with the zeros that [generate] adds. *)
Definition received (p : t) : t :=
  mk (mSSRC p) (mRC p) (mPayloadId p)
     (mPayload p ++ replicate (word_padding (8 + length (mPayload p))) 0).

Lemma word_padding_total n :
  (n + word_padding n = ((n + 3) / 4 - 1 + 1) * 4)%nat \/ n = 0%nat.
Proof.
  unfold word_padding. destruct n as [|n]; [by right|]. left.
  pose proof (Nat.div_mod_eq (S n + 3) 4) as E.
  pose proof (Nat.mod_upper_bound (S n + 3) 4 ltac:(lia)).
  lia.
Qed.

Lemma word_padding_lt n : (word_padding n <= 3)%nat.
Proof. unfold word_padding. lia. Qed.

Lemma header_byte rc pt :
  0 <= rc < 32 -> is_u8 pt ->
  u16 (Z.lor (Z.lor (Z.shiftl 2 14) (Z.shiftl (Z.land rc 0x1F) 8)) pt) = (128 + rc) * 256 + pt.
Proof.
  intros Hrc Hpt. unfold is_u8 in Hpt. change 0x1F with (2 ^ 5 - 1).
  rewrite land_ones_mod, (Z.mod_small rc) by lia.
  rewrite lor_shiftl_shiftl, lor_shiftl_add by lia.
  apply Z.mod_small. lia.
Qed.

Lemma header_first_byte rc :
  0 <= rc < 32 -> Z.land (128 + rc) 0x20 = 0 /\ Z.land (128 + rc) 0x1f = rc.
Proof.
  intros Hrc.
  pose proof (byte_forall (fun b => negb (b <? 32) || ((Z.land (128 + b) 0x20 =? 0) &&
    (Z.land (128 + b) 0x1f =? b))) ltac:(by vm_compute) rc ltac:(unfold is_u8; lia)) as H.
  apply orb_true_iff in H as [H|H].
  - apply negb_true_iff, Z.ltb_ge in H. lia.
  - apply andb_true_iff in H as [H1 H2]. by apply Z.eqb_eq in H1, H2.
Qed.

(** The packet as its fields: the shape both directions meet on. *)
Lemma generate_bytes p :
  wf p ->
  let pad := word_padding (8 + length (mPayload p)) in
  let len4 := Z.of_nat ((8 + length (mPayload p) + 3) / 4 - 1) in
  generate p = [128 + mRC p; mPayloadId p; len4 / 256; len4 mod 256] ++ be_bytes 4 (mSSRC p) ++
               mPayload p ++ replicate pad 0 /\
  is_u16 len4 /\ length (generate p) = Z.to_nat ((len4 + 1) * 4) /\
  (8 <= length (generate p))%nat.
Proof.
  intros [Hs Hrc Hpt Hp Hsz]. unfold is_u8 in Hpt. cbv zeta.
  set (n := length (mPayload p)) in *.
  pose proof (word_padding_total (8 + n)) as [Htot|?]; [|lia].
  set (len4 := ((8 + n + 3) / 4 - 1)%nat) in *.
  assert (is_u16 (Z.of_nat len4)) as Hl4.
  { unfold is_u16. pose proof (word_padding_lt (8 + n)). lia. }
  assert (generate p = [128 + mRC p; mPayloadId p; Z.of_nat len4 / 256; Z.of_nat len4 mod 256] ++
    be_bytes 4 (mSSRC p) ++ mPayload p ++ replicate (word_padding (8 + n)) 0) as E.
  { unfold generate, ByteWriter.padding, ByteWriter.write. rewrite header_byte by done.
    rewrite Wire.writeU32_be, !Wire.writeU16_be. change (2 + 2 + 4 + length (mPayload p))%nat with (8 + n)%nat.
    change ((8 + n + 3) / 4 - 1)%nat with len4.
    rewrite (u16_small (Z.of_nat len4)) by done.
    rewrite <- !app_assoc. cbn [app].
    assert (forall v, be_bytes 2 v = [u8 (v / 256); u8 v]) as E2.
    { intros v. cbn [be_bytes]. by rewrite !shiftr_div, Z.div_1_r by lia. }
    rewrite !E2. unfold u8, is_u16 in *. cbn [app]. repeat f_equal; zdm. }
  split; [done|]. split; [done|].
  assert (length (generate p) = Z.to_nat ((Z.of_nat len4 + 1) * 4)).
  { rewrite E, !length_app, length_be_bytes, length_replicate. cbn [length]. fold n. lia. }
  split; [done|]. lia.
Qed.

Lemma parse_one_generate p rest :
  wf p -> parse_one (generate p ++ rest) = Some (Some (received p, rest)).
Proof.
  intros Hwf. destruct (generate_bytes p Hwf) as (E & Hl4 & Hlen & Hge).
  set (len4 := Z.of_nat ((8 + length (mPayload p) + 3) / 4 - 1)) in *.
  assert (exists s3 s2 s1 s0, be_bytes 4 (mSSRC p) = [s3; s2; s1; s0] /\
    bytes_ok [s3; s2; s1; s0] /\ be_value [s3; s2; s1; s0] = mSSRC p) as (s3 & s2 & s1 & s0 & Es & Hs & Ev).
  { eexists _, _, _, _. split; [done|]. change ([_; _; _; _]) with (be_bytes 4 (mSSRC p)).
    split; [apply be_bytes_ok|apply be_value_bytes, Hwf]. }
  rewrite Es in E.
  destruct (header_first_byte (mRC p) (wf_rc _ Hwf)) as [H20 H1f].
  assert (generate p ++ rest = (128 + mRC p) :: mPayloadId p :: len4 / 256 :: len4 mod 256 ::
    s3 :: s2 :: s1 :: s0 :: (mPayload p ++ replicate (word_padding (8 + length (mPayload p))) 0) ++ rest) as Ed
    by (rewrite E; cbn [app]; by rewrite <- app_assoc).
  unfold parse_one. rewrite Ed at 1. cbv zeta. rewrite H20, H1f.
  unfold is_u16 in Hl4. bytes_bounds.
  rewrite (lor_shiftl_add _ (len4 mod 256)) by zdm.
  replace (len4 / 256 * 2 ^ 8 + len4 mod 256) with len4 by zdm.
  rewrite <- Hlen, length_app.
  replace (_ <? _)%nat with false by (symmetry; apply Nat.ltb_ge; lia).
  replace (8 <=? _)%nat with true by (symmetry; apply Nat.leb_le; lia).
  cbn [guard_true mbind option_bind]. rewrite drop_app_length. do 4 f_equal. unfold received.
  cbn [negb Z.eqb strip_padding]. f_equal.
  - rewrite <- Ev. unfold be_value. cbn [fold_left].
    rewrite !lor_shiftl_shiftl, lor_shiftl_add by lia. lia.
  - rewrite Ed. cbn [drop]. apply take_length_app. rewrite E. cbn [length app]. lia.
Qed.

Lemma parse_loop_combine ps : forall fuel rest,
  Forall wf ps ->
  parse_loop (length ps + fuel) (combine ps ++ rest) =
  (l ← parse_loop fuel rest; Some (map received ps ++ l)).
Proof.
  induction ps as [|p ps IH]; intros fuel rest Hps.
  - cbn [length combine map concat app Nat.add]. by destruct (parse_loop fuel rest).
  - apply list.Forall_cons in Hps as [Hp Hps]. cbn [length Nat.add parse_loop].
    change (combine (p :: ps)) with (generate p ++ combine ps).
    rewrite <- app_assoc, parse_one_generate by done.
    cbn [mbind option_bind]. rewrite IH by done. by destruct (parse_loop fuel rest).
Qed.

Lemma combine_length ps : Forall wf ps -> (8 * length ps <= length (combine ps))%nat.
Proof.
  induction 1 as [|p ps Hp Hps IH]; [done|]. change (combine (p :: ps)) with (generate p ++ combine ps).
  rewrite length_app. destruct (generate_bytes p Hp) as (_ & _ & _ & ?). cbn [length]. lia.
Qed.

Lemma fromUdpPacket_combine ps :
  Forall wf ps -> fromUdpPacket (combine ps) = Some (map received ps).
Proof.
  intros Hps. pose proof (combine_length ps Hps). unfold fromUdpPacket.
  replace (S (length (combine ps))) with (length ps + S (length (combine ps) - length ps))%nat by lia.
  rewrite <- (app_nil_r (combine ps)) at 2. rewrite parse_loop_combine by done.
  cbn [parse_loop parse_one mbind option_bind]. by rewrite app_nil_r.
Qed.

(** C33: a compound control packet is read back as the packets it was built
    from, each with its payload padded to a whole number of words. *)
Theorem rtcp_roundtrip ps :
  Forall wf ps -> fromUdpPacket (combine ps) = Some (map received ps).
Proof. apply fromUdpPacket_combine. Qed.

Definition demo_packets : list t :=
  [mk 1000 1 kReceiverReport (replicate 24 7); mk 0xFFFFFFFF 15 kFeedback [1; 2; 3; 4; 5]].

Lemma demo_packets_wf : Forall wf demo_packets.
Proof.
  unfold demo_packets. repeat constructor; cbn [mSSRC mRC mPayloadId mPayload replicate length];
    vm_compute; intuition congruence.
Qed.

Lemma rtcp_roundtrip_witness :
  Forall wf demo_packets /\ fromUdpPacket (combine demo_packets) = Some (map received demo_packets).
Proof. split; [apply demo_packets_wf | apply (rtcp_roundtrip demo_packets demo_packets_wf)]. Defined.

(** a header whose length field is zero, after any valid packets, stops the
    program: the payload size [len - 8] is computed below zero. *)
Theorem rtcp_zero_length_aborts ps b0 pt s rest :
  Forall wf ps -> length s = 4%nat ->
  fromUdpPacket (combine ps ++ [b0; pt; 0; 0] ++ s ++ rest) = None.
Proof.
  intros Hps Hs. pose proof (combine_length ps Hps). unfold fromUdpPacket.
  rewrite length_app. set (tail := [b0; pt; 0; 0] ++ s ++ rest).
  replace (S (length (combine ps) + length tail)) with
    (length ps + S (length (combine ps) + length tail - length ps))%nat by lia.
  rewrite parse_loop_combine by done. unfold tail.
  do 4 (destruct s as [|? s]; [done|]). by destruct s.
Qed.

Lemma rtcp_zero_length_aborts_witness :
  fromUdpPacket (combine demo_packets ++ [128; 201; 0; 0] ++ [0; 0; 0; 1] ++ []) = None.
Proof. apply rtcp_zero_length_aborts; [apply demo_packets_wf | reflexivity]. Defined.

End RtcpPacket.

(** ** Negative acknowledgements *)

Module Nack.

(** The inner [while] of [compressNackList]: the numbers up to 16 past [seq]
    become bits.  A number equal to [seq] would shift by 65535, which C++ does
    not define: [None]. *)
Fixpoint gather (seq blp : Z) (l : list Z) : option (Z * list Z) :=
  match l with
  | [] => Some (blp, [])
  | x :: rest =>
      if u16 (x - seq) <=? 16 then
        let shift := u16 (x - seq - 1) in
        _ ← guard_true (shift <? 32);
        gather seq (u16 (Z.lor blp (u32 (Z.shiftl 1 shift)))) rest
      else Some (blp, l)
  end.

Fixpoint compress_loop (fuel : nat) (l : list Z) : option (list (Z * Z)) :=
  match l with
  | [] => Some []
  | seq :: rest =>
      match fuel with
      | O => None
      | S fuel =>
          '(blp, rest) ← gather seq 0 rest;
          more ← compress_loop fuel rest;
          Some ((seq, blp) :: more)
      end
  end.

(** The pairs that the two output arrays hold. *)
Definition compressNackList (nackList : list Z) : option (list (Z * Z)) :=
  compress_loop (length nackList) nackList.

(** [missingSeqList] of [onReceivedControlMessage_NACK]. *)
Definition missingSeqList (pid blp : Z) : list Z :=
  pid :: (if negb (blp =? 0) then
            map (fun index => u16 (pid + index + 1)) (filter (fun index => has_bit blp index = true) (seqZ 0 16))
          else []).

Lemma elem_missingSeqList pid blp s :
  is_u16 blp ->
  s ∈ missingSeqList pid blp <->
  s = pid \/ exists i, 0 <= i < 16 /\ Z.testbit blp i = true /\ s = u16 (pid + i + 1).
Proof.
  intros Hb. unfold missingSeqList. rewrite list_elem_of_In. cbn [In]. rewrite <- list_elem_of_In.
  assert ((exists i, 0 <= i < 16 /\ Z.testbit blp i = true /\ s = u16 (pid + i + 1)) <->
    s ∈ map (fun index => u16 (pid + index + 1)) (filter (fun index => has_bit blp index = true) (seqZ 0 16))) as E.
  { rewrite list_elem_of_fmap. split.
    - intros (i & Hi & Ht & ->). exists i. split; [done|]. apply list_elem_of_filter.
      rewrite has_bit_testbit by lia. split; [done|]. apply elem_of_seqZ. lia.
    - intros (i & -> & [Ht Hi]%list_elem_of_filter). apply elem_of_seqZ in Hi. exists i.
      rewrite has_bit_testbit in Ht by lia. split; [lia|done]. }
  rewrite E. destruct (Z.eqb_spec blp 0) as [->|]; cbn [negb].
  - replace (filter _ _) with (@nil Z) by (by vm_compute). naive_solver.
  - naive_solver.
Qed.

Lemma set_bit_spec blp k i :
  is_u16 blp -> 0 <= k < 16 -> 0 <= i < 16 ->
  Z.testbit (u16 (Z.lor blp (u32 (Z.shiftl 1 k)))) i = Z.testbit blp i || (i =? k).
Proof.
  intros Hb Hk Hi. unfold u16, u32. rewrite Z.mod_pow2_bits_low, Z.lor_spec by lia. f_equal.
  rewrite Z.mod_pow2_bits_low, Z.shiftl_1_l, Z.pow2_bits_eqb by lia. by rewrite Z.eqb_sym.
Qed.

Lemma gather_ok seq l : forall blp,
  is_u16 seq -> Forall is_u16 l -> seq ∉ l -> is_u16 blp ->
  exists blp' taken rest, l = taken ++ rest /\ gather seq blp l = Some (blp', rest) /\ is_u16 blp' /\
    forall s, s ∈ missingSeqList seq blp' <-> s ∈ missingSeqList seq blp \/ s ∈ taken.
Proof.
  induction l as [|x l IH]; intros blp Hs Hl Hn Hb; cbn [gather].
  { exists blp, [], []. do 3 (split; [done|]). intros s. rewrite elem_of_nil. tauto. }
  apply list.Forall_cons in Hl as [Hx Hl]. apply not_elem_of_cons in Hn as [Hne Hn].
  destruct (Z.leb_spec (u16 (x - seq)) 16) as [Hle|].
  2:{ exists blp, [], (x :: l). do 3 (split; [done|]). intros s. rewrite elem_of_nil. tauto. }
  assert (0 < u16 (x - seq)) by (unfold u16, is_u16 in *; zdm).
  assert (u16 (x - seq - 1) = u16 (x - seq) - 1) as Es by (unfold u16, is_u16 in *; zdm).
  rewrite Es. replace (_ <? 32) with true by (symmetry; apply Z.ltb_lt; lia).
  cbn [guard_true mbind option_bind]. set (k := u16 (x - seq) - 1) in *.
  assert (0 <= k < 16) by (unfold k; lia).
  set (blp1 := u16 (Z.lor blp (u32 (Z.shiftl 1 k)))).
  assert (is_u16 blp1) as Hb1 by apply u16_range.
  destruct (IH blp1 Hs Hl Hn Hb1) as (blp' & taken & rest & -> & Hg & Hb' & Hspec).
  exists blp', (x :: taken), rest. do 3 (split; [done|]). intros s.
  assert (x = u16 (seq + k + 1)) as Exk by (unfold k, u16, is_u16 in *; zdm).
  rewrite Hspec, !elem_missingSeqList, elem_of_cons by done. split.
  - intros [[->|(i & Hi & Ht & ->)]|]; [tauto| |tauto].
    unfold blp1 in Ht. rewrite set_bit_spec in Ht by (done || lia).
    apply orb_true_iff in Ht as [Ht| ->%Z.eqb_eq]; [left; right; by exists i | right; left; done].
  - intros [[->|(i & Hi & Ht & ->)]|[->|?]]; [tauto| | |tauto]; left; right.
    + exists i. unfold blp1. rewrite set_bit_spec, Ht by (done || lia). done.
    + exists k. unfold blp1. rewrite set_bit_spec, Z.eqb_refl, orb_true_r by (done || lia). split; [lia|done].
Qed.

Lemma compress_loop_ok fuel : forall l,
  (length l <= fuel)%nat -> Forall is_u16 l -> NoDup l ->
  exists pairs, compress_loop fuel l = Some pairs /\ (length pairs <= length l)%nat /\
    Forall (fun pr => is_u16 pr.1 /\ is_u16 pr.2) pairs /\
    forall s, s ∈ concat (map (fun pr => missingSeqList pr.1 pr.2) pairs) <-> s ∈ l.
Proof.
  induction fuel as [|fuel IH]; intros [|x l] Hf Hl Hd; cbn [compress_loop length] in *; try lia;
    try (exists []; repeat split; try done; lia).
  apply list.Forall_cons in Hl as [Hx Hl]. apply list.NoDup_cons in Hd as [Hn Hd].
  destruct (gather_ok x l 0 Hx Hl Hn ltac:(by vm_compute)) as (blp & taken & rest & -> & -> & Hb & Hspec).
  apply list.Forall_app in Hl as [_ Hl]. apply list.NoDup_app in Hd as (_ & _ & Hd). rewrite length_app in Hf.
  cbn [mbind option_bind]. destruct (IH rest ltac:(lia) Hl Hd) as (pairs & -> & Hlen & Hok & Hel).
  cbn [mbind option_bind]. exists ((x, blp) :: pairs). split; [done|]. rewrite length_app. cbn [length].
  split; [lia|]. split; [by constructor|]. intros s. cbn [map concat fst snd].
  rewrite !elem_of_app, Hel, Hspec, elem_of_cons, elem_of_app, elem_missingSeqList by (by vm_compute).
  split.
  - intros [[[->|(i & _ & Hf' & _)]|?]|?]; try tauto. by rewrite Z.bits_0 in Hf'.
  - intros [->|[?|?]]; tauto.
Qed.

(** [sendNacks]: one feedback packet per pair. *)
Definition sendNacks (connected : bool) (track : Track.t) (nackList : list Z) : option (list RtcpPacket.t) :=
  if negb connected then Some []
  else if negb (Track.mHasNack track) then Some []
  else if bool_decide (nackList = []) then Some []
  else
    pairs ← compressNackList nackList;
    Some (map (fun '(seq, blp) =>
      RtcpPacket.mk 0 1 RtcpPacket.kFeedback
        (ByteWriter.writeU16 (ByteWriter.writeU16 (ByteWriter.writeU32 [] (Track.mSSRC track)) seq) blp)) pairs).

End Nack.

(** ** NTP time *)

Record NtpTime := mkNtp { seconds : Z; fraction : Z }.

Definition getNtpTimeMiddleMarker (ntp : NtpTime) : Z :=
  Z.lor (u32 (Z.shiftl (seconds ntp) 16)) (Z.shiftr (fraction ntp) 16).

Definition getNtpUnixMicroseconds (ntp : NtpTime) : Z :=
  let unix_seconds := seconds ntp - 2208988800 in
  let microseconds := Z.shiftr (u64 (fraction ntp * 1000000)) 32 in
  unix_seconds * 1000000 + microseconds.

(** ** Report histories

    [SenderReportsHistory] and [ReceiverReferenceTimeReportsHistory] are the
    same code.  Clock values are in nanoseconds. *)

Module ReportsHistory.

Definition kMaxHistory : nat := 16.

Record Report := mkReport { ntp : NtpTime; sent : Z }.

Abbreviation t := (gmap Z (list Report)).

Definition make : t := ∅.

(** [pop_front] while the list has [kMaxHistory] elements or more. *)
Definition trim (l : list Report) : list Report := drop (S (length l) - kMaxHistory) l.

Definition save (h : t) (ssrc : Z) (n : NtpTime) (now : Z) : t :=
  <[ssrc := trim (default [] (h !! ssrc)) ++ [mkReport n now]]> h.

Fixpoint search (l : list Report) (ntpMarker : Z) : option (Report * list Report) :=
  match l with
  | [] => None
  | r :: l =>
      if getNtpTimeMiddleMarker (ntp r) =? ntpMarker then Some (r, l)
      else '(f, rest) ← search l ntpMarker; Some (f, r :: rest)
  end.

(** The delay of a report, in units of 1/65536 s, in nanoseconds. *)
Definition delay_ns (delay : Z) : Z := delay * 1000000 / 65536 * 1000.

(** The result in thousandths of a millisecond: the code returns it as
    [2 * 1 / 1000.0f] times the microseconds. *)
Definition calculateRtt (h : t) (ssrc ntpMarker delay now : Z) : option Z * t :=
  match h !! ssrc with
  | None => (None, h)
  | Some l =>
      match search l ntpMarker with
      | None => (None, h)
      | Some (r, rest) =>
          let received := sent r + delay_ns delay in
          (if received <=? now then Some (2 * ((now - received) / 1000)) else None, <[ssrc := rest]> h)
      end
  end.

Lemma search_app l r rest ntpMarker :
  Forall (fun x => getNtpTimeMiddleMarker (ntp x) <> ntpMarker) l ->
  getNtpTimeMiddleMarker (ntp r) = ntpMarker ->
  search (l ++ r :: rest) ntpMarker = Some (r, l ++ rest).
Proof.
  intros Hl Hr. induction Hl as [|x l Hx Hl IH]; cbn [app search].
  - by rewrite Hr, Z.eqb_refl.
  - apply Z.eqb_neq in Hx. by rewrite Hx, IH.
Qed.

Lemma search_none l ntpMarker :
  Forall (fun x => getNtpTimeMiddleMarker (ntp x) <> ntpMarker) l -> search l ntpMarker = None.
Proof.
  induction 1 as [|x l Hx Hl IH]; [done|]. cbn [search]. apply Z.eqb_neq in Hx. by rewrite Hx, IH.
Qed.

Lemma trim_length l : (length (trim l) <= kMaxHistory - 1)%nat.
Proof. unfold trim, kMaxHistory. rewrite length_drop. lia. Qed.

Fixpoint save_all (h : t) (ssrc : Z) (l : list Report) : t :=
  match l with [] => h | r :: l => save_all (save h ssrc (ntp r) (sent r)) ssrc l end.

Lemma trim_snoc l r : (length l < kMaxHistory)%nat -> (length (trim l ++ [r]) <= kMaxHistory)%nat.
Proof. intros. rewrite length_app. pose proof (trim_length l). unfold kMaxHistory in *. simpl. lia. Qed.

(** What the list holds after any number of reports: the last sixteen. *)
Lemma save_all_last l : forall h ssrc kept,
  h !! ssrc = Some kept -> (length kept <= kMaxHistory)%nat ->
  save_all h ssrc l !! ssrc = Some (drop (length (kept ++ l) - kMaxHistory) (kept ++ l)).
Proof.
  induction l as [|r l IH]; intros h ssrc kept Hk Hlen; cbn [save_all].
  { rewrite app_nil_r. replace (length kept - kMaxHistory)%nat with 0%nat by lia. by rewrite drop_0. }
  rewrite (IH _ ssrc (trim kept ++ [r])).
  - f_equal. unfold trim, kMaxHistory in *. rewrite <- !app_assoc. cbn [app].
    rewrite !length_app, !length_drop. cbn [length].
    replace (length kept - (S (length kept) - 16) + S (length l) - 16)%nat with
      (length kept + S (length l) - 16 - (S (length kept) - 16))%nat by lia.
    replace (length kept + S (length l) - 16)%nat with
      ((S (length kept) - 16) + (length kept + S (length l) - 16 - (S (length kept) - 16)))%nat at 2 by lia.
    rewrite <- drop_drop. f_equal. rewrite drop_app_le by lia. done.
  - unfold save. rewrite lookup_insert, decide_True by done. rewrite Hk. by destruct r.
  - unfold trim, kMaxHistory in *. rewrite length_app, length_drop. simpl. lia.
Qed.

(** a report that is answered within the next fifteen yields a round-trip
    time once.  With the report under way for [d1], held by the peer for [hold]
    and answered after [d2] (nanoseconds), the peer's delay field counting
    [hold] in units of 1/65536 s, the result is twice the two journeys, at most
    36 microseconds above and 2 below: the journeys are already the round trip, the code
    doubles them. *)
Theorem rtt_of_report before r after ssrc marker d1 hold d2 :
  let delay := hold / 1000 * 65536 / 1000000 in
  let h := save_all make ssrc (before ++ r :: after) in
  let now := sent r + d1 + hold + d2 in
  (length after < kMaxHistory)%nat ->
  getNtpTimeMiddleMarker (ntp r) = marker ->
  Forall (fun x => getNtpTimeMiddleMarker (ntp x) <> marker) (before ++ after) ->
  0 <= d1 -> 0 <= d2 -> 0 <= hold ->
  exists rtt h', calculateRtt h ssrc marker delay now = (Some rtt, h') /\
    2 * ((d1 + d2) / 1000) - 2 <= rtt <= 2 * ((d1 + d2) / 1000) + 36 /\
    (calculateRtt h' ssrc marker delay now).1 = None.
Proof.
  intros delay h now Hafter Hr Hall Hd1 Hd2 Hhold.
  assert (exists pre, h !! ssrc = Some (pre ++ r :: after) /\
    Forall (fun x => getNtpTimeMiddleMarker (ntp x) <> marker) pre) as (pre & Hh & Hpre).
  { apply list.Forall_app in Hall as [Hb Ha]. unfold h.
    destruct before as [|b before]; cbn [app save_all].
    - rewrite (save_all_last _ _ _ [r]); [|unfold save; rewrite lookup_insert, decide_True by done; by destruct r|unfold kMaxHistory; simpl; lia].
      exists []. split; [|done]. cbn [app]. replace (length _ - _)%nat with 0%nat by (cbn [length]; lia). done.
    - rewrite (save_all_last _ _ _ [b]); [|unfold save; rewrite lookup_insert, decide_True by done; by destruct b|unfold kMaxHistory; simpl; lia].
      eexists. split.
      + f_equal. change ([b] ++ before ++ r :: after) with ((b :: before) ++ r :: after).
        rewrite drop_app_le; [done|]. rewrite length_app. cbn [length]. lia.
      + by apply Forall_drop. }
  unfold calculateRtt. rewrite Hh. rewrite search_app by done.
  apply list.Forall_app in Hall as [_ Hall].
  assert (delay_ns delay <= hold < delay_ns delay + 18000) as Hdelay
    by (unfold delay_ns, delay; zdm).
  assert (0 <= delay_ns delay) by (unfold delay_ns, delay; zdm).
  unfold now. destruct (Z.leb_spec (sent r + delay_ns delay) (sent r + d1 + hold + d2)); [|lia].
  eexists _, _. split; [done|]. split; [zdm|].
  rewrite lookup_insert, decide_True by done.
  by rewrite search_none by (apply list.Forall_app; done).
Qed.

Lemma rtt_of_report_witness :
  exists rtt h',
    calculateRtt (save_all make 1000 ([] ++ mkReport (mkNtp 7 (2 ^ 31)) 5000000 :: [])) 1000
      (getNtpTimeMiddleMarker (mkNtp 7 (2 ^ 31))) (1000000000 / 1000 * 65536 / 1000000)
      (5000000 + 20000000 + 1000000000 + 30000000) = (Some rtt, h') /\
    2 * ((20000000 + 30000000) / 1000) - 2 <= rtt <= 2 * ((20000000 + 30000000) / 1000) + 36 /\
    (calculateRtt h' 1000 (getNtpTimeMiddleMarker (mkNtp 7 (2 ^ 31))) (1000000000 / 1000 * 65536 / 1000000)
      (5000000 + 20000000 + 1000000000 + 30000000)).1 = None.
Proof.
  apply (rtt_of_report [] (mkReport (mkNtp 7 (2 ^ 31)) 5000000) [] 1000); try (simpl; lia);
    [unfold kMaxHistory; simpl; lia | constructor].
Defined.

End ReportsHistory.

(** ** Control: writing and reading reports

    The reports of [sendPublishReports] and [sendSubscribeReports] and the
    dispatcher [onReceivedControlPacket] with its handlers.  A handler changes
    the two report histories and the queue of reference time reports; what it
    asks of other components (the listener, the round-trip filter, the
    retransmission of packets, congestion control) is a list of calls.  One
    clock value stands for the clock readings of one handler. *)

Module Control.

Definition kMaxRtrrQueueSize : nat := 100.
Definition kMaxDlrrResponseSize : nat := 25.

Record SenderReport := mkSR { sr_when : Z; sr_ntp : NtpTime; sr_rtp : Z; packet_count : Z; octet_count : Z }.
Record ReceiverReferenceTimeReport := mkRRTR { rr_ssrc : Z; rr_when : Z; rr_ntp : NtpTime }.

Record state := mk {
  mSenderReportsHistory : ReportsHistory.t;
  mReceiverReferenceTimeReportsHistory : ReportsHistory.t;
  mOutstandingQueue : list ReceiverReferenceTimeReport
}.

Inductive call :=
  | CallSenderReport (track : Track.t) (sr : SenderReport)
  | CallRtt (rtt : Z)
  | CallNacked (ssrc : Z) (seqs : list Z)
  | CallTwcc (ssrc : Z) (r : ByteReader.t)
  | CallKeyFrameRequest.

Definition rtt_call (o : option Z) : list call := match o with Some x => [CallRtt x] | None => [] end.

(** *** Handlers *)

Definition findReceiveTrack (tracks : list Track.t) (ssrc : Z) : option Track.t :=
  snd <$> list_find (fun track => Track.mSSRC track = ssrc) tracks.

Definition onSR (tracks : list Track.t) (now ssrc : Z) (r : ByteReader.t) : option (list call) :=
  match findReceiveTrack tracks ssrc with
  | None => Some []
  | Some track =>
      if (20 <=? ByteReader.remaining r)%nat then
        '(ntp_high, r) ← ByteReader.readU32 r;
        '(ntp_low, r) ← ByteReader.readU32 r;
        '(rtp_timestamp, r) ← ByteReader.readU32 r;
        '(packets, r) ← ByteReader.readU32 r;
        '(octets, r) ← ByteReader.readU32 r;
        Some [CallSenderReport track (mkSR now (mkNtp ntp_high ntp_low) rtp_timestamp packets octets)]
      else Some []
  end.

(** The effect of one report block, once read. *)
Definition apply_rr (now : Z) (st : state) (ssrc lastSR delay : Z) : state * list call :=
  let '(rtt, h) := ReportsHistory.calculateRtt (mSenderReportsHistory st) ssrc lastSR delay now in
  (mk h (mReceiverReferenceTimeReportsHistory st) (mOutstandingQueue st), rtt_call rtt).

Fixpoint onRR (fuel : nat) (now : Z) (st : state) (r : ByteReader.t) : option (state * list call) :=
  match fuel with
  | O => None
  | S fuel =>
      if (24 <=? ByteReader.remaining r)%nat then
        '(ssrc, r) ← ByteReader.readU32 r;
        '(lost, r) ← ByteReader.readU32 r;
        '(highestReceived, r) ← ByteReader.readU32 r;
        '(jitter, r) ← ByteReader.readU32 r;
        '(lastSR, r) ← ByteReader.readU32 r;
        '(delaySinceLastSR, r) ← ByteReader.readU32 r;
        let '(st, calls) := apply_rr now st ssrc lastSR delaySinceLastSR in
        '(st, more) ← onRR fuel now st r;
        Some (st, calls ++ more)
      else Some (st, [])
  end.

Fixpoint onNACK (fuel : nat) (ssrc : Z) (r : ByteReader.t) : option (list call) :=
  match fuel with
  | O => None
  | S fuel =>
      if (4 <=? ByteReader.remaining r)%nat then
        '(pid, r) ← ByteReader.readU16 r;
        '(blp, r) ← ByteReader.readU16 r;
        more ← onNACK fuel ssrc r;
        Some (CallNacked ssrc (Nack.missingSeqList pid blp) :: more)
      else Some []
  end.

(** The queue keeps one report per source, at most a hundred. *)
Definition enqueue (q : list ReceiverReferenceTimeReport) (rrtr : ReceiverReferenceTimeReport) :=
  match list_find (fun x => rr_ssrc x = rr_ssrc rrtr) q with
  | Some (i, _) => <[i := rrtr]> q
  | None => drop (S (length q) - kMaxRtrrQueueSize) q ++ [rrtr]
  end.

Definition onRRTR (now : Z) (st : state) (ssrc : Z) (r : ByteReader.t) : option state :=
  if (8 <=? ByteReader.remaining r)%nat then
    '(ntpSeconds, r) ← ByteReader.readU32 r;
    '(ntpFraction, r) ← ByteReader.readU32 r;
    Some (mk (mSenderReportsHistory st) (mReceiverReferenceTimeReportsHistory st)
             (enqueue (mOutstandingQueue st) (mkRRTR ssrc now (mkNtp ntpSeconds ntpFraction))))
  else Some st.

Definition apply_dlrr (now : Z) (st : state) (ssrc1 ntpMiddle delay : Z) : state * list call :=
  if negb (ntpMiddle =? 0) then
    let '(rtt, h) :=
      ReportsHistory.calculateRtt (mReceiverReferenceTimeReportsHistory st) ssrc1 ntpMiddle delay now in
    (mk (mSenderReportsHistory st) h (mOutstandingQueue st), rtt_call rtt)
  else (st, []).

Fixpoint onDLRR (fuel : nat) (now : Z) (st : state) (r : ByteReader.t) : option (state * list call) :=
  match fuel with
  | O => None
  | S fuel =>
      if (12 <=? ByteReader.remaining r)%nat then
        '(ssrc1, r) ← ByteReader.readU32 r;
        '(ntpMiddle, r) ← ByteReader.readU32 r;
        '(delay, r) ← ByteReader.readU32 r;
        let '(st, calls) := apply_dlrr now st ssrc1 ntpMiddle delay in
        '(st, more) ← onDLRR fuel now st r;
        Some (st, calls ++ more)
      else Some (st, [])
  end.

(** One block of an extended report. *)
Definition onXRBlock (now : Z) (st : state) (ssrc bt : Z) (block : list Z) : option (state * list call) :=
  if bt =? 4 then st ← onRRTR now st ssrc (ByteReader.make block); Some (st, [])
  else if bt =? 5 then onDLRR (S (length block)) now st (ByteReader.make block)
  else Some (st, []).

Fixpoint onXR (fuel : nat) (now : Z) (st : state) (ssrc : Z) (r : ByteReader.t)
  : option (state * list call) :=
  match fuel with
  | O => None
  | S fuel =>
      if (4 <=? ByteReader.remaining r)%nat then
        '(bt, r) ← ByteReader.readU8 r;
        '(reserved, r) ← ByteReader.readU8 r;
        '(blockLen, r) ← ByteReader.readU16 r;
        let blockBytes := Z.to_nat (4 * blockLen) in
        if (ByteReader.remaining r <? blockBytes)%nat then Some (st, [])
        else
          let block := take blockBytes (ByteReader.current r) in
          r ← ByteReader.skip r blockBytes;
          '(st, calls) ← onXRBlock now st ssrc bt block;
          '(st, more) ← onXR fuel now st ssrc r;
          Some (st, calls ++ more)
      else Some (st, [])
  end.

Definition onReceivedControlPacket (tracks : list Track.t) (now : Z) (st : state)
  (packet : RtcpPacket.t) : option (state * list call) :=
  let r := ByteReader.make (RtcpPacket.mPayload packet) in
  let fuel := S (length (RtcpPacket.mPayload packet)) in
  let pt := RtcpPacket.mPayloadId packet in
  if pt =? 200 then calls ← onSR tracks now (RtcpPacket.mSSRC packet) r; Some (st, calls)
  else if pt =? 201 then onRR fuel now st r
  else if pt =? 205 then
    if (4 <=? ByteReader.remaining r)%nat then
      '(ssrc, r) ← ByteReader.readU32 r;
      if RtcpPacket.mRC packet =? 1 then calls ← onNACK fuel ssrc r; Some (st, calls)
      else if RtcpPacket.mRC packet =? 15 then Some (st, [CallTwcc ssrc r])
      else Some (st, [])
    else Some (st, [])
  else if pt =? 206 then
    Some (st, if (RtcpPacket.mRC packet =? 1) || (RtcpPacket.mRC packet =? 4) then [CallKeyFrameRequest] else [])
  else if pt =? 207 then onXR fuel now st (RtcpPacket.mSSRC packet) r
  else Some (st, []).

(** The packets of one datagram, in order. *)
Fixpoint onReceivedControlPackets (tracks : list Track.t) (now : Z) (st : state)
  (packets : list RtcpPacket.t) : option (state * list call) :=
  match packets with
  | [] => Some (st, [])
  | p :: packets =>
      '(st, calls) ← onReceivedControlPacket tracks now st p;
      '(st, more) ← onReceivedControlPackets tracks now st packets;
      Some (st, calls ++ more)
  end.

(** *** Safety

    Readers whose position is inside the buffer: every reader the handlers
    see. *)

Ltac read_step :=
  match goal with
  | |- context [ByteReader.readU32 (ByteReader.reader_at ?p ?q)] =>
      let v := fresh "v" in let E := fresh "E" in
      destruct (ByteReader.readU32_some p q) as [v E];
        [rewrite ?length_drop; simpl; lia | rewrite E; clear E; cbn [mbind option_bind]]
  | |- context [ByteReader.readU16 (ByteReader.reader_at ?p ?q)] =>
      let v := fresh "v" in let E := fresh "E" in
      destruct (ByteReader.readU16_some p q) as [v E];
        [rewrite ?length_drop; simpl; lia | rewrite E; clear E; cbn [mbind option_bind]]
  | |- context [ByteReader.readU8 (ByteReader.reader_at ?p ?q)] =>
      let v := fresh "v" in let E := fresh "E" in
      destruct (ByteReader.readU8_some p q) as [v E];
        [rewrite ?length_drop; simpl; lia | rewrite E; clear E; cbn [mbind option_bind]]
  end.

Ltac need_bytes :=
  match goal with
  | |- context [(?n <=? ByteReader.remaining (ByteReader.reader_at ?p ?q))%nat] =>
      rewrite (ByteReader.remaining_at p q); destruct (Nat.leb_spec n (length q))
  end.

Lemma onSR_safe tracks now ssrc pre post : is_Some (onSR tracks now ssrc (ByteReader.reader_at pre post)).
Proof.
  unfold onSR. destruct (findReceiveTrack tracks ssrc); [|by eexists].
  need_bytes; [|by eexists]. repeat read_step. by eexists.
Qed.

Lemma onRR_safe fuel : forall now st pre post,
  (length post < fuel)%nat -> is_Some (onRR fuel now st (ByteReader.reader_at pre post)).
Proof.
  induction fuel as [|fuel IH]; intros now st pre post Hf; [lia|]. cbn [onRR].
  need_bytes; [|by eexists]. repeat read_step.
  destruct (apply_rr _ _ _ _ _) as [st' calls].
  edestruct (IH now st') as [[st'' more] ->]; [rewrite !length_drop; lia|]. by eexists.
Qed.

Lemma onDLRR_safe fuel : forall now st pre post,
  (length post < fuel)%nat -> is_Some (onDLRR fuel now st (ByteReader.reader_at pre post)).
Proof.
  induction fuel as [|fuel IH]; intros now st pre post Hf; [lia|]. cbn [onDLRR].
  need_bytes; [|by eexists]. repeat read_step.
  destruct (apply_dlrr _ _ _ _ _) as [st' calls].
  edestruct (IH now st') as [[st'' more] ->]; [rewrite !length_drop; lia|]. by eexists.
Qed.

Lemma onNACK_safe fuel : forall ssrc pre post,
  (length post < fuel)%nat -> is_Some (onNACK fuel ssrc (ByteReader.reader_at pre post)).
Proof.
  induction fuel as [|fuel IH]; intros ssrc pre post Hf; [lia|]. cbn [onNACK].
  need_bytes; [|by eexists]. repeat read_step.
  edestruct (IH ssrc) as [more ->]; [rewrite !length_drop; lia|]. by eexists.
Qed.

Lemma onXRBlock_safe now st ssrc bt block : is_Some (onXRBlock now st ssrc bt block).
Proof.
  unfold onXRBlock. rewrite ByteReader.make_reader_at. destruct (bt =? 4); [|destruct (bt =? 5); [|by eexists]].
  - unfold onRRTR. need_bytes; [|by eexists]. repeat read_step. by eexists.
  - apply onDLRR_safe. lia.
Qed.

Lemma onXR_safe fuel : forall now st ssrc pre post,
  (length post < fuel)%nat -> is_Some (onXR fuel now st ssrc (ByteReader.reader_at pre post)).
Proof.
  induction fuel as [|fuel IH]; intros now st ssrc pre post Hf; [lia|]. cbn [onXR].
  need_bytes; [|by eexists]. repeat read_step. rewrite ByteReader.remaining_at, ByteReader.current_at.
  destruct (Nat.ltb_spec (length (drop 2 (drop 1 (drop 1 post)))) (Z.to_nat (4 * v1))); [by eexists|].
  rewrite ByteReader.skip_split by done. cbn [mbind option_bind].
  edestruct (onXRBlock_safe now st ssrc v) as [[st' calls] ->]. cbn [mbind option_bind].
  edestruct (IH now st' ssrc) as [[st'' more] ->]; [rewrite !length_drop; lia|]. by eexists.
Qed.

(** C34: no control packet can stop the program once it is parsed: whatever
    the type, the count and the payload, every read the handlers make is inside
    the payload and every loop ends. *)
Theorem control_packet_safe tracks now st packet :
  is_Some (onReceivedControlPacket tracks now st packet).
Proof.
  unfold onReceivedControlPacket. rewrite ByteReader.make_reader_at.
  repeat match goal with |- context [if ?b =? ?c then _ else _] => destruct (b =? c) end; try by eexists.
  - destruct (onSR_safe tracks now (RtcpPacket.mSSRC packet) [] (RtcpPacket.mPayload packet)) as [calls ->].
    by eexists.
  - apply onRR_safe. lia.
  - need_bytes; [|by eexists]. read_step.
    match goal with |- context [onNACK ?f ?s (ByteReader.reader_at ?p ?q)] =>
      destruct (onNACK_safe f s p q) as [calls ->] end; [rewrite length_drop; lia|]. by eexists.
  - need_bytes; [|by eexists]. read_step. by eexists.
  - need_bytes; [|by eexists]. read_step. by eexists.
  - apply onXR_safe. lia.
Qed.

(** *** Writers *)

(** The sender report of one track. *)
Definition senderReport (track : Track.t) (ntp : NtpTime) (rtpTime sentPackets sentBytes : Z) : RtcpPacket.t :=
  let w := ByteWriter.writeU32 [] (seconds ntp) in
  let w := ByteWriter.writeU32 w (fraction ntp) in
  let w := ByteWriter.writeU32 w rtpTime in
  let w := ByteWriter.writeU32 w (u32 sentPackets) in
  let w := ByteWriter.writeU32 w (u32 sentBytes) in
  RtcpPacket.mk (Track.mSSRC track) 0 RtcpPacket.kSenderReport w.

(** One answer to a reference time report, [now] in nanoseconds. *)
Definition dlrr_delay (now : Z) (rrtr : ReceiverReferenceTimeReport) : Z :=
  u32 (Z.quot (Z.quot (now - rr_when rrtr) 1000 * 65536) 1000000).

Definition write_dlrr (now : Z) (w : list Z) (rrtr : ReceiverReferenceTimeReport) : list Z :=
  let w := ByteWriter.writeU8 w 5 in
  let w := ByteWriter.writeU8 w 0 in
  let w := ByteWriter.writeU16 w 3 in
  let w := ByteWriter.writeU32 w (rr_ssrc rrtr) in
  let w := ByteWriter.writeU32 w (getNtpTimeMiddleMarker (rr_ntp rrtr)) in
  ByteWriter.writeU32 w (dlrr_delay now rrtr).

(** What a publishing track contributes: its clock readings and counters. *)
Record PublishReport := mkPub { pb_track : Track.t; pb_ntp : NtpTime; pb_rtp : Z; pb_packets : Z; pb_bytes : Z; pb_now : Z }.

(** [sendPublishReports]: one datagram per packet. *)
Definition sendPublishReports (controlSSRC now : Z) (reports : list PublishReport) (st : state)
  : list (list Z) * state :=
  let srs := map (fun b => RtcpPacket.generate
    (senderReport (pb_track b) (pb_ntp b) (pb_rtp b) (pb_packets b) (pb_bytes b))) reports in
  let h := fold_left (fun h b => ReportsHistory.save h (Track.mSSRC (pb_track b)) (pb_ntp b) (pb_now b))
    reports (mSenderReportsHistory st) in
  if bool_decide (mOutstandingQueue st = [])
  then (srs, mk h (mReceiverReferenceTimeReportsHistory st) [])
  else
    let payload := fold_left (write_dlrr now) (take kMaxDlrrResponseSize (mOutstandingQueue st)) [] in
    (srs ++ [RtcpPacket.generate (RtcpPacket.mk controlSSRC 0 RtcpPacket.kExtendedReport payload)],
     mk h (mReceiverReferenceTimeReportsHistory st) (drop kMaxDlrrResponseSize (mOutstandingQueue st))).

(** What a subscribing track contributes: the extended highest sequence number
    and the last sender report with its arrival. *)
Record SubscribeReport := mkSub { sb_ssrc : Z; sb_seq : Z; sb_sr : option (NtpTime * Z) }.

Definition sb_lastSR (b : SubscribeReport) : Z :=
  match sb_sr b with Some (ntp, _) => getNtpTimeMiddleMarker ntp | None => 0 end.
Definition sb_delay (now : Z) (b : SubscribeReport) : Z :=
  match sb_sr b with
  | Some (_, when) => u32 (Z.quot (Z.quot (now - when) 1000000 * 65536) 1000)
  | None => 0
  end.

Definition write_rr (now : Z) (w : list Z) (b : SubscribeReport) : list Z :=
  let w := ByteWriter.writeU32 w (sb_ssrc b) in
  let w := ByteWriter.writeU32 w 0 in
  let w := ByteWriter.writeU32 w (u32 (sb_seq b)) in
  let w := ByteWriter.writeU32 w 0 in
  let w := ByteWriter.writeU32 w (sb_lastSR b) in
  ByteWriter.writeU32 w (sb_delay now b).

Definition write_rrtr (ntp : NtpTime) : list Z :=
  let w := ByteWriter.writeU8 [] 4 in
  let w := ByteWriter.writeU8 w 0 in
  let w := ByteWriter.writeU16 w 2 in
  let w := ByteWriter.writeU32 w (seconds ntp) in
  ByteWriter.writeU32 w (fraction ntp).

(** The packets of [sendSubscribeReports]: they go out as one compound. *)
Definition subscribe_packets (controlSSRC now : Z) (ntp : NtpTime) (reports : list SubscribeReport)
  : list RtcpPacket.t :=
  let payload := fold_left (write_rr now) reports [] in
  (if bool_decide (payload = []) then []
   else [RtcpPacket.mk controlSSRC (u8 (Z.of_nat (length reports))) RtcpPacket.kReceiverReport payload]) ++
  [RtcpPacket.mk controlSSRC 0 RtcpPacket.kExtendedReport (write_rrtr ntp)].

Definition sendSubscribeReports (controlSSRC now : Z) (ntp : NtpTime) (reports : list SubscribeReport)
  (st : state) : list Z * state :=
  (RtcpPacket.combine (subscribe_packets controlSSRC now ntp reports),
   mk (mSenderReportsHistory st)
      (ReportsHistory.save (mReceiverReferenceTimeReportsHistory st) controlSSRC ntp now)
      (mOutstandingQueue st)).

(** A datagram at the other end, once unprotected. *)
Definition onDatagram (tracks : list Track.t) (now : Z) (st : state) (data : list Z)
  : option (state * list call) :=
  packets ← RtcpPacket.fromUdpPacket data;
  onReceivedControlPackets tracks now st packets.

Fixpoint onDatagrams (tracks : list Track.t) (now : Z) (st : state) (l : list (list Z))
  : option (state * list call) :=
  match l with
  | [] => Some (st, [])
  | data :: l =>
      '(st, calls) ← onDatagram tracks now st data;
      '(st, more) ← onDatagrams tracks now st l;
      Some (st, calls ++ more)
  end.

(** *** Reading back what was written *)

Ltac read_be :=
  repeat (cbn [mbind option_bind];
    first [ rewrite Wire.readU32_be by (unfold is_u32 in *; lia)
          | rewrite Wire.readU16_be by (unfold is_u16 in *; lia)
          | rewrite Wire.readU8_be by (unfold is_u8 in *; lia) ]).

Definition ntp_ok (n : NtpTime) : Prop := is_u32 (seconds n) /\ is_u32 (fraction n).

Lemma middle_marker_ok n : ntp_ok n -> is_u32 (getNtpTimeMiddleMarker n).
Proof.
  intros [Hs Hf]. unfold getNtpTimeMiddleMarker, u32, is_u32 in *.
  rewrite Z.shiftl_mul_pow2, shiftr_div by lia.
  replace (seconds n * 2 ^ 16 mod 2 ^ 32) with (Z.shiftl (seconds n mod 2 ^ 16) 16)
    by (rewrite Z.shiftl_mul_pow2 by lia; change (2 ^ 32) with (2 ^ 16 * 2 ^ 16);
        rewrite Z.mul_mod_distr_r by lia; lia).
  rewrite lor_shiftl_add by zdm. zdm.
Qed.

(** Receiver report blocks as bytes. *)
Definition rr_bytes (ssrc seq lastSR delay : Z) : list Z :=
  be_bytes 4 ssrc ++ be_bytes 4 0 ++ be_bytes 4 seq ++ be_bytes 4 0 ++ be_bytes 4 lastSR ++ be_bytes 4 delay.

Lemma write_rr_be now w b :
  write_rr now w b = w ++ rr_bytes (sb_ssrc b) (u32 (sb_seq b)) (sb_lastSR b) (sb_delay now b).
Proof. unfold write_rr, rr_bytes. by rewrite !Wire.writeU32_be, <- !app_assoc. Qed.

Lemma fold_write_concat {A} (f : list Z -> A -> list Z) (g : A -> list Z) l w :
  (forall w a, f w a = w ++ g a) -> fold_left f l w = w ++ concat (map g l).
Proof.
  intros Hf. revert w. induction l as [|a l IH]; intros w; cbn [fold_left map concat].
  - by rewrite app_nil_r.
  - by rewrite IH, Hf, app_assoc.
Qed.

(** Run a handler step over a list of values, collecting the calls. *)
Fixpoint run_all {A} (step : state -> A -> state * list call) (st : state) (l : list A)
  : state * list call :=
  match l with
  | [] => (st, [])
  | a :: l =>
      let '(st, calls) := step st a in
      let '(st, more) := run_all step st l in (st, calls ++ more)
  end.

Definition sub_ok (b : SubscribeReport) : Prop :=
  is_u32 (sb_ssrc b) /\ from_option (fun s => ntp_ok s.1) True (sb_sr b).

Lemma sb_values_ok now b : sub_ok b -> is_u32 (sb_lastSR b) /\ is_u32 (sb_delay now b).
Proof.
  intros [_ Hs]. unfold sb_lastSR, sb_delay. destruct (sb_sr b) as [[n w]|].
  - split; [by apply middle_marker_ok | apply u32_range].
  - by vm_compute.
Qed.

Lemma length_rr_bytes a b c d : length (rr_bytes a b c d) = 24%nat.
Proof. unfold rr_bytes. by rewrite !length_app, !length_be_bytes. Qed.

Lemma onRR_encoded now at_ st bs : forall fuel pre,
  (length bs < fuel)%nat -> Forall sub_ok bs ->
  onRR fuel at_ st (ByteReader.reader_at pre
    (concat (map (fun b => rr_bytes (sb_ssrc b) (u32 (sb_seq b)) (sb_lastSR b) (sb_delay now b)) bs))) =
  Some (run_all (fun st b => apply_rr at_ st (sb_ssrc b) (sb_lastSR b) (sb_delay now b)) st bs).
Proof.
  revert st. induction bs as [|b bs IH]; intros st [|fuel] pre Hf Hbs; try (cbn [length] in Hf; lia).
  - cbn [map concat onRR]. by rewrite ByteReader.remaining_at.
  - apply list.Forall_cons in Hbs as [Hb Hbs]. cbn [map concat onRR].
    rewrite ByteReader.remaining_at, length_app, length_rr_bytes.
    replace (24 <=? 24 + _)%nat with true by (symmetry; apply Nat.leb_le; lia).
    destruct (sb_values_ok now b Hb). pose proof (u32_range (sb_seq b)). destruct Hb as [? _].
    unfold rr_bytes at 1. rewrite <- !app_assoc. read_be. cbn [mbind option_bind run_all].
    destruct (apply_rr _ _ _ _ _) as [st' calls]. cbn [length] in Hf.
    rewrite IH by (done || lia). by destruct (run_all _ st' bs).
Qed.

(** Extended report blocks as bytes. *)
Definition dlrr_bytes (ssrc marker delay : Z) : list Z :=
  be_bytes 1 5 ++ be_bytes 1 0 ++ be_bytes 2 3 ++ be_bytes 4 ssrc ++ be_bytes 4 marker ++ be_bytes 4 delay.

Lemma write_dlrr_be now w q :
  write_dlrr now w q = w ++ dlrr_bytes (rr_ssrc q) (getNtpTimeMiddleMarker (rr_ntp q)) (dlrr_delay now q).
Proof.
  unfold write_dlrr, dlrr_bytes.
  by rewrite !Wire.writeU32_be, !Wire.writeU16_be, !Wire.writeU8_be, <- !app_assoc.
Qed.

Lemma length_dlrr_bytes a b c : length (dlrr_bytes a b c) = 16%nat.
Proof. unfold dlrr_bytes. by rewrite !length_app, !length_be_bytes. Qed.

Definition rrtr_ok (q : ReceiverReferenceTimeReport) : Prop := is_u32 (rr_ssrc q) /\ ntp_ok (rr_ntp q).

Lemma onDLRR_block at_ st a b c :
  is_u32 a -> is_u32 b -> is_u32 c ->
  onXRBlock at_ st 0 5 (be_bytes 4 a ++ be_bytes 4 b ++ be_bytes 4 c) = Some (apply_dlrr at_ st a b c).
Proof.
  intros. unfold onXRBlock. cbn [Z.eqb Pos.eqb]. rewrite ByteReader.make_reader_at.
  rewrite !length_app, !length_be_bytes. cbn [Nat.add onDLRR].
  rewrite ByteReader.remaining_at, !length_app, !length_be_bytes. cbn [Nat.leb Nat.add].
  rewrite <- (app_nil_r (be_bytes 4 c)). read_be. cbn [mbind option_bind].
  destruct (apply_dlrr _ _ _ _ _) as [st' calls]. rewrite ByteReader.remaining_at. cbn [length Nat.leb].
  cbn [mbind option_bind]. by rewrite app_nil_r.
Qed.

Lemma onXRBlock_ssrc at_ st s s' block :
  onXRBlock at_ st s 5 block = onXRBlock at_ st s' 5 block.
Proof. done. Qed.

Lemma onXR_dlrr now at_ ssrc qs : forall st fuel pre,
  (length qs < fuel)%nat -> Forall rrtr_ok qs ->
  onXR fuel at_ st ssrc (ByteReader.reader_at pre
    (concat (map (fun q => dlrr_bytes (rr_ssrc q) (getNtpTimeMiddleMarker (rr_ntp q)) (dlrr_delay now q)) qs))) =
  Some (run_all (fun st q =>
    apply_dlrr at_ st (rr_ssrc q) (getNtpTimeMiddleMarker (rr_ntp q)) (dlrr_delay now q)) st qs).
Proof.
  induction qs as [|q qs IH]; intros st [|fuel] pre Hf Hqs; try (cbn [length] in Hf; lia).
  - cbn [map concat onXR]. by rewrite ByteReader.remaining_at.
  - apply list.Forall_cons in Hqs as [[Hq Hn] Hqs]. apply middle_marker_ok in Hn.
    assert (is_u32 (dlrr_delay now q)) by apply u32_range.
    cbn [map concat onXR]. rewrite ByteReader.remaining_at, length_app, length_dlrr_bytes.
    replace (4 <=? 16 + _)%nat with true by (symmetry; apply Nat.leb_le; lia).
    unfold dlrr_bytes at 1. rewrite <- !app_assoc. read_be. cbn [mbind option_bind].
    rewrite ByteReader.remaining_at, ByteReader.current_at, !length_app, !length_be_bytes.
    change (Z.to_nat (4 * 3)) with 12%nat.
    replace (_ <? 12)%nat with false by (symmetry; apply Nat.ltb_ge; lia).
    match goal with |- context [be_bytes 4 (rr_ssrc q) ++ ?b ++ ?c ++ ?rest] =>
      replace (be_bytes 4 (rr_ssrc q) ++ b ++ c ++ rest) with
        ((be_bytes 4 (rr_ssrc q) ++ b ++ c) ++ rest) by (by rewrite <- !app_assoc) end.
    rewrite take_length_app, ByteReader.skip_at by (by rewrite !length_app, !length_be_bytes).
    cbn [mbind option_bind run_all]. rewrite (onXRBlock_ssrc _ _ _ 0), onDLRR_block by done.
    cbn [mbind option_bind]. destruct (apply_dlrr _ _ _ _ _) as [st' calls]. cbn [length] in Hf.
    rewrite IH by (done || lia). by destruct (run_all _ st' qs).
Qed.

Lemma onRRTR_block at_ st ssrc n :
  ntp_ok n ->
  onXRBlock at_ st ssrc 4 (be_bytes 4 (seconds n) ++ be_bytes 4 (fraction n)) =
  Some (mk (mSenderReportsHistory st) (mReceiverReferenceTimeReportsHistory st)
           (enqueue (mOutstandingQueue st) (mkRRTR ssrc at_ n)), []).
Proof.
  intros [Hs Hn]. unfold onXRBlock. cbn [Z.eqb Pos.eqb]. unfold onRRTR.
  rewrite ByteReader.make_reader_at, ByteReader.remaining_at, !length_app, !length_be_bytes.
  cbn [Nat.leb Nat.add]. rewrite <- (app_nil_r (be_bytes 4 (fraction n))). read_be.
  cbn [mbind option_bind]. by destruct n.
Qed.

Lemma onXR_rrtr at_ st ssrc fuel n :
  (1 < fuel)%nat -> ntp_ok n ->
  onXR fuel at_ st ssrc (ByteReader.make (write_rrtr n)) =
  Some (mk (mSenderReportsHistory st) (mReceiverReferenceTimeReportsHistory st)
           (enqueue (mOutstandingQueue st) (mkRRTR ssrc at_ n)), []).
Proof.
  intros Hf Hn. destruct fuel as [|[|fuel]]; try lia. cbn [onXR].
  assert (write_rrtr n = be_bytes 1 4 ++ be_bytes 1 0 ++ be_bytes 2 2 ++ be_bytes 4 (seconds n) ++
    be_bytes 4 (fraction n)) as ->.
  { unfold write_rrtr. by rewrite !Wire.writeU32_be, !Wire.writeU16_be, !Wire.writeU8_be, <- !app_assoc. }
  rewrite ByteReader.make_reader_at, ByteReader.remaining_at, !length_app, !length_be_bytes.
  cbn [Nat.leb Nat.add]. read_be. cbn [mbind option_bind].
  rewrite ByteReader.remaining_at, ByteReader.current_at, !length_app, !length_be_bytes.
  change (Z.to_nat (4 * 2)) with 8%nat. cbn [Nat.ltb Nat.leb Nat.add].
  rewrite take_ge by (by rewrite length_app, !length_be_bytes).
  rewrite <- (app_nil_r (be_bytes 4 (seconds n) ++ be_bytes 4 (fraction n))) at 1.
  rewrite ByteReader.skip_at by (by rewrite !length_app, !length_be_bytes).
  cbn [mbind option_bind]. rewrite onRRTR_block by done. cbn [mbind option_bind].
  by rewrite ByteReader.remaining_at.
Qed.

Lemma received_aligned p : (length (RtcpPacket.mPayload p) mod 4 = 0)%nat -> RtcpPacket.received p = p.
Proof.
  intros H. unfold RtcpPacket.received. destruct p as [s rc pt pl].
  cbn [RtcpPacket.mPayload RtcpPacket.mSSRC RtcpPacket.mRC RtcpPacket.mPayloadId] in *.
  assert (RtcpPacket.word_padding (8 + length pl) = 0%nat) as ->; [|by rewrite app_nil_r].
  unfold RtcpPacket.word_padding.
  replace (8 + length pl + 3)%nat with (3 + (2 + length pl / 4) * 4)%nat
    by (pose proof (Nat.div_mod_eq (length pl) 4); lia).
  by rewrite Nat.Div0.mod_add.
Qed.

Definition rr_payload (now : Z) (reports : list SubscribeReport) : list Z :=
  concat (map (fun b => rr_bytes (sb_ssrc b) (u32 (sb_seq b)) (sb_lastSR b) (sb_delay now b)) reports).

Lemma rr_payload_length now reports : length (rr_payload now reports) = (4 * (6 * length reports))%nat.
Proof.
  unfold rr_payload. induction reports as [|b l IH]; [done|]. cbn [map concat length].
  rewrite length_app, length_rr_bytes, IH. lia.
Qed.

Lemma rr_payload_ok now reports : bytes_ok (rr_payload now reports).
Proof.
  unfold rr_payload. induction reports as [|b l IH]; [constructor|]. cbn [map concat].
  apply bytes_ok_app. split; [|done]. unfold rr_bytes. rewrite !bytes_ok_app.
  repeat split; apply be_bytes_ok.
Qed.

Lemma write_rrtr_ok n : length (write_rrtr n) = 12%nat /\ bytes_ok (write_rrtr n).
Proof.
  unfold write_rrtr. rewrite !Wire.writeU32_be, !Wire.writeU16_be, !Wire.writeU8_be.
  rewrite !length_app, !length_be_bytes, !bytes_ok_app. split; [done|].
  repeat split; apply be_bytes_ok || constructor.
Qed.

(** The packets of a subscriber's report, and that each arrives as it is. *)
Lemma subscribe_packets_eq controlSSRC now n reports :
  subscribe_packets controlSSRC now n reports =
  (if bool_decide (reports = []) then []
   else [RtcpPacket.mk controlSSRC (u8 (Z.of_nat (length reports))) RtcpPacket.kReceiverReport
           (rr_payload now reports)]) ++
  [RtcpPacket.mk controlSSRC 0 RtcpPacket.kExtendedReport (write_rrtr n)].
Proof.
  unfold subscribe_packets.
  rewrite (fold_write_concat _ _ reports [] (write_rr_be now)). cbn [app]. fold (rr_payload now reports).
  pose proof (rr_payload_length now reports) as El. f_equal.
  destruct reports as [|b reports]; [done|].
  destruct (rr_payload now (b :: reports)); [cbn [length] in El; lia | done].
Qed.

Lemma mod4_mult n : ((4 * n) mod 4 = 0)%nat.
Proof. rewrite Nat.mul_comm. apply Nat.Div0.mod_mul. Qed.

Lemma subscribe_packets_ok controlSSRC now n reports :
  is_u32 controlSSRC -> (length reports < 32)%nat ->
  RtcpPacket.fromUdpPacket (RtcpPacket.combine (subscribe_packets controlSSRC now n reports)) =
  Some (subscribe_packets controlSSRC now n reports).
Proof.
  intros Hc Hlen. destruct (write_rrtr_ok n) as [Hl Hb].
  pose proof (rr_payload_length now reports) as El. pose proof (rr_payload_ok now reports) as Eok.
  rewrite RtcpPacket.fromUdpPacket_combine; rewrite subscribe_packets_eq.
  - f_equal. case_bool_decide; cbn [map app]; rewrite !received_aligned; try done;
      cbn [RtcpPacket.mPayload]; rewrite ?Hl, ?El; done || apply mod4_mult.
  - assert (RtcpPacket.wf (RtcpPacket.mk controlSSRC 0 RtcpPacket.kExtendedReport (write_rrtr n))).
    { split; cbn [RtcpPacket.mSSRC RtcpPacket.mRC RtcpPacket.mPayloadId RtcpPacket.mPayload];
        try done; rewrite ?Hl; lia. }
    case_bool_decide; cbn [app]; [by constructor|]. constructor; [|by constructor].
    split; cbn [RtcpPacket.mSSRC RtcpPacket.mRC RtcpPacket.mPayloadId RtcpPacket.mPayload]; try done.
    + rewrite u8_small by (unfold is_u8; lia). lia.
    + rewrite El. lia.
Qed.

Lemma onReceived_rrtr tracks at_ st controlSSRC n :
  ntp_ok n ->
  onReceivedControlPackets tracks at_ st
    [RtcpPacket.mk controlSSRC 0 RtcpPacket.kExtendedReport (write_rrtr n)] =
  Some (mk (mSenderReportsHistory st) (mReceiverReferenceTimeReportsHistory st)
           (enqueue (mOutstandingQueue st) (mkRRTR controlSSRC at_ n)), []).
Proof.
  intros Hn. cbn [onReceivedControlPackets]. unfold onReceivedControlPacket.
  cbn [RtcpPacket.mPayloadId RtcpPacket.kExtendedReport Z.eqb Pos.eqb RtcpPacket.mPayload RtcpPacket.mSSRC].
  destruct (write_rrtr_ok n) as [Hl _]. by rewrite onXR_rrtr by (done || lia).
Qed.

Lemma onReceived_rr tracks at_ now st controlSSRC rc reports :
  Forall sub_ok reports ->
  onReceivedControlPacket tracks at_ st
    (RtcpPacket.mk controlSSRC rc RtcpPacket.kReceiverReport (rr_payload now reports)) =
  Some (run_all (fun st b => apply_rr at_ st (sb_ssrc b) (sb_lastSR b) (sb_delay now b)) st reports).
Proof.
  intros Hr. unfold onReceivedControlPacket.
  cbn [RtcpPacket.mPayloadId RtcpPacket.kReceiverReport Z.eqb Pos.eqb RtcpPacket.mPayload].
  rewrite ByteReader.make_reader_at. pose proof (rr_payload_length now reports).
  apply onRR_encoded; [lia|done].
Qed.

Lemma onReceived_cons tracks now st p ps :
  onReceivedControlPackets tracks now st (p :: ps) =
  ('(st, calls) ← onReceivedControlPacket tracks now st p;
   '(st, more) ← onReceivedControlPackets tracks now st ps;
   Some (st, calls ++ more)).
Proof. done. Qed.

(** the compound report of a subscriber (a receiver report on all its
    tracks and a reference time report), serialized, parsed and handled by the
    publisher, has exactly the effect of its values: each block looks up its
    round trip in order, and the reference time joins the queue of answers. *)
Theorem subscribe_reports_understood tracks controlSSRC now at_ n reports st st' :
  is_u32 controlSSRC -> ntp_ok n -> Forall sub_ok reports -> (length reports < 32)%nat ->
  onDatagram tracks at_ st (sendSubscribeReports controlSSRC now n reports st').1 =
  let '(st1, calls) :=
    run_all (fun st b => apply_rr at_ st (sb_ssrc b) (sb_lastSR b) (sb_delay now b)) st reports in
  Some (mk (mSenderReportsHistory st1) (mReceiverReferenceTimeReportsHistory st1)
           (enqueue (mOutstandingQueue st1) (mkRRTR controlSSRC at_ n)), calls).
Proof.
  intros Hc Hn Hr Hlen. unfold onDatagram, sendSubscribeReports. cbn [fst].
  rewrite subscribe_packets_ok by done. cbn [mbind option_bind]. rewrite subscribe_packets_eq.
  case_bool_decide as Hempty.
  - subst reports. cbn [app run_all]. by apply onReceived_rrtr.
  - cbn [app]. rewrite onReceived_cons, onReceived_rr by done.
    destruct (run_all _ st reports) as [st1 calls]. cbn [mbind option_bind].
    rewrite onReceived_rrtr by done. cbn [mbind option_bind]. by rewrite app_nil_r.
Qed.

Definition demo_state : state :=
  mk (ReportsHistory.save ReportsHistory.make 1000 (mkNtp 7 (2 ^ 31)) 5000000) ∅ [].

Definition demo_reports : list SubscribeReport :=
  [mkSub 1000 70000 (Some (mkNtp 7 (2 ^ 31), 25000000)); mkSub 2000 5 None].

Lemma subscribe_reports_understood_witness :
  onDatagram [] 90000000 demo_state
    (sendSubscribeReports 42 60000000 (mkNtp 9 11) demo_reports demo_state).1 =
  let '(st1, calls) :=
    run_all (fun st b => apply_rr 90000000 st (sb_ssrc b) (sb_lastSR b) (sb_delay 60000000 b))
      demo_state demo_reports in
  Some (mk (mSenderReportsHistory st1) (mReceiverReferenceTimeReportsHistory st1)
           (enqueue (mOutstandingQueue st1) (mkRRTR 42 90000000 (mkNtp 9 11))), calls).
Proof.
  apply subscribe_reports_understood.
  - by vm_compute.
  - by vm_compute.
  - repeat constructor; by vm_compute.
  - simpl. lia.
Defined.


(** *** The publisher's reports *)

Definition pub_ok (b : PublishReport) : Prop :=
  is_u32 (Track.mSSRC (pb_track b)) /\ ntp_ok (pb_ntp b) /\ is_u32 (pb_rtp b).

Definition sr_calls (tracks : list Track.t) (at_ : Z) (b : PublishReport) : list call :=
  match findReceiveTrack tracks (Track.mSSRC (pb_track b)) with
  | Some track => [CallSenderReport track
      (mkSR at_ (pb_ntp b) (pb_rtp b) (u32 (pb_packets b)) (u32 (pb_bytes b)))]
  | None => []
  end.

(** A datagram of one packet whose payload is a whole number of words. *)
Lemma onDatagram_one tracks at_ st p :
  RtcpPacket.wf p -> (length (RtcpPacket.mPayload p) mod 4 = 0)%nat ->
  onDatagram tracks at_ st (RtcpPacket.generate p) = onReceivedControlPacket tracks at_ st p.
Proof.
  intros Hp Hl. unfold onDatagram.
  replace (RtcpPacket.generate p) with (RtcpPacket.combine [p]) by (apply app_nil_r).
  rewrite RtcpPacket.fromUdpPacket_combine by (by constructor). cbn [map].
  rewrite received_aligned by done. cbn [mbind option_bind onReceivedControlPackets].
  destruct (onReceivedControlPacket tracks at_ st p) as [[st' calls]|]; [|done].
  cbn [mbind option_bind]. by rewrite app_nil_r.
Qed.

Lemma onDatagram_sr tracks at_ st b :
  pub_ok b ->
  onDatagram tracks at_ st (RtcpPacket.generate
    (senderReport (pb_track b) (pb_ntp b) (pb_rtp b) (pb_packets b) (pb_bytes b))) =
  Some (st, sr_calls tracks at_ b).
Proof.
  intros (Hs & [Hn Hf] & Hr).
  assert (RtcpPacket.mPayload (senderReport (pb_track b) (pb_ntp b) (pb_rtp b) (pb_packets b) (pb_bytes b)) =
    be_bytes 4 (seconds (pb_ntp b)) ++ be_bytes 4 (fraction (pb_ntp b)) ++ be_bytes 4 (pb_rtp b) ++
    be_bytes 4 (u32 (pb_packets b)) ++ be_bytes 4 (u32 (pb_bytes b))) as E.
  { unfold senderReport. cbn [RtcpPacket.mPayload]. by rewrite !Wire.writeU32_be, <- !app_assoc. }
  rewrite onDatagram_one.
  2:{ split; rewrite ?E; try done; try (cbn; lia).
      rewrite !bytes_ok_app. repeat split; apply be_bytes_ok. }
  2:{ by rewrite E, !length_app, !length_be_bytes. }
  unfold onReceivedControlPacket.
  change (RtcpPacket.mPayloadId (senderReport _ _ _ _ _)) with 200. cbn [Z.eqb Pos.eqb].
  rewrite E, ByteReader.make_reader_at. unfold onSR, sr_calls.
  change (RtcpPacket.mSSRC (senderReport _ _ _ _ _)) with (Track.mSSRC (pb_track b)).
  destruct (findReceiveTrack _ _) as [track|]; [|done].
  rewrite ByteReader.remaining_at, !length_app, !length_be_bytes. cbn [Nat.leb Nat.add].
  rewrite <- (app_nil_r (be_bytes 4 (u32 (pb_bytes b)))).
  pose proof (u32_range (pb_packets b)). pose proof (u32_range (pb_bytes b)).
  read_be. cbn [mbind option_bind]. by destruct (pb_ntp b).
Qed.

Definition dlrr_payload (now : Z) (qs : list ReceiverReferenceTimeReport) : list Z :=
  concat (map (fun q => dlrr_bytes (rr_ssrc q) (getNtpTimeMiddleMarker (rr_ntp q)) (dlrr_delay now q)) qs).

Lemma dlrr_payload_ok now qs :
  length (dlrr_payload now qs) = (4 * (4 * length qs))%nat /\ bytes_ok (dlrr_payload now qs).
Proof.
  unfold dlrr_payload. induction qs as [|q qs [IHl IHb]]; [by split; [|constructor]|].
  cbn [map concat length]. rewrite length_app, length_dlrr_bytes, IHl. split; [lia|].
  apply bytes_ok_app. split; [|done]. unfold dlrr_bytes. rewrite !bytes_ok_app.
  repeat split; apply be_bytes_ok.
Qed.

Lemma onDatagram_dlrr tracks now at_ st controlSSRC qs :
  is_u32 controlSSRC -> Forall rrtr_ok qs -> (length qs <= kMaxDlrrResponseSize)%nat ->
  onDatagram tracks at_ st (RtcpPacket.generate
    (RtcpPacket.mk controlSSRC 0 RtcpPacket.kExtendedReport (dlrr_payload now qs))) =
  Some (run_all (fun st q =>
    apply_dlrr at_ st (rr_ssrc q) (getNtpTimeMiddleMarker (rr_ntp q)) (dlrr_delay now q)) st qs).
Proof.
  intros Hc Hq Hlen. destruct (dlrr_payload_ok now qs) as [El Eb]. unfold kMaxDlrrResponseSize in Hlen.
  rewrite onDatagram_one.
  2:{ split; cbn [RtcpPacket.mSSRC RtcpPacket.mRC RtcpPacket.mPayloadId RtcpPacket.mPayload];
      try done; rewrite ?El; lia. }
  2:{ cbn [RtcpPacket.mPayload]. rewrite El. apply mod4_mult. }
  unfold onReceivedControlPacket.
  cbn [RtcpPacket.mPayloadId RtcpPacket.kExtendedReport Z.eqb Pos.eqb RtcpPacket.mPayload].
  rewrite ByteReader.make_reader_at. apply onXR_dlrr; [lia|done].
Qed.

Lemma onDatagrams_app tracks at_ l1 l2 : forall st st' calls,
  onDatagrams tracks at_ st l1 = Some (st', calls) ->
  onDatagrams tracks at_ st (l1 ++ l2) =
  ('(st'', more) ← onDatagrams tracks at_ st' l2; Some (st'', calls ++ more)).
Proof.
  induction l1 as [|d l1 IH]; intros st st' calls; cbn [onDatagrams app].
  - intros [= -> <-]. by destruct (onDatagrams _ _ _ l2) as [[? ?]|].
  - intros H. apply bind_Some_inv in H as ([st1 c1] & -> & H). cbn [mbind option_bind].
    apply bind_Some_inv in H as ([st2 c2] & H2 & [= -> <-]). rewrite (IH _ _ _ H2).
    destruct (onDatagrams _ _ st' l2) as [[? ?]|]; cbn [mbind option_bind]; [|done]. by rewrite app_assoc.
Qed.

(** the reports of a publisher, serialized, parsed and handled by the
    subscriber, have exactly the effect of their values: one sender report per
    track the subscriber knows, then the answers to at most twenty-five
    reference time reports, oldest first; the answered ones leave the
    publisher's queue. *)
Theorem publish_reports_understood tracks controlSSRC now at_ reports st st' :
  is_u32 controlSSRC -> Forall pub_ok reports -> Forall rrtr_ok (mOutstandingQueue st) ->
  let answered := take kMaxDlrrResponseSize (mOutstandingQueue st) in
  let '(datagrams, after) := sendPublishReports controlSSRC now reports st in
  let '(st1, calls) :=
    run_all (fun st q =>
      apply_dlrr at_ st (rr_ssrc q) (getNtpTimeMiddleMarker (rr_ntp q)) (dlrr_delay now q)) st' answered in
  onDatagrams tracks at_ st' datagrams =
    Some (st1, concat (map (sr_calls tracks at_) reports) ++ calls) /\
  mOutstandingQueue st = answered ++ mOutstandingQueue after.
Proof.
  intros Hc Hr Hq answered. unfold sendPublishReports.
  assert (forall st, onDatagrams tracks at_ st (map (fun b => RtcpPacket.generate
    (senderReport (pb_track b) (pb_ntp b) (pb_rtp b) (pb_packets b) (pb_bytes b))) reports) =
    Some (st, concat (map (sr_calls tracks at_) reports))) as Hsr.
  { intros s. induction Hr as [|b reports Hb Hr IH]; [done|]. cbn [map concat onDatagrams].
    rewrite onDatagram_sr by done. cbn [mbind option_bind]. by rewrite IH. }
  case_bool_decide as Hnil.
  - assert (answered = []) as -> by (unfold answered; by rewrite Hnil).
    cbn [run_all mOutstandingQueue]. by rewrite app_nil_r, Hsr.
  - destruct (run_all _ st' answered) as [st1 calls] eqn:Er. cbn [mOutstandingQueue]. split.
    + rewrite (onDatagrams_app _ _ _ _ _ _ _ (Hsr st')). cbn [onDatagrams].
      fold answered. rewrite (fold_write_concat _ _ answered [] (write_dlrr_be now)). cbn [app].
      fold (dlrr_payload now answered). rewrite onDatagram_dlrr, Er; [| done | |].
      * cbn [mbind option_bind]. by rewrite app_nil_r.
      * by apply Forall_take.
      * unfold answered. rewrite length_take. lia.
    + unfold answered. by rewrite take_drop.
Qed.

Definition demo_tracks : list Track.t :=
  [TrackBuilder.nack (TrackBuilder.make (Media.make [] Video) Publish 1000 96 90000) true].

Definition demo_publish_state : state :=
  mk ∅ (ReportsHistory.save ReportsHistory.make 42 (mkNtp 9 11) 0)
     (map (fun i => mkRRTR (42 + i) 0 (mkNtp 9 11)) (seqZ 0 30)).

Lemma publish_reports_understood_witness :
  let reports := [mkPub (TrackBuilder.make (Media.make [] Video) Publish 1000 96 90000) (mkNtp 7 8) 9 10 11 0] in
  let answered := take kMaxDlrrResponseSize (mOutstandingQueue demo_publish_state) in
  let '(datagrams, after) := sendPublishReports 77 1000000 reports demo_publish_state in
  let '(st1, calls) :=
    run_all (fun st q =>
      apply_dlrr 2000000 st (rr_ssrc q) (getNtpTimeMiddleMarker (rr_ntp q)) (dlrr_delay 1000000 q))
      demo_publish_state answered in
  onDatagrams demo_tracks 2000000 demo_publish_state datagrams =
    Some (st1, concat (map (sr_calls demo_tracks 2000000) reports) ++ calls) /\
  mOutstandingQueue demo_publish_state = answered ++ mOutstandingQueue after.
Proof.
  apply publish_reports_understood.
  - by vm_compute.
  - repeat constructor; by vm_compute.
  - apply list.Forall_forall. intros q. unfold demo_publish_state. cbn [mOutstandingQueue].
    rewrite list_elem_of_fmap. intros (i & -> & Hi%elem_of_seqZ). unfold rrtr_ok, ntp_ok, is_u32. simpl. lia.
Defined.

(** *** Negative acknowledgements, end to end *)

Lemma onDatagram_nack tracks at_ st ssrc seq blp :
  is_u32 ssrc -> is_u16 seq -> is_u16 blp ->
  onDatagram tracks at_ st (RtcpPacket.generate (RtcpPacket.mk 0 1 RtcpPacket.kFeedback
    (ByteWriter.writeU16 (ByteWriter.writeU16 (ByteWriter.writeU32 [] ssrc) seq) blp))) =
  Some (st, [CallNacked ssrc (Nack.missingSeqList seq blp)]).
Proof.
  intros Hs Hq Hb. rewrite Wire.writeU32_be, !Wire.writeU16_be. cbn [app]. rewrite <- app_assoc.
  rewrite onDatagram_one.
  2:{ split; cbn [RtcpPacket.mSSRC RtcpPacket.mRC RtcpPacket.mPayloadId RtcpPacket.mPayload]; try done.
      rewrite !bytes_ok_app. repeat split; apply be_bytes_ok. }
  2:{ cbn [RtcpPacket.mPayload]. by rewrite !length_app, !length_be_bytes. }
  unfold onReceivedControlPacket.
  cbn [RtcpPacket.mPayloadId RtcpPacket.kFeedback Z.eqb Pos.eqb RtcpPacket.mPayload RtcpPacket.mRC].
  rewrite ByteReader.make_reader_at, ByteReader.remaining_at, !length_app, !length_be_bytes.
  cbn [Nat.leb Nat.add]. read_be. cbn [mbind option_bind onNACK].
  rewrite ByteReader.remaining_at, !length_app, !length_be_bytes. cbn [Nat.leb Nat.add].
  rewrite <- (app_nil_r (be_bytes 2 blp)). read_be. cbn [mbind option_bind].
  by rewrite ByteReader.remaining_at.
Qed.

(** C32: a request for missing packets reaches the sender: the packets that
    [sendNacks] emits for a list of distinct sequence numbers, parsed and
    handled at the other end, ask for exactly these numbers of this stream, in
    no more packets than numbers. *)
Theorem nack_delivered tracks at_ st track nackList :
  Track.mHasNack track = true -> is_u32 (Track.mSSRC track) -> Forall is_u16 nackList -> NoDup nackList ->
  exists packets asked,
    Nack.sendNacks true track nackList = Some packets /\ (length packets <= length nackList)%nat /\
    onDatagrams tracks at_ st (map RtcpPacket.generate packets) =
      Some (st, map (CallNacked (Track.mSSRC track)) asked) /\
    forall s, s ∈ concat asked <-> s ∈ nackList.
Proof.
  intros Hn Hs Hl Hd.
  destruct (Nack.compress_loop_ok (length nackList) nackList) as (pairs & Ec & Hlen & Hok & Hel); try done.
  assert (exists packets, Nack.sendNacks true track nackList = Some packets /\
    packets = map (fun '(seq, blp) =>
      RtcpPacket.mk 0 1 RtcpPacket.kFeedback
        (ByteWriter.writeU16 (ByteWriter.writeU16 (ByteWriter.writeU32 [] (Track.mSSRC track)) seq) blp)) pairs)
    as (packets & -> & ->).
  { unfold Nack.sendNacks, Nack.compressNackList. rewrite Hn. cbn [negb].
    case_bool_decide as Hnil; [|rewrite Ec; cbn [mbind option_bind]; by eexists].
    subst nackList. cbn in Ec. injection Ec as <-. by exists []. }
  eexists _, (map (fun pr => Nack.missingSeqList pr.1 pr.2) pairs). split; [done|].
  split; [by rewrite length_map|]. split; [|done]. clear -Hs Hok.
  induction Hok as [|[seq blp] pairs [Hq Hb] Hok IH]; [done|].
  cbn [map onDatagrams fst snd]. rewrite onDatagram_nack by done.
  cbn [mbind option_bind]. by rewrite IH.
Qed.

Lemma nack_delivered_witness :
  exists packets asked,
    Nack.sendNacks true (TrackBuilder.nack (TrackBuilder.make (Media.make [] Video) Subscribe 1000 96 90000) true)
      [65530; 65535; 3; 40; 41] = Some packets /\
    (length packets <= length [65530; 65535; 3; 40; 41])%nat /\
    onDatagrams demo_tracks 0 demo_state (map RtcpPacket.generate packets) =
      Some (demo_state, map (CallNacked 1000) asked) /\
    forall s, s ∈ concat asked <-> s ∈ [65530; 65535; 3; 40; 41].
Proof.
  apply (nack_delivered demo_tracks 0 demo_state
    (TrackBuilder.nack (TrackBuilder.make (Media.make [] Video) Subscribe 1000 96 90000) true)).
  - reflexivity.
  - by vm_compute.
  - repeat constructor; by vm_compute.
  - apply (bool_decide_unpack _). by vm_compute.
Defined.

End Control.
