(* ===== verification/Annexb.v ===== *)
(** * Annex B byte streams: the NALU parser and what the codecs know of a NALU

    [NaluParser] (the same code in src/codec_h264.cpp and src/codec_h265.cpp),
    [H264Codec] and [H265Codec]: the type of a NALU and the start of a frame. *)

From S2P Require Import Prelude Bytes.

(** ** NaluParser *)

Module NaluParser.

Section Buffer.
Variable buf : list Z.

(** [buf[pos] == v]; [None] is an access behind the buffer. *)
Definition at_is (pos : nat) (v : Z) : option bool := (fun b : Z => b =? v) <$> (buf !! pos).

(** [&&] over array accesses: stops at the first that fails. *)
Definition and_then (a : option bool) (b : option bool) : option bool :=
  match a with Some true => b | Some false => Some false | None => None end.

(** [pos < end - n] in [size_t]: the subtraction wraps for short buffers. *)
Definition below (pos end_ n : nat) : bool := Z.of_nat pos <? u64 (Z.of_nat end_ - Z.of_nat n).

Definition is_nalu_4 (pos end_ : nat) : option bool :=
  if below pos end_ 4 then
    and_then (at_is pos 0) (and_then (at_is (pos + 1) 0) (and_then (at_is (pos + 2) 0) (at_is (pos + 3) 1)))
  else Some false.

Definition is_nalu_3 (pos end_ : nat) : option bool :=
  if below pos end_ 3 then
    and_then (at_is pos 0) (and_then (at_is (pos + 1) 0) (at_is (pos + 2) 1))
  else Some false.

(** The position of the next start code and its length, [end] and 0 if there
    is none.  The loop runs at most [end - pos] times. *)
Fixpoint find_loop (fuel pos end_ : nat) : option (nat * nat) :=
  if (pos <? end_)%nat then
    match fuel with
    | O => None
    | S fuel =>
        four ← is_nalu_4 pos end_;
        if (four : bool) then Some (pos, 4%nat)
        else
          three ← is_nalu_3 pos end_;
          if (three : bool) then Some (pos, 3%nat)
          else find_loop fuel (pos + 1) end_
    end
  else Some (end_, 0%nat).

Definition find_next_nalu (pos end_ : nat) : option (nat * nat) := find_loop (end_ - pos) pos end_.

Record t := mk { mPos : nat; mSkip : nat; mNextPos : nat; mNextSkip : nat }.

Definition mSize : nat := length buf.

Definition make : option t :=
  '(pos, skip) ← find_next_nalu 0 mSize;
  '(nextPos, nextSkip) ← find_next_nalu (pos + skip) mSize;
  Some (mk pos skip nextPos nextSkip).

Definition valid (p : t) : bool := (mPos p <? mSize)%nat.
Definition isAtStart (p : t) : bool := (mPos p =? 0)%nat.
Definition isAtEnd (p : t) : bool := (mSize <=? mNextPos p)%nat.

Definition next (p : t) : option t :=
  '(nextPos, nextSkip) ← find_next_nalu (mNextPos p + mNextSkip p) mSize;
  Some (mk (mNextPos p) (mNextSkip p) nextPos nextSkip).

Definition currData (p : t) : list Z :=
  take (mNextPos p - mPos p - mSkip p) (drop (mPos p + mSkip p) buf).

Definition currNalu (p : t) : list Z := take (mNextPos p - mPos p) (drop (mPos p) buf).

(** The byte that [currType] reads: it may lie behind the NALU's data. *)
Definition currByte (p : t) : option Z := buf !! (mPos p + mSkip p)%nat.

(** The [for (NaluParser parser(buf); parser; parser.next())] loop: what a round sees of
    the parser, its type byte, data and whether it is the last. *)
Record nalu := mkNalu { n_byte : Z; n_data : list Z; n_last : bool }.

Fixpoint for_loop (fuel : nat) (p : t) : option (list nalu) :=
  if valid p then
    match fuel with
    | O => None
    | S fuel =>
        b ← currByte p;
        p' ← next p;
        rest ← for_loop fuel p';
        Some (mkNalu b (currData p) (isAtEnd p) :: rest)
    end
  else Some [].

(** Every round moves by at least one byte. *)
Definition nalus : option (list nalu) := p ← make; for_loop (S mSize) p.

End Buffer.

(** *** Encoding and the round trip *)

Definition start_code (four : bool) : list Z := if four then [0; 0; 0; 1] else [0; 0; 1].

(** A stream: each NALU behind a start code of three or four bytes. *)
Definition stream (l : list (bool * list Z)) : list Z :=
  concat (map (fun x => start_code x.1 ++ x.2) l).

(** No start code inside the bytes. *)
Fixpoint no_start_code (d : list Z) : bool :=
  match d with
  | a :: ((b :: c :: _) as rest) => negb ((a =? 0) && (b =? 0) && (c =? 1)) && no_start_code rest
  | _ => true
  end.

(** The data of a NALU, as the codecs guarantee it: not empty, no start code inside
    (emulation prevention), no zero at the end (the trailing bits). *)
Definition wf_data (d : list Z) : Prop :=
  d <> [] /\ no_start_code d = true /\ list.last d <> Some 0.

Fixpoint parsed (l : list (bool * list Z)) : list nalu :=
  match l with
  | [] => []
  | (_, d) :: rest => mkNalu (default 0 (head d)) d (bool_decide (rest = [])) :: parsed rest
  end.

Lemma below_spec pos end_ n :
  (n <= end_)%nat -> Z.of_nat end_ < 2 ^ 64 -> below pos end_ n = (pos <? end_ - n)%nat.
Proof.
  intros Hn He. unfold below. rewrite u64_small by (unfold is_u64; lia).
  destruct (Z.ltb_spec (Z.of_nat pos) (Z.of_nat end_ - Z.of_nat n)), (Nat.ltb_spec pos (end_ - n)); lia.
Qed.

(** What the two tests see at a position, as a test on the suffix. *)
Definition starts_4 (s : list Z) : bool :=
  match s with a :: b :: c :: d :: _ :: _ => (a =? 0) && (b =? 0) && (c =? 0) && (d =? 1) | _ => false end.
Definition starts_3 (s : list Z) : bool :=
  match s with a :: b :: c :: _ :: _ => (a =? 0) && (b =? 0) && (c =? 1) | _ => false end.

Lemma lookup_drop_at (buf : list Z) pos s k : drop pos buf = s -> buf !! (pos + k)%nat = s !! k.
Proof. intros <-. by rewrite lookup_drop. Qed.

Lemma is_nalu_4_suffix buf pos s :
  (4 <= length buf)%nat -> Z.of_nat (length buf) < 2 ^ 64 -> drop pos buf = s ->
  is_nalu_4 buf pos (length buf) = Some (starts_4 s).
Proof.
  intros H4 Hl Hs. unfold is_nalu_4. rewrite below_spec by lia.
  assert (length s = length buf - pos)%nat as El by (rewrite <- Hs; apply length_drop).
  destruct (Nat.ltb_spec pos (length buf - 4)).
  - do 5 (destruct s as [|? s]; [simpl in El; lia|]). unfold at_is.
    rewrite <- (Nat.add_0_r pos) at 1. rewrite !(lookup_drop_at _ _ _ _ Hs). cbn.
    by repeat (match goal with |- context [?a =? ?b] => destruct (a =? b) end; cbn).
  - do 5 (destruct s as [|? s]; [done|]). simpl in El. lia.
Qed.

Lemma is_nalu_3_suffix buf pos s :
  (4 <= length buf)%nat -> Z.of_nat (length buf) < 2 ^ 64 -> drop pos buf = s ->
  is_nalu_3 buf pos (length buf) = Some (starts_3 s).
Proof.
  intros H4 Hl Hs. unfold is_nalu_3. rewrite below_spec by lia.
  assert (length s = length buf - pos)%nat as El by (rewrite <- Hs; apply length_drop).
  destruct (Nat.ltb_spec pos (length buf - 3)).
  - do 4 (destruct s as [|? s]; [simpl in El; lia|]). unfold at_is.
    rewrite <- (Nat.add_0_r pos) at 1. rewrite !(lookup_drop_at _ _ _ _ Hs). cbn.
    by repeat (match goal with |- context [?a =? ?b] => destruct (a =? b) end; cbn).
  - do 4 (destruct s as [|? s]; [done|]). simpl in El. lia.
Qed.

(** The search on the suffix. *)
Fixpoint scan (s : list Z) (pos : nat) : nat * nat :=
  match s with
  | [] => (pos, 0%nat)
  | _ :: s' => if starts_4 s then (pos, 4%nat) else if starts_3 s then (pos, 3%nat) else scan s' (S pos)
  end.

Lemma find_loop_scan buf : (4 <= length buf)%nat -> Z.of_nat (length buf) < 2 ^ 64 ->
  forall fuel pos s, (pos <= length buf)%nat -> drop pos buf = s -> fuel = (length buf - pos)%nat ->
  find_loop buf fuel pos (length buf) = Some (scan s pos).
Proof.
  intros H4 Hl. induction fuel as [|fuel IH]; intros pos s Hp Hs Hf.
  - cbn [find_loop]. destruct (Nat.ltb_spec pos (length buf)); [lia|].
    assert (s = []) as -> by (apply nil_length_inv; rewrite <- Hs, length_drop; lia).
    cbn. do 2 f_equal. lia.
  - cbn [find_loop]. destruct (Nat.ltb_spec pos (length buf)); [|lia].
    rewrite (is_nalu_4_suffix _ _ _ H4 Hl Hs), (is_nalu_3_suffix _ _ _ H4 Hl Hs). cbn [mbind option_bind].
    destruct s as [|x s]; [apply (f_equal length) in Hs; rewrite length_drop in Hs; simpl in Hs; lia|].
    cbn [scan]. destruct (starts_4 (x :: s)); [done|]. destruct (starts_3 (x :: s)); [done|].
    rewrite (IH (pos + 1)%nat s); [by rewrite Nat.add_1_r|lia| |lia].
    by rewrite <- drop_drop, Hs.
Qed.

(** *** Scanning a stream *)

(** No start code begins inside a NALU, even with the next one right behind it. *)
Lemma scan_data d : forall pos rest,
  no_start_code d = true -> (d = [] \/ list.last d <> Some 0) ->
  (rest = [] \/ exists four d' r, rest = start_code four ++ d' ++ r /\ d' <> []) ->
  scan (d ++ rest) pos =
  match rest with
  | [] => (pos + length d, 0)%nat
  | _ => ((pos + length d)%nat, if starts_4 rest then 4%nat else 3%nat)
  end.
Proof.
  induction d as [|a d IH]; intros pos rest Hn Hlast Hrest.
  - cbn [app length]. rewrite Nat.add_0_r.
    destruct Hrest as [->|(four & d' & r & -> & Hd')]; [done|].
    destruct d' as [|x d']; [done|]. cbn [app]. by destruct four, (d' ++ r).
  - assert (d <> [] \/ d = []) as [Hd|Hd] by (destruct d; auto).
    + assert (no_start_code d = true /\ (d = [] \/ list.last d <> Some 0)) as [Hn' Hlast'].
      { split.
        - destruct d as [|b [|c d]]; [done|done|]. cbn [no_start_code] in Hn.
          apply andb_true_iff in Hn as [_ Hn]. exact Hn.
        - right. destruct Hlast as [?|Hlast]; [done|]. destruct d; [done|exact Hlast]. }
      cbn [app scan]. rewrite (IH (S pos)) by done.
      assert (starts_3 (a :: d ++ rest) = false /\ starts_4 (a :: d ++ rest) = false) as [-> ->].
      { destruct d as [|b [|c d]]; [done| |].
        - (* two bytes left: the second is not zero *)
          destruct Hlast as [?|Hlast]; [done|]. cbn in Hlast.
          assert (b <> 0) as Hb by congruence. apply Z.eqb_neq in Hb. cbn [app starts_3 starts_4].
          split; destruct rest as [|? [|? [|? ?]]]; try done; rewrite Hb; by destruct (a =? 0).
        - cbn [no_start_code] in Hn. apply andb_true_iff in Hn as [Hn Hn2]. apply negb_true_iff in Hn.
          cbn [app starts_3 starts_4]. split.
          + destruct (d ++ rest); [done|exact Hn].
          + destruct d as [|e d].
            * destruct Hlast as [?|Hlast]; [done|]. cbn in Hlast.
              assert (c <> 0) as Hc by congruence. apply Z.eqb_neq in Hc.
              cbn [app]. destruct rest as [|? [|? ?]]; try done. rewrite Hc. by destruct (a =? 0), (b =? 0).
            * cbn [app]. cbn [no_start_code] in Hn2. apply andb_true_iff in Hn2 as [Hn2 _].
              apply negb_true_iff in Hn2. destruct (d ++ rest); [done|].
              destruct (a =? 0), (b =? 0), (c =? 0), (e =? 1); done. }
      destruct rest; cbn [length]; f_equal; lia.
    + subst d. cbn [app scan length].
      destruct Hlast as [?|Hlast]; [done|]. cbn in Hlast.
      assert (a <> 0) as Ha by congruence. apply Z.eqb_neq in Ha.
      assert (starts_3 (a :: rest) = false /\ starts_4 (a :: rest) = false) as [-> ->].
      { cbn [starts_3 starts_4]. split; destruct rest as [|? [|? [|? [|? ?]]]]; try done; by rewrite Ha. }
      destruct Hrest as [->|(four & d' & r & -> & Hd')].
      * cbn. f_equal. lia.
      * destruct d' as [|x d']; [done|]. cbn [app]. destruct four, (d' ++ r); cbn; f_equal; lia.
Qed.

Definition skip_of (l : list (bool * list Z)) : nat :=
  match l with [] => 0 | (four, _) :: _ => length (start_code four) end.

Lemma stream_shape l :
  Forall (fun x => wf_data x.2) l ->
  stream l = [] \/ exists four d' r, stream l = start_code four ++ d' ++ r /\ d' <> [].
Proof.
  destruct 1 as [|[four d] l [Hd _] Hl]; [by left|]. right. exists four, d, (stream l).
  split; [|done]. unfold stream. cbn [map concat fst snd]. by rewrite <- app_assoc.
Qed.

Lemma find_stream buf pre d l :
  (4 <= length buf)%nat -> Z.of_nat (length buf) < 2 ^ 64 ->
  buf = pre ++ d ++ stream l -> no_start_code d = true -> (d = [] \/ list.last d <> Some 0) ->
  Forall (fun x => wf_data x.2) l ->
  find_next_nalu buf (length pre) (length buf) = Some ((length pre + length d)%nat, skip_of l).
Proof.
  intros H4 Hmax -> Hn Hlast Hl. unfold find_next_nalu.
  rewrite (find_loop_scan _ H4 Hmax _ _ (d ++ stream l)); [|rewrite length_app; lia|by apply drop_length_app|done].
  rewrite scan_data; [|done..|by apply stream_shape].
  destruct Hl as [|[four d'] l [Hd' _] Hl]; [done|].
  unfold stream. cbn [map concat fst snd skip_of].
  destruct d' as [|x d']; [done|]. rewrite <- app_assoc. cbn [app].
  by destruct four, (d' ++ concat (map (fun x => start_code x.1 ++ x.2) l)).
Qed.

(** The parser's state in front of the NALUs [l]. *)
Definition parser_at (pre : list Z) (l : list (bool * list Z)) : t :=
  match l with
  | [] => mk (length pre) 0 (length pre) 0
  | (four, d) :: rest =>
      let n := length (start_code four) in mk (length pre) n (length pre + n + length d) (skip_of rest)
  end.

Lemma start_code_length four : (3 <= length (start_code four) <= 4)%nat.
Proof. destruct four; simpl; lia. Qed.

(** The search behind a NALU finds the end of the next one. *)
Lemma find_after buf pre l :
  (4 <= length buf)%nat -> Z.of_nat (length buf) < 2 ^ 64 ->
  buf = pre ++ stream l -> Forall (fun x => wf_data x.2) l ->
  find_next_nalu buf (length pre + skip_of l) (length buf) =
    Some (match l with [] => (length buf, 0)%nat
          | (g, e) :: r => ((length pre + length (start_code g) + length e)%nat, skip_of r) end).
Proof.
  intros H4 Hmax Hbuf Hl. destruct l as [|[g e] r].
  - cbn [skip_of]. rewrite Nat.add_0_r, (find_stream _ pre [] []); try done; [|by left].
    do 2 f_equal. rewrite Hbuf, length_app. cbn. lia.
  - apply list.Forall_cons in Hl as [He Hr]. cbn [snd] in He. destruct He as (? & ? & ?). cbn [skip_of].
    pose proof (find_stream buf (pre ++ start_code g) e r) as Hfs. rewrite length_app in Hfs.
    rewrite Hfs; try done; [|by right].
    rewrite Hbuf. unfold stream. cbn [map concat fst snd]. by rewrite <- !app_assoc.
Qed.

(** One step of the loop returns the NALU and goes on behind it. *)
Lemma for_loop_step fuel buf pre four d l :
  (4 <= length buf)%nat -> Z.of_nat (length buf) < 2 ^ 64 -> d <> [] ->
  buf = pre ++ start_code four ++ d ++ stream l -> Forall (fun x => wf_data x.2) l ->
  for_loop buf (S fuel) (parser_at pre ((four, d) :: l)) =
    (rest ← for_loop buf fuel (parser_at (pre ++ start_code four ++ d) l);
     Some (mkNalu (default 0 (head d)) d (bool_decide (l = [])) :: rest)).
Proof.
  intros H4 Hmax Hne Hbuf Hl. cbn [for_loop parser_at].
  unfold valid, mSize, currByte, next, currData, isAtEnd, mSize. cbn [mPos mSkip mNextPos mNextSkip].
  pose proof (start_code_length four) as Hcode.
  assert (0 < length d)%nat as Hd by (destruct d; [done|cbn [length]; lia]).
  replace (_ <? _)%nat with true by (symmetry; apply Nat.ltb_lt; rewrite Hbuf, !length_app; lia).
  assert (drop (length pre + length (start_code four)) buf = d ++ stream l) as Ed.
  { rewrite <- drop_drop, Hbuf, drop_app_length. apply drop_app_length. }
  rewrite <- (Nat.add_0_r (length pre + length (start_code four))) at 1. rewrite (lookup_drop_at _ _ _ _ Ed).
  assert ((d ++ stream l) !! 0%nat = Some (default 0 (head d))) as -> by (by destruct d).
  cbn [mbind option_bind].
  replace (length pre + length (start_code four) + length d + skip_of l)%nat
    with (length (pre ++ start_code four ++ d) + skip_of l)%nat by (rewrite !length_app; lia).
  rewrite find_after; [|done|done|by rewrite Hbuf, <- !app_assoc|done]. cbn [mbind option_bind].
  replace (_ - length pre - length (start_code four))%nat with (length d) by lia. rewrite Ed, take_app_length.
  assert ((length buf <=? length pre + length (start_code four) + length d)%nat = bool_decide (l = [])) as ->.
  { rewrite Hbuf, !length_app. destruct l as [|[g e] r].
    - cbn. apply Nat.leb_le. lia.
    - cbn. apply Nat.leb_gt. rewrite !length_app. pose proof (start_code_length g). lia. }
  assert (forall q, q = parser_at (pre ++ start_code four ++ d) l ->
    for_loop buf fuel q = for_loop buf fuel (parser_at (pre ++ start_code four ++ d) l)) as Hq by (by intros ? ->).
  destruct l as [|[g e] r]; cbn [mbind option_bind]; (rewrite Hq; [done|]); cbn [parser_at skip_of].
  - f_equal; rewrite ?Hbuf, ?length_app; cbn; lia.
  - f_equal; rewrite ?length_app; lia.
Qed.

Lemma for_loop_stream l : forall fuel pre buf,
  (4 <= length buf)%nat -> Z.of_nat (length buf) < 2 ^ 64 ->
  buf = pre ++ stream l -> Forall (fun x => wf_data x.2) l -> (length l < fuel)%nat ->
  for_loop buf fuel (parser_at pre l) = Some (parsed l).
Proof.
  induction l as [|[four d] l IH]; intros [|fuel] pre buf H4 Hmax Hbuf Hl Hf; try (cbn [length] in Hf; lia).
  - cbn [for_loop parser_at]. unfold valid, mSize. cbn [mPos].
    replace (_ <? _)%nat with false; [done|]. symmetry. apply Nat.ltb_ge.
    rewrite Hbuf, length_app. cbn. lia.
  - apply list.Forall_cons in Hl as [[Hne _] Hl].
    assert (stream ((four, d) :: l) = start_code four ++ d ++ stream l) as Es
      by (unfold stream; cbn [map concat fst snd]; by rewrite <- app_assoc).
    rewrite Es in Hbuf. rewrite for_loop_step by done.
    rewrite IH; [done..|by rewrite Hbuf, <- !app_assoc|done|cbn [length] in Hf; lia].
Qed.

Lemma stream_length l :
  Forall (fun x => wf_data x.2) l -> (4 * length l <= length (stream l))%nat.
Proof.
  induction 1 as [|[four d] l [Hd _] Hl IH]; [done|]. unfold stream in *. cbn [map concat length fst snd].
  rewrite !length_app. pose proof (start_code_length four). destruct d; [done|]. cbn [length]. lia.
Qed.

Lemma nalus_stream l :
  l <> [] -> Forall (fun x => wf_data x.2) l -> Z.of_nat (length (stream l)) < 2 ^ 64 ->
  nalus (stream l) = Some (parsed l).
Proof.
  intros Hne Hl Hmax. pose proof (stream_length l Hl) as Hlen.
  assert (4 <= length (stream l))%nat as H4 by (destruct l; [done|]; cbn [length] in Hlen; lia).
  unfold nalus, make, mSize.
  pose proof (find_stream (stream l) [] [] l H4 Hmax eq_refl eq_refl ltac:(by left) Hl) as E0.
  cbn [length Nat.add] in E0. rewrite E0. cbn [mbind option_bind Nat.add].
  destruct l as [|[four d] l]; [done|]. pose proof Hl as Hl0. apply list.Forall_cons in Hl as [Hd Hl].
  cbn [snd] in Hd. destruct Hd as (Hd & Hn & Hlast).
  pose proof (find_stream (stream ((four, d) :: l)) (start_code four) d l H4 Hmax) as E1.
  cbn [skip_of]. rewrite E1; try done; [|unfold stream; cbn [map concat fst snd]; by rewrite <- app_assoc|by right].
  cbn [mbind option_bind].
  apply (for_loop_stream ((four, d) :: l) _ []); try done. lia.
Qed.

(** C36: the parser returns the NALUs of a stream, each with its data, its type
    byte and the mark on the last, whatever mixture of three- and four-byte
    start codes separates them. *)
Theorem nalus_of_stream l :
  l <> [] -> Forall (fun x => wf_data x.2) l -> Z.of_nat (length (stream l)) < 2 ^ 64 ->
  nalus (stream l) = Some (parsed l).
Proof.
  intros Hne Hl Hmax. apply nalus_stream; done.
Qed.

Definition demo_stream : list (bool * list Z) :=
  [(true, [0x67; 1; 2; 0; 0; 3]); (false, [0x68; 7]); (true, [0x65; 0x88; 0; 0; 3; 0; 9])].

Lemma demo_stream_wf : Forall (fun x => wf_data x.2) demo_stream.
Proof. repeat constructor; vm_compute; congruence. Qed.

Lemma nalus_of_stream_witness :
  nalus (stream demo_stream) = Some (parsed demo_stream).
Proof. apply nalus_of_stream; [discriminate | apply demo_stream_wf | by vm_compute]. Defined.

(** *** Arbitrary bytes *)

Lemma scan_spec s : forall pos q k,
  scan s pos = (q, k) ->
  (pos <= q)%nat /\
  ((q = pos + length s /\ k = 0) \/ (3 <= k /\ q + k < pos + length s))%nat.
Proof.
  induction s as [|x s IH]; intros pos q k; cbn [scan length].
  - intros [= <- <-]. lia.
  - destruct (starts_4 (x :: s)) eqn:E4.
    { intros [= <- <-]. destruct s as [|? [|? [|? [|? ?]]]]; try done. cbn [length]. lia. }
    destruct (starts_3 (x :: s)) eqn:E3.
    { intros [= <- <-]. destruct s as [|? [|? [|? ?]]]; try done. cbn [length]. lia. }
    intros H%IH. lia.
Qed.

Lemma find_next_safe buf pos :
  (4 <= length buf)%nat -> Z.of_nat (length buf) < 2 ^ 64 -> (pos <= length buf)%nat ->
  exists q k, find_next_nalu buf pos (length buf) = Some (q, k) /\ (pos <= q)%nat /\
    ((q = length buf /\ k = 0) \/ (3 <= k /\ q + k < length buf))%nat.
Proof.
  intros H4 Hmax Hp. unfold find_next_nalu. rewrite (find_loop_scan _ H4 Hmax _ _ _ Hp eq_refl eq_refl).
  destruct (scan (drop pos buf) pos) as [q k] eqn:E. exists q, k. split; [done|].
  apply scan_spec in E. rewrite length_drop in E. lia.
Qed.

Definition parser_ok (len : nat) (p : t) : Prop :=
  ((mPos p = len /\ mSkip p = 0) \/ (3 <= mSkip p /\ mPos p + mSkip p < len))%nat /\
  (mPos p + mSkip p <= mNextPos p)%nat /\
  ((mNextPos p = len /\ mNextSkip p = 0) \/ (3 <= mNextSkip p /\ mNextPos p + mNextSkip p < len))%nat.

Lemma for_loop_safe buf : (4 <= length buf)%nat -> Z.of_nat (length buf) < 2 ^ 64 ->
  forall fuel p, parser_ok (length buf) p -> (length buf - mPos p < fuel)%nat ->
  is_Some (for_loop buf fuel p).
Proof.
  intros H4 Hmax. induction fuel as [|fuel IH]; intros p (Hp & Hnext & Hn) Hf; [lia|].
  cbn [for_loop]. unfold valid, mSize. destruct (Nat.ltb_spec (mPos p) (length buf)); [|by eexists].
  unfold currByte. destruct (lookup_lt_is_Some_2 buf (mPos p + mSkip p)) as [b ->]; [lia|].
  cbn [mbind option_bind]. unfold next, mSize.
  destruct (find_next_safe buf (mNextPos p + mNextSkip p)) as (q & k & -> & Hq & Hk); [done|done|lia|].
  cbn [mbind option_bind].
  destruct (IH (mk (mNextPos p) (mNextSkip p) q k)) as [l ->]; [|cbn [mPos]; lia|by eexists].
  split; cbn [mPos mSkip mNextPos mNextSkip]; lia.
Qed.

(** on any frame of at least four bytes the parser ends and reads only
    inside the frame. *)
Theorem nalus_safe buf :
  (4 <= length buf)%nat -> Z.of_nat (length buf) < 2 ^ 64 -> is_Some (nalus buf).
Proof.
  intros H4 Hmax. unfold nalus, make, mSize.
  destruct (find_next_safe buf 0) as (p & k & -> & Hp & Hk); [done|done|lia|]. cbn [mbind option_bind].
  destruct (find_next_safe buf (p + k)) as (q & j & -> & Hq & Hj); [done|done|lia|]. cbn [mbind option_bind].
  apply for_loop_safe; [done|done| |cbn [mPos]; lia].
  split; cbn [mPos mSkip mNextPos mNextSkip]; lia.
Qed.

Lemma nalus_safe_witness : is_Some (nalus [0; 0; 0; 0; 1]).
Proof. apply nalus_safe; [simpl; lia | vm_compute; reflexivity]. Defined.

(** A shorter frame of zeros is read behind its end: [end - 4] wraps around. *)
Example short_frame_reads_outside : nalus [0; 0; 0] = None.
Proof. by vm_compute. Qed.

End NaluParser.

(** ** H.264 *)

Module H264Codec.

Definition kPacket_STAP_A : Z := 24.
Definition kPacket_FU_A : Z := 28.
Definition NonKeyFrame : Z := 1.
Definition KeyFrame : Z := 5.
Definition SEI : Z := 6.
Definition SPS : Z := 7.
Definition PPS : Z := 8.

Definition currType (byte : Z) : Z := Z.land byte 0x1F.

Definition isParameterNalu (naluType : Z) : bool := (naluType =? SPS) || (naluType =? PPS).
Definition isKeyFrameNalu (naluType : Z) : bool := naluType =? KeyFrame.
Definition isSliceNalu (naluType : Z) : bool := (naluType =? NonKeyFrame) || (naluType =? KeyFrame).

(** [first_mb_in_slice == 0].  Reading more than thirty leading zeros is
    undefined in the source: [None]. *)
Definition first_mb_is_zero (data : list Z) : option bool :=
  match (BitReader.readUnsignedExpGolomb (BitReader.make data)).1 with
  | Some v => Some (v =? 0)
  | None => None
  end.

Definition isSliceFrameStart (data : list Z) : option bool :=
  match data with [] => Some false | _ => first_mb_is_zero data end.

Definition isFrameStart (nalu : list Z) : option bool :=
  match nalu with
  | b :: ((_ :: _) as rest) =>
      if isSliceNalu (Z.land b 0x1F) then first_mb_is_zero rest else Some false
  | _ => Some false
  end.

End H264Codec.

(** ** H.265 *)

Module H265Codec.

Definition kPacket_AP : Z := 48.
Definition kPacket_FU : Z := 49.
Definition KeyFrame19 : Z := 19.
Definition KeyFrame20 : Z := 20.
Definition KeyFrame21 : Z := 21.
Definition VPS : Z := 32.
Definition SPS : Z := 33.
Definition PPS : Z := 34.

Definition currType (byte : Z) : Z := Z.land (Z.shiftr byte 1) 0x3F.

Definition isParameterNalu (naluType : Z) : bool := (naluType =? VPS) || (naluType =? SPS) || (naluType =? PPS).
Definition isKeyFrameNalu (naluType : Z) : bool :=
  (naluType =? KeyFrame19) || (naluType =? KeyFrame20) || (naluType =? KeyFrame21).
Definition isSliceNalu (naluType : Z) : bool := naluType <=? 21.

(** [first_slice_segment_in_pic_flag]. *)
Definition isFrameStart (nalu : list Z) : bool :=
  match nalu with
  | b :: _ :: d :: _ => if Z.land (Z.shiftr b 1) 0x3F <=? 21 then negb (Z.land d 0x80 =? 0) else false
  | _ => false
  end.

Definition isSliceFrameStart (data : list Z) : bool :=
  match data with [] => false | b :: _ => negb (Z.land b 0x80 =? 0) end.

End H265Codec.
