(* ===== verification/Packets.v ===== *)
(** * Packetizers and depacketizers: what every codec shares

    [PacketKind], [JitterBufferItem] (src/include/srtc/jitter_buffer_item.h),
    the interface [RtpExtensionSource] (src/include/srtc/rtp_extension_source.h)
    as a type class, [Packetizer] (src/packetizer.cpp), [PacketizerVideo]
    (src/packetizer_video.cpp) and [DepacketizerVideo]
    (src/depacketizer_video.cpp). *)

From S2P Require Import Prelude Bytes Extension Tracks Rtp.

Inductive PacketKind := Standalone | Start | Middle | End_.

#[global] Instance PacketKind_eq_dec : EqDecision PacketKind.
Proof. solve_decision. Defined.

(** Times are in nanoseconds of the steady clock. *)
Record JitterBufferItem := mkItem {
  when_received : Z;
  when_dequeue : Z;
  when_nack_request : Z;
  when_nack_abandon : Z;
  received : bool;
  nack_needed : bool;
  kind : PacketKind;
  seq_ext : Z;
  rtp_timestamp_ext : Z;
  marker : bool;
  extension : RtpExtension.t;
  payload : list Z
}.

(** ** Extension sources

    The three virtual methods.  A source has a state of its own: the congestion
    control one numbers the packets it sees. *)

Class RtpExtensionSource (S : Type) := {
  source_getPadding : Track.t -> nat -> S -> Z * S;
  source_wantsExtension : Track.t -> bool -> nat -> S -> bool;
  source_addExtension : Track.t -> bool -> nat -> list Z -> S -> list Z * S
}.

(** The shared objects a packetizer changes: the time source and the packet
    source of the track, and the extension sources. *)
Record env (S : Type) := mkEnv {
  e_time : RtpTimeSource.t;
  e_seq : RtpPacketSource.t;
  e_sources : list S
}.
Arguments mkEnv {_} _ _ _.
Arguments e_time {_} _.
Arguments e_seq {_} _.
Arguments e_sources {_} _.

Definition with_sources {S} (e : env S) (l : list S) : env S := mkEnv (e_time e) (e_seq e) l.

(** [packetSource->getNextSequence()]. *)
Definition nextSequence {S} (e : env S) : (Z * Z) * env S :=
  let '(rs, seq) := RtpPacketSource.getNextSequence (e_seq e) in (rs, mkEnv (e_time e) seq (e_sources e)).

(** [timeSource->getFrameTimestamp(pts_usec)] at clock reading [now]. *)
Definition frameTimestamp {S} (e : env S) (now pts_usec : Z) : Z * env S :=
  let '(ts, time) := RtpTimeSource.getFrameTimestamp (e_time e) now pts_usec in
  (ts, mkEnv time (e_seq e) (e_sources e)).

Lemma frameTimestamp_sources {S} (e : env S) now pts :
  e_sources (frameTimestamp e now pts).2 = e_sources e.
Proof. unfold frameTimestamp. by destruct (RtpTimeSource.getFrameTimestamp _ _ _). Qed.

(** ** Packetizer *)

Module Packetizer.
Section Sources.
Context {S : Type} `{!RtpExtensionSource S}.

(** Sizes are [size_t]: the subtractions wrap. *)
Definition getBasicPacketSize (mediaProtectionOverhead : Z) : Z :=
  u64 (Z.of_nat RtpPacket.kMaxPayloadSize - Z.of_nat RtpPacket.kHeaderSize - mediaProtectionOverhead).

(** The bit mask of the sources that want an extension (at most 32 sources). *)
Fixpoint mask_loop (track : Track.t) (isKeyFrame : bool) (packetNumber : nat) (i : Z) (mask : Z)
  (sources : list S) : Z :=
  match sources with
  | [] => mask
  | s :: rest =>
      mask_loop track isKeyFrame packetNumber (i + 1)
        (if source_wantsExtension track isKeyFrame packetNumber s
         then Z.lor mask (u32 (Z.shiftl 1 i)) else mask) rest
  end.

Fixpoint add_loop (track : Track.t) (isKeyFrame : bool) (packetNumber : nat) (mask i : Z) (buf : list Z)
  (sources : list S) : list Z * list S :=
  match sources with
  | [] => (buf, [])
  | s :: rest =>
      let '(buf, s) :=
        if has_bit mask i then source_addExtension track isKeyFrame packetNumber buf s else (buf, s) in
      let '(buf, rest) := add_loop track isKeyFrame packetNumber mask (i + 1) buf rest in
      (buf, s :: rest)
  end.

Definition buildExtension (track : Track.t) (isKeyFrame : bool) (packetNumber : nat) (sources : list S)
  : RtpExtension.t * list S :=
  let mask := mask_loop track isKeyFrame packetNumber 0 0 sources in
  if negb (mask =? 0) then
    let '(buf, sources) :=
      add_loop track isKeyFrame packetNumber mask 0 RtpExtensionBuilder.make sources in
    (RtpExtensionBuilder.build buf, sources)
  else (RtpExtension.make_empty, sources).

End Sources.
End Packetizer.

(** ** PacketizerVideo *)

Module PacketizerVideo.

Definition kMinPayloadSize : Z := 600.

Section Sources.
Context {S : Type} `{!RtpExtensionSource S}.

Fixpoint padding_loop (track : Track.t) (remainingDataSize : nat) (padding : Z) (sources : list S)
  : Z * list S :=
  match sources with
  | [] => (padding, [])
  | s :: rest =>
      let '(p, s) := source_getPadding track remainingDataSize s in
      let '(padding, rest) := padding_loop track remainingDataSize (Z.max padding p) rest in
      (padding, s :: rest)
  end.

Definition getPadding (track : Track.t) (remainingDataSize : nat) (sources : list S) : Z * list S :=
  if (remainingDataSize <? 300)%nat then (0, sources)
  else padding_loop track remainingDataSize 0 sources.

End Sources.

(** The size that is left for the payload. *)
Definition adjustPacketSize (basicPacketSize padding : Z) (extension : RtpExtension.t) : Z :=
  let sizeLessPadding :=
    if (0 <? padding) && (padding <=? basicPacketSize / 2) then basicPacketSize - padding else basicPacketSize in
  let extensionSize := Z.of_nat (RtpExtension.size extension) in
  if extensionSize =? 0 then sizeLessPadding
  else if basicPacketSize <? u64 (extensionSize + kMinPayloadSize) then sizeLessPadding
  else u64 (sizeLessPadding - extensionSize).

(** The payload keeps at least 88 bytes, whatever the padding and the
    extension, and grows with the size there is. *)
Lemma adjustPacketSize_bounds basic padding extension :
  is_u8 padding -> 176 <= basic < 2 ^ 32 ->
  Z.of_nat (RtpExtension.size extension) < 2 ^ 32 ->
  88 <= adjustPacketSize basic padding extension <= basic.
Proof.
  intros Hp Hb He. unfold adjustPacketSize, kMinPayloadSize, is_u8 in *.
  rewrite (u64_small (_ + 600)) by (unfold is_u64; lia).
  set (less := if (0 <? padding) && _ then _ else _).
  assert (basic - 255 <= less <= basic /\ 88 <= less).
  { unfold less. destruct (Z.ltb_spec 0 padding), (Z.leb_spec padding (basic / 2)); cbn [andb]; zdm. }
  case_match; [lia|]. case_match; [lia|].
  rewrite u64_small by (unfold is_u64; lia). lia.
Qed.

(** With an extension that leaves room for 600 bytes of payload and a padding
    of at most half of the packet, payload, extension and padding fit. *)
Lemma adjustPacketSize_fits basic padding extension :
  is_u8 padding -> 510 <= basic < 2 ^ 32 ->
  Z.of_nat (RtpExtension.size extension) = 0 \/
  Z.of_nat (RtpExtension.size extension) + kMinPayloadSize <= basic ->
  adjustPacketSize basic padding extension + padding + Z.of_nat (RtpExtension.size extension) = basic.
Proof.
  intros Hp Hb He. unfold adjustPacketSize, kMinPayloadSize, is_u8 in *.
  rewrite (u64_small (_ + 600)) by (unfold is_u64; lia).
  assert ((if (0 <? padding) && (padding <=? basic / 2) then basic - padding else basic) = basic - padding) as ->.
  { destruct (Z.ltb_spec 0 padding), (Z.leb_spec padding (basic / 2)); cbn [andb]; zdm. }
  case_match; [lia|]. case_match; [lia|]. rewrite u64_small by (unfold is_u64; lia). lia.
Qed.

Section Prepare.
Context {S : Type} `{!RtpExtensionSource S}.

(** What the video packetizers do before a packet: [getPadding], then
    [buildExtension]. *)
Definition prepare (track : Track.t) (isKey : bool) (packetNumber size : nat) (e : env S)
  : Z * RtpExtension.t * env S :=
  let '(padding, sources) := getPadding track size (e_sources e) in
  let '(extension, sources) := Packetizer.buildExtension track isKey packetNumber sources in
  (padding, extension, with_sources e sources).

End Prepare.

End PacketizerVideo.

(** ** Depacketizers: the interface (src/include/srtc/depacketizer.h) *)

Class Depacketizer (D : Type) := {
  dep_getPacketKind : D -> list Z -> bool -> option PacketKind;
  dep_reset : D -> D;
  dep_extract : D -> list JitterBufferItem -> option (list (list Z) * D)
}.

(** ** DepacketizerVideo *)

Definition getPacketKind (isFrameStart marker : bool) : PacketKind :=
  if isFrameStart then if marker then Standalone else Start
  else if marker then End_ else Middle.

(** ** What the extension sources promise to the packetizers

    [I] is what the lists of sources satisfy: the steps preserve it, the padding
    is a byte, and the extension leaves at least 600 bytes for the payload,
    fragment headers included. *)

Definition small_extension (overhead : Z) (ext : RtpExtension.t) : Prop :=
  0 <= overhead /\ Z.of_nat (RtpExtension.size ext) + overhead <= 580.

Class PacketSources (S : Type) `{!RtpExtensionSource S} (overhead : Z) (I : list S -> Prop) : Prop := {
  sources_padding : forall track n l, I l ->
    is_u8 (PacketizerVideo.getPadding track n l).1 /\ I (PacketizerVideo.getPadding track n l).2;
  sources_extension : forall track isKey n l, I l ->
    small_extension overhead (Packetizer.buildExtension track isKey n l).1 /\
    I (Packetizer.buildExtension track isKey n l).2
}.

(** ** What every packetizer promises of its packets

    [emitted]: the packets carry the frame's timestamp and take the next
    sequence numbers of the track's source, in order. *)

Definition seq_of (p : RtpPacket.t) : Z * Z := (RtpPacket.mRollover p, RtpPacket.mSequence p).

Record emitted {S} (I : list S -> Prop) (track : Track.t) (timestamp : Z) (e : env S)
  (ps : list RtpPacket.t) (e' : env S) : Prop := {
  emitted_fields : Forall (fun p => RtpPacket.mTrack p = track /\ RtpPacket.mTimestamp p = timestamp) ps;
  emitted_sequences : RtpPacketSource.take_sequences (length ps) (e_seq e) = (map seq_of ps, e_seq e');
  emitted_time : e_time e' = e_time e;
  emitted_sources : I (e_sources e')
}.

Lemma take_sequences_app n m s xs s1 ys s2 :
  RtpPacketSource.take_sequences n s = (xs, s1) -> RtpPacketSource.take_sequences m s1 = (ys, s2) ->
  RtpPacketSource.take_sequences (n + m) s = (xs ++ ys, s2).
Proof.
  revert s xs. induction n as [|n IH]; intros s xs; cbn [RtpPacketSource.take_sequences Nat.add].
  - by intros [= <- <-].
  - destruct (RtpPacketSource.getNextSequence s) as [x s'].
    destruct (RtpPacketSource.take_sequences n s') as [zs s''] eqn:E. intros [= <- <-] H.
    by rewrite (IH _ _ E H).
Qed.

(** Each packet has the sequence number behind the one before it. *)
Fixpoint chained (x : Z) (ps : list RtpPacket.t) : Prop :=
  match ps with
  | [] => True
  | p :: ps => RtpPacket.mSequence p = u16 (x + 1) /\ chained (RtpPacket.mSequence p) ps
  end.

Lemma take_sequences_chained ps : forall s s',
  RtpPacketSource.take_sequences (length ps) s = (map seq_of ps, s') ->
  chained (RtpPacketSource.mNextSequence s) ps.
Proof.
  induction ps as [|p ps IH]; intros s s' H; [done|]. cbn [length RtpPacketSource.take_sequences map] in H.
  unfold RtpPacketSource.getNextSequence in H.
  match type of H with context [RtpPacketSource.take_sequences _ ?x] => set (s1 := x) in H end.
  destruct (RtpPacketSource.take_sequences (length ps) s1) as [xs s2] eqn:E. injection H as Hr Hs Hx ->.
  subst xs. cbn [chained]. rewrite <- Hs. split; [done|]. by apply (IH s1 s').
Qed.

Section Emitted.
Context {S : Type} (I : list S -> Prop).
Implicit Types (e : env S) (ps : list RtpPacket.t).

Lemma emitted_nil track ts e l : I l -> emitted I track ts e [] (with_sources e l).
Proof. by split. Qed.

Lemma emitted_refl track ts e : I (e_sources e) -> emitted I track ts e [] e.
Proof. by split. Qed.

Lemma emitted_app track ts e1 ps e2 qs e3 :
  emitted I track ts e1 ps e2 -> emitted I track ts e2 qs e3 -> emitted I track ts e1 (ps ++ qs) e3.
Proof.
  intros [F1 S1 T1 L1] [F2 S2 T2 L2]. split; [by apply list.Forall_app| |congruence|done].
  rewrite length_app, map_app. by eapply take_sequences_app.
Qed.

(** One packet made with the next sequence number. *)
Lemma emitted_next track ts e rollover sequence e' m padding ext pl :
  I (e_sources e) -> nextSequence e = ((rollover, sequence), e') ->
  emitted I track ts e [RtpPacket.make track m rollover sequence ts padding ext pl] e'.
Proof.
  intros HI. unfold nextSequence. destruct (RtpPacketSource.getNextSequence (e_seq e)) as [rs seq] eqn:E.
  intros [= -> <-]. split; [by constructor| |done|done].
  cbn [length RtpPacketSource.take_sequences]. by rewrite E.
Qed.

Lemma nextSequence_sources e x e' : nextSequence e = (x, e') -> e_sources e' = e_sources e.
Proof.
  unfold nextSequence. destruct (RtpPacketSource.getNextSequence (e_seq e)). by intros [= <- <-].
Qed.

End Emitted.

(** [fits]: the packet on the wire, with the overhead of its protection, stays
    below the limit. *)
Definition fits (overhead : Z) (p : RtpPacket.t) : Prop :=
  Z.of_nat (length (RtpPacket.generate p).1) + overhead <= Z.of_nat RtpPacket.kMaxPayloadSize.

Lemma fits_make overhead track m rollover sequence ts padding ext pl :
  is_u8 padding ->
  Z.of_nat (RtpExtension.size ext) + Z.of_nat (length pl) + padding + 12 + overhead <= 1200 ->
  fits overhead (RtpPacket.make track m rollover sequence ts padding ext pl).
Proof.
  intros Hp H. unfold fits. unfold is_u8 in Hp. rewrite RtpPacket.generate_length by (cbn; lia).
  cbn [RtpPacket.make RtpPacket.mExtension RtpPacket.mPayload RtpPacket.mPaddingSize].
  unfold RtpPacket.kHeaderSize, RtpPacket.kMaxPayloadSize. lia.
Qed.

(** The payload size that [adjustPacketSize] leaves, [hdr] bytes of the payload being
    spent on a fragment header. *)
Lemma adjusted overhead hdr padding ext :
  small_extension overhead ext -> is_u8 padding -> 0 <= hdr <= 8 ->
  let size := PacketizerVideo.adjustPacketSize
    (u64 (Packetizer.getBasicPacketSize overhead - hdr)) padding ext in
  88 <= size <= 1200 /\ size + hdr + padding + Z.of_nat (RtpExtension.size ext) + 12 + overhead = 1200.
Proof.
  intros [Ho He] Hp Hh. unfold Packetizer.getBasicPacketSize, RtpPacket.kMaxPayloadSize, RtpPacket.kHeaderSize.
  rewrite (u64_small (Z.of_nat 1200 - _ - _)) by (unfold is_u64; lia).
  rewrite u64_small by (unfold is_u64; lia).
  set (basic := Z.of_nat 1200 - Z.of_nat 12 - overhead - hdr). cbv zeta.
  pose proof (PacketizerVideo.adjustPacketSize_bounds basic padding ext Hp) as Hb.
  pose proof (PacketizerVideo.adjustPacketSize_fits basic padding ext Hp) as Hf.
  unfold PacketizerVideo.kMinPayloadSize in Hf. unfold basic in *. lia.
Qed.

Lemma adjusted_whole overhead padding ext :
  small_extension overhead ext -> is_u8 padding ->
  let size := PacketizerVideo.adjustPacketSize (Packetizer.getBasicPacketSize overhead) padding ext in
  88 <= size <= 1200 /\ size + padding + Z.of_nat (RtpExtension.size ext) + 12 + overhead = 1200.
Proof.
  intros He Hp. pose proof (adjusted overhead 0 padding ext He Hp ltac:(lia)) as H.
  rewrite Z.sub_0_r in H. rewrite u64_small in H; [cbv zeta in *; lia|].
  unfold Packetizer.getBasicPacketSize. apply u64_range.
Qed.

Lemma prepare_ok {S} `{!RtpExtensionSource S} overhead I `{!PacketSources S overhead I}
  track isKey n size (e : env S) :
  I (e_sources e) ->
  let '(padding, ext, e') := PacketizerVideo.prepare track isKey n size e in
  is_u8 padding /\ small_extension overhead ext /\ exists l, e' = with_sources e l /\ I l.
Proof.
  intros HI. unfold PacketizerVideo.prepare.
  destruct (sources_padding (overhead := overhead) track size (e_sources e) HI) as [Hp HI1].
  destruct (PacketizerVideo.getPadding track size (e_sources e)) as [padding sources]. cbn [fst snd] in Hp, HI1.
  destruct (sources_extension track isKey n sources HI1) as [He HI2].
  destruct (Packetizer.buildExtension track isKey n sources) as [ext sources']. cbn [fst snd] in He, HI2.
  split; [done|]. split; [done|]. by exists sources'.
Qed.

(** ** What a depacketizer sees of the packets *)

Definition view (p : RtpPacket.t) : bool * list Z := (RtpPacket.mMarker p, RtpPacket.mPayload p).

(** The item of the jitter buffer that holds such a packet. *)
Definition carries (timestamp : Z) (v : bool * list Z) (item : JitterBufferItem) : Prop :=
  marker item = v.1 /\ payload item = v.2 /\ rtp_timestamp_ext item = timestamp.

Definition unmarked (ps : list RtpPacket.t) : Prop := Forall (fun p => RtpPacket.mMarker p = false) ps.

(** ** Cutting a frame into chunks

    The next chunk of [data] in a packet with room for [size] bytes, and the
    [chunks] of the rest. *)

Lemma next_chunk (data : list Z) size chunks :
  data <> [] -> 0 < size ->
  let n := Z.to_nat (Z.min (Z.of_nat (length data)) size) in
  concat chunks = drop n data -> Forall (fun c => c <> []) chunks ->
  (1 <= n <= length data)%nat /\ length (take n data) = n /\
  bool_decide (chunks = []) = (Z.of_nat (length data) <=? size) /\
  concat (take n data :: chunks) = data /\ Forall (fun c => c <> []) (take n data :: chunks).
Proof.
  intros Hd Hs n Hcat Hne. assert (0 < length data)%nat as Hlen by (destruct data; [done|cbn; lia]).
  assert (1 <= n <= length data)%nat as Hn by (unfold n; lia).
  assert (length (take n data) = n) as Htake by (rewrite length_take; lia).
  split; [done|]. split; [done|]. split; [|split].
  - assert (chunks = [] <-> drop n data = []) as Hnil.
    { rewrite <- Hcat. split; [by intros ->|]. destruct chunks as [|c cs]; [done|].
      apply list.Forall_cons in Hne as [Hc _]. by destruct c. }
    rewrite (bool_decide_ext _ _ Hnil). destruct (Z.leb_spec (Z.of_nat (length data)) size).
    + apply bool_decide_true. apply nil_length_inv. rewrite length_drop. lia.
    + apply bool_decide_false. intros E%(f_equal length). rewrite length_drop in E.
      change (length []) with 0%nat in E. unfold n in E. lia.
  - cbn [concat]. rewrite Hcat. apply take_drop.
  - constructor; [|done]. intros E. rewrite E in Htake. cbn in Htake. lia.
Qed.

(** ** Frames that are cut into chunks

    What VP8 and VP9 do with a frame, [while (currSize > 0)]: [hdr] bytes of each
    payload are a descriptor, which [payload_of] writes in front of the chunk
    when told whether it is the first and whether it is the last one. *)

Section ChunkLoop.
Context {S : Type} `{!RtpExtensionSource S}.
Context (hdr : Z) (isKey : bool) (payload_of : bool -> bool -> list Z -> list Z).

Fixpoint chunk_loop (fuel : nat) (track : Track.t) (timestamp basicPacketSize : Z) (currData : list Z)
  (packetNumber : nat) (e : env S) : option (list RtpPacket.t * env S) :=
  match currData, fuel with
  | [], _ => Some ([], e)
  | _, O => None
  | _, Datatypes.S fuel =>
      let currSize := Z.of_nat (length currData) in
      let '((rollover, sequence), e) := nextSequence e in
      let '(padding, extension, e) := PacketizerVideo.prepare track isKey packetNumber (length currData) e in
      let packetSize := PacketizerVideo.adjustPacketSize (u64 (basicPacketSize - hdr)) padding extension in
      let endOfFrame := currSize <=? packetSize in
      let writeNow := Z.to_nat (Z.min currSize packetSize) in
      let packet := RtpPacket.make track endOfFrame rollover sequence timestamp padding extension
        (payload_of (packetNumber =? 0)%nat endOfFrame (take writeNow currData)) in
      '(packets, e) ← chunk_loop fuel track timestamp basicPacketSize (drop writeNow currData)
                        (Datatypes.S packetNumber) e;
      Some (packet :: packets, e)
  end.

End ChunkLoop.

(** The packets of a frame that is cut into [chunks]. *)
Fixpoint cut (payload_of : bool -> bool -> list Z -> list Z) (start : bool) (chunks : list (list Z))
  : list (bool * list Z) :=
  match chunks with
  | [] => []
  | c :: cs =>
      (bool_decide (cs = []), payload_of start (bool_decide (cs = [])) c) :: cut payload_of false cs
  end.

(** The kinds that a jitter buffer should see. *)
Fixpoint kinds (start : bool) (n : nat) : list PacketKind :=
  match n with
  | O => []
  | Datatypes.S n => getPacketKind start (n =? 0)%nat :: kinds false n
  end.

Section ChunkLoopOk.
Context {S : Type} `{!RtpExtensionSource S} (overhead : Z) (I : list S -> Prop) `{!PacketSources S overhead I}.
Context (hdr : nat) (isKey : bool) (payload_of : bool -> bool -> list Z -> list Z) (track : Track.t) (timestamp : Z).
Hypothesis Hhdr : (hdr <= 8)%nat.
Hypothesis Hpayload : forall start last c, length (payload_of start last c) = (hdr + length c)%nat.
#[local] Set Default Proof Using "All".

Lemma chunk_loop_ok fuel : forall currData pn (e : env S),
  I (e_sources e) -> (length currData <= fuel)%nat ->
  exists ps e' chunks,
    chunk_loop (Z.of_nat hdr) isKey payload_of fuel track timestamp (Packetizer.getBasicPacketSize overhead)
      currData pn e = Some (ps, e') /\
    map view ps = cut payload_of (pn =? 0)%nat chunks /\ concat chunks = currData /\
    Forall (fun c => c <> []) chunks /\ emitted I track timestamp e ps e' /\ Forall (fits overhead) ps.
Proof.
  induction fuel as [|fuel IH]; intros currData pn e Hcount Hf;
    (destruct currData as [|x currData];
      [exists [], e, []; do 4 (split; [done|]); split; [by apply emitted_refl|constructor]|]);
    [cbn [length] in Hf; lia|].
  cbn [chunk_loop]. destruct (nextSequence e) as [[rollover sequence] e1] eqn:En.
  assert (I (e_sources e1)) as HI1 by (by rewrite (nextSequence_sources _ _ _ En)).
  set (data := x :: currData) in *.
  pose proof (prepare_ok overhead I track isKey pn (length data) e1 HI1) as Hprep.
  destruct (PacketizerVideo.prepare track isKey pn (length data) e1) as [[padding ext] e2].
  destruct Hprep as (Hp & He & l & -> & Hl).
  pose proof (adjusted overhead (Z.of_nat hdr) padding ext He Hp ltac:(lia)) as Hadj. cbv zeta in Hadj.
  set (size := PacketizerVideo.adjustPacketSize _ _ _) in *.
  set (n := Z.to_nat (Z.min (Z.of_nat (length data)) size)).
  destruct (IH (drop n data) (Datatypes.S pn) (with_sources e1 l)) as
    (ps & e3 & chunks & -> & Hview & Hcat & Hne & Hem & Hfit);
    [done|rewrite length_drop; unfold n, data in *; cbn [length] in *; lia|].
  cbn [mbind option_bind].
  destruct (next_chunk data size chunks ltac:(done) ltac:(lia) Hcat Hne) as (Hn & Htake & Hend & Hcat' & Hne').
  fold n in Hn, Htake, Hcat', Hne'.
  eexists _, e3, (take n data :: chunks). split; [done|]. split.
  { cbn [map cut]. by rewrite Hview, Hend. }
  split; [exact Hcat'|]. split; [exact Hne'|]. split.
  - refine (emitted_app I _ _ _ [_] _ _ _ (emitted_next I _ _ _ _ _ _ _ _ _ _ Hcount En) _).
    refine (emitted_app I _ _ _ [] _ _ _ (emitted_nil I _ _ _ l Hl) Hem).
  - constructor; [|done]. apply fits_make; [done|]. rewrite Hpayload, Htake. lia.
Qed.

End ChunkLoopOk.

(** *** Frames from their packets

    [whole_frame]: the packets that look like [vs] are a whole frame for the
    depacketizer: the jitter buffer can tell where it starts and ends, and what
    comes out is [frame]. *)

Record whole_frame {D} `{Depacketizer D} (vs : list (bool * list Z)) (frame : list Z) (d d' : D) : Prop := {
  whole_some : vs <> [] /\ frame <> [];
  whole_kinds : map (fun v => dep_getPacketKind d v.2 v.1) vs = map Some (kinds true (length vs));
  whole_extract : forall timestamp items,
    Forall2 (carries timestamp) vs items -> dep_extract d items = Some ([frame], d')
}.

Lemma length_kinds n : forall b, length (kinds b n) = n.
Proof. induction n as [|n IH]; intros b; [done|]. cbn [kinds length]. by rewrite IH. Qed.

Lemma kinds_no_start n : Forall (fun k => k <> Start) (kinds false n).
Proof. induction n as [|n IH]; [constructor|]. cbn [kinds]. constructor; [by destruct n|done]. Qed.

Lemma cut_length payload_of chunks : forall start, length (cut payload_of start chunks) = length chunks.
Proof. induction chunks as [|c cs IH]; intros start; [done|]. cbn [cut length]. by rewrite IH. Qed.

(** The loop of a depacketizer that writes the payloads behind each other; the
    inner [None] of [extractPayload] and of the result is the early return. *)
Fixpoint collect (extractPayload : list Z -> option (option (list Z))) (packetList : list JitterBufferItem)
  (buf : list Z) : option (option (list Z)) :=
  match packetList with
  | [] => Some (Some buf)
  | packet :: packetList =>
      p ← extractPayload (payload packet);
      match p with
      | None => Some None
      | Some pl => collect extractPayload packetList (ByteWriter.write buf pl)
      end
  end.

Lemma collect_total extractPayload l :
  (forall frame, is_Some (extractPayload frame)) -> forall buf, is_Some (collect extractPayload l buf).
Proof.
  intros Htot. induction l as [|p l IH]; intros buf; [by eexists|]. cbn [collect].
  destruct (Htot (payload p)) as [[pl|] ->]; cbn [mbind option_bind]; [apply IH|by eexists].
Qed.

Section Cut.
Context (payload_of : bool -> bool -> list Z -> list Z).

Lemma cut_last timestamp chunks : forall start items,
  chunks <> [] -> Forall2 (carries timestamp) (cut payload_of start chunks) items ->
  exists x, list.last items = Some x /\ marker x = true.
Proof.
  induction chunks as [|c chunks IH]; intros start items Hne H; [done|]. cbn [cut] in H.
  inversion H as [|? it ? items' (Em & _) H']; subst. cbn [fst snd] in Em.
  destruct chunks as [|c' chunks].
  - inversion H'; subst. exists it. split; [done|]. by rewrite Em, bool_decide_true.
  - destruct (IH false items' ltac:(done) H') as (x & Hx & Hm). exists x. split; [|done].
    inversion H'; subst. exact Hx.
Qed.

(** A start test that reads the descriptor right gives the kinds. *)
Lemma cut_kinds (isFrameStart : list Z -> bool) :
  (forall start last c, isFrameStart (payload_of start last c) = start) -> forall chunks start,
  map (fun v => getPacketKind (isFrameStart v.2) v.1) (cut payload_of start chunks) = kinds start (length chunks).
Proof.
  intros Hs. induction chunks as [|c chunks IH]; intros start; [done|].
  cbn [cut map length kinds fst snd]. rewrite IH, Hs. do 2 f_equal. by destruct chunks.
Qed.

(** A parser that takes the descriptor off gives the frame back. *)
Lemma cut_collect (extractPayload : list Z -> option (option (list Z))) timestamp :
  (forall start last c, extractPayload (payload_of start last c) = Some (Some c)) ->
  forall chunks start items buf, Forall2 (carries timestamp) (cut payload_of start chunks) items ->
  collect extractPayload items buf = Some (Some (buf ++ concat chunks)).
Proof.
  intros Hext. induction chunks as [|c chunks IH]; intros start items buf H; cbn [cut] in H.
  - inversion H. cbn [collect concat]. by rewrite app_nil_r.
  - inversion H as [|? it ? items' (_ & Ep & _) H']; subst. cbn [fst snd] in Ep.
    cbn [collect]. rewrite Ep, Hext. cbn [mbind option_bind concat].
    rewrite (IH _ _ _ H'). unfold ByteWriter.write. by rewrite app_assoc.
Qed.

End Cut.

Lemma concat_nonempty (chunks : list (list Z)) :
  chunks <> [] -> Forall (fun c => c <> []) chunks -> concat chunks <> [].
Proof.
  intros Hne Hcs. destruct chunks as [|c cs]; [done|]. apply list.Forall_cons in Hcs as [Hc _]. by destruct c.
Qed.
