(* ===== verification/ExtensionSources.v ===== *)
(** * The extension sources: simulcast, congestion control and capture time

    [RtpExtensionSourceSimulcast] (src/rtp_extension_source_simulcast.cpp),
    the sending half of [RtpExtensionSourceTWCC]
    (src/rtp_extension_source_twcc.cpp) and [RtpExtensionSourceAbsCaptureTime]
    (src/rtp_extension_source_abs_capture_time.cpp): the implementations of the
    interface that the packetizers are proved against. *)

From stdpp Require Import strings.
From S2P Require Import Prelude Bytes Extension Tracks Rtp Packets.

Module RtpStandardExtensions.

Definition kExtSdesMid : string := "urn:ietf:params:rtp-hdrext:sdes:mid".
Definition kExtSdesRtpStreamId : string := "urn:ietf:params:rtp-hdrext:sdes:rtp-stream-id".
Definition kExtSdesRtpRepairedStreamId : string := "urn:ietf:params:rtp-hdrext:sdes:repaired-rtp-stream-id".
Definition kExtGoogleVLA : string := "http://www.webrtc.org/experiments/rtp-hdrext/video-layers-allocation00".
Definition kExtGoogleTWCC : string := "http://www.ietf.org/id/draft-holmer-rmcat-transport-wide-cc-extensions-01".
Definition kExtAbsCaptureTime : string := "http://www.webrtc.org/experiments/rtp-hdrext/abs-capture-time".

End RtpStandardExtensions.
Import RtpStandardExtensions.

(** ** Simulcast *)

Module Simulcast.

Record t := mk {
  mCurMediaId : list Z;
  mCurLayerName : list Z;
  mCurGoogleVLA : list Z;
  mCurExtMediaId : Z;
  mCurExtStreamId : Z;
  mCurExtGoogleVLA : Z
}.

Definition make : t := mk [] [] [] 0 0 0.

(** [sentPackets] are the track's statistics, [isKeyFrame] the packetizer's
    answer for the frame. *)
Definition shouldAdd (s : t) (track : Track.t) (sentPackets : Z) (isKeyFrame : bool) : bool * t :=
  if Track.isSimulcast track then
    let media := Track.mMedia track in
    let s := mk (mCurMediaId s) (mCurLayerName s) (mCurGoogleVLA s)
      (Media.findByName media kExtSdesMid) (Media.findByName media kExtSdesRtpStreamId)
      (Media.findByName media kExtGoogleVLA) in
    if (0 <? mCurExtMediaId s) && (0 <? mCurExtStreamId s) && (0 <? mCurExtGoogleVLA s)
    then ((sentPackets <? 100) || isKeyFrame, s)
    else (false, s)
  else (false, s).

(** [None]: the layer is read through a null pointer when the track has none. *)
Definition prepare (s : t) (track : Track.t) (layerList : list SimulcastLayer.t) : option t :=
  layer ← Track.mSimulcastLayer track;
  vla ← SimulcastLayer.buildGoogleVLA (Track.index layer) layerList;
  Some (mk (Media.mId (Track.mMedia track)) (SimulcastLayer.name (Track.layer layer)) vla
           (mCurExtMediaId s) (mCurExtStreamId s) (mCurExtGoogleVLA s)).

Definition clear (s : t) : t := mk [] [] [] (mCurExtMediaId s) (mCurExtStreamId s) (mCurExtGoogleVLA s).

Definition wantsExtension (s : t) : bool := negb (bool_decide (mCurGoogleVLA s = [])).

Definition addExtension (buf : list Z) (s : t) : list Z :=
  let buf := RtpExtensionBuilder.addStringValue buf (mCurExtMediaId s) (mCurMediaId s) in
  let buf := RtpExtensionBuilder.addStringValue buf (mCurExtStreamId s) (mCurLayerName s) in
  RtpExtensionBuilder.addBinaryValue buf (mCurExtGoogleVLA s) (mCurGoogleVLA s).

(** Retransmissions name the stream they repair. *)
Definition updateForRtx (buf : list Z) (track : Track.t) : option (list Z) :=
  let media := Track.mMedia track in
  let extMediaId := Media.findByName media kExtSdesMid in
  let extRepairedStreamId := Media.findByName media kExtSdesRtpRepairedStreamId in
  buf ← (if negb (extMediaId =? 0) then
           present ← RtpExtensionBuilder.contains buf extMediaId;
           Some (if (present : bool) then buf else RtpExtensionBuilder.addStringValue buf extMediaId (Media.mId media))
         else Some buf);
  if negb (extRepairedStreamId =? 0) then
    present ← RtpExtensionBuilder.contains buf extRepairedStreamId;
    if (present : bool) then Some buf
    else layer ← Track.mSimulcastLayer track;
         Some (RtpExtensionBuilder.addStringValue buf extRepairedStreamId (SimulcastLayer.name (Track.layer layer)))
  else Some buf.

End Simulcast.

(** ** Transport-wide congestion control, sending side *)

Module TWCC.

Record t := mk { mNextPacketSEQ : Z; mIsConnected : bool; mIsProbing : bool; mProbingPacketCount : Z }.

Definition make : t := mk 1 false false 0.

(** The scheduling of the probing tasks is the caller's; these are the bodies. *)
Definition onPeerConnected (s : t) : t := mk (mNextPacketSEQ s) true (mIsProbing s) (mProbingPacketCount s).
Definition onStartProbing (s : t) : t := mk (mNextPacketSEQ s) (mIsConnected s) true 0.
Definition onEndProbing (s : t) : t := mk (mNextPacketSEQ s) (mIsConnected s) false (mProbingPacketCount s).

Definition getExtensionId (track : Track.t) : Z := Media.findByName (Track.mMedia track) kExtGoogleTWCC.

Definition count_probe (s : t) : t :=
  mk (mNextPacketSEQ s) (mIsConnected s) (mIsProbing s) (u32 (mProbingPacketCount s + 1)).

Definition getPadding (track : Track.t) (remainingDataSize : nat) (s : t) : Z * t :=
  if mIsProbing s then
    if (remainingDataSize <? 500)%nat then (50, s)
    else match Track.mMediaType track with
         | Video => (120, count_probe s)
         | Audio =>
             if Z.of_nat remainingDataSize <? 1060
             then (u8 (Z.of_nat remainingDataSize / 10), count_probe s)
             else (0, s)
         end
  else (0, s).

Definition wantsExtension (track : Track.t) : bool := negb (getExtensionId track =? 0).

(** A placeholder: the number is assigned before sending. *)
Definition addExtension (track : Track.t) (buf : list Z) : list Z :=
  if negb (getExtensionId track =? 0) then RtpExtensionBuilder.addU16Value buf (getExtensionId track) 0 else buf.

Definition onBeforeGeneratingRtpPacket (packet : RtpPacket.t) (s : t) : option (RtpPacket.t * t) :=
  let id := getExtensionId (RtpPacket.mTrack packet) in
  if negb (id =? 0) then
    let buf := RtpExtensionBuilder.from (RtpPacket.mExtension packet) in
    let seq := mNextPacketSEQ s in
    let s := mk (u16 (seq + 1)) (mIsConnected s) (mIsProbing s) (mProbingPacketCount s) in
    buf ← RtpExtensionBuilder.addOrReplaceU16Value buf id seq;
    Some (RtpPacket.setExtension packet (RtpExtensionBuilder.build buf), s)
  else Some (packet, s).

Definition getFeedbackSeq (packet : RtpPacket.t) : option (option Z) :=
  let nExtId := getExtensionId (RtpPacket.mTrack packet) in
  if nExtId =? 0 then Some None else RtpExtension.findU16 (RtpPacket.mExtension packet) nExtId.

End TWCC.

(** ** Absolute capture time *)

Module AbsCaptureTime.

Record t := mk { mAbsCaptureTimeNTP : Z; mExtensionId : Z }.

Definition make : t := mk 0 0.

Definition prepare (track : Track.t) (absCaptureTimeNTP : Z) : t :=
  mk absCaptureTimeNTP
     (if negb (absCaptureTimeNTP =? 0) then Media.findByName (Track.mMedia track) kExtAbsCaptureTime else 0).

Definition wantsExtension (packetNumber : nat) (s : t) : bool :=
  negb (mAbsCaptureTimeNTP s =? 0) && negb (mExtensionId s =? 0) && (packetNumber =? 0)%nat.

Definition addExtension (packetNumber : nat) (buf : list Z) (s : t) : list Z :=
  if wantsExtension packetNumber s
  then RtpExtensionBuilder.addU64Value buf (mExtensionId s) (mAbsCaptureTimeNTP s) else buf.

End AbsCaptureTime.

(** ** The sources of a connection *)

Inductive source :=
  | SourceSimulcast (s : Simulcast.t)
  | SourceTWCC (s : TWCC.t)
  | SourceAbsCaptureTime (s : AbsCaptureTime.t).

#[export] Instance source_interface : RtpExtensionSource source := {
  source_getPadding track n s :=
    match s with
    | SourceTWCC s => let '(p, s) := TWCC.getPadding track n s in (p, SourceTWCC s)
    | _ => (0, s)
    end;
  source_wantsExtension track isKey n s :=
    match s with
    | SourceSimulcast s => Simulcast.wantsExtension s
    | SourceTWCC _ => TWCC.wantsExtension track
    | SourceAbsCaptureTime s => AbsCaptureTime.wantsExtension n s
    end;
  source_addExtension track isKey n buf s :=
    match s with
    | SourceSimulcast s' => (Simulcast.addExtension buf s', s)
    | SourceTWCC _ => (TWCC.addExtension track buf, s)
    | SourceAbsCaptureTime s' => (AbsCaptureTime.addExtension n buf s', s)
    end
}.

(** The bytes a source adds at most. *)
Definition weight (s : source) : nat :=
  match s with
  | SourceSimulcast s =>
      6 + Nat.min 255 (length (Simulcast.mCurMediaId s)) + Nat.min 255 (length (Simulcast.mCurLayerName s)) +
      length (Simulcast.mCurGoogleVLA s)
  | SourceTWCC _ => 4
  | SourceAbsCaptureTime _ => 10
  end.

Definition total (l : list source) : nat := list_sum (map weight l).

(** The invariant: together the extensions stay small. *)
Definition sources_small (overhead : Z) (l : list source) : Prop :=
  0 <= overhead /\ Z.of_nat (total l) + overhead <= 572.

Lemma padding_loop_sources track n l : forall padding,
  is_u8 padding ->
  is_u8 (PacketizerVideo.padding_loop track n padding l).1 /\
  total (PacketizerVideo.padding_loop track n padding l).2 = total l.
Proof.
  induction l as [|s l IH]; intros padding Hp; [done|]. cbn [PacketizerVideo.padding_loop].
  destruct (source_getPadding track n s) as [p s'] eqn:E.
  assert (is_u8 p /\ weight s' = weight s) as [Hp' Hw].
  { destruct s as [s|s|s]; cbn in E; try (injection E as <- <-; by vm_compute).
    unfold TWCC.getPadding in E. destruct (TWCC.mIsProbing s); [|injection E as <- <-; by vm_compute].
    destruct (n <? 500)%nat; [injection E as <- <-; by vm_compute|].
    destruct (Track.mMediaType track); [injection E as <- <-; by vm_compute|].
    destruct (Z.of_nat n <? 1060); injection E as <- <-; [|by vm_compute].
    split; [apply u8_range|done]. }
  specialize (IH (Z.max padding p) ltac:(unfold is_u8 in *; lia)).
  destruct (PacketizerVideo.padding_loop track n (Z.max padding p) l) as [q r]. cbn [fst snd] in *.
  destruct IH as [Hq Ht]. split; [done|]. unfold total in *. cbn [map list_sum fold_right]. 
  change (weight s' + total r = weight s + total l)%nat. unfold total. lia.
Qed.

Lemma addString_length buf id v :
  length (RtpExtensionBuilder.addStringValue buf id v) = (length buf + 2 + Nat.min 255 (length v))%nat.
Proof.
  unfold RtpExtensionBuilder.addStringValue, ByteWriter.writeU8, ByteWriter.write.
  rewrite !length_app, length_take. cbn [length]. lia.
Qed.

Lemma source_add_length track isKey n buf s :
  (length (source_addExtension track isKey n buf s).1 <= length buf + weight s)%nat /\
  (source_addExtension track isKey n buf s).2 = s.
Proof.
  destruct s as [s|s|s]; cbn [source_addExtension source_interface fst snd]; split; try done.
  - unfold Simulcast.addExtension, RtpExtensionBuilder.addBinaryValue, ByteWriter.writeU8, ByteWriter.write.
    rewrite !length_app, !addString_length. cbn [length weight]. lia.
  - unfold TWCC.addExtension. case_match; [|cbn; lia].
    unfold RtpExtensionBuilder.addU16Value, ByteWriter.writeU8, ByteWriter.writeU16, ByteWriter.write.
    rewrite !length_app. cbn. lia.
  - unfold AbsCaptureTime.addExtension. case_match; [|cbn; lia].
    unfold RtpExtensionBuilder.addU64Value, ByteWriter.writeU8, ByteWriter.writeU64, ByteWriter.write.
    rewrite !length_app. cbn. lia.
Qed.

Lemma add_loop_sources track isKey n mask l : forall i buf,
  (length (Packetizer.add_loop track isKey n mask i buf l).1 <= length buf + total l)%nat /\
  (Packetizer.add_loop track isKey n mask i buf l).2 = l.
Proof.
  induction l as [|s l IH]; intros i buf; [cbn; split; [lia|done]|]. cbn [Packetizer.add_loop].
  pose proof (source_add_length track isKey n buf s) as [Hl Hs].
  assert (exists buf', (if has_bit mask i then source_addExtension track isKey n buf s else (buf, s)) = (buf', s) /\
    (length buf' <= length buf + weight s)%nat) as (buf' & -> & Hb).
  { destruct (has_bit mask i); [|exists buf; split; [done|lia]].
    destruct (source_addExtension track isKey n buf s) as [buf' s']. cbn [fst snd] in *. subst s'. by exists buf'. }
  specialize (IH (i + 1) buf').
  destruct (Packetizer.add_loop track isKey n mask (i + 1) buf' l) as [buf'' r]. cbn [fst snd] in *.
  destruct IH as [IH ->]. split; [|done]. change (total (s :: l)) with (weight s + total l)%nat. lia.
Qed.

(** The sources of a connection keep the promise the packetizers need. *)
#[export] Instance sources_packet overhead : PacketSources source overhead (sources_small overhead).
Proof.
  split.
  - intros track n l [Ho Ht]. unfold PacketizerVideo.getPadding.
    destruct (n <? 300)%nat; [by split; [vm_compute|]|].
    destruct (padding_loop_sources track n l 0 ltac:(by vm_compute)) as [Hp E].
    split; [done|]. unfold sources_small. by rewrite E.
  - intros track isKey n l [Ho Ht]. unfold Packetizer.buildExtension.
    destruct (Packetizer.mask_loop track isKey n 0 0 l =? 0); cbn [negb fst snd].
    { split; [split; [done|cbn; lia]|done]. }
    pose proof (add_loop_sources track isKey n (Packetizer.mask_loop track isKey n 0 0 l) l 0 RtpExtensionBuilder.make)
      as [Hl Hs].
    destruct (Packetizer.add_loop _ _ _ _ _ _ _) as [buf l']. cbn [fst snd] in *. subst l'.
    split; [|done]. split; [done|]. unfold RtpExtensionBuilder.make in Hl. cbn [length] in Hl.
    unfold RtpExtension.size. case_match; [lia|].
    assert (length (RtpExtension.mData (RtpExtensionBuilder.build buf)) = length buf) as ->
      by (unfold RtpExtensionBuilder.build; case_bool_decide as Hb; [by subst|done]).
    pose proof (Nat.div_mod_eq (length buf + 3) 4). lia.
Qed.

(** ** A connection for the examples *)

Module Demo.

Definition demo_media : Media.t :=
  Media.mk [0x30] Video (ExtensionMap.add ExtensionMap.make 5 RtpStandardExtensions.kExtGoogleTWCC).

Definition demo_track : Track.t := TrackBuilder.make demo_media Publish 1000 96 90000.

Definition demo_env : env source :=
  mkEnv (RtpTimeSource.make 90000 0 0) (RtpPacketSource.make 65533)
        [SourceTWCC (TWCC.onStartProbing TWCC.make); SourceAbsCaptureTime AbsCaptureTime.make].

End Demo.
