(* ===== verification/Nalus.v ===== *)
(** * Frames of NALUs: what the H.264 and H.265 packetizers and depacketizers share

    The two pairs of source files are copies of each other up to the headers of
    NALUs, aggregates and fragments, the parameter sets and the types.
    [NaluCodec] names the differences on the sending side, [NaluPacketizer] is the
    rest of src/packetizer_h264.cpp and src/packetizer_h265.cpp;
    [NaluDepacketizer] is what src/depacketizer_h264.cpp and
    src/depacketizer_h265.cpp share.  [NaluWire] is what a codec promises of
    its two sides; [NaluSend] proves what follows from it for whole frames. *)

From S2P Require Import Prelude Bytes Extension Tracks Rtp Annexb Packets.

(** ** The sending side *)

Class NaluCodec (P : Type) := {
  (** the type of a NALU, from its first byte *)
  nc_type : Z -> Z;
  nc_isKey : Z -> bool;
  nc_isParameter : Z -> bool;
  (** the parameter sets the packetizer knows; a NALU of some type may be one *)
  nc_none : P;
  nc_update : Z -> list Z -> P -> P;
  nc_sets : P -> list (list Z);
  nc_aggregate : P -> list Z;
  (** bytes of a NALU's header, bytes in front of a fragment *)
  nc_header : nat;
  nc_room : Z;
  (** the payload of a fragment: header and type of the NALU, start, end, data *)
  nc_fragment : list Z -> Z -> bool -> bool -> list Z -> list Z
}.

Module NaluPacketizer.

Section Codec.
Context {P : Type} `{!NaluCodec P}.

(** *** The parameter sets given apart from the frames *)

Definition update_all (l : list NaluParser.nalu) (st : P) : P :=
  fold_left (fun st n => nc_update (nc_type (NaluParser.n_byte n)) (NaluParser.n_data n) st) l st.

Fixpoint csd_loop (st : P) (csd : list (list Z)) : option P :=
  match csd with
  | [] => Some st
  | item :: csd =>
      l ← NaluParser.nalus item;
      csd_loop (update_all l st) csd
  end.

Definition setCodecSpecificData (csd : list (list Z)) : option P := csd_loop nc_none csd.

Definition isKeyFrame (frame : list Z) : option bool :=
  l ← NaluParser.nalus frame;
  Some (existsb (fun n => nc_isKey (nc_type (NaluParser.n_byte n))) l).

Section Sources.
Context {S : Type} `{!RtpExtensionSource S}.

(** *** Fragments *)

Section Fragments.
Variables (track : Track.t) (timestamp basicPacketSize : Z) (header : list Z) (naluType : Z) (naluSize : nat) (last : bool).

(** The size of the next fragment, before the minimum with what is left. *)
Definition fu_size (packetNumber : nat) (padding : Z) (extension : RtpExtension.t) (currSize : Z) : Z :=
  let packetSize := PacketizerVideo.adjustPacketSize (u64 (basicPacketSize - nc_room)) padding extension in
  if (packetNumber =? 0)%nat && (currSize <=? packetSize) then u64 (currSize - 10) else packetSize.

(** [while (currSize > 0)]. *)
Fixpoint fu_loop (fuel : nat) (padding : Z) (extension : RtpExtension.t) (currData : list Z)
  (packetNumber : nat) (e : env S) : option (list RtpPacket.t * env S) :=
  match currData, fuel with
  | [], _ => Some ([], e)
  | _, O => None
  | _, Datatypes.S fuel =>
      let currSize := Z.of_nat (length currData) in
      let '((rollover, sequence), e) := nextSequence e in
      let '(padding, extension, e) :=
        if (0 <? packetNumber)%nat
        then PacketizerVideo.prepare track (nc_isKey naluType) packetNumber naluSize e
        else (padding, extension, e) in
      let packetSize := fu_size packetNumber padding extension currSize in
      let isStart := (packetNumber =? 0)%nat in
      let isEnd := currSize <=? packetSize in
      let marker := isEnd && last in
      let writeNow := Z.to_nat (Z.min currSize packetSize) in
      let packet := RtpPacket.make track marker rollover sequence timestamp padding extension
        (nc_fragment header naluType isStart isEnd (take writeNow currData)) in
      '(packets, e) ← fu_loop fuel padding extension (drop writeNow currData) (Datatypes.S packetNumber) e;
      Some (packet :: packets, e)
  end.

End Fragments.

(** *** One NALU *)

(** Every parameter set is there. *)
Definition complete (st : P) : bool := forallb (fun d => negb (bool_decide (d = []))) (nc_sets st).

(** The parameter sets before the first key NALU of the frame. *)
Definition send_parameters (track : Track.t) (timestamp : Z) (st : P) (added : bool) (e : env S)
  : list RtpPacket.t * env S :=
  if negb added && complete st then
    let '(extension, sources) := Packetizer.buildExtension track true 0 (e_sources e) in
    let e := with_sources e sources in
    let '((rollover, sequence), e) := nextSequence e in
    ([RtpPacket.make track false rollover sequence timestamp 0 extension (nc_aggregate st)], e)
  else ([], e).

Definition send_nalu (track : Track.t) (timestamp mediaProtectionOverhead : Z) (n : NaluParser.nalu) (e : env S)
  : option (list RtpPacket.t * env S) :=
  let naluType := nc_type (NaluParser.n_byte n) in
  let naluData := NaluParser.n_data n in
  let naluSize := length naluData in
  let '(padding, extension, e) := PacketizerVideo.prepare track (nc_isKey naluType) 0 naluSize e in
  let basicPacketSize := Packetizer.getBasicPacketSize mediaProtectionOverhead in
  let packetSize := PacketizerVideo.adjustPacketSize basicPacketSize padding extension in
  if Z.of_nat naluSize <=? packetSize then
    let '((rollover, sequence), e) := nextSequence e in
    Some ([RtpPacket.make track (NaluParser.n_last n) rollover sequence timestamp padding extension naluData], e)
  else if (nc_header <? naluSize)%nat then
    fu_loop track timestamp basicPacketSize (take nc_header naluData) naluType naluSize (NaluParser.n_last n)
      (naluSize - nc_header) padding extension (drop nc_header naluData) 0 e
  else Some ([], e).

(** [addedParameters] is set by a key NALU even when there is nothing to add. *)
Fixpoint generate_loop (track : Track.t) (timestamp overhead : Z) (l : list NaluParser.nalu) (st : P)
  (added : bool) (e : env S) : option (list RtpPacket.t * P * env S) :=
  match l with
  | [] => Some ([], st, e)
  | n :: l =>
      let naluType := nc_type (NaluParser.n_byte n) in
      let st := nc_update naluType (NaluParser.n_data n) st in
      let '(parameters, added, e) :=
        if nc_isKey naluType then
          let '(ps, e) := send_parameters track timestamp st added e in (ps, true, e)
        else ([], added, e) in
      '(media, e) ← (if negb (nc_isParameter naluType) then send_nalu track timestamp overhead n e
                     else Some ([], e));
      '(packets, st, e) ← generate_loop track timestamp overhead l st added e;
      Some (parameters ++ media ++ packets, st, e)
  end.

Definition generate (track : Track.t) (overhead now pts_usec : Z) (frame : list Z) (st : P) (e : env S)
  : option (list RtpPacket.t * P * env S) :=
  let '(timestamp, e) := frameTimestamp e now pts_usec in
  l ← NaluParser.nalus frame;
  generate_loop track timestamp overhead l st false e.

End Sources.
End Codec.
End NaluPacketizer.

(** ** The receiving side *)

Module NaluDepacketizer.

Definition kAnnexB : list Z := [0; 0; 0; 1].

Record state := mk { mHaveBits : Z; mFrameBuffer : list Z; mLastRtpTimestamp : Z }.

Definition make : state := mk 0 [] 0.
Definition reset (st : state) : state := mk 0 [] 0.

(** The locals of [extract]: [fu] is the buffer of the fragments, which stays
    after the last fragment.  [None] is the null writer that a continuation
    fragment finds when no start fragment came before. *)
Record locals := mkLocals { fu : option (list Z); l_st : state; l_out : list (list Z) }.

Section Gate.
(** The gate of [extractImpl] until parameters and a key frame are there: the new
    bits, from the old ones and the first byte of the NALU; [None] for a NALU that
    is not emitted. *)
Variable gate : Z -> Z -> option Z.

Definition extractImpl (timestamp : Z) (marker : bool) (nalu : list Z) (st : state) (out : list (list Z))
  : state * list (list Z) :=
  match nalu with
  | [] => (st, out)
  | front :: _ =>
      match gate (mHaveBits st) front with
      | None => (st, out)
      | Some have =>
          let buffer := if mLastRtpTimestamp st =? timestamp then mFrameBuffer st else [] in
          let buffer := buffer ++ kAnnexB ++ nalu in
          if marker then (mk have [] timestamp, out ++ [buffer])
          else (mk have buffer timestamp, out)
      end
  end.

(** The units of an aggregate, each of at least [least] bytes. *)
Fixpoint units_loop (least : Z) (fuel : nat) (timestamp : Z) (marker : bool) (r : ByteReader.t) (st : state)
  (out : list (list Z)) : option (state * list (list Z)) :=
  match fuel with
  | O => None
  | S fuel =>
      if (2 <=? ByteReader.remaining r)%nat then
        '(size, r) ← ByteReader.readU16 r;
        if (Z.to_nat size <=? ByteReader.remaining r)%nat && (least <=? size) then
          let buf := take (Z.to_nat size) (ByteReader.current r) in
          let '(st, out) := extractImpl timestamp marker buf st out in
          r ← ByteReader.skip r (Z.to_nat size);
          units_loop least fuel timestamp marker r st out
        else Some (st, out)
      else Some (st, out)
  end.

(** A fragment behind its headers; [header] is that of the NALU, which a start
    fragment puts in front. *)
Definition fragment (timestamp : Z) (marker fuIsStart fuIsEnd : bool) (header : list Z) (r : ByteReader.t)
  (x : locals) : option locals :=
  let fu := if fuIsStart then Some header else fu x in
  fu ← (if (0 <? ByteReader.remaining r)%nat then
          match fu with Some buf => Some (Some (buf ++ ByteReader.current r)) | None => None end
        else Some fu);
  match fuIsEnd, fu with
  | true, Some buf =>
      let '(st, out) := extractImpl timestamp marker buf (l_st x) (l_out x) in
      Some (mkLocals (Some buf) st out)
  | _, _ => Some (mkLocals fu (l_st x) (l_out x))
  end.

(** A payload that is a NALU. *)
Definition single (timestamp : Z) (marker : bool) (nalu : list Z) (x : locals) : locals :=
  let '(st, out) := extractImpl timestamp marker nalu (l_st x) (l_out x) in
  mkLocals (fu x) st out.

End Gate.

Section Extract.
Variable extract_packet : locals -> JitterBufferItem -> option locals.

Fixpoint extract_loop (x : locals) (packetList : list JitterBufferItem) : option locals :=
  match packetList with
  | [] => Some x
  | p :: rest => x ← extract_packet x p; extract_loop x rest
  end.

(** [extract] clears its output first. *)
Definition extract (st : state) (packetList : list JitterBufferItem) : option (list (list Z) * state) :=
  x ← extract_loop (mkLocals None st []) packetList;
  Some (l_out x, l_st x).

End Extract.
End NaluDepacketizer.

(** ** What a receiver makes of the packets

    Packets are compared through what the depacketizer looks at: the marker and
    the payload.  [feed] is the effect of NALUs, however they were packed. *)

Module NaluFeed.
Import NaluDepacketizer.

Section Gate.
Variable gate : Z -> Z -> option Z.

Fixpoint feed (timestamp : Z) (l : list (bool * list Z)) (so : state * list (list Z))
  : state * list (list Z) :=
  match l with
  | [] => so
  | (m, nalu) :: l => feed timestamp l (extractImpl gate timestamp m nalu so.1 so.2)
  end.

Lemma feed_app timestamp l1 l2 so : feed timestamp (l1 ++ l2) so = feed timestamp l2 (feed timestamp l1 so).
Proof. revert so. induction l1 as [|[m n] l1 IH]; intros so; [done|]. cbn [app feed]. apply IH. Qed.

(** An aggregate on the wire. *)
Definition units (l : list (list Z)) : list Z := concat (map (fun d => be_bytes 2 (Z.of_nat (length d)) ++ d) l).

Lemma units_loop_units least timestamp m l : forall fuel pre st out,
  Forall (fun d => bytes_ok d /\ least <= Z.of_nat (length d) < 65536) l -> (length l < fuel)%nat ->
  units_loop gate least fuel timestamp m (ByteReader.reader_at pre (units l)) st out =
  Some (feed timestamp (map (pair m) l) (st, out)).
Proof.
  induction l as [|d l IH]; intros fuel pre st out Hl Hf; (destruct fuel as [|fuel]; [cbn [length] in Hf; lia|]).
  { cbn [units_loop]. by rewrite ByteReader.remaining_at. }
  apply list.Forall_cons in Hl as [(Hok & Hle & Hlt) Hl]. cbn [units_loop units map concat].
  rewrite ByteReader.remaining_at, <- app_assoc, !length_app, length_be_bytes.
  replace (2 <=? 2 + _)%nat with true by (symmetry; apply Nat.leb_le; lia).
  rewrite Wire.readU16_be by (unfold is_u16; lia). cbn [mbind option_bind].
  rewrite ByteReader.remaining_at, ByteReader.current_at, length_app, Nat2Z.id.
  replace (_ <=? _)%nat with true by (symmetry; apply Nat.leb_le; lia).
  replace (least <=? _) with true by (symmetry; apply Z.leb_le; lia). cbn [andb].
  rewrite take_app_length, ByteReader.skip_at by done.
  destruct (extractImpl gate timestamp m d st out) as [st' out'] eqn:E. cbn [mbind option_bind].
  fold (units l). rewrite IH by (done || cbn [length] in Hf; lia). cbn [map feed fst snd]. by rewrite E.
Qed.

(** A fragment with data. *)
Lemma fragment_data timestamp m start end_ header pre c acc x :
  c <> [] -> (start = true /\ acc = header \/ start = false /\ fu x = Some acc) ->
  fragment gate timestamp m start end_ header (ByteReader.reader_at pre c) x =
  Some (if end_ then let so := extractImpl gate timestamp m (acc ++ c) (l_st x) (l_out x) in
                     mkLocals (Some (acc ++ c)) so.1 so.2
        else mkLocals (Some (acc ++ c)) (l_st x) (l_out x)).
Proof.
  intros Hc Hacc. unfold fragment. rewrite ByteReader.remaining_at, ByteReader.current_at.
  destruct c as [|y c]; [done|]. cbn [length Nat.ltb Nat.leb].
  destruct Hacc as [[-> ->]|[-> ->]]; cbn [mbind option_bind]; destruct end_; try done;
    by destruct (extractImpl gate timestamp m _ (l_st x) (l_out x)).
Qed.

(** *** Whole frames *)

(** The gate, run over NALUs: the final bits when none of them is dropped. *)
Fixpoint passes (have : Z) (l : list (list Z)) : option Z :=
  match l with
  | [] => Some have
  | d :: l => have ← gate have (default 0 (head d)); passes have l
  end.

Definition annexb (l : list (list Z)) : list Z := concat (map (app kAnnexB) l).

Lemma feed_front timestamp front : forall have have' buf last out,
  Forall (fun d => d <> []) front -> passes have front = Some have' -> (buf = [] \/ last = timestamp) ->
  exists last', (front = [] -> last' = last) /\ (front <> [] -> last' = timestamp) /\
    feed timestamp (map (pair false) front) (mk have buf last, out) =
    (mk have' (buf ++ annexb front) last', out).
Proof.
  induction front as [|d front IH]; intros have have' buf last out Hne Hp Hl.
  - injection Hp as <-. exists last. unfold annexb. cbn. by rewrite app_nil_r.
  - apply list.Forall_cons in Hne as [Hd Hne]. cbn [passes] in Hp.
    apply bind_Some_inv in Hp as (have1 & Hg & Hp). cbn [map feed fst snd].
    destruct d as [|x d]; [done|]. cbn [extractImpl mHaveBits mLastRtpTimestamp mFrameBuffer].
    cbn [head default from_option id] in Hg. rewrite Hg.
    assert ((if last =? timestamp then buf else []) = buf) as ->.
    { destruct Hl as [->| ->]; [by case_match|by rewrite Z.eqb_refl]. }
    exists timestamp. split; [done|]. split; [done|].
    destruct (IH have1 have' (buf ++ kAnnexB ++ (x :: d)) timestamp out Hne Hp ltac:(by right))
      as (last'' & H1 & H2 & ->).
    assert (last'' = timestamp) as -> by (destruct front; auto).
    unfold annexb. cbn [map concat]. by rewrite <- !app_assoc.
Qed.

Lemma passes_app have l1 l2 : passes have (l1 ++ l2) = (have ← passes have l1; passes have l2).
Proof.
  revert have. induction l1 as [|d l1 IH]; intros have; [done|]. cbn [app passes].
  destruct (gate have _); cbn [mbind option_bind]; [apply IH|done].
Qed.

Lemma feed_frame timestamp front d have have' last out :
  Forall (fun d => d <> []) (front ++ [d]) -> passes have (front ++ [d]) = Some have' ->
  feed timestamp (map (pair false) front ++ [(true, d)]) (mk have [] last, out) =
  (mk have' [] timestamp, out ++ [annexb (front ++ [d])]).
Proof.
  intros Hne Hp. apply list.Forall_app in Hne as [Hf Hd]. apply list.Forall_cons in Hd as [Hd _].
  rewrite passes_app in Hp. apply bind_Some_inv in Hp as (have1 & Hp1 & Hg).
  cbn [passes] in Hg. apply bind_Some_inv in Hg as (have2 & Hg & [= ->]).
  rewrite feed_app.
  destruct (feed_front timestamp front have have1 [] last out Hf Hp1 ltac:(by left)) as (last' & H1 & H2 & ->).
  destruct d as [|x d]; [done|]. cbn [feed fst snd extractImpl mHaveBits mLastRtpTimestamp mFrameBuffer].
  cbn [head default from_option id] in Hg. rewrite Hg. cbn [app].
  assert ((if last' =? timestamp then annexb front else []) = annexb front) as ->.
  { destruct front; [by case_match|]. rewrite H2 by done. by rewrite Z.eqb_refl. }
  unfold annexb. rewrite map_app, concat_app. cbn [map concat]. by rewrite app_nil_r.
Qed.

End Gate.
End NaluFeed.

(** ** What a codec promises of its two sides *)

Definition type_of {P} `{!NaluCodec P} (d : list Z) : Z := nc_type (default 0 (head d)).

(** The receiving side of a codec: its gate and the effect of one packet. *)
Class NaluReceiver (P : Type) := {
  nr_gate : Z -> Z -> option Z;
  nr_extract : NaluDepacketizer.locals -> JitterBufferItem -> option NaluDepacketizer.locals
}.
#[global] Arguments nr_gate P {_} _ _.
#[global] Arguments nr_extract P {_} _ _.

(** [nalu]: the media NALUs that the receiver understands; [parameter]: the parameter
    sets that fit in an aggregate. *)
Class NaluWire (P : Type) `{!NaluCodec P} `{!NaluReceiver P} (nalu parameter : list Z -> Prop) : Prop := {
  nw_room : 0 <= nc_room <= 8;
  nw_header : (nc_header <= 8)%nat;
  nw_nonempty d : nalu d -> d <> [];
  nw_update st d : Forall parameter (nc_sets st) ->
    (nc_isParameter (type_of d) = true -> parameter d) ->
    Forall parameter (nc_sets (nc_update (type_of d) d st));
  nw_single x item d : nalu d -> payload item = d ->
    nr_extract P x item =
    Some (NaluDepacketizer.single (nr_gate P) (rtp_timestamp_ext item) (marker item) d x);
  nw_fragment_length header ty start end_ c :
    Z.of_nat (length (nc_fragment header ty start end_ c)) = nc_room + Z.of_nat (length c);
  nw_fragment x item d start end_ c : nalu d -> (nc_header < length d)%nat ->
    payload item = nc_fragment (take nc_header d) (type_of d) start end_ c ->
    exists pre, nr_extract P x item =
      NaluDepacketizer.fragment (nr_gate P) (rtp_timestamp_ext item) (marker item) start end_
        (take nc_header d) (ByteReader.reader_at pre c) x;
  nw_aggregate st x item : NaluPacketizer.complete st = true -> Forall parameter (nc_sets st) ->
    payload item = nc_aggregate st ->
    nr_extract P x item =
    Some (let so := NaluFeed.feed (nr_gate P) (rtp_timestamp_ext item) (map (pair (marker item)) (nc_sets st))
            (NaluDepacketizer.l_st x, NaluDepacketizer.l_out x) in
          NaluDepacketizer.mkLocals (NaluDepacketizer.fu x) so.1 so.2)
}.

(** ** What the packetizer sends, and what becomes of it *)

Module NaluSend.
Import NaluPacketizer NaluDepacketizer NaluFeed.

Section Codec.
Context {P : Type} `{!NaluCodec P} `{!NaluReceiver P} (nalu parameter : list Z -> Prop) `{!NaluWire P nalu parameter}.

(** Packets whose effect is that of [nalus], whatever fragments came before. *)
Definition transports (timestamp : Z) (vs : list (bool * list Z)) (nalus : list (bool * list Z)) : Prop :=
  forall items fu st out, Forall2 (carries timestamp) vs items ->
  exists fu', extract_loop (nr_extract P) (mkLocals fu st out) items =
    Some (let so := feed (nr_gate P) timestamp nalus (st, out) in mkLocals fu' so.1 so.2).

Lemma extract_loop_app l1 l2 : forall x,
  extract_loop (nr_extract P) x (l1 ++ l2) = (x ← extract_loop (nr_extract P) x l1; extract_loop (nr_extract P) x l2).
Proof.
  induction l1 as [|p l1 IH]; intros x; [done|]. cbn [app extract_loop].
  destruct (nr_extract P x p); cbn [mbind option_bind]; [apply IH|done].
Qed.

Lemma transports_nil timestamp : transports timestamp [] [].
Proof. intros items fu st out H. inversion H. by exists fu. Qed.

Lemma transports_app timestamp vs1 vs2 n1 n2 :
  transports timestamp vs1 n1 -> transports timestamp vs2 n2 ->
  transports timestamp (vs1 ++ vs2) (n1 ++ n2).
Proof.
  intros H1 H2 items fu st out H. apply Forall2_app_inv_l in H as (i1 & i2 & Hi1 & Hi2 & ->).
  destruct (H1 i1 fu st out Hi1) as [fu1 E1].
  destruct (H2 i2 fu1 (feed (nr_gate P) timestamp n1 (st, out)).1 (feed (nr_gate P) timestamp n1 (st, out)).2 Hi2) as [fu2 E2].
  exists fu2. rewrite extract_loop_app, E1. cbn [mbind option_bind]. rewrite E2, feed_app.
  by destruct (feed (nr_gate P) timestamp n1 (st, out)).
Qed.

(** One packet. *)
Lemma transports_one timestamp m pl nalus :
  (forall x item, carries timestamp (m, pl) item ->
    nr_extract P x item =
    Some (let so := feed (nr_gate P) timestamp nalus (l_st x, l_out x) in mkLocals (fu x) so.1 so.2)) ->
  transports timestamp [(m, pl)] nalus.
Proof.
  intros Hx items fu st out H. inversion H as [|? it ? ? Hit Hnil]; subst. inversion Hnil; subst.
  exists fu. cbn [extract_loop]. by rewrite Hx.
Qed.

Lemma transports_single timestamp m d : nalu d -> transports timestamp [(m, d)] [(m, d)].
Proof using All.
  intros Hd. apply transports_one. intros x item (Em & Ep & Et). cbn [fst snd] in *.
  rewrite (nw_single _ _ d Hd Ep), Em, Et. unfold single. cbn [feed fst snd].
  by destruct (extractImpl (nr_gate P) timestamp m d (l_st x) (l_out x)).
Qed.

Lemma transports_aggregate timestamp st : complete st = true -> Forall parameter (nc_sets st) ->
  transports timestamp [(false, nc_aggregate st)] (map (pair false) (nc_sets st)).
Proof using All.
  intros Hc Hp. apply transports_one. intros x item (Em & Ep & Et). cbn [fst snd] in *.
  by rewrite (nw_aggregate st _ _ Hc Hp Ep), Em, Et.
Qed.

(** The fragments of the NALU [d]; [start] for the first. *)
Fixpoint fragments (d : list Z) (last start : bool) (chunks : list (list Z)) : list (bool * list Z) :=
  match chunks with
  | [] => []
  | c :: rest =>
      let end_ := bool_decide (rest = []) in
      (end_ && last, nc_fragment (take nc_header d) (type_of d) start end_ c) :: fragments d last false rest
  end.

Lemma extract_fragments timestamp d last chunks : nalu d -> (nc_header < length d)%nat -> forall start acc items fu st out,
  chunks <> [] -> Forall (fun c => c <> []) chunks ->
  (start = true /\ acc = take nc_header d \/ start = false /\ fu = Some acc) ->
  Forall2 (carries timestamp) (fragments d last start chunks) items ->
  exists fu', extract_loop (nr_extract P) (mkLocals fu st out) items =
    Some (let so := extractImpl (nr_gate P) timestamp last (acc ++ concat chunks) st out in mkLocals fu' so.1 so.2).
Proof using All.
  intros Hd Hlen. induction chunks as [|c chunks IH]; intros start acc items fu st out Hne Hcs Hacc Hit; [done|].
  apply list.Forall_cons in Hcs as [Hc Hcs]. cbn [fragments] in Hit.
  apply Forall2_cons_inv_l in Hit as (it & items' & (Em & Ep & Et) & Hits & ->). cbn [extract_loop fst snd] in *.
  destruct (nw_fragment (mkLocals fu st out) it d start (bool_decide (chunks = [])) c Hd Hlen Ep) as [pre ->].
  rewrite (fragment_data _ _ _ _ _ _ _ _ acc) by done. rewrite Em, Et. cbn [mbind option_bind].
  destruct chunks as [|c' chunks].
  - rewrite bool_decide_true by done. cbn [mbind option_bind andb concat]. rewrite app_nil_r.
    inversion Hits; subst. cbn [extract_loop l_st l_out]. by eexists.
  - rewrite bool_decide_false by done. cbn [mbind option_bind l_st l_out].
    destruct (IH false (acc ++ c) items' (Some (acc ++ c)) st out) as [fu' E]; try done; [by right|].
    exists fu'. rewrite E. cbn [concat]. by rewrite <- !app_assoc.
Qed.

Lemma transports_fragments timestamp d last chunks :
  nalu d -> (nc_header < length d)%nat -> chunks <> [] -> Forall (fun c => c <> []) chunks ->
  concat chunks = drop nc_header d ->
  transports timestamp (fragments d last true chunks) [(last, d)].
Proof using All.
  intros Hd Hlen Hne Hcs Hcat items fu st out Hit.
  destruct (extract_fragments timestamp d last chunks Hd Hlen true (take nc_header d) items fu st out) as [fu' E]; try done; [by left|].
  exists fu'. rewrite E, Hcat, take_drop. done.
Qed.

(** The marker is on the last fragment only. *)
Lemma fragments_marker d last start chunks ps :
  chunks <> [] -> map view ps = fragments d last start chunks ->
  exists qs q, ps = qs ++ [q] /\ unmarked qs /\ RtpPacket.mMarker q = last.
Proof.
  revert start ps. induction chunks as [|c chunks IH]; intros start ps Hne Hv; [done|].
  destruct ps as [|p ps]; [done|]. cbn [map fragments] in Hv. injection Hv as Hm Hpl Hv.
  destruct chunks as [|c' chunks].
  - destruct ps; [|done]. rewrite bool_decide_true in Hm by done. exists [], p. by split; [|split; [constructor|]].
  - destruct (IH false ps) as (qs & q & -> & Hqs & Hq); [done|done|].
    rewrite bool_decide_false in Hm by done. exists (p :: qs), q. split; [done|]. split; [by constructor|done].
Qed.

End Codec.

(** *** The packets of one NALU *)

Section Sources.
Context {P : Type} `{!NaluCodec P} `{!NaluReceiver P} (nalu parameter : list Z -> Prop) `{HW : !NaluWire P nalu parameter}.
Context {S : Type} `{!RtpExtensionSource S} (overhead : Z) (I : list S -> Prop) `{!PacketSources S overhead I}.
Context (track : Track.t) (timestamp : Z).
#[local] Set Default Proof Using "All".
#[local] Notation transports := (transports (P := P)).

(** The next fragment takes at least one byte, fits, and is the last exactly
    when nothing is left; the first is never the last. *)
Lemma fu_size_ok pn padding ext currSize :
  is_u8 padding -> small_extension overhead ext -> 0 < currSize -> (pn = 0%nat -> 11 <= currSize) ->
  let size := fu_size (Packetizer.getBasicPacketSize overhead) pn padding ext currSize in
  1 <= size /\ (pn = 0%nat -> size < currSize) /\
  Z.min currSize size + nc_room + padding + Z.of_nat (RtpExtension.size ext) + 12 + overhead <= 1200.
Proof.
  intros Hp He Hc H0. unfold fu_size.
  pose proof (adjusted overhead nc_room padding ext He Hp nw_room) as Hadj. cbv zeta in Hadj.
  set (size := PacketizerVideo.adjustPacketSize _ _ _) in *. cbv zeta.
  destruct (Nat.eqb_spec pn 0); cbn [andb]; [|lia].
  destruct (Z.leb_spec currSize size); [|lia].
  rewrite u64_small by (unfold is_u64; lia). lia.
Qed.

Lemma fu_loop_ok d last naluSize fuel : forall padding ext currData pn (e : env S),
  I (e_sources e) -> (length currData <= fuel)%nat -> is_u8 padding -> small_extension overhead ext ->
  (pn = 0%nat -> (11 <= length currData)%nat) ->
  exists ps e' chunks,
    fu_loop track timestamp (Packetizer.getBasicPacketSize overhead) (take nc_header d) (type_of d)
      naluSize last fuel padding ext currData pn e = Some (ps, e') /\
    map view ps = fragments d last (pn =? 0)%nat chunks /\ concat chunks = currData /\
    Forall (fun c => c <> []) chunks /\ emitted I track timestamp e ps e' /\ Forall (fits overhead) ps.
Proof.
  induction fuel as [|fuel IH]; intros padding ext currData pn e Hcount Hf Hp He H0;
    (destruct currData as [|x currData];
      [exists [], e, []; do 4 (split; [done|]); split; [by apply emitted_refl|constructor]|]);
    [cbn [length] in Hf; lia|].
  cbn [fu_loop]. destruct (nextSequence e) as [[rollover sequence] e1] eqn:En.
  assert (I (e_sources e1)) as HI1 by (by rewrite (nextSequence_sources _ _ _ En)).
  pose proof (prepare_ok overhead I track (nc_isKey (type_of d)) pn naluSize e1 HI1) as Hprep.
  set (pre := if (0 <? pn)%nat then _ else _).
  assert (let '(padding, ext, e2) := pre in
    is_u8 padding /\ small_extension overhead ext /\
    exists l, e2 = with_sources e1 l /\ I l) as Hpre.
  { unfold pre. destruct (0 <? pn)%nat; [done|]. split; [done|]. split; [done|].
    exists (e_sources e1). by destruct e1. }
  destruct pre as [[padding1 ext1] e2]. destruct Hpre as (Hp1 & He1 & l & -> & Hll). clear Hprep.
  set (size := fu_size _ _ _ _ _).
  pose proof (fu_size_ok pn padding1 ext1 (Z.of_nat (length (x :: currData))) Hp1 He1
    ltac:(cbn [length]; lia) ltac:(intros Hpn; specialize (H0 Hpn); lia)) as (Hs1 & Hs0 & Hs).
  fold size in Hs1, Hs0, Hs. set (data := x :: currData) in *.
  set (n := Z.to_nat (Z.min (Z.of_nat (length data)) size)).
  assert (1 <= n <= length data)%nat as Hn by (unfold n, data; cbn [length]; lia).
  assert (length (take n data) = n) as Htake by (rewrite length_take; lia).
  destruct (IH padding1 ext1 (drop n data) (Datatypes.S pn) (with_sources e1 l)) as
    (ps & e3 & chunks & -> & Hview & Hcat & Hne & Hem & Hfit); [done|rewrite length_drop; lia|done..|].
  cbn [mbind option_bind].
  assert (bool_decide (chunks = []) = (Z.of_nat (length data) <=? size)) as Hend.
  { assert (chunks = [] <-> drop n data = []) as Hnil.
    { rewrite <- Hcat. split; [by intros ->|]. destruct chunks as [|c cs]; [done|].
      apply list.Forall_cons in Hne as [Hc _]. by destruct c. }
    rewrite (bool_decide_ext _ _ Hnil). destruct (Z.leb_spec (Z.of_nat (length data)) size).
    - apply bool_decide_true. apply nil_length_inv. rewrite length_drop. lia.
    - apply bool_decide_false. intros E%(f_equal length). rewrite length_drop in E.
      change (length []) with 0%nat in E. unfold n in E. lia. }
  eexists _, e3, (take n data :: chunks). split; [done|].
  split.
  { cbn [map fragments]. rewrite Hend, Hview. done. }
  split; [cbn [concat]; rewrite Hcat; apply take_drop|].
  split; [constructor; [intros E%(f_equal length); rewrite Htake in E; change (length []) with 0%nat in E; lia|done]|].
  split.
  - refine (emitted_app I _ _ _ [_] _ _ _ (emitted_next I _ _ _ _ _ _ _ _ _ _ Hcount En) _).
    refine (emitted_app I _ _ _ [] _ _ _ (emitted_nil I _ _ _ l Hll) Hem).
  - constructor; [|done]. apply fits_make; [done|]. rewrite nw_fragment_length, Htake. lia.
Qed.

Lemma send_nalu_ok n (e : env S) :
  I (e_sources e) -> nalu (NaluParser.n_data n) -> NaluParser.n_byte n = default 0 (head (NaluParser.n_data n)) ->
  exists ps e', send_nalu track timestamp overhead n e = Some (ps, e') /\
    (forall T, transports T (map view ps) [(NaluParser.n_last n, NaluParser.n_data n)]) /\
    emitted I track timestamp e ps e' /\ Forall (fits overhead) ps /\
    exists qs q, ps = qs ++ [q] /\ unmarked qs /\ RtpPacket.mMarker q = NaluParser.n_last n.
Proof.
  intros Hcount Hd Hbyte. unfold send_nalu.
  destruct n as [byte data last]. cbn [NaluParser.n_byte NaluParser.n_data NaluParser.n_last] in *. subst byte.
  fold (type_of data).
  pose proof (prepare_ok overhead I track (nc_isKey (type_of data)) 0 (length data) e Hcount) as Hprep.
  destruct (PacketizerVideo.prepare _ _ _ _ _) as [[padding ext] e1]. destruct Hprep as (Hp & He & l & -> & Hll).
  pose proof (adjusted_whole overhead padding ext He Hp) as Hadj. cbv zeta in Hadj.
  set (size := PacketizerVideo.adjustPacketSize _ _ _) in *.
  destruct (Z.leb_spec (Z.of_nat (length data)) size).
  - destruct (nextSequence (with_sources e l)) as [[rollover sequence] e2] eqn:En.
    eexists _, e2. split; [done|]. split; [intros T; by eapply transports_single|].
    split; [refine (emitted_app I _ _ _ [] _ _ _ (emitted_nil I _ _ _ l Hll) (emitted_next I _ _ (with_sources e l) _ _ _ _ _ _ _ Hll En))|].
    split; [constructor; [apply fits_make; [done|lia]|constructor]|].
    eexists [], _. split; [done|]. split; [constructor|done].
  - pose proof nw_header as Hh.
    replace (nc_header <? length data)%nat with true by (symmetry; apply Nat.ltb_lt; lia).
    destruct (fu_loop_ok data last (length data) (length data - nc_header) padding ext (drop nc_header data) 0 (with_sources e l))
      as (ps & e2 & chunks & Ef & Hview & Hcat & Hne & Hem & Hfit); [done|rewrite length_drop; lia|done|done|rewrite length_drop; lia|].
    rewrite Ef. eexists _, e2. split; [done|]. cbn [Nat.eqb] in Hview.
    assert (chunks <> []) as Hchunks.
    { intros ->. apply (f_equal length) in Hcat. rewrite length_drop in Hcat. cbn [concat length] in Hcat. lia. }
    split; [intros T; rewrite Hview; eapply transports_fragments; eauto; lia|].
    split; [by refine (emitted_app I _ _ _ [] _ _ _ (emitted_nil I _ _ _ l Hll) Hem)|]. split; [done|].
    by apply (fragments_marker data last true chunks).
Qed.


(** *** A whole frame *)

(** The parameter sets in front of a NALU: those of the frame's first key NALU. *)
Definition inserted (st : P) (added key : bool) : list (bool * list Z) :=
  if key && (negb added && complete st) then map (pair false) (nc_sets st) else [].

(** The NALUs that reach the other side, each with the marker of its last
    packet: the parameter sets of the frame move in front of its first key
    NALU, whatever the packetizer knew before stays known. *)
Fixpoint sent (st : P) (added : bool) (l : list (list Z)) : list (bool * list Z) :=
  match l with
  | [] => []
  | d :: rest =>
      let st := nc_update (type_of d) d st in
      let key := nc_isKey (type_of d) in
      inserted st added key ++
      (if nc_isParameter (type_of d) then [] else [(bool_decide (rest = []), d)]) ++
      sent st (if key then true else added) rest
  end.

Definition frame_nalu (d : list Z) : Prop :=
  if nc_isParameter (type_of d) then parameter d /\ d <> [] else nalu d.

Definition state_ok (st : P) : Prop := Forall parameter (nc_sets st).

(** Every packet fits, the parameter sets apart, which go out together whatever
    their size. *)
Definition fits_or_parameters (p : RtpPacket.t) : Prop :=
  fits overhead p \/ exists st, RtpPacket.mPayload p = nc_aggregate st.

Lemma update_ok st d : state_ok st -> frame_nalu d -> state_ok (nc_update (type_of d) d st).
Proof.
  intros Hst Hd. apply nw_update; [done|]. unfold frame_nalu in Hd. intros E. rewrite E in Hd. tauto.
Qed.

Lemma before_nalu_ok st added key (e : env S) :
  I (e_sources e) -> state_ok st ->
  exists ps e',
    (if key : bool then let '(ps, e) := send_parameters track timestamp st added e in (ps, true, e) else ([], added, e))
      = (ps, if key then true else added, e') /\
    (forall T, transports T (map view ps) (inserted st added key)) /\
    emitted I track timestamp e ps e' /\ Forall fits_or_parameters ps /\ unmarked ps.
Proof.
  intros Hcount Hst.
  assert (forall b : bool, exists (ps : list RtpPacket.t) (e' : env S), ([], b, e) = (ps, b, e') /\ (forall T, transports T (map view ps) []) /\
    emitted I track timestamp e ps e' /\ Forall fits_or_parameters ps /\ unmarked ps) as Hnone.
  { intros b. exists [], e. split; [done|]. split; [intros T; apply transports_nil|]. split; [by apply emitted_refl|]. split; constructor. }
  unfold inserted, send_parameters. destruct key; cbn [andb]; [|apply Hnone].
  destruct (negb added && complete st) eqn:Ec; [|apply Hnone]. apply andb_true_iff in Ec as [_ Ec].
  destruct (sources_extension (overhead := overhead) track true 0 (e_sources e) Hcount) as [_ Hll].
  destruct (Packetizer.buildExtension track true 0 (e_sources e)) as [ext l]. cbn [snd] in Hll.
  destruct (nextSequence (with_sources e l)) as [[rollover sequence] e1] eqn:En.
  eexists _, e1. split; [done|]. split; [intros T; by eapply transports_aggregate|].
  split; [refine (emitted_app I _ _ _ [] _ _ _ (emitted_nil I _ _ _ l Hll) (emitted_next I _ _ (with_sources e l) _ _ _ _ _ _ _ Hll En))|].
  split; constructor; try done. right. by exists st.
Qed.

(** A media NALU goes out in packets of its own, the last of them marked when the
    NALU ends the frame; a parameter set does not. *)
Lemma media_nalu_ok d last (e : env S) :
  I (e_sources e) -> frame_nalu d ->
  exists ms e',
    (if negb (nc_isParameter (type_of d))
     then send_nalu track timestamp overhead (NaluParser.mkNalu (default 0 (head d)) d last) e else Some ([], e))
      = Some (ms, e') /\
    (forall T, transports T (map view ms) (if nc_isParameter (type_of d) then [] else [(last, d)])) /\
    emitted I track timestamp e ms e' /\ Forall fits_or_parameters ms /\
    (if nc_isParameter (type_of d) then ms = []
     else exists qs q, ms = qs ++ [q] /\ unmarked qs /\ RtpPacket.mMarker q = last).
Proof.
  intros Hcount Hd. unfold frame_nalu in Hd. destruct (nc_isParameter (type_of d)); cbn [negb].
  - exists [], e. split; [done|]. split; [intros T; apply transports_nil|]. split; [by apply emitted_refl|].
    split; [constructor|done].
  - destruct (send_nalu_ok (NaluParser.mkNalu (default 0 (head d)) d last) e Hcount Hd eq_refl)
      as (ms & e' & -> & Ht & He & Hf & Hm).
    exists ms, e'. split; [done|]. split; [done|]. split; [done|]. split; [|done].
    apply (list.Forall_impl _ _ _ Hf). intros p Hp. by left.
Qed.

(** The last NALU is media. *)
Definition ends_in_media (l : list (list Z)) : Prop :=
  from_option (fun d => nc_isParameter (type_of d) = false) False (list.last l).

Lemma generate_loop_ok l : forall st added (e : env S),
  I (e_sources e) -> state_ok st -> Forall frame_nalu (map snd l) ->
  exists ps st' e', generate_loop track timestamp overhead (NaluParser.parsed l) st added e = Some (ps, st', e') /\
    (forall T, transports T (map view ps) (sent st added (map snd l))) /\
    emitted I track timestamp e ps e' /\ Forall fits_or_parameters ps /\ (l = [] -> ps = []) /\
    (ends_in_media (map snd l) -> exists qs q, ps = qs ++ [q] /\ unmarked qs /\ RtpPacket.mMarker q = true).
Proof.
  induction l as [|[four d] l IH]; intros st added e Hcount Hst Hl.
  { exists [], st, e. split; [done|]. split; [intros T; apply transports_nil|]. split; [by apply emitted_refl|].
    split; [constructor|]. by split. }
  apply list.Forall_cons in Hl as [Hd Hl]. cbn [snd] in Hd.
  cbn [NaluParser.parsed generate_loop map snd sent NaluParser.n_byte NaluParser.n_data]. fold (type_of d).
  pose proof (update_ok st d Hst Hd) as Hst1. set (st1 := nc_update _ _ _) in *.
  destruct (before_nalu_ok st1 added (nc_isKey (type_of d)) e Hcount Hst1) as (pps & e1 & -> & Htp & Hep & Hfp & Hup).
  destruct (media_nalu_ok d (bool_decide (l = [])) e1 (emitted_sources _ _ _ _ _ _ Hep) Hd)
    as (ms & e2 & -> & Htm & Hem & Hfm & Hmm).
  cbn [mbind option_bind].
  destruct (IH st1 (if nc_isKey (type_of d) then true else added) e2
    (emitted_sources _ _ _ _ _ _ Hem) Hst1 Hl)
    as (ps & st' & e' & -> & Ht & He & Hf & Hnil & Hmark).
  cbn [mbind option_bind]. exists (pps ++ ms ++ ps), st', e'. split; [done|]. split.
  { intros T. rewrite !map_app. apply transports_app; [apply Htp|].
    rewrite (bool_decide_ext (map snd l = []) (l = [])) by (by destruct l). by apply transports_app. }
  split; [by eapply emitted_app; [|eapply emitted_app]|].
  split; [by rewrite !list.Forall_app|]. split; [done|].
  intros Hlast. destruct l as [|x l].
  - unfold ends_in_media in Hlast. cbn [map snd list.last from_option] in Hlast. rewrite Hlast in Hmm.
    destruct Hmm as (qs & q & -> & Hqs & Hq). rewrite (Hnil eq_refl).
    exists (pps ++ qs), q. rewrite app_nil_r, app_assoc. split; [done|]. split; [by apply list.Forall_app|done].
  - destruct (Hmark Hlast) as (qs & q & -> & Hqs & Hq).
    assert (unmarked ms) as Hums.
    { destruct (nc_isParameter (type_of d)); [by subst ms; constructor|].
      destruct Hmm as (qs' & q' & -> & Hqs' & Hq'). apply list.Forall_app. split; [done|]. by constructor. }
    exists (pps ++ ms ++ qs), q. rewrite <- !app_assoc. split; [done|]. split; [|done].
    by apply list.Forall_app; split; [|apply list.Forall_app].
Qed.

(** A frame the packetizer is given: NALUs behind start codes, the last of them
    media. *)
Record frame_ok (l : list (bool * list Z)) : Prop := {
  frame_wf : Forall (fun x => NaluParser.wf_data x.2) l;
  frame_nalus : Forall frame_nalu (map snd l);
  frame_size : Z.of_nat (length (NaluParser.stream l)) < 2 ^ 64;
  frame_last : ends_in_media (map snd l)
}.

Lemma sent_shape l : forall st added, ends_in_media l ->
  exists front d, sent st added l = map (pair false) front ++ [(true, d)].
Proof using Type.
  induction l as [|d l IH]; intros st added Hlast; [done|]. cbn [sent].
  set (st1 := nc_update _ _ _).
  assert (exists ins, inserted st1 added (nc_isKey (type_of d)) = map (pair false) ins) as [ins ->].
  { unfold inserted. case_match; [by exists (nc_sets st1)|by exists []]. }
  destruct l as [|x l].
  - unfold ends_in_media in Hlast. cbn in Hlast. rewrite Hlast. cbn [sent app]. by exists ins, d.
  - destruct (IH st1 (if nc_isKey (type_of d) then true else added) Hlast) as (front & d' & ->).
    destruct (nc_isParameter (type_of d)).
    + exists (ins ++ front), d'. cbn [app]. by rewrite map_app, <- app_assoc.
    + exists (ins ++ d :: front), d'. rewrite bool_decide_false by done. by rewrite map_app, <- app_assoc.
Qed.

Lemma sent_nonempty l : forall st added,
  Forall frame_nalu l -> Forall (fun d => d <> []) (map snd (sent st added l)).
Proof using HW.
  induction l as [|d l IH]; intros st added Hl; [constructor|].
  apply list.Forall_cons in Hl as [Hd Hl]. cbn [sent]. rewrite !map_app.
  set (st1 := nc_update _ _ _).
  apply list.Forall_app. split; [|apply list.Forall_app; split; [|by apply IH]].
  - unfold inserted. destruct (nc_isKey _ && _) eqn:Ec; [|constructor].
    apply andb_true_iff in Ec as [_ Ec]. apply andb_true_iff in Ec as [_ Ec].
    rewrite map_map. cbn [snd]. rewrite map_id. unfold complete in Ec. rewrite forallb_forall in Ec.
    apply list.Forall_forall. intros x Hx. apply list_elem_of_In, Ec in Hx. apply negb_true_iff in Hx.
    by apply bool_decide_eq_false in Hx.
  - unfold frame_nalu in Hd. destruct (nc_isParameter (type_of d)); constructor; [|constructor].
    by eapply nw_nonempty.
Qed.

(** *** Frames: the theorems of both codecs *)

Lemma generate_nalus_ok now pts l st (e : env S) :
  I (e_sources e) -> frame_ok l -> state_ok st -> timestamp = (frameTimestamp e now pts).1 ->
  exists ps st' e', generate track overhead now pts (NaluParser.stream l) st e = Some (ps, st', e') /\
    (forall T, transports T (map view ps) (sent st false (map snd l))) /\
    emitted I track timestamp (frameTimestamp e now pts).2 ps e' /\
    Forall fits_or_parameters ps /\
    exists qs q, ps = qs ++ [q] /\ unmarked qs /\ RtpPacket.mMarker q = true.
Proof.
  intros HI [Hwf Hn Hsize Hlast] Hst Hts. unfold generate.
  pose proof (frameTimestamp_sources e now pts) as Hcount.
  destruct (frameTimestamp e now pts) as [ts e1]. cbn [fst snd] in *. subst ts.
  rewrite NaluParser.nalus_stream; [|by intros ->|done|done]. cbn [mbind option_bind].
  destruct (generate_loop_ok l st false e1 ltac:(by rewrite Hcount) Hst Hn)
    as (ps & st' & e' & -> & Ht & He & Hf & _ & Hm).
  exists ps, st', e'. do 4 (split; [done|]). by apply Hm.
Qed.

(** Packets that carry what was sent become one frame. *)
Lemma extract_frame vs l st d have' T items :
  Forall frame_nalu l -> ends_in_media l -> transports T vs (sent st false l) -> mFrameBuffer d = [] ->
  passes (nr_gate P) (mHaveBits d) (map snd (sent st false l)) = Some have' ->
  Forall2 (carries T) vs items ->
  extract (nr_extract P) d items = Some ([annexb (map snd (sent st false l))], mk have' [] T).
Proof using HW.
  intros Hn Hlast Ht Hbuf Hpass Hitems. destruct d as [have buf last]. cbn [mFrameBuffer mHaveBits] in *. subst buf.
  destruct (Ht items None (mk have [] last) [] Hitems) as [fu Ex].
  unfold extract. rewrite Ex. cbn [mbind option_bind].
  pose proof (sent_nonempty l st false Hn) as Hne.
  destruct (sent_shape l st false Hlast) as (front & x & Es). rewrite Es in *.
  rewrite map_app, map_map in *. cbn [map snd] in *. rewrite map_id in *.
  rewrite (feed_frame _ T front x have have' last [] Hne Hpass). done.
Qed.

End Sources.
End NaluSend.

(** ** When extraction stops the program

    [fragment_kind] is what a codec takes for a fragment: whether it starts a NALU
    and whether it brings data. *)

Module NaluSafety.
Import NaluDepacketizer.

Definition has_buffer (x : locals) : bool := bool_decide (is_Some (fu x)).

Lemma units_loop_safe gate least timestamp m fuel : 0 <= least -> forall pre post st out,
  (length post < fuel)%nat -> is_Some (units_loop gate least fuel timestamp m (ByteReader.reader_at pre post) st out).
Proof.
  intros Hleast. induction fuel as [|fuel IH]; intros pre post st out Hf; [lia|]. cbn [units_loop].
  rewrite ByteReader.remaining_at. destruct (Nat.leb_spec 2 (length post)); [|by eexists].
  destruct (ByteReader.readU16_some pre post) as [size ->]; [done|]. cbn [mbind option_bind].
  rewrite ByteReader.remaining_at. destruct (Nat.leb_spec (Z.to_nat size) (length (drop 2 post))); [|by eexists].
  destruct (least <=? size); cbn [andb]; [|by eexists].
  destruct (extractImpl _ _ _ _ _ _) as [st' out']. rewrite ByteReader.skip_split by done. cbn [mbind option_bind].
  apply IH. rewrite !length_drop. lia.
Qed.

Lemma fragment_safe gate timestamp m start end_ header pre data x :
  if start || has_buffer x || bool_decide (data = [])
  then exists x', fragment gate timestamp m start end_ header (ByteReader.reader_at pre data) x = Some x' /\
         has_buffer x' = start || has_buffer x
  else fragment gate timestamp m start end_ header (ByteReader.reader_at pre data) x = None.
Proof.
  unfold fragment. rewrite ByteReader.remaining_at, ByteReader.current_at.
  destruct start, data as [|y data], (fu x) as [buf|] eqn:Ex, end_; unfold has_buffer;
    rewrite ?Ex; cbn; repeat case_match; eauto.
Qed.

Section Codec.
Context (extract_packet : locals -> JitterBufferItem -> option locals) (fragment_kind : list Z -> option (bool * bool)).

(** Every fragment with data has a start fragment before it. *)
Fixpoint started (have : bool) (l : list (list Z)) : bool :=
  match l with
  | [] => true
  | p :: l =>
      match fragment_kind p with
      | Some (start, data) => (start || have || negb data) && started (start || have) l
      | None => started have l
      end
  end.

Definition packet_safe (x : locals) (packet : JitterBufferItem) : Prop :=
  match fragment_kind (payload packet) with
  | Some (start, data) =>
      if start || has_buffer x || negb data
      then exists x', extract_packet x packet = Some x' /\ has_buffer x' = start || has_buffer x
      else extract_packet x packet = None
  | None => exists x', extract_packet x packet = Some x' /\ has_buffer x' = has_buffer x
  end.

Lemma extract_stops st items : Forall (fun packet => forall x, packet_safe x packet) items ->
  extract extract_packet st items = None <-> started false (map payload items) = false.
Proof.
  intros Hsafe. assert (forall x, extract_loop extract_packet x items = None <-> started (has_buffer x) (map payload items) = false) as H.
  { induction Hsafe as [|p items Hp0 Hsafe IH]; intros x; [done|]. cbn [extract_loop map started].
    pose proof (Hp0 x) as Hp. unfold packet_safe in Hp. destruct (fragment_kind (payload p)) as [[start data]|].
    - destruct (start || has_buffer x || negb data) eqn:Ec; cbn [andb].
      + destruct Hp as (x' & -> & Eh). cbn [mbind option_bind]. rewrite <- Eh. apply IH.
      + rewrite Hp. done.
    - destruct Hp as (x' & -> & Eh). cbn [mbind option_bind]. rewrite <- Eh. apply IH. }
  unfold extract. specialize (H (mkLocals None st [])).
  destruct (extract_loop _ _ items) as [x|]; cbn [mbind option_bind]; [|tauto].
  split; [done|]. intros Hs. by apply H in Hs.
Qed.

End Codec.
End NaluSafety.
