(* ===== verification/Vp8Opus.v ===== *)
(** * VP8 and Opus: [PacketizerVP8] (src/packetizer_vp8.cpp), [DepacketizerVP8]
    (src/depacketizer_vp8.cpp), RFC 7741, and [PacketizerOpus]
    (src/packetizer_opus.cpp), [DepacketizerOpus] (src/depacketizer_opus.cpp),
    RFC 7587 *)

From S2P Require Import Prelude Bytes Extension Tracks Rtp Packets ExtensionSources.

(** ** PacketizerVP8 *)

Module PacketizerVP8.

(** [data[0] | (data[1] << 8) | (data[2] << 16)], RFC 6386 section 9.1. *)
Definition tag (data : list Z) : Z :=
  Z.lor (Z.lor (default 0 (data !! 0%nat)) (Z.shiftl (default 0 (data !! 1%nat)) 8))
        (Z.shiftl (default 0 (data !! 2%nat)) 16).

Definition isKeyFrame (frame : list Z) : bool :=
  if (length frame <? 3)%nat then false else Z.land (tag frame) 0x01 =? 0.

Section Sources.
Context {S : Type} `{!RtpExtensionSource S}.

(** The payload descriptor |X|R|N|S|R| PID | and the data. *)
Definition payload_of (tagFrameType : Z) (start last : bool) (data : list Z) : list Z :=
  ByteWriter.write
    (ByteWriter.writeU8 []
       (u8 (Z.lor (Z.shiftl tagFrameType 5) (Z.shiftl (if start then 1 else 0) 4)))) data.

(** [while (currSize > 0)]. *)
Definition loop (fuel : nat) (track : Track.t) (timestamp basicPacketSize tagFrameType : Z) (currData : list Z)
  (e : env S) : option (list RtpPacket.t * env S) :=
  chunk_loop 1 (tagFrameType =? 0) (payload_of tagFrameType) fuel track timestamp basicPacketSize currData 0 e.

(** Every round takes at least one byte. *)
Definition generate (track : Track.t) (overhead now pts_usec : Z) (frame : list Z) (e : env S)
  : option (list RtpPacket.t * env S) :=
  let '(timestamp, e) := frameTimestamp e now pts_usec in
  if (length frame <? 3)%nat then Some ([], e)
  else loop (length frame) track timestamp (Packetizer.getBasicPacketSize overhead)
         (Z.land (tag frame) 0x01) frame e.

End Sources.
End PacketizerVP8.

(** ** DepacketizerVP8 *)

Module DepacketizerVP8.

Record state := mk { mSeenKeyFrame : bool }.

Definition make : state := mk false.
Definition reset (st : state) : state := mk false.

Definition isKeyFrame (frame : list Z) : bool :=
  if (length frame <? 3)%nat then false else Z.land (PacketizerVP8.tag frame) 0x01 =? 0.

(** [if (reader.remaining() < 1) return false; (void)reader.readU8();] *)
Definition skip_byte (r : ByteReader.t) : option (option (Z * ByteReader.t)) :=
  if (ByteReader.remaining r <? 1)%nat then Some None
  else '(b, r) ← ByteReader.readU8 r; Some (Some (b, r)).

(** The same, followed by the rest of the function. *)
Definition then_byte {A} (r : ByteReader.t) (k : Z -> ByteReader.t -> option (option A)) : option (option A) :=
  x ← skip_byte r;
  match x with None => Some None | Some (b, r) => k b r end.

(** The payload behind the descriptor; the inner [None] is [return false]. *)
Definition extractPayload (frame : list Z) : option (option (list Z)) :=
  then_byte (ByteReader.make frame) (fun byteHeader r =>
    if has_bit byteHeader 7 then
      then_byte r (fun flags r =>
        let done_TK (r : ByteReader.t) :=
          if has_bit flags 5 || has_bit flags 4
          then then_byte r (fun _ r => Some (Some (ByteReader.current r)))
          else Some (Some (ByteReader.current r)) in
        let done_L (r : ByteReader.t) :=
          if has_bit flags 6 then then_byte r (fun _ r => done_TK r) else done_TK r in
        if has_bit flags 7 then
          then_byte r (fun bytePictureId0 r =>
            if has_bit bytePictureId0 7 then then_byte r (fun _ r => done_L r) else done_L r)
        else done_L r)
    else Some (Some (ByteReader.current r))).

Definition extractImpl (m : bool) (frame : list Z) (st : state) : list (list Z) * state :=
  if bool_decide (frame = []) then ([], st)
  else if negb (mSeenKeyFrame st) && negb (isKeyFrame frame) then ([], st)
  else (if m then [frame] else [], mk true).

(** [packetList.back()] needs a packet. *)
Definition extract (st : state) (packetList : list JitterBufferItem) : option (list (list Z) * state) :=
  buf ← collect extractPayload packetList [];
  match buf with
  | None => Some ([], st)
  | Some buf => last ← list.last packetList; Some (extractImpl (marker last) buf st)
  end.

Definition isFrameStart (payload : list Z) : bool :=
  match payload with
  | [] => false
  | firstByte :: _ => has_bit firstByte 4 && (Z.land firstByte 0x07 =? 0)
  end.

#[global] Instance depacketizer : Depacketizer state := {
  dep_getPacketKind st payload marker := Some (getPacketKind (isFrameStart payload) marker);
  dep_reset := reset;
  dep_extract := extract
}.

(** *** No payload stops the depacketizer *)

Lemma then_byte_total {A} pre post (k : Z -> ByteReader.t -> option (option A)) :
  (forall b pre post, is_Some (k b (ByteReader.reader_at pre post))) ->
  is_Some (then_byte (ByteReader.reader_at pre post) k).
Proof.
  intros Hk. unfold then_byte, skip_byte. rewrite ByteReader.remaining_at.
  destruct (Nat.ltb_spec (length post) 1) as [|Hr]; [by eexists|].
  destruct (ByteReader.readU8_some pre post Hr) as (b & ->). cbn [mbind option_bind]. apply Hk.
Qed.

Lemma extractPayload_total frame : is_Some (extractPayload frame).
Proof.
  unfold extractPayload. rewrite ByteReader.make_reader_at.
  repeat first
    [ apply then_byte_total; intros
    | match goal with |- is_Some (if ?b then _ else _) => destruct b end
    | by eexists | progress cbv zeta ].
Qed.

(** Frames come out whole: a list of packets never stops the program and never
    gives an empty frame. *)
Lemma extract_total st l :
  l <> [] -> exists frames st', extract st l = Some (frames, st') /\ Forall (fun f => f <> []) frames.
Proof.
  intros Hl. unfold extract. destruct (collect_total _ l extractPayload_total []) as [[buf|] ->]; cbn [mbind option_bind];
    [|exists [], st; split; [done|constructor]].
  destruct (list.last l) as [x|] eqn:E; [|by apply list.last_None in E]. cbn [mbind option_bind].
  unfold extractImpl. case_bool_decide; [exists [], st; split; [done|constructor]|].
  case_match; [exists [], st; split; [done|constructor]|].
  eexists _, _. split; [done|]. destruct (marker x); [by constructor|constructor].
Qed.

End DepacketizerVP8.

(** ** Opus *)

Module PacketizerOpus.
Section Sources.
Context {S : Type} `{!RtpExtensionSource S}.

(** Both constructors of the packet give the same packet when the extension is
    empty. *)
Definition generate (track : Track.t) (now pts_usec : Z) (frame : list Z) (e : env S)
  : list RtpPacket.t * env S :=
  let '(timestamp, e) := frameTimestamp e now pts_usec in
  let payload := if (RtpPacket.kMaxPayloadSize <? length frame)%nat
                 then take RtpPacket.kMaxPayloadSize frame else frame in
  let '(extension, sources) := Packetizer.buildExtension track false 0 (e_sources e) in
  let e := with_sources e sources in
  let '((rollover, sequence), e) := nextSequence e in
  ([RtpPacket.make track false rollover sequence timestamp 0
      (if RtpExtension.empty extension then RtpExtension.make_empty else extension) payload], e).

End Sources.
End PacketizerOpus.

Module DepacketizerOpus.

Definition state := unit.

Definition getPacketKind : PacketKind := Standalone.

(** The two assertions: one packet, which is [Standalone] as all are. *)
Definition extract (packetList : list JitterBufferItem) : option (list (list Z)) :=
  match packetList with
  | [packet] => Some (if bool_decide (payload packet = []) then [] else [payload packet])
  | _ => None
  end.

#[global] Instance depacketizer : Depacketizer state := {
  dep_getPacketKind st payload marker := Some getPacketKind;
  dep_reset st := st;
  dep_extract st l := frames ← extract l; Some (frames, st)
}.

End DepacketizerOpus.

(** ** What is sent and what comes out *)

Module Vp8Wire.
Import PacketizerVP8 DepacketizerVP8.

Lemma length_payload_of key start last c : length (payload_of key start last c) = (1 + length c)%nat.
Proof. unfold payload_of, ByteWriter.writeU8, ByteWriter.write. rewrite !length_app. cbn [length]. lia. Qed.

(** *** The receiver *)

Lemma descriptor_plain key start last c : key = 0 \/ key = 1 ->
  exists b, payload_of key start last c = b :: c /\ has_bit b 7 = false /\
    (has_bit b 4 && (Z.land b 0x07 =? 0)) = start.
Proof.
  intros [-> | ->]; eexists; (split; [reflexivity|]); by destruct start.
Qed.

Lemma extractPayload_packet key start last c : key = 0 \/ key = 1 ->
  extractPayload (payload_of key start last c) = Some (Some c).
Proof.
  intros Hk. destruct (descriptor_plain key start last c Hk) as (b & -> & Hb & _).
  unfold extractPayload, then_byte, skip_byte.
  rewrite ByteReader.make_reader_at, ByteReader.remaining_at. cbn [length Nat.ltb Nat.leb].
  rewrite ByteReader.readU8_at. cbn [mbind option_bind]. rewrite Hb. by cbn.
Qed.

(** What the depacketizer makes of the packets of a frame. *)
Lemma vp8_whole_frame key chunks st :
  key = 0 \/ key = 1 -> chunks <> [] -> Forall (fun c => c <> []) chunks ->
  mSeenKeyFrame st = true \/ DepacketizerVP8.isKeyFrame (concat chunks) = true ->
  whole_frame (cut (payload_of key) true chunks) (concat chunks) st (mk true).
Proof.
  intros Hk Hne Hcs Hseen. pose proof (concat_nonempty _ Hne Hcs) as Hne'. split.
  - split; [by destruct chunks|done].
  - rewrite cut_length, <- (cut_kinds (payload_of key) isFrameStart), map_map; [done|].
    intros start last c. by destruct (descriptor_plain key start last c Hk) as (b & -> & _ & H).
  - intros timestamp items H. cbn [dep_extract depacketizer]. unfold extract.
    rewrite (cut_collect (payload_of key) extractPayload timestamp ltac:(intros; by apply extractPayload_packet) _ _ _ _ H).
    cbn [mbind option_bind app]. destruct (cut_last _ timestamp chunks _ _ Hne H) as (x & -> & Hm).
    cbn [mbind option_bind]. unfold extractImpl. rewrite bool_decide_false by done.
    assert (negb (mSeenKeyFrame st) && negb (DepacketizerVP8.isKeyFrame (concat chunks)) = false) as ->
      by (destruct Hseen as [-> | ->]; [done|apply andb_false_r]).
    by rewrite Hm.
Qed.

Lemma tag_bit frame : Z.land (tag frame) 0x01 = 0 \/ Z.land (tag frame) 0x01 = 1.
Proof.
  change 0x01 with (2 ^ 1 - 1). rewrite land_ones_mod by lia. zdm.
Qed.

Lemma generate_ok {S} `{!RtpExtensionSource S} overhead (I : list S -> Prop) `{!PacketSources S overhead I}
  track now pts frame (e : env S) :
  I (e_sources e) -> (3 <= length frame)%nat ->
  exists ps e' chunks, generate track overhead now pts frame e = Some (ps, e') /\
    map view ps = cut (payload_of (Z.land (tag frame) 0x01)) true chunks /\ concat chunks = frame /\ chunks <> [] /\
    Forall (fun c => c <> []) chunks /\
    emitted I track (frameTimestamp e now pts).1 (frameTimestamp e now pts).2 ps e' /\
    Forall (fits overhead) ps.
Proof.
  intros HI Hlen. unfold generate, loop. pose proof (frameTimestamp_sources e now pts) as Hcount.
  destruct (frameTimestamp e now pts) as [ts e1]. cbn [fst snd] in *.
  destruct (Nat.ltb_spec (length frame) 3); [lia|].
  change (chunk_loop 1) with (chunk_loop (S := S) (Z.of_nat 1)).
  destruct (chunk_loop_ok overhead I 1 (Z.land (tag frame) 0x01 =? 0) (payload_of (Z.land (tag frame) 0x01)) track ts
    ltac:(lia) ltac:(intros; apply length_payload_of) (length frame) frame 0 e1 ltac:(by rewrite Hcount) ltac:(lia)) as (ps & e' & chunks & -> & Hview & Hcat & Hne & Hem & Hfit).
  exists ps, e', chunks. split_and!; try done. intros ->. rewrite <- Hcat in Hlen. cbn in Hlen. lia.
Qed.

End Vp8Wire.

Section Properties.
Import PacketizerVP8 Vp8Wire.
Context {S : Type} `{!RtpExtensionSource S} (overhead : Z) (I : list S -> Prop) `{!PacketSources S overhead I}.
#[local] Set Default Proof Using "All".

(** packetizing a VP8 frame ends, keeps every packet within the packet size
    on the wire (header, extension, padding and protection included), gives the
    packets the frame's timestamp and the next sequence numbers in order; and
    the depacketizer gives back exactly the frame from what they carry, once it
    has seen a key frame. *)
Theorem vp8_roundtrip track now pts frame (e : env S) st :
  I (e_sources e) -> (3 <= length frame)%nat ->
  DepacketizerVP8.mSeenKeyFrame st = true \/ isKeyFrame frame = true ->
  exists ps e', generate track overhead now pts frame e = Some (ps, e') /\
    emitted I track (frameTimestamp e now pts).1 (frameTimestamp e now pts).2 ps e' /\
    Forall (fits overhead) ps /\
    forall timestamp items, Forall2 (carries timestamp) (map view ps) items ->
      DepacketizerVP8.extract st items = Some ([frame], DepacketizerVP8.mk true).
Proof.
  intros HI Hlen Hseen.
  destruct (generate_ok overhead I track now pts frame e HI Hlen)
    as (ps & e' & chunks & E & Hview & Hcat & Hne & Hcs & Hem & Hfit).
  exists ps, e'. split; [done|]. split; [done|]. split; [done|].
  intros timestamp items Hitems. rewrite Hview in Hitems. rewrite <- Hcat.
  refine (whole_extract _ _ _ _ (vp8_whole_frame _ chunks st (tag_bit frame) Hne Hcs _) timestamp items Hitems).
  by rewrite Hcat.
Qed.

End Properties.

Section Witnesses.
Import Demo PacketizerVP8.

(** A key frame that takes three packets. *)
Definition demo_frame : list Z := 0x10 :: replicate 2500 7.

Lemma vp8_roundtrip_witness :
  exists ps e', generate demo_track 10 1000 40000 demo_frame demo_env = Some (ps, e') /\
    emitted (sources_small 10) demo_track (frameTimestamp demo_env 1000 40000).1
      (frameTimestamp demo_env 1000 40000).2 ps e' /\
    Forall (fits 10) ps /\
    forall timestamp items, Forall2 (carries timestamp) (map view ps) items ->
      DepacketizerVP8.extract DepacketizerVP8.make items = Some ([demo_frame], DepacketizerVP8.mk true).
Proof.
  apply (vp8_roundtrip 10 (sources_small 10)).
  - split; vm_compute; congruence.
  - vm_compute. lia.
  - right. reflexivity.
Defined.

End Witnesses.
