(* ===== verification/Vp9.v ===== *)
(** * VP9: the payload descriptor and the bitstream tests (src/codec_vp9.cpp),
    [PacketizerVP9] (src/packetizer_vp9.cpp) and [DepacketizerVP9]
    (src/depacketizer_vp9.cpp), RFC 9628 *)

From S2P Require Import Prelude Bytes Extension Tracks Rtp Packets ExtensionSources.

(** ** The payload descriptor *)

Module CodecVP9.

Record PayloadDescriptor := mkDescriptor {
  picture_id_present : bool;
  inter_picture : bool;
  start_of_frame : bool;
  end_of_frame : bool;
  picture_id : Z
}.

(** A parser reads at the position [pos] of [data]: the outer [None] is an access
    out of bounds, the inner one [return false]. *)
Section Parser.
Context (data : list Z).

Definition parser (A : Type) : Type := nat -> option (option (A * nat)).

Definition done_ {A} (a : A) : parser A := fun pos => Some (Some (a, pos)).

Definition next_ {A B} (m : parser A) (f : A -> parser B) : parser B := fun pos =>
  x ← m pos; match x with None => Some None | Some (a, pos) => f a pos end.

Notation "'read' x := m 'then' k" := (next_ m (fun x => k))
  (at level 200, x pattern, m at level 100, k at level 200).

(** [if (pos >= size) return false; ... data[pos++]]. *)
Definition byte : parser Z := fun pos =>
  if (length data <=? pos)%nat then Some None else b ← data !! pos; Some (Some (b, S pos)).

(** [if (pos + n > size) return false; pos += n]. *)
Definition skip (n : nat) : parser unit := fun pos =>
  if (length data <? pos + n)%nat then Some None else Some (Some (tt, (pos + n)%nat)).

(** A field that is there only when a flag is set. *)
Definition when_ (b : bool) (m : parser unit) : parser unit := if b then m else done_ tt.

Definition pictureId (flagI : bool) : parser Z :=
  if flagI then
    read m_byte := byte then
    if has_bit m_byte 7
    then read low := byte then done_ (u16 (Z.lor (Z.shiftl (Z.land m_byte 0x7F) 8) low))
    else done_ (Z.land m_byte 0x7F)
  else done_ 0.

Definition layer_indices (flagF : bool) : parser unit :=
  read l_byte := byte then
  when_ (negb flagF && negb (has_bit l_byte 0)) (read _ := byte then done_ tt).

(** [for (int i = 0; i < 3; i++)] *)
Fixpoint references (n : nat) : parser unit :=
  match n with
  | O => done_ tt
  | S n => read ref_byte := byte then when_ (has_bit ref_byte 0) (references n)
  end.

(** [for (uint8_t i = 0; i < n_g; i++)] *)
Fixpoint picture_groups (n_g : nat) : parser unit :=
  match n_g with
  | O => done_ tt
  | S n_g =>
      read pg_byte := byte then
      read _ := skip (Z.to_nat (Z.land (Z.shiftr pg_byte 2) 0x03)) then
      picture_groups n_g
  end.

Definition scalability : parser unit :=
  read ss_byte := byte then
  let n_s := Z.land (Z.shiftr ss_byte 5) 0x07 in
  read _ := when_ (has_bit ss_byte 4) (skip (Z.to_nat (n_s + 1) * 4)) then
  when_ (has_bit ss_byte 3) (read n_g := byte then picture_groups (Z.to_nat n_g)).

Definition fields (byte0 : Z) : parser PayloadDescriptor :=
  let flagI := has_bit byte0 7 in
  let flagP := has_bit byte0 6 in
  let flagL := has_bit byte0 5 in
  let flagF := has_bit byte0 4 in
  let flagB := has_bit byte0 3 in
  let flagE := has_bit byte0 2 in
  let flagV := has_bit byte0 1 in
  read id := pictureId flagI then
  read _ := when_ flagL (layer_indices flagF) then
  read _ := when_ (flagF && flagP) (references 3) then
  read _ := when_ flagV scalability then
  done_ (mkDescriptor flagI flagP flagB flagE id).

(** [size < 1] is the test in front of the first byte. *)
Definition descriptor : parser PayloadDescriptor := next_ byte fields.

(** The descriptor and the payload behind it. *)
Definition parsePayloadDescriptor : option (option (PayloadDescriptor * list Z)) :=
  x ← (descriptor 0%nat : option (option (PayloadDescriptor * nat)));
  match x with None => Some None | Some (d, pos) => Some (Some (d, drop pos data)) end.

(** *** No access out of bounds *)

(** [safe m]: from a position within the data [m] ends within it, not before. *)
Definition safe {A} (m : parser A) : Prop := forall pos, (pos <= length data)%nat ->
  exists r, m pos = Some r /\ (forall a pos', r = Some (a, pos') -> (pos <= pos' <= length data)%nat).

Lemma safe_done {A} (a : A) : safe (done_ a).
Proof. intros pos H. eexists. split; [done|]. intros a' pos' [= <- <-]. lia. Qed.

Lemma safe_next {A B} (m : parser A) (f : A -> parser B) : safe m -> (forall a, safe (f a)) -> safe (next_ m f).
Proof.
  intros Hm Hf pos H. unfold next_. destruct (Hm pos H) as ([[a pos1]|] & -> & H1); cbn [mbind option_bind].
  - specialize (H1 _ _ eq_refl). destruct (Hf a pos1 ltac:(lia)) as (r & -> & H2). eexists. split; [done|].
    intros b pos' ->. specialize (H2 _ _ eq_refl). lia.
  - by exists None.
Qed.

(** A byte moves on. *)
Lemma byte_moves {B} (f : Z -> parser B) pos : (forall b, safe (f b)) -> (pos <= length data)%nat ->
  exists r, next_ byte f pos = Some r /\ (forall a pos', r = Some (a, pos') -> (pos < pos' <= length data)%nat).
Proof.
  intros Hf H. unfold next_, byte. destruct (Nat.leb_spec (length data) pos); [by exists None|].
  destruct (lookup_lt_is_Some_2 data pos ltac:(lia)) as [b ->]. cbn [mbind option_bind].
  destruct (Hf b (S pos) ltac:(lia)) as (r & E & Hr). exists r. split; [done|]. intros a pos' ->.
  specialize (Hr _ _ eq_refl). lia.
Qed.

Lemma safe_byte : safe byte.
Proof.
  intros pos H. unfold byte. destruct (Nat.leb_spec (length data) pos); [by exists None|].
  destruct (lookup_lt_is_Some_2 data pos ltac:(lia)) as [b ->]. eexists. split; [done|].
  intros a pos' [= <- <-]. lia.
Qed.

Lemma safe_skip n : safe (skip n).
Proof.
  intros pos H. unfold skip. destruct (Nat.ltb_spec (length data) (pos + n)); [by exists None|].
  eexists. split; [done|]. intros a pos' [= <- <-]. lia.
Qed.

Lemma safe_when b m : safe m -> safe (when_ b m).
Proof. destruct b; [done|]. intros _. apply safe_done. Qed.

#[local] Hint Resolve safe_done safe_byte safe_skip safe_when : vp9.

Ltac safe := repeat first [ apply safe_next; [|intros] | solve [auto with vp9] | apply safe_when | case_match ].

Lemma safe_references n : safe (references n).
Proof. induction n; cbn [references]; safe. Qed.

Lemma safe_picture_groups n : safe (picture_groups n).
Proof. induction n; cbn [picture_groups]; safe. Qed.

#[local] Hint Resolve safe_references safe_picture_groups : vp9.

Lemma safe_fields byte0 : safe (fields byte0).
Proof. unfold fields, pictureId, layer_indices, scalability. safe. Qed.

(** whatever bytes arrive as the payload of a VP9 packet, the parser of the
    payload descriptor reads only bytes that are there, and what it takes to be
    the payload is an end of the packet, at least a byte shorter than it. *)
Theorem vp9_parse_safe :
  exists r, parsePayloadDescriptor = Some r /\
    forall desc payload, r = Some (desc, payload) ->
      exists front, data = front ++ payload /\ (1 <= length front)%nat.
Proof.
  unfold parsePayloadDescriptor, descriptor.
  destruct (byte_moves fields 0 safe_fields ltac:(lia)) as (r & -> & H). cbn [mbind option_bind].
  destruct r as [[d pos]|]; (eexists; split; [done|]); [|done]. intros desc pl [= <- <-].
  specialize (H _ _ eq_refl). exists (take pos data). split; [by rewrite take_drop|]. rewrite length_take. lia.
Qed.

End Parser.

(** *** Writing a descriptor: I = 1, M = 1 *)

(** The bytes that are written into a buffer of [bufSize] bytes. *)
Definition buildPayloadDescriptor (bufSize : nat) (startOfFrame endOfFrame interPicture : bool) (pictureId : Z)
  : list Z :=
  if (bufSize <? 3)%nat then []
  else
    let buf0 := 0x80 in
    let buf0 := if interPicture then Z.lor buf0 0x40 else buf0 in
    let buf0 := if startOfFrame then Z.lor buf0 0x08 else buf0 in
    let buf0 := if endOfFrame then Z.lor buf0 0x04 else buf0 in
    [buf0; u8 (Z.lor 0x80 (Z.land (Z.shiftr pictureId 8) 0x7F)); u8 (Z.land pictureId 0xFF)].

(** The two bytes of a picture number give it back. *)
Lemma picture_id_bytes id : 0 <= id < 2 ^ 15 ->
  let high := u8 (Z.lor 0x80 (Z.land (Z.shiftr id 8) 0x7F)) in
  has_bit high 7 = true /\ u16 (Z.lor (Z.shiftl (Z.land high 0x7F) 8) (u8 (Z.land id 0xFF))) = id.
Proof.
  intros Hid high.
  assert (Z.land (Z.shiftr id 8) 0x7F = id / 256) as Hh.
  { change 0x7F with (2 ^ 7 - 1). rewrite land_ones_mod, shiftr_div by lia. change (2 ^ 8) with 256. zdm. }
  assert (0 <= id / 256 < 2 ^ 7) as Hr by zdm.
  assert (high = Z.shiftl 1 7 + id / 256) as Eh.
  { unfold high. rewrite Hh. change 0x80 with (Z.shiftl 1 7). rewrite lor_shiftl_add by lia.
    apply u8_small. unfold is_u8. change (Z.shiftl 1 7) with 128. lia. }
  split.
  - rewrite Eh, has_bit_testbit by lia. change (Z.shiftl 1 7) with (2 ^ 7).
    rewrite Z.testbit_true by lia. zdm.
  - rewrite Eh. change 0x7F with (2 ^ 7 - 1). rewrite land_ones_mod by lia.
    replace ((Z.shiftl 1 7 + id / 256) mod 2 ^ 7) with (id / 256) by (change (Z.shiftl 1 7) with 128; zdm).
    change 0xFF with (2 ^ 8 - 1). rewrite land_ones_mod by lia.
    rewrite u8_small by (unfold is_u8; zdm). rewrite lor_shiftl_add by zdm.
    change (2 ^ 8) with 256.
    rewrite u16_small by (unfold is_u16; zdm). zdm.
Qed.

(** The flags of the first byte are read as they were written. *)
Lemma flags_read (start last inter : bool) :
  let b := (let b := 0x80 in let b := if inter then Z.lor b 0x40 else b in
            let b := if start then Z.lor b 0x08 else b in if last then Z.lor b 0x04 else b) in
  has_bit b 7 = true /\ has_bit b 6 = inter /\ has_bit b 5 = false /\ has_bit b 4 = false /\
  has_bit b 3 = start /\ has_bit b 2 = last /\ has_bit b 1 = false.
Proof. by destruct start, last, inter. Qed.

Lemma parse_built start last inter id data : 0 <= id < 2 ^ 15 ->
  parsePayloadDescriptor (buildPayloadDescriptor 3 start last inter id ++ data) =
    Some (Some (mkDescriptor true inter start last id, data)).
Proof.
  intros Hid. unfold buildPayloadDescriptor. change (3 <? 3)%nat with false. cbv iota zeta.
  destruct (flags_read start last inter) as (H7 & H6 & H5 & H4 & H3 & H2 & H1). cbv zeta in *.
  destruct (picture_id_bytes id Hid) as (Hm & Eid). cbv zeta in Hm, Eid.
  set (b0 := if last then _ else _) in *. set (high := u8 (Z.lor 0x80 _)) in *. set (low := u8 (Z.land id _)) in *.
  unfold parsePayloadDescriptor, descriptor, fields, pictureId, next_, byte. cbn [length app Nat.leb lookup list_lookup mbind option_bind].
  rewrite H7, H6, H5, H4, H3, H2, H1. cbn [andb when_ length app Nat.leb lookup list_lookup mbind option_bind].
  rewrite Hm. cbn [length app Nat.leb lookup list_lookup mbind option_bind done_]. by rewrite Eid.
Qed.

(** *** Reading the uncompressed header *)

Definition isKeyFrame (data : list Z) : bool :=
  if (length data <? 1)%nat then false
  else
    let reader := BitReader.make data in
    let '(frame_marker, reader) := BitReader.readBits 2 reader in
    if negb (frame_marker =? 2) then false
    else
      let '(profile_low, reader) := BitReader.readBit reader in
      let '(profile_high, reader) := BitReader.readBit reader in
      let profile := Z.lor (Z.shiftl profile_high 1) profile_low in
      let reader := if profile =? 3 then (BitReader.readBit reader).2 else reader in
      let '(show_existing_frame, reader) := BitReader.readBit reader in
      if negb (show_existing_frame =? 0) then false
      else (BitReader.readBit reader).1 =? 0.

(** [color_config()], as the code reads it. *)
Definition skip_color (profile : Z) (reader : BitReader.t) : BitReader.t :=
  let '(color_space, reader) := BitReader.readBits 3 reader in
  if negb (color_space =? 7) then
    let reader := (BitReader.readBit reader).2 in
    if (profile =? 1) || (profile =? 3)
    then (BitReader.readBit (BitReader.readBit (BitReader.readBit reader).2).2).2
    else reader
  else if (profile =? 1) || (profile =? 3) then (BitReader.readBit reader).2 else reader.

(** [a || b || c] reads no more than it needs. *)
Definition sync_code (reader : BitReader.t) : bool * BitReader.t :=
  let '(a, reader) := BitReader.readBits 8 reader in
  if negb (a =? 0x49) then (false, reader)
  else
    let '(b, reader) := BitReader.readBits 8 reader in
    if negb (b =? 0x83) then (false, reader)
    else let '(c, reader) := BitReader.readBits 8 reader in (c =? 0x42, reader).

(** [width] and [height] when the result is true. *)
Definition extractDimensions (data : list Z) : option (Z * Z) :=
  if (length data <? 4)%nat then None
  else
    let reader := BitReader.make data in
    let '(frame_marker, reader) := BitReader.readBits 2 reader in
    if negb (frame_marker =? 2) then None
    else
      let '(profile_low, reader) := BitReader.readBit reader in
      let '(profile_high, reader) := BitReader.readBit reader in
      let profile := Z.lor (Z.shiftl profile_high 1) profile_low in
      let reader := if profile =? 3 then (BitReader.readBit reader).2 else reader in
      let '(show_existing_frame, reader) := BitReader.readBit reader in
      if negb (show_existing_frame =? 0) then None
      else
        let '(frame_type, reader) := BitReader.readBit reader in
        if negb (frame_type =? 0) then None
        else
          let reader := (BitReader.readBit reader).2 in
          let reader := (BitReader.readBit reader).2 in
          let '(ok, reader) := sync_code reader in
          if negb ok then None
          else
            let reader := skip_color profile reader in
            let '(w, reader) := BitReader.readBits 16 reader in
            let '(h, reader) := BitReader.readBits 16 reader in
            Some (u16 (w + 1), u16 (h + 1)).

End CodecVP9.

(** *** The header of a key frame, as the bitstream specification has it *)

Module KeyHeader.
Import CodecVP9.

(** The [n] low bits of a number, most significant first. *)
Fixpoint bits (n : nat) (v : Z) : list bool :=
  match n with O => [] | S n => Z.testbit v (Z.of_nat n) :: bits n v end.

Lemma length_bits n v : length (bits n v) = n.
Proof. induction n; cbn [bits length]; congruence. Qed.

Lemma bits_value_bits n v : forall acc, BitReader.bits_value acc (bits n v) = acc * 2 ^ Z.of_nat n + v mod 2 ^ Z.of_nat n.
Proof.
  unfold BitReader.bits_value. induction n as [|n IH]; intros acc; cbn [bits fold_left].
  - rewrite Z.mul_1_r, Z.mod_1_r. lia.
  - rewrite IH, Z.testbit_spec', Nat2Z.inj_succ, Z.pow_succ_r by lia.
    pose proof (Z.pow_pos_nonneg 2 (Z.of_nat n) ltac:(lia) ltac:(lia)) as Hp.
    rewrite (Z.mul_comm 2 (2 ^ Z.of_nat n)), Z.rem_mul_r by lia. lia.
Qed.

Lemma readBits_bits n v r rest : (n <= 32)%nat -> BitReader.at_bits r (bits n v ++ rest) ->
  exists r', BitReader.readBits n r = (v mod 2 ^ Z.of_nat n, r') /\ BitReader.at_bits r' rest.
Proof.
  intros Hn Hr. pose proof (length_bits n v) as Hl.
  destruct (BitReader.readBits_loop_at (bits n v) 0 0 r rest Hr ltac:(lia) ltac:(lia) ltac:(rewrite Hl; lia))
    as (r' & E & H & _).
  exists r'. split; [|done]. unfold BitReader.readBits. rewrite Hl in E. by rewrite E, bits_value_bits.
Qed.

Lemma length_bits_of l : length (BitReader.bits_of l) = (8 * length l)%nat.
Proof.
  unfold BitReader.bits_of. induction l as [|b l IH]; [done|]. cbn [map concat]. rewrite length_app, IH.
  cbn [length BitReader.byte_bits]. lia.
Qed.

Record t := mk {
  profile_low : bool; profile_high : bool;
  show_frame : bool; error_resilient_mode : bool;
  ten_or_twelve_bit : bool; color_space : Z; color_range : bool;
  subsampling_x : bool; subsampling_y : bool;
  width : Z; height : Z
}.

Definition profile (h : t) : Z := 2 * Z.b2z (profile_high h) + Z.b2z (profile_low h).

(** [color_config()]: the profiles 2 and 3 begin with a bit for the depth. *)
Definition color_config (h : t) : list bool :=
  (if profile_high h then [ten_or_twelve_bit h] else []) ++ bits 3 (color_space h) ++
  (if color_space h =? 7 then (if profile_low h then [false] else [])
   else color_range h :: (if profile_low h then [subsampling_x h; subsampling_y h; false] else [])).

(** [uncompressed_header()] of a key frame, up to its size. *)
Definition header (h : t) : list bool :=
  [true; false; profile_low h; profile_high h] ++
  (if profile_high h && profile_low h then [false] else []) ++
  [false; false; show_frame h; error_resilient_mode h] ++
  bits 8 0x49 ++ bits 8 0x83 ++ bits 8 0x42 ++ color_config h ++
  bits 16 (width h - 1) ++ bits 16 (height h - 1).

Definition valid (h : t) : Prop :=
  0 <= color_space h < 8 /\ 1 <= width h <= 2 ^ 16 /\ 1 <= height h <= 2 ^ 16.

(** *** What the two readers make of it *)

Ltac read_bit H :=
  lazymatch type of H with
  | BitReader.at_bits ?r (?b :: ?bs) =>
      let r' := fresh "r" in let E := fresh "E" in let H' := fresh "H" in
      destruct (BitReader.readBit_at r b bs H) as (r' & E & H' & _ & _); rewrite E; clear E H; rename H' into H;
      cbn [snd fst]
  end.

Ltac read_bits H n v :=
  let r' := fresh "r" in let E := fresh "E" in let H' := fresh "H" in
  lazymatch type of H with
  | BitReader.at_bits ?r (bits n v ++ ?bs) =>
      destruct (readBits_bits n v r bs ltac:(lia) H) as (r' & E & H'); rewrite E; clear E H; rename H' into H
  end.

Lemma sync_code_at r rest :
  BitReader.at_bits r (bits 8 0x49 ++ bits 8 0x83 ++ bits 8 0x42 ++ rest) ->
  exists r', sync_code r = (true, r') /\ BitReader.at_bits r' rest.
Proof.
  intros H. unfold sync_code.
  read_bits H 8%nat 0x49. replace (0x49 mod 2 ^ Z.of_nat 8) with 0x49 by done. cbn [Z.eqb Pos.eqb negb].
  read_bits H 8%nat 0x83. replace (0x83 mod 2 ^ Z.of_nat 8) with 0x83 by done. cbn [Z.eqb Pos.eqb negb].
  read_bits H 8%nat 0x42. by eexists.
Qed.

(** The colours of the profiles 0 and 1 are skipped as they are written. *)
Lemma skip_color_at h r rest : profile_high h = false -> 0 <= color_space h < 8 ->
  BitReader.at_bits r (color_config h ++ rest) ->
  BitReader.at_bits (skip_color (profile h) r) rest.
Proof.
  intros Hh Hc H. unfold color_config in H. rewrite Hh in H. cbn [app] in H. rewrite <- app_assoc in H.
  unfold skip_color. read_bits H 3%nat (color_space h). rewrite Z.mod_small by lia.
  unfold profile. rewrite Hh. destruct (color_space h =? 7); destruct (profile_low h); cbn [app] in H; cbn [negb Z.b2z];
    cbv iota; change (2 * 0 + 1) with 1; change (2 * 0 + 0) with 0; cbn [Z.eqb Pos.eqb orb]; by repeat read_bit H.
Qed.

(** what the bitstream specification calls the header of a key frame is
    taken for one, whatever its profile, flags, colours and size; in the profiles 0 and
    1 the size is read from it as it was written (in 16 bits: a size of 65536,
    which the format can express, is read as 0). *)
Theorem vp9_key_header h data rest :
  valid h -> BitReader.bits_of data = header h ++ rest ->
  isKeyFrame data = true /\
  (profile_high h = false -> extractDimensions data = Some (u16 (width h), u16 (height h))).
Proof.
  intros (Hspace & Hw & Hh) Hdata.
  assert (60 <= 8 * length data)%nat as Hlen.
  { rewrite <- length_bits_of, Hdata. unfold header, color_config. repeat rewrite ?length_app, ?length_bits. cbn [length].
    repeat case_match; cbn [length]; lia. }
  assert (BitReader.at_bits (BitReader.make data) (header h ++ rest)) as H by (by rewrite <- Hdata).
  unfold header in H. cbn [app] in H. rewrite <- !app_assoc in H. cbn [app] in H.
  change (true :: false :: ?l) with (bits 2 2 ++ l) in H.
  split; [|intros Hhigh].
  - unfold isKeyFrame. destruct (Nat.ltb_spec (length data) 1); [lia|].
    read_bits H 2%nat 2. replace (2 mod 2 ^ Z.of_nat 2) with 2 by done. cbn [Z.eqb Pos.eqb negb].
    do 2 read_bit H.
    destruct (profile_low h), (profile_high h); cbn [andb app] in H;
      (match goal with |- context [?x =? 3] => let y := eval vm_compute in (x =? 3) in change (x =? 3) with y end);
      by repeat read_bit H.
  - unfold extractDimensions. destruct (Nat.ltb_spec (length data) 4); [lia|].
    read_bits H 2%nat 2. replace (2 mod 2 ^ Z.of_nat 2) with 2 by done. cbn [Z.eqb Pos.eqb negb].
    do 2 read_bit H. rewrite Hhigh in H |- *. cbn [andb app Z.b2z] in H |- *.
    replace (Z.lor (Z.shiftl 0 1) (Z.b2z (profile_low h))) with (profile h)
      by (unfold profile; rewrite Hhigh; by destruct (profile_low h)).
    replace (profile h =? 3) with false by (unfold profile; rewrite Hhigh; by destruct (profile_low h)).
    do 4 read_bit H. cbn [Z.b2z Z.eqb negb]. rewrite <- !app_assoc in H.
    destruct (sync_code_at _ _ H) as (r' & -> & H'). cbn [negb].
    pose proof (skip_color_at h r' _ Hhigh Hspace H') as H2. clear H'. set (q := skip_color _ _) in *. clearbody q.
    read_bits H2 16%nat (width h - 1). read_bits H2 16%nat (height h - 1).
    by rewrite !Z.mod_small, !Z.sub_add by (cbn; lia).
Qed.

(** A key frame of 640 x 480 in profile 2: the bit for the depth is taken for the
    first bit of the colours, and everything behind it is off by a bit. *)
Definition profile2 : t := mk false true true false false 2 false false false 640 480.

Lemma profile2_dimensions :
  exists data, BitReader.bits_of data = header profile2 ++ replicate 3 false /\
    extractDimensions data <> Some (640, 480) /\ is_Some (extractDimensions data).
Proof.
  exists [0x92; 0x49; 0x83; 0x42; 0x20; 0x13; 0xF8; 0x0E; 0xF8]. vm_compute. split; [done|]. split; [done|by eexists].
Qed.

End KeyHeader.

(** ** PacketizerVP9 *)

Module PacketizerVP9.

Record state := mk { mPictureId : Z }.

Definition make : state := mk 0.

Definition isKeyFrame (frame : list Z) : bool := CodecVP9.isKeyFrame frame.

Definition kDescriptorSize : Z := 3.

(** The descriptor and the fragment of the bitstream. *)
Definition payload_of (frameIsKeyFrame : bool) (pictureId : Z) (startOfFrame endOfFrame : bool) (data : list Z)
  : list Z :=
  ByteWriter.write
    (ByteWriter.write []
       (CodecVP9.buildPayloadDescriptor 3 startOfFrame endOfFrame (negb frameIsKeyFrame) pictureId)) data.

Section Sources.
Context {S : Type} `{!RtpExtensionSource S}.

(** [while (currSize > 0)]; every round takes at least one byte. *)
Definition loop (fuel : nat) (track : Track.t) (timestamp basicPacketSize : Z) (frameIsKeyFrame : bool)
  (pictureId : Z) (currData : list Z) (e : env S) : option (list RtpPacket.t * env S) :=
  chunk_loop kDescriptorSize frameIsKeyFrame (payload_of frameIsKeyFrame pictureId) fuel track timestamp
    basicPacketSize currData 0 e.

Definition generate (track : Track.t) (overhead now pts_usec : Z) (frame : list Z) (st : state) (e : env S)
  : option (list RtpPacket.t * state * env S) :=
  let '(timestamp, e) := frameTimestamp e now pts_usec in
  let frameIsKeyFrame := CodecVP9.isKeyFrame frame in
  let pictureId := mPictureId st in
  let st := mk (Z.land (pictureId + 1) 0x7FFF) in
  '(packets, e) ← loop (length frame) track timestamp (Packetizer.getBasicPacketSize overhead) frameIsKeyFrame
                    pictureId frame e;
  Some (packets, st, e).

End Sources.
End PacketizerVP9.

(** ** DepacketizerVP9 *)

Module DepacketizerVP9.

Record state := mk { mSeenKeyFrame : bool }.

Definition make : state := mk false.
Definition reset (st : state) : state := mk false.

(** The payload of a packet; the inner [None] is the early return. *)
Definition extractPayload (frame : list Z) : option (option (list Z)) :=
  x ← CodecVP9.parsePayloadDescriptor frame;
  match x with None => Some None | Some (_, p) => Some (Some p) end.

(** [packetList.back()] needs a packet: a frame that is not empty has one. *)
Definition extract (st : state) (packetList : list JitterBufferItem) : option (list (list Z) * state) :=
  buf ← collect extractPayload packetList [];
  match buf with
  | None => Some ([], st)
  | Some buf =>
      if bool_decide (buf = []) then Some ([], st)
      else if negb (mSeenKeyFrame st) && negb (CodecVP9.isKeyFrame buf) then Some ([], st)
      else last ← list.last packetList; Some (if marker last then [buf] else [], mk true)
  end.

Definition isFrameStart (payload : list Z) : bool :=
  match payload with [] => false | front :: _ => has_bit front 3 end.

#[global] Instance depacketizer : Depacketizer state := {
  dep_getPacketKind st payload marker := Some (getPacketKind (isFrameStart payload) marker);
  dep_reset := reset;
  dep_extract := extract
}.

(** *** No payload stops the depacketizer *)

Lemma extractPayload_total_vp9 frame : is_Some (extractPayload frame).
Proof.
  unfold extractPayload, CodecVP9.parsePayloadDescriptor.
  destruct (CodecVP9.byte_moves frame (CodecVP9.fields frame) 0 (CodecVP9.safe_fields frame) ltac:(lia)) as (r & E & _).
  unfold CodecVP9.descriptor. rewrite E. cbn [mbind option_bind]. destruct r as [[d pos]|]; by eexists.
Qed.

Lemma extract_total_vp9 st l :
  exists frames st', extract st l = Some (frames, st') /\ Forall (fun f => f <> []) frames.
Proof.
  unfold extract. destruct (collect_total _ l extractPayload_total_vp9 []) as [[buf|] E]; rewrite E; cbn [mbind option_bind];
    [|exists [], st; split; [done|constructor]].
  case_bool_decide as Hbuf; [exists [], st; split; [done|constructor]|].
  case_match; [exists [], st; split; [done|constructor]|].
  destruct (list.last l) as [x|] eqn:El; cbn [mbind option_bind].
  - eexists _, _. split; [done|]. destruct (marker x); [by constructor|constructor].
  - apply list.last_None in El as ->. cbn in E. congruence.
Qed.

End DepacketizerVP9.

(** ** What is sent and what comes out *)

Module Vp9Wire.
Import PacketizerVP9 DepacketizerVP9.

Lemma length_payload_of_vp9 key id start last c : length (payload_of key id start last c) = (3 + length c)%nat.
Proof. unfold payload_of, ByteWriter.write. by rewrite app_nil_l, length_app. Qed.

Lemma frame_start_vp9 key id start last c : isFrameStart (payload_of key id start last c) = start.
Proof. by destruct key, start, last. Qed.

Lemma extractPayload_vp9 key id start last c : 0 <= id < 2 ^ 15 ->
  extractPayload (payload_of key id start last c) = Some (Some c).
Proof.
  intros Hid. unfold extractPayload, payload_of, ByteWriter.write. rewrite app_nil_l.
  by rewrite CodecVP9.parse_built.
Qed.

Lemma vp9_whole_frame key id chunks st :
  0 <= id < 2 ^ 15 -> chunks <> [] -> Forall (fun c => c <> []) chunks ->
  mSeenKeyFrame st = true \/ CodecVP9.isKeyFrame (concat chunks) = true ->
  whole_frame (cut (payload_of key id) true chunks) (concat chunks) st (mk true).
Proof.
  intros Hid Hne Hcs Hseen. pose proof (concat_nonempty _ Hne Hcs) as Hne'. split.
  - split; [by destruct chunks|done].
  - rewrite cut_length, <- (cut_kinds (payload_of key id) isFrameStart), map_map; [done|].
    intros. apply frame_start_vp9.
  - intros timestamp items H. cbn [dep_extract depacketizer]. unfold extract.
    rewrite (cut_collect (payload_of key id) extractPayload timestamp ltac:(intros; by apply extractPayload_vp9) _ _ _ _ H).
    cbn [mbind option_bind app]. rewrite bool_decide_false by done.
    assert (negb (mSeenKeyFrame st) && negb (CodecVP9.isKeyFrame (concat chunks)) = false) as ->
      by (destruct Hseen as [-> | ->]; [done|apply andb_false_r]).
    destruct (cut_last _ timestamp chunks _ _ Hne H) as (x & -> & Hm).
    cbn [mbind option_bind]. by rewrite Hm.
Qed.

(** The picture number of a packetizer is one of 15 bits, and stays one. *)
Definition id_ok (st : PacketizerVP9.state) : Prop := 0 <= mPictureId st < 2 ^ 15.

Lemma generate_vp9 {S} `{!RtpExtensionSource S} overhead (I : list S -> Prop) `{!PacketSources S overhead I}
  track now pts frame pst (e : env S) :
  I (e_sources e) -> frame <> [] ->
  exists ps pst' e' chunks, generate track overhead now pts frame pst e = Some (ps, pst', e') /\
    mPictureId pst' = (mPictureId pst + 1) mod 2 ^ 15 /\
    map view ps = cut (payload_of (CodecVP9.isKeyFrame frame) (mPictureId pst)) true chunks /\
    concat chunks = frame /\ chunks <> [] /\ Forall (fun c => c <> []) chunks /\
    emitted I track (frameTimestamp e now pts).1 (frameTimestamp e now pts).2 ps e' /\
    Forall (fits overhead) ps.
Proof.
  intros HI Hne. unfold generate, loop. pose proof (frameTimestamp_sources e now pts) as Hcount.
  destruct (frameTimestamp e now pts) as [ts e1]. cbn [fst snd] in *.
  change kDescriptorSize with (Z.of_nat 3).
  destruct (chunk_loop_ok overhead I 3 (CodecVP9.isKeyFrame frame)
    (payload_of (CodecVP9.isKeyFrame frame) (mPictureId pst)) track ts
    ltac:(lia) ltac:(intros; apply length_payload_of_vp9) (length frame) frame 0 e1 ltac:(by rewrite Hcount) ltac:(lia)) as
    (ps & e' & chunks & -> & Hview & Hcat & Hcs & Hem & Hfit).
  cbn [mbind option_bind]. exists ps, (PacketizerVP9.mk (Z.land (mPictureId pst + 1) 0x7FFF)), e', chunks.
  split; [done|]. split; [cbn [mPictureId]; change 0x7FFF with (2 ^ 15 - 1); by rewrite land_ones_mod by lia|].
  split_and!; try done. intros ->. by cbn in Hcat.
Qed.

End Vp9Wire.

Section Properties.
Import PacketizerVP9 Vp9Wire.
Context {S : Type} `{!RtpExtensionSource S} (overhead : Z) (I : list S -> Prop) `{!PacketSources S overhead I}.
#[local] Set Default Proof Using "All".

(** packetizing a VP9 frame ends, keeps every packet within the packet size on
    the wire, gives the packets the frame's timestamp and the next sequence
    numbers in order, and moves on to the next picture number of 15 bits; and the
    depacketizer gives back exactly the frame from what they carry, once it has
    seen a key frame. *)
Theorem vp9_roundtrip track now pts frame pst (e : env S) st :
  I (e_sources e) -> frame <> [] -> id_ok pst ->
  DepacketizerVP9.mSeenKeyFrame st = true \/ isKeyFrame frame = true ->
  exists ps pst' e', generate track overhead now pts frame pst e = Some (ps, pst', e') /\
    id_ok pst' /\ mPictureId pst' = (mPictureId pst + 1) mod 2 ^ 15 /\
    emitted I track (frameTimestamp e now pts).1 (frameTimestamp e now pts).2 ps e' /\
    Forall (fits overhead) ps /\
    forall timestamp items, Forall2 (carries timestamp) (map view ps) items ->
      DepacketizerVP9.extract st items = Some ([frame], DepacketizerVP9.mk true).
Proof.
  intros HI Hne Hid Hseen.
  destruct (generate_vp9 overhead I track now pts frame pst e HI Hne)
    as (ps & pst' & e' & chunks & E & Epst & Hview & Hcat & Hnc & Hcs & Hem & Hfit).
  exists ps, pst', e'. split; [done|]. split; [unfold id_ok; rewrite Epst; by apply Z.mod_pos_bound|].
  split; [done|]. split; [done|]. split; [done|].
  intros timestamp items Hitems. rewrite Hview in Hitems. rewrite <- Hcat.
  refine (whole_extract _ _ _ _ (vp9_whole_frame _ _ chunks st Hid Hnc Hcs _) timestamp items Hitems).
  by rewrite Hcat.
Qed.

End Properties.

Section Witnesses.
Import Demo PacketizerVP9 Vp9Wire.

(** A key frame that takes three packets, with the last picture number. *)
Definition demo_vp9 : list Z := 0x82 :: replicate 2500 7.

Lemma vp9_roundtrip_witness :
  exists ps pst' e', generate demo_track 10 1000 40000 demo_vp9 (mk 32767) demo_env = Some (ps, pst', e') /\
    id_ok pst' /\ mPictureId pst' = 0 /\
    emitted (sources_small 10) demo_track (frameTimestamp demo_env 1000 40000).1
      (frameTimestamp demo_env 1000 40000).2 ps e' /\
    Forall (fits 10) ps /\
    forall timestamp items, Forall2 (carries timestamp) (map view ps) items ->
      DepacketizerVP9.extract DepacketizerVP9.make items = Some ([demo_vp9], DepacketizerVP9.mk true).
Proof.
  apply (vp9_roundtrip 10 (sources_small 10)).
  - split; vm_compute; congruence.
  - done.
  - split; vm_compute; congruence.
  - right. reflexivity.
Defined.

Lemma vp9_key_header_witness :
  CodecVP9.isKeyFrame [0x82; 0x49; 0x83; 0x42; 0x20; 0x27; 0xF0; 0x1D; 0xF0] = true /\
  (false = false -> CodecVP9.extractDimensions [0x82; 0x49; 0x83; 0x42; 0x20; 0x27; 0xF0; 0x1D; 0xF0] = Some (640, 480)).
Proof.
  apply (KeyHeader.vp9_key_header (KeyHeader.mk false false true false false 1 false false false 640 480) _ (replicate 4 false)).
  - unfold KeyHeader.valid. cbn. lia.
  - vm_compute. reflexivity.
Defined.

End Witnesses.
