(* ===== verification/Av1.v ===== *)
(** * AV1: the OBU parser (src/codec_av1.cpp), [PacketizerAV1]
    (src/packetizer_av1.cpp) and [DepacketizerAV1] (src/depacketizer_av1.cpp),
    the RTP payload format of the Alliance for Open Media *)

From S2P Require Import Prelude Bytes Extension Tracks Rtp Packets ExtensionSources.

(** ** The OBU parser *)

Module CodecAV1.

Module ObuType.
Definition SequenceHeader : Z := 1.
Definition TemporalDelimiter : Z := 2.
Definition FrameHeader : Z := 3.
Definition Frame : Z := 6.
Definition RedundantFrame : Z := 7.
End ObuType.

(** [while ( *size > 0 && shift < 56)]: the value, and [data] and [size] after it.
    [None] is a read past the end of the buffer. *)
Fixpoint read_leb128_loop (fuel : nat) (buf : list Z) (value shift : Z) (data : nat) (size : Z)
  : option (Z * nat * Z) :=
  if negb ((0 <? size) && (shift <? 56)) then Some (value, data, size)
  else
    match fuel with
    | O => None
    | S fuel =>
        byte ← buf !! data;
        let value := Z.lor value (u64 (Z.shiftl (Z.land byte 0x7F) shift)) in
        if Z.land byte 0x80 =? 0 then Some (value, S data, size - 1)
        else read_leb128_loop fuel buf value (shift + 7) (S data) (size - 1)
    end.

(** Eight rounds at most. *)
Definition read_leb128 (buf : list Z) (data : nat) (size : Z) : option (Z * nat * Z) :=
  read_leb128_loop 8 buf 0 0 data size.

(** [mData] and [mEnd] are the buffer; pointers into it are positions, and
    [mCurrData] may be null. *)
Module ObuParser.

Record t := mk {
  mData : list Z;
  mCurrType : Z;
  mCurrData : option nat;
  mCurrSize : Z;
  mCurrTemporalId : Z;
  mCurrSpatialId : Z
}.

Definition failed (buf : list Z) : t := mk buf 0 None 0 0 0.

(** The header and its extension: the type, the temporal and spatial ids, whether
    there is a size, and [data] and [size] behind them. *)
Definition parse_header (buf : list Z) (data : nat) (size : Z)
  : option (option (Z * Z * Z * bool * nat * Z)) :=
  if size <? 1 then Some None
  else
    header ← buf !! data;
    let data := S data in
    let size := size - 1 in
    if negb (Z.land header 0x80 =? 0) then Some None
    else
      let obu_type := Z.land (Z.shiftr header 3) 0x3F in
      let has_extension := Z.land (Z.shiftr header 2) 0x01 in
      let has_size := Z.land (Z.shiftr header 1) 0x01 in
      if negb (has_extension =? 0) then
        if size <? 1 then Some None
        else
          ext_header ← buf !! data;
          Some (Some (obu_type, Z.land (Z.shiftr ext_header 5) 0x07, Z.land (Z.shiftr ext_header 3) 0x03,
                      negb (has_size =? 0), S data, size - 1))
      else Some (Some (obu_type, 0, 0, negb (has_size =? 0), data, size)).

(** [leb128_size] is compared with what was left in front of the number, not
    behind it. *)
Definition parseImpl (buf : list Z) (data : nat) (size : Z) : option t :=
  match parse_header buf data size with
  | None => None
  | Some None => Some (failed buf)
  | Some (Some (obu_type, temporal_id, spatial_id, has_size, data, size)) =>
      let payload_size := size in
      if has_size then
        '(leb128_size, data, size) ← read_leb128 buf data size;
        if payload_size <? leb128_size then Some (failed buf)
        else Some (mk buf obu_type (Some data) leb128_size temporal_id spatial_id)
      else Some (mk buf obu_type (Some data) payload_size temporal_id spatial_id)
  end.

Definition make (buf : list Z) : option t := parseImpl buf 0 (Z.of_nat (length buf)).

(** [operator bool] *)
Definition valid (p : t) : bool :=
  match mCurrData p with None => false | Some data => (data <? length (mData p))%nat end.

(** [mEnd - (mCurrData + mCurrSize)] becomes a [size_t]. *)
Definition next (p : t) : option t :=
  match mCurrData p with
  | None => Some p
  | Some data =>
      let pos := Z.of_nat data + mCurrSize p in
      parseImpl (mData p) (Z.to_nat pos) (u64 (Z.of_nat (length (mData p)) - pos))
  end.

Definition isAtEnd (p : t) : bool :=
  match mCurrData p with
  | None => true
  | Some data => Z.of_nat (length (mData p)) <=? Z.of_nat data + mCurrSize p
  end.

Definition currType (p : t) : Z := mCurrType p.
Definition currData (p : t) : option nat := mCurrData p.
Definition currSize (p : t) : Z := mCurrSize p.
Definition currTemporalId (p : t) : Z := mCurrTemporalId p.
Definition currSpatialId (p : t) : Z := mCurrSpatialId p.

(** [n] bytes from the current data on; [None] is a read past the end. *)
Definition bytes_at (p : t) (from : nat) (n : Z) : option (list Z) :=
  if Z.of_nat from + n <=? Z.of_nat (length (mData p))
  then Some (take (Z.to_nat n) (drop from (mData p))) else None.

End ObuParser.

Definition AV1_KEY_FRAME : Z := 0.
Definition AV1_INTRA_ONLY_FRAME : Z := 2.

Definition isFrameObuType (obuType : Z) : bool :=
  (obuType =? ObuType.FrameHeader) || (obuType =? ObuType.Frame) || (obuType =? ObuType.RedundantFrame).

(** [data] is where the OBU's data starts in [buf]. *)
Definition isKeyFrameObu (obuType : Z) (buf : list Z) (data : nat) (size : Z) : option bool :=
  if isFrameObuType obuType && (1 <? size) then
    header ← buf !! data;
    if negb (Z.land header 0x80 =? 0) then Some false
    else
      let frame_type := Z.land (Z.shiftr header 5) 0x03 in
      Some ((frame_type =? AV1_KEY_FRAME) || (frame_type =? AV1_INTRA_ONLY_FRAME))
  else Some false.

(** [for (ObuParser parser(frame); parser; parser.next())] up to the first OBU for
    which [test] holds; every OBU takes at least a byte. *)
Fixpoint any_obu (fuel : nat) (test : ObuParser.t -> nat -> option bool) (p : ObuParser.t) : option bool :=
  match ObuParser.mCurrData p with
  | Some data =>
      if ObuParser.valid p then
        match fuel with
        | O => None
        | S fuel =>
            found ← test p data;
            if (found : bool) then Some true else p ← ObuParser.next p; any_obu fuel test p
        end
      else Some false
  | None => Some false
  end.

Definition any_obu_of (frame : list Z) (test : ObuParser.t -> nat -> option bool) : option bool :=
  p ← ObuParser.make frame; any_obu (S (length frame)) test p.

End CodecAV1.

(** ** PacketizerAV1 *)

Module PacketizerAV1.
Import CodecAV1.

Definition is_key_obu (p : ObuParser.t) (data : nat) : option bool :=
  if ObuParser.currType p =? ObuType.SequenceHeader then Some true
  else isKeyFrameObu (ObuParser.currType p) (ObuParser.mData p) data (ObuParser.currSize p).

Definition isKeyFrame (frame : list Z) : option bool := any_obu_of frame is_key_obu.

Definition is_sequence_header (p : ObuParser.t) (data : nat) : option bool :=
  Some (ObuParser.currType p =? ObuType.SequenceHeader).

(** The variables of [generate] that live across OBUs. *)
Record locals {S : Type} := mkLocals {
  result : list RtpPacket.t;
  isNewCodedVideoSequence : bool;
  isContinuation : bool;
  payload : list Z;
  extension : RtpExtension.t;
  usablePayloadSize : Z;
  padding : Z;
  packetNumber : nat;
  l_env : env S
}.
Arguments locals : clear implicits.

Section Sources.
Context {S : Type} `{!RtpExtensionSource S}.
Context (track : Track.t) (frameTimestamp basicPacketSize : Z).

(** [if (payload.empty())]: what a packet starts with. *)
Definition begin_packet (l : locals S) : locals S :=
  if bool_decide (payload l = []) then
    let '(ext, sources) := Packetizer.buildExtension track (isNewCodedVideoSequence l) (packetNumber l) (e_sources (l_env l)) in
    let '(pad, sources) := PacketizerVideo.getPadding track (Z.to_nat basicPacketSize) sources in
    mkLocals _ (result l) (isNewCodedVideoSequence l) (isContinuation l) (payload l) ext
      (PacketizerVideo.adjustPacketSize basicPacketSize pad ext) pad (packetNumber l)
      (with_sources (l_env l) sources)
  else l.

(** A packet with the payload so far; [moved] is what is left of the extension. *)
Definition push_packet (marker : bool) (ext moved : RtpExtension.t) (l : locals S) : locals S :=
  let '((rollover, sequence), e) := nextSequence (l_env l) in
  mkLocals _
    (result l ++ [RtpPacket.make track marker rollover sequence frameTimestamp (padding l) ext (payload l)])
    (isNewCodedVideoSequence l) (isContinuation l) [] moved (usablePayloadSize l) (padding l)
    (Datatypes.S (packetNumber l)) e.

(** How much of the OBU to write, and whether the packet is sent first because it
    is full: its extension is moved away and not built again. *)
Definition choose_size (obuCurrSize : Z) (l : locals S) : Z * locals S :=
  let writeNow := Z.min obuCurrSize (usablePayloadSize l) in
  if bool_decide (payload l = []) then (writeNow, l)
  else
    let payloadSizeSoFar := Z.of_nat (length (payload l)) in
    if payloadSizeSoFar + 100 <? usablePayloadSize l
    then (Z.min obuCurrSize (usablePayloadSize l - payloadSizeSoFar), l)
    else (writeNow, push_packet false (extension l) RtpExtension.make_empty l).

Definition with_payload (l : locals S) (p : list Z) : locals S :=
  mkLocals _ (result l) (isNewCodedVideoSequence l) (isContinuation l) p (extension l) (usablePayloadSize l)
    (padding l) (packetNumber l) (l_env l).

(** The aggregation header |Z|Y|0 0|N|-|-|-|. *)
Definition aggregation_header (l : locals S) : locals S :=
  if bool_decide (payload l = []) then
    mkLocals _ (result l) false (isContinuation l)
      (ByteWriter.writeU8 []
         (u8 (Z.lor (Z.shiftl (if isContinuation l then 1 else 0) 7)
                    (Z.shiftl (if isNewCodedVideoSequence l then 1 else 0) 3))))
      (extension l) (usablePayloadSize l) (padding l) (packetNumber l) (l_env l)
  else l.

(** The size, the headers of the OBU in its first packet, and the data. *)
Definition write_obu (first : bool) (obuType temporalId spatialId : Z) (data : list Z) (l : locals S)
  : option (locals S) :=
  let isNeedHeaderExtension := negb (temporalId =? 0) || negb (spatialId =? 0) in
  let ext := if isNeedHeaderExtension then 1 else 0 in
  let writeSize := (if first then 1 else 0) + ext + Z.of_nat (length data) in
  p ← ByteWriter.writeLEB128 (payload l) (u32 writeSize);
  let p :=
    if first then
      let p := ByteWriter.writeU8 p (u8 (Z.lor (Z.shiftl obuType 3) (Z.shiftl ext 2))) in
      if isNeedHeaderExtension
      then ByteWriter.writeU8 p (u8 (Z.lor (Z.shiftl temporalId 5) (Z.shiftl spatialId 3))) else p
    else p in
  Some (with_payload l (ByteWriter.write p data)).

Definition with_continuation (l : locals S) (b : bool) : locals S :=
  mkLocals _ (result l) (isNewCodedVideoSequence l) b (payload l) (extension l) (usablePayloadSize l)
    (padding l) (packetNumber l) (l_env l).

(** [payload.data()[0] |= (1 << 6)] *)
Definition set_Y (p : list Z) : list Z := match p with [] => [] | b :: p => Z.lor b 0x40 :: p end.

(** [while (obuCurrSize > 0)]: [from] is [obuCurrData]; every round writes at least
    a byte. *)
Fixpoint obu_loop (fuel : nat) (p : ObuParser.t) (from : nat) (obuCurrSize : Z) (l : locals S)
  : option (locals S) :=
  if obuCurrSize <=? 0 then Some l
  else
    match fuel with
    | O => None
    | Datatypes.S fuel =>
        let l := begin_packet l in
        let '(writeNow, l) := choose_size obuCurrSize l in
        let l := aggregation_header l in
        data ← ObuParser.bytes_at p from writeNow;
        l ← write_obu (bool_decide (ObuParser.currData p = Some from)) (ObuParser.currType p)
              (ObuParser.currTemporalId p) (ObuParser.currSpatialId p) data l;
        let continued := writeNow <? obuCurrSize in
        let l := with_continuation l continued in
        let l :=
          if continued
          then push_packet false (RtpExtension.copy (extension l)) (extension l) (with_payload l (set_Y (payload l)))
          else l in
        obu_loop fuel p (from + Z.to_nat writeNow) (obuCurrSize - writeNow) l
    end.

(** The loop over the OBUs. *)
Fixpoint obus_loop (fuel : nat) (p : ObuParser.t) (l : locals S) : option (locals S) :=
  match ObuParser.mCurrData p with
  | Some data =>
      if ObuParser.valid p then
        match fuel with
        | O => None
        | Datatypes.S fuel =>
            l ← (if ObuParser.currType p =? ObuType.TemporalDelimiter then Some l
                 else obu_loop (Z.to_nat (ObuParser.currSize p)) p data (ObuParser.currSize p) l);
            p ← ObuParser.next p;
            obus_loop fuel p l
        end
      else Some l
  | None => Some l
  end.

End Sources.

Definition generate {S : Type} `{!RtpExtensionSource S} (track : Track.t) (overhead now pts_usec : Z)
  (frame : list Z) (e : env S) : option (list RtpPacket.t * env S) :=
  let '(timestamp, e) := Packets.frameTimestamp e now pts_usec in
  isNew ← any_obu_of frame is_sequence_header;
  let basicPacketSize := u64 (Packetizer.getBasicPacketSize overhead - 4) in
  p ← ObuParser.make frame;
  l ← obus_loop track timestamp basicPacketSize (Datatypes.S (length frame)) p
        (mkLocals S [] isNew false [] RtpExtension.make_empty 0 0 0 e);
  let l := if bool_decide (payload l = []) then l
           else push_packet track timestamp true (extension l) RtpExtension.make_empty l in
  Some (result l, l_env l).

End PacketizerAV1.

(** ** BufferedObu *)

Module BufferedObu.

Record t := mk { mHeader : Z; mExtension : Z; mBuf : list Z }.

Definition make : t := mk 0 0 [].

Definition setHeader (o : t) (header : Z) : t := mk header (mExtension o) (mBuf o).
Definition setExtension (o : t) (ext : Z) : t := mk (mHeader o) ext (mBuf o).
Definition append (o : t) (data : list Z) : t := mk (mHeader o) (mExtension o) (mBuf o ++ data).

(** The OBU with its size, and the emptied buffer. *)
Definition flushTo (o : t) (out : list Z) : option (t * list Z) :=
  if negb (mHeader o =? 0) then
    let out := ByteWriter.writeU8 out (u8 (Z.lor (mHeader o) (Z.shiftl 1 1))) in
    let out := if negb (Z.land (mHeader o) (Z.shiftl 1 2) =? 0) then ByteWriter.writeU8 out (mExtension o) else out in
    out ← ByteWriter.writeLEB128 out (u32 (Z.of_nat (length (mBuf o))));
    Some (make, ByteWriter.write out (mBuf o))
  else Some (o, out).

End BufferedObu.

(** ** DepacketizerAV1 *)

Module DepacketizerAV1.

Record state := mk { mSeenNewSequence : bool }.

Definition make : state := mk false.
Definition reset (st : state) : state := mk false.

(** Is this the last OBU, which has no size? *)
Definition is_last (valueW obuIndex : Z) : bool := (0 <? valueW) && (obuIndex =? valueW - 1).

(** [obuSize], as a [size_t]. *)
Definition read_size (last : bool) (r : ByteReader.t) : option (Z * ByteReader.t) :=
  if last then Some (Z.of_nat (ByteReader.remaining r), r) else ByteReader.readLEB128 r.

(** The start of a new OBU: the one before is written out, the headers are read,
    and [obuSize] is what is left. *)
Definition start_obu (obuSize : Z) (r : ByteReader.t) (o : BufferedObu.t) (w : list Z)
  : option (Z * ByteReader.t * BufferedObu.t * list Z) :=
  '(o, w) ← BufferedObu.flushTo o w;
  '(obuHeader, r) ← ByteReader.readU8 r;
  let obuSize := u64 (obuSize - 1) in
  let o := BufferedObu.setHeader o obuHeader in
  if negb (Z.land (Z.shiftr obuHeader 2) 0x01 =? 0) && (1 <=? ByteReader.remaining r)%nat then
    '(obuExtension, r) ← ByteReader.readU8 r;
    Some (u64 (obuSize - 1), r, BufferedObu.setExtension o obuExtension, w)
  else Some (obuSize, r, o, w).

(** [bufferedObu.append(packet->payload.data() + reader.position(), obuSize)] and
    [reader.skip(obuSize)]: more than there is, is a read past the end. *)
Definition take_data (obuSize : Z) (r : ByteReader.t) (o : BufferedObu.t) : option (ByteReader.t * BufferedObu.t) :=
  _ ← guard_true (obuSize <=? Z.of_nat (ByteReader.remaining r));
  let n := Z.to_nat obuSize in
  let data := take n (ByteReader.current r) in
  r ← ByteReader.skip r n;
  Some (r, BufferedObu.append o data).

(** [while (reader.remaining() >= 1)]; every round that goes on reads a size. *)
Fixpoint obu_loop (fuel : nat) (valueZ : bool) (valueW obuIndex : Z) (r : ByteReader.t) (o : BufferedObu.t)
  (w : list Z) : option (BufferedObu.t * list Z) :=
  if (ByteReader.remaining r <? 1)%nat then Some (o, w)
  else
    match fuel with
    | O => None
    | S fuel =>
        let last := is_last valueW obuIndex in
        '(obuSize, r) ← read_size last r;
        if (obuSize <=? Z.of_nat (ByteReader.remaining r)) && (0 <? obuSize) then
          '(obuSize, r, o, w) ← (if valueZ then Some (obuSize, r, o, w) else start_obu obuSize r o w);
          '(r, o) ← take_data obuSize r o;
          if last then Some (o, w) else obu_loop fuel valueZ valueW (u32 (obuIndex + 1)) r o w
        else Some (o, w)
    end.

(** One packet: |Z|Y|WW|N|-|-|-| and its OBUs. *)
Definition extract_packet (pl : list Z) (st : state) (o : BufferedObu.t) (w : list Z)
  : option (state * BufferedObu.t * list Z) :=
  let reader := ByteReader.make pl in
  if (1 <=? ByteReader.remaining reader)%nat then
    '(packetHeader, reader) ← ByteReader.readU8 reader;
    let valueZ := has_bit packetHeader 7 in
    let valueW := Z.land (Z.shiftr packetHeader 4) 0x03 in
    let valueN := Z.land (Z.shiftr packetHeader 3) 0x01 in
    let st := if negb (valueN =? 0) then mk true else st in
    '(o, w) ← obu_loop (S (length pl)) valueZ valueW 0 reader o w;
    Some (st, o, w)
  else Some (st, o, w).

Fixpoint extract_loop (packetList : list JitterBufferItem) (st : state) (o : BufferedObu.t) (w : list Z)
  : option (state * BufferedObu.t * list Z) :=
  match packetList with
  | [] => Some (st, o, w)
  | packet :: packetList =>
      '(st, o, w) ← extract_packet (payload packet) st o w;
      extract_loop packetList st o w
  end.

Definition extractImpl (m : bool) (frame : list Z) (st : state) : list (list Z) :=
  if bool_decide (frame = []) then []
  else if negb (mSeenNewSequence st) then []
  else if m then [frame] else [].

(** [packetList.back()] needs a packet: a frame that is not empty has one. *)
Definition extract (st : state) (packetList : list JitterBufferItem) : option (list (list Z) * state) :=
  '(st, o, w) ← extract_loop packetList st BufferedObu.make [];
  '(_, buf) ← BufferedObu.flushTo o w;
  if bool_decide (buf = []) then Some ([], st)
  else last ← list.last packetList; Some (extractImpl (marker last) buf st, st).

(** The loop of [isFrameStart]; [reader.skip] aborts when [obuSize] is more than
    there is. *)
Fixpoint start_loop (fuel : nat) (valueW obuIndex : Z) (r : ByteReader.t) : option bool :=
  if (ByteReader.remaining r <? 1)%nat then Some false
  else
    match fuel with
    | O => None
    | S fuel =>
        let last := is_last valueW obuIndex in
        '(obuSize, r) ← read_size last r;
        '(found, obuSize, r) ←
          (if (1 <=? ByteReader.remaining r)%nat && (1 <=? obuSize) then
             '(obuHeader, r) ← ByteReader.readU8 r;
             let obuType := Z.land (Z.shiftr obuHeader 3) 0x0F in
             Some ((obuType =? CodecAV1.ObuType.SequenceHeader) || CodecAV1.isFrameObuType obuType, obuSize - 1, r)
           else Some (false, obuSize, r));
        if (found : bool) then Some true
        else if last then Some false
        else
          _ ← guard_true (obuSize <=? Z.of_nat (ByteReader.remaining r));
          r ← ByteReader.skip r (Z.to_nat obuSize);
          start_loop fuel valueW (u32 (obuIndex + 1)) r
    end.

Definition isFrameStart (pl : list Z) : option bool :=
  let reader := ByteReader.make pl in
  if (1 <=? ByteReader.remaining reader)%nat then
    '(packetHeader, reader) ← ByteReader.readU8 reader;
    if has_bit packetHeader 7 then Some false
    else start_loop (S (length pl)) (Z.land (Z.shiftr packetHeader 4) 0x03) 0 reader
  else Some false.

#[global] Instance depacketizer : Depacketizer state := {
  dep_getPacketKind st pl m := b ← isFrameStart pl; Some (getPacketKind b m);
  dep_reset := reset;
  dep_extract := extract
}.

End DepacketizerAV1.

(** ** What goes wrong *)

Module Av1Edges.
Import CodecAV1 PacketizerAV1.

(** The size is compared with the bytes in front of it: an OBU of two bytes with
    a size of one passes for one that ends behind the buffer. *)
Lemma obu_ends_outside :
  exists p, ObuParser.make [0x32; 0x01] = Some p /\ ObuParser.currSize p = 1 /\ ObuParser.currData p = Some 2%nat /\
    ObuParser.valid p = false.
Proof. eexists. split; [reflexivity|]. done. Qed.

Lemma obu_read_outside :
  exists p, ObuParser.make [0x32; 0x02; 0x10] = Some p /\ ObuParser.valid p = true /\
    ObuParser.bytes_at p 2 (ObuParser.currSize p) = None.
Proof. eexists. split; [reflexivity|]. done. Qed.

(** One payload of three bytes stops [extract], one of two [isFrameStart]. *)
Lemma extract_runs_outside : DepacketizerAV1.extract_packet [0x00; 0x01; 0x34; 0x00] DepacketizerAV1.make BufferedObu.make [] = None.
Proof. reflexivity. Qed.

Lemma frame_start_aborts : DepacketizerAV1.isFrameStart [0x00; 0x01] = None.
Proof. reflexivity. Qed.

End Av1Edges.
