(* ===== verification/Av1Props.v ===== *)
(** * Av1Props: which payloads stop the AV1 depacketizer, and what of a frame
    comes out of it *)

From S2P Require Import Prelude Bytes Extension Tracks Rtp Packets ExtensionSources Av1.

(** ** The framing of a payload: its elements *)

Module Framing.
Import DepacketizerAV1.

(** The source's way to test a bit. *)
Lemma shifted_bit x n : 0 <= n -> negb (Z.land (Z.shiftr x n) 0x01 =? 0) = has_bit x n.
Proof.
  intros Hn. rewrite has_bit_testbit by done. change 0x01 with (2 ^ 1 - 1). rewrite land_ones_mod by lia.
  change (2 ^ 1) with 2. rewrite <- Z.bit0_mod, Z.shiftr_spec, Z.add_0_l by lia. by destruct (Z.testbit x n).
Qed.

(** The number in front of a list, and the rest. *)
Fixpoint leb_split (fuel : nat) (l : list Z) (result shift : Z) : Z * list Z :=
  match fuel, l with
  | S fuel, byte :: l =>
      let result := Z.lor result (u32 (Z.shiftl (Z.land byte 0x7F) shift)) in
      if Z.land byte 0x80 =? 0 then (result, l)
      else if 32 <=? shift + 7 then (result, l)
      else leb_split fuel l result (shift + 7)
  | _, _ => (result, l)
  end.

Definition unleb (l : list Z) : Z * list Z := leb_split 5 l 0 0.

Lemma leb_loop_split fuel : forall pre l result shift, shift + 7 * Z.of_nat fuel = 35 -> (1 <= fuel)%nat ->
  exists mid, l = mid ++ (leb_split fuel l result shift).2 /\ (l <> [] -> mid <> []) /\
    ByteReader.leb128_loop fuel (ByteReader.reader_at pre l) result shift =
      Some ((leb_split fuel l result shift).1,
            ByteReader.reader_at (pre ++ mid) (leb_split fuel l result shift).2).
Proof.
  induction fuel as [|fuel IH]; intros pre l result shift Hs Hf; [lia|].
  cbn [ByteReader.leb128_loop leb_split]. rewrite ByteReader.current_at.
  destruct l as [|byte l]; [exists []; split; [done|]; split; [done|]; by rewrite app_nil_r|].
  assert (ByteReader.mk (ByteReader.mBuf (ByteReader.reader_at pre (byte :: l)))
            (S (ByteReader.mPos (ByteReader.reader_at pre (byte :: l)))) = ByteReader.reader_at (pre ++ [byte]) l) as ->.
  { unfold ByteReader.reader_at. cbn [ByteReader.mBuf ByteReader.mPos]. f_equal; [by rewrite <- app_assoc|].
    rewrite length_app. cbn [length]. lia. }
  set (res := Z.lor result _). destruct (Z.land byte 0x80 =? 0); [by exists [byte]|].
  destruct (Z.leb_spec 32 (shift + 7)); [by exists [byte]|].
  destruct (IH (pre ++ [byte]) l res (shift + 7) ltac:(lia) ltac:(lia)) as (mid & E & _ & ->).
  exists (byte :: mid). split; [by rewrite E at 1|]. split; [done|]. by rewrite <- app_assoc.
Qed.

Lemma readLEB128_leb pre l :
  exists mid, l = mid ++ (unleb l).2 /\ (l <> [] -> mid <> []) /\
    ByteReader.readLEB128 (ByteReader.reader_at pre l) = Some ((unleb l).1, ByteReader.reader_at (pre ++ mid) (unleb l).2).
Proof. apply (leb_loop_split 5 pre l 0 0); lia. Qed.

Lemma leb_split_nonneg fuel : forall l result shift, 0 <= result -> 0 <= (leb_split fuel l result shift).1.
Proof.
  induction fuel as [|fuel IH]; intros [|b l] result shift H; cbn [leb_split]; try done.
  assert (0 <= Z.lor result (u32 (Z.shiftl (Z.land b 0x7F) shift))) as Hr.
  { apply Z.lor_nonneg. split; [done|]. apply u32_range. }
  destruct (_ =? 0); [done|]. destruct (32 <=? _); [done|]. by apply IH.
Qed.

(** The elements of a payload behind the aggregation header, each with what
    follows it. *)
Fixpoint elements (fuel : nat) (valueW obuIndex : Z) (post : list Z) : list (list Z * list Z) :=
  match fuel with
  | O => []
  | S fuel =>
      if bool_decide (post = []) then []
      else if is_last valueW obuIndex then [(post, [])]
      else
        let '(n, rest) := unleb post in
        if (n <=? Z.of_nat (length rest)) && (0 <? n)
        then (take (Z.to_nat n) rest, drop (Z.to_nat n) rest) ::
             elements fuel valueW (u32 (obuIndex + 1)) (drop (Z.to_nat n) rest)
        else []
  end.

(** What the depacketizer does with an element: [None] for the header of an OBU
    that announces an extension it does not have, when bytes follow. *)
Definition element_step (valueZ : bool) (x : list Z * list Z) (ow : BufferedObu.t * list Z)
  : option (BufferedObu.t * list Z) :=
  let '(el, rest) := x in
  let '(o, w) := ow in
  if valueZ then Some (BufferedObu.append o el, w)
  else
    '(o, w) ← BufferedObu.flushTo o w;
    match el with
    | [] => None
    | header :: el =>
        let o := BufferedObu.setHeader o header in
        if has_bit header 2 then
          match el with
          | [] => if bool_decide (rest = []) then Some (o, w) else None
          | ext :: el => Some (BufferedObu.append (BufferedObu.setExtension o ext) el, w)
          end
        else Some (BufferedObu.append o el, w)
    end.

Fixpoint steps (valueZ : bool) (els : list (list Z * list Z)) (ow : BufferedObu.t * list Z)
  : option (BufferedObu.t * list Z) :=
  match els with
  | [] => Some ow
  | x :: els => ow ← element_step valueZ x ow; steps valueZ els ow
  end.

Lemma flushTo_total o w : is_Some (BufferedObu.flushTo o w).
Proof.
  unfold BufferedObu.flushTo. destruct (negb _); [|by eexists]. unfold ByteWriter.writeLEB128.
  rewrite Wire.leb128_write_buf.
  destruct (Wire.leb128_loops 5 (u32 (Z.of_nat (length (BufferedObu.mBuf o)))) 0 0 [] []) as (bs & -> & _);
    [lia|lia|apply u32_range|lia|by eexists].
Qed.

(** [None] or the same result. *)
Lemma append_nil o : BufferedObu.append o [] = o.
Proof. destruct o. unfold BufferedObu.append. cbn. by rewrite app_nil_r. Qed.

Lemma take_data_at pre el rest o :
  take_data (Z.of_nat (length el)) (ByteReader.reader_at pre (el ++ rest)) o =
    Some (ByteReader.reader_at (pre ++ el) rest, BufferedObu.append o el).
Proof.
  unfold take_data. rewrite ByteReader.remaining_at, length_app, Nat2Z.id.
  destruct (Z.leb_spec (Z.of_nat (length el)) (Z.of_nat (length el + length rest))); [|lia].
  cbn [guard_true mbind option_bind]. rewrite ByteReader.current_at, take_app_length.
  by rewrite ByteReader.skip_at.
Qed.

(** One element: its headers and its data. *)
Lemma start_step pre el rest o w :
  el <> [] -> Z.of_nat (length (el ++ rest)) < 2 ^ 32 ->
  ('(obuSize, r, o, w) ← start_obu (Z.of_nat (length el)) (ByteReader.reader_at pre (el ++ rest)) o w;
   '(r, o) ← take_data obuSize r o; Some (r, o, w)) =
  ('(o, w) ← element_step false (el, rest) (o, w); Some (ByteReader.reader_at (pre ++ el) rest, o, w)).
Proof.
  rewrite length_app. intros Hne Hlen. unfold start_obu, element_step. destruct (flushTo_total o w) as [[o1 w1] ->]. cbn [mbind option_bind].
  destruct el as [|h el]; [done|]. cbn [app length]. rewrite ByteReader.readU8_at. cbn [mbind option_bind].
  rewrite ByteReader.remaining_at, length_app.
  rewrite shifted_bit by lia.
  assert (u64 (Z.of_nat (S (length el)) - 1) = Z.of_nat (length el)) as -> by (rewrite u64_small; unfold is_u64; cbn [length] in *; lia).
  destruct (has_bit h 2); cbn [andb].
  - destruct el as [|x el]; cbn [length app Nat.add].
    + destruct rest as [|y rest]; cbn [length Nat.leb].
      * rewrite bool_decide_true by done. cbn [mbind option_bind].
        pose proof (take_data_at (pre ++ [h]) [] [] (BufferedObu.setHeader o1 h)) as E. cbn [length app] in E.
        by rewrite E, append_nil, app_nil_r.
      * rewrite bool_decide_false by done. rewrite ByteReader.readU8_at. cbn [mbind option_bind]. unfold take_data. rewrite ByteReader.remaining_at.
        change (u64 (Z.of_nat 0 - 1)) with (2 ^ 64 - 1). cbn [length app] in Hlen.
        destruct (Z.leb_spec (2 ^ 64 - 1) (Z.of_nat (length rest))); [lia|done].
    + rewrite ByteReader.readU8_at. cbn [Nat.leb mbind option_bind].
      assert (u64 (Z.of_nat (S (length el)) - 1) = Z.of_nat (length el)) as -> by (rewrite u64_small; unfold is_u64; cbn [length] in *; lia).
      rewrite take_data_at. cbn [mbind option_bind]. by rewrite <- !app_assoc.
  - cbn [mbind option_bind]. rewrite take_data_at. cbn [mbind option_bind]. by rewrite <- app_assoc.
Qed.

Lemma element_ok {A} z pre el rest o w (k : ByteReader.t -> BufferedObu.t -> list Z -> option A) :
  el <> [] -> Z.of_nat (length (el ++ rest)) < 2 ^ 32 ->
  ('(obuSize, r, o, w) ← (if (z : bool) then Some (Z.of_nat (length el), ByteReader.reader_at pre (el ++ rest), o, w)
                          else start_obu (Z.of_nat (length el)) (ByteReader.reader_at pre (el ++ rest)) o w);
   '(r, o) ← take_data obuSize r o; k r o w) =
  ('(o, w) ← element_step z (el, rest) (o, w); k (ByteReader.reader_at (pre ++ el) rest) o w).
Proof.
  intros Hne Hlen. destruct z.
  - cbn [mbind option_bind element_step]. by rewrite take_data_at.
  - pose proof (start_step pre el rest o w Hne Hlen) as E. revert E.
    destruct (start_obu _ _ _ _) as [[[[obuSize r] o1] w1]|]; cbn [mbind option_bind];
      [destruct (take_data obuSize r o1) as [[r2 o2]|]|]; cbn [mbind option_bind];
      destruct (element_step false (el, rest) (o, w)) as [[o3 w3]|]; cbn [mbind option_bind]; intros E; try done.
    by injection E as -> -> ->.
Qed.

(** The loop over the OBUs of a packet is what it does with the elements. *)
Lemma obu_loop_steps z W fuel : forall idx pre post o w,
  (length post < fuel)%nat -> Z.of_nat (length post) < 2 ^ 32 ->
  obu_loop fuel z W idx (ByteReader.reader_at pre post) o w = steps z (elements fuel W idx post) (o, w).
Proof.
  induction fuel as [|fuel IH]; intros idx pre post o w Hf Hlen; [lia|]. cbn [obu_loop elements].
  rewrite ByteReader.remaining_at. case_bool_decide as Hp; [by subst|].
  destruct (Nat.ltb_spec (length post) 1) as [H1|_]; [destruct post; [done|cbn [length] in H1; lia]|].
  destruct (is_last W idx); cbn [read_size].
  - cbn [mbind option_bind]. rewrite ByteReader.remaining_at, Z.leb_refl.
    destruct (Z.ltb_spec 0 (Z.of_nat (length post))) as [_|H1]; [|destruct post; [done|cbn [length] in H1; lia]].
    cbn [andb]. pose proof (element_ok z pre post [] o w (fun r o w => Some (o, w)) Hp) as E.
    rewrite app_nil_r in E. rewrite (E Hlen). cbn [steps].
    by destruct (element_step z (post, []) (o, w)) as [[o1 w1]|].
  - destruct (readLEB128_leb pre post) as (mid & E & Hmid & ->). cbn [mbind option_bind].
    destruct (unleb post) as [n rest] eqn:El. cbn [fst snd] in *. rewrite ByteReader.remaining_at.
    specialize (Hmid Hp). apply (f_equal length) in E as El'. rewrite length_app in El'.
    assert (length mid <> 0%nat) as Hm by (by destruct mid).
    destruct (Z.leb_spec n (Z.of_nat (length rest))), (Z.ltb_spec 0 n); cbn [andb]; try done.
    pose proof (element_ok z (pre ++ mid) (take (Z.to_nat n) rest) (drop (Z.to_nat n) rest) o w
      (fun r o w => obu_loop fuel z W (u32 (idx + 1)) r o w)) as Ee.
    rewrite take_drop, length_take_le in Ee by lia. rewrite Z2Nat.id in Ee by lia.
    rewrite Ee; [|intros Et; apply (f_equal length) in Et; rewrite length_take in Et; cbn [length] in Et; lia|lia].
    cbn [steps]. destruct (element_step z _ (o, w)) as [[o1 w1]|]; [|done]. cbn [mbind option_bind].
    apply IH; rewrite length_drop; lia.
Qed.

(** *** What stops the depacketizer *)

(** An element that is the header of an OBU with an extension and nothing else,
    in front of other bytes: [obuSize] wraps around. *)
Definition trap (x : list Z * list Z) : bool :=
  match x with ([header], _ :: _) => has_bit header 2 | _ => false end.

(** The elements of a payload, when it does not start with a fragment. *)
Definition starts (pl : list Z) : list (list Z * list Z) :=
  match pl with
  | [] => []
  | b :: post => if has_bit b 7 then [] else elements (S (length pl)) (Z.land (Z.shiftr b 4) 0x03) 0 post
  end.

Definition trapped (pl : list Z) : bool := existsb trap (starts pl).

Lemma element_nonempty fuel W : forall idx post, Forall (fun x => x.1 <> []) (elements fuel W idx post).
Proof.
  induction fuel as [|fuel IH]; intros idx post; [constructor|]. cbn [elements].
  case_bool_decide; [constructor|]. destruct (is_last W idx); [by repeat constructor|].
  destruct (unleb post) as [n rest]. destruct (Z.leb_spec n (Z.of_nat (length rest))), (Z.ltb_spec 0 n); cbn [andb]; try constructor.
  - cbn [fst]. intros Et%(f_equal length). rewrite length_take in Et. cbn [length] in Et. lia.
  - apply IH.
Qed.

Lemma element_step_trap x ow : x.1 <> [] -> (element_step false x ow = None <-> trap x = true).
Proof.
  destruct x as [el rest], ow as [o w]. cbn [fst]. intros Hne. unfold element_step, trap.
  destruct (flushTo_total o w) as [[o1 w1] ->]. cbn [mbind option_bind]. destruct el as [|h el]; [done|].
  destruct (has_bit h 2) eqn:Eh; [|destruct el, rest; done].
  destruct el as [|x el]; [|done]. case_bool_decide; [by subst|]. by destruct rest.
Qed.

Lemma element_step_fragment x ow : is_Some (element_step true x ow).
Proof. destruct x, ow. by eexists. Qed.

Lemma steps_trap els : forall ow, Forall (fun x => x.1 <> []) els ->
  (steps false els ow = None <-> existsb trap els = true).
Proof.
  induction els as [|x els IH]; intros ow Hne; [done|]. apply list.Forall_cons in Hne as [Hx Hne].
  cbn [steps existsb]. pose proof (element_step_trap x ow Hx) as Hs.
  destruct (element_step false x ow) as [ow1|]; cbn [mbind option_bind].
  - destruct (trap x); [by destruct Hs as [_ Hs]; specialize (Hs eq_refl)|]. apply IH, Hne.
  - destruct (trap x); [done|]. by destruct Hs as [Hs _]; specialize (Hs eq_refl).
Qed.

Lemma steps_fragment els : forall ow, is_Some (steps true els ow).
Proof.
  induction els as [|x els IH]; intros ow; [by eexists|]. cbn [steps].
  destruct (element_step_fragment x ow) as [ow1 ->]. apply IH.
Qed.

(** A packet, by its elements. *)
Lemma extract_packet_steps b post st o w : Z.of_nat (length post) < 2 ^ 32 ->
  extract_packet (b :: post) st o w =
  '(o, w) ← steps (has_bit b 7) (elements (S (S (length post))) (Z.land (Z.shiftr b 4) 0x03) 0 post) (o, w);
  Some (if has_bit b 3 then mk true else st, o, w).
Proof.
  intros Hlen. unfold extract_packet. rewrite ByteReader.make_reader_at, ByteReader.remaining_at. cbn [length Nat.leb].
  rewrite ByteReader.readU8_at. cbn [mbind option_bind app]. rewrite obu_loop_steps by (cbn [length]; lia).
  destruct (steps _ _ _) as [[o1 w1]|]; [|done]. cbn [mbind option_bind].
  by rewrite shifted_bit by lia.
Qed.

Lemma extract_packet_trap pl st o w : Z.of_nat (length pl) < 2 ^ 32 ->
  (extract_packet pl st o w = None <-> trapped pl = true).
Proof.
  intros Hlen. destruct pl as [|b post]; [done|]. cbn [length] in Hlen.
  rewrite extract_packet_steps by lia. unfold trapped, starts. cbn [length].
  destruct (has_bit b 7).
  - destruct (steps_fragment (elements (S (S (length post))) (Z.land (Z.shiftr b 4) 0x03) 0 post) (o, w)) as [[o1 w1] ->]. done.
  - rewrite <- (steps_trap _ (o, w)) by apply element_nonempty. by destruct (steps false _ _) as [[o1 w1]|].
Qed.

Lemma extract_loop_trap l : forall st o w, Forall (fun it => Z.of_nat (length (payload it)) < 2 ^ 32) l ->
  (extract_loop l st o w = None <-> existsb (fun it => trapped (payload it)) l = true).
Proof.
  induction l as [|it l IH]; intros st o w Hl; [done|]. apply list.Forall_cons in Hl as [Hit Hl].
  cbn [extract_loop existsb]. pose proof (extract_packet_trap (payload it) st o w Hit) as Hp.
  destruct (extract_packet (payload it) st o w) as [[[st1 o1] w1]|]; cbn [mbind option_bind].
  - destruct (trapped (payload it)); [by destruct Hp as [_ Hp]; specialize (Hp eq_refl)|]. by apply IH.
  - destruct (trapped (payload it)); [done|]. by destruct Hp as [Hp _]; specialize (Hp eq_refl).
Qed.

End Framing.

Import DepacketizerAV1 Framing.

(** the AV1 depacketizer stops (a read past the end of a packet, because an
    unsigned size wraps around) on exactly those packets that have, in a payload that
    does not start with a fragment, an element that consists of a single byte
    with the extension flag in front of other bytes; on all others it gives a
    result, whatever its state. *)
Theorem av1_extract_stops_iff st l :
  Forall (fun it => Z.of_nat (length (payload it)) < 2 ^ 32) l ->
  (extract st l = None <-> exists it, it ∈ l /\ trapped (payload it) = true).
Proof.
  intros Hl. assert (existsb (fun it => trapped (payload it)) l = true <-> exists it, it ∈ l /\ trapped (payload it) = true) as <-.
  { rewrite existsb_exists. by setoid_rewrite list_elem_of_In. }
  rewrite <- (extract_loop_trap l st BufferedObu.make [] Hl). unfold extract.
  destruct (extract_loop l st BufferedObu.make []) as [[[st1 o] w]|] eqn:E; cbn [mbind option_bind]; [|done].
  destruct (flushTo_total o w) as [[o1 buf] Ef]. rewrite Ef. cbn [mbind option_bind].
  case_bool_decide as Hb; [done|]. destruct (list.last l) as [x|] eqn:El; [done|].
  apply list.last_None in El as ->. injection E as <- <- <-. cbn in Ef. congruence.
Qed.

(** A packet of four bytes that stops a depacketizer. *)
Definition demo_trap : JitterBufferItem :=
  mkItem 0 0 0 0 true false Start 0 0 true RtpExtension.make_empty [0x00; 0x01; 0x34; 0x00].

Lemma av1_extract_stops_iff_witness :
  extract make [demo_trap] = None <-> exists it, it ∈ [demo_trap] /\ trapped (payload it) = true.
Proof. apply (av1_extract_stops_iff make [demo_trap]). constructor; [done|constructor]. Defined.

Lemma demo_trap_stops : extract make [demo_trap] = None.
Proof. reflexivity. Qed.
