(* ===== verification/Av1Roundtrip.v ===== *)
(** * Av1Roundtrip: a frame of AV1, cut into packets and put together again *)

From S2P Require Import Prelude Bytes Extension Tracks Rtp Packets ExtensionSources Av1 Av1Props.
Import CodecAV1.

(** Equal components of results. *)
Ltac pairs :=
  repeat match goal with
  | |- Some _ = Some _ => f_equal
  | |- (_, _) = (_, _) => f_equal
  | |- ObuParser.mk _ _ _ _ _ _ = ObuParser.mk _ _ _ _ _ _ => f_equal
  end; try done; try lia.

(** ** OBUs, as the bitstream specification has them *)

Module Obu.

Record t := mk { type : Z; temporal : Z; spatial : Z; data : list Z }.

Definition ok (o : t) : Prop :=
  1 <= type o < 16 /\ 0 <= temporal o < 8 /\ 0 <= spatial o < 4 /\ Z.of_nat (length (data o)) < 2 ^ 31.

Definition extended (o : t) : bool := negb (temporal o =? 0) || negb (spatial o =? 0).

(** [obu_header()] and [obu_extension_header()]. *)
Definition header (o : t) (has_size : bool) : Z :=
  type o * 8 + Z.b2z (extended o) * 4 + Z.b2z has_size * 2.

Definition ext_header (o : t) : list Z := if extended o then [temporal o * 32 + spatial o * 8] else [].

(** A size: [leb128()]. *)
Definition leb (n : nat) : list Z := default [] (ByteWriter.writeLEB128 [] (Z.of_nat n)).

(** The low overhead format: every OBU has a size. *)
Definition encode (o : t) : list Z := header o true :: ext_header o ++ leb (length (data o)) ++ data o.

(** As an element of a payload: without the size. *)
Definition bare (o : t) : list Z := header o false :: ext_header o ++ data o.

Definition encode_all (l : list t) : list Z := concat (map encode l).

(** What goes through a packetizer: temporal delimiters and empty OBUs do not. *)
Definition sendable (o : t) : bool := negb (type o =? ObuType.TemporalDelimiter) && negb (bool_decide (data o = [])).

(** *** The bits of the headers *)

Lemma obu_header_bits o b : ok o ->
  Z.land (header o b) 0x80 = 0 /\ Z.land (Z.shiftr (header o b) 3) 0x3F = type o /\
  Z.land (Z.shiftr (header o b) 2) 0x01 = Z.b2z (extended o) /\ Z.land (Z.shiftr (header o b) 1) 0x01 = Z.b2z b /\
  has_bit (header o b) 2 = extended o /\ header o b <> 0 /\ is_u8 (header o b).
Proof.
  intros (Ht & _). unfold header. set (h := type o * 8 + _ + _).
  assert (Z.b2z (extended o) = 0 \/ Z.b2z (extended o) = 1) as He by (destruct (extended o); auto).
  assert (Z.b2z b = 0 \/ Z.b2z b = 1) as Hb by (destruct b; auto).
  assert (0 < h < 128) as Hh by (unfold h; lia).
  rewrite <- (Framing.shifted_bit h 2) by lia.
  change 0x3F with (2 ^ 6 - 1). change 0x01 with (2 ^ 1 - 1). rewrite !land_ones_mod, !shiftr_div by lia.
  assert (h / 2 ^ 2 mod 2 ^ 1 = Z.b2z (extended o)) as -> by (unfold h; zdm).
  split_and!; [|unfold h; zdm|done|unfold h; zdm|by destruct (extended o)|lia|unfold is_u8; lia].
  assert (has_bit h 7 = false) as H7; [|by unfold has_bit in H7; apply negb_false_iff, Z.eqb_eq in H7].
  rewrite has_bit_testbit by lia. rewrite Z.testbit_false by lia. rewrite Z.div_small by lia. done.
Qed.

Lemma ext_bits o : ok o ->
  let x := temporal o * 32 + spatial o * 8 in
  Z.land (Z.shiftr x 5) 0x07 = temporal o /\ Z.land (Z.shiftr x 3) 0x03 = spatial o /\ is_u8 x /\
  Z.lor (Z.shiftl (temporal o) 5) (Z.shiftl (spatial o) 3) = x.
Proof.
  intros (_ & Ht & Hs & _) x. unfold is_u8.
  change (Z.land (Z.shiftr x 5) 0x07) with (Z.land (Z.shiftr x 5) (2 ^ 3 - 1)).
  change (Z.land (Z.shiftr x 3) 0x03) with (Z.land (Z.shiftr x 3) (2 ^ 2 - 1)).
  rewrite !land_ones_mod, !shiftr_div by lia. rewrite (Z.shiftl_mul_pow2 (spatial o)) by lia.
  rewrite lor_shiftl_add by lia. change (2 ^ 5) with 32. change (2 ^ 3) with 8. change (2 ^ 2) with 4. change (2 ^ 8) with 256.
  unfold x. split_and!; zdm.
Qed.

(** The header as the packetizer computes it. *)
Lemma header_written o : ok o ->
  u8 (Z.lor (Z.shiftl (type o) 3) (Z.shiftl (Z.b2z (extended o)) 2)) = header o false.
Proof.
  intros Ho. pose proof (obu_header_bits o false Ho) as (_ & _ & _ & _ & _ & _ & Hu). destruct Ho as (Ht & _).
  rewrite (Z.shiftl_mul_pow2 (Z.b2z _)) by lia.
  rewrite lor_shiftl_add by (destruct (extended o); cbn; lia). unfold header in *. cbn [Z.b2z] in *. rewrite u8_small; [lia|].
  replace (type o * 2 ^ 3 + Z.b2z (extended o) * 2 ^ 2) with (type o * 8 + Z.b2z (extended o) * 4 + 0 * 2) by lia. done.
Qed.

(** [mHeader | (1 << 1)] *)
Lemma header_sized o : ok o -> u8 (Z.lor (header o false) (Z.shiftl 1 1)) = header o true.
Proof.
  intros Ho. pose proof (obu_header_bits o true Ho) as (_ & _ & _ & _ & _ & _ & Hu). destruct Ho as (Ht & _).
  assert (Z.lor (header o false) (Z.shiftl 1 1) = header o true) as ->; [|by rewrite u8_small].
  unfold header. cbn [Z.b2z].
  replace (type o * 8 + Z.b2z (extended o) * 4 + 0 * 2) with (Z.shiftl (type o * 2 + Z.b2z (extended o)) 2)
    by (rewrite Z.shiftl_mul_pow2 by lia; lia).
  change (Z.shiftl 1 1) with 2. rewrite lor_shiftl_add by lia. lia.
Qed.

(** *** The sizes *)

Lemma leb_written n buf : Z.of_nat n < 2 ^ 32 -> ByteWriter.writeLEB128 buf (Z.of_nat n) = Some (buf ++ leb n).
Proof.
  intros Hn. unfold leb, ByteWriter.writeLEB128. rewrite Wire.leb128_write_buf.
  destruct (Wire.leb128_loops 5 (Z.of_nat n) 0 0 [] []) as (bs & -> & _); [lia|lia|lia|lia|done].
Qed.

Lemma leb_length n : Z.of_nat n < 2 ^ 32 -> (1 <= length (leb n) <= 5)%nat.
Proof.
  intros Hn. pose proof (leb_written n [] Hn) as E. cbn [app] in E. by apply Wire.leb128_length in E.
Qed.

(** Two bytes are enough for the sizes in a packet. *)
Lemma leb_length_small n : Z.of_nat n < 2 ^ 14 -> (length (leb n) <= 2)%nat.
Proof.
  intros Hn. unfold leb, ByteWriter.writeLEB128. cbn [ByteWriter.leb128_loop].
  destruct (Wire.leb128_step (Z.of_nat n) ltac:(lia)) as [_ ->].
  destruct (Z.of_nat n / 128 =? 0); [cbn; lia|].
  destruct (Wire.leb128_step (Z.of_nat n / 128) ltac:(zdm)) as [_ ->].
  replace (Z.of_nat n / 128 / 128) with 0 by zdm. cbn. lia.
Qed.

(** One byte for those of short OBUs. *)
Lemma leb_length_tiny n : Z.of_nat n < 2 ^ 7 -> (length (leb n) <= 1)%nat.
Proof.
  intros Hn. unfold leb, ByteWriter.writeLEB128. cbn [ByteWriter.leb128_loop].
  destruct (Wire.leb128_step (Z.of_nat n) ltac:(lia)) as [_ ->]. replace (Z.of_nat n / 128) with 0 by zdm. cbn. lia.
Qed.

(** The reader of payloads. *)
Lemma leb_framed n l : Z.of_nat n < 2 ^ 32 -> Framing.unleb (leb n ++ l) = (Z.of_nat n, l).
Proof.
  intros Hn. destruct (Wire.leb128_loops 5 (Z.of_nat n) 0 0 [] l) as (bs & Hw & Hr); [lia|lia|lia|lia|].
  assert (leb n = bs) as -> by (unfold leb, ByteWriter.writeLEB128; by rewrite Hw).
  destruct (Framing.readLEB128_leb [] (bs ++ l)) as (mid & E & _ & Er). unfold ByteReader.readLEB128 in Er.
  rewrite Hr in Er. injection Er as E1 E2 E3. destruct (Framing.unleb (bs ++ l)) as [x rest]. cbn [fst snd app] in *.
  assert (mid = bs) as -> by (by apply (app_inj_1 _ _ rest l)).
  apply app_inv_head in E. f_equal; [lia|congruence].
Qed.

End Obu.

(** ** Parsing what was encoded *)

Module Parsing.
Import Obu.

Lemma lookup_front (pre : list Z) x post : (pre ++ x :: post) !! length pre = Some x.
Proof. by rewrite list_lookup_middle. Qed.

Lemma read_written fuel : forall v bs shift result pre post size fuel',
  ByteWriter.leb128_loop fuel [] v = Some bs -> 0 <= v < 2 ^ 32 ->
  0 <= shift -> shift + 7 * Z.of_nat fuel <= 35 -> 0 <= result < 2 ^ shift ->
  (fuel <= fuel')%nat -> Z.of_nat (length bs) <= size ->
  read_leb128_loop fuel' (pre ++ bs ++ post) result shift (length pre) size =
    Some (v * 2 ^ shift + result, (length pre + length bs)%nat, size - Z.of_nat (length bs)).
Proof.
  induction fuel as [|fuel IH]; intros v bs shift result pre post size fuel' Hw Hv Hs Hf Hr Hfuel Hsize; [done|].
  destruct fuel' as [|fuel']; [lia|]. pose proof (Wire.leb128_length _ _ _ Hw) as Hlen.
  cbn [ByteWriter.leb128_loop] in Hw. destruct (Wire.leb128_step v ltac:(lia)) as [E1 E2]. rewrite E1, E2 in Hw.
  assert (v / 128 * 128 + v mod 128 = v /\ 0 <= v mod 128 < 128 /\ 0 <= v / 128) as (Ev & Hm & Hd) by zdm.
  cbn [read_leb128_loop].
  destruct (Z.ltb_spec 0 size); [|lia]. destruct (Z.ltb_spec shift 56); [|lia]. cbn [andb negb].
  assert (0 < 2 ^ shift <= 2 ^ 28) as Hp by (split; [apply Z.pow_pos_nonneg; lia|apply Z.pow_le_mono_r; lia]).
  assert (forall b, is_u8 b -> b mod 128 = v mod 128 ->
    Z.lor result (u64 (Z.shiftl (Z.land b 0x7F) shift)) = v mod 128 * 2 ^ shift + result) as Hval.
  { intros b Hb Eb. rewrite byte_land_7f, Eb by done. rewrite u64_small.
    - by rewrite Z.lor_comm, lor_shiftl_add.
    - rewrite Z.shiftl_mul_pow2 by lia. unfold is_u64. nia. }
  destruct (Z.eqb_spec (v / 128) 0) as [Hz|Hnz].
  - injection Hw as <-. unfold ByteWriter.writeU8, ByteWriter.write in *. cbn [app length] in *. rewrite u8_small by (unfold is_u8; lia).
    rewrite lookup_front. cbn [mbind option_bind]. rewrite Hval by (unfold is_u8; rewrite ?Z.mod_mod; lia).
    rewrite byte_land_80 by (unfold is_u8; lia). destruct (Z.ltb_spec (v mod 128) 128); [|lia].
    assert (v mod 128 = v) as -> by lia. by rewrite Nat.add_1_r.
  - unfold ByteWriter.writeU8, ByteWriter.write in Hw. rewrite Wire.u8_or_80 in Hw by done.
    rewrite Wire.leb128_write_buf in Hw. destruct (ByteWriter.leb128_loop fuel [] (v / 128)) as [bs'|] eqn:Ew; [|done].
    cbn in Hw. injection Hw as <-. cbn [app length] in *. rewrite lookup_front. cbn [mbind option_bind].
    rewrite Hval by (unfold is_u8; zdm). rewrite byte_land_80 by (unfold is_u8; lia).
    destruct (Z.ltb_spec (128 + v mod 128) 128); [lia|].
    assert (2 ^ (shift + 7) = 128 * 2 ^ shift) as E7 by (rewrite Z.pow_add_r by lia; lia).
    assert (pre ++ 128 + v mod 128 :: bs' ++ post = (pre ++ [128 + v mod 128]) ++ bs' ++ post) as -> by (by rewrite <- app_assoc).
    assert (S (length pre) = length (pre ++ [128 + v mod 128])) as -> by (rewrite length_app; cbn [length]; lia).
    rewrite (IH (v / 128) bs' (shift + 7)); [|done|lia|lia|lia|nia|lia|lia].
    rewrite length_app. cbn [length].
    assert (v / 128 * 2 ^ (shift + 7) + (v mod 128 * 2 ^ shift + result) = v * 2 ^ shift + result) as ->
      by (rewrite E7; rewrite <- Ev at 3; ring).
    assert (size - 1 - Z.of_nat (length bs') = size - Z.of_nat (S (length bs'))) as -> by lia.
    by assert (length pre + 1 + length bs' = length pre + S (length bs'))%nat as -> by lia.
Qed.

Lemma read_leb n pre post size : Z.of_nat n < 2 ^ 32 -> Z.of_nat (length (leb n)) <= size ->
  read_leb128 (pre ++ leb n ++ post) (length pre) size =
    Some (Z.of_nat n, (length pre + length (leb n))%nat, size - Z.of_nat (length (leb n))).
Proof.
  intros Hn Hs. pose proof (leb_written n [] Hn) as Hw. cbn [app] in Hw. unfold read_leb128.
  rewrite (read_written 5 (Z.of_nat n) (leb n) 0 0 pre post size 8 Hw) by lia.
  by rewrite Z.mul_1_r, Z.add_0_r.
Qed.

(** The bytes in front of an OBU's data. *)
Definition front (o : t) : list Z := header o true :: ext_header o ++ leb (length (data o)).

Lemma encode_front o : encode o = front o ++ data o.
Proof. unfold encode, front. cbn [app]. by rewrite <- app_assoc. Qed.

(** The parser in front of [l], which starts at [pos]. *)
Definition current (buf : list Z) (pos : nat) (l : list t) : ObuParser.t :=
  match l with
  | [] => ObuParser.failed buf
  | o :: _ =>
      ObuParser.mk buf (type o) (Some (pos + length (front o))%nat) (Z.of_nat (length (data o))) (temporal o) (spatial o)
  end.

Lemma parse_header_at pre o post size : ok o -> Z.of_nat (length (encode o)) <= size ->
  ObuParser.parse_header (pre ++ encode o ++ post) (length pre) size =
    Some (Some (type o, temporal o, spatial o, true, (length pre + S (length (ext_header o)))%nat,
                size - Z.of_nat (S (length (ext_header o))))).
Proof.
  intros Ho Hs. unfold ObuParser.parse_header. unfold encode in *. cbn [app length] in *.
  destruct (Z.ltb_spec size 1); [lia|]. rewrite lookup_front. cbn [mbind option_bind].
  destruct (obu_header_bits o true Ho) as (-> & -> & -> & -> & _). cbn [Z.eqb negb Z.b2z].
  unfold ext_header in *. destruct (extended o) eqn:Ee; cbn [Z.b2z Z.eqb negb app length] in *.
  - destruct (Z.ltb_spec (size - 1) 1); [lia|].
    match goal with |- context [pre ++ ?h :: ?x :: ?t] =>
      change (pre ++ h :: x :: t) with (pre ++ [h] ++ x :: t); rewrite (app_assoc pre [h]) end.
    assert (S (length pre) = length (pre ++ [header o true])) as -> by (rewrite length_app; cbn [length]; lia).
    rewrite lookup_front. cbn [mbind option_bind]. destruct (ext_bits o Ho) as (-> & -> & _).
    rewrite length_app. cbn [length]. pairs.
  - unfold extended in Ee. apply orb_false_iff in Ee as [Et Es]. apply negb_false_iff, Z.eqb_eq in Et, Es.
    rewrite Et, Es. pairs.
Qed.

Lemma parse_at pre l : Forall ok l ->
  ObuParser.parseImpl (pre ++ encode_all l) (length pre) (Z.of_nat (length (encode_all l))) =
    Some (current (pre ++ encode_all l) (length pre) l).
Proof.
  intros Hl. unfold ObuParser.parseImpl. destruct l as [|o l]; [done|]. apply list.Forall_cons in Hl as [Ho _].
  unfold encode_all. cbn [map concat]. set (post := concat (map encode l)).
  rewrite parse_header_at by (done || (rewrite length_app; lia)).
  set (pre1 := pre ++ header o true :: ext_header o).
  assert (pre ++ encode o ++ post = pre1 ++ leb (length (data o)) ++ data o ++ post) as Ebuf.
  { unfold pre1, encode. rewrite <- !app_assoc. cbn [app]. by rewrite <- !app_assoc. }
  assert (length pre + S (length (ext_header o)) = length pre1)%nat as ->
    by (unfold pre1; rewrite length_app; cbn [length]; lia).
  assert (length (encode o ++ post) = S (length (ext_header o)) + length (leb (length (data o))) + length (data o ++ post))%nat
    as Elen by (unfold encode; cbn [app length]; rewrite !length_app; lia).
  rewrite Ebuf at 1. rewrite read_leb; [|destruct Ho; lia|lia].
  cbn [mbind option_bind]. rewrite length_app in Elen.
  destruct (Z.ltb_spec (Z.of_nat (length (encode o ++ post)) - Z.of_nat (S (length (ext_header o)))) (Z.of_nat (length (data o))));
    [rewrite length_app in *; lia|].
  cbn [current]. pairs. unfold pre1, front. rewrite !length_app. cbn [length]. rewrite length_app. lia.
Qed.

Lemma next_at pre o l : Forall ok (o :: l) -> Z.of_nat (length (pre ++ encode_all (o :: l))) < 2 ^ 64 ->
  ObuParser.next (current (pre ++ encode_all (o :: l)) (length pre) (o :: l)) =
    Some (current (pre ++ encode_all (o :: l)) (length (pre ++ encode o)) l).
Proof.
  intros Hl Hlen. unfold ObuParser.next. cbn [current ObuParser.mCurrData ObuParser.mData ObuParser.mCurrSize].
  assert (pre ++ encode_all (o :: l) = (pre ++ encode o) ++ encode_all l) as E
    by (unfold encode_all; cbn [map concat]; by rewrite app_assoc).
  rewrite E in *. rewrite length_app in Hlen |- *.
  assert (Z.of_nat (length pre + length (front o)) + Z.of_nat (length (data o)) = Z.of_nat (length (pre ++ encode o))) as ->
    by (rewrite encode_front, !length_app; lia).
  rewrite Nat2Z.id, u64_small by (unfold is_u64; lia).
  replace (Z.of_nat (length (pre ++ encode o) + length (encode_all l)) - Z.of_nat (length (pre ++ encode o)))
    with (Z.of_nat (length (encode_all l))) by lia.
  apply parse_at. by apply list.Forall_cons in Hl as [_ Hl].
Qed.

(** A part of the data of an OBU. *)
Lemma bytes_at_current pre o l k n : (k + n <= length (data o))%nat ->
  ObuParser.bytes_at (current (pre ++ encode_all (o :: l)) (length pre) (o :: l))
    (length pre + length (front o) + k) (Z.of_nat n) = Some (take n (drop k (data o))).
Proof.
  intros Hk. unfold ObuParser.bytes_at. cbn [current ObuParser.mData]. rewrite Nat2Z.id.
  assert (pre ++ encode_all (o :: l) = (pre ++ front o) ++ data o ++ encode_all l) as ->.
  { unfold encode_all. cbn [map concat]. by rewrite encode_front, <- !app_assoc. }
  rewrite (length_app (pre ++ front o)), length_app, (length_app (data o)).
  destruct (Z.leb_spec (Z.of_nat (length pre + length (front o) + k) + Z.of_nat n)
    (Z.of_nat (length pre + length (front o) + (length (data o) + length (encode_all l))))); [|lia].
  rewrite <- drop_drop, <- length_app, drop_app_length, drop_app_le by lia.
  by rewrite take_app_le by (rewrite length_drop; lia).
Qed.

(** The loops go on in front of an OBU, unless it is empty and the last one. *)
Lemma valid_current pre o l : ObuParser.valid (current (pre ++ encode_all (o :: l)) (length pre) (o :: l)) = true \/
  (data o = [] /\ l = []).
Proof.
  unfold ObuParser.valid. cbn [current ObuParser.mCurrData ObuParser.mData]. unfold encode_all. cbn [map concat].
  rewrite encode_front, !length_app. destruct (Nat.ltb_spec (length pre + length (front o))
    (length pre + (length (front o) + length (data o) + length (concat (map encode l))))); [by left|right].
  split; [apply nil_length_inv; lia|]. destruct l as [|o' l]; [done|].
  cbn [map concat] in *. rewrite length_app in *. unfold encode in *. cbn [length] in *. lia.
Qed.

Lemma length_encode_all l : (length l <= length (encode_all l))%nat.
Proof.
  induction l as [|o l IH]; [done|]. unfold encode_all in *. cbn [map concat length]. rewrite length_app.
  unfold encode at 1. cbn [length]. lia.
Qed.

Lemma any_obu_total test l : (forall p data, is_Some (test p data)) -> forall pre fuel,
  Forall ok l -> Z.of_nat (length (pre ++ encode_all l)) < 2 ^ 64 -> (length l <= fuel)%nat ->
  is_Some (any_obu fuel test (current (pre ++ encode_all l) (length pre) l)).
Proof.
  intros Htest. induction l as [|o l IH]; intros pre fuel Hl Hlen Hf; [destruct fuel; by eexists|].
  destruct fuel as [|fuel]; [cbn [length] in Hf; lia|]. cbn [any_obu current ObuParser.mCurrData].
  change (ObuParser.mk _ _ _ _ _ _) with (current (pre ++ encode_all (o :: l)) (length pre) (o :: l)).
  destruct (ObuParser.valid _); [|by eexists].
  destruct (Htest (current (pre ++ encode_all (o :: l)) (length pre) (o :: l)) (length pre + length (front o))%nat) as [b ->].
  cbn [mbind option_bind]. destruct b; [by eexists|]. rewrite next_at by done. cbn [mbind option_bind].
  assert (pre ++ encode_all (o :: l) = (pre ++ encode o) ++ encode_all l) as E
    by (unfold encode_all; cbn [map concat]; by rewrite app_assoc).
  rewrite E in *. apply list.Forall_cons in Hl as [_ Hl]. apply IH; [done|done|cbn [length] in Hf; lia].
Qed.

End Parsing.

(** ** What the depacketizer makes of the packets while they are written *)

Module Receiving.
Import Obu Framing DepacketizerAV1.

(** An element of a payload with its size in front, and a payload with the
    aggregation header [b]. *)
Definition wire (el : list Z) : list Z := leb (length el) ++ el.
Definition packed (b : Z) (els : list (list Z)) : list Z := b :: concat (map wire els).

(** Elements that do not stop the depacketizer, whatever follows. *)
Definition sound (el : list Z) : Prop :=
  el <> [] /\ Z.of_nat (length el) < 2 ^ 31 /\ (forall h, el = [h] -> has_bit h 2 = false).

(** The elements one after the other. *)
Fixpoint feed (z : bool) (els : list (list Z)) (ow : BufferedObu.t * list Z) : option (BufferedObu.t * list Z) :=
  match els with
  | [] => Some ow
  | el :: els => ow ← element_step z (el, []) ow; feed z els ow
  end.

Lemma feed_elements_app z els1 els2 ow : feed z (els1 ++ els2) ow = (ow ← feed z els1 ow; feed z els2 ow).
Proof.
  revert ow. induction els1 as [|el els1 IH]; intros ow; [done|]. cbn [app feed].
  destruct (element_step z (el, []) ow) as [ow1|]; [|done]. cbn [mbind option_bind]. apply IH.
Qed.

Lemma element_step_rest z el rest ow : (z = false -> sound el) -> element_step z (el, rest) ow = element_step z (el, []) ow.
Proof.
  intros Hel. destruct ow as [o w]. destruct z; [done|]. destruct (Hel eq_refl) as (Hne & _ & Hh). unfold element_step.
  destruct (BufferedObu.flushTo o w) as [[o1 w1]|]; [|done]. cbn [mbind option_bind].
  destruct el as [|h [|x el]]; [done| |done]. by rewrite (Hh h eq_refl).
Qed.

Lemma steps_wire z els : forall fuel idx ow, (z = false -> Forall sound els) ->
  Forall (fun el => el <> [] /\ Z.of_nat (length el) < 2 ^ 31) els ->
  (length (concat (map wire els)) < fuel)%nat ->
  steps z (elements fuel 0 idx (concat (map wire els))) ow = feed z els ow.
Proof.
  induction els as [|el els IH]; intros fuel idx ow Hz Hels Hf; (destruct fuel as [|fuel]; [cbn in Hf; lia|]); [done|].
  apply list.Forall_cons in Hels as [[Hne Hlen] Hels]. cbn [map concat elements] in *.
  rewrite length_app in Hf. unfold wire at 1 in Hf. rewrite length_app in Hf.
  assert (1 <= length el)%nat as H1 by (destruct el; [done|cbn [length]; lia]).
  rewrite bool_decide_false by (unfold wire; destruct el; [done|]; intros E; apply (f_equal length) in E; rewrite !length_app in E; cbn in E; lia).
  cbn [is_last Z.ltb Z.compare andb]. unfold wire at 1. rewrite <- !app_assoc, leb_framed by lia.
  rewrite length_app. destruct (Z.leb_spec (Z.of_nat (length el)) (Z.of_nat (length el + length (concat (map wire els))))); [|lia].
  destruct (Z.ltb_spec 0 (Z.of_nat (length el))); [|lia]. cbn [andb steps feed].
  rewrite Nat2Z.id, take_app_length, drop_app_length.
  rewrite element_step_rest by (intros ->; specialize (Hz eq_refl); by apply list.Forall_cons in Hz as [Hz _]).
  destruct (element_step z (el, []) ow) as [ow1|]; [|done]. cbn [mbind option_bind]. apply IH; [|done|lia].
  intros ->. specialize (Hz eq_refl). by apply list.Forall_cons in Hz as [_ Hz].
Qed.

(** A packet that was put together from elements. *)
Lemma extract_packed b els st o w : is_u8 b -> has_bit b 5 = false -> has_bit b 4 = false ->
  (has_bit b 7 = false -> Forall sound els) -> Forall (fun el => el <> [] /\ Z.of_nat (length el) < 2 ^ 31) els ->
  Z.of_nat (length (packed b els)) < 2 ^ 32 ->
  extract_packet (packed b els) st o w =
    ('(o, w) ← feed (has_bit b 7) els (o, w); Some (if has_bit b 3 then mk true else st, o, w)).
Proof.
  intros Hb H5 H4 Hz Hels Hlen. unfold packed in *. cbn [length] in Hlen. rewrite extract_packet_steps by lia.
  assert (Z.land (Z.shiftr b 4) 3 = 0) as ->.
  { apply Z.bits_inj'. intros n Hn. rewrite Z.land_spec, Z.bits_0, Z.shiftr_spec by done.
    rewrite has_bit_testbit in H4, H5 by lia.
    destruct (Z.eq_dec n 0) as [->|]; [change (0 + 4) with 4; by rewrite H4|].
    destruct (Z.eq_dec n 1) as [->|]; [change (1 + 4) with 5; by rewrite H5|].
    rewrite (testbit_high 3 2 n) by lia. apply andb_false_r. }
  by rewrite steps_wire by (done || lia).
Qed.

(** All packets so far. *)
Fixpoint run (pls : list (list Z)) (st : state) (o : BufferedObu.t) (w : list Z)
  : option (state * BufferedObu.t * list Z) :=
  match pls with
  | [] => Some (st, o, w)
  | pl :: pls => '(st, o, w) ← extract_packet pl st o w; run pls st o w
  end.

Lemma extract_loop_run l : forall st o w, extract_loop l st o w = run (map payload l) st o w.
Proof.
  induction l as [|it l IH]; intros st o w; [done|]. cbn [extract_loop map run].
  destruct (extract_packet (payload it) st o w) as [[[st1 o1] w1]|]; [|done]. cbn [mbind option_bind]. apply IH.
Qed.

Lemma run_app pls1 pls2 : forall st o w,
  run (pls1 ++ pls2) st o w = ('(st, o, w) ← run pls1 st o w; run pls2 st o w).
Proof.
  induction pls1 as [|pl pls1 IH]; intros st o w; [done|]. cbn [app run].
  destruct (extract_packet pl st o w) as [[[st1 o1] w1]|]; [|done]. cbn [mbind option_bind]. apply IH.
Qed.

Lemma run_one pl st o w : run [pl] st o w = extract_packet pl st o w.
Proof. cbn [run]. by destruct (extract_packet pl st o w) as [[[st1 o1] w1]|]. Qed.

End Receiving.

(** ** The packetizer *)

Module Sending.
Import Obu Receiving PacketizerAV1.

(** The aggregation header that the packetizer writes. *)
Definition agg (z n : bool) : Z := Z.lor (Z.shiftl (if z then 1 else 0) 7) (Z.shiftl (if n then 1 else 0) 3).

Lemma agg_bits z n y : let b := if (y : bool) then Z.lor (agg z n) 0x40 else agg z n in
  is_u8 b /\ has_bit b 7 = z /\ has_bit b 5 = false /\ has_bit b 4 = false /\ has_bit b 3 = n.
Proof. destruct z, n, y; (split; [unfold is_u8; vm_compute; split; congruence|done]). Qed.

Section Sources.
Context {S : Type} `{!RtpExtensionSource S} (overhead : Z) (I : list S -> Prop) `{!PacketSources S overhead I}.
Context (track : Track.t) (ts : Z) (e0 : env S) (st0 : DepacketizerAV1.state) (isNew0 : bool).
#[local] Set Default Proof Using "All".

Notation basic := (u64 (Packetizer.getBasicPacketSize overhead - 4)).

(** The packets so far are right: numbers, sizes, markers. *)
Record sent (l : locals S) : Prop := {
  sent_emitted : emitted I track ts e0 (result l) (l_env l);
  sent_fits : Forall (fits overhead) (result l);
  sent_unmarked : unmarked (result l)
}.

(** What the receiver has after the packets [pls]. *)
Definition received (pls : list (list Z)) (isNew : bool) (o : BufferedObu.t) (w : list Z) : Prop :=
  exists st, run pls st0 BufferedObu.make [] = Some (st, o, w) /\
    DepacketizerAV1.mSeenNewSequence st || isNew = DepacketizerAV1.mSeenNewSequence st0 || isNew0.

(** The room in the packet under construction. *)
Record room (l : locals S) : Prop := {
  room_padding : is_u8 (padding l);
  room_usable : 88 <= usablePayloadSize l <= 1200;
  room_total : usablePayloadSize l + 4 + padding l + Z.of_nat (RtpExtension.size (extension l)) + 12 + overhead <= 1200
}.

(** A packet is under construction; [z]: it starts with a fragment. *)
Record opened (l : locals S) (z : bool) (o : BufferedObu.t) (w : list Z) : Prop := {
  opened_sent : sent l;
  opened_room : room l;
  opened_old : isNewCodedVideoSequence l = false;
  opened_size : Z.of_nat (length (payload l)) <= usablePayloadSize l + 4;
  opened_packet : exists n els, payload l = packed (agg z n) els /\ (z = false -> Forall sound els) /\
    Forall (fun el => el <> [] /\ Z.of_nat (length el) < 2 ^ 31) els;
  opened_received : received (map RtpPacket.mPayload (result l) ++ [payload l]) false o w
}.

(** Between two OBUs, or two fragments. *)
Definition between (l : locals S) (o : BufferedObu.t) (w : list Z) : Prop :=
  (payload l = [] /\ sent l /\ received (map RtpPacket.mPayload (result l)) (isNewCodedVideoSequence l) o w) \/
  opened l false o w.

(** A packet that gets the payload so far. *)
Lemma push_any l z o w m ext moved y : opened l z o w -> (RtpExtension.size ext <= RtpExtension.size (extension l))%nat ->
  let l' := push_packet track ts m ext moved (if (y : bool) then with_payload l (set_Y (payload l)) else l) in
  payload l' = [] /\ emitted I track ts e0 (result l') (l_env l') /\ Forall (fits overhead) (result l') /\
  (exists p, result l' = result l ++ [p] /\ RtpPacket.mMarker p = m) /\
  received (map RtpPacket.mPayload (result l')) (isNewCodedVideoSequence l') o w /\
  isNewCodedVideoSequence l' = false /\ isContinuation l' = isContinuation l /\ usablePayloadSize l' = usablePayloadSize l /\
  padding l' = padding l /\ extension l' = moved.
Proof.
  intros [[Hem Hfit Hmark] [Hpad Hus Htot] Hold Hsize (n & els & Hp & Hz & Hels) Hrec] Hext.
  set (l0 := if y then with_payload l (set_Y (payload l)) else l).
  assert (result l0 = result l /\ l_env l0 = l_env l /\ padding l0 = padding l /\ isNewCodedVideoSequence l0 = false /\
    isContinuation l0 = isContinuation l /\ usablePayloadSize l0 = usablePayloadSize l) as (E1 & E2 & E3 & E4 & E5 & E6)
    by (unfold l0; by destruct y).
  set (b' := if y then Z.lor (agg z n) 0x40 else agg z n).
  assert (payload l0 = packed b' els) as Ep by (unfold l0, b', packed in *; destruct y; cbn [payload with_payload]; by rewrite Hp).
  cbv zeta. unfold push_packet. rewrite E1, E2, E3, E4, E5, E6.
  destruct (nextSequence (l_env l)) as [[rollover sequence] e'] eqn:En.
  cbn [payload result isNewCodedVideoSequence l_env isContinuation usablePayloadSize padding extension].
  split; [done|]. split.
  { refine (emitted_app I _ _ _ _ _ [_] _ Hem (emitted_next I _ _ _ _ _ _ _ _ _ _ (emitted_sources _ _ _ _ _ _ Hem) En)). }
  split.
  { apply list.Forall_app. split; [done|]. constructor; [|constructor]. apply fits_make; [done|].
    assert (length (payload l0) = length (payload l)) as -> by (rewrite Ep, Hp; done). lia. }
  split; [by eexists|]. split; [|done].
  destruct Hrec as (st & Hrun & Hseen). exists st. split; [|done]. rewrite <- Hrun, map_app, !run_app.
  destruct (run (map RtpPacket.mPayload (result l)) st0 BufferedObu.make []) as [[[st1 o1] w1]|]; [|done].
  cbn [mbind option_bind map]. rewrite !run_one. cbn [RtpPacket.make RtpPacket.mPayload]. rewrite Ep, Hp.
  pose proof (agg_bits z n y) as (Hb & B7 & B5 & B4 & B3). fold b' in Hb, B7, B5, B4, B3.
  pose proof (agg_bits z n false) as (Hb0 & C7 & C5 & C4 & C3). cbv iota in Hb0, C7, C5, C4, C3.
  assert (Z.of_nat (length (packed b' els)) < 2 ^ 32)
    by (change (length (packed b' els)) with (length (packed (agg z n) els)); rewrite <- Hp; lia).
  rewrite (extract_packed b'), (extract_packed (agg z n)); try done; try (by rewrite ?B7, ?C7).
  by rewrite B7, B3, C7, C3.
Qed.

(** One that is not the last. *)
Lemma push_ok l z o w ext moved y : opened l z o w -> (RtpExtension.size ext <= RtpExtension.size (extension l))%nat ->
  let l' := push_packet track ts false ext moved (if (y : bool) then with_payload l (set_Y (payload l)) else l) in
  payload l' = [] /\ sent l' /\ received (map RtpPacket.mPayload (result l')) (isNewCodedVideoSequence l') o w /\
  isNewCodedVideoSequence l' = false /\ isContinuation l' = isContinuation l /\ usablePayloadSize l' = usablePayloadSize l /\
  padding l' = padding l /\ extension l' = moved.
Proof.
  intros Hopen Hext. destruct (push_any l z o w false ext moved y Hopen Hext)
    as (Hp & Hem & Hfit & (p & Hres & Hm) & Hrec & Hrest).
  cbv zeta. split; [done|]. split; [|done]. split; [done|done|]. rewrite Hres. apply list.Forall_app.
  split; [apply (sent_unmarked _ (opened_sent _ _ _ _ Hopen))|by repeat constructor].
Qed.

(** The first byte of a packet. *)
Lemma aggregation_header_ok l o w : payload l = [] -> sent l -> room l ->
  received (map RtpPacket.mPayload (result l)) (isNewCodedVideoSequence l) o w ->
  let l' := aggregation_header l in
  opened l' (isContinuation l) o w /\ isContinuation l' = isContinuation l /\ length (payload l') = 1%nat /\
  usablePayloadSize l' = usablePayloadSize l.
Proof.
  intros Hp [Hem Hfit Hmark] [Hpad Hus Htot] (st & Hrun & Hseen). unfold aggregation_header. rewrite bool_decide_true by done.
  fold (agg (isContinuation l) (isNewCodedVideoSequence l)).
  pose proof (agg_bits (isContinuation l) (isNewCodedVideoSequence l) false) as (Hb & B7 & B5 & B4 & B3).
  cbv iota in Hb, B7, B5, B4, B3.
  set (b := agg (isContinuation l) (isNewCodedVideoSequence l)) in *. rewrite (u8_small b) by done.
  unfold ByteWriter.writeU8, ByteWriter.write. cbn [app]. rewrite (u8_small b) by done.
  split; [|done]. split; cbn [result l_env isNewCodedVideoSequence payload usablePayloadSize padding extension length]; try done.
  - cbn [length]. lia.
  - exists (isNewCodedVideoSequence l), []. done.
  - exists (if has_bit b 3 then DepacketizerAV1.mk true else st). split.
    + rewrite run_app, Hrun. cbn [mbind option_bind]. rewrite run_one.
      change [b] with (packed b []). by rewrite extract_packed.
    + rewrite B3, <- Hseen. destruct (isNewCodedVideoSequence l); cbn; [by rewrite orb_true_r|done].
Qed.

(** What a packet starts with. *)
Lemma begin_ok l o w : payload l = [] -> sent l ->
  received (map RtpPacket.mPayload (result l)) (isNewCodedVideoSequence l) o w ->
  let l' := begin_packet track basic l in
  payload l' = [] /\ sent l' /\ room l' /\ isContinuation l' = isContinuation l /\
  received (map RtpPacket.mPayload (result l')) (isNewCodedVideoSequence l') o w.
Proof.
  intros Hp [Hem Hfit Hmark] Hrec. unfold begin_packet. rewrite bool_decide_true by done.
  destruct (sources_extension (overhead := overhead) track (isNewCodedVideoSequence l) (packetNumber l) _
    (emitted_sources _ _ _ _ _ _ Hem)) as [He HI].
  destruct (Packetizer.buildExtension track _ _ _) as [ext sources]. cbn [fst snd] in He, HI.
  destruct (sources_padding (overhead := overhead) track (Z.to_nat basic) sources HI) as [Hpad HI'].
  destruct (PacketizerVideo.getPadding track (Z.to_nat basic) sources) as [pad sources']. cbn [fst snd] in Hpad, HI'.
  pose proof (adjusted overhead 4 pad ext He Hpad ltac:(lia)) as [Hus Htot].
  cbn [payload result isContinuation isNewCodedVideoSequence]. split; [done|]. split; [|split; [split|]]; try done.
  - split; cbn [result l_env]; [|done|done]. rewrite <- (app_nil_r (result l)).
    refine (emitted_app I _ _ _ _ _ [] _ Hem (emitted_nil I _ _ _ sources' HI')).
  - cbn [usablePayloadSize padding extension]. lia.
Qed.

(** A packet to write the next piece of an OBU into. *)
Lemma open_ok l o w size : between l o w -> (isContinuation l = true -> payload l = []) -> 0 < size ->
  exists n l1, choose_size track ts size (begin_packet track basic l) = (n, l1) /\
    let l2 := aggregation_header l1 in
    opened l2 (isContinuation l) o w /\ isContinuation l2 = isContinuation l /\
    1 <= n <= size /\ (size <= 88 -> n = size) /\
    (Z.of_nat (length (payload l2)) + n <= usablePayloadSize l2 \/
     (length (payload l2) = 1%nat /\ n <= usablePayloadSize l2)).
Proof.
  intros [(Hp & Hsent & Hrec)|Hopen] Hcont Hsize.
  - destruct (begin_ok l o w Hp Hsent Hrec) as (Hp1 & Hsent1 & Hroom & Hc & Hrec1).
    set (l1 := begin_packet track basic l) in *. unfold choose_size. rewrite bool_decide_true by done.
    destruct (aggregation_header_ok l1 o w Hp1 Hsent1 Hroom Hrec1) as (Ho & Hc2 & Hlen & Hus).
    eexists _, l1. split; [done|]. rewrite <- Hc. split; [done|]. split; [done|]. rewrite Hus.
    destruct Hroom. split; [lia|]. split; [lia|]. right. split; [done|lia].
  - assert (payload l <> []) as Hne by (destruct Hopen as [? ? ? ? (? & ? & -> & _) ?]; done).
    unfold begin_packet. rewrite bool_decide_false by done. unfold choose_size. rewrite bool_decide_false by done.
    assert (isContinuation l = false) as Hc by (destruct (isContinuation l); [by specialize (Hcont eq_refl)|done]).
    destruct (Z.ltb_spec (Z.of_nat (length (payload l)) + 100) (usablePayloadSize l)).
    + eexists _, l. split; [done|]. unfold aggregation_header. rewrite bool_decide_false by done. rewrite Hc.
      split; [done|]. split; [done|]. destruct Hopen as [? [] ? ? ? ?]. split; [lia|]. split; [lia|]. left. lia.
    + destruct (push_ok l false o w (extension l) RtpExtension.make_empty false Hopen ltac:(lia))
        as (Hp1 & Hsent1 & Hrec1 & Hnew & Hc1 & Hu1 & Hpad1 & He1). cbv iota in *.
      set (l1 := push_packet track ts false (extension l) RtpExtension.make_empty l) in *.
      destruct Hopen as [_ [Hpd Hus Htot] _ _ _ _].
      assert (room l1) as Hroom.
      { split; rewrite ?Hu1, ?Hpad1, ?He1; [done|done|]. change (RtpExtension.size RtpExtension.make_empty) with 0%nat. lia. }
      destruct (aggregation_header_ok l1 o w Hp1 Hsent1 Hroom Hrec1) as (Ho & Hc2 & Hlen & Hu2).
      eexists _, l1. split; [done|]. rewrite <- Hc1. split; [done|]. split; [done|]. rewrite Hu2, Hu1.
      split; [lia|]. split; [lia|]. right. split; [done|lia].
Qed.

(** *** Writing an OBU, or a fragment of it *)

(** The element for [chunk], with the headers in front of the first one. *)
Definition piece (first : bool) (o : t) (chunk : list Z) : list Z :=
  if first then header o false :: ext_header o ++ chunk else chunk.

Lemma write_obu_eq first o chunk (l : locals S) : ok o -> (first = false -> extended o = false) ->
  Z.of_nat (length chunk) <= 2 ^ 20 ->
  write_obu first (type o) (temporal o) (spatial o) chunk l =
    Some (with_payload l (payload l ++ wire (piece first o chunk))).
Proof.
  intros Ho Hfirst Hlen. unfold write_obu. fold (extended o).
  assert ((if first then 1 else 0) + (if extended o then 1 else 0) + Z.of_nat (length chunk) =
    Z.of_nat (length (piece first o chunk))) as ->.
  { unfold piece, ext_header. destruct first; [|rewrite (Hfirst eq_refl); lia].
    cbn [length]. rewrite length_app. destruct (extended o); cbn [length]; lia. }
  assert (length (piece first o chunk) <= 2 + length chunk)%nat as Hl.
  { unfold piece, ext_header. destruct first; [|lia]. cbn [length]. rewrite length_app.
    destruct (extended o); cbn [length]; lia. }
  rewrite u32_small by (unfold is_u32; lia). rewrite leb_written by lia. cbn [mbind option_bind].
  do 2 f_equal. unfold wire, piece, ByteWriter.writeU8, ByteWriter.write.
  destruct first; [|by rewrite <- app_assoc].
  change (if extended o then 1 else 0) with (Z.b2z (extended o)). rewrite header_written by done.
  pose proof (obu_header_bits o false Ho) as (_ & _ & _ & _ & _ & _ & Hu). rewrite (u8_small (header o false)) by done.
  unfold ext_header. destruct (extended o).
  - pose proof (ext_bits o Ho) as (_ & _ & Hx & E). cbv zeta in Hx, E. rewrite E, !u8_small by (done || by rewrite u8_small).
    by rewrite <- !app_assoc.
  - by rewrite <- !app_assoc.
Qed.

Lemma opened_write l z o w el o' w' : opened l z o w -> el <> [] -> (z = false -> sound el) ->
  Z.of_nat (length (payload l)) + Z.of_nat (length (wire el)) <= usablePayloadSize l + 4 ->
  Framing.element_step z (el, []) (o, w) = Some (o', w') ->
  opened (with_payload l (payload l ++ wire el)) z o' w'.
Proof.
  intros [Hsent [Hpad Hus Htot] Hold Hsize (n & els & Hp & Hz & Hels) (st & Hrun & Hseen)] Hne Hel Hlen Hstep.
  assert (Z.of_nat (length el) < 2 ^ 31) as Hel31 by (unfold wire in Hlen; rewrite length_app in Hlen; lia).
  assert (payload l ++ wire el = packed (agg z n) (els ++ [el])) as Ep.
  { rewrite Hp. unfold packed. rewrite map_app, concat_app. cbn [map concat app]. by rewrite app_nil_r. }
  assert (Forall (fun el => el <> [] /\ Z.of_nat (length el) < 2 ^ 31) (els ++ [el])) as Hels'.
  { apply list.Forall_app. split; [done|]. by repeat constructor. }
  assert (z = false -> Forall sound (els ++ [el])) as Hz'.
  { intros Ez. apply list.Forall_app. split; [by apply Hz|]. constructor; [by apply Hel|constructor]. }
  pose proof (agg_bits z n false) as (Hb & B7 & B5 & B4 & B3). cbv iota in Hb, B7, B5, B4, B3.
  split; cbn [with_payload result l_env isNewCodedVideoSequence payload usablePayloadSize padding extension]; try done.
  - destruct Hsent. by split.
  - rewrite length_app. lia.
  - by exists n, (els ++ [el]).
  - exists st. split; [|done]. revert Hrun. rewrite !run_app.
    destruct (run (map RtpPacket.mPayload (result l)) st0 BufferedObu.make []) as [[[st1 o1] w1]|]; [|done].
    cbn [mbind option_bind]. rewrite !run_one, Ep, Hp.
    rewrite !extract_packed; try done; try (by rewrite ?B7); rewrite ?B7.
    + rewrite feed_elements_app. destruct (feed z els (o1, w1)) as [[o2 w2]|]; [|done]. cbn [mbind option_bind].
      intros [= -> -> ->]. cbn [feed]. by rewrite Hstep.
    + rewrite <- Ep, length_app. lia.
    + rewrite <- Hp. lia.
Qed.

Lemma opened_continuation l z o w b : opened l z o w -> opened (with_continuation l b) z o w.
Proof. intros [[] [] ? ? ? ?]. split; [by split|by split|done..]. Qed.

(** *** One round of the loop over the data of an OBU *)

(** The buffered OBU of the receiver is complete, and [out] is all there is with it. *)
Definition holding (o : BufferedObu.t) (w out : list Z) : Prop := BufferedObu.flushTo o w = Some (BufferedObu.make, out).

(** It has the headers of [obu] and the data [buf]. *)
Definition partial (obu : t) (buf : list Z) : BufferedObu.t :=
  BufferedObu.mk (header obu false) (if extended obu then temporal obu * 32 + spatial obu * 8 else 0) buf.

Lemma step_first obu chunk o w out : ok obu -> holding o w out ->
  Framing.element_step false (piece true obu chunk, []) (o, w) = Some (partial obu chunk, out).
Proof.
  intros Ho Hh. unfold Framing.element_step. rewrite Hh. cbn [mbind option_bind piece].
  destruct (obu_header_bits obu false Ho) as (_ & _ & _ & _ & -> & _). unfold partial, ext_header.
  by destruct (extended obu).
Qed.

Lemma step_more obu buf chunk w :
  Framing.element_step true (piece false obu chunk, []) (partial obu buf, w) = Some (partial obu (buf ++ chunk), w).
Proof. done. Qed.

Lemma holding_whole obu w : ok obu -> holding (partial obu (data obu)) w (w ++ encode obu).
Proof.
  intros Ho. unfold holding, BufferedObu.flushTo, partial. cbn [BufferedObu.mHeader BufferedObu.mExtension BufferedObu.mBuf].
  pose proof (obu_header_bits obu false Ho) as (_ & _ & _ & _ & H2 & Hne & _).
  pose proof (obu_header_bits obu true Ho) as (_ & _ & _ & _ & _ & _ & Hu).
  destruct (Z.eqb_spec (header obu false) 0); [done|]. cbn [negb]. fold (has_bit (header obu false) 2). rewrite H2, header_sized by done.
  rewrite u32_small by (unfold is_u32; destruct Ho; lia). rewrite leb_written by (destruct Ho; lia). cbn [mbind option_bind].
  pairs. unfold encode, ext_header, ByteWriter.writeU8, ByteWriter.write. rewrite (u8_small (header obu true)) by done.
  destruct (extended obu); [|by rewrite <- !app_assoc].
  pose proof (ext_bits obu Ho) as (_ & _ & Hx & _). cbv zeta in Hx. rewrite u8_small by done. by rewrite <- !app_assoc.
Qed.

(** [k] bytes of [obu] are sent: the state of the sender and the receiver. *)
Definition at_byte (l : locals S) (obu : t) (k : nat) (out : list Z) : Prop :=
  exists o w, between l o w /\ (isContinuation l = true -> payload l = []) /\ isContinuation l = (0 <? k)%nat /\
    if (k =? 0)%nat then holding o w out else o = partial obu (take k (data obu)) /\ w = out.

Lemma piece_length first obu chunk : (length (piece first obu chunk) <= 2 + length chunk)%nat /\
  (extended obu = false -> length (piece first obu chunk) <= 1 + length chunk)%nat /\
  (length chunk <= length (piece first obu chunk))%nat /\
  (first = true -> 1 + length chunk <= length (piece first obu chunk))%nat.
Proof.
  unfold piece, ext_header. destruct first; [|by split_and!; intros; try lia].
  cbn [length]. rewrite length_app. destruct (extended obu); cbn [length]; split_and!; intros; try done; lia.
Qed.

(** The element that a round writes fits, and the receiver has its bytes. *)
Lemma obu_written l obu k m o w out :
  ok obu -> (1 <= m <= length (data obu) - k)%nat -> (extended obu = true -> k = 0%nat /\ (length (data obu) <= 88)%nat) ->
  opened l (0 <? k)%nat o w ->
  (if (k =? 0)%nat then holding o w out else o = partial obu (take k (data obu)) /\ w = out) ->
  Z.of_nat (length (payload l)) + Z.of_nat m <= usablePayloadSize l \/
    (length (payload l) = 1%nat /\ Z.of_nat m <= usablePayloadSize l) ->
  opened (with_payload l (payload l ++ wire (piece (k =? 0)%nat obu (take m (drop k (data obu)))))) (0 <? k)%nat
    (partial obu (take (k + m) (data obu))) out.
Proof.
  intros Ho Hm Hext Hopen Hbuf Hroom. set (chunk := take m (drop k (data obu))).
  assert (length chunk = m) as Hchunk by (unfold chunk; rewrite length_take, length_drop; lia).
  assert (usablePayloadSize l <= 1200) as Hus by (destruct Hopen as [_ [_ [_ Hu] _] _ _ _ _]; lia).
  set (el := piece (k =? 0)%nat obu chunk).
  destruct (piece_length (k =? 0)%nat obu chunk) as (P1 & P2 & P3 & P4). fold el in P1, P2, P3, P4.
  apply (opened_write l _ o w); [done| | | |].
  - intros E. rewrite E in P3. cbn [length] in P3. lia.
  - intros Ez. apply Nat.ltb_ge in Ez. assert (k = 0%nat) as -> by lia.
    specialize (P4 eq_refl). split; [|split; [lia|]]; intros E; rewrite ?E in P4; cbn [length] in P4; [lia|].
    intros Eh. rewrite Eh in P4. cbn [length] in P4. lia.
  - unfold wire. rewrite length_app. pose proof (leb_length_small (length el) ltac:(lia)).
    destruct (extended obu) eqn:Ee.
    + destruct (Hext eq_refl) as [-> H88]. pose proof (leb_length_tiny (length el) ltac:(lia)). lia.
    + specialize (P2 eq_refl). lia.
  - unfold el. destruct (Nat.eqb_spec k 0) as [->|Hne].
    + cbn [Nat.ltb Nat.leb Nat.add]. rewrite (step_first obu chunk o w out Ho Hbuf). unfold chunk. by rewrite drop_0.
    + destruct Hbuf as [-> ->]. destruct (Nat.ltb_spec 0 k); [|lia]. rewrite step_more. unfold chunk.
      by rewrite <- take_take_drop.
Qed.

(** What is done when the OBU goes on in the next packet. *)
Lemma obu_continues l z obu k out : opened l z (partial obu (take k (data obu))) out -> (0 < k)%nat ->
  at_byte (push_packet track ts false (RtpExtension.copy (extension l)) (extension l)
    (with_payload (with_continuation l true) (set_Y (payload l)))) obu k out.
Proof.
  intros Hopen%(opened_continuation _ _ _ _ true) Hk.
  destruct (push_ok (with_continuation l true) z (partial obu (take k (data obu))) out
    (RtpExtension.copy (extension l)) (extension l) true Hopen) as (Hp4 & Hs4 & Hr4 & _ & Hc4 & _).
  { cbn [extension with_continuation]. unfold RtpExtension.copy. destruct (RtpExtension.empty (extension l)); [cbn; lia|].
    by destruct (extension l). }
  cbv iota zeta in *. eexists _, _. split; [left; split; [exact Hp4|split; [exact Hs4|exact Hr4]]|].
  split; [intros _; exact Hp4|]. split; [etransitivity; [exact Hc4|symmetry; apply Nat.ltb_lt; lia]|].
  destruct (Nat.eqb_spec k 0); [lia|done].
Qed.

Lemma obu_round fuel l pre obu rest k out :
  ok obu -> (k < length (data obu))%nat -> (extended obu = true -> k = 0%nat /\ (length (data obu) <= 88)%nat) ->
  at_byte l obu k out ->
  let p := Parsing.current (pre ++ encode_all (obu :: rest)) (length pre) (obu :: rest) in
  let start := (length pre + length (Parsing.front obu))%nat in
  exists n l', (1 <= n <= length (data obu) - k)%nat /\
    PacketizerAV1.obu_loop track ts basic (Datatypes.S fuel) p (start + k) (Z.of_nat (length (data obu) - k)) l =
      PacketizerAV1.obu_loop track ts basic fuel p (start + (k + n)) (Z.of_nat (length (data obu) - (k + n))) l' /\
    ((length (data obu) <= 88)%nat -> k = 0%nat -> n = length (data obu)) /\
    if (k + n <? length (data obu))%nat then at_byte l' obu (k + n) out
    else opened l' (0 <? k)%nat (partial obu (data obu)) out /\ isContinuation l' = false.
Proof.
  intros Ho Hk Hext (o & w & Hbetween & Hpay & Hcont & Hbuf) p start.
  set (size := Z.of_nat (length (data obu) - k)).
  destruct (open_ok l o w size Hbetween Hpay ltac:(unfold size; lia)) as (n & l1 & Ec & Hopen & Hc2 & Hn & Hsmall & Hroom).
  set (l2 := aggregation_header l1) in *. set (m := Z.to_nat n).
  assert (n = Z.of_nat m) as En by (unfold m; lia).
  assert (1 <= m <= length (data obu) - k)%nat as Hm by (unfold m, size in *; lia).
  cbn [PacketizerAV1.obu_loop]. destruct (Z.leb_spec size 0); [unfold size in *; lia|]. rewrite Ec. fold l2.
  rewrite En. unfold start, p. rewrite Parsing.bytes_at_current by lia. cbn [mbind option_bind].
  set (chunk := take m (drop k (data obu))).
  assert (length chunk = m) as Hchunk by (unfold chunk; rewrite length_take, length_drop; lia).
  assert (bool_decide (ObuParser.currData (Parsing.current (pre ++ encode_all (obu :: rest)) (length pre) (obu :: rest)) =
    Some (length pre + length (Parsing.front obu) + k)%nat) = (k =? 0)%nat) as ->.
  { cbn [Parsing.current ObuParser.currData ObuParser.mCurrData]. destruct (Nat.eqb_spec k 0) as [->|Hne].
    - rewrite Nat.add_0_r. by apply bool_decide_true.
    - apply bool_decide_false. intros [= E]. lia. }
  cbn [Parsing.current ObuParser.currType ObuParser.currTemporalId ObuParser.currSpatialId ObuParser.mCurrType
       ObuParser.mCurrTemporalId ObuParser.mCurrSpatialId].
  assert (usablePayloadSize l2 <= 1200) as Hus by (destruct Hopen as [_ [_ [_ Hu] _] _ _ _ _]; lia).
  rewrite write_obu_eq; [|done| |rewrite Hchunk; lia].
  2:{ intros Ek. destruct (extended obu); [|done]. destruct (Hext eq_refl) as [-> _]. done. }
  cbn [mbind option_bind]. rewrite Hcont in Hopen. rewrite En in Hroom.
  pose proof (obu_written l2 obu k m o w out Ho Hm Hext Hopen Hbuf Hroom) as Hopen3. fold chunk in Hopen3.
  set (l3 := with_payload l2 _) in *. set (continued := Z.of_nat m <? size).
  assert (continued = (k + m <? length (data obu))%nat) as Ecnt.
  { unfold continued, size. destruct (Z.ltb_spec (Z.of_nat m) (Z.of_nat (length (data obu) - k))),
      (Nat.ltb_spec (k + m) (length (data obu))); lia || done. }
  rewrite Nat2Z.id. replace (size - Z.of_nat m) with (Z.of_nat (length (data obu) - (k + m))) by (unfold size; lia).
  rewrite <- (Nat.add_assoc (length pre + length (Parsing.front obu))).
  eexists m, _. split; [done|]. split; [done|]. split; [unfold size in *; lia|].
  rewrite <- Ecnt. destruct continued eqn:Ek.
  - apply (obu_continues l3 (0 <? k)%nat); [done|lia].
  - split; [|done]. symmetry in Ecnt. apply Nat.ltb_ge in Ecnt. rewrite take_ge in Hopen3 by lia.
    by apply opened_continuation.
Qed.

(** *** All OBUs *)

(** An OBU to its end; one that is short does not leave a packet that starts
    with a fragment. *)
Lemma obu_rest fuel : forall l pre obu rest k out,
  ok obu -> (k < length (data obu))%nat -> (extended obu = true -> k = 0%nat /\ (length (data obu) <= 88)%nat) ->
  at_byte l obu k out -> (length (data obu) - k <= fuel)%nat ->
  exists l' z, PacketizerAV1.obu_loop track ts basic fuel
      (Parsing.current (pre ++ encode_all (obu :: rest)) (length pre) (obu :: rest))
      (length pre + length (Parsing.front obu) + k) (Z.of_nat (length (data obu) - k)) l = Some l' /\
    opened l' z (partial obu (data obu)) out /\ isContinuation l' = false /\
    ((length (data obu) <= 88)%nat -> k = 0%nat -> z = false).
Proof.
  induction fuel as [|fuel IH]; intros l pre obu rest k out Ho Hk Hext Hat Hf; [lia|].
  destruct (obu_round fuel l pre obu rest k out Ho Hk Hext Hat) as (n & l1 & Hn & -> & Hsmall & H1).
  destruct (Nat.ltb_spec (k + n) (length (data obu))) as [Hlt|Hge].
  - destruct (IH l1 pre obu rest (k + n)%nat out Ho Hlt) as (l' & z & E & Hopen & Hc & _); [|done|lia|].
    { intros Ee. destruct (Hext Ee) as [-> H88]. specialize (Hsmall H88 eq_refl). lia. }
    exists l', z. split; [exact E|]. split; [done|]. split; [done|]. intros H88 ->. specialize (Hsmall H88 eq_refl). lia.
  - destruct H1 as [Hopen Hc]. exists l1, (0 <? k)%nat.
    replace (length (data obu) - (k + n))%nat with 0%nat by lia. split; [by destruct fuel|]. split; [done|].
    split; [done|]. by intros _ ->.
Qed.

(** Between two OBUs: all of [out] has arrived. *)
Definition idle (l : locals S) (out : list Z) : Prop :=
  exists o w, between l o w /\ isContinuation l = false /\ holding o w out /\ (payload l = [] -> out = []).

(** After the last one. *)
Definition finished (l : locals S) (out : list Z) : Prop :=
  exists o w, holding o w out /\
    (out = [] \/ exists z, opened l z o w).

Lemma idle_finished l out : idle l out -> finished l out.
Proof.
  intros (o & w & [(Hp & _)|Hb] & _ & Hh & Hout); exists o, w; (split; [done|]); [left; by apply Hout|right; by eexists].
Qed.

Lemma idle_start l obu out : idle l out -> at_byte l obu 0 out.
Proof. intros (o & w & Hb & Hc & Hh & _). exists o, w. split; [done|]. rewrite Hc. by split. Qed.

(** An OBU that is not sent. *)
Lemma obu_unsent pre obu rest (l : locals S) : sendable obu = false ->
  (if ObuParser.currType (Parsing.current (pre ++ encode_all (obu :: rest)) (length pre) (obu :: rest)) =? ObuType.TemporalDelimiter
   then Some l
   else PacketizerAV1.obu_loop track ts basic (length (data obu))
          (Parsing.current (pre ++ encode_all (obu :: rest)) (length pre) (obu :: rest))
          (length pre + length (Parsing.front obu)) (Z.of_nat (length (data obu))) l) = Some l.
Proof.
  intros Hs. cbn [Parsing.current ObuParser.currType ObuParser.mCurrType]. unfold sendable in Hs.
  destruct (type obu =? ObuType.TemporalDelimiter); [done|]. cbn [negb andb] in Hs.
  apply negb_false_iff, bool_decide_eq_true in Hs. by rewrite Hs.
Qed.

(** One round of the loop over the OBUs. *)
Lemma obus_round pre obu rest fuel (l : locals S) : Forall ok (obu :: rest) ->
  Z.of_nat (length (pre ++ encode_all (obu :: rest))) < 2 ^ 64 ->
  obus_loop track ts basic (Datatypes.S fuel)
    (Parsing.current (pre ++ encode_all (obu :: rest)) (length pre) (obu :: rest)) l =
  if ObuParser.valid (Parsing.current (pre ++ encode_all (obu :: rest)) (length pre) (obu :: rest)) then
    l ← (if ObuParser.currType (Parsing.current (pre ++ encode_all (obu :: rest)) (length pre) (obu :: rest)) =? ObuType.TemporalDelimiter
         then Some l
         else PacketizerAV1.obu_loop track ts basic (length (data obu))
                (Parsing.current (pre ++ encode_all (obu :: rest)) (length pre) (obu :: rest))
                (length pre + length (Parsing.front obu)) (Z.of_nat (length (data obu))) l);
    obus_loop track ts basic fuel
      (Parsing.current ((pre ++ encode obu) ++ encode_all rest) (length (pre ++ encode obu)) rest) l
  else Some l.
Proof.
  intros Hok Hlen. cbn [obus_loop]. cbn [Parsing.current ObuParser.mCurrData ObuParser.currSize ObuParser.mCurrSize].
  change (ObuParser.mk _ _ _ _ _ _) with (Parsing.current (pre ++ encode_all (obu :: rest)) (length pre) (obu :: rest)).
  rewrite Nat2Z.id. destruct (ObuParser.valid _); [|done].
  match goal with |- (?m ≫= _) = _ => destruct m as [l1|] end; [|done]. cbn [mbind option_bind].
  rewrite Parsing.next_at by done. cbn [mbind option_bind].
  assert (pre ++ encode_all (obu :: rest) = (pre ++ encode obu) ++ encode_all rest) as ->; [|done].
  unfold encode_all. cbn [map concat]. by rewrite app_assoc.
Qed.

Lemma obus_unsent rest : forall pre fuel (l : locals S), Forall ok rest -> Forall (fun o => sendable o = false) rest ->
  Z.of_nat (length (pre ++ encode_all rest)) < 2 ^ 64 -> (length rest <= fuel)%nat ->
  obus_loop track ts basic fuel (Parsing.current (pre ++ encode_all rest) (length pre) rest) l = Some l.
Proof.
  induction rest as [|obu rest IH]; intros pre fuel l Hok Hun Hlen Hf; [by destruct fuel|].
  destruct fuel as [|fuel]; [cbn [length] in Hf; lia|]. rewrite obus_round by done.
  destruct (ObuParser.valid _); [|done]. apply list.Forall_cons in Hun as [Hu Hun]. rewrite obu_unsent by done.
  cbn [mbind option_bind]. apply list.Forall_cons in Hok as [_ Hok]. apply IH; [done|done| |cbn [length] in Hf; lia].
  assert (pre ++ encode_all (obu :: rest) = (pre ++ encode obu) ++ encode_all rest) as <-; [|done].
  unfold encode_all. cbn [map concat]. by rewrite app_assoc.
Qed.

(** Only the last OBU that is sent may be longer than 88 bytes, and then it has
    neither a temporal nor a spatial id. *)
Fixpoint tame (l : list t) : Prop :=
  match l with
  | [] => True
  | o :: l =>
      (sendable o = true -> (length (data o) <= 88)%nat \/
         (extended o = false /\ Forall (fun o => sendable o = false) l)) /\ tame l
  end.

Lemma filter_unsent l : Forall (fun o => sendable o = false) l -> List.filter sendable l = [].
Proof.
  induction l as [|o l IH]; intros H; [done|]. apply list.Forall_cons in H as [Ho H]. cbn [List.filter].
  rewrite Ho. by apply IH.
Qed.

Lemma obus_ok obus : forall pre fuel l out, Forall ok obus -> tame obus ->
  Z.of_nat (length (pre ++ encode_all obus)) < 2 ^ 64 -> (length obus <= fuel)%nat -> idle l out ->
  exists l', obus_loop track ts basic fuel (Parsing.current (pre ++ encode_all obus) (length pre) obus) l = Some l' /\
    finished l' (out ++ encode_all (List.filter sendable obus)).
Proof.
  induction obus as [|obu rest IH]; intros pre fuel l out Hok Htame Hlen Hf Hidle.
  { exists l. split; [by destruct fuel|]. cbn. rewrite app_nil_r. by apply idle_finished. }
  destruct fuel as [|fuel]; [cbn [length] in Hf; lia|]. rewrite obus_round by done.
  destruct (Parsing.valid_current pre obu rest) as [->|[Hd ->]].
  2:{ assert (sendable obu = false) as Hs by (unfold sendable; rewrite Hd; apply andb_false_r).
      rewrite obu_unsent by done. exists l. cbn [mbind option_bind List.filter]. rewrite Hs.
      split; [destruct (ObuParser.valid _); by destruct fuel|]. cbn. rewrite app_nil_r. by apply idle_finished. }
  apply list.Forall_cons in Hok as [Ho Hok]. destruct Htame as [Hobu Htame]. cbn [length] in Hf.
  assert (Z.of_nat (length ((pre ++ encode obu) ++ encode_all rest)) < 2 ^ 64) as Hlen'.
  { assert (pre ++ encode_all (obu :: rest) = (pre ++ encode obu) ++ encode_all rest) as <-; [|done].
    unfold encode_all. cbn [map concat]. by rewrite app_assoc. }
  cbn [List.filter]. destruct (sendable obu) eqn:Hs.
  2:{ rewrite obu_unsent by done. cbn [mbind option_bind]. apply IH; try done. lia. }
  assert (0 < length (data obu))%nat as Hpos.
  { unfold sendable in Hs. apply andb_true_iff in Hs as [_ Hs]. apply negb_true_iff, bool_decide_eq_false in Hs.
    destruct (data obu); [done|cbn [length]; lia]. }
  assert (ObuParser.currType (Parsing.current (pre ++ encode_all (obu :: rest)) (length pre) (obu :: rest))
    =? ObuType.TemporalDelimiter = false) as ->.
  { unfold sendable in Hs. apply andb_true_iff in Hs as [Hs _]. by apply negb_true_iff in Hs. }
  destruct (obu_rest (length (data obu)) l pre obu rest 0 out Ho Hpos) as (l1 & z & E & Hopen & Hc & Hz);
    [|by apply idle_start|lia|].
  { intros Ee. split; [done|]. destruct (Hobu eq_refl) as [?|[? _]]; [done|congruence]. }
  rewrite Nat.add_0_r, Nat.sub_0_r in E. rewrite E. cbn [mbind option_bind].
  assert (encode_all (obu :: List.filter sendable rest) = encode obu ++ encode_all (List.filter sendable rest)) as -> by done.
  rewrite app_assoc. pose proof (holding_whole obu out Ho) as Hhold.
  destruct (decide (length (data obu) <= 88)%nat) as [H88|H88].
  - specialize (Hz H88 eq_refl) as ->. apply IH; try done; [lia|]. eexists _, _. split; [by right|].
    split; [done|]. split; [done|]. intros Hp. by destruct Hopen as [_ _ _ _ (? & ? & Hpk & _) _]; rewrite Hpk in Hp.
  - destruct (Hobu eq_refl) as [?|[_ Hun]]; [lia|]. rewrite obus_unsent by (done || lia).
    rewrite filter_unsent by done. exists l1. split; [done|]. cbn. rewrite app_nil_r. eexists _, _. split; [done|].
    right. by exists z.
Qed.

End Sources.
End Sending.

(** A sequence header that is sent is found. *)
Lemma sequence_found l : forall pre fuel, Forall Obu.ok l ->
  Exists (fun o => Obu.type o = ObuType.SequenceHeader) (List.filter Obu.sendable l) ->
  Z.of_nat (length (pre ++ Obu.encode_all l)) < 2 ^ 64 -> (length l <= fuel)%nat ->
  any_obu fuel PacketizerAV1.is_sequence_header (Parsing.current (pre ++ Obu.encode_all l) (length pre) l) = Some true.
Proof.
  induction l as [|o l IH]; intros pre fuel Hl Hex Hlen Hf; [by inversion Hex|].
  destruct fuel as [|fuel]; [cbn [length] in Hf; lia|]. cbn [any_obu Parsing.current ObuParser.mCurrData].
  change (ObuParser.mk _ _ _ _ _ _) with (Parsing.current (pre ++ Obu.encode_all (o :: l)) (length pre) (o :: l)).
  cbn [List.filter] in Hex. destruct (Parsing.valid_current pre o l) as [->|[Hd ->]].
  2:{ assert (Obu.sendable o = false) as Hs by (unfold Obu.sendable; rewrite Hd; apply andb_false_r).
      rewrite Hs in Hex. by inversion Hex. }
  match goal with |- context [PacketizerAV1.is_sequence_header ?p ?d] =>
    change (PacketizerAV1.is_sequence_header p d) with (Some (Obu.type o =? ObuType.SequenceHeader)) end.
  cbn [mbind option_bind].
  destruct (Z.eqb_spec (Obu.type o) ObuType.SequenceHeader) as [|Hne]; [done|].
  change (ObuParser.mk _ _ _ _ _ _) with (Parsing.current (pre ++ Obu.encode_all (o :: l)) (length pre) (o :: l)).
  rewrite Parsing.next_at by done. cbn [mbind option_bind].
  assert (pre ++ Obu.encode_all (o :: l) = (pre ++ Obu.encode o) ++ Obu.encode_all l) as E
    by (unfold Obu.encode_all; cbn [map concat]; by rewrite app_assoc).
  rewrite E in *. apply list.Forall_cons in Hl as [_ Hl]. apply IH; [done| |done|cbn [length] in Hf; lia].
  destruct (Obu.sendable o); [|done]. by inversion Hex.
Qed.

Lemma carries_payloads ts ps : forall items, Forall2 (carries ts) (map view ps) items ->
  map payload items = map RtpPacket.mPayload ps.
Proof.
  induction ps as [|p ps IH]; intros items H; inversion H as [|? it ? items' (_ & Hp & _) H']; subst; [done|].
  cbn [map]. rewrite Hp. f_equal. by apply IH.
Qed.

Lemma carries_last ts ps p items : Forall2 (carries ts) (map view (ps ++ [p])) items ->
  exists x, list.last items = Some x /\ marker x = RtpPacket.mMarker p.
Proof.
  rewrite map_app. intros H. apply Forall2_app_inv_l in H as (l1 & l2 & _ & H2 & ->).
  inversion H2 as [|? x ? l' (Hm & _) H']; subst. inversion H'; subst. exists x. by rewrite list.last_snoc.
Qed.

Section Properties.
Import Obu Receiving Sending PacketizerAV1.
Context {S : Type} `{!RtpExtensionSource S} (overhead : Z) (I : list S -> Prop) `{!PacketSources S overhead I}.
#[local] Set Default Proof Using "All".

(** C21: packetizing an AV1 frame ends, keeps every packet within the packet size
    on the wire, gives the packets the frame's timestamp and the next sequence
    numbers in order, marks the last packet only; and the depacketizer gives back
    the frame, less its temporal delimiters and empty OBUs, once a sequence
    header has been sent: for frames of which only the last OBU is longer than 88
    bytes, and then has no temporal or spatial id. *)
Theorem av1_roundtrip track now pts obus (e : env S) st :
  I (e_sources e) -> Forall ok obus -> tame obus -> Z.of_nat (length (encode_all obus)) < 2 ^ 32 ->
  List.filter sendable obus <> [] ->
  DepacketizerAV1.mSeenNewSequence st = true \/
    Exists (fun o => type o = ObuType.SequenceHeader) (List.filter sendable obus) ->
  exists ps e', generate track overhead now pts (encode_all obus) e = Some (ps, e') /\
    emitted I track (frameTimestamp e now pts).1 (frameTimestamp e now pts).2 ps e' /\
    Forall (fits overhead) ps /\
    (exists init last, ps = init ++ [last] /\ unmarked init /\ RtpPacket.mMarker last = true) /\
    forall timestamp items, Forall2 (carries timestamp) (map view ps) items ->
      DepacketizerAV1.extract st items =
        Some ([encode_all (List.filter sendable obus)], DepacketizerAV1.mk true).
Proof.
  intros HI Hok Htame Hlen Hsome Hseen. unfold generate. pose proof (frameTimestamp_sources e now pts) as Hcount.
  destruct (frameTimestamp e now pts) as [ts e1]. cbn [fst snd] in *.
  assert (ObuParser.make (encode_all obus) = Some (Parsing.current ([] ++ encode_all obus) (length (@nil Z)) obus)) as Hmake
    by exact (Parsing.parse_at [] obus Hok).
  pose proof (Parsing.length_encode_all obus) as Hl. unfold any_obu_of. rewrite Hmake. cbn [mbind option_bind].
  destruct (Parsing.any_obu_total is_sequence_header obus ltac:(by eexists) [] (Datatypes.S (length (encode_all obus))) Hok
    ltac:(cbn [app]; lia) ltac:(lia)) as [isNew Enew]. rewrite Enew. cbn [mbind option_bind].
  set (l0 := mkLocals S _ isNew _ _ _ _ _ _ _).
  assert (idle overhead I track ts e1 st isNew l0 []) as Hidle.
  { exists BufferedObu.make, []. split; [left|done]. split; [done|]. split.
    - split; [apply emitted_refl; cbn; by rewrite Hcount|constructor|constructor].
    - by exists st. }
  destruct (obus_ok overhead I track ts e1 st isNew obus [] (Datatypes.S (length (encode_all obus))) l0 [] Hok Htame
    ltac:(cbn [app]; lia) ltac:(lia) Hidle) as (l1 & E & o & w & Hhold & Hfin). rewrite E. cbn [mbind option_bind app] in *.
  assert (encode_all (List.filter sendable obus) <> []) as Hout.
  { destruct (List.filter sendable obus) as [|o' l']; [done|]. done. }
  destruct Hfin as [?|[z Hopen]]; [done|].
  destruct (push_any overhead I track ts e1 st isNew l1 z o w true (extension l1) RtpExtension.make_empty false Hopen ltac:(lia))
    as (_ & Hem & Hfit & (p & Hres & Hm) & (st' & Hrun & Hst) & Hnew & _). cbv iota in *.
  rewrite bool_decide_false by (destruct Hopen as [_ _ _ _ (? & ? & -> & _) _]; done).
  set (l2 := push_packet track ts true _ _ l1) in *. exists (result l2), (l_env l2).
  split; [done|]. split; [done|]. split; [done|]. split.
  { exists (result l1), p. split; [done|]. split; [by destruct Hopen as [[]]|done]. }
  intros timestamp items Hitems. rewrite Hnew, orb_false_r in Hst.
  assert (DepacketizerAV1.mSeenNewSequence st' = true) as Hst'.
  { rewrite Hst. destruct Hseen as [->|Hex]; [done|].
    pose proof (sequence_found obus [] (Datatypes.S (length (encode_all obus))) Hok Hex ltac:(cbn [app]; lia) ltac:(lia)) as Es.
    cbn [app] in Es. rewrite Enew in Es. injection Es as ->. apply orb_true_r. }
  unfold DepacketizerAV1.extract. rewrite extract_loop_run, (carries_payloads _ _ _ Hitems), Hrun. cbn [mbind option_bind].
  rewrite Hhold. cbn [mbind option_bind]. rewrite bool_decide_false by done.
  rewrite Hres in Hitems. destruct (carries_last _ _ _ _ Hitems) as (x & -> & Hx). cbn [mbind option_bind].
  unfold DepacketizerAV1.extractImpl. rewrite bool_decide_false by done. rewrite Hst', Hx, Hm.
  destruct st' as [b]. cbn in Hst'. by subst b.
Qed.

End Properties.

(** ** Where it goes wrong *)

Section Witnesses.
Import Demo Obu PacketizerAV1 Sending.

(** A temporal delimiter, a sequence header and a frame that takes three packets. *)
Definition demo_obus : list t :=
  [mk 2 0 0 []; mk 1 0 0 [1; 2; 3; 4; 5; 6; 7; 8; 9; 10]; mk 6 0 0 (replicate 2500 7)].

Lemma av1_roundtrip_witness :
  exists ps e', generate demo_track 10 1000 40000 (encode_all demo_obus) demo_env = Some (ps, e') /\
    emitted (sources_small 10) demo_track (frameTimestamp demo_env 1000 40000).1
      (frameTimestamp demo_env 1000 40000).2 ps e' /\
    Forall (fits 10) ps /\
    (exists init last, ps = init ++ [last] /\ unmarked init /\ RtpPacket.mMarker last = true) /\
    forall timestamp items, Forall2 (carries timestamp) (map view ps) items ->
      DepacketizerAV1.extract DepacketizerAV1.make items =
        Some ([encode_all (List.filter sendable demo_obus)], DepacketizerAV1.mk true).
Proof.
  apply (av1_roundtrip 10 (sources_small 10)).
  - split; vm_compute; congruence.
  - repeat constructor; cbn; lia.
  - cbn. split; [done|]. split; [left; lia|]. split; [right; by split; [|constructor]|done].
  - by vm_compute.
  - done.
  - right. constructor. done.
Defined.

(** What a receiver makes of a frame that is sent to it. *)
Definition sent_and_received (obus : list t) : option (list (list Z)) :=
  '(ps, _) ← generate demo_track 10 1000 40000 (encode_all obus) demo_env;
  '(frames, _) ← DepacketizerAV1.extract (DepacketizerAV1.mk true)
     (map (fun p => mkItem 0 0 0 0 true false Start 0 0 (RtpPacket.mMarker p) RtpExtension.make_empty (RtpPacket.mPayload p)) ps);
  Some frames.

Definition bytes_alike (a b : option (list (list Z))) : bool := bool_decide (a = b).

(** An OBU behind a longer one, in the packet with the end of it, is taken for a
    part of it. *)
Lemma second_obu_swallowed :
  let obus := [mk 6 0 0 (replicate 1500 7); mk 6 0 0 (replicate 100 9)] in
  bytes_alike (sent_and_received obus) (Some [encode_all [mk 6 0 0 (replicate 1500 7 ++ bare (mk 6 0 0 (replicate 100 9)))]]) = true.
Proof. vm_compute. reflexivity. Qed.

(** The data of a long OBU with a spatial id: the size of the second fragment counts
    the byte of an extension that is not there, and the fragment is dropped. *)
Lemma layered_obu_cut :
  let obus := [mk 6 0 1 (replicate 1500 7)] in
  exists n, (n < 1500)%nat /\
    bytes_alike (sent_and_received obus) (Some [encode_all [mk 6 0 1 (replicate n 7)]]) = true.
Proof. exists 1046%nat. split; [lia|]. vm_compute. reflexivity. Qed.

(** Its first packet is a byte too long: the room that is reserved counts the
    aggregation header, the size and the header, but not the extension. *)
Lemma layered_obu_too_long :
  exists ps e', generate demo_track 10 1000 40000 (encode_all [mk 6 0 1 (replicate 1500 7)]) demo_env = Some (ps, e') /\
    map (fun p => length (RtpPacket.generate p).1 + 10 - RtpPacket.kMaxPayloadSize)%nat ps = [1; 0]%nat.
Proof. eexists _, _. split; [vm_compute; reflexivity|]. vm_compute. reflexivity. Qed.

End Witnesses.
