(* ===== verification/H264.v ===== *)
(** * H.264: [PacketizerH264] (src/packetizer_h264.cpp) and [DepacketizerH264]
    (src/depacketizer_h264.cpp), RFC 6184

    What the two share with H.265 is in [Nalus]; here are the headers, the parameter
    sets and the types of H.264, and the start of a frame. *)

From S2P Require Import Prelude Bytes Extension Tracks Rtp Annexb Packets ExtensionSources Nalus.
Import H264Codec.

(** ** PacketizerH264 *)

Module PacketizerH264.

Record state := mk { mSPS : list Z; mPPS : list Z }.

Definition update_parameter (naluType : Z) (data : list Z) (st : state) : state :=
  if naluType =? SPS then mk data (mPPS st)
  else if naluType =? PPS then mk (mSPS st) data
  else st.

(** The "nri" of a fragment is that of the NALU; both are already shifted. *)
Definition fu_payload (header : list Z) (naluType : Z) (isStart isEnd : bool) (data : list Z) : list Z :=
  let nri := Z.land (default 0 (head header)) 0x60 in
  let fuIndicator := u8 (Z.lor nri kPacket_FU_A) in
  let fuHeader := u8 (Z.lor (Z.lor (if isStart then Z.shiftl 1 7 else 0) (if isEnd then Z.shiftl 1 6 else 0)) naluType) in
  ByteWriter.write (ByteWriter.writeU8 (ByteWriter.writeU8 [] fuIndicator) fuHeader) data.

Definition stap_payload (st : state) : list Z :=
  let nri := Z.max (Z.land (default 0 (head (mSPS st))) 0x60) (Z.land (default 0 (head (mPPS st))) 0x60) in
  let w := ByteWriter.writeU8 [] (Z.lor nri kPacket_STAP_A) in
  let w := ByteWriter.writeU16 w (u16 (Z.of_nat (length (mSPS st)))) in
  let w := ByteWriter.write w (mSPS st) in
  let w := ByteWriter.writeU16 w (u16 (Z.of_nat (length (mPPS st)))) in
  ByteWriter.write w (mPPS st).

#[global] Instance codec : NaluCodec state := {
  nc_type := currType;
  nc_isKey := fun naluType => naluType =? KeyFrame;
  nc_isParameter := isParameterNalu;
  nc_none := mk [] [];
  nc_update := update_parameter;
  nc_sets := fun st => [mSPS st; mPPS st];
  nc_aggregate := stap_payload;
  nc_header := 1;
  nc_room := 2;
  nc_fragment := fu_payload
}.

Definition setCodecSpecificData (csd : list (list Z)) : option state := NaluPacketizer.setCodecSpecificData csd.

Definition isKeyFrame (frame : list Z) : option bool := NaluPacketizer.isKeyFrame (P := state) frame.

Section Sources.
Context {S : Type} `{!RtpExtensionSource S}.

Definition generate (track : Track.t) (overhead now pts_usec : Z) (frame : list Z) (st : state) (e : env S)
  : option (list RtpPacket.t * state * env S) :=
  NaluPacketizer.generate track overhead now pts_usec frame st e.

End Sources.
End PacketizerH264.

(** ** DepacketizerH264 *)

Module DepacketizerH264.
Import NaluDepacketizer.

Definition kHaveSPS : Z := 0x01.
Definition kHavePPS : Z := 0x02.
Definition kHaveKey : Z := 0x10.
Definition kHaveAll : Z := Z.lor (Z.lor kHaveSPS kHavePPS) kHaveKey.

(** The gate of [extractImpl] until parameters and a key frame are there:
    [None] for a NALU that is not emitted. *)
Definition gate (have front : Z) : option Z :=
  if negb (Z.land have kHaveAll =? kHaveAll) then
    let nalu_type := Z.land front 0x1F in
    if nalu_type =? SPS then Some (Z.lor have kHaveSPS)
    else if nalu_type =? PPS then Some (Z.lor have kHavePPS)
    else if isKeyFrameNalu nalu_type then Some (Z.lor have kHaveKey)
    else if isSliceNalu nalu_type then None
    else Some have
  else Some have.

Definition extract_packet (x : locals) (packet : JitterBufferItem) : option locals :=
  let timestamp := rtp_timestamp_ext packet in
  let r := ByteReader.make (payload packet) in
  if (1 <? ByteReader.remaining r)%nat then
    '(indicator, r) ← ByteReader.readU8 r;
    let nri := Z.land indicator 0x60 in
    let type := Z.land indicator 0x1F in
    if type =? kPacket_STAP_A then
      '(st, out) ← units_loop gate 1 (S (length (payload packet))) timestamp (marker packet) r (l_st x) (l_out x);
      Some (mkLocals (fu x) st out)
    else if type =? kPacket_FU_A then
      if (1 <=? ByteReader.remaining r)%nat then
        '(fuHeader, r) ← ByteReader.readU8 r;
        let fuIsStart := negb (Z.land fuHeader (Z.shiftl 1 7) =? 0) in
        let fuIsEnd := negb (Z.land fuHeader (Z.shiftl 1 6) =? 0) in
        let fuNaluType := Z.land fuHeader 0x1F in
        fragment gate timestamp (marker packet) fuIsStart fuIsEnd [u8 (Z.lor nri fuNaluType)] r x
      else Some x
    else if type <? 23 then Some (single gate timestamp (marker packet) (payload packet) x)
    else Some x
  else Some x.

Definition extract (st : state) (packetList : list JitterBufferItem) : option (list (list Z) * state) :=
  NaluDepacketizer.extract extract_packet st packetList.

(** *** The start of a frame *)

Definition isFrameStartImpl (naluType : Z) (data : list Z) : option bool :=
  if naluType =? SPS then Some true
  else if (naluType =? NonKeyFrame) && negb (bool_decide (data = [])) then isSliceFrameStart data
  else Some false.

Fixpoint stap_start_loop (fuel : nat) (r : ByteReader.t) : option bool :=
  match fuel with
  | O => None
  | S fuel =>
      if (2 <=? ByteReader.remaining r)%nat then
        '(size, r) ← ByteReader.readU16 r;
        if (Z.to_nat size <=? ByteReader.remaining r)%nat && (0 <? size) then
          match ByteReader.current r with
          | [] => None
          | front :: rest =>
              start ← (if 1 <? size
                       then isFrameStartImpl (Z.land front 0x1F) (take (Z.to_nat size - 1) rest)
                       else Some false);
              if (start : bool) then Some true
              else r ← ByteReader.skip r (Z.to_nat size); stap_start_loop fuel r
          end
        else Some false
      else Some false
  end.

Definition isFrameStart (payload : list Z) : option bool :=
  let r := ByteReader.make payload in
  if (1 <? ByteReader.remaining r)%nat then
    '(indicator, r) ← ByteReader.readU8 r;
    let type := Z.land indicator 0x1F in
    if type =? kPacket_STAP_A then stap_start_loop (S (length payload)) r
    else if type =? kPacket_FU_A then
      if (1 <=? ByteReader.remaining r)%nat then
        '(fuHeader, r) ← ByteReader.readU8 r;
        if negb (Z.land fuHeader (Z.shiftl 1 7) =? 0)
        then isFrameStartImpl (Z.land fuHeader 0x1F) (ByteReader.current r)
        else Some false
      else Some false
    else if type <=? 23 then isFrameStartImpl type (ByteReader.current r)
    else Some false
  else Some false.

#[global] Instance depacketizer : Depacketizer state := {
  dep_getPacketKind st payload marker :=
    (fun start : bool => getPacketKind start marker) <$> isFrameStart payload;
  dep_reset := reset;
  dep_extract := extract
}.

#[global] Instance receiver : NaluReceiver PacketizerH264.state := { nr_gate := gate; nr_extract := extract_packet }.

End DepacketizerH264.

(** ** The two sides understand each other *)

Module H264Wire.
Import NaluDepacketizer NaluFeed PacketizerH264 DepacketizerH264.

(** A NALU the depacketizer understands: at least two bytes, the forbidden bit
    clear, a type below 23. *)
Definition nalu_ok (d : list Z) : Prop :=
  bytes_ok d /\ (2 <= length d)%nat /\ default 0 (head d) < 128 /\ Z.land (default 0 (head d)) 0x1F < 23.

Definition parameter_ok (d : list Z) : Prop := bytes_ok d /\ Z.of_nat (length d) < 65536.

Definition fu_indicator (b : Z) : Z := u8 (Z.lor (Z.land b 0x60) kPacket_FU_A).
Definition fu_header (start end_ : bool) (b : Z) : Z :=
  u8 (Z.lor (Z.lor (if start then Z.shiftl 1 7 else 0) (if end_ then Z.shiftl 1 6 else 0)) (Z.land b 0x1F)).

(** The bits of the two header bytes, checked on all bytes. *)
Lemma fu_bits b start end_ :
  is_u8 b ->
  Z.land (fu_indicator b) 0x1F = 28 /\ Z.land (fu_indicator b) 0x60 = Z.land b 0x60 /\
  negb (Z.land (fu_header start end_ b) (Z.shiftl 1 7) =? 0) = start /\
  negb (Z.land (fu_header start end_ b) (Z.shiftl 1 6) =? 0) = end_ /\
  Z.land (fu_header start end_ b) 0x1F = Z.land b 0x1F.
Proof.
  intros Hb.
  pose proof (byte_forall (fun b => (Z.land (fu_indicator b) 0x1F =? 28) &&
    (Z.land (fu_indicator b) 0x60 =? Z.land b 0x60)) ltac:(by vm_compute) b Hb) as H1.
  apply andb_true_iff in H1 as [H1 H2]. apply Z.eqb_eq in H1, H2.
  assert (forall s e, forallb (fun b =>
    eqb (negb (Z.land (fu_header s e b) (Z.shiftl 1 7) =? 0)) s &&
    eqb (negb (Z.land (fu_header s e b) (Z.shiftl 1 6) =? 0)) e &&
    (Z.land (fu_header s e b) 0x1F =? Z.land b 0x1F)) (seqZ 0 256) = true) as Hall
    by (intros [] []; by vm_compute).
  pose proof (byte_forall _ (Hall start end_) b Hb) as H3.
  apply andb_true_iff in H3 as [H3 H5]. apply andb_true_iff in H3 as [H3 H4].
  apply eqb_prop in H3, H4. apply Z.eqb_eq in H5. done.
Qed.

Lemma nalu_byte b : is_u8 b -> b < 128 -> u8 (Z.lor (Z.land b 0x60) (Z.land b 0x1F)) = b.
Proof.
  intros Hb Hlt.
  pose proof (byte_forall (fun b => negb (b <? 128) || (u8 (Z.lor (Z.land b 0x60) (Z.land b 0x1F)) =? b))
    ltac:(by vm_compute) b Hb) as H. apply orb_true_iff in H as [H|H].
  - apply negb_true_iff, Z.ltb_ge in H. lia.
  - by apply Z.eqb_eq in H.
Qed.

Lemma stap_byte a b :
  is_u8 a -> is_u8 b -> Z.land (u8 (Z.lor (Z.max (Z.land a 0x60) (Z.land b 0x60)) kPacket_STAP_A)) 0x1F = 24.
Proof.
  intros Ha Hb.
  assert (exists c, is_u8 c /\ Z.max (Z.land a 0x60) (Z.land b 0x60) = Z.land c 0x60) as (c & Hc & ->).
  { destruct (Z.max_spec (Z.land a 0x60) (Z.land b 0x60)) as [[_ ->]|[_ ->]]; eauto. }
  pose proof (byte_forall (fun c => Z.land (u8 (Z.lor (Z.land c 0x60) kPacket_STAP_A)) 0x1F =? 24)
    ltac:(by vm_compute) c Hc) as H. by apply Z.eqb_eq in H.
Qed.

(** A payload of at least two bytes, read up to its second byte. *)
Lemma packet_read x item indicator rest : payload item = indicator :: rest -> rest <> [] ->
  extract_packet x item =
  (let timestamp := rtp_timestamp_ext item in
   let r := ByteReader.reader_at [indicator] rest in
   let type := Z.land indicator 0x1F in
   if type =? kPacket_STAP_A then
     '(st, out) ← units_loop gate 1 (S (length (payload item))) timestamp (marker item) r (l_st x) (l_out x);
     Some (mkLocals (fu x) st out)
   else if type =? kPacket_FU_A then
     '(fuHeader, r) ← ByteReader.readU8 r;
     fragment gate timestamp (marker item) (negb (Z.land fuHeader (Z.shiftl 1 7) =? 0))
       (negb (Z.land fuHeader (Z.shiftl 1 6) =? 0)) [u8 (Z.lor (Z.land indicator 0x60) (Z.land fuHeader 0x1F))] r x
   else if type <? 23 then Some (single gate timestamp (marker item) (payload item) x) else Some x).
Proof.
  intros Ep Hr. unfold extract_packet. rewrite Ep, ByteReader.make_reader_at, ByteReader.remaining_at.
  destruct rest as [|c rest]; [done|]. cbn [length Nat.ltb Nat.leb].
  rewrite ByteReader.readU8_at. cbn [mbind option_bind]. by rewrite ByteReader.remaining_at.
Qed.

Lemma update_wire st d : Forall parameter_ok (nc_sets st) ->
  (nc_isParameter (type_of d) = true -> parameter_ok d) ->
  Forall parameter_ok (nc_sets (nc_update (type_of d) d st)).
Proof.
  intros Hst Hd. cbn [nc_sets nc_update codec] in *. unfold update_parameter, isParameterNalu in *.
  change (type_of d) with (currType (default 0 (head d))) in *.
  apply list.Forall_cons in Hst as [Hs Hst]. apply list.Forall_cons in Hst as [Hp _].
  cbn [nc_isParameter codec] in Hd. unfold isParameterNalu in Hd.
  destruct (currType _ =? SPS), (currType _ =? PPS); cbn [orb mSPS mPPS] in *;
    (constructor; [auto|constructor; [auto|constructor]]).
Qed.

Lemma single_wire x item d : nalu_ok d -> payload item = d ->
  extract_packet x item = Some (single gate (rtp_timestamp_ext item) (marker item) d x).
Proof.
  intros (_ & Hl & _ & Ht) Ep.
  destruct d as [|b [|c rest]]; cbn [length] in Hl; [lia..|]. cbn [head default from_option id] in Ht.
  rewrite (packet_read x item b (c :: rest)) by done. cbv zeta.
  replace (Z.land b 0x1F =? kPacket_STAP_A) with false by (symmetry; apply Z.eqb_neq; unfold kPacket_STAP_A; lia).
  replace (Z.land b 0x1F =? kPacket_FU_A) with false by (symmetry; apply Z.eqb_neq; unfold kPacket_FU_A; lia).
  replace (Z.land b 0x1F <? 23) with true by (symmetry; by apply Z.ltb_lt). by rewrite Ep.
Qed.

Lemma fragment_wire x item d start end_ c : nalu_ok d -> (nc_header < length d)%nat ->
  payload item = nc_fragment (take nc_header d) (type_of d) start end_ c ->
  exists pre, extract_packet x item = fragment gate (rtp_timestamp_ext item) (marker item) start end_
    (take nc_header d) (ByteReader.reader_at pre c) x.
Proof.
  intros (Hok & Hl & Hlt & Ht) _ Ep. cbn [nc_header codec].
  destruct d as [|b rest]; cbn [length] in Hl; [lia|]. apply bytes_ok_cons_iff in Hok as [Hb _].
  cbn [head default from_option id] in Hlt, Ht.
  assert (payload item = fu_indicator b :: fu_header start end_ b :: c) as Epl.
  { rewrite Ep. cbn [nc_fragment codec take]. unfold fu_payload, ByteWriter.writeU8, ByteWriter.write, type_of.
    cbn [head default from_option id app nc_type codec].
    by rewrite !(u8_small (u8 _)) by apply u8_range. }
  rewrite (packet_read x item _ _ Epl) by done. cbv zeta.
  destruct (fu_bits b start end_ Hb) as (Hi & Hn & Hs & He & Hty). rewrite Hi, Hn.
  cbn [kPacket_STAP_A kPacket_FU_A Z.eqb Pos.eqb]. rewrite ByteReader.readU8_at. cbn [mbind option_bind].
  rewrite Hs, He, Hty, nalu_byte by done. by eexists.
Qed.

Lemma aggregate_wire st x item : NaluPacketizer.complete st = true -> Forall parameter_ok (nc_sets st) ->
  payload item = nc_aggregate st ->
  extract_packet x item =
  Some (let so := feed gate (rtp_timestamp_ext item) (map (pair (marker item)) (nc_sets st)) (l_st x, l_out x) in
        mkLocals (fu x) so.1 so.2).
Proof.
  intros Hc Hp Ep. cbn [nc_sets codec] in *.
  apply list.Forall_cons in Hp as [Hs Hp]. apply list.Forall_cons in Hp as [Hp _].
  unfold NaluPacketizer.complete in Hc. cbn [nc_sets codec forallb] in Hc.
  destruct st as [[|s sps] [|q pps]]; try done. cbn [mSPS mPPS] in *. clear Hc.
  set (ind := u8 (Z.lor (Z.max (Z.land s 0x60) (Z.land q 0x60)) kPacket_STAP_A)).
  assert (payload item = ind :: units [s :: sps; q :: pps]) as Epl.
  { rewrite Ep. cbn [nc_aggregate codec]. unfold stap_payload. cbn [mSPS mPPS]. destruct Hs as [_ ?], Hp as [_ ?].
    rewrite !u16_small by (unfold is_u16; lia). rewrite !Wire.writeU16_be. unfold ByteWriter.write, units.
    cbn [head default from_option id]. unfold ByteWriter.writeU8, ByteWriter.write. fold ind.
    cbn [map concat]. rewrite app_nil_r, <- !app_assoc. done. }
  rewrite (packet_read x item _ _ Epl) by done. cbv zeta.
  assert (Z.land ind 0x1F = 24) as -> by (apply stap_byte; [apply (proj1 (proj1 (bytes_ok_cons_iff _ _) (proj1 Hs)))
    | apply (proj1 (proj1 (bytes_ok_cons_iff _ _) (proj1 Hp)))]).
  cbn [kPacket_STAP_A Z.eqb Pos.eqb]. rewrite units_loop_units.
  + cbn [mbind option_bind]. by destruct (feed _ _ _ _).
  + destruct Hs, Hp. constructor; [|constructor; [|constructor]]; (split; [done|cbn [length] in *; lia]).
  + rewrite Epl. unfold units. cbn [map concat length]. rewrite !length_app, !length_be_bytes. cbn [length]. lia.
Qed.

#[global] Instance wire : NaluWire state nalu_ok parameter_ok.
Proof.
  constructor.
  - cbn. lia.
  - cbn. lia.
  - intros d (_ & Hl & _) ->. cbn in Hl. lia.
  - exact update_wire.
  - exact single_wire.
  - intros header ty s e c. cbn [nc_fragment nc_room codec]. unfold fu_payload, ByteWriter.writeU8, ByteWriter.write.
    rewrite !length_app. cbn [length]. lia.
  - exact fragment_wire.
  - exact aggregate_wire.
Qed.

End H264Wire.

(** ** When extraction stops the program *)

Module H264Safety.
Import NaluDepacketizer NaluSafety DepacketizerH264.

(** A fragment: whether it starts a NALU and whether it brings data. *)
Definition fragment_kind (payload : list Z) : option (bool * bool) :=
  match payload with
  | indicator :: fuHeader :: data =>
      if Z.land indicator 0x1F =? kPacket_FU_A
      then Some (negb (Z.land fuHeader (Z.shiftl 1 7) =? 0), negb (bool_decide (data = []))) else None
  | _ => None
  end.

Lemma extract_packet_safe x packet : packet_safe extract_packet fragment_kind x packet.
Proof.
  unfold packet_safe. destruct (payload packet) as [|indicator [|fuHeader data]] eqn:Ep; cbn [fragment_kind].
  1, 2: unfold extract_packet; rewrite Ep; by eexists.
  rewrite (H264Wire.packet_read x packet indicator (fuHeader :: data) Ep) by done. cbv zeta.
  destruct (Z.eqb_spec (Z.land indicator 0x1F) kPacket_FU_A) as [E|E].
  - rewrite E. cbn [kPacket_FU_A kPacket_STAP_A Z.eqb Pos.eqb]. rewrite ByteReader.readU8_at. cbn [mbind option_bind].
    rewrite negb_involutive. apply fragment_safe.
  - destruct (Z.land indicator 0x1F =? kPacket_STAP_A).
    + destruct (units_loop_safe gate 1 (rtp_timestamp_ext packet) (marker packet) (S (length (payload packet)))
        ltac:(lia) [indicator] (fuHeader :: data) (l_st x) (l_out x)) as [[st out] ->]; [rewrite Ep; simpl; lia|].
      cbn [mbind option_bind]. by eexists.
    + destruct (Z.land indicator 0x1F <? 23); [|by eexists]. eexists. split; [done|].
      unfold single. by destruct (extractImpl _ _ _ _ _ _).
Qed.

(** extraction stops the program on exactly the packet lists where a
    fragment with data comes without a start fragment before it in the same
    call: the writer is null then.  Lost start fragments therefore must not
    reach the depacketizer. *)
Theorem h264_extract_stops_iff st items :
  extract st items = None <-> started fragment_kind false (map payload items) = false.
Proof. apply extract_stops, list.Forall_forall. intros p _ x. apply extract_packet_safe. Qed.

End H264Safety.

(** ** Properties *)

Section Properties.
Import NaluPacketizer NaluFeed NaluSend PacketizerH264 H264Wire.
Context {S : Type} `{!RtpExtensionSource S} (overhead : Z) (I : list S -> Prop) `{!PacketSources S overhead I}.
#[local] Set Default Proof Using "All".

(** A frame of NALUs the depacketizer understands, the last of them media. *)
Definition h264_frame (l : list (bool * list Z)) : Prop := frame_ok (P := state) nalu_ok parameter_ok l.

(** C28: packetizing an H.264 frame ends, keeps every media packet within the
    packet size on the wire (header, extension, padding and protection
    included), gives the packets the frame's timestamp and the next sequence
    numbers in order, and marks the last packet and no other. *)
Theorem h264_packets track now pts l st (e : env S) :
  I (e_sources e) -> h264_frame l -> state_ok parameter_ok st ->
  exists ps st' e', generate track overhead now pts (NaluParser.stream l) st e = Some (ps, st', e') /\
    emitted I track (frameTimestamp e now pts).1 (frameTimestamp e now pts).2 ps e' /\
    Forall (fits_or_parameters (P := state) overhead) ps /\
    exists qs q, ps = qs ++ [q] /\ unmarked qs /\ RtpPacket.mMarker q = true.
Proof.
  intros HI Hl Hst.
  destruct (generate_nalus_ok nalu_ok parameter_ok overhead I track _ now pts l st e HI Hl Hst eq_refl)
    as (ps & st' & e' & E & _ & H). by exists ps, st', e'.
Qed.

(** C19: what the H.264 packetizer sends, the depacketizer puts together again:
    whatever fragments and aggregates carry the NALUs, whatever parameter sets
    and key frames earlier frames have brought, and when these have left nothing
    in the frame buffer, the receiver gets exactly one frame, the NALUs
    behind four-byte start codes with the parameter sets in front of the first
    key NALU, provided its gate (parameters and a key frame seen) lets them
    pass. *)
Theorem h264_roundtrip track now pts l st (e : env S) d have' :
  I (e_sources e) -> h264_frame l -> state_ok parameter_ok st ->
  NaluDepacketizer.mFrameBuffer d = [] ->
  passes DepacketizerH264.gate (NaluDepacketizer.mHaveBits d) (map snd (sent st false (map snd l))) = Some have' ->
  exists ps st' e', generate track overhead now pts (NaluParser.stream l) st e = Some (ps, st', e') /\
    forall timestamp items, Forall2 (carries timestamp) (map view ps) items ->
      DepacketizerH264.extract d items =
      Some ([annexb (map snd (sent st false (map snd l)))], NaluDepacketizer.mk have' [] timestamp).
Proof.
  intros HI Hl Hst Hbuf Hpass.
  destruct (generate_nalus_ok nalu_ok parameter_ok overhead I track _ now pts l st e HI Hl Hst eq_refl)
    as (ps & st' & e' & E & Ht & _). exists ps, st', e'. split; [done|]. intros timestamp items Hitems.
  destruct Hl as [_ Hn _ Hlast]. exact (extract_frame nalu_ok parameter_ok _ _ _ _ _ _ _ Hn Hlast (Ht timestamp) Hbuf Hpass Hitems).
Qed.

End Properties.

Section Witnesses.
Import Demo NaluPacketizer NaluFeed NaluSend PacketizerH264 H264Wire.

(** Parameter sets, an IDR slice that takes two fragments and a short one. *)
Definition demo_frame : list (bool * list Z) :=
  [(true, [0x67; 66; 0; 31]); (true, [0x68; 206]); (false, [6; 5; 1; 128]);
   (true, 0x65 :: replicate 1500 7); (false, [0x65; 136; 9])].

Lemma demo_frame_ok : h264_frame demo_frame.
Proof.
  split.
  - repeat constructor; vm_compute; congruence.
  - apply list.Forall_forall. intros x Hx.
    assert (bool_decide (bytes_ok x) = true /\ bool_decide (x <> []) = true /\ (2 <=? length x)%nat = true /\
      (default 0 (head x) <? 128) = true /\ (Z.land (default 0 (head x)) 0x1F <? 23) = true /\
      (Z.of_nat (length x) <? 65536) = true) as (H1 & H2 & H3 & H4 & H5 & H6).
    { unfold demo_frame in Hx. cbn [map snd] in Hx.
      repeat (apply elem_of_cons in Hx as [->|Hx]; [by vm_compute|]). by apply not_elem_of_nil in Hx. }
    apply bool_decide_eq_true in H1, H2. apply Nat.leb_le in H3. apply Z.ltb_lt in H4, H5, H6.
    unfold frame_nalu. by destruct (nc_isParameter (type_of x)).
  - by vm_compute.
  - by vm_compute.
Qed.

Lemma h264_packets_witness :
  exists ps st' e', generate demo_track 10 1000 40000 (NaluParser.stream demo_frame) (mk [] []) demo_env =
      Some (ps, st', e') /\
    emitted (sources_small 10) demo_track (frameTimestamp demo_env 1000 40000).1
      (frameTimestamp demo_env 1000 40000).2 ps e' /\
    Forall (fits_or_parameters (P := state) 10) ps /\
    exists qs q, ps = qs ++ [q] /\ unmarked qs /\ RtpPacket.mMarker q = true.
Proof.
  apply (h264_packets 10 (sources_small 10)).
  - split; vm_compute; congruence.
  - apply demo_frame_ok.
  - do 2 (constructor; [split; [constructor|vm_compute; congruence]|]). constructor.
Defined.

Lemma h264_roundtrip_witness :
  exists ps st' e', generate demo_track 10 1000 40000 (NaluParser.stream demo_frame) (mk [] []) demo_env =
      Some (ps, st', e') /\
    forall timestamp items, Forall2 (carries timestamp) (map view ps) items ->
      DepacketizerH264.extract NaluDepacketizer.make items =
      Some ([annexb (map snd (sent (mk [] []) false (map snd demo_frame)))],
            NaluDepacketizer.mk 19 [] timestamp).
Proof.
  apply (h264_roundtrip 10 (sources_small 10)).
  - split; vm_compute; congruence.
  - apply demo_frame_ok.
  - do 2 (constructor; [split; [constructor|vm_compute; congruence]|]). constructor.
  - reflexivity.
  - vm_compute. reflexivity.
Defined.

End Witnesses.
