(* ===== verification/H265.v ===== *)
(** * H.265: [PacketizerH265] (src/packetizer_h265.cpp) and [DepacketizerH265]
    (src/depacketizer_h265.cpp), RFC 7798

    What the two share with H.264 is in [Nalus]; here are the two-byte headers, the
    parameter sets and the types of H.265, and the start of a frame. *)

From S2P Require Import Prelude Bytes Extension Tracks Rtp Annexb Packets ExtensionSources Nalus.
Import H265Codec.

(** ** PacketizerH265 *)

Module PacketizerH265.

Record state := mk { mVPS : list Z; mSPS : list Z; mPPS : list Z }.

Definition update_parameter (naluType : Z) (data : list Z) (st : state) : state :=
  if naluType =? VPS then mk data (mSPS st) (mPPS st)
  else if naluType =? SPS then mk (mVPS st) data (mPPS st)
  else if naluType =? PPS then mk (mVPS st) (mSPS st) data
  else st.

(** [naluData[i]]; the packetizer reads the two bytes of NALUs that have more. *)
Definition byte_at (l : list Z) (i : nat) : Z := nth i l 0.

Definition layerId (header : list Z) : Z :=
  u8 (Z.lor (Z.shiftl (Z.land (byte_at header 0) 0x01) 5) (Z.land (Z.shiftr (byte_at header 1) 3) 0x1F)).
Definition temporalId (header : list Z) : Z := Z.land (byte_at header 1) 0x07.

Definition fu_payload (header : list Z) (naluType : Z) (isStart isEnd : bool) (data : list Z) : list Z :=
  let payloadHeader := u16 (Z.lor (Z.lor (Z.shiftl kPacket_FU 9) (Z.shiftl (layerId header) 3)) (temporalId header)) in
  let fuHeader := u8 (Z.lor (Z.lor (if isStart then Z.shiftl 1 7 else 0) (if isEnd then Z.shiftl 1 6 else 0))
    (u8 (Z.land naluType 0x3F))) in
  ByteWriter.write (ByteWriter.writeU8 (ByteWriter.writeU16 [] payloadHeader) fuHeader) data.

Definition ap_payload (st : state) : list Z :=
  let w := ByteWriter.writeU8 [] (u8 (Z.shiftl kPacket_AP 1)) in
  let w := ByteWriter.writeU8 w 0 in
  let w := ByteWriter.writeU16 w (u16 (Z.of_nat (length (mVPS st)))) in
  let w := ByteWriter.write w (mVPS st) in
  let w := ByteWriter.writeU16 w (u16 (Z.of_nat (length (mSPS st)))) in
  let w := ByteWriter.write w (mSPS st) in
  let w := ByteWriter.writeU16 w (u16 (Z.of_nat (length (mPPS st)))) in
  ByteWriter.write w (mPPS st).

#[global] Instance codec : NaluCodec state := {
  nc_type := currType;
  nc_isKey := isKeyFrameNalu;
  nc_isParameter := isParameterNalu;
  nc_none := mk [] [] [];
  nc_update := update_parameter;
  nc_sets := fun st => [mVPS st; mSPS st; mPPS st];
  nc_aggregate := ap_payload;
  nc_header := 2;
  nc_room := 3;
  nc_fragment := fu_payload
}.

Definition setCodecSpecificData (csd : list (list Z)) : option state := NaluPacketizer.setCodecSpecificData csd.

Definition isKeyFrame (frame : list Z) : option bool := NaluPacketizer.isKeyFrame (P := state) frame.

Section Sources.
Context {S : Type} `{!RtpExtensionSource S}.

Definition generate (track : Track.t) (overhead now pts_usec : Z) (frame : list Z) (st : state) (e : env S)
  : option (list RtpPacket.t * state * env S) :=
  NaluPacketizer.generate track overhead now pts_usec frame st e.

End Sources.
End PacketizerH265.

(** ** DepacketizerH265 *)

Module DepacketizerH265.
Import NaluDepacketizer.

Definition kHaveVPS : Z := 0x01.
Definition kHaveSPS : Z := 0x02.
Definition kHavePPS : Z := 0x04.
Definition kHaveKey : Z := 0x10.
Definition kHaveAll : Z := Z.lor (Z.lor (Z.lor kHaveVPS kHaveSPS) kHavePPS) kHaveKey.

(** The gate of [extractImpl] until parameters and a key frame are there:
    [None] for a NALU that is not emitted. *)
Definition gate (have front : Z) : option Z :=
  if negb (Z.land have kHaveAll =? kHaveAll) then
    let nalu_type := Z.land (Z.shiftr front 1) 0x3F in
    if nalu_type =? VPS then Some (Z.lor have kHaveVPS)
    else if nalu_type =? SPS then Some (Z.lor have kHaveSPS)
    else if nalu_type =? PPS then Some (Z.lor have kHavePPS)
    else if isKeyFrameNalu nalu_type then Some (Z.lor have kHaveKey)
    else if isSliceNalu nalu_type then None
    else Some have
  else Some have.

Definition header_type (nalUnitHeader : Z) : Z := Z.land (Z.shiftr nalUnitHeader 9) 0x3F.

(** The header that a start fragment puts in front of the NALU. *)
Definition fu_nalu_header (nalUnitHeader fuType : Z) : list Z :=
  let layerId := Z.land (Z.shiftr nalUnitHeader 3) 0x3F in
  let temporalId := Z.land nalUnitHeader 0x7 in
  ByteWriter.writeU16 [] (u16 (Z.lor (Z.lor (Z.shiftl fuType 9) (Z.shiftl layerId 3)) temporalId)).

Definition extract_packet (x : locals) (packet : JitterBufferItem) : option locals :=
  let timestamp := rtp_timestamp_ext packet in
  let r := ByteReader.make (payload packet) in
  if (2 <=? ByteReader.remaining r)%nat then
    '(nalUnitHeader, r) ← ByteReader.readU16 r;
    let type := header_type nalUnitHeader in
    if type =? kPacket_AP then
      '(st, out) ← units_loop gate 2 (S (length (payload packet))) timestamp (marker packet) r (l_st x) (l_out x);
      Some (mkLocals (fu x) st out)
    else if type =? kPacket_FU then
      if (1 <=? ByteReader.remaining r)%nat then
        '(fuHeader, r) ← ByteReader.readU8 r;
        let fuIsStart := negb (Z.land fuHeader (Z.shiftl 1 7) =? 0) in
        let fuIsEnd := negb (Z.land fuHeader (Z.shiftl 1 6) =? 0) in
        let fuType := Z.land fuHeader 0x3F in
        fragment gate timestamp (marker packet) fuIsStart fuIsEnd (fu_nalu_header nalUnitHeader fuType) r x
      else Some x
    else if type <=? 40 then Some (single gate timestamp (marker packet) (payload packet) x)
    else Some x
  else Some x.

Definition extract (st : state) (packetList : list JitterBufferItem) : option (list (list Z) * state) :=
  NaluDepacketizer.extract extract_packet st packetList.

(** *** The start of a frame *)

Definition isFrameStartImpl (naluType : Z) (data : list Z) : bool :=
  if naluType =? VPS then true
  else if negb (isKeyFrameNalu naluType) && isSliceNalu naluType && negb (bool_decide (data = []))
  then isSliceFrameStart data
  else false.

(** The units of an aggregate are looked at one after the other, but the reader does
    not step over them: what it takes for the size of the next is inside. *)
Fixpoint ap_start_loop (fuel : nat) (r : ByteReader.t) : option bool :=
  match fuel with
  | O => None
  | S fuel =>
      if (2 <=? ByteReader.remaining r)%nat then
        '(size, r) ← ByteReader.readU16 r;
        if (Z.to_nat size <=? ByteReader.remaining r)%nat && (2 <=? size) then
          match ByteReader.current r with
          | b0 :: b1 :: rest =>
              let apHeader := Z.lor (Z.shiftl b0 8) b1 in
              if (2 <? size) && isFrameStartImpl (header_type apHeader) (take (Z.to_nat size - 2) rest) then Some true
              else ap_start_loop fuel r
          | _ => None
          end
        else Some false
      else Some false
  end.

Definition isFrameStart (payload : list Z) : option bool :=
  let r := ByteReader.make payload in
  if (2 <=? ByteReader.remaining r)%nat then
    '(nalUnitHeader, r) ← ByteReader.readU16 r;
    let type := header_type nalUnitHeader in
    if type =? kPacket_AP then ap_start_loop (S (length payload)) r
    else if type =? kPacket_FU then
      if (1 <=? ByteReader.remaining r)%nat then
        '(fuHeader, r) ← ByteReader.readU8 r;
        let fuIsStart := negb (Z.land fuHeader (Z.shiftl 1 7) =? 0) in
        let fuNaluType := Z.land fuHeader 0x3F in
        let fuData := ByteReader.current r in
        Some (fuIsStart && negb (bool_decide (fuData = [])) && isFrameStartImpl fuNaluType fuData)
      else Some false
    else if type <=? 40 then Some (isFrameStartImpl type (ByteReader.current r))
    else Some false
  else Some false.

#[global] Instance depacketizer : Depacketizer state := {
  dep_getPacketKind st payload marker :=
    (fun start : bool => getPacketKind start marker) <$> isFrameStart payload;
  dep_reset := reset;
  dep_extract := extract
}.

#[global] Instance receiver : NaluReceiver PacketizerH265.state := { nr_gate := gate; nr_extract := extract_packet }.

End DepacketizerH265.

(** ** The two sides understand each other *)

Module H265Wire.
Import NaluDepacketizer NaluFeed PacketizerH265 DepacketizerH265.

(** A NALU the depacketizer understands: at least two bytes, the forbidden bit
    clear, a type up to 40. *)
Definition nalu_ok (d : list Z) : Prop :=
  bytes_ok d /\ (2 <= length d)%nat /\ default 0 (head d) < 128 /\ currType (default 0 (head d)) <= 40.

(** A parameter set is absent or has a header. *)
Definition parameter_ok (d : list Z) : Prop :=
  bytes_ok d /\ Z.of_nat (length d) < 65536 /\ (d = [] \/ (2 <= length d)%nat).

(** A NALU's header as a number, and the header of its fragments. *)
Definition word (b0 b1 : Z) : Z := be_value [b0; b1].
Definition fu_word (b0 b1 : Z) : Z :=
  u16 (Z.lor (Z.lor (Z.shiftl kPacket_FU 9) (Z.shiftl (layerId [b0; b1]) 3)) (temporalId [b0; b1])).
Definition fu_header (start end_ : bool) (b : Z) : Z :=
  u8 (Z.lor (Z.lor (if start then Z.shiftl 1 7 else 0) (if end_ then Z.shiftl 1 6 else 0)) (u8 (Z.land (currType b) 0x3F))).

(** Checked on all pairs of bytes. *)
Definition header_checks (b0 b1 : Z) : bool :=
  (header_type (word b0 b1) =? currType b0) &&
  (header_type (fu_word b0 b1) =? kPacket_FU) &&
  (negb (b0 <? 128) || bool_decide (fu_nalu_header (fu_word b0 b1) (currType b0) = [b0; b1])).

Lemma header_bits b0 b1 : is_u8 b0 -> is_u8 b1 ->
  header_type (word b0 b1) = currType b0 /\ header_type (fu_word b0 b1) = kPacket_FU /\
  (b0 < 128 -> fu_nalu_header (fu_word b0 b1) (currType b0) = [b0; b1]).
Proof.
  intros H0 H1.
  pose proof (byte_forall (fun b0 => forallb (header_checks b0) (seqZ 0 256)) ltac:(by vm_compute) b0 H0) as H.
  cbv beta in H. pose proof (byte_forall (header_checks b0) H b1 H1) as Hc. unfold header_checks in Hc.
  apply andb_true_iff in Hc as [Hc H3]. apply andb_true_iff in Hc as [Ha Hb]. apply Z.eqb_eq in Ha, Hb.
  split; [done|]. split; [done|]. intros Hlt. apply orb_true_iff in H3 as [H3|H3].
  - apply negb_true_iff, Z.ltb_ge in H3. lia.
  - by apply bool_decide_eq_true in H3.
Qed.

Lemma fu_bits_265 b start end_ : is_u8 b ->
  negb (Z.land (fu_header start end_ b) (Z.shiftl 1 7) =? 0) = start /\
  negb (Z.land (fu_header start end_ b) (Z.shiftl 1 6) =? 0) = end_ /\
  Z.land (fu_header start end_ b) 0x3F = currType b.
Proof.
  intros Hb.
  assert (forall s e, forallb (fun b =>
    eqb (negb (Z.land (fu_header s e b) (Z.shiftl 1 7) =? 0)) s &&
    eqb (negb (Z.land (fu_header s e b) (Z.shiftl 1 6) =? 0)) e &&
    (Z.land (fu_header s e b) 0x3F =? currType b)) (seqZ 0 256) = true) as Hall
    by (intros [] []; by vm_compute).
  pose proof (byte_forall _ (Hall start end_) b Hb) as H3.
  apply andb_true_iff in H3 as [H3 H5]. apply andb_true_iff in H3 as [H3 H4].
  apply eqb_prop in H3, H4. apply Z.eqb_eq in H5. done.
Qed.

(** A payload behind its two header bytes. *)
Lemma packet_read_265 x item h rest : payload item = be_bytes 2 h ++ rest -> is_u16 h ->
  extract_packet x item =
  (let timestamp := rtp_timestamp_ext item in
   let r := ByteReader.reader_at (be_bytes 2 h) rest in
   let type := header_type h in
   if type =? kPacket_AP then
     '(st, out) ← units_loop gate 2 (S (length (payload item))) timestamp (marker item) r (l_st x) (l_out x);
     Some (mkLocals (fu x) st out)
   else if type =? kPacket_FU then
     if (1 <=? length rest)%nat then
       '(fuHeader, r) ← ByteReader.readU8 r;
       fragment gate timestamp (marker item) (negb (Z.land fuHeader (Z.shiftl 1 7) =? 0))
         (negb (Z.land fuHeader (Z.shiftl 1 6) =? 0)) (fu_nalu_header h (Z.land fuHeader 0x3F)) r x
     else Some x
   else if type <=? 40 then Some (single gate timestamp (marker item) (payload item) x) else Some x).
Proof.
  intros Ep Hh. unfold extract_packet. rewrite Ep, ByteReader.make_reader_at, ByteReader.remaining_at, length_app, length_be_bytes.
  replace (2 <=? 2 + length rest)%nat with true by (symmetry; apply Nat.leb_le; lia).
  rewrite Wire.readU16_be by done. cbn [mbind option_bind app]. by rewrite ByteReader.remaining_at.
Qed.

Lemma word_bytes b0 b1 rest : is_u8 b0 -> is_u8 b1 -> b0 :: b1 :: rest = be_bytes 2 (word b0 b1) ++ rest /\ is_u16 (word b0 b1).
Proof.
  intros H0 H1. assert (bytes_ok [b0; b1]) as Hok by (constructor; [done|constructor; [done|constructor]]). split.
  - unfold word. change 2%nat with (length [b0; b1]). by rewrite be_bytes_value.
  - unfold word, is_u16. pose proof (be_value_range _ Hok) as H. exact H.
Qed.

Lemma update_wire_265 st d : Forall parameter_ok (nc_sets st) ->
  (nc_isParameter (type_of d) = true -> parameter_ok d) ->
  Forall parameter_ok (nc_sets (nc_update (type_of d) d st)).
Proof.
  intros Hst Hd. cbn [nc_sets nc_update codec] in *. unfold update_parameter in *.
  change (type_of d) with (currType (default 0 (head d))) in *.
  apply list.Forall_cons in Hst as [Hv Hst]. apply list.Forall_cons in Hst as [Hs Hst].
  apply list.Forall_cons in Hst as [Hp _].
  cbn [nc_isParameter codec] in Hd. unfold isParameterNalu in Hd.
  destruct (currType _ =? VPS), (currType _ =? SPS), (currType _ =? PPS); cbn [orb mVPS mSPS mPPS] in *;
    (constructor; [auto|constructor; [auto|constructor; [auto|constructor]]]).
Qed.

Lemma single_wire_265 x item d : nalu_ok d -> payload item = d ->
  extract_packet x item = Some (single gate (rtp_timestamp_ext item) (marker item) d x).
Proof.
  intros (Hok & Hl & _ & Ht) Ep.
  destruct d as [|b0 [|b1 rest]]; cbn [length] in Hl; [lia..|]. cbn [head default from_option id] in Ht.
  apply bytes_ok_cons_iff in Hok as [H0 Hok]. apply bytes_ok_cons_iff in Hok as [H1 _].
  destruct (word_bytes b0 b1 rest H0 H1) as [Ew Hw]. destruct (header_bits b0 b1 H0 H1) as (Hty & _).
  rewrite (packet_read_265 x item (word b0 b1) rest) by congruence. cbv zeta. rewrite Hty.
  replace (currType b0 =? kPacket_AP) with false by (symmetry; apply Z.eqb_neq; unfold kPacket_AP; lia).
  replace (currType b0 =? kPacket_FU) with false by (symmetry; apply Z.eqb_neq; unfold kPacket_FU; lia).
  replace (currType b0 <=? 40) with true by (symmetry; by apply Z.leb_le). by rewrite Ep.
Qed.

Lemma fragment_wire_265 x item d start end_ c : nalu_ok d -> (nc_header < length d)%nat ->
  payload item = nc_fragment (take nc_header d) (type_of d) start end_ c ->
  exists pre, extract_packet x item = fragment gate (rtp_timestamp_ext item) (marker item) start end_
    (take nc_header d) (ByteReader.reader_at pre c) x.
Proof.
  intros (Hok & Hl & Hlt & Ht) _ Ep. cbn [nc_header codec].
  destruct d as [|b0 [|b1 rest]]; cbn [length] in Hl; [lia..|]. cbn [head default from_option id] in Hlt, Ht.
  apply bytes_ok_cons_iff in Hok as [H0 Hok]. apply bytes_ok_cons_iff in Hok as [H1 _].
  destruct (header_bits b0 b1 H0 H1) as (_ & Hfu & Hback). destruct (fu_bits_265 b0 start end_ H0) as (Hs & He & Hty).
  assert (payload item = be_bytes 2 (fu_word b0 b1) ++ be_bytes 1 (fu_header start end_ b0) ++ c) as Epl.
  { rewrite Ep. cbn [nc_fragment codec take]. unfold fu_payload, type_of.
    rewrite Wire.writeU8_be, Wire.writeU16_be. unfold ByteWriter.write.
    cbn [head default from_option id app nc_type codec]. by rewrite <- app_assoc. }
  rewrite (packet_read_265 x item _ _ Epl) by apply u16_range. cbv zeta. rewrite Hfu.
  cbn [kPacket_AP kPacket_FU Z.eqb Pos.eqb]. rewrite length_app, length_be_bytes. cbn [Nat.add Nat.leb].
  rewrite Wire.readU8_be by apply u8_range. cbn [mbind option_bind].
  rewrite Hs, He, Hty, Hback by done. by eexists.
Qed.

Lemma aggregate_wire_265 st x item : NaluPacketizer.complete st = true -> Forall parameter_ok (nc_sets st) ->
  payload item = nc_aggregate st ->
  extract_packet x item =
  Some (let so := feed gate (rtp_timestamp_ext item) (map (pair (marker item)) (nc_sets st)) (l_st x, l_out x) in
        mkLocals (fu x) so.1 so.2).
Proof.
  intros Hc Hp Ep. cbn [nc_sets codec] in *.
  unfold NaluPacketizer.complete in Hc. cbn [nc_sets codec] in Hc.
  assert (Forall (fun d => bytes_ok d /\ 2 <= Z.of_nat (length d) < 65536) [mVPS st; mSPS st; mPPS st]) as Hu.
  { apply list.Forall_forall. intros d Hd. rewrite list.Forall_forall in Hp. destruct (Hp d Hd) as (Hok & Hl & Hne).
    rewrite forallb_forall in Hc. apply list_elem_of_In, Hc, negb_true_iff, bool_decide_eq_false in Hd.
    split; [done|]. destruct Hne; [done|lia]. }
  assert (payload item = be_bytes 2 0x6000 ++ units [mVPS st; mSPS st; mPPS st]) as Epl.
  { rewrite Ep. cbn [nc_aggregate codec]. unfold ap_payload.
    apply list.Forall_cons in Hu as [[_ Hv] Hu]. apply list.Forall_cons in Hu as [[_ Hs] Hu].
    apply list.Forall_cons in Hu as [[_ Hq] _].
    rewrite !u16_small by (unfold is_u16; lia). rewrite !Wire.writeU16_be, !Wire.writeU8_be. unfold ByteWriter.write, units.
    cbn [map concat]. rewrite app_nil_r, <- !app_assoc. done. }
  rewrite (packet_read_265 x item _ _ Epl) by (unfold is_u16; lia). cbv zeta.
  change (header_type 0x6000) with 48. cbn [kPacket_AP Z.eqb Pos.eqb]. rewrite units_loop_units; [|done|].
  + cbn [mbind option_bind]. by destruct (feed _ _ _ _).
  + rewrite Epl. unfold units. cbn [map concat]. rewrite !length_app, !length_be_bytes. cbn [length]. lia.
Qed.

#[global] Instance wire : NaluWire state nalu_ok parameter_ok.
Proof.
  constructor.
  - cbn. lia.
  - cbn. lia.
  - intros d (_ & Hl & _) ->. cbn in Hl. lia.
  - exact update_wire_265.
  - exact single_wire_265.
  - intros header ty s e c. cbn [nc_fragment nc_room codec]. unfold fu_payload.
    rewrite Wire.writeU8_be, Wire.writeU16_be. unfold ByteWriter.write. rewrite !length_app, !length_be_bytes. cbn [length]. lia.
  - exact fragment_wire_265.
  - exact aggregate_wire_265.
Qed.

End H265Wire.

(** ** When extraction stops the program, and the start of a frame *)

Module H265Safety.
Import NaluDepacketizer NaluSafety DepacketizerH265.

(** A fragment: whether it starts a NALU and whether it brings data. *)
Definition fragment_kind (payload : list Z) : option (bool * bool) :=
  match payload with
  | b0 :: _ :: fuHeader :: data =>
      if currType b0 =? kPacket_FU
      then Some (negb (Z.land fuHeader (Z.shiftl 1 7) =? 0), negb (bool_decide (data = []))) else None
  | _ => None
  end.

Lemma extract_packet_safe_265 x packet : bytes_ok (payload packet) -> packet_safe extract_packet fragment_kind x packet.
Proof.
  intros Hok. unfold packet_safe. destruct (payload packet) as [|b0 [|b1 rest]] eqn:Ep; cbn [fragment_kind].
  1, 2: unfold extract_packet; rewrite Ep; by eexists.
  apply bytes_ok_cons_iff in Hok as [H0 Hok]. apply bytes_ok_cons_iff in Hok as [H1 _].
  destruct (H265Wire.word_bytes b0 b1 rest H0 H1) as [Ew Hw].
  destruct (H265Wire.header_bits b0 b1 H0 H1) as (Hty & _). rewrite Ew in Ep.
  assert ((match rest with fuHeader :: data =>
    if currType b0 =? kPacket_FU then Some (negb (Z.land fuHeader (Z.shiftl 1 7) =? 0), negb (bool_decide (data = []))) else None
    | [] => None end) = fragment_kind (b0 :: b1 :: rest)) as -> by (by destruct rest).
  rewrite (H265Wire.packet_read_265 x packet _ rest Ep Hw). cbv zeta. rewrite Hty. cbn [fragment_kind].
  destruct (Z.eqb_spec (currType b0) kPacket_FU) as [E|E].
  - rewrite E. cbn [kPacket_AP kPacket_FU Z.eqb Pos.eqb]. destruct rest as [|fuHeader data]; [by eexists|].
    cbn [length Nat.leb]. rewrite ByteReader.readU8_at. cbn [mbind option_bind].
    rewrite negb_involutive. apply fragment_safe.
  - assert (exists x', (if currType b0 =? kPacket_AP
      then '(st, out) ← units_loop gate 2 (S (length (payload packet))) (rtp_timestamp_ext packet) (marker packet)
             (ByteReader.reader_at (be_bytes 2 (H265Wire.word b0 b1)) rest) (l_st x) (l_out x);
           Some (mkLocals (fu x) st out)
      else if currType b0 <=? 40 then Some (single gate (rtp_timestamp_ext packet) (marker packet) (payload packet) x)
      else Some x) = Some x' /\ has_buffer x' = has_buffer x) as (x' & -> & Hx).
    { destruct (currType b0 =? kPacket_AP).
      - destruct (units_loop_safe gate 2 (rtp_timestamp_ext packet) (marker packet) (S (length (payload packet)))
          ltac:(lia) (be_bytes 2 (H265Wire.word b0 b1)) rest (l_st x) (l_out x)) as [[st out] ->];
          [rewrite Ep, length_app; lia|]. by eexists.
      - destruct (currType b0 <=? 40); [|by eexists]. eexists. split; [done|].
        unfold single. by destruct (extractImpl _ _ _ _ _ _). }
    by destruct rest; exists x'.
Qed.

(** H.265 extraction ends on every list of packets, of any bytes, except that it
    stops the program on exactly the lists where a fragment with data comes without
    a start fragment before it in the same call: the writer is null then. *)
Theorem h265_extract_stops_iff st items : Forall (fun p => bytes_ok (payload p)) items ->
  extract st items = None <-> started fragment_kind false (map payload items) = false.
Proof.
  intros Hok. apply extract_stops. apply (list.Forall_impl _ _ _ Hok). intros p Hp x. by apply extract_packet_safe_265.
Qed.

Lemma ap_start_loop_total fuel : forall pre post, (length post < fuel)%nat ->
  is_Some (ap_start_loop fuel (ByteReader.reader_at pre post)).
Proof.
  induction fuel as [|fuel IH]; intros pre post Hf; [lia|]. cbn [ap_start_loop].
  rewrite ByteReader.remaining_at. destruct (Nat.leb_spec 2 (length post)); [|by eexists].
  destruct (ByteReader.readU16_some pre post) as [size ->]; [done|]. cbn [mbind option_bind].
  rewrite ByteReader.remaining_at, ByteReader.current_at.
  destruct (Nat.leb_spec (Z.to_nat size) (length (drop 2 post))); cbn [andb]; [|by eexists].
  destruct (Z.leb_spec 2 size); [|by eexists].
  destruct (drop 2 post) as [|b0 [|b1 rest]] eqn:E; cbn [length] in *; [lia..|].
  destruct (_ && _); [by eexists|]. apply IH. apply (f_equal length) in E. rewrite length_drop in E. cbn [length] in *. lia.
Qed.

(** The kind of an H.265 packet is found for every payload, of any bytes: the
    reads stay inside the payload and the loop over the units of an aggregate
    ends, though it does not step over them. *)
Theorem h265_kind_total (d : state) payload marker : is_Some (dep_getPacketKind d payload marker).
Proof.
  cbn [dep_getPacketKind depacketizer]. apply fmap_is_Some. unfold isFrameStart.
  rewrite ByteReader.make_reader_at, ByteReader.remaining_at.
  destruct (Nat.leb_spec 2 (length payload)); [|by eexists].
  destruct (ByteReader.readU16_some [] payload) as [h ->]; [done|]. cbn [mbind option_bind].
  destruct (header_type h =? kPacket_AP); [apply ap_start_loop_total; rewrite length_drop; lia|].
  destruct (header_type h =? kPacket_FU); [|destruct (_ <=? 40); by eexists].
  rewrite ByteReader.remaining_at. destruct (Nat.leb_spec 1 (length (drop 2 payload))); [|by eexists].
  destruct (ByteReader.readU8_some ([] ++ take 2 payload) (drop 2 payload)) as [v ->]; [done|]. by eexists.
Qed.

(** The aggregate of an access unit delimiter and a key frame's parameter sets is not
    taken for the start of a frame: the bytes of the delimiter are read as a size. *)
Example delimiter_hides_start :
  isFrameStart ([0x60; 0] ++ NaluFeed.units [[0x46; 1; 0x50]; [0x40; 1; 2; 3]]) = Some false /\
  isFrameStart ([0x60; 0] ++ NaluFeed.units [[0x40; 1; 2; 3]]) = Some true.
Proof. by vm_compute. Qed.

End H265Safety.

(** ** Properties *)

Section Properties.
Import NaluPacketizer NaluFeed NaluSend PacketizerH265 H265Wire.
Context {S : Type} `{!RtpExtensionSource S} (overhead : Z) (I : list S -> Prop) `{!PacketSources S overhead I}.
#[local] Set Default Proof Using "All".

(** A frame of NALUs the depacketizer understands, the last of them media. *)
Definition h265_frame (l : list (bool * list Z)) : Prop := frame_ok (P := state) nalu_ok parameter_ok l.

(** Packetizing an H.265 frame ends, keeps every media packet within the packet
    size on the wire, gives the packets the frame's timestamp and the next sequence
    numbers in order, and marks the last packet and no other. *)
Theorem h265_packets track now pts l st (e : env S) :
  I (e_sources e) -> h265_frame l -> state_ok parameter_ok st ->
  exists ps st' e', generate track overhead now pts (NaluParser.stream l) st e = Some (ps, st', e') /\
    emitted I track (frameTimestamp e now pts).1 (frameTimestamp e now pts).2 ps e' /\
    Forall (fits_or_parameters (P := state) overhead) ps /\
    exists qs q, ps = qs ++ [q] /\ unmarked qs /\ RtpPacket.mMarker q = true.
Proof.
  intros HI Hl Hst.
  destruct (generate_nalus_ok nalu_ok parameter_ok overhead I track _ now pts l st e HI Hl Hst eq_refl)
    as (ps & st' & e' & E & _ & H). by exists ps, st', e'.
Qed.

(** C22: What the H.265 packetizer sends, the depacketizer puts together again:
    whatever fragments and aggregates carry the NALUs, layer and temporal ids
    included, a receiver with nothing left in its frame buffer gets exactly one
    frame, the NALUs behind four-byte start codes with VPS, SPS and PPS in front of the first key NALU, provided its gate
    (parameter sets and a key frame seen) lets them pass. *)
Theorem h265_roundtrip track now pts l st (e : env S) d have' :
  I (e_sources e) -> h265_frame l -> state_ok parameter_ok st ->
  NaluDepacketizer.mFrameBuffer d = [] ->
  passes DepacketizerH265.gate (NaluDepacketizer.mHaveBits d) (map snd (sent st false (map snd l))) = Some have' ->
  exists ps st' e', generate track overhead now pts (NaluParser.stream l) st e = Some (ps, st', e') /\
    forall timestamp items, Forall2 (carries timestamp) (map view ps) items ->
      DepacketizerH265.extract d items =
      Some ([annexb (map snd (sent st false (map snd l)))], NaluDepacketizer.mk have' [] timestamp).
Proof.
  intros HI Hl Hst Hbuf Hpass.
  destruct (generate_nalus_ok nalu_ok parameter_ok overhead I track _ now pts l st e HI Hl Hst eq_refl)
    as (ps & st' & e' & E & Ht & _). exists ps, st', e'. split; [done|]. intros timestamp items Hitems.
  destruct Hl as [_ Hn _ Hlast].
  exact (extract_frame nalu_ok parameter_ok _ _ _ _ _ _ _ Hn Hlast (Ht timestamp) Hbuf Hpass Hitems).
Qed.

End Properties.

Section Witnesses.
Import Demo NaluPacketizer NaluFeed NaluSend PacketizerH265 H265Wire.

(** VPS, SPS, PPS, an IDR slice that takes two fragments and a short one. *)
Definition demo_frame265 : list (bool * list Z) :=
  [(true, [0x40; 1; 12]); (true, [0x42; 1; 1; 96]); (false, [0x44; 1; 193]); (false, [0x4E; 1; 5; 128]);
   (true, 0x26 :: 0x01 :: replicate 1500 7); (false, [0x26; 1; 9])].

Lemma demo_frame265_ok : h265_frame demo_frame265.
Proof.
  split.
  - repeat constructor; vm_compute; congruence.
  - apply list.Forall_forall. intros x Hx.
    assert (bool_decide (bytes_ok x) = true /\ bool_decide (x <> []) = true /\ (2 <=? length x)%nat = true /\
      (default 0 (head x) <? 128) = true /\ (currType (default 0 (head x)) <=? 40) = true /\
      (Z.of_nat (length x) <? 65536) = true) as (H1 & H2 & H3 & H4 & H5 & H6).
    { unfold demo_frame265 in Hx. cbn [map snd] in Hx.
      repeat (apply elem_of_cons in Hx as [->|Hx]; [by vm_compute|]). by apply not_elem_of_nil in Hx. }
    apply bool_decide_eq_true in H1, H2. apply Nat.leb_le in H3. apply Z.ltb_lt in H4, H6. apply Z.leb_le in H5.
    unfold frame_nalu. destruct (nc_isParameter (type_of x)); [|done]. split; [|done]. split; [done|]. by split; [|right].
  - by vm_compute.
  - by vm_compute.
Qed.

Lemma no_parameters_ok : state_ok (P := state) parameter_ok (mk [] [] []).
Proof. do 3 (constructor; [split; [constructor|split; [vm_compute; congruence|by left]]|]). constructor. Qed.

Lemma h265_packets_witness :
  exists ps st' e', generate demo_track 10 1000 40000 (NaluParser.stream demo_frame265) (mk [] [] []) demo_env =
      Some (ps, st', e') /\
    emitted (sources_small 10) demo_track (frameTimestamp demo_env 1000 40000).1
      (frameTimestamp demo_env 1000 40000).2 ps e' /\
    Forall (fits_or_parameters (P := state) 10) ps /\
    exists qs q, ps = qs ++ [q] /\ unmarked qs /\ RtpPacket.mMarker q = true.
Proof.
  apply (h265_packets 10 (sources_small 10)).
  - split; vm_compute; congruence.
  - apply demo_frame265_ok.
  - apply no_parameters_ok.
Defined.

Lemma h265_roundtrip_witness :
  exists ps st' e', generate demo_track 10 1000 40000 (NaluParser.stream demo_frame265) (mk [] [] []) demo_env =
      Some (ps, st', e') /\
    forall timestamp items, Forall2 (carries timestamp) (map view ps) items ->
      DepacketizerH265.extract NaluDepacketizer.make items =
      Some ([annexb (map snd (sent (mk [] [] []) false (map snd demo_frame265)))],
            NaluDepacketizer.mk 23 [] timestamp).
Proof.
  apply (h265_roundtrip 10 (sources_small 10)).
  - split; vm_compute; congruence.
  - apply demo_frame265_ok.
  - apply no_parameters_ok.
  - reflexivity.
  - vm_compute. reflexivity.
Defined.

Lemma h265_extract_stops_iff_witness :
  DepacketizerH265.extract NaluDepacketizer.make
    [mkItem 0 0 0 0 true false Middle 0 0 true RtpExtension.make_empty [0x62; 1; 0x13; 7]] = None.
Proof.
  apply H265Safety.h265_extract_stops_iff.
  - constructor; [|constructor]. apply (bool_decide_unpack (bytes_ok _)). vm_compute. reflexivity.
  - vm_compute. reflexivity.
Defined.

End Witnesses.
