(* ===== verification/Jitter.v ===== *)
(** * JitterBuffer (src/jitter_buffer.cpp)

    The buffer that a subscriber puts received packets in: a window of sequence
    numbers over a ring of slots, with place holders for the packets that are
    missing, from which frames are taken in order.

    Times are nanoseconds of the steady clock, [int64_t]; every operation gets the
    reading of the clock it makes.  An operation returns [None] where the
    program stops or its behaviour is undefined: a failed [assert], a null slot,
    a time computation outside [int64_t], a division by zero. *)

From stdpp Require Import gmap.
From S2P Require Import Prelude Bytes Sequence Extension Tracks Rtp Packets ExtensionSources.

(** [EncodedFrame] (src/include/srtc/encoded_frame.h), less the track. *)
Record EncodedFrame := mkFrame {
  f_seq_ext : Z;
  f_rtp_timestamp_ext : Z;
  f_abs_capture_time_ntp : Z;
  f_abs_capture_time_offset : Z;
  f_marker : bool;
  f_first_to_last_packet_millis : Z;
  f_wait_time_millis : Z;
  f_data : list Z
}.

Module JitterBuffer.

(** ** Time *)

Definition time_min : Z := - 2 ^ 63.
Definition time_max : Z := 2 ^ 63 - 1.

Definition in64 (z : Z) : option Z := if (time_min <=? z) && (z <=? time_max) then Some z else None.

(** A time point plus milliseconds: the conversion to nanoseconds first. *)
Definition add_millis (t ms : Z) : option Z := d ← in64 (ms * 1000000); in64 (t + d).

Definition diff_millis (when_ now : Z) : option Z :=
  d ← in64 (when_ - now);
  d ← in64 (d + 500000);
  Some (i32 (Z.quot d 1000000)).

(** [diff_millis(when, now) <= 0]. *)
Definition due (when_ now : Z) : option bool := (fun d : Z => d <=? 0) <$> diff_millis when_ now.

(** ** State *)

Definition kNoPacketsResetDelay : Z := 2000 * 1000000.

(** [NDEBUG]: whether the build leaves the checks in [#ifdef NDEBUG ... #else] out. *)
Record config := mkConfig {
  mTrack : Track.t;
  mCapacity : Z;
  mLength : Z;
  mNackDelay : Z;
  NDEBUG : bool
}.

Definition mCapacityMask (c : config) : Z := u64 (mCapacity c - 1).

Definition mAbsCaptureTimeExtensionId (c : config) : Z :=
  Media.findByName (Track.mMedia (mTrack c)) RtpStandardExtensions.kExtAbsCaptureTime.

(** The slots that are not null, by index. *)
Notation slots := (gmap Z JitterBufferItem).

Section Depacketizer.
Context {D : Type} `{!Depacketizer D}.

Record state := mk {
  mDepacketizer : D;
  mLastPacketTime : Z;
  mItemList : option slots;
  mMinSeq : Z;
  mMaxSeq : Z;
  mExtValueSeq : ExtendedValue.t;
  mExtValueRtpTimestamp : ExtendedValue.t;
  mBaseTime : Z;
  mBaseRtpTimestamp : Z;
  mLastFrameTimeStamp : option Z
}.

Definition make (c : config) (d : D) : option state :=
  _ ← guard_true (Z.land (mCapacity c) (mCapacityMask c) =? 0);
  Some (mk d time_min None 0 0 ExtendedValue.make ExtendedValue.make time_min 0 None).

(** *** Assignments *)

Definition set_dep (s : state) (d : D) : state :=
  mk d (mLastPacketTime s) (mItemList s) (mMinSeq s) (mMaxSeq s) (mExtValueSeq s)
     (mExtValueRtpTimestamp s) (mBaseTime s) (mBaseRtpTimestamp s) (mLastFrameTimeStamp s).
Definition set_last_packet (s : state) (t : Z) : state :=
  mk (mDepacketizer s) t (mItemList s) (mMinSeq s) (mMaxSeq s) (mExtValueSeq s)
     (mExtValueRtpTimestamp s) (mBaseTime s) (mBaseRtpTimestamp s) (mLastFrameTimeStamp s).
Definition set_window (s : state) (items : slots) (min max : Z) : state :=
  mk (mDepacketizer s) (mLastPacketTime s) (Some items) min max (mExtValueSeq s)
     (mExtValueRtpTimestamp s) (mBaseTime s) (mBaseRtpTimestamp s) (mLastFrameTimeStamp s).
Definition set_extended (s : state) (seq ts : ExtendedValue.t) : state :=
  mk (mDepacketizer s) (mLastPacketTime s) (mItemList s) (mMinSeq s) (mMaxSeq s) seq ts
     (mBaseTime s) (mBaseRtpTimestamp s) (mLastFrameTimeStamp s).
Definition set_last_frame (s : state) (ts : option Z) : state :=
  mk (mDepacketizer s) (mLastPacketTime s) (mItemList s) (mMinSeq s) (mMaxSeq s) (mExtValueSeq s)
     (mExtValueRtpTimestamp s) (mBaseTime s) (mBaseRtpTimestamp s) ts.

Definition freeEverything (s : state) : state :=
  mk (mDepacketizer s) (mLastPacketTime s) None (mMinSeq s) (mMaxSeq s) (mExtValueSeq s)
     (mExtValueRtpTimestamp s) (mBaseTime s) (mBaseRtpTimestamp s) None.

Variable c : config.

Definition index (seq : Z) : Z := Z.land seq (mCapacityMask c).

(** [mItemList[seq & mCapacityMask]] followed by [assert(item)]. *)
Definition item_at (items : slots) (seq : Z) : option JitterBufferItem := items !! index seq.

(** ** Items *)

Definition newItem : JitterBufferItem :=
  mkItem 0 0 0 0 false false Standalone 0 0 false RtpExtension.make_empty [].

Definition newLostItem (request abandon seq_lost : Z) : JitterBufferItem :=
  mkItem time_min time_max request abandon false true Standalone seq_lost 0 false
         RtpExtension.make_empty [].

(** [assert(mItemList[index] == nullptr); mItemList[index] = item]. *)
Definition store (items : slots) (seq : Z) (item : JitterBufferItem) : option slots :=
  _ ← guard_true (bool_decide (items !! index seq = None));
  Some (<[index seq := item]> items).

(** The loops over the lost packets, upwards and downwards from [seq]; [n]
    rounds. *)
Fixpoint lost_up (n : nat) (request abandon seq : Z) (items : slots) : option slots :=
  match n with
  | O => Some items
  | S n =>
      items ← store items seq (newLostItem request abandon seq);
      lost_up n request abandon (u64 (seq + 1)) items
  end.

Fixpoint lost_down (n : nat) (request abandon seq : Z) (items : slots) : option slots :=
  match n with
  | O => Some items
  | S n =>
      items ← store items seq (newLostItem request abandon seq);
      lost_down n request abandon (u64 (seq - 1)) items
  end.

(** ** consume *)

(** The sequence number and payload, unwrapped when the packet is a
    retransmission; the inner [None] is a packet to ignore. *)
Definition unwrap (packet : RtpPacket.t) : option (option (Z * list Z)) :=
  let payload := RtpPacket.mPayload packet in
  if (RtpPacket.mSSRC packet =? Track.mRtxSSRC (mTrack c)) &&
     (RtpPacket.mPayloadId packet =? Track.mRtxPayloadId (mTrack c)) then
    if (length payload <? 2)%nat then Some None
    else '(seq, _) ← ByteReader.readU16 (ByteReader.make payload);
         Some (Some (seq, drop 2 payload))
  else Some (Some (RtpPacket.mSequence packet, payload)).

(** No packets for a while and a jump: start over. *)
Definition reset_if_idle (now seq_ext : Z) (s : state) : option state :=
  match mItemList s with
  | None => Some s
  | Some _ =>
      elapsed ← in64 (now - mLastPacketTime s);
      if (kNoPacketsResetDelay <=? elapsed) && (u64 (mMaxSeq s + mCapacity c / 8) <=? seq_ext)
      then let s := freeEverything s in Some (set_dep s (dep_reset (mDepacketizer s)))
      else Some s
  end.

(** The first packet's branch, and the tests for packets far out of range:
    [None] is a packet to ignore. *)
Definition open_window (now seq_ext ts : Z) (s : state) : option state :=
  match mItemList s with
  | None =>
      Some (mk (mDepacketizer s) (mLastPacketTime s) (Some {[index seq_ext := newItem]})
               seq_ext (u64 (seq_ext + 1)) (mExtValueSeq s) (mExtValueRtpTimestamp s) now ts
               (mLastFrameTimeStamp s))
  | Some _ =>
      if u64 (seq_ext + mCapacity c / 4) <=? mMinSeq s then None
      else if u64 (mMaxSeq s + mCapacity c / 4) <=? seq_ext then None
      else Some s
  end.

(** When to take the packet out and when to ask for the lost ones. *)
Definition schedule (now ts : Z) (s : state) : option (Z * Z) :=
  _ ← guard_true (negb (Track.mClockRate (mTrack c) =? 0));
  let rtp_timestamp_delta := u64 (ts - mBaseRtpTimestamp s) in
  let time_delta := i64 (u64 (1000 * rtp_timestamp_delta) / Track.mClockRate (mTrack c)) in
  packet_time ← add_millis (mBaseTime s) time_delta;
  when_dequeue ← add_millis packet_time (mLength c);
  when_nack_request ← add_millis now (mNackDelay c);
  Some (when_dequeue, when_nack_request).

(** The slot for the packet, the window extended and the packets in between
    marked lost; the inner [None] is a packet that would exceed the
    capacity. *)
Definition make_room (seq_ext request abandon : Z) (s : state) : option (option state) :=
  items ← mItemList s;
  if seq_ext <? mMinSeq s then
    if u64 (seq_ext + mCapacity c) <? mMaxSeq s then Some None
    else
      items ← lost_down (Z.to_nat (u64 (mMinSeq s - 1) - seq_ext)) request abandon (u64 (mMinSeq s - 1)) items;
      items ← store items seq_ext newItem;
      Some (Some (set_window s items seq_ext (mMaxSeq s)))
  else if mMaxSeq s <=? seq_ext then
    if u64 (mMinSeq s + mCapacity c) <? seq_ext then Some None
    else
      items ← lost_up (Z.to_nat (seq_ext - mMaxSeq s)) request abandon (mMaxSeq s) items;
      items ← store items seq_ext newItem;
      Some (Some (set_window s items (mMinSeq s) (u64 (seq_ext + 1))))
  else
    _ ← item_at items seq_ext;
    Some (Some s).

Definition with_kind (item : JitterBufferItem) (k : PacketKind) : JitterBufferItem :=
  mkItem (when_received item) (when_dequeue item) (when_nack_request item) (when_nack_abandon item)
         (received item) (nack_needed item) k (seq_ext item) (rtp_timestamp_ext item) (marker item)
         (extension item) (payload item).

(** [Start] behind a packet of the same frame becomes [Middle]. *)
Definition fix_kind (items : slots) (min : Z) (item : JitterBufferItem) : option JitterBufferItem :=
  if bool_decide (kind item = Start) && (min <? seq_ext item) then
    prev ← item_at items (u64 (seq_ext item - 1));
    Some (if (rtp_timestamp_ext prev =? rtp_timestamp_ext item) &&
             (bool_decide (kind prev = Start) || bool_decide (kind prev = Middle))
          then with_kind item Middle else item)
  else Some item.

(** [Start] in front of which the packet now is becomes [Middle]. *)
Definition fix_next (items : slots) (max : Z) (item : JitterBufferItem) : option slots :=
  if (bool_decide (kind item = Start) || bool_decide (kind item = Middle)) &&
     (u64 (seq_ext item + 1) <? max) then
    next ← item_at items (u64 (seq_ext item + 1));
    Some (if (rtp_timestamp_ext next =? rtp_timestamp_ext item) && bool_decide (kind next = Start)
          then <[index (u64 (seq_ext item + 1)) := with_kind next Middle]> items else items)
  else Some items.

(** Write the packet into its slot. *)
Definition fill (now seq ts dequeue request : Z) (packet : RtpPacket.t) (pl : list Z) (s : state)
  : option state :=
  items ← mItemList s;
  _ ← item_at items seq;
  k ← dep_getPacketKind (mDepacketizer s) pl (RtpPacket.mMarker packet);
  let item := mkItem now dequeue request dequeue true false k seq ts (RtpPacket.mMarker packet)
                     (RtpPacket.mExtension packet) pl in
  item ← fix_kind items (mMinSeq s) item;
  items ← fix_next (<[index seq := item]> items) (mMaxSeq s) item;
  Some (set_window s items (mMinSeq s) (mMaxSeq s)).

(** That the packet is of the buffer's track is the caller's business
    ([assert(mTrack == packet->getTrack())] compares pointers). *)
Definition consume (now : Z) (packet : RtpPacket.t) (s : state) : option state :=
  unwrapped ← unwrap packet;
  match unwrapped with
  | None => Some s
  | Some (seq, pl) =>
      let '(seq_ext, ext_seq) := ExtendedValue.extend 16 now (mExtValueSeq s) seq in
      let '(ts, ext_ts) :=
        ExtendedValue.extend 32 now (mExtValueRtpTimestamp s) (RtpPacket.mTimestamp packet) in
      let s := set_extended s ext_seq ext_ts in
      if from_option (fun last => ts <? last) false (mLastFrameTimeStamp s) then Some s
      else
        s ← reset_if_idle now seq_ext s;
        let s := set_last_packet s now in
        match open_window now seq_ext ts s with
        | None => Some s
        | Some s =>
            '(dequeue, request) ← schedule now ts s;
            room ← make_room seq_ext request dequeue s;
            match room with
            | None => Some s
            | Some s => fill now seq_ext ts dequeue request packet pl s
            end
        end
  end.

(** ** Taking frames out *)

Inductive SequenceResult := Complete (outEnd : Z) | Gap | Abandoned.

Fixpoint fillItemList (n : nat) (items : slots) (seq : Z) : option (list JitterBufferItem) :=
  match n with
  | O => Some []
  | S n =>
      item ← item_at items seq;
      rest ← fillItemList n items (u64 (seq + 1));
      Some (item :: rest)
  end.

Fixpoint deleteItemList (n : nat) (items : slots) (seq : Z) : option slots :=
  match n with
  | O => Some items
  | S n =>
      _ ← item_at items seq;
      deleteItemList n (delete (index seq) items) (u64 (seq + 1))
  end.

(** The rounds of a loop over the sequence numbers [start .. max]. *)
Definition rounds (start max : Z) : nat := Z.to_nat (max - start + 1).

(** Drop the item at the low end. *)
Definition drop_first (s : state) (items : slots) : state :=
  set_window s (delete (index (mMinSeq s)) items) (u64 (mMinSeq s + 1)) (mMaxSeq s).

Definition absCaptureTime (item : JitterBufferItem) : option (Z * Z) :=
  let extId := mAbsCaptureTimeExtensionId c in
  if negb (extId =? 0) then
    extValue ← RtpExtension.findAny (extension item) extId;
    match extValue with
    | Some bs =>
        if (8 <=? length bs)%nat then
          '(ntp, r) ← ByteReader.readU64 (ByteReader.make bs);
          if (8 <=? ByteReader.remaining r)%nat then
            '(offset, _) ← ByteReader.readU64 r; Some (ntp, offset)
          else Some (ntp, 0)
        else Some (0, 0)
    | None => Some (0, 0)
    end
  else Some (0, 0).

(** The frames of one extraction. *)
Fixpoint append_loop (item last : JitterBufferItem) (ntp offset first_to_last wait : Z)
  (frames : list (list Z)) : option (list EncodedFrame) :=
  match frames with
  | [] => Some []
  | data :: rest =>
      _ ← guard_true (negb (bool_decide (data = [])));
      l ← append_loop item last ntp offset first_to_last wait rest;
      Some (mkFrame (seq_ext item) (rtp_timestamp_ext item) ntp (i64 offset)
              (marker last && bool_decide (rest = [])) first_to_last wait data :: l)
  end.

(** The frames to append and the new [mLastFrameTimeStamp]; a frame that goes
    backwards is left out. *)
Definition next_frames (item last : JitterBufferItem) (now : Z) (data : list (list Z)) (lastTs : option Z)
  : option (list EncodedFrame * option Z) :=
  if bool_decide (data = []) then Some ([], lastTs)
  else if from_option (fun t => rtp_timestamp_ext item <? t) false lastTs then Some ([], lastTs)
  else
    '(ntp, offset) ← absCaptureTime item;
    first_to_last ← diff_millis (when_received last) (when_received item);
    wait ← diff_millis now (when_received last);
    frames ← append_loop item last ntp offset first_to_last wait data;
    Some (frames, Some (rtp_timestamp_ext item)).

Definition appendToResult (result : list EncodedFrame) (item last : JitterBufferItem) (now : Z)
  (data : list (list Z)) (s : state) : option (list EncodedFrame * state) :=
  '(frames, lastTs) ← next_frames item last now data (mLastFrameTimeStamp s);
  Some (result ++ frames, set_last_frame s lastTs).

(** The packets behind the [Start] at the low end; [n] rounds. *)
Fixpoint sequence_loop (n : nat) (items : slots) (seq : Z) (s : state) : option (SequenceResult * state) :=
  match n with
  | O => Some (Gap, s)
  | S n =>
      item ← item_at items seq;
      if negb (received item) then Some (Gap, s)
      else if bool_decide (kind item = End_) then Some (Complete seq, s)
      else if negb (bool_decide (kind item = Middle)) then
        items ← deleteItemList (rounds (mMinSeq s) seq) items (mMinSeq s);
        Some (Abandoned, set_window s items (u64 (seq + 1)) (mMaxSeq s))
      else sequence_loop n items (u64 (seq + 1)) s
  end.

(** [assert(item); assert(item->received); assert(item->kind == Start)]. *)
Definition start_item (items : slots) (s : state) : option JitterBufferItem :=
  item ← item_at items (mMinSeq s);
  _ ← guard_true (received item && bool_decide (kind item = Start));
  Some item.

Definition findMultiPacketSequence (items : slots) (s : state) : option (SequenceResult * state) :=
  _ ← start_item items s;
  sequence_loop (Z.to_nat (mMaxSeq s - u64 (mMinSeq s + 1))) items (u64 (mMinSeq s + 1)) s.

Fixpoint next_loop (n : nat) (items : slots) (now startTimestamp seq : Z) : option bool :=
  match n with
  | O => Some false
  | S n =>
      item ← item_at items seq;
      ready ← (if received item && (startTimestamp <? rtp_timestamp_ext item)
               then due (when_dequeue item) now else Some false);
      if (ready : bool) then Some true else next_loop n items now startTimestamp (u64 (seq + 1))
  end.

Definition findNextToDequeue (items : slots) (now : Z) (s : state) : option bool :=
  item ← start_item items s;
  next_loop (Z.to_nat (mMaxSeq s - u64 (mMinSeq s + 1))) items now (rtp_timestamp_ext item)
            (u64 (mMinSeq s + 1)).

(** The checks of a debug build on a complete sequence. *)
Definition check_kind (k : PacketKind) (item : JitterBufferItem) (d : D) : option unit :=
  k' ← dep_getPacketKind d (payload item) (marker item);
  guard_true (bool_decide (k' = k)).

Fixpoint check_middle (l : list JitterBufferItem) (d : D) : option unit :=
  match l with
  | [] => None
  | [item] => check_kind End_ item d
  | item :: l => _ ← check_kind Middle item d; check_middle l d
  end.

Definition debug_checks (packets : list JitterBufferItem) (d : D) : option unit :=
  if NDEBUG c then Some tt
  else match packets with
       | [] => None
       | [item] => _ ← check_kind Start item d; check_kind End_ item d
       | item :: l => _ ← check_kind Start item d; check_middle l d
       end.

(** [mDepacketizer->extract]. *)
Definition extract (packets : list JitterBufferItem) (s : state) : option (list (list Z) * state) :=
  '(frames, d) ← dep_extract (mDepacketizer s) packets;
  Some (frames, set_dep s d).

Definition take_standalone (now : Z) (items : slots) (item : JitterBufferItem) (result : list EncodedFrame)
  (s : state) : option (list EncodedFrame * state) :=
  '(frames, s) ← extract [item] s;
  '(result, s) ← appendToResult result item item now frames s;
  Some (result, drop_first s items).

Definition take_sequence (now : Z) (items : slots) (item : JitterBufferItem) (maxSeq : Z)
  (result : list EncodedFrame) (s : state) : option (list EncodedFrame * state) :=
  let seq := mMinSeq s in
  packets ← fillItemList (rounds seq maxSeq) items seq;
  _ ← debug_checks packets (mDepacketizer s);
  '(frames, s) ← extract packets s;
  maxItem ← item_at items maxSeq;
  '(result, s) ← appendToResult result item maxItem now frames s;
  items ← deleteItemList (rounds seq maxSeq) items seq;
  Some (result, set_window s items (u64 (maxSeq + 1)) (mMaxSeq s)).

(** One round of the loop: the flag is [break]. *)
Definition dequeue_round (now : Z) (items : slots) (result : list EncodedFrame) (s : state)
  : option (bool * list EncodedFrame * state) :=
  item ← item_at items (mMinSeq s);
  ready ← (if received item then due (when_dequeue item) now else Some false);
  if (ready : bool) then
    match kind item with
    | Standalone => '(result, s) ← take_standalone now items item result s; Some (false, result, s)
    | Start =>
        '(r, s') ← findMultiPacketSequence items s;
        match r with
        | Complete maxSeq => '(result, s) ← take_sequence now items item maxSeq result s'; Some (false, result, s)
        | Gap =>
            next ← findNextToDequeue items now s';
            if (next : bool) then Some (false, result, drop_first s' items) else Some (true, result, s')
        | Abandoned => Some (false, result, s')
        end
    | _ => Some (false, result, drop_first s items)
    end
  else
    gone ← (if negb (received item) then due (when_nack_abandon item) now else Some false);
    if (gone : bool) then Some (false, result, drop_first s items) else Some (true, result, s).

Fixpoint dequeue_loop (fuel : nat) (now : Z) (result : list EncodedFrame) (s : state)
  : option (list EncodedFrame * state) :=
  if mMinSeq s <? mMaxSeq s then
    match fuel with
    | O => None
    | S fuel =>
        items ← mItemList s;
        '(stop, result, s) ← dequeue_round now items result s;
        if (stop : bool) then Some (result, s) else dequeue_loop fuel now result s
    end
  else Some (result, s).

(** Every round moves the low end. *)
Definition processDeque (now : Z) (s : state) : option (list EncodedFrame * state) :=
  match mItemList s with
  | None => Some ([], s)
  | Some _ =>
      if mMinSeq s =? mMaxSeq s then Some ([], s)
      else dequeue_loop (Z.to_nat (mMaxSeq s - mMinSeq s)) now [] s
  end.

(** ** Asking for lost packets *)

Definition asked (item : JitterBufferItem) : JitterBufferItem :=
  mkItem (when_received item) (when_dequeue item) (when_nack_request item) (when_nack_abandon item)
         (received item) false (kind item) (seq_ext item) (rtp_timestamp_ext item) (marker item)
         (extension item) (payload item).

Fixpoint nack_loop (n : nat) (now seq : Z) (items : slots) : option (list Z * slots) :=
  match n with
  | O => Some ([], items)
  | S n =>
      item ← item_at items seq;
      request ← due (when_nack_request item) now;
      if (request : bool) then
        if negb (received item) && nack_needed item then
          '(l, items) ← nack_loop n now (u64 (seq + 1)) (<[index seq := asked item]> items);
          Some (u16 (seq_ext item) :: l, items)
        else nack_loop n now (u64 (seq + 1)) items
      else
        abandon ← due (when_nack_abandon item) now;
        if (abandon : bool) then Some ([], items) else nack_loop n now (u64 (seq + 1)) items
  end.

Definition processNack (now : Z) (s : state) : option (list Z * state) :=
  match mItemList s with
  | None => Some ([], s)
  | Some items =>
      if (mMinSeq s =? mMaxSeq s) || negb (Track.mHasNack (mTrack c)) then Some ([], s)
      else
        '(l, items) ← nack_loop (Z.to_nat (mMaxSeq s - mMinSeq s)) now (mMinSeq s) items;
        Some (l, set_window s items (mMinSeq s) (mMaxSeq s))
  end.

(** ** How long to wait *)

Record wanted := mkWanted { w_request : option Z; w_abandon : option Z; w_dequeue : option Z }.

(** [if (!x.has_value()) x = v]. *)
Definition first_of (x : option Z) (v : option Z) : option (option Z) :=
  match x with Some _ => Some x | None => d ← v; Some (Some d) end.

Definition look (now : Z) (item : JitterBufferItem) (w : wanted) : option wanted :=
  if received item then
    d ← first_of (w_dequeue w) (diff_millis (when_dequeue item) now);
    Some (mkWanted (w_request w) (w_abandon w) d)
  else
    r ← (if nack_needed item then first_of (w_request w) (diff_millis (when_nack_request item) now)
         else Some (w_request w));
    a ← first_of (w_abandon w) (diff_millis (when_nack_abandon item) now);
    Some (mkWanted r a (w_dequeue w)).

Definition has_value (x : option Z) : bool := bool_decide (is_Some x).

Fixpoint timeout_loop (n : nat) (items : slots) (now cutoff seq : Z) (w : wanted) : option wanted :=
  match n with
  | O => Some w
  | S n =>
      item ← item_at items seq;
      w ← look now item w;
      if has_value (w_dequeue w) && has_value (w_request w) && has_value (w_abandon w) then Some w
      else if (cutoff <? when_dequeue item) && (cutoff <? when_nack_request item) &&
              (cutoff <? when_nack_abandon item) then Some w
      else timeout_loop n items now cutoff (u64 (seq + 1)) w
  end.

Definition shorter (timeout : Z) (x : option Z) : Z :=
  match x with Some v => if v <? timeout then v else timeout | None => timeout end.

Definition getTimeoutMillis (now defaultTimeout : Z) (s : state) : option Z :=
  match mItemList s with
  | None => Some defaultTimeout
  | Some items =>
      cutoff ← add_millis now defaultTimeout;
      let off := if negb (Track.mHasNack (mTrack c)) then Some (i32 (2 * defaultTimeout)) else None in
      w ← timeout_loop (Z.to_nat (mMaxSeq s - mMinSeq s)) items now cutoff (mMinSeq s) (mkWanted off off None);
      Some (shorter (shorter (shorter defaultTimeout (w_request w)) (w_abandon w)) (w_dequeue w))
  end.

End Depacketizer.
End JitterBuffer.
