(* ===== verification/JitterSpec.v ===== *)
(** * What the jitter buffer promises

    [ring] relates the slots of [JitterBuffer] to the list of the items of the
    window; [queue] is the buffer as that list, without slots, masks and
    wrap-around, and its operations are what the buffer's operations are proved
    to implement.  The properties of the buffer follow. *)

From stdpp Require Import gmap.
From S2P Require Import Prelude Bytes Sequence Extension Tracks Rtp Packets ExtensionSources Jitter.
Import JitterBuffer.

(** ** The ring *)

Module Ring.
Section Ring.
Variable c : config.
Variable k : Z.
Hypothesis Hk : 0 <= k <= 32.
Hypothesis Hcap : mCapacity c = 2 ^ k.

#[local] Set Default Proof Using "All".

Lemma cap_pos : 0 < 2 ^ k <= 2 ^ 32.
Proof. split; [apply Z.pow_pos_nonneg; lia|apply Z.pow_le_mono_r; lia]. Qed.

Lemma index_mod seq : index c seq = seq mod 2 ^ k.
Proof.
  pose proof cap_pos. unfold index, mCapacityMask. rewrite Hcap, u64_small by (unfold is_u64; lia).
  apply land_ones_mod. lia.
Qed.

Lemma index_shift seq : index c (seq + 2 ^ k) = index c seq.
Proof. pose proof cap_pos. rewrite !index_mod. rewrite <- (Z.mul_1_l (2 ^ k)) at 1. apply Z.mod_add. lia. Qed.

Lemma index_inj a b : Z.abs (a - b) < 2 ^ k -> index c a = index c b -> a = b.
Proof.
  pose proof cap_pos. rewrite !index_mod. intros Hab E.
  pose proof (Z.div_mod a (2 ^ k) ltac:(lia)). pose proof (Z.div_mod b (2 ^ k) ltac:(lia)).
  assert (a / 2 ^ k = b / 2 ^ k) by nia. nia.
Qed.

(** The slots hold the list [l], its first item at the number [min]. *)
Definition ring (items : slots) (min : Z) (l : list JitterBufferItem) : Prop :=
  Z.of_nat (length l) <= 2 ^ k /\
  forall i, 0 <= i < 2 ^ k -> items !! index c (min + i) = l !! Z.to_nat i.

Lemma ring_at items min l i :
  ring items min l -> 0 <= i < Z.of_nat (length l) -> item_at c items (min + i) = l !! Z.to_nat i.
Proof. intros [Hl H] Hi. apply H. lia. Qed.

Lemma ring_free items min l i :
  ring items min l -> Z.of_nat (length l) <= i < 2 ^ k -> items !! index c (min + i) = None.
Proof. intros [Hl H] Hi. rewrite H by lia. apply lookup_ge_None. lia. Qed.

Lemma ring_insert items min l i x :
  ring items min l -> (i < length l)%nat ->
  ring (<[index c (min + Z.of_nat i) := x]> items) min (<[i := x]> l).
Proof.
  intros [Hl H] Hi. split; [by rewrite length_insert|]. intros j Hj.
  destruct (decide (j = Z.of_nat i)) as [->|Hne].
  - rewrite lookup_insert_eq, Nat2Z.id, list_lookup_insert_eq by lia. done.
  - rewrite lookup_insert_ne, H, list_lookup_insert_ne by (try lia; intros E; apply index_inj in E; lia). done.
Qed.

Lemma ring_snoc items min l x :
  ring items min l -> Z.of_nat (length l) < 2 ^ k ->
  ring (<[index c (min + Z.of_nat (length l)) := x]> items) min (l ++ [x]).
Proof.
  intros [Hl H] Hlt. split; [rewrite length_app; cbn [length]; lia|]. intros j Hj.
  destruct (decide (j = Z.of_nat (length l))) as [->|Hne].
  - rewrite lookup_insert_eq, Nat2Z.id. by rewrite list_lookup_middle.
  - rewrite lookup_insert_ne, H by (try lia; intros E; apply index_inj in E; lia).
    destruct (decide (j < Z.of_nat (length l))).
    + by rewrite lookup_app_l by lia.
    + rewrite (lookup_ge_None_2 l), (lookup_ge_None_2 (l ++ [x])); [done|rewrite length_app; cbn [length]; lia|lia].
Qed.

Lemma ring_cons items min l x :
  ring items min l -> Z.of_nat (length l) < 2 ^ k ->
  ring (<[index c (min - 1) := x]> items) (min - 1) (x :: l).
Proof.
  intros [Hl H] Hlt. pose proof cap_pos. split; [cbn [length]; lia|]. intros j Hj.
  destruct (decide (j = 0)) as [->|Hne].
  - by rewrite Z.add_0_r, lookup_insert_eq.
  - rewrite lookup_insert_ne by (intros E; apply index_inj in E; lia).
    replace (min - 1 + j) with (min + (j - 1)) by lia. rewrite H by lia.
    by replace (Z.to_nat j) with (S (Z.to_nat (j - 1))) by lia.
Qed.

(** The slot in front of the window is the one behind it. *)
Lemma ring_free_front items min l :
  ring items min l -> Z.of_nat (length l) < 2 ^ k -> items !! index c (min - 1) = None.
Proof.
  intros H Hl. rewrite <- index_shift. replace (min - 1 + 2 ^ k) with (min + (2 ^ k - 1)) by lia.
  apply (ring_free _ _ _ _ H). pose proof cap_pos. lia.
Qed.

Lemma ring_tail items min x l :
  ring items min (x :: l) -> ring (delete (index c min) items) (min + 1) l.
Proof.
  intros [Hl H]. pose proof cap_pos. cbn [length] in Hl. split; [lia|]. intros j Hj.
  destruct (decide (j = 2 ^ k - 1)) as [->|Hne].
  - replace (min + 1 + (2 ^ k - 1)) with (min + 2 ^ k) by lia.
    rewrite index_shift, lookup_delete_eq. symmetry. apply lookup_ge_None. lia.
  - rewrite lookup_delete_ne by (intros E; apply index_inj in E; lia).
    replace (min + 1 + j) with (min + (j + 1)) by lia. rewrite H by lia.
    by replace (Z.to_nat (j + 1)) with (S (Z.to_nat j)) by lia.
Qed.

Lemma ring_single min x : ring {[index c min := x]} min [x].
Proof.
  pose proof cap_pos. split; [cbn [length]; lia|]. intros j Hj.
  destruct (decide (j = 0)) as [->|Hne].
  - by rewrite Z.add_0_r, lookup_singleton_eq.
  - rewrite lookup_singleton_ne by (intros E; apply index_inj in E; lia).
    symmetry. apply lookup_ge_None. cbn [length]. lia.
Qed.

End Ring.
End Ring.

(** ** The queue *)

Module Queue.

Section Depacketizer.
Context {D : Type} `{!Depacketizer D}.

Record queue := mkQ {
  q_dep : D;
  q_min : Z;
  q_items : list JitterBufferItem;
  q_last : option Z
}.

Variable c : config.

(** *** Taking frames out *)

Inductive scanned := SComplete (n : nat) | SGap | SAbandoned (n : nat).

(** What follows a [Start]: [n] counts the [Middle] packets passed. *)
Fixpoint scan (l : list JitterBufferItem) (n : nat) : scanned :=
  match l with
  | [] => SGap
  | item :: l =>
      if negb (received item) then SGap
      else if bool_decide (kind item = End_) then SComplete n
      else if negb (bool_decide (kind item = Middle)) then SAbandoned n
      else scan l (S n)
  end.

(** Is a packet of a later frame due? *)
Fixpoint later_due (now startTimestamp : Z) (l : list JitterBufferItem) : option bool :=
  match l with
  | [] => Some false
  | item :: l =>
      ready ← (if received item && (startTimestamp <? rtp_timestamp_ext item)
               then due (when_dequeue item) now else Some false);
      if (ready : bool) then Some true else later_due now startTimestamp l
  end.

Definition drop_items (n : nat) (q : queue) : queue :=
  mkQ (q_dep q) (q_min q + Z.of_nat n) (drop n (q_items q)) (q_last q).

(** Give the first [n] items to the depacketizer. *)
Definition take_frames (now : Z) (n : nat) (item last : JitterBufferItem) (q : queue)
  : option (list EncodedFrame * queue) :=
  '(data, d) ← dep_extract (q_dep q) (take n (q_items q));
  '(frames, lastTs) ← next_frames c item last now data (q_last q);
  Some (frames, drop_items n (mkQ d (q_min q) (q_items q) lastTs)).

(** One round: [None] when the low end of the window has to wait. *)
Definition round (now : Z) (q : queue) : option (option (list EncodedFrame * queue)) :=
  match q_items q with
  | [] => Some None
  | item :: rest =>
      ready ← (if received item then due (when_dequeue item) now else Some false);
      if (ready : bool) then
        match kind item with
        | Standalone => r ← take_frames now 1 item item q; Some (Some r)
        | Start =>
            match scan rest 0 with
            | SComplete n =>
                _ ← debug_checks c (take (n + 2) (q_items q)) (q_dep q);
                r ← take_frames now (n + 2) item (default item (rest !! n)) q;
                Some (Some r)
            | SGap =>
                next ← later_due now (rtp_timestamp_ext item) rest;
                Some (if (next : bool) then Some ([], drop_items 1 q) else None)
            | SAbandoned n => Some (Some ([], drop_items (n + 2) q))
            end
        | _ => Some (Some ([], drop_items 1 q))
        end
      else
        gone ← (if negb (received item) then due (when_nack_abandon item) now else Some false);
        Some (if (gone : bool) then Some ([], drop_items 1 q) else None)
  end.

Fixpoint dequeue (fuel : nat) (now : Z) (q : queue) : option (list EncodedFrame * queue) :=
  match fuel with
  | O => Some ([], q)
  | S fuel =>
      step ← round now q;
      match step with
      | None => Some ([], q)
      | Some (frames, q) => '(more, q) ← dequeue fuel now q; Some (frames ++ more, q)
      end
  end.

Definition processDeque (now : Z) (q : queue) : option (list EncodedFrame * queue) :=
  dequeue (length (q_items q)) now q.

(** *** Asking for lost packets *)

Fixpoint nacks (now : Z) (l : list JitterBufferItem) : option (list Z * list JitterBufferItem) :=
  match l with
  | [] => Some ([], [])
  | item :: l =>
      request ← due (when_nack_request item) now;
      if (request : bool) then
        '(seqs, l) ← nacks now l;
        Some (if negb (received item) && nack_needed item
              then (u16 (seq_ext item) :: seqs, asked item :: l) else (seqs, item :: l))
      else
        abandon ← due (when_nack_abandon item) now;
        if (abandon : bool) then Some ([], item :: l)
        else '(seqs, l) ← nacks now l; Some (seqs, item :: l)
  end.

(** *** Adding *)

Fixpoint lost_items (n : nat) (request abandon seq : Z) : list JitterBufferItem :=
  match n with
  | O => []
  | S n => newLostItem request abandon seq :: lost_items n request abandon (seq + 1)
  end.

(** The window with a slot for the packet. *)
Definition make_room (seq request abandon : Z) (min : Z) (l : list JitterBufferItem)
  : option (Z * list JitterBufferItem) :=
  let max := min + Z.of_nat (length l) in
  if seq <? min then
    if seq + mCapacity c <? max then None
    else Some (seq, newItem :: lost_items (Z.to_nat (min - 1 - seq)) request abandon (seq + 1) ++ l)
  else if max <=? seq then
    if min + mCapacity c <? seq then None
    else Some (min, l ++ lost_items (Z.to_nat (seq - max)) request abandon max ++ [newItem])
  else Some (min, l).

(** The kind of the packet at position [i], and the kinds it changes. *)
Definition fixed_kind (l : list JitterBufferItem) (i : nat) (item : JitterBufferItem) : JitterBufferItem :=
  if bool_decide (kind item = Start) then
    match i with
    | O => item
    | S j =>
        match l !! j with
        | Some prev =>
            if (rtp_timestamp_ext prev =? rtp_timestamp_ext item) &&
               (bool_decide (kind prev = Start) || bool_decide (kind prev = Middle))
            then with_kind item Middle else item
        | None => item
        end
    end
  else item.

Definition fixed_next (l : list JitterBufferItem) (i : nat) (item : JitterBufferItem) : list JitterBufferItem :=
  if bool_decide (kind item = Start) || bool_decide (kind item = Middle) then
    match l !! S i with
    | Some next =>
        if (rtp_timestamp_ext next =? rtp_timestamp_ext item) && bool_decide (kind next = Start)
        then <[S i := with_kind next Middle]> l else l
    | None => l
    end
  else l.

Definition fill (l : list JitterBufferItem) (i : nat) (item : JitterBufferItem) : list JitterBufferItem :=
  let item := fixed_kind l i item in fixed_next (<[i := item]> l) i item.

End Depacketizer.
End Queue.

(** ** The buffer implements the queue *)

Module Refinement.
Import Ring Queue.

Section Depacketizer.
Context {D : Type} `{!Depacketizer D}.
Variable c : config.
Variable k : Z.
Hypothesis Hk : 0 <= k <= 32.
Hypothesis Hcap : mCapacity c = 2 ^ k.

#[local] Set Default Proof Using "All".

Notation state := (@JitterBuffer.state D).
Notation queue := (@Queue.queue D).

(** The sequence numbers stay far from the end of [uint64_t]: it takes millions
    of years to get there. *)
Record refines (s : state) (q : queue) : Prop := {
  r_dep : mDepacketizer s = q_dep q;
  r_min : mMinSeq s = q_min q;
  r_max : mMaxSeq s = q_min q + Z.of_nat (length (q_items q));
  r_last : mLastFrameTimeStamp s = q_last q;
  r_ring : exists items, mItemList s = Some items /\ ring c k items (q_min q) (q_items q);
  r_range : 0 <= mMinSeq s /\ mMaxSeq s < 2 ^ 63
}.

Lemma fillItemList_ring items min l n : forall i,
  ring c k items min l -> (i + n <= length l)%nat -> 0 <= min -> min + Z.of_nat (length l) < 2 ^ 63 ->
  fillItemList c n items (min + Z.of_nat i) = Some (take n (drop i l)).
Proof.
  induction n as [|n IH]; intros i Hr Hn Hmin Hmax; [done|]. cbn [fillItemList].
  rewrite (ring_at c k Hk Hcap items min l) by (done || lia). rewrite Nat2Z.id.
  destruct (lookup_lt_is_Some_2 l i) as [x Hx]; [lia|]. rewrite Hx. cbn [mbind option_bind].
  rewrite u64_small by (unfold is_u64; lia).
  replace (min + Z.of_nat i + 1) with (min + Z.of_nat (S i)) by lia.
  rewrite IH by (done || lia). cbn [mbind option_bind]. by rewrite (drop_S l x i).
Qed.

Lemma deleteItemList_ring n : forall items min l,
  ring c k items min l -> (n <= length l)%nat -> 0 <= min -> min + Z.of_nat (length l) < 2 ^ 63 ->
  exists items', deleteItemList c n items min = Some items' /\
    ring c k items' (min + Z.of_nat n) (drop n l).
Proof.
  induction n as [|n IH]; intros items min l Hr Hn Hmin Hmax.
  - exists items. rewrite Z.add_0_r. by rewrite drop_0.
  - destruct l as [|x l]; [cbn in Hn; lia|]. cbn [length] in *. cbn [deleteItemList].
    pose proof (ring_at c k Hk Hcap items min (x :: l) 0 Hr ltac:(cbn [length]; lia)) as E.
    rewrite Z.add_0_r in E. rewrite E. cbn [Z.to_nat lookup list_lookup mbind option_bind].
    rewrite u64_small by (unfold is_u64; lia).
    destruct (IH _ _ _ (ring_tail c k Hk Hcap _ _ _ _ Hr)) as (items' & -> & Hr'); [lia..|].
    exists items'. split; [done|]. by replace (min + Z.of_nat (S n)) with (min + 1 + Z.of_nat n) by lia.
Qed.

Lemma sequence_loop_scan (s : state) items x rest : forall n i,
  ring c k items (mMinSeq s) (x :: rest) -> 0 <= mMinSeq s ->
  mMinSeq s + Z.of_nat (S (length rest)) < 2 ^ 63 -> (i + n = length rest)%nat ->
  match scan (drop i rest) i with
  | SComplete m => (i <= m < length rest)%nat /\
      sequence_loop c n items (mMinSeq s + 1 + Z.of_nat i) s = Some (Complete (mMinSeq s + 1 + Z.of_nat m), s)
  | SGap => sequence_loop c n items (mMinSeq s + 1 + Z.of_nat i) s = Some (Gap, s)
  | SAbandoned m => (i <= m < length rest)%nat /\
      exists items', ring c k items' (mMinSeq s + Z.of_nat (m + 2)) (drop (m + 2) (x :: rest)) /\
      sequence_loop c n items (mMinSeq s + 1 + Z.of_nat i) s =
      Some (Abandoned, set_window s items' (mMinSeq s + Z.of_nat (m + 2)) (mMaxSeq s))
  end.
Proof.
  induction n as [|n IH]; intros i Hr Hmin Hmax Hi.
  - by rewrite drop_ge by lia.
  - destruct (lookup_lt_is_Some_2 rest i) as [y Hy]; [lia|].
    rewrite (drop_S rest y i Hy). cbn [scan sequence_loop].
    replace (mMinSeq s + 1 + Z.of_nat i) with (mMinSeq s + Z.of_nat (S i)) by lia.
    rewrite (ring_at c k Hk Hcap items _ _ _ Hr) by (cbn [length]; lia).
    rewrite Nat2Z.id. change ((x :: rest) !! S i) with (rest !! i). rewrite Hy.
    cbn [mbind option_bind].
    destruct (received y); cbn [negb]; [|done].
    destruct (bool_decide (kind y = End_)); [split; [lia|]; do 3 f_equal; lia|].
    rewrite !(u64_small (_ + 1)) by (unfold is_u64; lia).
    destruct (bool_decide (kind y = Middle)); cbn [negb].
    + replace (mMinSeq s + Z.of_nat (S i) + 1) with (mMinSeq s + 1 + Z.of_nat (S i)) by lia.
      specialize (IH (S i) Hr Hmin Hmax ltac:(lia)).
      destruct (scan (drop (S i) rest) (S i)); [destruct IH; split; [lia|done]|done|].
      destruct IH as [? ?]; split; [lia|done].
    + split; [lia|].
      replace (rounds (mMinSeq s) (mMinSeq s + Z.of_nat (S i))) with (i + 2)%nat by (unfold rounds; lia).
      destruct (deleteItemList_ring (i + 2) items (mMinSeq s) (x :: rest) Hr) as (items' & -> & Hr');
        [cbn [length]; lia|done|cbn [length]; lia|].
      exists items'. split; [done|]. cbn [mbind option_bind]. do 3 f_equal. lia.
Qed.

Lemma next_loop_later items min x rest now ts : forall n i,
  ring c k items min (x :: rest) -> 0 <= min ->
  min + Z.of_nat (S (length rest)) < 2 ^ 63 -> (i + n = length rest)%nat ->
  next_loop c n items now ts (min + 1 + Z.of_nat i) = later_due now ts (drop i rest).
Proof.
  induction n as [|n IH]; intros i Hr Hmin Hmax Hi.
  - by rewrite drop_ge by lia.
  - destruct (lookup_lt_is_Some_2 rest i) as [y Hy]; [lia|].
    rewrite (drop_S rest y i Hy). cbn [next_loop later_due].
    replace (min + 1 + Z.of_nat i) with (min + Z.of_nat (S i)) by lia.
    rewrite (ring_at c k Hk Hcap items _ _ _ Hr) by (cbn [length]; lia).
    rewrite Nat2Z.id. change ((x :: rest) !! S i) with (rest !! i). rewrite Hy.
    cbn [mbind option_bind]. rewrite u64_small by (unfold is_u64; lia).
    destruct (if received y && (ts <? rtp_timestamp_ext y) then due (when_dequeue y) now else Some false) as [[|]|];
      [done| |done]. cbn [mbind option_bind].
    replace (min + Z.of_nat (S i) + 1) with (min + 1 + Z.of_nat (S i)) by lia. apply IH; (done || lia).
Qed.

(** The window after the first [n] items are gone. *)
Lemma refines_drop (s : state) q items n d last :
  refines s q -> (n <= length (q_items q))%nat ->
  ring c k items (q_min q + Z.of_nat n) (drop n (q_items q)) ->
  refines (set_window (set_last_frame (set_dep s d) last) items (q_min q + Z.of_nat n) (mMaxSeq s))
          (drop_items n (mkQ d (q_min q) (q_items q) last)).
Proof.
  intros [] Hn Hr. split; cbn; try done.
  - rewrite length_drop. lia.
  - by exists items.
  - lia.
Qed.

Lemma set_id (s : state) : set_last_frame (set_dep s (mDepacketizer s)) (mLastFrameTimeStamp s) = s.
Proof. by destruct s. Qed.

Lemma refines_drop' (s : state) q items n :
  refines s q -> (n <= length (q_items q))%nat ->
  ring c k items (q_min q + Z.of_nat n) (drop n (q_items q)) ->
  refines (set_window s items (q_min q + Z.of_nat n) (mMaxSeq s)) (drop_items n q).
Proof.
  intros H Hn Hr. pose proof (refines_drop s q items n (mDepacketizer s) (mLastFrameTimeStamp s) H Hn Hr) as H'.
  rewrite set_id in H'. destruct H. rewrite r_dep0, r_last0 in H'. by destruct q.
Qed.

Lemma drop_first_refines (s : state) q items x rest :
  refines s q -> mItemList s = Some items -> ring c k items (q_min q) (q_items q) -> q_items q = x :: rest ->
  refines (drop_first c s items) (drop_items 1 q).
Proof.
  intros H Hi Hr Hx. unfold drop_first. rewrite (r_min _ _ H).
  pose proof (r_range _ _ H) as [H0 H1]. rewrite (r_max _ _ H) in H1. rewrite (r_min _ _ H) in H0.
  assert (0 < Z.of_nat (length (q_items q))) as Hpos by (rewrite Hx; cbn [length]; lia).
  rewrite u64_small by (unfold is_u64; lia).
  apply (refines_drop' _ _ _ 1 H); [lia|]. rewrite Hx in Hr |- *. by apply (ring_tail c k Hk Hcap) in Hr.
Qed.

(** A round of the buffer against a round of the queue. *)
Definition round_related (result : list EncodedFrame) (q : queue)
  (concrete : option (bool * list EncodedFrame * state))
  (spec : option (option (list EncodedFrame * queue))) : Prop :=
  match spec with
  | None => concrete = None
  | Some None => exists s', concrete = Some (true, result, s') /\ refines s' q
  | Some (Some (frames, q')) => exists s', concrete = Some (false, result ++ frames, s') /\ refines s' q' /\
      (length (q_items q') < length (q_items q))%nat
  end.

Lemma take_standalone_refines now (s : state) q items item rest result :
  refines s q -> mItemList s = Some items -> ring c k items (q_min q) (q_items q) -> q_items q = item :: rest ->
  round_related result q
    ('(result, s) ← take_standalone c now items item result s; Some (false, result, s))
    (r ← take_frames c now 1 item item q; Some (Some r)).
Proof.
  intros H Hi Hr Hq. unfold take_standalone, take_frames, extract, appendToResult.
  rewrite (r_dep _ _ H), Hq. change (take 1 (item :: rest)) with [item].
  destruct (dep_extract (q_dep q) [item]) as [[data d]|]; [|exact eq_refl]. cbn [mbind option_bind].
  cbn [mLastFrameTimeStamp set_dep]. rewrite (r_last _ _ H).
  destruct (next_frames c item item now data (q_last q)) as [[frames last]|]; [|exact eq_refl]. cbn [mbind option_bind].
  unfold round_related. eexists. split; [done|]. split.
  - rewrite <- Hq.
    pose proof (drop_first_refines s q items item rest H Hi Hr Hq) as [H1 H2 H3 H4 H5 H6].
    by split.
  - unfold drop_items. cbn [q_items]. rewrite length_drop, Hq. cbn [length]. lia.
Qed.

Lemma take_sequence_refines now (s : state) q items item rest n result :
  refines s q -> mItemList s = Some items -> ring c k items (q_min q) (q_items q) -> q_items q = item :: rest ->
  (n < length rest)%nat ->
  round_related result q
    ('(result, s) ← take_sequence c now items item (mMinSeq s + 1 + Z.of_nat n) result s; Some (false, result, s))
    (_ ← debug_checks c (take (n + 2) (q_items q)) (q_dep q);
     r ← take_frames c now (n + 2) item (default item (rest !! n)) q; Some (Some r)).
Proof.
  intros H Hi Hr Hq Hn. unfold take_sequence, take_frames, extract, appendToResult.
  pose proof (r_range _ _ H) as [H0 H1]. pose proof (r_max _ _ H) as H2. pose proof (r_min _ _ H) as H3.
  assert (length (q_items q) = S (length rest)) as Hl by (by rewrite Hq).
  replace (rounds (mMinSeq s) (mMinSeq s + 1 + Z.of_nat n)) with (n + 2)%nat by (unfold rounds; lia).
  rewrite H3 in *.
  pose proof (fillItemList_ring items (q_min q) (q_items q) (n + 2) 0 Hr ltac:(lia) H0 ltac:(lia)) as E.
  rewrite Z.add_0_r, drop_0 in E. rewrite E. cbn [mbind option_bind]. rewrite (r_dep _ _ H).
  destruct (debug_checks c (take (n + 2) (q_items q)) (q_dep q)); [|exact eq_refl]. cbn [mbind option_bind].
  destruct (dep_extract (q_dep q) (take (n + 2) (q_items q))) as [[data d]|]; [|exact eq_refl]. cbn [mbind option_bind].
  replace (q_min q + 1 + Z.of_nat n) with (q_min q + Z.of_nat (S n)) by lia.
  rewrite (ring_at c k Hk Hcap items _ _ _ Hr) by lia. rewrite Nat2Z.id, Hq at 1.
  change ((item :: rest) !! S n) with (rest !! n).
  destruct (lookup_lt_is_Some_2 rest n Hn) as [y Hy]. rewrite Hy.
  cbn [mbind option_bind default from_option id mLastFrameTimeStamp set_dep]. rewrite (r_last _ _ H).
  destruct (next_frames c item y now data (q_last q)) as [[frames last]|]; [|exact eq_refl]. cbn [mbind option_bind].
  destruct (deleteItemList_ring (n + 2) items (q_min q) (q_items q) Hr) as (items' & -> & Hr'); [lia..|].
  cbn [mbind option_bind]. unfold round_related. eexists. split; [done|]. split.
  - rewrite u64_small by (unfold is_u64; lia).
    replace (q_min q + Z.of_nat (S n) + 1) with (q_min q + Z.of_nat (n + 2)) by lia.
    apply (refines_drop s q items' (n + 2) d last); [done|lia|done].
  - unfold drop_items. cbn [q_items]. rewrite length_drop. lia.
Qed.

Lemma round_refines now (s : state) q items result :
  refines s q -> mItemList s = Some items -> q_items q <> [] ->
  round_related result q (dequeue_round c now items result s) (round c now q).
Proof.
  intros H Hi Hne. destruct (r_ring _ _ H) as (items' & Hi' & Hr).
  assert (items' = items) as -> by congruence.
  destruct (q_items q) as [|item rest] eqn:Hq; [done|].
  assert (item_at c items (mMinSeq s) = Some item) as Hat.
  { rewrite (r_min _ _ H). pose proof (ring_at c k Hk Hcap items _ _ 0 Hr ltac:(cbn [length]; lia)) as E.
    by rewrite Z.add_0_r in E. }
  rewrite <- Hq in Hr.
  assert (round_related result q (Some (false, result, drop_first c s items))
    (Some (Some ([], drop_items 1 q)))) as Hdrop.
  { eexists. rewrite app_nil_r. split; [done|]. split; [by eapply drop_first_refines|].
    unfold drop_items. cbn [q_items]. rewrite length_drop, Hq. cbn [length]. lia. }
  assert (round_related result q (Some (true, result, s)) (Some None)) as Hstay by (by exists s).
  unfold dequeue_round, round. rewrite Hat, Hq. cbn [mbind option_bind].
  destruct (if received item then due (when_dequeue item) now else Some false) as [[|]|] eqn:Hready;
    [|cbn [mbind option_bind]|exact eq_refl].
  2:{ destruct (if negb (received item) then due (when_nack_abandon item) now else Some false) as [[|]|];
      [exact Hdrop|exact Hstay|exact eq_refl]. }
  assert (received item = true) as Hrec by (by destruct (received item)).
  cbn [mbind option_bind]. destruct (kind item) eqn:Hkind;
    [|unfold findMultiPacketSequence, findNextToDequeue, start_item|exact Hdrop|exact Hdrop].
  { by apply (take_standalone_refines now s q items item rest result H Hi Hr Hq). }
  rewrite Hat. cbn [mbind option_bind]. rewrite Hrec, bool_decide_true by done. cbn [andb guard_true mbind option_bind].
  pose proof (r_range _ _ H) as [H0 H1]. pose proof (r_max _ _ H) as H2. pose proof (r_min _ _ H) as H3.
  rewrite Hq in H2. cbn [length] in H2.
  rewrite !u64_small by (unfold is_u64; lia).
  replace (Z.to_nat (mMaxSeq s - (mMinSeq s + 1))) with (length rest) by lia.
  rewrite Hq, <- H3 in Hr.
  pose proof (sequence_loop_scan s items item rest (length rest) 0 Hr H0 ltac:(lia) ltac:(lia)) as Hscan.
  rewrite Z.add_0_r, drop_0 in Hscan.
  destruct (scan rest 0) as [n| |n].
  - destruct Hscan as [Hn ->]. cbn [mbind option_bind]. rewrite H3, <- Hq in Hr. rewrite <- Hq.
    apply (take_sequence_refines now s q items item rest n result H Hi Hr Hq). lia.
  - rewrite Hscan. cbn [mbind option_bind]. rewrite Hat. cbn [mbind option_bind].
    rewrite Hrec, bool_decide_true by done. cbn [andb guard_true mbind option_bind].
    rewrite !u64_small by (unfold is_u64; lia).
    replace (Z.to_nat (mMaxSeq s - (mMinSeq s + 1))) with (length rest) by lia.
    pose proof (next_loop_later items (mMinSeq s) item rest now (rtp_timestamp_ext item) (length rest) 0 Hr H0
      ltac:(lia) ltac:(lia)) as E. rewrite Z.add_0_r, drop_0 in E. rewrite E.
    destruct (later_due now (rtp_timestamp_ext item) rest) as [[|]|]; [exact Hdrop|exact Hstay|exact eq_refl].
  - destruct Hscan as [Hn (items' & Hr' & ->)]. cbn [mbind option_bind]. eexists. rewrite app_nil_r. split; [done|].
    rewrite H3 in Hr' |- *. split.
    + apply (refines_drop' _ _ _ _ H); [rewrite Hq; cbn [length]; lia|]. by rewrite Hq.
    + unfold drop_items. cbn [q_items]. rewrite length_drop, Hq. cbn [length]. lia.
Qed.

Lemma dequeue_loop_refines now : forall fuel (s : state) q result,
  refines s q -> (length (q_items q) <= fuel)%nat ->
  match dequeue c fuel now q with
  | None => dequeue_loop c fuel now result s = None
  | Some (frames, q') => exists s', dequeue_loop c fuel now result s = Some (result ++ frames, s') /\ refines s' q'
  end.
Proof.
  induction fuel as [|fuel IH]; intros s q result H Hf.
  - exists s. rewrite app_nil_r. split; [|done]. cbn [dequeue_loop].
    pose proof (r_max _ _ H). rewrite (r_min _ _ H). destruct (Z.ltb_spec (q_min q) (mMaxSeq s)); [lia|done].
  - cbn [dequeue dequeue_loop]. pose proof (r_max _ _ H) as Hmax. pose proof (r_min _ _ H) as Hmin.
    destruct (decide (q_items q = [])) as [Hq|Hq].
    + rewrite Hq in Hmax. cbn [length] in Hmax. unfold round. rewrite Hq. cbn [mbind option_bind].
      destruct (Z.ltb_spec (mMinSeq s) (mMaxSeq s)); [lia|]. exists s. by rewrite app_nil_r.
    + assert (0 < length (q_items q))%nat by (by destruct (q_items q); [|cbn [length]; lia]).
      destruct (Z.ltb_spec (mMinSeq s) (mMaxSeq s)); [|lia].
      destruct (r_ring _ _ H) as (items & Hi & _). rewrite Hi. cbn [mbind option_bind].
      pose proof (round_refines now s q items result H Hi Hq) as Hround. unfold round_related in Hround.
      destruct (round c now q) as [[[frames q']|]|]; cbn [mbind option_bind].
      * destruct Hround as (s' & -> & H' & Hlt). cbn [mbind option_bind].
        specialize (IH s' q' (result ++ frames) H' ltac:(lia)).
        destruct (dequeue c fuel now q') as [[more q'']|]; cbn [mbind option_bind]; [|done].
        destruct IH as (s'' & -> & H''). exists s''. by rewrite app_assoc.
      * destruct Hround as (s' & -> & H'). cbn [mbind option_bind]. exists s'. by rewrite app_nil_r.
      * by rewrite Hround.
Qed.

(** *** Adding packets *)

Lemma lost_items_length n request abandon : forall seq, length (lost_items n request abandon seq) = n.
Proof using Type. induction n as [|n IH]; intros seq; cbn [lost_items length]; [done|by rewrite IH]. Qed.

Lemma lost_items_snoc n request abandon : forall seq,
  lost_items (S n) request abandon seq =
  lost_items n request abandon seq ++ [newLostItem request abandon (seq + Z.of_nat n)].
Proof using Type. clear dependent k.
  induction n as [|n IH]; intros seq; [by rewrite Z.add_0_r|].
  change (lost_items (S (S n)) request abandon seq)
    with (newLostItem request abandon seq :: lost_items (S n) request abandon (seq + 1)).
  rewrite IH. cbn [lost_items app]. do 4 f_equal. lia.
Qed.

Lemma store_free items seq item :
  items !! index c seq = None -> store c items seq item = Some (<[index c seq := item]> items).
Proof using Type. intros H. unfold store. by rewrite bool_decide_true. Qed.

Lemma lost_up_ring request abandon n : forall items min l,
  ring c k items min l -> Z.of_nat (length l + n) <= 2 ^ k -> 0 <= min ->
  min + Z.of_nat (length l + n) < 2 ^ 64 ->
  exists items', lost_up c n request abandon (min + Z.of_nat (length l)) items = Some items' /\
    ring c k items' min (l ++ lost_items n request abandon (min + Z.of_nat (length l))).
Proof.
  induction n as [|n IH]; intros items min l Hr Hl Hmin Hmax; [exists items; by rewrite app_nil_r|].
  cbn [lost_up]. rewrite store_free by (apply (ring_free c k Hk Hcap items min l); [done|lia]). cbn [mbind option_bind].
  rewrite u64_small by (unfold is_u64; lia).
  set (x := newLostItem request abandon (min + Z.of_nat (length l))).
  destruct (IH _ min (l ++ [x]) (ring_snoc c k Hk Hcap items min l x Hr ltac:(lia))) as (items' & E & Hr');
    [rewrite length_app; cbn [length]; lia|done|rewrite length_app; cbn [length]; lia|].
  rewrite length_app in E, Hr'. cbn [length] in E, Hr'.
  replace (min + Z.of_nat (length l) + 1) with (min + Z.of_nat (length l + 1)) by lia.
  exists items'. split; [done|]. rewrite <- app_assoc in Hr'. cbn [app] in Hr'.
  cbn [lost_items]. by replace (min + Z.of_nat (length l) + 1) with (min + Z.of_nat (length l + 1)) by lia.
Qed.

Lemma lost_down_ring request abandon n : forall items min l,
  ring c k items min l -> Z.of_nat (length l + n) <= 2 ^ k -> Z.of_nat n <= min < 2 ^ 64 -> 0 < min ->
  exists items', lost_down c n request abandon (u64 (min - 1)) items = Some items' /\
    ring c k items' (min - Z.of_nat n) (lost_items n request abandon (min - Z.of_nat n) ++ l).
Proof.
  induction n as [|n IH]; intros items min l Hr Hl Hmin Hpos; [exists items; by rewrite Z.sub_0_r|].
  cbn [lost_down]. rewrite (u64_small (min - 1)) by (unfold is_u64; lia).
  rewrite store_free by (apply (ring_free_front c k Hk Hcap items min l); [done|lia]). cbn [mbind option_bind].
  set (x := newLostItem request abandon (min - 1)).
  pose proof (ring_cons c k Hk Hcap items min l x Hr ltac:(lia)) as Hr1.
  destruct (decide (n = O)) as [->|Hn].
  - exists (<[index c (min - 1) := x]> items). split; [done|]. exact Hr1.
  - destruct (IH _ (min - 1) (x :: l) Hr1) as (items' & E & Hr'); [cbn [length]; lia|lia|lia|].
    exists items'. split; [done|].
    replace (min - Z.of_nat (S n)) with (min - 1 - Z.of_nat n) by lia.
    rewrite lost_items_snoc, <- app_assoc. cbn [app].
    by replace (min - 1 - Z.of_nat n + Z.of_nat n) with (min - 1) by lia.
Qed.

(** The one number behind the window that the buffer takes for one that fits. *)
Definition collides (seq : Z) (s : state) : Prop := seq = mMinSeq s + 2 ^ k.

Lemma set_window_id (s : state) items :
  mItemList s = Some items -> set_window s items (mMinSeq s) (mMaxSeq s) = s.
Proof using Type. destruct s. cbn. by intros ->. Qed.

Lemma make_room_refines (s : state) q seq request abandon :
  refines s q -> 0 <= seq < 2 ^ 63 - 1 -> ~ collides seq s ->
  match Queue.make_room c seq request abandon (q_min q) (q_items q) with
  | None => JitterBuffer.make_room c seq request abandon s = Some None
  | Some (min, l) => exists items, ring c k items min l /\ 0 <= min <= seq /\
      seq < min + Z.of_nat (length l) < 2 ^ 63 /\
      JitterBuffer.make_room c seq request abandon s =
      Some (Some (set_window s items min (min + Z.of_nat (length l))))
  end.
Proof.
  intros H Hseq Hcol. unfold Queue.make_room, JitterBuffer.make_room, collides in *.
  destruct (r_ring _ _ H) as (items & Hi & Hr). rewrite Hi. cbn [mbind option_bind].
  pose proof (r_range _ _ H) as [H0 H1]. pose proof (r_max _ _ H) as H2. pose proof (r_min _ _ H) as H3.
  pose proof (cap_pos c k Hk Hcap) as Hc. assert (2 ^ 32 < 2 ^ 62) by lia. rewrite H2, H3 in *. clear H2 H3.
  pose proof (proj1 Hr) as Hlen. rewrite Hcap in *.
  set (min := q_min q) in *. set (l := q_items q) in *.
  destruct (Z.ltb_spec seq min).
  - rewrite (u64_small (seq + 2 ^ k)) by (unfold is_u64; lia).
    destruct (Z.ltb_spec (seq + 2 ^ k) (min + Z.of_nat (length l))); [done|].
    rewrite (u64_small (min - 1)) by (unfold is_u64; lia).
    set (n := Z.to_nat (min - 1 - seq)).
    destruct (lost_down_ring request abandon n items min l Hr) as (items1 & E & Hr1); [lia..|].
    rewrite (u64_small (min - 1)) in E by (unfold is_u64; lia). rewrite E. cbn [mbind option_bind].
    replace (min - Z.of_nat n) with (seq + 1) in Hr1 by lia.
    assert (length (lost_items n request abandon (seq + 1) ++ l) = (n + length l)%nat) as El
      by (by rewrite length_app, lost_items_length).
    pose proof (ring_free_front c k Hk Hcap items1 (seq + 1) _ Hr1 ltac:(rewrite El; lia)) as Hfree.
    pose proof (ring_cons c k Hk Hcap items1 (seq + 1) _ newItem Hr1 ltac:(rewrite El; lia)) as Hr2.
    replace (seq + 1 - 1) with seq in * by lia. rewrite store_free by done. cbn [mbind option_bind].
    eexists. split; [exact Hr2|]. cbn [length]. rewrite El. split; [lia|]. split; [lia|]. do 3 f_equal. lia.
  - destruct (Z.leb_spec (min + Z.of_nat (length l)) seq).
    + rewrite (u64_small (min + 2 ^ k)) by (unfold is_u64; lia).
      destruct (Z.ltb_spec (min + 2 ^ k) seq); [done|]. assert (seq <> min + 2 ^ k) by done.
      set (max := min + Z.of_nat (length l)) in *. set (n := Z.to_nat (seq - max)).
      destruct (lost_up_ring request abandon n items min l Hr) as (items1 & E & Hr1); [lia..|].
      fold max in E, Hr1. rewrite E. cbn [mbind option_bind].
      assert (length (l ++ lost_items n request abandon max) = (length l + n)%nat) as El
        by (by rewrite length_app, lost_items_length).
      pose proof (ring_free c k Hk Hcap items1 min _ (Z.of_nat (length l + n)) Hr1 ltac:(rewrite El; lia)) as Hfree.
      pose proof (ring_snoc c k Hk Hcap items1 min _ newItem Hr1 ltac:(rewrite El; lia)) as Hr2.
      rewrite El in Hr2. replace (min + Z.of_nat (length l + n)) with seq in * by lia.
      rewrite store_free by done. cbn [mbind option_bind].
      rewrite u64_small by (unfold is_u64; lia).
      rewrite <- app_assoc in Hr2. eexists. split; [exact Hr2|].
      rewrite app_assoc, length_app, El. cbn [length]. split; [lia|]. split; [lia|]. do 3 f_equal. lia.
    + pose proof (ring_at c k Hk Hcap items min l (seq - min) Hr ltac:(lia)) as E.
      replace (min + (seq - min)) with seq in E by lia. rewrite E.
      destruct (lookup_lt_is_Some_2 l (Z.to_nat (seq - min))) as [x ->]; [lia|]. cbn [mbind option_bind].
      exists items. split; [done|]. split; [lia|]. split; [lia|]. do 2 f_equal.
      rewrite <- (set_window_id s items Hi) at 1. f_equal; [apply (r_min _ _ H)|apply (r_max _ _ H)].
Qed.

(** The slot behind a full window is the first one. *)
Lemma make_room_collides (s : state) q seq request abandon :
  refines s q -> 0 <= seq < 2 ^ 63 - 1 -> collides seq s ->
  JitterBuffer.make_room c seq request abandon s = None.
Proof.
  intros H Hseq Hcol. unfold JitterBuffer.make_room, collides in *.
  destruct (r_ring _ _ H) as (items & Hi & Hr). rewrite Hi. cbn [mbind option_bind].
  pose proof (r_range _ _ H) as [H0 H1]. pose proof (r_max _ _ H) as H2. pose proof (r_min _ _ H) as H3.
  pose proof (cap_pos c k Hk Hcap) as Hc. assert (2 ^ 32 < 2 ^ 62) by lia. rewrite H2, H3 in *. clear H2 H3.
  pose proof (proj1 Hr) as Hlen. rewrite Hcap in *.
  set (min := q_min q) in *. set (l := q_items q) in *.
  destruct (Z.ltb_spec seq min); [lia|].
  destruct (Z.leb_spec (min + Z.of_nat (length l)) seq); [|lia].
  rewrite (u64_small (min + 2 ^ k)) by (unfold is_u64; lia).
  destruct (Z.ltb_spec (min + 2 ^ k) seq); [lia|].
  destruct (lost_up_ring request abandon (Z.to_nat (seq - (min + Z.of_nat (length l)))) items min l Hr)
    as (items1 & -> & Hr1); [lia..|]. cbn [mbind option_bind].
  set (l1 := l ++ lost_items _ _ _ _) in *.
  assert (length l1 = Z.to_nat (2 ^ k)) as El by (unfold l1; rewrite length_app, lost_items_length; lia).
  pose proof (ring_at c k Hk Hcap items1 min l1 0 Hr1 ltac:(lia)) as E.
  unfold item_at in E. rewrite Z.add_0_r, <- (index_shift c k Hk Hcap min) in E.
  unfold store. rewrite Hcol, E. destruct l1 as [|x l1]; [cbn in El; lia|]. by rewrite bool_decide_false.
Qed.

(** *** Writing the packet *)

Lemma fix_kind_ring items min l i item :
  ring c k items min l -> 0 <= min -> min + Z.of_nat (length l) < 2 ^ 63 -> (i < length l)%nat ->
  seq_ext item = min + Z.of_nat i ->
  fix_kind c items min item = Some (fixed_kind l i item).
Proof.
  intros Hr H0 H1 Hi Hs. unfold fix_kind, fixed_kind. rewrite Hs.
  case_bool_decide; cbn [andb]; [|done].
  destruct i as [|j]; [by rewrite Z.add_0_r, Z.ltb_irrefl|].
  destruct (Z.ltb_spec min (min + Z.of_nat (S j))); [|lia].
  rewrite u64_small by (unfold is_u64; lia).
  replace (min + Z.of_nat (S j) - 1) with (min + Z.of_nat j) by lia.
  rewrite (ring_at c k Hk Hcap items min l) by (done || lia). rewrite Nat2Z.id.
  destruct (lookup_lt_is_Some_2 l j) as [x ->]; [lia|]. done.
Qed.

Lemma fix_next_ring items min l i item :
  ring c k items min l -> 0 <= min -> min + Z.of_nat (length l) < 2 ^ 63 -> (i < length l)%nat ->
  seq_ext item = min + Z.of_nat i ->
  exists items', fix_next c items (min + Z.of_nat (length l)) item = Some items' /\
    ring c k items' min (fixed_next l i item).
Proof.
  intros Hr H0 H1 Hi Hs. unfold fix_next, fixed_next. rewrite Hs.
  destruct (bool_decide (kind item = Start) || bool_decide (kind item = Middle)); cbn [andb]; [|by exists items].
  rewrite u64_small by (unfold is_u64; lia).
  replace (min + Z.of_nat i + 1) with (min + Z.of_nat (S i)) by lia.
  destruct (Z.ltb_spec (min + Z.of_nat (S i)) (min + Z.of_nat (length l))).
  - rewrite (ring_at c k Hk Hcap items min l) by (done || lia). rewrite Nat2Z.id.
    destruct (lookup_lt_is_Some_2 l (S i)) as [x ->]; [lia|]. cbn [mbind option_bind].
    eexists. split; [done|]. case_match; [|done]. apply (ring_insert c k Hk Hcap); [done|lia].
  - rewrite (lookup_ge_None_2 l (S i)) by lia. by exists items.
Qed.

Definition packet_item (now seq ts dequeue request : Z) (packet : RtpPacket.t) (pl : list Z) (kd : PacketKind)
  : JitterBufferItem :=
  mkItem now dequeue request dequeue true false kd seq ts (RtpPacket.mMarker packet)
         (RtpPacket.mExtension packet) pl.

Lemma fill_refines (s : state) items l now seq ts dequeue request packet pl kd :
  mItemList s = Some items -> ring c k items (mMinSeq s) l ->
  mMaxSeq s = mMinSeq s + Z.of_nat (length l) -> 0 <= mMinSeq s -> mMaxSeq s < 2 ^ 63 ->
  mMinSeq s <= seq < mMaxSeq s ->
  dep_getPacketKind (mDepacketizer s) pl (RtpPacket.mMarker packet) = Some kd ->
  exists items', JitterBuffer.fill c now seq ts dequeue request packet pl s =
      Some (set_window s items' (mMinSeq s) (mMaxSeq s)) /\
    ring c k items' (mMinSeq s)
      (Queue.fill l (Z.to_nat (seq - mMinSeq s)) (packet_item now seq ts dequeue request packet pl kd)).
Proof.
  intros Hi Hr Hmax H0 H1 Hseq Hkind. unfold JitterBuffer.fill, Queue.fill. rewrite Hi. cbn [mbind option_bind].
  set (i := Z.to_nat (seq - mMinSeq s)). replace seq with (mMinSeq s + Z.of_nat i) by lia.
  assert (i < length l)%nat as Hil by lia. rewrite Hmax in *.
  rewrite (ring_at c k Hk Hcap items _ l) by (done || lia). rewrite Nat2Z.id.
  destruct (lookup_lt_is_Some_2 l i Hil) as [x ->]. cbn [mbind option_bind]. rewrite Hkind. cbn [mbind option_bind].
  fold (packet_item now (mMinSeq s + Z.of_nat i) ts dequeue request packet pl kd).
  set (item := packet_item _ _ _ _ _ _ _ _).
  rewrite (fix_kind_ring items (mMinSeq s) l i item) by (done || lia). cbn [mbind option_bind].
  assert (seq_ext (fixed_kind l i item) = mMinSeq s + Z.of_nat i) as Hs.
  { unfold fixed_kind. repeat (case_match; try done). }
  pose proof (ring_insert c k Hk Hcap items (mMinSeq s) l i (fixed_kind l i item) Hr Hil) as Hr'.
  destruct (fix_next_ring _ _ _ i (fixed_kind l i item) Hr' H0) as (items' & E & Hr'');
    [rewrite length_insert; lia|rewrite length_insert; lia|done|].
  rewrite length_insert in E. rewrite E. cbn [mbind option_bind]. exists items'. done.
Qed.

End Depacketizer.
End Refinement.
