(* ===== verification/JitterProps.v ===== *)
(** * The properties of the jitter buffer

    Well-formed buffers and that every operation keeps them and cannot stop the
    program; the order of the frames; the requests for lost packets; the
    timeouts of the event loop.  [JitterSpec.Refinement] relates the buffer to
    the list of its items, on which most of the proofs are. *)

From stdpp Require Import gmap sorting.
From S2P Require Import Prelude Bytes Sequence Extension Tracks Rtp Packets ExtensionSources Vp8Opus H264 Jitter JitterSpec.
Import JitterBuffer.

(** ** Well-formed buffers *)

Module WellFormed.
Import Ring Queue Refinement.

(** Times are far from the ends of [int64_t] nanoseconds (292 years). *)
Definition time_ok (t : Z) : Prop := 0 <= t < 2 ^ 62.

Record item_ok (seq : Z) (item : JitterBufferItem) : Prop := {
  item_seq : seq_ext item = seq;
  item_request : time_ok (when_nack_request item);
  item_abandon : time_ok (when_nack_abandon item);
  item_received : received item = true -> time_ok (when_received item) /\ time_ok (when_dequeue item);
  item_lost : received item = false -> when_dequeue item = time_max
}.

(** All items from [min] on, but the one with the number [skip]. *)
Definition items_ok_but (skip : option Z) (min : Z) (l : list JitterBufferItem) : Prop :=
  forall i item, l !! i = Some item -> Some (min + Z.of_nat i) <> skip -> item_ok (min + Z.of_nat i) item.

Notation items_ok := (items_ok_but None).

Record config_ok (c : config) (k : Z) : Prop := {
  config_k : 0 <= k <= 32;
  config_capacity : mCapacity c = 2 ^ k;
  config_rate : 1 <= Track.mClockRate (mTrack c) < 2 ^ 32;
  config_length : 0 <= mLength c < 2 ^ 30;
  config_nack : 0 <= mNackDelay c < 2 ^ 30
}.

Section Depacketizer.
Context {D : Type} `{!Depacketizer D}.
Variable c : config.
Variable k : Z.
Hypothesis Hc : config_ok c k.

#[local] Set Default Proof Using "All".

Notation state := (@JitterBuffer.state D).
Notation queue := (@Queue.queue D).

Record window_ok (s : state) (q : queue) : Prop := {
  window_refines : refines c k s q;
  window_items : items_ok (q_min q) (q_items q);
  window_last : 0 <= mLastPacketTime s < 2 ^ 60;
  window_base : 0 <= mBaseTime s < 2 ^ 60 /\ 0 <= mBaseRtpTimestamp s
}.

Record wf (s : state) : Prop := {
  wf_seq : ExtendedValue.ext_ok 16 (mExtValueSeq s);
  wf_timestamp : ExtendedValue.ext_ok 32 (mExtValueRtpTimestamp s);
  wf_window : mItemList s = None \/ exists q, window_ok s q
}.

(** *** Times *)

Lemma in64_some z : time_min <= z <= time_max -> in64 z = Some z.
Proof using Type.
  intros H. unfold in64. destruct (Z.leb_spec time_min z), (Z.leb_spec z time_max); (done || lia).
Qed.

Lemma add_millis_some t ms :
  0 <= t <= 2 ^ 62 -> 0 <= ms * 1000000 < 2 ^ 62 -> add_millis t ms = Some (t + ms * 1000000).
Proof using Type.
  intros Ht Hm. unfold add_millis. rewrite in64_some by (unfold time_min, time_max; lia).
  cbn [mbind option_bind]. apply in64_some. unfold time_min, time_max. lia.
Qed.

Lemma diff_millis_total a b : time_ok a -> time_ok b -> is_Some (diff_millis a b).
Proof using Type.
  unfold time_ok. intros Ha Hb. unfold diff_millis.
  rewrite in64_some by (unfold time_min, time_max; lia). cbn [mbind option_bind].
  rewrite in64_some by (unfold time_min, time_max; lia). by eexists.
Qed.

Lemma due_total a b : time_ok a -> time_ok b -> is_Some (due a b).
Proof using Type. intros Ha Hb. unfold due. destruct (diff_millis_total a b Ha Hb) as [d ->]. by eexists. Qed.

Lemma now_ok now : 0 <= now < 2 ^ 60 -> time_ok now.
Proof using Type. unfold time_ok. lia. Qed.

(** *** Packets *)

Definition packet_ok (packet : RtpPacket.t) : Prop :=
  bytes_ok (RtpPacket.mPayload packet) /\ is_u16 (RtpPacket.mSequence packet) /\
  is_u32 (RtpPacket.mTimestamp packet).

Lemma unwrap_total packet : packet_ok packet ->
  exists u, unwrap c packet = Some u /\ forall seq pl, u = Some (seq, pl) -> is_u16 seq.
Proof using Type.
  intros (Hp & Hs & _). unfold unwrap. case_match; [|by eexists; split; [done|intros ? ? [= <- <-]]].
  destruct (Nat.ltb_spec (length (RtpPacket.mPayload packet)) 2) as [|Hl]; [by eexists|].
  destruct (RtpPacket.mPayload packet) as [|a [|b pl]] eqn:E; [cbn in Hl; lia..|].
  apply bytes_ok_cons_iff in Hp as [Ha Hp]. apply bytes_ok_cons_iff in Hp as [Hb Hp].
  rewrite ByteReader.make_reader_at, ByteReader.readU16_at by done. cbn [mbind option_bind].
  eexists. split; [done|]. intros ? ? [= <- <-].
  apply (be_value_range [a; b]). do 2 (apply bytes_ok_cons; [done|]). apply bytes_ok_nil.
Qed.

Definition extended_seq (now seq : Z) (s : state) : Z := (ExtendedValue.extend 16 now (mExtValueSeq s) seq).1.
Definition extended_timestamp (now ts : Z) (s : state) : Z :=
  (ExtendedValue.extend 32 now (mExtValueRtpTimestamp s) ts).1.

(** The counters have not been used up: 2^46 rounds of sequence numbers. *)
Definition counters_ok (s : state) : Prop :=
  ExtendedValue.mRolloverValue (mExtValueSeq s) < 2 ^ 62 /\
  ExtendedValue.mRolloverValue (mExtValueRtpTimestamp s) < 2 ^ 62.

(** The timestamp is not older than that of the first packet, nor 36 years
    later. *)
Definition timely (ts : Z) (s : state) : Prop :=
  mBaseRtpTimestamp s <= ts /\ 1000 * (ts - mBaseRtpTimestamp s) < 2 ^ 63 /\
  1000 * (ts - mBaseRtpTimestamp s) / Track.mClockRate (mTrack c) * 1000000 < 2 ^ 60.

(** What a packet must satisfy where the buffer already has a window: the two
    cases that stop it are left out. *)
Definition admissible (now : Z) (packet : RtpPacket.t) (s : state) : Prop :=
  mItemList s <> None ->
  timely (extended_timestamp now (RtpPacket.mTimestamp packet) s) s /\
  forall seq pl, unwrap c packet = Some (Some (seq, pl)) -> ~ collides k (extended_seq now seq s) s.

Lemma schedule_some now ts (s : state) :
  0 <= now < 2 ^ 60 -> 0 <= mBaseTime s < 2 ^ 60 -> timely ts s ->
  exists dequeue request, schedule c now ts s = Some (dequeue, request) /\ time_ok dequeue /\ time_ok request.
Proof.
  intros Hnow Hbase (Hts & Hm & Hd). unfold schedule. destruct Hc as [_ _ Hr Hlen Hnack].
  assert (Track.mClockRate (mTrack c) =? 0 = false) as -> by (apply Z.eqb_neq; lia). cbn [negb guard_true mbind option_bind].
  set (delta := ts - mBaseRtpTimestamp s) in *.
  rewrite (u64_small delta) by (unfold is_u64; lia). rewrite (u64_small (1000 * delta)) by (unfold is_u64; lia).
  assert (0 <= 1000 * delta / Track.mClockRate (mTrack c)) by (apply Z.div_pos; lia).
  assert (1000 * delta / Track.mClockRate (mTrack c) < 2 ^ 60) by lia.
  rewrite i64_small by lia.
  rewrite (add_millis_some (mBaseTime s)) by lia. cbn [mbind option_bind].
  rewrite (add_millis_some _ (mLength c)) by lia. cbn [mbind option_bind].
  rewrite (add_millis_some now) by lia. cbn [mbind option_bind].
  eexists _, _. split; [done|]. unfold time_ok. lia.
Qed.

(** *** The items stay well-formed *)

Lemma lost_items_ok n request abandon : forall seq, time_ok request -> time_ok abandon ->
  items_ok seq (lost_items n request abandon seq).
Proof using Type.
  induction n as [|n IH]; intros seq Hr Ha i item Hi _; [done|]. cbn [lost_items] in Hi.
  destruct i as [|i].
  - injection Hi as <-. split; cbn; (done || lia).
  - change (lost_items n request abandon (seq + 1) !! i = Some item) in Hi.
    pose proof (IH (seq + 1) Hr Ha i item Hi ltac:(done)) as H.
    by replace (seq + Z.of_nat (S i)) with (seq + 1 + Z.of_nat i) by lia.
Qed.

Lemma items_ok_app skip min l1 l2 :
  items_ok_but skip min l1 -> items_ok_but skip (min + Z.of_nat (length l1)) l2 ->
  items_ok_but skip min (l1 ++ l2).
Proof using Type.
  intros H1 H2 i item Hi Hne. apply lookup_app_Some in Hi as [Hi|[Hge Hi]]; [by apply H1|].
  specialize (H2 (i - length l1)%nat item Hi).
  replace (min + Z.of_nat (length l1) + Z.of_nat (i - length l1)) with (min + Z.of_nat i) in H2 by lia. auto.
Qed.

Lemma items_ok_skip skip min l : items_ok min l -> items_ok_but skip min l.
Proof using Type. intros H i item Hi _. by apply H. Qed.

Lemma items_ok_hole seq item : items_ok_but (Some seq) seq [item].
Proof using Type.
  intros [|i] x Hi Hne; [|done]. by rewrite Z.add_0_r in Hne.
Qed.

Lemma make_room_items seq request abandon min l min' l' :
  time_ok request -> time_ok abandon ->
  items_ok_but (Some seq) min l ->
  Queue.make_room c seq request abandon min l = Some (min', l') ->
  items_ok_but (Some seq) min' l'.
Proof using Type.
  intros Hr Ha H. unfold Queue.make_room.
  destruct (Z.ltb_spec seq min).
  - case_match; [done|]. intros [= <- <-]. change (newItem :: ?x ++ l) with ([newItem] ++ x ++ l).
    apply items_ok_app; [apply items_ok_hole|]. apply items_ok_app.
    + apply items_ok_skip. by apply lost_items_ok.
    + rewrite lost_items_length. cbn [length].
      by replace (seq + Z.of_nat 1 + Z.of_nat (Z.to_nat (min - 1 - seq))) with min by lia.
  - destruct (Z.leb_spec (min + Z.of_nat (length l)) seq); [|by intros [= <- <-]].
    case_match; [done|]. intros [= <- <-].
    apply items_ok_app; [done|]. apply items_ok_app; [apply items_ok_skip; by apply lost_items_ok|].
    rewrite lost_items_length.
    replace (min + Z.of_nat (length l) + Z.of_nat (Z.to_nat (seq - (min + Z.of_nat (length l))))) with seq by lia.
    apply items_ok_hole.
Qed.

Lemma with_kind_ok seq item kd : item_ok seq item -> item_ok seq (with_kind item kd).
Proof using Type. intros []. by split. Qed.

Lemma fixed_kind_cases l i item : fixed_kind l i item = item \/ fixed_kind l i item = with_kind item Middle.
Proof using Type. unfold fixed_kind. repeat (case_match; auto). Qed.

Lemma fill_length l i item : length (Queue.fill l i item) = length l.
Proof using Type.
  unfold Queue.fill, fixed_next. repeat (case_match; rewrite ?length_insert; try done).
Qed.

Lemma insert_items_ok skip min l i item :
  items_ok_but skip min l -> item_ok (min + Z.of_nat i) item -> items_ok_but skip min (<[i := item]> l).
Proof using Type.
  intros H Hi j x Hj Hne. apply list_lookup_insert_Some in Hj as [(-> & <- & _)|[_ Hj]]; [done|by apply H].
Qed.

Lemma fill_items seq min l i item :
  items_ok_but (Some seq) min l -> seq = min + Z.of_nat i -> item_ok seq item ->
  items_ok min (Queue.fill l i item).
Proof using Type.
  intros H -> Hi. unfold Queue.fill.
  assert (item_ok (min + Z.of_nat i) (fixed_kind l i item)) as Hf
    by (destruct (fixed_kind_cases l i item) as [-> | ->]; [done|by apply with_kind_ok]).
  set (x := fixed_kind l i item) in *.
  assert (items_ok min (<[i := x]> l)) as H1.
  { intros j y Hj _. apply list_lookup_insert_Some in Hj as [(-> & <- & _)|[Hne Hj]]; [done|].
    apply (H j y Hj). intros [= E]. lia. }
  unfold fixed_next. case_match; [|done]. case_match eqn:En; [|done]. case_match; [|done].
  apply insert_items_ok; [done|]. apply with_kind_ok. by apply (H1 (S i)).
Qed.

(** *** Where the packet and its neighbours are *)

Lemma with_kind_id item : with_kind item (kind item) = item.
Proof using Type. by destruct item. Qed.

Lemma fixed_next_lookup l i item j x : l !! j = Some x ->
  exists kd, fixed_next l i item !! j = Some (with_kind x kd).
Proof using Type.
  intros Hx. unfold fixed_next. assert (exists kd, l !! j = Some (with_kind x kd)) as Hsame
    by (exists (kind x); by rewrite with_kind_id).
  destruct (_ || _); [|done]. destruct (l !! S i) as [y|] eqn:Hy; [|done]. destruct (_ && _); [|done].
  destruct (decide (j = S i)) as [->|Hne].
  - exists Middle. rewrite list_lookup_insert_eq by (by eapply lookup_lt_Some). congruence.
  - exists (kind x). rewrite list_lookup_insert_ne by lia. by rewrite with_kind_id.
Qed.

Lemma fill_lookup_same l i item : (i < length l)%nat ->
  exists kd, Queue.fill l i item !! i = Some (with_kind item kd).
Proof using Type.
  intros Hi. unfold Queue.fill.
  destruct (fixed_next_lookup (<[i := fixed_kind l i item]> l) i (fixed_kind l i item) i (fixed_kind l i item))
    as [kd ->]; [by apply list_lookup_insert_eq|].
  destruct (fixed_kind_cases l i item) as [-> | ->]; by exists kd.
Qed.

Lemma fill_lookup_other l i item j x : l !! j = Some x -> j <> i ->
  exists kd, Queue.fill l i item !! j = Some (with_kind x kd).
Proof using Type.
  intros Hx Hne. unfold Queue.fill. apply fixed_next_lookup. by rewrite list_lookup_insert_ne by done.
Qed.

Lemma lost_items_lookup n request abandon : forall seq i, (i < n)%nat ->
  lost_items n request abandon seq !! i = Some (newLostItem request abandon (seq + Z.of_nat i)).
Proof using Type.
  induction n as [|n IH]; intros seq i Hi; [lia|]. destruct i as [|i]; cbn [lost_items].
  - change ((?x :: ?l) !! 0%nat) with (Some x). by rewrite Z.add_0_r.
  - change ((?x :: ?l) !! S i) with (l !! i). rewrite IH by lia. do 2 f_equal. lia.
Qed.

(** The window after [make_room]: its bounds, and what is where. *)
Lemma make_room_lookup seq request abandon min l min' l' :
  0 <= seq -> Queue.make_room c seq request abandon min l = Some (min', l') ->
  min' = Z.min min seq /\ min' + Z.of_nat (length l') = Z.max (min + Z.of_nat (length l)) (seq + 1) /\
  (forall i x, l !! i = Some x -> l' !! Z.to_nat (min + Z.of_nat i - min') = Some x) /\
  (forall n, min' <= n < min' + Z.of_nat (length l') -> n <> seq -> ~ (min <= n < min + Z.of_nat (length l)) ->
     l' !! Z.to_nat (n - min') = Some (newLostItem request abandon n)).
Proof using Type.
  intros Hseq. unfold Queue.make_room. destruct (Z.ltb_spec seq min).
  - case_match; [done|]. intros [= <- <-]. cbn [length]. rewrite length_app, lost_items_length.
    split; [lia|]. split; [lia|]. split.
    + intros i x Hx. replace (Z.to_nat (min + Z.of_nat i - seq)) with (S (Z.to_nat (min - 1 - seq) + i)) by lia.
      change ((?y :: ?r) !! S ?j) with (r !! j). rewrite lookup_app_r by (rewrite lost_items_length; lia).
      rewrite lost_items_length. by replace (Z.to_nat (min - 1 - seq) + i - Z.to_nat (min - 1 - seq))%nat with i by lia.
    + intros n Hn Hne Hout. replace (Z.to_nat (n - seq)) with (S (Z.to_nat (n - seq - 1))) by lia.
      change ((?y :: ?r) !! S ?j) with (r !! j). rewrite lookup_app_l by (rewrite lost_items_length; lia).
      rewrite lost_items_lookup by lia. do 2 f_equal. lia.
  - destruct (Z.leb_spec (min + Z.of_nat (length l)) seq).
    + case_match; [done|]. intros [= <- <-]. rewrite !length_app, lost_items_length. cbn [length].
      split; [lia|]. split; [lia|]. split.
      * intros i x Hx. replace (Z.to_nat (min + Z.of_nat i - min)) with i by lia.
        by apply lookup_app_l_Some.
      * intros n Hn Hne Hout. rewrite lookup_app_r by lia.
        rewrite lookup_app_l by (rewrite lost_items_length; lia). rewrite lost_items_lookup by lia. do 2 f_equal. lia.
    + intros [= <- <-]. split; [lia|]. split; [lia|]. split.
      * intros i x Hx. by replace (Z.to_nat (min + Z.of_nat i - min)) with i by lia.
      * intros n Hn Hne Hout. lia.
Qed.

(** *** Putting a packet in *)

#[local] Notation Hk := (config_k c k Hc).
#[local] Notation Hcap := (config_capacity c k Hc).

Hypothesis kinds_total : forall (d : D) pl m, is_Some (dep_getPacketKind d pl m).

(** The window with the packet at the number [seq], and what it is about. *)
Definition entered (now seq ts dequeue request : Z) (packet : RtpPacket.t) (pl : list Z) (kd : PacketKind)
  (q q' : queue) : Prop :=
  q_dep q' = q_dep q /\ q_last q' = q_last q /\
  exists l, Queue.make_room c seq request dequeue (q_min q) (q_items q) = Some (q_min q', l) /\
    q_items q' = Queue.fill l (Z.to_nat (seq - q_min q')) (packet_item now seq ts dequeue request packet pl kd).

Lemma window_fields (s s' : state) q q' :
  window_ok s q -> refines c k s' q' -> items_ok (q_min q') (q_items q') ->
  mLastPacketTime s' = mLastPacketTime s -> mBaseTime s' = mBaseTime s ->
  mBaseRtpTimestamp s' = mBaseRtpTimestamp s -> window_ok s' q'.
Proof using Type. intros [] Hr Hi E1 E2 E3. by split; rewrite ?E1, ?E2, ?E3. Qed.

Lemma enter_ok (s : state) q now seq ts dequeue request packet pl :
  refines c k s q -> items_ok_but (Some seq) (q_min q) (q_items q) ->
  0 <= now < 2 ^ 60 -> 0 <= seq < 2 ^ 63 - 1 -> time_ok dequeue -> time_ok request -> ~ collides k seq s ->
  (JitterBuffer.make_room c seq request dequeue s = Some None /\ items_ok (q_min q) (q_items q)) \/
  exists items min max q', let s' := set_window s items min max in
    (room ← JitterBuffer.make_room c seq request dequeue s;
     match room with None => Some s | Some s => JitterBuffer.fill c now seq ts dequeue request packet pl s end)
    = Some s' /\
    refines c k s' q' /\ items_ok (q_min q') (q_items q') /\
    exists kd, dep_getPacketKind (mDepacketizer s) pl (RtpPacket.mMarker packet) = Some kd /\
      entered now seq ts dequeue request packet pl kd q q'.
Proof.
  intros Hr Hitems Hnow Hseq Hd Hreq Hcol.
  pose proof (make_room_refines c k Hk Hcap s q seq request dequeue Hr Hseq Hcol) as Hroom.
  destruct (Queue.make_room c seq request dequeue (q_min q) (q_items q)) as [[min l]|] eqn:Eq.
  - right. destruct Hroom as (items & Hring & Hmin & Hmax & ->). cbn [mbind option_bind].
    destruct (kinds_total (mDepacketizer s) pl (RtpPacket.mMarker packet)) as [kd Hkd].
    set (s1 := set_window s items min (min + Z.of_nat (length l))).
    destruct (fill_refines c k Hk Hcap s1 items l now seq ts dequeue request packet pl kd)
      as (items' & E & Hring'); [done|done|done|cbn; lia|cbn; lia|cbn; lia|done|].
    exists items', min, (min + Z.of_nat (length l)),
      (mkQ (q_dep q) min (Queue.fill l (Z.to_nat (seq - min)) (packet_item now seq ts dequeue request packet pl kd))
           (q_last q)).
    cbv zeta. split; [exact E|]. cbn [q_min q_items q_dep q_last]. split.
    { destruct Hr. split; cbn; [done|done|by rewrite fill_length|done|by exists items'|lia]. }
    split.
    { apply (fill_items seq); [by apply (make_room_items seq request dequeue (q_min q) (q_items q))|lia|].
      split; cbn; try done. intros _. split; [by apply now_ok|done]. }
    exists kd. split; [done|]. split; [done|]. split; [done|]. by exists l.
  - left. rewrite Hroom. split; [done|]. intros i item Hi _. apply Hitems; [done|]. intros [= E].
    apply lookup_lt_Some in Hi. unfold Queue.make_room in Eq.
    destruct (Z.ltb_spec seq (q_min q)); [lia|].
    destruct (Z.leb_spec (q_min q + Z.of_nat (length (q_items q))) seq); [lia|done].
Qed.

(** *** The branches of [consume] *)

Lemma wf_extended (s : state) es et :
  wf s -> ExtendedValue.ext_ok 16 es -> ExtendedValue.ext_ok 32 et -> wf (set_extended s es et).
Proof using Type.
  intros [_ _ Hw] H1 H2. split; [done|done|]. destruct Hw as [Hw|(q & [[] ? ? ?])]; [by left|right].
  exists q. repeat (split; try done).
Qed.

Lemma reset_if_idle_ok (s : state) now seq :
  wf s -> 0 <= now < 2 ^ 60 -> 0 <= seq -> exists s', reset_if_idle c now seq s = Some s' /\ wf s' /\
    (s' = s \/ mItemList s' = None).
Proof using Type.
  intros Hs Hnow Hseq. unfold reset_if_idle. destruct (mItemList s) as [items|] eqn:Hi; [|by exists s; auto].
  destruct Hs as [H1 H2 [Hn|(q & Hq)]]; [congruence|].
  destruct (window_last _ _ Hq). rewrite in64_some by (unfold time_min, time_max; lia). cbn [mbind option_bind].
  case_match.
  - eexists. split; [done|]. split; [|by right]. split; [done|done|by left].
  - exists s. split; [done|]. split; [|by left]. split; [done|done|]. right. by exists q.
Qed.

Lemma wf_last_packet (s : state) now : wf s -> 0 <= now < 2 ^ 60 -> wf (set_last_packet s now).
Proof using Type.
  intros [H1 H2 Hw] Hnow. split; [done|done|]. destruct Hw as [Hw|(q & [[] ? ? ?])]; [by left|right].
  exists q. repeat (split; try done).
Qed.

(** The window of the first packet: the slot is there, to be filled. *)
Lemma first_window (s : state) now seq ts :
  0 <= seq < 2 ^ 63 - 1 -> 0 <= now < 2 ^ 60 -> 0 <= ts -> mItemList s = None ->
  exists s', open_window c now seq ts s = Some s' /\
    refines c k s' (mkQ (mDepacketizer s) seq [newItem] (mLastFrameTimeStamp s)) /\
    mExtValueSeq s' = mExtValueSeq s /\ mExtValueRtpTimestamp s' = mExtValueRtpTimestamp s /\
    mLastPacketTime s' = mLastPacketTime s /\ mBaseTime s' = now /\ mBaseRtpTimestamp s' = ts.
Proof.
  intros Hseq Hnow Hts Hn. unfold open_window. rewrite Hn. eexists. split; [done|]. split; [|done].
  rewrite u64_small by (unfold is_u64; lia).
  split; cbn; [done..| |lia]. eexists. split; [done|]. apply (ring_single c k Hk Hcap).
Qed.

Lemma timely_first (s : state) ts : 0 <= ts -> mBaseRtpTimestamp s = ts -> timely ts s.
Proof using Type.
  intros Ht E. unfold timely. rewrite E, Z.sub_diag, Z.mul_0_r, Zdiv.Zdiv_0_l. lia.
Qed.

(** A packet that is let through leaves the buffer well-formed, whether there is
    room for it or not. *)
Lemma enter_wf (s : state) q now seq ts packet pl :
  refines c k s q -> items_ok_but (Some seq) (q_min q) (q_items q) -> 0 <= now < 2 ^ 60 ->
  0 <= seq < 2 ^ 63 - 1 -> timely ts s -> ~ collides k seq s ->
  ExtendedValue.ext_ok 16 (mExtValueSeq s) -> ExtendedValue.ext_ok 32 (mExtValueRtpTimestamp s) ->
  0 <= mLastPacketTime s < 2 ^ 60 -> 0 <= mBaseTime s < 2 ^ 60 -> 0 <= mBaseRtpTimestamp s ->
  exists s', ('(dequeue, request) ← schedule c now ts s;
      room ← JitterBuffer.make_room c seq request dequeue s;
      match room with None => Some s
      | Some s => JitterBuffer.fill c now seq ts dequeue request packet pl s end) = Some s' /\ wf s'.
Proof.
  intros Hr Hitems Hnow Hseq Htime Hcol Hx1 Hx2 Hl Hb Hbr.
  destruct (schedule_some now ts s Hnow Hb Htime) as (dequeue & request & -> & Hd & Hreq). cbn [mbind option_bind].
  destruct (enter_ok s q now seq ts dequeue request packet pl Hr Hitems Hnow Hseq Hd Hreq Hcol)
    as [[-> Hall]|(items & min & max & q' & -> & Hr' & Hall & _)]; cbn [mbind option_bind].
  - exists s. split; [done|]. split; [done|done|]. right. exists q. by split.
  - eexists. split; [done|]. split; [done|done|]. right. exists q'. by split.
Qed.

(** A well-formed buffer takes any admissible packet, and stays well-formed. *)
Lemma consume_ok (s : state) now packet :
  wf s -> packet_ok packet -> 0 <= now < 2 ^ 60 -> counters_ok s -> admissible now packet s ->
  exists s', consume c now packet s = Some s' /\ wf s'.
Proof.
  intros Hs Hp Hnow [Hc1 Hc2] Hadm. unfold consume.
  destruct (unwrap_total packet Hp) as (u & Eu & Hu). rewrite Eu. cbn [mbind option_bind].
  destruct u as [[seq pl]|]; [|by exists s]. specialize (Hu _ _ eq_refl). destruct Hp as (_ & _ & Hts).
  pose proof (ExtendedValue.extend_bounds 16 now _ seq ltac:(lia) (wf_seq _ Hs) Hc1 Hu) as [He1 Hb1].
  pose proof (ExtendedValue.extend_bounds 32 now _ _ ltac:(lia) (wf_timestamp _ Hs) Hc2 Hts) as [He2 Hb2].
  assert (mItemList s <> None -> timely (extended_timestamp now (RtpPacket.mTimestamp packet) s) s /\
    ~ collides k (extended_seq now seq s) s) as Hadm'.
  { intros Hne. destruct (Hadm Hne) as [? Hcol]. split; [done|by apply (Hcol seq pl)]. }
  clear Hadm. unfold extended_timestamp, extended_seq in Hadm'.
  destruct (ExtendedValue.extend 16 now (mExtValueSeq s) seq) as [seq_ext es].
  destruct (ExtendedValue.extend 32 now (mExtValueRtpTimestamp s) (RtpPacket.mTimestamp packet)) as [ts et].
  cbn [fst snd] in *.
  pose proof (wf_extended s es et Hs He1 He2) as Hs1. set (s1 := set_extended s es et) in *.
  case_match; [by exists s1|].
  destruct (reset_if_idle_ok s1 now seq_ext Hs1 Hnow ltac:(lia)) as (s2 & -> & Hs2 & Hreset). cbn [mbind option_bind].
  pose proof (wf_last_packet s2 now Hs2 Hnow) as Hs3. set (s3 := set_last_packet s2 now) in *.
  assert (mItemList s3 <> None -> timely ts s3 /\ ~ collides k seq_ext s3) as Hadm3.
  { intros Hne. destruct Hreset as [E|E]; [|done]. unfold s3 in Hne |- *. rewrite E in Hne |- *.
    by apply Hadm'. }
  assert (mLastPacketTime s3 = now) as Hlast by done.
  clearbody s3. clear Hadm' Hreset Hs2 s2 Hs1 s1 H Hs.
  destruct Hs3 as [Hw1 Hw2 Hw].
  destruct Hw as [Hn|(q & Hq)].
  - destruct (first_window s3 now seq_ext ts ltac:(lia) Hnow ltac:(lia) Hn)
      as (s4 & Eo & Hr & E1 & E2 & E3 & E4 & E5). rewrite Eo.
    apply (enter_wf s4 (mkQ (mDepacketizer s3) seq_ext [newItem] (mLastFrameTimeStamp s3))); rewrite ?E1, ?E2, ?E3, ?E4, ?E5, ?Hlast;
      try done; try lia; [apply items_ok_hole|by apply timely_first; [lia|]|].
    unfold collides. rewrite (r_min _ _ _ _ Hr). cbn [q_min]. pose proof (cap_pos c k Hk Hcap). lia.
  - destruct Hq as [Hr Hitems Hl [Hb Hbr]].
    assert (mItemList s3 <> None) as Hne by (destruct (r_ring _ _ _ _ Hr) as (? & -> & _); done).
    destruct (Hadm3 Hne) as [Htime Hcol].
    destruct (open_window c now seq_ext ts s3) as [s4|] eqn:Eo;
      [|exists s3; split; [done|]; split; [done|done|]; right; exists q; by split].
    assert (s4 = s3) as ->.
    { unfold open_window in Eo. destruct (mItemList s3); [|done]. do 2 (case_match; [done|]). congruence. }
    apply (enter_wf s3 q); try done; [by apply items_ok_skip|lia].
Qed.

(** *** Taking frames out *)

(** What the buffer needs of its depacketizer: packets of a frame never stop
    it, and no frame is empty. *)
Hypothesis extract_total : forall (d : D) l, l <> [] ->
  exists frames d', dep_extract d l = Some (frames, d') /\ Forall (fun f => f <> []) frames.
Hypothesis Hndebug : NDEBUG c = true.

Lemma absCaptureTime_total item : is_Some (absCaptureTime c item).
Proof using Type.
  unfold absCaptureTime. case_match; [|by eexists].
  destruct (RtpExtension.findAny_total (extension item) (mAbsCaptureTimeExtensionId c)) as [[bs|] ->];
    cbn [mbind option_bind]; [|by eexists].
  destruct (Nat.leb_spec 8 (length bs)); [|by eexists].
  destruct (ByteReader.readU64_some [] bs) as [v E]; [done|].
  rewrite ByteReader.make_reader_at, E. cbn [mbind option_bind]. rewrite ByteReader.remaining_at.
  destruct (Nat.leb_spec 8 (length (drop 8 bs))); [|by eexists].
  destruct (ByteReader.readU64_some ([] ++ take 8 bs) (drop 8 bs)) as [v' E']; [done|].
  rewrite E'. by eexists.
Qed.

(** The frames of one extraction carry the first item's number and time. *)
Definition frames_of (item : JitterBufferItem) (data : list (list Z)) (frames : list EncodedFrame) : Prop :=
  map f_data frames = data /\
  Forall (fun f => f_seq_ext f = seq_ext item /\ f_rtp_timestamp_ext f = rtp_timestamp_ext item) frames.

Lemma append_loop_some item last ntp offset ftl wait data :
  Forall (fun f => f <> []) data ->
  exists frames, append_loop item last ntp offset ftl wait data = Some frames /\ frames_of item data frames.
Proof using Type.
  induction 1 as [|x data Hx _ (frames & E & Hd & Hf)]; [by exists []|].
  cbn [append_loop]. rewrite (bool_decide_false (x = [])) by done. cbn [negb guard_true mbind option_bind].
  rewrite E. cbn [mbind option_bind]. eexists. split; [done|]. split; cbn [map f_data]; [by rewrite Hd|by constructor].
Qed.

(** Either nothing is delivered, or the frames are no older than the last one and
    the new last time is theirs. *)
Definition not_older (last : option Z) (ts : Z) : Prop := from_option (fun t => t <= ts) True last.

Lemma next_frames_some item last now data lastTs :
  received item = true -> received last = true -> (exists a b, item_ok a item /\ item_ok b last) ->
  time_ok now -> Forall (fun f => f <> []) data ->
  exists frames lastTs', next_frames c item last now data lastTs = Some (frames, lastTs') /\
    ((frames = [] /\ lastTs' = lastTs /\ (data = [] \/ ~ not_older lastTs (rtp_timestamp_ext item))) \/
     (frames_of item data frames /\ frames <> [] /\ not_older lastTs (rtp_timestamp_ext item) /\
      lastTs' = Some (rtp_timestamp_ext item))).
Proof.
  intros Hr Hrl (a & b & Ha & Hb) Hnow Hdata. unfold next_frames.
  case_bool_decide as Hd; [by eexists _, _; split; [done|]; left; auto|].
  destruct (from_option (fun t => rtp_timestamp_ext item <? t) false lastTs) eqn:Ht.
  { eexists _, _. split; [done|]. left. split; [done|]. split; [done|]. right. unfold not_older.
    destruct lastTs as [t|]; [|done]. cbn in *. lia. }
  destruct (absCaptureTime_total item) as [[ntp offset] ->]. cbn [mbind option_bind].
  destruct (item_received _ _ Ha Hr) as [Hra _]. destruct (item_received _ _ Hb Hrl) as [Hrb _].
  destruct (diff_millis_total _ _ Hrb Hra) as [d1 ->]. destruct (diff_millis_total _ _ Hnow Hrb) as [d2 ->].
  cbn [mbind option_bind].
  destruct (append_loop_some item last ntp offset d1 d2 data Hdata) as (frames & -> & Hf). cbn [mbind option_bind].
  eexists _, _. split; [done|]. right. split; [done|]. split.
  { intros ->. destruct Hf as [Hf _]. by destruct data. }
  split; [|done]. unfold not_older. destruct lastTs as [t|]; [|done]. cbn in *. lia.
Qed.

Lemma items_ok_cons min x l : items_ok min (x :: l) <-> item_ok min x /\ items_ok (min + 1) l.
Proof using Type.
  split.
  - intros H. split; [by rewrite <- (Z.add_0_r min); apply (H 0%nat x)|].
    intros i y Hi _. replace (min + 1 + Z.of_nat i) with (min + Z.of_nat (S i)) by lia. by apply (H (S i) y).
  - intros [Hx Hl] [|i] y Hi _; [injection Hi as <-; by rewrite Z.add_0_r|].
    replace (min + Z.of_nat (S i)) with (min + 1 + Z.of_nat i) by lia. by apply (Hl i y).
Qed.

Lemma items_ok_drop n : forall min l, items_ok min l -> items_ok (min + Z.of_nat n) (drop n l).
Proof using Type.
  intros min l H i x Hi _. rewrite lookup_drop in Hi.
  replace (min + Z.of_nat n + Z.of_nat i) with (min + Z.of_nat (n + i)) by lia. by apply H.
Qed.

Lemma later_due_total now ts l : forall min, items_ok min l -> time_ok now -> is_Some (later_due now ts l).
Proof using Type.
  induction l as [|x l IH]; intros min H Hnow; [by eexists|]. cbn [later_due].
  apply items_ok_cons in H as [Hx Hl].
  assert (is_Some (if received x && (ts <? rtp_timestamp_ext x) then due (when_dequeue x) now else Some false)) as [b ->].
  { destruct (received x) eqn:Er; cbn [andb]; [|by eexists]. destruct (ts <? rtp_timestamp_ext x); [|by eexists].
    apply due_total; [by destruct (item_received _ _ Hx Er)|done]. }
  cbn [mbind option_bind]. destruct b; [by eexists|]. by eapply IH.
Qed.

Lemma scan_complete l : forall i n, scan l i = SComplete n ->
  exists m x, n = (i + m)%nat /\ l !! m = Some x /\ received x = true /\ kind x = End_ /\
    forall j y, (j < m)%nat -> l !! j = Some y -> received y = true /\ kind y = Middle.
Proof using Type.
  induction l as [|x l IH]; intros i n H; [done|]. cbn [scan] in H.
  destruct (received x) eqn:Er; cbn [negb] in H; [|done]. case_bool_decide as He.
  - injection H as <-. exists O, x. split; [lia|]. do 3 (split; [done|]). lia.
  - case_bool_decide as Hm; cbn [negb] in H; [|done].
    destruct (IH _ _ H) as (m & y & -> & Hy & Hry & Hky & Hbefore). exists (S m), y. split; [lia|].
    do 3 (split; [done|]). intros [|j] z Hj Hz; [by injection Hz as <-|]. apply (Hbefore j); [lia|done].
Qed.

Lemma scan_abandoned l : forall i n, scan l i = SAbandoned n -> (i <= n < i + length l)%nat.
Proof using Type.
  induction l as [|x l IH]; intros i n H; [done|]. cbn [scan] in H. cbn [length].
  destruct (received x); cbn [negb] in H; [|done]. case_bool_decide; [done|].
  case_bool_decide; cbn [negb] in H; [specialize (IH _ _ H); lia|injection H as <-; lia].
Qed.

(** *** What comes out *)

(** Frames taken from the numbers [lo .. hi): in order, never older than the last
    frame before them. *)
Record delivered (lo hi : Z) (last : option Z) (frames : list EncodedFrame) (last' : option Z) : Prop := {
  delivered_range : Forall (fun f => lo <= f_seq_ext f < hi) frames;
  delivered_seq : StronglySorted Z.le (map f_seq_ext frames);
  delivered_not_older : Forall (fun f => not_older last (f_rtp_timestamp_ext f)) frames;
  delivered_timestamp : StronglySorted Z.le (map f_rtp_timestamp_ext frames);
  delivered_last : last' = from_option (fun f => Some (f_rtp_timestamp_ext f)) last (list.last frames)
}.

(** What the buffer gives to the depacketizer at a time: a packet that is a
    frame, or all packets of one. *)
Definition group_ok (l : list JitterBufferItem) : Prop :=
  (exists x, l = [x] /\ received x = true /\ kind x = Standalone) \/
  (exists x m y, l = x :: m ++ [y] /\ Forall (fun i => received i = true) l /\ kind x = Start /\
     Forall (fun i => kind i = Middle) m /\ kind y = End_).

Fixpoint extract_all (d : D) (groups : list (list JitterBufferItem)) : option (list (list Z) * D) :=
  match groups with
  | [] => Some ([], d)
  | g :: groups =>
      '(data, d) ← dep_extract d g;
      '(more, d) ← extract_all d groups;
      Some (data ++ more, d)
  end.

(** From [q] to [q'] the frames [frames] were taken. *)
Record progress (q : queue) (frames : list EncodedFrame) (q' : queue) : Prop := {
  progress_items : items_ok (q_min q') (q_items q');
  progress_min : exists n, (n <= length (q_items q))%nat /\ q_items q' = drop n (q_items q) /\
    q_min q' = q_min q + Z.of_nat n;
  progress_delivered : delivered (q_min q) (q_min q') (q_last q) frames (q_last q');
  progress_groups : exists groups data, Forall group_ok groups /\
    (concat groups ++ q_items q') `sublist_of` q_items q /\
    extract_all (q_dep q) groups = Some (data, q_dep q') /\ map f_data frames `sublist_of` data
}.

(** What a buffer without work looks like at its low end. *)
Inductive waiting (now : Z) : list JitterBufferItem -> Prop :=
  | waiting_empty : waiting now []
  | waiting_early item rest : received item = true -> due (when_dequeue item) now = Some false ->
      waiting now (item :: rest)
  | waiting_lost item rest : received item = false -> due (when_nack_abandon item) now = Some false ->
      waiting now (item :: rest)
  | waiting_incomplete item rest : received item = true -> kind item = Start ->
      scan rest 0 = SGap -> later_due now (rtp_timestamp_ext item) rest = Some false ->
      waiting now (item :: rest).

Lemma delivered_nil lo hi last : delivered lo hi last [] last.
Proof using Type. by split; try constructor. Qed.

Lemma sorted_same (f : EncodedFrame -> Z) v frames :
  Forall (fun x => f x = v) frames -> StronglySorted Z.le (map f frames).
Proof using Type.
  induction 1 as [|x l Hx Hl IH]; cbn [map]; constructor; [done|].
  apply list.Forall_fmap. apply (list.Forall_impl _ _ _ Hl). cbn. lia.
Qed.

Lemma delivered_group lo hi last item data frames :
  frames_of item data frames -> frames <> [] -> not_older last (rtp_timestamp_ext item) ->
  lo <= seq_ext item < hi -> delivered lo hi last frames (Some (rtp_timestamp_ext item)).
Proof using Type.
  intros [_ Hf] Hne Hold Hseq.
  split; [apply (list.Forall_impl _ _ _ Hf); intros f [-> _]; lia| | | |].
  - apply (sorted_same _ (seq_ext item)). apply (list.Forall_impl _ _ _ Hf). by intros f [? _].
  - apply (list.Forall_impl _ _ _ Hf). by intros f [_ ->].
  - apply (sorted_same _ (rtp_timestamp_ext item)). apply (list.Forall_impl _ _ _ Hf). by intros f [_ ?].
  - destruct (list.last frames) as [f|] eqn:E; [|by apply list.last_None in E].
    apply list.last_Some in E as [l ->]. apply list.Forall_app in Hf as [_ Hf].
    apply list.Forall_cons in Hf as [[_ Hf] _]. cbn. by rewrite Hf.
Qed.

Lemma sorted_below_last (f : EncodedFrame -> Z) frames x y :
  StronglySorted Z.le (map f frames) -> list.last frames = Some y -> x ∈ frames -> f x <= f y.
Proof using Type.
  intros Hs Hl Hx. apply list.last_Some in Hl as [l ->]. rewrite map_app in Hs.
  apply StronglySorted_app in Hs as [Hs _]. apply elem_of_app in Hx as [Hx|Hx].
  - apply Hs; [by apply (list_elem_of_fmap_2 f)|by constructor].
  - apply list_elem_of_singleton in Hx as ->. lia.
Qed.

Lemma delivered_app lo mid hi last fs last1 gs last2 :
  lo <= mid <= hi -> delivered lo mid last fs last1 -> delivered mid hi last1 gs last2 ->
  delivered lo hi last (fs ++ gs) last2.
Proof using Type.
  intros Hlo [R1 S1 O1 T1 L1] [R2 S2 O2 T2 L2].
  assert (Forall (fun g => not_older last (f_rtp_timestamp_ext g)) gs /\
    (forall f g, f ∈ fs -> g ∈ gs -> f_rtp_timestamp_ext f <= f_rtp_timestamp_ext g)) as [HO HT].
  { destruct (list.last fs) as [y|] eqn:E; cbn in L1; subst last1.
    - cbn in O2. assert (not_older last (f_rtp_timestamp_ext y)) as Hy.
      { apply list.last_Some in E as [l ->]. apply list.Forall_app in O1 as [_ O1].
        by apply list.Forall_cons in O1 as [O1 _]. }
      split.
      + apply (list.Forall_impl _ _ _ O2). intros g Hg. unfold not_older in *. destruct last; [|done].
        cbn in *. lia.
      + intros f g Hf Hg. pose proof (sorted_below_last f_rtp_timestamp_ext fs f y T1 E Hf).
        pose proof (Forall_elem _ _ g O2 Hg) as Hyg. cbn in Hyg. lia.
    - apply list.last_None in E as ->. split; [done|]. intros f g Hf. by apply not_elem_of_nil in Hf. }
  split.
  - apply list.Forall_app. split; [apply (list.Forall_impl _ _ _ R1)|apply (list.Forall_impl _ _ _ R2)]; cbn; lia.
  - rewrite map_app. apply StronglySorted_app. split; [|done].
    intros a b Ha Hb. apply list_elem_of_fmap in Ha as (f & -> & Hf). apply list_elem_of_fmap in Hb as (g & -> & Hg).
    pose proof (Forall_elem _ _ f R1 Hf) as H1. pose proof (Forall_elem _ _ g R2 Hg) as H2. cbn in H1, H2. lia.
  - by apply list.Forall_app.
  - rewrite map_app. apply StronglySorted_app. split; [|done].
    intros a b Ha Hb. apply list_elem_of_fmap in Ha as (f & -> & Hf). apply list_elem_of_fmap in Hb as (g & -> & Hg).
    by apply HT.
  - rewrite L2, L1, list.last_app. by destruct (list.last gs).
Qed.

Lemma extract_all_app d g1 g2 :
  extract_all d (g1 ++ g2) =
  ('(a, d) ← extract_all d g1; '(b, d) ← extract_all d g2; Some (a ++ b, d)).
Proof using Type.
  revert d. induction g1 as [|g g1 IH]; intros d; cbn [app extract_all mbind option_bind].
  - by destruct (extract_all d g2) as [[b d']|].
  - destruct (dep_extract d g) as [[a d1]|]; [|done]. cbn [mbind option_bind]. rewrite IH.
    destruct (extract_all d1 g1) as [[a' d2]|]; [|done]. cbn [mbind option_bind].
    destruct (extract_all d2 g2) as [[b d3]|]; [|done]. cbn [mbind option_bind]. by rewrite app_assoc.
Qed.

Lemma progress_refl q : items_ok (q_min q) (q_items q) -> progress q [] q.
Proof using Type.
  intros H. split; [done| |apply delivered_nil|].
  - exists O. rewrite drop_0, Z.add_0_r. split; [lia|done].
  - exists [], []. split; [constructor|]. split; [done|]. split; [done|constructor].
Qed.

Lemma progress_trans q f q1 g q2 : progress q f q1 -> progress q1 g q2 -> progress q (f ++ g) q2.
Proof using Type.
  intros [I1 (n & Hn & En & Mn) D1 (gs1 & d1 & G1 & S1 & X1 & Y1)]
         [I2 (m & Hm & Em & Mm) D2 (gs2 & d2 & G2 & S2 & X2 & Y2)].
  split; [done| | |].
  - exists (n + m)%nat. rewrite Em, En, drop_drop, Mm, Mn. rewrite En, length_drop in Hm.
    split; [lia|]. split; [done|lia].
  - apply (delivered_app _ (q_min q1) _ _ _ (q_last q1)); [lia|done|done].
  - exists (gs1 ++ gs2), (d1 ++ d2). split; [by apply list.Forall_app|]. split.
    { rewrite concat_app, <- app_assoc. etransitivity; [|exact S1]. by apply sublist_app. }
    split; [rewrite extract_all_app, X1; cbn [mbind option_bind]; by rewrite X2|].
    rewrite map_app. by apply sublist_app.
Qed.

(** Items that are thrown away. *)
Lemma progress_drop q n :
  items_ok (q_min q) (q_items q) -> (n <= length (q_items q))%nat -> progress q [] (drop_items n q).
Proof using Type.
  intros H Hn. split; cbn.
  - by apply items_ok_drop.
  - by exists n.
  - apply delivered_nil.
  - exists [], []. split; [constructor|]. split; [apply sublist_drop|]. split; [done|constructor].
Qed.

(** A group at the low end. *)
Lemma take_frames_ok now q n item last :
  items_ok (q_min q) (q_items q) -> (0 < n <= length (q_items q))%nat -> time_ok now ->
  group_ok (take n (q_items q)) -> q_items q !! 0%nat = Some item -> q_items q !! (n - 1)%nat = Some last ->
  received item = true -> received last = true ->
  exists frames q', take_frames c now n item last q = Some (frames, q') /\ progress q frames q' /\
    q_items q' = drop n (q_items q).
Proof.
  intros Hok Hn Hnow Hgroup Hitem Hlast Hri Hrl. unfold take_frames.
  destruct (extract_total (q_dep q) (take n (q_items q))) as (data & d & E & Hdata).
  { intros E. apply (f_equal length) in E. rewrite length_take in E. cbn in E. lia. }
  rewrite E. cbn [mbind option_bind].
  pose proof (Hok _ _ Hitem ltac:(done)) as Hoki. pose proof (Hok _ _ Hlast ltac:(done)) as Hokl.
  destruct (next_frames_some item last now data (q_last q) Hri Hrl) as (frames & lastTs & -> & Hcases);
    [by eexists _, _|done|done|]. cbn [mbind option_bind].
  eexists _, _. split; [done|]. split; [|done].
  assert (map f_data frames `sublist_of` data /\
    delivered (q_min q) (q_min q + Z.of_nat n) (q_last q) frames lastTs) as [Hsub Hdel].
  { destruct Hcases as [(-> & -> & _)|(Hf & Hne & Hold & ->)]; [split; [apply sublist_nil_l|apply delivered_nil]|].
    split; [by destruct Hf as [-> _]|]. apply (delivered_group _ _ _ item data); [done..|].
    rewrite (item_seq _ _ Hoki). lia. }
  split; cbn; [by apply items_ok_drop|exists n; split; [lia|done]|done|].
  exists [take n (q_items q)], data. split; [by constructor|]. cbn [concat extract_all].
  rewrite app_nil_r, take_drop, E. cbn [mbind option_bind]. rewrite app_nil_r. done.
Qed.

Lemma sequence_group item rest n x :
  received item = true -> kind item = Start -> rest !! n = Some x -> received x = true -> kind x = End_ ->
  (forall j y, (j < n)%nat -> rest !! j = Some y -> received y = true /\ kind y = Middle) ->
  group_ok (take (n + 2) (item :: rest)).
Proof using Type.
  intros Hri Hki Hx Hrx Hkx Hm. right. exists item, (take n rest), x.
  assert (take (n + 2) (item :: rest) = item :: take n rest ++ [x]) as E.
  { replace (n + 2)%nat with (S (S n)) by lia. cbn [take]. by rewrite (take_S_r rest n x Hx). }
  assert (Forall (fun y => received y = true /\ kind y = Middle) (take n rest)) as HF.
  { apply list.Forall_lookup. intros j y Hj. apply lookup_take_Some in Hj as [Hj Hlt]. by apply (Hm j). }
  rewrite E. split; [done|]. split.
  { constructor; [done|]. apply list.Forall_app. split; [|by constructor].
    apply (list.Forall_impl _ _ _ HF). by intros y [? _]. }
  split; [done|]. split; [|done]. apply (list.Forall_impl _ _ _ HF). by intros y [_ ?].
Qed.

Lemma round_ok now q : items_ok (q_min q) (q_items q) -> time_ok now ->
  (round c now q = Some None /\ waiting now (q_items q)) \/
  exists frames q', round c now q = Some (Some (frames, q')) /\ progress q frames q' /\
    (length (q_items q') < length (q_items q))%nat.
Proof.
  intros Hok Hnow. unfold round. destruct (q_items q) as [|item rest] eqn:Eq; [left; split; [done|constructor]|].
  rewrite <- Eq in Hok.
  assert (exists frames q', Some (Some ([], drop_items 1 q)) = Some (Some (frames, q')) /\ progress q frames q' /\
    (length (q_items q') < S (length rest))%nat) as Hdrop.
  { exists [], (drop_items 1 q). split; [done|]. split; [apply progress_drop; [done|rewrite Eq; cbn; lia]|].
    unfold drop_items. cbn [q_items]. rewrite length_drop, Eq. cbn [length]. lia. }
  assert (q_items q !! 0%nat = Some item) as H0 by (by rewrite Eq).
  pose proof (Hok _ _ H0 ltac:(done)) as Hoki. rewrite Z.add_0_r in Hoki.
  cbn [length]. destruct (received item) eqn:Hri; cbn [negb].
  2:{ cbn [mbind option_bind]. destruct (due_total (when_nack_abandon item) now) as [b Eb];
        [apply (item_abandon _ _ Hoki)|done|]. rewrite Eb. cbn [mbind option_bind].
      destruct b; [by right|left; split; [done|by constructor]]. }
  destruct (due_total (when_dequeue item) now) as [b Eb]; [by destruct (item_received _ _ Hoki Hri)|done|].
  rewrite Eb. cbn [mbind option_bind]. destruct b; [|left; split; [done|by constructor]].
  destruct (kind item) eqn:Hki; [| |by right|by right].
  - right. destruct (take_frames_ok now q 1 item item) as (frames & q' & -> & Hp & Hd);
      [done|rewrite Eq; cbn; lia|done| |done|done|done|done|].
    { rewrite Eq. left. by exists item. }
    exists frames, q'. split; [done|]. split; [done|]. rewrite Hd, Eq, length_drop. cbn [length]. lia.
  - pose proof (scan_complete rest 0) as Hcomplete. pose proof (scan_abandoned rest 0) as Habandoned.
    destruct (scan rest 0) as [n| |n] eqn:Es.
    + destruct (Hcomplete n eq_refl) as (m & x & -> & Hx & Hrx & Hkx & Hm). cbn [Nat.add] in *. clear Hcomplete Habandoned.
      pose proof (lookup_lt_Some _ _ _ Hx) as Hlt. unfold debug_checks. rewrite Hndebug. cbn [mbind option_bind].
      rewrite Hx. cbn [default from_option id]. right.
      destruct (take_frames_ok now q (m + 2) item x) as (frames & q' & -> & Hp & Hd);
        [done|rewrite Eq; cbn; lia|done| |done| |done|done|].
      { rewrite Eq. by apply (sequence_group item rest m x). }
      { rewrite Eq. by replace (m + 2 - 1)%nat with (S m) by lia. }
      exists frames, q'. split; [done|]. split; [done|]. rewrite Hd, Eq, length_drop. cbn [length]. lia.
    + assert (items_ok (q_min q + 1) rest) as Hrest by (rewrite Eq in Hok; by apply items_ok_cons in Hok as [_ ?]).
      destruct (later_due_total now (rtp_timestamp_ext item) rest _ Hrest Hnow) as [b El].
      rewrite El. cbn [mbind option_bind]. destruct b; [by right|]. left. split; [done|]. by constructor 4.
    + right. specialize (Habandoned n eq_refl). exists [], (drop_items (n + 2) q). split; [done|].
      split; [apply progress_drop; [done|rewrite Eq; cbn; lia]|]. unfold drop_items. cbn [q_items].
      rewrite Eq, length_drop. cbn [length]. lia.
Qed.

Lemma dequeue_ok now : forall fuel q,
  items_ok (q_min q) (q_items q) -> time_ok now -> (length (q_items q) <= fuel)%nat ->
  exists frames q', dequeue c fuel now q = Some (frames, q') /\ progress q frames q' /\
    waiting now (q_items q').
Proof.
  induction fuel as [|fuel IH]; intros q Hok Hnow Hf.
  - exists [], q. split; [done|]. split; [by apply progress_refl|].
    destruct (q_items q); [constructor|cbn in Hf; lia].
  - cbn [dequeue]. destruct (round_ok now q Hok Hnow) as [[-> Hw]|(frames & q1 & -> & Hp & Hlt)];
      cbn [mbind option_bind].
    + exists [], q. split; [done|]. split; [by apply progress_refl|done].
    + destruct (IH q1) as (more & q2 & -> & Hp2 & Hw); [apply (progress_items _ _ _ Hp)|done|lia|].
      cbn [mbind option_bind]. exists (frames ++ more), q2. split; [done|]. split; [|done].
      by eapply progress_trans.
Qed.

(** *** Asking for lost packets *)

(** A lost packet nobody asked for yet. *)
Definition wanted_now (item : JitterBufferItem) : bool := negb (received item) && nack_needed item.

Lemma asked_ok seq item : item_ok seq item -> item_ok seq (asked item).
Proof using Type. intros []. by split. Qed.

(** The requests go over the items [take n l]. *)
Lemma nacks_ok now l : forall min, items_ok min l -> time_ok now ->
  exists n seqs l', nacks now l = Some (seqs, l') /\ items_ok min l' /\ (n <= length l)%nat /\
    (n = length l \/ exists x, l !! n = Some x /\ due (when_nack_request x) now = Some false /\
                               due (when_nack_abandon x) now = Some true) /\
    l' = map (fun x => if bool_decide (due (when_nack_request x) now = Some true) && wanted_now x
                       then asked x else x) (take n l) ++ drop n l /\
    seqs = map (fun x => u16 (seq_ext x))
             (base.filter (fun x => due (when_nack_request x) now = Some true /\ wanted_now x = true) (take n l)).
Proof using Type.
  induction l as [|x l IH]; intros min Hok Hnow.
  { exists O, [], []. split; [done|]. split; [done|]. split; [done|]. split; [by left|done]. }
  apply items_ok_cons in Hok as [Hx Hl]. cbn [nacks].
  destruct (due_total (when_nack_request x) now (item_request _ _ Hx) Hnow) as [r Er].
  destruct (due_total (when_nack_abandon x) now (item_abandon _ _ Hx) Hnow) as [a Ea].
  destruct (IH _ Hl Hnow) as (n & seqs & l' & E & Hl' & Hn & Hstop & El & Es).
  assert (forall x', item_ok min x' -> items_ok min (x' :: l')) as Hcons
    by (intros x' Hx'; by apply items_ok_cons).
  rewrite Er. cbn [mbind option_bind]. destruct r.
  - rewrite E. cbn [mbind option_bind]. exists (S n).
    exists (if wanted_now x then u16 (seq_ext x) :: seqs else seqs),
           (if wanted_now x then asked x :: l' else x :: l').
    split; [unfold wanted_now; by destruct (negb (received x) && nack_needed x)|].
    split; [destruct (wanted_now x); apply Hcons; [by apply asked_ok|done]|].
    split; [cbn [length]; lia|].
    split; [destruct Hstop as [->|Hstop]; [by left|by right]|].
    cbn [take drop map app]. rewrite Er, (bool_decide_true (Some true = Some true)) by done. cbn [andb]. split.
    + destruct (wanted_now x); by rewrite El.
    + destruct (wanted_now x) eqn:Ew.
      * rewrite list.filter_cons_True by done. cbn [map]. by rewrite Es.
      * rewrite list.filter_cons_False by (rewrite Ew; intuition congruence). done.
  - rewrite Ea. cbn [mbind option_bind]. destruct a.
    + exists O, [], (x :: l). split; [done|]. split; [by apply items_ok_cons|]. split; [lia|].
      split; [right; by exists x|done].
    + rewrite E. cbn [mbind option_bind]. exists (S n), seqs, (x :: l'). split; [done|]. split; [by apply Hcons|].
      split; [cbn [length]; lia|].
      split; [destruct Hstop as [->|Hstop]; [by left|by right]|].
      cbn [take drop map app]. rewrite Er, (bool_decide_false (Some false = Some true)) by done. cbn [andb].
      rewrite list.filter_cons_False by (rewrite Er; intuition congruence). split; [by rewrite El|done].
Qed.

Lemma nacks_again now : forall l seqs l', nacks now l = Some (seqs, l') -> nacks now l' = Some ([], l').
Proof using Type.
  induction l as [|x l IH]; intros seqs l' H; cbn [nacks] in H; [by injection H as <- <-|].
  apply bind_Some_inv in H as (r & Er & H). destruct r.
  - apply bind_Some_inv in H as ([s1 l1] & E1 & H). apply IH in E1.
    destruct (negb (received x) && nack_needed x) eqn:Ew; injection H as <- <-; cbn [nacks].
    + cbn [when_nack_request asked received nack_needed]. rewrite Er. cbn [mbind option_bind].
      rewrite E1. cbn [mbind option_bind]. by rewrite andb_false_r.
    + rewrite Er. cbn [mbind option_bind]. rewrite E1. cbn [mbind option_bind]. by rewrite Ew.
  - apply bind_Some_inv in H as (a & Ea & H). destruct a.
    + injection H as <- <-. cbn [nacks]. rewrite Er. cbn [mbind option_bind]. by rewrite Ea.
    + apply bind_Some_inv in H as ([s1 l1] & E1 & [= <- <-]). apply IH in E1. cbn [nacks].
      rewrite Er. cbn [mbind option_bind]. rewrite Ea. cbn [mbind option_bind]. by rewrite E1.
Qed.

Lemma nack_loop_refines now : forall l items min i,
  ring c k items min l -> (i <= length l)%nat -> 0 <= min -> min + Z.of_nat (length l) < 2 ^ 63 ->
  match nacks now (drop i l) with
  | None => nack_loop c (length l - i) now (min + Z.of_nat i) items = None
  | Some (seqs, l') => exists items', nack_loop c (length l - i) now (min + Z.of_nat i) items = Some (seqs, items') /\
      ring c k items' min (take i l ++ l')
  end.
Proof.
  intros l items min i. remember (length l - i)%nat as n eqn:En. revert l items i En.
  induction n as [|n IH]; intros l items i En Hr Hi Hmin Hmax.
  - rewrite drop_ge by lia. cbn [nacks nack_loop]. exists items. rewrite app_nil_r, take_ge by lia. done.
  - destruct (lookup_lt_is_Some_2 l i) as [x Hx]; [lia|]. rewrite (drop_S l x i Hx). cbn [nacks nack_loop].
    rewrite (ring_at c k Hk Hcap items min l) by (done || lia). rewrite Nat2Z.id, Hx. cbn [mbind option_bind].
    rewrite u64_small by (unfold is_u64; lia).
    replace (min + Z.of_nat i + 1) with (min + Z.of_nat (S i)) by lia.
    assert (take (S i) l = take i l ++ [x]) as Etake by (by apply take_S_r).
    destruct (due (when_nack_request x) now) as [[|]|]; cbn [mbind option_bind]; [| |done].
    + pose proof (ring_insert c k Hk Hcap items min l i (asked x) Hr ltac:(lia)) as Hr'.
      pose proof (IH l items (S i) ltac:(lia) Hr ltac:(lia) Hmin Hmax) as H1.
      pose proof (IH (<[i:=asked x]> l) _ (S i) ltac:(rewrite length_insert; lia) Hr'
        ltac:(rewrite length_insert; lia) Hmin ltac:(rewrite length_insert; lia)) as H2.
      rewrite drop_insert_lt in H2 by lia.
      assert (take (S i) (<[i:=asked x]> l) = take i l ++ [asked x]) as Etake2.
      { rewrite (take_S_r _ i (asked x)) by (apply list_lookup_insert_eq; lia). by rewrite take_insert_ge by lia. }
      rewrite Etake in H1. rewrite Etake2 in H2.
      destruct (nacks now (drop (S i) l)) as [[seqs l']|]; cbn [mbind option_bind].
      * destruct (negb (received x) && nack_needed x).
        -- destruct H2 as (items' & -> & Hr2). cbn [mbind option_bind]. exists items'. split; [done|].
           by rewrite <- app_assoc in Hr2.
        -- destruct H1 as (items' & -> & Hr1). exists items'. split; [done|]. by rewrite <- app_assoc in Hr1.
      * destruct (negb (received x) && nack_needed x); [by rewrite H2|done].
    + destruct (due (when_nack_abandon x) now) as [[|]|]; cbn [mbind option_bind]; [| |done].
      * exists items. split; [done|]. rewrite <- (drop_S l x i Hx). by rewrite take_drop.
      * pose proof (IH l items (S i) ltac:(lia) Hr ltac:(lia) Hmin Hmax) as H1. rewrite Etake in H1.
        destruct (nacks now (drop (S i) l)) as [[seqs l']|]; cbn [mbind option_bind]; [|done].
        destruct H1 as (items' & -> & Hr1). exists items'. split; [done|]. by rewrite <- app_assoc in Hr1.
Qed.

(** *** Timeouts *)

Lemma first_of_total x (v : option Z) : is_Some v ->
  exists y, first_of x v = Some y /\ (forall d, x = Some d -> y = Some d) /\ (x = None -> y = v).
Proof using Type. intros [d ->]. destruct x as [e|]; eexists; (split; [done|]); by split. Qed.

(** A value that was found stays. *)
Definition keeps (w w' : wanted) : Prop :=
  (forall d, w_request w = Some d -> w_request w' = Some d) /\
  (forall d, w_abandon w = Some d -> w_abandon w' = Some d) /\
  (forall d, w_dequeue w = Some d -> w_dequeue w' = Some d).

Lemma look_total now seq item w : item_ok seq item -> time_ok now ->
  exists w', look now item w = Some w' /\ keeps w w' /\
    (received item = true -> w_dequeue w = None -> w_dequeue w' = diff_millis (when_dequeue item) now) /\
    (received item = false -> w_abandon w = None -> w_abandon w' = diff_millis (when_nack_abandon item) now).
Proof using Type.
  intros Hi Hnow. unfold look, keeps. destruct (received item) eqn:Er.
  - destruct (first_of_total (w_dequeue w) (diff_millis (when_dequeue item) now)) as (y & -> & H1 & H2).
    { apply diff_millis_total; [by destruct (item_received _ _ Hi Er)|done]. }
    cbn [mbind option_bind]. eexists. split; [done|]. cbn. split_and!; try done; intros _ ?; by apply H2.
  - destruct (first_of_total (w_request w) (diff_millis (when_nack_request item) now)) as (y & Ey & H1 & _).
    { apply diff_millis_total; [apply (item_request _ _ Hi)|done]. }
    destruct (first_of_total (w_abandon w) (diff_millis (when_nack_abandon item) now)) as (z & Ez & H3 & H4).
    { apply diff_millis_total; [apply (item_abandon _ _ Hi)|done]. }
    rewrite Ey. destruct (nack_needed item); cbn [mbind option_bind]; rewrite Ez; cbn [mbind option_bind];
      (eexists; split; [done|]; cbn; split_and!; try done; intros _ ?; by apply H4).
Qed.

Lemma keeps_trans w1 w2 w3 : keeps w1 w2 -> keeps w2 w3 -> keeps w1 w3.
Proof using Type. unfold keeps. naive_solver. Qed.

Lemma timeout_loop_total now cutoff items min l n : forall i w,
  ring c k items min l -> items_ok min l -> time_ok now -> 0 <= min ->
  min + Z.of_nat (length l) < 2 ^ 63 -> (i + n = length l)%nat ->
  exists w', timeout_loop c n items now cutoff (min + Z.of_nat i) w = Some w' /\ keeps w w'.
Proof.
  induction n as [|n IH]; intros i w Hr Hok Hnow Hmin Hmax Hi; [by exists w|].
  destruct (lookup_lt_is_Some_2 l i) as [x Hx]; [lia|]. cbn [timeout_loop].
  rewrite (ring_at c k Hk Hcap items min l) by (done || lia). rewrite Nat2Z.id, Hx. cbn [mbind option_bind].
  destruct (look_total now _ x w (Hok _ _ Hx ltac:(done)) Hnow) as (w1 & -> & Hk1 & _). cbn [mbind option_bind].
  case_match; [by exists w1|]. case_match; [by exists w1|].
  rewrite u64_small by (unfold is_u64; lia).
  replace (min + Z.of_nat i + 1) with (min + Z.of_nat (S i)) by lia.
  destruct (IH (S i) w1) as (w2 & -> & Hk2); [done..|lia|]. exists w2. split; [done|]. by eapply keeps_trans.
Qed.

(** What the first item contributes is still there at the end. *)
Lemma timeout_loop_first now cutoff items min x rest w :
  ring c k items min (x :: rest) -> items_ok min (x :: rest) -> time_ok now -> 0 <= min ->
  min + Z.of_nat (S (length rest)) < 2 ^ 63 ->
  exists w', timeout_loop c (S (length rest)) items now cutoff min w = Some w' /\
    (received x = true -> w_dequeue w = None -> w_dequeue w' = diff_millis (when_dequeue x) now) /\
    (received x = false -> w_abandon w = None -> w_abandon w' = diff_millis (when_nack_abandon x) now).
Proof.
  intros Hr Hok Hnow Hmin Hmax. cbn [timeout_loop].
  pose proof (ring_at c k Hk Hcap items min (x :: rest) 0 Hr ltac:(cbn [length]; lia)) as E.
  rewrite Z.add_0_r in E. rewrite E. change (Z.to_nat 0) with O. cbn [lookup list_lookup mbind option_bind].
  pose proof (Hok 0%nat x eq_refl ltac:(done)) as Hx.
  destruct (look_total now _ x w Hx Hnow) as (w1 & -> & _ & Hd & Ha). cbn [mbind option_bind].
  case_match; [by exists w1|]. case_match; [by exists w1|].
  rewrite u64_small by (unfold is_u64; lia).
  replace (min + 1) with (min + Z.of_nat 1) by lia.
  destruct (timeout_loop_total now cutoff items min (x :: rest) (length rest) 1 w1) as (w2 & -> & _ & Hk2 & Hk3);
    [done..|cbn [length]; lia|]. exists w2. split; [done|].
  split; intros Hrec Hnone.
  - rewrite (Hd Hrec Hnone) in Hk3. destruct (item_received _ _ Hx Hrec) as [_ Ht].
    destruct (diff_millis_total _ _ Ht Hnow) as [d Ed]. rewrite Ed in *. by apply Hk3.
  - rewrite (Ha Hrec Hnone) in Hk2.
    destruct (diff_millis_total _ _ (item_abandon _ _ Hx) Hnow) as [d Ed]. rewrite Ed in *. by apply Hk2.
Qed.

Lemma shorter_le t x : shorter t x <= t /\ forall d, x = Some d -> shorter t x <= d.
Proof using Type.
  unfold shorter. destruct x as [v|]; [|by split; [lia|]].
  destruct (Z.ltb_spec v t); split; [lia|by intros ? [= <-]|lia|by intros ? [= <-]; lia].
Qed.

Lemma shortest_le t w :
  let r := shorter (shorter (shorter t (w_request w)) (w_abandon w)) (w_dequeue w) in
  r <= t /\ (forall d, w_abandon w = Some d -> r <= d) /\ (forall d, w_dequeue w = Some d -> r <= d).
Proof using Type.
  cbv zeta. destruct (shorter_le t (w_request w)) as [H1 _].
  destruct (shorter_le (shorter t (w_request w)) (w_abandon w)) as [H2 H2'].
  destruct (shorter_le (shorter (shorter t (w_request w)) (w_abandon w)) (w_dequeue w)) as [H3 H3'].
  split; [lia|]. split; [|done]. intros d Hd. specialize (H2' d Hd). lia.
Qed.

End Depacketizer.
End WellFormed.

(** ** Properties *)

Section Properties.
Import Ring Queue Refinement WellFormed.
Context {D : Type} `{!Depacketizer D} (c : config) (k : Z).

Notation state := (@JitterBuffer.state D).
Notation queue := (@Queue.queue D).

Lemma processDeque_loop (s : state) q now :
  refines c k s q ->
  JitterBuffer.processDeque c now s = dequeue_loop c (length (q_items q)) now [] s.
Proof.
  intros H. unfold JitterBuffer.processDeque. destruct (r_ring _ _ _ _ H) as (items & -> & _).
  pose proof (r_max _ _ _ _ H) as Hmax. pose proof (r_min _ _ _ _ H) as Hmin.
  replace (Z.to_nat (mMaxSeq s - mMinSeq s)) with (length (q_items q)) by lia.
  destruct (Z.eqb_spec (mMinSeq s) (mMaxSeq s)); [|done].
  destruct (q_items q); [|cbn [length] in Hmax; lia]. cbn [length dequeue_loop].
  by destruct (Z.ltb_spec (mMinSeq s) (mMaxSeq s)); [lia|].
Qed.

(** C4: the slots, the index mask and the loops of the jitter buffer implement a
    plain queue of packets: taking frames out of the buffer gives what the queue
    gives, item by item, stops where the queue stops and leaves a buffer that
    again represents the queue; no slot is lost or read through a null pointer. *)
Theorem deque_refines_queue (s : state) q now :
  config_ok c k -> refines c k s q ->
  match Queue.processDeque c now q with
  | None => JitterBuffer.processDeque c now s = None
  | Some (frames, q') => exists s', JitterBuffer.processDeque c now s = Some (frames, s') /\ refines c k s' q'
  end.
Proof.
  intros Hc H. rewrite (processDeque_loop s q now H). unfold Queue.processDeque.
  exact (dequeue_loop_refines c k (config_k _ _ Hc) (config_capacity _ _ Hc) now (length (q_items q)) s q [] H ltac:(lia)).
Qed.

(** The fields that only packets change. *)
Definition arrival (s : state) :=
  (mLastPacketTime s, mExtValueSeq s, mExtValueRtpTimestamp s, mBaseTime s, mBaseRtpTimestamp s).

Lemma appendToResult_arrival result item last now data (s : state) r s' :
  appendToResult c result item last now data s = Some (r, s') -> arrival s' = arrival s.
Proof. unfold appendToResult. intros H. apply bind_Some_inv in H as ([? ?] & _ & [= _ <-]). done. Qed.

Lemma extract_arrival packets (s : state) r s' : extract packets s = Some (r, s') -> arrival s' = arrival s.
Proof. unfold extract. intros H. apply bind_Some_inv in H as ([? ?] & _ & [= _ <-]). done. Qed.

Lemma sequence_loop_arrival n items seq (s : state) r s' :
  sequence_loop c n items seq s = Some (r, s') -> arrival s' = arrival s.
Proof.
  revert seq. induction n as [|n IH]; intros seq H; cbn [sequence_loop] in H; [by injection H as _ <-|].
  apply bind_Some_inv in H as (item & _ & H).
  destruct (negb (received item)); [by injection H as _ <-|].
  destruct (bool_decide (kind item = End_)); [by injection H as _ <-|].
  destruct (negb (bool_decide (kind item = Middle))); [|by eapply IH].
  apply bind_Some_inv in H as (items' & _ & [= _ <-]). done.
Qed.

Lemma round_arrival now items result (s : state) b r s' :
  dequeue_round c now items result s = Some (b, r, s') -> arrival s' = arrival s.
Proof.
  unfold dequeue_round. intros H. apply bind_Some_inv in H as (item & _ & H).
  apply bind_Some_inv in H as ([|] & _ & H).
  2:{ apply bind_Some_inv in H as ([|] & _ & H); by injection H as _ _ <-. }
  destruct (kind item); [| |by injection H as _ _ <-|by injection H as _ _ <-].
  - apply bind_Some_inv in H as ([r1 s1] & H1 & [= _ _ <-]). unfold take_standalone in H1.
    apply bind_Some_inv in H1 as ([f s2] & H2 & H1). apply bind_Some_inv in H1 as ([r2 s3] & H3 & [= _ <-]).
    apply extract_arrival in H2. apply appendToResult_arrival in H3. rewrite <- H2, <- H3. done.
  - apply bind_Some_inv in H as ([r1 s1] & H1 & H). unfold findMultiPacketSequence in H1.
    apply bind_Some_inv in H1 as (? & _ & H1). apply sequence_loop_arrival in H1. rewrite <- H1.
    destruct r1 as [maxSeq| |]; [| |by injection H as _ _ <-].
    + apply bind_Some_inv in H as ([r2 s2] & H2 & [= _ _ <-]). unfold take_sequence in H2.
      apply bind_Some_inv in H2 as (packets & _ & H2). apply bind_Some_inv in H2 as (? & _ & H2).
      apply bind_Some_inv in H2 as ([f s3] & H3 & H2). apply bind_Some_inv in H2 as (maxItem & _ & H2).
      apply bind_Some_inv in H2 as ([r3 s4] & H4 & H2). apply bind_Some_inv in H2 as (items' & _ & [= _ <-]).
      apply extract_arrival in H3. apply appendToResult_arrival in H4. rewrite <- H3, <- H4. done.
    + apply bind_Some_inv in H as ([|] & _ & H); by injection H as _ _ <-.
Qed.

Lemma dequeue_arrival now fuel : forall (s : state) result r s',
  dequeue_loop c fuel now result s = Some (r, s') -> arrival s' = arrival s.
Proof.
  induction fuel as [|fuel IH]; intros s result r s' H; cbn [dequeue_loop] in H;
    (destruct (mMinSeq s <? mMaxSeq s); [|by injection H as _ <-]); [done|].
  apply bind_Some_inv in H as (items & _ & H). apply bind_Some_inv in H as ([[stop r1] s1] & H1 & H).
  apply round_arrival in H1. rewrite <- H1. destruct stop; [by injection H as _ <-|]. by eapply IH.
Qed.

Lemma arrival_wf (s s' : state) q q' :
  arrival s' = arrival s -> wf c k s -> window_ok c k s q -> refines c k s' q' ->
  items_ok (q_min q') (q_items q') -> wf c k s' /\ window_ok c k s' q'.
Proof.
  unfold arrival. intros [= E1 E2 E3 E4 E5] [Hw1 Hw2 _] [_ _ Hl Hb] Hr Hi.
  assert (window_ok c k s' q') as Hw by (split; rewrite ?E1, ?E4, ?E5; done).
  split; [|done]. split; [by rewrite E2|by rewrite E3|]. right. by exists q'.
Qed.

Definition depacketizer_total : Prop :=
  (forall (d : D) pl m, is_Some (dep_getPacketKind d pl m)) /\
  (forall (d : D) l, l <> [] ->
     exists frames d', dep_extract d l = Some (frames, d') /\ Forall (fun f => f <> []) frames).

Lemma deque_ok (s : state) q now :
  config_ok c k -> depacketizer_total -> NDEBUG c = true -> wf c k s -> window_ok c k s q -> 0 <= now < 2 ^ 60 ->
  exists frames s' q', JitterBuffer.processDeque c now s = Some (frames, s') /\ wf c k s' /\ window_ok c k s' q' /\
    progress q frames q' /\ waiting now (q_items q').
Proof.
  intros Hc [Hkinds Hextract] Hn Hwf Hwin Hnow. pose proof Hwin as [Hr Hi _ _].
  rewrite (processDeque_loop s q now Hr).
  destruct (dequeue_ok c k Hc Hkinds Hextract Hn now (length (q_items q)) q Hi (now_ok now Hnow) ltac:(lia))
    as (frames & q' & E & Hp & Hwait).
  pose proof (dequeue_loop_refines c k (config_k _ _ Hc) (config_capacity _ _ Hc) now (length (q_items q)) s q []
    Hr ltac:(lia)) as H. rewrite E in H. destruct H as (s' & Es & Hr').
  exists frames, s', q'. split; [exact Es|].
  pose proof (dequeue_arrival now _ s [] frames s' Es) as Ha.
  destruct (arrival_wf s s' q q' Ha Hwf Hwin Hr' (progress_items _ _ _ Hp)). done.
Qed.

Lemma nack_ok (s : state) q now :
  config_ok c k -> depacketizer_total -> NDEBUG c = true -> wf c k s -> window_ok c k s q -> 0 <= now < 2 ^ 60 ->
  Track.mHasNack (mTrack c) = true ->
  exists seqs l s', processNack c now s = Some (seqs, s') /\ nacks now (q_items q) = Some (seqs, l) /\
    wf c k s' /\ window_ok c k s' (mkQ (q_dep q) (q_min q) l (q_last q)).
Proof.
  intros Hc [Hkinds Hextract] Hn Hwf Hwin Hnow Hnack. pose proof Hwin as [Hr Hi _ _].
  destruct (nacks_ok now (q_items q) _ Hi (now_ok now Hnow)) as (n & seqs & l & E & Hl & _ & _ & El & _).
  destruct (r_ring _ _ _ _ Hr) as (items & Hitems & Hring).
  pose proof (r_max _ _ _ _ Hr) as Hmax. pose proof (r_min _ _ _ _ Hr) as Hmin. pose proof (r_range _ _ _ _ Hr) as Hrange.
  assert (length l = length (q_items q)) as Hlen.
  { by rewrite El, length_app, length_map, <- length_app, take_drop. }
  unfold processNack. rewrite Hitems, Hnack. cbn [negb]. rewrite orb_false_r.
  destruct (Z.eqb_spec (mMinSeq s) (mMaxSeq s)) as [He|He].
  - assert (q_items q = []) as Eq by (destruct (q_items q); [done|cbn [length] in Hmax; lia]).
    rewrite Eq in E. injection E as <- <-.
    exists [], [], s. split; [done|]. split; [by rewrite Eq|]. split; [done|]. destruct q. cbn in *. by subst.
  - pose proof (nack_loop_refines c k Hc Hkinds Hextract Hn now (q_items q) items (q_min q) 0 Hring
      ltac:(lia) ltac:(lia) ltac:(lia)) as H.
    rewrite drop_0, Nat.sub_0_r, Z.add_0_r, E in H. destruct H as (items' & E' & Hring').
    replace (Z.to_nat (mMaxSeq s - mMinSeq s)) with (length (q_items q)) by lia. rewrite Hmin, E'.
    cbn [mbind option_bind]. exists seqs, l, (set_window s items' (q_min q) (mMaxSeq s)).
    split; [by rewrite <- Hmin|]. split; [done|].
    apply (arrival_wf s _ q); [done|done|done| |done]. cbn [take app] in Hring'.
    destruct Hr. split; cbn; try done; [by rewrite Hlen|by exists items'|lia].
Qed.

Lemma timeout_ok (s : state) q now default :
  config_ok c k -> depacketizer_total -> NDEBUG c = true -> window_ok c k s q -> 0 <= now < 2 ^ 60 ->
  0 <= default < 2 ^ 30 ->
  exists t, getTimeoutMillis c now default s = Some t /\ t <= default /\
    match q_items q with
    | [] => True
    | x :: _ =>
        (received x = true -> forall d, diff_millis (when_dequeue x) now = Some d -> t <= d) /\
        (received x = false -> Track.mHasNack (mTrack c) = true ->
           forall d, diff_millis (when_nack_abandon x) now = Some d -> t <= d)
    end.
Proof.
  intros Hc [Hkinds Hextract] Hn Hwin Hnow Hdef. pose proof Hwin as [Hr Hi _ _].
  destruct (r_ring _ _ _ _ Hr) as (items & Hitems & Hring).
  pose proof (r_max _ _ _ _ Hr) as Hmax. pose proof (r_min _ _ _ _ Hr) as Hmin. pose proof (r_range _ _ _ _ Hr) as Hrange.
  unfold getTimeoutMillis. rewrite Hitems, add_millis_some by lia. cbn [mbind option_bind].
  replace (Z.to_nat (mMaxSeq s - mMinSeq s)) with (length (q_items q)) by lia. rewrite Hmin.
  set (off := if negb _ then _ else _). set (w := mkWanted off off None). set (cutoff := now + default * 1000000).
  destruct (q_items q) as [|x rest] eqn:Eq.
  - cbn [length timeout_loop mbind option_bind]. eexists. split; [done|]. split; [|done].
    destruct (shortest_le default w) as [H _]. exact H.
  - cbn [length] in Hmax.
    destruct (timeout_loop_first c k Hc Hkinds Hextract Hn now cutoff items (q_min q) x rest w Hring Hi
      (now_ok now Hnow) ltac:(lia) ltac:(lia)) as (w' & E & H1 & H2).
    cbn [length]. rewrite E. cbn [mbind option_bind].
    destruct (shortest_le default w') as (Hle & Ha & Hd). eexists. split; [done|]. split; [done|]. split.
    + intros Hrec d Ed. apply Hd. by rewrite H1.
    + intros Hrec Hnack d Ed. apply Ha. rewrite H2; [done..|]. unfold w, off. by rewrite Hnack.
Qed.

(** *** Histories *)

Inductive op :=
  | Consume (now : Z) (packet : RtpPacket.t)
  | Deque (now : Z)
  | Nack (now : Z)
  | Timeout (now default : Z).

Definition run (o : op) (s : state) : option state :=
  match o with
  | Consume now packet => consume c now packet s
  | Deque now => '(_, s) ← JitterBuffer.processDeque c now s; Some s
  | Nack now => '(_, s) ← processNack c now s; Some s
  | Timeout now default => _ ← getTimeoutMillis c now default s; Some s
  end.

(** The clock is below 2^60 ns (36 years after its start), packets are parsed
    ones, and not of the two kinds that stop the buffer. *)
Definition op_ok (o : op) (s : state) : Prop :=
  match o with
  | Consume now packet =>
      0 <= now < 2 ^ 60 /\ packet_ok packet /\ counters_ok s /\ admissible c k now packet s
  | Deque now | Nack now => 0 <= now < 2 ^ 60
  | Timeout now default => 0 <= now < 2 ^ 60 /\ 0 <= default < 2 ^ 30
  end.

Inductive reachable (d : D) : state -> Prop :=
  | reachable_make s : JitterBuffer.make c d = Some s -> reachable d s
  | reachable_step s o s' : reachable d s -> op_ok o s -> run o s = Some s' -> reachable d s'.

Lemma empty_deque (s : state) now : mItemList s = None -> JitterBuffer.processDeque c now s = Some ([], s).
Proof. intros H. unfold JitterBuffer.processDeque. by rewrite H. Qed.

Lemma run_ok (s : state) o :
  config_ok c k -> depacketizer_total -> NDEBUG c = true -> wf c k s -> op_ok o s ->
  exists s', run o s = Some s' /\ wf c k s'.
Proof.
  intros Hc Ht Hn Hwf Ho. destruct o as [now packet|now|now|now default]; cbn [run op_ok] in *.
  - destruct Ho as (Hnow & Hp & Hcount & Hadm). destruct Ht as [Hkinds _].
    by apply (consume_ok c k Hc Hkinds).
  - destruct (wf_window _ _ _ Hwf) as [He|[q Hq]].
    { rewrite empty_deque by done. by exists s. }
    destruct (deque_ok s q now Hc Ht Hn Hwf Hq Ho) as (frames & s' & q' & -> & Hwf' & _). by exists s'.
  - destruct (wf_window _ _ _ Hwf) as [He|[q Hq]].
    { unfold processNack. rewrite He. by exists s. }
    destruct (Track.mHasNack (mTrack c)) eqn:Hnack.
    + destruct (nack_ok s q now Hc Ht Hn Hwf Hq Ho Hnack) as (seqs & l & s' & -> & _ & Hwf' & _). by exists s'.
    + unfold processNack. rewrite Hnack. cbn [negb]. rewrite orb_true_r. destruct (mItemList s); by exists s.
  - destruct Ho as [Hnow Hd]. destruct (wf_window _ _ _ Hwf) as [He|[q Hq]].
    { unfold getTimeoutMillis. rewrite He. by exists s. }
    destruct (timeout_ok s q now default Hc Ht Hn Hq Hnow Hd) as (t & -> & _). by exists s.
Qed.

Lemma make_wf (d : D) (s : state) : JitterBuffer.make c d = Some s -> wf c k s.
Proof.
  unfold JitterBuffer.make. intros H. apply bind_Some_inv in H as (? & _ & [= <-]).
  split; [apply ExtendedValue.ext_ok_make|apply ExtendedValue.ext_ok_make|by left].
Qed.

(** C7: whatever packets arrive and however adding them, taking frames, asking
    for lost packets and computing timeouts interleave, the buffer stays
    well-formed (each slot of the window holds the item of its number, no other
    slot is used, all times are sane) and no operation on it can fail an
    assertion, read a null slot or overflow, as long as no packet is older than
    the first one or falls exactly on the slot behind a full window, and the
    depacketizer itself does not stop.  The build is one with NDEBUG: the debug
    checks in processDeque that ask the depacketizer for the kinds of the packets
    again are left out; the other assertions are not. *)
Theorem buffer_safe (d : D) (s : state) :
  config_ok c k -> depacketizer_total -> NDEBUG c = true -> reachable d s ->
  wf c k s /\ forall o, op_ok o s -> is_Some (run o s).
Proof.
  intros Hc Ht Hn H. assert (wf c k s) as Hwf.
  { induction H as [s Hs|s o s' _ IH Ho Hrun]; [by eapply make_wf|].
    destruct (run_ok s o Hc Ht Hn IH Ho) as (s'' & E & Hw). congruence. }
  split; [done|]. intros o Ho. destruct (run_ok s o Hc Ht Hn Hwf Ho) as (s' & E & _). by exists s'.
Qed.

(** C13: with a depacketizer that stops on no input (VP8's and VP9's do not, those
    of H.264, H.265 and AV1 can) and in a build with NDEBUG, taking frames out
    ends, gives frames in the order of their packets, with
    timestamps that never go back, not even behind those of earlier calls; the
    depacketizer is given, in order, only packets that are complete frames, none
    twice, and every frame is an output of it; and it is only left with work it
    cannot do yet: the first packet is not due, a lost one may still be asked
    for, or the frame is incomplete and no later one is due. *)
Theorem deque_delivers (s : state) q now :
  config_ok c k -> depacketizer_total -> NDEBUG c = true -> wf c k s -> window_ok c k s q -> 0 <= now < 2 ^ 60 ->
  exists frames s' q', JitterBuffer.processDeque c now s = Some (frames, s') /\ window_ok c k s' q' /\
    delivered (q_min q) (q_min q') (mLastFrameTimeStamp s) frames (mLastFrameTimeStamp s') /\
    (exists groups data, Forall group_ok groups /\ (concat groups ++ q_items q') `sublist_of` q_items q /\
       extract_all (mDepacketizer s) groups = Some (data, mDepacketizer s') /\
       map f_data frames `sublist_of` data) /\
    waiting now (q_items q').
Proof.
  intros Hc Ht Hn Hwf Hwin Hnow.
  destruct (deque_ok s q now Hc Ht Hn Hwf Hwin Hnow) as (frames & s' & q' & E & _ & Hwin' & [_ _ Hd Hg] & Hwait).
  exists frames, s', q'. split; [done|]. split; [done|].
  pose proof (window_refines _ _ _ _ Hwin) as [Hdep _ _ Hlast _ _].
  pose proof (window_refines _ _ _ _ Hwin') as [Hdep' _ _ Hlast' _ _].
  rewrite Hlast, Hlast', Hdep, Hdep'. done.
Qed.

(** C16: asking for lost packets gives exactly the numbers of the packets that are
    missing, due and not asked for yet, from the low end up to the first packet
    that is given up before it is due; asking again at the same time gives
    nothing. *)
Theorem nack_exact (s : state) q now :
  config_ok c k -> depacketizer_total -> NDEBUG c = true -> wf c k s -> window_ok c k s q -> 0 <= now < 2 ^ 60 ->
  Track.mHasNack (mTrack c) = true ->
  exists seqs s' n, processNack c now s = Some (seqs, s') /\ wf c k s' /\
    seqs = map (fun x => u16 (seq_ext x))
             (base.filter (fun x => due (when_nack_request x) now = Some true /\ wanted_now x = true)
                          (take n (q_items q))) /\
    (n = length (q_items q) \/ exists x, q_items q !! n = Some x /\
       due (when_nack_request x) now = Some false /\ due (when_nack_abandon x) now = Some true) /\
    exists s'', processNack c now s' = Some ([], s'').
Proof.
  intros Hc Ht Hn Hwf Hwin Hnow Hnack. pose proof Hwin as [_ Hi _ _].
  destruct (nack_ok s q now Hc Ht Hn Hwf Hwin Hnow Hnack) as (seqs & l & s' & E & El & Hwf' & Hwin').
  destruct (nacks_ok now (q_items q) _ Hi (now_ok now Hnow)) as (n & seqs1 & l1 & E1 & _ & Hlen & Hstop & El1 & Es1).
  rewrite El in E1. injection E1 as <- <-.
  exists seqs, s', n. split; [done|]. split; [done|]. split; [done|]. split; [done|].
  destruct (nack_ok s' _ now Hc Ht Hn Hwf' Hwin' Hnow Hnack) as (seqs2 & l2 & s2 & E2 & El2 & _).
  cbn [q_items] in El2. rewrite (nacks_again _ _ _ _ El) in El2. injection El2 as <- <-. by exists s2.
Qed.

(** a positive timeout is a promise that there is nothing to do: on a track
    with NACK, a buffer that asks to be woken up in [t > 0] milliseconds gives no
    frames at this time and does not change.  (Without NACK a fixed wait is taken
    for a lost packet, also when it is time to drop it.) *)
Theorem timeout_no_missed_work (s : state) q now default :
  config_ok c k -> depacketizer_total -> NDEBUG c = true -> window_ok c k s q -> 0 <= now < 2 ^ 60 ->
  0 <= default < 2 ^ 30 -> Track.mHasNack (mTrack c) = true ->
  exists t, getTimeoutMillis c now default s = Some t /\ t <= default /\
    (0 < t -> JitterBuffer.processDeque c now s = Some ([], s)).
Proof.
  intros Hc Ht Hn Hwin Hnow Hdef Hnack. pose proof Hwin as [Hr Hi _ _].
  destruct (timeout_ok s q now default Hc Ht Hn Hwin Hnow Hdef) as (t & E & Hle & Hfirst).
  exists t. split; [done|]. split; [done|]. intros Hpos. rewrite (processDeque_loop s q now Hr).
  destruct (r_ring _ _ _ _ Hr) as (items & Hitems & Hring).
  pose proof (r_max _ _ _ _ Hr) as Hmax. pose proof (r_min _ _ _ _ Hr) as Hmin.
  destruct (q_items q) as [|x rest] eqn:Eq; cbn [length dequeue_loop] in *.
  - by destruct (Z.ltb_spec (mMinSeq s) (mMaxSeq s)); [lia|].
  - destruct (Z.ltb_spec (mMinSeq s) (mMaxSeq s)); [|lia]. rewrite Hitems. cbn [mbind option_bind].
    unfold dequeue_round. rewrite Hmin.
    pose proof (ring_at c k (config_k _ _ Hc) (config_capacity _ _ Hc) items (q_min q) (x :: rest) 0 Hring
      ltac:(cbn [length]; lia)) as Ex.
    rewrite Z.add_0_r in Ex. rewrite Ex. change (Z.to_nat 0) with O. cbn [lookup list_lookup mbind option_bind].
    pose proof (Hi 0%nat x eq_refl ltac:(done)) as Hx. destruct Hfirst as [H1 H2].
    destruct (received x) eqn:Hrec; cbn [negb].
    + destruct (item_received _ _ Hx Hrec) as [_ Htime].
      destruct (diff_millis_total _ _ Htime (now_ok now Hnow)) as [d Ed]. specialize (H1 eq_refl d Ed).
      unfold due. rewrite Ed. cbn [fmap option_fmap option_map]. destruct (Z.leb_spec d 0); [lia|]. done.
    + destruct (diff_millis_total _ _ (item_abandon _ _ Hx) (now_ok now Hnow)) as [d Ed].
      specialize (H2 eq_refl Hnack d Ed). cbn [mbind option_bind].
      unfold due. rewrite Ed. cbn [fmap option_fmap option_map]. destruct (Z.leb_spec d 0); [lia|]. done.
Qed.

(** the one case in which the event loop spins: while the first packet of an
    incomplete frame is due and no later frame is, the timeout is not positive
    although taking frames out does nothing, again and again. *)
Theorem incomplete_frame_spins (s : state) q x rest now default :
  config_ok c k -> depacketizer_total -> NDEBUG c = true -> window_ok c k s q -> 0 <= now < 2 ^ 60 ->
  0 <= default < 2 ^ 30 ->
  q_items q = x :: rest -> received x = true -> kind x = Start -> due (when_dequeue x) now = Some true ->
  scan rest 0 = SGap -> later_due now (rtp_timestamp_ext x) rest = Some false ->
  exists t s', getTimeoutMillis c now default s = Some t /\ t <= 0 /\
    JitterBuffer.processDeque c now s = Some ([], s') /\ refines c k s' q.
Proof.
  intros Hc Ht Hn Hwin Hnow Hdef Eq Hrec Hkind Hdue Hscan Hlater. pose proof Hwin as [Hr Hi _ _].
  destruct (timeout_ok s q now default Hc Ht Hn Hwin Hnow Hdef) as (t & E & _ & Hfirst).
  pose proof (dequeue_loop_refines c k (config_k _ _ Hc) (config_capacity _ _ Hc) now (length (q_items q)) s q []
    Hr ltac:(lia)) as H.
  rewrite (processDeque_loop s q now Hr). rewrite Eq in H, Hfirst |- *. cbn [length dequeue] in H |- *.
  unfold round in H. rewrite Eq, Hrec, Hdue in H. cbn [mbind option_bind] in H.
  rewrite Hkind, Hscan, Hlater in H. cbn [mbind option_bind] in H. destruct H as (s' & Es & Hr').
  exists t, s'. split; [done|]. split; [|done].
  destruct Hfirst as [H1 _]. unfold due in Hdue.
  destruct (diff_millis (when_dequeue x) now) as [d|] eqn:Ed; [|done].
  cbn [fmap option_fmap option_map] in Hdue. injection Hdue as Hd. specialize (H1 Hrec d eq_refl). lia.
Qed.

(** *** Packets one by one *)

(** A packet that the tests at the start of [consume] let through. *)
Record current (now : Z) (packet : RtpPacket.t) (seq : Z) (pl : list Z) (s : state) : Prop := {
  current_packet : packet_ok packet;
  current_unwrap : unwrap c packet = Some (Some (seq, pl));
  current_now : 0 <= now < 2 ^ 60;
  current_counters : counters_ok s;
  current_not_late : not_older (mLastFrameTimeStamp s) (extended_timestamp now (RtpPacket.mTimestamp packet) s);
  current_not_idle : now - mLastPacketTime s < kNoPacketsResetDelay;
  current_near : mMinSeq s < extended_seq now seq s + mCapacity c / 4 /\
                 extended_seq now seq s < mMaxSeq s + mCapacity c / 4
}.

(** The state in which such a packet gets its slot. *)
Definition noted (now : Z) (packet : RtpPacket.t) (seq : Z) (s : state) : state :=
  set_last_packet
    (set_extended s (ExtendedValue.extend 16 now (mExtValueSeq s) seq).2
       (ExtendedValue.extend 32 now (mExtValueRtpTimestamp s) (RtpPacket.mTimestamp packet)).2) now.

Lemma noted_ok (s : state) q now packet seq pl :
  config_ok c k -> wf c k s -> window_ok c k s q -> current now packet seq pl s ->
  window_ok c k (noted now packet seq s) q /\ wf c k (noted now packet seq s) /\
  0 <= extended_seq now seq s < 2 ^ 63 - 1.
Proof.
  intros Hc [Hw1 Hw2 _] [[] Hi Hl Hb] [Hp Hu Hnow [Hc1 Hc2] _ _ _].
  destruct (unwrap_total c packet Hp) as (u & Eu & Hseq). rewrite Hu in Eu. injection Eu as <-.
  specialize (Hseq _ _ eq_refl). destruct Hp as (_ & _ & Hts).
  pose proof (ExtendedValue.extend_bounds 16 now _ seq ltac:(lia) Hw1 Hc1 Hseq) as [He1 Hb1].
  pose proof (ExtendedValue.extend_bounds 32 now _ _ ltac:(lia) Hw2 Hc2 Hts) as [He2 _].
  assert (window_ok c k (noted now packet seq s) q) as Hwin by (repeat (split; try done)).
  split; [done|]. split; [|unfold extended_seq; lia]. split; [done|done|]. right. by exists q.
Qed.

Lemma consume_enters (s : state) q now packet seq pl :
  config_ok c k -> wf c k s -> window_ok c k s q -> current now packet seq pl s ->
  let ts := extended_timestamp now (RtpPacket.mTimestamp packet) s in
  let seq_ext := extended_seq now seq s in
  consume c now packet s =
  ('(dequeue, request) ← schedule c now ts (noted now packet seq s);
   room ← JitterBuffer.make_room c seq_ext request dequeue (noted now packet seq s);
   match room with
   | None => Some (noted now packet seq s)
   | Some s => JitterBuffer.fill c now seq_ext ts dequeue request packet pl s
   end).
Proof.
  intros Hc Hwf Hwin Hcur. cbv zeta. destruct (noted_ok s q now packet seq pl Hc Hwf Hwin Hcur) as (_ & _ & Hseq).
  destruct Hwin as [Hr _ Hl _]. destruct Hcur as [Hp Hu Hnow _ Hlate Hidle [Hn1 Hn2]].
  unfold consume. rewrite Hu. cbn [mbind option_bind].
  unfold noted. unfold extended_seq, extended_timestamp in *.
  destruct (ExtendedValue.extend 16 now (mExtValueSeq s) seq) as [seq_ext es].
  destruct (ExtendedValue.extend 32 now (mExtValueRtpTimestamp s) (RtpPacket.mTimestamp packet)) as [ts et].
  cbn [fst snd mLastFrameTimeStamp set_extended] in *.
  assert (from_option (fun last => ts <? last) false (mLastFrameTimeStamp s) = false) as ->.
  { unfold not_older in Hlate. destruct (mLastFrameTimeStamp s) as [last|]; [|done]. cbn in *. lia. }
  destruct (r_ring _ _ _ _ Hr) as (items & Hitems & Hring).
  unfold reset_if_idle. cbn [mItemList set_extended mLastPacketTime]. rewrite Hitems.
  rewrite in64_some by (unfold time_min, time_max; lia). cbn [mbind option_bind].
  destruct (Z.leb_spec kNoPacketsResetDelay (now - mLastPacketTime s)); [lia|]. cbn [andb mbind option_bind].
  unfold open_window. cbn [mItemList set_extended set_last_packet mMinSeq mMaxSeq]. rewrite Hitems.
  pose proof (r_range _ _ _ _ Hr) as [H0 H1].
  destruct Hc as [Hk Hcap _ _ _]. pose proof (cap_pos c k Hk Hcap) as Hpos. rewrite Hcap in *.
  rewrite !u64_small by (unfold is_u64; zdm).
  destruct (Z.leb_spec (seq_ext + 2 ^ k / 4) (mMinSeq s)); [lia|].
  destruct (Z.leb_spec (mMaxSeq s + 2 ^ k / 4) seq_ext); [lia|]. done.
Qed.

(** C15: a packet that is neither late nor far away, fits, is not older than
    the first one, and does not come after two seconds without packets (behind
    which the buffer may start anew) gets its slot, when the depacketizer stops on
    no input: it is there under its number with its payload, marker and time; every packet that was in the window is still there, at most
    with another kind; and every number in between that had no slot now has one
    that waits for the packet and asks for it. *)
Theorem consume_accepts (s : state) q now packet seq pl :
  config_ok c k -> depacketizer_total -> wf c k s -> window_ok c k s q -> current now packet seq pl s ->
  let ts := extended_timestamp now (RtpPacket.mTimestamp packet) s in
  let n := extended_seq now seq s in
  timely c ts s -> mMaxSeq s - mCapacity c <= n < mMinSeq s + mCapacity c ->
  exists s' q', consume c now packet s = Some s' /\ window_ok c k s' q' /\
    mMinSeq s' = Z.min (mMinSeq s) n /\ mMaxSeq s' = Z.max (mMaxSeq s) (n + 1) /\
    (exists item, q_items q' !! Z.to_nat (n - mMinSeq s') = Some item /\ received item = true /\
       payload item = pl /\ marker item = RtpPacket.mMarker packet /\ rtp_timestamp_ext item = ts /\
       seq_ext item = n) /\
    (forall i x, q_items q !! i = Some x -> mMinSeq s + Z.of_nat i <> n ->
       exists kd, q_items q' !! Z.to_nat (mMinSeq s + Z.of_nat i - mMinSeq s') = Some (with_kind x kd)) /\
    (forall m, mMinSeq s' <= m < mMaxSeq s' -> m <> n -> ~ (mMinSeq s <= m < mMaxSeq s) ->
       exists x, q_items q' !! Z.to_nat (m - mMinSeq s') = Some x /\ wanted_now x = true /\ seq_ext x = m).
Proof.
  intros Hc [Hkinds _] Hwf Hwin Hcur. cbv zeta. intros Htime Hfit.
  rewrite (consume_enters s q now packet seq pl Hc Hwf Hwin Hcur).
  destruct (noted_ok s q now packet seq pl Hc Hwf Hwin Hcur) as (Hwin1 & _ & Hseq).
  set (ts := extended_timestamp now (RtpPacket.mTimestamp packet) s) in *. set (n := extended_seq now seq s) in *.
  set (s1 := noted now packet seq s) in *. pose proof Hwin1 as [Hr Hi Hl [Hb Hbr]].
  destruct (schedule_some c k Hc now ts s1 (current_now _ _ _ _ _ Hcur) Hb Htime)
    as (dequeue & request & -> & Hd & Hreq). cbn [mbind option_bind].
  pose proof (r_min _ _ _ _ Hr) as Hmin. pose proof (r_max _ _ _ _ Hr) as Hmax.
  change (mMinSeq s1) with (mMinSeq s) in Hmin. change (mMaxSeq s1) with (mMaxSeq s) in Hmax.
  destruct (enter_ok c k Hc Hkinds s1 q now n ts dequeue request packet pl Hr (items_ok_skip _ _ _ Hi)
    (current_now _ _ _ _ _ Hcur) Hseq Hd Hreq) as [[Hdrop _]|Henter].
  { unfold collides. change (mMinSeq s1) with (mMinSeq s). rewrite <- (config_capacity _ _ Hc). lia. }
  { exfalso. pose proof (make_room_refines c k (config_k _ _ Hc) (config_capacity _ _ Hc) s1 q n request dequeue
      Hr Hseq) as Hroom.
    destruct (Queue.make_room c n request dequeue (q_min q) (q_items q)) as [[? ?]|] eqn:Eq.
    - destruct Hroom as (? & _ & _ & _ & E); [|congruence].
      unfold collides. change (mMinSeq s1) with (mMinSeq s). rewrite <- (config_capacity _ _ Hc). lia.
    - unfold Queue.make_room in Eq. repeat (case_match; try done); lia. }
  destruct Henter as (items & min & max & q' & E & Hr' & Hi' & kd & _ & _ & _ & l & Eroom & Eq').
  exists (set_window s1 items min max), q'. split; [exact E|].
  split; [by split|]. cbn [mMinSeq mMaxSeq set_window].
  pose proof (r_min _ _ _ _ Hr') as Hmin'. pose proof (r_max _ _ _ _ Hr') as Hmax'. cbn [mMinSeq mMaxSeq set_window] in *.
  destruct (make_room_lookup c n request dequeue (q_min q) (q_items q) (q_min q') l ltac:(lia) Eroom)
    as (E1 & E2 & Hold & Hnew).
  rewrite Eq', fill_length in Hmax'. rewrite Hmin' in *. set (i0 := Z.to_nat (n - q_min q')) in *.
  split; [lia|]. split; [lia|]. rewrite Eq'. split; [|split].
  - destruct (fill_lookup_same l i0 (packet_item now n ts dequeue request packet pl kd)) as [kd' ->]; [lia|].
    eexists. split; [done|]. cbn. done.
  - intros i x Hx Hne. rewrite Hmin in *. apply fill_lookup_other; [by apply Hold|].
    apply lookup_lt_Some in Hx. lia.
  - intros m Hm Hne Hout.
    destruct (fill_lookup_other l i0 (packet_item now n ts dequeue request packet pl kd) (Z.to_nat (m - q_min q'))
      (newLostItem request dequeue m)) as [kd' ->]; [apply Hnew; lia|lia|].
    eexists. split; [done|]. by cbn.
Qed.

(** the capacity check is off by one: when the window is more than three
    quarters full, a packet whose number is exactly the capacity above the first
    one passes it, and its slot is the one of the first packet: the assertion
    that the slot is free fails. *)
Theorem full_window_collides (s : state) q now packet seq pl :
  config_ok c k -> wf c k s -> window_ok c k s q -> current now packet seq pl s ->
  timely c (extended_timestamp now (RtpPacket.mTimestamp packet) s) s ->
  extended_seq now seq s = mMinSeq s + mCapacity c ->
  consume c now packet s = None.
Proof.
  intros Hc Hwf Hwin Hcur Htime Hcol. rewrite (consume_enters s q now packet seq pl Hc Hwf Hwin Hcur).
  destruct (noted_ok s q now packet seq pl Hc Hwf Hwin Hcur) as ([Hr _ _ [Hb _]] & _ & Hseq).
  destruct (schedule_some c k Hc now _ (noted now packet seq s) (current_now _ _ _ _ _ Hcur) Hb Htime)
    as (dequeue & request & -> & _). cbn [mbind option_bind].
  rewrite (make_room_collides c k (config_k _ _ Hc) (config_capacity _ _ Hc) _ q); [done|done|done|].
  unfold collides. by rewrite <- (config_capacity _ _ Hc).
Qed.

(** a packet with an older timestamp than the first packet of the buffer is
    not rejected but makes the unsigned difference wrap around: the time to take
    it out is beyond what the clock's type holds, and computing it overflows. *)
Theorem older_than_first_overflows (s : state) q now packet seq pl :
  config_ok c k -> wf c k s -> window_ok c k s q -> current now packet seq pl s ->
  2 <= Track.mClockRate (mTrack c) <= 1000000 ->
  0 < mBaseRtpTimestamp s - extended_timestamp now (RtpPacket.mTimestamp packet) s <= 2 ^ 40 ->
  consume c now packet s = None.
Proof.
  intros Hc Hwf Hwin Hcur Hrate Hold. rewrite (consume_enters s q now packet seq pl Hc Hwf Hwin Hcur).
  set (ts := extended_timestamp now (RtpPacket.mTimestamp packet) s) in *. unfold schedule.
  change (mBaseRtpTimestamp (noted now packet seq s)) with (mBaseRtpTimestamp s).
  destruct (Z.eqb_spec (Track.mClockRate (mTrack c)) 0); [lia|]. cbn [negb guard_true mbind option_bind].
  set (rate := Track.mClockRate (mTrack c)) in *.
  assert (u64 (1000 * u64 (ts - mBaseRtpTimestamp s)) = 2 ^ 64 - 1000 * (mBaseRtpTimestamp s - ts)) as ->
    by (unfold u64; zdm).
  set (x := 2 ^ 64 - 1000 * (mBaseRtpTimestamp s - ts)).
  assert (x / 1000000 <= x / rate <= x / 2) as [Hlo Hhi].
  { split; [apply Z.div_le_compat_l; lia|apply Z.div_le_compat_l; lia]. }
  assert (x / 2 < 2 ^ 63 /\ 2 ^ 63 < x / 1000000 * 1000000) as [Hx1 Hx2] by (unfold x; zdm).
  rewrite i64_small by lia.
  assert (in64 (x / rate * 1000000) = None) as Hover.
  { unfold in64. destruct (Z.leb_spec (x / rate * 1000000) time_max) as [Hle|]; [unfold time_max in Hle; lia|].
    by rewrite andb_false_r. }
  assert (forall t, add_millis t (x / rate) = None) as E by (intros t; unfold add_millis; by rewrite Hover).
  by rewrite E.
Qed.

(** The items of the window, read off the slots. *)
Definition listed (s : state) : list JitterBufferItem :=
  match mItemList s with
  | None => []
  | Some items => omap (item_at c items) (seqZ (mMinSeq s) (mMaxSeq s - mMinSeq s))
  end.

Lemma omap_seqZ (f : Z -> option JitterBufferItem) (l : list JitterBufferItem) : forall min,
  (forall i, (i < length l)%nat -> f (min + Z.of_nat i) = l !! i) ->
  omap f (seqZ min (Z.of_nat (length l))) = l.
Proof.
  induction l as [|x l IH]; intros min H; [done|]. cbn [length] in *.
  rewrite seqZ_cons by lia. cbn [omap list_omap].
  pose proof (H 0%nat ltac:(lia)) as H0. rewrite Z.add_0_r in H0. rewrite H0.
  change ((x :: l) !! 0%nat) with (Some x). cbn iota. f_equal.
  replace (Z.pred (Z.of_nat (S (length l)))) with (Z.of_nat (length l)) by lia. apply IH.
  intros i Hi. replace (Z.succ min + Z.of_nat i) with (min + Z.of_nat (S i)) by lia. by apply (H (S i)); lia.
Qed.

Lemma refines_listed (s : state) q : config_ok c k -> refines c k s q -> q_items q = listed s.
Proof.
  intros Hc H. unfold listed. destruct (r_ring _ _ _ _ H) as (items & -> & Hring).
  rewrite (r_max _ _ _ _ H), (r_min _ _ _ _ H).
  replace (q_min q + Z.of_nat (length (q_items q)) - q_min q) with (Z.of_nat (length (q_items q))) by lia.
  symmetry. apply omap_seqZ. intros i Hi.
  rewrite (ring_at c k (config_k _ _ Hc) (config_capacity _ _ Hc) items (q_min q) (q_items q)) by (done || lia).
  by rewrite Nat2Z.id.
Qed.

Definition queue_of (s : state) : queue := mkQ (mDepacketizer s) (mMinSeq s) (listed s) (mLastFrameTimeStamp s).

Lemma wf_queue_of (s : state) :
  config_ok c k -> wf c k s -> mItemList s <> None -> window_ok c k s (queue_of s).
Proof.
  intros Hc [_ _ [Hn|[q Hq]]] Hne; [done|]. pose proof (window_refines _ _ _ _ Hq) as Hr.
  enough (queue_of s = q) as -> by done. unfold queue_of. rewrite <- (refines_listed s q Hc Hr).
  rewrite (r_dep _ _ _ _ Hr), (r_min _ _ _ _ Hr), (r_last _ _ _ _ Hr). by destruct q.
Qed.

(** Packets one after the other. *)
Fixpoint consume_all (l : list (Z * RtpPacket.t)) (s : state) : option state :=
  match l with
  | [] => Some s
  | (now, packet) :: l => s ← consume c now packet s; consume_all l s
  end.

End Properties.

(** ** Examples *)

Section Witnesses.
Import Demo Ring Queue Refinement WellFormed.

Definition demo_config (capacity : Z) : config := mkConfig (TrackBuilder.nack demo_track true) capacity 100 10 true.

Definition demo_packet (seq ts : Z) (m : bool) (pl : list Z) : RtpPacket.t :=
  RtpPacket.make demo_track m 0 seq ts 0 RtpExtension.make_empty pl.

(** The start of a key frame, and two packets later a whole frame. *)
Definition demo_start : RtpPacket.t := demo_packet 65535 90000 false [0x10; 0x10; 1; 2].
Definition demo_later : RtpPacket.t := demo_packet 2 93000 true [0x10; 0x11; 3; 4].

Definition demo_empty : @state DepacketizerVP8.state :=
  mk DepacketizerVP8.make time_min None 0 0 ExtendedValue.make ExtendedValue.make time_min 0 None.

Definition demo_next (k : Z) (s : @state DepacketizerVP8.state) (now : Z) (packet : RtpPacket.t) :=
  default s (consume (demo_config (2 ^ k)) now packet s).

Definition demo_one (k : Z) := demo_next k demo_empty 1000000000 demo_start.

(** The start of a frame, two lost packets, a frame of one packet. *)
Definition demo_two : @state DepacketizerVP8.state := demo_next 4 (demo_one 4) 1005000000 demo_later.

(** A window of four slots, full. *)
Definition demo_full : @state DepacketizerVP8.state :=
  demo_next 2 (demo_next 2 (demo_next 2 (demo_one 2) 1001000000 (demo_packet 0 90000 false [0; 1]))
    1002000000 (demo_packet 1 90000 false [0; 2])) 1003000000 (demo_packet 2 90000 false [0; 3]).

Lemma demo_config_ok k : 0 <= k <= 32 -> config_ok (demo_config (2 ^ k)) k.
Proof. intros Hk. split; [done|done|by vm_compute..]. Qed.

Lemma vp8_total : @depacketizer_total DepacketizerVP8.state _.
Proof.
  split; [by intros; eexists|]. intros d l Hl.
  destruct (DepacketizerVP8.extract_total d l Hl) as (frames & d' & E & Hf). by exists frames, d'.
Qed.

Lemma demo_packet_ok seq ts m pl :
  is_u16 seq -> is_u32 ts -> bytes_ok pl -> packet_ok (demo_packet seq ts m pl).
Proof. by split. Qed.

(** Adding one more packet to a concrete well-formed buffer. *)
Lemma demo_consume k (s : @state DepacketizerVP8.state) now packet :
  0 <= k <= 32 -> wf (demo_config (2 ^ k)) k s ->
  packet_ok packet -> 0 <= now < 2 ^ 60 -> counters_ok s ->
  (mItemList s <> None -> timely (demo_config (2 ^ k)) (extended_timestamp now (RtpPacket.mTimestamp packet) s) s /\
     extended_seq now (RtpPacket.mSequence packet) s <> mMinSeq s + 2 ^ k) ->
  RtpPacket.mSSRC packet = 1000 ->
  wf (demo_config (2 ^ k)) k (demo_next k s now packet).
Proof.
  intros Hk Hs Hp Hnow Hcount Hadm Hssrc. unfold demo_next.
  destruct (consume_ok (demo_config (2 ^ k)) k (demo_config_ok k Hk) (proj1 vp8_total) s now packet Hs Hp Hnow Hcount)
    as (s' & -> & Hwf); [|done].
  intros Hne. destruct (Hadm Hne) as [Ht Hn]. split; [done|]. intros seq pl. unfold unwrap. rewrite Hssrc.
  intros [= <- <-]. exact Hn.
Qed.

Lemma demo_empty_wf c k : wf c k demo_empty.
Proof. split; [apply ExtendedValue.ext_ok_make|apply ExtendedValue.ext_ok_make|by left]. Qed.

Ltac demo_step :=
  apply demo_consume;
  [done| |apply demo_packet_ok; [done|done|by repeat constructor]|done|by vm_compute
  |intros _; unfold timely; vm_compute; repeat split; congruence|done].

Lemma demo_one_wf k : 0 <= k <= 32 -> wf (demo_config (2 ^ k)) k (demo_one k).
Proof.
  intros Hk. apply demo_consume; [done|apply demo_empty_wf| |done|by vm_compute|done|done].
  apply demo_packet_ok; [done|done|by repeat constructor].
Qed.

Lemma demo_two_wf : wf (demo_config (2 ^ 4)) 4 demo_two.
Proof. demo_step. by apply demo_one_wf. Qed.

Lemma demo_full_wf : wf (demo_config (2 ^ 2)) 2 demo_full.
Proof. do 3 demo_step. by apply demo_one_wf. Qed.

Notation cfg := (demo_config (2 ^ 4)).

Lemma deque_refines_queue_witness :
  match Queue.processDeque cfg 1200000000 (queue_of cfg demo_two) with
  | None => JitterBuffer.processDeque cfg 1200000000 demo_two = None
  | Some (frames, q') => exists s', JitterBuffer.processDeque cfg 1200000000 demo_two = Some (frames, s') /\
      refines cfg 4 s' q'
  end.
Proof.
  apply (deque_refines_queue cfg 4).
  - by apply demo_config_ok.
  - apply window_refines, wf_queue_of; [by apply demo_config_ok|apply demo_two_wf|by vm_compute].
Defined.

Lemma buffer_safe_witness :
  wf cfg 4 (demo_one 4) /\ forall o, op_ok cfg 4 o (demo_one 4) -> is_Some (run cfg o (demo_one 4)).
Proof.
  apply (buffer_safe cfg 4 DepacketizerVP8.make).
  - by apply demo_config_ok.
  - apply vp8_total.
  - reflexivity.
  - apply (reachable_step cfg 4 _ demo_empty (Consume 1000000000 demo_start)).
    + apply reachable_make. reflexivity.
    + split; [done|]. split; [apply demo_packet_ok; [done|done|by repeat constructor]|]. by split.
    + vm_compute. reflexivity.
Defined.

Lemma deque_delivers_witness :
  exists frames s' q', JitterBuffer.processDeque cfg 1200000000 demo_two = Some (frames, s') /\
    window_ok cfg 4 s' q' /\
    delivered (mMinSeq demo_two) (q_min q') None frames (mLastFrameTimeStamp s') /\
    (exists groups data, Forall group_ok groups /\
       (concat groups ++ q_items q') `sublist_of` listed cfg demo_two /\
       extract_all DepacketizerVP8.make groups = Some (data, mDepacketizer s') /\
       map f_data frames `sublist_of` data) /\
    waiting 1200000000 (q_items q').
Proof.
  apply (deque_delivers cfg 4 demo_two (queue_of cfg demo_two)).
  - by apply demo_config_ok.
  - apply vp8_total.
  - reflexivity.
  - apply demo_two_wf.
  - apply wf_queue_of; [by apply demo_config_ok|apply demo_two_wf|by vm_compute].
  - by vm_compute.
Defined.

Lemma nack_exact_witness :
  exists seqs s' n, processNack cfg 1020000000 demo_two = Some (seqs, s') /\ wf cfg 4 s' /\
    seqs = map (fun x => u16 (seq_ext x))
             (base.filter (fun x => due (when_nack_request x) 1020000000 = Some true /\ wanted_now x = true)
                          (take n (listed cfg demo_two))) /\
    (n = length (listed cfg demo_two) \/ exists x, listed cfg demo_two !! n = Some x /\
       due (when_nack_request x) 1020000000 = Some false /\ due (when_nack_abandon x) 1020000000 = Some true) /\
    exists s'', processNack cfg 1020000000 s' = Some ([], s'').
Proof.
  apply (nack_exact cfg 4 demo_two (queue_of cfg demo_two)).
  - by apply demo_config_ok.
  - apply vp8_total.
  - reflexivity.
  - apply demo_two_wf.
  - apply wf_queue_of; [by apply demo_config_ok|apply demo_two_wf|by vm_compute].
  - by vm_compute.
  - reflexivity.
Defined.

(** Both lost packets are asked for. *)
Example demo_nacks : fst <$> processNack cfg 1020000000 demo_two = Some [0; 1].
Proof. by vm_compute. Qed.

Lemma timeout_no_missed_work_witness :
  exists t, getTimeoutMillis cfg 1005000000 100 demo_two = Some t /\ t <= 100 /\
    (0 < t -> JitterBuffer.processDeque cfg 1005000000 demo_two = Some ([], demo_two)).
Proof.
  apply (timeout_no_missed_work cfg 4 demo_two (queue_of cfg demo_two)).
  - by apply demo_config_ok.
  - apply vp8_total.
  - reflexivity.
  - apply wf_queue_of; [by apply demo_config_ok|apply demo_two_wf|by vm_compute].
  - by vm_compute.
  - by vm_compute.
  - reflexivity.
Defined.

Lemma incomplete_frame_spins_witness :
  exists t s', getTimeoutMillis cfg 1200000000 100 (demo_one 4) = Some t /\ t <= 0 /\
    JitterBuffer.processDeque cfg 1200000000 (demo_one 4) = Some ([], s') /\
    refines cfg 4 s' (queue_of cfg (demo_one 4)).
Proof.
  eapply (incomplete_frame_spins cfg 4 (demo_one 4) (queue_of cfg (demo_one 4))).
  - by apply demo_config_ok.
  - apply vp8_total.
  - reflexivity.
  - apply wf_queue_of; [by apply demo_config_ok|by apply demo_one_wf|by vm_compute].
  - by vm_compute.
  - by vm_compute.
  - vm_compute. reflexivity.
  - reflexivity.
  - reflexivity.
  - vm_compute. reflexivity.
  - reflexivity.
  - reflexivity.
Defined.

Lemma demo_current k (s : @state DepacketizerVP8.state) now seq ts m pl :
  is_u16 seq -> is_u32 ts -> bytes_ok pl -> 0 <= now < 2 ^ 60 -> counters_ok s ->
  not_older (mLastFrameTimeStamp s) (extended_timestamp now ts s) ->
  now - mLastPacketTime s < kNoPacketsResetDelay ->
  mMinSeq s < extended_seq now seq s + 2 ^ k / 4 /\ extended_seq now seq s < mMaxSeq s + 2 ^ k / 4 ->
  current (demo_config (2 ^ k)) now (demo_packet seq ts m pl) seq pl s.
Proof. intros. by split; [apply demo_packet_ok|..]. Qed.

Lemma consume_accepts_witness :
  exists s' q', consume cfg 1005000000 demo_later (demo_one 4) = Some s' /\ window_ok cfg 4 s' q' /\
    mMinSeq s' = 131071 /\ mMaxSeq s' = 131075 /\
    (exists item, q_items q' !! Z.to_nat (131074 - mMinSeq s') = Some item /\ received item = true /\
       payload item = [0x10; 0x11; 3; 4] /\ marker item = true /\ rtp_timestamp_ext item = 4295060296 /\
       seq_ext item = 131074) /\
    (forall i x, listed cfg (demo_one 4) !! i = Some x -> 131071 + Z.of_nat i <> 131074 ->
       exists kd, q_items q' !! Z.to_nat (131071 + Z.of_nat i - mMinSeq s') = Some (with_kind x kd)) /\
    (forall m, mMinSeq s' <= m < mMaxSeq s' -> m <> 131074 -> ~ (131071 <= m < 131072) ->
       exists x, q_items q' !! Z.to_nat (m - mMinSeq s') = Some x /\ wanted_now x = true /\ seq_ext x = m).
Proof.
  apply (consume_accepts cfg 4 (demo_one 4) (queue_of cfg (demo_one 4)) 1005000000 demo_later 2 [0x10; 0x11; 3; 4]).
  - by apply demo_config_ok.
  - apply vp8_total.
  - by apply demo_one_wf.
  - apply wf_queue_of; [by apply demo_config_ok|by apply demo_one_wf|by vm_compute].
  - apply (demo_current 4); [done|done|by repeat constructor|done|by vm_compute..].
  - unfold timely. vm_compute. repeat split; congruence.
  - vm_compute. split; congruence.
Defined.

Lemma full_window_collides_witness :
  consume (demo_config (2 ^ 2)) 1004000000 (demo_packet 3 90000 false [0; 4]) demo_full = None.
Proof.
  apply (full_window_collides (demo_config (2 ^ 2)) 2 demo_full (queue_of (demo_config (2 ^ 2)) demo_full)
    1004000000 _ 3 [0; 4]).
  - by apply demo_config_ok.
  - apply demo_full_wf.
  - apply wf_queue_of; [by apply demo_config_ok|apply demo_full_wf|by vm_compute].
  - apply (demo_current 2); [done|done|by repeat constructor|done|by vm_compute..].
  - unfold timely. vm_compute. repeat split; congruence.
  - by vm_compute.
Defined.

Lemma older_than_first_overflows_witness :
  consume cfg 1001000000 (demo_packet 65534 87000 true [0x10; 9]) (demo_one 4) = None.
Proof.
  apply (older_than_first_overflows cfg 4 (demo_one 4) (queue_of cfg (demo_one 4)) _ _ 65534 [0x10; 9]).
  - by apply demo_config_ok.
  - by apply demo_one_wf.
  - apply wf_queue_of; [by apply demo_config_ok|by apply demo_one_wf|by vm_compute].
  - apply (demo_current 4); [done|done|by repeat constructor|done|by vm_compute..].
  - by vm_compute.
  - by vm_compute.
Defined.

End Witnesses.
