(* ===== verification/Twcc.v ===== *)
(** * Transport-wide congestion control: the subscriber

    [SubscribePacketHistory] and its report [Builder] (src/twcc_subscribe.cpp)
    and [RtpResponderTWCC] (src/rtp_responder_twcc.cpp): the arrival times of
    the packets of a connection, in a ring of 2048 slots, and the feedback
    reports made of them.  The clock ([getStableTimeMicros()], microseconds, and
    for the sequence numbers [steady_clock::now()], nanoseconds) is an argument. *)

From stdpp Require Import gmap strings.
From S2P Require Import Prelude Bytes Sequence Extension Tracks Rtp Rtcp ExtensionSources.

(** ** The wire constants (include/srtc/twcc_common.h) *)

Definition kCHUNK_RUN_LENGTH : Z := 0.
Definition kCHUNK_STATUS_VECTOR : Z := 1.
Definition kSTATUS_NOT_RECEIVED : Z := 0.
Definition kSTATUS_RECEIVED_SMALL_DELTA : Z := 1.
Definition kSTATUS_RECEIVED_LARGE_DELTA : Z := 2.

Definition kReferenceTimeUnits : Z := 64 * 1000.
Definition kMinSmallDeltaMicros : Z := 0.
Definition kMaxSmallDeltaMicros : Z := 250 * 255.
Definition kMinLargeDeltaMicros : Z := 250 * -32768.
Definition kMaxLargeDeltaMicros : Z := 250 * 32767.

(** ** The report in the making *)

Module Builder.

Record t := mk {
  mBaseSeq : Z;
  mPacketStatusCount : Z;
  mRefTimeMicros : Z;
  mBufHeaders : list Z;
  mBufTimestamps : list Z
}.

Definition make : t := mk 0 0 0 [] [].

Definition setReferenceTime (b : t) (ref_time_micros : Z) : option t :=
  _ ← guard_true (Z.rem ref_time_micros kReferenceTimeUnits =? 0);
  Some (mk (mBaseSeq b) (mPacketStatusCount b) ref_time_micros (mBufHeaders b) (mBufTimestamps b)).

Definition initBaseSeq (b : t) (first_seq : Z) : t :=
  if mPacketStatusCount b =? 0
  then mk (u16 first_seq) (mPacketStatusCount b) (mRefTimeMicros b) (mBufHeaders b) (mBufTimestamps b) else b.

(** One chunk: its header, its deltas, the packets it covers. *)
Definition add (b : t) (header : Z) (timestamps : list Z) (count : Z) : t :=
  mk (mBaseSeq b) (u16 (mPacketStatusCount b + count)) (mRefTimeMicros b)
     (ByteWriter.writeU16 (mBufHeaders b) header) (mBufTimestamps b ++ timestamps).

Definition addNotReceivedRun (b : t) (first_seq count : Z) : option t :=
  _ ← guard_true (count <=? 8191);
  let b := initBaseSeq b first_seq in
  let header := u16 (Z.lor (Z.lor (Z.shiftl kCHUNK_RUN_LENGTH 15) (Z.shiftl kSTATUS_NOT_RECEIVED 13)) count) in
  Some (add b header [] count).

(** What [received] and [delta_micros] say of a packet. *)
Definition entry := option Z.

Definition symbol_of (symbol : Z) (e : entry) : Z :=
  match e with Some _ => symbol | None => kSTATUS_NOT_RECEIVED end.

(** The loop that sets the symbols, [bits] wide each, from the one numbered [i]. *)
Fixpoint symbols (bits symbol header i : Z) (entries : list entry) : Z :=
  match entries with
  | [] => header
  | e :: rest =>
      symbols bits symbol (Z.lor header (u16 (Z.shiftl (symbol_of symbol e) (14 - i * bits - bits)))) (i + 1) rest
  end.

(** The loop that writes the deltas. *)
Fixpoint deltas (lo hi : Z) (write : list Z -> Z -> list Z) (buf : list Z) (entries : list entry) : option (list Z) :=
  match entries with
  | [] => Some buf
  | None :: rest => deltas lo hi write buf rest
  | Some delta :: rest =>
      _ ← guard_true ((lo <=? delta) && (delta <=? hi));
      deltas lo hi write (write buf (Z.quot delta 250)) rest
  end.

Definition addSmallDeltaRun (b : t) (first_seq : Z) (entries : list entry) : option t :=
  _ ← guard_true (length entries <=? 14)%nat;
  let b := initBaseSeq b first_seq in
  let header := symbols 1 kSTATUS_RECEIVED_SMALL_DELTA (u16 (Z.shiftl kCHUNK_STATUS_VECTOR 15)) 0 entries in
  timestamps ← deltas kMinSmallDeltaMicros kMaxSmallDeltaMicros ByteWriter.writeU8 [] entries;
  Some (add b header timestamps (Z.of_nat (length entries))).

Definition addLargeDeltaRun (b : t) (first_seq : Z) (entries : list entry) : option t :=
  _ ← guard_true (length entries <=? 7)%nat;
  let b := initBaseSeq b first_seq in
  let header := symbols 2 kSTATUS_RECEIVED_LARGE_DELTA
                  (u16 (Z.lor (Z.shiftl kCHUNK_STATUS_VECTOR 15) (Z.shiftl 1 14))) 0 entries in
  timestamps ← deltas kMinLargeDeltaMicros kMaxLargeDeltaMicros ByteWriter.writeU16 [] entries;
  Some (add b header timestamps (Z.of_nat (length entries))).

Definition empty (b : t) : bool := bool_decide (mBufHeaders b = []) && bool_decide (mBufTimestamps b = []).

Definition size (b : t) : nat := 3 * 2 + length (mBufHeaders b) + length (mBufTimestamps b).

Definition generate (b : t) (fb_count : Z) : list Z :=
  let w := ByteWriter.writeU16 [] (mBaseSeq b) in
  let w := ByteWriter.writeU16 w (mPacketStatusCount b) in
  let reference_time := Z.quot (mRefTimeMicros b) kReferenceTimeUnits in
  let w := ByteWriter.writeU32 w (u32 (Z.lor (Z.shiftl reference_time 8) fb_count)) in
  ByteWriter.write (ByteWriter.write w (mBufHeaders b)) (mBufTimestamps b).

End Builder.

(** ** The arrivals *)

Module SubscribePacketHistory.

Definition kNoPacketsResetDelayMicros : Z := 2000 * 1000.
Definition kMaxPacketCount : Z := 2048.
Definition kMaxPacketMask : Z := kMaxPacketCount - 1.
Definition kGenerateIntervalMicros : Z := 100 * 1000.
Definition kMaxPacketSize : nat := 1000.

(** [received_time_micros] is 0 for a packet that has not come. *)
Record SubscribePacket := mkPacket { seq_ext : Z; received_time_micros : Z }.

(** [mPacketList]: the slots that are not null. *)
Record t := mk {
  mBaseTimeMicros : Z;
  mLastPacketMicros : Z;
  mLastGeneratedMicros : Z;
  mExtendedValueSeq : ExtendedValue.t;
  mPacketList : option (gmap Z SubscribePacket);
  mMinSeq : Z;
  mMaxSeq : Z;
  mFbCount : Z
}.

Definition make (base_time_micros : Z) : t := mk base_time_micros 0 0 ExtendedValue.make None 0 0 0.

Definition index (seq : Z) : Z := Z.land seq kMaxPacketMask.

Definition with_window (s : t) (slots : gmap Z SubscribePacket) (min max : Z) : t :=
  mk (mBaseTimeMicros s) (mLastPacketMicros s) (mLastGeneratedMicros s) (mExtendedValueSeq s) (Some slots) min max
     (mFbCount s).

(** Storing a packet in a slot that is asserted to be free. *)
Definition store (slots : gmap Z SubscribePacket) (seq time : Z) : option (gmap Z SubscribePacket) :=
  _ ← guard_true (bool_decide (slots !! index seq = None));
  Some (<[index seq := mkPacket seq time]> slots).

(** [deleteMinPacket], and a step of [advance]. *)
Definition deleteMinPacket (slots : gmap Z SubscribePacket) (min max : Z) : option (gmap Z SubscribePacket * Z) :=
  _ ← guard_true (min <? max);
  packet ← slots !! index min;
  Some (delete (index min) slots, u64 (min + 1)).

(** Room for the number [max] at the upper end. *)
Definition make_room (slots : gmap Z SubscribePacket) (min max : Z) : option (gmap Z SubscribePacket * Z) :=
  if u64 (max - min) =? kMaxPacketCount then deleteMinPacket slots min max else Some (slots, min).

(** [while (seq_ext > mMaxSeq)]: [n] numbers up to the new one. *)
Fixpoint extend_up (n : nat) (slots : gmap Z SubscribePacket) (min max : Z)
  : option (gmap Z SubscribePacket * Z * Z) :=
  match n with
  | O => Some (slots, min, max)
  | S n =>
      '(slots, min) ← make_room slots min max;
      slots ← store slots max 0;
      extend_up n slots min (u64 (max + 1))
  end.

(** [while (seq_ext + 1 < mMinSeq)]. *)
Fixpoint extend_down (n : nat) (slots : gmap Z SubscribePacket) (min : Z) : option (gmap Z SubscribePacket * Z) :=
  match n with
  | O => Some (slots, min)
  | S n => let min := u64 (min - 1) in slots ← store slots min 0; extend_down n slots min
  end.

(** Everything after the reset and the first packet. *)
Definition insert (s : t) (slots : gmap Z SubscribePacket) (seq_ext now_ext : Z) : option t :=
  let min := mMinSeq s in
  let max := mMaxSeq s in
  if u64 (seq_ext + kMaxPacketCount / 4) <? min then Some s
  else if u64 (max + kMaxPacketCount / 4) <? seq_ext then Some s
  else if max <=? seq_ext then
    '(slots, min, max) ← extend_up (Z.to_nat (seq_ext - max)) slots min max;
    '(slots, min) ← make_room slots min max;
    slots ← store slots seq_ext now_ext;
    let max := u64 (max + 1) in
    _ ← guard_true (u64 (max - min) <=? kMaxPacketCount);
    Some (with_window s slots min max)
  else if seq_ext <? min then
    if kMaxPacketCount <? u64 (max - seq_ext) then Some s
    else
      '(slots, min) ← extend_down (Z.to_nat (min - (seq_ext + 1))) slots min;
      slots ← store slots seq_ext now_ext;
      let min := u64 (min - 1) in
      _ ← guard_true (u64 (max - min) <=? kMaxPacketCount);
      Some (with_window s slots min max)
  else
    packet ← slots !! index seq_ext;
    Some (with_window s (<[index seq_ext := mkPacket (SubscribePacketHistory.seq_ext packet) now_ext]> slots) min max).

Definition seen (s : t) (now : Z) (e : ExtendedValue.t) (slots : option (gmap Z SubscribePacket)) : t :=
  mk (mBaseTimeMicros s) now (mLastGeneratedMicros s) e slots (mMinSeq s) (mMaxSeq s) (mFbCount s).

Definition saveIncomingPacket (s : t) (now_nanos seq now : Z) : option t :=
  let '(seq_ext, e) := ExtendedValue.extend 16 now_nanos (mExtendedValueSeq s) seq in
  let now_ext := now - mBaseTimeMicros s in
  let reset := negb (mLastPacketMicros s =? 0) && (kNoPacketsResetDelayMicros <=? now - mLastPacketMicros s)
               && (u64 (mMaxSeq s + kMaxPacketCount / 8) <? seq_ext) in
  let s := seen s now e (if reset then None else mPacketList s) in
  match mPacketList s with
  | Some slots =>
      if mMinSeq s =? mMaxSeq s then
        Some (with_window s (<[index seq_ext := mkPacket seq_ext now_ext]> slots) seq_ext (u64 (seq_ext + 1)))
      else insert s slots seq_ext now_ext
  | None =>
      Some (with_window s {[ index seq_ext := mkPacket seq_ext now_ext ]} seq_ext (u64 (seq_ext + 1)))
  end.

Definition isTimeToGenerate (s : t) (now_micros : Z) : bool :=
  kGenerateIntervalMicros <=? now_micros - mLastGeneratedMicros s.

(** *** Runs *)

(** The numbers of the window from [cur] that have not been received, [n] at
    most. *)
Fixpoint peek_not_received (n : nat) (slots : gmap Z SubscribePacket) (cur max : Z) : option Z :=
  match n with
  | O => Some 0
  | S n =>
      if cur <? max then
        packet ← slots !! index cur;
        if received_time_micros packet =? 0
        then count ← peek_not_received n slots (u64 (cur + 1)) max; Some (1 + count)
        else Some 0
      else Some 0
  end.

Definition peekNotReceivedRun (slots : gmap Z SubscribePacket) (min max : Z) : option Z :=
  peek_not_received (Z.to_nat 8191) slots min max.

(** The loop of [peekSmallDeltaRun] and [peekLargeDeltaRun], which differ in
    the bounds and in the number of packets: what a chunk would say of each of
    them, and the time of the last one received. *)
Fixpoint peek_run (lo hi : Z) (n : nat) (slots : gmap Z SubscribePacket) (cur max curr_time : Z)
  : option (list Builder.entry * Z) :=
  match n with
  | O => Some ([], curr_time)
  | S n =>
      if cur <? max then
        packet ← slots !! index cur;
        let time := received_time_micros packet in
        if time =? 0 then
          '(entries, curr_time) ← peek_run lo hi n slots (u64 (cur + 1)) max curr_time;
          Some (None :: entries, curr_time)
        else if (curr_time + lo <=? time) && (time <=? curr_time + hi) then
          '(entries, last_time) ← peek_run lo hi n slots (u64 (cur + 1)) max time;
          Some (Some (i32 (time - curr_time)) :: entries, last_time)
        else Some ([], curr_time)
      else Some ([], curr_time)
  end.

Definition peekSmallDeltaRun := peek_run kMinSmallDeltaMicros kMaxSmallDeltaMicros 14.
Definition peekLargeDeltaRun := peek_run kMinLargeDeltaMicros kMaxLargeDeltaMicros 7.

Fixpoint advance (n : nat) (slots : gmap Z SubscribePacket) (min max : Z) : option (gmap Z SubscribePacket * Z) :=
  match n with
  | O => Some (slots, min)
  | S n => '(slots, min) ← deleteMinPacket slots min max; advance n slots min max
  end.

(** *** Reports *)

(** The variables of the loop of [generate]. *)
Record reporting := mkReporting {
  slots : gmap Z SubscribePacket;
  min : Z;
  curr_time : Z;
  builder : Builder.t;
  fb_count : Z;
  reports : list (list Z)
}.

(** [list.push_back(builder->generate(mFbCount++))] and a new builder. *)
Definition flush (r : reporting) : reporting :=
  mkReporting (slots r) (min r) 0 Builder.make (u8 (fb_count r + 1))
    (reports r ++ [Builder.generate (builder r) (fb_count r)]).

Definition after_run (r : reporting) (max curr_time count : Z) (b : Builder.t) : option reporting :=
  '(slots, min) ← advance (Z.to_nat count) (slots r) (min r) max;
  Some (mkReporting slots min curr_time b (fb_count r) (reports r)).

(** A received packet: its reference time if it is the first, then a chunk of
    small or large deltas, or neither. *)
Definition report_received (r : reporting) (max : Z) (packet : SubscribePacket) : option reporting :=
  let first := curr_time r =? 0 in
  let time := if first then Z.quot (received_time_micros packet) kReferenceTimeUnits * kReferenceTimeUnits
              else curr_time r in
  b ← (if first then Builder.setReferenceTime (builder r) time else Some (builder r));
  let r := mkReporting (slots r) (min r) time b (fb_count r) (reports r) in
  '(small, small_time) ← peekSmallDeltaRun (slots r) (min r) max time;
  let count := Z.of_nat (length small) in
  if (count =? 14) || (u64 (min r + count) =? max) then
    b ← Builder.addSmallDeltaRun b (seq_ext packet) small;
    after_run r max small_time count b
  else
    '(large, large_time) ← peekLargeDeltaRun (slots r) (min r) max time;
    let count := Z.of_nat (length large) in
    if (count =? 7) || (u64 (min r + count) =? max) then
      b ← Builder.addLargeDeltaRun b (seq_ext packet) large;
      after_run r max large_time count b
    else Some (if Builder.empty b then r else flush r).

(** One round of the loop. *)
Definition report_round (r : reporting) (max : Z) : option reporting :=
  packet ← slots r !! index (min r);
  r ← (if received_time_micros packet =? 0 then
         count ← peekNotReceivedRun (slots r) (min r) max;
         _ ← guard_true ((1 <=? count) && (count <=? 8191));
         b ← Builder.addNotReceivedRun (builder r) (seq_ext packet) count;
         after_run r max (curr_time r) count b
       else report_received r max packet);
  Some (if (kMaxPacketSize <=? Builder.size (builder r))%nat then flush r else r).

Fixpoint report_loop (fuel : nat) (r : reporting) (max : Z) : option reporting :=
  if min r <? max then
    match fuel with
    | O => None
    | S fuel => r ← report_round r max; report_loop fuel r max
    end
  else Some r.

(** A round takes a packet or ends a report that is not empty. *)
Definition rounds (s : t) : nat := 2 * Z.to_nat (mMaxSeq s - mMinSeq s) + 1.

Definition generate (s : t) (now_micros : Z) : option (list (list Z) * t) :=
  r ← report_loop (rounds s)
        (mkReporting (default ∅ (mPacketList s)) (mMinSeq s) 0 Builder.make (mFbCount s) []) (mMaxSeq s);
  let r := if Builder.empty (builder r) then r else flush r in
  Some (reports r,
    mk (mBaseTimeMicros s) (mLastPacketMicros s) now_micros (mExtendedValueSeq s)
       (if mPacketList s then Some (slots r) else None) (min r) (mMaxSeq s) (fb_count r)).

End SubscribePacketHistory.

(** ** The responder *)

Module RtpResponderTWCC.
Import SubscribePacketHistory.

Definition make (now : Z) : t := SubscribePacketHistory.make now.

Definition getExtensionId (track : Track.t) : Z :=
  Media.findByName (Track.mMedia track) RtpStandardExtensions.kExtGoogleTWCC.

Definition onMediaPacket (packet : RtpPacket.t) (now_nanos now : Z) (s : t) : option t :=
  let ext_id := getExtensionId (RtpPacket.mTrack packet) in
  if ext_id =? 0 then Some s
  else
    seq ← RtpExtension.findU16 (RtpPacket.mExtension packet) ext_id;
    match seq with
    | None => Some s
    | Some seq => saveIncomingPacket s now_nanos seq now
    end.

Definition feedback (ssrc : Z) (raw : list Z) : RtcpPacket.t :=
  RtcpPacket.mk ssrc 15 RtcpPacket.kFeedback (ByteWriter.write (ByteWriter.writeU32 [] ssrc) raw).

Definition run (track : Track.t) (now_micros : Z) (s : t) : option (list RtcpPacket.t * t) :=
  if isTimeToGenerate s now_micros then
    '(raw_list, s) ← generate s now_micros;
    Some (map (feedback (Track.mSSRC track)) raw_list, s)
  else Some ([], s).

End RtpResponderTWCC.
