(* ===== verification/TwccPublish.v ===== *)
(** * Transport-wide congestion control: the publisher

    [PublishPacketHistory] (src/twcc_publish.cpp, include/srtc/twcc_publish.h),
    the [Filter] of src/util.cpp, and the feedback half of
    [RtpExtensionSourceTWCC] (src/rtp_extension_source_twcc.cpp): the packets
    sent, in a ring of 2048 slots, what the peer reports of them, and the
    estimates made of it.

    A pointer to a packet is the index of its slot.  [float] and [double] are
    the IEEE 754 numbers of [SpecFloat], one rounding per operation (the code is
    compiled without contraction).  Clocks are arguments: [now] in microseconds
    ([getStableTimeMicros()]), [now_nanos] of [steady_clock]. *)

From Stdlib Require Import Floats.SpecFloat.
From stdpp Require Import gmap strings sorting.
From S2P Require Import Prelude Bytes Extension Tracks Rtp Rtcp ExtensionSources Twcc.

(** ** Floating point *)

Module Float.

Definition f32 (z : Z) : spec_float := binary_normalize 24 128 z 0 false.
Definition mul32 := SFmul 24 128.
Definition div32 := SFdiv 24 128.
Definition add32 := SFadd 24 128.
Definition sub32 := SFsub 24 128.

Definition f64 (z : Z) : spec_float := binary_normalize 53 1024 z 0 false.
Definition mul64 := SFmul 53 1024.
Definition div64 := SFdiv 53 1024.
Definition add64 := SFadd 53 1024.
Definition sub64 := SFsub 53 1024.

(** [std::clamp]. *)
Definition clamp (v lo hi : spec_float) : spec_float :=
  if SFltb v lo then lo else if SFltb hi v then hi else v.

(** Conversion to an integer, towards zero; none of what is not finite. *)
Definition truncate (v : spec_float) : option Z :=
  match v with
  | S754_zero _ => Some 0
  | S754_finite s m e =>
      let z := if 0 <=? e then Z.pos m * 2 ^ e else Z.pos m / 2 ^ (- e) in
      Some (if s then - z else z)
  | _ => None
  end.

End Float.
Import Float.

Module Filter.

(** [mWhenUpdated] is [None] for [time_point::min()]. *)
Record t := mk { mFactor : spec_float; mValue : option spec_float; mWhenUpdated : option Z }.

Definition make (factor : spec_float) : t := mk factor None None.

Definition update (f : t) (value : spec_float) (now : Z) : t :=
  mk (mFactor f)
     (Some match mValue f with
           | Some old => add32 (mul32 old (sub32 (f32 1) (mFactor f))) (mul32 value (mFactor f))
           | None => value
           end)
     (Some now).

Definition value (f : t) : spec_float := default (f32 0) (mValue f).

Definition isRecentlyUpdated (f : t) (now recentEnough : Z) : bool :=
  match mWhenUpdated f with Some when => now - when <=? recentEnough | None => false end.

End Filter.

(** ** The packets sent *)

Module PublishPacketHistory.

Definition kMaxPacketCount : Z := 2048.
Definition kMaxPacketMask : Z := kMaxPacketCount - 1.
Definition kMaxRecentEnough : Z := 3000 * 1000000.
Definition kActualCalculateMinPackets : Z := 30.
Definition kActualCalculateMinMicros : Z := 1000 * 1000.
Definition kTrendCalculateMinPackets : Z := 15.
Definition kTrendCalculateMinMicros : Z := 100 * 1000.
Definition kSlopeThreshold : spec_float := div64 (f64 1) (f64 10).
Definition kOverusingSinceMicros : Z := 2 * 1000 * 1000.
Definition kOverusingCount : Z := 10.
Definition kProbeCalculateMinPackets : Z := 30.
Definition kProbeCalculateMinMicros : Z := 500 * 1000.
Definition kProbeMinPacketCount : Z := 10.
Definition kProbeMinDurationMicros : Z := 800 * 1000.

Record PublishPacket := mkPacket {
  sent_time_micros : Z;
  received_time_micros : Z;
  padding_size : Z;
  payload_size : Z;
  generated_size : Z;
  encrypted_size : Z;
  seq : Z;
  nack_count : Z;
  media_type : MediaType;
  reported_status : Z;
  reported_as_not_received : bool;
  reported_checked : bool;
  received_time_present : bool
}.

(** All bytes zero. *)
Definition zero : PublishPacket := mkPacket 0 0 0 0 0 0 0 0 Video 0 false false false.

Definition set_reported (p : PublishPacket) (status : Z) : PublishPacket :=
  mkPacket (sent_time_micros p) (received_time_micros p) (padding_size p) (payload_size p) (generated_size p)
    (encrypted_size p) (seq p) (nack_count p) (media_type p) status (reported_as_not_received p) (reported_checked p)
    (received_time_present p).

Definition set_received (p : PublishPacket) (time : Z) : PublishPacket :=
  mkPacket (sent_time_micros p) time (padding_size p) (payload_size p) (generated_size p)
    (encrypted_size p) (seq p) (nack_count p) (media_type p) (reported_status p) (reported_as_not_received p)
    (reported_checked p) true.

Definition set_nacked (p : PublishPacket) : PublishPacket :=
  mkPacket (sent_time_micros p) (received_time_micros p) (padding_size p) (payload_size p) (generated_size p)
    (encrypted_size p) (seq p) (u16 (nack_count p + 1)) (media_type p) (reported_status p)
    (reported_as_not_received p) (reported_checked p) (received_time_present p).

(** [reported_checked], and [reported_as_not_received] if that is the status. *)
Definition set_checked (p : PublishPacket) : PublishPacket :=
  mkPacket (sent_time_micros p) (received_time_micros p) (padding_size p) (payload_size p) (generated_size p)
    (encrypted_size p) (seq p) (nack_count p) (media_type p) (reported_status p)
    (if reported_status p =? kSTATUS_NOT_RECEIVED then true else reported_as_not_received p) true
    (received_time_present p).

Inductive TrendlineEstimate := kNormal | kOveruse | kUnderuse.

Record LastPacketInfo := mkLast { last_seq : Z; last_sent : Z }.

Definition isEnough (l : LastPacketInfo) (max : PublishPacket) (minPackets minMicros : Z) : bool :=
  (minPackets <=? u16 (seq max - last_seq l)) && (minMicros <=? sent_time_micros max - last_sent l).

Definition last_update (max : PublishPacket) : LastPacketInfo := mkLast (seq max) (sent_time_micros max).

(** What is computed from the packets. *)
Record estimates := mkEstimates {
  mInstantPacketLossPercent : spec_float;
  mPacketsLostPercentFilter : Filter.t;
  mBandwidthActualFilter : Filter.t;
  mInstantTrendlineEstimate : TrendlineEstimate;
  mSmoothedTrendlineEstimate : TrendlineEstimate;
  mOverusingSinceMicros : Z;
  mOverusingCount : Z;
  mProbeBitsPerSecond : spec_float
}.

Record t := mk {
  mMinSeq : Z;
  mMaxSeq : Z;
  mPacketList : option (gmap Z PublishPacket);
  mEstimates : estimates;
  mLastMaxForBandwidthActual : LastPacketInfo;
  mLastMaxForBandwidthProbe : LastPacketInfo;
  mLastMaxForBandwidthTrend : LastPacketInfo
}.

Definition make : t :=
  let factor := div32 (f32 2) (f32 10) in
  mk 0 0 None
     (mkEstimates (f32 0) (Filter.make factor) (Filter.make factor) kNormal kNormal (-1) 0 (f32 0))
     (mkLast 0 0) (mkLast 0 0) (mkLast 0 0).

Definition index (seq : Z) : Z := Z.land seq kMaxPacketMask.

(** [mPacketList\[i\]]: the array is zeroed when it is made. *)
Definition at_slot (slots : gmap Z PublishPacket) (i : Z) : PublishPacket := default zero (slots !! i).

Definition with_list (s : t) (slots : gmap Z PublishPacket) (min max : Z) : t :=
  mk min max (Some slots) (mEstimates s) (mLastMaxForBandwidthActual s) (mLastMaxForBandwidthProbe s)
     (mLastMaxForBandwidthTrend s).

Definition with_slots (s : t) (slots : gmap Z PublishPacket) : t := with_list s slots (mMinSeq s) (mMaxSeq s).

(** *** Saving and finding *)

Definition saved (seq : Z) (media : MediaType) (paddingSize payloadSize generatedSize encryptedSize now : Z) : PublishPacket :=
  mkPacket now 0 (u16 paddingSize) (u16 payloadSize) (u16 generatedSize) (u16 encryptedSize) seq 0 media 0 false false false.

(** The loop that moves the window up to [seq], clearing slots. *)
Fixpoint save_loop (fuel : nat) (slots : gmap Z PublishPacket) (min max seq : Z)
  : option (gmap Z PublishPacket * Z * Z) :=
  match fuel with
  | O => None
  | S fuel =>
      let min := if Z.land (max + 0x10000 - min) 0xFFFF + 1 =? kMaxPacketCount then u16 (min + 1) else min in
      let max := u16 (max + 1) in
      let slots := <[index max := zero]> slots in
      if max =? seq then Some (slots, min, max) else save_loop fuel slots min max seq
  end.

(** Enough rounds for a 16-bit number to come back to itself. *)
Definition lap : nat := Z.to_nat 0x10000.

Lemma lap_enough : Z.of_nat lap = 2 ^ 16.
Proof. unfold lap. by rewrite Z2Nat.id. Qed.

#[global] Opaque lap.

Definition saveOutgoingPacket (s : t) (seq : Z) (media : MediaType)
  (paddingSize payloadSize generatedSize encryptedSize now : Z) : option t :=
  '(slots, min, max) ←
    (match mPacketList s with
     | None => Some (∅, seq, seq)
     | Some slots => save_loop lap slots (mMinSeq s) (mMaxSeq s) seq
     end);
  Some (with_list s
    (<[index seq := saved seq media paddingSize payloadSize generatedSize encryptedSize now]> slots) min max).

(** The slot of a number of the window, [None] for [nullptr]. *)
Definition get (s : t) (seq : Z) : option Z :=
  match mPacketList s with
  | None => None
  | Some _ =>
      if mMinSeq s <=? mMaxSeq s then
        if (mMinSeq s <=? seq) && (seq <=? mMaxSeq s) then Some (index seq) else None
      else if (mMinSeq s <=? seq) || (seq <=? mMaxSeq s) then Some (index seq) else None
  end.

(** [ptr->member = ...] through a pointer from [get]. *)
Definition modify (s : t) (f : PublishPacket -> PublishPacket) (i : Z) : t :=
  match mPacketList s with
  | Some slots => with_slots s (<[i := f (at_slot slots i)]> slots)
  | None => s
  end.

Definition getPacketCount (s : t) : Z :=
  match mPacketList s with
  | None => 0
  | Some _ => Z.land (mMaxSeq s - mMinSeq s + 1 + 0x10000) 0xFFFF
  end.

Definition isReceived (p : PublishPacket) : bool :=
  (reported_status p =? kSTATUS_RECEIVED_SMALL_DELTA) || (reported_status p =? kSTATUS_RECEIVED_LARGE_DELTA).

(** A loop [for (uint16_t seq = from;;)] downwards that ends at [min]: [f] says
    whether to go on, with the state it threads. *)
Fixpoint backwards {A} (fuel : nat) (f : A -> Z -> bool * A) (a : A) (seq min : Z) : option A :=
  match fuel with
  | O => None
  | S fuel =>
      let '(go_on, a) := f a seq in
      if negb go_on then Some a else if seq =? min then Some a else backwards fuel f a (u16 (seq - 1)) min
  end.

Definition findMostRecentReceivedPacket (s : t) : option (option Z) :=
  match mPacketList s with
  | None => Some None
  | Some slots =>
      backwards lap
        (fun _ seq => if isReceived (at_slot slots (index seq)) then (false, Some (index seq)) else (true, None))
        None (mMaxSeq s) (mMinSeq s)
  end.

(** "Calculate which packets have not been received". *)
Definition mark (slots : gmap Z PublishPacket) (seq : Z) : bool * gmap Z PublishPacket :=
  let p := at_slot slots (index seq) in
  if reported_checked p then (false, slots) else (true, <[index seq := set_checked p]> slots).

(** *** Actual bandwidth *)

(** Lost and nacked packets, over the window upwards. *)
Fixpoint count_lost (fuel : nat) (slots : gmap Z PublishPacket) (lost nacked seq max : Z) : option (Z * Z) :=
  match fuel with
  | O => None
  | S fuel =>
      let p := at_slot slots (index seq) in
      let lost := if reported_as_not_received p then u32 (lost + 1) else lost in
      let nacked := if 0 <? nack_count p then u32 (nacked + nack_count p) else nacked in
      if seq =? max then Some (lost, nacked) else count_lost fuel slots lost nacked (u16 (seq + 1)) max
  end.

Definition ActualItem : Type := Z * Z.

Definition gather_actual (slots : gmap Z PublishPacket) (max : PublishPacket) (buf : list ActualItem) (seq : Z)
  : bool * list ActualItem :=
  let p := at_slot slots (index seq) in
  if received_time_present p then
    let buf := buf ++ [(u64 (received_time_micros p), payload_size p)] in
    (negb ((kActualCalculateMinMicros <=? received_time_micros max - received_time_micros p)
           && (kActualCalculateMinPackets <=? Z.of_nat (length buf))), buf)
  else (true, buf).

(** [CompareActualItem], the latest first. *)
Definition later (a b : ActualItem) : Prop := b.1 <= a.1.
#[global] Instance later_dec : RelDecision later.
Proof. intros a b. unfold later. apply _. Defined.

Definition million : spec_float := f32 1000000.

(** A size in bytes over a time in microseconds, in bits per second. *)
Definition bits_per_second (size micros : Z) : spec_float :=
  div32 (mul32 (mul32 (f32 size) (f32 8)) million) (f32 micros).

Definition loss_percent (lost nacked total : Z) : spec_float :=
  clamp (div32 (mul32 (f32 100) (f32 (Z.max lost nacked))) (f32 total)) (f32 0) (f32 100).

Definition with_loss (e : estimates) (percent : spec_float) (now_nanos : Z) : estimates :=
  mkEstimates percent (Filter.update (mPacketsLostPercentFilter e) percent now_nanos) (mBandwidthActualFilter e)
    (mInstantTrendlineEstimate e) (mSmoothedTrendlineEstimate e) (mOverusingSinceMicros e) (mOverusingCount e)
    (mProbeBitsPerSecond e).

Definition with_actual (e : estimates) (bits : spec_float) (now_nanos : Z) : estimates :=
  mkEstimates (mInstantPacketLossPercent e) (mPacketsLostPercentFilter e)
    (Filter.update (mBandwidthActualFilter e) bits now_nanos)
    (mInstantTrendlineEstimate e) (mSmoothedTrendlineEstimate e) (mOverusingSinceMicros e) (mOverusingCount e)
    (mProbeBitsPerSecond e).

(** The result is [return true]; [max] is the slot of the packet. *)
Definition calculateBandwidthActual (s : t) (slots : gmap Z PublishPacket) (now_nanos max : Z)
  : option (bool * estimates) :=
  let e := mEstimates s in
  let total := getPacketCount s in
  if total <? kActualCalculateMinPackets then Some (false, e)
  else
    '(lost, nacked) ← count_lost lap slots 0 0 (mMinSeq s) (mMaxSeq s);
    let e := with_loss e (loss_percent lost nacked total) now_nanos in
    buf ← backwards lap (gather_actual slots (at_slot slots max)) [] (seq (at_slot slots max)) (mMinSeq s);
    if Z.of_nat (length buf) <? kActualCalculateMinPackets then Some (false, e)
    else
      let buf := merge_sort later buf in
      front ← head buf;
      back ← list.last buf;
      _ ← guard_true (back.1 <=? front.1);
      let durationMicros := u64 (front.1 - back.1) in
      if durationMicros <? kActualCalculateMinMicros then Some (false, e)
      else
        let totalSize := u64 (foldl (fun sum item => sum + item.2) 0 buf) in
        Some (true, with_actual e (bits_per_second totalSize durationMicros) now_nanos).

(** *** Probe bandwidth *)

(** The loop over the window: the latest and the earliest packet of the span
    with padding, and the counts. *)
Record probe := mkProbe {
  endPtr : option Z;
  startPtr : option Z;
  totalCount : Z;
  paddingPresentCount : Z;
  paddingAbsentRunCount : Z
}.

Definition probe_count (p : PublishPacket) (i : Z) (pr : probe) : probe :=
  if 0 <? padding_size p then
    mkProbe (Some (default i (endPtr pr))) (startPtr pr) (u32 (totalCount pr + 1)) (u32 (paddingPresentCount pr + 1)) 0
  else if endPtr pr then
    match media_type p with
    | Audio => pr
    | Video => mkProbe (endPtr pr) (startPtr pr) (u32 (totalCount pr + 1)) (paddingPresentCount pr)
                       (u32 (paddingAbsentRunCount pr + 1))
    end
  else pr.

Definition probe_step (slots : gmap Z PublishPacket) (pr : probe) (seq : Z) : bool * probe :=
  let i := index seq in
  let p := at_slot slots i in
  let pr := probe_count p i pr in
  match endPtr pr with
  | Some last =>
      if 0 <? padding_size p then
        let enough :=
          (kProbeMinPacketCount <=? paddingPresentCount pr) &&
          (u32 (totalCount pr * 8) / 10 <=? paddingPresentCount pr) &&
          (kProbeMinDurationMicros <=? received_time_micros (at_slot slots last) - received_time_micros p) in
        let pr := if enough then mkProbe (endPtr pr) (Some i) (totalCount pr) (paddingPresentCount pr)
                                         (paddingAbsentRunCount pr) else pr in
        (negb (bool_decide (is_Some (startPtr pr)) && (10 <=? paddingAbsentRunCount pr)), pr)
      else (true, pr)
  | None => (true, pr)
  end.

Definition span_size (slots : gmap Z PublishPacket) (size seq : Z) : bool * Z :=
  let p := at_slot slots (index seq) in
  (true, u64 (size + (payload_size p + padding_size p))).

Definition with_probe (e : estimates) (bits : spec_float) : estimates :=
  mkEstimates (mInstantPacketLossPercent e) (mPacketsLostPercentFilter e) (mBandwidthActualFilter e)
    (mInstantTrendlineEstimate e) (mSmoothedTrendlineEstimate e) (mOverusingSinceMicros e) (mOverusingCount e) bits.

Definition calcualteBandwidthProbe (s : t) (slots : gmap Z PublishPacket) : option (bool * estimates) :=
  let e := mEstimates s in
  if getPacketCount s <? kProbeCalculateMinPackets then Some (false, e)
  else
    pr ← backwards lap (probe_step slots) (mkProbe None None 0 0 0) (mMaxSeq s) (mMinSeq s);
    match startPtr pr, endPtr pr with
    | Some first, Some last =>
        let first := at_slot slots first in
        let last := at_slot slots last in
        spanDataSize ← backwards lap (span_size slots) 0 (seq last) (seq first);
        Some (true, with_probe e (bits_per_second spanDataSize (received_time_micros last - received_time_micros first)))
    | _, _ => Some (false, e)
    end.

(** *** Bandwidth trend *)

Definition TrendItem : Type := spec_float * spec_float.

Definition gather_trend (slots : gmap Z PublishPacket) (max : PublishPacket) (min : Z) (buf : list TrendItem) (seq : Z)
  : bool * list TrendItem :=
  let curr := at_slot slots (index seq) in
  if received_time_present curr && negb (seq =? min) then
    let prev := at_slot slots (index (u16 (seq - 1))) in
    if received_time_present prev then
      let sent_millis := div64 (f64 (sent_time_micros curr)) (f64 1000) in
      let sent_delta := sent_time_micros curr - sent_time_micros prev in
      let received_delta := received_time_micros curr - received_time_micros prev in
      let inter_delta_millis := div64 (f64 (received_delta - sent_delta)) (f64 1000) in
      let buf := buf ++ [(sent_millis, inter_delta_millis)] in
      (negb ((kTrendCalculateMinMicros <=? received_time_micros max - received_time_micros curr)
             && (kTrendCalculateMinPackets <=? Z.of_nat (length buf))), buf)
    else (true, buf)
  else (true, buf).

(** The slope of the line of least squares. *)
Definition calculateSlope (items : list TrendItem) : option spec_float :=
  match items with
  | [] => None
  | _ =>
      let total := f64 (Z.of_nat (length items)) in
      let mean_x := div64 (foldl (fun sum item => add64 sum item.1) (f64 0) items) total in
      let mean_y := div64 (foldl (fun sum item => add64 sum item.2) (f64 0) items) total in
      let '(numerator, denominator) :=
        foldl (fun '(n, d) item =>
                 let dx := sub64 item.1 mean_x in
                 let dy := sub64 item.2 mean_y in
                 (add64 n (mul64 dx dy), add64 d (mul64 dx dx))) (f64 0, f64 0) items in
      if SFltb denominator (div64 (f64 1) (f64 100)) then None else Some (div64 numerator denominator)
  end.

Definition with_trend (e : estimates) (instant smoothed : TrendlineEstimate) (since count : Z) (probe : spec_float)
  : estimates :=
  mkEstimates (mInstantPacketLossPercent e) (mPacketsLostPercentFilter e) (mBandwidthActualFilter e)
    instant smoothed since count probe.

Definition apply_slope (e : estimates) (now : Z) (slope : spec_float) : estimates :=
  if SFleb kSlopeThreshold slope then
    let '(since, count) :=
      if mOverusingSinceMicros e =? -1 then (now, 0) else (mOverusingSinceMicros e, mOverusingCount e) in
    let count := u16 (count + 1) in
    if (kOverusingSinceMicros <=? now - since) && (kOverusingCount <=? count)
    then with_trend e kOveruse kOveruse since count (f32 0)
    else with_trend e kOveruse (mSmoothedTrendlineEstimate e) since count (mProbeBitsPerSecond e)
  else if SFleb slope (SFopp kSlopeThreshold) then
    with_trend e kUnderuse kUnderuse (-1) 0 (mProbeBitsPerSecond e)
  else with_trend e kNormal kNormal (-1) 0 (mProbeBitsPerSecond e).

Definition calculateBandwidthTrend (s : t) (slots : gmap Z PublishPacket) (now max : Z) : option (bool * estimates) :=
  let e := mEstimates s in
  if getPacketCount s =? 0 then Some (false, e)
  else
    let max := at_slot slots max in
    buf ← backwards lap (gather_trend slots max (mMinSeq s)) [] (seq max) (mMinSeq s);
    if Z.of_nat (length buf) <? kTrendCalculateMinPackets then Some (false, e)
    else match calculateSlope (reverse buf) with
         | None => Some (false, e)
         | Some slope => Some (true, apply_slope e now slope)
         end.

(** *** After a report *)

Definition with_estimates (s : t) (e : estimates) (actual probe trend : LastPacketInfo) : t :=
  mk (mMinSeq s) (mMaxSeq s) (mPacketList s) e actual probe trend.

Definition update_actual (s : t) (slots : gmap Z PublishPacket) (now_nanos max : Z) : option t :=
  let last := mLastMaxForBandwidthActual s in
  if isEnough last (at_slot slots max) kActualCalculateMinPackets kActualCalculateMinMicros then
    '(done, e) ← calculateBandwidthActual s slots now_nanos max;
    Some (with_estimates s e (if (done : bool) then last_update (at_slot slots max) else last)
            (mLastMaxForBandwidthProbe s) (mLastMaxForBandwidthTrend s))
  else Some s.

Definition update_probe (s : t) (slots : gmap Z PublishPacket) (max : Z) : option t :=
  let last := mLastMaxForBandwidthProbe s in
  if isEnough last (at_slot slots max) kProbeCalculateMinPackets kProbeCalculateMinMicros then
    '(done, e) ← calcualteBandwidthProbe s slots;
    Some (with_estimates s e (mLastMaxForBandwidthActual s)
            (if (done : bool) then last_update (at_slot slots max) else last) (mLastMaxForBandwidthTrend s))
  else Some s.

Definition update_trend (s : t) (slots : gmap Z PublishPacket) (now max : Z) : option t :=
  let last := mLastMaxForBandwidthTrend s in
  if isEnough last (at_slot slots max) kTrendCalculateMinPackets kTrendCalculateMinMicros then
    '(done, e) ← calculateBandwidthTrend s slots now max;
    Some (with_estimates s e (mLastMaxForBandwidthActual s) (mLastMaxForBandwidthProbe s)
            (if (done : bool) then last_update (at_slot slots max) else last))
  else Some s.

Definition update (s : t) (now_nanos now : Z) : option t :=
  max ← findMostRecentReceivedPacket s;
  match max, mPacketList s with
  | Some max, Some slots =>
      slots ← backwards lap mark slots (seq (at_slot slots max)) (mMinSeq s);
      let s := with_slots s slots in
      s ← update_actual s slots now_nanos max;
      s ← update_probe s slots max;
      update_trend s slots now max
  | _, _ => Some s
  end.

(** *** What is made of the estimates *)

(** [None]: a conversion to [unsigned int] of a number that has none. *)
Definition getPacingSpreadMillis (s : t) (now_nanos totalSize : Z) (bandwidthScale : spec_float) (defaultValue : Z)
  : option Z :=
  let f := mBandwidthActualFilter (mEstimates s) in
  if bool_decide (is_Some (mPacketList s)) && Filter.isRecentlyUpdated f now_nanos kMaxRecentEnough
     && SFleb (f32 10000) (Filter.value f) then
    let bytesPerSecond := div32 (mul32 (Filter.value f) bandwidthScale) (f32 8) in
    let spread := div32 (f32 (u64 (1000 * totalSize))) bytesPerSecond in
    let safe := mul32 (clamp spread (f32 16) (div32 (f32 666) (f32 10))) (div32 (f32 8) (f32 10)) in
    truncate safe
  else Some defaultValue.

(** The fields of [PublishConnectionStats] that are written. *)
Record PublishConnectionStats := mkStats {
  packets_lost_percent : spec_float;
  bandwidth_actual_kbit_per_second : spec_float;
  bandwidth_suggested_kbit_per_second : spec_float
}.

Definition updatePublishConnectionStats (s : t) (now_nanos : Z) (stats : PublishConnectionStats) : PublishConnectionStats :=
  match mPacketList s with
  | None => stats
  | Some _ =>
      let e := mEstimates s in
      let lost := if Filter.isRecentlyUpdated (mPacketsLostPercentFilter e) now_nanos kMaxRecentEnough
                  then Filter.value (mPacketsLostPercentFilter e) else packets_lost_percent stats in
      let actual := if Filter.isRecentlyUpdated (mBandwidthActualFilter e) now_nanos kMaxRecentEnough
                    then div32 (Filter.value (mBandwidthActualFilter e)) (f32 1024)
                    else bandwidth_actual_kbit_per_second stats in
      let overuse := match mSmoothedTrendlineEstimate e with kOveruse => true | _ => false end in
      let probe := div32 (mProbeBitsPerSecond e) (f32 1024) in
      let suggested :=
        if SFleb (f32 10) lost || overuse then mul32 actual (div32 (f32 9) (f32 10))
        else if SFltb actual probe then probe else actual in
      mkStats lost actual suggested
  end.

Definition shouldStopProbing (s : t) : bool :=
  SFleb (f32 10) (mInstantPacketLossPercent (mEstimates s))
  || match mInstantTrendlineEstimate (mEstimates s) with kOveruse => true | _ => false end.

End PublishPacketHistory.

(** ** The source of the extension, with its history *)

Module RtpExtensionSourceTWCC.

Record t := mk { source : TWCC.t; mPacketHistory : PublishPacketHistory.t }.

Definition make : t := mk TWCC.make PublishPacketHistory.make.

Definition with_history (s : t) (h : PublishPacketHistory.t) : t := mk (source s) h.

Definition onBeforeSendingRtpPacket (packet : RtpPacket.t) (generatedSize encryptedSize now : Z) (s : t) : option t :=
  seq ← TWCC.getFeedbackSeq packet;
  match seq with
  | None => Some s
  | Some seq =>
      h ← PublishPacketHistory.saveOutgoingPacket (mPacketHistory s) seq (Track.mMediaType (RtpPacket.mTrack packet))
            (RtpPacket.mPaddingSize packet) (Z.of_nat (RtpPacket.getPayloadSize packet)) generatedSize encryptedSize now;
      Some (with_history s h)
  end.

Definition onPacketWasNacked (packet : RtpPacket.t) (s : t) : option t :=
  seq ← TWCC.getFeedbackSeq packet;
  Some match seq ≫= PublishPacketHistory.get (mPacketHistory s) with
       | None => s
       | Some ptr => with_history s (PublishPacketHistory.modify (mPacketHistory s) PublishPacketHistory.set_nacked ptr)
       end.

(** *** A report *)

(** [mTempPacketBuffer]: status and delta of each packet of the report. *)
Definition TempPacket : Type := Z * Z.

Definition set_status (l : list TempPacket) (index symbol : Z) : option (list TempPacket) :=
  _ ← guard_true (index <? Z.of_nat (length l));
  Some (<[Z.to_nat index := (symbol, default 0 (snd <$> l !! Z.to_nat index))]> l).

(** The symbols of a chunk, one after the other: [past_end] ends the loop. *)
Fixpoint put_symbols (symbols : list Z) (l : list TempPacket) (base seq past_end : Z) : option (list TempPacket * Z) :=
  match symbols with
  | [] => Some (l, seq)
  | symbol :: rest =>
      l ← set_status l (Z.land (seq + 0x10000 - base) 0xffff) symbol;
      let seq := u16 (seq + 1) in
      if seq =? past_end then Some (l, seq) else put_symbols rest l base seq past_end
  end.

(** The symbols a status vector chunk has: 14 of one bit or 7 of two. *)
Definition vector1 (header : Z) : list Z :=
  map (fun shift => if Z.land (Z.shiftr header (shift - 1)) 1 =? 0
                    then kSTATUS_NOT_RECEIVED else kSTATUS_RECEIVED_SMALL_DELTA)
      [14; 13; 12; 11; 10; 9; 8; 7; 6; 5; 4; 3; 2; 1].

Definition vector2 (header : Z) : list Z :=
  map (fun shift => Z.land (Z.shiftr header (shift - 2)) 3) [14; 12; 10; 8; 6; 4; 2].

(** The loop over the chunks; the result is false for [return]. *)
Fixpoint chunks (fuel : nat) (r : ByteReader.t) (l : list TempPacket) (base seq past_end : Z)
  : option (bool * list TempPacket * ByteReader.t) :=
  if seq =? past_end then Some (true, l, r)
  else match fuel with
  | O => None
  | S fuel =>
      if (ByteReader.remaining r <? 2)%nat then Some (false, l, r)
      else
        '(chunkHeader, r) ← ByteReader.readU16 r;
        if Z.land (Z.shiftr chunkHeader 15) 1 =? kCHUNK_RUN_LENGTH then
          let symbol := Z.land (Z.shiftr chunkHeader 13) 3 in
          let runLength := Z.land chunkHeader 0x1FFF in
          let remaining := u16 (past_end - seq) in
          if remaining <? runLength then Some (true, l, r)
          else
            '(l, seq) ← put_symbols (replicate (Z.to_nat runLength) symbol) l base seq past_end;
            chunks fuel r l base seq past_end
        else if Z.land (Z.shiftr chunkHeader 14) 1 =? 0 then
          '(l, seq) ← put_symbols (vector1 chunkHeader) l base seq past_end;
          chunks fuel r l base seq past_end
        else
          '(l, seq) ← put_symbols (vector2 chunkHeader) l base seq past_end;
          chunks fuel r l base seq past_end
  end.

Definition report_status (h : PublishPacketHistory.t) (seq status : Z) : PublishPacketHistory.t :=
  match PublishPacketHistory.get h (u16 seq) with
  | Some ptr => PublishPacketHistory.modify h (fun p => PublishPacketHistory.set_reported p status) ptr
  | None => h
  end.

(** "Read the time deltas": the packets of the list from number [seq] on. *)
Fixpoint read_deltas (l : list TempPacket) (seq : Z) (r : ByteReader.t) (h : PublishPacketHistory.t)
  : option (bool * list TempPacket * ByteReader.t * PublishPacketHistory.t) :=
  match l with
  | [] => Some (true, [], r, h)
  | (symbol, old) :: rest =>
      if symbol =? kSTATUS_RECEIVED_SMALL_DELTA then
        if (ByteReader.remaining r <? 1)%nat then Some (false, l, r, h)
        else
          '(delta, r) ← ByteReader.readU8 r;
          '(go_on, rest, r, h) ← read_deltas rest (seq + 1) r (report_status h seq kSTATUS_RECEIVED_SMALL_DELTA);
          Some (go_on, (symbol, 250 * delta) :: rest, r, h)
      else if symbol =? kSTATUS_RECEIVED_LARGE_DELTA then
        if (ByteReader.remaining r <? 2)%nat then Some (false, l, r, h)
        else
          '(delta, r) ← ByteReader.readU16 r;
          '(go_on, rest, r, h) ← read_deltas rest (seq + 1) r (report_status h seq kSTATUS_RECEIVED_LARGE_DELTA);
          Some (go_on, (symbol, 250 * i16 delta) :: rest, r, h)
      else
        '(go_on, rest, r, h) ← read_deltas rest (seq + 1) r h;
        Some (go_on, (symbol, old) :: rest, r, h)
  end.

Definition isReceivedWithTime (status : Z) : bool :=
  (status =? kSTATUS_RECEIVED_SMALL_DELTA) || (status =? kSTATUS_RECEIVED_LARGE_DELTA).

(** "Resolve time deltas to absolute times"; [prev] is [prev_ptr]. *)
Fixpoint resolve (l : list TempPacket) (seq reference : Z) (prev : option Z) (h : PublishPacketHistory.t)
  : PublishPacketHistory.t :=
  match l with
  | [] => h
  | (status, delta) :: rest =>
      if isReceivedWithTime status then
        let curr := PublishPacketHistory.get h (u16 seq) in
        let h :=
          match curr, PublishPacketHistory.mPacketList h with
          | Some ptr, Some slots =>
              let from := match prev with
                          | None => reference
                          | Some prev =>
                              PublishPacketHistory.received_time_micros (PublishPacketHistory.at_slot slots prev)
                          end in
              PublishPacketHistory.modify h (fun p => PublishPacketHistory.set_received p (from + delta)) ptr
          | _, _ => h
          end in
        resolve rest (seq + 1) reference curr h
      else resolve rest (seq + 1) reference prev h
  end.

(** The end of probing when it does harm; the cancelled task is the caller's. *)
Definition stop_probing (s : t) : t :=
  if TWCC.mIsProbing (source s) && PublishPacketHistory.shouldStopProbing (mPacketHistory s)
  then mk (TWCC.onEndProbing (source s)) (mPacketHistory s) else s.

Definition onReceivedRtcpPacket (r : ByteReader.t) (now_nanos now : Z) (s : t) : option t :=
  if (ByteReader.remaining r <? 8)%nat then Some s
  else
    '(base_seq_number, r) ← ByteReader.readU16 r;
    '(packet_status_count, r) ← ByteReader.readU16 r;
    '(reference_time_and_fb_pkt_count, r) ← ByteReader.readU32 r;
    if packet_status_count =? 0 then Some s
    else
      let reference_time := Z.shiftr reference_time_and_fb_pkt_count 8 in
      let reference_time_micros := 64 * 1000 * reference_time in
      let tempList := replicate (Z.to_nat packet_status_count) (0, 0) in
      let past_end_seq_number := u16 (base_seq_number + packet_status_count) in
      '(go_on, tempList, r) ←
        chunks (S (ByteReader.remaining r)) r tempList base_seq_number base_seq_number past_end_seq_number;
      if negb go_on then Some s
      else
        '(go_on, tempList, r, h) ← read_deltas tempList base_seq_number r (mPacketHistory s);
        if negb go_on then Some (with_history s h)
        else
          h ← PublishPacketHistory.update
                (resolve tempList base_seq_number reference_time_micros None h) now_nanos now;
          Some (stop_probing (with_history s h)).

(** *** Calls passed on *)

Definition getPacingSpreadMillis (s : t) (now_nanos : Z) (packets : list RtpPacket.t) (bandwidthScale : spec_float)
  (defaultValue : Z) : option Z :=
  let totalSize := u64 (foldl (fun sum p => sum + Z.of_nat (RtpPacket.getPayloadSize p)) 0 packets) in
  PublishPacketHistory.getPacingSpreadMillis (mPacketHistory s) now_nanos totalSize bandwidthScale defaultValue.

Definition updatePublishConnectionStats (s : t) (now_nanos : Z)
  (stats : PublishPacketHistory.PublishConnectionStats) : PublishPacketHistory.PublishConnectionStats :=
  PublishPacketHistory.updatePublishConnectionStats (mPacketHistory s) now_nanos stats.

End RtpExtensionSourceTWCC.

(** ** Between the two ends *)

Module Feedback.

(** The end of [PeerCandidate::run]: each report is a datagram of its own. *)
Definition run (track : Track.t) (now_micros : Z) (s : SubscribePacketHistory.t)
  : option (list (list Z) * SubscribePacketHistory.t) :=
  '(packets, s) ← RtpResponderTWCC.run track now_micros s;
  Some (map RtcpPacket.generate packets, s).

(** [source] is [mExtensionSourceTWCC], if there is one. *)
Definition onReceivedControlMessage_TWCC (source : option RtpExtensionSourceTWCC.t) (r : ByteReader.t)
  (now_nanos now : Z) : option (option RtpExtensionSourceTWCC.t) :=
  match source with
  | Some s => s ← RtpExtensionSourceTWCC.onReceivedRtcpPacket r now_nanos now s; Some (Some s)
  | None => Some None
  end.

(** The calls of [onReceivedControlPackets] that reach the source. *)
Fixpoint receive (calls : list Control.call) (now_nanos now : Z) (source : option RtpExtensionSourceTWCC.t)
  : option (option RtpExtensionSourceTWCC.t) :=
  match calls with
  | [] => Some source
  | Control.CallTwcc _ r :: calls =>
      source ← onReceivedControlMessage_TWCC source r now_nanos now;
      receive calls now_nanos now source
  | _ :: calls => receive calls now_nanos now source
  end.

End Feedback.
