(* ===== verification/Srtp.v ===== *)
(** * SRTP: [CryptoBytes], [CryptoWriter], [KeyDerivation] (src/srtp_util.cpp),
    [SrtpCrypto] (src/srtp_crypto.cpp) and [SrtpConnection]
    (src/srtp_connection.cpp), RFC 3711 and RFC 7714

    The ciphers and the hash are OpenSSL's: the operations of the class [Evp] are
    what the code calls, as functions of the bytes it passes; [None] is a call
    that reports failure.  The class [EvpLaws] holds what is documented of them:
    sizes, and that decryption undoes encryption.  A method that returns
    [false] is [Some None] here, one that returns [true] is [Some (Some output)]. *)

From stdpp Require Import gmap strings.
From S2P Require Import Prelude Bytes Sequence.

(** [ntohs], [ntohl] of the bytes at an offset; a read past the end is [None]. *)
Definition peek (n : nat) (l : list Z) (off : nat) : option Z :=
  if (off + n <=? length l)%nat then Some (be_value (take n (drop off l))) else None.
Notation peek16 := (peek 2).
Notation peek32 := (peek 4).

(** ** CryptoBytes *)

Module CryptoBytes.

Definition capacity : nat := 32.

Record t := mk { v8 : list Z; mSize : nat }.

Definition make : t := mk (replicate capacity 0) 0.
Definition clear (b : t) : t := mk (replicate capacity 0) 0.

Definition assign (b : t) (src : list Z) : option t :=
  _ ← guard_true (length src <=? capacity)%nat;
  Some (mk (src ++ replicate (capacity - length src) 0) (length src)).

Definition empty (b : t) : bool := (mSize b =? 0)%nat.
Definition size (b : t) : nat := mSize b.

(** [operator^=]: over the whole array, the size stays. *)
Definition xor (b other : t) : t := mk (zip_with Z.lxor (v8 b) (v8 other)) (mSize b).

(** What is inside. *)
Definition contents (b : t) : list Z := take (mSize b) (v8 b).

Definition ok (b : t) : Prop :=
  length (v8 b) = capacity /\ (mSize b <= capacity)%nat /\ bytes_ok (v8 b) /\
  drop (mSize b) (v8 b) = replicate (capacity - mSize b) 0.

End CryptoBytes.

(** ** CryptoWriter *)

Module CryptoWriter.
Import CryptoBytes.

Definition make (b : CryptoBytes.t) : CryptoBytes.t := clear b.

(** [append] and the writers: [assert(mSize <= sizeof(v8) - size)], then the
    bytes at [mSize]. *)
Definition append (b : CryptoBytes.t) (data : list Z) : option CryptoBytes.t :=
  _ ← guard_true (Z.of_nat (mSize b) <=? u64 (Z.of_nat capacity - Z.of_nat (length data)));
  Some (mk (take (mSize b) (v8 b) ++ data ++ drop (mSize b + length data) (v8 b)) (mSize b + length data)).

Definition writeU8 (b : CryptoBytes.t) (value : Z) : option CryptoBytes.t := append b [value].
Definition writeU16 (b : CryptoBytes.t) (value : Z) : option CryptoBytes.t :=
  append b [Z.land (Z.shiftr value 8) 0xff; Z.land value 0xff].
Definition writeU32 (b : CryptoBytes.t) (value : Z) : option CryptoBytes.t :=
  append b [Z.land (Z.shiftr value 24) 0xff; Z.land (Z.shiftr value 16) 0xff;
            Z.land (Z.shiftr value 8) 0xff; Z.land value 0xff].

End CryptoWriter.

(** ** OpenSSL *)

Inductive evp_cipher := EVP_aes_256_gcm | EVP_aes_128_gcm | EVP_aes_128_ctr.

#[global] Instance evp_cipher_eq_dec : EqDecision evp_cipher.
Proof. solve_decision. Defined.

(** Bytes of the key and of the initialisation vector that a cipher reads. *)
Definition key_length (c : evp_cipher) : nat := match c with EVP_aes_256_gcm => 32 | _ => 16 end.
Definition iv_length (c : evp_cipher) : nat := match c with EVP_aes_128_ctr => 16 | _ => 12 end.

Class Evp := {
  (** AES in ECB mode on one block, with a key of 16 or 32 bytes. *)
  evp_ecb : list Z -> list Z -> option (list Z);
  (** init, additional data, data, final, tag: the ciphertext and the tag. *)
  evp_gcm_encrypt : evp_cipher -> list Z -> list Z -> list Z -> list Z -> option (list Z * list Z);
  (** init, tag, additional data, data, final. *)
  evp_gcm_decrypt : evp_cipher -> list Z -> list Z -> list Z -> list Z -> list Z -> option (list Z);
  evp_ctr_encrypt : evp_cipher -> list Z -> list Z -> list Z -> option (list Z);
  evp_ctr_decrypt : evp_cipher -> list Z -> list Z -> list Z -> option (list Z);
  (** HMAC with SHA1, of a key and a text. *)
  evp_hmac_sha1 : list Z -> list Z -> list Z
}.

Class EvpLaws `{!Evp} : Prop := {
  ecb_length key block out : evp_ecb key block = Some out -> length out = 16%nat /\ bytes_ok out;
  gcm_length c key iv aad plain out tag : evp_gcm_encrypt c key iv aad plain = Some (out, tag) ->
    length out = length plain /\ length tag = 16%nat;
  gcm_decrypt_length c key iv tag aad data plain :
    evp_gcm_decrypt c key iv tag aad data = Some plain -> length plain = length data;
  gcm_inverse c key iv aad plain out tag : evp_gcm_encrypt c key iv aad plain = Some (out, tag) ->
    evp_gcm_decrypt c key iv tag aad out = Some plain;
  ctr_length c key iv plain out : evp_ctr_encrypt c key iv plain = Some out -> length out = length plain;
  ctr_decrypt_length c key iv data plain : evp_ctr_decrypt c key iv data = Some plain -> length plain = length data;
  ctr_inverse c key iv plain out : evp_ctr_encrypt c key iv plain = Some out ->
    evp_ctr_decrypt c key iv out = Some plain;
  hmac_length key data : length (evp_hmac_sha1 key data) = 20%nat;
  hmac_bytes key data : bytes_ok (evp_hmac_sha1 key data)
}.

(** ** KeyDerivation *)

Module KeyDerivation.

Definition kLabelRtpKey : Z := 0.
Definition kLabelRtpAuth : Z := 1.
Definition kLabelRtpSalt : Z := 2.
Definition kLabelRtcpKey : Z := 3.
Definition kLabelRtcpAuth : Z := 4.
Definition kLabelRtcpSalt : Z := 5.

Section Generate.
Context `{!Evp}.

(** [input]: the salt, with the label in byte 7. *)
Definition input_of (salt : list Z) (label : Z) : list Z :=
  let input := salt ++ replicate (16 - length salt) 0 in
  <[7%nat := Z.lxor (default 0 (input !! 7%nat)) label]> input.

(** The input of one block: the counter in the last two bytes. *)
Definition block_input (input : list Z) (blockIndex : Z) : list Z :=
  <[15%nat := Z.land blockIndex 0xff]> (<[14%nat := Z.land (Z.shiftr blockIndex 16) 0xff]> input).

(** [n] blocks left of [blockCount]; the flag is [res]. *)
Fixpoint blocks (n : nat) (key input : list Z) (desired blockCount blockIndex : Z) (output : CryptoBytes.t)
  : option (bool * CryptoBytes.t) :=
  match n with
  | O => Some (true, output)
  | S n =>
      match evp_ecb key (block_input input blockIndex) with
      | None => Some (false, output)
      | Some outbuf =>
          _ ← guard_true (length outbuf =? 16)%nat;
          let count := if blockIndex <? blockCount - 1 then 16 else desired - 16 * blockIndex in
          output ← CryptoWriter.append output (take (Z.to_nat count) outbuf);
          blocks n key (block_input input blockIndex) desired blockCount (blockIndex + 1) output
      end
  end.

Definition generate (masterKey masterSalt : CryptoBytes.t) (label : Z) (output : CryptoBytes.t) (desired : Z)
  : option (bool * CryptoBytes.t) :=
  let keySize := CryptoBytes.size masterKey in
  let saltSize := CryptoBytes.size masterSalt in
  _ ← guard_true ((keySize =? 16)%nat || (keySize =? 32)%nat);
  _ ← guard_true ((saltSize =? 12)%nat || (saltSize =? 14)%nat);
  _ ← guard_true ((0 <? desired) && (desired <=? 32));
  let input := input_of (CryptoBytes.contents masterSalt) label in
  let blockCount := (desired + 15) / 16 in
  blocks (Z.to_nat blockCount) (CryptoBytes.contents masterKey) input desired blockCount 0
         (CryptoWriter.make output).

End Generate.
End KeyDerivation.

(** ** SrtpCrypto *)

(** The protection profiles' numbers (RFC 5764, RFC 7714), <openssl/srtp.h>. *)
Definition SRTP_AES128_CM_SHA1_80 : Z := 1.
Definition SRTP_AES128_CM_SHA1_32 : Z := 2.
Definition SRTP_AEAD_AES_128_GCM : Z := 7.
Definition SRTP_AEAD_AES_256_GCM : Z := 8.

Definition is_gcm (profileId : Z) : bool :=
  (profileId =? SRTP_AEAD_AES_256_GCM) || (profileId =? SRTP_AEAD_AES_128_GCM).
Definition is_cm (profileId : Z) : bool :=
  (profileId =? SRTP_AES128_CM_SHA1_80) || (profileId =? SRTP_AES128_CM_SHA1_32).

Module SrtpCrypto.
Import CryptoWriter.

Definition kAESGCM_TagSize : nat := 16.
Definition kRTCP_EncryptedBit : Z := 0x80000000.
Definition kRTCP_HeaderSize : nat := 8.
Definition kRTCP_TrailerSize : nat := 4.

Record vectors := mkVectors { key : CryptoBytes.t; auth : CryptoBytes.t; salt : CryptoBytes.t }.

(** The contexts are pointers that may be null. *)
Record t := mk {
  mProfileId : Z;
  mSendRtp : vectors;
  mReceiveRtp : vectors;
  mSendRtcp : vectors;
  mReceiveRtcp : vectors;
  mSendCipherCtx : option evp_cipher;
  mReceiveCipherCtx : option evp_cipher;
  mHmacSha1 : bool
}.

Definition createCipher (profileId : Z) : option evp_cipher :=
  if profileId =? SRTP_AEAD_AES_256_GCM then Some EVP_aes_256_gcm
  else if profileId =? SRTP_AEAD_AES_128_GCM then Some EVP_aes_128_gcm
  else if is_cm profileId then Some EVP_aes_128_ctr
  else None.

Section Crypto.
Context `{!Evp}.

(** *** create *)

Definition InvalidData : string := "InvalidData".

(** The key, authentication key and salt of one direction: [a && b && c]. *)
Definition derive (masterKey masterSalt : CryptoBytes.t) (labelKey labelAuth labelSalt : Z)
  : option (option vectors) :=
  '(ok, k) ← KeyDerivation.generate masterKey masterSalt labelKey CryptoBytes.make
               (Z.of_nat (CryptoBytes.size masterKey));
  if negb ok then Some None else
  '(ok, a) ← KeyDerivation.generate masterKey masterSalt labelAuth CryptoBytes.make 20;
  if negb (ok : bool) then Some None else
  '(ok, s) ← KeyDerivation.generate masterKey masterSalt labelSalt CryptoBytes.make
               (Z.of_nat (CryptoBytes.size masterSalt));
  if negb (ok : bool) then Some None else Some (Some (mkVectors k a s)).

Definition derive_rtp (masterKey masterSalt : CryptoBytes.t) : option (option vectors) :=
  derive masterKey masterSalt KeyDerivation.kLabelRtpKey KeyDerivation.kLabelRtpAuth KeyDerivation.kLabelRtpSalt.
Definition derive_rtcp (masterKey masterSalt : CryptoBytes.t) : option (option vectors) :=
  derive masterKey masterSalt KeyDerivation.kLabelRtcpKey KeyDerivation.kLabelRtcpAuth KeyDerivation.kLabelRtcpSalt.

(** The constructor; [EVP_CIPHER_CTX_new] and the HMAC context succeed. *)
Definition construct (profileId : Z) (sendRtp receiveRtp sendRtcp receiveRtcp : vectors) : t :=
  mk profileId sendRtp receiveRtp sendRtcp receiveRtcp (createCipher profileId) (createCipher profileId) true.

Definition create (profileId : Z) (sendMasterKey sendMasterSalt receiveMasterKey receiveMasterSalt : CryptoBytes.t)
  : option (string + t) :=
  if CryptoBytes.empty sendMasterKey || CryptoBytes.empty receiveMasterKey then Some (inl InvalidData)
  else if CryptoBytes.empty sendMasterSalt || CryptoBytes.empty receiveMasterSalt then Some (inl InvalidData)
  else if negb (is_gcm profileId || is_cm profileId) then Some (inl InvalidData)
  else
    sendRtp ← derive_rtp sendMasterKey sendMasterSalt;
    match sendRtp with None => Some (inl InvalidData) | Some sendRtp =>
    receiveRtp ← derive_rtp receiveMasterKey receiveMasterSalt;
    match receiveRtp with None => Some (inl InvalidData) | Some receiveRtp =>
    sendRtcp ← derive_rtcp sendMasterKey sendMasterSalt;
    match sendRtcp with None => Some (inl InvalidData) | Some sendRtcp =>
    receiveRtcp ← derive_rtcp receiveMasterKey receiveMasterSalt;
    match receiveRtcp with None => Some (inl InvalidData) | Some receiveRtcp =>
    Some (inr (construct profileId sendRtp receiveRtp sendRtcp receiveRtcp))
    end end end end.

Definition getMediaProtectionOverhead (c : t) : option Z :=
  if is_gcm (mProfileId c) then Some 16
  else if mProfileId c =? SRTP_AES128_CM_SHA1_80 then Some 10
  else if mProfileId c =? SRTP_AES128_CM_SHA1_32 then Some 4
  else None.

(** *** Initialisation vectors *)

Definition iv_gcm_media (ssrc rolloverCount sequence : Z) (salt : CryptoBytes.t) : option CryptoBytes.t :=
  iv ← writeU16 (make CryptoBytes.make) 0;
  iv ← writeU32 iv ssrc;
  iv ← writeU32 iv rolloverCount;
  iv ← writeU16 iv sequence;
  Some (CryptoBytes.xor iv salt).

Definition iv_cm_media (ssrc rolloverCount sequence : Z) (salt : CryptoBytes.t) : option CryptoBytes.t :=
  iv ← writeU32 (make CryptoBytes.make) 0;
  iv ← writeU32 iv ssrc;
  iv ← writeU32 iv rolloverCount;
  iv ← writeU16 iv sequence;
  iv ← writeU16 iv 0;
  Some (CryptoBytes.xor iv salt).

Definition iv_gcm_control (ssrc seq : Z) (salt : CryptoBytes.t) : option CryptoBytes.t :=
  iv ← writeU16 (make CryptoBytes.make) 0;
  iv ← writeU32 iv ssrc;
  iv ← writeU8 iv 0;
  iv ← writeU8 iv 0;
  iv ← writeU32 iv seq;
  Some (CryptoBytes.xor iv salt).

Definition iv_cm_control (ssrc seq : Z) (salt : CryptoBytes.t) : option CryptoBytes.t :=
  iv ← writeU16 (make CryptoBytes.make) 0;
  iv ← writeU16 iv 0;
  iv ← writeU32 iv ssrc;
  iv ← writeU8 iv 0;
  iv ← writeU8 iv 0;
  iv ← writeU32 iv seq;
  Some (CryptoBytes.xor iv salt).

(** What the cipher reads through [data()]. *)
Definition key_bytes (c : evp_cipher) (v : vectors) : list Z := take (key_length c) (CryptoBytes.v8 (key v)).
Definition iv_bytes (c : evp_cipher) (iv : CryptoBytes.t) : list Z := take (iv_length c) (CryptoBytes.v8 iv).
Definition hmac (v : vectors) (data : list Z) : list Z := evp_hmac_sha1 (CryptoBytes.contents (auth v)) data.

(** *** Media *)

(** The size of the header of an outgoing packet; the inner [None] is
    [return false]. *)
Definition send_header_size (packet : list Z) (header : Z) : option (option nat) :=
  if has_bit header 12 then
    extensionSize ← peek16 packet 14;
    let headerSize := (16 + Z.to_nat extensionSize * 4)%nat in
    Some (if (length packet <=? headerSize)%nat then None else Some headerSize)
  else Some (Some 12%nat).

Definition receive_header_size (packet : list Z) (header : Z) (digestSize : nat) : option (option nat) :=
  if has_bit header 12 then
    if (length packet <? 16 + digestSize)%nat then Some None
    else
      extensionSize ← peek16 packet 14;
      let headerSize := (16 + Z.to_nat extensionSize * 4)%nat in
      Some (if (length packet <=? headerSize + digestSize)%nat then None else Some headerSize)
  else Some (Some 12%nat).

(** The assertion on the sizes, then [encrypted.resize(encryptedSize)]. *)
Definition finish (out : list Z) (size : nat) : option (option (list Z)) :=
  _ ← guard_true (length out =? size)%nat; Some (Some out).

Definition protectSendMediaGCM (c : t) (packet : list Z) (rolloverCount : Z) : option (option (list Z)) :=
  match mSendCipherCtx c with
  | None => Some None
  | Some ctx =>
      header ← peek16 packet 0;
      sequence ← peek16 packet 2;
      ssrc ← peek32 packet 8;
      iv ← iv_gcm_media ssrc rolloverCount sequence (salt (mSendRtp c));
      size ← send_header_size packet header;
      match size with
      | None => Some None
      | Some headerSize =>
          let head := take headerSize packet in
          match evp_gcm_encrypt ctx (key_bytes ctx (mSendRtp c)) (iv_bytes ctx iv) head (drop headerSize packet) with
          | None => Some None
          | Some (body, digest) => finish (head ++ body ++ digest) (length packet + kAESGCM_TagSize)
          end
      end
  end.

Definition cm_digest_size (profileId : Z) : option nat :=
  if profileId =? SRTP_AES128_CM_SHA1_80 then Some 10%nat
  else if profileId =? SRTP_AES128_CM_SHA1_32 then Some 4%nat
  else None.

(** [htonl(rolloverCount)], four bytes. *)
Definition htonl (v : Z) : list Z := be_bytes 4 v.

Definition protectSendMediaCM (c : t) (packet : list Z) (rolloverCount : Z) : option (option (list Z)) :=
  match mSendCipherCtx c with
  | None => Some None
  | Some ctx =>
      digestSize ← cm_digest_size (mProfileId c);
      header ← peek16 packet 0;
      sequence ← peek16 packet 2;
      ssrc ← peek32 packet 8;
      iv ← iv_cm_media ssrc rolloverCount sequence (salt (mSendRtp c));
      size ← send_header_size packet header;
      match size with
      | None => Some None
      | Some headerSize =>
          let head := take headerSize packet in
          match evp_ctr_encrypt ctx (key_bytes ctx (mSendRtp c)) (iv_bytes ctx iv) (drop headerSize packet) with
          | None => Some None
          | Some body =>
              if negb (mHmacSha1 c) then Some None
              else
                let digest := hmac (mSendRtp c) (head ++ body ++ htonl rolloverCount) in
                finish (head ++ body ++ take digestSize digest) (length packet + digestSize)
          end
      end
  end.

Definition protectSendMedia (c : t) (packet : list Z) (rolloverCount : Z) : option (option (list Z)) :=
  if is_gcm (mProfileId c) then protectSendMediaGCM c packet rolloverCount
  else if is_cm (mProfileId c) then protectSendMediaCM c packet rolloverCount
  else None.

(** The packet between its header and its last [n] bytes. *)
Definition middle (packet : list Z) (headerSize n : nat) : list Z :=
  take (length packet - headerSize - n) (drop headerSize packet).

(** The last [n] bytes. *)
Definition trailing (packet : list Z) (n : nat) : list Z := drop (length packet - n) packet.

Definition unprotectReceiveMediaGCM (c : t) (packet : list Z) (rolloverCount : Z) : option (option (list Z)) :=
  match mReceiveCipherCtx c with
  | None => Some None
  | Some ctx =>
      if (length packet <=? 12 + kAESGCM_TagSize)%nat then Some None
      else
        header ← peek16 packet 0;
        sequence ← peek16 packet 2;
        ssrc ← peek32 packet 8;
        iv ← iv_gcm_media ssrc rolloverCount sequence (salt (mReceiveRtp c));
        size ← receive_header_size packet header kAESGCM_TagSize;
        match size with
        | None => Some None
        | Some headerSize =>
            let head := take headerSize packet in
            match evp_gcm_decrypt ctx (key_bytes ctx (mReceiveRtp c)) (iv_bytes ctx iv)
                    (trailing packet kAESGCM_TagSize) head (middle packet headerSize kAESGCM_TagSize) with
            | None => Some None
            | Some body => finish (head ++ body) (length packet - kAESGCM_TagSize)
            end
        end
  end.

(** The digest is checked behind the decryption; a failure of either is
    [return false]. *)
Definition unprotectReceiveMediaCM (c : t) (packet : list Z) (rolloverCount : Z) : option (option (list Z)) :=
  match mReceiveCipherCtx c with
  | None => Some None
  | Some ctx =>
      digestSize ← cm_digest_size (mProfileId c);
      if (length packet <=? 12 + digestSize)%nat then Some None
      else
        header ← peek16 packet 0;
        sequence ← peek16 packet 2;
        ssrc ← peek32 packet 8;
        iv ← iv_cm_media ssrc rolloverCount sequence (salt (mReceiveRtp c));
        size ← receive_header_size packet header digestSize;
        match size with
        | None => Some None
        | Some headerSize =>
            let head := take headerSize packet in
            match evp_ctr_decrypt ctx (key_bytes ctx (mReceiveRtp c)) (iv_bytes ctx iv)
                    (middle packet headerSize digestSize) with
            | None => Some None
            | Some body =>
                if negb (mHmacSha1 c) then Some None
                else
                  let digest := hmac (mReceiveRtp c)
                                  (take (length packet - digestSize) packet ++ htonl rolloverCount) in
                  if bool_decide (take digestSize digest = trailing packet digestSize)
                  then finish (head ++ body) (length packet - digestSize)
                  else Some None
            end
        end
  end.

Definition unprotectReceiveMedia (c : t) (packet : list Z) (rolloverCount : Z) : option (option (list Z)) :=
  if is_gcm (mProfileId c) then unprotectReceiveMediaGCM c packet rolloverCount
  else if is_cm (mProfileId c) then unprotectReceiveMediaCM c packet rolloverCount
  else None.

(** *** Control *)

Definition protectSendControlGCM (c : t) (packet : list Z) (seq : Z) : option (option (list Z)) :=
  match mSendCipherCtx c with
  | None => Some None
  | Some ctx =>
      ssrc ← peek32 packet 4;
      let trailer := htonl (Z.lor seq kRTCP_EncryptedBit) in
      iv ← iv_gcm_control ssrc seq (salt (mSendRtcp c));
      let head := take kRTCP_HeaderSize packet in
      match evp_gcm_encrypt ctx (key_bytes ctx (mSendRtcp c)) (iv_bytes ctx iv) (head ++ trailer)
              (drop kRTCP_HeaderSize packet) with
      | None => Some None
      | Some (body, digest) =>
          finish (head ++ body ++ digest ++ trailer) (length packet + kAESGCM_TagSize + kRTCP_TrailerSize)
      end
  end.

Definition control_digest_size : nat := 10.

Definition protectSendControlCM (c : t) (packet : list Z) (seq : Z) : option (option (list Z)) :=
  match mSendCipherCtx c with
  | None => Some None
  | Some ctx =>
      ssrc ← peek32 packet 4;
      let trailer := htonl (Z.lor seq kRTCP_EncryptedBit) in
      iv ← iv_cm_control ssrc seq (salt (mSendRtcp c));
      let head := take kRTCP_HeaderSize packet in
      match evp_ctr_encrypt ctx (key_bytes ctx (mSendRtcp c)) (iv_bytes ctx iv) (drop kRTCP_HeaderSize packet) with
      | None => Some None
      | Some body =>
          if negb (mHmacSha1 c) then Some None
          else
            let digest := hmac (mSendRtcp c) (head ++ body ++ trailer) in
            finish (head ++ body ++ trailer ++ take control_digest_size digest)
                   (length packet + kRTCP_TrailerSize + control_digest_size)
      end
  end.

Definition protectSendControl (c : t) (packet : list Z) (seq : Z) : option (option (list Z)) :=
  if is_gcm (mProfileId c) then protectSendControlGCM c packet seq
  else if is_cm (mProfileId c) then protectSendControlCM c packet seq
  else None.

(** [trailer & ~kRTCP_EncryptedBit]. *)
Definition clear_encrypted (trailer : Z) : Z := Z.land trailer (u32 (Z.lnot kRTCP_EncryptedBit)).

Definition unprotectReceiveControlGCM (c : t) (packet : list Z) : option (option (list Z)) :=
  if (length packet <? 28)%nat then Some None
  else match mReceiveCipherCtx c with
  | None => Some None
  | Some ctx =>
      ssrc ← peek32 packet 4;
      trailer ← peek32 packet (length packet - 4);
      let seq := clear_encrypted trailer in
      let isEncrypted := has_bit trailer 31 in
      iv ← iv_gcm_control ssrc seq (salt (mReceiveRtcp c));
      let tail := kAESGCM_TagSize + kRTCP_TrailerSize in
      let tag := take kAESGCM_TagSize (drop (length packet - tail) packet) in
      let head := take kRTCP_HeaderSize packet in
      let body := middle packet kRTCP_HeaderSize tail in
      let aad := if isEncrypted then head else take (length packet - tail) packet in
      match evp_gcm_decrypt ctx (key_bytes ctx (mReceiveRtcp c)) (iv_bytes ctx iv) tag
              (aad ++ trailing packet kRTCP_TrailerSize) (if isEncrypted then body else []) with
      | None => Some None
      | Some plain => finish (head ++ (if isEncrypted then plain else body)) (length packet - tail)
      end
  end%nat.

Definition unprotectReceiveControlCM (c : t) (packet : list Z) : option (option (list Z)) :=
  if (length packet <? 12 + control_digest_size)%nat then Some None
  else match mReceiveCipherCtx c with
  | None => Some None
  | Some ctx =>
      ssrc ← peek32 packet 4;
      trailer ← peek32 packet (length packet - control_digest_size - 4);
      let seq := clear_encrypted trailer in
      let isEncrypted := has_bit trailer 31 in
      iv ← iv_cm_control ssrc seq (salt (mReceiveRtcp c));
      let tail := kRTCP_TrailerSize + control_digest_size in
      let head := take kRTCP_HeaderSize packet in
      let body := middle packet kRTCP_HeaderSize tail in
      match (if isEncrypted then evp_ctr_decrypt ctx (key_bytes ctx (mReceiveRtcp c)) (iv_bytes ctx iv) body
             else Some body) with
      | None => Some None
      | Some plain =>
          if negb (mHmacSha1 c) then Some None
          else
            let digest := hmac (mReceiveRtcp c) (take (length packet - control_digest_size) packet) in
            if bool_decide (take control_digest_size digest = trailing packet control_digest_size)
            then finish (head ++ plain) (length packet - tail)
            else Some None
      end
  end%nat.

Definition unprotectReceiveControl (c : t) (packet : list Z) : option (option (list Z)) :=
  if is_gcm (mProfileId c) then unprotectReceiveControlGCM c packet
  else if is_cm (mProfileId c) then unprotectReceiveControlCM c packet
  else None.

End Crypto.
End SrtpCrypto.

(** ** SrtpConnection *)

Module SrtpConnection.

(** [ChannelKey]: ssrc and payload id. *)
Notation ChannelKey := (Z * Z)%type.

Record ChannelValue := mkChannel {
  replayProtection : ReplayProtection.t;
  rolloverCount : Z;
  lastSequence16 : option Z
}.

Record t := mk {
  mCrypto : SrtpCrypto.t;
  mProfileId : Z;
  mSrtpInMap : gmap ChannelKey ChannelValue;
  mSrtpOutMap : gmap ChannelKey ChannelValue
}.

Section Connection.
Context `{!Evp}.

(** *** create *)

(** Key and salt sizes of the selected profile. *)
Definition sizes (profileId : Z) : option (nat * nat) :=
  if profileId =? SRTP_AEAD_AES_256_GCM then Some (32, 12)%nat
  else if profileId =? SRTP_AEAD_AES_128_GCM then Some (16, 12)%nat
  else if profileId =? SRTP_AES128_CM_SHA1_80 then Some (16, 14)%nat
  else if profileId =? SRTP_AES128_CM_SHA1_32 then Some (16, 14)%nat
  else None.

(** The profile of the handshake is [SSL_get_selected_srtp_profile]'s, the
    material what [SSL_export_keying_material] writes. *)
Definition create (profile : option Z) (exported : nat -> list Z) (isSetupActive : bool)
  : option (string + t) :=
  match profile with
  | None => Some (inl SrtpCrypto.InvalidData)
  | Some profileId =>
      match sizes profileId with
      | None => Some (inl SrtpCrypto.InvalidData)
      | Some (keySize, saltSize) =>
          let material := exported ((keySize + saltSize) * 2)%nat in
          let slice off n := take n (drop off material) in
          clientKey ← CryptoBytes.assign CryptoBytes.make (slice 0%nat keySize);
          serverKey ← CryptoBytes.assign CryptoBytes.make (slice keySize keySize);
          clientSalt ← CryptoBytes.assign CryptoBytes.make (slice (keySize + keySize)%nat saltSize);
          serverSalt ← CryptoBytes.assign CryptoBytes.make (slice (keySize + keySize + saltSize)%nat saltSize);
          let '(sendKey, sendSalt, receiveKey, receiveSalt) :=
            if isSetupActive then (serverKey, serverSalt, clientKey, clientSalt)
            else (clientKey, clientSalt, serverKey, serverSalt) in
          crypto ← SrtpCrypto.create profileId sendKey sendSalt receiveKey receiveSalt;
          Some (match crypto with
                | inl e => inl e
                | inr crypto => inr (mk crypto profileId ∅ ∅)
                end)
      end
  end.

Definition onPeerConnected (s : t) : t := mk (mCrypto s) (mProfileId s) ∅ ∅.

Definition getMediaProtectionOverhead (s : t) : option Z := SrtpCrypto.getMediaProtectionOverhead (mCrypto s).

(** *** Sending *)

Definition protectSendControl (s : t) (packet : list Z) (sequence : Z) : option (option (list Z)) :=
  if (length packet <? 8)%nat then Some None
  else SrtpCrypto.protectSendControl (mCrypto s) packet sequence.

Definition protectSendMedia (s : t) (packet : list Z) (rollover : Z) : option (option (list Z)) :=
  if (length packet <? 12)%nat then Some None
  else SrtpCrypto.protectSendMedia (mCrypto s) packet rollover.

(** *** Receiving *)

Definition with_in_map (s : t) (m : gmap ChannelKey ChannelValue) : t :=
  mk (mCrypto s) (mProfileId s) m (mSrtpOutMap s).

Definition ensureSrtpChannel (m : gmap ChannelKey ChannelValue) (key : ChannelKey) (maxPossible : Z)
  : option (ChannelValue * gmap ChannelKey ChannelValue) :=
  match m !! key with
  | Some v => Some (v, m)
  | None =>
      r ← ReplayProtection.make maxPossible 2048;
      let v := mkChannel r 0 None in
      Some (v, <[key := v]> m)
  end.

(** The inner [None] is [return false]. *)
Definition getControlSequenceNumber (s : t) (packet : list Z) : option (option Z) :=
  offset ← (if is_gcm (mProfileId s) then Some 4%nat
            else if is_cm (mProfileId s) then Some 14%nat else None);
  if (length packet <? offset + 8)%nat then Some None
  else value ← peek32 packet (length packet - offset);
       Some (Some (SrtpCrypto.clear_encrypted value)).

Definition getMediaSequenceNumber (packet : list Z) : option (option Z) :=
  if (length packet <? 12)%nat then Some None
  else value ← peek16 packet 2; Some (Some value).

(** [replayProtection->set(sequenceNumber)], its result ignored. *)
Definition accept (s : t) (key : ChannelKey) (channel : ChannelValue) (sequence : Z) : option t :=
  '(_, r) ← ReplayProtection.set (replayProtection channel) sequence;
  Some (with_in_map s (<[key := mkChannel r (rolloverCount channel) (lastSequence16 channel)]> (mSrtpInMap s))).

Definition unprotectReceiveControl (s : t) (packet : list Z) : option (option (list Z) * t) :=
  if (length packet <? 12)%nat then Some (None, s)
  else
    ssrc ← peek32 packet 4;
    let key := (ssrc, 0) in
    '(channel, m) ← ensureSrtpChannel (mSrtpInMap s) key (2 ^ 32 - 1);
    let s := with_in_map s m in
    sequence ← getControlSequenceNumber s packet;
    match sequence with
    | None => Some (None, s)
    | Some sequence =>
        if negb (ReplayProtection.canProceed (replayProtection channel) sequence) then Some (None, s)
        else
          plain ← SrtpCrypto.unprotectReceiveControl (mCrypto s) packet;
          match plain with
          | None => Some (None, s)
          | Some output =>
              if (length output <? 8)%nat then Some (None, s)
              else s ← accept s key channel sequence; Some (Some output, s)
          end
    end.

(** The rollover counter to use, and the channel with its counter and last
    number brought up to date. *)
Definition track_rollover (channel : ChannelValue) (sequence : Z) : Z * ChannelValue :=
  let r := replayProtection channel in
  let count := rolloverCount channel in
  match lastSequence16 channel with
  | None => (count, mkChannel r count (Some sequence))
  | Some last =>
      if (last <=? 0x1000) && (0xF000 <=? sequence) then
        (if 0 <? count then u32 (count - 1) else count, channel)
      else if (0xF000 <=? last) && (sequence <=? 0x1000) then
        (u32 (count + 1), mkChannel r (u32 (count + 1)) (Some sequence))
      else (count, mkChannel r count (Some sequence))
  end.

Definition unprotectReceiveMedia (s : t) (packet : list Z) : option (option (list Z) * t) :=
  if (length packet <? 12)%nat then Some (None, s)
  else
    ssrc ← peek32 packet 8;
    header ← peek16 packet 0;
    let key := (ssrc, Z.land header 0x7F) in
    '(channel, m) ← ensureSrtpChannel (mSrtpInMap s) key (2 ^ 16 - 1);
    let s := with_in_map s m in
    sequence ← getMediaSequenceNumber packet;
    match sequence with
    | None => Some (None, s)
    | Some sequence =>
        if negb (ReplayProtection.canProceed (replayProtection channel) sequence) then Some (None, s)
        else
          let '(rollover, channel) := track_rollover channel sequence in
          let s := with_in_map s (<[key := channel]> (mSrtpInMap s)) in
          plain ← SrtpCrypto.unprotectReceiveMedia (mCrypto s) packet rollover;
          match plain with
          | None => Some (None, s)
          | Some output =>
              if (length output <? 12)%nat then Some (None, s)
              else s ← accept s key channel sequence; Some (Some output, s)
          end
    end.

End Connection.
End SrtpConnection.
