(* ===== verification/SrtpProps.v ===== *)
(** * What SRTP promises

    The initialisation vectors are those of the RFCs and never repeat; the
    derived keys are those of the RFC's key stream; a packet that was protected is
    unprotected to itself by the peer, through loss, reordering and the wrap of
    the sequence number; no datagram can stop the receiver or get through
    without its tag; and what goes wrong at the edges. *)

From stdpp Require Import gmap strings.
From S2P Require Import Prelude Bytes Sequence Tracks Srtp.

(** ** Bytes written one after the other *)

Module CryptoFacts.
Import CryptoBytes CryptoWriter.

(** The buffer that holds [l], the rest zero. *)
Definition of_list (l : list Z) : CryptoBytes.t := mk (l ++ replicate (capacity - length l) 0) (length l).

Lemma of_list_ok l : bytes_ok l -> (length l <= capacity)%nat -> ok (of_list l).
Proof.
  intros Hl Hlen. unfold ok, of_list. cbn [v8 mSize].
  rewrite length_app, length_replicate, drop_app_length. split_and!; [lia|done| |done].
  apply bytes_ok_app. split; [done|]. apply Forall_replicate. unfold is_u8; lia.
Qed.

Lemma append_list l data : (length l + length data <= capacity)%nat ->
  append (of_list l) data = Some (of_list (l ++ data)).
Proof.
  intros Hlen. unfold capacity in *. unfold append, of_list. cbn [v8 mSize].
  rewrite u64_small by (unfold is_u64, capacity; lia).
  destruct (Z.leb_spec (Z.of_nat (length l)) (Z.of_nat capacity - Z.of_nat (length data))) as [_|H];
    [|unfold capacity in H; lia]. cbn [guard_true mbind option_bind].
  rewrite take_app_length, length_app, <- drop_drop, drop_app_length, drop_replicate, <- app_assoc.
  by rewrite Nat.sub_add_distr.
Qed.

Lemma land_ff x : Z.land x 0xff = u8 x.
Proof. change 0xff with (2 ^ 8 - 1). by rewrite land_ones_mod by lia. Qed.

Lemma writeU8_list l v : is_u8 v -> (length l + 1 <= capacity)%nat -> writeU8 (of_list l) v = Some (of_list (l ++ be_bytes 1 v)).
Proof.
  intros Hv Hl. unfold writeU8. rewrite append_list by done. do 3 f_equal.
  cbn. by rewrite Z.shiftr_0_r, u8_small.
Qed.

Lemma writeU16_list l v : (length l + 2 <= capacity)%nat -> writeU16 (of_list l) v = Some (of_list (l ++ be_bytes 2 v)).
Proof. intros Hl. unfold writeU16. rewrite append_list, !land_ff by done. cbn [be_bytes]. by rewrite Z.shiftr_0_r. Qed.

Lemma writeU32_list l v : (length l + 4 <= capacity)%nat -> writeU32 (of_list l) v = Some (of_list (l ++ be_bytes 4 v)).
Proof. intros Hl. unfold writeU32. rewrite append_list, !land_ff by done. cbn [be_bytes]. by rewrite Z.shiftr_0_r. Qed.

Lemma make_list : CryptoWriter.make CryptoBytes.make = of_list [].
Proof. done. Qed.

(** *** Exclusive or *)

Lemma lxor_u8 a b : is_u8 a -> is_u8 b -> is_u8 (Z.lxor a b).
Proof.
  unfold is_u8. intros Ha Hb. assert (0 <= Z.lxor a b) by (apply Z.lxor_nonneg; lia). split; [done|].
  destruct (decide (Z.lxor a b = 0)) as [->|]; [lia|]. apply Z.log2_lt_pow2; [lia|].
  eapply Z.le_lt_trans; [apply Z.log2_lxor; lia|].
  assert (forall x, 0 <= x < 2 ^ 8 -> Z.log2 x < 8) as Hlog.
  { intros x Hx. destruct (decide (x = 0)) as [->|]; [done|]. apply Z.log2_lt_pow2; lia. }
  apply Z.max_lub_lt; by apply Hlog.
Qed.

Lemma lxor_bytes l k : bytes_ok l -> bytes_ok k -> bytes_ok (zip_with Z.lxor l k).
Proof.
  intros Hl. revert k. induction Hl as [|a l Ha Hl IH]; intros k Hk; [constructor|].
  destruct Hk as [|b k Hb Hk]; [constructor|]. cbn. constructor; [by apply lxor_u8|by apply IH].
Qed.

Lemma lxor_cancel_bytes l l' k : length l = length k -> length l' = length k ->
  zip_with Z.lxor l k = zip_with Z.lxor l' k -> l = l'.
Proof.
  revert l l'. induction k as [|b k IH]; intros [|a l] [|a' l'] H H' E; try done.
  cbn in E. injection E as E1 E2. f_equal.
  - apply (f_equal (fun z => Z.lxor z b)) in E1. by rewrite !Z.lxor_assoc, Z.lxor_nilpotent, !Z.lxor_0_r in E1.
  - apply IH; [by injection H|by injection H'|done].
Qed.

Lemma lxor_split a b x y n : 0 <= n -> 0 <= a < 2 ^ n -> 0 <= b < 2 ^ n ->
  Z.lxor (x * 2 ^ n + a) (y * 2 ^ n + b) = Z.lxor x y * 2 ^ n + Z.lxor a b.
Proof.
  intros Hn Ha Hb. apply Z.bits_inj'. intros i Hi.
  assert (forall z c, 0 <= c < 2 ^ n ->
    Z.testbit (z * 2 ^ n + c) i = if decide (i < n) then Z.testbit c i else Z.testbit z (i - n)) as Hbit.
  { intros z c Hc. rewrite <- (lor_shiftl_add z c n), Z.lor_spec by lia. case_decide.
    - by rewrite Z.shiftl_spec_low.
    - rewrite Z.shiftl_spec by lia. rewrite (testbit_high c n i) by lia. apply orb_false_r. }
  assert (0 <= Z.lxor a b < 2 ^ n) as Hab.
  { assert (0 <= Z.lxor a b) by (apply Z.lxor_nonneg; lia). split; [done|].
    destruct (decide (Z.lxor a b = 0)) as [->|]; [lia|].
    apply Z.nle_gt. intros Hle. apply Z.log2_le_mono in Hle. rewrite Z.log2_pow2 in Hle by done.
    assert (Z.testbit (Z.lxor a b) (Z.log2 (Z.lxor a b)) = true) as Ht by (apply Z.bit_log2; lia).
    rewrite Z.lxor_spec, !(testbit_high _ n) in Ht by lia. done. }
  rewrite Z.lxor_spec, !Hbit by done. case_decide; by rewrite Z.lxor_spec.
Qed.

(** Byte by byte is number by number. *)
Lemma be_value_lxor l k : bytes_ok l -> bytes_ok k -> length l = length k ->
  be_value (zip_with Z.lxor l k) = Z.lxor (be_value l) (be_value k).
Proof.
  intros Hl. revert k. induction Hl as [|a l Ha Hl IH]; intros [|b k] Hk Hlen; try done.
  apply bytes_ok_cons_iff in Hk as [Hb Hk]. injection Hlen as Hlen. cbn [zip_with].
  rewrite !be_value_cons, IH by done. rewrite length_zip_with, <- Hlen, Nat.min_id.
  rewrite lxor_split; [done|lia|by apply be_value_range|rewrite Hlen; by apply be_value_range].
Qed.

Lemma be_bytes_inj n v w : 0 <= v < 2 ^ (8 * Z.of_nat n) -> 0 <= w < 2 ^ (8 * Z.of_nat n) ->
  be_bytes n v = be_bytes n w -> v = w.
Proof. intros Hv Hw E. by rewrite <- (be_value_bytes n v), <- (be_value_bytes n w), E. Qed.

Lemma take_zip_with {A B C} (f : A -> B -> C) n l k : take n (zip_with f l k) = zip_with f (take n l) (take n k).
Proof.
  revert l k. induction n as [|n IH]; intros [|a l] [|b k]; cbn; try done. by rewrite IH.
Qed.

(** The first bytes of an initialisation vector. *)
Lemma xor_prefix l salt n : (length l <= capacity)%nat -> n = length l ->
  take n (v8 (xor (of_list l) salt)) = zip_with Z.lxor l (take n (v8 salt)).
Proof.
  intros Hl ->. unfold xor, of_list. cbn [v8]. by rewrite take_zip_with, take_app_length.
Qed.

Lemma salt_prefix salt n : ok salt -> (n <= capacity)%nat -> length (take n (v8 salt)) = n /\ bytes_ok (take n (v8 salt)).
Proof. intros (H & _ & Hb & _) Hn. split; [rewrite length_take; lia|by apply bytes_ok_take]. Qed.

End CryptoFacts.

(** ** Initialisation vectors *)

Module Ivs.
Import CryptoBytes CryptoWriter CryptoFacts SrtpCrypto.

(** RFC 3711, 4.1.1: (k_s * 2^16) xor (SSRC * 2^64) xor (i * 2^16). *)
Definition rfc3711_iv (salt ssrc index : Z) : Z :=
  Z.lxor (Z.lxor (salt * 2 ^ 16) (ssrc * 2 ^ 64)) (index * 2 ^ 16).

(** RFC 7714, 8.1 and 9.1: 16 zero bits, SSRC, then the 48 bits of the index,
    xor the salt. *)
Definition rfc7714_iv (salt ssrc index : Z) : Z := Z.lxor (ssrc * 2 ^ 48 + index) salt.

(** The packet index. *)
Definition index_of (rollover sequence : Z) : Z := rollover * 2 ^ 16 + sequence.

(** What the four functions write in front of the exclusive or. *)
Definition gcm_media (ssrc roc seq : Z) : list Z := be_bytes 2 0 ++ be_bytes 4 ssrc ++ be_bytes 4 roc ++ be_bytes 2 seq.
Definition cm_media (ssrc roc seq : Z) : list Z :=
  be_bytes 4 0 ++ be_bytes 4 ssrc ++ be_bytes 4 roc ++ be_bytes 2 seq ++ be_bytes 2 0.
Definition gcm_control (ssrc seq : Z) : list Z :=
  be_bytes 2 0 ++ be_bytes 4 ssrc ++ be_bytes 1 0 ++ be_bytes 1 0 ++ be_bytes 4 seq.
Definition cm_control (ssrc seq : Z) : list Z :=
  be_bytes 2 0 ++ be_bytes 2 0 ++ be_bytes 4 ssrc ++ be_bytes 1 0 ++ be_bytes 1 0 ++ be_bytes 4 seq.

Ltac writes :=
  rewrite make_list;
  repeat (first [rewrite writeU8_list|rewrite writeU16_list|rewrite writeU32_list];
          [|try done; cbn; unfold capacity; lia..]; cbn [mbind option_bind]);
  rewrite <- ?app_assoc; cbn [app].

Lemma iv_gcm_media_eq ssrc roc seq salt :
  iv_gcm_media ssrc roc seq salt = Some (xor (of_list (gcm_media ssrc roc seq)) salt).
Proof. unfold iv_gcm_media. by writes. Qed.

Lemma iv_cm_media_eq ssrc roc seq salt :
  iv_cm_media ssrc roc seq salt = Some (xor (of_list (cm_media ssrc roc seq)) salt).
Proof. unfold iv_cm_media. by writes. Qed.

Lemma iv_gcm_control_eq ssrc seq salt :
  iv_gcm_control ssrc seq salt = Some (xor (of_list (gcm_control ssrc seq)) salt).
Proof. unfold iv_gcm_control. by writes. Qed.

Lemma iv_cm_control_eq ssrc seq salt :
  iv_cm_control ssrc seq salt = Some (xor (of_list (cm_control ssrc seq)) salt).
Proof. unfold iv_cm_control. by writes. Qed.

(** Bytes of fixed fields as a number. *)
Ltac fields_value :=
  unfold gcm_media, cm_media, gcm_control, cm_control;
  rewrite ?be_value_app, ?length_app, ?length_be_bytes, ?be_value_bytes by
    (unfold is_u8, is_u16, is_u32 in *; cbn [Z.of_nat Nat.add]; lia).

Lemma fields_bytes_ok ssrc roc seq :
  bytes_ok (gcm_media ssrc roc seq) /\ bytes_ok (cm_media ssrc roc seq) /\
  bytes_ok (gcm_control ssrc seq) /\ bytes_ok (cm_control ssrc seq).
Proof. split_and!; repeat (apply bytes_ok_app; split); apply be_bytes_ok. Qed.

(** The salt, padded to the length of the vector. *)
Lemma salt_value salt n : ok salt -> (mSize salt <= n <= capacity)%nat ->
  be_value (take n (v8 salt)) = be_value (contents salt) * 2 ^ (8 * Z.of_nat (n - mSize salt)).
Proof.
  intros (Hlen & _ & _ & Hz) Hn. unfold contents.
  rewrite <- (take_drop (mSize salt) (v8 salt)) at 1. rewrite take_app, length_take, Hz, take_replicate, be_value_app.
  rewrite be_value_zeros, length_replicate, take_take.
  replace (n `min` mSize salt)%nat with (mSize salt) by lia.
  replace ((n - mSize salt `min` length (v8 salt)) `min` (capacity - mSize salt))%nat with (n - mSize salt)%nat by lia.
  lia.
Qed.

Lemma iv_value n l salt :
  ok salt -> bytes_ok l -> n = length l -> (mSize salt <= n <= capacity)%nat ->
  be_value (take n (v8 (xor (of_list l) salt))) =
  Z.lxor (be_value l) (be_value (contents salt) * 2 ^ (8 * Z.of_nat (n - mSize salt))).
Proof.
  intros Hs Hl Hn Hlen. rewrite xor_prefix by (done || lia).
  destruct (salt_prefix salt n Hs) as [Hsl Hsb]; [lia|].
  rewrite be_value_lxor, salt_value; (done || lia).
Qed.

(** A 14-byte vector followed by two zero bytes that the salt does not reach. *)
Lemma iv_value_16 l salt :
  ok salt -> bytes_ok l -> length l = 14%nat -> mSize salt = 14%nat ->
  be_value (take 16 (v8 (xor (of_list l) salt))) = Z.lxor (be_value l) (be_value (contents salt)) * 2 ^ 16.
Proof.
  intros Hs Hl Hn Hsize.
  assert (v8 (xor (of_list l) salt) = v8 (xor (of_list (l ++ [0; 0])) salt)) as ->.
  { unfold xor, of_list. cbn [v8]. rewrite length_app, Hn. cbn [length Nat.add]. by rewrite <- app_assoc. }
  assert (length (l ++ [0; 0]) = 16%nat) as H16 by (rewrite length_app, Hn; done).
  assert (bytes_ok (l ++ [0; 0])) as Hok by (apply bytes_ok_app; split; [done|]; apply (Forall_replicate is_u8 2 0); unfold is_u8; lia).
  pose proof (iv_value 16 (l ++ [0; 0]) salt Hs Hok (eq_sym H16) ltac:(unfold capacity; lia)) as H.
  rewrite H, be_value_app. change (be_value [0; 0]) with 0.
  rewrite Hsize. cbn [length Nat.sub Z.of_nat Z.mul Pos.mul Pos.of_succ_nat Pos.succ].
  rewrite Z.add_0_r, <- !Z.shiftl_mul_pow2, <- Z.shiftl_lxor by lia. done.
Qed.

Definition words_ok (ssrc roc seq : Z) : Prop := is_u32 ssrc /\ is_u32 roc /\ is_u16 seq.

Lemma gcm_media_value ssrc roc seq : words_ok ssrc roc seq ->
  be_value (gcm_media ssrc roc seq) = ssrc * 2 ^ 48 + index_of roc seq.
Proof. intros (? & ? & ?). fields_value. unfold index_of. cbn [Nat.add Z.of_nat]. lia. Qed.

Lemma cm_media_value ssrc roc seq : words_ok ssrc roc seq ->
  be_value (cm_media ssrc roc seq) = ssrc * 2 ^ 64 + index_of roc seq * 2 ^ 16.
Proof. intros (? & ? & ?). fields_value. unfold index_of. cbn [Nat.add Z.of_nat]. lia. Qed.

Lemma gcm_control_value ssrc seq : is_u32 ssrc -> is_u32 seq ->
  be_value (gcm_control ssrc seq) = ssrc * 2 ^ 48 + seq.
Proof. intros ? ?. fields_value. cbn [Nat.add Z.of_nat]. lia. Qed.

Lemma cm_control_value ssrc seq : is_u32 ssrc -> is_u32 seq ->
  be_value (cm_control ssrc seq) = ssrc * 2 ^ 48 + seq.
Proof. intros ? ?. fields_value. cbn [Nat.add Z.of_nat]. lia. Qed.

(** Disjoint summands are an exclusive or. *)
Lemma add_lxor a b n : 0 <= n -> 0 <= b < 2 ^ n -> a * 2 ^ n + b = Z.lxor (a * 2 ^ n) b.
Proof.
  intros Hn Hb. pose proof (lxor_split 0 b a 0 n Hn ltac:(lia) Hb) as H.
  rewrite Z.add_0_r, Z.mul_0_l, Z.add_0_l, Z.lxor_0_r, Z.lxor_0_l in H. by rewrite H.
Qed.

Lemma index_range roc seq : is_u32 roc -> is_u16 seq -> 0 <= index_of roc seq < 2 ^ 48.
Proof. unfold index_of, is_u32, is_u16. lia. Qed.

(** C26: the initialisation vectors are those of the standards: RFC 3711 for
    counter mode and RFC 7714 for GCM, for media packets with the index made of
    the rollover counter and the sequence number and for control packets with
    their index, read as the big-endian number of the bytes that the cipher is
    given. *)
Theorem ivs_follow_rfc ssrc roc seq index salt14 salt12 :
  words_ok ssrc roc seq -> is_u32 index -> ok salt14 -> mSize salt14 = 14%nat -> ok salt12 -> mSize salt12 = 12%nat ->
  exists iv1 iv2 iv3 iv4,
    iv_cm_media ssrc roc seq salt14 = Some iv1 /\ iv_cm_control ssrc index salt14 = Some iv2 /\
    iv_gcm_media ssrc roc seq salt12 = Some iv3 /\ iv_gcm_control ssrc index salt12 = Some iv4 /\
    be_value (iv_bytes EVP_aes_128_ctr iv1) = rfc3711_iv (be_value (contents salt14)) ssrc (index_of roc seq) /\
    be_value (iv_bytes EVP_aes_128_ctr iv2) = rfc3711_iv (be_value (contents salt14)) ssrc index /\
    be_value (iv_bytes EVP_aes_128_gcm iv3) = rfc7714_iv (be_value (contents salt12)) ssrc (index_of roc seq) /\
    be_value (iv_bytes EVP_aes_128_gcm iv4) = rfc7714_iv (be_value (contents salt12)) ssrc index.
Proof.
  intros Hw Hi H14 S14 H12 S12. pose proof Hw as (Hs & Hr & Hq).
  pose proof (index_range roc seq Hr Hq) as Hidx.
  destruct (fields_bytes_ok ssrc roc seq) as (Hb1 & Hb2 & _). destruct (fields_bytes_ok ssrc roc index) as (_ & _ & Hb3 & Hb4).
  rewrite iv_cm_media_eq, iv_cm_control_eq, iv_gcm_media_eq, iv_gcm_control_eq.
  eexists _, _, _, _. do 4 (split; [done|]). unfold iv_bytes, iv_length, rfc3711_iv, rfc7714_iv.
  rewrite (iv_value 16), iv_value_16, !(iv_value 12) by (done || (rewrite ?S14, ?S12; unfold capacity; lia)).
  rewrite cm_media_value, cm_control_value, gcm_media_value, gcm_control_value, S14, S12 by done.
  cbn [Nat.sub Z.of_nat Z.mul Pos.mul Pos.of_succ_nat Pos.succ]. change (2 ^ 0) with 1. rewrite !Z.mul_1_r.
  split_and!; try done.
  - rewrite (Z.lxor_comm (be_value (contents salt14) * _)), Z.lxor_assoc, (Z.lxor_comm (_ * 2 ^ 16)), <- Z.lxor_assoc.
    rewrite <- add_lxor by lia. done.
  - rewrite (Z.lxor_comm (be_value (contents salt14) * _)), Z.lxor_assoc, (Z.lxor_comm (be_value _ * 2 ^ 16)), <- Z.lxor_assoc.
    unfold is_u32 in Hi. rewrite (add_lxor _ _ 48) by lia.
    rewrite <- !Z.shiftl_mul_pow2, !Z.shiftl_lxor, Z.shiftl_shiftl by lia. done.
Qed.

(** *** No vector is used twice *)

Lemma lxor_cancel_r a b c : Z.lxor a c = Z.lxor b c -> a = b.
Proof.
  intros E. apply (f_equal (fun z => Z.lxor z c)) in E.
  by rewrite !Z.lxor_assoc, Z.lxor_nilpotent, !Z.lxor_0_r in E.
Qed.

(** The bytes the cipher reads for a media packet. *)
Definition media_iv (c : evp_cipher) (salt : CryptoBytes.t) (ssrc roc seq : Z) : option (list Z) :=
  iv_bytes c <$> match c with
                 | EVP_aes_128_ctr => iv_cm_media ssrc roc seq salt
                 | _ => iv_gcm_media ssrc roc seq salt
                 end.

Definition control_iv (c : evp_cipher) (salt : CryptoBytes.t) (ssrc seq : Z) : option (list Z) :=
  iv_bytes c <$> match c with
                 | EVP_aes_128_ctr => iv_cm_control ssrc seq salt
                 | _ => iv_gcm_control ssrc seq salt
                 end.

Definition salt_ok (c : evp_cipher) (salt : CryptoBytes.t) : Prop :=
  ok salt /\ mSize salt = match c with EVP_aes_128_ctr => 14 | _ => 12 end%nat.

Lemma media_iv_inj c salt ssrc roc seq ssrc' roc' seq' :
  salt_ok c salt -> words_ok ssrc roc seq -> words_ok ssrc' roc' seq' ->
  media_iv c salt ssrc roc seq = media_iv c salt ssrc' roc' seq' -> ssrc = ssrc' /\ roc = roc' /\ seq = seq'.
Proof.
  intros [Hs Hsize] Hw Hw' E. unfold media_iv in E. rewrite !iv_cm_media_eq, !iv_gcm_media_eq in E.
  destruct (fields_bytes_ok ssrc roc seq) as (H1 & H2 & _). destruct (fields_bytes_ok ssrc' roc' seq') as (H1' & H2' & _).
  assert (index_of roc seq + ssrc * 2 ^ 48 = index_of roc' seq' + ssrc' * 2 ^ 48) as Eq.
  { destruct c; cbn [fmap option_fmap option_map] in E; injection E as E; unfold iv_bytes, iv_length in E;
      apply (f_equal be_value) in E;
      rewrite !iv_value in E by (done || (rewrite ?Hsize; unfold capacity; lia));
      apply lxor_cancel_r in E; rewrite ?gcm_media_value, ?cm_media_value in E by done; lia. }
  destruct Hw as (? & ? & ?), Hw' as (? & ? & ?).
  unfold is_u32, is_u16, index_of in *. zdm.
Qed.

Lemma control_iv_inj c salt ssrc seq ssrc' seq' :
  salt_ok c salt -> is_u32 ssrc -> is_u32 seq -> is_u32 ssrc' -> is_u32 seq' ->
  control_iv c salt ssrc seq = control_iv c salt ssrc' seq' -> ssrc = ssrc' /\ seq = seq'.
Proof.
  intros [Hs Hsize] ? ? ? ? E. unfold control_iv in E. rewrite !iv_cm_control_eq, !iv_gcm_control_eq in E.
  destruct (fields_bytes_ok ssrc 0 seq) as (_ & _ & Hb1 & Hb2). destruct (fields_bytes_ok ssrc' 0 seq') as (_ & _ & Hb1' & Hb2').
  assert (seq + ssrc * 2 ^ 48 = seq' + ssrc' * 2 ^ 48) as Eq.
  { destruct c; cbn [fmap option_fmap option_map] in E; injection E as E; unfold iv_bytes, iv_length in E;
      apply (f_equal be_value) in E;
      rewrite ?iv_value_16 in E by done;
      rewrite ?iv_value in E by (done || (rewrite ?Hsize; unfold capacity; lia));
      try (apply Z.mul_reg_r in E; [|done]);
      apply lxor_cancel_r in E; rewrite ?gcm_control_value, ?cm_control_value in E by done; lia. }
  unfold is_u32 in *. zdm.
Qed.

(** the initialisation vector determines the packet: two media packets with
    different SSRC, rollover counter or sequence number get different vectors, so
    do two control packets with different SSRC or index, and so all of the first
    2^32 media packets that a track's sequence source numbers.  (Control packets
    that are sent with SSRC 0 count their index per track, so two tracks do use
    one pair of SSRC and index.) *)
Theorem ivs_never_repeat c salt random n ssrc :
  salt_ok c salt -> 0 <= random <= 30000 -> Z.of_nat n < 2 ^ 32 -> is_u32 ssrc ->
  NoDup (map (fun x => media_iv c salt ssrc x.1 x.2) (RtpPacketSource.take_sequences n (RtpPacketSource.make random)).1) /\
  (forall ssrc' roc roc' seq seq', words_ok ssrc roc seq -> words_ok ssrc' roc' seq' ->
     media_iv c salt ssrc roc seq = media_iv c salt ssrc' roc' seq' -> ssrc = ssrc' /\ roc = roc' /\ seq = seq') /\
  (forall ssrc' index index', is_u32 ssrc' -> is_u32 index -> is_u32 index' ->
     control_iv c salt ssrc index = control_iv c salt ssrc' index' -> ssrc = ssrc' /\ index = index').
Proof.
  intros Hsalt Hr Hn Hssrc. split_and!.
  - rewrite RtpPacketSource.take_sequences_make, map_map by done. apply NoDup_fmap_2_strong; [|apply NoDup_seqZ].
    intros x y Hx Hy E. apply elem_of_seqZ in Hx, Hy. cbn [fst snd] in E.
    apply media_iv_inj in E as (_ & E1 & E2); [|done|split_and!; [done|unfold is_u32; zdm|unfold is_u16; zdm]..]. zdm.
  - intros. by eapply media_iv_inj.
  - intros. by eapply control_iv_inj.
Qed.

Definition demo_salt14 : CryptoBytes.t := of_list [1; 2; 3; 4; 5; 6; 7; 8; 9; 10; 11; 12; 13; 14].
Definition demo_salt12 : CryptoBytes.t := of_list [200; 2; 3; 4; 5; 6; 7; 8; 9; 10; 11; 12].

Lemma bytes_ok_forallb l : forallb (fun b => (0 <=? b) && (b <? 256)) l = true -> bytes_ok l.
Proof.
  intros H. apply list.Forall_forall. intros x Hx. rewrite forallb_forall in H.
  specialize (H x (proj1 (list_elem_of_In _ _) Hx)). unfold is_u8. lia.
Qed.

Lemma demo_salts : salt_ok EVP_aes_128_ctr demo_salt14 /\ salt_ok EVP_aes_128_gcm demo_salt12.
Proof.
  split; (split; [|reflexivity]); apply of_list_ok; try (by apply bytes_ok_forallb); unfold capacity; cbn; lia.
Qed.

Lemma ivs_never_repeat_witness :
  NoDup (map (fun x => media_iv EVP_aes_128_ctr demo_salt14 77 x.1 x.2)
    (RtpPacketSource.take_sequences 5 (RtpPacketSource.make 30000)).1).
Proof.
  apply (ivs_never_repeat EVP_aes_128_ctr demo_salt14 30000 5 77);
    [apply demo_salts|lia|lia|unfold is_u32; lia].
Defined.

Lemma ivs_follow_rfc_witness :
  exists iv1 iv2 iv3 iv4,
    iv_cm_media 77 1 65535 demo_salt14 = Some iv1 /\ iv_cm_control 77 9 demo_salt14 = Some iv2 /\
    iv_gcm_media 77 1 65535 demo_salt12 = Some iv3 /\ iv_gcm_control 77 9 demo_salt12 = Some iv4 /\
    be_value (iv_bytes EVP_aes_128_ctr iv1) = rfc3711_iv (be_value (contents demo_salt14)) 77 (index_of 1 65535) /\
    be_value (iv_bytes EVP_aes_128_ctr iv2) = rfc3711_iv (be_value (contents demo_salt14)) 77 9 /\
    be_value (iv_bytes EVP_aes_128_gcm iv3) = rfc7714_iv (be_value (contents demo_salt12)) 77 (index_of 1 65535) /\
    be_value (iv_bytes EVP_aes_128_gcm iv4) = rfc7714_iv (be_value (contents demo_salt12)) 77 9.
Proof.
  apply (ivs_follow_rfc 77 1 65535 9 demo_salt14 demo_salt12);
    [unfold words_ok, is_u32, is_u16; lia|unfold is_u32; lia|apply demo_salts|reflexivity|apply demo_salts|reflexivity].
Defined.

End Ivs.

(** ** Key derivation *)

Module Derivation.
Import CryptoBytes CryptoWriter CryptoFacts KeyDerivation.

Section Derivation.
Context `{!Evp, Hlaws : !EvpLaws}.

(** RFC 3711, 4.3.1 and 4.3.3, with a key derivation rate of zero: the inputs of
    the key stream are x * 2^16 + i, where x is the salt (padded to 112 bits)
    xor the label at bit 48. *)
Definition rfc_block (salt : list Z) (label i : Z) : list Z :=
  be_bytes 16 (Z.lxor (be_value salt * 2 ^ (8 * (16 - Z.of_nat (length salt)))) (label * 2 ^ 64) + i).

Definition rfc_keystream (key salt : list Z) (label : Z) (n : nat) : option (list (list Z)) :=
  mapM (fun i => evp_ecb key (rfc_block salt label i)) (seqZ 0 (Z.of_nat n)).

Definition label_bytes (label : Z) : list Z := replicate 7 0 ++ [label] ++ replicate 8 0.

Lemma input_of_xor salt label : (length salt = 12 \/ length salt = 14)%nat ->
  input_of salt label = zip_with Z.lxor (salt ++ replicate (16 - length salt) 0) (label_bytes label).
Proof.
  intros Hl. unfold input_of, label_bytes. set (l := salt ++ _).
  assert (length l = 16)%nat as H16 by (unfold l; rewrite length_app, length_replicate; lia). clearbody l. clear Hl.
  do 16 (destruct l as [|? l]; [done|]). destruct l; [|done]. cbn. by rewrite !Z.lxor_0_r.
Qed.

Lemma input_of_value salt label : bytes_ok salt -> is_u8 label -> (length salt = 12 \/ length salt = 14)%nat ->
  length (input_of salt label) = 16%nat /\ bytes_ok (input_of salt label) /\
  be_value (input_of salt label) = Z.lxor (be_value salt * 2 ^ (8 * (16 - Z.of_nat (length salt)))) (label * 2 ^ 64).
Proof.
  intros Hs Hlab Hl. rewrite input_of_xor by done.
  assert (bytes_ok (salt ++ replicate (16 - length salt) 0)) as Hb.
  { apply bytes_ok_app. split; [done|]. apply Forall_replicate. unfold is_u8. lia. }
  assert (bytes_ok (label_bytes label)) as Hb'.
  { apply bytes_ok_app. split; [apply Forall_replicate; unfold is_u8; lia|]. constructor; [done|].
    apply (Forall_replicate is_u8 8 0). unfold is_u8. lia. }
  assert (length (salt ++ replicate (16 - length salt) 0) = 16%nat) as H16
    by (rewrite length_app, length_replicate; lia).
  split; [rewrite length_zip_with, H16; done|]. split; [by apply lxor_bytes|].
  rewrite be_value_lxor by (done || by rewrite H16). rewrite be_value_app, be_value_zeros, length_replicate.
  unfold label_bytes. rewrite be_value_app, be_value_zeros, be_value_app, be_value_zeros.
  change (be_value [label]) with (0 * 2 ^ 8 + label). rewrite Z.add_0_r.
  f_equal; [f_equal; f_equal; lia|]. rewrite length_app, !length_replicate. cbn [length Nat.add Z.of_nat]. lia.
Qed.

(** The counter reaches the last byte only, which is enough for two blocks. *)
Lemma block_input_value salt label i : bytes_ok salt -> is_u8 label -> (length salt = 12 \/ length salt = 14)%nat ->
  0 <= i < 2 -> block_input (input_of salt label) i = rfc_block salt label i.
Proof.
  intros Hs Hlab Hl Hi. destruct (input_of_value salt label Hs Hlab Hl) as (H16 & Hb & Hv).
  unfold rfc_block. rewrite <- Hv. pose proof (input_of_xor salt label Hl) as Hx.
  assert (exists l, input_of salt label = l ++ [0; 0] /\ length l = 14%nat) as (l & E & Hlen).
  { exists (take 14 (input_of salt label)). rewrite length_take, H16. split; [|done].
    rewrite <- (take_drop 14 (input_of salt label)) at 1. f_equal. rewrite Hx. clear -Hl.
    destruct Hl as [Hl|Hl];
      [do 12 (destruct salt as [|? salt]; [done|])|do 14 (destruct salt as [|? salt]; [done|])];
      (destruct salt; [reflexivity|done]). }
  rewrite E in *. assert (block_input (l ++ [0; 0]) i = l ++ [0; i]) as ->.
  { unfold block_input. assert (i = 0 \/ i = 1) as [-> | ->] by lia;
      rewrite !insert_app_r_alt by lia; rewrite Hlen; reflexivity. }
  apply bytes_ok_app in Hb as [Hb _].
  assert (bytes_ok (l ++ [0; i])) as Hb'.
  { apply bytes_ok_app. split; [done|]. constructor; [unfold is_u8; lia|]. constructor; [unfold is_u8; lia|constructor]. }
  rewrite <- (be_bytes_value (l ++ [0; i])) at 1 by done.
  rewrite length_app, Hlen. cbn [length Nat.add]. f_equal. rewrite !be_value_app. cbn. lia.
Qed.

Lemma block_input_again input i j : block_input (block_input input i) j = block_input input j.
Proof.
  unfold block_input. rewrite (list_insert_insert_ne _ 14 15) by done.
  by rewrite !list_insert_insert_eq.
Qed.

(** One block of the loop. *)
Lemma blocks_step n key input desired count i l out :
  evp_ecb key (block_input input i) = Some out ->
  let m := Z.to_nat (if i <? count - 1 then 16 else desired - 16 * i) in
  (length l + (m `min` 16) <= capacity)%nat ->
  blocks (S n) key input desired count i (of_list l) =
  blocks n key (block_input input i) desired count (i + 1) (of_list (l ++ take m out)).
Proof using Hlaws.
  intros E m Hl. destruct (ecb_length _ _ _ E) as [Hout _]. cbn [blocks]. rewrite E, Hout.
  cbn [Nat.eqb guard_true mbind option_bind]. by rewrite append_list by (rewrite length_take, Hout; done).
Qed.

(** What a derivation of [desired] bytes gives for a key stream. *)
Definition derives (desired : Z) (stream : option (list (list Z))) (r : option (bool * CryptoBytes.t)) : Prop :=
  match stream with
  | Some stream => r = Some (true, of_list (take (Z.to_nat desired) (concat stream))) /\
      bytes_ok (concat stream) /\ (Z.to_nat desired <= length (concat stream))%nat
  | None => exists out, r = Some (false, out)
  end.

Lemma one_block key salt label desired :
  block_input (input_of salt label) 0 = rfc_block salt label 0 -> 0 < desired <= 16 ->
  derives desired (rfc_keystream key salt label 1) (blocks 1 key (input_of salt label) desired 1 0 (of_list [])).
Proof using Hlaws.
  intros H0 Hd. unfold rfc_keystream. change (seqZ 0 (Z.of_nat 1)) with [0]. cbn [mapM]. rewrite <- H0.
  destruct (evp_ecb key _) as [o1|] eqn:E1; cbn [mbind option_bind mret option_ret];
    [|exists (of_list []); cbn [blocks]; by rewrite E1].
  destruct (ecb_length _ _ _ E1) as [L1 B1].
  rewrite (blocks_step _ _ _ _ _ _ _ _ E1) by (cbn; unfold capacity; lia).
  unfold mret, option_ret, derives. cbn [concat app Z.ltb Z.compare Z.sub Z.add Z.opp Z.pos_sub blocks].
  rewrite app_nil_r, Z.sub_0_r. split; [done|]. split; [done|lia].
Qed.

Lemma two_blocks key salt label desired :
  block_input (input_of salt label) 0 = rfc_block salt label 0 ->
  block_input (input_of salt label) 1 = rfc_block salt label 1 -> 16 < desired <= 32 ->
  derives desired (rfc_keystream key salt label 2) (blocks 2 key (input_of salt label) desired 2 0 (of_list [])).
Proof using Hlaws.
  intros H0 H1 Hd. unfold rfc_keystream. change (seqZ 0 (Z.of_nat 2)) with [0; 1]. cbn [mapM].
  rewrite <- H0, <- H1.
  destruct (evp_ecb key (block_input _ 0)) as [o1|] eqn:E1; cbn [mbind option_bind mret option_ret];
    [|exists (of_list []); cbn [blocks]; by rewrite E1].
  destruct (ecb_length _ _ _ E1) as [L1 B1].
  rewrite (blocks_step _ _ _ _ _ _ _ _ E1) by (cbn; unfold capacity; lia).
  change (Z.to_nat (if 0 <? 2 - 1 then 16 else desired - 16 * 0)) with 16%nat. cbn [app]. change (0 + 1) with 1.
  rewrite (take_ge o1) by lia. rewrite <- (block_input_again _ 0 1).
  destruct (evp_ecb key (block_input _ 1)) as [o2|] eqn:E2; cbn [mbind option_bind mret option_ret];
    [|eexists; cbn [blocks]; by rewrite E2].
  destruct (ecb_length _ _ _ E2) as [L2 B2].
  rewrite (blocks_step _ _ _ _ _ _ _ _ E2) by (rewrite ?L1; cbn; unfold capacity; lia).
  unfold mret, option_ret, derives. cbn [blocks concat app]. rewrite app_nil_r, length_app, L1, L2.
  split; [|split; [by apply bytes_ok_app|lia]].
  change (if 1 <? 2 - 1 then 16 else desired - 16 * 1) with (desired - 16 * 1).
  rewrite take_app, L1, (take_ge o1) by lia. by replace (Z.to_nat (desired - 16 * 1)) with (Z.to_nat desired - 16)%nat by lia.
Qed.

(** C27: the session keys, authentication keys and salts are those of the
    standard: for every master key and salt, label and size up to two blocks,
    the derivation writes the first bytes of the AES key stream of RFC 3711 (the
    salt of the GCM profiles padded as in RFC 7714), or reports the failure of
    the cipher. *)
Theorem derivation_follows_rfc masterKey masterSalt label output desired :
  (mSize masterKey = 16 \/ mSize masterKey = 32)%nat ->
  ok masterSalt -> (mSize masterSalt = 12 \/ mSize masterSalt = 14)%nat -> is_u8 label -> 0 < desired <= 32 ->
  exists b out, generate masterKey masterSalt label output desired = Some (b, out) /\
    match rfc_keystream (contents masterKey) (contents masterSalt) label (Z.to_nat ((desired + 15) / 16)) with
    | Some stream => b = true /\ ok out /\ contents out = take (Z.to_nat desired) (concat stream)
    | None => b = false
    end.
Proof using Hlaws.
  intros Hk (Hl & Hcap & Hb & _) Hs Hlab Hd.
  assert (bytes_ok (contents masterSalt)) as Hsalt by (by apply bytes_ok_take).
  assert (length (contents masterSalt) = mSize masterSalt) as Hlen
    by (unfold contents; rewrite length_take; unfold capacity in *; lia).
  set (key := contents masterKey). set (salt := contents masterSalt) in *.
  assert (derives desired (rfc_keystream key salt label (Z.to_nat ((desired + 15) / 16)))
    (generate masterKey masterSalt label output desired)) as Hres.
  { unfold generate, size. fold key salt.
    assert ((mSize masterKey =? 16)%nat || (mSize masterKey =? 32)%nat = true) as -> by (by destruct Hk as [-> | ->]).
    assert ((mSize masterSalt =? 12)%nat || (mSize masterSalt =? 14)%nat = true) as -> by (by destruct Hs as [-> | ->]).
    destruct (Z.ltb_spec 0 desired), (Z.leb_spec desired 32); [|lia..]. cbn [andb guard_true mbind option_bind].
    pose proof (block_input_value salt label 0 Hsalt Hlab) as Hb0. pose proof (block_input_value salt label 1 Hsalt Hlab) as Hb1.
    rewrite Hlen in *. specialize (Hb0 Hs ltac:(lia)). specialize (Hb1 Hs ltac:(lia)).
    destruct (decide (desired <= 16)) as [Hsmall|Hbig].
    - replace ((desired + 15) / 16) with 1 by zdm. by apply one_block.
    - replace ((desired + 15) / 16) with 2 by zdm. apply two_blocks; [done..|lia]. }
  unfold derives in Hres. destruct (rfc_keystream key salt label _) as [stream|].
  - destruct Hres as (-> & Hbs & Hle). eexists _, _. split; [done|]. split; [done|].
    assert (length (take (Z.to_nat desired) (concat stream)) = Z.to_nat desired) as Ht by (rewrite length_take; lia).
    split; [apply of_list_ok; [by apply bytes_ok_take|rewrite Ht; unfold capacity; lia]|].
    unfold contents, of_list. cbn [mSize v8]. by rewrite take_app_length.
  - destruct Hres as (out & ->). by exists false, out.
Qed.
End Derivation.
End Derivation.

(** ** Protecting and unprotecting *)

Module Roundtrip.
Import CryptoFacts SrtpCrypto Ivs.

(** *** Parts of a packet *)

Lemma peek_app n l k off : (off + n <= length l)%nat -> peek n (l ++ k) off = peek n l off.
Proof.
  intros H. unfold peek. rewrite length_app.
  destruct (Nat.leb_spec (off + n) (length l)), (Nat.leb_spec (off + n) (length l + length k)); [|lia..].
  by rewrite drop_app_le, take_app_le by (rewrite ?length_drop; lia).
Qed.

Lemma peek_take n h l off : (off + n <= h)%nat -> (h <= length l)%nat -> peek n (take h l) off = peek n l off.
Proof.
  intros Hn Hh. rewrite <- (take_drop h l) at 2. by rewrite peek_app by (rewrite length_take; lia).
Qed.

Lemma peek_some n l off : (off + n <= length l)%nat -> peek n l off = Some (be_value (take n (drop off l))).
Proof. intros H. unfold peek. by destruct (Nat.leb_spec (off + n) (length l)); [|lia]. Qed.

Lemma peek_range n l off v : bytes_ok l -> peek n l off = Some v -> 0 <= v < 2 ^ (8 * Z.of_nat n).
Proof.
  intros Hl. unfold peek. destruct (Nat.leb_spec (off + n) (length l)); [|done]. intros [= <-].
  assert (bytes_ok (take n (drop off l))) as Hb by (by apply bytes_ok_take, bytes_ok_drop).
  pose proof (be_value_range _ Hb) as Hr. rewrite length_take, length_drop in Hr.
  by replace (n `min` (length l - off))%nat with n in Hr by lia.
Qed.

Lemma trailing_app l k : trailing (l ++ k) (length k) = k.
Proof. unfold trailing. rewrite length_app, drop_app_ge by lia. by replace (_ - _ - _)%nat with O by lia. Qed.

Lemma middle_app h b k : middle (h ++ b ++ k) (length h) (length k) = b.
Proof.
  unfold middle. rewrite drop_app_length, !length_app, take_app_le by lia. apply take_ge. lia.
Qed.

(** *** Two ends of a connection *)

Record matching (a b : SrtpCrypto.t) : Prop := {
  match_profile : mProfileId a = mProfileId b;
  match_known : is_gcm (mProfileId a) = true \/ is_cm (mProfileId a) = true;
  match_rtp : mReceiveRtp b = mSendRtp a;
  match_rtcp : mReceiveRtcp b = mSendRtcp a;
  match_send : mSendCipherCtx a = createCipher (mProfileId a);
  match_receive : mReceiveCipherCtx b = createCipher (mProfileId b);
  match_hmac : mHmacSha1 a = true /\ mHmacSha1 b = true
}.

Lemma known_cipher profileId : is_gcm profileId = true \/ is_cm profileId = true ->
  exists c, createCipher profileId = Some c.
Proof.
  unfold createCipher, is_gcm. intros H. destruct (profileId =? SRTP_AEAD_AES_256_GCM); [by eexists|].
  destruct (profileId =? SRTP_AEAD_AES_128_GCM); [by eexists|]. cbn in H.
  destruct H as [H|H]; [done|rewrite H; by eexists].
Qed.

Lemma gcm_not_cm profileId : is_cm profileId = true -> is_gcm profileId = false.
Proof.
  unfold is_cm, is_gcm. rewrite orb_true_iff, !Z.eqb_eq. by intros [-> | ->].
Qed.

Lemma cm_digest profileId : is_cm profileId = true -> exists n, cm_digest_size profileId = Some n /\ (n = 10 \/ n = 4)%nat.
Proof.
  unfold is_cm, cm_digest_size. rewrite orb_true_iff, !Z.eqb_eq. intros [-> | ->]; eexists; (split; [done|]); auto.
Qed.

(** A packet whose payload is not empty; its header is inside. *)
Definition header_length (p : list Z) (header : Z) : nat :=
  if has_bit header 12 then 16 + Z.to_nat (default 0 (peek16 p 14)) * 4 else 12.

Record media_ok (p : list Z) (header : Z) : Prop := {
  media_bytes : bytes_ok p;
  media_header : peek16 p 0 = Some header;
  media_extension : has_bit header 12 = true -> (16 <= length p)%nat;
  media_payload : (header_length p header < length p)%nat
}.

Lemma header_length_12 p header : (12 <= header_length p header)%nat.
Proof. unfold header_length. destruct (has_bit header 12); lia. Qed.

Lemma send_header p header : media_ok p header -> send_header_size p header = Some (Some (header_length p header)).
Proof.
  intros [_ _ He Hp]. unfold send_header_size, header_length in *. destruct (has_bit header 12); [|done].
  rewrite peek_some in Hp |- * by (specialize (He eq_refl); lia). cbn [default from_option id mbind option_bind] in *.
  by destruct (Nat.leb_spec (length p) (16 + Z.to_nat (be_value (take 2 (drop 14 p))) * 4)); [lia|].
Qed.

(** The receiver finds the same header in the protected packet. *)
Lemma receive_header p header rest n :
  media_ok p header -> (length (take (header_length p header) p ++ rest) = length p + n)%nat ->
  receive_header_size (take (header_length p header) p ++ rest) header n = Some (Some (header_length p header)).
Proof.
  intros [_ _ He Hp] Hlen. unfold receive_header_size. set (h := header_length p header) in *. rewrite Hlen.
  unfold header_length in h. destruct (has_bit header 12); [|done]. specialize (He eq_refl).
  assert (16 <= h)%nat by (unfold h; lia).
  destruct (Nat.ltb_spec (length p + n) (16 + n)); [lia|].
  rewrite peek_app, peek_take by (rewrite ?length_take; lia). unfold h in Hp |- *.
  rewrite peek_some in Hp |- * by lia. cbn [default from_option id mbind option_bind] in *.
  by destruct (Nat.leb_spec (length p + n) (16 + Z.to_nat (be_value (take 2 (drop 14 p))) * 4 + n)); [lia|].
Qed.

(** What both sides read from the header. *)
Lemma header_fields p header rest : media_ok p header ->
  let packet := take (header_length p header) p ++ rest in
  peek16 packet 0 = Some header /\ peek16 packet 2 = peek16 p 2 /\ peek32 packet 8 = peek32 p 8 /\
  is_Some (peek16 p 2) /\ is_Some (peek32 p 8).
Proof.
  intros [_ Hh _ Hp]. cbv zeta. pose proof (header_length_12 p header).
  rewrite !peek_app, !peek_take by (rewrite ?length_take; lia).
  split_and!; [done..|rewrite peek_some by lia; by eexists|rewrite peek_some by lia; by eexists].
Qed.

Section Roundtrip.
Context `{!Evp, Hlaws : !EvpLaws}.
#[local] Set Default Proof Using "Hlaws".

(** The packet of the wire: header, ciphertext, tag. *)
Lemma protect_media_shape a p header roc : media_ok p header -> (mSendCipherCtx a = createCipher (mProfileId a)) ->
  is_gcm (mProfileId a) = true \/ is_cm (mProfileId a) = true ->
  exists r, protectSendMedia a p roc = Some r /\
    forall enc, r = Some enc -> exists body tag, enc = take (header_length p header) p ++ body ++ tag /\
      length body = (length p - header_length p header)%nat /\
      Some (Z.of_nat (length tag)) = getMediaProtectionOverhead a.
Proof.
  intros Hp Hctx Hknown. pose proof Hp as [Hb Hh _ Hpl].
  destruct (header_fields p header [] Hp) as (_ & _ & _ & (seq & Hseq) & (ssrc & Hssrc)).
  destruct (known_cipher _ Hknown) as (c & Hc).
  assert (length (take (header_length p header) p) = header_length p header) as Hhl by (rewrite length_take; lia).
  unfold protectSendMedia, getMediaProtectionOverhead. destruct (is_gcm (mProfileId a)) eqn:Eg.
  - unfold protectSendMediaGCM. rewrite Hctx, Hc, Hh, Hseq, Hssrc. cbn [mbind option_bind].
    rewrite iv_gcm_media_eq. cbn [mbind option_bind]. rewrite (send_header p header Hp). cbn [mbind option_bind].
    destruct (evp_gcm_encrypt _ _ _ _ _) as [[body tag]|] eqn:E; [|by exists None].
    destruct (gcm_length _ _ _ _ _ _ _ E) as [Hlb Hlt]. rewrite length_drop in Hlb.
    unfold finish. rewrite !length_app, Hhl, Hlb, Hlt. unfold kAESGCM_TagSize.
    destruct (Nat.eqb_spec (header_length p header + (length p - header_length p header + 16)) (length p + 16)); [|lia].
    eexists. split; [done|]. intros enc [= <-]. exists body, tag. split; [done|]. split; [done|by rewrite Hlt].
  - destruct Hknown as [|Hcm]; [done|]. rewrite Hcm. destruct (cm_digest _ Hcm) as (n & Hn & Hn').
    unfold protectSendMediaCM. rewrite Hctx, Hc, Hn, Hh, Hseq, Hssrc. cbn [mbind option_bind].
    rewrite iv_cm_media_eq. cbn [mbind option_bind]. rewrite (send_header p header Hp). cbn [mbind option_bind].
    destruct (evp_ctr_encrypt _ _ _ _) as [body|] eqn:E; [|by exists None].
    destruct (mHmacSha1 a); [|by exists None]. cbn [negb].
    pose proof (ctr_length _ _ _ _ _ E) as Hlb. rewrite length_drop in Hlb.
    unfold finish. rewrite !length_app, Hhl, Hlb, length_take. unfold hmac. rewrite hmac_length.
    destruct (Nat.eqb_spec (header_length p header + (length p - header_length p header + n `min` 20)) (length p + n)); [|lia].
    eexists. split; [done|]. intros enc [= <-]. eexists body, _. split; [done|]. split; [done|].
    rewrite length_take, hmac_length. unfold cm_digest_size in Hn.
    destruct (mProfileId a =? SRTP_AES128_CM_SHA1_80); [by injection Hn as <-|].
    destruct (mProfileId a =? SRTP_AES128_CM_SHA1_32); [by injection Hn as <-|done].
Qed.

Lemma media_roundtrip_gcm a b p header roc enc : matching a b -> is_gcm (mProfileId a) = true -> media_ok p header ->
  protectSendMediaGCM a p roc = Some (Some enc) -> unprotectReceiveMediaGCM b enc roc = Some (Some p).
Proof.
  intros [Hprof Hknown Hv _ Hs Hr _] Hg Hp. pose proof Hp as [_ Hh _ Hpl]. destruct (known_cipher _ Hknown) as (c & Hc).
  set (head := take (header_length p header) p).
  assert (length head = header_length p header) as Hhl by (unfold head; rewrite length_take; lia).
  pose proof (header_length_12 p header) as H12.
  unfold protectSendMediaGCM. rewrite Hs, Hc. rewrite Hh. cbn [mbind option_bind].
  destruct (header_fields p header [] Hp) as (_ & _ & _ & (seq & Hseq) & (ssrc & Hssrc)).
  rewrite Hseq, Hssrc. cbn [mbind option_bind]. rewrite iv_gcm_media_eq. cbn [mbind option_bind].
  rewrite (send_header p header Hp). cbn [mbind option_bind]. fold head.
  destruct (evp_gcm_encrypt _ _ _ _ _) as [[body tag]|] eqn:E; [|done].
  destruct (gcm_length _ _ _ _ _ _ _ E) as [Hlb Hlt]. rewrite length_drop in Hlb.
  intros Hfin. apply bind_Some_inv in Hfin as (? & _ & [= <-]).
  unfold unprotectReceiveMediaGCM. rewrite Hr, <- Hprof, Hc, Hv.
  assert (length (head ++ body ++ tag) = length p + 16)%nat as Hlen by (rewrite !length_app; lia).
  destruct (Nat.leb_spec (length (head ++ body ++ tag)) (12 + kAESGCM_TagSize)); [unfold kAESGCM_TagSize in *; lia|].
  pose proof (header_fields p header (body ++ tag) Hp) as Hf. cbv zeta in Hf. fold head in Hf.
  destruct Hf as (-> & -> & -> & _). rewrite Hseq, Hssrc.
  cbn [mbind option_bind]. rewrite iv_gcm_media_eq. cbn [mbind option_bind].
  pose proof (receive_header p header (body ++ tag) kAESGCM_TagSize Hp) as Hrh. fold head in Hrh.
  rewrite Hrh by done. cbn [mbind option_bind].
  rewrite <- Hhl, take_app_length. rewrite app_assoc at 1. rewrite <- Hlt at 1. rewrite trailing_app.
  change kAESGCM_TagSize with 16%nat. rewrite <- Hlt at 1. rewrite middle_app, (gcm_inverse _ _ _ _ _ _ _ E).
  unfold finish. rewrite Hlen, length_app, length_drop, Hhl.
  replace (header_length p header + (length p - header_length p header) =? length p + 16 - 16)%nat with true
    by (symmetry; apply Nat.eqb_eq; lia).
  cbn [guard_true mbind option_bind]. unfold head. by rewrite take_drop.
Qed.

Lemma media_roundtrip_cm a b p header roc enc : matching a b -> is_cm (mProfileId a) = true -> media_ok p header ->
  protectSendMediaCM a p roc = Some (Some enc) -> unprotectReceiveMediaCM b enc roc = Some (Some p).
Proof.
  intros [Hprof Hknown Hv _ Hs Hr [Hh1 Hh2]] Hg Hp. pose proof Hp as [_ Hh _ Hpl]. destruct (known_cipher _ Hknown) as (c & Hc).
  destruct (cm_digest _ Hg) as (n & Hn & Hn').
  set (head := take (header_length p header) p).
  assert (length head = header_length p header) as Hhl by (unfold head; rewrite length_take; lia).
  pose proof (header_length_12 p header) as H12.
  unfold protectSendMediaCM. rewrite Hs, Hc, Hn, Hh, Hh1. cbn [mbind option_bind negb].
  destruct (header_fields p header [] Hp) as (_ & _ & _ & (seq & Hseq) & (ssrc & Hssrc)).
  rewrite Hseq, Hssrc. cbn [mbind option_bind]. rewrite iv_cm_media_eq. cbn [mbind option_bind].
  rewrite (send_header p header Hp). cbn [mbind option_bind]. fold head.
  destruct (evp_ctr_encrypt _ _ _ _) as [body|] eqn:E; [|done].
  pose proof (ctr_length _ _ _ _ _ E) as Hlb. rewrite length_drop in Hlb.
  set (tag := take n (hmac (mSendRtp a) (head ++ body ++ htonl roc))).
  assert (length tag = n) as Hlt by (unfold tag, hmac; rewrite length_take, hmac_length; lia).
  intros Hfin. apply bind_Some_inv in Hfin as (? & _ & [= <-]).
  unfold unprotectReceiveMediaCM. rewrite Hr, <- Hprof, Hc, Hv, Hn, Hh2. cbn [mbind option_bind negb].
  assert (length (head ++ body ++ tag) = length p + n)%nat as Hlen by (rewrite !length_app; lia).
  destruct (Nat.leb_spec (length (head ++ body ++ tag)) (12 + n)); [lia|].
  pose proof (header_fields p header (body ++ tag) Hp) as Hf. cbv zeta in Hf. fold head in Hf.
  destruct Hf as (-> & -> & -> & _). rewrite Hseq, Hssrc.
  cbn [mbind option_bind]. rewrite iv_cm_media_eq. cbn [mbind option_bind].
  pose proof (receive_header p header (body ++ tag) n Hp) as Hrh. fold head in Hrh.
  rewrite Hrh by done. cbn [mbind option_bind].
  rewrite <- Hhl, take_app_length. rewrite <- Hlt at 1. rewrite middle_app, (ctr_inverse _ _ _ _ _ E).
  assert (take (length (head ++ body ++ tag) - n) (head ++ body ++ tag) = head ++ body) as ->.
  { rewrite app_assoc, length_app, Hlt, Nat.add_sub. apply take_app_length. }
  assert (trailing (head ++ body ++ tag) n = tag) as Htr by (rewrite app_assoc, <- Hlt; apply trailing_app).
  rewrite bool_decide_true by (rewrite Htr; unfold tag; by rewrite <- app_assoc).
  unfold finish. rewrite Hlen, length_app, length_drop, Hhl.
  replace (header_length p header + (length p - header_length p header) =? length p + n - n)%nat with true
    by (symmetry; apply Nat.eqb_eq; lia).
  cbn [guard_true mbind option_bind]. unfold head. by rewrite take_drop.
Qed.

Lemma media_roundtrip a b p header roc enc : matching a b -> media_ok p header ->
  protectSendMedia a p roc = Some (Some enc) -> unprotectReceiveMedia b enc roc = Some (Some p).
Proof.
  intros Hm Hp. pose proof Hm as [Hprof Hknown _ _ _ _ _]. unfold protectSendMedia, unprotectReceiveMedia.
  rewrite <- Hprof. destruct (is_gcm (mProfileId a)) eqn:Eg; [by eapply media_roundtrip_gcm|].
  destruct Hknown as [|Hcm]; [done|]. rewrite Hcm. by eapply media_roundtrip_cm.
Qed.

(** *** Control packets *)

Lemma encrypted_trailer seq : 0 <= seq < 2 ^ 31 ->
  let trailer := Z.lor seq kRTCP_EncryptedBit in
  is_u32 trailer /\ clear_encrypted trailer = seq /\ has_bit trailer 31 = true.
Proof using Type.
  intros Hseq. cbv zeta. unfold clear_encrypted, kRTCP_EncryptedBit.
  assert (Z.lor seq 0x80000000 = 2 ^ 31 + seq) as ->.
  { rewrite Z.lor_comm. change 0x80000000 with (Z.shiftl 1 31). rewrite lor_shiftl_add by lia. lia. }
  change (u32 (Z.lnot 0x80000000)) with (2 ^ 31 - 1). rewrite land_ones_mod by lia.
  split; [unfold is_u32; lia|]. split.
  - replace (2 ^ 31 + seq) with (seq + 1 * 2 ^ 31) by lia. rewrite Z.mod_add, Z.mod_small; lia.
  - rewrite has_bit_testbit by lia. rewrite Z.testbit_true by lia.
    replace ((2 ^ 31 + seq) / 2 ^ 31) with 1 by zdm. done.
Qed.

Lemma peek_at n pre v rest : 0 <= v < 2 ^ (8 * Z.of_nat n) -> peek n (pre ++ be_bytes n v ++ rest) (length pre) = Some v.
Proof using Type.
  intros Hv. rewrite peek_some by (rewrite !length_app, length_be_bytes; lia).
  rewrite drop_app_length, take_length_app by (by rewrite length_be_bytes). by rewrite be_value_bytes.
Qed.

(** The fields and parts of a protected control packet. *)
Lemma control_parts p body k1 k2 trailer : (8 <= length p)%nat -> is_u32 trailer ->
  let packet := take 8 p ++ body ++ k1 ++ htonl trailer ++ k2 in
  peek32 packet 4 = peek32 p 4 /\ peek32 packet (length packet - length k2 - 4) = Some trailer /\
  take 8 packet = take 8 p /\ middle packet 8 (length k1 + 4 + length k2) = body /\
  take (length k1) (drop (length packet - (length k1 + 4 + length k2)) packet) = k1 /\
  trailing packet (4 + length k2) = htonl trailer ++ k2 /\ trailing packet (length k2) = k2 /\
  take (length packet - length k2) packet = take 8 p ++ body ++ k1 ++ htonl trailer /\
  (length packet = 8 + length body + length k1 + 4 + length k2)%nat.
Proof using Type.
  intros Hp Ht. cbv zeta. assert (length (take 8 p) = 8%nat) as H8 by (rewrite length_take; lia).
  assert (length (htonl trailer) = 4%nat) as H4 by apply length_be_bytes.
  set (packet := take 8 p ++ body ++ k1 ++ htonl trailer ++ k2).
  assert (length packet = 8 + length body + length k1 + 4 + length k2)%nat as Hlen
    by (unfold packet; rewrite !length_app, H8, H4; lia).
  split_and!.
  - unfold packet. by rewrite peek_app, peek_take by lia.
  - replace (length packet - length k2 - 4)%nat with (length (take 8 p ++ body ++ k1)) by (rewrite !length_app; lia).
    unfold packet, htonl. rewrite !app_assoc, <- (app_assoc _ (be_bytes 4 _)). by apply (peek_at 4).
  - unfold packet. by rewrite take_length_app.
  - unfold packet. rewrite <- H8 at 2. replace (length k1 + 4 + length k2)%nat with (length (k1 ++ htonl trailer ++ k2))
      by (rewrite !length_app; lia). apply middle_app.
  - replace (length packet - (length k1 + 4 + length k2))%nat with (length (take 8 p ++ body)) by (rewrite length_app; lia).
    unfold packet. rewrite app_assoc, drop_app_length. apply take_app_length.
  - replace (4 + length k2)%nat with (length (htonl trailer ++ k2)) by (rewrite length_app; lia).
    unfold packet. rewrite !app_assoc. rewrite <- (app_assoc _ (htonl trailer)). apply trailing_app.
  - unfold packet. rewrite !app_assoc. apply trailing_app.
  - replace (length packet - length k2)%nat with (length (take 8 p ++ body ++ k1 ++ htonl trailer)) by (rewrite !length_app; lia).
    unfold packet. replace (take 8 p ++ body ++ k1 ++ htonl trailer ++ k2) with ((take 8 p ++ body ++ k1 ++ htonl trailer) ++ k2)
      by (by rewrite <- !app_assoc). apply take_app_length.
  - done.
Qed.

Lemma control_roundtrip_gcm a b p seq enc : matching a b -> is_gcm (mProfileId a) = true -> (8 <= length p)%nat ->
  0 <= seq < 2 ^ 31 -> protectSendControlGCM a p seq = Some (Some enc) -> unprotectReceiveControlGCM b enc = Some (Some p).
Proof.
  intros [Hprof Hknown _ Hv Hs Hr _] Hg Hp Hseq. destruct (known_cipher _ Hknown) as (c & Hc).
  destruct (encrypted_trailer seq Hseq) as (Ht & Hcl & Hbit). set (trailer := Z.lor seq _) in *.
  unfold protectSendControlGCM. rewrite Hs, Hc, (peek_some 4 p 4) by lia. cbn [mbind option_bind].
  rewrite iv_gcm_control_eq. cbn [mbind option_bind].
  set (ssrc := be_value _). fold trailer.
  destruct (evp_gcm_encrypt _ _ _ _ _) as [[body tag]|] eqn:E; [|done].
  destruct (gcm_length _ _ _ _ _ _ _ E) as [Hlb Hlt]. rewrite length_drop in Hlb. unfold kRTCP_HeaderSize in *.
  intros Hfin. apply bind_Some_inv in Hfin as (? & _ & [= <-]).
  destruct (control_parts p body tag [] trailer Hp Ht) as (F1 & F2 & F3 & F4 & F5 & F6 & _ & _ & Hlen).
  rewrite app_nil_r, Hlt, ?Nat.add_0_r, ?Nat.sub_0_r in *. set (packet := take 8 p ++ body ++ tag ++ htonl trailer) in *.
  unfold unprotectReceiveControlGCM. destruct (Nat.ltb_spec (length packet) 28); [lia|].
  rewrite Hr, <- Hprof, Hc, Hv, F1, (peek_some 4 p 4) by lia. cbn [mbind option_bind]. rewrite F2. cbn [mbind option_bind]. fold ssrc.
  rewrite Hcl, Hbit, iv_gcm_control_eq. cbn [mbind option_bind]. unfold kRTCP_HeaderSize, kRTCP_TrailerSize, kAESGCM_TagSize.
  change (16 + 4)%nat with 20%nat in *. rewrite F3, F4, F5, F6, (gcm_inverse _ _ _ _ _ _ _ E).
  unfold finish. rewrite length_app, length_take, length_drop, Hlen.
  replace (_ =? _)%nat with true by (symmetry; apply Nat.eqb_eq; lia).
  cbn [guard_true mbind option_bind]. by rewrite take_drop.
Qed.

Lemma control_roundtrip_cm a b p seq enc : matching a b -> is_cm (mProfileId a) = true -> (8 <= length p)%nat ->
  0 <= seq < 2 ^ 31 -> protectSendControlCM a p seq = Some (Some enc) -> unprotectReceiveControlCM b enc = Some (Some p).
Proof.
  intros [Hprof Hknown _ Hv Hs Hr [Hh1 Hh2]] Hg Hp Hseq. destruct (known_cipher _ Hknown) as (c & Hc).
  destruct (encrypted_trailer seq Hseq) as (Ht & Hcl & Hbit). set (trailer := Z.lor seq _) in *.
  unfold protectSendControlCM. rewrite Hs, Hc, (peek_some 4 p 4), Hh1 by lia. cbn [mbind option_bind negb].
  rewrite iv_cm_control_eq. cbn [mbind option_bind].
  set (ssrc := be_value _). fold trailer.
  destruct (evp_ctr_encrypt _ _ _ _) as [body|] eqn:E; [|done].
  pose proof (ctr_length _ _ _ _ _ E) as Hlb. rewrite length_drop in Hlb. unfold kRTCP_HeaderSize in *.
  set (tag := take _ (hmac _ _)).
  assert (length tag = 10%nat) as Hlt by (unfold tag, hmac, control_digest_size; rewrite length_take, hmac_length; lia).
  intros Hfin. apply bind_Some_inv in Hfin as (? & _ & Hfin).
  assert (enc = take 8 p ++ body ++ htonl trailer ++ tag) as -> by congruence. clear Hfin.
  destruct (control_parts p body [] tag trailer Hp Ht) as (F1 & F2 & F3 & F4 & _ & F6 & F7 & F8 & Hlen).
  rewrite ?app_nil_l in F1, F2, F3, F4, F6, F7, F8, Hlen. cbn [length Nat.add] in F4, Hlen. rewrite Hlt in *.
  set (packet := take 8 p ++ body ++ htonl trailer ++ tag) in *.
  unfold unprotectReceiveControlCM, control_digest_size. destruct (Nat.ltb_spec (length packet) (12 + 10)); [lia|].
  rewrite Hr, <- Hprof, Hc, Hv, F1, (peek_some 4 p 4), Hh2 by lia. cbn [mbind option_bind negb].
  rewrite F2. cbn [mbind option_bind]. fold ssrc.
  rewrite Hcl, Hbit, iv_cm_control_eq. cbn [mbind option_bind]. unfold kRTCP_HeaderSize, kRTCP_TrailerSize.
  change (4 + 10)%nat with 14%nat in *. rewrite F3, F4, (ctr_inverse _ _ _ _ _ E).
  rewrite bool_decide_true by (by rewrite F7, F8).
  unfold finish. rewrite length_app, length_take, length_drop, Hlen.
  replace (_ =? _)%nat with true by (symmetry; apply Nat.eqb_eq; lia).
  cbn [guard_true mbind option_bind]. by rewrite take_drop.
Qed.

Lemma control_roundtrip a b p seq enc : matching a b -> (8 <= length p)%nat -> 0 <= seq < 2 ^ 31 ->
  protectSendControl a p seq = Some (Some enc) -> unprotectReceiveControl b enc = Some (Some p).
Proof.
  intros Hm Hp Hseq. pose proof Hm as [Hprof Hknown _ _ _ _ _]. unfold protectSendControl, unprotectReceiveControl.
  rewrite <- Hprof. destruct (is_gcm (mProfileId a)) eqn:Eg; [by eapply control_roundtrip_gcm|].
  destruct Hknown as [|Hcm]; [done|]. rewrite Hcm. by eapply control_roundtrip_cm.
Qed.

End Roundtrip.
End Roundtrip.

(** ** Receiving media: the abstract window

    The receiver of one stream as a set of 48-bit packet indices: the greatest
    accepted so far and those accepted. *)

Module Window.
Import SrtpConnection.

Definition spec : Type := option (Z * gset Z).

(** Forward by at most 512, or late by less than 2048 in the same epoch and not
    seen before. *)
Definition accepts (sp : spec) (i : Z) : bool :=
  match sp with
  | None => true
  | Some (top, seen) =>
      bool_decide (top < i <= top + 512) ||
      bool_decide (top - 2048 < i <= top /\ i / 2 ^ 16 = top / 2 ^ 16 /\ i ∉ seen)
  end.

Definition add (sp : spec) (i : Z) : spec :=
  match sp with
  | None => Some (i, {[ i ]})
  | Some (top, seen) => Some (Z.max top i, {[ i ]} ∪ seen)
  end.

(** Indices that 16 bits of sequence number tell apart; a stream is received
    from its first 65536 packets on. *)
Definition paced (sp : spec) (i : Z) : Prop :=
  0 <= i < 2 ^ 48 /\
  match sp with
  | None => i < 2 ^ 16
  | Some (top, _) => top - 65024 < i <= top + 63488
  end.

Notation max := 65535 (only parsing).
Notation size := 2048 (only parsing).

(** The low parts of the indices of the current epoch. *)
Record replay_at (r : ReplayProtection.t) (top : Z) (seen : gset Z) : Prop := {
  at_top : 0 <= top < 2 ^ 48;
  at_in : top ∈ seen;
  at_max : forall j, j ∈ seen -> j <= top;
  at_low : exists low, ReplayProtection.represents max size r (Some (top mod 2 ^ 16, low)) /\
    forall v, 0 <= v < 2 ^ 16 -> v ∈ low <-> (top / 2 ^ 16 * 2 ^ 16 + v) ∈ seen
}.

Definition follows (c : ChannelValue) (sp : spec) : Prop :=
  match sp with
  | None => ReplayProtection.represents max size (replayProtection c) None /\ rolloverCount c = 0 /\
            lastSequence16 c = None
  | Some (top, seen) =>
      replay_at (replayProtection c) top seen /\ rolloverCount c = top / 2 ^ 16 /\
      exists last, lastSequence16 c = Some (last mod 2 ^ 16) /\ last / 2 ^ 16 = top / 2 ^ 16 /\
        top - 2048 < last <= top
  end.

Definition follows_at (s : t) (key : ChannelKey) (sp : spec) : Prop :=
  match mSrtpInMap s !! key with
  | Some c => follows c sp
  | None => sp = None
  end.

Lemma low_split i : i = i / 2 ^ 16 * 2 ^ 16 + i mod 2 ^ 16.
Proof. pose proof (Z.div_mod i (2 ^ 16)). lia. Qed.

Lemma can_spec c sp i : follows c sp -> paced sp i ->
  ReplayProtection.canProceed (replayProtection c) (i mod 2 ^ 16) = accepts sp i.
Proof.
  intros Hf [Hi Hp]. destruct sp as [[top seen]|].
  - destruct Hf as [[Ht Hin Hmax (low & Hrep & Hlow)] _].
    rewrite (ReplayProtection.canProceed_represents _ _ _ _ _ Hrep) by zdm. cbn [ReplayProtection.spec_can accepts].
    change (2048 / 4) with 512. pose proof (Hlow (i mod 2 ^ 16) ltac:(zdm)) as Hl.
    pose proof (low_split i) as Ei. pose proof (low_split top) as Et.
    assert (0 <= i mod 2 ^ 16 < 2 ^ 16) as Bi by zdm. assert (0 <= top mod 2 ^ 16 < 2 ^ 16) as Bt by zdm.
    apply eq_bool_prop_intro. rewrite orb_True, !bool_decide_spec.
    set (v := i mod 2 ^ 16) in *. set (m := top mod 2 ^ 16) in *. set (e := i / 2 ^ 16) in *. set (f := top / 2 ^ 16) in *.
    assert (e = f \/ e = f - 1 \/ e = f + 1) as He by lia.
    destruct (decide (m < v)) as [Hlt|Hge].
    + rewrite bool_decide_spec. destruct He as [-> | [-> | ->]]; lia.
    + rewrite andb_True, orb_True, andb_True, !bool_decide_spec.
      destruct He as [-> | [-> | ->]]; [|lia|lia].
      rewrite Hl, <- Ei. split.
      * intros [Hne [?|[? ?]]]; [lia|]. right. split; [lia|done].
      * intros [?|(? & _ & ?)]; [lia|]. assert (v <> m) by (intros ->; congruence). split; [done|]. right. split; [lia|done].
  - destruct Hf as [Hr _]. by rewrite (ReplayProtection.canProceed_represents _ _ _ _ _ Hr) by zdm.
Qed.

(** The rollover counter used is the packet's, the one kept that of the greatest
    index, the number kept that of the last packet of the epoch. *)
Lemma rollover_spec c sp i : follows c sp -> paced sp i -> accepts sp i = true ->
  exists c', track_rollover c (i mod 2 ^ 16) = (i / 2 ^ 16, c') /\
    replayProtection c' = replayProtection c /\
    exists top last, from_option fst i (add sp i) = top /\ rolloverCount c' = top / 2 ^ 16 /\
      lastSequence16 c' = Some (last mod 2 ^ 16) /\ last / 2 ^ 16 = top / 2 ^ 16 /\ top - 2048 < last <= top.
Proof.
  intros Hf [Hi Hp] Hacc. unfold track_rollover. destruct sp as [[top seen]|].
  - destruct Hf as ([Ht _ _ _] & Hcount & last & Hlast & Hepoch & Hnear). rewrite Hlast, Hcount.
    cbn [accepts] in Hacc. apply orb_true_iff in Hacc. rewrite !bool_decide_eq_true in Hacc.
    cbn [add from_option fst].
    pose proof (low_split i) as Ei. pose proof (low_split last) as El. pose proof (low_split top) as Et.
    assert (0 <= i mod 2 ^ 16 < 2 ^ 16) as Bi by zdm. assert (0 <= last mod 2 ^ 16 < 2 ^ 16) as Bl by zdm.
    assert (0 <= top mod 2 ^ 16 < 2 ^ 16) as Bt by zdm.
    set (v := i mod 2 ^ 16) in *. set (e := i / 2 ^ 16) in *. set (f := top / 2 ^ 16) in *.
    assert (e = f /\ i - last < 2560 /\ last - i < 2048 \/ e = f + 1 /\ top < i <= top + 512) as [[He Hd]|[He Hd]].
    { destruct Hacc as [Hd|(Hd & He & _)]; [|by left; lia]. assert (e = f \/ e = f + 1) as [?|?] by lia; [left; lia|by right]. }
    + destruct (Z.leb_spec (last mod 2 ^ 16) 0x1000), (Z.leb_spec 0xF000 v), (Z.leb_spec 0xF000 (last mod 2 ^ 16)),
        (Z.leb_spec v 0x1000); try lia; cbn [andb];
      (eexists; split; [by rewrite He|]; split; [done|]; eexists (Z.max top i), i; cbn [rolloverCount lastSequence16];
       assert (Z.max top i / 2 ^ 16 = f) as -> by (unfold e, f in *; destruct (Z.max_spec top i) as [[_ ->]|[_ ->]]; lia);
       split_and!; [done|done|done|done|lia|lia]).
    + destruct (Z.leb_spec (last mod 2 ^ 16) 0x1000), (Z.leb_spec 0xF000 v), (Z.leb_spec 0xF000 (last mod 2 ^ 16)),
        (Z.leb_spec v 0x1000); try lia; cbn [andb].
      assert (u32 (f + 1) = e) as -> by (rewrite u32_small; [lia|unfold is_u32, e, f in *; zdm]).
      eexists. split; [done|]. split; [done|]. exists (Z.max top i), i. cbn [rolloverCount lastSequence16].
      rewrite Z.max_r by lia. split_and!; [done..|lia|lia].
  - destruct Hf as (_ & -> & ->). replace (i / 2 ^ 16) with 0 by zdm. eexists. split; [done|]. split; [done|].
    exists i, i. cbn [add from_option fst rolloverCount lastSequence16]. replace (i / 2 ^ 16) with 0 by zdm.
    split_and!; [done..|lia|lia].
Qed.

(** Recording an accepted index. *)
Lemma set_spec c sp i : follows c sp -> paced sp i -> accepts sp i = true ->
  exists r top seen, ReplayProtection.set (replayProtection c) (i mod 2 ^ 16) = Some (true, r) /\
    add sp i = Some (top, seen) /\ replay_at r top seen.
Proof.
  intros Hf Hp Hacc. pose proof (can_spec c sp i Hf Hp) as Hcan. rewrite Hacc in Hcan. destruct Hp as [Hi Hp].
  assert (0 <= i mod 2 ^ 16 <= max) as Bi by zdm.
  destruct sp as [[top seen]|].
  - destruct Hf as [[Ht Hin Hmax (low & Hrep & Hlow)] _].
    destruct (ReplayProtection.set_represents _ _ _ _ _ Hrep Bi Hcan) as (r & -> & Hr).
    exists r, (Z.max top i), ({[ i ]} ∪ seen). split; [done|]. split; [done|].
    cbn [accepts ReplayProtection.spec_set] in Hacc, Hr. apply orb_true_iff in Hacc. rewrite !bool_decide_eq_true in Hacc.
    pose proof (low_split i) as Ei. pose proof (low_split top) as Et. assert (0 <= top mod 2 ^ 16 < 2 ^ 16) as Bt by zdm.
    split; [lia| |intros j [->%elem_of_singleton|Hj]%elem_of_union; [lia|specialize (Hmax j Hj); lia]|].
    { destruct (Z.max_spec top i) as [[_ ->]|[_ ->]]; set_solver. }
    set (v := i mod 2 ^ 16) in *. set (m := top mod 2 ^ 16) in *. change (2048 / 4) with 512 in Hr.
    assert (i / 2 ^ 16 = top / 2 ^ 16 \/ i / 2 ^ 16 = top / 2 ^ 16 + 1 /\ top < i) as [He|[He Hlt]] by lia.
    + assert (exists low', ReplayProtection.represents max size r (Some (Z.max top i mod 2 ^ 16, low')) /\ low' = {[ v ]} ∪ low)
        as (low' & Hr' & ->).
      { destruct (decide (m < v)); [rewrite Z.max_r by lia; by eexists|]. rewrite Z.max_l by lia.
        rewrite decide_False in Hr by lia. by eexists. }
      eexists. split; [exact Hr'|]. intros u Hu. rewrite !elem_of_union, !elem_of_singleton, Hlow by done.
      assert (Z.max top i / 2 ^ 16 = top / 2 ^ 16) as -> by (destruct (Z.max_spec top i) as [[_ ->]|[_ ->]]; lia).
      rewrite Ei at 1. rewrite He. split; (intros [?|?]; [left; lia|by right]).
    + rewrite Z.max_r by lia. rewrite decide_False, decide_True in Hr by lia.
      eexists. split; [exact Hr|]. intros u Hu. rewrite elem_of_union, !elem_of_singleton, He. split.
      * intros ->. left. lia.
      * intros [?|Hs]; [lia|]. specialize (Hmax _ Hs). lia.
  - destruct Hf as [Hrep _].
    destruct (ReplayProtection.set_represents _ _ _ _ _ Hrep Bi Hcan) as (r & -> & Hr).
    exists r, i, {[ i ]}. split; [done|]. split; [done|]. cbn [ReplayProtection.spec_set] in Hr.
    split; [done|set_solver|intros j ->%elem_of_singleton; done|].
    eexists. split; [exact Hr|]. intros u Hu. rewrite !elem_of_singleton. pose proof (low_split i). lia.
Qed.

Lemma follows_fresh r : ReplayProtection.make max size = Some r -> follows (mkChannel r 0 None) None.
Proof. intros H. split; [by apply ReplayProtection.make_represents|done]. Qed.

End Window.

(** ** From one end to the other *)

Module Delivery.
Import SrtpConnection Roundtrip Window.

Section Delivery.
Context `{!Evp, Hlaws : !EvpLaws}.
#[local] Set Default Proof Using "Hlaws".

(** The packet of the index [i] of a stream and what the sender makes of it. *)
Record genuine (a : SrtpCrypto.t) (key : ChannelKey) (i : Z) (p enc : list Z) : Prop := {
  genuine_packet : exists header, media_ok p header /\ Z.land header 0x7F = key.2;
  genuine_ssrc : peek32 p 8 = Some key.1;
  genuine_seq : peek16 p 2 = Some (i mod 2 ^ 16);
  genuine_enc : SrtpCrypto.protectSendMedia a p (i / 2 ^ 16) = Some (Some enc)
}.

Lemma genuine_parts a b key i p enc : genuine a key i p enc -> matching a b ->
  (12 < length p)%nat /\ (12 <= length enc)%nat /\ peek32 enc 8 = Some key.1 /\ peek16 enc 2 = Some (i mod 2 ^ 16) /\
  exists header, peek16 enc 0 = Some header /\ Z.land header 0x7F = key.2.
Proof.
  intros [(header & Hp & Hpt) Hssrc Hseq Henc] [_ Hknown _ _ Hs _ _]. pose proof (header_length_12 p header) as H12.
  destruct (protect_media_shape a p header (i / 2 ^ 16) Hp Hs Hknown) as (r & E & Hshape).
  rewrite Henc in E. injection E as <-. destruct (Hshape enc eq_refl) as (body & tag & -> & _ & _).
  pose proof (header_fields p header (body ++ tag) Hp) as (-> & -> & -> & _). destruct Hp as [_ _ _ Hlen].
  split; [lia|]. split; [rewrite !length_app, length_take; lia|]. split; [done|]. split; [done|]. by exists header.
Qed.

(** A packet of the stream arrives: it comes out as it was if the window takes
    it, and not at all otherwise. *)
Lemma receive_genuine a s key sp i p enc :
  matching a (mCrypto s) -> genuine a key i p enc -> paced sp i -> follows_at s key sp ->
  exists s', unprotectReceiveMedia s enc = Some (if accepts sp i then Some p else None, s') /\
    follows_at s' key (if accepts sp i then add sp i else sp) /\ mCrypto s' = mCrypto s.
Proof.
  intros Hm Hg Hp Hf. destruct (genuine_parts _ _ _ _ _ _ Hg Hm) as (Hlen & Henc & Hssrc & Hseq & header & Hh & Hpt).
  unfold unprotectReceiveMedia, getMediaSequenceNumber.
  destruct (Nat.ltb_spec (length enc) 12); [lia|]. rewrite Hssrc, Hh. cbn [mbind option_bind]. rewrite Hpt.
  replace (key.1, key.2) with key by (by destruct key).
  assert (exists c, ensureSrtpChannel (mSrtpInMap s) key (2 ^ 16 - 1) = Some (c, <[key := c]> (mSrtpInMap s)) /\ follows c sp)
    as (c & -> & Hc).
  { unfold ensureSrtpChannel, follows_at in *. destruct (mSrtpInMap s !! key) as [c|] eqn:E.
    - exists c. by rewrite insert_id.
    - subst sp. eexists. split; [reflexivity|]. by apply follows_fresh. }
  rewrite Hseq. cbn [mbind option_bind]. rewrite (can_spec c sp i Hc Hp).
  destruct (accepts sp i) eqn:Ea; cbn [negb].
  - destruct (rollover_spec c sp i Hc Hp Ea) as (c' & -> & Er & top & last & Etop & Ec & El & He & Hn).
    destruct (set_spec c sp i Hc Hp Ea) as (r & top' & seen & Es & Eadd & Hr).
    destruct Hg as [(header' & Hok & _) _ _ Hprot]. cbn [mCrypto with_in_map].
    rewrite (media_roundtrip a (mCrypto s) p header' _ enc Hm Hok Hprot). cbn [mbind option_bind].
    destruct (Nat.ltb_spec (length p) 12); [lia|]. unfold accept. rewrite Er, Es. cbn [mbind option_bind].
    eexists. split; [done|]. split; [|done]. unfold follows_at. cbn [mSrtpInMap with_in_map].
    rewrite lookup_insert_eq, Eadd. cbn [follows replayProtection rolloverCount lastSequence16].
    rewrite Eadd in Etop. cbn [from_option fst] in Etop. subst top'. split; [done|]. split; [done|]. by exists last.
  - eexists. split; [done|]. split; [|done]. unfold follows_at. cbn [mSrtpInMap with_in_map]. by rewrite lookup_insert_eq.
Qed.

(** A whole run. *)
Fixpoint receive_all (s : t) (encs : list (list Z)) : option (list (option (list Z)) * t) :=
  match encs with
  | [] => Some ([], s)
  | enc :: encs =>
      '(r, s) ← unprotectReceiveMedia s enc;
      '(rs, s) ← receive_all s encs;
      Some (r :: rs, s)
  end.

(** Index, packet and what is on the wire. *)
Notation sent := (Z * list Z * list Z)%type.

Fixpoint window_all (sp : spec) (l : list sent) : list (option (list Z)) * spec :=
  match l with
  | [] => ([], sp)
  | (i, p, _) :: l =>
      let '(rs, sp') := window_all (if accepts sp i then add sp i else sp) l in
      ((if accepts sp i then Some p else None) :: rs, sp')
  end.

Fixpoint paced_all (sp : spec) (l : list sent) : Prop :=
  match l with
  | [] => True
  | (i, _, _) :: l => paced sp i /\ paced_all (if accepts sp i then add sp i else sp) l
  end.

(** C1: media goes through: whatever is lost, reordered or duplicated on the way,
    the receiver of a stream gives, packet by packet, exactly what a window
    over 48-bit packet indices gives: a packet up to 512 ahead of the greatest,
    or late by less than 2048 in its epoch and new, comes out byte by byte as it
    was protected, with the rollover counter recovered from 16 bits of sequence
    number; every other packet is refused.  (Of the packets that reach the receiver,
    the first has an index below 2^16, and none is 65024 or more behind the greatest
    or more than 63488 ahead of it.) *)
Theorem srtp_refines_window a s key l :
  matching a (mCrypto s) -> mSrtpInMap s !! key = None ->
  Forall (fun x => genuine a key x.1.1 x.1.2 x.2) l -> paced_all None l ->
  exists s', receive_all s (map snd l) = Some ((window_all None l).1, s') /\
    follows_at s' key (window_all None l).2.
Proof.
  intros Hm Hnone Hl. assert (follows_at s key None) as Hf by (unfold follows_at; by rewrite Hnone).
  clear Hnone. revert s Hm Hf. generalize (None : spec) as sp.
  induction Hl as [|[[i p] enc] l Hg Hl IH]; intros sp s Hm Hf Hp; [by exists s|].
  cbn [paced_all] in Hp. destruct Hp as [Hp Hps]. cbn [map snd receive_all window_all].
  destruct (receive_genuine a s key sp i p enc Hm Hg Hp Hf) as (s1 & -> & Hf1 & Hcr). cbn [mbind option_bind].
  destruct (IH (if accepts sp i then add sp i else sp) s1) as (s2 & -> & Hf2); [by rewrite Hcr| |done|];
    [by destruct (accepts sp i)|].
  cbn [mbind option_bind]. destruct (window_all _ l) as [rs sp']. by exists s2.
Qed.

(** *** Control packets *)

Record genuine_control (a : SrtpCrypto.t) (key : ChannelKey) (seq : Z) (p enc : list Z) : Prop := {
  control_key : key.2 = 0;
  control_size : (8 <= length p)%nat;
  control_ssrc : peek32 p 4 = Some key.1;
  control_seq : 0 <= seq < 2 ^ 31;
  control_enc : SrtpCrypto.protectSendControl a p seq = Some (Some enc)
}.

(** Where the receiver finds the numbers. *)
Lemma control_fields a s key seq p enc : genuine_control a key seq p enc -> matching a (mCrypto s) ->
  mProfileId s = SrtpCrypto.mProfileId a ->
  (12 <= length enc)%nat /\ peek32 enc 4 = Some key.1 /\ getControlSequenceNumber s enc = Some (Some seq).
Proof.
  intros [_ Hp Hssrc Hseq Henc] [_ Hknown _ _ Hs _ [Hh _]] Hprof.
  destruct (encrypted_trailer seq Hseq) as (Ht & Hcl & _). set (trailer := Z.lor seq _) in *.
  destruct (known_cipher _ Hknown) as (c & Hc).
  assert (forall x : list Z, Some (Some x) = Some (Some enc) -> enc = x) as Hsame by congruence.
  assert (exists body k1 k2, enc = take 8 p ++ body ++ k1 ++ SrtpCrypto.htonl trailer ++ k2 /\
    (if is_gcm (mProfileId s) then Some 4%nat else if is_cm (mProfileId s) then Some 14%nat else None) =
      Some (4 + length k2)%nat) as (body & k1 & k2 & E & Hoff).
  { unfold SrtpCrypto.protectSendControl in Henc. rewrite Hprof. destruct (is_gcm (SrtpCrypto.mProfileId a)) eqn:Eg.
    - unfold SrtpCrypto.protectSendControlGCM in Henc. rewrite Hs, Hc, Hssrc in Henc. cbn [mbind option_bind] in Henc.
      rewrite Ivs.iv_gcm_control_eq in Henc. cbn [mbind option_bind] in Henc.
      destruct (evp_gcm_encrypt _ _ _ _ _) as [[body tag]|]; [|done].
      apply bind_Some_inv in Henc as (? & _ & Henc). exists body, tag, []. split; [|done].
      rewrite app_nil_r. exact (Hsame _ Henc).
    - destruct Hknown as [|Hcm]; [done|]. rewrite Hcm in Henc |- *.
      unfold SrtpCrypto.protectSendControlCM in Henc. rewrite Hs, Hc, Hssrc, Hh in Henc. cbn [mbind option_bind negb] in Henc.
      rewrite Ivs.iv_cm_control_eq in Henc. cbn [mbind option_bind] in Henc.
      destruct (evp_ctr_encrypt _ _ _ _) as [body|]; [|done].
      apply bind_Some_inv in Henc as (? & _ & Henc). eexists body, [], _. split; [rewrite app_nil_l; exact (Hsame _ Henc)|].
      unfold SrtpCrypto.hmac. by rewrite length_take, hmac_length. }
  pose proof (control_parts p body k1 k2 trailer Hp Ht) as Hparts. cbv zeta in Hparts. rewrite <- E in Hparts.
  destruct Hparts as (F1 & F2 & _ & _ & _ & _ & _ & _ & Hlen).
  split; [lia|]. split; [by rewrite F1|]. unfold getControlSequenceNumber. rewrite Hoff. cbn [mbind option_bind].
  destruct (Nat.ltb_spec (length enc) (4 + length k2 + 8)); [lia|].
  replace (length enc - (4 + length k2))%nat with (length enc - length k2 - 4)%nat by lia.
  rewrite F2. cbn [mbind option_bind]. by rewrite Hcl.
Qed.

Definition replay_follows (s : t) (key : ChannelKey) (sp : ReplayProtection.spec) : Prop :=
  match mSrtpInMap s !! key with
  | Some c => ReplayProtection.represents (2 ^ 32 - 1) 2048 (replayProtection c) sp
  | None => sp = None
  end.

Fixpoint receive_controls (s : t) (encs : list (list Z)) : option (list (option (list Z)) * t) :=
  match encs with
  | [] => Some ([], s)
  | enc :: encs =>
      '(r, s) ← unprotectReceiveControl s enc;
      '(rs, s) ← receive_controls s encs;
      Some (r :: rs, s)
  end.

(** What becomes of a genuine control packet is up to the replay protection of its
    channel. *)
Lemma receive_control_genuine a s key seq p enc c :
  genuine_control a key seq p enc -> matching a (mCrypto s) -> mProfileId s = SrtpCrypto.mProfileId a ->
  ensureSrtpChannel (mSrtpInMap s) key (2 ^ 32 - 1) = Some (c, <[key := c]> (mSrtpInMap s)) ->
  unprotectReceiveControl s enc =
    let s := with_in_map s (<[key := c]> (mSrtpInMap s)) in
    if ReplayProtection.canProceed (replayProtection c) seq
    then s ← accept s key c seq; Some (Some p, s) else Some (None, s).
Proof.
  intros Hg Hm Hprof Hens. destruct (control_fields _ s _ _ _ _ Hg Hm Hprof) as (Hlen & Hssrc & Hseq).
  destruct Hg as [Hk Hp _ Hr Henc].
  unfold unprotectReceiveControl. destruct (Nat.ltb_spec (length enc) 12); [lia|].
  rewrite Hssrc. cbn [mbind option_bind]. replace (key.1, 0) with key by (destruct key; cbn in *; by subst).
  rewrite Hens. cbn [mbind option_bind]. unfold getControlSequenceNumber in *. cbn [mProfileId with_in_map].
  rewrite Hseq. cbn [mbind option_bind]. destruct (ReplayProtection.canProceed _ _); [|done]. cbn [negb mCrypto with_in_map].
  rewrite (control_roundtrip a _ p seq enc Hm Hp Hr Henc). cbn [mbind option_bind].
  by destruct (Nat.ltb_spec (length p) 8); [lia|].
Qed.

(** C9: control goes through: the compound packets of a peer, in whatever order,
    lost or repeated, come out byte by byte as they were protected when the
    abstract replay window accepts their 31-bit index, and are refused
    otherwise. *)
Theorem control_refines_replay a s key (l : list (Z * list Z * list Z)) :
  matching a (mCrypto s) -> mProfileId s = SrtpCrypto.mProfileId a -> mSrtpInMap s !! key = None ->
  Forall (fun x => genuine_control a key x.1.1 x.1.2 x.2) l ->
  exists s', receive_controls s (map snd l) =
    Some (zip_with (fun x (d : bool) => if d then Some x.1.2 else None) l
            (ReplayProtection.spec_feed_all (2 ^ 32 - 1) 2048 None (map (fun x => x.1.1) l)).1, s').
Proof.
  intros Hm Hprof Hnone Hl. assert (replay_follows s key None) as Hf by (unfold replay_follows; by rewrite Hnone).
  clear Hnone. revert s Hm Hprof Hf. generalize (None : ReplayProtection.spec) as sp.
  induction Hl as [|[[seq p] enc] l Hg Hl IH]; intros sp s Hm Hprof Hf; [by exists s|].
  cbn [map fst snd receive_controls ReplayProtection.spec_feed_all].
  cbn [fst snd] in *. pose proof Hg as [_ _ _ Hr _].
  assert (exists c, ensureSrtpChannel (mSrtpInMap s) key (2 ^ 32 - 1) = Some (c, <[key := c]> (mSrtpInMap s)) /\
    ReplayProtection.represents (2 ^ 32 - 1) 2048 (replayProtection c) sp) as (c & Hens & Hc).
  { unfold ensureSrtpChannel, replay_follows in *. destruct (mSrtpInMap s !! key) as [c|] eqn:E.
    - exists c. by rewrite insert_id.
    - subst sp. eexists. split; [reflexivity|]. by apply (ReplayProtection.make_represents (2 ^ 32 - 1) 2048). }
  rewrite (receive_control_genuine _ _ _ _ _ _ _ Hg Hm Hprof Hens). cbv zeta.
  rewrite (ReplayProtection.canProceed_represents _ _ _ _ _ Hc) by lia.
  destruct (ReplayProtection.spec_can _ _ sp seq) eqn:Ecan.
  - unfold accept.
    destruct (ReplayProtection.set_represents _ _ _ _ seq Hc ltac:(lia)) as (r & -> & Hrep);
      [by rewrite (ReplayProtection.canProceed_represents _ _ _ _ _ Hc) by lia|]. cbn [mbind option_bind].
    match goal with |- context [receive_controls ?s' _] => destruct (IH (ReplayProtection.spec_set (2 ^ 32 - 1) 2048 sp seq) s') as (s2 & ->);
      [done|done|unfold replay_follows; cbn [mSrtpInMap with_in_map]; by rewrite lookup_insert_eq|] end.
    cbn [mbind option_bind]. destruct (ReplayProtection.spec_feed_all _ _ _ (map _ l)) as [ds sp']. by exists s2.
  - cbn [mbind option_bind]. match goal with |- context [receive_controls ?s' _] => destruct (IH sp s') as (s2 & ->);
      [done|done|unfold replay_follows; cbn [mSrtpInMap with_in_map]; by rewrite lookup_insert_eq|] end.
    cbn [mbind option_bind]. destruct (ReplayProtection.spec_feed_all _ _ _ (map _ l)) as [ds sp']. by exists s2.
Qed.

End Delivery.
End Delivery.

(** ** Arbitrary datagrams *)

Module Safety.
Import SrtpConnection Roundtrip CryptoFacts.

Section Safety.
Context `{!Evp, Hlaws : !EvpLaws}.
#[local] Set Default Proof Using "Hlaws".

Record crypto_ok (c : SrtpCrypto.t) : Prop := {
  crypto_known : is_gcm (SrtpCrypto.mProfileId c) = true \/ is_cm (SrtpCrypto.mProfileId c) = true;
  crypto_cipher : SrtpCrypto.mReceiveCipherCtx c = SrtpCrypto.createCipher (SrtpCrypto.mProfileId c)
}.

(** The replay protection of a channel: 32 bits for control, which has payload
    id 0, and 16 bits for media. *)
Definition channel_max (key : ChannelKey) : Z := if key.2 =? 0 then 2 ^ 32 - 1 else 2 ^ 16 - 1.

Definition channel_ok (key : ChannelKey) (c : ChannelValue) : Prop :=
  exists sp, ReplayProtection.represents (channel_max key) 2048 (replayProtection c) sp.

Record conn_ok (s : t) : Prop := {
  conn_crypto : crypto_ok (mCrypto s);
  conn_profile : mProfileId s = SrtpCrypto.mProfileId (mCrypto s);
  conn_channels : map_Forall channel_ok (mSrtpInMap s)
}.

(** What a tag of the profile vouches for: the digest of counter mode over header,
    ciphertext and rollover counter, or GCM's own. *)
Definition media_authentic (c : SrtpCrypto.t) (packet : list Z) (rollover : Z) : Prop :=
  if is_gcm (SrtpCrypto.mProfileId c) then
    exists ctx iv head body, SrtpCrypto.mReceiveCipherCtx c = Some ctx /\
      is_Some (evp_gcm_decrypt ctx (SrtpCrypto.key_bytes ctx (SrtpCrypto.mReceiveRtp c)) iv
        (SrtpCrypto.trailing packet 16) head body) /\ packet = head ++ body ++ SrtpCrypto.trailing packet 16
  else exists n, SrtpCrypto.cm_digest_size (SrtpCrypto.mProfileId c) = Some n /\
    take n (SrtpCrypto.hmac (SrtpCrypto.mReceiveRtp c)
      (take (length packet - n) packet ++ SrtpCrypto.htonl rollover)) = SrtpCrypto.trailing packet n.

Definition control_authentic (c : SrtpCrypto.t) (packet : list Z) : Prop :=
  if is_gcm (SrtpCrypto.mProfileId c) then
    exists ctx iv front body tag trailer, SrtpCrypto.mReceiveCipherCtx c = Some ctx /\
      packet = front ++ body ++ tag ++ trailer /\ length tag = 16%nat /\ length trailer = 4%nat /\
      is_Some (evp_gcm_decrypt ctx (SrtpCrypto.key_bytes ctx (SrtpCrypto.mReceiveRtcp c)) iv tag (front ++ trailer) body)
  else take 10 (SrtpCrypto.hmac (SrtpCrypto.mReceiveRtcp c) (take (length packet - 10) packet)) =
    SrtpCrypto.trailing packet 10.

Lemma receive_header_total packet header n : (12 + n < length packet)%nat ->
  exists r, SrtpCrypto.receive_header_size packet header n = Some r /\
    forall h, r = Some h -> (12 <= h)%nat /\ (h + n < length packet)%nat.
Proof using Type.
  intros Hlen. unfold SrtpCrypto.receive_header_size. destruct (has_bit header 12).
  - destruct (Nat.ltb_spec (length packet) (16 + n)); [by exists None|]. rewrite peek_some by lia. cbn [mbind option_bind].
    destruct (Nat.leb_spec (length packet) (16 + Z.to_nat (be_value (take 2 (drop 14 packet))) * 4 + n));
      [by exists None|]. eexists. split; [done|]. intros h [= <-]. lia.
  - eexists. split; [done|]. intros h [= <-]. lia.
Qed.

Lemma split_packet packet h n : (h + n <= length packet)%nat ->
  packet = take h packet ++ SrtpCrypto.middle packet h n ++ SrtpCrypto.trailing packet n /\
  length (SrtpCrypto.middle packet h n) = (length packet - h - n)%nat.
Proof using Type.
  intros Hlen. unfold SrtpCrypto.middle, SrtpCrypto.trailing. split.
  - rewrite <- (take_drop h packet) at 1. f_equal.
    rewrite <- (take_drop (length packet - h - n) (drop h packet)) at 1. f_equal.
    rewrite drop_drop. f_equal. lia.
  - rewrite length_take, length_drop. lia.
Qed.

(** Whatever the bytes, the crypto layer returns; and what it returns carries the
    tag. *)
Lemma unprotect_media_total c packet rollover : crypto_ok c -> (12 <= length packet)%nat ->
  exists r, SrtpCrypto.unprotectReceiveMedia c packet rollover = Some r /\
    forall out, r = Some out -> media_authentic c packet rollover.
Proof.
  intros [Hknown Hctx] Hlen. destruct (known_cipher _ Hknown) as (ctx & Hc). rewrite Hc in Hctx.
  unfold SrtpCrypto.unprotectReceiveMedia, media_authentic. destruct (is_gcm (SrtpCrypto.mProfileId c)) eqn:Eg.
  - unfold SrtpCrypto.unprotectReceiveMediaGCM. rewrite Hctx. unfold SrtpCrypto.kAESGCM_TagSize.
    destruct (Nat.leb_spec (length packet) (12 + 16)); [by exists None|].
    rewrite !peek_some by lia. cbn [mbind option_bind]. rewrite Ivs.iv_gcm_media_eq. cbn [mbind option_bind].
    match goal with |- context [SrtpCrypto.receive_header_size packet ?h 16] =>
      destruct (receive_header_total packet h 16) as ([h'|] & -> & Hh); [lia| |by exists None] end.
    destruct (Hh h' eq_refl). destruct (split_packet packet h' 16) as [Hsplit Hm]; [lia|]. cbn [mbind option_bind].
    destruct (evp_gcm_decrypt _ _ _ _ _ _) as [body|] eqn:E; [|by exists None].
    pose proof (gcm_decrypt_length _ _ _ _ _ _ _ E) as Hb. unfold SrtpCrypto.finish.
    rewrite length_app, length_take, Hb, Hm.
    replace (_ =? _)%nat with true by (symmetry; apply Nat.eqb_eq; lia).
    eexists. split; [done|]. intros out _. eexists ctx, _, _, _. split; [done|]. split; [rewrite E; by eexists|done].
  - destruct Hknown as [|Hcm]; [done|]. rewrite Hcm. destruct (cm_digest _ Hcm) as (n & Hn & Hn').
    unfold SrtpCrypto.unprotectReceiveMediaCM. rewrite Hctx, Hn. cbn [mbind option_bind].
    destruct (Nat.leb_spec (length packet) (12 + n)); [by exists None|].
    rewrite !peek_some by lia. cbn [mbind option_bind]. rewrite Ivs.iv_cm_media_eq. cbn [mbind option_bind].
    match goal with |- context [SrtpCrypto.receive_header_size packet ?h n] =>
      destruct (receive_header_total packet h n) as ([h'|] & -> & Hh); [lia| |by exists None] end.
    destruct (Hh h' eq_refl). destruct (split_packet packet h' n) as [_ Hm]; [lia|]. cbn [mbind option_bind].
    destruct (evp_ctr_decrypt _ _ _ _) as [body|] eqn:E; [|by exists None].
    destruct (SrtpCrypto.mHmacSha1 c); [|by exists None]. cbn [negb].
    case_bool_decide as Htag; [|by exists None].
    pose proof (ctr_decrypt_length _ _ _ _ _ E) as Hb. unfold SrtpCrypto.finish.
    rewrite length_app, length_take, Hb, Hm.
    replace (_ =? _)%nat with true by (symmetry; apply Nat.eqb_eq; lia).
    eexists. split; [done|]. intros out _. by exists n.
Qed.

(** A control packet of the GCM profiles: the tag in front of the four last bytes. *)
Lemma split_trailer packet h : (h + 20 <= length packet)%nat ->
  exists tag, take 16 (drop (length packet - 20) packet) = tag /\
    packet = take h packet ++ SrtpCrypto.middle packet h 20 ++ tag ++ SrtpCrypto.trailing packet 4 /\
    length tag = 16%nat /\ length (SrtpCrypto.trailing packet 4) = 4%nat.
Proof using Type.
  intros Hlen. eexists. split; [done|]. destruct (split_packet packet h 20 Hlen) as [E _].
  split; [|unfold SrtpCrypto.trailing; rewrite !length_drop, length_take, length_drop; lia].
  rewrite E at 1. do 2 f_equal. unfold SrtpCrypto.trailing. rewrite <- (take_drop 16 (drop _ packet)) at 1. f_equal.
  rewrite drop_drop. f_equal. lia.
Qed.

Lemma unprotect_control_total c packet : crypto_ok c -> (12 <= length packet)%nat ->
  exists r, SrtpCrypto.unprotectReceiveControl c packet = Some r /\
    forall out, r = Some out -> control_authentic c packet.
Proof.
  intros [Hknown Hctx] Hlen. destruct (known_cipher _ Hknown) as (ctx & Hc). rewrite Hc in Hctx.
  unfold SrtpCrypto.unprotectReceiveControl, control_authentic. destruct (is_gcm (SrtpCrypto.mProfileId c)) eqn:Eg.
  - unfold SrtpCrypto.unprotectReceiveControlGCM. destruct (Nat.ltb_spec (length packet) 28); [by exists None|].
    rewrite Hctx, !peek_some by lia. cbn [mbind option_bind]. rewrite Ivs.iv_gcm_control_eq. cbn [mbind option_bind].
    change (SrtpCrypto.kAESGCM_TagSize + SrtpCrypto.kRTCP_TrailerSize)%nat with 20%nat.
    destruct (split_packet packet SrtpCrypto.kRTCP_HeaderSize 20) as [_ Hm]; [unfold SrtpCrypto.kRTCP_HeaderSize; lia|].
    set (enc := has_bit _ 31). destruct (evp_gcm_decrypt _ _ _ _ _ _) as [body|] eqn:E; [|by exists None].
    pose proof (gcm_decrypt_length _ _ _ _ _ _ _ E) as Hb. unfold SrtpCrypto.finish.
    assert (length (if enc then body else SrtpCrypto.middle packet SrtpCrypto.kRTCP_HeaderSize 20) =
      (length packet - SrtpCrypto.kRTCP_HeaderSize - 20)%nat) as Hl by (destruct enc; congruence).
    rewrite length_app, length_take, Hl. unfold SrtpCrypto.kRTCP_HeaderSize in *.
    replace (_ =? _)%nat with true by (symmetry; apply Nat.eqb_eq; lia). eexists. split; [done|]. intros out _.
    destruct (split_trailer packet 8) as (tag & Etag & Hsplit & Ht & Hr); [lia|]. unfold SrtpCrypto.kAESGCM_TagSize in E. rewrite Etag in E.
    eexists ctx, _, (if enc then take 8 packet else take (length packet - 20) packet), _, tag, (SrtpCrypto.trailing packet SrtpCrypto.kRTCP_TrailerSize).
    split; [done|]. split; [|split; [done|split; [done|rewrite E; by eexists]]].
    destruct enc; [exact Hsplit|]. cbn [app]. rewrite <- Etag. unfold SrtpCrypto.trailing, SrtpCrypto.kRTCP_TrailerSize.
    rewrite <- (take_drop (length packet - 20) packet) at 1. f_equal. rewrite <- (take_drop 16 (drop _ packet)) at 1. f_equal.
    rewrite drop_drop. f_equal. lia.
  - destruct Hknown as [|Hcm]; [done|]. rewrite Hcm.
    unfold SrtpCrypto.unprotectReceiveControlCM, SrtpCrypto.control_digest_size.
    destruct (Nat.ltb_spec (length packet) (12 + 10)); [by exists None|].
    rewrite Hctx, !peek_some by lia. cbn [mbind option_bind]. rewrite Ivs.iv_cm_control_eq. cbn [mbind option_bind].
    change (SrtpCrypto.kRTCP_TrailerSize + 10)%nat with 14%nat.
    destruct (split_packet packet SrtpCrypto.kRTCP_HeaderSize 14) as [_ Hm]; [unfold SrtpCrypto.kRTCP_HeaderSize; lia|].
    set (body := SrtpCrypto.middle _ _ _) in *. set (enc := has_bit _ 31).
    destruct (if enc then _ else _) as [plain|] eqn:E; [|by exists None].
    assert (length plain = length body) as Hb
      by (destruct enc; [by apply ctr_decrypt_length in E|by injection E as <-]).
    destruct (SrtpCrypto.mHmacSha1 c); [|by exists None]. cbn [negb].
    case_bool_decide as Htag; [|by exists None]. unfold SrtpCrypto.finish.
    rewrite length_app, length_take, Hb, Hm. unfold SrtpCrypto.kRTCP_HeaderSize.
    replace (_ =? _)%nat with true by (symmetry; apply Nat.eqb_eq; lia). by eexists.
Qed.

Lemma ensure_ok s key : conn_ok s ->
  exists c, ensureSrtpChannel (mSrtpInMap s) key (channel_max key) = Some (c, <[key := c]> (mSrtpInMap s)) /\
    channel_ok key c /\ conn_ok (with_in_map s (<[key := c]> (mSrtpInMap s))).
Proof using Type.
  intros [Hc Hp Hm]. unfold ensureSrtpChannel.
  assert (exists c, (match mSrtpInMap s !! key with Some v => Some (v, mSrtpInMap s) | None =>
      r ← ReplayProtection.make (channel_max key) 2048; let v := mkChannel r 0 None in Some (v, <[key:=v]> (mSrtpInMap s)) end) =
      Some (c, <[key:=c]> (mSrtpInMap s)) /\ channel_ok key c) as (c & E & Hok).
  { destruct (mSrtpInMap s !! key) as [c|] eqn:E.
    - exists c. rewrite insert_id by done. split; [done|by eapply Hm].
    - assert (exists r, ReplayProtection.make (channel_max key) 2048 = Some r) as (r & Hr)
        by (unfold channel_max; destruct (key.2 =? 0); by eexists).
      rewrite Hr. eexists. split; [done|]. exists None. by apply ReplayProtection.make_represents. }
  exists c. split; [exact E|]. split; [done|]. split; [done|done|]. by apply map_Forall_insert_2.
Qed.

Lemma accept_ok s key c v : conn_ok s -> channel_ok key c -> 0 <= v <= channel_max key ->
  ReplayProtection.canProceed (replayProtection c) v = true -> exists s', accept s key c v = Some s' /\ conn_ok s'.
Proof using Type.
  intros [Hc Hp Hm] (sp & Hsp) Hv Hcan. unfold accept.
  destruct (ReplayProtection.set_represents _ _ _ _ _ Hsp Hv Hcan) as (r & -> & Hr). cbn [mbind option_bind].
  eexists. split; [done|]. split; [done|done|]. apply map_Forall_insert_2; [by eexists|done].
Qed.

Lemma track_rollover_replay c v roll c' : track_rollover c v = (roll, c') -> replayProtection c' = replayProtection c.
Proof using Type.
  unfold track_rollover. destruct (lastSequence16 c); [|by intros [= _ <-]].
  repeat case_match; by intros [= _ <-].
Qed.

Lemma receive_media_safe s packet :
  conn_ok s -> bytes_ok packet ->
  (forall header, peek16 packet 0 = Some header -> Z.land header 0x7F <> 0) ->
  exists r s', unprotectReceiveMedia s packet = Some (r, s') /\ conn_ok s' /\
    (is_Some r -> exists rollover, media_authentic (mCrypto s) packet rollover).
Proof.
  intros Hs Hb.
  intros Hpt. unfold unprotectReceiveMedia, getMediaSequenceNumber.
  destruct (Nat.ltb_spec (length packet) 12); [exists None, s; split; [done|]; split; [done|by intros [? ?]]|].
  destruct (peek16 packet 0) as [header|] eqn:Eh; [|by rewrite peek_some in Eh by lia].
  rewrite (peek_some 4 packet 8), (peek_some 2 packet 2) by lia. cbn [mbind option_bind].
  set (key := (be_value _, _)). set (sequence := be_value (take 2 _)).
  assert (channel_max key = 2 ^ 16 - 1) as Hmax.
  { unfold channel_max, key. cbn [snd]. specialize (Hpt _ eq_refl).
    by destruct (Z.eqb_spec (Z.land header 127) 0). }
  assert (0 <= sequence <= 2 ^ 16 - 1) as Hseq.
  { assert (peek16 packet 2 = Some sequence) as Ep by (by rewrite peek_some by lia).
    apply (peek_range 2) in Ep; [lia|done]. }
  destruct (ensure_ok s key Hs) as (c & Ec & Hc & Hs1). rewrite Hmax in Ec. rewrite Ec. cbn [mbind option_bind].
  destruct (ReplayProtection.canProceed (replayProtection c) sequence) eqn:Ecan; cbn [negb];
    [|eexists None, _; split; [done|]; split; [done|by intros [? ?]]].
  destruct (track_rollover c sequence) as [roll c'] eqn:Et. pose proof (track_rollover_replay _ _ _ _ Et) as Er.
  assert (channel_ok key c') as Hc' by (unfold channel_ok; by rewrite Er).
  set (s2 := with_in_map _ (<[key := c']> _)).
  assert (conn_ok s2) as Hs2 by (destruct Hs1 as [? ? ?]; split; [done|done|by apply map_Forall_insert_2]).
  destruct (unprotect_media_total (mCrypto s) packet roll (conn_crypto _ Hs)) as (r & E & Hauth); [lia|].
  change (mCrypto s2) with (mCrypto s). rewrite E. cbn [mbind option_bind].
  destruct r as [out|]; [|eexists None, s2; split; [done|]; split; [done|by intros [? ?]]].
  destruct (Nat.ltb_spec (length out) 12); [eexists None, s2; split; [done|]; split; [done|by intros [? ?]]|].
  destruct (accept_ok s2 key c' sequence Hs2 Hc') as (s3 & -> & Hs3); [lia|by rewrite Er|]. cbn [mbind option_bind].
  eexists _, s3. split; [done|]. split; [done|]. intros _. exists roll. by apply (Hauth out).
Qed.

Lemma receive_control_safe s packet :
  conn_ok s -> exists r s', unprotectReceiveControl s packet = Some (r, s') /\ conn_ok s' /\
    (is_Some r -> control_authentic (mCrypto s) packet).
Proof.
  intros Hs.
  unfold unprotectReceiveControl.
  destruct (Nat.ltb_spec (length packet) 12); [exists None, s; split; [done|]; split; [done|by intros [? ?]]|].
  rewrite (peek_some 4 packet 4) by lia. cbn [mbind option_bind]. set (key := (be_value _, 0)).
  destruct (ensure_ok s key Hs) as (c & Ec & Hc & Hs1). change (channel_max key) with (2 ^ 32 - 1) in Ec.
  rewrite Ec. cbn [mbind option_bind]. set (s1 := with_in_map _ _) in *.
  assert (exists q, getControlSequenceNumber s1 packet = Some q /\ forall v, q = Some v -> 0 <= v <= 2 ^ 32 - 1)
    as (q & -> & Hq).
  { unfold getControlSequenceNumber. destruct Hs as [[Hknown _] Hprof _]. change (mProfileId s1) with (mProfileId s).
    rewrite Hprof. destruct (if is_gcm _ then _ else _) as [offset|] eqn:Eo;
      [|destruct (is_gcm _); [done|]; destruct Hknown as [|Hk]; [done|by rewrite Hk in Eo]].
    assert (4 <= offset)%nat by (destruct (is_gcm _); [injection Eo as <-; lia|]; destruct (is_cm _); [injection Eo as <-; lia|done]).
    cbn [mbind option_bind].
    destruct (Nat.ltb_spec (length packet) (offset + 8)); [by exists None|].
    rewrite peek_some by lia. cbn [mbind option_bind]. eexists. split; [done|]. intros v [= <-].
    unfold SrtpCrypto.clear_encrypted. change (u32 (Z.lnot SrtpCrypto.kRTCP_EncryptedBit)) with (2 ^ 31 - 1).
    rewrite land_ones_mod by lia. zdm. }
  cbn [mbind option_bind]. destruct q as [v|]; [|eexists None, s1; split; [done|]; split; [done|by intros [? ?]]].
  destruct (ReplayProtection.canProceed (replayProtection c) v) eqn:Ecan; cbn [negb];
    [|eexists None, s1; split; [done|]; split; [done|by intros [? ?]]].
  destruct (unprotect_control_total (mCrypto s) packet (conn_crypto _ Hs)) as (r & E & Hauth); [lia|].
  change (mCrypto s1) with (mCrypto s). rewrite E. cbn [mbind option_bind].
  destruct r as [out|]; [|eexists None, s1; split; [done|]; split; [done|by intros [? ?]]].
  destruct (Nat.ltb_spec (length out) 8); [eexists None, s1; split; [done|]; split; [done|by intros [? ?]]|].
  destruct (accept_ok s1 key c v Hs1 Hc) as (s3 & -> & Hs3); [by apply Hq|done|]. cbn [mbind option_bind].
  eexists _, s3. split; [done|]. split; [done|]. intros _. by apply (Hauth out).
Qed.

(** C5: no datagram can stop the receiver: for any bytes, media or control, the
    receiving functions read inside the packet, fail no assertion, end, and
    leave a well-formed state; and what they let through carries a valid tag
    under the session keys over the whole packet, for media together with some
    value of the rollover counter (which one, and that it is new, is the matter
    of the refinement theorems of the windows).  Excluded is media with payload
    id 0, whose state is shared with control. *)
Theorem srtp_receive_safe s packet :
  conn_ok s -> bytes_ok packet ->
  ((forall header, peek16 packet 0 = Some header -> Z.land header 0x7F <> 0) ->
   exists r s', unprotectReceiveMedia s packet = Some (r, s') /\ conn_ok s' /\
     (is_Some r -> exists rollover, media_authentic (mCrypto s) packet rollover)) /\
  (exists r s', unprotectReceiveControl s packet = Some (r, s') /\ conn_ok s' /\
     (is_Some r -> control_authentic (mCrypto s) packet)).
Proof. intros Hs Hb. split; [by apply receive_media_safe|by apply receive_control_safe]. Qed.

End Safety.
End Safety.

(** ** What goes wrong at the edges *)

Module Edges.
Import SrtpConnection Roundtrip Window Delivery.

Section Edges.
Context `{!Evp, Hlaws : !EvpLaws}.
#[local] Set Default Proof Using "Hlaws".

(** a burst loss stops a stream: when more than 512 packets in a row are lost,
    none of the next 62976 packets is accepted, however long the receiver waits,
    because the greatest number only moves with an accepted packet. *)
Theorem burst_loss_stalls a s key top seen (l : list (Z * list Z * list Z)) :
  matching a (mCrypto s) -> follows_at s key (Some (top, seen)) ->
  Forall (fun x => genuine a key x.1.1 x.1.2 x.2 /\ top + 512 < x.1.1 <= top + 63488 /\ x.1.1 < 2 ^ 48) l -> 0 <= top ->
  exists s', receive_all s (map snd l) = Some (map (fun _ => None) l, s') /\ follows_at s' key (Some (top, seen)).
Proof.
  intros Hm Hf Hl Htop. revert s Hm Hf. induction Hl as [|[[i p] enc] l (Hg & Hi & Hmax) Hl IH]; intros s Hm Hf; [by exists s|].
  cbn [fst snd] in *. cbn [map fst snd receive_all].
  assert (accepts (Some (top, seen)) i = false) as Ha.
  { cbn [accepts]. rewrite !bool_decide_eq_false_2 by lia. done. }
  destruct (receive_genuine a s key (Some (top, seen)) i p enc Hm Hg) as (s1 & -> & Hf1 & Hcr);
    [split; cbn; lia|done|]. rewrite Ha in *. cbn [mbind option_bind].
  destruct (IH s1) as (s2 & -> & Hf2); [by rewrite Hcr|done|]. by exists s2.
Qed.

(** A datagram of a stream that nobody with the keys has made. *)
Record forged (s : t) (key : ChannelKey) (v : Z) (packet : list Z) : Prop := {
  forged_size : (12 <= length packet)%nat;
  forged_ssrc : peek32 packet 8 = Some key.1;
  forged_pt : exists header, peek16 packet 0 = Some header /\ Z.land header 0x7F = key.2;
  forged_seq : peek16 packet 2 = Some v;
  forged_refused : forall rollover, SrtpCrypto.unprotectReceiveMedia (mCrypto s) packet rollover = Some None
}.

(** The channel after a packet that does not decrypt: only the rollover state has
    changed. *)
Lemma receive_refused s key v packet c roll c' :
  (12 <= length packet)%nat -> peek32 packet 8 = Some key.1 ->
  (exists header, peek16 packet 0 = Some header /\ Z.land header 0x7F = key.2) -> peek16 packet 2 = Some v ->
  ensureSrtpChannel (mSrtpInMap s) key (2 ^ 16 - 1) = Some (c, <[key := c]> (mSrtpInMap s)) ->
  ReplayProtection.canProceed (replayProtection c) v = true -> track_rollover c v = (roll, c') ->
  SrtpCrypto.unprotectReceiveMedia (mCrypto s) packet roll = Some None ->
  unprotectReceiveMedia s packet = Some (None, with_in_map s (<[key := c']> (mSrtpInMap s))).
Proof using Type.
  intros Hlen Hssrc (header & Hh & Hpt) Hseq Hens Hcan Htrack Hun.
  unfold unprotectReceiveMedia, getMediaSequenceNumber. destruct (Nat.ltb_spec (length packet) 12); [lia|].
  rewrite Hssrc, Hh, Hseq. cbn [mbind option_bind]. rewrite Hpt. replace (key.1, key.2) with key by (by destruct key).
  rewrite Hens. cbn [mbind option_bind]. rewrite Hcan. cbn [negb]. rewrite Htrack. cbn [mCrypto with_in_map].
  rewrite Hun. cbn [mbind option_bind]. unfold with_in_map. cbn [mSrtpInMap mCrypto mProfileId mSrtpOutMap].
  by rewrite insert_insert_eq.
Qed.

Definition poisoned (s : t) (key : ChannelKey) : Prop :=
  exists c last, mSrtpInMap s !! key = Some c /\ ReplayProtection.mStorage (replayProtection c) = None /\
    rolloverCount c = 1 /\ lastSequence16 c = Some last /\ last < 0xF000.

(** two forged datagrams silence a stream: the rollover counter is
    moved before the packet is authenticated, so a packet numbered 0xF000 or
    more and one numbered 0x1000 or less, sent by anybody before the first media
    packet arrives, leave a counter of one; the packets with indices below 0xF000
    that do not unprotect with this counter (as a cipher with tags makes sure) are
    all refused, and the counter stays. *)
Theorem forged_packets_silence a s key v1 v2 f1 f2 (l : list (Z * list Z * list Z)) :
  matching a (mCrypto s) -> mSrtpInMap s !! key = None ->
  forged s key v1 f1 -> 0xF000 <= v1 -> forged s key v2 f2 -> v2 <= 0x1000 ->
  Forall (fun x => genuine a key x.1.1 x.1.2 x.2 /\ 0 <= x.1.1 < 0xF000 /\
    SrtpCrypto.unprotectReceiveMedia (mCrypto s) x.2 1 = Some None) l ->
  exists s', receive_all s (f1 :: f2 :: map snd l) = Some (None :: None :: map (fun _ => None) l, s').
Proof.
  intros Hm Hnone [L1 S1 P1 Q1 R1] Hv1 [L2 S2 P2 Q2 R2] Hv2 Hl. cbn [receive_all].
  assert (exists r, ReplayProtection.make (2 ^ 16 - 1) 2048 = Some r /\ ReplayProtection.mStorage r = None) as (r & Hr & Hst)
    by (eexists; split; [reflexivity|done]).
  set (c1 := mkChannel r 0 (Some v1)). set (c2 := mkChannel r 1 (Some v2)).
  rewrite (receive_refused s key v1 f1 (mkChannel r 0 None) 0 c1); try done; cycle 1.
  { unfold ensureSrtpChannel. by rewrite Hnone, Hr. }
  { unfold ReplayProtection.canProceed. cbn. by rewrite Hst. }
  cbn [mbind option_bind]. set (s1 := with_in_map s _).
  rewrite (receive_refused s1 key v2 f2 c1 1 c2); try done; cycle 1.
  { unfold ensureSrtpChannel, s1. cbn [mSrtpInMap with_in_map]. by rewrite lookup_insert_eq, insert_insert_eq. }
  { unfold ReplayProtection.canProceed. cbn. by rewrite Hst. }
  { unfold track_rollover, c1. cbn [lastSequence16 rolloverCount replayProtection].
    destruct (Z.leb_spec v1 0x1000), (Z.leb_spec 0xF000 v1), (Z.leb_spec v2 0x1000); try lia. done. }
  cbn [mbind option_bind]. set (s2 := with_in_map s1 _).
  assert (poisoned s2 key) as Hp.
  { exists c2, v2. unfold s2. cbn [mSrtpInMap with_in_map]. rewrite lookup_insert_eq. split_and!; done || lia. }
  assert (mCrypto s2 = mCrypto s) as Hcr by done. clearbody s2. clear s1 c1 c2 r Hr Hst.
  enough (exists s', receive_all s2 (map snd l) = Some (map (fun _ => None) l, s')) as (s' & ->) by (by exists s').
  revert s2 Hp Hcr. induction Hl as [|[[i p] enc] l (Hg & Hi & Href) Hl IH]; intros s2 Hp Hcr; [by exists s2|].
  cbn [fst snd] in *. cbn [map fst snd receive_all].
  destruct (genuine_parts _ _ _ _ _ _ Hg Hm) as (_ & Hlen & Hssrc & Hseq & Hpt). rewrite Z.mod_small in Hseq by lia.
  destruct Hp as (c & last & Hc & Hst & Hcount & Hlast & Hl0).
  rewrite (receive_refused s2 key i enc c 1 (mkChannel (replayProtection c) 1 (Some i))); try done; cycle 1.
  { unfold ensureSrtpChannel. rewrite Hc. by rewrite insert_id. }
  { unfold ReplayProtection.canProceed. by rewrite Hst. }
  { unfold track_rollover. rewrite Hlast, Hcount.
    destruct (Z.leb_spec 0xF000 i), (Z.leb_spec 0xF000 last); try lia. by rewrite andb_false_r. }
  { by rewrite Hcr. }
  cbn [mbind option_bind].
  match goal with |- context [receive_all ?s3 _] => destruct (IH s3) as (s' & ->); [|done|by exists s'] end.
  eexists _, i. cbn [mSrtpInMap with_in_map]. rewrite lookup_insert_eq. split_and!; done || lia.
Qed.

(** The clearing loop of a 16-bit window never meets a larger number. *)
Lemma clear_to_never ss value fuel : forall st cur, 0 <= cur < 2 ^ 16 -> 2 ^ 16 <= value ->
  ReplayProtection.clear_to fuel (2 ^ 16 - 1) ss value st cur = None.
Proof using Type.
  induction fuel as [|fuel IH]; intros st cur Hc Hv; cbn [ReplayProtection.clear_to];
    (destruct (Z.eqb_spec cur value); [lia|]); [done|].
  apply IH; [|done]. rewrite land_ones_mod by lia. apply Z.mod_pos_bound. lia.
Qed.

Lemma set_stuck r value storage : ReplayProtection.mStorage r = Some storage -> ReplayProtection.mCurMax r < value ->
  value - ReplayProtection.mCurMax r <= ReplayProtection.mMaxDistanceForward r ->
  (forall fuel st, ReplayProtection.clear_to fuel (ReplayProtection.mMaxPossibleValue r) (ReplayProtection.mStorageSize r) value st
    (Z.land (ReplayProtection.mCurMax r + 1) (ReplayProtection.mMaxPossibleValue r)) = None) ->
  ReplayProtection.set r value = None.
Proof using Type.
  intros Hst Hlt Hd Hnever. unfold ReplayProtection.set. destruct (guard_true _); [|done]. cbn [mbind option_bind]. rewrite Hst.
  destruct (Z.eqb_spec value (ReplayProtection.mCurMax r)); [lia|].
  destruct (Z.ltb_spec (ReplayProtection.mCurMax r) value); [|lia].
  destruct (Z.ltb_spec (ReplayProtection.mMaxDistanceForward r) (value - ReplayProtection.mCurMax r)); [lia|].
  unfold ReplayProtection.setForward. by rewrite Hnever.
Qed.

(** a datagram that looks like media with payload id 0 makes the control
    channel of its SSRC a 16-bit one, authentic or not: control packets work
    until their index reaches 65536, then the receiver is caught in the
    clearing loop of the replay window, which no number of rounds ends. *)
Theorem forged_media_hangs_control a s ssrc v f p1 e1 p2 e2 :
  let key := (ssrc, 0) in
  matching a (mCrypto s) -> mProfileId s = SrtpCrypto.mProfileId a -> mSrtpInMap s !! key = None ->
  forged s key v f -> genuine_control a key 65535 p1 e1 -> genuine_control a key 65536 p2 e2 ->
  exists s1 s2, unprotectReceiveMedia s f = Some (None, s1) /\ unprotectReceiveControl s1 e1 = Some (Some p1, s2) /\
    unprotectReceiveControl s2 e2 = None /\
    exists c storage, mSrtpInMap s2 !! key = Some c /\ ReplayProtection.mStorage (replayProtection c) = Some storage /\
      forall fuel, ReplayProtection.clear_to fuel (ReplayProtection.mMaxPossibleValue (replayProtection c))
        (ReplayProtection.mStorageSize (replayProtection c)) 65536 storage
        (Z.land (ReplayProtection.mCurMax (replayProtection c) + 1) (ReplayProtection.mMaxPossibleValue (replayProtection c))) = None.
Proof.
  intros key Hm Hprof Hnone [L1 S1 P1 Q1 R1] G1 G2.
  destruct (ReplayProtection.make (2 ^ 16 - 1) 2048) as [r|] eqn:Er; [|done].
  pose proof (ReplayProtection.make_represents _ _ _ Er ltac:(lia)) as Hrep.
  set (c1 := mkChannel r 0 (Some v)). set (s1 := with_in_map s (<[key := c1]> (mSrtpInMap s))).
  assert (unprotectReceiveMedia s f = Some (None, s1)) as E1.
  { apply (receive_refused s key v f (mkChannel r 0 None) 0 c1); try done.
    - unfold ensureSrtpChannel. by rewrite Hnone, Er.
    - unfold ReplayProtection.canProceed. by injection Er as <-. }
  assert (mProfileId s1 = SrtpCrypto.mProfileId a) as Hprof1 by done.
  assert (matching a (mCrypto s1)) as Hm1 by done.
  injection Er as Er.
  set (r2 := ReplayProtection.with_storage r 65535 (ReplayProtection.setImpl (replicate (Z.to_nat (ReplayProtection.mStorageSize r)) 0)
    (ReplayProtection.mStorageSize r) 65535)).
  set (c2 := mkChannel r2 0 (Some v)). set (s2 := with_in_map s1 (<[key := c2]> (mSrtpInMap s1))).
  assert (mSrtpInMap s1 !! key = Some c1) as Hl1 by apply lookup_insert_eq.
  assert (mSrtpInMap s2 !! key = Some c2) as Hl2 by apply lookup_insert_eq.
  assert (ReplayProtection.canProceed r2 65536 = true) as Hcan2 by (unfold r2; rewrite <- Er; reflexivity).
  assert (forall fuel storage, ReplayProtection.clear_to fuel (ReplayProtection.mMaxPossibleValue r2) (ReplayProtection.mStorageSize r2) 65536 storage
    (Z.land (ReplayProtection.mCurMax r2 + 1) (ReplayProtection.mMaxPossibleValue r2)) = None) as Hnever.
  { intros fuel storage. unfold r2. cbn [ReplayProtection.mMaxPossibleValue ReplayProtection.with_storage ReplayProtection.mCurMax].
    rewrite <- Er. apply clear_to_never; [vm_compute; split; congruence|lia]. }
  exists s1, s2. split; [done|]. split; [|split].
  - rewrite (receive_control_genuine a s1 key 65535 p1 e1 c1 G1 Hm1 Hprof1);
      [|unfold ensureSrtpChannel; rewrite Hl1; by rewrite insert_id].
    rewrite insert_id by done. cbv zeta. change (with_in_map s1 (mSrtpInMap s1)) with s1. cbn [replayProtection c1].
    assert (ReplayProtection.canProceed r 65535 = true) as -> by (by rewrite <- Er). unfold accept. cbn [replayProtection c1].
    by assert (ReplayProtection.set r 65535 = Some (true, r2)) as -> by (unfold r2; rewrite <- Er; reflexivity).
  - rewrite (receive_control_genuine a s2 key 65536 p2 e2 c2 G2 Hm1 Hprof1);
      [|unfold ensureSrtpChannel; rewrite Hl2; by rewrite insert_id].
    cbv zeta. cbn [replayProtection c2]. rewrite Hcan2. unfold accept. cbn [replayProtection c2].
    rewrite (set_stuck r2 65536 _ eq_refl); [done|unfold r2; rewrite <- Er; done|unfold r2; rewrite <- Er; done|apply Hnever].
  - exists c2. eexists. split; [exact Hl2|]. split; [done|]. intros fuel. apply Hnever.
Qed.
End Edges.
End Edges.

(** ** The two ends of a handshake *)

Module Handshake.
Import SrtpConnection Roundtrip CryptoFacts.

Section Handshake.
Context `{!Evp, Hlaws : !EvpLaws}.

Lemma create_inr profileId sk ss rk rs c :
  SrtpCrypto.create profileId sk ss rk rs = Some (inr c) ->
  (is_gcm profileId = true \/ is_cm profileId = true) /\
  exists v1 v2 v3 v4, SrtpCrypto.derive_rtp sk ss = Some (Some v1) /\ SrtpCrypto.derive_rtp rk rs = Some (Some v2) /\
    SrtpCrypto.derive_rtcp sk ss = Some (Some v3) /\ SrtpCrypto.derive_rtcp rk rs = Some (Some v4) /\
    c = SrtpCrypto.construct profileId v1 v2 v3 v4.
Proof.
  unfold SrtpCrypto.create. do 2 (case_match; [done|]).
  destruct (is_gcm profileId || is_cm profileId) eqn:Ek; cbn [negb]; [|done]. apply orb_true_iff in Ek.
  intros Hcreate. apply bind_Some_inv in Hcreate as ([v1|] & E1 & Hcreate); [|done].
  apply bind_Some_inv in Hcreate as ([v2|] & E2 & Hcreate); [|done].
  apply bind_Some_inv in Hcreate as ([v3|] & E3 & Hcreate); [|done].
  apply bind_Some_inv in Hcreate as ([v4|] & E4 & Hcreate); [|done]. injection Hcreate as <-.
  split; [done|]. by exists v1, v2, v3, v4.
Qed.

Lemma create_swap profileId sk ss rk rs c :
  SrtpCrypto.create profileId sk ss rk rs = Some (inr c) ->
  exists c', SrtpCrypto.create profileId rk rs sk ss = Some (inr c') /\ matching c c' /\ matching c' c.
Proof.
  intros Hcreate. pose proof Hcreate as Hparts. apply create_inr in Hparts as (Hknown & v1 & v2 & v3 & v4 & E1 & E2 & E3 & E4 & ->).
  exists (SrtpCrypto.construct profileId v2 v1 v4 v3). split; [|by split; split].
  unfold SrtpCrypto.create in *. rewrite (orb_comm (CryptoBytes.empty rk)), (orb_comm (CryptoBytes.empty rs)).
  do 2 (case_match; [done|]).
  assert (is_gcm profileId || is_cm profileId = true) as -> by (by apply orb_true_iff). cbn [negb].
  rewrite E1, E2, E3, E4. done.
Qed.

(** two peers that come out of one DTLS handshake, with the same profile, the
    same exported key material and opposite roles, derive matching keys: when the
    active one is created, so is the passive one, the send keys of each are the
    receive keys of the other, and both start without a stream. *)
Theorem create_matches profile exported a :
  create profile exported true = Some (inr a) ->
  exists b, create profile exported false = Some (inr b) /\
    matching (mCrypto a) (mCrypto b) /\ matching (mCrypto b) (mCrypto a) /\
    mProfileId a = SrtpCrypto.mProfileId (mCrypto b) /\ mProfileId b = SrtpCrypto.mProfileId (mCrypto a) /\
    mSrtpInMap a = ∅ /\ mSrtpInMap b = ∅.
Proof.
  unfold create. destruct profile as [profileId|]; [|done]. destruct (sizes profileId) as [[ks sl]|]; [|done].
  intros Hcreate. apply bind_Some_inv in Hcreate as (clientKey & -> & Hcreate). apply bind_Some_inv in Hcreate as (serverKey & -> & Hcreate).
  apply bind_Some_inv in Hcreate as (clientSalt & -> & Hcreate). apply bind_Some_inv in Hcreate as (serverSalt & -> & Hcreate).
  cbn [mbind option_bind] in *. apply bind_Some_inv in Hcreate as ([e|c] & Ec & [= <-]).
  destruct (create_swap _ _ _ _ _ _ Ec) as (c' & -> & Hm & Hm'). cbn [mbind option_bind].
  eexists. split; [done|]. cbn [mCrypto mProfileId mSrtpInMap].
  apply create_inr in Ec as (_ & v1 & v2 & v3 & v4 & _ & _ & _ & _ & ->).
  split_and!; [done|done|by destruct Hm|done|done|done].
Qed.
End Handshake.
End Handshake.

(** ** A toy cipher, to run the code *)

Module Demo.
Import SrtpConnection Roundtrip CryptoFacts Window Delivery Safety Edges Handshake.

(** A checksum of bytes. *)
Definition checksum (l : list Z) : Z := u8 (fold_left (fun acc b => 3 * acc + b + 1) l 7).

Definition mask (key iv : list Z) (data : list Z) : list Z :=
  map (fun b => Z.lxor b (checksum (key ++ iv))) data.

Definition tag_of (key iv aad data : list Z) : list Z := replicate 16 (checksum (key ++ iv ++ aad ++ data)).

#[local] Instance toy : Evp := {|
  evp_ecb key block := Some (map (fun k => u8 (checksum (key ++ block) + k)) (seqZ 0 16));
  evp_gcm_encrypt c key iv aad plain := let data := mask key iv plain in Some (data, tag_of key iv aad data);
  evp_gcm_decrypt c key iv tag aad data :=
    if decide (tag = tag_of key iv aad data) then Some (mask key iv data) else None;
  evp_ctr_encrypt c key iv plain := Some (mask key iv plain);
  evp_ctr_decrypt c key iv data := Some (mask key iv data);
  evp_hmac_sha1 key data := replicate 20 (checksum (key ++ data))
|}.

Lemma mask_mask key iv data : mask key iv (mask key iv data) = data.
Proof.
  unfold mask. rewrite map_map. rewrite <- (map_id data) at 2. apply map_ext. intros b.
  by rewrite Z.lxor_assoc, Z.lxor_nilpotent, Z.lxor_0_r.
Qed.

#[local] Instance toy_laws : EvpLaws.
Proof.
  split; cbn -[checksum].
  - intros key block out [= <-]. split; [done|].
    repeat (apply bytes_ok_cons; [apply u8_range|]). apply bytes_ok_nil.
  - intros c key iv aad plain out tag [= <- <-]. split; [apply length_map|done].
  - intros c key iv tag aad data plain. case_decide; [|done]. intros [= <-]. apply length_map.
  - intros c key iv aad plain out tag [= <- <-]. by rewrite decide_True, mask_mask by done.
  - intros c key iv plain out [= <-]. apply length_map.
  - intros c key iv data plain [= <-]. apply length_map.
  - intros c key iv plain out [= <-]. by rewrite mask_mask.
  - done.
  - intros key data. repeat (apply bytes_ok_cons; [apply u8_range|]). apply bytes_ok_nil.
Qed.

Definition exported_key : list Z := map (fun k => u8 (9 * k + 1)) (seqZ 0 16).
Definition exported_salt : list Z := seqZ 40 14.

Definition exported (n : nat) : list Z := map (fun k => u8 (7 * k + 3)) (seqZ 0 (Z.of_nat n)).

(** A connection and its peer. *)
Definition end_of (profileId : Z) (active : bool) : t :=
  match create (Some profileId) exported active with
  | Some (inr c) => c
  | _ => mk (SrtpCrypto.construct 0 (SrtpCrypto.mkVectors CryptoBytes.make CryptoBytes.make CryptoBytes.make)
               (SrtpCrypto.mkVectors CryptoBytes.make CryptoBytes.make CryptoBytes.make)
               (SrtpCrypto.mkVectors CryptoBytes.make CryptoBytes.make CryptoBytes.make)
               (SrtpCrypto.mkVectors CryptoBytes.make CryptoBytes.make CryptoBytes.make)) 0 ∅ ∅
  end.

Lemma create_matches_witness : exists b,
  create (Some SRTP_AEAD_AES_128_GCM) exported false = Some (inr b) /\
  matching (mCrypto (end_of SRTP_AEAD_AES_128_GCM true)) (mCrypto b) /\
  matching (mCrypto b) (mCrypto (end_of SRTP_AEAD_AES_128_GCM true)) /\
  mProfileId (end_of SRTP_AEAD_AES_128_GCM true) = SrtpCrypto.mProfileId (mCrypto b) /\
  mProfileId b = SrtpCrypto.mProfileId (mCrypto (end_of SRTP_AEAD_AES_128_GCM true)) /\
  mSrtpInMap (end_of SRTP_AEAD_AES_128_GCM true) = ∅ /\ mSrtpInMap b = ∅.
Proof. apply (create_matches (Some SRTP_AEAD_AES_128_GCM) exported). vm_compute. reflexivity. Defined.

(** *** A stream *)

Definition media (seq : Z) : list Z :=
  [128; 96] ++ be_bytes 2 seq ++ be_bytes 4 1000 ++ be_bytes 4 77 ++ [1; 2; 3].
Definition stream : ChannelKey := (77, 96).

Definition sender : t := end_of SRTP_AES128_CM_SHA1_80 true.
Definition receiver : t := end_of SRTP_AES128_CM_SHA1_80 false.

Definition protected (i : Z) : list Z :=
  default [] (default None (SrtpCrypto.protectSendMedia (mCrypto sender) (media (i mod 2 ^ 16)) (i / 2 ^ 16))).

Definition sent_as (i : Z) : Z * list Z * list Z := (i, media (i mod 2 ^ 16), protected i).

Lemma demo_matching : matching (mCrypto sender) (mCrypto receiver).
Proof. split; try (vm_compute; reflexivity); [right; vm_compute; reflexivity|split; vm_compute; reflexivity]. Qed.

Lemma media_demo_ok seq : media_ok (media seq) 32864 /\ peek16 (media seq) 2 = Some (seq mod 2 ^ 16).
Proof.
  split.
  - split; [|reflexivity| |].
    + repeat (apply bytes_ok_app; split); try apply be_bytes_ok; by apply Ivs.bytes_ok_forallb.
    + done.
    + vm_compute. lia.
  - unfold media. cbn [app]. unfold peek. cbn -[be_bytes Z.pow].
    change (take 2 _) with (be_bytes 2 seq). f_equal. unfold be_value. rewrite be_fold_bytes.
    change (8 * Z.of_nat 2) with 16. lia.
Qed.

(** Once the packet is known to be protected, it is one of the stream. *)
Lemma sent_genuine `{Evp} a i enc :
  SrtpCrypto.protectSendMedia a (media (i mod 2 ^ 16)) (i / 2 ^ 16) = Some (Some enc) ->
  genuine a stream i (media (i mod 2 ^ 16)) enc.
Proof.
  intros E. destruct (media_demo_ok (i mod 2 ^ 16)) as [Hok Hseq].
  constructor; [exists 32864; split; [exact Hok|reflexivity]| | |exact E].
  - vm_compute. reflexivity.
  - rewrite Hseq. f_equal. by apply Z.mod_mod.
Qed.

Lemma sent_protected l : map snd (map sent_as l) = map protected l.
Proof. by rewrite map_map. Qed.

Definition journey : list Z := [65534; 65536; 65535; 65536; 65537].

Lemma srtp_refines_window_witness : exists s',
  receive_all receiver (map snd (map sent_as journey)) =
    Some ([Some (media 65534); Some (media 0); None; None; Some (media 1)], s') /\
  follows_at s' stream (Some (65537, {[ 65537; 65536; 65534 ]})).
Proof.
  destruct (srtp_refines_window (mCrypto sender) receiver stream (map sent_as journey)) as (s' & E & Hf).
  - apply demo_matching.
  - vm_compute. reflexivity.
  - cbn [map journey]. repeat (apply list.Forall_cons_2; [apply sent_genuine; vm_compute; reflexivity|]). apply list.Forall_nil_2.
  - vm_compute. repeat split; congruence.
  - exists s'. split; [rewrite E; vm_compute; reflexivity|].
    assert ((window_all None (map sent_as journey)).2 = Some (65537, {[ 65537; 65536; 65534 ]})) as Eq by (vm_compute; reflexivity).
    by rewrite <- Eq.
Defined.

(** *** The derivation, safety and the edges *)

Lemma derivation_follows_rfc_witness : exists b out,
  KeyDerivation.generate (of_list exported_key) (of_list exported_salt) 2 CryptoBytes.make 20 = Some (b, out) /\
  match Derivation.rfc_keystream exported_key exported_salt 2 2 with
  | Some s => b = true /\ CryptoBytes.ok out /\ CryptoBytes.contents out = take 20 (concat s)
  | None => b = false
  end.
Proof.
  destruct (Derivation.derivation_follows_rfc (of_list exported_key) (of_list exported_salt) 2 CryptoBytes.make 20)
    as (b & out & E & Hs).
  - by left.
  - apply of_list_ok; [by apply Ivs.bytes_ok_forallb|]. vm_compute. lia.
  - by right.
  - vm_compute. split; congruence.
  - lia.
  - exists b, out. split; [exact E|exact Hs].
Defined.

Lemma burst_loss_stalls_witness : exists s1 s2,
  receive_all receiver [protected 10] = Some ([Some (media 10)], s1) /\
  receive_all s1 (map protected [1000; 60000]) = Some ([None; None], s2).
Proof.
  destruct (receive_genuine (mCrypto sender) receiver stream None 10 (media 10) (protected 10)) as (s1 & E1 & Hf & Hcr);
    cbn [accepts] in *.
  - apply demo_matching.
  - apply (sent_genuine (mCrypto sender) 10). vm_compute. reflexivity.
  - vm_compute. by split.
  - vm_compute. reflexivity.
  - assert (matching (mCrypto sender) (mCrypto s1)) as Hm by (rewrite Hcr; apply demo_matching).
    destruct (burst_loss_stalls (mCrypto sender) s1 stream 10 {[ 10 ]} (map sent_as [1000; 60000])) as (s2 & E2 & _);
      [exact Hm|exact Hf| |lia|].
    + repeat (apply list.Forall_cons_2;
        [split; [apply sent_genuine; vm_compute; reflexivity|cbn; lia]|]). apply list.Forall_nil_2.
    + exists s1, s2. rewrite sent_protected in E2. split; [|exact E2]. cbn [receive_all accepts] in *. rewrite E1.
      cbn [mbind option_bind]. exact (eq_refl _).
Defined.

(** A datagram with nothing in it but a header. *)
Definition bare (pt seq : Z) : list Z := [128; pt] ++ be_bytes 2 seq ++ be_bytes 4 0 ++ be_bytes 4 77.

Lemma bare_forged pt seq : 0 <= pt < 128 -> 0 <= seq < 2 ^ 16 -> forged receiver (77, pt) seq (bare pt seq).
Proof.
  intros Hpt Hseq. unfold bare. split.
  - rewrite !length_app, !length_be_bytes. cbn. lia.
  - reflexivity.
  - exists (128 * 256 + pt). split.
    + unfold peek. cbn [take app drop]. by f_equal.
    + change 0x7F with (2 ^ 7 - 1). rewrite (land_ones_mod _ 7) by lia. cbn [snd]. zdm.
  - unfold peek. cbn [app drop]. change (take 2 _) with (be_bytes 2 seq). f_equal. unfold be_value. rewrite be_fold_bytes.
    change (8 * Z.of_nat 2) with 16. rewrite Z.mod_small by lia. lia.
  - intros rollover. vm_compute. reflexivity.
Qed.

Lemma forged_packets_silence_witness : exists s',
  receive_all receiver (bare 96 0xF000 :: bare 96 0 :: map protected [1; 2]) = Some ([None; None; None; None], s').
Proof.
  destruct (forged_packets_silence (mCrypto sender) receiver stream 0xF000 0 (bare 96 0xF000) (bare 96 0)
    (map sent_as [1; 2])) as (s' & E).
  - apply demo_matching.
  - vm_compute. reflexivity.
  - apply bare_forged; lia.
  - lia.
  - apply bare_forged; lia.
  - lia.
  - repeat (apply list.Forall_cons_2;
      [split; [apply sent_genuine; vm_compute; reflexivity|split; [cbn; lia|vm_compute; reflexivity]]|]). apply list.Forall_nil_2.
  - rewrite sent_protected in E. exists s'. exact E.
Defined.

Definition report : list Z := [128; 200; 0; 2] ++ be_bytes 4 77 ++ [1; 2; 3; 4].

Definition protected_report (i : Z) : list Z :=
  default [] (default None (SrtpCrypto.protectSendControl (mCrypto sender) report i)).

Definition report_as (i : Z) : Z * list Z * list Z := (i, report, protected_report i).

Lemma sent_reports l : map snd (map report_as l) = map protected_report l.
Proof. by rewrite map_map. Qed.

Lemma report_genuine `{Evp} a i enc : 0 <= i < 2 ^ 31 -> SrtpCrypto.protectSendControl a report i = Some (Some enc) ->
  genuine_control a (77, 0) i report enc.
Proof. intros Hi E. constructor; [done| |vm_compute; reflexivity|done|exact E]. cbn. lia. Qed.

Lemma control_refines_replay_witness : exists s',
  receive_controls receiver (map protected_report [3; 5; 3; 4]) = Some ([Some report; Some report; None; Some report], s').
Proof.
  destruct (control_refines_replay (mCrypto sender) receiver (77, 0)
    (map report_as [3; 5; 3; 4])) as (s' & E).
  - apply demo_matching.
  - vm_compute. reflexivity.
  - vm_compute. reflexivity.
  - repeat (apply list.Forall_cons_2; [apply report_genuine; [cbn; lia|vm_compute; reflexivity]|]). apply list.Forall_nil_2.
  - exists s'. rewrite sent_reports in E. rewrite E. vm_compute. reflexivity.
Defined.

Lemma forged_media_hangs_control_witness : exists s1 s2,
  unprotectReceiveMedia receiver (bare 0 7) = Some (None, s1) /\
  unprotectReceiveControl s1 (protected_report 65535) = Some (Some report, s2) /\
  unprotectReceiveControl s2 (protected_report 65536) = None.
Proof.
  destruct (forged_media_hangs_control (mCrypto sender) receiver 77 7 (bare 0 7) report (protected_report 65535)
    report (protected_report 65536)) as (s1 & s2 & E1 & E2 & E3 & _).
  - apply demo_matching.
  - vm_compute. reflexivity.
  - vm_compute. reflexivity.
  - apply bare_forged; lia.
  - apply report_genuine; [lia|vm_compute; reflexivity].
  - apply report_genuine; [lia|vm_compute; reflexivity].
  - exists s1, s2. split; [exact E1|split; [exact E2|exact E3]].
Defined.

Lemma srtp_receive_safe_witness :
  (exists r s', unprotectReceiveMedia receiver (media 3) = Some (r, s') /\ conn_ok s' /\
     (is_Some r -> exists rollover, media_authentic (mCrypto receiver) (media 3) rollover)) /\
  (exists r s', unprotectReceiveControl receiver (media 3) = Some (r, s') /\ conn_ok s' /\
     (is_Some r -> control_authentic (mCrypto receiver) (media 3))).
Proof.
  destruct (srtp_receive_safe receiver (media 3)) as [Hmedia Hcontrol].
  - split; [split; [right; vm_compute; reflexivity|vm_compute; reflexivity]|vm_compute; reflexivity|].
    assert (mSrtpInMap receiver = ∅) as -> by (vm_compute; reflexivity). apply map_Forall_empty.
  - destruct (media_demo_ok 3) as [[Hb _ _ _] _]. exact Hb.
  - split; [|exact Hcontrol]. apply Hmedia. intros header.
    assert (peek16 (media 3) 0 = Some 32864) as -> by (vm_compute; reflexivity). intros [= <-]. vm_compute. discriminate.
Defined.
End Demo.
