(* ===== verification/TwccProps.v ===== *)
(** * What the feedback of congestion control promises

    A report is read back as the packets it was made of; the reports of a
    subscriber tell the publisher when each packet arrived, up to the rounding
    of the deltas; neither a packet that arrives nor a report can stop the
    program; and what goes wrong at the edges. *)

From stdpp Require Import gmap strings sorting.
From S2P Require Import Prelude Bytes Sequence Extension Tracks Rtp Rtcp ExtensionSources Twcc TwccPublish.

(** ** The format of a report *)

Module Report.
Import Builder RtpExtensionSourceTWCC.

(** The parts a report is made of. *)
Inductive chunk :=
  | Run (n : nat)
  | Small (entries : list entry)
  | Large (entries : list entry).

Definition width (c : chunk) : nat :=
  match c with Run n => n | Small l | Large l => length l end.

Definition total (cs : list chunk) : nat := list_sum (map width cs).

Definition in_range (lo hi : Z) (e : entry) : Prop := match e with Some d => lo <= d <= hi | None => True end.

Definition chunk_ok (c : chunk) : Prop :=
  match c with
  | Run n => 0 < Z.of_nat n <= 8191
  | Small l => (0 < length l <= 14)%nat /\ Forall (in_range kMinSmallDeltaMicros kMaxSmallDeltaMicros) l
  | Large l => (0 < length l <= 7)%nat /\ Forall (in_range kMinLargeDeltaMicros kMaxLargeDeltaMicros) l
  end.

(** A chunk that another one may follow. *)
Definition full (c : chunk) : Prop :=
  match c with Run _ => True | Small l => length l = 14%nat | Large l => length l = 7%nat end.

Fixpoint chunks_ok (cs : list chunk) : Prop :=
  match cs with
  | [] => True
  | c :: rest => chunk_ok c /\ (rest <> [] -> full c) /\ chunks_ok rest
  end.

Definition header (c : chunk) : Z :=
  match c with
  | Run n => Z.of_nat n
  | Small l => symbols 1 kSTATUS_RECEIVED_SMALL_DELTA 0x8000 0 l
  | Large l => symbols 2 kSTATUS_RECEIVED_LARGE_DELTA 0xC000 0 l
  end.

(** What a report says of a packet: the delta in units of 250 microseconds. *)
Definition temp (symbol : Z) (e : entry) : TempPacket :=
  match e with Some d => (symbol, 250 * Z.quot d 250) | None => (kSTATUS_NOT_RECEIVED, 0) end.

Definition temps (c : chunk) : list TempPacket :=
  match c with
  | Run n => replicate n (kSTATUS_NOT_RECEIVED, 0)
  | Small l => map (temp kSTATUS_RECEIVED_SMALL_DELTA) l
  | Large l => map (temp kSTATUS_RECEIVED_LARGE_DELTA) l
  end.

(** The bytes of a delta. *)
Definition stamp (t : TempPacket) : list Z :=
  if t.1 =? kSTATUS_RECEIVED_SMALL_DELTA then be_bytes 1 (Z.quot t.2 250)
  else if t.1 =? kSTATUS_RECEIVED_LARGE_DELTA then be_bytes 2 (Z.quot t.2 250) else [].

Definition headers (cs : list chunk) : list Z := concat (map (fun c => be_bytes 2 (header c)) cs).
Definition all_temps (cs : list chunk) : list TempPacket := concat (map temps cs).
Definition stamps (l : list TempPacket) : list Z := concat (map stamp l).

Lemma length_temps c : length (temps c) = width c.
Proof. destruct c; cbn; by rewrite ?length_replicate, ?length_map. Qed.

Lemma length_all_temps cs : length (all_temps cs) = total cs.
Proof.
  unfold all_temps, total. induction cs as [|c cs IH]; [done|]. cbn. by rewrite length_app, IH, length_temps.
Qed.

Lemma length_headers cs : length (headers cs) = (2 * length cs)%nat.
Proof. unfold headers. induction cs as [|c cs IH]; [done|].
  cbn [map concat length]. rewrite length_app, length_be_bytes, IH. lia.
Qed.

(** *** The symbols of a header, by trying them all *)

Fixpoint lists_of (n : nat) : list (list bool) :=
  match n with
  | O => [[]]
  | S n => [] :: map (cons false) (lists_of n) ++ map (cons true) (lists_of n)
  end.

Lemma in_lists_of n : forall l, (length l <= n)%nat -> In l (lists_of n).
Proof.
  induction n as [|n IH]; intros [|b l] Hl; cbn in *; [by left|lia|by left|]. right. apply in_or_app.
  destruct b; [right|left]; apply in_map, IH; lia.
Qed.

Definition of_bool (b : bool) : entry := if b then Some 0 else None.
Definition present (e : entry) : bool := match e with Some _ => true | None => false end.

Lemma symbols_present bits symbol l : forall header i,
  symbols bits symbol header i l = symbols bits symbol header i (map of_bool (map present l)).
Proof. induction l as [|[d|] l IH]; intros header i; [done|cbn..]; apply IH. Qed.

Lemma symbol_of_present symbol l :
  map (symbol_of symbol) l = map (symbol_of symbol) (map of_bool (map present l)).
Proof. induction l as [|[d|] l IH]; cbn; [done|by rewrite IH..]. Qed.

Definition header_check (type2 : Z) (vector : Z -> list Z) (bits symbol header : Z) (size : nat) (bs : list bool) : bool :=
  let h := symbols bits symbol header 0 (map of_bool bs) in
  (0 <=? h) && (h <? 2 ^ 16) && negb (Z.land (Z.shiftr h 15) 1 =? 0) && (Z.land (Z.shiftr h 14) 1 =? type2) &&
  bool_decide (vector h = map (symbol_of symbol) (map of_bool bs) ++ replicate (size - length bs) 0).

Lemma header_reads type2 vector bits symbol header size l :
  forallb (header_check type2 vector bits symbol header size) (lists_of size) = true -> (length l <= size)%nat ->
  let h := symbols bits symbol header 0 l in
  is_u16 h /\ Z.land (Z.shiftr h 15) 1 <> 0 /\ Z.land (Z.shiftr h 14) 1 = type2 /\
  vector h = map (symbol_of symbol) l ++ replicate (size - length l) 0.
Proof.
  intros Hall Hl h. rewrite forallb_forall in Hall.
  specialize (Hall (map present l) ltac:(apply in_lists_of; by rewrite length_map)).
  unfold header_check in Hall. rewrite <- symbols_present, <- symbol_of_present in Hall. fold h in Hall.
  rewrite !andb_true_iff, Z.leb_le, Z.ltb_lt, negb_true_iff, Z.eqb_neq, Z.eqb_eq, bool_decide_eq_true, length_map in Hall.
  destruct Hall as [[[[? ?] ?] ?] ?]. by split_and!.
Qed.

Lemma small_reads l : (length l <= 14)%nat ->
  let h := header (Small l) in
  is_u16 h /\ Z.land (Z.shiftr h 15) 1 <> 0 /\ Z.land (Z.shiftr h 14) 1 = 0 /\
  vector1 h = map (symbol_of kSTATUS_RECEIVED_SMALL_DELTA) l ++ replicate (14 - length l) 0.
Proof. apply (header_reads 0 vector1 1). vm_compute. reflexivity. Qed.

Lemma large_reads l : (length l <= 7)%nat ->
  let h := header (Large l) in
  is_u16 h /\ Z.land (Z.shiftr h 15) 1 <> 0 /\ Z.land (Z.shiftr h 14) 1 = 1 /\
  vector2 h = map (symbol_of kSTATUS_RECEIVED_LARGE_DELTA) l ++ replicate (7 - length l) 0.
Proof. apply (header_reads 1 vector2 2). vm_compute. reflexivity. Qed.

(** *** Reading the chunks *)

Lemma set_status_at pre old l symbol i : i = Z.of_nat (length pre) ->
  set_status (pre ++ (symbol, 0) :: l) i symbol = set_status (pre ++ (symbol, 0) :: l) i symbol /\
  set_status (pre ++ (old, 0) :: l) i symbol = Some (pre ++ (symbol, 0) :: l).
Proof.
  intros ->. split; [done|]. unfold set_status. rewrite length_app. cbn [length].
  destruct (Z.ltb_spec (Z.of_nat (length pre)) (Z.of_nat (length pre + S (length l)))); [|lia].
  cbn [guard_true mbind option_bind]. rewrite Nat2Z.id.
  rewrite list_lookup_middle by done. cbn. by rewrite insert_app_r_alt, Nat.sub_diag by lia.
Qed.

(** The number of a packet of a report. *)
Lemma index_of base k : is_u16 base -> 0 <= k < 2 ^ 16 -> Z.land (u16 (base + k) + 0x10000 - base) 0xffff = k.
Proof.
  unfold is_u16. intros Hb Hk. change 0xffff with (2 ^ 16 - 1). rewrite land_ones_mod by lia. unfold u16. zdm.
Qed.

Lemma next_seq base k : u16 (u16 (base + k) + 1) = u16 (base + (k + 1)).
Proof. unfold u16. zdm. Qed.

Lemma at_end base k count : 0 <= k <= count -> count < 2 ^ 16 ->
  (u16 (base + k) =? u16 (base + count)) = (k =? count).
Proof.
  intros Hk Hc. destruct (Z.eqb_spec k count) as [->|Hne]; [apply Z.eqb_refl|].
  apply Z.eqb_neq. unfold u16. zdm.
Qed.

Lemma put_symbols_ok base count symbols : is_u16 base -> count < 2 ^ 16 ->
  forall pre n, Z.of_nat (length pre + n) = count -> (n <> 0)%nat ->
  put_symbols symbols (pre ++ replicate n (0, 0)) base (u16 (base + Z.of_nat (length pre))) (u16 (base + count)) =
  Some (pre ++ map (fun s => (s, 0)) (take n symbols) ++ replicate (n - length symbols) (0, 0),
        u16 (base + Z.of_nat (length pre + Nat.min n (length symbols)))).
Proof.
  intros Hb Hc. induction symbols as [|s symbols IH]; intros pre n Hn Hn0.
  { cbn [put_symbols]. rewrite take_nil. cbn [map app length]. by rewrite Nat.sub_0_r, Nat.min_0_r, Nat.add_0_r. }
  destruct n as [|n]; [done|]. cbn [put_symbols replicate].
  rewrite index_of by (done || lia). destruct (set_status_at pre 0 (replicate n (0, 0)) s _ eq_refl) as [_ ->].
  cbn [mbind option_bind]. rewrite next_seq, at_end by lia. cbn [take map length Nat.sub Nat.min].
  destruct (Z.eqb_spec (Z.of_nat (length pre) + 1) count).
  - assert (n = 0%nat) as -> by lia. repeat f_equal; lia.
  - set (x := (s, 0)). assert (length (pre ++ [x]) = length pre + 1)%nat as Hlen by (by rewrite length_app).
    specialize (IH (pre ++ [x]) n ltac:(lia) ltac:(lia)). rewrite Hlen, <- !app_assoc in IH. cbn [app] in IH.
    rewrite Nat2Z.inj_add in IH. change (Z.of_nat 1) with 1 in IH. rewrite IH.
    by replace (length pre + 1 + n `min` length symbols)%nat with (length pre + S (n `min` length symbols))%nat by lia.
Qed.

(** The temporary list when the symbols of the chunks are in place. *)
Definition statuses (l : list TempPacket) : list TempPacket := map (fun t => (t.1, 0)) l.

Lemma length_statuses l : length (statuses l) = length l.
Proof. apply length_map. Qed.

Lemma statuses_temp symbol l : statuses (map (temp symbol) l) = map (fun s => (s, 0)) (map (symbol_of symbol) l).
Proof. unfold statuses. rewrite !map_map. apply map_ext. by intros [d|]. Qed.

(** One round for one chunk. *)
Lemma chunk_round c fuel p pre rest post base count :
  is_u16 base -> count < 2 ^ 16 -> chunk_ok c -> Z.of_nat (length pre + (width c + rest)) = count ->
  (rest <> 0%nat -> full c) ->
  chunks (S fuel) (ByteReader.reader_at p (be_bytes 2 (header c) ++ post)) (pre ++ replicate (width c + rest) (0, 0))
    base (u16 (base + Z.of_nat (length pre))) (u16 (base + count)) =
  chunks fuel (ByteReader.reader_at (p ++ be_bytes 2 (header c)) post)
    ((pre ++ statuses (temps c)) ++ replicate rest (0, 0))
    base (u16 (base + Z.of_nat (length (pre ++ statuses (temps c))))) (u16 (base + count)).
Proof.
  intros Hb Hcount Hc Hlen Hfull. cbn [chunks]. rewrite at_end by lia.
  destruct (Z.eqb_spec (Z.of_nat (length pre)) count) as [E|_].
  { assert (width c <> 0)%nat by (destruct c; cbn in *; lia). lia. }
  rewrite ByteReader.remaining_at, length_app, length_be_bytes. cbn [Nat.ltb Nat.leb Nat.add].
  assert (is_u16 (header c)) as Hu.
  { destruct c; cbn [chunk_ok] in Hc; [unfold is_u16; cbn [header]; lia| |].
    - by destruct (small_reads entries) as (? & _); [lia|].
    - by destruct (large_reads entries) as (? & _); [lia|]. }
  rewrite Wire.readU16_be by done. cbn [mbind option_bind].
  assert (forall syms, (width c <= length syms)%nat -> (rest <> 0%nat -> length syms = width c) ->
    map (fun s => (s, 0)) (take (width c) syms) = statuses (temps c) ->
    put_symbols syms (pre ++ replicate (width c + rest) (0, 0)) base (u16 (base + Z.of_nat (length pre))) (u16 (base + count)) =
    Some ((pre ++ statuses (temps c)) ++ replicate rest (0, 0), u16 (base + Z.of_nat (length (pre ++ statuses (temps c)))))) as Hput.
  { intros syms H1 H2 H3. rewrite put_symbols_ok; try done; [|destruct c; cbn in *; lia].
    assert (take (width c + rest) syms = take (width c) syms) as ->.
    { destruct rest as [|rest]; [by rewrite Nat.add_0_r|].
      specialize (H2 ltac:(lia)). by rewrite !take_ge by lia. }
    assert (width c + rest - length syms = rest)%nat as -> by (destruct (decide (rest = 0%nat)); [lia|specialize (H2 ltac:(lia)); lia]).
    assert ((width c + rest) `min` length syms = width c)%nat as -> by (destruct (decide (rest = 0%nat)); [lia|specialize (H2 ltac:(lia)); lia]).
    by rewrite H3, <- app_assoc, length_app, length_statuses, length_temps. }
  destruct c as [n|l|l]; cbn [chunk_ok] in Hc.
  - cbn [header]. rewrite shiftr_div by lia.
    assert (Z.of_nat n / 2 ^ 15 = 0) as -> by (apply Z.div_small; lia). change (Z.land 0 1 =? kCHUNK_RUN_LENGTH) with true. cbv iota.
    change 0x1FFF with (2 ^ 13 - 1). rewrite land_ones_mod, Z.mod_small by lia. rewrite shiftr_div, Z.div_small by lia.
    cbn [width] in *. assert (u16 (u16 (base + count) - u16 (base + Z.of_nat (length pre))) = Z.of_nat (n + rest)) as ->.
    { unfold u16. zdm. }
    destruct (Z.ltb_spec (Z.of_nat (n + rest)) (Z.of_nat n)); [lia|]. rewrite Nat2Z.id.
    rewrite Hput; [done|by rewrite length_replicate|by rewrite length_replicate|].
    rewrite take_ge by (by rewrite length_replicate). unfold statuses. cbn [temps].
    symmetry. etransitivity; [apply (fmap_replicate (fun t : TempPacket => (t.1, 0)))|]. symmetry.
    apply (fmap_replicate (fun s : Z => (s, 0))).
  - destruct Hc as [Hl _]. destruct (small_reads l) as (_ & H15 & H14 & Hv); [lia|].
    destruct (Z.eqb_spec (Z.land (Z.shiftr (header (Small l)) 15) 1) kCHUNK_RUN_LENGTH) as [E|_]; [done|].
    rewrite H14. cbn [Z.eqb]. rewrite Hv, Hput; [done| | |]; cbn [width temps full] in *.
    + rewrite length_app, length_map. lia.
    + intros Hr. rewrite length_app, length_map, length_replicate. specialize (Hfull Hr). lia.
    + rewrite take_app_le, take_ge by (by rewrite length_map). by rewrite statuses_temp.
  - destruct Hc as [Hl _]. destruct (large_reads l) as (_ & H15 & H14 & Hv); [lia|].
    destruct (Z.eqb_spec (Z.land (Z.shiftr (header (Large l)) 15) 1) kCHUNK_RUN_LENGTH) as [E|_]; [done|].
    rewrite H14. cbn [Z.eqb]. rewrite Hv, Hput; [done| | |]; cbn [width temps full] in *.
    + rewrite length_app, length_map. lia.
    + intros Hr. rewrite length_app, length_map, length_replicate. specialize (Hfull Hr). lia.
    + rewrite take_app_le, take_ge by (by rewrite length_map). by rewrite statuses_temp.
Qed.

Lemma chunks_read cs : forall fuel p pre post base count,
  is_u16 base -> count < 2 ^ 16 -> chunks_ok cs -> Z.of_nat (length pre + total cs) = count -> (length cs <= fuel)%nat ->
  chunks fuel (ByteReader.reader_at p (headers cs ++ post)) (pre ++ replicate (total cs) (0, 0))
    base (u16 (base + Z.of_nat (length pre))) (u16 (base + count)) =
  Some (true, pre ++ statuses (all_temps cs), ByteReader.reader_at (p ++ headers cs) post).
Proof.
  induction cs as [|c cs IH]; intros fuel p pre post base count Hb Hcount Hcs Hlen Hfuel.
  { cbn [total list_sum map foldr] in *. rewrite <- Hlen, Nat.add_0_r. unfold headers, all_temps. cbn [map concat app replicate statuses].
    destruct fuel; cbn [chunks]; by rewrite Z.eqb_refl, !app_nil_r. }
  destruct fuel as [|fuel]; [cbn in Hfuel; lia|]. destruct Hcs as (Hc & Hfull & Hcs).
  change (total (c :: cs)) with (width c + total cs)%nat in *.
  change (headers (c :: cs)) with (be_bytes 2 (header c) ++ headers cs). rewrite <- app_assoc.
  rewrite (chunk_round c fuel p pre (total cs) (headers cs ++ post) base count); try done.
  - rewrite IH; try done; [| |cbn in Hfuel; lia].
    + unfold all_temps. cbn [map concat]. unfold statuses. by rewrite map_app, <- !app_assoc.
    + rewrite length_app, length_statuses, length_temps. lia.
  - intros Hr. apply Hfull. by intros ->.
Qed.

(** *** Reading the deltas *)

(** Statuses and deltas a report can carry. *)
Definition temp_ok (t : TempPacket) : Prop :=
  t = (kSTATUS_NOT_RECEIVED, 0) \/
  (exists k, t = (kSTATUS_RECEIVED_SMALL_DELTA, 250 * k) /\ 0 <= k < 2 ^ 8) \/
  (exists k, t = (kSTATUS_RECEIVED_LARGE_DELTA, 250 * k) /\ - 2 ^ 15 <= k < 2 ^ 15).

Lemma temps_ok c : chunk_ok c -> Forall temp_ok (temps c).
Proof.
  destruct c as [n|l|l]; cbn [chunk_ok temps]; intros Hc.
  - apply Forall_replicate. by left.
  - apply List.Forall_map. destruct Hc as [_ Hl]. refine (list.Forall_impl _ _ _ Hl _). intros [d|] Hd; [|by left].
    right; left. exists (Z.quot d 250). split; [done|]. cbn in Hd. unfold kMinSmallDeltaMicros, kMaxSmallDeltaMicros in Hd.
    Z.quot_rem_to_equations. lia.
  - apply List.Forall_map. destruct Hc as [_ Hl]. refine (list.Forall_impl _ _ _ Hl _). intros [d|] Hd; [|by left].
    right; right. exists (Z.quot d 250). split; [done|]. cbn in Hd. unfold kMinLargeDeltaMicros, kMaxLargeDeltaMicros in Hd.
    Z.quot_rem_to_equations. lia.
Qed.

Lemma all_temps_ok cs : chunks_ok cs -> Forall temp_ok (all_temps cs).
Proof.
  unfold all_temps. induction cs as [|c cs IH]; [constructor|]. intros (Hc & _ & Hcs). cbn [map concat].
  apply Forall_app. split; [by apply temps_ok|by apply IH].
Qed.

(** The history when the statuses have been noted. *)
Fixpoint noted (l : list TempPacket) (seq : Z) (h : PublishPacketHistory.t) : PublishPacketHistory.t :=
  match l with
  | [] => h
  | (status, _) :: rest =>
      noted rest (seq + 1) (if isReceivedWithTime status then report_status h seq status else h)
  end.

Lemma i16_be_bytes k : - 2 ^ 15 <= k < 2 ^ 15 -> i16 (u16 k) = k.
Proof. intros Hk. unfold i16, to_signed, u16. cbv zeta. rewrite Z.mod_mod by lia. destruct (Z.ltb_spec (k mod 2 ^ 16) (2 ^ (16 - 1))); zdm. Qed.

Lemma be_bytes_u16 k : be_bytes 2 (u16 k) = be_bytes 2 k.
Proof.
  cbn [be_bytes]. unfold u16, u8. rewrite !shiftr_div by lia. change (8 * Z.of_nat 1) with 8. change (8 * Z.of_nat 0) with 0.
  f_equal; [zdm|f_equal; zdm].
Qed.

Lemma read_deltas_ok l : Forall temp_ok l -> forall seq p post h,
  read_deltas (statuses l) seq (ByteReader.reader_at p (stamps l ++ post)) h =
  Some (true, l, ByteReader.reader_at (p ++ stamps l) post, noted l seq h).
Proof.
  unfold stamps. induction 1 as [|t l Ht Hl IH]; intros seq p post h.
  { cbn. by rewrite app_nil_r. }
  destruct Ht as [-> | [(k & -> & Hk) | (k & -> & Hk)]]; unfold statuses;
    cbn [statuses map concat noted read_deltas stamp fst snd]; fold (statuses l).
  - cbn [app Z.eqb kSTATUS_NOT_RECEIVED kSTATUS_RECEIVED_SMALL_DELTA kSTATUS_RECEIVED_LARGE_DELTA isReceivedWithTime orb].
    change (stamp (0, 0)) with (@nil Z). cbn [app]. by rewrite IH.
  - change (stamp (kSTATUS_RECEIVED_SMALL_DELTA, 250 * k)) with (be_bytes 1 (Z.quot (250 * k) 250)).
    rewrite (Z.mul_comm 250 k), Z.quot_mul by lia. rewrite <- app_assoc.
    rewrite ByteReader.remaining_at, length_app, length_be_bytes. cbn [Nat.ltb Nat.leb Nat.add].
    change (kSTATUS_RECEIVED_SMALL_DELTA =? kSTATUS_RECEIVED_SMALL_DELTA) with true. cbv iota.
    rewrite Wire.readU8_be by (unfold is_u8; lia). cbn [mbind option_bind]. rewrite IH. cbn [mbind option_bind].
    by rewrite <- app_assoc, (Z.mul_comm k 250).
  - change (stamp (kSTATUS_RECEIVED_LARGE_DELTA, 250 * k)) with (be_bytes 2 (Z.quot (250 * k) 250)).
    rewrite (Z.mul_comm 250 k), Z.quot_mul by lia. rewrite <- app_assoc.
    rewrite ByteReader.remaining_at, length_app, length_be_bytes. cbn [Nat.ltb Nat.leb Nat.add].
    change (kSTATUS_RECEIVED_LARGE_DELTA =? kSTATUS_RECEIVED_SMALL_DELTA) with false.
    change (kSTATUS_RECEIVED_LARGE_DELTA =? kSTATUS_RECEIVED_LARGE_DELTA) with true. cbv iota.
    rewrite <- (be_bytes_u16 k), Wire.readU16_be by apply u16_range. cbn [mbind option_bind]. rewrite IH. cbn [mbind option_bind].
    by rewrite <- app_assoc, (Z.mul_comm k 250), i16_be_bytes.
Qed.

End Report.

(** ** The publisher's history *)

Module History.
Import PublishPacketHistory.

Record hist_ok (h : t) : Prop := {
  min_u16 : is_u16 (mMinSeq h);
  max_u16 : is_u16 (mMaxSeq h);
  seqs_u16 : forall slots, mPacketList h = Some slots -> map_Forall (fun _ p => is_u16 (seq p)) slots
}.

Lemma slot_u16 slots i : map_Forall (fun _ p => is_u16 (seq p)) slots -> is_u16 (seq (at_slot slots i)).
Proof.
  intros Hs. unfold at_slot. destruct (slots !! i) as [p|] eqn:E; [by apply (Hs i p)|]. cbn. unfold is_u16. lia.
Qed.

Lemma modify_ok h f i : (forall p, seq (f p) = seq p) -> hist_ok h -> hist_ok (modify h f i).
Proof.
  intros Hf Hh. unfold modify. destruct (mPacketList h) as [slots|] eqn:E; [|done].
  destruct Hh as [Hmin Hmax Hs]. split; [done|done|]. intros k [= <-]. specialize (Hs _ E).
  apply map_Forall_insert_2; [|done]. rewrite Hf. by apply slot_u16.
Qed.

(** *** The loops over the window end *)

Lemma backwards_some {A} fuel (f : A -> Z -> bool * A) : forall a seq min,
  is_u16 seq -> is_u16 min -> u16 (seq - min) < Z.of_nat fuel -> is_Some (backwards fuel f a seq min).
Proof.
  induction fuel as [|fuel IH]; intros a seq min Hs Hm Hf; [pose proof (u16_range (seq - min)); unfold is_u16 in *; lia|].
  cbn [backwards]. destruct (f a seq) as [[] a']; cbn [negb]; [|by eexists].
  destruct (Z.eqb_spec seq min) as [->|Hne]; [by eexists|]. apply IH; [apply u16_range|done|].
  unfold is_u16, u16 in *. zdm.
Qed.

Lemma lap_backwards {A} fuel (f : A -> Z -> bool * A) a seq min : Z.of_nat fuel = 2 ^ 16 ->
  is_u16 seq -> is_u16 min -> is_Some (backwards fuel f a seq min).
Proof. intros Hf Hs Hm. apply backwards_some; [done..|]. rewrite Hf. apply u16_range. Qed.

(** The number of rounds as a variable, lest it be computed. *)
Ltac hide_lap := generalize lap lap_enough; intros fuel Hfuel.

(** What a loop keeps. *)
Lemma backwards_ind {A} (P : A -> Prop) fuel (f : A -> Z -> bool * A) :
  (forall a seq, P a -> P (f a seq).2) -> forall a seq min r, backwards fuel f a seq min = Some r -> P a -> P r.
Proof.
  intros Hf. induction fuel as [|fuel IH]; intros a seq min r; [done|]. cbn [backwards].
  specialize (Hf a seq). destruct (f a seq) as [[] a']; cbn [negb snd] in *.
  - destruct (seq =? min); [|intros E Ha; eapply IH; [exact E|by apply Hf]]. intros [= <-] Ha. by apply Hf.
  - intros [= <-] Ha. by apply Hf.
Qed.

Lemma count_lost_some fuel slots : forall lost nacked seq max,
  is_u16 seq -> is_u16 max -> u16 (max - seq) < Z.of_nat fuel -> is_Some (count_lost fuel slots lost nacked seq max).
Proof.
  induction fuel as [|fuel IH]; intros lost nacked seq max Hs Hm Hf; [pose proof (u16_range (max - seq)); unfold is_u16 in *; lia|].
  cbn [count_lost]. destruct (Z.eqb_spec seq max) as [->|Hne]; [by eexists|]. apply IH; [apply u16_range|done|].
  unfold is_u16, u16 in *. zdm.
Qed.

Lemma lap_count_lost fuel slots lost nacked seq max : Z.of_nat fuel = 2 ^ 16 ->
  is_u16 seq -> is_u16 max -> is_Some (count_lost fuel slots lost nacked seq max).
Proof. intros Hf Hs Hm. apply count_lost_some; [done..|]. rewrite Hf. apply u16_range. Qed.

(** *** The estimates are always computed *)

#[local] Instance later_trans : Transitive later.
Proof. intros a b c. unfold later. lia. Qed.
#[local] Instance later_total : Total later.
Proof. intros a b. unfold later. lia. Qed.

(** The first of a sorted list is the latest. *)
Lemma front_latest buf front back :
  head (merge_sort later buf) = Some front -> list.last (merge_sort later buf) = Some back -> back.1 <= front.1.
Proof.
  pose proof (StronglySorted_merge_sort later buf) as Hsorted. destruct (merge_sort later buf) as [|x l]; [done|].
  cbn [head]. intros [= <-] Hback. inversion Hsorted as [|? ? _ Hall]; subst.
  apply last_Some_elem_of in Hback. apply list.elem_of_cons in Hback as [->|Hback]; [lia|].
  by apply (Forall_elem _ _ _ Hall).
Qed.

Lemma actual_total s slots now_nanos max : hist_ok s -> mPacketList s = Some slots ->
  is_Some (calculateBandwidthActual s slots now_nanos max).
Proof.
  intros [Hmin Hmax Hseqs] Hl. specialize (Hseqs _ Hl). unfold calculateBandwidthActual. hide_lap. case_match; [by eexists|].
  destruct (lap_count_lost fuel slots 0 0 (mMinSeq s) (mMaxSeq s) Hfuel Hmin Hmax) as ([lost nacked] & ->). cbn [mbind option_bind].
  destruct (lap_backwards fuel (gather_actual slots (at_slot slots max)) [] (seq (at_slot slots max)) (mMinSeq s) Hfuel) as (buf & ->);
    [by apply slot_u16|done|]. cbn [mbind option_bind].
  destruct (Z.ltb_spec (Z.of_nat (length buf)) kActualCalculateMinPackets) as [|Hlen]; [by eexists|].
  assert (length (merge_sort later buf) = length buf) as Hsort by apply Permutation_length, merge_sort_Permutation.
  destruct (head (merge_sort later buf)) as [front|] eqn:Ef;
    [|apply head_None in Ef; rewrite Ef in Hsort; cbn in Hsort; unfold kActualCalculateMinPackets in Hlen; lia].
  destruct (list.last (merge_sort later buf)) as [back|] eqn:Eb;
    [|apply last_None in Eb; rewrite Eb in Hsort; cbn in Hsort; unfold kActualCalculateMinPackets in Hlen; lia].
  cbn [mbind option_bind]. pose proof (front_latest _ _ _ Ef Eb) as Hle.
  destruct (Z.leb_spec back.1 front.1); [|lia]. cbn [guard_true mbind option_bind]. case_match; by eexists.
Qed.

Lemma probe_total s slots : hist_ok s -> mPacketList s = Some slots -> is_Some (calcualteBandwidthProbe s slots).
Proof.
  intros [Hmin Hmax Hseqs] Hl. specialize (Hseqs _ Hl). unfold calcualteBandwidthProbe. hide_lap. case_match; [by eexists|].
  destruct (lap_backwards fuel (probe_step slots) (mkProbe None None 0 0 0) (mMaxSeq s) (mMinSeq s) Hfuel Hmax Hmin) as (pr & ->).
  cbn [mbind option_bind]. destruct (startPtr pr) as [i|], (endPtr pr) as [j|]; try by eexists.
  destruct (lap_backwards fuel (span_size slots) 0 (seq (at_slot slots j)) (seq (at_slot slots i)) Hfuel) as (size & ->);
    [by apply slot_u16..|]. by eexists.
Qed.

Lemma trend_total s slots now max : hist_ok s -> mPacketList s = Some slots ->
  is_Some (calculateBandwidthTrend s slots now max).
Proof.
  intros [Hmin Hmax Hseqs] Hl. specialize (Hseqs _ Hl). unfold calculateBandwidthTrend. hide_lap. case_match; [by eexists|].
  destruct (lap_backwards fuel (gather_trend slots (at_slot slots max) (mMinSeq s)) [] (seq (at_slot slots max)) (mMinSeq s) Hfuel)
    as (buf & ->); [by apply slot_u16|done|]. cbn [mbind option_bind]. case_match; [by eexists|].
  case_match; by eexists.
Qed.

(** What an update does not change: the packets apart from the two flags of the
    reports. *)
Definition same_packet (p q : PublishPacket) : Prop :=
  seq p = seq q /\ received_time_micros p = received_time_micros q /\ received_time_present p = received_time_present q /\
  sent_time_micros p = sent_time_micros q /\ reported_status p = reported_status q.

Definition same_packets (h k : t) : Prop :=
  mMinSeq h = mMinSeq k /\ mMaxSeq h = mMaxSeq k /\
  match mPacketList h, mPacketList k with
  | Some slots, Some slots' => forall i, same_packet (at_slot slots i) (at_slot slots' i)
  | None, None => True
  | _, _ => False
  end.

Lemma at_slot_insert slots i j p : at_slot (<[i := p]> slots) j = if decide (i = j) then p else at_slot slots j.
Proof. unfold at_slot. rewrite lookup_insert. by case_decide. Qed.

Lemma mark_same slots : forall acc seq, (forall i, same_packet (at_slot slots i) (at_slot acc i)) ->
  forall i, same_packet (at_slot slots i) (at_slot (mark acc seq).2 i).
Proof.
  intros acc seq Hs i. unfold mark. case_match; [done|]. cbn [snd]. rewrite at_slot_insert. case_decide; [subst|done].
  destruct (Hs (index seq)) as (? & ? & ? & ? & ?). by split_and!.
Qed.

Lemma mark_seqs : forall acc n, map_Forall (fun _ p => is_u16 (seq p)) acc ->
  map_Forall (fun _ p => is_u16 (seq p)) (mark acc n).2.
Proof.
  intros acc n Hs. unfold mark. case_match; [done|]. cbn [snd]. apply map_Forall_insert_2; [|done].
  by apply (slot_u16 _ (index n)).
Qed.

Lemma same_packets_refl h : same_packets h h.
Proof. repeat split. destruct (mPacketList h); [|done]. intros i. by repeat split. Qed.

(** Only the estimates differ. *)
Definition same_list (h k : t) : Prop :=
  mMinSeq h = mMinSeq k /\ mMaxSeq h = mMaxSeq k /\ mPacketList h = mPacketList k.

Lemma same_list_ok h k : same_list h k -> hist_ok h -> hist_ok k.
Proof. intros (E1 & E2 & E3) [? ? ?]. split; by rewrite <- ?E1, <- ?E2, <- ?E3. Qed.

Lemma update_actual_same s slots n max : hist_ok s -> mPacketList s = Some slots ->
  exists s', update_actual s slots n max = Some s' /\ same_list s s'.
Proof.
  intros Hs Hl. unfold update_actual. case_match; [|by eexists]. destruct (actual_total s slots n max Hs Hl) as ([done e] & ->).
  cbn. by eexists.
Qed.

Lemma update_probe_same s slots max : hist_ok s -> mPacketList s = Some slots ->
  exists s', update_probe s slots max = Some s' /\ same_list s s'.
Proof.
  intros Hs Hl. unfold update_probe. case_match; [|by eexists]. destruct (probe_total s slots Hs Hl) as ([done e] & ->).
  cbn. by eexists.
Qed.

Lemma update_trend_same s slots now max : hist_ok s -> mPacketList s = Some slots ->
  exists s', update_trend s slots now max = Some s' /\ same_list s s'.
Proof.
  intros Hs Hl. unfold update_trend. case_match; [|by eexists]. destruct (trend_total s slots now max Hs Hl) as ([done e] & ->).
  cbn. by eexists.
Qed.

Lemma update_hist_ok s now_nanos now : hist_ok s ->
  exists s', update s now_nanos now = Some s' /\ hist_ok s' /\ same_packets s s'.
Proof.
  intros Hs. pose proof Hs as [Hmin Hmax Hseqs]. unfold update, findMostRecentReceivedPacket. hide_lap.
  destruct (mPacketList s) as [slots|] eqn:El; [|exists s; split_and!; [done|done|apply same_packets_refl]].
  specialize (Hseqs _ eq_refl).
  match goal with |- context [backwards fuel ?f None _ _] => destruct (lap_backwards fuel f None (mMaxSeq s) (mMinSeq s) Hfuel Hmax Hmin) as (m & ->) end.
  cbn [mbind option_bind]. destruct m as [max|]; [|exists s; split_and!; [done|done|apply same_packets_refl]].
  destruct (lap_backwards fuel mark slots (seq (at_slot slots max)) (mMinSeq s) Hfuel) as (slots' & Em); [by apply slot_u16|done|].
  rewrite Em. cbn [mbind option_bind].
  assert (hist_ok (with_slots s slots')) as Hs'.
  { split; [done|done|]. intros k [= <-]. by apply (backwards_ind _ _ _ mark_seqs _ _ _ _ Em). }
  assert (same_packets s (with_slots s slots')) as Hsame.
  { repeat split. rewrite El. cbn [mPacketList with_slots with_list].
    apply (backwards_ind _ _ _ (mark_same slots) _ _ _ _ Em). by repeat split. }
  destruct (update_actual_same (with_slots s slots') slots' now_nanos max Hs' eq_refl) as (s1 & -> & H1). cbn [mbind option_bind].
  pose proof (same_list_ok _ _ H1 Hs') as Hs1. destruct H1 as (A1 & B1 & C1).
  destruct (update_probe_same s1 slots' max Hs1 (eq_sym C1)) as (s2 & -> & H2). cbn [mbind option_bind].
  pose proof (same_list_ok _ _ H2 Hs1) as Hs2. destruct H2 as (A2 & B2 & C2).
  assert (mPacketList s2 = Some slots') as Hl2 by (by rewrite <- C2, <- C1).
  destruct (update_trend_same s2 slots' now max Hs2 Hl2) as (s3 & -> & H3). exists s3. split; [done|].
  split; [by apply (same_list_ok s2)|]. destruct H3 as (A3 & B3 & C3). destruct Hsame as (D1 & D2 & D3).
  split_and!; [by rewrite D1, A1, A2|by rewrite D2, B1, B2|]. by rewrite <- C3, Hl2.
Qed.

End History.

(** ** Any report whatsoever *)

Module AnyReport.
Import RtpExtensionSourceTWCC Report History.

Lemma put_symbols_total base count symbols : is_u16 base -> 0 < count < 2 ^ 16 ->
  forall (l : list TempPacket) k, Z.of_nat (length l) = count -> 0 <= k < count ->
  exists l' k', put_symbols symbols l base (u16 (base + k)) (u16 (base + count)) = Some (l', u16 (base + k')) /\
    Z.of_nat (length l') = count /\ 0 <= k' <= count.
Proof.
  intros Hb Hc. induction symbols as [|s symbols IH]; intros l k Hl Hk.
  { exists l, k. split; [done|lia]. }
  cbn [put_symbols]. rewrite index_of by (done || lia). unfold set_status. destruct (Z.ltb_spec k (Z.of_nat (length l))); [|lia].
  cbn [guard_true mbind option_bind]. rewrite next_seq, at_end by lia.
  destruct (Z.eqb_spec (k + 1) count).
  - eexists _, (k + 1). split; [done|]. rewrite length_insert. lia.
  - apply IH; [by rewrite length_insert|lia].
Qed.

Lemma chunks_total base count fuel : is_u16 base -> 0 < count < 2 ^ 16 ->
  forall pre post (l : list TempPacket) k, (length post < fuel)%nat -> Z.of_nat (length l) = count -> 0 <= k <= count ->
  exists b l' pre' post', chunks fuel (ByteReader.reader_at pre post) l base (u16 (base + k)) (u16 (base + count)) =
    Some (b, l', ByteReader.reader_at pre' post') /\ Z.of_nat (length l') = count.
Proof.
  intros Hb Hc. induction fuel as [|fuel IH]; intros pre post l k Hfuel Hl Hk; [lia|].
  cbn [chunks]. rewrite at_end by lia. destruct (Z.eqb_spec k count); [by exists true, l, pre, post|].
  rewrite ByteReader.remaining_at. destruct (Nat.ltb_spec (length post) 2); [by exists false, l, pre, post|].
  destruct (ByteReader.readU16_some pre post) as (h & ->); [lia|]. cbn [mbind option_bind].
  assert (forall symbols, exists l' k',
    put_symbols symbols l base (u16 (base + k)) (u16 (base + count)) = Some (l', u16 (base + k')) /\
    Z.of_nat (length l') = count /\ 0 <= k' <= count) as Hput by (intros; apply put_symbols_total; done || lia).
  assert (forall l' k', Z.of_nat (length l') = count -> 0 <= k' <= count ->
    exists b l'' pre' post', chunks fuel (ByteReader.reader_at (pre ++ take 2 post) (drop 2 post)) l' base (u16 (base + k'))
      (u16 (base + count)) = Some (b, l'', ByteReader.reader_at pre' post') /\ Z.of_nat (length l'') = count) as Hgo
    by (intros; apply IH; [rewrite length_drop; lia|done..]).
  case_match; [case_match; [by exists true, l, (pre ++ take 2 post), (drop 2 post)|]|case_match];
    (match goal with |- context [put_symbols ?x] => destruct (Hput x) as (l' & k' & -> & Hl' & Hk') end;
     cbn [mbind option_bind]; by apply Hgo).
Qed.

Lemma report_status_ok h seq status : hist_ok h -> hist_ok (report_status h seq status).
Proof. intros Hh. unfold report_status. case_match; [|done]. by apply modify_ok. Qed.

Lemma read_deltas_total l : forall pre post seq h, hist_ok h ->
  exists b l' pre' post' h', read_deltas l seq (ByteReader.reader_at pre post) h =
    Some (b, l', ByteReader.reader_at pre' post', h') /\ hist_ok h'.
Proof.
  induction l as [|[symbol old] l IH]; intros pre post seq h Hh; [by exists true, [], pre, post, h|].
  cbn [read_deltas]. rewrite ByteReader.remaining_at. case_match; [|case_match].
  - destruct (Nat.ltb_spec (length post) 1); [by eexists _, _, _, _, _|].
    destruct (ByteReader.readU8_some pre post) as (d & ->); [lia|]. cbn [mbind option_bind].
    destruct (IH (pre ++ take 1 post) (drop 1 post) (seq + 1) (report_status h seq kSTATUS_RECEIVED_SMALL_DELTA))
      as (b & l' & pre' & post' & h' & -> & Hh'); [by apply report_status_ok|]. cbn. by eexists _, _, _, _, _.
  - destruct (Nat.ltb_spec (length post) 2); [by eexists _, _, _, _, _|].
    destruct (ByteReader.readU16_some pre post) as (d & ->); [lia|]. cbn [mbind option_bind].
    destruct (IH (pre ++ take 2 post) (drop 2 post) (seq + 1) (report_status h seq kSTATUS_RECEIVED_LARGE_DELTA))
      as (b & l' & pre' & post' & h' & -> & Hh'); [by apply report_status_ok|]. cbn. by eexists _, _, _, _, _.
  - destruct (IH pre post (seq + 1) h) as (b & l' & pre' & post' & h' & -> & Hh'); [done|]. cbn. by eexists _, _, _, _, _.
Qed.

Lemma resolve_ok l : forall seq reference prev h, hist_ok h -> hist_ok (resolve l seq reference prev h).
Proof.
  induction l as [|[status delta] l IH]; intros seq reference prev h Hh; [done|]. cbn [resolve].
  case_match; [|by apply IH]. apply IH. case_match; [|done]. case_match; [|done]. by apply modify_ok.
Qed.

Lemma report_total pre post now_nanos now s : hist_ok (mPacketHistory s) ->
  exists s', onReceivedRtcpPacket (ByteReader.reader_at pre post) now_nanos now s = Some s' /\ hist_ok (mPacketHistory s').
Proof.
  intros Hs. unfold onReceivedRtcpPacket. rewrite ByteReader.remaining_at.
  destruct (Nat.ltb_spec (length post) 8) as [|Hlen]; [by exists s|].
  destruct (ByteReader.readU16_some pre post) as (base & Eb); [lia|]. pose proof (ByteReader.readU16_range _ _ _ Eb) as Hb.
  rewrite Eb. cbn [mbind option_bind].
  destruct (ByteReader.readU16_some (pre ++ take 2 post) (drop 2 post)) as (count & Ec); [rewrite length_drop; lia|].
  pose proof (ByteReader.readU16_range _ _ _ Ec) as Hc. rewrite Ec. cbn [mbind option_bind].
  match goal with |- context [ByteReader.readU32 (ByteReader.reader_at ?p ?q)] =>
    destruct (ByteReader.readU32_some p q) as (ref & ->); [rewrite !length_drop; lia|] end. cbn [mbind option_bind].
  destruct (Z.eqb_spec count 0) as [|Hc0]; [by exists s|]. unfold is_u16 in Hc. rewrite ByteReader.remaining_at.
  match goal with |- context [chunks ?f (ByteReader.reader_at ?p ?q) ?l] =>
    destruct (chunks_total base count f Hb ltac:(lia) p q l 0) as (b & l' & p' & q' & E & Hl'); [lia| |lia|] end.
  { rewrite length_replicate. lia. }
  rewrite Z.add_0_r, (u16_small base) in E by done. rewrite E. cbn [mbind option_bind].
  destruct b; cbn [negb]; [|by exists s].
  destruct (read_deltas_total l' p' q' base (mPacketHistory s) Hs) as (b & l'' & p'' & q'' & h & -> & Hh). cbn [mbind option_bind].
  destruct b; cbn [negb]; [|by eexists].
  match goal with |- context [PublishPacketHistory.update ?h' _ _] =>
    destruct (update_hist_ok h' now_nanos now) as (h'' & -> & Hh'' & _); [by apply resolve_ok|] end.
  cbn [mbind option_bind]. eexists. split; [done|]. unfold stop_probing. by case_match.
Qed.

End AnyReport.

(** ** The reports of a subscriber *)

Module Reporting.
Import SubscribePacketHistory Report Builder.

Lemma slot_of_mod q : index q = q mod 2048.
Proof. unfold index. change kMaxPacketMask with (2 ^ 11 - 1). by rewrite land_ones_mod. Qed.

Lemma index_ne q q' : q <> q' -> Z.abs (q - q') < 2048 -> index q <> index q'.
Proof. rewrite !slot_of_mod. intros Hne Hd E. apply Hne. zdm. Qed.

(** The slots hold the numbers from [min] to [max], with arrival times [f]. *)
Record window (f : Z -> Z) (slots : gmap Z SubscribePacket) (min max : Z) : Prop := {
  window_slots : forall q, min <= q < max -> slots !! index q = Some (mkPacket q (f q));
  window_size : 0 <= min <= max /\ max - min <= 2048 /\ max < 2 ^ 63
}.

(** And nothing else. *)
Record tight (f : Z -> Z) (slots : gmap Z SubscribePacket) (min max : Z) : Prop := {
  tight_window :> window f slots min max;
  tight_only : forall j, is_Some (slots !! j) -> exists q, min <= q < max /\ j = index q
}.

Lemma window_next f slots min max : tight f slots min max -> min < max ->
  deleteMinPacket slots min max = Some (delete (index min) slots, min + 1) /\
  tight f (delete (index min) slots) (min + 1) max.
Proof.
  intros [[Hs Hb] Ho] Hlt. unfold deleteMinPacket. destruct (Z.ltb_spec min max); [|lia].
  cbn [guard_true mbind option_bind]. rewrite Hs by lia. cbn [mbind option_bind].
  rewrite u64_small by (unfold is_u64; lia). split; [done|]. split; [split; [|lia]|].
  - intros q Hq. rewrite lookup_delete_ne by (apply index_ne; lia). apply Hs. lia.
  - intros j [x Hj]. apply lookup_delete_Some in Hj as [Hne Hj]. destruct (Ho j ltac:(by exists x)) as (q & Hq & ->).
    exists q. split; [|done]. assert (q <> min) by congruence. lia.
Qed.

Lemma advance_tight f n : forall slots min max, tight f slots min max -> min + Z.of_nat n <= max ->
  exists slots', advance n slots min max = Some (slots', min + Z.of_nat n) /\ tight f slots' (min + Z.of_nat n) max.
Proof.
  induction n as [|n IH]; intros slots min max Hw Hn.
  { exists slots. rewrite Z.add_0_r. by split. }
  destruct (window_next f slots min max Hw ltac:(lia)) as [E Hw']. cbn [advance]. rewrite E. cbn [mbind option_bind].
  destruct (IH _ _ _ Hw' ltac:(lia)) as (slots' & -> & Hw''). exists slots'.
  by replace (min + Z.of_nat (S n)) with (min + 1 + Z.of_nat n) by lia.
Qed.

(** *** Runs *)

(** The deltas of [entries] lead from [cur] to [cur'] through the arrival times of
    the packets from [seq] on. *)
Fixpoint exact (f : Z -> Z) (seq cur : Z) (entries : list entry) (cur' : Z) : Prop :=
  match entries with
  | [] => cur = cur'
  | None :: rest => f seq = 0 /\ exact f (seq + 1) cur rest cur'
  | Some d :: rest => f seq <> 0 /\ f seq = cur + d /\ exact f (seq + 1) (f seq) rest cur'
  end.

Lemma exact_app f l : forall seq cur mid k cur',
  exact f seq cur l mid -> exact f (seq + Z.of_nat (length l)) mid k cur' -> exact f seq cur (l ++ k) cur'.
Proof.
  induction l as [|[d|] l IH]; intros seq cur mid k cur'; cbn [exact app length].
  - intros ->. by rewrite Z.add_0_r.
  - intros (H1 & H2 & H3) Hk. split; [done|]. split; [done|]. eapply IH; [exact H3|].
    by replace (seq + 1 + Z.of_nat (length l)) with (seq + Z.of_nat (S (length l))) by lia.
  - intros (H1 & H3) Hk. split; [done|]. eapply IH; [exact H3|].
    by replace (seq + 1 + Z.of_nat (length l)) with (seq + Z.of_nat (S (length l))) by lia.
Qed.

Lemma exact_none f n : forall seq cur, (forall i, seq <= i < seq + Z.of_nat n -> f i = 0) ->
  exact f seq cur (replicate n None) cur.
Proof.
  induction n as [|n IH]; intros seq cur Hf; [done|]. split; [apply Hf; lia|]. apply IH. intros i Hi. apply Hf. lia.
Qed.

(** Without a delta the reference does not matter. *)
Lemma exact_rebase f l : forall seq cur cur' new, exact f seq cur l cur' -> Forall (fun e => e = None) l ->
  exact f seq new l new.
Proof.
  induction l as [|[d|] l IH]; intros seq cur cur' new He Hl; inversion Hl; subst; [done|done|].
  destruct He as [He1 He2]. split; [done|]. by eapply IH.
Qed.

Lemma i32_small z : - 2 ^ 31 <= z < 2 ^ 31 -> i32 z = z.
Proof. intros Hz. unfold i32, to_signed. cbv zeta. destruct (Z.ltb_spec (z mod 2 ^ 32) (2 ^ (32 - 1))); zdm. Qed.

(** A run covers [n] packets, or all that are left, or ends before a packet out of
    range. *)
Lemma peek_run_spec f lo hi n slots max : - 2 ^ 31 <= lo -> hi < 2 ^ 31 -> forall cur curr_time,
  window f slots cur max ->
  exists entries last, peek_run lo hi n slots cur max curr_time = Some (entries, last) /\
    exact f cur curr_time entries last /\ Forall (in_range lo hi) entries /\ (length entries <= n)%nat /\
    cur + Z.of_nat (length entries) <= max /\
    ((forall q time, cur <= q < max -> f q <> 0 -> time = curr_time \/ (exists p, cur <= p < q /\ f p <> 0 /\ time = f p) ->
       lo <= f q - time <= hi) -> Z.of_nat (length entries) = Z.min (Z.of_nat n) (max - cur)).
Proof.
  intros Hlo Hhi. induction n as [|n IH]; intros cur curr_time Hw; cbn [peek_run].
  { exists [], curr_time. split_and!; [done|done|constructor|done|pose proof (window_size _ _ _ _ Hw); cbn; lia|].
    intros _. pose proof (window_size _ _ _ _ Hw). cbn. lia. }
  pose proof Hw as [Hs Hb]. destruct (Z.ltb_spec cur max) as [Hlt|Hge].
  2: { exists [], curr_time. split_and!; [done|done|constructor|cbn; lia|cbn; lia|cbn; lia]. }
  rewrite Hs by lia. cbn [mbind option_bind received_time_micros]. rewrite u64_small by (unfold is_u64; lia).
  assert (window f slots (cur + 1) max) as Hw' by (split; [intros q Hq; apply Hs; lia|lia]).
  destruct (Z.eqb_spec (f cur) 0) as [H0|H0].
  - destruct (IH (cur + 1) curr_time Hw') as (entries & last & -> & He & Hr & Hl & Hm & Hfull). cbn [mbind option_bind].
    exists (None :: entries), last. split; [done|]. cbn [exact length]. split_and!; [done|done|by constructor|lia|lia|].
    intros Hall. rewrite Nat2Z.inj_succ, Hfull; [lia|]. intros q time Hq Hf0 Ht. apply Hall; [lia|done|].
    destruct Ht as [->|(p & Hp & Hfp & ->)]; [by left|right; exists p; split_and!; done || lia].
  - destruct (Z.leb_spec (curr_time + lo) (f cur)), (Z.leb_spec (f cur) (curr_time + hi)); cbn [andb].
    2-4: exists [], curr_time; split_and!; [done|done|constructor|cbn; lia|cbn; lia|];
      intros Hall; specialize (Hall cur curr_time ltac:(lia) H0 (or_introl eq_refl)); lia.
    destruct (IH (cur + 1) (f cur) Hw') as (entries & last & -> & He & Hr & Hl & Hm & Hfull). cbn [mbind option_bind].
    rewrite i32_small by lia. exists (Some (f cur - curr_time) :: entries), last. split; [done|]. cbn [exact length].
    split_and!; [done|lia|done|constructor; [cbn; lia|done]|lia|lia|].
    intros Hall. rewrite Nat2Z.inj_succ, Hfull; [lia|]. intros q time Hq Hf0 Ht. apply Hall; [lia|done|]. right.
    destruct Ht as [->|(p & Hp & Hfp & ->)]; [exists cur; split_and!; done || lia|exists p; split_and!; done || lia].
Qed.

Lemma peek_not_received_spec f n slots max : forall cur, window f slots cur max ->
  exists k, peek_not_received n slots cur max = Some (Z.of_nat k) /\ (k <= n)%nat /\ cur + Z.of_nat k <= max /\
    (forall i, cur <= i < cur + Z.of_nat k -> f i = 0) /\ (cur < max -> f cur = 0 -> n <> O -> (0 < k)%nat).
Proof.
  induction n as [|n IH]; intros cur Hw; cbn [peek_not_received]; pose proof Hw as [Hs Hb].
  { exists 0%nat. split_and!; [done|lia|lia|intros; lia|done]. }
  destruct (Z.ltb_spec cur max) as [Hlt|Hge]; [|exists 0%nat; split_and!; [done|lia|lia|intros; lia|lia]].
  rewrite Hs by lia. cbn [mbind option_bind received_time_micros].
  destruct (Z.eqb_spec (f cur) 0) as [H0|H0]; [|exists 0%nat; split_and!; [done|lia|lia|intros; lia|done]].
  rewrite u64_small by (unfold is_u64; lia).
  destruct (IH (cur + 1)) as (k & -> & Hk & Hm & Hf & _); [split; [intros q Hq; apply Hs; lia|lia]|].
  cbn [mbind option_bind]. exists (S k). split_and!; [f_equal; lia|lia|lia| |lia].
  intros i Hi. destruct (decide (i = cur)) as [->|]; [done|]. apply Hf. lia.
Qed.

(** *** The builder *)

Definition entries_of (c : chunk) : list entry :=
  match c with Run n => replicate n None | Small l | Large l => l end.

Definition entries (cs : list chunk) : list entry := concat (map entries_of cs).

Lemma length_entries_of c : length (entries_of c) = width c.
Proof. destruct c; cbn; by rewrite ?length_replicate. Qed.

Lemma length_entries cs : length (entries cs) = total cs.
Proof. unfold entries, total. induction cs as [|c cs IH]; [done|]. cbn. by rewrite length_app, IH, length_entries_of. Qed.

Lemma entries_snoc cs c : entries (cs ++ [c]) = entries cs ++ entries_of c.
Proof. unfold entries. rewrite map_app, concat_app. cbn. by rewrite app_nil_r. Qed.

Lemma total_snoc cs c : total (cs ++ [c]) = (total cs + width c)%nat.
Proof. unfold total. rewrite map_app, list_sum_app. cbn. lia. Qed.

Lemma chunks_ok_snoc cs c : chunks_ok cs -> Forall full cs -> chunk_ok c -> chunks_ok (cs ++ [c]).
Proof.
  induction cs as [|x cs IH]; [done|]. intros (Hx & _ & Hcs) Hfull Hc. inversion Hfull as [|? ? Hf Hfs]; subst.
  cbn [app chunks_ok]. split_and!; [done|done|by apply IH].
Qed.

(** The builder [b] holds the chunks [cs] of a report that starts at [base]. *)
Record builds (b : Builder.t) (base ref : Z) (cs : list chunk) : Prop := {
  builds_count : mPacketStatusCount b = Z.of_nat (total cs);
  builds_headers : mBufHeaders b = headers cs;
  builds_stamps : mBufTimestamps b = stamps (all_temps cs);
  builds_ref : mRefTimeMicros b = ref;
  builds_base : cs <> [] -> mBaseSeq b = u16 base
}.

Lemma total_nil cs : chunks_ok cs -> total cs = 0%nat -> cs = [].
Proof.
  destruct cs as [|c cs]; [done|]. intros (Hc & _). unfold total. cbn. destruct c; cbn in *; lia.
Qed.

Lemma builds_add b base ref cs c : builds b base ref cs -> chunks_ok cs ->
  Z.of_nat (total (cs ++ [c])) < 2 ^ 16 ->
  builds (add (initBaseSeq b (base + Z.of_nat (total cs))) (header c) (stamps (temps c)) (Z.of_nat (width c)))
    base ref (cs ++ [c]).
Proof.
  intros [Hc Hh Hs Hr Hb] Hok Htot. rewrite total_snoc in Htot. unfold initBaseSeq.
  assert (forall b', mPacketStatusCount b' = mPacketStatusCount b -> mBufHeaders b' = mBufHeaders b ->
    mBufTimestamps b' = mBufTimestamps b -> mRefTimeMicros b' = mRefTimeMicros b -> mBaseSeq b' = u16 base ->
    builds (add b' (header c) (stamps (temps c)) (Z.of_nat (width c))) base ref (cs ++ [c])) as Hadd.
  { intros b' E1 E2 E3 E4 E5. unfold add. split; cbn [mPacketStatusCount mBufHeaders mBufTimestamps mRefTimeMicros mBaseSeq]; [| | | |done].
    - rewrite E1, Hc, total_snoc, u16_small; [lia|unfold is_u16; lia].
    - rewrite E2, Hh, Wire.writeU16_be. unfold headers. rewrite map_app, concat_app. cbn [map concat]. by rewrite app_nil_r.
    - rewrite E3, Hs. unfold all_temps, stamps. rewrite !map_app, !concat_app. cbn [map concat]. rewrite app_nil_r. by rewrite map_app, concat_app.
    - by rewrite E4. }
  destruct (Z.eqb_spec (mPacketStatusCount b) 0) as [E|E]; apply Hadd; try done.
  - assert (cs = []) as -> by (apply total_nil; [done|lia]). cbn [mBaseSeq]. by rewrite Z.add_0_r.
  - apply Hb. intros ->. apply E. rewrite Hc. done.
Qed.

(** The deltas of a chunk are written as [stamps] says. *)
Lemma deltas_stamps lo hi symbol write n entries :
  (forall buf v, write buf v = buf ++ be_bytes n v) -> (forall d, stamp (symbol, d) = be_bytes n (Z.quot d 250)) ->
  Forall (in_range lo hi) entries -> forall buf, deltas lo hi write buf entries = Some (buf ++ stamps (map (temp symbol) entries)).
Proof.
  intros Hw Hst. induction 1 as [|[d|] l Hd Hl IH]; intros buf; cbn [deltas].
  - by rewrite app_nil_r.
  - cbn [in_range] in Hd. destruct (Z.leb_spec lo d), (Z.leb_spec d hi); try lia. cbn [andb guard_true mbind option_bind].
    rewrite IH, Hw. unfold stamps. cbn [map concat temp]. rewrite Hst, (Z.mul_comm 250), Z.quot_mul by lia.
    by rewrite <- app_assoc.
  - by rewrite IH.
Qed.

Lemma small_added b first l : Forall (in_range kMinSmallDeltaMicros kMaxSmallDeltaMicros) l -> (length l <= 14)%nat ->
  addSmallDeltaRun b first l =
    Some (add (initBaseSeq b first) (header (Small l)) (stamps (temps (Small l))) (Z.of_nat (width (Small l)))).
Proof.
  intros Hl Hlen. unfold addSmallDeltaRun. destruct (Nat.leb_spec (length l) 14); [|lia]. cbn [guard_true mbind option_bind].
  rewrite (deltas_stamps _ _ kSTATUS_RECEIVED_SMALL_DELTA _ 1 l Wire.writeU8_be); [|done|done]. done.
Qed.

Lemma large_added b first l : Forall (in_range kMinLargeDeltaMicros kMaxLargeDeltaMicros) l -> (length l <= 7)%nat ->
  addLargeDeltaRun b first l =
    Some (add (initBaseSeq b first) (header (Large l)) (stamps (temps (Large l))) (Z.of_nat (width (Large l)))).
Proof.
  intros Hl Hlen. unfold addLargeDeltaRun. destruct (Nat.leb_spec (length l) 7); [|lia]. cbn [guard_true mbind option_bind].
  rewrite (deltas_stamps _ _ kSTATUS_RECEIVED_LARGE_DELTA _ 2 l Wire.writeU16_be); [|done|done]. done.
Qed.

Lemma run_added b first n : 0 < Z.of_nat n <= 8191 ->
  addNotReceivedRun b first (Z.of_nat n) =
    Some (add (initBaseSeq b first) (header (Run n)) (stamps (temps (Run n))) (Z.of_nat (width (Run n)))).
Proof.
  intros Hn. unfold addNotReceivedRun. destruct (Z.leb_spec (Z.of_nat n) 8191); [|lia]. cbn [guard_true mbind option_bind].
  change (Z.lor (Z.shiftl kCHUNK_RUN_LENGTH 15) (Z.shiftl kSTATUS_NOT_RECEIVED 13)) with 0. rewrite Z.lor_0_l, u16_small by (unfold is_u16; lia).
  do 2 f_equal. unfold stamps. cbn [temps]. clear. induction n as [|n IH]; [done|]. cbn [replicate map concat]. by rewrite <- IH.
Qed.

(** A report in the making: the packets from [base] to [m], the last received
    at [time]. *)
Record building (f : Z -> Z) (b : Builder.t) (base q : Z) (cs : list chunk) (m time : Z) : Prop := {
  building_builds : builds b base (kReferenceTimeUnits * q) cs;
  building_next : base + Z.of_nat (total cs) = m;
  building_ok : chunks_ok cs;
  building_exact : exact f base (kReferenceTimeUnits * q) (entries cs) time;
  building_q : 0 <= q < 2 ^ 24
}.

Lemma building_add f b base q cs m time c time' :
  building f b base q cs m time -> Forall full cs -> chunk_ok c -> exact f m time (entries_of c) time' ->
  m + Z.of_nat (width c) - base < 2 ^ 16 ->
  building f (add (initBaseSeq b m) (header c) (stamps (temps c)) (Z.of_nat (width c))) base q (cs ++ [c])
    (m + Z.of_nat (width c)) time'.
Proof.
  intros [Hb <- Hok He Hq] Hfull Hc Hx Hs. split; [| | | |done].
  - apply builds_add; [done|done|]. rewrite total_snoc. lia.
  - rewrite total_snoc. lia.
  - by apply chunks_ok_snoc.
  - rewrite entries_snoc. eapply exact_app; [exact He|]. by rewrite length_entries.
Qed.

(** *** Whole reports *)

Record report := mkReport { rep_base : Z; rep_fb : Z; rep_ref : Z; rep_chunks : list chunk }.

Definition encode (r : report) : list Z :=
  be_bytes 2 (u16 (rep_base r)) ++ be_bytes 2 (Z.of_nat (total (rep_chunks r))) ++ be_bytes 4 (rep_ref r * 2 ^ 8 + rep_fb r) ++
  headers (rep_chunks r) ++ stamps (all_temps (rep_chunks r)).

(** What a report says of the arrival times [f] is true. *)
Record report_good (f : Z -> Z) (r : report) : Prop := {
  good_chunks : chunks_ok (rep_chunks r);
  good_size : 0 < Z.of_nat (total (rep_chunks r)) < 2 ^ 16;
  good_fb : is_u8 (rep_fb r);
  good_ref : 0 <= rep_ref r < 2 ^ 24;
  good_exact : exists cur', exact f (rep_base r) (kReferenceTimeUnits * rep_ref r) (entries (rep_chunks r)) cur'
}.

(** Reports one after the other about the packets from [lo] to [hi]. *)
Fixpoint covers (f : Z -> Z) (lo : Z) (reps : list report) (hi : Z) : Prop :=
  match reps with
  | [] => lo = hi
  | r :: rest => rep_base r = lo /\ report_good f r /\ covers f (lo + Z.of_nat (total (rep_chunks r))) rest hi
  end.

Lemma covers_snoc f reps r : forall lo hi, covers f lo reps hi -> rep_base r = hi -> report_good f r ->
  covers f lo (reps ++ [r]) (hi + Z.of_nat (total (rep_chunks r))).
Proof.
  induction reps as [|x reps IH]; intros lo hi Hc Hb Hr; cbn [covers app] in *.
  - subst lo. split_and!; [done|done|done].
  - destruct Hc as (H1 & H2 & H3). split_and!; [done|done|by apply IH].
Qed.

Lemma generate_encode b base q cs fb : builds b base (kReferenceTimeUnits * q) cs -> cs <> [] -> 0 <= q < 2 ^ 24 -> is_u8 fb ->
  Builder.generate b fb = encode (mkReport base fb q cs).
Proof.
  intros [Hc Hh Hs Hr Hb] Hne Hq Hfb. unfold is_u8 in Hfb. unfold Builder.generate, encode. cbn [rep_base rep_fb rep_ref rep_chunks].
  rewrite Hb, Hc, Hh, Hs, Hr by done. rewrite (Z.mul_comm kReferenceTimeUnits), Z.quot_mul by done.
  rewrite lor_shiftl_add, u32_small by (unfold is_u32; lia).
  rewrite Wire.writeU32_be, !Wire.writeU16_be. unfold ByteWriter.write. by rewrite <- !app_assoc.
Qed.

(** *** The loop *)

(** The arrival times of the packets from [lo] to [max] (0: not received): times
    that 24 bits of 64 milliseconds hold, within eight seconds of each other. *)
Record arrivals_ok (f : Z -> Z) (lo max : Z) : Prop := {
  arrivals_time : forall i, lo <= i < max -> 0 <= f i < 2 ^ 24 * kReferenceTimeUnits;
  arrivals_spread : forall i j, lo <= i < max -> lo <= j < max -> f i <> 0 -> f j <> 0 -> f i - f j <= 8000 * 1000;
  arrivals_size : 0 <= lo <= max /\ max - lo <= 2048
}.

(** The state of the loop: reports [reps] are done, the next one has [cs]. *)
Record progress (f : Z -> Z) (lo max : Z) (r : reporting) (reps : list report) (base q : Z) (cs : list chunk) : Prop := {
  pr_window : tight f (slots r) (min r) max;
  pr_low : lo <= base;
  pr_building : building f (builder r) base q cs (min r) (curr_time r);
  pr_full : min r < max -> Forall full cs;
  pr_time : (curr_time r = 0 /\ q = 0 /\ Forall (fun e => e = None) (entries cs)) \/
            (exists j, lo <= j < min r /\ f j <> 0 /\ curr_time r = f j);
  pr_fb : is_u8 (fb_count r);
  pr_reports : reports r = map encode reps;
  pr_covers : covers f lo reps base;
  pr_lengths : Forall (fun l => length l <= 1020)%nat (reports r)
}.

Lemma exact_start f m : exact f m (kReferenceTimeUnits * 0) [] 0.
Proof. done. Qed.

Lemma flush_progress f lo max r reps base q cs :
  progress f lo max r reps base q cs -> cs <> [] -> (Builder.size (builder r) <= 1018)%nat -> max - lo <= 2048 ->
  progress f lo max (flush r) (reps ++ [mkReport base (fb_count r) q cs]) (min r) 0 [].
Proof.
  intros [Hw Hlow Hbu Hfull Ht Hfb Hr Hc Hlen] Hne Hsize Hspan. pose proof Hbu as [Hb Hn Hok He Hq].
  assert (0 < Z.of_nat (total cs)) as Hpos.
  { destruct (total cs) eqn:E; [|lia]. by apply total_nil in E. }
  pose proof (window_size _ _ _ _ Hw) as Hws.
  split; cbn [flush slots min curr_time builder fb_count reports].
  - done.
  - lia.
  - split; [by split|cbn; lia|done|apply exact_start|lia].
  - intros _. constructor.
  - left. split_and!; [done|done|constructor].
  - apply u8_range.
  - rewrite map_app, Hr. cbn [map]. by rewrite (generate_encode _ base q cs).
  - rewrite <- Hn. apply (covers_snoc f reps (mkReport base (fb_count r) q cs) lo base); [done|done|].
    split; [done|cbn [rep_chunks]; lia|done|done|by eexists].
  - apply Forall_app. split; [done|]. constructor; [|done]. rewrite (generate_encode _ base q cs) by done.
    destruct Hb as [B1 B2 B3 B4 B5]. unfold encode. cbn [rep_base rep_chunks rep_ref rep_fb].
    rewrite !length_app, !length_be_bytes, <- B2, <- B3. unfold Builder.size in Hsize. lia.
Qed.

Lemma stamps_temps_length c : chunk_ok c -> (length (stamps (temps c)) <= 14)%nat.
Proof.
  assert (forall symbol n l, (forall d, length (stamp (symbol, d)) <= n)%nat ->
    (length (stamps (map (temp symbol) l)) <= n * length l)%nat) as Hmap.
  { intros symbol n l Hst. unfold stamps. induction l as [|[d|] l IH]; [cbn; lia| |];
      cbn [map concat length]; rewrite length_app.
    - specialize (Hst (250 * Z.quot d 250)). cbn [temp]. lia.
    - change (stamp (temp symbol None)) with (@nil Z). cbn [length]. lia. }
  destruct c as [n|l|l]; cbn [chunk_ok temps]; intros Hc.
  - unfold stamps. clear Hc. induction n as [|n IH]; [cbn; lia|]. cbn [replicate map concat]. by rewrite length_app.
  - specialize (Hmap kSTATUS_RECEIVED_SMALL_DELTA 1%nat l). cbn in Hmap. specialize (Hmap ltac:(intros; cbn; lia)). lia.
  - specialize (Hmap kSTATUS_RECEIVED_LARGE_DELTA 2%nat l). cbn in Hmap. specialize (Hmap ltac:(intros; cbn; lia)). lia.
Qed.

(** A chunk is added, and the packets it covers leave the window. *)
Lemma add_progress f lo max r reps base q cs c time' :
  progress f lo max r reps base q cs -> min r < max -> chunk_ok c -> min r + Z.of_nat (width c) <= max ->
  max - lo <= 2048 -> (min r + Z.of_nat (width c) < max -> full c) ->
  forall time q', 0 <= q' < 2 ^ 24 -> exact f base (kReferenceTimeUnits * q') (entries cs) time ->
  exact f (min r) time (entries_of c) time' ->
  (time' = 0 /\ q' = 0 /\ Forall (fun e => e = None) (entries (cs ++ [c])) \/
   exists j, lo <= j < min r + Z.of_nat (width c) /\ f j <> 0 /\ time' = f j) ->
  forall b, (b = builder r \/ exists ref, Builder.setReferenceTime (builder r) ref = Some b) ->
  mRefTimeMicros b = kReferenceTimeUnits * q' ->
  exists r', after_run r max time' (Z.of_nat (width c))
      (add (initBaseSeq b (min r)) (header c) (stamps (temps c)) (Z.of_nat (width c))) = Some r' /\
    progress f lo max r' reps base q' (cs ++ [c]) /\ min r' = min r + Z.of_nat (width c) /\
    (Builder.size (builder r') <= Builder.size (builder r) + 16)%nat.
Proof.
  intros [Hw Hlow Hbu Hfull Ht Hfb Hr Hc Hlen] Hlt Hck Hmax Hspan Hf time q' Hq' He Hx Hj b Hb Href.
  destruct Hbu as [[B1 B2 B3 B4 B5] Hn Hok _ _].
  assert (builds b base (kReferenceTimeUnits * q') cs /\ Builder.size b = Builder.size (builder r)) as [Hbb Hsz].
  { destruct Hb as [->|(ref & Eb)]; [by split|]. unfold setReferenceTime in Eb.
    apply bind_Some_inv in Eb as (? & _ & [= <-]). by split. }
  assert (building f b base q' cs (min r) time) as Hbuild by (by split).
  pose proof (building_add f b base q' cs (min r) time c time' Hbuild (Hfull Hlt) Hck Hx ltac:(lia)) as Hnew.
  unfold after_run. rewrite Nat2Z.id.
  destruct (advance_tight f (width c) (slots r) (min r) max Hw Hmax) as (slots' & -> & Hw'). cbn [mbind option_bind].
  eexists. split; [done|]. split; [|split; [done|]].
  - split; cbn [slots min curr_time builder fb_count reports]; try done.
    intros Hlt'. apply Forall_app. split; [by apply Hfull|]. constructor; [by apply Hf|constructor].
  - cbn [builder]. rewrite <- Hsz. pose proof (stamps_temps_length c Hck) as Hst. unfold Builder.size, add, initBaseSeq.
    destruct (mPacketStatusCount b =? 0); cbn [mBufHeaders mBufTimestamps];
      rewrite Wire.writeU16_be, !length_app, length_be_bytes; lia.
Qed.

(** The last time of a run that begins with a received packet. *)
Lemma exact_last f l : forall seq cur cur', exact f seq cur l cur' ->
  (cur' = cur /\ Forall (fun e => e = None) l) \/
  (exists j, seq <= j < seq + Z.of_nat (length l) /\ f j <> 0 /\ cur' = f j).
Proof.
  induction l as [|[d|] l IH]; intros seq cur cur' He; cbn [exact length] in *.
  - left. split; [done|constructor].
  - right. destruct He as (H0 & _ & He). destruct (IH _ _ _ He) as [[-> _]|(j & Hj & Hfj & ->)].
    + exists seq. split_and!; done || lia.
    + exists j. split_and!; done || lia.
  - destruct He as (H0 & He). destruct (IH _ _ _ He) as [[-> Hl]|(j & Hj & Hfj & ->)].
    + left. split; [done|]. by constructor.
    + right. exists j. split_and!; done || lia.
Qed.

Lemma exact_received f l seq cur cur' : exact f seq cur l cur' -> f seq <> 0 -> l <> [] ->
  exists j, seq <= j < seq + Z.of_nat (length l) /\ f j <> 0 /\ cur' = f j.
Proof.
  intros He Hf Hl. destruct l as [|[d|] l]; [done| |by destruct He as [? _]].
  destruct He as (_ & _ & He). cbn [length]. destruct (exact_last _ _ _ _ _ He) as [[-> _]|(j & Hj & Hfj & ->)].
  - exists seq. split_and!; done || lia.
  - exists j. split_and!; done || lia.
Qed.

(** The reference of the deltas of the next run. *)
Lemma reference_time f lo max r reps base q cs : arrivals_ok f lo max -> progress f lo max r reps base q cs ->
  min r < max -> f (min r) <> 0 ->
  let first := curr_time r =? 0 in
  let time := if first then Z.quot (f (min r)) kReferenceTimeUnits * kReferenceTimeUnits else curr_time r in
  exists b q', (if first then Builder.setReferenceTime (builder r) time else Some (builder r)) = Some b /\
    (b = builder r \/ exists ref, Builder.setReferenceTime (builder r) ref = Some b) /\
    mRefTimeMicros b = kReferenceTimeUnits * q' /\ 0 <= q' < 2 ^ 24 /\
    exact f base (kReferenceTimeUnits * q') (entries cs) time /\
    (forall j, lo <= j < max -> f j <> 0 -> - 8000000 <= f j - time <= 8064000).
Proof.
  intros [Ha Hs Hz] [Hw Hlow [[B1 B2 B3 B4 B5] Hn Hok He Hq] Hfull Ht _ _ _ _] Hlt Hf first time.
  assert (lo <= min r < max) as Hmin by lia. pose proof (Ha _ Hmin) as Hfm.
  destruct Ht as [(E0 & -> & Hnone)|(j & Hj & Hfj & Ej)].
  - subst first time. rewrite E0, Z.eqb_refl. set (q' := Z.quot (f (min r)) kReferenceTimeUnits).
    assert (0 <= q' < 2 ^ 24 /\ 0 <= f (min r) - q' * kReferenceTimeUnits < kReferenceTimeUnits) as [Hq' Hr].
    { unfold q', kReferenceTimeUnits in *. Z.quot_rem_to_equations. lia. }
    unfold setReferenceTime. rewrite Z.rem_mul by done. cbn [Z.eqb guard_true mbind option_bind].
    eexists _, q'. split; [done|]. split; [right; eexists; unfold setReferenceTime; by rewrite Z.rem_mul|].
    cbn [mRefTimeMicros]. split; [lia|]. split; [done|]. split.
    + rewrite Z.mul_comm. by eapply exact_rebase.
    + intros i Hi Hfi. pose proof (Hs i (min r) Hi Hmin Hfi Hf). pose proof (Hs (min r) i Hmin Hi Hf Hfi).
      unfold kReferenceTimeUnits in *. lia.
  - subst first time. destruct (Z.eqb_spec (curr_time r) 0); [congruence|].
    exists (builder r), q. split_and!; [done|by left|done|lia|lia|done|].
    intros i Hi Hfi. pose proof (Hs i j Hi ltac:(lia) Hfi Hfj). pose proof (Hs j i ltac:(lia) Hi Hfj Hfi). lia.
Qed.

Lemma received_round f lo max r reps base q cs : arrivals_ok f lo max -> progress f lo max r reps base q cs ->
  min r < max -> f (min r) <> 0 ->
  exists r' q' c, report_received r max (mkPacket (min r) (f (min r))) = Some r' /\
    progress f lo max r' reps base q' (cs ++ [c]) /\ min r < min r' <= max /\
    (Builder.size (builder r') <= Builder.size (builder r) + 16)%nat.
Proof.
  intros Ha Hp Hlt Hf. pose proof (arrivals_size _ _ _ Ha) as Hz. pose proof (tight_window _ _ _ _ (pr_window _ _ _ _ _ _ _ _ Hp)) as Hw.
  pose proof (window_size _ _ _ _ Hw) as Hws.
  destruct (reference_time f lo max r reps base q cs Ha Hp Hlt Hf) as (b & q' & Eb & Hb & Href & Hq' & Hx & Hrange).
  unfold report_received. cbn [received_time_micros seq_ext]. cbv zeta in Eb |- *. rewrite Eb. cbn [mbind option_bind slots min].
  set (time := if curr_time r =? 0 then Z.quot (f (min r)) kReferenceTimeUnits * kReferenceTimeUnits else curr_time r) in *.
  assert (forall c last, chunk_ok c -> exact f (min r) time (entries_of c) last -> min r + Z.of_nat (width c) <= max ->
    (min r + Z.of_nat (width c) < max -> full c) ->
    exists r' q'0 c0, after_run (mkReporting (slots r) (min r) time b (fb_count r) (reports r)) max last (Z.of_nat (width c))
        (add (initBaseSeq b (min r)) (header c) (stamps (temps c)) (Z.of_nat (width c))) = Some r' /\
      progress f lo max r' reps base q'0 (cs ++ [c0]) /\ min r < min r' <= max /\
      (Builder.size (builder r') <= Builder.size (builder r) + 16)%nat) as Hadd.
  { intros c last Hc He Hm Hfull.
    assert (0 < Z.of_nat (width c)) as Hpos by (destruct c; cbn in *; lia).
    destruct (add_progress f lo max r reps base q cs c last Hp Hlt Hc Hm ltac:(lia) Hfull time q' Hq' Hx He) with (b := b)
      as (r' & E & Hp' & Hmin & Hsize); [|done|done|].
    - right. destruct (exact_received f (entries_of c) (min r) time last He Hf) as (j & Hj & Hfj & ->).
      { intros E. pose proof (length_entries_of c) as Hl. rewrite E in Hl. cbn in Hl. lia. }
      rewrite length_entries_of in Hj. pose proof (pr_low _ _ _ _ _ _ _ _ Hp).
      pose proof (building_next _ _ _ _ _ _ _ (pr_building _ _ _ _ _ _ _ _ Hp)). exists j. split_and!; done || lia.
    - exists r', q', c. split_and!; [exact E|done|lia|lia|done]. }
  destruct (peek_run_spec f kMinSmallDeltaMicros kMaxSmallDeltaMicros 14 (slots r) max) with (cur := min r) (curr_time := time)
    as (small & small_time & Es & He & Hr & Hl & Hm & _); [done|done|done|].
  unfold peekSmallDeltaRun. rewrite Es. cbn [mbind option_bind]. rewrite u64_small by (unfold is_u64; lia).
  destruct ((Z.of_nat (length small) =? 14) || (min r + Z.of_nat (length small) =? max)) eqn:Efit.
  - rewrite small_added by done. cbn [mbind option_bind].
    apply (Hadd (Small small)); [|done|done|]; cbn [chunk_ok width full]; apply orb_true_iff in Efit; rewrite !Z.eqb_eq in Efit; [|lia].
    split; [lia|done].
  - destruct (peek_run_spec f kMinLargeDeltaMicros kMaxLargeDeltaMicros 7 (slots r) max) with (cur := min r) (curr_time := time)
      as (large & large_time & El & He' & Hr' & Hl' & Hm' & Hall); [done|done|done|].
    unfold peekLargeDeltaRun. rewrite El. cbn [mbind option_bind]. rewrite u64_small by (unfold is_u64; lia).
    assert (Z.of_nat (length large) = Z.min 7 (max - min r)) as Hcount.
    { apply Hall. intros p t Hp' Hfp Ht. pose proof (pr_low _ _ _ _ _ _ _ _ Hp).
      pose proof (building_next _ _ _ _ _ _ _ (pr_building _ _ _ _ _ _ _ _ Hp)).
      assert (- 8000000 <= f p - t <= 8064000); [|unfold kMinLargeDeltaMicros, kMaxLargeDeltaMicros; lia].
      destruct Ht as [->|(i & Hi & Hfi & ->)]; [apply Hrange; done || lia|].
      destruct Ha as [_ Hs _]. pose proof (Hs p i ltac:(lia) ltac:(lia) Hfp Hfi). pose proof (Hs i p ltac:(lia) ltac:(lia) Hfi Hfp). lia. }
    assert ((Z.of_nat (length large) =? 7) || (min r + Z.of_nat (length large) =? max) = true) as ->
      by (apply orb_true_iff; rewrite !Z.eqb_eq; lia).
    rewrite large_added by done. cbn [mbind option_bind].
    apply (Hadd (Large large)); [|done|done|]; cbn [chunk_ok width full]; [|lia]. split; [lia|done].
Qed.

Lemma run_round f lo max r reps base q cs : arrivals_ok f lo max -> progress f lo max r reps base q cs ->
  min r < max -> f (min r) = 0 ->
  exists count b r' c, peekNotReceivedRun (slots r) (min r) max = Some count /\ 1 <= count <= 8191 /\
    Builder.addNotReceivedRun (builder r) (min r) count = Some b /\ after_run r max (curr_time r) count b = Some r' /\
    progress f lo max r' reps base q (cs ++ [c]) /\ min r < min r' <= max /\
    (Builder.size (builder r') <= Builder.size (builder r) + 16)%nat.
Proof.
  intros Ha Hp Hlt Hf. pose proof (arrivals_size _ _ _ Ha) as Hz. pose proof (tight_window _ _ _ _ (pr_window _ _ _ _ _ _ _ _ Hp)) as Hw.
  pose proof (window_size _ _ _ _ Hw) as Hws. pose proof (pr_building _ _ _ _ _ _ _ _ Hp) as Hbu.
  destruct (peek_not_received_spec f (Z.to_nat 8191) (slots r) max (min r) Hw) as (k & Ek & Hk & Hm & Hfk & Hpos).
  specialize (Hpos Hlt Hf ltac:(lia)). exists (Z.of_nat k).
  destruct (add_progress f lo max r reps base q cs (Run k) (curr_time r) Hp Hlt) with (time := curr_time r) (q' := q) (b := builder r)
    as (r' & E & Hp' & Hmin & Hsize).
  - cbn. lia.
  - done.
  - lia.
  - done.
  - apply (building_q _ _ _ _ _ _ _ Hbu).
  - apply (building_exact _ _ _ _ _ _ _ Hbu).
  - by apply exact_none.
  - destruct (pr_time _ _ _ _ _ _ _ _ Hp) as [(H1 & H2 & H3)|(j & Hj & Hfj & Ej)]; [left|right].
    + split_and!; [done|done|]. rewrite entries_snoc. apply Forall_app. split; [done|]. by apply Forall_replicate.
    + exists j. split_and!; done || lia.
  - by left.
  - apply (builds_ref _ _ _ _ (building_builds _ _ _ _ _ _ _ Hbu)).
  - eexists _, r', (Run k). split; [exact Ek|]. split; [lia|]. split; [apply run_added; lia|].
    split; [exact E|]. cbn [width] in Hmin. split_and!; [done|lia|lia|done].
Qed.

Lemma round_progress f lo max r reps base q cs : arrivals_ok f lo max -> progress f lo max r reps base q cs ->
  (Builder.size (builder r) < kMaxPacketSize)%nat -> min r < max ->
  exists r' reps' base' q' cs', report_round r max = Some r' /\ progress f lo max r' reps' base' q' cs' /\
    (Builder.size (builder r') < kMaxPacketSize)%nat /\ min r < min r' <= max.
Proof.
  intros Ha Hp Hsize Hlt. pose proof (arrivals_size _ _ _ Ha) as Hz.
  pose proof (window_slots _ _ _ _ (pr_window _ _ _ _ _ _ _ _ Hp)) as Hw.
  assert (exists r1 q1 c, (packet ← slots r !! index (min r);
      if received_time_micros packet =? 0 then
        count ← peekNotReceivedRun (slots r) (min r) max;
        _ ← guard_true ((1 <=? count) && (count <=? 8191));
        b ← Builder.addNotReceivedRun (builder r) (seq_ext packet) count;
        after_run r max (curr_time r) count b
      else report_received r max packet) = Some r1 /\
    progress f lo max r1 reps base q1 (cs ++ [c]) /\ min r < min r1 <= max /\
    (Builder.size (builder r1) <= Builder.size (builder r) + 16)%nat) as (r1 & q1 & c & E & Hp1 & Hm1 & Hs1).
  { rewrite Hw by lia. cbn [mbind option_bind received_time_micros seq_ext].
    destruct (Z.eqb_spec (f (min r)) 0) as [H0|H0].
    - destruct (run_round f lo max r reps base q cs Ha Hp Hlt H0) as (count & b & r' & c & -> & Hc & Eb & Er & Hp' & Hm & Hs).
      cbn [mbind option_bind]. destruct (Z.leb_spec 1 count), (Z.leb_spec count 8191); try lia.
      cbn [andb guard_true mbind option_bind]. rewrite Eb. cbn [mbind option_bind]. by exists r', q, c.
    - destruct (received_round f lo max r reps base q cs Ha Hp Hlt H0) as (r' & q' & c & -> & Hrest). by exists r', q', c. }
  unfold report_round. rewrite Hw in E |- * by lia. cbn [mbind option_bind] in E |- *. rewrite E. cbn [mbind option_bind].
  unfold kMaxPacketSize in *. destruct (Nat.leb_spec 1000 (Builder.size (builder r1))).
  - eexists _, _, _, _, _. split; [done|]. split; [apply (flush_progress f lo max r1 reps base q1 (cs ++ [c]) Hp1)|].
    + by destruct cs.
    + lia.
    + lia.
    + split; [cbn; lia|done].
  - by eexists _, _, _, _, _.
Qed.

Lemma loop_progress f lo max fuel : arrivals_ok f lo max -> forall r reps base q cs,
  progress f lo max r reps base q cs -> (Builder.size (builder r) < kMaxPacketSize)%nat ->
  min r <= max -> max - min r <= Z.of_nat fuel ->
  exists r' reps' base' q' cs', report_loop fuel r max = Some r' /\ progress f lo max r' reps' base' q' cs' /\
    (Builder.size (builder r') < kMaxPacketSize)%nat /\ min r' = max.
Proof.
  intros Ha. induction fuel as [|fuel IH]; intros r reps base q cs Hp Hsize Hm Hfuel; cbn [report_loop];
    (destruct (Z.ltb_spec (min r) max) as [Hlt|Hge]; [|by exists r, reps, base, q, cs; split_and!; [done..|lia]]); [lia|].
  destruct (round_progress f lo max r reps base q cs Ha Hp Hsize Hlt) as (r1 & reps1 & base1 & q1 & cs1 & -> & Hp1 & Hs1 & Hm1).
  cbn [mbind option_bind]. apply (IH r1 reps1 base1 q1 cs1); [done|done|lia|lia].
Qed.

Lemma empty_builder b base ref cs : builds b base ref cs -> Builder.empty b = true <-> cs = [].
Proof.
  intros [_ Hh Hs _ _]. unfold Builder.empty. rewrite Hh, Hs, andb_true_iff, !bool_decide_eq_true. split.
  - intros [E _]. destruct cs as [|c cs]; [done|]. apply (f_equal length) in E. rewrite length_headers in E. cbn in E. lia.
  - by intros ->.
Qed.

(** The subscriber's window, with its arrival times. *)
Record holds (f : Z -> Z) (s : SubscribePacketHistory.t) : Prop := {
  holds_window : tight f (default ∅ (mPacketList s)) (mMinSeq s) (mMaxSeq s);
  holds_fb : is_u8 (mFbCount s)
}.

Lemma tight_empty f max : 0 <= max < 2 ^ 63 -> tight f ∅ max max.
Proof.
  intros Hm. split; [split; lia|]. intros j [x Hx]. by rewrite lookup_empty in Hx.
Qed.

(** The state after the loop, whether or not there is an array. *)
Lemma holds_done f (o : option (gmap Z SubscribePacket)) slots m b last gen e fb : tight f slots m m -> is_u8 fb ->
  holds f (SubscribePacketHistory.mk b last gen e (if o then Some slots else None) m m fb).
Proof.
  intros Hw Hfb. split; [|done]. cbn [mPacketList mMinSeq mMaxSeq]. destruct o; [done|]. apply tight_empty.
  pose proof (window_size _ _ _ _ Hw). lia.
Qed.

Lemma generate_reports f s now : holds f s -> arrivals_ok f (mMinSeq s) (mMaxSeq s) ->
  exists reps s', SubscribePacketHistory.generate s now = Some (map encode reps, s') /\ covers f (mMinSeq s) reps (mMaxSeq s) /\
    Forall (fun l => length l <= 1020)%nat (map encode reps) /\ mMinSeq s' = mMaxSeq s /\ mMaxSeq s' = mMaxSeq s /\
    mLastGeneratedMicros s' = now /\ holds f s' /\ mExtendedValueSeq s' = mExtendedValueSeq s.
Proof.
  intros [Hw Hfb] Ha. unfold SubscribePacketHistory.generate. pose proof (window_size _ _ _ _ Hw) as Hws.
  match goal with |- context [report_loop _ ?r0 _] => set (r := r0) end.
  assert (progress f (mMinSeq s) (mMaxSeq s) r [] (mMinSeq s) 0 []) as Hp.
  { split; cbn; [done|lia| |by constructor| |done|done|done|constructor].
    - split; [by split|cbn; lia|done|done|lia].
    - left. split_and!; [done|done|constructor]. }
  destruct (loop_progress f (mMinSeq s) (mMaxSeq s) (rounds s) Ha r [] (mMinSeq s) 0 [] Hp)
    as (r' & reps & base & q & cs & -> & Hp' & Hsize & Hmin).
  - cbn. unfold kMaxPacketSize. lia.
  - cbn. lia.
  - cbn. unfold rounds. lia.
  - cbn [mbind option_bind]. pose proof (building_builds _ _ _ _ _ _ _ (pr_building _ _ _ _ _ _ _ _ Hp')) as Hb.
    pose proof (empty_builder _ _ _ _ Hb) as Hempty. destruct (Builder.empty (builder r')) eqn:Ee.
    + assert (cs = []) as -> by (by apply Hempty). rewrite (pr_reports _ _ _ _ _ _ _ _ Hp').
      pose proof (pr_covers _ _ _ _ _ _ _ _ Hp') as Hc. pose proof (pr_lengths _ _ _ _ _ _ _ _ Hp') as Hlen.
      rewrite (pr_reports _ _ _ _ _ _ _ _ Hp') in Hlen.
      pose proof (building_next _ _ _ _ _ _ _ (pr_building _ _ _ _ _ _ _ _ Hp')) as Hn. cbn in Hn.
      eexists reps, _. split; [done|]. cbn [mMinSeq mMaxSeq mLastGeneratedMicros mExtendedValueSeq].
      split_and!; [by replace (mMaxSeq s) with base by lia|done|done|done|done| |done].
      rewrite Hmin. apply holds_done; [|apply Hp']. rewrite <- Hmin at 1. apply Hp'.
    + assert (cs <> []) as Hne by (intros E; by apply Hempty in E).
      pose proof (flush_progress f (mMinSeq s) (mMaxSeq s) r' reps base q cs Hp' Hne ltac:(unfold kMaxPacketSize in Hsize; lia)
        ltac:(lia)) as Hp''. pose proof (pr_reports _ _ _ _ _ _ _ _ Hp'') as Hr. pose proof (pr_lengths _ _ _ _ _ _ _ _ Hp'') as Hlen.
      rewrite Hr in *. eexists _, _. split; [done|].
      cbn [mMinSeq mMaxSeq mLastGeneratedMicros mExtendedValueSeq min slots fb_count flush].
      split_and!; [|done|done|done|done| |done].
      * rewrite <- Hmin. apply (pr_covers _ _ _ _ _ _ _ _ Hp'').
      * rewrite Hmin. apply holds_done; [|apply u8_range]. rewrite <- Hmin at 1. apply Hp'.
Qed.

End Reporting.

(** ** What the publisher learns *)

Module Learning.
Import RtpExtensionSourceTWCC Report Reporting History.

(** *** The window of the publisher *)

Definition inside (h : PublishPacketHistory.t) (seq : Z) : Prop :=
  u16 (seq - PublishPacketHistory.mMinSeq h) <= u16 (PublishPacketHistory.mMaxSeq h - PublishPacketHistory.mMinSeq h).

#[local] Instance inside_dec h seq : Decision (inside h seq).
Proof. unfold inside. apply _. Defined.

Lemma get_inside h slots seq : hist_ok h -> PublishPacketHistory.mPacketList h = Some slots -> is_u16 seq ->
  PublishPacketHistory.get h seq = if decide (inside h seq) then Some (PublishPacketHistory.index seq) else None.
Proof.
  intros [Hmin Hmax _] Hl Hs. unfold PublishPacketHistory.get, inside. rewrite Hl.
  set (min := PublishPacketHistory.mMinSeq h) in *. set (max := PublishPacketHistory.mMaxSeq h) in *.
  unfold is_u16, u16 in *. destruct (Z.leb_spec min max).
  - destruct (Z.leb_spec min seq), (Z.leb_spec seq max); cbn [andb]; (case_decide; [done || zdm|done || zdm]).
  - destruct (Z.leb_spec min seq), (Z.leb_spec seq max); cbn [orb]; (case_decide; [done || zdm|done || zdm]).
Qed.

(** At most 2048 numbers: no two share a slot. *)
Record ring (h : PublishPacketHistory.t) : Prop := {
  ring_ok : hist_ok h;
  ring_span : u16 (PublishPacketHistory.mMaxSeq h - PublishPacketHistory.mMinSeq h) < 2048
}.

Lemma slot_mod seq : PublishPacketHistory.index seq = seq mod 2048.
Proof. unfold PublishPacketHistory.index. change PublishPacketHistory.kMaxPacketMask with (2 ^ 11 - 1). by rewrite land_ones_mod. Qed.

Lemma inside_slots h seq seq' : ring h -> is_u16 seq -> is_u16 seq' -> inside h seq -> inside h seq' -> seq <> seq' ->
  PublishPacketHistory.index seq <> PublishPacketHistory.index seq'.
Proof.
  intros [[Hmin Hmax _] Hspan] Hs Hs' Hi Hi' Hne E. rewrite !slot_mod in E. unfold inside, is_u16, u16 in *.
  apply Hne. zdm.
Qed.

(** *** Times *)

(** The times a report gives, from the reference on. *)
Fixpoint decode (from : Z) (l : list TempPacket) : list (option Z) :=
  match l with
  | [] => []
  | (status, delta) :: rest =>
      if isReceivedWithTime status then Some (from + delta) :: decode (from + delta) rest
      else None :: decode from rest
  end.

Lemma decode_entries symbol l : isReceivedWithTime symbol = true -> forall from k,
  decode from (map (temp symbol) l ++ k) =
  decode from (map (temp kSTATUS_RECEIVED_SMALL_DELTA) l) ++
  decode (from + foldr (fun e sum => match e with Some d => 250 * Z.quot d 250 + sum | None => sum end) 0 l) k.
Proof.
  intros Hs. induction l as [|[d|] l IH]; intros from k; cbn [map app foldr].
  - by rewrite Z.add_0_r.
  - cbn [temp decode]. rewrite Hs. change (isReceivedWithTime kSTATUS_RECEIVED_SMALL_DELTA) with true. cbv iota.
    rewrite IH. cbn [app]. by rewrite Z.add_assoc.
  - cbn [temp decode]. change (isReceivedWithTime kSTATUS_NOT_RECEIVED) with false. cbv iota. by rewrite IH.
Qed.

(** The chunks do not matter, only what they say of the packets. *)
Lemma decode_chunks cs : forall from,
  decode from (all_temps cs) = decode from (map (temp kSTATUS_RECEIVED_SMALL_DELTA) (entries cs)).
Proof.
  induction cs as [|c cs IH]; intros from; [done|]. unfold all_temps, entries in *. cbn [map concat]. rewrite map_app.
  rewrite (decode_entries kSTATUS_RECEIVED_SMALL_DELTA) by done. destruct c as [n|l|l]; cbn [temps entries_of].
  - assert (replicate n (kSTATUS_NOT_RECEIVED, 0) = map (temp kSTATUS_RECEIVED_SMALL_DELTA) (replicate n None)) as ->
      by (clear; induction n as [|n IH]; [done|cbn; by rewrite IH]).
    rewrite (decode_entries kSTATUS_RECEIVED_SMALL_DELTA) by done. by rewrite IH.
  - rewrite (decode_entries kSTATUS_RECEIVED_SMALL_DELTA) by done. by rewrite IH.
  - rewrite (decode_entries kSTATUS_RECEIVED_LARGE_DELTA) by done. by rewrite IH.
Qed.

(** Each delta loses less than its unit. *)
Lemma decode_accurate f l : forall seq cur cur' from e, exact f seq cur l cur' -> Z.abs (cur - from) <= e ->
  forall i, (i < length l)%nat ->
    (f (seq + Z.of_nat i) = 0 /\ decode from (map (temp kSTATUS_RECEIVED_SMALL_DELTA) l) !! i = Some None) \/
    (f (seq + Z.of_nat i) <> 0 /\ exists t, decode from (map (temp kSTATUS_RECEIVED_SMALL_DELTA) l) !! i = Some (Some t) /\
       Z.abs (f (seq + Z.of_nat i) - t) <= e + 249 * (Z.of_nat i + 1)).
Proof.
  induction l as [|[d|] l IH]; intros seq cur cur' from e He Hcur i Hi; cbn [length] in Hi; [lia| |].
  - destruct He as (H0 & Hf & He). cbn [map temp decode]. change (isReceivedWithTime kSTATUS_RECEIVED_SMALL_DELTA) with true.
    cbv iota. assert (Z.abs (f seq - (from + 250 * Z.quot d 250)) <= e + 249) as Hd by (Z.quot_rem_to_equations; lia).
    destruct i as [|i]; cbn [lookup list_lookup].
    + right. rewrite Z.add_0_r. split; [done|]. eexists. split; [done|]. lia.
    + specialize (IH (seq + 1) (f seq) cur' (from + 250 * Z.quot d 250) (e + 249) He Hd i ltac:(lia)).
      replace (seq + Z.of_nat (S i)) with (seq + 1 + Z.of_nat i) by lia.
      destruct IH as [IH|(Hne & t & Ht & Hb)]; [by left|right]. split; [done|]. exists t. split; [done|]. lia.
  - destruct He as (H0 & He). cbn [map temp decode]. change (isReceivedWithTime kSTATUS_NOT_RECEIVED) with false. cbv iota.
    destruct i as [|i]; cbn [lookup list_lookup]; [left; by rewrite Z.add_0_r|].
    specialize (IH (seq + 1) cur cur' from e He Hcur i ltac:(lia)).
    replace (seq + Z.of_nat (S i)) with (seq + 1 + Z.of_nat i) by lia.
    destruct IH as [IH|(Hne & t & Ht & Hb)]; [by left|right]. split; [done|]. exists t. split; [done|]. lia.
Qed.

(** *** The state of the publisher *)

(** The publisher knows the arrival time of packet [seq]. *)
Definition learned (h : PublishPacketHistory.t) (seq time : Z) : Prop :=
  exists slots i, PublishPacketHistory.mPacketList h = Some slots /\ PublishPacketHistory.get h (u16 seq) = Some i /\
    PublishPacketHistory.received_time_present (PublishPacketHistory.at_slot slots i) = true /\
    PublishPacketHistory.received_time_micros (PublishPacketHistory.at_slot slots i) = time.

Definition same_received (p q : PublishPacketHistory.PublishPacket) : Prop :=
  PublishPacketHistory.received_time_present p = PublishPacketHistory.received_time_present q /\
  PublishPacketHistory.received_time_micros p = PublishPacketHistory.received_time_micros q.

(** The same window, and the same arrival times in the slots that satisfy [P]. *)
Definition keeps (P : Z -> Prop) (h k : PublishPacketHistory.t) : Prop :=
  PublishPacketHistory.mMinSeq h = PublishPacketHistory.mMinSeq k /\
  PublishPacketHistory.mMaxSeq h = PublishPacketHistory.mMaxSeq k /\
  exists slots slots', PublishPacketHistory.mPacketList h = Some slots /\ PublishPacketHistory.mPacketList k = Some slots' /\
    forall j, P j -> same_received (PublishPacketHistory.at_slot slots j) (PublishPacketHistory.at_slot slots' j).

Lemma keeps_chain P h k l : keeps P h k -> keeps P k l -> keeps P h l.
Proof.
  intros (A & B & slots & slots' & E & E' & H) (A' & B' & slots1 & slots2 & E1 & E2 & H'). rewrite E' in E1. injection E1 as <-.
  split_and!; [by rewrite A|by rewrite B|]. exists slots, slots2. split_and!; [done|done|].
  intros j Hj. destruct (H j Hj), (H' j Hj). split; etransitivity; done.
Qed.

Lemma keeps_weaken (P Q : Z -> Prop) h k : (forall j, Q j -> P j) -> keeps P h k -> keeps Q h k.
Proof. intros Hpq (A & B & s1 & s2 & E & E' & H). split_and!; [done..|]. exists s1, s2. split_and!; auto. Qed.

Lemma keeps_inside P h k seq : keeps P h k -> inside h seq -> inside k seq.
Proof. unfold inside. by intros (-> & -> & _). Qed.

Lemma keeps_get P h k seq : keeps P h k -> PublishPacketHistory.get h seq = PublishPacketHistory.get k seq.
Proof. unfold PublishPacketHistory.get. by intros (-> & -> & s1 & s2 & -> & -> & _). Qed.

Lemma keeps_learned P h k seq time i : keeps P h k -> PublishPacketHistory.get h (u16 seq) = Some i -> P i ->
  learned h seq time -> learned k seq time.
Proof.
  intros Hk Hg Hi (slots & i' & E & Eg & Hp & Ht). pose proof (keeps_get P h k (u16 seq) Hk) as Hget.
  destruct Hk as (_ & _ & s1 & s2 & E1 & E2 & H). rewrite E1 in E. injection E as <-. rewrite Hg in Eg. injection Eg as <-.
  destruct (H i Hi) as [H1 H2]. exists s2, i. by rewrite <- Hget, <- H1, <- H2.
Qed.

Lemma modify_keeps h slots f i (P : Z -> Prop) : PublishPacketHistory.mPacketList h = Some slots ->
  (P i -> forall p, same_received p (f p)) -> keeps P h (PublishPacketHistory.modify h f i).
Proof.
  intros E Hf. unfold PublishPacketHistory.modify. rewrite E. split_and!; [done..|]. eexists _, _. split_and!; [done..|].
  intros j Hj. rewrite at_slot_insert. case_decide; [subst; by apply Hf|done].
Qed.

Lemma keeps_refl (P : Z -> Prop) h slots : PublishPacketHistory.mPacketList h = Some slots -> keeps P h h.
Proof. intros E. split_and!; [done..|]. exists slots, slots. by split_and!. Qed.

Lemma noted_keeps l : forall seq h slots, PublishPacketHistory.mPacketList h = Some slots ->
  keeps (fun _ => True) h (noted l seq h).
Proof.
  induction l as [|[status d] l IH]; intros seq h slots E; cbn [noted]; [by eapply keeps_refl|].
  destruct (isReceivedWithTime status); [|by eapply IH]. unfold report_status.
  destruct (PublishPacketHistory.get h (u16 seq)) as [i|]; [|by eapply IH].
  eapply keeps_chain; [by apply (modify_keeps h slots (fun p => PublishPacketHistory.set_reported p status) i _ E)|].
  unfold PublishPacketHistory.modify. rewrite E. by eapply IH.
Qed.

Lemma noted_hist_ok l : forall seq h, hist_ok h -> hist_ok (noted l seq h).
Proof.
  induction l as [|[status d] l IH]; intros seq h Hh; cbn [noted]; [done|]. apply IH. case_match; [|done].
  by apply AnyReport.report_status_ok.
Qed.

Lemma keeps_ring P h k : keeps P h k -> hist_ok k -> ring h -> ring k.
Proof. intros (A & B & _) Hk [_ Hspan]. split; [done|]. by rewrite <- A, <- B. Qed.

Lemma next_ne seq i : 0 < i < 2 ^ 16 -> u16 seq <> u16 (seq + i).
Proof. unfold u16. intros Hi E. zdm. Qed.

(** The slots of the packets a list of times is about. *)
Definition touches (seq : Z) (times : list (option Z)) (j : Z) : Prop :=
  exists i t, times !! i = Some (Some t) /\ j = PublishPacketHistory.index (u16 (seq + Z.of_nat i)).

Lemma length_decode l : forall from, length (decode from l) = length l.
Proof. induction l as [|[s d] l IH]; intros from; [done|]. cbn [decode]. case_match; cbn; by rewrite IH. Qed.

Lemma lookup_inside {A} (l : list A) i x seq h : (forall k, (k < length l)%nat -> inside h (u16 (seq + Z.of_nat k))) ->
  l !! i = Some x -> inside h (u16 (seq + Z.of_nat i)).
Proof. intros Hin Hi. apply Hin. by eapply lookup_lt_Some. Qed.

Lemma resolve_learns l : forall seq ref prev from h slots,
  ring h -> PublishPacketHistory.mPacketList h = Some slots ->
  (forall i, (i < length l)%nat -> inside h (u16 (seq + Z.of_nat i))) -> Z.of_nat (length l) < 2 ^ 16 ->
  match prev with None => from = ref | Some p => PublishPacketHistory.received_time_micros (PublishPacketHistory.at_slot slots p) = from end ->
  let h' := resolve l seq ref prev h in
  ring h' /\ keeps (fun j => ~ touches seq (decode from l) j) h h' /\
  (forall i t, decode from l !! i = Some (Some t) -> learned h' (seq + Z.of_nat i) t).
Proof.
  induction l as [|[status d] l IH]; intros seq ref prev from h slots Hr E Hin Hlen Hprev; cbn [resolve decode].
  { split_and!; [done|by eapply keeps_refl|done]. }
  assert (forall i, (i < length l)%nat -> inside h (u16 (seq + 1 + Z.of_nat i))) as Hin'.
  { intros i Hi. replace (seq + 1 + Z.of_nat i) with (seq + Z.of_nat (S i)) by lia. apply Hin. cbn. lia. }
  cbn [length] in Hlen. destruct (isReceivedWithTime status).
  2: { destruct (IH (seq + 1) ref prev from h slots Hr E Hin' ltac:(lia) Hprev) as (H1 & H2 & H3). split_and!; [done| |].
    - eapply keeps_weaken; [|exact H2]. intros j Hj (i & t & Hi & ->). apply Hj. exists (S i), t. split; [done|].
      do 2 f_equal. lia.
    - intros [|i] t Hi; [done|]. replace (seq + Z.of_nat (S i)) with (seq + 1 + Z.of_nat i) by lia. by apply H3. }
  assert (inside h (u16 seq)) as Hin0 by (specialize (Hin 0%nat ltac:(cbn; lia)); by rewrite Z.add_0_r in Hin).
  rewrite (get_inside h slots) by (apply Hr || done || apply u16_range). rewrite decide_True by done. rewrite E.
  set (i0 := PublishPacketHistory.index (u16 seq)).
  replace (match prev with None => ref | Some p => PublishPacketHistory.received_time_micros (PublishPacketHistory.at_slot slots p) end)
    with from by (by destruct prev).
  set (h1 := PublishPacketHistory.modify h (fun p => PublishPacketHistory.set_received p (from + d)) i0).
  assert (keeps (fun j => j <> i0) h h1) as Hk1 by (eapply modify_keeps; [exact E|by intros []]).
  assert (ring h1) as Hr1 by (eapply keeps_ring; [exact Hk1|apply modify_ok; [done|apply Hr]|done]).
  set (slots1 := <[i0 := PublishPacketHistory.set_received (PublishPacketHistory.at_slot slots i0) (from + d)]> slots).
  assert (PublishPacketHistory.mPacketList h1 = Some slots1) as E1 by (unfold h1, PublishPacketHistory.modify; by rewrite E).
  destruct (IH (seq + 1) ref (Some i0) (from + d) h1 slots1 Hr1 E1) as (H1 & H2 & H3).
  { intros i Hi. eapply keeps_inside; [exact Hk1|]. by apply Hin'. }
  { lia. }
  { unfold slots1. rewrite at_slot_insert, decide_True by done. done. }
  split_and!; [done| |].
  - eapply keeps_chain; [eapply keeps_weaken; [|exact Hk1]|eapply keeps_weaken; [|exact H2]].
    + intros j Hj ->. apply Hj. exists 0%nat, (from + d). split; [done|]. unfold i0. by rewrite Z.add_0_r.
    + intros j Hj (i & t & Hi & ->). apply Hj. exists (S i), t. split; [done|]. do 2 f_equal. lia.
  - intros [|i] t Hi.
    + injection Hi as <-. rewrite Z.add_0_r. eapply (keeps_learned _ h1 _ seq (from + d) i0); [exact H2| | |].
      * rewrite (get_inside h1 slots1) by (apply Hr1 || done || apply u16_range).
        rewrite decide_True; [done|]. by eapply keeps_inside.
      * intros (i & t & Hi & Ei). pose proof (lookup_lt_Some _ _ _ Hi) as Hlt. rewrite length_decode in Hlt.
        revert Ei. apply (inside_slots h); [done|apply u16_range|apply u16_range|done|by apply Hin'|].
        replace (seq + 1 + Z.of_nat i) with (seq + (Z.of_nat i + 1)) by lia. apply next_ne. lia.
      * exists slots1, i0. split_and!; [done| | |].
        { rewrite (get_inside h1 slots1) by (apply Hr1 || done || apply u16_range).
          rewrite decide_True; [done|]. by eapply keeps_inside. }
        { unfold slots1. by rewrite at_slot_insert, decide_True. }
        { unfold slots1. by rewrite at_slot_insert, decide_True. }
    + replace (seq + Z.of_nat (S i)) with (seq + 1 + Z.of_nat i) by lia. by apply H3.
Qed.

Lemma same_packets_keeps (P : Z -> Prop) h k slots : PublishPacketHistory.mPacketList h = Some slots -> same_packets h k -> keeps P h k.
Proof.
  intros E (A & B & C). rewrite E in C. destruct (PublishPacketHistory.mPacketList k) as [slots'|] eqn:E'; [|done].
  split_and!; [done..|]. exists slots, slots'. split_and!; [done..|]. intros j _. destruct (C j) as (_ & ? & ? & _). by split.
Qed.

Lemma stop_probing_history s : mPacketHistory (stop_probing s) = mPacketHistory s.
Proof. unfold stop_probing. by case_match. Qed.

(** What was learned of [f] from number [lo] to [hi], the error growing with
    each packet. *)
Definition knows (f : Z -> Z) (lo hi : Z) (h : PublishPacketHistory.t) : Prop :=
  forall q, lo <= q < hi -> f q <> 0 -> exists t, learned h q t /\ Z.abs (f q - t) <= 249 * (q - lo + 1).

(** The slots of the packets that are not among the received ones. *)
Definition others (f : Z -> Z) (lo hi j : Z) : Prop :=
  forall q, lo <= q < hi -> f q <> 0 -> j <> PublishPacketHistory.index (u16 q).

Lemma others_touches f lo hi times j : others f lo hi j ->
  (forall i t, times !! i = Some (Some t) -> lo + Z.of_nat i < hi /\ f (lo + Z.of_nat i) <> 0) -> ~ touches lo times j.
Proof. intros Ho Ht (i & t & Hi & ->). destruct (Ht i t Hi). by apply (Ho (lo + Z.of_nat i)); [lia|..]. Qed.

Lemma times_known f rep h :
  report_good f rep ->
  let times := decode (kReferenceTimeUnits * rep_ref rep) (all_temps (rep_chunks rep)) in
  (forall i t, times !! i = Some (Some t) -> learned h (rep_base rep + Z.of_nat i) t) ->
  knows f (rep_base rep) (rep_base rep + Z.of_nat (total (rep_chunks rep))) h /\
  (forall i t, times !! i = Some (Some t) ->
     rep_base rep + Z.of_nat i < rep_base rep + Z.of_nat (total (rep_chunks rep)) /\ f (rep_base rep + Z.of_nat i) <> 0).
Proof.
  intros [_ _ _ _ (cur' & He)] times Hl. unfold times in *. rewrite decode_chunks in *.
  pose proof (decode_accurate f _ _ _ _ _ 0 He ltac:(by rewrite Z.sub_diag)) as Hd. rewrite length_entries in Hd. split.
  - intros q Hq Hf. specialize (Hd (Z.to_nat (q - rep_base rep)) ltac:(lia)).
    specialize (Hl (Z.to_nat (q - rep_base rep))).
    replace (rep_base rep + Z.of_nat (Z.to_nat (q - rep_base rep))) with q in * by lia.
    destruct Hd as [[? _]|(_ & t & Ht & Hb)]; [done|]. exists t. split; [by apply Hl|lia].
  - intros i t Hi. pose proof (lookup_lt_Some _ _ _ Hi) as Hlt. rewrite length_decode, length_map, length_entries in Hlt.
    split; [lia|]. destruct (Hd i Hlt) as [[_ E]|[? _]]; [by rewrite E in Hi|done].
Qed.

(** The history after the two loops over the list. *)
Lemma learns_all f rep h slots :
  report_good f rep -> ring h -> PublishPacketHistory.mPacketList h = Some slots ->
  let cs := rep_chunks rep in
  let base := rep_base rep in
  let hi := base + Z.of_nat (total cs) in
  (forall q, base <= q < hi -> inside h (u16 q)) ->
  let h' := resolve (all_temps cs) (u16 base) (64 * 1000 * rep_ref rep) None (noted (all_temps cs) (u16 base) h) in
  ring h' /\ keeps (others f base hi) h h' /\ knows f base hi h'.
Proof.
  intros Hg Hr E cs base hi Hin h'. pose proof (good_size _ _ Hg) as Hsize. fold cs in Hsize.
  pose proof (noted_keeps (all_temps cs) (u16 base) h slots E) as Hk0.
  pose proof (keeps_ring _ _ _ Hk0 (noted_hist_ok _ _ _ (ring_ok _ Hr)) Hr) as Hr0.
  pose proof Hk0 as (_ & _ & s1 & s2 & _ & E2 & _).
  assert (forall i, u16 (u16 base + i) = u16 (base + i)) as Hu by (intros i; unfold u16; zdm).
  destruct (resolve_learns (all_temps cs) (u16 base) (64 * 1000 * rep_ref rep) None (64 * 1000 * rep_ref rep) _ s2 Hr0 E2)
    as (Hr' & Hk' & Hl'); [| |done|].
  - intros i Hi. rewrite length_all_temps in Hi. rewrite Hu. eapply keeps_inside; [exact Hk0|]. apply Hin. unfold hi. lia.
  - rewrite length_all_temps. lia.
  - fold h' in Hr', Hk', Hl'. destruct (times_known f rep h' Hg) as [Hn Ht].
    { intros i t Hi. destruct (Hl' i t Hi) as (sl & k & A & B & C). rewrite Hu in B. by exists sl, k. }
    split_and!; [done| |done]. eapply keeps_chain; [by eapply keeps_weaken; [|exact Hk0]|].
    eapply keeps_weaken; [|exact Hk']. intros j Hj. apply (others_touches f _ hi) with (j := j) in Ht; [|done].
    intros (i & t & Hi & ->). apply Ht. exists i, t. by rewrite Hu.
Qed.

Lemma report_read f rep p post now_nanos now s slots :
  report_good f rep -> ring (mPacketHistory s) -> PublishPacketHistory.mPacketList (mPacketHistory s) = Some slots ->
  let hi := rep_base rep + Z.of_nat (total (rep_chunks rep)) in
  (forall q, rep_base rep <= q < hi -> inside (mPacketHistory s) (u16 q)) ->
  exists s', onReceivedRtcpPacket (ByteReader.reader_at p (encode rep ++ post)) now_nanos now s = Some s' /\
    ring (mPacketHistory s') /\ keeps (others f (rep_base rep) hi) (mPacketHistory s) (mPacketHistory s') /\
    knows f (rep_base rep) hi (mPacketHistory s').
Proof.
  intros Hg Hr E hi Hin. pose proof Hg as [Hcs Hsize Hfb Href _]. unfold is_u8 in Hfb. set (cs := rep_chunks rep) in *.
  set (base := rep_base rep) in *. unfold onReceivedRtcpPacket, encode. rewrite <- !app_assoc, ByteReader.remaining_at, !length_app, !length_be_bytes.
  fold cs base. cbn [Nat.ltb Nat.leb Nat.add].
  rewrite Wire.readU16_be by apply u16_range. cbn [mbind option_bind].
  rewrite Wire.readU16_be by (unfold is_u16; lia). cbn [mbind option_bind].
  rewrite Wire.readU32_be by (unfold is_u32; lia). cbn [mbind option_bind].
  destruct (Z.eqb_spec (Z.of_nat (total cs)) 0) as [|_]; [lia|]. rewrite ByteReader.remaining_at, Nat2Z.id.
  rewrite shiftr_div, Z.div_add_l, (Z.div_small (rep_fb rep)), Z.add_0_r by lia.
  pose proof (chunks_read cs) as Hchunks. specialize (Hchunks (S (length (headers cs ++ stamps (all_temps cs) ++ post)))
    (((p ++ be_bytes 2 (u16 base)) ++ be_bytes 2 (Z.of_nat (total cs))) ++ be_bytes 4 (rep_ref rep * 2 ^ 8 + rep_fb rep))
    [] (stamps (all_temps cs) ++ post) (u16 base) (Z.of_nat (total cs)) (u16_range _) ltac:(lia) Hcs eq_refl).
  cbn [app length] in Hchunks. rewrite Z.add_0_r, (u16_small (u16 base)) in Hchunks by apply u16_range.
  rewrite Hchunks by (rewrite length_app, length_headers; lia). clear Hchunks. cbn [mbind option_bind negb].
  rewrite read_deltas_ok by (by apply all_temps_ok). cbn [mbind option_bind negb].
  destruct (learns_all f rep (mPacketHistory s) slots Hg Hr E Hin) as (Hr1 & Hk1 & Hn1). fold cs base hi in Hr1, Hk1, Hn1.
  set (h1 := resolve _ _ _ _ _) in *. destruct Hk1 as (? & ? & slots0 & slots1 & E0 & E1 & Hk1).
  destruct (update_hist_ok h1 now_nanos now (ring_ok _ Hr1)) as (h2 & -> & Hok & Hsame). cbn [mbind option_bind].
  eexists. split; [done|]. rewrite stop_probing_history. cbn [mPacketHistory with_history].
  pose proof (same_packets_keeps (fun _ => True) h1 h2 slots1 E1 Hsame) as Hk2.
  split_and!; [by eapply keeps_ring| |].
  - eapply keeps_chain; [|by eapply keeps_weaken; [|exact Hk2]]. split_and!; [done..|]. by exists slots0, slots1.
  - intros q Hq Hf. destruct (Hn1 q Hq Hf) as (t & Ht & Hb). exists t. split; [|done].
    pose proof Ht as (? & i & _ & Hi & _). by apply (keeps_learned (fun _ => True) h1 h2 q t i).
Qed.

End Learning.
