(* ===== verification/TwccLoop.v ===== *)
(** * The loop of congestion control, from one end to the other

    What the two histories hold after any packets whatsoever, and the theorem
    that ties them together: the publisher sends, the subscriber receives and
    reports, and the publisher knows when each packet arrived.  At the end, the
    cases in which that fails. *)

From stdpp Require Import gmap strings sorting.
From S2P Require Import Prelude Bytes Sequence Extension Tracks Rtp Rtcp ExtensionSources Twcc TwccPublish TwccProps.

(** ** The subscriber's window *)

Module Arriving.
Import SubscribePacketHistory Reporting.

(** *** The specification: arrival times by number, in a window *)

Record arrivals := mkArrivals { times : Z -> Z; low : Z; high : Z }.

Definition note (f : Z -> Z) (q time : Z) : Z -> Z := fun i => if i =? q then time else f i.

(** Numbers between [lo] and [hi] keep their times, others are not received. *)
Definition only (f : Z -> Z) (lo hi : Z) : Z -> Z := fun i => if (lo <=? i) && (i <? hi) then f i else 0.

(** Packet [q] at [time]: dropped when it is more than 512 numbers away, or too
    old for 2048 numbers. *)
Definition arrive (a : arrivals) (q time : Z) : arrivals :=
  let '(mkArrivals f lo hi) := a in
  if lo =? hi then mkArrivals (note (only f lo hi) q time) q (q + 1)
  else if (q + 512 <? lo) || (hi + 512 <? q) then a
  else if hi <=? q then mkArrivals (note (only f lo hi) q time) (Z.max lo (q + 1 - 2048)) (q + 1)
  else if q <? lo then if 2048 <? hi - q then a else mkArrivals (note (only f lo hi) q time) q hi
  else mkArrivals (note f q time) lo hi.

(** *** The slots *)

Lemma tight_ext f g slots lo hi : (forall i, lo <= i < hi -> f i = g i) -> tight f slots lo hi -> tight g slots lo hi.
Proof. intros Hfg [[Hs Hb] Ho]. split; [split; [|done]|done]. intros q Hq. rewrite Hs by done. by rewrite Hfg. Qed.

Lemma free_slot f slots lo hi q : tight f slots lo hi -> (forall i, lo <= i < hi -> i <> q /\ Z.abs (i - q) < 2048) ->
  slots !! index q = None.
Proof.
  intros [_ Ho] Hq. destruct (slots !! index q) as [x|] eqn:E; [|done].
  destruct (Ho (index q) ltac:(by exists x)) as (i & Hi & Ei). destruct (Hq i Hi) as [Hne Hd].
  by destruct (index_ne i q Hne Hd).
Qed.

Lemma store_tight f slots lo hi q time lo' hi' : tight f slots lo hi -> hi - lo < 2048 -> hi' < 2 ^ 63 ->
  (q = hi /\ lo' = lo /\ hi' = hi + 1) \/ (q = lo - 1 /\ 0 <= q /\ lo' = q /\ hi' = hi) ->
  exists slots', store slots q time = Some slots' /\ tight (note f q time) slots' lo' hi'.
Proof.
  intros Hw Hd Hmax Hq. pose proof Hw as [[Hs Hb] Ho]. unfold store.
  rewrite (free_slot f slots lo hi q) by (done || lia). rewrite bool_decide_true by done. cbn [guard_true mbind option_bind].
  eexists. split; [done|]. split; [split; [|lia]|].
  - intros i Hi. unfold note. destruct (Z.eqb_spec i q) as [->|Hne]; [by rewrite lookup_insert_eq|].
    rewrite lookup_insert_ne by (apply index_ne; lia). apply Hs. lia.
  - intros j Hj. destruct (decide (j = index q)) as [->|Hne]; [exists q; split; [lia|done]|].
    rewrite lookup_insert_ne in Hj by done. destruct (Ho j Hj) as (i & Hi & ->). exists i. split; [lia|done].
Qed.

Lemma make_room_tight f slots lo hi : tight f slots lo hi ->
  exists slots', make_room slots lo hi = Some (slots', Z.max lo (hi + 1 - 2048)) /\
    tight f slots' (Z.max lo (hi + 1 - 2048)) hi.
Proof.
  intros Hw. pose proof (window_size _ _ _ _ Hw) as Hb. unfold make_room. rewrite u64_small by (unfold is_u64; lia).
  change kMaxPacketCount with 2048. destruct (Z.eqb_spec (hi - lo) 2048) as [E|E].
  - destruct (window_next f slots lo hi Hw ltac:(lia)) as [-> Hw']. eexists. replace (Z.max _ _) with (lo + 1) by lia. by split.
  - exists slots. replace (Z.max _ _) with lo by lia. by split.
Qed.

(** Room, and a number at the upper end. *)
Lemma push_tight f slots lo hi time : tight f slots lo hi -> hi + 1 < 2 ^ 63 ->
  let lo' := Z.max lo (hi + 1 - 2048) in
  exists slots1 slots', make_room slots lo hi = Some (slots1, lo') /\ store slots1 hi time = Some slots' /\
    tight (note f hi time) slots' lo' (hi + 1).
Proof.
  intros Hw Hmax lo'. pose proof (window_size _ _ _ _ Hw) as Hb.
  destruct (make_room_tight f slots lo hi Hw) as (slots1 & E1 & H1). fold lo' in E1, H1.
  destruct (store_tight f slots1 lo' hi hi time lo' (hi + 1) H1 ltac:(lia) Hmax ltac:(left; done)) as (slots' & E' & H').
  by exists slots1, slots'.
Qed.

Lemma extend_up_tight f n : forall slots lo hi, tight f slots lo hi -> hi + Z.of_nat n < 2 ^ 63 ->
  (forall i, hi <= i < hi + Z.of_nat n -> f i = 0) ->
  let hi' := hi + Z.of_nat n in
  let lo' := if (n =? 0)%nat then lo else Z.max lo (hi' - 2048) in
  exists slots', extend_up n slots lo hi = Some (slots', lo', hi') /\ tight f slots' lo' hi'.
Proof.
  induction n as [|n IH]; intros slots lo hi Hw Hmax Hf; cbn [Nat.eqb extend_up].
  { exists slots. rewrite Z.add_0_r. by split. }
  pose proof (window_size _ _ _ _ Hw) as Hb.
  destruct (push_tight f slots lo hi 0 Hw ltac:(lia)) as (slots1 & slots2 & -> & E2 & H2). cbn [mbind option_bind].
  rewrite E2. cbn [mbind option_bind]. rewrite u64_small by (unfold is_u64; lia).
  apply (tight_ext _ f) in H2.
  2: { intros i Hi. unfold note. destruct (Z.eqb_spec i hi) as [->|]; [|done]. symmetry. apply Hf. lia. }
  destruct (IH slots2 _ (hi + 1) H2 ltac:(lia)) as (slots' & -> & H'); [intros i Hi; apply Hf; lia|].
  exists slots'. replace (hi + 1 + Z.of_nat n) with (hi + Z.of_nat (S n)) in * by lia.
  destruct n as [|n]; cbn [Nat.eqb] in *; [by replace (hi + Z.of_nat 1) with (hi + 1) in * by lia|].
  replace (Z.max lo (hi + Z.of_nat (S (S n)) - 2048)) with (Z.max (Z.max lo (hi + 1 - 2048)) (hi + Z.of_nat (S (S n)) - 2048)) by lia.
  by split.
Qed.

Lemma extend_down_tight f n : forall slots lo hi, tight f slots lo hi -> hi - lo + Z.of_nat n <= 2048 -> Z.of_nat n <= lo ->
  (forall i, lo - Z.of_nat n <= i < lo -> f i = 0) ->
  exists slots', extend_down n slots lo = Some (slots', lo - Z.of_nat n) /\ tight f slots' (lo - Z.of_nat n) hi.
Proof.
  induction n as [|n IH]; intros slots lo hi Hw Hd Hlo Hf; cbn [extend_down].
  { exists slots. rewrite Z.sub_0_r. by split. }
  pose proof (window_size _ _ _ _ Hw) as Hb. rewrite u64_small by (unfold is_u64; lia).
  destruct (store_tight f slots lo hi (lo - 1) 0 (lo - 1) hi Hw ltac:(lia) ltac:(lia) ltac:(right; lia)) as (slots1 & -> & H1).
  cbn [mbind option_bind]. apply (tight_ext _ f) in H1.
  2: { intros i Hi. unfold note. destruct (Z.eqb_spec i (lo - 1)) as [->|]; [|done]. symmetry. apply Hf. lia. }
  destruct (IH slots1 (lo - 1) hi H1 ltac:(lia) ltac:(lia)) as (slots' & -> & H'); [intros i Hi; apply Hf; lia|].
  exists slots'. by replace (lo - 1 - Z.of_nat n) with (lo - Z.of_nat (S n)) in * by lia.
Qed.

Lemma tight_known f slots lo hi : tight f slots lo hi -> tight (only f lo hi) slots lo hi.
Proof. apply tight_ext. intros i Hi. unfold only. by rewrite (proj2 (Z.leb_le _ _)), (proj2 (Z.ltb_lt _ _)) by lia. Qed.

Lemma only_above f lo hi i : hi <= i -> only f lo hi i = 0.
Proof. intros Hi. unfold only. rewrite (proj2 (Z.ltb_ge i hi)) by lia. by rewrite andb_false_r. Qed.

Lemma only_below f lo hi i : i < lo -> only f lo hi i = 0.
Proof. intros Hi. unfold only. by rewrite (proj2 (Z.leb_gt lo i)) by lia. Qed.

Lemma insert_above f s slots q time : tight f slots (mMinSeq s) (mMaxSeq s) -> mMaxSeq s <= q < 2 ^ 63 - 1 ->
  let lo' := Z.max (mMinSeq s) (q + 1 - 2048) in
  exists slots',
    ('(slots, min, max) ← extend_up (Z.to_nat (q - mMaxSeq s)) slots (mMinSeq s) (mMaxSeq s);
     '(slots, min) ← make_room slots min max;
     slots ← store slots q time;
     let max := u64 (max + 1) in
     _ ← guard_true (u64 (max - min) <=? kMaxPacketCount);
     Some (with_window s slots min max)) = Some (with_window s slots' lo' (q + 1)) /\
    tight (note (only f (mMinSeq s) (mMaxSeq s)) q time) slots' lo' (q + 1).
Proof.
  intros Hw Hq lo'. set (lo := mMinSeq s) in *. set (hi := mMaxSeq s) in *. pose proof (window_size _ _ _ _ Hw) as Hb.
  destruct (extend_up_tight (only f lo hi) (Z.to_nat (q - hi)) slots lo hi (tight_known _ _ _ _ Hw) ltac:(lia))
    as (slots1 & -> & H1); [intros i Hi; apply only_above; lia|].
  cbn [mbind option_bind]. replace (hi + Z.of_nat (Z.to_nat (q - hi))) with q in * by lia.
  set (lo1 := if (Z.to_nat (q - hi) =? 0)%nat then lo else Z.max lo (q - 2048)) in *.
  destruct (push_tight _ slots1 lo1 q time H1 ltac:(lia)) as (slots2 & slots3 & -> & E3 & H3). cbn [mbind option_bind].
  rewrite E3. cbn [mbind option_bind]. rewrite u64_small by (unfold is_u64; lia).
  assert (Z.max lo1 (q + 1 - 2048) = lo') as El by (unfold lo1, lo'; destruct (Nat.eqb_spec (Z.to_nat (q - hi)) 0); lia).
  rewrite El in *. pose proof (window_size _ _ _ _ H3). rewrite u64_small by (unfold is_u64; lia).
  change kMaxPacketCount with 2048. rewrite (proj2 (Z.leb_le _ _)) by lia. by exists slots3.
Qed.

Lemma insert_below f s slots q time : tight f slots (mMinSeq s) (mMaxSeq s) -> 0 <= q < mMinSeq s -> mMaxSeq s - q <= 2048 ->
  exists slots',
    ('(slots, min) ← extend_down (Z.to_nat (mMinSeq s - (q + 1))) slots (mMinSeq s);
     slots ← store slots q time;
     let min := u64 (min - 1) in
     _ ← guard_true (u64 (mMaxSeq s - min) <=? kMaxPacketCount);
     Some (with_window s slots min (mMaxSeq s))) = Some (with_window s slots' q (mMaxSeq s)) /\
    tight (note (only f (mMinSeq s) (mMaxSeq s)) q time) slots' q (mMaxSeq s).
Proof.
  intros Hw Hq Hd. set (lo := mMinSeq s) in *. set (hi := mMaxSeq s) in *. pose proof (window_size _ _ _ _ Hw) as Hb.
  destruct (extend_down_tight (only f lo hi) (Z.to_nat (lo - (q + 1))) slots lo hi (tight_known _ _ _ _ Hw) ltac:(lia) ltac:(lia))
    as (slots1 & -> & H1); [intros i Hi; apply only_below; lia|].
  cbn [mbind option_bind]. replace (lo - Z.of_nat (Z.to_nat (lo - (q + 1)))) with (q + 1) in * by lia.
  destruct (store_tight _ slots1 (q + 1) hi q time q hi H1 ltac:(lia) ltac:(lia) ltac:(right; lia)) as (slots2 & -> & H2).
  cbn [mbind option_bind]. replace (q + 1 - 1) with q by lia. rewrite !u64_small by (unfold is_u64; lia || (rewrite u64_small; unfold is_u64; lia)).
  change kMaxPacketCount with 2048. rewrite (proj2 (Z.leb_le _ _)) by lia. by exists slots2.
Qed.

(** The window after a packet whose extended number is [q]. *)
Lemma insert_arrives f s slots q time : mPacketList s = Some slots -> tight f slots (mMinSeq s) (mMaxSeq s) ->
  mMinSeq s <> mMaxSeq s -> 0 <= q < 2 ^ 63 - 1 ->
  let a := arrive (mkArrivals f (mMinSeq s) (mMaxSeq s)) q time in
  exists slots', insert s slots q time = Some (with_window s slots' (low a) (high a)) /\ tight (times a) slots' (low a) (high a).
Proof.
  intros El Hw Hne Hq. pose proof (window_size _ _ _ _ Hw) as Hb. unfold insert, arrive.
  change (kMaxPacketCount / 4) with 512. change kMaxPacketCount with 2048.
  rewrite !u64_small by (unfold is_u64; lia). rewrite (proj2 (Z.eqb_neq _ _)) by done.
  assert (s = with_window s slots (mMinSeq s) (mMaxSeq s)) as Hs by (destruct s; cbn in *; by subst).
  destruct (Z.ltb_spec (q + 512) (mMinSeq s)); cbn [orb]; [exists slots; split; [by f_equal|done]|].
  destruct (Z.ltb_spec (mMaxSeq s + 512) q); [exists slots; split; [by f_equal|done]|].
  destruct (Z.leb_spec (mMaxSeq s) q); [apply insert_above; [done|lia]|].
  destruct (Z.ltb_spec q (mMinSeq s)).
  - rewrite u64_small by (unfold is_u64; lia). destruct (Z.ltb_spec 2048 (mMaxSeq s - q)); [exists slots; split; [by f_equal|done]|].
    apply (insert_below f s slots q time Hw); lia.
  - pose proof Hw as [[Hsl _] Ho]. rewrite Hsl by lia. cbn [mbind option_bind seq_ext]. eexists. split; [done|].
    split; [split; [|done]|].
    + intros i Hi. cbn [times low high] in *. unfold note. destruct (Z.eqb_spec i q) as [->|Hi']; [by rewrite lookup_insert_eq|].
      rewrite lookup_insert_ne by (apply index_ne; lia). by apply Hsl.
    + cbn [low high]. intros j Hj. destruct (decide (j = index q)) as [->|Hj']; [by exists q|].
      rewrite lookup_insert_ne in Hj by done. by apply Ho.
Qed.

(** *** Any packets at all *)

(** Nothing for two seconds, then a number far ahead: the window is dropped. *)
Definition resets (s : t) (q now : Z) : bool :=
  negb (mLastPacketMicros s =? 0) && (kNoPacketsResetDelayMicros <=? now - mLastPacketMicros s)
  && (mMaxSeq s + 256 <? q).

Definition simulates (s : t) (a : arrivals) : Prop :=
  holds (times a) s /\ low a = mMinSeq s /\ high a = mMaxSeq s.

Definition next_arrivals (s : t) (a : arrivals) (q now : Z) : arrivals :=
  arrive (mkArrivals (times a) (low a) (if resets s q now then low a else high a)) q (now - mBaseTimeMicros s).

(** A window of one packet. *)
Lemma tight_single f q time : 0 <= q < 2 ^ 63 - 1 -> tight (note f q time) {[index q := mkPacket q time]} q (q + 1).
Proof.
  intros Hq. split; [split; [|lia]|].
  - intros i Hi. replace i with q by lia. unfold note. by rewrite Z.eqb_refl, lookup_singleton_eq.
  - intros j [x Hj]. apply lookup_singleton_Some in Hj as [<- _]. exists q. split; [lia|done].
Qed.

Lemma save_arrives s a now_nanos seq now :
  simulates s a -> ExtendedValue.ext_ok 16 (mExtendedValueSeq s) ->
  ExtendedValue.mRolloverValue (mExtendedValueSeq s) < 2 ^ 62 -> is_u16 seq ->
  let '(q, e) := ExtendedValue.extend 16 now_nanos (mExtendedValueSeq s) seq in
  exists s', saveIncomingPacket s now_nanos seq now = Some s' /\ simulates s' (next_arrivals s a q now) /\
    mExtendedValueSeq s' = e /\ mLastPacketMicros s' = now /\ mBaseTimeMicros s' = mBaseTimeMicros s /\
    mLastGeneratedMicros s' = mLastGeneratedMicros s.
Proof.
  intros ([Hw Hfb] & El & Eh) He Hr Hseq. pose proof (ExtendedValue.extend_bounds 16 now_nanos _ seq ltac:(lia) He Hr Hseq) as [_ Hq].
  unfold saveIncomingPacket. destruct (ExtendedValue.extend 16 now_nanos (mExtendedValueSeq s) seq) as [q e]. cbn [fst] in Hq.
  pose proof (window_size _ _ _ _ Hw) as Hb. change (kMaxPacketCount / 8) with 256.
  rewrite (u64_small (mMaxSeq s + 256)) by (unfold is_u64; lia). fold (resets s q now).
  set (s1 := seen s now e (if resets s q now then None else mPacketList s)). set (time := now - mBaseTimeMicros s).
  destruct a as [f lo hi]. cbn [times low high] in *. subst lo hi. unfold next_arrivals. cbn [times low high]. fold time.
  assert (mMinSeq s1 = mMinSeq s /\ mMaxSeq s1 = mMaxSeq s /\ mFbCount s1 = mFbCount s) as (E1 & E2 & E3) by done.
  assert (forall slots a, tight (times a) slots (low a) (high a) ->
    exists s', Some (with_window s1 slots (low a) (high a)) = Some s' /\ simulates s' a /\ mExtendedValueSeq s' = e /\
      mLastPacketMicros s' = now /\ mBaseTimeMicros s' = mBaseTimeMicros s /\ mLastGeneratedMicros s' = mLastGeneratedMicros s)
    as Hdone by (intros slots a Ht; eexists; by split_and!).
  destruct (mPacketList s1) as [slots|] eqn:Es.
  - assert (mPacketList s = Some slots /\ resets s q now = false) as [El Hreset]
      by (cbn in Es; destruct (resets s q now); by try split).
    rewrite El in Hw. cbn [default] in Hw. rewrite Hreset. destruct (Z.eqb_spec (mMinSeq s1) (mMaxSeq s1)) as [Em|Em].
    + rewrite E1, E2 in Em. unfold arrive. rewrite Em, Z.eqb_refl. rewrite u64_small by (unfold is_u64; lia).
      assert (slots = ∅) as ->.
      { apply map_eq. intros i. rewrite lookup_empty. destruct (slots !! i) as [x|] eqn:Ei; [|done].
        destruct (tight_only _ _ _ _ Hw i ltac:(by exists x)) as (j & Hj & _). lia. }
      apply (Hdone _ (mkArrivals (note (only f _ _) q time) q (q + 1)) (tight_single _ q time ltac:(lia))).
    + destruct (insert_arrives f s1 slots q time) as (slots' & -> & Ht); [done|done|done|lia|]. by apply Hdone.
  - assert (mMinSeq s =? (if resets s q now then mMinSeq s else mMaxSeq s) = true) as Em.
    { destruct (resets s q now) eqn:Hreset; [apply Z.eqb_refl|]. cbn in Es. rewrite Es in Hw.
      apply Z.eqb_eq. destruct (decide (mMinSeq s < mMaxSeq s)) as [Hlt|]; [|lia].
      pose proof (window_slots _ _ _ _ Hw (mMinSeq s) ltac:(lia)) as H. done. }
    unfold arrive. rewrite Em. rewrite u64_small by (unfold is_u64; lia).
    apply (Hdone _ (mkArrivals (note (only f _ _) q time) q (q + 1)) (tight_single _ q time ltac:(lia))).
Qed.

(** *** A burst of packets, in any order *)

(** When packet [q] arrived, at last: 0 if it did not. *)
Definition heard (l : list (Z * Z)) (q : Z) : Z := foldl (fun t p => if p.1 =? q then p.2 else t) 0 l.

Lemma heard_snoc l p q : heard (l ++ [p]) q = if p.1 =? q then p.2 else heard l q.
Proof. unfold heard. by rewrite foldl_app. Qed.

Lemma heard_absent l q : q ∉ l.*1 -> heard l q = 0.
Proof.
  induction l as [|p l IH] using rev_ind; intros Hq; [done|]. rewrite heard_snoc. rewrite fmap_app, elem_of_app in Hq.
  cbn in Hq. destruct (Z.eqb_spec p.1 q) as [E|_]; [|apply IH; tauto]. destruct Hq. right. rewrite E. by constructor.
Qed.

Lemma arrive_burst lo hi l a : low a = high a -> hi <= lo + 512 -> Forall (fun p => lo <= p.1 < hi) l ->
  let a' := foldl (fun a p => arrive a p.1 p.2) a l in
  (l = [] /\ a' = a \/ lo <= low a' < high a' /\ high a' <= hi) /\
  (forall i, low a' <= i < high a' -> times a' i = heard l i) /\
  (forall q, q ∈ l.*1 -> low a' <= q < high a').
Proof.
  intros Ha Hhi Hl. induction l as [|[q t] l IH] using rev_ind.
  { cbn. split_and!; [by left|lia|]. intros q Hq. by apply elem_of_nil in Hq. }
  apply Forall_app in Hl as [Hl Hq]. apply list.Forall_cons in Hq as [Hq _]. cbn [fst] in Hq.
  destruct (IH Hl) as (Hb & Ht & Hin). clear IH. rewrite foldl_app. cbn [foldl fst snd].
  set (b := foldl _ a l) in *. cbv zeta.
  assert (forall i, only (times b) (low b) (high b) i = heard l i) as Honly.
  { intros i. unfold only. destruct (Z.leb_spec (low b) i); cbn [andb]; [|symmetry; apply heard_absent; intros Hi; specialize (Hin i Hi); lia].
    destruct (Z.ltb_spec i (high b)); [apply Ht; lia|]. symmetry. apply heard_absent. intros Hi. specialize (Hin i Hi). lia. }
  assert (forall i, heard (l ++ [(q, t)]) i = if i =? q then t else heard l i) as Hheard.
  { intros i. rewrite heard_snoc. cbn. by rewrite Z.eqb_sym. }
  assert (forall i, note (only (times b) (low b) (high b)) q t i = heard (l ++ [(q, t)]) i) as Hnote
    by (intros i; rewrite Hheard; unfold note; by rewrite Honly).
  assert (forall i, low b <= i < high b -> note (times b) q t i = heard (l ++ [(q, t)]) i) as Hnote'
    by (intros i Hi; rewrite Hheard; unfold note; by rewrite Ht).
  assert (forall P : Z -> Prop, (forall i, i ∈ l.*1 -> P i) -> P q -> forall i, i ∈ (l ++ [(q, t)]).*1 -> P i) as Hall.
  { intros P H1 H2 i Hi. rewrite fmap_app, elem_of_app in Hi. destruct Hi as [Hi|Hi]; [by apply H1|].
    cbn in Hi. by apply list_elem_of_singleton in Hi as ->. }
  clearbody b. destruct b as [g from to]. cbn [times low high] in *. unfold arrive.
  destruct (Z.eqb_spec from to) as [E|Hne]; cbn [times low high].
  { split_and!; [right; lia|intros i _; apply Hnote|]. apply Hall; [|lia]. intros i Hi. specialize (Hin i Hi). lia. }
  destruct Hb as [[-> Hb]|Hb]; [destruct a; cbn in *; injection Hb; intros; lia|].
  rewrite (proj2 (Z.ltb_ge _ _)), (proj2 (Z.ltb_ge _ _)) by lia. cbn [orb].
  destruct (Z.leb_spec to q); cbn [times low high].
  { replace (Z.max from (q + 1 - 2048)) with from by lia.
    split_and!; [right; lia|intros i _; apply Hnote|]. apply Hall; [|lia]. intros i Hi. specialize (Hin i Hi). lia. }
  destruct (Z.ltb_spec q from); [rewrite (proj2 (Z.ltb_ge _ _)) by lia|]; cbn [times low high].
  - split_and!; [right; lia|intros i _; apply Hnote|]. apply Hall; [|lia]. intros i Hi. specialize (Hin i Hi). lia.
  - split_and!; [right; lia|apply Hnote'|]. apply Hall; [done|lia].
Qed.

(** *** Packets as they come: the lower half of their numbers, and two clocks *)

Record arrival := mkArrival { at_nanos : Z; number : Z; at_micros : Z }.

Fixpoint receive (s : t) (l : list arrival) : option t :=
  match l with
  | [] => Some s
  | x :: l => s ← saveIncomingPacket s (at_nanos x) (u16 (number x)) (at_micros x); receive s l
  end.

(** Numbers from [lo] on can be told from their lower half. *)
Definition ready (e : ExtendedValue.t) (lo since : Z) : Prop :=
  (e = ExtendedValue.make /\ 2 ^ 16 <= lo /\ lo + 512 <= 2 ^ 17) \/
  (exists cur last, ExtendedValue.tracks 16 e cur last /\ lo <= cur < lo + 512 /\ (lo / 2 ^ 16 < cur / 2 ^ 16 -> since <= last)).

Lemma ready_extend e lo since now q : ready e lo since -> 2 ^ 16 <= lo < 2 ^ 62 -> lo <= q < lo + 512 ->
  since <= now <= since + 1000000000 ->
  exists e', ExtendedValue.extend 16 now e (u16 q) = (q, e') /\ ready e' lo since /\ ExtendedValue.ext_ok 16 e' /\
    ExtendedValue.mRolloverValue e' < 2 ^ 62 + 2 ^ 33.
Proof.
  intros He Hlo Hq Hnow. unfold u16. assert (forall e' cur last, ExtendedValue.tracks 16 e' cur last -> cur < lo + 512 ->
    ExtendedValue.ext_ok 16 e' /\ ExtendedValue.mRolloverValue e' < 2 ^ 62 + 2 ^ 33) as Hok.
  { intros e' cur last (Hr & Hl & _ & Hc) Hcur. split; [|rewrite Hr; zdm]. right. exists (cur / 2 ^ 16), (cur mod 2 ^ 16).
    split_and!; [|done|done| |]; zdm. }
  destruct He as [(-> & H1 & H2)|(cur & last & Ht & Hc & Hl)].
  - destruct (ExtendedValue.extend_first 16 now (q mod 2 ^ 16) ltac:(lia) ltac:(zdm)) as (e' & -> & Ht).
    assert (2 ^ 16 + q mod 2 ^ 16 = q) as Eq by zdm. rewrite Eq in *. exists e'. split; [done|]. split.
    + right. exists q, now. split_and!; [done|lia..].
    + apply (Hok e' q now Ht). lia.
  - destruct (ExtendedValue.extend_tracks 16 e cur last now q ltac:(lia) Ht) as (e' & -> & Ht').
    { split_and!; [lia|lia|lia|]. intros Hlt. unfold ExtendedValue.mRolloverBack.
      assert (lo / 2 ^ 16 < cur / 2 ^ 16) as Hlo' by (assert (lo / 2 ^ 16 <= q / 2 ^ 16) by (apply Z.div_le_mono; lia); lia).
      specialize (Hl Hlo'). lia. }
    exists e'. split; [done|]. set (cur' := ExtendedValue.next_cur 16 cur q) in *.
    set (last' := ExtendedValue.next_since 16 cur last now q) in *.
    assert (lo <= cur' < lo + 512) as Hc' by (unfold cur', ExtendedValue.next_cur; case_match; lia).
    split; [|apply (Hok e' cur' last' Ht'); lia]. right. exists cur', last'. split_and!; [done|lia|lia|].
    unfold cur', last', ExtendedValue.next_cur, ExtendedValue.next_since. intros Hlt.
    destruct (Z.ltb_spec (cur / 2 ^ 16) (q / 2 ^ 16)); [lia|]. apply Hl.
    destruct (Z.ltb_spec (q / 2 ^ 16) (cur / 2 ^ 16)); lia.
Qed.

(** A burst: numbers from [lo] to [hi], within a second from [nanos] and [micros]. *)
Definition burst (lo hi nanos micros : Z) (x : arrival) : Prop :=
  lo <= number x < hi /\ nanos <= at_nanos x <= nanos + 1000000000 /\ micros <= at_micros x <= micros + 1000000.

Definition recent (s : t) (micros : Z) : Prop := mMinSeq s = mMaxSeq s \/ micros <= mLastPacketMicros s.

Definition timed (base : Z) (x : arrival) : Z * Z := (number x, at_micros x - base).

Lemma receive_burst lo hi nanos micros l : 2 ^ 16 <= lo < 2 ^ 61 -> hi <= lo + 512 -> Forall (burst lo hi nanos micros) l ->
  forall s a, simulates s a -> ready (mExtendedValueSeq s) lo nanos -> recent s micros ->
    ExtendedValue.ext_ok 16 (mExtendedValueSeq s) -> ExtendedValue.mRolloverValue (mExtendedValueSeq s) < 2 ^ 62 ->
  exists s', receive s l = Some s' /\
    simulates s' (foldl (fun a p => arrive a p.1 p.2) a (map (timed (mBaseTimeMicros s)) l)) /\
    mLastGeneratedMicros s' = mLastGeneratedMicros s.
Proof.
  intros Hlo Hhi. induction 1 as [|x l (Hq & Hn & Hm) Hl IH]; intros s a Hs He Hrec Hok Hro; cbn [receive map foldl].
  { by exists s. }
  destruct (ready_extend _ lo nanos (at_nanos x) (number x) He ltac:(lia) ltac:(lia) Hn) as (e' & Ex & He' & Hok' & _).
  pose proof (save_arrives s a (at_nanos x) (u16 (number x)) (at_micros x) Hs Hok Hro (u16_range _)) as Hsave. rewrite Ex in Hsave.
  destruct Hsave as (s1 & -> & Hs1 & Ee & El & Eb & Eg). cbn [mbind option_bind].
  assert (next_arrivals s a (number x) (at_micros x) = arrive a (number x) (at_micros x - mBaseTimeMicros s)) as Ea.
  { unfold next_arrivals. destruct a as [f lo' hi']. cbn [times low high] in *. destruct Hs as (_ & E1 & E2). cbn in E1, E2.
    destruct (resets s (number x) (at_micros x)) eqn:Hr; [|done]. destruct Hrec as [E|Hrec]; [by rewrite E1, E2, E|].
    unfold resets, kNoPacketsResetDelayMicros in Hr. apply andb_true_iff in Hr as [Hr _]. apply andb_true_iff in Hr as [_ Hr].
    apply Z.leb_le in Hr. lia. }
  rewrite Ea in Hs1. destruct (IH s1 _ Hs1) as (s' & -> & Hs' & Eg'); [by rewrite Ee|right; lia|by rewrite Ee| |].
  - destruct He' as [(-> & _)|(cur & last & Ht & Hc & _)]; [by rewrite Ee|]. rewrite Ee. destruct Ht as (-> & _). zdm.
  - exists s'. rewrite Eb in Hs'. split_and!; [done|done|by rewrite Eg'].
Qed.

Lemma heard_in l q : heard l q = 0 \/ (q, heard l q) ∈ l.
Proof.
  induction l as [|p l IH] using rev_ind; [by left|]. rewrite heard_snoc, elem_of_app.
  destruct (Z.eqb_spec p.1 q) as [<-|_]; [|destruct IH; tauto]. right; right. destruct p. by constructor.
Qed.

Lemma heard_present l q : (forall p, p ∈ l -> p.2 <> 0) -> q ∈ l.*1 -> heard l q <> 0.
Proof.
  intros Hl. induction l as [|p l IH] using rev_ind; intros Hq; [by apply elem_of_nil in Hq|].
  rewrite heard_snoc. destruct (Z.eqb_spec p.1 q) as [E|Hne].
  - apply Hl. rewrite elem_of_app. right. by constructor.
  - rewrite fmap_app, elem_of_app in Hq. apply IH.
    + intros x Hx. apply Hl. rewrite elem_of_app. by left.
    + destruct Hq as [Hq|Hq]; [done|]. cbn in Hq. by apply list_elem_of_singleton in Hq as ->.
Qed.

(** Nothing to report, and numbers from [lo] on can be told. *)
Record idle (s : t) (lo nanos : Z) : Prop := {
  idle_holds : exists f, holds f s;
  idle_empty : mMinSeq s = mMaxSeq s;
  idle_ready : ready (mExtendedValueSeq s) lo nanos
}.

Lemma ready_ok e lo since : ready e lo since -> 2 ^ 16 <= lo < 2 ^ 61 ->
  ExtendedValue.ext_ok 16 e /\ ExtendedValue.mRolloverValue e < 2 ^ 62.
Proof.
  intros [(-> & _)|(cur & last & (Hr & Hl & _ & Hc) & Hcur & _)] Hlo; [split; [by left|done]|].
  split; [|rewrite Hr; zdm]. right. exists (cur / 2 ^ 16), (cur mod 2 ^ 16). split_and!; [|done|done| |]; zdm.
Qed.

(** The subscriber after a burst. *)
Lemma burst_received lo hi nanos micros l s :
  2 ^ 16 <= lo < 2 ^ 61 -> hi <= lo + 512 -> Forall (burst lo hi nanos micros) l -> idle s lo nanos ->
  mBaseTimeMicros s < micros -> micros + 1000000 - mBaseTimeMicros s < 2 ^ 24 * kReferenceTimeUnits ->
  let f := heard (map (timed (mBaseTimeMicros s)) l) in
  exists s', receive s l = Some s' /\ holds f s' /\ arrivals_ok f (mMinSeq s') (mMaxSeq s') /\
    (mMinSeq s' < mMaxSeq s' -> lo <= mMinSeq s' /\ mMaxSeq s' <= hi) /\
    (forall x, x ∈ l -> mMinSeq s' <= number x < mMaxSeq s' /\ f (number x) <> 0) /\
    mLastGeneratedMicros s' = mLastGeneratedMicros s.
Proof.
  intros Hlo Hhi Hl [(g & Hg) Hempty Hready] Hbase Hlast f. destruct (ready_ok _ _ _ Hready Hlo) as [Hok Hro].
  destruct (receive_burst lo hi nanos micros l Hlo Hhi Hl s (mkArrivals g (mMinSeq s) (mMaxSeq s))) as (s' & Er & Hs' & Eg);
    [by split_and!|done|by left|done|done|].
  set (m := map (timed (mBaseTimeMicros s)) l) in *. unfold simulates in Hs'. set (a' := foldl _ _ m) in *.
  assert (Forall (fun p => lo <= p.1 < hi) m) as Hm by (apply List.Forall_map; eapply list.Forall_impl; [exact Hl|]; by intros x [? _]).
  destruct (arrive_burst lo hi m (mkArrivals g (mMinSeq s) (mMaxSeq s)) Hempty Hhi Hm) as (Hb & Ht & Hin). fold a' in Hb, Ht, Hin.
  destruct Hs' as ([Hw Hfb] & E1 & E2). rewrite E1, E2 in *. exists s'.
  assert (forall p, p ∈ m -> 0 < p.2 < 2 ^ 24 * kReferenceTimeUnits /\ micros - mBaseTimeMicros s <= p.2 <= micros + 1000000 - mBaseTimeMicros s) as Htimes.
  { intros p Hp. apply list_elem_of_In, in_map_iff in Hp as (x & <- & Hx). apply list_elem_of_In in Hx.
    rewrite list.Forall_forall in Hl. destruct (Hl x Hx) as (_ & _ & Hx'). cbn [timed snd]. lia. }
  assert (forall i, f i = 0 \/ 0 < f i < 2 ^ 24 * kReferenceTimeUnits /\
    micros - mBaseTimeMicros s <= f i <= micros + 1000000 - mBaseTimeMicros s) as Hf.
  { intros i. destruct (heard_in m i) as [E|E]; [by left|right]. by apply (Htimes (i, heard m i)). }
  pose proof (window_size _ _ _ _ Hw) as Hws.
  split_and!; [done| | | | |done].
  - split; [|done]. eapply tight_ext; [|exact Hw]. intros i Hi. by apply Ht.
  - split; [|intros i j _ _ Hi Hj; destruct (Hf i), (Hf j); lia|lia]. intros i _. destruct (Hf i); unfold kReferenceTimeUnits in *; lia.
  - intros Hlt. destruct Hb as [[_ Hb]|Hb]; [|lia]. exfalso. rewrite <- E1, <- E2, Hb in Hlt. cbn in Hlt. lia.
  - intros x Hx. assert (number x ∈ m.*1) as Hx'.
    { apply list_elem_of_In. change (m.*1) with (map fst m). unfold m. rewrite map_map. apply in_map_iff. exists x.
      split; [done|]. by apply list_elem_of_In. }
    split; [by apply Hin|]. apply heard_present; [|done]. intros p Hp. destruct (Htimes p Hp). lia.
Qed.

(** *** Any number of packets *)

Definition rollover_below (e : ExtendedValue.t) (k : Z) : Prop := ExtendedValue.mRolloverValue e <= 2 ^ 16 * k.

Lemma extend_rollover now e seq k : ExtendedValue.ext_ok 16 e -> rollover_below e k -> 0 <= k < 2 ^ 45 ->
  rollover_below (ExtendedValue.extend 16 now e seq).2 (k + 1).
Proof.
  unfold rollover_below, ExtendedValue.extend, ExtendedValue.mRolloverIncrement. intros He Hk Hb.
  destruct He as [[E0 El]|(j & v & Hj & Ej & El & Hv)].
  - rewrite E0. cbn [Z.eqb ExtendedValue.mLastValue]. rewrite El. cbn [snd ExtendedValue.mRolloverValue]. lia.
  - rewrite (proj2 (Z.eqb_neq _ _)) by (rewrite Ej; lia). rewrite El. repeat case_match; cbn [snd ExtendedValue.mRolloverValue]; try lia.
    rewrite u64_small; [lia|]. unfold is_u64. rewrite Ej in *. lia.
Qed.

(** The specification, with the state that numbers and resets depend on. *)
Record listener := mkListener { heard_of : arrivals; counter : ExtendedValue.t; last_heard : Z }.

Definition listen (base : Z) (s : listener) (x : Z * Z * Z) : listener :=
  let '(now_nanos, seq, now) := x in
  let '(q, e) := ExtendedValue.extend 16 now_nanos (counter s) seq in
  let a := heard_of s in
  let forget := negb (last_heard s =? 0) && (2000000 <=? now - last_heard s) && (high a + 256 <? q) in
  mkListener (arrive (mkArrivals (times a) (low a) (if forget then low a else high a)) q (now - base)) e now.

Fixpoint saves (s : t) (l : list (Z * Z * Z)) : option t :=
  match l with
  | [] => Some s
  | (now_nanos, seq, now) :: l => s ← saveIncomingPacket s now_nanos seq now; saves s l
  end.

Record listens (base : Z) (a : listener) (s : t) : Prop := {
  listens_arrivals : simulates s (heard_of a);
  listens_counter : mExtendedValueSeq s = counter a;
  listens_last : mLastPacketMicros s = last_heard a;
  listens_base : mBaseTimeMicros s = base
}.

Lemma listens_save base a s now_nanos seq now k : listens base a s -> is_u16 seq ->
  ExtendedValue.ext_ok 16 (counter a) -> rollover_below (counter a) k -> 0 <= k < 2 ^ 45 ->
  let a' := listen base a (now_nanos, seq, now) in
  exists s', saveIncomingPacket s now_nanos seq now = Some s' /\ listens base a' s' /\
    ExtendedValue.ext_ok 16 (counter a') /\ rollover_below (counter a') (k + 1).
Proof.
  intros [Hs Ec El Eb] Hseq Hok Hro Hk. unfold listen. rewrite <- Ec in *.
  pose proof (extend_rollover now_nanos _ seq k Hok Hro Hk) as Hro'.
  assert (ExtendedValue.mRolloverValue (mExtendedValueSeq s) < 2 ^ 62) as Hr by (unfold rollover_below in Hro; lia).
  destruct (ExtendedValue.extend_bounds 16 now_nanos _ seq ltac:(lia) Hok Hr Hseq) as [Hok' _].
  pose proof (save_arrives s (heard_of a) now_nanos seq now Hs Hok Hr Hseq) as Hsave.
  destruct (ExtendedValue.extend 16 now_nanos (mExtendedValueSeq s) seq) as [q e]. cbn [snd counter] in *.
  destruct Hsave as (s' & -> & Hs' & Ee & Elast & Ebase & _). exists s'. split_and!; [done| |done|done].
  split; cbn [heard_of counter last_heard]; [|done|done|by rewrite Ebase].
  unfold next_arrivals, resets in Hs'. destruct Hs as (_ & _ & E2).
  rewrite El, <- E2, Eb in Hs'. exact Hs'.
Qed.

Lemma listens_saves base l : forall a s k, listens base a s -> Forall (fun x => is_u16 x.1.2) l ->
  ExtendedValue.ext_ok 16 (counter a) -> rollover_below (counter a) k -> 0 <= k -> k + Z.of_nat (length l) < 2 ^ 45 ->
  exists s', saves s l = Some s' /\ listens base (foldl (listen base) a l) s'.
Proof.
  induction l as [|[[now_nanos seq] now] l IH]; intros a s k Hs Hl Hok Hro Hk Hlen; cbn [saves foldl]; [by exists s|].
  apply list.Forall_cons in Hl as [Hseq Hl]. cbn [length] in Hlen.
  destruct (listens_save base a s now_nanos seq now k Hs Hseq Hok Hro ltac:(lia)) as (s1 & -> & Hs1 & Hok1 & Hro1).
  cbn [mbind option_bind]. apply (IH _ s1 (k + 1)); try done; lia.
Qed.

Definition silence : listener := mkListener (mkArrivals (fun _ => 0) 0 0) ExtendedValue.make 0.

Lemma listens_make base : listens base silence (make base).
Proof. split; [|done..]. split_and!; [|done..]. split; [|done]. by apply tight_empty. Qed.

End Arriving.

(** ** The publisher's window *)

Module Sending.
Import PublishPacketHistory History Learning.

(** The window is the [count] packets before number [next], [f] of each. *)
Record remembers (f : Z -> PublishPacket) (next count : Z) (h : t) : Prop := {
  rem_count : 1 <= count <= 2048;
  rem_max : mMaxSeq h = u16 (next - 1);
  rem_min : mMinSeq h = u16 (next - count);
  rem_ok : hist_ok h;
  rem_slots : exists slots, mPacketList h = Some slots /\
    forall i, next - count <= i < next -> at_slot slots (index (u16 i)) = f i
}.

Lemma remembers_ring f next count h : remembers f next count h -> ring h.
Proof. intros [Hc Emax Emin Hok _]. split; [done|]. rewrite Emax, Emin. unfold u16. zdm. Qed.

Lemma remembers_inside f next count h i : remembers f next count h -> next - count <= i < next -> inside h (u16 i).
Proof. intros [Hc Emax Emin _ _] Hi. unfold inside. rewrite Emax, Emin. unfold u16. zdm. Qed.

(** The packet is found, as it was saved. *)
Lemma remembers_get f next count h i : remembers f next count h -> next - count <= i < next ->
  exists slots ptr, mPacketList h = Some slots /\ get h (u16 i) = Some ptr /\ at_slot slots ptr = f i.
Proof.
  intros Hr Hi. pose proof Hr as [_ _ _ Hok (slots & E & Hf)]. exists slots, (index (u16 i)). split_and!; [done| |by apply Hf].
  rewrite (get_inside h slots) by (done || apply u16_range). by rewrite decide_True by (by eapply remembers_inside).
Qed.

Lemma index_u16_ne i j : i <> j -> Z.abs (i - j) < 2048 -> index (u16 i) <> index (u16 j).
Proof. intros Hne Hd E. rewrite !slot_mod in E. unfold u16 in E. apply Hne. zdm. Qed.

Record outgoing := mkOutgoing {
  media : MediaType; padding : Z; payload : Z; generated : Z; encrypted : Z; at_micros : Z
}.

Definition packet_of (q : Z) (p : outgoing) : PublishPacket :=
  saved (u16 q) (media p) (padding p) (payload p) (generated p) (encrypted p) (at_micros p).

Definition save (h : t) (q : Z) (p : outgoing) : option t :=
  saveOutgoingPacket h (u16 q) (media p) (padding p) (payload p) (generated p) (encrypted p) (at_micros p).

Definition note (f : Z -> PublishPacket) (q : Z) (p : PublishPacket) (i : Z) : PublishPacket := if i =? q then p else f i.

Lemma save_first h f q p : mPacketList h = None ->
  exists h', save h q p = Some h' /\ remembers (note f q (packet_of q p)) (q + 1) 1 h'.
Proof.
  intros E. unfold save, saveOutgoingPacket. rewrite E. cbn [mbind option_bind]. eexists. split; [done|]. split; [lia| | | |].
  - cbn. f_equal. lia.
  - cbn. f_equal. lia.
  - split; cbn [mMinSeq mMaxSeq mPacketList with_list]; [apply u16_range..|]. intros slots [= <-].
    apply map_Forall_insert_2; [apply u16_range|apply map_Forall_empty].
  - eexists. split; [done|]. intros i Hi. replace i with q by lia. rewrite at_slot_insert, decide_True by done.
    unfold note. by rewrite Z.eqb_refl.
Qed.

(** A round of the loop is enough for the next number. *)
Lemma save_loop_next fuel slots min q : Z.of_nat fuel = 2 ^ 16 ->
  save_loop fuel slots min (u16 (q - 1)) (u16 q) =
  Some (<[index (u16 q) := zero]> slots,
        (if Z.land (u16 (q - 1) + 0x10000 - min) 0xFFFF + 1 =? kMaxPacketCount then u16 (min + 1) else min), u16 q).
Proof.
  intros Hf. destruct fuel as [|fuel]; [lia|]. cbn [save_loop]. assert (u16 (u16 (q - 1) + 1) = u16 q) as -> by (unfold u16; zdm).
  by rewrite Z.eqb_refl.
Qed.

Lemma u16_span a b c : a - b = c -> 0 <= c < 2 ^ 16 -> (u16 a + 0x10000 - u16 b) mod 2 ^ 16 = c.
Proof.
  intros Ec Hc. unfold u16. pose proof (Z.div_mod a (2 ^ 16) ltac:(lia)). pose proof (Z.div_mod b (2 ^ 16) ltac:(lia)).
  replace (a mod 2 ^ 16 + 0x10000 - b mod 2 ^ 16) with (c + (1 - a / 2 ^ 16 + b / 2 ^ 16) * 2 ^ 16) by lia.
  rewrite Z.mod_add by lia. by apply Z.mod_small.
Qed.

Lemma save_next f next count h p : remembers f next count h ->
  exists h', save h next p = Some h' /\
    remembers (note f next (packet_of next p)) (next + 1) (Z.min (count + 1) 2048) h'.
Proof.
  intros [Hc Emax Emin [Hmin Hmax Hseqs] (slots & E & Hf)]. unfold save, saveOutgoingPacket. rewrite E, Emax.
  rewrite (save_loop_next _ _ _ _ lap_enough). cbn [mbind option_bind]. rewrite Emin.
  change 0xFFFF with (2 ^ 16 - 1). rewrite land_ones_mod by lia.
  assert ((u16 (next - 1) + 0x10000 - u16 (next - count)) mod 2 ^ 16 + 1 = count) as ->
    by (rewrite (u16_span _ _ (count - 1)); lia).
  change kMaxPacketCount with 2048. eexists. split; [done|].
  assert ((if count =? 2048 then u16 (u16 (next - count) + 1) else u16 (next - count)) = u16 (next + 1 - Z.min (count + 1) 2048)) as ->.
  { destruct (Z.eqb_spec count 2048) as [->|Hne].
    - unfold u16. rewrite Zplus_mod_idemp_l. f_equal. lia.
    - f_equal. lia. }
  split; [lia| |done| |].
  - cbn. f_equal. lia.
  - split; cbn [mMinSeq mMaxSeq mPacketList with_list]; [apply u16_range..|]. intros slots' [= <-].
    apply map_Forall_insert_2; [apply u16_range|]. apply map_Forall_insert_2; [done|]. by apply Hseqs.
  - eexists. split; [done|]. intros i Hi. rewrite !at_slot_insert. unfold note. destruct (Z.eqb_spec i next) as [->|Hne].
    + by rewrite decide_True by done.
    + rewrite !decide_False by (apply index_u16_ne; lia). apply Hf. lia.
Qed.

(** *** Packets with consecutive numbers *)

Fixpoint sends (h : t) (q : Z) (l : list outgoing) : option t :=
  match l with
  | [] => Some h
  | p :: l => h ← save h q p; sends h (q + 1) l
  end.

Lemma sends_remembers l : forall f next count h, remembers f next count h ->
  exists h', sends h next l = Some h' /\
    remembers (fun i => if i <? next then f i
                        else from_option (packet_of i) zero (l !! Z.to_nat (i - next)))
      (next + Z.of_nat (length l)) (Z.min (count + Z.of_nat (length l)) 2048) h'.
Proof.
  induction l as [|p l IH]; intros f next count h Hr; cbn [sends length].
  { exists h. split; [done|]. pose proof (rem_count _ _ _ _ Hr) as Hc. replace (Z.min _ _) with count by lia. rewrite Z.add_0_r.
    destruct Hr as [? ? ? ? (slots & E & Hf)]. split; [done..|]. exists slots. split; [done|]. intros i Hi.
    rewrite (proj2 (Z.ltb_lt _ _)) by lia. by apply Hf. }
  destruct (save_next f next count h p Hr) as (h1 & -> & H1). cbn [mbind option_bind].
  destruct (IH _ _ _ h1 H1) as (h' & -> & H'). exists h'. split; [done|].
  pose proof (rem_count _ _ _ _ Hr) as Hc. destruct H' as [Hc' Emax Emin Hok (slots & E & Hf)].
  replace (next + Z.of_nat (S (length l))) with (next + 1 + Z.of_nat (length l)) by lia.
  replace (Z.min (count + Z.of_nat (S (length l))) 2048) with (Z.min (Z.min (count + 1) 2048 + Z.of_nat (length l)) 2048) by lia.
  split; [done..|]. exists slots. split; [done|]. intros i Hi. rewrite Hf by done. unfold note.
  destruct (Z.ltb_spec i (next + 1)), (Z.ltb_spec i next), (Z.eqb_spec i next); try lia; [done| |].
  - subst i. by rewrite Z.sub_diag.
  - replace (Z.to_nat (i - next)) with (S (Z.to_nat (i - (next + 1)))) by lia. done.
Qed.

(** *** Any packets, any reports *)

Lemma save_loop_total fuel : forall slots min max seq,
  is_u16 min -> is_u16 max -> is_u16 seq -> (seq - max - 1) mod 2 ^ 16 < Z.of_nat fuel ->
  map_Forall (fun _ p => is_u16 (PublishPacketHistory.seq p)) slots ->
  exists slots' min', save_loop fuel slots min max seq = Some (slots', min', seq) /\ is_u16 min' /\
    map_Forall (fun _ p => is_u16 (PublishPacketHistory.seq p)) slots'.
Proof.
  induction fuel as [|fuel IH]; intros slots min max seq Hmin Hmax Hseq Hf Hs; cbn [save_loop]; [zdm|].
  set (min' := if (_ =? kMaxPacketCount) then u16 _ else min). assert (is_u16 min') as Hmin' by (unfold min'; case_match; [apply u16_range|done]).
  set (slots' := <[_ := zero]> slots).
  assert (map_Forall (fun _ p => is_u16 (PublishPacketHistory.seq p)) slots') as Hs' by (by apply map_Forall_insert_2).
  destruct (Z.eqb_spec (u16 (max + 1)) seq) as [->|Hne]; [by exists slots', min'|].
  apply (IH slots' min' (u16 (max + 1)) seq Hmin' (u16_range _) Hseq); [|done].
  clear - Hf Hne Hmax Hseq. unfold is_u16, u16 in *.
  replace (seq - (max + 1) mod 2 ^ 16 - 1) with (seq - max - 1 - 1 + ((max + 1) / 2 ^ 16) * 2 ^ 16) by zdm.
  rewrite Z.mod_add by lia. zdm.
Qed.

Lemma saveOutgoing_total h seq media padding payload generated encrypted now : hist_ok h -> is_u16 seq ->
  exists h', saveOutgoingPacket h seq media padding payload generated encrypted now = Some h' /\ hist_ok h' /\
    mMaxSeq h' = seq.
Proof.
  intros [Hmin Hmax Hs] Hseq. unfold saveOutgoingPacket. destruct (mPacketList h) as [slots|] eqn:E.
  - destruct (save_loop_total lap slots (mMinSeq h) (mMaxSeq h) seq Hmin Hmax Hseq) as (slots' & min' & -> & Hmin' & Hs');
      [rewrite lap_enough; zdm|by apply Hs|].
    cbn [mbind option_bind]. eexists. split; [done|]. split; [|done]. split; [done|done|]. intros k [= <-].
    by apply map_Forall_insert_2.
  - cbn [mbind option_bind]. eexists. split; [done|]. split; [|done]. split; [done|done|]. intros k [= <-].
    apply map_Forall_insert_2; [done|]. apply map_Forall_empty.
Qed.

(** What happens to the source of the extension. *)
Inductive event :=
  | Sent (packet : RtpPacket.t) (generatedSize encryptedSize now : Z)
  | Nacked (packet : RtpPacket.t)
  | Reported (report : list Z) (now_nanos now : Z).

Definition handle (s : RtpExtensionSourceTWCC.t) (x : event) : option RtpExtensionSourceTWCC.t :=
  match x with
  | Sent packet generatedSize encryptedSize now =>
      RtpExtensionSourceTWCC.onBeforeSendingRtpPacket packet generatedSize encryptedSize now s
  | Nacked packet => RtpExtensionSourceTWCC.onPacketWasNacked packet s
  | Reported report now_nanos now =>
      RtpExtensionSourceTWCC.onReceivedRtcpPacket (ByteReader.make report) now_nanos now s
  end.

Fixpoint handles (s : RtpExtensionSourceTWCC.t) (l : list event) : option RtpExtensionSourceTWCC.t :=
  match l with
  | [] => Some s
  | x :: l => s ← handle s x; handles s l
  end.

Lemma getFeedbackSeq_total packet : exists o, TWCC.getFeedbackSeq packet = Some o /\ forall seq, o = Some seq -> is_u16 seq.
Proof.
  unfold TWCC.getFeedbackSeq. case_match; [by exists None|]. unfold RtpExtension.findU16, RtpExtension.find_fixed.
  destruct (RtpExtension.findAny_total (RtpPacket.mExtension packet) (TWCC.getExtensionId (RtpPacket.mTrack packet))) as (o & ->).
  cbn [mbind option_bind]. destruct o as [bs|]; [|by exists None]. case_decide as Hlen; [|by exists None].
  cbn [Wire.read_field Wire.width_bytes] in *. destruct (ByteReader.readU16_some [] bs Hlen) as (v & E).
  change (ByteReader.make bs) with (ByteReader.reader_at [] bs). rewrite E. cbn [mbind option_bind]. exists (Some v).
  split; [done|]. intros seq [= <-]. by eapply ByteReader.readU16_range.
Qed.

Lemma handle_total s x : hist_ok (RtpExtensionSourceTWCC.mPacketHistory s) ->
  exists s', handle s x = Some s' /\ hist_ok (RtpExtensionSourceTWCC.mPacketHistory s').
Proof.
  intros Hs. destruct x as [packet generated encrypted now|packet|report now_nanos now]; cbn [handle].
  - unfold RtpExtensionSourceTWCC.onBeforeSendingRtpPacket. destruct (getFeedbackSeq_total packet) as (o & -> & Ho).
    cbn [mbind option_bind]. destruct o as [seq|]; [|by exists s].
    match goal with |- context [saveOutgoingPacket _ _ ?a ?b ?c ?d ?e ?f] =>
      destruct (saveOutgoing_total _ seq a b c d e f Hs (Ho seq eq_refl)) as (h & -> & Hh & _) end. by eexists.
  - unfold RtpExtensionSourceTWCC.onPacketWasNacked. destruct (getFeedbackSeq_total packet) as (o & -> & _).
    cbn [mbind option_bind]. destruct (o ≫= _) as [ptr|]; [|by exists s]. eexists. split; [done|]. by apply modify_ok.
  - change (ByteReader.make report) with (ByteReader.reader_at [] report). by apply AnyReport.report_total.
Qed.

Lemma handles_total l : forall s, hist_ok (RtpExtensionSourceTWCC.mPacketHistory s) ->
  exists s', handles s l = Some s' /\ hist_ok (RtpExtensionSourceTWCC.mPacketHistory s').
Proof.
  induction l as [|x l IH]; intros s Hs; cbn [handles]; [by exists s|].
  destruct (handle_total s x Hs) as (s1 & -> & H1). by apply IH.
Qed.

Lemma make_ok : hist_ok make.
Proof. split; [done|done|]. by intros slots. Qed.

End Sending.

(** ** Reports across the network *)

Module Across.
Import RtpExtensionSourceTWCC Report Reporting History Learning.

Definition call_of (ssrc : Z) (raw : list Z) : Control.call :=
  Control.CallTwcc ssrc (ByteReader.reader_at (be_bytes 4 ssrc) (raw ++ replicate (RtcpPacket.word_padding (12 + length raw)) 0)).

Lemma feedback_payload ssrc raw : RtcpPacket.mPayload (RtpResponderTWCC.feedback ssrc raw) = be_bytes 4 ssrc ++ raw.
Proof. cbn [RtcpPacket.mPayload RtpResponderTWCC.feedback]. by rewrite Wire.writeU32_be. Qed.

Lemma feedback_wf ssrc raw : is_u32 ssrc -> bytes_ok raw -> (length raw <= 1020)%nat ->
  RtcpPacket.wf (RtpResponderTWCC.feedback ssrc raw).
Proof.
  intros Hs Hr Hl. split; [done|cbn; lia|done| |].
  - rewrite feedback_payload. apply Forall_app. split; [apply be_bytes_ok|done].
  - rewrite feedback_payload, length_app, length_be_bytes. lia.
Qed.

Lemma feedback_length ssrc raw : is_u32 ssrc -> bytes_ok raw -> (length raw <= 1020)%nat ->
  (length (RtcpPacket.generate (RtpResponderTWCC.feedback ssrc raw)) <= 1032)%nat.
Proof.
  intros Hs Hr Hl. destruct (RtcpPacket.generate_bytes _ (feedback_wf ssrc raw Hs Hr Hl)) as (_ & _ & -> & _).
  rewrite feedback_payload, length_app, length_be_bytes.
  pose proof (Nat.Div0.div_le_mono (8 + (4 + length raw) + 3) 1035 4 ltac:(lia)) as Hd. change (1035 / 4)%nat with 258%nat in Hd. lia.
Qed.

Lemma onDatagram_feedback tracks at_ st ssrc raw : is_u32 ssrc -> bytes_ok raw -> (length raw <= 1020)%nat ->
  Control.onDatagram tracks at_ st (RtcpPacket.generate (RtpResponderTWCC.feedback ssrc raw)) = Some (st, [call_of ssrc raw]).
Proof.
  intros Hs Hr Hl. unfold Control.onDatagram.
  replace (RtcpPacket.generate _) with (RtcpPacket.combine [RtpResponderTWCC.feedback ssrc raw]) by (apply app_nil_r).
  rewrite RtcpPacket.fromUdpPacket_combine by (constructor; [by apply feedback_wf|done]). cbn [map mbind option_bind Control.onReceivedControlPackets].
  unfold RtcpPacket.received. rewrite feedback_payload, length_app, length_be_bytes, <- app_assoc.
  unfold Control.onReceivedControlPacket. cbn [RtcpPacket.mPayloadId RtcpPacket.mPayload RtcpPacket.mRC RtpResponderTWCC.feedback].
  change (RtcpPacket.kFeedback =? 200) with false. change (RtcpPacket.kFeedback =? 201) with false.
  change (RtcpPacket.kFeedback =? 205) with true. change (15 =? 1) with false. change (15 =? 15) with true. cbv iota.
  change (ByteReader.make ?x) with (ByteReader.reader_at [] x).
  rewrite ByteReader.remaining_at, length_app, length_be_bytes. cbn [Nat.leb Nat.add].
  rewrite Wire.readU32_be by done. done.
Qed.

Lemma onDatagrams_feedback tracks at_ st ssrc raws : is_u32 ssrc -> Forall bytes_ok raws ->
  Forall (fun raw => length raw <= 1020)%nat raws ->
  Control.onDatagrams tracks at_ st (map RtcpPacket.generate (map (RtpResponderTWCC.feedback ssrc) raws)) =
  Some (st, map (call_of ssrc) raws).
Proof.
  intros Hs. induction 1 as [|raw raws Hr Hraws IH]; intros Hl; [done|]. apply list.Forall_cons in Hl as [Hl Hls].
  cbn [map Control.onDatagrams]. rewrite onDatagram_feedback by done. cbn [mbind option_bind]. by rewrite IH.
Qed.

Lemma encode_bytes rep : bytes_ok (encode rep).
Proof.
  assert (forall {A} (g : A -> list Z) l, (forall x, bytes_ok (g x)) -> bytes_ok (concat (map g l))) as Hc.
  { intros A g l Hg. induction l as [|x l IH]; [constructor|]. apply Forall_app. split; [apply Hg|apply IH]. }
  unfold encode. repeat (apply Forall_app; split); try apply be_bytes_ok.
  - apply Hc. intros c. apply be_bytes_ok.
  - apply Hc. intros t. unfold stamp. repeat case_match; try apply be_bytes_ok. constructor.
Qed.

Lemma covers_le f reps : forall lo hi, covers f lo reps hi -> lo <= hi.
Proof.
  induction reps as [|rep reps IH]; intros lo hi; cbn [covers]; [lia|]. intros (_ & _ & Hc). specialize (IH _ _ Hc). lia.
Qed.

Lemma receive_reports f ssrc now_nanos now reps : forall lo hi s slots,
  covers f lo reps hi -> hi - lo <= 2048 ->
  ring (mPacketHistory s) -> PublishPacketHistory.mPacketList (mPacketHistory s) = Some slots ->
  (forall q, lo <= q < hi -> inside (mPacketHistory s) (u16 q)) ->
  exists s', Feedback.receive (map (call_of ssrc) (map encode reps)) now_nanos now (Some s) = Some (Some s') /\
    ring (mPacketHistory s') /\ keeps (others f lo hi) (mPacketHistory s) (mPacketHistory s') /\
    knows f lo hi (mPacketHistory s').
Proof.
  induction reps as [|rep reps IH]; intros lo hi s slots Hc Hspan Hr E Hin; cbn [map Feedback.receive].
  { cbn in Hc. subst hi. exists s. split_and!; [done|done|by eapply keeps_refl|intros q Hq; lia]. }
  destruct Hc as (<- & Hg & Hc). pose proof (covers_le _ _ _ _ Hc) as Hle. set (mid := _ + Z.of_nat _) in *.
  destruct (report_read f rep (be_bytes 4 ssrc) (replicate (RtcpPacket.word_padding (12 + length (encode rep))) 0)
    now_nanos now s slots Hg Hr E) as (s1 & E1 & Hr1 & Hk1 & Hn1); [intros q Hq; apply Hin; lia|].
  unfold call_of at 1. unfold Feedback.onReceivedControlMessage_TWCC. rewrite E1. cbn [mbind option_bind].
  pose proof Hk1 as (_ & _ & sl & slots1 & _ & Es1 & _).
  destruct (IH mid hi s1 slots1 Hc ltac:(lia) Hr1 Es1) as (s2 & -> & Hr2 & Hk2 & Hn2).
  { intros q Hq. eapply keeps_inside; [exact Hk1|]. apply Hin. lia. }
  exists s2. split_and!; [done|done| |].
  - eapply keeps_chain; (eapply keeps_weaken; [|eassumption]); intros j Hj q Hq Hf; apply Hj; [lia|done..|lia|done].
  - intros q Hq Hf. destruct (decide (q < mid)) as [Hlt|Hge].
    + destruct (Hn1 q ltac:(lia) Hf) as (t & Ht & Hb). exists t. split; [|done].
      pose proof Ht as (? & i & _ & Hi & _). eapply keeps_learned; [exact Hk2|exact Hi| |exact Ht].
      intros q' Hq' _. rewrite (get_inside (mPacketHistory s1) slots1) in Hi by (apply Hr1 || done || apply u16_range).
      case_decide; [|done]. injection Hi as <-. apply Sending.index_u16_ne; lia.
    + destruct (Hn2 q ltac:(lia) Hf) as (t & Ht & Hb). exists t. split; [done|]. lia.
Qed.

End Across.

(** ** The properties *)

Module Loop.
Import RtpExtensionSourceTWCC Reporting Arriving Learning.

(** C6: a burst of packets that the subscriber receives, in any order and with
    any losses, is reported in datagrams of at most 1032 bytes which, parsed and
    dispatched at the other end, teach the publisher when each packet arrived,
    up to the rounding of the deltas: less than 250 microseconds for each number
    from the first one of the window to the packet's own, itself included; the
    subscriber then has nothing left to report.  The burst lasts a second at most,
    its numbers span 512, and the publisher still remembers them. *)
Theorem feedback_roundtrip lo hi nanos micros l s f next count pub track now tracks at_ st now_nanos now' :
  2 ^ 16 <= lo < 2 ^ 61 -> hi <= lo + 512 -> Forall (burst lo hi nanos micros) l -> idle s lo nanos ->
  SubscribePacketHistory.mBaseTimeMicros s < micros ->
  micros + 1000000 - SubscribePacketHistory.mBaseTimeMicros s < 2 ^ 24 * kReferenceTimeUnits ->
  SubscribePacketHistory.mLastGeneratedMicros s + SubscribePacketHistory.kGenerateIntervalMicros <= now ->
  is_u32 (Track.mSSRC track) ->
  Sending.remembers f next count (mPacketHistory pub) -> next - count <= lo -> hi <= next ->
  exists s1 datagrams s2 calls pub',
    receive s l = Some s1 /\ Feedback.run track now s1 = Some (datagrams, s2) /\
    SubscribePacketHistory.mMinSeq s2 = SubscribePacketHistory.mMaxSeq s2 /\
    Forall (fun d => length d <= 1032)%nat datagrams /\
    Control.onDatagrams tracks at_ st datagrams = Some (st, calls) /\
    Feedback.receive calls now_nanos now' (Some pub) = Some (Some pub') /\
    forall x, x ∈ l -> lo <= SubscribePacketHistory.mMinSeq s1 <= number x /\
      exists time, learned (mPacketHistory pub') (number x) time /\
        Z.abs (heard (map (timed (SubscribePacketHistory.mBaseTimeMicros s)) l) (number x) - time) <=
          249 * (number x - SubscribePacketHistory.mMinSeq s1 + 1).
Proof.
  intros Hlo Hhi Hl Hs Hbase Hlast Hnow Hssrc Hpub Hfrom Hto.
  destruct (burst_received lo hi nanos micros l s Hlo Hhi Hl Hs Hbase Hlast) as (s1 & Er & Hh & Ha & Hb & Hin & Eg).
  set (g := heard _) in *. destruct (generate_reports g s1 now Hh Ha) as (reps & s2 & Egen & Hc & Hlen & E1 & E2 & _).
  assert (Forall bytes_ok (map encode reps)) as Hbytes by (apply List.Forall_map, Forall_true, Across.encode_bytes).
  pose proof (Sending.remembers_ring _ _ _ _ Hpub) as Hring. pose proof Hpub as [_ _ _ _ (slots & Es & _)].
  destruct (Across.receive_reports g (Track.mSSRC track) now_nanos now' reps _ _ pub slots Hc) as (pub' & Epub & _ & _ & Hknows);
    [destruct Ha; lia|done|done| |].
  { intros q Hq. apply (Sending.remembers_inside f next count); [done|]. specialize (Hb ltac:(lia)). lia. }
  exists s1, (map RtcpPacket.generate (map (RtpResponderTWCC.feedback (Track.mSSRC track)) (map encode reps))), s2,
    (map (Across.call_of (Track.mSSRC track)) (map encode reps)), pub'.
  split_and!; [done| |by rewrite E1| |by apply Across.onDatagrams_feedback|done|].
  - unfold Feedback.run, RtpResponderTWCC.run, SubscribePacketHistory.isTimeToGenerate. rewrite Eg.
    rewrite (proj2 (Z.leb_le _ _)) by lia. by rewrite Egen.
  - apply List.Forall_map, List.Forall_map. rewrite list.Forall_forall in *. intros raw Hraw.
    apply Across.feedback_length; [done|by apply Hbytes|by apply Hlen].
  - intros x Hx. destruct (Hin x Hx) as [Hq Hf]. specialize (Hb ltac:(lia)). split; [lia|].
    destruct (Hknows (number x) Hq Hf) as (time & Ht & Herr). by exists time.
Qed.

(** Three packets sent, the second of them late, half a second after the start. *)
Definition demo_sent : list Sending.outgoing :=
  [Sending.mkOutgoing Video 0 900 950 960 400000; Sending.mkOutgoing Video 0 900 950 960 400100;
   Sending.mkOutgoing Audio 0 90 110 120 400200].

Definition demo_arrivals : list arrival :=
  [mkArrival 5 70000 500064; mkArrival 6 70002 500700; mkArrival 900 70001 512000].

Lemma feedback_roundtrip_witness :
  exists pub, Sending.sends PublishPacketHistory.make 70000 demo_sent = Some (mPacketHistory pub) /\
  exists s1 datagrams s2 calls pub',
    receive (SubscribePacketHistory.make 0) demo_arrivals = Some s1 /\
    Feedback.run Demo.demo_track 600000 s1 = Some (datagrams, s2) /\
    SubscribePacketHistory.mMinSeq s2 = SubscribePacketHistory.mMaxSeq s2 /\
    Forall (fun d => length d <= 1032)%nat datagrams /\
    Control.onDatagrams [] 7 Control.demo_state datagrams = Some (Control.demo_state, calls) /\
    Feedback.receive calls 0 650000 (Some pub) = Some (Some pub') /\
    forall x, x ∈ demo_arrivals -> 70000 <= SubscribePacketHistory.mMinSeq s1 <= number x /\
      exists time, learned (mPacketHistory pub') (number x) time /\
        Z.abs (heard (map (timed (SubscribePacketHistory.mBaseTimeMicros (SubscribePacketHistory.make 0))) demo_arrivals) (number x)
               - time) <= 249 * (number x - SubscribePacketHistory.mMinSeq s1 + 1).
Proof.
  unfold demo_sent. cbn [Sending.sends].
  match goal with |- context [Sending.save _ 70000 ?p] =>
    destruct (Sending.save_first PublishPacketHistory.make (fun _ => PublishPacketHistory.zero) 70000 p eq_refl) as (h1 & -> & H1) end.
  destruct (Sending.sends_remembers (tail demo_sent) _ _ _ h1 H1) as (h & Eh & Hr).
  exists (mk TWCC.make h). split; [exact Eh|].
  eapply (feedback_roundtrip 70000 70003 0 500000 demo_arrivals (SubscribePacketHistory.make 0) _ _ _ (mk TWCC.make h)
    Demo.demo_track 600000 [] 7 Control.demo_state 0 650000); [| | | | | | | |exact Hr| |]; try (cbn; lia).
  - repeat constructor; cbn; lia.
  - split; [exists (fun _ => 0); split; [by apply tight_empty|done]|done|left; split; [done|lia]].
  - by vm_compute.
  - by vm_compute.
  - vm_compute. split; congruence.
Defined.

(** C29: whatever the numbers and times of the packets that arrive, no assertion
    of the subscriber fails, and its window is the one of the specification:
    every number extended, up to 2048 of them, each with its last arrival time or
    none, dropped when more than 512 numbers away or too old. *)
Theorem subscriber_refines base l :
  Forall (fun x : Z * Z * Z => is_u16 x.1.2) l -> Z.of_nat (length l) < 2 ^ 44 ->
  exists s, saves (SubscribePacketHistory.make base) l = Some s /\
    let a := heard_of (foldl (listen base) silence l) in
    SubscribePacketHistory.mMinSeq s = low a /\ SubscribePacketHistory.mMaxSeq s = high a /\
    0 <= low a <= high a /\ high a - low a <= 2048 /\
    (forall q, low a <= q < high a ->
       default ∅ (SubscribePacketHistory.mPacketList s) !! SubscribePacketHistory.index q =
       Some (SubscribePacketHistory.mkPacket q (times a q))) /\
    (forall i, is_Some (default ∅ (SubscribePacketHistory.mPacketList s) !! i) ->
       exists q, low a <= q < high a /\ i = SubscribePacketHistory.index q).
Proof.
  intros Hl Hlen. destruct (listens_saves base l silence (SubscribePacketHistory.make base) 0) as (s & Es & [([Hw _] & E1 & E2) _ _ _]);
    [apply listens_make|done|by left|done|lia|lia|].
  exists s. split; [done|]. cbv zeta. rewrite E1, E2 in *. pose proof (window_size _ _ _ _ Hw).
  split_and!; try done; try lia; [apply Hw|apply (tight_only _ _ _ _ Hw)].
Qed.

Lemma subscriber_refines_witness :
  let l := [(0, 7, 1000); (10, 9, 2000); (20, 8, 3000); (30, 7, 4000); (40, 40000, 5000)] in
  exists s, saves (SubscribePacketHistory.make 500) l = Some s /\
    SubscribePacketHistory.mMinSeq s = 65543 /\ SubscribePacketHistory.mMaxSeq s = 65546 /\
    default ∅ (SubscribePacketHistory.mPacketList s) !! SubscribePacketHistory.index 65543 =
      Some (SubscribePacketHistory.mkPacket 65543 3500).
Proof.
  intros l. destruct (subscriber_refines 500 l) as (s & Es & Emin & Emax & _ & _ & Hs & _).
  - repeat constructor; cbn; unfold is_u16; lia.
  - cbn. lia.
  - exists s. split; [exact Es|]. rewrite Emin, Emax, Hs by (vm_compute; split; congruence).
    split_and!; vm_compute; reflexivity.
Defined.

(** C30: whatever is sent and whatever the peer reports, however malformed, every
    loop of the publisher ends: packets with any numbers can be saved, NACKs and
    reports of any bytes are handled to the end, and the window stays one of
    sixteen-bit numbers. *)
Theorem publisher_total l :
  exists s, Sending.handles make l = Some s /\ History.hist_ok (mPacketHistory s).
Proof. apply Sending.handles_total, Sending.make_ok. Qed.

(** C37: after any packets with consecutive numbers, the last 2048 of them are
    found by their sixteen-bit numbers, each as it was saved. *)
Theorem publisher_remembers q p l :
  exists h, Sending.sends PublishPacketHistory.make q (p :: l) = Some h /\
    forall i, (i < length (p :: l))%nat -> Z.of_nat (length (p :: l)) - Z.of_nat i <= 2048 ->
      exists slots ptr x, PublishPacketHistory.mPacketList h = Some slots /\
        PublishPacketHistory.get h (u16 (q + Z.of_nat i)) = Some ptr /\
        (p :: l) !! i = Some x /\ PublishPacketHistory.at_slot slots ptr = Sending.packet_of (q + Z.of_nat i) x.
Proof.
  cbn [Sending.sends length]. destruct (Sending.save_first PublishPacketHistory.make (fun _ => PublishPacketHistory.zero) q p eq_refl)
    as (h1 & -> & H1). cbn [mbind option_bind].
  destruct (Sending.sends_remembers l _ _ _ h1 H1) as (h & -> & Hr). exists h. split; [done|]. intros i Hi Hlast.
  destruct (Sending.remembers_get _ _ _ h (q + Z.of_nat i) Hr ltac:(lia)) as (slots & ptr & E & Eg & Ef).
  destruct ((p :: l) !! i) as [x|] eqn:Ex; [|apply lookup_ge_None in Ex; cbn in Ex; lia].
  exists slots, ptr, x. split_and!; [done..|]. rewrite Ef. destruct i as [|i].
  - rewrite Z.add_0_r, (proj2 (Z.ltb_lt _ _)) by lia. unfold Sending.note. rewrite Z.eqb_refl. by injection Ex as ->.
  - rewrite (proj2 (Z.ltb_ge _ _)) by lia. replace (Z.to_nat (q + Z.of_nat (S i) - (q + 1))) with i by lia.
    change (l !! i = Some x) in Ex. by rewrite Ex.
Qed.

(** *** Where it fails *)

(** The report is empty and a packet cannot be added to it: nothing moves. *)
Record stuck (f : Z -> Z) (max : Z) (r : SubscribePacketHistory.reporting) : Prop := {
  stuck_window : window f (SubscribePacketHistory.slots r) (SubscribePacketHistory.min r) max;
  stuck_empty : Builder.empty (SubscribePacketHistory.builder r) = true;
  stuck_first : 0 < f (SubscribePacketHistory.min r);
  stuck_second : f (SubscribePacketHistory.min r) + kMaxLargeDeltaMicros < f (SubscribePacketHistory.min r + 1);
  stuck_time : SubscribePacketHistory.curr_time r = 0 \/
    SubscribePacketHistory.curr_time r = f (SubscribePacketHistory.min r) / kReferenceTimeUnits * kReferenceTimeUnits;
  stuck_two : SubscribePacketHistory.min r + 2 <= max
}.

(** A run stops before the second packet. *)
Lemma peek_stops f lo hi n slots m max time : window f slots m max -> m + 2 <= max -> hi <= kMaxLargeDeltaMicros ->
  0 < f m -> f m + kMaxLargeDeltaMicros < f (m + 1) ->
  exists entries time', SubscribePacketHistory.peek_run lo hi (S (S n)) slots m max time = Some (entries, time') /\
    (length entries <= 1)%nat.
Proof.
  intros [Hs Hb] Hm Hhi Hf Hgap. cbn [SubscribePacketHistory.peek_run]. unfold kMaxLargeDeltaMicros in *.
  rewrite (proj2 (Z.ltb_lt m max)) by lia. rewrite (Hs m) by lia. cbn [mbind option_bind SubscribePacketHistory.received_time_micros].
  rewrite (proj2 (Z.eqb_neq _ _)) by lia. destruct ((time + lo <=? f m) && (f m <=? time + hi)); [|exists [], time; split; [done|cbn; lia]].
  rewrite u64_small by (unfold is_u64; lia). rewrite (proj2 (Z.ltb_lt (m + 1) max)) by lia.
  rewrite (Hs (m + 1)) by lia. cbn [mbind option_bind SubscribePacketHistory.received_time_micros].
  rewrite (proj2 (Z.eqb_neq _ _)) by lia. rewrite (proj2 (Z.leb_gt (f (m + 1)) (f m + hi))) by lia. rewrite andb_false_r.
  cbn [mbind option_bind]. eexists _, _. split; [done|cbn; lia].
Qed.

Lemma stuck_round f max r : stuck f max r ->
  exists r', SubscribePacketHistory.report_round r max = Some r' /\ stuck f max r'.
Proof.
  intros [Hw He Hf Hgap Ht Hm]. pose proof (window_size _ _ _ _ Hw) as Hb. unfold SubscribePacketHistory.report_round.
  rewrite (window_slots _ _ _ _ Hw) by lia. cbn [mbind option_bind SubscribePacketHistory.received_time_micros].
  rewrite (proj2 (Z.eqb_neq _ _)) by lia. unfold SubscribePacketHistory.report_received.
  cbn [SubscribePacketHistory.received_time_micros SubscribePacketHistory.seq_ext].
  set (m := SubscribePacketHistory.min r) in *. rewrite (Z.quot_div_nonneg (f m)) by (unfold kReferenceTimeUnits; lia).
  set (time := f m / kReferenceTimeUnits * kReferenceTimeUnits) in *.
  assert ((if SubscribePacketHistory.curr_time r =? 0 then time else SubscribePacketHistory.curr_time r) = time) as ->
    by (destruct (Z.eqb_spec (SubscribePacketHistory.curr_time r) 0); [done|]; by destruct Ht).
  assert (exists b, (if SubscribePacketHistory.curr_time r =? 0 then Builder.setReferenceTime (SubscribePacketHistory.builder r) time
    else Some (SubscribePacketHistory.builder r)) = Some b /\ Builder.empty b = true /\ Builder.size b = 6%nat) as (b & -> & Hbe & Hbs).
  { assert (Builder.size (SubscribePacketHistory.builder r) = 6%nat) as Hs.
    { unfold Builder.empty in He. apply andb_true_iff in He as [H1 H2]. apply bool_decide_eq_true in H1, H2.
      unfold Builder.size. by rewrite H1, H2. }
    case_match; [|by exists (SubscribePacketHistory.builder r)]. unfold Builder.setReferenceTime.
    unfold time. rewrite Z.rem_mul by done. cbn [Z.eqb guard_true mbind option_bind]. by eexists. }
  cbn [mbind option_bind SubscribePacketHistory.slots SubscribePacketHistory.min SubscribePacketHistory.builder]. fold m.
  destruct (peek_stops f kMinSmallDeltaMicros kMaxSmallDeltaMicros 12 _ m max time Hw Hm ltac:(done) Hf Hgap) as (l1 & t1 & E1 & H1).
  unfold SubscribePacketHistory.peekSmallDeltaRun. rewrite E1. cbn [mbind option_bind].
  rewrite (u64_small (m + _)) by (unfold is_u64; lia). rewrite (proj2 (Z.eqb_neq _ 14)), (proj2 (Z.eqb_neq _ max)) by lia. cbn [orb].
  destruct (peek_stops f kMinLargeDeltaMicros kMaxLargeDeltaMicros 5 _ m max time Hw Hm ltac:(done) Hf Hgap) as (l2 & t2 & E2 & H2).
  unfold SubscribePacketHistory.peekLargeDeltaRun. rewrite E2. cbn [mbind option_bind].
  rewrite (u64_small (m + _)) by (unfold is_u64; lia). rewrite (proj2 (Z.eqb_neq _ 7)), (proj2 (Z.eqb_neq _ max)) by lia. cbn [orb].
  rewrite Hbe. cbn [mbind option_bind SubscribePacketHistory.builder]. rewrite Hbs. cbn [Nat.leb SubscribePacketHistory.kMaxPacketSize].
  eexists. split; [done|]. split; cbn [SubscribePacketHistory.slots SubscribePacketHistory.min SubscribePacketHistory.builder SubscribePacketHistory.curr_time];
    fold m; try done. by right.
Qed.

(** The state in which [generate] enters its loop, and the one after [n] rounds. *)
Definition first_round (s : SubscribePacketHistory.t) : SubscribePacketHistory.reporting :=
  SubscribePacketHistory.mkReporting (default ∅ (SubscribePacketHistory.mPacketList s)) (SubscribePacketHistory.mMinSeq s) 0
    Builder.make (SubscribePacketHistory.mFbCount s) [].

Fixpoint rounds_from (n : nat) (r : SubscribePacketHistory.reporting) (max : Z) : option SubscribePacketHistory.reporting :=
  match n with
  | O => Some r
  | S n => r ← SubscribePacketHistory.report_round r max; rounds_from n r max
  end.

(** when the first packet to report and the next one arrive more than 8.19
    seconds apart, and both are received, the loop that makes the reports never
    ends: however many rounds it has run, each has succeeded, and the loop
    condition still holds; so no fuel is enough.  Neither a chunk of small nor one
    of large deltas can be filled, and there is no report to flush. *)
Theorem generate_hangs f s : holds f s ->
  let m := SubscribePacketHistory.mMinSeq s in
  m + 2 <= SubscribePacketHistory.mMaxSeq s -> 0 < f m -> f m + kMaxLargeDeltaMicros < f (m + 1) ->
  forall n, exists r, rounds_from n (first_round s) (SubscribePacketHistory.mMaxSeq s) = Some r /\
    SubscribePacketHistory.min r < SubscribePacketHistory.mMaxSeq s /\
    SubscribePacketHistory.report_loop n (first_round s) (SubscribePacketHistory.mMaxSeq s) = None.
Proof.
  intros [Hw _] m Hm Hf Hgap n. set (max := SubscribePacketHistory.mMaxSeq s) in *.
  assert (forall r, stuck f max r -> exists r', rounds_from n r max = Some r' /\ SubscribePacketHistory.min r' < max /\
    SubscribePacketHistory.report_loop n r max = None) as Hall.
  { induction n as [|n IH]; intros r Hr; cbn [SubscribePacketHistory.report_loop rounds_from];
      rewrite (proj2 (Z.ltb_lt (SubscribePacketHistory.min r) max)) by (pose proof (stuck_two _ _ _ Hr); lia).
    - exists r. split_and!; [done|pose proof (stuck_two _ _ _ Hr); lia|done].
    - destruct (stuck_round f max r Hr) as (r' & -> & Hr'). by apply IH. }
  apply Hall. split; [exact Hw|done|done|done|by left|done].
Qed.

(** Nine seconds between two packets that follow each other. *)
Definition demo_gap : list (Z * Z * Z) := [(0, 7, 1000); (9000000000, 8, 9001000); (9000000001, 9, 9001001)].

Lemma generate_hangs_witness :
  exists s, saves (SubscribePacketHistory.make 500) demo_gap = Some s /\
    forall n, exists r, rounds_from n (first_round s) (SubscribePacketHistory.mMaxSeq s) = Some r /\
      SubscribePacketHistory.min r < SubscribePacketHistory.mMaxSeq s /\
      SubscribePacketHistory.report_loop n (first_round s) (SubscribePacketHistory.mMaxSeq s) = None.
Proof.
  destruct (listens_saves 500 demo_gap silence (SubscribePacketHistory.make 500) 0) as (s & Es & [(Hs & Emin & Emax) _ _ _]);
    [apply listens_make|repeat constructor; cbn; unfold is_u16; lia|by left|done|lia|cbn; lia|].
  exists s. split; [exact Es|]. assert (SubscribePacketHistory.mMinSeq s = 65543) as Em by (rewrite <- Emin; vm_compute; reflexivity).
  apply (generate_hangs _ s Hs); rewrite ?Em, <- ?Emax; vm_compute; congruence.
Defined.

(** The times learned by a publisher that sent packets from number [from] on. *)
Definition learned_times (arrived : list (Z * Z * Z)) (from : Z) (sent : nat) : option (list Z) :=
  s ← saves (SubscribePacketHistory.make 0) arrived;
  '(reports, _) ← SubscribePacketHistory.generate s 1000000;
  h ← Sending.sends PublishPacketHistory.make from (replicate sent (Sending.mkOutgoing Video 0 900 950 960 0));
  report ← head reports;
  s ← onReceivedRtcpPacket (ByteReader.make report) 0 0 (mk TWCC.make h);
  slots ← PublishPacketHistory.mPacketList (mPacketHistory s);
  Some (map (fun i => PublishPacketHistory.received_time_micros (PublishPacketHistory.at_slot slots (PublishPacketHistory.index i)))
          (seqZ from (Z.of_nat sent))).

(** The roundings add up: packets 249 microseconds apart all seem to arrive at
    once, the last one ten milliseconds too early. *)
Theorem deltas_drift :
  learned_times (map (fun i => (0, i, 64000 + 249 * i)) (seqZ 0 41)) 0 41 = Some (replicate 41 64000).
Proof. vm_compute. reflexivity. Qed.

(** A packet the publisher no longer knows restarts the times at the reference:
    of ten packets ten milliseconds apart, of which it knows the last five, the
    first of these should be 114000. *)
Theorem unknown_packet_restarts :
  learned_times (map (fun i => (0, i, 64000 + 10000 * i)) (seqZ 0 10)) 5 5 = Some [74000; 84000; 94000; 104000; 114000].
Proof. vm_compute. reflexivity. Qed.

End Loop.
