(* ===== verification/Crc.v ===== *)
(** * Crc: cyclic redundancy checks of 32 bits, for any polynomial

    [reg] is the shift register that divides by a polynomial, one bit per step,
    lowest bit first; [divide] takes a text through it.  The register is linear and
    loses nothing; a table of what it does to a byte gives it eight steps at once.
    The interface is the class [Polynomial]; [Crc32c] and [StunProps] have an
    instance each. *)

From S2P Require Import Prelude.

Module Crc.

(** The polynomial with its bits reversed; it has its highest bit. *)
Class Polynomial := { polynomial : Z; polynomial_high : 2 ^ 31 <= polynomial < 2 ^ 32 }.

Section Division.
Context {P : Polynomial}.

Definition reg_bit (c : Z) : Z :=
  if Z.odd c then Z.lxor (Z.shiftr c 1) polynomial else Z.shiftr c 1.

Definition reg (n : nat) (c : Z) : Z := Nat.iter n reg_bit c.

Definition divide (crc : Z) (l : list Z) : Z := fold_left (fun c b => reg 8 (Z.lxor c b)) l crc.

(** ** The register is linear, and loses nothing *)

Lemma lxor_range n a b : 0 <= n -> 0 <= a < 2 ^ n -> 0 <= b < 2 ^ n -> 0 <= Z.lxor a b < 2 ^ n.
Proof.
  intros Hn Ha Hb. rewrite <- (Z.mod_small a (2 ^ n)), <- (Z.mod_small b (2 ^ n)) by lia.
  rewrite <- !Z.land_ones by lia.
  replace (Z.lxor _ _) with (Z.land (Z.lxor a b) (Z.ones n)).
  - rewrite Z.land_ones by lia. apply Z.mod_pos_bound. lia.
  - apply Z.bits_inj'. intros i Hi. rewrite Z.land_spec, !Z.lxor_spec, !Z.land_spec.
    by destruct (Z.testbit a i), (Z.testbit b i), (Z.testbit (Z.ones n) i).
Qed.

Lemma lxor_swap a b c d : Z.lxor (Z.lxor a b) (Z.lxor c d) = Z.lxor (Z.lxor a c) (Z.lxor b d).
Proof. rewrite !Z.lxor_assoc. f_equal. by rewrite <- !Z.lxor_assoc, (Z.lxor_comm b c). Qed.

Lemma reg_bit_lxor a b : reg_bit (Z.lxor a b) = Z.lxor (reg_bit a) (reg_bit b).
Proof.
  unfold reg_bit. rewrite <- !Z.bit0_odd, Z.lxor_spec, Z.shiftr_lxor, !Z.bit0_odd.
  destruct (Z.odd a), (Z.odd b); cbn [xorb].
  - by rewrite lxor_swap, Z.lxor_nilpotent, Z.lxor_0_r.
  - by rewrite !Z.lxor_assoc, (Z.lxor_comm polynomial).
  - by rewrite Z.lxor_assoc.
  - done.
Qed.

Lemma reg_S n c : reg (S n) c = reg_bit (reg n c).
Proof. done. Qed.

Lemma reg_lxor n a b : reg n (Z.lxor a b) = Z.lxor (reg n a) (reg n b).
Proof. induction n as [|n IH]; [done|]. by rewrite !reg_S, IH, reg_bit_lxor. Qed.

Lemma reg_add n m c : reg (n + m) c = reg n (reg m c).
Proof. apply Nat.iter_add. Qed.

Lemma reg_0 n : reg n 0 = 0.
Proof. induction n as [|n IH]; [done|]. by rewrite reg_S, IH. Qed.

Lemma reg_shiftl n c : reg n (Z.shiftl c (Z.of_nat n)) = c.
Proof.
  induction n as [|n IH]; [apply Z.shiftl_0_r|].
  rewrite <- Nat.add_1_r, reg_add. rewrite <- IH at 2. f_equal.
  change (reg 1) with reg_bit. unfold reg_bit. rewrite <- Z.bit0_odd, Z.shiftl_spec_low by lia.
  rewrite Z.shiftr_shiftl_l by lia. f_equal. lia.
Qed.

Lemma reg_bit_range c : is_u32 c -> is_u32 (reg_bit c).
Proof.
  unfold is_u32, reg_bit. intros Hc.
  assert (0 <= Z.shiftr c 1 < 2 ^ 32) by (rewrite shiftr_div by lia; zdm).
  case_match; [apply lxor_range; pose proof polynomial_high; lia|done].
Qed.

Lemma reg_range n c : is_u32 c -> is_u32 (reg n c).
Proof. intros Hc. induction n as [|n IH]; [done|]. rewrite reg_S. by apply reg_bit_range. Qed.

(** The polynomial has its highest bit: a step can be undone. *)
Lemma reg_bit_zero c : is_u32 c -> reg_bit c = 0 -> c = 0.
Proof.
  unfold is_u32, reg_bit. intros Hc. pose proof (Zodd_mod c) as Hodd.
  assert (Hs : Z.shiftr c 1 = c / 2) by (rewrite shiftr_div by lia; f_equal).
  rewrite Hs. destruct (Z.odd c).
  - intros E. apply Z.lxor_eq in E. pose proof polynomial_high. rewrite E in *. zdm.
  - intros E. symmetry in Hodd. apply Z.eqb_neq in Hodd. zdm.
Qed.

Lemma reg_zero n c : is_u32 c -> reg n c = 0 -> c = 0.
Proof.
  intros Hc. induction n as [|n IH]; [done|]. rewrite reg_S. intros E.
  apply IH, reg_bit_zero; [by apply (reg_range n)|done].
Qed.

(** ** Tables of a byte *)

Definition table_ok (table : list Z) (n : nat) : bool :=
  forallb (fun i => nth (Z.to_nat i) table 0 =? reg n i) (seqZ 0 256).

Lemma table_entry table n : table_ok table n = true -> forall i, is_u8 i -> nth (Z.to_nat i) table 0 = reg n i.
Proof.
  intros H i Hi. apply Z.eqb_eq. revert i Hi. by apply (byte_forall (fun i => nth (Z.to_nat i) table 0 =? reg n i)).
Qed.

Lemma land_ff_u8 c : is_u8 (Z.land c 0xFF).
Proof. change 0xFF with (Z.ones 8). rewrite Z.land_ones by lia. apply Z.mod_pos_bound. lia. Qed.

Lemma shiftr_byte crc b : is_u8 b -> Z.shiftr (Z.lxor crc b) 8 = Z.shiftr crc 8.
Proof.
  intros Hb. rewrite Z.shiftr_lxor. unfold is_u8 in Hb.
  by rewrite (shiftr_div b), (Z.div_small b), Z.lxor_0_r by lia.
Qed.

Lemma reg8_split y : 0 <= y -> reg 8 y = Z.lxor (reg 8 (Z.land y 0xFF)) (Z.shiftr y 8).
Proof.
  intros Hy. rewrite <- (reg_shiftl 8 (Z.shiftr y 8)), <- reg_lxor. f_equal.
  apply Z.bits_inj'. intros i Hi. rewrite Z.lxor_spec, Z.land_spec, Z.shiftl_spec by done.
  change 0xFF with (Z.ones 8). destruct (decide (i < 8)).
  - rewrite Z.ones_spec_low, (Z.testbit_neg_r _ (i - _)) by lia.
    by rewrite andb_true_r, xorb_false_r.
  - rewrite Z.ones_spec_high, Z.shiftr_spec by lia. rewrite andb_false_r, xorb_false_l. f_equal. lia.
Qed.

(** The register and a byte, by a table. *)
Lemma table_step table crc b : table_ok table 8 = true -> 0 <= crc -> is_u8 b ->
  Z.lxor (nth (Z.to_nat (Z.land (Z.lxor crc b) 0xFF)) table 0) (Z.shiftr crc 8) = reg 8 (Z.lxor crc b).
Proof.
  intros Ht Hc Hb. rewrite (table_entry table 8 Ht), <- (shiftr_byte crc b) by (done || apply land_ff_u8).
  symmetry. apply reg8_split. unfold is_u8 in Hb. apply Z.lxor_nonneg. lia.
Qed.

Lemma u8_u32 b : is_u8 b -> is_u32 b.
Proof. unfold is_u8, is_u32. lia. Qed.

Lemma lxor_u32 a b : is_u32 a -> is_u32 b -> is_u32 (Z.lxor a b).
Proof. intros. by apply lxor_range. Qed.

Lemma divide_range crc l : is_u32 crc -> bytes_ok l -> is_u32 (divide crc l).
Proof.
  intros Hc Hl. revert crc Hc. induction Hl as [|b l Hb Hl IH]; intros crc Hc; [done|].
  apply IH, reg_range, lxor_u32; [done|by apply u8_u32].
Qed.

Lemma divide_app crc l k : divide crc (l ++ k) = divide (divide crc l) k.
Proof. apply fold_left_app. Qed.

Lemma divide_lxor a b l : divide (Z.lxor a b) l = Z.lxor (divide a l) (reg (8 * length l) b).
Proof.
  revert a b. induction l as [|x l IH]; intros a b; [done|]. cbn [divide fold_left].
  replace (Z.lxor (Z.lxor a b) x) with (Z.lxor (Z.lxor a x) b)
    by (rewrite !Z.lxor_assoc; f_equal; apply Z.lxor_comm).
  rewrite reg_lxor. unfold divide in IH. rewrite IH. f_equal. rewrite <- reg_add. f_equal.
  cbn [length]. lia.
Qed.

Lemma nonneg_u32 c : is_u32 c -> 0 <= c.
Proof. unfold is_u32. lia. Qed.

Lemma lxor_zero_eq a b : Z.lxor a b = 0 -> a = b.
Proof. apply Z.lxor_eq. Qed.

End Division.
End Crc.
