(* ===== verification/SctpPacket.v ===== *)
(** * SCTP packets

    [Defs] holds the constants of src/sctp/sctp_defs.h, [SctpPacket] the parser of
    src/sctp/sctp_packet.cpp with the list of parameters of a chunk,
    [SctpPacketBuilder] the writer of src/sctp/sctp_packet_builder.cpp.  A chunk's
    [data], a pointer into the packet with a size, is the list of those bytes; a
    [ByteBuffer] is the list of its bytes (Bytes.v has the refinement).  The
    theorems: the parser survives every datagram, reads back what the builder
    wrote up to the wrong entry of the checksum's table, and notices a burst of
    errors. *)

From S2P Require Import Prelude Bytes Crc Crc32c.
#[local] Existing Instance Crc32c.castagnoli.

(** ** Constants *)

Module Defs.

Definition kChunkData : Z := 0.
Definition kChunkInit : Z := 1.
Definition kChunkInitAck : Z := 2.
Definition kChunkSack : Z := 3.
Definition kChunkCookieEcho : Z := 10.
Definition kChunkCookieAck : Z := 11.
Definition kChunkReconfig : Z := 0x82.

Definition kDataFlagE : Z := 0x01.
Definition kDataFlagB : Z := 0x02.
Definition kDataFlagComplete : Z := 0x03.
Definition kDataFlagUnordered : Z := 0x04.

Definition kPpidDcep : Z := 50.
Definition kPpidString : Z := 51.
Definition kPpidBinary : Z := 53.
Definition kPpidStringEmpty : Z := 56.
Definition kPpidBinaryEmpty : Z := 57.

Definition kDcepMsgAck : Z := 0x02.
Definition kDcepMsgOpen : Z := 0x03.
Definition kDcepChannelReliable : Z := 0x00.
Definition kDcepPriorityNormal : Z := 256.

Definition kParamStateCookie : Z := 7.
Definition kParamForwardTsnSupported : Z := 0xC000.
Definition kParamOutgoingSsnReset : Z := 0x000D.
Definition kParamReconfigResponse : Z := 0x0010.
Definition kReconfigResultSuccess : Z := 0.

Definition kInitRwnd : Z := 131072.
Definition kInitStreams : Z := 1024.

Definition kMaxInitRetransmits : Z := 8.
Definition kRtoInitialMs : Z := 250.
Definition kRtoMaxMs : Z := 60000.

Definition kCookieLifetime : Z := 60.
Definition kCookieDataSize : nat := 36.
Definition kCookieHmacSize : nat := 20.
Definition kCookieTotalSize : nat := kCookieDataSize + kCookieHmacSize.

(** [constTimeEqual]: [size] bytes of both; [None] when one is shorter. *)
Fixpoint diff_loop (size : nat) (a b : list Z) (diff : Z) : option Z :=
  match size, a, b with
  | O, _, _ => Some diff
  | S size, x :: a, y :: b => diff_loop size a b (Z.lor diff (Z.lxor x y))
  | _, _, _ => None
  end.

Definition constTimeEqual (a b : list Z) (size : nat) : option bool :=
  diff ← diff_loop size a b 0; Some (diff =? 0).

Lemma diff_loop_zero size a b diff : 0 <= diff -> bytes_ok a -> bytes_ok b ->
  (size <= length a)%nat -> (size <= length b)%nat ->
  exists d, diff_loop size a b diff = Some d /\
    (d = 0 <-> diff = 0 /\ take size a = take size b).
Proof.
  revert a b diff. induction size as [|n IH]; intros a b diff Hd Ha Hb La Lb.
  - exists diff. cbn. tauto.
  - destruct a as [|x a], b as [|y b]; cbn [length] in *; try lia.
    apply bytes_ok_cons_iff in Ha as [Hx Ha], Hb as [Hy Hb].
    assert (0 <= Z.lxor x y) by (unfold is_u8 in *; apply Z.lxor_nonneg; lia).
    destruct (IH a b (Z.lor diff (Z.lxor x y))) as (d & E & Hiff);
      [by apply Z.lor_nonneg|done|done|lia|lia|].
    exists d. split; [done|]. cbn [take]. rewrite Hiff, Z.lor_eq_0_iff, Z.lxor_eq_0_iff.
    split; [intros [[-> ->] ->]; done|intros [-> E']]. injection E' as -> ->. done.
Qed.

Lemma constTimeEqual_spec a b size : bytes_ok a -> bytes_ok b ->
  (size <= length a)%nat -> (size <= length b)%nat ->
  constTimeEqual a b size = Some (bool_decide (take size a = take size b)).
Proof.
  intros Ha Hb La Lb. unfold constTimeEqual.
  destruct (diff_loop_zero size a b 0) as (d & -> & Hiff); [lia|done..|].
  cbn. f_equal. destruct (Z.eqb_spec d 0) as [->|Hn]; symmetry.
  - apply bool_decide_eq_true. by apply Hiff.
  - apply bool_decide_eq_false. intros E. apply Hn, Hiff. done.
Qed.

End Defs.

(** [(len + 3) & ~3u]. *)
Definition padded (len : Z) : Z := Z.land (len + 3) 0xFFFFFFFC.

Lemma padded_value len : 0 <= len < 2 ^ 31 -> padded len = (len + 3) / 4 * 4.
Proof.
  intros Hl. unfold padded.
  assert (E : Z.land (len + 3) 0xFFFFFFFC = Z.ldiff (len + 3) (Z.ones 2)).
  { change 0xFFFFFFFC with (Z.ldiff (Z.ones 32) (Z.ones 2)).
    apply Z.bits_inj'. intros i Hi. rewrite Z.land_spec, !Z.ldiff_spec.
    destruct (decide (i < 32)).
    - by rewrite (Z.ones_spec_low 32 i) by lia.
    - by rewrite (testbit_high (len + 3) 32 i) by lia. }
  rewrite E, Z.ldiff_ones_r, Z.shiftl_mul_pow2, shiftr_div by lia. done.
Qed.

(** ** SctpPacket *)

Module SctpPacket.

Import ByteReader.

Record Param := mkParam { ptype : Z; pdata : list Z }.
Record Chunk := mkChunk { type : Z; flags : Z; data : list Z }.

Record t := mk {
  mSrcPort : Z; mDstPort : Z; mVerificationTag : Z; mChunks : list Chunk
}.

(** The size of a parameter or chunk that [len] announces in its header, beyond
    the four bytes of the header. *)
Definition body (len : Z) : nat := Z.to_nat (len - 4).

(** The loop over the chunks: [Some None] is the [nullopt] of a chunk that does
    not fit.  Every round reads four bytes or more of the packet. *)
Fixpoint parse_chunks (fuel : nat) (r : ByteReader.t) : option (option (list Chunk)) :=
  match fuel with
  | O => None
  | S fuel =>
      if (remaining r <? 4)%nat then Some (Some [])
      else
        '(chunkType, r) ← readU8 r;
        '(chunkFlags, r) ← readU8 r;
        '(chunkLen, r) ← readU16 r;
        if (chunkLen <? 4) || (remaining r <? body chunkLen)%nat then Some None
        else
          let chunk := mkChunk chunkType chunkFlags (take (body chunkLen) (current r)) in
          let paddedSkip := Z.to_nat (padded chunkLen - 4) in
          r ← skip r (Nat.min paddedSkip (remaining r));
          rest ← parse_chunks fuel r;
          Some (option_map (cons chunk) rest)
  end.

(** The checksum over the packet with zeros in its place. *)
Definition computed_crc (addr zaddr : Z) (data : list Z) : option Z :=
  crc ← Crc32c.crc32c_update addr 0xFFFFFFFF (take 8 data);
  crc ← Crc32c.crc32c_update zaddr crc [0; 0; 0; 0];
  crc ← Crc32c.crc32c_update (addr + 12) crc (drop 12 data);
  Some (Crc32c.crc32c_finalize crc).

Definition stored_crc (data : list Z) : Z :=
  Z.lor (Z.lor (Z.lor (nth 8 data 0) (Z.shiftl (nth 9 data 0) 8))
    (Z.shiftl (nth 10 data 0) 16)) (Z.shiftl (nth 11 data 0) 24).

(** [addr] is where the packet lies in memory, [zaddr] the array of zeros. *)
Definition parse (addr zaddr : Z) (data : list Z) : option (option t) :=
  if (length data <? 12)%nat then Some None
  else
    finalized ← computed_crc addr zaddr data;
    if negb (finalized =? stored_crc data) then Some None
    else
      let r := ByteReader.make data in
      '(srcPort, r) ← readU16 r;
      '(dstPort, r) ← readU16 r;
      '(verificationTag, r) ← readU32 r;
      r ← skip r 4;
      chunks ← parse_chunks (S (length data)) r;
      Some (option_map (mk srcPort dstPort verificationTag) chunks).

(** The loop of [parseParams]: a parameter that does not fit ends it. *)
Fixpoint params_loop (fuel : nat) (r : ByteReader.t) : option (list Param) :=
  match fuel with
  | O => None
  | S fuel =>
      if (remaining r <? 4)%nat then Some []
      else
        '(paramType, r) ← readU16 r;
        '(paramLen, r) ← readU16 r;
        if (paramLen <? 4) || (remaining r <? body paramLen)%nat then Some []
        else
          let param := mkParam paramType (take (body paramLen) (current r)) in
          let paddedSkip := Z.to_nat (padded paramLen - 4) in
          r ← skip r (Nat.min paddedSkip (remaining r));
          rest ← params_loop fuel r;
          Some (param :: rest)
  end.

Definition parseParams (c : Chunk) (offset : nat) : option (list Param) :=
  if (length (data c) <? offset)%nat then Some []
  else
    r ← skip (ByteReader.make (data c)) offset;
    params_loop (S (length (data c))) r.

End SctpPacket.

(** ** SctpPacketBuilder

    The state is the buffer behind the writer. *)

Module SctpPacketBuilder.

Definition make (srcPort dstPort verificationTag : Z) : list Z :=
  let buf := ByteWriter.writeU16 [] srcPort in
  let buf := ByteWriter.writeU16 buf dstPort in
  let buf := ByteWriter.writeU32 buf verificationTag in
  ByteWriter.writeU32 buf 0.

Definition addChunk (buf : list Z) (type flags : Z) (data : list Z) : list Z :=
  let chunkLen := u16 (4 + Z.of_nat (length data)) in
  let buf := ByteWriter.writeU8 buf type in
  let buf := ByteWriter.writeU8 buf flags in
  let buf := ByteWriter.writeU16 buf chunkLen in
  let buf := if (0 <? length data)%nat then ByteWriter.write buf data else buf in
  if padded chunkLen >? chunkLen
  then ByteWriter.padding buf 0 (Z.to_nat (padded chunkLen - chunkLen))
  else buf.

(** The checksum goes into the bytes 8 to 11, the lowest first. *)
Definition build (addr : Z) (buf : list Z) : option (list Z) :=
  crc ← Crc32c.crc32c addr buf;
  Some (<[8%nat := u8 crc]> (<[9%nat := u8 (Z.shiftr crc 8)]>
    (<[10%nat := u8 (Z.shiftr crc 16)]> (<[11%nat := u8 (Z.shiftr crc 24)]> buf)))).

End SctpPacketBuilder.

(** ** The parser against the builder *)

Module PacketWire.

Import ByteReader SctpPacket.

Definition chunk_ok (c : Chunk) : Prop :=
  is_u8 (type c) /\ is_u8 (flags c) /\ bytes_ok (data c) /\ 4 + Z.of_nat (length (data c)) < 2 ^ 16.

Definition padding (n : nat) : list Z := replicate (Z.to_nat (padded (4 + Z.of_nat n) - (4 + Z.of_nat n))) 0.

(** A chunk on the wire: type, flags, length, body, and zeros up to a multiple
    of four. *)
Definition encode (c : Chunk) : list Z :=
  be_bytes 1 (type c) ++ be_bytes 1 (flags c) ++ be_bytes 2 (4 + Z.of_nat (length (data c))) ++
  data c ++ padding (length (data c)).

Definition add_chunk (buf : list Z) (c : Chunk) : list Z :=
  SctpPacketBuilder.addChunk buf (type c) (flags c) (data c).

Definition build_chunks (addr srcPort dstPort tag : Z) (cs : list Chunk) : option (list Z) :=
  SctpPacketBuilder.build addr (fold_left add_chunk cs (SctpPacketBuilder.make srcPort dstPort tag)).

Definition header (srcPort dstPort tag : Z) : list Z :=
  be_bytes 2 srcPort ++ be_bytes 2 dstPort ++ be_bytes 4 tag.

(** The packet before its checksum is filled in. *)
Definition unsummed (srcPort dstPort tag : Z) (cs : list Chunk) : list Z :=
  header srcPort dstPort tag ++ be_bytes 4 0 ++ mjoin (encode <$> cs).

Lemma padded_bounds len : 0 <= len < 2 ^ 31 -> len <= padded len <= len + 3.
Proof. intros H. rewrite padded_value by done. zdm. Qed.

Lemma add_chunk_encode buf c : chunk_ok c -> add_chunk buf c = buf ++ encode c.
Proof.
  intros (Ht & Hf & Hd & Hl). unfold add_chunk, SctpPacketBuilder.addChunk.
  rewrite u16_small by (unfold is_u16; lia).
  rewrite !Wire.writeU8_be, Wire.writeU16_be, <- !app_assoc. unfold encode, padding.
  set (n := Z.of_nat (length (data c))) in *.
  pose proof (padded_bounds (4 + n) ltac:(lia)) as Hp.
  assert (forall b, (if (0 <? length (data c))%nat then ByteWriter.write b (data c) else b) = b ++ data c) as ->.
  { intros b. destruct (data c); [by rewrite app_nil_r|done]. }
  destruct (Z.gtb_spec (padded (4 + n)) (4 + n)).
  - unfold ByteWriter.padding. by rewrite <- !app_assoc.
  - replace (padded (4 + n) - (4 + n)) with 0 by lia. cbn [Z.to_nat replicate].
    by rewrite app_nil_r, <- !app_assoc.
Qed.

Lemma encode_cons c cs : mjoin (encode <$> c :: cs) = encode c ++ mjoin (encode <$> cs).
Proof. done. Qed.

Lemma fold_add_chunk buf cs : Forall chunk_ok cs ->
  fold_left add_chunk cs buf = buf ++ mjoin (encode <$> cs).
Proof.
  intros Hcs. revert buf. induction Hcs as [|c cs Hc Hcs IH]; intros buf; [by rewrite app_nil_r|].
  cbn [fold_left]. by rewrite encode_cons, IH, add_chunk_encode, <- app_assoc.
Qed.

Lemma unsummed_build srcPort dstPort tag cs : Forall chunk_ok cs ->
  fold_left add_chunk cs (SctpPacketBuilder.make srcPort dstPort tag) = unsummed srcPort dstPort tag cs.
Proof.
  intros Hcs. rewrite fold_add_chunk by done. unfold SctpPacketBuilder.make, unsummed, header.
  by rewrite !Wire.writeU32_be, !Wire.writeU16_be, <- !app_assoc.
Qed.

Lemma length_encode c : chunk_ok c ->
  Z.of_nat (length (encode c)) = padded (4 + Z.of_nat (length (data c))).
Proof.
  intros (_ & _ & _ & Hl). unfold encode, padding. rewrite !length_app, !length_be_bytes, length_replicate.
  pose proof (padded_bounds (4 + Z.of_nat (length (data c))) ltac:(lia)). lia.
Qed.

Lemma encode_ok c : chunk_ok c -> bytes_ok (encode c).
Proof.
  intros (_ & _ & Hd & _). unfold encode, padding. rewrite !bytes_ok_app. split_and!; try apply be_bytes_ok; [done|].
  apply Forall_replicate. unfold is_u8. lia.
Qed.

Lemma mjoin_encode_ok cs : Forall chunk_ok cs -> bytes_ok (mjoin (encode <$> cs)).
Proof.
  induction 1; [constructor|]. rewrite encode_cons. apply bytes_ok_app. split; [by apply encode_ok|done].
Qed.

Lemma unsummed_ok srcPort dstPort tag cs : Forall chunk_ok cs -> bytes_ok (unsummed srcPort dstPort tag cs).
Proof.
  intros. unfold unsummed, header. rewrite !bytes_ok_app. split_and!; try apply be_bytes_ok. by apply mjoin_encode_ok.
Qed.

(** One chunk off the wire. *)
Lemma parse_chunk_encode fuel pre c post : chunk_ok c ->
  parse_chunks (S fuel) (reader_at pre (encode c ++ post)) =
  (rest ← parse_chunks fuel (reader_at (pre ++ encode c) post); Some (option_map (cons c) rest)).
Proof.
  intros Hc. pose proof (length_encode c Hc) as Hlen. pose proof Hc as (Ht & Hf & Hd & Hl).
  pose proof (padded_bounds (4 + Z.of_nat (length (data c))) ltac:(lia)) as Hp.
  cbn [parse_chunks]. rewrite remaining_at, length_app.
  destruct (Nat.ltb_spec (length (encode c) + length post) 4); [lia|].
  unfold encode at 1. rewrite <- !app_assoc.
  rewrite Wire.readU8_be by done. cbn [mbind option_bind].
  rewrite Wire.readU8_be by done. cbn [mbind option_bind].
  rewrite Wire.readU16_be by (unfold is_u16; lia). cbn [mbind option_bind].
  rewrite remaining_at, current_at. unfold body.
  replace (Z.to_nat (4 + Z.of_nat (length (data c)) - 4)) with (length (data c)) by lia.
  destruct (Z.ltb_spec (4 + Z.of_nat (length (data c))) 4); [lia|]. rewrite !length_app.
  destruct (Nat.ltb_spec (length (data c) + (length (padding (length (data c))) + length post)) (length (data c))); [lia|].
  cbn [orb]. rewrite take_app_length.
  assert (length (padding (length (data c))) = Z.to_nat (padded (4 + Z.of_nat (length (data c))) - (4 + Z.of_nat (length (data c)))))
    as Hpad by (unfold padding; by rewrite length_replicate).
  rewrite app_assoc, skip_at by (rewrite length_app; lia). cbn [mbind option_bind].
  unfold encode. rewrite <- !app_assoc. by destruct c.
Qed.

Lemma parse_chunks_encode cs : forall fuel pre, Forall chunk_ok cs -> (length cs < fuel)%nat ->
  parse_chunks fuel (reader_at pre (mjoin (encode <$> cs))) = Some (Some cs).
Proof.
  induction cs as [|c cs IH]; intros fuel pre Hcs Hf; (destruct fuel as [|fuel]; [lia|]).
  - cbn [fmap list_fmap mjoin list_join parse_chunks]. by rewrite remaining_at.
  - apply list.Forall_cons in Hcs as [Hc Hcs]. rewrite encode_cons, parse_chunk_encode by done.
    rewrite IH by (done || cbn in Hf; lia). done.
Qed.

(** A parameter on the wire, and one off it. *)
Definition encode_param (q : Param) : list Z :=
  be_bytes 2 (ptype q) ++ be_bytes 2 (4 + Z.of_nat (length (pdata q))) ++ pdata q ++ padding (length (pdata q)).

Lemma params_loop_encode fuel pre q post :
  is_u16 (ptype q) -> 4 + Z.of_nat (length (pdata q)) < 2 ^ 16 ->
  params_loop (S fuel) (reader_at pre (encode_param q ++ post)) =
  (rest ← params_loop fuel (reader_at (pre ++ encode_param q) post); Some (q :: rest)).
Proof.
  intros Ht Hl. pose proof (padded_bounds (4 + Z.of_nat (length (pdata q))) ltac:(lia)) as Hp.
  assert (length (padding (length (pdata q))) = Z.to_nat (padded (4 + Z.of_nat (length (pdata q))) - (4 + Z.of_nat (length (pdata q)))))
    as Hpad by (unfold padding; by rewrite length_replicate).
  cbn [params_loop]. rewrite remaining_at. unfold encode_param. rewrite <- !app_assoc, !length_app, !length_be_bytes.
  match goal with |- context [(?n <? 4)%nat] => destruct (Nat.ltb_spec n 4); [lia|] end.
  rewrite Wire.readU16_be by done. cbn [mbind option_bind].
  rewrite Wire.readU16_be by (unfold is_u16; lia). cbn [mbind option_bind].
  rewrite remaining_at, current_at. unfold body.
  replace (Z.to_nat (4 + Z.of_nat (length (pdata q)) - 4)) with (length (pdata q)) by lia.
  destruct (Z.ltb_spec (4 + Z.of_nat (length (pdata q))) 4); [lia|]. rewrite !length_app.
  match goal with |- context [(?n <? length (pdata q))%nat] => destruct (Nat.ltb_spec n (length (pdata q))); [lia|] end.
  cbn [orb]. rewrite take_app_length, (app_assoc (pdata q)), skip_at by (rewrite length_app; lia).
  cbn [mbind option_bind]. rewrite <- !app_assoc. by destruct q.
Qed.

(** *** The checksum *)

Lemma slips_short addr l : (length l <= 8)%nat -> Crc32c.slips addr l = 0.
Proof.
  intros Hl. unfold Crc32c.slips. case_match; [done|].
  pose proof (Crc32c.lead_range addr). rewrite Nat.div_small by lia. apply Crc.reg_0.
Qed.

(** The text of which the parser computes the CRC. *)
Definition blanked (data : list Z) : list Z := take 8 data ++ [0; 0; 0; 0] ++ drop 12 data.

Lemma blanked_ok l : bytes_ok l -> bytes_ok (blanked l).
Proof.
  intros Hl. unfold blanked. rewrite !bytes_ok_app. split_and!; eauto with srtc.
  repeat constructor; unfold is_u8; lia.
Qed.

Lemma init_u32 : is_u32 0xFFFFFFFF.
Proof. unfold is_u32. lia. Qed.

#[local] Hint Resolve init_u32 Crc.divide_range Crc32c.slips_range blanked_ok : srtc.

Lemma computed_crc_value addr zaddr l : bytes_ok l -> (12 <= length l)%nat ->
  computed_crc addr zaddr l =
  Some (Z.lxor (Crc32c.crc32c_spec (blanked l)) (Crc32c.slips (addr + 12) (drop 12 l))).
Proof.
  intros Hl Hlen. unfold computed_crc.
  assert (bytes_ok [0; 0; 0; 0]) by (repeat constructor; unfold is_u8; lia).
  rewrite Crc32c.update_divide by eauto with srtc. cbn [mbind option_bind].
  rewrite slips_short, Z.lxor_0_r by (rewrite length_take; lia).
  rewrite Crc32c.update_divide by eauto 6 with srtc. cbn [mbind option_bind].
  rewrite slips_short, Z.lxor_0_r by (cbn; lia).
  rewrite Crc32c.update_divide by eauto 6 with srtc. cbn [mbind option_bind].
  rewrite <- !Crc.divide_app. f_equal.
  apply Crc32c.finalize_lxor_r; eauto with srtc.
Qed.

Lemma stored_word b0 b1 b2 b3 pre post : length pre = 8%nat ->
  stored_crc (pre ++ [b0; b1; b2; b3] ++ post) = Crc32c.word b0 b1 b2 b3.
Proof.
  intros Hp. unfold stored_crc, Crc32c.word.
  do 8 (destruct pre as [|? pre]; [done|]). destruct pre; [|done].
  cbn [app nth]. by rewrite <- !Z.lor_assoc.
Qed.

Lemma word_of_u32 x : is_u32 x ->
  Crc32c.word (u8 x) (u8 (Z.shiftr x 8)) (u8 (Z.shiftr x 16)) (u8 (Z.shiftr x 24)) = x.
Proof.
  intros Hx. rewrite Crc32c.word_value by apply u8_range. unfold u8, is_u32 in *. rewrite !shiftr_div by lia.
  change (2 ^ 24) with 16777216. change (2 ^ 16) with 65536. change (2 ^ 8) with 256. zdm.
Qed.

Definition le_bytes4 (x : Z) : list Z := [u8 x; u8 (Z.shiftr x 8); u8 (Z.shiftr x 16); u8 (Z.shiftr x 24)].

(** What [build] makes of the finished buffer. *)
Lemma build_value addr h rest : length h = 8%nat -> bytes_ok (h ++ be_bytes 4 0 ++ rest) ->
  SctpPacketBuilder.build addr (h ++ be_bytes 4 0 ++ rest) =
  Some (h ++ le_bytes4 (Z.lxor (Crc32c.crc32c_spec (h ++ be_bytes 4 0 ++ rest))
    (Crc32c.slips addr (h ++ be_bytes 4 0 ++ rest))) ++ rest).
Proof.
  intros Hh Hok. unfold SctpPacketBuilder.build. rewrite Crc32c.crc32c_value by done. cbn [mbind option_bind].
  do 8 (destruct h as [|? h]; [done|]). by destruct h.
Qed.

Lemma parse_header addr zaddr h crc rest : length h = 8%nat -> length crc = 4%nat ->
  bytes_ok (h ++ crc ++ rest) ->
  parse addr zaddr (h ++ crc ++ rest) =
  if Z.lxor (Crc32c.crc32c_spec (h ++ [0; 0; 0; 0] ++ rest)) (Crc32c.slips (addr + 12) rest) =?
     stored_crc (h ++ crc ++ rest)
  then chunks ← parse_chunks (S (12 + length rest)) (reader_at (h ++ crc) rest);
       Some (option_map (mk (be_value (take 2 h)) (be_value (take 2 (drop 2 h))) (be_value (drop 4 h))) chunks)
  else Some None.
Proof.
  intros Hh Hc Hok. unfold parse. rewrite !length_app, Hh, Hc.
  destruct (Nat.ltb_spec (8 + (4 + length rest)) 12); [lia|].
  rewrite computed_crc_value by (rewrite ?length_app; done || lia). cbn [mbind option_bind].
  unfold blanked. rewrite take_length_app by done.
  assert (drop 12 (h ++ crc ++ rest) = rest) as ->
    by (rewrite app_assoc; apply drop_length_app; rewrite length_app; lia).
  destruct (_ =? _); [|done]. cbn [negb].
  do 8 (destruct h as [|? h]; [done|]). destruct h; [|done].
  do 4 (destruct crc as [|? crc]; [done|]). destruct crc; [|done].
  rewrite make_reader_at. cbn [app] in Hok |- *.
  repeat match goal with H : bytes_ok (_ :: _) |- _ => apply bytes_ok_cons_iff in H as [? H] end.
  rewrite readU16_at by done. cbn [mbind option_bind app].
  rewrite readU16_at by done. cbn [mbind option_bind app].
  rewrite readU32_at by done. cbn [mbind option_bind app].
  rewrite skip_split by (cbn; lia). done.
Qed.

Lemma length_header srcPort dstPort tag : length (header srcPort dstPort tag) = 8%nat.
Proof. unfold header. by rewrite !length_app, !length_be_bytes. Qed.

Lemma lxor_eqb_l a b c : (Z.lxor a b =? Z.lxor a c) = (b =? c).
Proof.
  destruct (Z.eqb_spec b c) as [->|Hn]; [by apply Z.eqb_refl|]. apply Z.eqb_neq. intros E. apply Hn.
  apply (f_equal (Z.lxor a)) in E. by rewrite <- !Z.lxor_assoc, Z.lxor_nilpotent, !Z.lxor_0_l in E.
Qed.

Lemma spec_range l : bytes_ok l -> is_u32 (Crc32c.crc32c_spec l).
Proof. intros. apply u32_range. Qed.

Lemma length_mjoin_encode cs : Forall chunk_ok cs -> (length cs <= length (mjoin (encode <$> cs)))%nat.
Proof.
  induction 1 as [|c cs Hc Hcs IH]; [done|]. rewrite encode_cons, length_app. pose proof (length_encode c Hc).
  destruct Hc as (_ & _ & _ & Hl). pose proof (padded_bounds (4 + Z.of_nat (length (data c))) ltac:(lia)).
  cbn [length]. lia.
Qed.

Lemma parse_build addr addr' zaddr srcPort dstPort tag cs :
  is_u16 srcPort -> is_u16 dstPort -> is_u32 tag -> Forall chunk_ok cs ->
  exists bytes,
    build_chunks addr srcPort dstPort tag cs = Some bytes /\
    parse addr' zaddr bytes =
    Some (if Crc32c.slips addr (unsummed srcPort dstPort tag cs) =?
             Crc32c.slips (addr' + 12) (mjoin (encode <$> cs))
          then Some (mk srcPort dstPort tag cs) else None).
Proof.
  intros Hs Hd Ht Hcs. unfold build_chunks. rewrite unsummed_build by done.
  pose proof (unsummed_ok srcPort dstPort tag cs Hcs) as Hok. unfold unsummed in Hok |- *.
  pose proof (length_header srcPort dstPort tag) as Hh.
  rewrite build_value by done. eexists. split; [done|].
  set (crc := Z.lxor _ _).
  assert (is_u32 crc) as Hcrc by (apply Crc.lxor_u32; [by apply spec_range|apply Crc32c.slips_range]).
  apply bytes_ok_app in Hok as [Hok1 Hok2]. apply bytes_ok_app in Hok2 as [_ Hok2].
  rewrite parse_header; [|done|done|].
  2: { rewrite !bytes_ok_app. split_and!; [done| |done]. unfold le_bytes4. repeat constructor; apply u8_range. }
  unfold le_bytes4 at 1. rewrite stored_word, word_of_u32 by done. subst crc.
  change (be_bytes 4 0) with [0; 0; 0; 0]. rewrite lxor_eqb_l, Z.eqb_sym.
  destruct (_ =? _); [|done].
  rewrite parse_chunks_encode by (done || pose proof (length_mjoin_encode cs Hcs); lia).
  cbn [mbind option_bind option_map]. unfold header.
  rewrite (take_length_app (be_bytes 2 srcPort)), (drop_length_app (be_bytes 2 srcPort)), take_length_app
    by (by rewrite length_be_bytes).
  rewrite app_assoc, drop_length_app by (by rewrite length_app, !length_be_bytes).
  by rewrite !be_value_bytes.
Qed.

(** *** Any datagram *)

(** Where a chunk or parameter lies: a piece of the text. *)
Definition piece (d l : list Z) : Prop := exists a b, l = a ++ d ++ b.

Lemma piece_app d l k : piece d l -> piece d (k ++ l).
Proof. intros (a & b & ->). exists (k ++ a), b. by rewrite <- !app_assoc. Qed.

Lemma piece_take n l : piece (take n l) l.
Proof. exists [], (drop n l). by rewrite app_nil_l, take_drop. Qed.

Lemma piece_ok d l : bytes_ok l -> piece d l -> bytes_ok d.
Proof. intros Hl (a & b & ->). apply bytes_ok_app in Hl as [_ Hl]. by apply bytes_ok_app in Hl as [? _]. Qed.

Definition wire_size (cs : list Chunk) : Z := fold_right (fun c n => 4 + Z.of_nat (length (data c)) + n) 0 cs.

Lemma be_value2_u16 a b : is_u8 a -> is_u8 b -> is_u16 (be_value [a; b]).
Proof.
  intros Ha Hb. assert (bytes_ok [a; b]) as H by eauto with srtc.
  apply be_value_range in H. unfold is_u16. cbn in H |- *. lia.
Qed.

Lemma parse_chunks_safe fuel : forall pre post, bytes_ok post -> (length post < fuel)%nat ->
  exists res, parse_chunks fuel (reader_at pre post) = Some res /\
    forall cs, res = Some cs ->
      Forall (fun c => chunk_ok c /\ piece (data c) post) cs /\ wire_size cs <= Z.of_nat (length post).
Proof.
  induction fuel as [|fuel IH]; intros pre post Hok Hf; [lia|].
  cbn [parse_chunks]. rewrite remaining_at. destruct (Nat.ltb_spec (length post) 4) as [|Hl].
  { eexists. split; [done|]. intros cs [= <-]. split; [constructor|]. cbn. lia. }
  destruct post as [|a [|b [|c [|d post]]]]; cbn [length] in Hl; try lia.
  repeat match goal with H : bytes_ok (_ :: _) |- _ => apply bytes_ok_cons_iff in H as [? H] end.
  rewrite readU8_at. cbn [mbind option_bind]. rewrite readU8_at. cbn [mbind option_bind].
  rewrite readU16_at by done. cbn [mbind option_bind].
  pose proof (be_value2_u16 c d) as Hlen. specialize (Hlen ltac:(done) ltac:(done)).
  set (len := be_value [c; d]) in *. clearbody len. unfold is_u16 in Hlen.
  rewrite remaining_at, current_at. unfold body.
  destruct (Z.ltb_spec len 4); [by eexists|]. cbn [orb].
  destruct (Nat.ltb_spec (length post) (Z.to_nat (len - 4))); [by eexists|].
  rewrite skip_split by lia. cbn [mbind option_bind].
  pose proof (padded_bounds len ltac:(lia)).
  set (n := Nat.min _ _). assert (Z.to_nat (len - 4) <= n)%nat by lia. clearbody n.
  set (pre' := (((pre ++ [a]) ++ [b]) ++ [c; d]) ++ take n post).
  destruct (IH pre' (drop n post)) as (res & E & Hres); [by apply bytes_ok_drop|cbn in Hf; rewrite length_drop; lia|].
  rewrite E. cbn [mbind option_bind]. eexists. split; [done|].
  intros cs Hcs. destruct res as [cs'|]; [|done]. injection Hcs as <-.
  destruct (Hres cs') as [Hall Hsize]; [done|]. rewrite length_drop in Hsize. split.
  - constructor.
    + cbn. split; [split_and!; cbn; [done..|by apply bytes_ok_take|rewrite length_take; lia]|].
      apply (piece_app _ post [a; b; c; d]), piece_take.
    + eapply list.Forall_impl; [exact Hall|]. intros c' [Hc' Hp]. split; [done|].
      rewrite <- (take_drop n post). apply (piece_app _ _ ([a; b; c; d] ++ take n post)), Hp.
  - cbn [wire_size fold_right data length]. rewrite length_take. fold (wire_size cs'). lia.
Qed.

Lemma parse_total addr zaddr l : bytes_ok l ->
  exists res, parse addr zaddr l = Some res /\
    forall p, res = Some p ->
      Forall (fun c => chunk_ok c /\ piece (data c) l) (mChunks p) /\
      12 + wire_size (mChunks p) <= Z.of_nat (length l) /\
      is_u16 (mSrcPort p) /\ is_u16 (mDstPort p) /\ is_u32 (mVerificationTag p).
Proof.
  intros Hl. destruct (decide (length l < 12)%nat) as [Hs|Hs].
  { exists None. split; [|done]. unfold parse. by destruct (Nat.ltb_spec (length l) 12); [|lia]. }
  destruct (parse_chunks_safe (S (12 + length (drop 12 l))) (take 8 l ++ take 4 (drop 8 l)) (drop 12 l))
    as (res & E & Hres); [by apply bytes_ok_drop|lia|].
  assert (l = take 8 l ++ take 4 (drop 8 l) ++ drop 12 l) as El.
  { rewrite <- (take_drop 8 l) at 1. f_equal. by rewrite <- (take_drop 4 (drop 8 l)) at 1; rewrite drop_drop. }
  assert (parse addr zaddr l = parse addr zaddr (take 8 l ++ take 4 (drop 8 l) ++ drop 12 l)) as ->
    by (by rewrite <- El).
  rewrite parse_header; [|rewrite length_take; lia|rewrite length_take, length_drop; lia|by rewrite <- El].
  destruct (_ =? _); [|by exists None]. rewrite E. cbn [mbind option_bind]. eexists. split; [done|].
  intros p Hp. destruct res as [cs|]; [|done]. injection Hp as <-. cbn [mChunks mSrcPort mDstPort mVerificationTag].
  destruct (Hres cs) as [Hall Hsize]; [done|]. rewrite length_drop in Hsize. split_and!.
  - eapply list.Forall_impl; [exact Hall|]. intros c [Hc Hp]. split; [done|]. rewrite El, app_assoc. by apply piece_app.
  - lia.
  - do 8 (destruct l as [|? l]; [cbn in Hs; lia|]). bytes_bounds. by apply be_value2_u16.
  - do 8 (destruct l as [|? l]; [cbn in Hs; lia|]). bytes_bounds. by apply be_value2_u16.
  - pose proof (be_value_range (drop 4 (take 8 l))) as Hr. rewrite length_drop, length_take in Hr.
    replace (Nat.min 8 (length l) - 4)%nat with 4%nat in Hr by lia. apply Hr. by apply bytes_ok_drop, bytes_ok_take.
Qed.

Lemma params_safe fuel : forall pre post, bytes_ok post -> (length post < fuel)%nat ->
  exists ps, params_loop fuel (reader_at pre post) = Some ps /\
    Forall (fun q => is_u16 (ptype q) /\ piece (pdata q) post) ps.
Proof.
  induction fuel as [|fuel IH]; intros pre post Hok Hf; [lia|].
  cbn [params_loop]. rewrite remaining_at. destruct (Nat.ltb_spec (length post) 4) as [|Hl]; [by exists []|].
  destruct post as [|a [|b [|c [|d post]]]]; cbn [length] in Hl; try lia.
  repeat match goal with H : bytes_ok (_ :: _) |- _ => apply bytes_ok_cons_iff in H as [? H] end.
  rewrite readU16_at by done. cbn [mbind option_bind]. rewrite readU16_at by done. cbn [mbind option_bind].
  pose proof (be_value2_u16 c d) as Hlen. specialize (Hlen ltac:(done) ltac:(done)).
  set (len := be_value [c; d]) in *. clearbody len. unfold is_u16 in Hlen.
  rewrite remaining_at, current_at. unfold body.
  destruct (Z.ltb_spec len 4); [by eexists|]. cbn [orb].
  destruct (Nat.ltb_spec (length post) (Z.to_nat (len - 4))); [by eexists|].
  rewrite skip_split by lia. cbn [mbind option_bind].
  set (n := Nat.min _ _).
  destruct (IH (((pre ++ [a; b]) ++ [c; d]) ++ take n post) (drop n post)) as (ps & E & Hps);
    [by apply bytes_ok_drop|cbn in Hf; rewrite length_drop; lia|].
  rewrite E. cbn [mbind option_bind]. eexists. split; [done|]. constructor.
  - cbn. split; [by apply be_value2_u16|]. apply (piece_app _ post [a; b; c; d]), piece_take.
  - eapply list.Forall_impl; [exact Hps|]. intros q [Hq Hp]. split; [done|].
    rewrite <- (take_drop n post). apply (piece_app _ _ ([a; b; c; d] ++ take n post)), Hp.
Qed.

Lemma parseParams_total c offset : bytes_ok (data c) ->
  exists ps, parseParams c offset = Some ps /\ Forall (fun q => is_u16 (ptype q) /\ piece (pdata q) (data c)) ps.
Proof.
  intros Hc. unfold parseParams. destruct (Nat.ltb_spec (length (data c)) offset); [by exists []|].
  rewrite make_reader_at, skip_split by lia. cbn [mbind option_bind].
  destruct (params_safe (S (length (data c))) (take offset (data c)) (drop offset (data c)))
    as (ps & E & Hps); [by apply bytes_ok_drop|rewrite length_drop; lia|].
  exists ps. split; [done|]. eapply list.Forall_impl; [exact Hps|]. intros q [Hq Hp]. split; [done|].
  rewrite <- (take_drop offset (data c)). by apply piece_app.
Qed.

(** Every packet that the builder can make (any ports, tag and chunks of fewer
    than 2^16 bytes) is read back exactly as it was built, chunk by chunk with
    types, flags and bodies, if and only if the wrong table entry adds the same
    term to the builder's and to the parser's checksum; otherwise the parser
    rejects the packet. *)
Theorem packet_roundtrip addr addr' zaddr srcPort dstPort tag cs :
  is_u16 srcPort -> is_u16 dstPort -> is_u32 tag -> Forall chunk_ok cs ->
  exists bytes,
    build_chunks addr srcPort dstPort tag cs = Some bytes /\
    parse addr' zaddr bytes =
    Some (if Crc32c.slips addr (unsummed srcPort dstPort tag cs) =?
             Crc32c.slips (addr' + 12) (mjoin (encode <$> cs))
          then Some (mk srcPort dstPort tag cs) else None).
Proof. apply parse_build. Qed.

Definition demo_chunks : list Chunk := [mkChunk 10 0 [1; 2; 3]; mkChunk 11 0 []; mkChunk 0 3 [9; 8; 7; 6; 5]].

(** The example passes; with 0xB5 as the second byte of the first body, in place 17
    of the packet, the parser rejects what the builder made. *)
Lemma packet_roundtrip_witness :
  (exists bytes, build_chunks 0 5000 5000 77 demo_chunks = Some bytes /\
     parse 0 0 bytes = Some (Some (mk 5000 5000 77 demo_chunks))) /\
  (exists bytes, build_chunks 0 5000 5000 77 [mkChunk 10 0 [1; 0xB5; 3; 4]] = Some bytes /\
     parse 0 0 bytes = Some None).
Proof.
  split.
  - destruct (packet_roundtrip 0 0 0 5000 5000 77 demo_chunks) as (bytes & E & H);
      [unfold is_u16; lia|unfold is_u16; lia|unfold is_u32; lia|
       repeat constructor; unfold is_u8; cbn; lia|].
    exists bytes. split; [done|]. rewrite H. vm_compute. reflexivity.
  - destruct (packet_roundtrip 0 0 0 5000 5000 77 [mkChunk 10 0 [1; 0xB5; 3; 4]]) as (bytes & E & H);
      [unfold is_u16; lia|unfold is_u16; lia|unfold is_u32; lia|
       repeat constructor; unfold is_u8; cbn; lia|].
    exists bytes. split; [done|]. rewrite H. vm_compute. reflexivity.
Defined.

(** On every datagram, of any bytes and length, the parser ends without a read
    past the end; what it accepts has chunks that are pieces of the datagram, in
    range, together with their headers no longer than it; and the parameters of
    every chunk, from any offset, are pieces of that chunk. *)
Theorem packet_parse_safe addr zaddr l : bytes_ok l ->
  exists res, parse addr zaddr l = Some res /\
    forall p, res = Some p ->
      12 + wire_size (mChunks p) <= Z.of_nat (length l) /\
      Forall (fun c => chunk_ok c /\ piece (data c) l /\
        forall offset, exists ps, parseParams c offset = Some ps /\
          Forall (fun q => is_u16 (ptype q) /\ piece (pdata q) (data c)) ps) (mChunks p).
Proof.
  intros Hl. destruct (parse_total addr zaddr l Hl) as (res & E & Hres). exists res. split; [done|].
  intros p Hp. destruct (Hres p Hp) as (Hall & Hsize & _). split; [done|].
  eapply list.Forall_impl; [exact Hall|]. intros c [Hc Hpc]. split_and!; [done..|].
  intros offset. apply parseParams_total, Hc.
Qed.

Lemma packet_parse_safe_witness :
  exists res, parse 0 0 [1; 2; 3; 4; 5; 6; 7; 8; 9; 10; 11; 12; 0; 0; 0; 255] = Some res /\ res = None.
Proof.
  destruct (packet_parse_safe 0 0 [1; 2; 3; 4; 5; 6; 7; 8; 9; 10; 11; 12; 0; 0; 0; 255]) as (res & E & _);
    [apply (bool_decide_unpack (bytes_ok _)); vm_compute; reflexivity|].
  exists res. split; [done|]. vm_compute in E. by injection E.
Defined.

(** *** Errors on the way *)

Lemma slip_ext n p q : Z.eqb 0xB5 <$> p = Z.eqb 0xB5 <$> q -> Crc32c.slip n p = Crc32c.slip n q.
Proof.
  revert p q. induction n as [|n IH]; intros p q E; [done|]. cbn [Crc32c.slip]. f_equal.
  - f_equal. unfold Crc32c.fault. rewrite !(Z.eqb_sym _ 0xB5).
    assert (0xB5 =? nth 5 p 0 = (0xB5 =? nth 5 q 0)) as ->; [|done].
    change false with (0xB5 =? 0) in E.
    rewrite <- !(map_nth (Z.eqb 0xB5)). change (map ?f ?l) with (f <$> l). by rewrite E.
  - apply IH. by rewrite !fmap_drop, E.
Qed.

Lemma slips_ext addr p q : Z.eqb 0xB5 <$> p = Z.eqb 0xB5 <$> q -> Crc32c.slips addr p = Crc32c.slips addr q.
Proof.
  intros E. unfold Crc32c.slips. assert (length p = length q) as ->
    by (rewrite <- (length_fmap (Z.eqb 0xB5) p), E; apply length_fmap).
  case_match; [done|]. f_equal. apply slip_ext. by rewrite !fmap_drop, E.
Qed.

Lemma no_b5_fmap v w : length v = length w -> 0xB5 ∉ v ++ w -> Z.eqb 0xB5 <$> v = Z.eqb 0xB5 <$> w.
Proof.
  revert w. induction v as [|a v IH]; intros [|b w] Hl Hn; try done. cbn [app] in Hn.
  rewrite not_elem_of_cons, not_elem_of_app, not_elem_of_cons in Hn. destruct Hn as (Ha & Hv & Hb & Hw).
  rewrite !fmap_cons. f_equal.
  - destruct (Z.eqb_spec 0xB5 a), (Z.eqb_spec 0xB5 b); congruence.
  - apply IH; [by injection Hl|]. rewrite not_elem_of_app. done.
Qed.

(** What the parser compares, of a text in three parts. *)
Definition summed (addr : Z) (l : list Z) : Prop :=
  Z.lxor (Crc32c.crc32c_spec (blanked l)) (Crc32c.slips (addr + 12) (drop 12 l)) = stored_crc l.

Lemma parse_summed addr zaddr l : bytes_ok l -> (12 <= length l)%nat ->
  ~ summed addr l -> parse addr zaddr l = Some None.
Proof.
  intros Hl Hlen Hn. unfold parse. destruct (Nat.ltb_spec (length l) 12); [lia|].
  rewrite computed_crc_value by done. cbn [mbind option_bind].
  by destruct (Z.eqb_spec (Z.lxor (Crc32c.crc32c_spec (blanked l)) (Crc32c.slips (addr + 12) (drop 12 l))) (stored_crc l)).
Qed.

Lemma parse_accepts_summed addr zaddr l p : bytes_ok l -> parse addr zaddr l = Some (Some p) ->
  (12 <= length l)%nat /\ summed addr l.
Proof.
  intros Hl. unfold parse. destruct (Nat.ltb_spec (length l) 12) as [|Hlen]; [done|]. intros E. split; [done|].
  rewrite computed_crc_value in E by done. cbn [mbind option_bind] in E.
  unfold summed.
  by destruct (Z.eqb_spec (Z.lxor (Crc32c.crc32c_spec (blanked l)) (Crc32c.slips (addr + 12) (drop 12 l))) (stored_crc l)).
Qed.

Lemma spec_burst pre v w post : bytes_ok pre -> bytes_ok v -> bytes_ok w -> bytes_ok post ->
  length v = 4%nat -> length w = 4%nat ->
  Crc32c.crc32c_spec (pre ++ v ++ post) = Crc32c.crc32c_spec (pre ++ w ++ post) -> v = w.
Proof.
  intros Hp Hv Hw Hq Lv Lw E. unfold Crc32c.crc32c_spec in E.
  apply (Crc32c.divide_burst 0xFFFFFFFF pre v w post); [apply init_u32|done..|].
  change (Crc32c.crc32c_finalize (Crc.divide 0xFFFFFFFF (pre ++ v ++ post)) =
    Crc32c.crc32c_finalize (Crc.divide 0xFFFFFFFF (pre ++ w ++ post))) in E.
  rewrite !Crc32c.finalize_lxor in E by (apply Crc.divide_range; [apply init_u32|]; rewrite !bytes_ok_app; done).
  rewrite !(Z.lxor_comm _ 0xFFFFFFFF) in E. apply (f_equal (Z.lxor 0xFFFFFFFF)) in E.
  by rewrite <- !Z.lxor_assoc, Z.lxor_nilpotent, !Z.lxor_0_l in E.
Qed.

Lemma spec_burst_ne pre v w post : bytes_ok pre -> bytes_ok v -> bytes_ok w -> bytes_ok post ->
  length v = 4%nat -> length w = 4%nat -> v <> w ->
  Crc32c.crc32c_spec (pre ++ v ++ post) <> Crc32c.crc32c_spec (pre ++ w ++ post).
Proof. intros ?????? Hn E. apply Hn. by apply (spec_burst pre v w post). Qed.

(** The text from [n] bytes before the checksum on. *)
Definition blanked_tail (n : nat) (post : list Z) : list Z := take n post ++ [0; 0; 0; 0] ++ drop (n + 4) post.

Lemma blanked_tail_ok n post : bytes_ok post -> bytes_ok (blanked_tail n post).
Proof. intros H. unfold blanked_tail. rewrite !bytes_ok_app. split_and!; eauto with srtc. repeat constructor; unfold is_u8; lia. Qed.

(** The changed bytes lie before the checksum, in it, or after it. *)
Lemma drop_before (n : nat) (pre v post : list Z) : (length pre + length v <= n)%nat ->
  drop n (pre ++ v ++ post) = drop (n - (length pre + length v)) post.
Proof. intros H. rewrite app_assoc. rewrite drop_app_ge by (rewrite length_app; lia). by rewrite length_app. Qed.

Lemma nth_before (n : nat) (pre v w post : list Z) : length v = length w -> (length pre + length v <= n)%nat ->
  nth n (pre ++ v ++ post) 0 = nth n (pre ++ w ++ post) 0.
Proof.
  intros Hl H. rewrite !(app_assoc pre). rewrite !app_nth2 by (rewrite length_app; lia).
  by rewrite !length_app, Hl.
Qed.

Lemma blanked_low pre v post : (length pre + length v <= 8)%nat ->
  blanked (pre ++ v ++ post) = pre ++ v ++ blanked_tail (8 - (length pre + length v)) post.
Proof.
  intros H. unfold blanked, blanked_tail. rewrite (drop_before 12) by lia.
  rewrite (app_assoc pre v post), take_app_ge by (rewrite length_app; lia).
  rewrite length_app, <- !app_assoc. do 5 f_equal. lia.
Qed.

Lemma blanked_high pre v post : (12 <= length pre)%nat -> blanked (pre ++ v ++ post) = blanked pre ++ v ++ post.
Proof.
  intros H. unfold blanked. rewrite take_app_le, drop_app_le by lia. by rewrite <- !app_assoc.
Qed.

Lemma burst_low addr pre v w post :
  bytes_ok pre -> bytes_ok v -> bytes_ok w -> bytes_ok post -> length v = 4%nat -> length w = 4%nat -> v <> w ->
  (length pre + 4 <= 8)%nat -> summed addr (pre ++ v ++ post) -> ~ summed addr (pre ++ w ++ post).
Proof.
  intros Hp Hv Hw Hq Lv Lw Hne Hlen. unfold summed, stored_crc.
  rewrite !blanked_low, !(drop_before 12), Lv, Lw, !(nth_before _ pre v w post) by lia.
  intros E1 E2. rewrite <- E2 in E1. apply Hne.
  apply (spec_burst pre v w (blanked_tail (8 - (length pre + 4)) post)); [done..|by apply blanked_tail_ok|done|done|].
  rewrite !(Z.lxor_comm _ (Crc32c.slips _ _)) in E1. apply (f_equal (Z.lxor (Crc32c.slips (addr + 12) (drop (12 - (length pre + 4)) post)))) in E1.
  by rewrite <- !Z.lxor_assoc, Z.lxor_nilpotent, !Z.lxor_0_l in E1.
Qed.

Lemma burst_high addr pre v w post :
  bytes_ok pre -> bytes_ok v -> bytes_ok w -> bytes_ok post -> length v = 4%nat -> length w = 4%nat -> v <> w ->
  0xB5 ∉ v ++ w -> (12 <= length pre)%nat -> summed addr (pre ++ v ++ post) -> ~ summed addr (pre ++ w ++ post).
Proof.
  intros Hp Hv Hw Hq Lv Lw Hne Hno Hlen. unfold summed, stored_crc.
  rewrite !blanked_high, !drop_app_le, !app_nth1 by lia. intros E1 E2. rewrite <- E2 in E1. apply Hne.
  rewrite (slips_ext _ (drop 12 pre ++ v ++ post) (drop 12 pre ++ w ++ post)) in E1
    by (rewrite !fmap_app; do 2 f_equal; apply no_b5_fmap; congruence).
  apply (spec_burst (blanked pre) v w post); [by apply blanked_ok|done..|].
  rewrite !(Z.lxor_comm _ (Crc32c.slips _ _)) in E1. apply (f_equal (Z.lxor (Crc32c.slips (addr + 12) (drop 12 pre ++ w ++ post)))) in E1.
  by rewrite <- !Z.lxor_assoc, Z.lxor_nilpotent, !Z.lxor_0_l in E1.
Qed.

Lemma blanked_mid pre v post : length pre = 8%nat -> length v = 4%nat ->
  blanked (pre ++ v ++ post) = pre ++ [0; 0; 0; 0] ++ post /\ drop 12 (pre ++ v ++ post) = post.
Proof.
  intros Hp Hv. unfold blanked. assert (drop 12 (pre ++ v ++ post) = post) as -> by (rewrite drop_before; [|lia]; by rewrite Hp, Hv).
  by rewrite take_length_app.
Qed.

Lemma burst_mid addr pre v w post : bytes_ok v -> bytes_ok w ->
  length v = 4%nat -> length w = 4%nat -> v <> w -> length pre = 8%nat ->
  summed addr (pre ++ v ++ post) -> ~ summed addr (pre ++ w ++ post).
Proof.
  intros Hv Hw Lv Lw Hne Hlen. unfold summed.
  destruct (blanked_mid pre v post) as [-> ->]; [done..|]. destruct (blanked_mid pre w post) as [-> ->]; [done..|].
  intros E1 E2. rewrite E2 in E1. apply Hne.
  destruct v as [|b0 [|b1 [|b2 [|b3 []]]]]; try done. destruct w as [|c0 [|c1 [|c2 [|c3 []]]]]; try done.
  rewrite !stored_word in E1 by done. symmetry. by apply Crc32c.word_inj.
Qed.

(** A packet that the parser accepts, with four consecutive bytes changed
    anyhow (all in the header, all in the checksum, or all after it), is
    rejected, as long as none of the old and new bytes is the 0xB5 of the wrong
    table entry. *)
Theorem burst_rejected addr zaddr pre v w post p :
  bytes_ok pre -> bytes_ok v -> bytes_ok w -> bytes_ok post ->
  length v = 4%nat -> length w = 4%nat -> v <> w -> 0xB5 ∉ v ++ w ->
  (length pre <= 4 \/ length pre = 8 \/ 12 <= length pre)%nat ->
  parse addr zaddr (pre ++ v ++ post) = Some (Some p) ->
  parse addr zaddr (pre ++ w ++ post) = Some None.
Proof.
  intros Hp Hv Hw Hq Lv Lw Hne Hno Hlen E.
  apply parse_accepts_summed in E as [Hmin Hsum]; [|rewrite !bytes_ok_app; done].
  rewrite !length_app in Hmin. apply parse_summed; [rewrite !bytes_ok_app; done|rewrite !length_app; lia|].
  destruct Hlen as [Hl|[Hl|Hl]].
  - apply (burst_low addr pre v w post); (done || lia).
  - by apply (burst_mid addr pre v w post).
  - by apply (burst_high addr pre v w post).
Qed.

Definition demo_packet : list Z :=
  match build_chunks 0 5000 5000 77 demo_chunks with Some b => b | None => [] end.

Lemma burst_rejected_witness :
  parse 0 0 (take 20 demo_packet ++ [1; 1; 1; 1] ++ drop 24 demo_packet) = Some None.
Proof.
  apply (burst_rejected 0 0 (take 20 demo_packet) (take 4 (drop 20 demo_packet)) [1; 1; 1; 1] (drop 24 demo_packet)
    (mk 5000 5000 77 demo_chunks));
  [apply (bool_decide_unpack (bytes_ok _)); vm_compute; reflexivity..|reflexivity|reflexivity|
   vm_compute; discriminate| |right; right; vm_compute; lia|vm_compute; reflexivity].
  apply (bool_decide_unpack (_ ∉ _)). vm_compute. reflexivity.
Defined.

(** *** Packets that get through

    Enough for a packet of the builder to be read: no 0xB5 as the second of a
    group of four bytes after the header. *)
Fixpoint every4 (l : list Z) : bool :=
  match l with
  | _ :: b :: _ :: _ :: l => negb (b =? 0xB5) && every4 l
  | [_; b] | [_; b; _] => negb (b =? 0xB5)
  | _ => true
  end.

Lemma every4_drop4 l : every4 l = true -> every4 (drop 4 l) = true.
Proof. do 4 (destruct l as [|? l]; [done|]). cbn. intros H. by apply andb_true_iff in H as [_ H]. Qed.

Lemma every4_hits n p : every4 (drop 4 p) = true -> Crc32c.hits n p = 0%nat.
Proof.
  revert p. induction n as [|n IH]; intros p Hp; [done|]. cbn [Crc32c.hits].
  do 4 (destruct p as [|? p]; [cbn; apply IH; done|]). cbn [drop nth] in Hp |- *.
  destruct p as [|a p]; [cbn; by apply IH|]. destruct p as [|b p]; [cbn; by apply IH|].
  destruct p as [|c p]; [cbn in Hp |- *; destruct (b =? 0xB5); [done|by apply IH]|].
  destruct p as [|d p]; [cbn in Hp |- *; destruct (b =? 0xB5); [done|by apply IH]|].
  cbn in Hp. apply andb_true_iff in Hp as [Hb Hp].
  cbn [nth]. destruct (Z.eqb_spec b 0xB5); [done|]. by apply IH, every4_drop4.
Qed.

Lemma build_parse_clean srcPort dstPort tag cs :
  is_u16 srcPort -> is_u16 dstPort -> is_u32 tag -> Forall chunk_ok cs ->
  every4 (mjoin (encode <$> cs)) = true ->
  exists bytes, build_chunks 0 srcPort dstPort tag cs = Some bytes /\
    parse 0 0 bytes = Some (Some (mk srcPort dstPort tag cs)).
Proof.
  intros Hs Hd Ht Hcs Hclean. destruct (parse_build 0 0 0 srcPort dstPort tag cs) as (bytes & E & H); [done..|].
  exists bytes. split; [done|]. rewrite H.
  rewrite !Crc32c.slips_none; [done|..]; unfold Crc32c.all_hits; change (Crc32c.lead _) with 4%nat; apply every4_hits.
  - by apply every4_drop4, every4_drop4.
  - unfold unsummed. rewrite drop_drop. change (4 + 4)%nat with 8%nat.
    rewrite drop_length_app by by rewrite length_header. done.
Qed.

End PacketWire.
