(* ===== verification/DataChannel.v ===== *)
(** * Messages of data channels

    [DataChannelMessage] (include/srtc/data_channel_message.h) is what an
    application sends, [DataChannelReceiveBuffer]
    (src/sctp/data_channel_receive_buffer.cpp) puts the fragments that arrive on a
    stream together again and hands messages out in order.  The theorems: messages
    sent one after the other, cut anywhere, come out whole; whole messages that
    arrive in any order, some of them repeatedly, come out once each and in order;
    a fragment that comes late is not waited for. *)

From S2P Require Import Prelude SctpPacket.
From stdpp Require Import gmap.
Open Scope Z_scope.

(** ** DataChannelMessage

    Strings are lists of bytes. *)

Module DataChannelMessage.

Inductive Kind := kText | kBinary.

Record t := mk { kind : Kind; label : list Z; text : list Z; binary : list Z }.

Definition makeText (label text : list Z) : t := mk kText label text [].
Definition makeBinary (label binary : list Z) : t := mk kBinary label [] binary.

End DataChannelMessage.

(** ** DataChannelReceiveBuffer *)

Module DataChannelReceiveBuffer.

Record Message := mkMessage { ppid : Z; data : list Z }.

Record PendingMessage := mkPending { pppid : Z; payload : list Z; complete : bool }.

Record t := mk { mNextSsn : Z; mPending : gmap Z PendingMessage }.

Definition make : t := mk 0 ∅.

Definition consumeSsn (b : t) (ssn : Z) : t :=
  if ssn =? mNextSsn b then mk (u16 (mNextSsn b + 1)) (mPending b) else b.

(** The loop over consecutive complete messages; every round erases one. *)
Fixpoint drain (fuel : nat) (b : t) : option (list Message * t) :=
  match mPending b !! mNextSsn b with
  | Some p =>
      if complete p then
        match fuel with
        | O => None
        | S fuel =>
            '(out, b') ← drain fuel (mk (u16 (mNextSsn b + 1)) (delete (mNextSsn b) (mPending b)));
            Some (mkMessage (pppid p) (payload p) :: out, b')
        end
      else Some ([], b)
  | None => Some ([], b)
  end.

(** The entry of [ssn] after the fragment is appended. *)
Definition accumulate (b : t) (ssn flags ppid : Z) (data : list Z) : PendingMessage :=
  let isFirst := negb (Z.land flags Defs.kDataFlagB =? 0) in
  let isLast := negb (Z.land flags Defs.kDataFlagE =? 0) in
  let pending := default (mkPending 0 [] false) (mPending b !! ssn) in
  let pending := if isFirst then mkPending ppid [] (complete pending) else pending in
  mkPending (pppid pending) (payload pending ++ data) (isLast || complete pending).

Definition receive (b : t) (ssn flags : Z) (unordered : bool) (ppid : Z) (data : list Z)
  : option (list Message * t) :=
  if negb unordered && (i16 (ssn - mNextSsn b) <? 0) then Some ([], b)
  else
    let pending := accumulate b ssn flags ppid data in
    let b := mk (mNextSsn b) (<[ssn := pending]> (mPending b)) in
    if unordered then
      if complete pending
      then Some ([mkMessage (pppid pending) (payload pending)], mk (mNextSsn b) (delete ssn (mPending b)))
      else Some ([], b)
    else drain (size (mPending b)) b.

(** A sequence of fragments: SSN, flags, PPID, payload. *)
Fixpoint receive_all (b : t) (unordered : bool) (fs : list (Z * Z * Z * list Z))
  : option (list Message * t) :=
  match fs with
  | [] => Some ([], b)
  | (ssn, flags, ppid, data) :: fs =>
      '(out, b) ← receive b ssn flags unordered ppid data;
      '(rest, b) ← receive_all b unordered fs;
      Some (out ++ rest, b)
  end.

(** ** The drain loop ends *)

Lemma drain_total fuel : forall b, (size (mPending b) <= fuel)%nat -> exists out b', drain fuel b = Some (out, b').
Proof.
  induction fuel as [|fuel IH]; intros b Hf; unfold drain; fold drain.
  - assert (mPending b = ∅) as -> by (apply map_size_empty_inv; lia). rewrite lookup_empty. by eexists _, _.
  - destruct (mPending b !! mNextSsn b) as [p|] eqn:E; [|by eexists _, _].
    destruct (complete p); [|by eexists _, _].
    destruct (IH (mk (u16 (mNextSsn b + 1)) (delete (mNextSsn b) (mPending b)))) as (out & b' & E').
    { cbn. rewrite map_size_delete_Some by by exists p. lia. }
    rewrite E'. cbn. by eexists _, _.
Qed.

Lemma receive_total b ssn flags unordered ppid data :
  exists out b', receive b ssn flags unordered ppid data = Some (out, b').
Proof.
  unfold receive. case_match; [by eexists _, _|]. destruct unordered.
  - case_match; by eexists _, _.
  - by apply drain_total.
Qed.

End DataChannelReceiveBuffer.

(** ** What comes out *)

Module Reassembly.

Import DataChannelReceiveBuffer.

Lemma i16_u16_sub a b : i16 (u16 a - u16 b) = i16 (a - b).
Proof. unfold i16, to_signed, u16. by rewrite <- Zminus_mod. Qed.

Lemma i16_range_id z : - 2 ^ 15 <= z < 2 ^ 15 -> i16 z = z.
Proof.
  intros H. unfold i16, to_signed. cbv zeta. change (16 - 1) with 15.
  destruct (decide (0 <= z)).
  - rewrite Z.mod_small by lia. destruct (Z.ltb_spec z (2 ^ 15)); lia.
  - replace (z mod 2 ^ 16) with (z + 2 ^ 16) by zdm.
    destruct (Z.ltb_spec (z + 2 ^ 16) (2 ^ 15)); lia.
Qed.

(** The fragments of a message, in order: B on the first, E on the last. *)
Fixpoint cut (first : bool) (ssn ppid : Z) (fs : list (list Z)) : list (Z * Z * Z * list Z) :=
  match fs with
  | [] => []
  | f :: rest =>
      (ssn, Z.lor (if first then Defs.kDataFlagB else 0)
              (if decide (rest = []) then Defs.kDataFlagE else 0), ppid, f) :: cut false ssn ppid rest
  end.

(** Messages from [ssn] on, each a PPID and its fragments. *)
Fixpoint cut_all (ssn : Z) (ms : list (Z * list (list Z))) : list (Z * Z * Z * list Z) :=
  match ms with
  | [] => []
  | (ppid, fs) :: ms => cut true (u16 ssn) ppid fs ++ cut_all (ssn + 1) ms
  end.

Lemma receive_all_app b unordered fs gs :
  receive_all b unordered (fs ++ gs) =
  ('(out, b) ← receive_all b unordered fs; '(rest, b) ← receive_all b unordered gs; Some (out ++ rest, b)).
Proof.
  revert b. induction fs as [|[[[ssn flags] ppid] data] fs IH]; intros b.
  - cbn. destruct (receive_all b unordered gs) as [[]|]; done.
  - cbn [app receive_all]. destruct (receive b _ _ _ _ _) as [[out b1]|]; [|done]. cbn [mbind option_bind].
    rewrite IH. destruct (receive_all b1 unordered fs) as [[out2 b2]|]; [|done]. cbn [mbind option_bind].
    destruct (receive_all b2 unordered gs) as [[]|]; [|done]. cbn [mbind option_bind]. by rewrite app_assoc.
Qed.

Lemma not_stale s : i16 (s - s) <? 0 = false.
Proof. by rewrite Z.sub_diag. Qed.

Lemma drain_one s p : complete p = true ->
  drain 1 (mk s {[ s := p ]}) = Some ([mkMessage (pppid p) (payload p)], mk (u16 (s + 1)) ∅).
Proof.
  intros Hc. cbn [drain mPending mNextSsn]. rewrite lookup_singleton_eq, Hc.
  rewrite delete_singleton_eq, lookup_empty. done.
Qed.

(** A fragment of the next message, when nothing else is pending. *)
Lemma receive_next s m flags ppid f :
  (forall p, <[s := p]> m = {[ s := p ]}) ->
  let p := accumulate (mk s m) s flags ppid f in
  receive (mk s m) s flags false ppid f =
  Some (if complete p then ([mkMessage (pppid p) (payload p)], mk (u16 (s + 1)) ∅) else ([], mk s {[ s := p ]})).
Proof.
  intros Hm p. unfold receive. cbn [negb andb mNextSsn mPending]. rewrite not_stale. fold p.
  rewrite Hm, map_size_singleton. destruct (complete p) eqn:Hc; [by apply drain_one|].
  unfold drain. cbn [mPending mNextSsn]. by rewrite lookup_singleton_eq, Hc.
Qed.

(** The fragments after the first, with [acc] received so far. *)
Lemma receive_cut s ppid fs acc : fs <> [] ->
  receive_all (mk s {[ s := mkPending ppid acc false ]}) false (cut false s ppid fs) =
  Some ([mkMessage ppid (acc ++ mjoin fs)], mk (u16 (s + 1)) ∅).
Proof.
  revert acc. induction fs as [|f fs IH]; intros acc Hne; [done|]. cbn [cut receive_all].
  rewrite receive_next by (intros p; apply insert_singleton_eq).
  unfold accumulate. cbn [mPending]. rewrite lookup_singleton_eq. destruct (decide (fs = [])) as [->|Hfs].
  - cbn. by rewrite app_nil_r.
  - cbn [default]. change (negb (Z.land (Z.lor 0 0) _ =? 0)) with false.
    cbn [id complete pppid payload orb mbind option_bind].
    rewrite IH by done. cbn. by rewrite <- app_assoc.
Qed.

Lemma receive_cut_first s ppid fs : fs <> [] ->
  receive_all (mk s ∅) false (cut true s ppid fs) =
  Some ([mkMessage ppid (mjoin fs)], mk (u16 (s + 1)) ∅).
Proof.
  destruct fs as [|f fs]; [done|]. intros _. cbn [cut receive_all].
  rewrite receive_next by (intros p; apply insert_empty).
  unfold accumulate. cbn [mPending]. rewrite lookup_empty. destruct (decide (fs = [])) as [->|Hfs].
  - cbn. by rewrite app_nil_r.
  - cbn [default]. change (negb (Z.land (Z.lor Defs.kDataFlagB 0) Defs.kDataFlagB =? 0)) with true.
    change (negb (Z.land (Z.lor Defs.kDataFlagB 0) Defs.kDataFlagE =? 0)) with false.
    cbn [id complete pppid payload orb mbind option_bind app]. by rewrite receive_cut by done.
Qed.

Lemma receive_cut_all ms : forall ssn, Forall (fun m => snd m <> []) ms ->
  receive_all (mk (u16 ssn) ∅) false (cut_all ssn ms) =
  Some (map (fun '(ppid, fs) => mkMessage ppid (mjoin fs)) ms, mk (u16 (ssn + Z.of_nat (length ms))) ∅).
Proof.
  induction ms as [|[ppid fs] ms IH]; intros ssn Hms.
  - cbn. by rewrite Z.add_0_r.
  - apply list.Forall_cons in Hms as [Hm Hms]. cbn [cut_all map]. rewrite receive_all_app, receive_cut_first by done.
    cbn [mbind option_bind]. replace (u16 (u16 ssn + 1)) with (u16 (ssn + 1))
      by (unfold u16; by rewrite Zplus_mod_idemp_l).
    rewrite IH by done. cbn [mbind option_bind app length]. do 4 f_equal. lia.
Qed.

(** Messages sent one after the other on an ordered channel, whatever their
    number (the 16-bit sequence numbers may wrap), each cut into fragments at any
    places, come out of the receive buffer whole and in order, and leave nothing
    behind. *)
Theorem reassembly_roundtrip ssn ms : Forall (fun m => snd m <> []) ms ->
  receive_all (mk (u16 ssn) ∅) false (cut_all ssn ms) =
  Some (map (fun '(ppid, fs) => mkMessage ppid (mjoin fs)) ms, mk (u16 (ssn + Z.of_nat (length ms))) ∅).
Proof. apply receive_cut_all. Qed.

Lemma reassembly_roundtrip_witness :
  receive_all (mk 65535 ∅) false (cut_all 65535 [(51, [[1; 2]; [3]; [4]]); (53, [[5]])]) =
  Some ([mkMessage 51 [1; 2; 3; 4]; mkMessage 53 [5]], mk 1 ∅).
Proof.
  pose proof (reassembly_roundtrip 65535 [(51, [[1; 2]; [3]; [4]]); (53, [[5]])]) as H.
  change (u16 65535) with 65535 in H. rewrite H; [reflexivity|].
  repeat constructor; discriminate.
Defined.

(** A fragment that is late is not waited for: on an ordered channel the last
    fragment completes the message even when a middle one is missing, the message
    is delivered without it, and the late fragment is dropped when it comes. *)
Theorem late_fragment_lost ssn ppid first middle last :
  is_u16 ssn ->
  receive_all (mk ssn ∅) false
    [(ssn, Defs.kDataFlagB, ppid, first); (ssn, Defs.kDataFlagE, ppid, last); (ssn, 0, ppid, middle)] =
  Some ([mkMessage ppid (first ++ last)], mk (u16 (ssn + 1)) ∅).
Proof.
  intros Hs. pose proof (receive_cut_first ssn ppid [first; last]) as H. specialize (H ltac:(done)).
  change [(ssn, Defs.kDataFlagB, ppid, first); (ssn, Defs.kDataFlagE, ppid, last); (ssn, 0, ppid, middle)]
    with (cut true ssn ppid [first; last] ++ [(ssn, 0, ppid, middle)]).
  rewrite receive_all_app, H. cbn [mbind option_bind receive_all]. unfold receive. cbn [negb andb mNextSsn].
  replace (i16 (ssn - u16 (ssn + 1))) with (-1).
  - cbn. by rewrite app_nil_r.
  - rewrite <- (u16_small ssn) at 1 by done. rewrite i16_u16_sub, i16_range_id by lia. lia.
Qed.

Lemma late_fragment_lost_witness :
  receive_all (mk 7 ∅) false [(7, 2, 51, [1]); (7, 1, 51, [3]); (7, 0, 51, [2])] =
  Some ([mkMessage 51 [1; 3]], mk 8 ∅).
Proof. apply (late_fragment_lost 7 51 [1] [2] [3]). unfold is_u16. lia. Defined.

(** *** Messages out of order

    [msgs] are sent whole, from the sequence number [s] on; they arrive in any
    order, any of them repeatedly. *)
Section Ordered.

#[local] Set Default Proof Using "Type*".

Variables (s : Z) (msgs : list (Z * list Z)).
Hypothesis Hcount : Z.of_nat (length msgs) <= 2 ^ 15.

Definition ssn_of (k : nat) : Z := u16 (s + Z.of_nat k).
Definition idx (x : Z) : nat := Z.to_nat (u16 (x - s)).

Definition pend (k : nat) : option PendingMessage := (fun m => mkPending m.1 m.2 true) <$> msgs !! k.
Definition to_message (m : Z * list Z) : Message := mkMessage m.1 m.2.

Definition arrival (k : nat) : Z * Z * Z * list Z :=
  let m := default (0, []) (msgs !! k) in (ssn_of k, Defs.kDataFlagComplete, m.1, m.2).

(** After the arrivals [seen], with the first [m] messages delivered. *)
Record holds (seen : list nat) (m : nat) (b : t) : Prop := {
  holds_next : mNextSsn b = ssn_of m;
  holds_le : (m <= length msgs)%nat;
  holds_done : forall k, (k < m)%nat -> k ∈ seen;
  holds_pending : forall x, mPending b !! x =
    if decide (is_u16 x /\ (m <= idx x)%nat /\ idx x ∈ seen) then pend (idx x) else None
}.

Lemma idx_ssn k : (k < length msgs)%nat -> idx (ssn_of k) = k.
Proof.
  intros Hk. unfold idx, ssn_of, u16. rewrite Zminus_mod_idemp_l.
  replace (s + Z.of_nat k - s) with (Z.of_nat k) by lia. rewrite Z.mod_small; lia.
Qed.

Lemma ssn_idx x : is_u16 x -> ssn_of (idx x) = x.
Proof.
  clear Hcount msgs. intros Hx. unfold idx, ssn_of. pose proof (u16_range (x - s)) as Hr. unfold is_u16 in *.
  rewrite Z2Nat.id by lia. unfold u16. rewrite Zplus_mod_idemp_r.
  replace (s + (x - s)) with x by lia. apply Z.mod_small. lia.
Qed.

Lemma ssn_of_u16 k : is_u16 (ssn_of k).
Proof. apply u16_range. Qed.

Lemma ssn_next m : u16 (ssn_of m + 1) = ssn_of (S m).
Proof. clear Hcount msgs. unfold ssn_of, u16. rewrite Zplus_mod_idemp_l. f_equal. lia. Qed.

Lemma pend_some k p : pend k = Some p -> (k < length msgs)%nat /\ complete p = true /\
  exists msg, msgs !! k = Some msg /\ mkMessage (pppid p) (payload p) = to_message msg.
Proof.
  unfold pend. destruct (msgs !! k) as [msg|] eqn:E; [|done]. intros [= <-].
  split_and!; [by apply lookup_lt_Some in E|done|]. by exists msg.
Qed.

(** What is next: one more message, or a gap. *)
Lemma holds_front seen m b : holds seen m b ->
  (exists p msg, mPending b !! mNextSsn b = Some p /\ complete p = true /\ msgs !! m = Some msg /\
     mkMessage (pppid p) (payload p) = to_message msg /\
     holds seen (S m) (mk (u16 (mNextSsn b + 1)) (delete (mNextSsn b) (mPending b)))) \/
  (mPending b !! mNextSsn b = None /\ (m = length msgs \/ m ∉ seen)).
Proof.
  intros H. pose proof H as [Hnext Hle Hdone Hpend]. rewrite Hnext, Hpend.
  destruct (decide (m = length msgs)) as [->|Hm].
  { right. split; [|by left]. case_decide; [|done]. unfold pend.
    destruct (msgs !! idx (ssn_of (length msgs))) eqn:E; [|done]. apply lookup_lt_Some in E.
    destruct H0 as (_ & Hl & _). lia. }
  rewrite idx_ssn by lia. destruct (decide (m ∈ seen)) as [Hin|Hin].
  2: { right. split; [|by right]. rewrite decide_False; [done|]. tauto. }
  rewrite decide_True by (split_and!; [apply ssn_of_u16|lia|done]). left.
  destruct (lookup_lt_is_Some_2 msgs m) as [msg Hmsg]; [lia|].
  exists (mkPending msg.1 msg.2 true), msg. split_and!; [unfold pend; by rewrite Hmsg|done|done|done|].
  constructor; cbn [mNextSsn mPending].
  - by apply ssn_next.
  - lia.
  - intros k Hk. destruct (decide (k = m)) as [->|]; [done|]. apply Hdone. lia.
  - intros x. destruct (decide (x = ssn_of m)) as [->|Hx].
    + rewrite lookup_delete_eq. rewrite decide_False; [done|]. rewrite idx_ssn by lia. lia.
    + rewrite lookup_delete_ne by done. rewrite Hpend. case_decide as H1; case_decide as H2;
        [done| |exfalso; destruct H2 as (? & ? & ?); apply H1; split_and!; [done|lia|done]|done].
      exfalso. apply H2. destruct H1 as (Hu & Hl & Hs). split_and!; [done| |done].
      destruct (decide (idx x = m)) as [E|]; [|lia]. by rewrite <- E, ssn_idx in Hx.
Qed.

Lemma drain_holds fuel : forall seen m b, holds seen m b -> (size (mPending b) <= fuel)%nat ->
  exists m' b', drain fuel b = Some (to_message <$> take (m' - m) (drop m msgs), b') /\
    (m <= m')%nat /\ holds seen m' b' /\ (m' = length msgs \/ m' ∉ seen).
Proof.
  induction fuel as [|fuel IH]; intros seen m b H Hf; unfold drain; fold drain;
    destruct (holds_front seen m b H) as [(p & msg & Ep & Hc & Hmsg & Hto & Hnext)|[En Hgap]].
  1: { assert (mPending b = ∅) as E by (apply map_size_empty_inv; lia). by rewrite E, lookup_empty in Ep. }
  1, 3: (rewrite En; exists m, b; rewrite Nat.sub_diag, take_0; by split_and!).
  rewrite Ep, Hc. destruct (IH seen (S m) _ Hnext) as (m' & b' & E & Hle & Hb' & Hgap).
  { cbn. rewrite map_size_delete_Some by by exists p. lia. }
  rewrite E. cbn [mbind option_bind]. exists m', b'. split_and!; [|lia|done..].
  replace (m' - m)%nat with (S (m' - S m)) by lia. rewrite (drop_S msgs msg m) by done.
  cbn [take fmap list_fmap]. by rewrite Hto.
Qed.

Lemma receive_holds seen m b k : holds seen m b -> (m = length msgs \/ m ∉ seen) -> (k < length msgs)%nat ->
  let '(ssn, flags, ppid, data) := arrival k in
  exists m' b', receive b ssn flags false ppid data = Some (to_message <$> take (m' - m) (drop m msgs), b') /\
    (m <= m')%nat /\ holds (k :: seen) m' b' /\ (m' = length msgs \/ m' ∉ k :: seen).
Proof.
  intros H Hgap Hk. pose proof H as [Hnext Hle Hdone Hpend].
  destruct (lookup_lt_is_Some_2 msgs k) as [msg Hmsg]; [done|].
  unfold arrival. rewrite Hmsg. cbn [default id].
  unfold receive. cbn [negb andb]. rewrite Hnext. unfold ssn_of at 1 2. rewrite i16_u16_sub, i16_range_id by lia.
  destruct (Z.ltb_spec (s + Z.of_nat k - (s + Z.of_nat m)) 0) as [Hlt|Hge].
  - exists m, b. rewrite Nat.sub_diag, take_0. split_and!; [done|lia| |].
    + constructor; [done|done|intros j Hj; right; by apply Hdone|].
      intros x. rewrite Hpend. case_decide as H1; case_decide as H2; [done| |..].
      * exfalso. apply H2. rewrite elem_of_cons. tauto.
      * exfalso. apply H1. rewrite elem_of_cons in H2. destruct H2 as (? & ? & [E|]); [lia|done].
      * done.
    + destruct Hgap as [|Hgap]; [by left|]. right. rewrite not_elem_of_cons. split; [lia|done].
  - set (pending := accumulate b (ssn_of k) Defs.kDataFlagComplete msg.1 msg.2).
    assert (pending = mkPending msg.1 msg.2 true) as -> by done.
    change (mNextSsn {| mNextSsn := ?n; mPending := ?q |}) with n.
    apply drain_holds; [|done]. constructor; cbn [mNextSsn mPending]; [done|done|intros j Hj; right; by apply Hdone|].
    intros x. destruct (decide (x = ssn_of k)) as [->|Hx].
    + rewrite lookup_insert_eq, idx_ssn by done.
      rewrite decide_True by (split_and!; [apply ssn_of_u16|lia|left]). unfold pend. by rewrite Hmsg.
    + rewrite lookup_insert_ne by done. rewrite Hpend. case_decide as H1; case_decide as H2; [done| |..|done].
      * exfalso. apply H2. rewrite elem_of_cons. tauto.
      * exfalso. apply H1. rewrite elem_of_cons in H2. destruct H2 as (Hu & ? & [E|]); [|done].
        by rewrite <- E, ssn_idx in Hx.
Qed.

Lemma receive_arrivals ks : forall seen m b, holds seen m b -> (m = length msgs \/ m ∉ seen) ->
  Forall (fun k => (k < length msgs)%nat) ks ->
  exists m' b', receive_all b false (arrival <$> ks) = Some (to_message <$> take (m' - m) (drop m msgs), b') /\
    (m <= m')%nat /\ holds (rev ks ++ seen) m' b' /\ (m' = length msgs \/ m' ∉ rev ks ++ seen).
Proof.
  induction ks as [|k ks IH]; intros seen m b H Hgap Hks.
  - exists m, b. cbn. rewrite Nat.sub_diag, take_0. by split_and!.
  - apply list.Forall_cons in Hks as [Hk Hks]. cbn [fmap list_fmap receive_all].
    pose proof (receive_holds seen m b k H Hgap Hk) as Hr. destruct (arrival k) as [[[ssn flags] ppid] data].
    destruct Hr as (m1 & b1 & E1 & Hle1 & H1 & Hgap1). rewrite E1. cbn [mbind option_bind].
    destruct (IH (k :: seen) m1 b1 H1 Hgap1 Hks) as (m2 & b2 & E2 & Hle2 & H2 & Hgap2).
    change (list_fmap _ _ arrival ks) with (arrival <$> ks). rewrite E2. cbn [mbind option_bind].
    exists m2, b2. cbn [rev]. rewrite <- app_assoc. split_and!; [|lia|done|done].
    do 2 f_equal. rewrite <- fmap_app. f_equal.
    replace (m2 - m)%nat with ((m1 - m) + (m2 - m1))%nat by lia.
    rewrite <- take_take_drop, drop_drop. do 3 f_equal. lia.
Qed.

End Ordered.

Lemma holds_start s msgs : is_u16 s -> Z.of_nat (length msgs) <= 2 ^ 15 -> holds s msgs [] 0 (mk s ∅).
Proof.
  intros Hs Hn. constructor.
  - unfold ssn_of. by rewrite Z.add_0_r, u16_small.
  - lia.
  - lia.
  - intros x. cbn [mPending]. rewrite lookup_empty, decide_False; [done|]. intros (_ & _ & Hx). by apply not_elem_of_nil in Hx.
Qed.

(** Up to 2^15 whole messages of an ordered channel that arrive in any order,
    any of them any number of times: what comes out is a prefix of what was sent,
    in the order sent and each message once, up to the first message that has not
    arrived, however the sequence numbers wrap. *)
Theorem ordered_delivery s msgs ks :
  is_u16 s -> Z.of_nat (length msgs) <= 2 ^ 15 -> Forall (fun k => (k < length msgs)%nat) ks ->
  exists m b, receive_all (mk s ∅) false (arrival s msgs <$> ks) = Some (to_message <$> take m msgs, b) /\
    (m <= length msgs)%nat /\ (forall k, (k < m)%nat -> k ∈ ks) /\ (m = length msgs \/ m ∉ ks).
Proof.
  intros Hs Hn Hks.
  destruct (receive_arrivals s msgs Hn ks [] 0 (mk s ∅) (holds_start s msgs Hs Hn)) as (m & b & E & Hle & Hh & Hgap);
    [right; apply not_elem_of_nil|done|].
  rewrite app_nil_r in Hh, Hgap. rewrite drop_0, Nat.sub_0_r in E. exists m, b. split_and!; [done|by apply holds_le in Hh| |].
  - intros k Hk. apply (holds_done _ _ _ _ _ Hh) in Hk. by rewrite list_elem_of_In, <- in_rev, <- list_elem_of_In in Hk.
  - destruct Hgap as [|Hgap]; [by left|right]. by rewrite list_elem_of_In, in_rev, <- list_elem_of_In.
Qed.

Lemma ordered_delivery_witness :
  exists m b, receive_all (mk 65534 ∅) false
    (arrival 65534 [(51, [1]); (53, [2]); (51, [3])] <$> [2; 2; 0; 1; 0]%nat) =
    Some (to_message <$> take m [(51, [1]); (53, [2]); (51, [3])], b) /\ m = 3%nat.
Proof.
  destruct (ordered_delivery 65534 [(51, [1]); (53, [2]); (51, [3])] [2; 2; 0; 1; 0]%nat) as (m & b & E & Hle & _ & Hm);
    [unfold is_u16; lia|cbn; lia|repeat constructor|].
  exists m, b. split; [exact E|]. destruct Hm as [->|Hm]; [done|].
  destruct m as [|[|[|m]]]; [exfalso; apply Hm; apply (bool_decide_unpack (_ ∈ _)); vm_compute; reflexivity..|].
  cbn in Hle. lia.
Defined.

End Reassembly.
