(* ===== verification/SctpSession.v ===== *)
(** * The SCTP session

    [SctpSession] is src/sctp/sctp_session.cpp: one end of an association, with its
    data channels.  The session's listener is [PeerCandidate]
    (src/peer_candidate.cpp, [onSctp...] and [sendDataChannelMessage]); its queue of
    messages that wait for a channel to open is part of the state, since it sends
    from inside the callback.

    A method is a computation in the monad [M]: it threads the state, collects the
    calls of the listener that leave the program ([Event]) and can stop ([None]: an
    [assert] or [check_read] failed).  The scheduler is the list of the tasks
    submitted and not yet run or cancelled; a weak pointer to a task is its number.
    [runTask] is the scheduler running one.  Random numbers and the clock are
    arguments; HMAC-SHA1 is OpenSSL's ([Evp] of Srtp). *)

From S2P Require Import Prelude Bytes Srtp Crc32c SctpPacket DataChannel.
From stdpp Require Import sorting.
Open Scope Z_scope.

Module SctpSession.

Import Defs.

(** ** State *)

Inductive DataChannelState := kNone | kOpening | kOpen.

#[global] Instance DataChannelState_eq_dec : EqDecision DataChannelState.
Proof. solve_decision. Defined.

Record DataChannel := mkChannel {
  label : list Z;
  streamId : Z;
  unordered : bool;
  state : DataChannelState;
  receiveBuffer : DataChannelReceiveBuffer.t;
  sendSsn : Z
}.

Definition newChannel (label : list Z) (streamId : Z) (unordered : bool) : DataChannel :=
  mkChannel label streamId unordered kNone DataChannelReceiveBuffer.make 0.

Definition set_state (v : DataChannelState) (c : DataChannel) : DataChannel :=
  mkChannel (label c) (streamId c) (unordered c) v (receiveBuffer c) (sendSsn c).
Definition set_receiveBuffer (v : DataChannelReceiveBuffer.t) (c : DataChannel) : DataChannel :=
  mkChannel (label c) (streamId c) (unordered c) (state c) v (sendSsn c).
Definition set_sendSsn (v : Z) (c : DataChannel) : DataChannel :=
  mkChannel (label c) (streamId c) (unordered c) (state c) (receiveBuffer c) v.

Record SentChunk := mkSent { tsn : Z; cflags : Z; payloadSize : Z; body : list Z }.

Inductive State := New | CookieWait | CookieEchoed | Established.

#[global] Instance State_eq_dec : EqDecision State.
Proof. solve_decision. Defined.

(** What a task does when it runs. *)
Inductive Action := SendInit (iteration : nat) | SendCookieEcho (iteration : nat) | RetransmitOldest.

Record Task := mkTask { taskId : nat; delayMs : Z; action : Action }.

(** The members that the constructor sets for good. *)
Record Config := mkConfig {
  mLocalPort : Z;
  mRemotePort : Z;
  mMaxMessageSize : Z;
  mIsRemoteSetupActive : bool;
  mInitiateTag : Z;
  mInitialTsn : Z;
  mHmacKey : list Z
}.

Record t := mk {
  config :> Config;
  mDataChannels : list DataChannel;
  mSentChunks : list SentChunk;
  mPendingSend : list DataChannelMessage.t;
  mFlightSize : Z;
  mState : State;
  mPeerTag : Z;
  mPeerOutStreams : Z;
  mPeerInStreams : Z;
  mPeerRwnd : Z;
  mCurrentTsn : Z;
  mPeerCumulativeTsn : Z;
  mPeerOutOfOrderTsns : list Z;
  mCookieEchoPacket : list Z;
  mTaskT1Init : option nat;
  mTaskT1Cookie : option nat;
  mTaskT3Rtx : option nat;
  mTasks : list Task;
  mNextTask : nat;
  mDataSendQueue : list DataChannelMessage.t
}.

Definition set_mDataChannels (v : list DataChannel) (s : t) : t :=
  mk (config s) v (mSentChunks s) (mPendingSend s) (mFlightSize s) (mState s) (mPeerTag s)
    (mPeerOutStreams s) (mPeerInStreams s) (mPeerRwnd s) (mCurrentTsn s) (mPeerCumulativeTsn s)
    (mPeerOutOfOrderTsns s) (mCookieEchoPacket s) (mTaskT1Init s) (mTaskT1Cookie s) (mTaskT3Rtx s)
    (mTasks s) (mNextTask s) (mDataSendQueue s).

Definition set_mSentChunks (v : list SentChunk) (s : t) : t :=
  mk (config s) (mDataChannels s) v (mPendingSend s) (mFlightSize s) (mState s) (mPeerTag s)
    (mPeerOutStreams s) (mPeerInStreams s) (mPeerRwnd s) (mCurrentTsn s) (mPeerCumulativeTsn s)
    (mPeerOutOfOrderTsns s) (mCookieEchoPacket s) (mTaskT1Init s) (mTaskT1Cookie s) (mTaskT3Rtx s)
    (mTasks s) (mNextTask s) (mDataSendQueue s).

Definition set_mPendingSend (v : list DataChannelMessage.t) (s : t) : t :=
  mk (config s) (mDataChannels s) (mSentChunks s) v (mFlightSize s) (mState s) (mPeerTag s)
    (mPeerOutStreams s) (mPeerInStreams s) (mPeerRwnd s) (mCurrentTsn s) (mPeerCumulativeTsn s)
    (mPeerOutOfOrderTsns s) (mCookieEchoPacket s) (mTaskT1Init s) (mTaskT1Cookie s) (mTaskT3Rtx s)
    (mTasks s) (mNextTask s) (mDataSendQueue s).

Definition set_mFlightSize (v : Z) (s : t) : t :=
  mk (config s) (mDataChannels s) (mSentChunks s) (mPendingSend s) v (mState s) (mPeerTag s)
    (mPeerOutStreams s) (mPeerInStreams s) (mPeerRwnd s) (mCurrentTsn s) (mPeerCumulativeTsn s)
    (mPeerOutOfOrderTsns s) (mCookieEchoPacket s) (mTaskT1Init s) (mTaskT1Cookie s) (mTaskT3Rtx s)
    (mTasks s) (mNextTask s) (mDataSendQueue s).

Definition set_mState (v : State) (s : t) : t :=
  mk (config s) (mDataChannels s) (mSentChunks s) (mPendingSend s) (mFlightSize s) v (mPeerTag s)
    (mPeerOutStreams s) (mPeerInStreams s) (mPeerRwnd s) (mCurrentTsn s) (mPeerCumulativeTsn s)
    (mPeerOutOfOrderTsns s) (mCookieEchoPacket s) (mTaskT1Init s) (mTaskT1Cookie s) (mTaskT3Rtx s)
    (mTasks s) (mNextTask s) (mDataSendQueue s).

Definition set_mPeerTag (v : Z) (s : t) : t :=
  mk (config s) (mDataChannels s) (mSentChunks s) (mPendingSend s) (mFlightSize s) (mState s) v
    (mPeerOutStreams s) (mPeerInStreams s) (mPeerRwnd s) (mCurrentTsn s) (mPeerCumulativeTsn s)
    (mPeerOutOfOrderTsns s) (mCookieEchoPacket s) (mTaskT1Init s) (mTaskT1Cookie s) (mTaskT3Rtx s)
    (mTasks s) (mNextTask s) (mDataSendQueue s).

Definition set_mPeerOutStreams (v : Z) (s : t) : t :=
  mk (config s) (mDataChannels s) (mSentChunks s) (mPendingSend s) (mFlightSize s) (mState s)
    (mPeerTag s) v (mPeerInStreams s) (mPeerRwnd s) (mCurrentTsn s) (mPeerCumulativeTsn s)
    (mPeerOutOfOrderTsns s) (mCookieEchoPacket s) (mTaskT1Init s) (mTaskT1Cookie s) (mTaskT3Rtx s)
    (mTasks s) (mNextTask s) (mDataSendQueue s).

Definition set_mPeerInStreams (v : Z) (s : t) : t :=
  mk (config s) (mDataChannels s) (mSentChunks s) (mPendingSend s) (mFlightSize s) (mState s)
    (mPeerTag s) (mPeerOutStreams s) v (mPeerRwnd s) (mCurrentTsn s) (mPeerCumulativeTsn s)
    (mPeerOutOfOrderTsns s) (mCookieEchoPacket s) (mTaskT1Init s) (mTaskT1Cookie s) (mTaskT3Rtx s)
    (mTasks s) (mNextTask s) (mDataSendQueue s).

Definition set_mPeerRwnd (v : Z) (s : t) : t :=
  mk (config s) (mDataChannels s) (mSentChunks s) (mPendingSend s) (mFlightSize s) (mState s)
    (mPeerTag s) (mPeerOutStreams s) (mPeerInStreams s) v (mCurrentTsn s) (mPeerCumulativeTsn s)
    (mPeerOutOfOrderTsns s) (mCookieEchoPacket s) (mTaskT1Init s) (mTaskT1Cookie s) (mTaskT3Rtx s)
    (mTasks s) (mNextTask s) (mDataSendQueue s).

Definition set_mCurrentTsn (v : Z) (s : t) : t :=
  mk (config s) (mDataChannels s) (mSentChunks s) (mPendingSend s) (mFlightSize s) (mState s)
    (mPeerTag s) (mPeerOutStreams s) (mPeerInStreams s) (mPeerRwnd s) v (mPeerCumulativeTsn s)
    (mPeerOutOfOrderTsns s) (mCookieEchoPacket s) (mTaskT1Init s) (mTaskT1Cookie s) (mTaskT3Rtx s)
    (mTasks s) (mNextTask s) (mDataSendQueue s).

Definition set_mPeerCumulativeTsn (v : Z) (s : t) : t :=
  mk (config s) (mDataChannels s) (mSentChunks s) (mPendingSend s) (mFlightSize s) (mState s)
    (mPeerTag s) (mPeerOutStreams s) (mPeerInStreams s) (mPeerRwnd s) (mCurrentTsn s) v
    (mPeerOutOfOrderTsns s) (mCookieEchoPacket s) (mTaskT1Init s) (mTaskT1Cookie s) (mTaskT3Rtx s)
    (mTasks s) (mNextTask s) (mDataSendQueue s).

Definition set_mPeerOutOfOrderTsns (v : list Z) (s : t) : t :=
  mk (config s) (mDataChannels s) (mSentChunks s) (mPendingSend s) (mFlightSize s) (mState s)
    (mPeerTag s) (mPeerOutStreams s) (mPeerInStreams s) (mPeerRwnd s) (mCurrentTsn s)
    (mPeerCumulativeTsn s) v (mCookieEchoPacket s) (mTaskT1Init s) (mTaskT1Cookie s) (mTaskT3Rtx s)
    (mTasks s) (mNextTask s) (mDataSendQueue s).

Definition set_mCookieEchoPacket (v : list Z) (s : t) : t :=
  mk (config s) (mDataChannels s) (mSentChunks s) (mPendingSend s) (mFlightSize s) (mState s)
    (mPeerTag s) (mPeerOutStreams s) (mPeerInStreams s) (mPeerRwnd s) (mCurrentTsn s)
    (mPeerCumulativeTsn s) (mPeerOutOfOrderTsns s) v (mTaskT1Init s) (mTaskT1Cookie s) (mTaskT3Rtx
    s) (mTasks s) (mNextTask s) (mDataSendQueue s).

Definition set_mTaskT1Init (v : option nat) (s : t) : t :=
  mk (config s) (mDataChannels s) (mSentChunks s) (mPendingSend s) (mFlightSize s) (mState s)
    (mPeerTag s) (mPeerOutStreams s) (mPeerInStreams s) (mPeerRwnd s) (mCurrentTsn s)
    (mPeerCumulativeTsn s) (mPeerOutOfOrderTsns s) (mCookieEchoPacket s) v (mTaskT1Cookie s)
    (mTaskT3Rtx s) (mTasks s) (mNextTask s) (mDataSendQueue s).

Definition set_mTaskT1Cookie (v : option nat) (s : t) : t :=
  mk (config s) (mDataChannels s) (mSentChunks s) (mPendingSend s) (mFlightSize s) (mState s)
    (mPeerTag s) (mPeerOutStreams s) (mPeerInStreams s) (mPeerRwnd s) (mCurrentTsn s)
    (mPeerCumulativeTsn s) (mPeerOutOfOrderTsns s) (mCookieEchoPacket s) (mTaskT1Init s) v
    (mTaskT3Rtx s) (mTasks s) (mNextTask s) (mDataSendQueue s).

Definition set_mTaskT3Rtx (v : option nat) (s : t) : t :=
  mk (config s) (mDataChannels s) (mSentChunks s) (mPendingSend s) (mFlightSize s) (mState s)
    (mPeerTag s) (mPeerOutStreams s) (mPeerInStreams s) (mPeerRwnd s) (mCurrentTsn s)
    (mPeerCumulativeTsn s) (mPeerOutOfOrderTsns s) (mCookieEchoPacket s) (mTaskT1Init s)
    (mTaskT1Cookie s) v (mTasks s) (mNextTask s) (mDataSendQueue s).

Definition set_mTasks (v : list Task) (s : t) : t :=
  mk (config s) (mDataChannels s) (mSentChunks s) (mPendingSend s) (mFlightSize s) (mState s)
    (mPeerTag s) (mPeerOutStreams s) (mPeerInStreams s) (mPeerRwnd s) (mCurrentTsn s)
    (mPeerCumulativeTsn s) (mPeerOutOfOrderTsns s) (mCookieEchoPacket s) (mTaskT1Init s)
    (mTaskT1Cookie s) (mTaskT3Rtx s) v (mNextTask s) (mDataSendQueue s).

Definition set_mNextTask (v : nat) (s : t) : t :=
  mk (config s) (mDataChannels s) (mSentChunks s) (mPendingSend s) (mFlightSize s) (mState s)
    (mPeerTag s) (mPeerOutStreams s) (mPeerInStreams s) (mPeerRwnd s) (mCurrentTsn s)
    (mPeerCumulativeTsn s) (mPeerOutOfOrderTsns s) (mCookieEchoPacket s) (mTaskT1Init s)
    (mTaskT1Cookie s) (mTaskT3Rtx s) (mTasks s) v (mDataSendQueue s).

Definition set_mDataSendQueue (v : list DataChannelMessage.t) (s : t) : t :=
  mk (config s) (mDataChannels s) (mSentChunks s) (mPendingSend s) (mFlightSize s) (mState s)
    (mPeerTag s) (mPeerOutStreams s) (mPeerInStreams s) (mPeerRwnd s) (mCurrentTsn s)
    (mPeerCumulativeTsn s) (mPeerOutOfOrderTsns s) (mCookieEchoPacket s) (mTaskT1Init s)
    (mTaskT1Cookie s) (mTaskT3Rtx s) (mTasks s) (mNextTask s) v.

(** ** Computations *)

Inductive Event :=
| Packet (bytes : list Z)
| ChannelOpen (label : list Z)
| ChannelText (label text : list Z)
| ChannelBinary (label data : list Z)
| ChannelClose (label : list Z).

Definition M (A : Type) : Type := t -> option (A * t * list Event).

Definition ret {A} (a : A) : M A := fun s => Some (a, s, []).

Definition bind {A B} (m : M A) (k : A -> M B) : M B := fun s =>
  match m s with
  | Some (a, s, es) =>
      match k a s with
      | Some (b, s, es') => Some (b, s, es ++ es')
      | None => None
      end
  | None => None
  end.

Definition get : M t := fun s => Some (s, s, []).
Definition gets {A} (f : t -> A) : M A := fun s => Some (f s, s, []).
Definition modify (f : t -> t) : M unit := fun s => Some (tt, f s, []).
Definition emit (e : Event) : M unit := fun s => Some (tt, s, [e]).
Definition lift {A} (o : option A) : M A := fun s => a ← o; Some (a, s, []).
Definition when (b : bool) (m : M unit) : M unit := if b then m else ret tt.

Declare Scope session_scope.
Notation "'let*' x := m 'in' k" := (bind m (fun x => k))
  (at level 200, x pattern, m at level 100, k at level 200, right associativity) : session_scope.
Notation "m ;;; k" := (bind m (fun _ => k)) (at level 199, right associativity) : session_scope.
Open Scope session_scope.

(** A loop over a list. *)
Fixpoint forEach {A} (l : list A) (f : A -> M unit) : M unit :=
  match l with
  | [] => ret tt
  | a :: l => f a;;; forEach l f
  end.

(** ** Timers *)

Fixpoint delay_loop (n : nat) (delay : Z) : Z :=
  match n with
  | O => delay
  | S n =>
      let delay := u32 (delay * 3) / 2 in
      if kRtoMaxMs <=? delay then kRtoMaxMs else delay_loop n delay
  end.

Definition retransmitDelay (iteration : nat) : Z := delay_loop iteration kRtoInitialMs.

(** [mScheduler.submit]: the number of the new task. *)
Definition submit (delay : Z) (a : Action) : M nat :=
  let* s := get in
  modify (fun s => set_mNextTask (S (mNextTask s)) (set_mTasks (mTasks s ++ [mkTask (mNextTask s) delay a]) s));;;
  ret (mNextTask s).

Definition removeTask (id : nat) (ts : list Task) : list Task := filter (fun k => taskId k <> id) ts.

(** [Task::cancelHelper], of one of the three pointers. *)
Definition cancel (ptr : option nat) : M unit :=
  match ptr with
  | Some id => modify (fun s => set_mTasks (removeTask id (mTasks s)) s)
  | None => ret tt
  end.

Definition startT3Rtx : M unit :=
  let* ptr := gets mTaskT3Rtx in
  cancel ptr;;;
  let* id := submit (retransmitDelay 0) RetransmitOldest in
  modify (set_mTaskT3Rtx (Some id)).

Definition stopT3Rtx : M unit :=
  let* ptr := gets mTaskT3Rtx in
  cancel ptr;;;
  modify (set_mTaskT3Rtx None).

(** ** Sending *)

(** One packet with one chunk, built and handed to the listener.  The storage of a
    [ByteBuffer] comes from the allocator, which aligns it. *)
Definition buildPacket (s : t) (tag type flags : Z) (data : list Z) : option (list Z) :=
  let builder := SctpPacketBuilder.make (mLocalPort s) (mRemotePort s) tag in
  SctpPacketBuilder.build 0 (SctpPacketBuilder.addChunk builder type flags data).

Definition sendChunk (tag type flags : Z) (data : list Z) : M unit :=
  let* s := get in
  let* bytes := lift (buildPacket s tag type flags data) in
  emit (Packet bytes).

(** TSN, stream, SSN, PPID and payload. *)
Definition dataBody (tsn streamId ssn ppid : Z) (payload : list Z) : list Z :=
  let cw := ByteWriter.writeU32 [] tsn in
  let cw := ByteWriter.writeU16 cw streamId in
  let cw := ByteWriter.writeU16 cw ssn in
  let cw := ByteWriter.writeU32 cw ppid in
  ByteWriter.write cw payload.

(** A DATA chunk with the next TSN: sent, remembered and counted. *)
Definition sendFragment (streamId ssn ppid flags : Z) (payload : list Z) : M unit :=
  let* tsn := gets mCurrentTsn in
  modify (set_mCurrentTsn (u32 (tsn + 1)));;;
  let chunkBody := dataBody tsn streamId ssn ppid payload in
  let* tag := gets mPeerTag in
  sendChunk tag kChunkData flags chunkBody;;;
  modify (fun s => set_mSentChunks
    (mSentChunks s ++ [mkSent tsn flags (Z.of_nat (length payload)) chunkBody]) s);;;
  modify (fun s => set_mFlightSize (u32 (mFlightSize s + u32 (Z.of_nat (length payload)))) s).

Definition kMaxFragmentPayload : nat := 1100.

(** The loop over the fragments; [rest] is the payload from [offset] on. *)
Fixpoint fragment_loop (fuel : nat) (streamId ssn ppid unorderedFlag : Z) (isFirst : bool) (rest : list Z) : M unit :=
  match rest, fuel with
  | [], _ => ret tt
  | _, O => lift None
  | _, S fuel =>
      let fragSize := Nat.min (length rest) kMaxFragmentPayload in
      let isLast := (length rest <=? fragSize)%nat in
      let flags := unorderedFlag in
      let flags := if isFirst then Z.lor flags kDataFlagB else flags in
      let flags := if isLast then Z.lor flags kDataFlagE else flags in
      sendFragment streamId ssn ppid flags (take fragSize rest);;;
      fragment_loop fuel streamId ssn ppid unorderedFlag false (drop fragSize rest)
  end.

Definition payload (m : DataChannelMessage.t) : list Z :=
  match DataChannelMessage.kind m with
  | DataChannelMessage.kText => DataChannelMessage.text m
  | DataChannelMessage.kBinary => DataChannelMessage.binary m
  end.

Definition ppid_of (m : DataChannelMessage.t) : Z :=
  match DataChannelMessage.kind m with
  | DataChannelMessage.kText => if (length (payload m) =? 0)%nat then kPpidStringEmpty else kPpidString
  | DataChannelMessage.kBinary => if (length (payload m) =? 0)%nat then kPpidBinaryEmpty else kPpidBinary
  end.

Definition updateChannel (i : nat) (f : DataChannel -> DataChannel) : M unit :=
  modify (fun s => set_mDataChannels (alter f i (mDataChannels s)) s).

(** [channel] is the one at place [i] of the list. *)
Definition sendMessageNow (i : nat) (channel : DataChannel) (message : DataChannelMessage.t) : M unit :=
  let p := payload message in
  let ppid := ppid_of message in
  let ssn := sendSsn channel in
  updateChannel i (set_sendSsn (u16 (ssn + 1)));;;
  let unorderedFlag := if unordered channel then kDataFlagUnordered else 0 in
  let* sent := gets mSentChunks in
  let wasEmpty := (length sent =? 0)%nat in
  (if (length p <=? kMaxFragmentPayload)%nat
   then sendFragment (streamId channel) ssn ppid (Z.lor kDataFlagComplete unorderedFlag) p
   else fragment_loop (length p) (streamId channel) ssn ppid unorderedFlag true p);;;
  when wasEmpty startT3Rtx.

Definition findLabel (l : list Z) (channels : list DataChannel) : option (nat * DataChannel) :=
  list_find (fun ch => label ch = l) channels.

(** [payloadSize > 0 && mFlightSize + payloadSize > mPeerRwnd]. *)
Definition overflows (s : t) (m : DataChannelMessage.t) : bool :=
  let payloadSize := Z.of_nat (length (payload m)) in
  (0 <? payloadSize) && (mPeerRwnd s <? mFlightSize s + payloadSize).

Definition send (message : DataChannelMessage.t) : M unit :=
  let* s := get in
  if negb (bool_decide (mState s = Established)) then ret tt
  else
    match findLabel (DataChannelMessage.label message) (mDataChannels s) with
    | None => ret tt
    | Some (i, channel) =>
        if negb (bool_decide (state channel = kOpen)) then ret tt
        else if (0 <? mMaxMessageSize s) && (mMaxMessageSize s <? Z.of_nat (length (payload message))) then ret tt
        else if overflows s message then modify (fun s => set_mPendingSend (mPendingSend s ++ [message]) s)
        else sendMessageNow i channel message
    end.

Definition popPending : M unit := modify (fun s => set_mPendingSend (tail (mPendingSend s)) s).

(** Every round takes one message off the queue. *)
Fixpoint pending_loop (fuel : nat) : M unit :=
  let* s := get in
  match mPendingSend s, fuel with
  | [], _ => ret tt
  | _, O => lift None
  | msg :: _, S fuel =>
      match findLabel (DataChannelMessage.label msg) (mDataChannels s) with
      | None => popPending;;; pending_loop fuel
      | Some (i, channel) =>
          if negb (bool_decide (state channel = kOpen)) then popPending;;; pending_loop fuel
          else if overflows s msg then ret tt
          else sendMessageNow i channel msg;;; popPending;;; pending_loop fuel
      end
  end.

Definition transmitPending : M unit :=
  let* s := get in
  pending_loop (length (mPendingSend s)).

(** The oldest chunk again. *)
Definition retransmitOldest : M unit :=
  let* s := get in
  match mSentChunks s with
  | [] => ret tt
  | chunk :: _ =>
      sendChunk (mPeerTag s) kChunkData (cflags chunk) (body chunk);;;
      startT3Rtx
  end.

(** ** Setting up *)

(** The constructor takes two random numbers for the tag and the first TSN and
    four for the key of the cookies. *)
Definition key_bytes (r : Z) : list Z := [u8 r; u8 (Z.shiftr r 8); u8 (Z.shiftr r 16); u8 (Z.shiftr r 24)].

Fixpoint makeChannels (nextStreamId : Z) (labels : list (list Z)) : list DataChannel :=
  match labels with
  | [] => []
  | label :: labels => newChannel label nextStreamId false :: makeChannels (u16 (nextStreamId + 2)) labels
  end.

Definition make (localPort remotePort maxMessageSize : Z) (isSetupActive : bool)
    (dataChannels : list (list Z)) (tag initialTsn r0 r1 r2 r3 : Z) : t :=
  let hmacKey := key_bytes r0 ++ key_bytes r1 ++ key_bytes r2 ++ key_bytes r3 in
  mk (mkConfig localPort remotePort maxMessageSize isSetupActive tag initialTsn hmacKey)
    (makeChannels (if isSetupActive then 1 else 0) dataChannels)
    [] [] 0 New 0 0 0 0 initialTsn 0 [] [] None None None [] 0 [].

(** The destructor. *)
Definition destroy : M unit :=
  let* s := get in
  forEach (mDataChannels s) (fun channel =>
    when (bool_decide (state channel = kOpen)) (emit (ChannelClose (label channel)))).

Definition isChannelOpen (s : t) (l : list Z) : bool :=
  existsb (fun channel => bool_decide (label channel = l) && bool_decide (state channel = kOpen)) (mDataChannels s).

Definition initBody (s : t) : list Z :=
  let w := ByteWriter.writeU32 [] (mInitiateTag s) in
  let w := ByteWriter.writeU32 w kInitRwnd in
  let w := ByteWriter.writeU16 w kInitStreams in
  let w := ByteWriter.writeU16 w kInitStreams in
  let w := ByteWriter.writeU32 w (mInitialTsn s) in
  let w := ByteWriter.writeU16 w kParamForwardTsnSupported in
  ByteWriter.writeU16 w 4.

Definition sendInit (iteration : nat) : M unit :=
  if kMaxInitRetransmits <? Z.of_nat iteration then ret tt
  else
    let* s := get in
    sendChunk 0 kChunkInit 0 (initBody s);;;
    modify (set_mState CookieWait);;;
    let* id := submit (retransmitDelay iteration) (SendInit (S iteration)) in
    modify (set_mTaskT1Init (Some id)).

Definition start : M unit := sendInit 0.

Definition sendCookieEcho (iteration : nat) : M unit :=
  if kMaxInitRetransmits <? Z.of_nat iteration then ret tt
  else
    let* s := get in
    emit (Packet (mCookieEchoPacket s));;;
    let* id := submit (retransmitDelay iteration) (SendCookieEcho (S iteration)) in
    modify (set_mTaskT1Cookie (Some id)).

(** ** Receiving *)

(** The fields of INIT and INIT ACK: tag, window, streams out and in, first TSN. *)
Definition readInit (chunk : SctpPacket.Chunk) : option (Z * Z * Z * Z * Z) :=
  let r := ByteReader.make (SctpPacket.data chunk) in
  '(tag, r) ← ByteReader.readU32 r;
  '(rwnd, r) ← ByteReader.readU32 r;
  '(outStreams, r) ← ByteReader.readU16 r;
  '(inStreams, r) ← ByteReader.readU16 r;
  '(initialTsn, r) ← ByteReader.readU32 r;
  Some (tag, rwnd, outStreams, inStreams, initialTsn).

Definition setPeer (rwnd outStreams inStreams initialTsn : Z) (s : t) : t :=
  set_mPeerCumulativeTsn (u32 (initialTsn - 1))
    (set_mPeerInStreams inStreams (set_mPeerOutStreams outStreams (set_mPeerRwnd rwnd s))).

Section Crypto.
Context `{!Evp}.

(** The fields of the cookie, and the cookie: the fields and their HMAC. *)
Definition cookieFields (s : t) (now peerTag peerInitialTsn peerRwnd peerOut peerIn : Z) : list Z :=
  let cw := ByteWriter.writeU32 [] now in
  let cw := ByteWriter.writeU32 cw kCookieLifetime in
  let cw := ByteWriter.writeU16 cw (mLocalPort s) in
  let cw := ByteWriter.writeU16 cw (mRemotePort s) in
  let cw := ByteWriter.writeU32 cw (mInitiateTag s) in
  let cw := ByteWriter.writeU32 cw (mInitialTsn s) in
  let cw := ByteWriter.writeU32 cw peerTag in
  let cw := ByteWriter.writeU32 cw peerInitialTsn in
  let cw := ByteWriter.writeU32 cw peerRwnd in
  let cw := ByteWriter.writeU16 cw peerOut in
  ByteWriter.writeU16 cw peerIn.

Definition cookie (s : t) (fields : list Z) : list Z :=
  ByteWriter.write fields (evp_hmac_sha1 (mHmacKey s) fields).

Definition initAckBody (s : t) (cookieData : list Z) : list Z :=
  let aw := ByteWriter.writeU32 [] (mInitiateTag s) in
  let aw := ByteWriter.writeU32 aw kInitRwnd in
  let aw := ByteWriter.writeU16 aw kInitStreams in
  let aw := ByteWriter.writeU16 aw kInitStreams in
  let aw := ByteWriter.writeU32 aw (mInitialTsn s) in
  let aw := ByteWriter.writeU16 aw kParamStateCookie in
  let aw := ByteWriter.writeU16 aw (u16 (4 + Z.of_nat (length cookieData))) in
  let aw := ByteWriter.write aw cookieData in
  let aw := ByteWriter.writeU16 aw kParamForwardTsnSupported in
  ByteWriter.writeU16 aw 4.

(** [now] is [getSystemTimeSecs()]. *)
Definition onReceiveInit (now : Z) (chunk : SctpPacket.Chunk) : M unit :=
  if (length (SctpPacket.data chunk) <? 16)%nat then ret tt
  else
    let* (peerInitiateTag, peerRwnd, peerOutStreams, peerInStreams, peerInitialTsn) := lift (readInit chunk) in
    let* s := get in
    if peerInitiateTag =? mInitiateTag s then ret tt
    else
      modify (setPeer peerRwnd peerOutStreams peerInStreams peerInitialTsn);;;
      let cookieData := cookie s (cookieFields s now peerInitiateTag peerInitialTsn peerRwnd peerOutStreams peerInStreams) in
      sendChunk peerInitiateTag kChunkInitAck 0 (initAckBody s cookieData).

(** When the cookie was made, how long it lives, and the peer's tag in it. *)
Definition readCookie (chunk : SctpPacket.Chunk) : option (Z * Z * Z) :=
  let r := ByteReader.make (take kCookieTotalSize (SctpPacket.data chunk)) in
  '(createdAt, r) ← ByteReader.readU32 r;
  '(lifetime, r) ← ByteReader.readU32 r;
  r ← ByteReader.skip r 12;
  '(peerInitiateTag, r) ← ByteReader.readU32 r;
  Some (createdAt, lifetime, peerInitiateTag).

Definition onReceiveCookieEcho (now : Z) (chunk : SctpPacket.Chunk) : M unit :=
  let data := SctpPacket.data chunk in
  if (length data <? kCookieTotalSize)%nat then ret tt
  else
    let* s := get in
    let expectedHmac := evp_hmac_sha1 (mHmacKey s) (take kCookieDataSize data) in
    let* ok := lift (constTimeEqual (drop kCookieDataSize data) expectedHmac kCookieHmacSize) in
    if negb ok then ret tt
    else
      let* (createdAt, lifetime, peerInitiateTag) := lift (readCookie chunk) in
      if u32 (createdAt + lifetime) <? now then ret tt
      else sendChunk peerInitiateTag kChunkCookieAck 0 [].

End Crypto.

(** ** Data channels *)

Definition openPayload (l : list Z) : list Z :=
  let pw := ByteWriter.writeU8 [] kDcepMsgOpen in
  let pw := ByteWriter.writeU8 pw kDcepChannelReliable in
  let pw := ByteWriter.writeU16 pw kDcepPriorityNormal in
  let pw := ByteWriter.writeU32 pw 0 in
  let pw := ByteWriter.writeU16 pw (u16 (Z.of_nat (length l))) in
  let pw := ByteWriter.writeU16 pw 0 in
  ByteWriter.write pw l.

(** A DCEP message on stream [streamId], its SSN always 0; the timer starts when
    nothing was in flight. *)
Definition sendDcep (streamId : Z) (payload : list Z) (mid : M unit) : M unit :=
  let* sent := gets mSentChunks in
  let wasEmpty := (length sent =? 0)%nat in
  sendFragment streamId 0 kPpidDcep kDataFlagComplete payload;;;
  mid;;;
  when wasEmpty startT3Rtx.

Definition sendDataChannelOpen (i : nat) (channel : DataChannel) : M unit :=
  sendDcep (streamId channel) (openPayload (label channel)) (updateChannel i (set_state kOpening)).

Fixpoint open_loop (i : nat) (channels : list DataChannel) : M unit :=
  match channels with
  | [] => ret tt
  | channel :: channels => sendDataChannelOpen i channel;;; open_loop (S i) channels
  end.

Definition onAssociationEstablished : M unit :=
  let* s := get in
  open_loop 0 (mDataChannels s).

(** [PeerCandidate]: messages wait here for their channel. *)
Definition kMaxDataSendQueue : nat := 64.

Definition sendDataChannelMessage (message : DataChannelMessage.t) : M unit :=
  let* s := get in
  if isChannelOpen s (DataChannelMessage.label message) then send message
  else
    modify (fun s =>
      let q := mDataSendQueue s ++ [message] in
      set_mDataSendQueue (drop (length q - kMaxDataSendQueue) q) s).

(** [PeerCandidate::onSctpDataChannelOpen] tells the application, then sends what
    waited for this channel, in order. *)
Definition onSctpDataChannelOpen (l : list Z) : M unit :=
  emit (ChannelOpen l);;;
  let* s := get in
  let waits := fun m => bool_decide (DataChannelMessage.label m = l) in
  forEach (List.filter waits (mDataSendQueue s)) send;;;
  modify (fun s => set_mDataSendQueue (List.filter (fun m => negb (waits m)) (mDataSendQueue s)) s).

(** ** Acknowledgements *)

(** The set of TSNs is kept in ascending order. *)
Fixpoint setInsert (x : Z) (l : list Z) : list Z :=
  match l with
  | [] => [x]
  | y :: l' => if x <? y then x :: l else if x =? y then l else y :: setInsert x l'
  end.

Definition setErase (x : Z) (l : list Z) : list Z := List.filter (fun y => negb (y =? x)) l.
Definition setMember (x : Z) (l : list Z) : bool := existsb (Z.eqb x) l.

(** Runs of consecutive offsets; [cur] is the block that is open. *)
Fixpoint gap_loop (cur : option (Z * Z)) (offsets : list Z) : list (Z * Z) :=
  match offsets with
  | [] => match cur with Some b => [b] | None => [] end
  | offset :: offsets =>
      match cur with
      | None => gap_loop (Some (offset, offset)) offsets
      | Some (blockStart, blockEnd) =>
          if offset =? u16 (blockEnd + 1) then gap_loop (Some (blockStart, offset)) offsets
          else (blockStart, blockEnd) :: gap_loop (Some (offset, offset)) offsets
      end
  end.

Definition distance (s : t) (tsn : Z) : Z := u32 (tsn - mPeerCumulativeTsn s).

(** The comparison of [std::sort]. *)
Definition nearer (s : t) (a b : Z) : Prop := distance s a <= distance s b.

#[global] Instance nearer_dec s a b : Decision (nearer s a b).
Proof. unfold nearer. apply _. Defined.

Definition sortTsns (s : t) (tsns : list Z) : list Z := merge_sort (nearer s) tsns.

Definition gapBlocks (s : t) : list (Z * Z) :=
  gap_loop None (map (fun tsn => u16 (tsn - mPeerCumulativeTsn s)) (sortTsns s (mPeerOutOfOrderTsns s))).

Definition sackBody (s : t) : list Z :=
  let blocks := gapBlocks s in
  let w := ByteWriter.writeU32 [] (mPeerCumulativeTsn s) in
  let w := ByteWriter.writeU32 w kInitRwnd in
  let w := ByteWriter.writeU16 w (u16 (Z.of_nat (length blocks))) in
  let w := ByteWriter.writeU16 w 0 in
  fold_left (fun w gb => ByteWriter.writeU16 (ByteWriter.writeU16 w gb.1) gb.2) blocks w.

Definition sendSack : M unit :=
  let* s := get in
  sendChunk (mPeerTag s) kChunkSack 0 (sackBody s).

Fixpoint readBlocks (n : nat) (r : ByteReader.t) : option (list (Z * Z) * ByteReader.t) :=
  match n with
  | O => Some ([], r)
  | S n =>
      '(start, r) ← ByteReader.readU16 r;
      '(stop, r) ← ByteReader.readU16 r;
      '(rest, r) ← readBlocks n r;
      Some ((start, stop) :: rest, r)
  end.

(** The chunks of a list that are acknowledged go, and leave the flight size. *)
Definition ackChunks (acked : SentChunk -> bool) (s : t) : t :=
  let gone := List.filter acked (mSentChunks s) in
  let flight := fold_left (fun f c => if payloadSize c <=? f then u32 (f - payloadSize c) else 0) gone (mFlightSize s) in
  set_mFlightSize flight (set_mSentChunks (List.filter (fun c => negb (acked c)) (mSentChunks s)) s).

Definition cumAcked (cumTsn : Z) (c : SentChunk) : bool := i32 (tsn c - cumTsn) <=? 0.

Definition gapAcked (cumTsn : Z) (block : Z * Z) (c : SentChunk) : bool :=
  let offset := u16 (tsn c - cumTsn) in (block.1 <=? offset) && (offset <=? block.2).

Definition readSack (chunk : SctpPacket.Chunk) : option (Z * Z * list (Z * Z)) :=
  let r := ByteReader.make (SctpPacket.data chunk) in
  '(cumTsn, r) ← ByteReader.readU32 r;
  '(aRwnd, r) ← ByteReader.readU32 r;
  '(numGapBlocks, r) ← ByteReader.readU16 r;
  r ← ByteReader.skip r 2;
  '(blocks, r) ← readBlocks (Z.to_nat numGapBlocks) r;
  Some (cumTsn, aRwnd, blocks).

Definition onReceiveSack (chunk : SctpPacket.Chunk) : M unit :=
  if (length (SctpPacket.data chunk) <? 12)%nat then ret tt
  else
    let* (cumTsn, aRwnd, blocks) := lift (readSack chunk) in
    modify (set_mPeerRwnd aRwnd);;;
    let* before := gets mSentChunks in
    modify (ackChunks (cumAcked cumTsn));;;
    modify (fun s => fold_left (fun s block => ackChunks (gapAcked cumTsn block) s) blocks s);;;
    let* after := gets mSentChunks in
    let anyNewlyAcked := (length after <? length before)%nat in
    (if (length after =? 0)%nat then stopT3Rtx else when anyNewlyAcked startT3Rtx);;;
    when anyNewlyAcked transmitPending.

(** ** Data *)

(** The TSN of a new chunk enters the account of what was received; the limit on
    the TSNs out of order drops the smallest number. *)
Definition kMaxOutOfOrder : nat := 1024.

Fixpoint advance_loop (fuel : nat) (s : t) : option t :=
  let next := u32 (mPeerCumulativeTsn s + 1) in
  if setMember next (mPeerOutOfOrderTsns s) then
    match fuel with
    | O => None
    | S fuel =>
        advance_loop fuel (set_mPeerOutOfOrderTsns (setErase next (mPeerOutOfOrderTsns s)) (set_mPeerCumulativeTsn next s))
    end
  else Some s.

Definition isDuplicate (s : t) (peerTSN : Z) : bool :=
  (i32 (peerTSN - mPeerCumulativeTsn s) <=? 0) || setMember peerTSN (mPeerOutOfOrderTsns s).

Definition recordTsn (peerTSN : Z) (s : t) : option t :=
  if peerTSN =? u32 (mPeerCumulativeTsn s + 1) then
    advance_loop (length (mPeerOutOfOrderTsns s)) (set_mPeerCumulativeTsn peerTSN s)
  else
    let tsns := setInsert peerTSN (mPeerOutOfOrderTsns s) in
    Some (set_mPeerOutOfOrderTsns (if (kMaxOutOfOrder <? length tsns)%nat then tail tsns else tsns) s).

Definition isMessagePpid (ppid : Z) : bool :=
  (ppid =? kPpidString) || (ppid =? kPpidStringEmpty) || (ppid =? kPpidBinary) || (ppid =? kPpidBinaryEmpty).

Definition deliver (l : list Z) (msg : DataChannelReceiveBuffer.Message) : M unit :=
  let p := DataChannelReceiveBuffer.ppid msg in
  if (p =? kPpidString) || (p =? kPpidStringEmpty)
  then emit (ChannelText l (DataChannelReceiveBuffer.data msg))
  else emit (ChannelBinary l (DataChannelReceiveBuffer.data msg)).

(** A fragment of a message, for the first channel of its stream. *)
Definition onMessageFragment (sid ssn flags ppid : Z) (data : list Z) : M unit :=
  let* s := get in
  match list_find (fun channel => streamId channel = sid) (mDataChannels s) with
  | None => ret tt
  | Some (i, channel) =>
      let* (messages, buffer) :=
        lift (DataChannelReceiveBuffer.receive (receiveBuffer channel) ssn flags (unordered channel) ppid data) in
      updateChannel i (set_receiveBuffer buffer);;;
      forEach messages (deliver (label channel))
  end.

Definition onDcepAck (sid ssn : Z) : M unit :=
  let* s := get in
  match list_find (fun channel => streamId channel = sid /\ state channel = kOpening) (mDataChannels s) with
  | None => ret tt
  | Some (i, channel) =>
      updateChannel i (fun c => set_receiveBuffer
        (DataChannelReceiveBuffer.consumeSsn (receiveBuffer c) ssn) (set_state kOpen c));;;
      onSctpDataChannelOpen (label channel)
  end.

(** [r] is behind the type of the message. *)
Definition onDcepOpen (sid ssn : Z) (r : ByteReader.t) : M unit :=
  if (ByteReader.remaining r <? 11)%nat then ret tt
  else
    let* (channelType, r) := lift (ByteReader.readU8 r) in
    let isUnordered := negb (Z.land channelType 0x80 =? 0) in
    let* r := lift (ByteReader.skip r 6) in
    let* (labelLen, r) := lift (ByteReader.readU16 r) in
    let* r := lift (ByteReader.skip r 2) in
    if Z.of_nat (ByteReader.remaining r) <? labelLen then ret tt
    else
      let* (l, r) := lift (ByteReader.readString r (Z.to_nat labelLen)) in
      let channel := newChannel l sid isUnordered in
      modify (fun s => set_mDataChannels (mDataChannels s ++
        [set_receiveBuffer (DataChannelReceiveBuffer.consumeSsn (receiveBuffer channel) ssn)
          (set_state kOpen channel)]) s);;;
      sendDcep sid [kDcepMsgAck] (ret tt);;;
      onSctpDataChannelOpen l.

(** What a chunk that is new carries. *)
Definition onPayload (sid ssn flags ppid : Z) (r : ByteReader.t) : M unit :=
  if isMessagePpid ppid then onMessageFragment sid ssn flags ppid (ByteReader.current r)
  else if negb (ppid =? kPpidDcep) || (ByteReader.remaining r <? 1)%nat then ret tt
  else
    let* (msgType, r) := lift (ByteReader.readU8 r) in
    if msgType =? kDcepMsgAck then onDcepAck sid ssn
    else if msgType =? kDcepMsgOpen then onDcepOpen sid ssn r
    else ret tt.

Definition onReceiveDataChunk (chunk : SctpPacket.Chunk) : M unit :=
  if (length (SctpPacket.data chunk) <? 12)%nat then ret tt
  else
    let r := ByteReader.make (SctpPacket.data chunk) in
    let* (peerTSN, r) := lift (ByteReader.readU32 r) in
    let* (sid, r) := lift (ByteReader.readU16 r) in
    let* (ssn, r) := lift (ByteReader.readU16 r) in
    let* (ppid, r) := lift (ByteReader.readU32 r) in
    let* s := get in
    if isDuplicate s peerTSN then sendSack
    else
      let* s := lift (recordTsn peerTSN s) in
      modify (fun _ => s);;;
      sendSack;;;
      onPayload sid ssn (SctpPacket.flags chunk) ppid r.

(** ** Streams reset by the peer *)

Fixpoint readU16s (n : nat) (r : ByteReader.t) : option (list Z * ByteReader.t) :=
  match n with
  | O => Some ([], r)
  | S n =>
      '(v, r) ← ByteReader.readU16 r;
      '(rest, r) ← readU16s n r;
      Some (v :: rest, r)
  end.

Definition closeStream (sid : Z) : M unit :=
  let* s := get in
  match list_find (fun channel => streamId channel = sid) (mDataChannels s) with
  | None => ret tt
  | Some (i, channel) =>
      emit (ChannelClose (label channel));;;
      modify (fun s => set_mDataChannels (delete i (mDataChannels s)) s)
  end.

Definition responseParam (requestSeqNum : Z) : list Z :=
  let pw := ByteWriter.writeU16 [] kParamReconfigResponse in
  let pw := ByteWriter.writeU16 pw 12 in
  let pw := ByteWriter.writeU32 pw requestSeqNum in
  ByteWriter.writeU32 pw kReconfigResultSuccess.

Definition onReconfigParam (param : SctpPacket.Param) : M unit :=
  if negb (SctpPacket.ptype param =? kParamOutgoingSsnReset) || (length (SctpPacket.pdata param) <? 12)%nat then ret tt
  else
    let r := ByteReader.make (SctpPacket.pdata param) in
    let* (requestSeqNum, r) := lift (ByteReader.readU32 r) in
    let* r := lift (ByteReader.skip r 8) in
    let* (streamIds, r) := lift (readU16s (Nat.div2 (ByteReader.remaining r)) r) in
    forEach streamIds closeStream;;;
    let* tag := gets mPeerTag in
    sendChunk tag kChunkReconfig 0 (responseParam requestSeqNum).

Definition onReceiveReconfig (chunk : SctpPacket.Chunk) : M unit :=
  let* params := lift (SctpPacket.parseParams chunk 0) in
  forEach params onReconfigParam.

(** ** Dispatch *)

Definition onCookieAck : M unit :=
  let* s := get in
  when (bool_decide (mState s = CookieEchoed))
    (cancel (mTaskT1Cookie s);;;
     modify (fun s => set_mState Established (set_mTaskT1Cookie None s));;;
     onAssociationEstablished).

Definition onInitAck (chunk : SctpPacket.Chunk) : M unit :=
  let* s := get in
  if negb (bool_decide (mState s = CookieWait)) || (length (SctpPacket.data chunk) <? 16)%nat then ret tt
  else
    let* (tag, rwnd, outStreams, inStreams, initialTsn) := lift (readInit chunk) in
    modify (fun s => setPeer rwnd outStreams inStreams initialTsn (set_mPeerTag tag s));;;
    let* params := lift (SctpPacket.parseParams chunk 16) in
    match List.find (fun param => SctpPacket.ptype param =? kParamStateCookie) params with
    | None => ret tt
    | Some param =>
        let* s := get in
        cancel (mTaskT1Init s);;;
        modify (set_mTaskT1Init None);;;
        let* bytes := lift (buildPacket s (mPeerTag s) kChunkCookieEcho 0 (SctpPacket.pdata param)) in
        modify (fun s => set_mState CookieEchoed (set_mCookieEchoPacket bytes s));;;
        sendCookieEcho 0
    end.

Section Receive.
Context `{!Evp}.

Definition onChunk (now : Z) (chunk : SctpPacket.Chunk) : M unit :=
  let ty := SctpPacket.type chunk in
  if ty =? kChunkData then onReceiveDataChunk chunk
  else if ty =? kChunkSack then onReceiveSack chunk
  else if ty =? kChunkReconfig then onReceiveReconfig chunk
  else if ty =? kChunkInit then onReceiveInit now chunk
  else if ty =? kChunkCookieEcho then onReceiveCookieEcho now chunk
  else if ty =? kChunkCookieAck then onCookieAck
  else if ty =? kChunkInitAck then onInitAck chunk
  else ret tt.

(** The tag that a packet must carry. *)
Definition expectedTag (s : t) (packet : SctpPacket.t) : Z :=
  match SctpPacket.mChunks packet with
  | c :: _ => if SctpPacket.type c =? kChunkInit then 0 else mInitiateTag s
  | [] => mInitiateTag s
  end.

(** A packet that was parsed. *)
Definition onPacket (now : Z) (packet : SctpPacket.t) : M unit :=
  let* s := get in
  if negb (SctpPacket.mVerificationTag packet =? expectedTag s packet) then ret tt
  else forEach (SctpPacket.mChunks packet) (onChunk now).

Definition onReceiveData (now : Z) (buf : list Z) : M unit :=
  let* packet := lift (SctpPacket.parse 0 0 buf) in
  match packet with
  | None => ret tt
  | Some packet => onPacket now packet
  end.

End Receive.

(** The scheduler runs task [id], if it is still there. *)
Definition runAction (a : Action) : M unit :=
  match a with
  | SendInit iteration => sendInit iteration
  | SendCookieEcho iteration => sendCookieEcho iteration
  | RetransmitOldest => retransmitOldest
  end.

Definition runTask (id : nat) : M unit :=
  let* s := get in
  match List.find (fun k => (taskId k =? id)%nat) (mTasks s) with
  | None => ret tt
  | Some task =>
      modify (fun s => set_mTasks (removeTask id (mTasks s)) s);;;
      runAction (action task)
  end.

End SctpSession.
