(* ===== verification/SctpRuns.v ===== *)
(** * The SCTP session never stops, but for one thing

    Reasoning about computations of [SctpSession] ([runs]: never [None]; [keeps]:
    a part of the state is left alone), and the theorems: every operation of the
    application and of the scheduler runs to its end in every state; a datagram
    stops the program exactly when it holds an acknowledgement that announces
    more blocks than it has. *)

From S2P Require Import Prelude Bytes Srtp SrtpProps Crc32c SctpPacket DataChannel SctpSession.
From stdpp Require Import sorting.
Open Scope Z_scope.

Module SctpRuns.

Import SctpSession Defs.

(** ** Computations that never stop *)

Definition runs {A} (m : M A) : Prop := forall s, exists a s' es, m s = Some (a, s', es).

Lemma runs_ret {A} (a : A) : runs (ret a).
Proof. intros s. by eexists _, _, _. Qed.

Lemma runs_bind {A B} (m : M A) (k : A -> M B) : runs m -> (forall a, runs (k a)) -> runs (bind m k).
Proof.
  intros Hm Hk s. unfold bind. destruct (Hm s) as (a & s' & es & ->).
  destruct (Hk a s') as (b & s'' & es' & ->). by eexists _, _, _.
Qed.

Lemma runs_get : runs get.
Proof. intros s. by eexists _, _, _. Qed.
Lemma runs_gets {A} (f : t -> A) : runs (gets f).
Proof. intros s. by eexists _, _, _. Qed.
Lemma runs_modify f : runs (modify f).
Proof. intros s. by eexists _, _, _. Qed.
Lemma runs_emit e : runs (emit e).
Proof. intros s. by eexists _, _, _. Qed.

Lemma runs_lift {A} (o : option A) : is_Some o -> runs (lift o).
Proof. intros [a ->] s. by eexists _, _, _. Qed.

Lemma runs_when b m : runs m -> runs (when b m).
Proof. destruct b; [done|intros _; apply runs_ret]. Qed.

Lemma runs_forEach {A} (l : list A) f : Forall (fun a => runs (f a)) l -> runs (forEach l f).
Proof. induction 1; [apply runs_ret|by apply runs_bind]. Qed.


Lemma bind_lift_at {A B} (a : A) (k : A -> M B) s : bind (lift (Some a)) k s = k a s.
Proof. unfold bind, lift. cbn. by destruct (k a s) as [[[]]|]. Qed.

Lemma bind_get_at {B} (k : t -> M B) s : bind get k s = k s s.
Proof. unfold bind, get. cbn. by destruct (k s s) as [[[]]|]. Qed.

Lemma bind_gets_at {A B} (f : t -> A) (k : A -> M B) s : bind (gets f) k s = k (f s) s.
Proof. unfold bind, gets. cbn. by destruct (k (f s) s) as [[[]]|]. Qed.

Lemma bind_modify_at {B} f (k : unit -> M B) s : bind (modify f) k s = k tt (f s).
Proof. unfold bind, modify. cbn. by destruct (k tt (f s)) as [[[]]|]. Qed.

Lemma runs_lift_bind {A B} (o : option A) (k : A -> M B) :
  (exists a, o = Some a /\ runs (k a)) -> runs (bind (lift o) k).
Proof. intros (a & -> & Hk) s. rewrite bind_lift_at. apply Hk. Qed.

Lemma runs_get_bind {B} (k : t -> M B) : (forall s, exists a s' es, k s s = Some (a, s', es)) -> runs (bind get k).
Proof. intros H s. rewrite bind_get_at. apply H. Qed.

Create HintDb runs.
#[export] Hint Resolve runs_ret runs_bind runs_get runs_gets runs_modify runs_emit runs_when runs_lift : runs.

Ltac runs_step :=
  lazymatch goal with
  | |- runs (bind (lift _) _) => fail
  | |- runs (bind _ _) => apply runs_bind; [|intros ?]
  | |- runs (if ?b then _ else _) => destruct b
  | |- runs (match ?x with Some _ => _ | None => _ end) => destruct x
  | |- runs (let '(_, _) := ?x in _) => destruct x
  | |- runs _ => solve [eauto with runs]
  end.

(** ** Parts of the state that a computation leaves alone *)

Definition keeps {A B} (f : t -> B) (m : M A) : Prop := forall s a s' es, m s = Some (a, s', es) -> f s' = f s.

Lemma keeps_ret {A B} (f : t -> B) (a : A) : keeps f (ret a).
Proof. intros s a' s' es [= _ <- _]. done. Qed.

Lemma keeps_bind {A B C} (f : t -> C) (m : M A) (k : A -> M B) : keeps f m -> (forall a, keeps f (k a)) -> keeps f (bind m k).
Proof.
  intros Hm Hk s b s' es. unfold bind. destruct (m s) as [[[a s1] es1]|] eqn:E1; [|done].
  destruct (k a s1) as [[[b' s2] es2]|] eqn:E2; [|done]. intros [= _ <- _].
  by rewrite (Hk _ _ _ _ _ E2), (Hm _ _ _ _ E1).
Qed.

Lemma keeps_state {C} (f : t -> C) : keeps f get.
Proof. intros s a s' es [= _ <- _]. done. Qed.
Lemma keeps_gets {A C} (f : t -> C) (g : t -> A) : keeps f (gets g).
Proof. intros s a s' es [= _ <- _]. done. Qed.
Lemma keeps_emit {C} (f : t -> C) e : keeps f (emit e).
Proof. intros s a s' es [= _ <- _]. done. Qed.
Lemma keeps_lift {A C} (f : t -> C) (o : option A) : keeps f (lift o).
Proof. intros s a s' es. unfold lift. destruct o; [|done]. by intros [= _ <- _]. Qed.
Lemma keeps_modify {C} (f : t -> C) g : (forall s, f (g s) = f s) -> keeps f (modify g).
Proof. intros H s a s' es [= _ <- _]. apply H. Qed.
Lemma keeps_when {C} (f : t -> C) b m : keeps f m -> keeps f (when b m).
Proof. destruct b; [done|intros _; apply keeps_ret]. Qed.

Ltac keeps_step :=
  repeat lazymatch goal with
  | |- keeps _ (bind _ _) => apply keeps_bind; [|intros ?]
  | |- keeps _ (modify _) => apply keeps_modify; reflexivity
  | |- keeps _ (lift _) => apply keeps_lift
  | |- keeps _ (ret _) => apply keeps_ret
  | |- keeps _ get => apply keeps_state
  | |- keeps _ (gets _) => apply keeps_gets
  | |- keeps _ (emit _) => apply keeps_emit
  | |- keeps _ (when _ _) => apply keeps_when
  | |- keeps _ (if ?b then _ else _) => destruct b
  | |- keeps _ (match ?x with Some _ => _ | None => _ end) => destruct x
  end.

(** ** Sending *)

Lemma bytes_loop_some n : forall crc p, (n <= length p)%nat ->
  exists crc', Crc32c.bytes_loop n crc p = Some (crc', drop n p).
Proof.
  induction n as [|n IH]; intros crc p Hn; [by exists crc|]. destruct p as [|b p]; cbn in Hn; [lia|].
  cbn. apply IH. lia.
Qed.

Lemma rounds_some n : forall crc p, (8 * n <= length p)%nat ->
  exists crc', Crc32c.rounds n crc p = Some (crc', drop (8 * n) p).
Proof.
  induction n as [|n IH]; intros crc p Hn; [by exists crc|].
  do 8 (destruct p as [|? p]; cbn [length] in Hn; [lia|]).
  replace (8 * S n)%nat with (8 + 8 * n)%nat by lia. cbn [Nat.add drop Crc32c.rounds].
  unfold Crc32c.round8. cbn [Crc32c.load32 mbind option_bind]. apply IH. lia.
Qed.

Lemma crc32c_some addr l : is_Some (Crc32c.crc32c addr l).
Proof.
  unfold Crc32c.crc32c. rewrite fmap_is_Some. unfold Crc32c.crc32c_compute_internal.
  destruct (Nat.eqb_spec (length l) 0); [done|]. destruct (Nat.ltb_spec (length l) 4); [done|].
  fold (Crc32c.lead addr). pose proof (Crc32c.lead_range addr) as Hk. set (k := Crc32c.lead addr) in *. clearbody k.
  unfold Crc32c.crc32c_sb8_64bit. rewrite Nat.div_mul by lia. set (m := ((length l - k) / 8)%nat).
  assert (m * 8 <= length l - k)%nat by (subst m; pose proof (Nat.mul_div_le (length l - k) 8); lia).
  destruct (bytes_loop_some k 0xFFFFFFFF l) as [c1 ->]; [lia|]. cbn [mbind option_bind].
  destruct (rounds_some m c1 (drop k l)) as [c2 ->]; [rewrite length_drop; lia|]. cbn [mbind option_bind].
  destruct (bytes_loop_some (length l - k - m * 8) c2 (drop (8 * m) (drop k l))) as [c3 ->]; [rewrite !length_drop; lia|].
  done.
Qed.

Lemma buildPacket_some s tag type flags data : is_Some (buildPacket s tag type flags data).
Proof.
  unfold buildPacket, SctpPacketBuilder.build.
  destruct (crc32c_some 0 (SctpPacketBuilder.addChunk (SctpPacketBuilder.make (mLocalPort s) (mRemotePort s) tag) type flags data))
    as [c ->]. by eexists.
Qed.

(** The packet of one chunk. *)
Definition datagram (s : t) (tag type flags : Z) (data : list Z) : list Z :=
  default [] (buildPacket s tag type flags data).

Lemma sendChunk_at tag type flags data s :
  sendChunk tag type flags data s = Some (tt, s, [Packet (datagram s tag type flags data)]).
Proof.
  unfold sendChunk, datagram. rewrite bind_get_at.
  destruct (buildPacket_some s tag type flags data) as [bytes ->]. by rewrite bind_lift_at.
Qed.

Lemma bind_sendChunk_at {B} tag type flags data (k : unit -> M B) s :
  bind (sendChunk tag type flags data) k s =
  match k tt s with
  | Some (b, s', es) => Some (b, s', Packet (datagram s tag type flags data) :: es)
  | None => None
  end.
Proof. unfold bind. by rewrite sendChunk_at. Qed.

Lemma sendFragment_at sid ssn ppid fl p s :
  sendFragment sid ssn ppid fl p s =
  let chunkBody := dataBody (mCurrentTsn s) sid ssn ppid p in
  Some (tt,
    set_mFlightSize (u32 (mFlightSize s + u32 (Z.of_nat (length p))))
      (set_mSentChunks (mSentChunks s ++ [mkSent (mCurrentTsn s) fl (Z.of_nat (length p)) chunkBody])
        (set_mCurrentTsn (u32 (mCurrentTsn s + 1)) s)),
    [Packet (datagram s (mPeerTag s) kChunkData fl chunkBody)]).
Proof.
  unfold sendFragment. rewrite bind_gets_at, bind_modify_at, bind_gets_at, bind_sendChunk_at, bind_modify_at. done.
Qed.

Lemma runs_sendChunk tag type flags data : runs (sendChunk tag type flags data).
Proof. intros s. rewrite sendChunk_at. by eexists _, _, _. Qed.

Lemma keeps_sendChunk {C} (f : t -> C) tag type flags data : keeps f (sendChunk tag type flags data).
Proof. intros s a s' es. rewrite sendChunk_at. by intros [= _ <- _]. Qed.

Lemma runs_submit delay a : runs (submit delay a).
Proof. unfold submit. repeat runs_step. Qed.
Lemma runs_cancel p : runs (cancel p).
Proof. destruct p; cbn; eauto with runs. Qed.
#[export] Hint Resolve runs_sendChunk runs_submit runs_cancel : runs.

Lemma runs_startT3Rtx : runs startT3Rtx.
Proof. unfold startT3Rtx. repeat runs_step. Qed.
Lemma runs_stopT3Rtx : runs stopT3Rtx.
Proof. unfold stopT3Rtx. repeat runs_step. Qed.
Lemma runs_sendFragment sid ssn ppid fl p : runs (sendFragment sid ssn ppid fl p).
Proof. unfold sendFragment. repeat runs_step. Qed.
#[export] Hint Resolve runs_startT3Rtx runs_stopT3Rtx runs_sendFragment : runs.

Lemma runs_fragment_loop fuel : forall sid ssn ppid u first rest, (length rest <= fuel)%nat ->
  runs (fragment_loop fuel sid ssn ppid u first rest).
Proof.
  induction fuel as [|fuel IH]; intros sid ssn ppid u first rest Hf; destruct rest as [|x rest]; cbn in Hf;
    try apply runs_ret; [lia|].
  cbn [fragment_loop]. apply runs_bind; [eauto with runs|]. intros _. apply IH.
  rewrite length_drop. unfold kMaxFragmentPayload. cbn [length]. lia.
Qed.

Lemma runs_sendMessageNow i c m : runs (sendMessageNow i c m).
Proof.
  unfold sendMessageNow, updateChannel. repeat first [runs_step | by apply runs_fragment_loop].
Qed.
#[export] Hint Resolve runs_sendMessageNow : runs.

Lemma runs_send m : runs (send m).
Proof. unfold send. repeat runs_step. Qed.
#[export] Hint Resolve runs_send : runs.

Lemma keeps_cancel p : keeps mPendingSend (cancel p).
Proof. destruct p; cbn; keeps_step. Qed.

Lemma keeps_startT3Rtx : keeps mPendingSend startT3Rtx.
Proof. unfold startT3Rtx, submit. keeps_step; try apply keeps_cancel; keeps_step. Qed.

Lemma keeps_sendFragment sid ssn ppid fl p : keeps mPendingSend (sendFragment sid ssn ppid fl p).
Proof. unfold sendFragment. keeps_step. apply keeps_sendChunk. Qed.

Lemma keeps_fragment_loop fuel : forall sid ssn ppid u first rest,
  keeps mPendingSend (fragment_loop fuel sid ssn ppid u first rest).
Proof.
  induction fuel as [|fuel IH]; intros sid ssn ppid u first [|x rest]; cbn [fragment_loop]; keeps_step;
    [apply keeps_sendFragment|apply IH].
Qed.

Lemma keeps_sendMessageNow i c m : keeps mPendingSend (sendMessageNow i c m).
Proof.
  unfold sendMessageNow, updateChannel.
  keeps_step; auto using keeps_sendFragment, keeps_fragment_loop, keeps_startT3Rtx.
Qed.

Lemma pending_loop_runs fuel : forall s, (length (mPendingSend s) <= fuel)%nat ->
  exists a s' es, pending_loop fuel s = Some (a, s', es).
Proof.
  induction fuel as [|fuel IH]; intros s Hf; cbn [pending_loop]; rewrite bind_get_at;
    destruct (mPendingSend s) as [|m q] eqn:Eq; try (by eexists _, _, _); cbn in Hf; [lia|].
  assert (Hpop : exists a s' es, bind popPending (fun _ => pending_loop fuel) s = Some (a, s', es)).
  { unfold popPending. rewrite bind_modify_at. apply IH. cbn. rewrite Eq. cbn. lia. }
  destruct (findLabel _ _) as [[i c]|]; [|done]. destruct (negb _); [done|]. destruct (overflows s m); [by eexists _, _, _|].
  unfold bind at 1. destruct (runs_sendMessageNow i c m s) as (a & s1 & es & E). rewrite E.
  pose proof (keeps_sendMessageNow i c m _ _ _ _ E) as Hk.
  destruct (bind popPending (fun _ => pending_loop fuel) s1) as [[[b s2] es2]|] eqn:E2; [by eexists _, _, _|].
  exfalso. unfold popPending in E2. rewrite bind_modify_at in E2.
  destruct (IH (set_mPendingSend (tail (mPendingSend s1)) s1)) as (b & s2 & es2 & E3); [cbn; rewrite Hk, Eq; cbn; lia|].
  by rewrite E3 in E2.
Qed.

Lemma runs_transmitPending : runs transmitPending.
Proof. intros s. unfold transmitPending. rewrite bind_get_at. by apply pending_loop_runs. Qed.

Lemma runs_retransmitOldest : runs retransmitOldest.
Proof. unfold retransmitOldest. apply runs_bind; [apply runs_get|]. intros s. destruct (mSentChunks s); eauto with runs. Qed.
#[export] Hint Resolve runs_transmitPending runs_retransmitOldest : runs.

Lemma runs_sendInit n : runs (sendInit n).
Proof. unfold sendInit. repeat runs_step. Qed.
Lemma runs_sendCookieEcho n : runs (sendCookieEcho n).
Proof. unfold sendCookieEcho. repeat runs_step. Qed.
Lemma runs_sendDcep sid p mid : runs mid -> runs (sendDcep sid p mid).
Proof. intros. unfold sendDcep. repeat runs_step. Qed.
Lemma runs_sendSack : runs sendSack.
Proof. unfold sendSack. repeat runs_step. Qed.
#[export] Hint Resolve runs_sendInit runs_sendCookieEcho runs_sendDcep runs_sendSack : runs.

Lemma runs_open_loop cs : forall i, runs (open_loop i cs).
Proof.
  induction cs as [|c cs IH]; intros i; cbn [open_loop]; [apply runs_ret|].
  apply runs_bind; [|intros; apply IH].
  unfold sendDataChannelOpen, updateChannel. apply runs_sendDcep. apply runs_modify.
Qed.

Lemma runs_onSctpDataChannelOpen l : runs (onSctpDataChannelOpen l).
Proof.
  unfold onSctpDataChannelOpen. repeat runs_step. apply runs_forEach.
  apply list.Forall_forall. intros. apply runs_send.
Qed.

Lemma runs_sendDataChannelMessage m : runs (sendDataChannelMessage m).
Proof. unfold sendDataChannelMessage. repeat runs_step. Qed.

Lemma runs_destroy : runs destroy.
Proof. unfold destroy. repeat runs_step. apply runs_forEach, list.Forall_forall. intros. eauto with runs. Qed.
#[export] Hint Resolve runs_onSctpDataChannelOpen runs_open_loop : runs.

Lemma runs_runTask id : runs (runTask id).
Proof.
  unfold runTask. apply runs_bind; [apply runs_get|]. intros s. destruct (List.find _ _) as [k|]; [|apply runs_ret].
  apply runs_bind; [apply runs_modify|]. intros _. destruct (action k); cbn; eauto with runs.
Qed.

(** ** Receiving *)

(** A read of a reader that has enough left. *)
Ltac read_some :=
  lazymatch goal with
  | |- context [ByteReader.readU8 (ByteReader.reader_at ?a ?b)] =>
      destruct (ByteReader.readU8_some a b) as [? ->]; [rewrite ?length_drop; lia|]
  | |- context [ByteReader.readU16 (ByteReader.reader_at ?a ?b)] =>
      destruct (ByteReader.readU16_some a b) as [? ->]; [rewrite ?length_drop; lia|]
  | |- context [ByteReader.readU32 (ByteReader.reader_at ?a ?b)] =>
      destruct (ByteReader.readU32_some a b) as [? ->]; [rewrite ?length_drop; lia|]
  | |- context [ByteReader.skip (ByteReader.reader_at ?a ?b) ?n] =>
      rewrite (ByteReader.skip_split a b n) by (rewrite ?length_drop; lia)
  end; cbn [mbind option_bind].

Lemma readInit_some c : (16 <= length (SctpPacket.data c))%nat -> is_Some (readInit c).
Proof. intros H. unfold readInit. rewrite ByteReader.make_reader_at. repeat read_some. by eexists. Qed.

Lemma readCookie_some c : (kCookieTotalSize <= length (SctpPacket.data c))%nat -> is_Some (readCookie c).
Proof.
  intros H. unfold readCookie. rewrite ByteReader.make_reader_at.
  assert (length (take kCookieTotalSize (SctpPacket.data c)) = 56%nat) as Hl by (rewrite length_take; unfold kCookieTotalSize, kCookieDataSize, kCookieHmacSize in *; lia).
  set (l := take kCookieTotalSize _) in *. clearbody l. repeat read_some. by eexists.
Qed.

Lemma readU16_short pre post : (length post < 2)%nat -> ByteReader.readU16 (ByteReader.reader_at pre post) = None.
Proof. intros H. unfold ByteReader.readU16. by rewrite ByteReader.take_bytes_short. Qed.

(** The blocks of a SACK can be read when they are there. *)
Lemma readBlocks_some n : forall pre post,
  is_Some (readBlocks n (ByteReader.reader_at pre post)) <-> (4 * n <= length post)%nat.
Proof.
  induction n as [|n IH]; intros pre post; [cbn; split; [lia|by eexists]|]. cbn [readBlocks].
  destruct (decide (4 <= length post)%nat) as [Hl|Hl].
  - read_some. read_some. rewrite drop_drop. specialize (IH ((pre ++ take 2 post) ++ take 2 (drop 2 post)) (drop (2 + 2) post)).
    rewrite length_drop in IH. destruct (readBlocks n _) as [[bs r]|]; cbn [mbind option_bind].
    + split; [|by eexists]. intros _. assert (4 * n <= length post - (2 + 2))%nat by (by apply IH). lia.
    + split; [by intros []|]. intros H. destruct IH as [_ IH]. destruct IH as [? IH]; [lia|done].
  - split; [|lia]. destruct (decide (2 <= length post)%nat).
    + read_some. rewrite readU16_short by (rewrite length_drop; lia). by intros [].
    + rewrite readU16_short by lia. by intros [].
Qed.

Lemma readU16s_some n : forall pre post, (2 * n <= length post)%nat ->
  is_Some (readU16s n (ByteReader.reader_at pre post)).
Proof.
  induction n as [|n IH]; intros pre post H; [by eexists|]. cbn [readU16s]. read_some.
  destruct (IH (pre ++ take 2 post) (drop 2 post)) as [[? ?] ->]; [rewrite length_drop; lia|]. by eexists.
Qed.

(** *** Chunk by chunk *)

Section Crypto.
Context `{!Evp, !EvpLaws}.

Lemma runs_onReceiveInit now c : runs (onReceiveInit now c).
Proof.
  unfold onReceiveInit. destruct (Nat.ltb_spec (length (SctpPacket.data c)) 16); [apply runs_ret|].
  destruct (readInit_some c) as [[[[[a b] d] e] f] E]; [done|].
  apply runs_lift_bind. eexists. split; [exact E|]. repeat runs_step.
Qed.

Lemma diff_loop_some n : forall a b d, (n <= length a)%nat -> (n <= length b)%nat -> is_Some (diff_loop n a b d).
Proof.
  induction n as [|n IH]; intros a b d Ha Hb; [by eexists|].
  destruct a as [|x a], b as [|y b]; cbn in *; try lia. apply IH; lia.
Qed.

Lemma runs_onReceiveCookieEcho now c : runs (onReceiveCookieEcho now c).
Proof using Type*.
  unfold onReceiveCookieEcho. destruct (Nat.ltb_spec (length (SctpPacket.data c)) kCookieTotalSize) as [|Hl]; [apply runs_ret|].
  apply runs_bind; [apply runs_get|]. intros s.
  apply runs_bind.
  { apply runs_lift. unfold constTimeEqual.
    destruct (diff_loop_some kCookieHmacSize (drop kCookieDataSize (SctpPacket.data c))
      (evp_hmac_sha1 (mHmacKey s) (take kCookieDataSize (SctpPacket.data c))) 0) as [d ->]; [| |by eexists].
    - rewrite length_drop. unfold kCookieTotalSize in Hl. lia.
    - rewrite hmac_length. unfold kCookieHmacSize. lia. }
  intros ok. destruct (negb ok); [apply runs_ret|].
  destruct (readCookie_some c) as [[[a b] d] E]; [done|].
  apply runs_lift_bind. eexists. split; [exact E|]. repeat runs_step.
Qed.

End Crypto.

Lemma runs_onMessageFragment sid ssn fl ppid data : runs (onMessageFragment sid ssn fl ppid data).
Proof.
  unfold onMessageFragment. apply runs_bind; [apply runs_get|]. intros s.
  destruct (list_find _ _) as [[i c]|]; [|apply runs_ret].
  destruct (DataChannelReceiveBuffer.receive_total (receiveBuffer c) ssn fl (unordered c) ppid data) as (out & b & E).
  apply runs_lift_bind. eexists. split; [exact E|]. cbn beta iota. unfold updateChannel. runs_step; [eauto with runs|].
  apply runs_forEach, list.Forall_forall. intros msg _. unfold deliver. repeat runs_step.
Qed.

Lemma runs_onDcepAck sid ssn : runs (onDcepAck sid ssn).
Proof.
  unfold onDcepAck. apply runs_bind; [apply runs_get|]. intros s. destruct (list_find _ _) as [[i c]|]; [|apply runs_ret].
  unfold updateChannel. repeat runs_step.
Qed.

Lemma runs_onDcepOpen sid ssn pre post : bytes_ok post -> runs (onDcepOpen sid ssn (ByteReader.reader_at pre post)).
Proof.
  intros Hok. unfold onDcepOpen. rewrite ByteReader.remaining_at.
  destruct (Nat.ltb_spec (length post) 11) as [|Hl]; [apply runs_ret|].
  do 11 (destruct post as [|? post]; [cbn in Hl; lia|]).
  repeat match goal with H : bytes_ok (_ :: _) |- _ => apply bytes_ok_cons_iff in H as [? H] end.
  apply runs_lift_bind. eexists. split; [apply ByteReader.readU8_at|]. cbn beta iota.
  apply runs_lift_bind. eexists. split; [apply ByteReader.skip_split; cbn; lia|]. cbn [take drop]. rewrite ?take_0, ?drop_0.
  apply runs_lift_bind. eexists. split; [apply ByteReader.readU16_at; done|]. cbn beta iota.
  apply runs_lift_bind. eexists. split; [apply ByteReader.skip_split; cbn; lia|]. cbn [take drop]. rewrite ?take_0, ?drop_0.
  rewrite ByteReader.remaining_at. set (len := be_value _).
  destruct (Z.ltb_spec (Z.of_nat (length post)) len); [apply runs_ret|].
  unfold ByteReader.readString. apply runs_lift_bind. eexists. split; [apply ByteReader.take_bytes_split; lia|].
  cbn beta iota. repeat first [runs_step | apply runs_sendDcep].
Qed.

Lemma runs_onPayload sid ssn fl ppid pre post : bytes_ok post -> runs (onPayload sid ssn fl ppid (ByteReader.reader_at pre post)).
Proof.
  intros Hok. unfold onPayload. destruct (isMessagePpid ppid); [apply runs_onMessageFragment|].
  rewrite ByteReader.remaining_at. destruct (negb _); [apply runs_ret|]. cbn [orb].
  destruct post as [|x post]; [apply runs_ret|]. cbn [length Nat.ltb Nat.leb].
  apply bytes_ok_cons_iff in Hok as [_ Hok].
  apply runs_lift_bind. eexists. split; [apply ByteReader.readU8_at|]. cbn beta iota.
  destruct (_ =? _); [apply runs_onDcepAck|]. destruct (_ =? _); [by apply runs_onDcepOpen|apply runs_ret].
Qed.

Lemma filter_length_lt {A} (f : A -> bool) l x : x ∈ l -> f x = false -> (length (List.filter f l) < length l)%nat.
Proof.
  intros Hx Hf. induction Hx as [x l|x y l Hx IH]; cbn.
  - rewrite Hf. pose proof (List.filter_length_le f l). lia.
  - specialize (IH Hf). destruct (f y); cbn; lia.
Qed.

Lemma setErase_shorter x l : setMember x l = true -> (length (setErase x l) < length l)%nat.
Proof.
  unfold setMember. rewrite existsb_exists. intros (y & Hy & E). apply Z.eqb_eq in E as <-.
  apply (filter_length_lt _ _ x); [by apply list_elem_of_In|]. by rewrite Z.eqb_refl.
Qed.

Lemma advance_loop_some fuel : forall s, (length (mPeerOutOfOrderTsns s) <= fuel)%nat -> is_Some (advance_loop fuel s).
Proof.
  induction fuel as [|fuel IH]; intros s Hf; cbn [advance_loop]; destruct (setMember _ _) eqn:E; try by eexists.
  - apply setErase_shorter in E. lia.
  - apply IH. cbn. apply setErase_shorter in E. lia.
Qed.

Lemma recordTsn_some tsn s : is_Some (recordTsn tsn s).
Proof. unfold recordTsn. destruct (_ =? _); [|by eexists]. by apply advance_loop_some. Qed.

Lemma runs_onReceiveDataChunk c : bytes_ok (SctpPacket.data c) -> runs (onReceiveDataChunk c).
Proof.
  intros Hok. unfold onReceiveDataChunk. destruct c as [ty fl d]. cbn [SctpPacket.data SctpPacket.flags] in *.
  destruct (Nat.ltb_spec (length d) 12) as [|Hl]; [apply runs_ret|].
  do 12 (destruct d as [|? d]; [cbn in Hl; lia|]).
  repeat match goal with H : bytes_ok (_ :: _) |- _ => apply bytes_ok_cons_iff in H as [? H] end.
  rewrite ByteReader.make_reader_at.
  apply runs_lift_bind. eexists. split; [apply ByteReader.readU32_at; done|]. cbn beta iota.
  apply runs_lift_bind. eexists. split; [apply ByteReader.readU16_at; done|]. cbn beta iota.
  apply runs_lift_bind. eexists. split; [apply ByteReader.readU16_at; done|]. cbn beta iota.
  apply runs_lift_bind. eexists. split; [apply ByteReader.readU32_at; done|]. cbn beta iota.
  apply runs_bind; [apply runs_get|]. intros s. destruct (isDuplicate _ _); [apply runs_sendSack|].
  apply runs_bind; [apply runs_lift, recordTsn_some|]. intros s'.
  apply runs_bind; [apply runs_modify|]. intros _. apply runs_bind; [apply runs_sendSack|]. intros _.
  by apply runs_onPayload.
Qed.

Lemma runs_closeStream sid : runs (closeStream sid).
Proof.
  unfold closeStream. apply runs_bind; [apply runs_get|]. intros s.
  destruct (list_find _ _) as [[i c]|]; [|apply runs_ret]. eauto with runs.
Qed.

Lemma runs_onReconfigParam q : runs (onReconfigParam q).
Proof.
  unfold onReconfigParam. destruct (negb _); [apply runs_ret|]. cbn [orb].
  destruct (Nat.ltb_spec (length (SctpPacket.pdata q)) 12) as [|Hl]; [apply runs_ret|].
  rewrite ByteReader.make_reader_at.
  destruct (ByteReader.readU32_some [] (SctpPacket.pdata q)) as [v E]; [lia|].
  apply runs_lift_bind. eexists. split; [exact E|]. cbn beta iota.
  apply runs_lift_bind. eexists. split; [apply ByteReader.skip_split; rewrite length_drop; lia|].
  rewrite ByteReader.remaining_at. rewrite !length_drop.
  apply runs_bind; [apply runs_lift, readU16s_some; rewrite !length_drop; apply Nat.le_div2_diag_l || (pose proof (Nat.div2_odd (length (SctpPacket.pdata q) - 4 - 8)); lia)|].
  intros [ids r]. apply runs_bind; [apply runs_forEach, list.Forall_forall; intros; apply runs_closeStream|].
  intros _. eauto with runs.
Qed.

Lemma runs_onReceiveReconfig c : bytes_ok (SctpPacket.data c) -> runs (onReceiveReconfig c).
Proof.
  intros Hok. unfold onReceiveReconfig. destruct (PacketWire.parseParams_total c 0 Hok) as (ps & E & _).
  apply runs_lift_bind. eexists. split; [exact E|]. apply runs_forEach, list.Forall_forall. intros. apply runs_onReconfigParam.
Qed.

Lemma runs_onCookieAck : runs onCookieAck.
Proof. unfold onCookieAck, onAssociationEstablished. repeat runs_step. Qed.

Lemma runs_onInitAck c : bytes_ok (SctpPacket.data c) -> runs (onInitAck c).
Proof.
  intros Hok. unfold onInitAck. apply runs_bind; [apply runs_get|]. intros s. destruct (negb _); [apply runs_ret|]. cbn [orb].
  destruct (Nat.ltb_spec (length (SctpPacket.data c)) 16); [apply runs_ret|].
  destruct (readInit_some c) as [[[[[a b] d] e] f] E]; [done|].
  apply runs_lift_bind. eexists. split; [exact E|]. cbn beta iota.
  apply runs_bind; [apply runs_modify|]. intros _.
  destruct (PacketWire.parseParams_total c 16 Hok) as (ps & E2 & _).
  apply runs_lift_bind. eexists. split; [exact E2|]. destruct (List.find _ _); [|apply runs_ret].
  apply runs_bind; [apply runs_get|]. intros s'. apply runs_bind; [apply runs_cancel|]. intros _.
  apply runs_bind; [apply runs_modify|]. intros _. apply runs_bind; [apply runs_lift, buildPacket_some|].
  intros bytes. eauto with runs.
Qed.

(** An acknowledgement with more blocks announced than there. *)
Definition truncatedSack (c : SctpPacket.Chunk) : Prop :=
  SctpPacket.type c = kChunkSack /\ (12 <= length (SctpPacket.data c))%nat /\
  (length (SctpPacket.data c) < 12 + 4 * Z.to_nat (be_value (take 2 (drop 8 (SctpPacket.data c)))))%nat.

#[global] Instance truncatedSack_dec c : Decision (truncatedSack c).
Proof. unfold truncatedSack. apply _. Defined.

Lemma readSack_some c : bytes_ok (SctpPacket.data c) -> (12 <= length (SctpPacket.data c))%nat ->
  is_Some (readSack c) <->
  (12 + 4 * Z.to_nat (be_value (take 2 (drop 8 (SctpPacket.data c)))) <= length (SctpPacket.data c))%nat.
Proof.
  intros Hok Hl. unfold readSack. set (d := SctpPacket.data c) in *. clearbody d.
  rewrite ByteReader.make_reader_at.
  do 12 (destruct d as [|? d]; [cbn in Hl; lia|]).
  repeat match goal with H : bytes_ok (_ :: _) |- _ => apply bytes_ok_cons_iff in H as [? H] end.
  rewrite ByteReader.readU32_at by done. cbn [mbind option_bind].
  rewrite ByteReader.readU32_at by done. cbn [mbind option_bind].
  rewrite ByteReader.readU16_at by done. cbn [mbind option_bind].
  rewrite ByteReader.skip_split by (cbn; lia). cbn [mbind option_bind take drop length].
  match goal with |- context [readBlocks ?n (ByteReader.reader_at ?a ?b)] =>
    pose proof (readBlocks_some n a b) as Hb end.
  rewrite drop_0 in Hb |- *.
  destruct (readBlocks _ _) as [[bs r]|]; cbn [mbind option_bind].
  - split; [|by eexists]. intros _. assert (is_Some (Some (bs, r))) as Hs by by eexists.
    apply Hb in Hs. lia.
  - split; [by intros []|]. intros H'. destruct Hb as [_ Hb]. destruct Hb as [? Hb]; [lia|done].
Qed.

Lemma onReceiveSack_stops c s : bytes_ok (SctpPacket.data c) -> SctpPacket.type c = kChunkSack ->
  onReceiveSack c s = None <-> truncatedSack c.
Proof.
  intros Hok Hty. unfold onReceiveSack, truncatedSack.
  destruct (Nat.ltb_spec (length (SctpPacket.data c)) 12) as [|Hl]; [split; [done|lia]|].
  pose proof (readSack_some c Hok Hl) as Hs. destruct (readSack c) as [[[cum rwnd] bs]|] eqn:E.
  - rewrite bind_lift_at. assert (12 + 4 * Z.to_nat (be_value (take 2 (drop 8 (SctpPacket.data c)))) <= length (SctpPacket.data c))%nat
      by (apply Hs; by eexists). split; [|lia].
    intros Hn. match type of Hn with ?m s = None => assert (runs m) as Hr by (repeat runs_step) end.
    destruct (Hr s) as (? & ? & ? & E'). by rewrite E' in Hn.
  - split; [|done]. intros _. split_and!; [done|done|]. destruct Hs as [_ Hs].
    destruct (decide (12 + 4 * Z.to_nat (be_value (take 2 (drop 8 (SctpPacket.data c)))) <= length (SctpPacket.data c))%nat) as [H|H]; [|lia].
    by destruct (Hs H).
Qed.

Lemma forEach_stops {A} (bad : A -> Prop) (f : A -> M unit) (l : list A) :
  Forall (fun a => (bad a -> forall s, f a s = None) /\ (~ bad a -> runs (f a)) /\ (bad a \/ ~ bad a)) l ->
  forall s, forEach l f s = None <-> Exists bad l.
Proof.
  induction 1 as [|a l (Hbad & Hgood & Hdec) Hl IH]; intros s; [split; [done|intros H; inversion H]|].
  cbn [forEach]. rewrite List.Exists_cons. unfold bind. destruct Hdec as [Hb|Hb].
  - rewrite Hbad by done. split; [by left|done].
  - destruct (Hgood Hb s) as (a' & s1 & es & ->). specialize (IH s1).
    destruct (forEach l f s1) as [[[b s2] es2]|].
    + split; [done|]. intros [|H]; [done|]. by apply IH in H.
    + split; [|done]. intros _. right. by apply IH.
Qed.

Section Datagrams.
Context `{!Evp, !EvpLaws}.

Lemma onChunk_good now c : bytes_ok (SctpPacket.data c) -> ~ truncatedSack c -> runs (onChunk now c).
Proof using Type*.
  intros Hok Hn. unfold onChunk. destruct (_ =? kChunkData); [by apply runs_onReceiveDataChunk|].
  destruct (Z.eqb_spec (SctpPacket.type c) kChunkSack) as [E|].
  - intros s. destruct (onReceiveSack c s) as [[[a s'] es]|] eqn:Es; [by eexists _, _, _|].
    by apply onReceiveSack_stops in Es.
  - destruct (_ =? kChunkReconfig); [by apply runs_onReceiveReconfig|].
    destruct (_ =? kChunkInit); [by apply runs_onReceiveInit|].
    destruct (_ =? kChunkCookieEcho); [by apply runs_onReceiveCookieEcho|].
    destruct (_ =? kChunkCookieAck); [by apply runs_onCookieAck|].
    destruct (_ =? kChunkInitAck); [by apply runs_onInitAck|apply runs_ret].
Qed.

Lemma onChunk_bad now c s : bytes_ok (SctpPacket.data c) -> truncatedSack c -> onChunk now c s = None.
Proof using Type*.
  intros Hok Hb. pose proof Hb as [Hty _]. unfold onChunk. rewrite Hty. cbn -[onReceiveSack].
  by apply onReceiveSack_stops.
Qed.

(** A datagram stops the program (readU16 aborts) exactly when it has a valid
    checksum and tag and one of its chunks is a SACK that announces more gap
    blocks than it holds: in every state, no other datagram, however malformed,
    stops the session, and such a SACK always does. *)
Theorem receive_stops_iff now buf s : bytes_ok buf ->
  onReceiveData now buf s = None <->
  exists packet, SctpPacket.parse 0 0 buf = Some (Some packet) /\
    SctpPacket.mVerificationTag packet = expectedTag s packet /\
    Exists truncatedSack (SctpPacket.mChunks packet).
Proof using Type*.
  intros Hok. unfold onReceiveData. destruct (PacketWire.parse_total 0 0 buf Hok) as (res & E & Hres).
  rewrite E, bind_lift_at. destruct res as [packet|].
  2: { split; [done|]. by intros (p & [=] & _). }
  destruct (Hres packet eq_refl) as [Hall _]. unfold onPacket. rewrite bind_get_at.
  destruct (Z.eqb_spec (SctpPacket.mVerificationTag packet) (expectedTag s packet)) as [Et|Et]; cbn [negb].
  2: { split; [done|]. intros (p & [= <-] & Ht & _). done. }
  rewrite (forEach_stops truncatedSack).
  - split; [intros Hx; by exists packet|]. intros (p & [= <-] & _ & Hx). done.
  - eapply list.Forall_impl; [exact Hall|]. intros c [(_ & _ & Hc & _) _].
    split_and!; [intros Hb s'; by apply onChunk_bad|intros Hb; by apply onChunk_good|].
    destruct (decide (truncatedSack c)); tauto.
Qed.

End Datagrams.

(** An acknowledgement of twelve bytes that announces two blocks. *)
Definition demo_session : t := make 5000 5000 0 false [[97]] 77 1000 1 2 3 4.
Definition demo_sack : SctpPacket.Chunk := SctpPacket.mkChunk kChunkSack 0 (be_bytes 4 999 ++ be_bytes 4 1000 ++ be_bytes 2 2 ++ be_bytes 2 0).
Definition demo_sack_packet : list Z :=
  default [] (PacketWire.build_chunks 0 5000 5000 77 [demo_sack]).

Lemma receive_stops_iff_witness :
  @onReceiveData SrtpProps.Demo.toy 0 demo_sack_packet demo_session = None.
Proof.
  apply (@receive_stops_iff SrtpProps.Demo.toy SrtpProps.Demo.toy_laws 0 demo_sack_packet demo_session).
  - apply (bool_decide_unpack (bytes_ok _)). vm_compute. reflexivity.
  - exists (SctpPacket.mk 5000 5000 77 [demo_sack]). split_and!; [vm_compute; reflexivity|reflexivity|].
    constructor. apply (bool_decide_unpack (truncatedSack _)). vm_compute. reflexivity.
Defined.

(** Every call of the application (send, the queue for channels that are not
    open, start, the destructor) and every task that the scheduler runs comes to
    its end in every state: the loops over fragments and over pending messages
    terminate, nothing is read or written out of bounds. *)
Theorem session_total message id :
  runs (send message) /\ runs (sendDataChannelMessage message) /\ runs start /\ runs (runTask id) /\ runs destroy.
Proof.
  split_and!; [apply runs_send|apply runs_sendDataChannelMessage|apply runs_sendInit|apply runs_runTask|apply runs_destroy].
Qed.

End SctpRuns.
