(* ===== verification/SctpProps.v ===== *)
(** * What the SCTP session promises

    The account of received TSNs against a set of numbers ([Account]), what an
    acknowledgement says and what the sender learns from it ([Acks]), the handshake
    ([Handshake]), the way of a message ([Delivery]), and the places where the
    promises end ([Edges]). *)

From S2P Require Import Prelude Bytes Srtp SrtpProps Crc32c SctpPacket DataChannel SctpSession SctpRuns.
From stdpp Require Import gmap sorting.
Open Scope Z_scope.

(** ** The account of received TSNs *)

Module Account.

Import SctpSession Defs.

(** TSNs are counted from the first one the peer announced: number [i] is
    [c0 + i] modulo 2^32.  The state [s] stands for the set [R] of the numbers
    received, of which 1 to [m] are complete. *)
Definition tsn_at (c0 i : Z) : Z := u32 (c0 + i).

(** The state while the complete numbers are being counted up to [m], and at rest. *)
Record counts (c0 : Z) (R : gset Z) (m : Z) (s : t) : Prop := {
  counts_cum : mPeerCumulativeTsn s = tsn_at c0 m;
  counts_done : forall i, 1 <= i <= m -> i ∈ R;
  counts_range : forall i, i ∈ R -> 1 <= i <= m + 1024;
  counts_nonneg : 0 <= m;
  counts_set : forall x, x ∈ mPeerOutOfOrderTsns s <-> exists i, i ∈ R /\ m < i /\ x = tsn_at c0 i;
  counts_sorted : StronglySorted Z.lt (mPeerOutOfOrderTsns s)
}.

Definition holds (c0 : Z) (R : gset Z) (m : Z) (s : t) : Prop := counts c0 R m s /\ m + 1 ∉ R.

Lemma setMember_iff x l : setMember x l = true <-> x ∈ l.
Proof.
  unfold setMember. rewrite existsb_exists. split.
  - intros (y & Hy & E). apply Z.eqb_eq in E as <-. by apply list_elem_of_In.
  - intros Hx. exists x. split; [by apply list_elem_of_In|apply Z.eqb_refl].
Qed.

Lemma setInsert_elem x y l : y ∈ setInsert x l <-> y = x \/ y ∈ l.
Proof.
  induction l as [|z l IH]; cbn [setInsert]; [by rewrite list_elem_of_singleton, elem_of_nil; tauto|].
  destruct (Z.ltb_spec x z); [by rewrite elem_of_cons|].
  destruct (Z.eqb_spec x z) as [->|]; [rewrite elem_of_cons; tauto|]. rewrite !elem_of_cons, IH. tauto.
Qed.

Lemma setInsert_sorted x l : StronglySorted Z.lt l -> StronglySorted Z.lt (setInsert x l).
Proof.
  induction 1 as [|z l Hl IH Hz]; cbn [setInsert]; [repeat constructor|].
  destruct (Z.ltb_spec x z).
  - constructor; [by constructor|]. constructor; [done|]. eapply list.Forall_impl; [exact Hz|]. cbn. lia.
  - destruct (Z.eqb_spec x z); [by constructor|]. constructor; [done|].
    apply list.Forall_forall. intros y Hy. apply setInsert_elem in Hy as [->|Hy]; [lia|].
    by eapply list.Forall_forall in Hy.
Qed.

Lemma setErase_elem x y l : y ∈ setErase x l <-> y <> x /\ y ∈ l.
Proof.
  unfold setErase. rewrite list_elem_of_In, filter_In, <- list_elem_of_In, negb_true_iff, Z.eqb_neq. tauto.
Qed.

Lemma setErase_sorted x l : StronglySorted Z.lt l -> StronglySorted Z.lt (setErase x l).
Proof.
  induction 1 as [|z l Hl IH Hz]; cbn; [constructor|]. destruct (negb (z =? x)); [|done]. constructor; [done|].
  apply list.Forall_forall. intros y Hy. apply setErase_elem in Hy as [_ Hy]. by eapply list.Forall_forall in Hy.
Qed.

Lemma sorted_nodup l : StronglySorted Z.lt l -> NoDup l.
Proof.
  induction 1 as [|z l Hl IH Hz]; constructor; [|done]. intros Hin. eapply list.Forall_forall in Hin; [|exact Hz]. lia.
Qed.

Lemma tsn_at_inj c0 i j : - 2 ^ 32 < i - j < 2 ^ 32 -> tsn_at c0 i = tsn_at c0 j -> i = j.
Proof. unfold tsn_at, u32. intros H E. zdm. Qed.

Lemma tsn_next c0 m : u32 (tsn_at c0 m + 1) = tsn_at c0 (m + 1).
Proof. unfold tsn_at, u32. rewrite Zplus_mod_idemp_l. f_equal. lia. Qed.

(** At most 1023 TSNs are out of order as long as the sender stays within 1024. *)
Lemma holds_few c0 R m s : holds c0 R m s -> (length (mPeerOutOfOrderTsns s) <= 1023)%nat.
Proof.
  intros [H Hnext]. transitivity (length (tsn_at c0 <$> seqZ (m + 2) 1023)).
  - apply submseteq_length, NoDup_submseteq; [apply sorted_nodup, H|].
    intros x Hx. apply (counts_set _ _ _ _ H) in Hx as (i & Hi & Hm & ->).
    apply list_elem_of_fmap. exists i. split; [done|]. apply elem_of_seqZ. pose proof (counts_range _ _ _ _ H i Hi).
    assert (i <> m + 1) by (intros ->; done). lia.
  - rewrite length_fmap, length_seqZ. lia.
Qed.

Lemma i32_diff c0 i m : - 2 ^ 31 <= i - m < 2 ^ 31 -> i32 (tsn_at c0 i - tsn_at c0 m) = i - m.
Proof.
  intros H. unfold i32, to_signed, tsn_at, u32. cbv zeta. rewrite <- Zminus_mod. change (32 - 1) with 31.
  replace (c0 + i - (c0 + m)) with (i - m) by lia. destruct (decide (0 <= i - m)).
  - rewrite Z.mod_small by lia. destruct (Z.ltb_spec (i - m) (2 ^ 31)); lia.
  - replace ((i - m) mod 2 ^ 32) with (i - m + 2 ^ 32) by zdm.
    destruct (Z.ltb_spec (i - m + 2 ^ 32) (2 ^ 31)); lia.
Qed.

Lemma isDuplicate_iff c0 R m s i : holds c0 R m s -> 1 <= i <= m + 1024 -> m - i <= 2 ^ 31 ->
  isDuplicate s (tsn_at c0 i) = bool_decide (i ∈ R).
Proof.
  intros [H _] Hi Hold. unfold isDuplicate. rewrite (counts_cum _ _ _ _ H), i32_diff by lia.
  apply Bool.eq_iff_eq_true. rewrite orb_true_iff, Z.leb_le, setMember_iff, bool_decide_eq_true, (counts_set _ _ _ _ H).
  split.
  - intros [Hle|(j & Hj & Hm & E)]; [apply (counts_done _ _ _ _ H); lia|].
    pose proof (counts_range _ _ _ _ H j Hj). apply tsn_at_inj in E as ->; [done|lia].
  - intros Hin. destruct (decide (i <= m)); [left; lia|right]. exists i. split_and!; [done|lia|done].
Qed.

(** One more complete number. *)
Lemma counts_advance c0 R m s : counts c0 R m s -> m + 1 ∈ R ->
  counts c0 R (m + 1)
    (set_mPeerOutOfOrderTsns (setErase (tsn_at c0 (m + 1)) (mPeerOutOfOrderTsns s))
      (set_mPeerCumulativeTsn (tsn_at c0 (m + 1)) s)).
Proof.
  intros [Hcum Hdone Hrange Hpos Hset Hsorted] Hin. constructor; cbn.
  - done.
  - intros i Hi. destruct (decide (i = m + 1)) as [->|]; [done|]. apply Hdone. lia.
  - intros i Hi. specialize (Hrange i Hi). lia.
  - lia.
  - intros x. rewrite setErase_elem, Hset. split.
    + intros (Hx & i & Hi & Hm & ->). exists i. split_and!; [done| |done].
      destruct (decide (i = m + 1)) as [->|]; [done|lia].
    + intros (i & Hi & Hm & ->). split; [|exists i; split_and!; [done|lia|done]].
      intros E. pose proof (Hrange i Hi). apply tsn_at_inj in E; lia.
  - by apply setErase_sorted.
Qed.

Lemma counts_rest c0 R m s : counts c0 R m s -> setMember (tsn_at c0 (m + 1)) (mPeerOutOfOrderTsns s) = false ->
  holds c0 R m s.
Proof.
  intros H E. split; [done|]. intros Hin. rewrite <- not_true_iff_false, setMember_iff in E.
  apply E, (counts_set _ _ _ _ H). exists (m + 1). split_and!; [done|lia|done].
Qed.

Lemma advance_loop_holds fuel : forall c0 R m s, counts c0 R m s -> (length (mPeerOutOfOrderTsns s) <= fuel)%nat ->
  exists s' m', advance_loop fuel s = Some s' /\ m <= m' /\ holds c0 R m' s'.
Proof.
  induction fuel as [|fuel IH]; intros c0 R m s H Hf; cbn [advance_loop]; rewrite (counts_cum _ _ _ _ H), tsn_next;
    destruct (setMember _ _) eqn:E.
  1: (apply SctpRuns.setErase_shorter in E; lia).
  2: pose proof E as E'; apply SctpRuns.setErase_shorter in E'.
  1, 3: (exists s, m; split_and!; [done|lia|by apply counts_rest]).
  apply setMember_iff, (counts_set _ _ _ _ H) in E as (j & Hj & Hm & E).
  pose proof (counts_range _ _ _ _ H j Hj). apply tsn_at_inj in E as <-; [|lia].
  destruct (IH c0 R (m + 1) _ (counts_advance c0 R m s H Hj)) as (s' & m' & E & Hle & Hs'); [cbn; lia|].
  exists s', m'. split_and!; [done|lia|apply Hs'].
Qed.

Lemma recordTsn_holds c0 R m s i : holds c0 R m s -> 1 <= i <= m + 1024 -> i ∉ R ->
  exists s' m', recordTsn (tsn_at c0 i) s = Some s' /\ m <= m' /\ holds c0 ({[ i ]} ∪ R) m' s'.
Proof.
  intros Hh Hi Hnot. pose proof Hh as [H Hnext]. unfold recordTsn. rewrite (counts_cum _ _ _ _ H), tsn_next.
  assert (m < i) as Hm by (destruct (decide (m < i)); [done|]; exfalso; apply Hnot, (counts_done _ _ _ _ H); lia).
  destruct (Z.eqb_spec (tsn_at c0 i) (tsn_at c0 (m + 1))) as [E|E].
  - apply tsn_at_inj in E as ->; [|lia].
    destruct (advance_loop_holds (length (mPeerOutOfOrderTsns s)) c0 ({[ m + 1 ]} ∪ R) (m + 1)
      (set_mPeerCumulativeTsn (tsn_at c0 (m + 1)) s)) as (s' & m' & E & Hle & Hs'); [|done|].
    + destruct H as [Hcum Hdone Hrange Hpos Hset Hsorted]. constructor; cbn; [done| | |lia| |done].
      * intros j Hj. destruct (decide (j = m + 1)) as [->|]; [set_solver|]. assert (j ∈ R) by (apply Hdone; lia). set_solver.
      * intros j Hj. apply elem_of_union in Hj as [Hj|Hj]; [apply elem_of_singleton in Hj; lia|].
        specialize (Hrange j Hj). lia.
      * intros x. rewrite Hset. split.
        -- intros (j & Hj & Hmj & ->). exists j. split_and!; [set_solver| |done].
           destruct (decide (j = m + 1)) as [->|]; [done|lia].
        -- intros (j & Hj & Hmj & ->). exists j. split_and!; [|lia|done].
           apply elem_of_union in Hj as [Hj|Hj]; [apply elem_of_singleton in Hj; lia|done].
    + exists s', m'. split_and!; [done|lia|apply Hs'].
  - assert (i <> m + 1) as Hne by congruence.
    assert (length (setInsert (tsn_at c0 i) (mPeerOutOfOrderTsns s)) <= 1024)%nat as Hlen.
    { transitivity (length (tsn_at c0 i :: mPeerOutOfOrderTsns s)); [|pose proof (holds_few _ _ _ _ Hh); cbn [length]; lia].
      apply submseteq_length, NoDup_submseteq; [apply sorted_nodup, setInsert_sorted, H|].
      intros x Hx. rewrite setInsert_elem in Hx. by apply elem_of_cons. }
    unfold kMaxOutOfOrder. destruct (Nat.ltb_spec 1024 (length (setInsert (tsn_at c0 i) (mPeerOutOfOrderTsns s)))); [lia|].
    eexists _, m. split; [done|]. split; [lia|]. destruct H as [Hcum Hdone Hrange Hpos Hset Hsorted].
    split; [constructor; cbn; [done| | |done| |]|].
    + intros j Hj. specialize (Hdone j Hj). set_solver.
    + intros j Hj. apply elem_of_union in Hj as [Hj|Hj]; [apply elem_of_singleton in Hj; lia|]. by apply Hrange.
    + intros x. rewrite setInsert_elem, Hset. split.
      * intros [->|(j & Hj & Hmj & ->)]; [exists i|exists j]; (split_and!; [set_solver|lia|done]).
      * intros (j & Hj & Hmj & ->). apply elem_of_union in Hj as [Hj|Hj]; [apply elem_of_singleton in Hj as ->; by left|].
        right. exists j. by split_and!.
    + by apply setInsert_sorted.
    + rewrite not_elem_of_union, not_elem_of_singleton. split; [lia|done].
Qed.

(** The arrivals of DATA chunks, as [onReceiveDataChunk] takes account of them:
    whether each is new. *)
Fixpoint arrivals (tsns : list Z) (s : t) : option (list bool * t) :=
  match tsns with
  | [] => Some ([], s)
  | tsn :: tsns =>
      if isDuplicate s tsn then
        '(rest, s) ← arrivals tsns s; Some (false :: rest, s)
      else
        s ← recordTsn tsn s;
        '(rest, s) ← arrivals tsns s; Some (true :: rest, s)
  end.

(** The reference: the first time that a number comes. *)
Fixpoint first_times (R : gset Z) (js : list Z) : list bool :=
  match js with
  | [] => []
  | i :: js => negb (bool_decide (i ∈ R)) :: first_times ({[ i ]} ∪ R) js
  end.

(** Each number within 1024 of those complete when it comes, and not 2^31 behind. *)
Fixpoint within (R : gset Z) (m : Z) (js : list Z) : Prop :=
  match js with
  | [] => True
  | i :: js =>
      1 <= i <= m + 1024 /\ m - i <= 2 ^ 31 /\
      forall m', m <= m' -> (forall j, 1 <= j <= m' -> j ∈ ({[ i ]} ∪ R : gset Z)) -> m' + 1 ∉ ({[ i ]} ∪ R : gset Z) ->
        within ({[ i ]} ∪ R) m' js
  end.

Lemma arrivals_holds c0 js : forall R m s, holds c0 R m s -> within R m js ->
  exists s' m', arrivals (tsn_at c0 <$> js) s = Some (first_times R js, s') /\ m <= m' /\
    holds c0 (list_to_set js ∪ R) m' s'.
Proof.
  induction js as [|i js IH]; intros R m s Hh Hw.
  - exists s, m. split_and!; [done|lia|]. cbn. by rewrite union_empty_l_L.
  - destruct Hw as (Hi & Hold & Hw). cbn [fmap list_fmap arrivals first_times].
    rewrite (isDuplicate_iff c0 R m s i) by done. change (list_fmap _ _ (tsn_at c0) js) with (tsn_at c0 <$> js).
    cbn [list_to_set]. replace ({[ i ]} ∪ list_to_set js ∪ R) with (list_to_set js ∪ ({[ i ]} ∪ R)) by set_solver.
    destruct (bool_decide_reflect (i ∈ R)) as [Hin|Hin].
    + replace ({[ i ]} ∪ R) with R in * by set_solver.
      destruct (IH R m s Hh) as (s' & m' & E & Hle & Hs'); [|by rewrite E; exists s', m'].
      apply Hw; [lia|apply Hh|apply Hh].
    + destruct (recordTsn_holds c0 R m s i Hh Hi Hin) as (s1 & m1 & E1 & Hle1 & H1). rewrite E1. cbn [mbind option_bind].
      destruct (IH _ m1 s1 H1) as (s' & m' & E & Hle & Hs'); [apply Hw; [lia|apply H1|apply H1]|].
      rewrite E. exists s', m'. split_and!; [done|lia|apply Hs'].
Qed.

(** C14: The receiver takes each DATA chunk once: for chunks that come in any order
    and any number of times, within 1024 of those complete, the session calls a
    chunk new exactly when its TSN comes for the first time, TSNs that wrap around
    2^32 included; and the cumulative TSN that it acknowledges is the last number
    before the first missing one. *)
Theorem tsns_refine_set c0 js R m s : holds c0 R m s -> within R m js ->
  exists s' m', arrivals (tsn_at c0 <$> js) s = Some (first_times R js, s') /\
    mPeerCumulativeTsn s' = tsn_at c0 m' /\
    (forall i, 1 <= i <= m' -> i ∈ (list_to_set js ∪ R : gset Z)) /\ m' + 1 ∉ (list_to_set js ∪ R : gset Z).
Proof.
  intros Hh Hw. destruct (arrivals_holds c0 js R m s Hh Hw) as (s' & m' & E & _ & H & Hnext).
  exists s', m'. split_and!; [done|apply H|apply H|done].
Qed.

Lemma counts_start c0 s : is_u32 c0 -> mPeerCumulativeTsn s = c0 -> mPeerOutOfOrderTsns s = [] -> holds c0 ∅ 0 s.
Proof.
  intros Hc E1 E2. split; [constructor|]; rewrite ?E1, ?E2.
  - unfold tsn_at. by rewrite Z.add_0_r, u32_small.
  - intros i Hi. lia.
  - intros i Hi. set_solver.
  - lia.
  - intros x. split; [set_solver|]. intros (i & Hi & _). set_solver.
  - constructor.
  - set_solver.
Qed.

Definition demo_receiver : t := set_mPeerCumulativeTsn 0xFFFFFFFE SctpRuns.demo_session.

(** Chunks 3, 1, 3, 2 around the end of the numbers. *)
Lemma tsns_refine_set_witness :
  exists s', arrivals (tsn_at 0xFFFFFFFE <$> [3; 1; 3; 2]) demo_receiver = Some ([true; true; false; true], s') /\
    mPeerCumulativeTsn s' = 1.
Proof.
  destruct (tsns_refine_set 0xFFFFFFFE [3; 1; 3; 2] ∅ 0 demo_receiver) as (s' & m' & E & Hcum & _ & _).
  - apply counts_start; [unfold is_u32; lia|reflexivity|reflexivity].
  - assert (forall (R : gset Z) m', 4 ∉ R -> (forall j, 1 <= j <= m' -> j ∈ R) -> m' <= 3) as Hb.
    { intros R m' H4 H. destruct (decide (4 <= m')); [|lia]. exfalso. apply H4, H. lia. }
    cbn [within]. split; [lia|]. split; [lia|]. intros m1 H1 D1 _. apply Hb in D1; [|set_solver].
    split; [lia|]. split; [lia|]. intros m2 H2 D2 _. apply Hb in D2; [|set_solver].
    split; [lia|]. split; [lia|]. intros m3 H3 D3 _. apply Hb in D3; [|set_solver].
    split; [lia|]. split; [lia|]. intros m4 H4 D4 _. exact I.
  - exists s'. split; [exact E|]. vm_compute in E. injection E as <-. reflexivity.
Defined.

End Account.

(** ** Acknowledgements *)

Module Acks.

Import SctpSession Defs Account.

Definition covers (bs : list (Z * Z)) (x : Z) : bool := existsb (fun b => (b.1 <=? x) && (x <=? b.2)) bs.

Definition open_block (cur : option (Z * Z)) (x : Z) : bool :=
  match cur with Some b => (b.1 <=? x) && (x <=? b.2) | None => false end.

Definition open_ok (cur : option (Z * Z)) (offsets : list Z) : Prop :=
  match cur with Some b => is_u16 b.1 /\ is_u16 b.2 /\ b.1 <= b.2 /\ Forall (Z.lt b.2) offsets | None => True end.

(** The blocks cover the offsets and nothing else. *)
Lemma gap_loop_covers x offsets : forall cur, StronglySorted Z.lt offsets -> Forall is_u16 offsets -> open_ok cur offsets ->
  covers (gap_loop cur offsets) x = open_block cur x || bool_decide (x ∈ offsets).
Proof.
  induction offsets as [|o os IH]; intros cur Hs Hu Hc.
  - rewrite (bool_decide_eq_false_2 (x ∈ [])) by apply not_elem_of_nil. rewrite orb_false_r.
    destruct cur as [b|]; cbn; [by rewrite orb_false_r|done].
  - apply StronglySorted_inv in Hs as [Hs Ho]. apply list.Forall_cons in Hu as [Huo Hu].
    assert (bool_decide (x ∈ o :: os) = (x =? o) || bool_decide (x ∈ os)) as ->.
    { apply Bool.eq_iff_eq_true. by rewrite orb_true_iff, !bool_decide_eq_true, elem_of_cons, Z.eqb_eq. }
    assert (forall a, open_block (Some (a, o)) x = (a <=? x) && (x <=? o)) as Hopen by done.
    destruct cur as [[a b]|]; cbn [gap_loop].
    + destruct Hc as (Ha & Hb & Hab & Hlt). cbn in Ha, Hb, Hab, Hlt. apply list.Forall_cons in Hlt as [Hbo Hlt].
      destruct (Z.eqb_spec o (u16 (b + 1))) as [E|E].
      * rewrite IH by (done || (cbn; split_and!; done || lia)). rewrite orb_assoc. f_equal. cbn.
        unfold is_u16 in *. rewrite u16_small in E by (unfold is_u16; lia). lia.
      * cbn [covers existsb]. fold (covers (gap_loop (Some (o, o)) os) x).
        rewrite IH by (done || (cbn; split_and!; done || lia)). cbn. f_equal. f_equal. lia.
    + rewrite IH by (done || (cbn; split_and!; done || lia)). cbn. f_equal. lia.
Qed.

(** What is sorted: distances from the cumulative TSN. *)
Lemma nearer_total s : Total (nearer s).
Proof. intros x y. unfold nearer. lia. Qed.
Lemma nearer_trans s : Transitive (nearer s).
Proof. intros x y z. unfold nearer. lia. Qed.

Lemma distance_inj s x y : is_u32 x -> is_u32 y -> distance s x = distance s y -> x = y.
Proof. unfold distance, is_u32, u32. intros Hx Hy E. zdm. Qed.

(** A receiver whose TSNs out of order are within 2^16 of the cumulative one. *)
Record receiver_ok (r : t) : Prop := {
  receiver_cum : is_u32 (mPeerCumulativeTsn r);
  receiver_set : Forall (fun x => is_u32 x /\ 1 <= distance r x < 2 ^ 16) (mPeerOutOfOrderTsns r);
  receiver_sorted : StronglySorted Z.lt (mPeerOutOfOrderTsns r);
  receiver_few : (length (mPeerOutOfOrderTsns r) <= 1024)%nat
}.

Definition offsets (r : t) : list Z := map (fun tsn => u16 (tsn - mPeerCumulativeTsn r)) (sortTsns r (mPeerOutOfOrderTsns r)).

Lemma offset_distance r x : 0 <= distance r x < 2 ^ 16 -> u16 (x - mPeerCumulativeTsn r) = distance r x.
Proof. unfold distance, u16, u32. intros H. zdm. Qed.

Lemma sortTsns_elem r x : x ∈ sortTsns r (mPeerOutOfOrderTsns r) <-> x ∈ mPeerOutOfOrderTsns r.
Proof. unfold sortTsns. by rewrite merge_sort_Permutation. Qed.

Lemma offsets_sorted r : receiver_ok r -> StronglySorted Z.lt (offsets r) /\ Forall is_u16 (offsets r).
Proof.
  intros [Hc Hset Hsorted _]. split.
  2: { apply List.Forall_map, list.Forall_forall. intros. apply u16_range. }
  unfold offsets. pose proof (nearer_total r). pose proof (nearer_trans r).
  assert (StronglySorted (nearer r) (sortTsns r (mPeerOutOfOrderTsns r))) as Hs
    by (apply StronglySorted_merge_sort; apply _).
  assert (NoDup (sortTsns r (mPeerOutOfOrderTsns r))) as Hn
    by (unfold sortTsns; rewrite merge_sort_Permutation; by apply sorted_nodup).
  assert (Forall (fun x => is_u32 x /\ 1 <= distance r x < 2 ^ 16) (sortTsns r (mPeerOutOfOrderTsns r))) as Hf
    by (unfold sortTsns; by rewrite merge_sort_Permutation).
  clear Hset Hsorted. induction Hs as [|x l Hl IH Hx]; cbn [map]; [constructor|].
  apply NoDup_cons in Hn as [Hxl Hn]. apply list.Forall_cons in Hf as [[Hxu Hxd] Hf]. constructor; [by apply IH|].
  apply List.Forall_map, list.Forall_forall. intros y Hy.
  eapply list.Forall_forall in Hx; [|exact Hy]. eapply list.Forall_forall in Hf as [Hyu Hyd]; [|exact Hy].
  rewrite !offset_distance by lia. unfold nearer in Hx.
  assert (distance r x <> distance r y) by (intros E; apply distance_inj in E as ->; done). lia.
Qed.

(** A TSN near the cumulative one is in a block exactly when it was received. *)
Lemma gapBlocks_cover r x : receiver_ok r -> is_u32 x -> distance r x < 2 ^ 16 ->
  covers (gapBlocks r) (u16 (x - mPeerCumulativeTsn r)) = setMember x (mPeerOutOfOrderTsns r).
Proof.
  intros Hr Hx Hd. destruct (offsets_sorted r Hr) as [Hs Hu]. unfold gapBlocks. fold (offsets r).
  rewrite gap_loop_covers by done. cbn [open_block orb].
  apply Bool.eq_iff_eq_true. rewrite bool_decide_eq_true, setMember_iff. unfold offsets.
  rewrite list_elem_of_In, in_map_iff. split.
  - intros (y & E & Hy). apply list_elem_of_In in Hy. rewrite sortTsns_elem in Hy.
    pose proof (receiver_set r Hr) as Hset. destruct (Forall_elem _ _ _ Hset Hy) as [Hyu Hyd].
    assert (0 <= distance r x) by apply u32_range.
    rewrite !offset_distance in E by lia. by apply distance_inj in E as ->.
  - intros Hin. exists x. split; [done|]. by rewrite <- list_elem_of_In, sortTsns_elem.
Qed.

(** *** On the wire *)

Definition block_ok (b : Z * Z) : Prop := is_u16 b.1 /\ is_u16 b.2.
Definition block_bytes (b : Z * Z) : list Z := be_bytes 2 b.1 ++ be_bytes 2 b.2.

Lemma gap_loop_ok offs : forall cur, Forall is_u16 offs -> (match cur with Some b => block_ok b | None => True end) ->
  Forall block_ok (gap_loop cur offs) /\
  (length (gap_loop cur offs) <= length offs + (match cur with Some _ => 1 | None => 0 end))%nat.
Proof.
  induction offs as [|o os IH]; intros cur Hu Hc.
  - destruct cur; cbn; [split; [constructor; [done|constructor]|lia]|split; [constructor|lia]].
  - apply list.Forall_cons in Hu as [Ho Hu]. destruct cur as [[a b]|]; cbn [gap_loop length].
    + destruct Hc as [Ha Hb]. destruct (_ =? _).
      * destruct (IH (Some (a, o)) Hu) as [H1 H2]; [done|]. split; [done|lia].
      * destruct (IH (Some (o, o)) Hu) as [H1 H2]; [done|]. split; [by constructor|cbn; lia].
    + destruct (IH (Some (o, o)) Hu) as [H1 H2]; [done|]. split; [done|lia].
Qed.

Lemma write_blocks bs : forall w,
  fold_left (fun w gb => ByteWriter.writeU16 (ByteWriter.writeU16 w gb.1) gb.2) bs w = w ++ mjoin (block_bytes <$> bs).
Proof.
  induction bs as [|b bs IH]; intros w; [by rewrite app_nil_r|]. cbn [fold_left].
  rewrite IH, !Wire.writeU16_be, <- !app_assoc. done.
Qed.

Lemma readBlocks_written bs : forall pre post, Forall block_ok bs ->
  readBlocks (length bs) (ByteReader.reader_at pre (mjoin (block_bytes <$> bs) ++ post)) =
  Some (bs, ByteReader.reader_at (pre ++ mjoin (block_bytes <$> bs)) post).
Proof.
  induction bs as [|b bs IH]; intros pre post Hbs; [cbn; by rewrite app_nil_r|].
  apply list.Forall_cons in Hbs as [[Ha Hb] Hbs]. cbn [length readBlocks].
  change (mjoin (block_bytes <$> b :: bs)) with (block_bytes b ++ mjoin (block_bytes <$> bs)).
  unfold block_bytes at 1. rewrite <- !app_assoc.
  rewrite Wire.readU16_be by done. cbn [mbind option_bind]. rewrite Wire.readU16_be by done. cbn [mbind option_bind].
  rewrite IH by done. cbn [mbind option_bind]. unfold block_bytes at 3. rewrite <- !app_assoc. by destruct b.
Qed.

Lemma sackBody_value r : sackBody r =
  be_bytes 4 (mPeerCumulativeTsn r) ++ be_bytes 4 kInitRwnd ++
  be_bytes 2 (u16 (Z.of_nat (length (gapBlocks r)))) ++ be_bytes 2 0 ++ mjoin (block_bytes <$> gapBlocks r).
Proof. unfold sackBody. rewrite write_blocks, !Wire.writeU16_be, !Wire.writeU32_be, <- !app_assoc. done. Qed.

Lemma gapBlocks_ok r : receiver_ok r -> Forall block_ok (gapBlocks r) /\ (length (gapBlocks r) <= 1024)%nat.
Proof.
  intros Hr. destruct (offsets_sorted r Hr) as [_ Hu]. destruct (gap_loop_ok (offsets r) None Hu I) as [H1 H2].
  split; [done|]. fold (offsets r) in H2. unfold gapBlocks. fold (offsets r).
  unfold offsets in H2 at 2. rewrite length_map in H2. unfold sortTsns in H2. rewrite merge_sort_Permutation in H2.
  pose proof (receiver_few r Hr). lia.
Qed.

Lemma readSack_written r : receiver_ok r ->
  readSack (SctpPacket.mkChunk kChunkSack 0 (sackBody r)) = Some (mPeerCumulativeTsn r, kInitRwnd, gapBlocks r) /\
  (12 <= length (sackBody r))%nat.
Proof.
  intros Hr. destruct (gapBlocks_ok r Hr) as [Hb Hlen]. pose proof (receiver_cum r Hr) as Hc.
  rewrite sackBody_value. split.
  2: { rewrite !length_app, !length_be_bytes. lia. }
  unfold readSack. cbn [SctpPacket.data]. rewrite ByteReader.make_reader_at.
  rewrite Wire.readU32_be by done. cbn [mbind option_bind].
  rewrite Wire.readU32_be by (unfold is_u32, kInitRwnd; lia). cbn [mbind option_bind].
  rewrite Wire.readU16_be by apply u16_range. cbn [mbind option_bind].
  rewrite ByteReader.skip_at by done. cbn [mbind option_bind].
  rewrite u16_small, Nat2Z.id by (unfold is_u16; lia).
  rewrite <- (app_nil_r (mjoin _)). rewrite readBlocks_written by done. done.
Qed.

(** *** What the sender does with it *)

Definition total (cs : list SentChunk) : Z := fold_right (fun c n => payloadSize c + n) 0 cs.

(** The flight size is the payload that is not acknowledged. *)
Record sender_ok (x : t) : Prop := {
  sender_sizes : Forall (fun c => is_u32 (tsn c) /\ 0 <= payloadSize c) (mSentChunks x);
  sender_flight : mFlightSize x = total (mSentChunks x);
  sender_bound : total (mSentChunks x) < 2 ^ 32
}.

Lemma total_nonneg cs : Forall (fun c => is_u32 (tsn c) /\ 0 <= payloadSize c) cs -> 0 <= total cs.
Proof. induction 1 as [|c cs [_ Hc] _ IH]; cbn; [lia|]. fold (total cs). lia. Qed.

Lemma total_split f cs : total cs = total (List.filter f cs) + total (List.filter (fun c => negb (f c)) cs).
Proof.
  induction cs as [|c cs IH]; [done|]. cbn. fold (total cs). destruct (f c); cbn;
    fold (total (List.filter f cs)) (total (List.filter (fun c => negb (f c)) cs)); lia.
Qed.

Lemma Forall_filter_bool {A} (P : A -> Prop) f (l : list A) : Forall P l -> Forall P (List.filter f l).
Proof. induction 1; cbn; [constructor|]. destruct (f x); [by constructor|done]. Qed.

Lemma fold_flight cs : forall f, Forall (fun c => is_u32 (tsn c) /\ 0 <= payloadSize c) cs -> total cs <= f < 2 ^ 32 ->
  fold_left (fun f c => if payloadSize c <=? f then u32 (f - payloadSize c) else 0) cs f = f - total cs.
Proof.
  induction cs as [|c cs IH]; intros f Hcs Hf; [cbn; lia|]. pose proof Hcs as Hcs'.
  apply list.Forall_cons in Hcs as [[_ Hc] Hcs]. pose proof (total_nonneg cs Hcs) as H0.
  cbn in Hf |- *. fold (total cs) in Hf |- *. destruct (Z.leb_spec (payloadSize c) f); [|lia].
  rewrite u32_small by (unfold is_u32; lia). rewrite IH by (done || lia). lia.
Qed.

Lemma ackChunks_sender acked x : sender_ok x -> sender_ok (ackChunks acked x).
Proof.
  intros [Hs Hf Hb]. pose proof (total_split acked (mSentChunks x)) as Ht.
  pose proof (total_nonneg _ (Forall_filter_bool _ acked _ Hs)).
  pose proof (total_nonneg _ (Forall_filter_bool _ (fun c => negb (acked c)) _ Hs)).
  constructor; cbn [ackChunks mSentChunks mFlightSize set_mFlightSize set_mSentChunks].
  - by apply Forall_filter_bool.
  - rewrite fold_flight; [lia|by apply Forall_filter_bool|lia].
  - lia.
Qed.

Lemma filter_filter {A} (f g : A -> bool) l : List.filter f (List.filter g l) = List.filter (fun a => g a && f a) l.
Proof. induction l as [|a l IH]; [done|]. cbn. destruct (g a); cbn; [destruct (f a); by rewrite IH|done]. Qed.

Lemma ackBlocks_sender cum bs : forall x, sender_ok x ->
  let x' := fold_left (fun s block => ackChunks (gapAcked cum block) s) bs x in
  sender_ok x' /\ mSentChunks x' = List.filter (fun c => negb (covers bs (u16 (tsn c - cum)))) (mSentChunks x).
Proof.
  induction bs as [|b bs IH]; intros x Hx; cbn [fold_left].
  - split; [done|]. cbn. symmetry. induction (mSentChunks x); cbn; [done|by f_equal].
  - destruct (IH (ackChunks (gapAcked cum b) x) (ackChunks_sender _ _ Hx)) as [H1 H2]. split; [done|].
    rewrite H2. cbn [ackChunks mSentChunks set_mFlightSize set_mSentChunks]. rewrite filter_filter.
    apply List.filter_ext. intros c. unfold covers. cbn [existsb]. by rewrite negb_orb.
Qed.

Lemma ackBlocks_keeps {A} (f : t -> A) cum bs : (forall acked s, f (ackChunks acked s) = f s) ->
  forall x, f (fold_left (fun s block => ackChunks (gapAcked cum block) s) bs x) = f x.
Proof. intros Hf. induction bs as [|b bs IH]; intros x; [done|]. cbn [fold_left]. by rewrite IH, Hf. Qed.

(** Timers: only tasks change. *)
Lemma startT3Rtx_at s : exists a b c,
  startT3Rtx s = Some (tt, set_mTaskT3Rtx (Some a) (set_mNextTask b (set_mTasks c s)), []).
Proof.
  unfold startT3Rtx. rewrite SctpRuns.bind_gets_at. destruct (mTaskT3Rtx s); cbn; by eexists _, _, _.
Qed.

Lemma stopT3Rtx_at s : exists c, stopT3Rtx s = Some (tt, set_mTaskT3Rtx None (set_mTasks c s), []).
Proof.
  unfold stopT3Rtx. rewrite SctpRuns.bind_gets_at. destruct (mTaskT3Rtx s); cbn; [by eexists|].
  exists (mTasks s). by destruct s.
Qed.

(** What the receiver has. *)
Definition received (r : t) (x : Z) : bool :=
  (i32 (x - mPeerCumulativeTsn r) <=? 0) || setMember x (mPeerOutOfOrderTsns r).

Definition near (r : t) (c : SentChunk) : Prop :=
  i32 (tsn c - mPeerCumulativeTsn r) <= 0 \/ distance r (tsn c) < 2 ^ 16.

#[global] Instance near_dec r c : Decision (near r c).
Proof. unfold near. apply _. Defined.

Lemma acked_received r cs : receiver_ok r -> Forall (fun c => is_u32 (tsn c) /\ 0 <= payloadSize c) cs -> Forall (near r) cs ->
  List.filter (fun c => negb (covers (gapBlocks r) (u16 (tsn c - mPeerCumulativeTsn r))))
    (List.filter (fun c => negb (cumAcked (mPeerCumulativeTsn r) c)) cs) =
  List.filter (fun c => negb (received r (tsn c))) cs.
Proof.
  intros Hr Hs Hn. rewrite filter_filter. induction cs as [|c cs IH]; [done|].
  apply list.Forall_cons in Hs as [[Hc _] Hs], Hn as [Hcn Hn]. cbn. rewrite (IH Hs Hn).
  assert (negb (cumAcked (mPeerCumulativeTsn r) c) && negb (covers (gapBlocks r) (u16 (tsn c - mPeerCumulativeTsn r))) =
    negb (received r (tsn c))) as ->; [|done].
  unfold cumAcked, received. rewrite negb_orb.
  destruct (Z.leb_spec (i32 (tsn c - mPeerCumulativeTsn r)) 0); [done|]. cbn [negb andb].
  f_equal. apply gapBlocks_cover; [done|done|]. destruct Hcn; [lia|done].
Qed.

Lemma onReceiveSack_at r x : receiver_ok r -> sender_ok x -> Forall (near r) (mSentChunks x) -> mPendingSend x = [] ->
  exists x', onReceiveSack (SctpPacket.mkChunk kChunkSack 0 (sackBody r)) x = Some (tt, x', []) /\
    mSentChunks x' = List.filter (fun c => negb (received r (tsn c))) (mSentChunks x) /\
    sender_ok x' /\ mPeerRwnd x' = kInitRwnd /\ (mSentChunks x' = [] -> mTaskT3Rtx x' = None).
Proof.
  intros Hr Hx Hn Hp. destruct (readSack_written r Hr) as [Hread Hlen]. unfold onReceiveSack.
  cbn [SctpPacket.data]. destruct (Nat.ltb_spec (length (sackBody r)) 12); [lia|].
  rewrite Hread, SctpRuns.bind_lift_at. cbv beta iota.
  rewrite SctpRuns.bind_modify_at, SctpRuns.bind_gets_at, SctpRuns.bind_modify_at, SctpRuns.bind_modify_at, SctpRuns.bind_gets_at.
  assert (sender_ok (set_mPeerRwnd kInitRwnd x)) as Hx1 by (destruct Hx; by constructor).
  destruct (ackBlocks_sender (mPeerCumulativeTsn r) (gapBlocks r) _ (ackChunks_sender (cumAcked (mPeerCumulativeTsn r)) _ Hx1)) as [Hx2 Hc2].
  set (x2 := fold_left _ _ _) in *. cbn in Hc2. rewrite (acked_received r) in Hc2 by (done || apply Hx).
  assert (mPendingSend x2 = []) as Hp2 by (subst x2; by rewrite (ackBlocks_keeps mPendingSend)).
  assert (mPeerRwnd x2 = kInitRwnd) as Hw2 by (subst x2; by rewrite (ackBlocks_keeps mPeerRwnd)).
  clearbody x2. clear Hx1. rewrite <- Hc2. unfold SctpRuns.keeps.
  assert (Htail : forall y b, mPendingSend y = [] -> when b transmitPending y = Some (tt, y, [])).
  { intros y [] Hy; [|done]. unfold when, transmitPending. rewrite SctpRuns.bind_get_at, Hy. cbn [length pending_loop].
    by rewrite SctpRuns.bind_get_at, Hy. }
  destruct (mSentChunks x2) as [|c cs] eqn:Ec.
  - cbn [length Nat.eqb]. destruct (stopT3Rtx_at x2) as [tasks E]. unfold bind. rewrite E, Htail by done.
    eexists. split; [done|]. split_and!; [done| |done|done]. destruct Hx2; by constructor.
  - cbn [length Nat.eqb]. unfold bind at 1. destruct (_ <? _)%nat.
    + destruct (startT3Rtx_at x2) as (a & n & tasks & E). cbn [when]. rewrite E, (Htail _ true) by done.
      eexists. split; [done|]. split_and!; [done| |done|by cbn; rewrite Ec]. destruct Hx2; by constructor.
    + cbn. exists x2. split_and!; [done|done|done|done|by rewrite Ec].
Qed.

(** A SACK that one session writes and another reads: after it, the sender keeps
    exactly the chunks whose TSNs the receiver has neither cumulatively nor out of
    order, its flight size is the payload of those, it knows the receiver's window,
    and its retransmission timer runs on only if a chunk is left. *)
Theorem sack_roundtrip r x :
  receiver_ok r -> sender_ok x -> Forall (near r) (mSentChunks x) -> mPendingSend x = [] ->
  exists x', onReceiveSack (SctpPacket.mkChunk kChunkSack 0 (sackBody r)) x = Some (tt, x', []) /\
    mSentChunks x' = List.filter (fun c => negb (received r (tsn c))) (mSentChunks x) /\
    mFlightSize x' = total (mSentChunks x') /\ mPeerRwnd x' = kInitRwnd /\
    (mSentChunks x' = [] -> mTaskT3Rtx x' = None).
Proof.
  intros Hr Hx Hn Hp. destruct (onReceiveSack_at r x Hr Hx Hn Hp) as (x' & E & Hc & Hx' & Hw & Ht).
  exists x'. split_and!; [done|done|apply Hx'|done|done].
Qed.

Definition demo_sender : t :=
  set_mFlightSize 60 (set_mSentChunks (map (fun n => mkSent (u32 n) 3 10 []) [4294967294; 4294967295; 4294967296; 4294967297; 4294967298; 4294967300])
    SctpRuns.demo_session).

Definition demo_gaps : t := set_mPeerOutOfOrderTsns [1; 2; 4] (set_mPeerCumulativeTsn 0xFFFFFFFE SctpRuns.demo_session).

(** Received: up to 2^32 - 2, and 1, 2 and 4 after the wrap; 0 and 2^32 - 1 are left. *)
Lemma sack_roundtrip_witness :
  exists x', onReceiveSack (SctpPacket.mkChunk kChunkSack 0 (sackBody demo_gaps)) demo_sender = Some (tt, x', []) /\
    map tsn (mSentChunks x') = [0xFFFFFFFF; 0] /\ mFlightSize x' = 20.
Proof.
  destruct (sack_roundtrip demo_gaps demo_sender) as (x' & E & Hc & Hf & _ & _).
  - constructor; [unfold is_u32; cbn; lia| |repeat constructor; lia|cbn; lia].
    apply (bool_decide_unpack (Forall _ _)). vm_compute. reflexivity.
  - constructor; [|reflexivity|cbn; lia]. apply (bool_decide_unpack (Forall _ _)). vm_compute. reflexivity.
  - apply (bool_decide_unpack (Forall _ _)). vm_compute. reflexivity.
  - reflexivity.
  - exists x'. split; [exact E|]. rewrite Hf, Hc. split; vm_compute; reflexivity.
Defined.


End Acks.

(** ** The handshake *)

Module Handshake.

Import SctpSession Defs SctpRuns.

Record config_ok (s : t) : Prop := {
  config_local : is_u16 (mLocalPort s);
  config_remote : is_u16 (mRemotePort s);
  config_tag : is_u32 (mInitiateTag s);
  config_tsn : is_u32 (mInitialTsn s)
}.

(** A packet of one chunk that the wrong entry of the checksum's table does not
    touch: no 0xB5 as the second of a group of four bytes. *)
Definition lucky (type flags : Z) (data : list Z) : Prop :=
  PacketWire.every4 (PacketWire.encode (SctpPacket.mkChunk type flags data)) = true.

Lemma buildPacket_chunks s tag type flags data :
  buildPacket s tag type flags data =
  PacketWire.build_chunks 0 (mLocalPort s) (mRemotePort s) tag [SctpPacket.mkChunk type flags data].
Proof. done. Qed.

Lemma datagram_config s s' tag type flags data : config s = config s' ->
  datagram s tag type flags data = datagram s' tag type flags data.
Proof. intros E. unfold datagram, buildPacket. by rewrite E. Qed.

Lemma datagram_parse s tag type flags data :
  config_ok s -> is_u32 tag -> PacketWire.chunk_ok (SctpPacket.mkChunk type flags data) -> lucky type flags data ->
  SctpPacket.parse 0 0 (datagram s tag type flags data) =
  Some (Some (SctpPacket.mk (mLocalPort s) (mRemotePort s) tag [SctpPacket.mkChunk type flags data])).
Proof.
  intros Hs Ht Hc Hl.
  destruct (PacketWire.build_parse_clean (mLocalPort s) (mRemotePort s) tag [SctpPacket.mkChunk type flags data])
    as (bytes & E & Hp); [apply Hs|apply Hs|done|by constructor| |].
  - unfold lucky in Hl. cbn [fmap list_fmap mjoin list_join]. by rewrite app_nil_r.
  - unfold datagram. by rewrite buildPacket_chunks, E.
Qed.

Section Crypto.
Context `{HE : !Evp, HL : !EvpLaws}.
#[local] Set Default Proof Using "Type*".

(** A packet of one chunk reaches the handler of its chunk. *)
Lemma receive_datagram now s tag type flags data (s' : t) :
  config_ok s -> is_u32 tag -> PacketWire.chunk_ok (SctpPacket.mkChunk type flags data) -> lucky type flags data ->
  tag = (if type =? kChunkInit then 0 else mInitiateTag s') ->
  onReceiveData now (datagram s tag type flags data) s' = onChunk now (SctpPacket.mkChunk type flags data) s'.
Proof using HE.
  intros Hs Ht Hc Hl E. unfold onReceiveData. rewrite datagram_parse, bind_lift_at by done.
  unfold onPacket. rewrite bind_get_at. unfold expectedTag.
  cbn [SctpPacket.mVerificationTag SctpPacket.mChunks SctpPacket.type]. rewrite <- E, Z.eqb_refl. cbn [negb forEach].
  unfold bind, ret. destruct (onChunk now _ s') as [[[[] s2] es]|]; [|done]. by rewrite app_nil_r.
Qed.

(** *** What is in the packets *)

Definition init_fields (s : t) : list Z :=
  be_bytes 4 (mInitiateTag s) ++ be_bytes 4 kInitRwnd ++ be_bytes 2 kInitStreams ++ be_bytes 2 kInitStreams ++
  be_bytes 4 (mInitialTsn s).

Lemma initBody_value s : initBody s = init_fields s ++ be_bytes 2 kParamForwardTsnSupported ++ be_bytes 2 4.
Proof. unfold initBody, init_fields. by rewrite !Wire.writeU16_be, !Wire.writeU32_be, <- !app_assoc. Qed.

Lemma initAckBody_value s ck : Z.of_nat (length ck) + 4 < 2 ^ 16 ->
  initAckBody s ck = init_fields s ++ be_bytes 2 kParamStateCookie ++ be_bytes 2 (4 + Z.of_nat (length ck)) ++ ck ++
    be_bytes 2 kParamForwardTsnSupported ++ be_bytes 2 4.
Proof.
  intros H. unfold initAckBody, init_fields, ByteWriter.write. rewrite u16_small by (unfold is_u16; lia).
  by rewrite !Wire.writeU16_be, !Wire.writeU32_be, <- !app_assoc.
Qed.

Lemma readInit_fields s rest type flags : config_ok s ->
  readInit (SctpPacket.mkChunk type flags (init_fields s ++ rest)) =
  Some (mInitiateTag s, kInitRwnd, kInitStreams, kInitStreams, mInitialTsn s).
Proof.
  intros Hs. unfold readInit, init_fields. cbn [SctpPacket.data]. rewrite ByteReader.make_reader_at, <- !app_assoc.
  rewrite Wire.readU32_be by apply Hs. cbn [mbind option_bind].
  rewrite Wire.readU32_be by (unfold is_u32, kInitRwnd; lia). cbn [mbind option_bind].
  rewrite Wire.readU16_be by (unfold is_u16, kInitStreams; lia). cbn [mbind option_bind].
  rewrite Wire.readU16_be by (unfold is_u16, kInitStreams; lia). cbn [mbind option_bind].
  rewrite Wire.readU32_be by apply Hs. cbn [mbind option_bind]. done.
Qed.

Lemma length_init_fields s : length (init_fields s) = 16%nat.
Proof. unfold init_fields. by rewrite !length_app, !length_be_bytes. Qed.

Lemma init_fields_ok s : bytes_ok (init_fields s).
Proof. unfold init_fields. rewrite !bytes_ok_app. split_and!; apply be_bytes_ok. Qed.

(** The parameters of an INIT ACK: the cookie comes first. *)
Lemma params_cookie s ck type flags : (length ck = 56)%nat ->
  exists ps, SctpPacket.parseParams (SctpPacket.mkChunk type flags (initAckBody s ck)) 16 =
    Some (SctpPacket.mkParam kParamStateCookie ck :: ps).
Proof.
  intros Hl. unfold SctpPacket.parseParams. cbn [SctpPacket.data]. rewrite initAckBody_value by lia.
  set (q := SctpPacket.mkParam kParamStateCookie ck).
  set (tl := be_bytes 2 kParamForwardTsnSupported ++ be_bytes 2 4).
  assert (be_bytes 2 kParamStateCookie ++ be_bytes 2 (4 + Z.of_nat (length ck)) ++ ck ++ tl = PacketWire.encode_param q ++ tl) as ->.
  { unfold PacketWire.encode_param. cbn [q SctpPacket.ptype SctpPacket.pdata]. rewrite <- !app_assoc.
    unfold PacketWire.padding. by rewrite Hl. }
  rewrite length_app, length_init_fields.
  destruct (Nat.ltb_spec (16 + length (PacketWire.encode_param q ++ tl)) 16); [lia|].
  rewrite ByteReader.make_reader_at, ByteReader.skip_at by by rewrite length_init_fields. cbn [mbind option_bind app].
  rewrite PacketWire.params_loop_encode by (subst q; cbn [SctpPacket.ptype SctpPacket.pdata]; rewrite ?Hl; unfold is_u16, kParamStateCookie; lia).
  destruct (PacketWire.params_safe (16 + length (PacketWire.encode_param q ++ tl)) (init_fields s ++ PacketWire.encode_param q) tl)
    as (ps & -> & _); [apply bytes_ok_app; split; apply be_bytes_ok|rewrite length_app; cbn [Nat.add]; lia|].
  by exists ps.
Qed.

(** *** Step by step *)

(** What setting up an association leaves alone. *)
Record same (a a' : t) : Prop := {
  same_config : config a' = config a;
  same_channels : mDataChannels a' = mDataChannels a;
  same_sent : mSentChunks a' = mSentChunks a;
  same_pending : mPendingSend a' = mPendingSend a;
  same_flight : mFlightSize a' = mFlightSize a;
  same_tsn : mCurrentTsn a' = mCurrentTsn a;
  same_set : mPeerOutOfOrderTsns a' = mPeerOutOfOrderTsns a;
  same_queue : mDataSendQueue a' = mDataSendQueue a
}.

Definition init_packet (a : t) : list Z := datagram a 0 kChunkInit 0 (initBody a).

Lemma start_at a : exists a1, start a = Some (tt, a1, [Packet (init_packet a)]) /\
  same a a1 /\ mState a1 = CookieWait.
Proof.
  unfold start, sendInit. change (kMaxInitRetransmits <? Z.of_nat 0) with false. cbv iota.
  rewrite bind_get_at, bind_sendChunk_at, bind_modify_at.
  unfold submit, bind, get, modify, ret. cbn. eexists. split; [done|]. by split.
Qed.

(** The cookie that [b] makes for [a]. *)
Definition cookie_for (now : Z) (a b : t) : list Z :=
  cookie b (cookieFields b now (mInitiateTag a) (mInitialTsn a) kInitRwnd kInitStreams kInitStreams).

Lemma cookieFields_value s now tag tsn rwnd out in_ :
  cookieFields s now tag tsn rwnd out in_ =
  be_bytes 4 now ++ be_bytes 4 kCookieLifetime ++
  (be_bytes 2 (mLocalPort s) ++ be_bytes 2 (mRemotePort s) ++ be_bytes 4 (mInitiateTag s) ++ be_bytes 4 (mInitialTsn s)) ++
  be_bytes 4 tag ++ (be_bytes 4 tsn ++ be_bytes 4 rwnd ++ be_bytes 2 out ++ be_bytes 2 in_).
Proof. unfold cookieFields. by rewrite !Wire.writeU16_be, !Wire.writeU32_be, <- !app_assoc. Qed.

Lemma length_cookieFields s now tag tsn rwnd out in_ : length (cookieFields s now tag tsn rwnd out in_) = kCookieDataSize.
Proof. rewrite cookieFields_value, !length_app, !length_be_bytes. done. Qed.

Lemma cookieFields_ok s now tag tsn rwnd out in_ : bytes_ok (cookieFields s now tag tsn rwnd out in_).
Proof. rewrite cookieFields_value, !bytes_ok_app. split_and!; apply be_bytes_ok. Qed.

Lemma length_cookie_for now a b : length (cookie_for now a b) = 56%nat.
Proof.
  unfold cookie_for, cookie, ByteWriter.write. by rewrite length_app, hmac_length, length_cookieFields.
Qed.

Lemma cookie_for_ok now a b : bytes_ok (cookie_for now a b).
Proof. unfold cookie_for, cookie, ByteWriter.write. apply bytes_ok_app. split; [apply cookieFields_ok|apply hmac_bytes]. Qed.

Definition init_ack_packet (now : Z) (a b : t) : list Z :=
  datagram b (mInitiateTag a) kChunkInitAck 0 (initAckBody b (cookie_for now a b)).

Lemma length_initBody a : length (initBody a) = 20%nat.
Proof. by rewrite initBody_value, !length_app, length_init_fields, !length_be_bytes. Qed.

Lemma onReceiveInit_at now a (b : t) : config_ok a -> mInitiateTag a <> mInitiateTag b ->
  onReceiveInit now (SctpPacket.mkChunk kChunkInit 0 (initBody a)) b =
  Some (tt, setPeer kInitRwnd kInitStreams kInitStreams (mInitialTsn a) b, [Packet (init_ack_packet now a b)]).
Proof.
  intros Ha Hne. unfold onReceiveInit. cbn [SctpPacket.data]. rewrite length_initBody. cbn [Nat.ltb Nat.leb].
  rewrite initBody_value, readInit_fields, bind_lift_at by done. cbv beta iota. rewrite bind_get_at.
  destruct (Z.eqb_spec (mInitiateTag a) (mInitiateTag b)); [done|]. by rewrite bind_modify_at, sendChunk_at.
Qed.

Definition cookie_echo_packet (now : Z) (a b : t) : list Z :=
  datagram a (mInitiateTag b) kChunkCookieEcho 0 (cookie_for now a b).

Lemma length_initAckBody s ck : length ck = 56%nat -> length (initAckBody s ck) = 80%nat.
Proof. intros H. rewrite initAckBody_value, !length_app, length_init_fields, !length_be_bytes by lia. lia. Qed.

Lemma buildPacket_datagram s tag type flags data : buildPacket s tag type flags data = Some (datagram s tag type flags data).
Proof. unfold datagram. by destruct (buildPacket_some s tag type flags data) as [? ->]. Qed.

Lemma cancel_at p s : exists c, cancel p s = Some (tt, set_mTasks c s, []).
Proof. destruct p; cbn; [by eexists|]. exists (mTasks s). by destruct s. Qed.

Lemma onInitAck_at now a b : config_ok b -> mState a = CookieWait ->
  exists a2, onInitAck (SctpPacket.mkChunk kChunkInitAck 0 (initAckBody b (cookie_for now a b))) a =
    Some (tt, a2, [Packet (cookie_echo_packet now a b)]) /\
    same a a2 /\ mState a2 = CookieEchoed /\ mPeerTag a2 = mInitiateTag b /\
    mPeerCumulativeTsn a2 = u32 (mInitialTsn b - 1) /\ mPeerRwnd a2 = kInitRwnd.
Proof.
  intros Hb Hw. unfold onInitAck. rewrite bind_get_at. cbn [SctpPacket.data].
  rewrite bool_decide_eq_true_2, length_initAckBody by (done || apply length_cookie_for). cbn [negb orb Nat.ltb Nat.leb].
  rewrite initAckBody_value, readInit_fields, bind_lift_at by (done || rewrite length_cookie_for; lia).
  cbv beta iota. rewrite bind_modify_at. rewrite <- initAckBody_value by (rewrite length_cookie_for; lia).
  destruct (params_cookie b (cookie_for now a b) kChunkInitAck 0 (length_cookie_for now a b)) as (ps & ->).
  rewrite bind_lift_at. cbn [List.find SctpPacket.ptype]. rewrite Z.eqb_refl, bind_get_at.
  match goal with |- context [cancel ?p] => generalize p; intros ptr end.
  unfold bind at 1. match goal with |- context [cancel ptr ?s] => destruct (cancel_at ptr s) as [tasks ->] end.
  rewrite bind_modify_at, buildPacket_datagram, bind_lift_at, bind_modify_at.
  unfold sendCookieEcho. change (kMaxInitRetransmits <? Z.of_nat 0) with false. cbv iota. rewrite bind_get_at.
  unfold submit, bind, get, modify, ret, emit. cbn. eexists. split; [done|]. by split_and!.
Qed.

Definition cookie_ack_packet (a b : t) : list Z := datagram b (mInitiateTag a) kChunkCookieAck 0 [].

Lemma onReceiveCookieEcho_at now now' (a b b' : t) : config_ok a -> config b' = config b ->
  0 <= now -> now <= now' <= now + kCookieLifetime -> now + kCookieLifetime < 2 ^ 32 ->
  onReceiveCookieEcho now' (SctpPacket.mkChunk kChunkCookieEcho 0 (cookie_for now a b)) b' =
  Some (tt, b', [Packet (cookie_ack_packet a b)]).
Proof.
  intros Ha Hb H0 Hnow Hbound. unfold onReceiveCookieEcho. cbn [SctpPacket.data].
  rewrite length_cookie_for. cbn [kCookieTotalSize kCookieDataSize kCookieHmacSize Nat.add Nat.ltb Nat.leb].
  rewrite bind_get_at. rewrite Hb. pose proof (length_cookie_for now a b) as Hlen.
  pose proof (cookie_for_ok now a b) as Hok.
  assert (take kCookieDataSize (cookie_for now a b) =
    cookieFields b now (mInitiateTag a) (mInitialTsn a) kInitRwnd kInitStreams kInitStreams) as Ht.
  { unfold cookie_for, cookie, ByteWriter.write. apply take_length_app. by rewrite length_cookieFields. }
  assert (drop kCookieDataSize (cookie_for now a b) = evp_hmac_sha1 (mHmacKey b) (take kCookieDataSize (cookie_for now a b))) as Hd.
  { rewrite Ht. unfold cookie_for, cookie, ByteWriter.write. apply drop_length_app. by rewrite length_cookieFields. }
  rewrite <- Hd, constTimeEqual_spec, bool_decide_eq_true_2, bind_lift_at
    by (done || apply bytes_ok_drop, Hok || rewrite length_drop, Hlen; unfold kCookieDataSize, kCookieHmacSize; lia).
  cbn [negb]. unfold readCookie. cbn [SctpPacket.data]. rewrite take_ge by (rewrite Hlen; unfold kCookieTotalSize, kCookieDataSize, kCookieHmacSize; lia).
  unfold cookie_for at 1, cookie, ByteWriter.write. rewrite cookieFields_value, <- !app_assoc, ByteReader.make_reader_at.
  unfold kCookieLifetime in *.
  rewrite Wire.readU32_be by (unfold is_u32; lia). cbn [mbind option_bind].
  rewrite Wire.readU32_be by (unfold is_u32; lia). cbn [mbind option_bind].
  match goal with |- context [ByteReader.skip (ByteReader.reader_at ?p (?x1 ++ ?x2 ++ ?x3 ++ ?x4 ++ ?rest)) 12] =>
    replace (x1 ++ x2 ++ x3 ++ x4 ++ rest) with ((x1 ++ x2 ++ x3 ++ x4) ++ rest) by (by rewrite <- !app_assoc) end.
  rewrite ByteReader.skip_at by (by rewrite !length_app, !length_be_bytes). cbn [mbind option_bind].
  rewrite Wire.readU32_be by apply Ha. cbn [mbind option_bind].
  rewrite bind_lift_at. cbv beta iota. rewrite u32_small by (unfold is_u32; lia).
  destruct (Z.ltb_spec (now + 60) now'); [lia|]. rewrite sendChunk_at. unfold cookie_ack_packet.
  by rewrite (datagram_config b' b).
Qed.

(** The OPEN messages of the channels [cs], the first with the TSN [tsn]. *)
Fixpoint open_packets (s : t) (tsn : Z) (cs : list DataChannel) : list Event :=
  match cs with
  | [] => []
  | c :: cs =>
      Packet (datagram s (mPeerTag s) kChunkData kDataFlagComplete
        (dataBody tsn (streamId c) 0 kPpidDcep (openPayload (label c)))) :: open_packets s (u32 (tsn + 1)) cs
  end.

Lemma open_packets_ext s s' cs : config s = config s' -> mPeerTag s = mPeerTag s' ->
  forall tsn, open_packets s tsn cs = open_packets s' tsn cs.
Proof.
  intros Hc Ht. induction cs as [|c cs IH]; intros tsn; [done|]. cbn [open_packets].
  by rewrite IH, Ht, (datagram_config s s').
Qed.

Lemma alter_middle {A} (f : A -> A) l1 x l2 : alter f (length l1) (l1 ++ x :: l2) = l1 ++ f x :: l2.
Proof. induction l1 as [|y l1 IH]; [done|]. cbn. by f_equal. Qed.

(** What opening channels leaves alone. *)
Record same_peer (s s' : t) : Prop := {
  peer_config : config s' = config s;
  peer_state : mState s' = mState s;
  peer_tag : mPeerTag s' = mPeerTag s;
  peer_rwnd : mPeerRwnd s' = mPeerRwnd s;
  peer_cum : mPeerCumulativeTsn s' = mPeerCumulativeTsn s
}.

Lemma sendDataChannelOpen_at done c cs s : mDataChannels s = done ++ c :: cs ->
  exists s', sendDataChannelOpen (length done) c s =
    Some (tt, s', [Packet (datagram s (mPeerTag s) kChunkData kDataFlagComplete
      (dataBody (mCurrentTsn s) (streamId c) 0 kPpidDcep (openPayload (label c))))]) /\
    same_peer s s' /\ mCurrentTsn s' = u32 (mCurrentTsn s + 1) /\
    mDataChannels s' = done ++ set_state kOpening c :: cs.
Proof.
  intros Hs. unfold sendDataChannelOpen, sendDcep. rewrite bind_gets_at.
  unfold bind at 1. rewrite sendFragment_at. cbn zeta. unfold updateChannel. rewrite bind_modify_at.
  destruct (_ =? _)%nat; cbn [when].
  - match goal with |- context [startT3Rtx ?s1] => destruct (Acks.startT3Rtx_at s1) as (x & y & z & ->) end.
    eexists. split; [done|]. split; [done|]. split; [done|]. cbn. by rewrite Hs, alter_middle.
  - eexists. split; [done|]. split; [done|]. split; [done|]. cbn. by rewrite Hs, alter_middle.
Qed.

Lemma open_loop_at cs : forall done s, mDataChannels s = done ++ cs ->
  exists s', open_loop (length done) cs s = Some (tt, s', open_packets s (mCurrentTsn s) cs) /\
    same_peer s s' /\ mDataChannels s' = done ++ map (set_state kOpening) cs.
Proof.
  induction cs as [|c cs IH]; intros done s Hs; [by exists s|]. cbn [open_loop open_packets map].
  destruct (sendDataChannelOpen_at done c cs s Hs) as (s1 & E1 & Hp1 & Htsn & Hc1).
  unfold bind. rewrite E1. destruct (IH (done ++ [set_state kOpening c]) s1) as (s2 & E2 & Hp2 & Hc2); [by rewrite Hc1, <- app_assoc|].
  rewrite length_app, Nat.add_1_r in E2. rewrite E2. exists s2. split_and!.
  - rewrite Htsn, (open_packets_ext s1 s) by apply Hp1. done.
  - destruct Hp1, Hp2. constructor; congruence.
  - by rewrite Hc2, <- app_assoc.
Qed.

Lemma onCookieAck_at s : mState s = CookieEchoed ->
  exists s', onCookieAck s = Some (tt, s', open_packets s (mCurrentTsn s) (mDataChannels s)) /\
    config s' = config s /\ mState s' = Established /\ mPeerTag s' = mPeerTag s /\ mPeerRwnd s' = mPeerRwnd s /\
    mPeerCumulativeTsn s' = mPeerCumulativeTsn s /\ mDataChannels s' = map (set_state kOpening) (mDataChannels s).
Proof.
  intros Hs. unfold onCookieAck. rewrite bind_get_at, bool_decide_eq_true_2 by done. cbn [when].
  unfold bind at 1. destruct (cancel_at (mTaskT1Cookie s) s) as [tasks ->]. rewrite bind_modify_at.
  unfold onAssociationEstablished. rewrite bind_get_at.
  match goal with |- context [open_loop 0 _ ?s1] => set (s1' := s1) end.
  destruct (open_loop_at (mDataChannels s) [] s1') as (s2 & E & Hp & Hc); [done|]. cbn [length] in E.
  change (mDataChannels s1') with (mDataChannels s). rewrite E.
  exists s2. destruct Hp. split_and!; try done. by rewrite (open_packets_ext s1' s).
Qed.

Lemma chunk_ok_intro ty fl d : is_u8 ty -> is_u8 fl -> bytes_ok d -> Z.of_nat (length d) <= 65000 ->
  PacketWire.chunk_ok (SctpPacket.mkChunk ty fl d).
Proof.
  intros Ht Hf Hd Hl. unfold PacketWire.chunk_ok. cbn [SctpPacket.type SctpPacket.flags SctpPacket.data].
  split_and!; [done..|]. lia.
Qed.

Lemma onChunk_init now d (s : t) : onChunk now (SctpPacket.mkChunk kChunkInit 0 d) s = onReceiveInit now (SctpPacket.mkChunk kChunkInit 0 d) s.
Proof. reflexivity. Qed.
Lemma onChunk_init_ack now d (s : t) : onChunk now (SctpPacket.mkChunk kChunkInitAck 0 d) s = onInitAck (SctpPacket.mkChunk kChunkInitAck 0 d) s.
Proof. reflexivity. Qed.
Lemma onChunk_cookie_echo now d (s : t) : onChunk now (SctpPacket.mkChunk kChunkCookieEcho 0 d) s = onReceiveCookieEcho now (SctpPacket.mkChunk kChunkCookieEcho 0 d) s.
Proof. reflexivity. Qed.
Lemma onChunk_cookie_ack now d (s : t) : onChunk now (SctpPacket.mkChunk kChunkCookieAck 0 d) s = onCookieAck s.
Proof. reflexivity. Qed.

Lemma receive_init now a (b : t) : config_ok a -> mInitiateTag a <> mInitiateTag b -> lucky kChunkInit 0 (initBody a) ->
  onReceiveData now (init_packet a) b =
  Some (tt, setPeer kInitRwnd kInitStreams kInitStreams (mInitialTsn a) b, [Packet (init_ack_packet now a b)]).
Proof.
  intros Ha Hne Hl. unfold init_packet. rewrite receive_datagram; [|exact Ha|unfold is_u32; lia| |exact Hl|reflexivity].
  - rewrite onChunk_init. by apply onReceiveInit_at.
  - apply chunk_ok_intro; [unfold is_u8, kChunkInit; lia|unfold is_u8; lia| |rewrite length_initBody; cbn; lia].
    rewrite initBody_value, !bytes_ok_app. split_and!; [apply init_fields_ok|apply be_bytes_ok|apply be_bytes_ok].
Qed.

Lemma receive_init_ack now a a1 (b : t) : config_ok a -> config_ok b -> config a1 = config a -> mState a1 = CookieWait ->
  lucky kChunkInitAck 0 (initAckBody b (cookie_for now a b)) ->
  exists a2, onReceiveData now (init_ack_packet now a b) a1 = Some (tt, a2, [Packet (cookie_echo_packet now a b)]) /\
    same a1 a2 /\ mState a2 = CookieEchoed /\ mPeerTag a2 = mInitiateTag b /\
    mPeerCumulativeTsn a2 = u32 (mInitialTsn b - 1) /\ mPeerRwnd a2 = kInitRwnd.
Proof.
  intros Ha Hb K1 W1 Hl. destruct (onInitAck_at now a1 b Hb W1) as (a2 & E2 & H2).
  assert (cookie_for now a1 b = cookie_for now a b) as Eck by (unfold cookie_for; by rewrite K1).
  exists a2. split; [|exact H2]. unfold init_ack_packet.
  rewrite receive_datagram; [|exact Hb|apply Ha| |exact Hl|by rewrite K1].
  - rewrite onChunk_init_ack, <- Eck, E2. unfold cookie_echo_packet. by rewrite Eck, (datagram_config a1 a).
  - apply chunk_ok_intro; [unfold is_u8, kChunkInitAck; lia|unfold is_u8; lia| |].
    + rewrite initAckBody_value, !bytes_ok_app by (rewrite length_cookie_for; lia).
      split_and!; try apply be_bytes_ok; [apply init_fields_ok|apply cookie_for_ok].
    + rewrite length_initAckBody by apply length_cookie_for. cbn; lia.
Qed.

Lemma receive_cookie_echo now now' (a b b' : t) : config_ok a -> config_ok b -> config b' = config b ->
  0 <= now -> now <= now' <= now + kCookieLifetime -> now + kCookieLifetime < 2 ^ 32 ->
  lucky kChunkCookieEcho 0 (cookie_for now a b) ->
  onReceiveData now' (cookie_echo_packet now a b) b' = Some (tt, b', [Packet (cookie_ack_packet a b)]).
Proof.
  intros Ha Hb Hb' H0 Hnow Hbound Hl. unfold cookie_echo_packet.
  rewrite receive_datagram; [|exact Ha|apply Hb| |exact Hl|by rewrite Hb'].
  - rewrite onChunk_cookie_echo. by apply onReceiveCookieEcho_at.
  - apply chunk_ok_intro; [unfold is_u8, kChunkCookieEcho; lia|unfold is_u8; lia|apply cookie_for_ok|].
    rewrite length_cookie_for. cbn; lia.
Qed.

Lemma receive_cookie_ack now (a a2 b : t) : config_ok a -> config_ok b -> config a2 = config a ->
  onReceiveData now (cookie_ack_packet a b) a2 = onCookieAck a2.
Proof.
  intros Ha Hb K2. unfold cookie_ack_packet.
  rewrite receive_datagram; [|exact Hb|apply Ha| |reflexivity|by rewrite K2].
  - apply onChunk_cookie_ack.
  - apply chunk_ok_intro; [unfold is_u8, kChunkCookieAck; lia|unfold is_u8; lia|constructor|cbn; lia].
Qed.

(** C8: The handshake: [a] sends INIT, [b] in whatever state answers with a cookie,
    [a] echoes it, [b] (in whatever later state) acknowledges it within the cookie's
    life of 60 s, and then [a] is Established, knows the tag, the window and the
    first TSN of [b], and has sent OPEN for every one of its channels.  Of the two
    answers only the first changes [b], which takes over what the INIT says.  The
    tags of the two must differ, and the packets must be such that the checksum's
    wrong entry does not touch them. *)
Theorem handshake_established now now' (a b b' : t) :
  config_ok a -> config_ok b -> config b' = config b -> mInitiateTag a <> mInitiateTag b ->
  0 <= now -> now <= now' <= now + kCookieLifetime -> now + kCookieLifetime < 2 ^ 32 ->
  lucky kChunkInit 0 (initBody a) -> lucky kChunkInitAck 0 (initAckBody b (cookie_for now a b)) ->
  lucky kChunkCookieEcho 0 (cookie_for now a b) ->
  exists a1 a2 a3,
    start a = Some (tt, a1, [Packet (init_packet a)]) /\
    onReceiveData now (init_packet a) b =
      Some (tt, setPeer kInitRwnd kInitStreams kInitStreams (mInitialTsn a) b, [Packet (init_ack_packet now a b)]) /\
    onReceiveData now (init_ack_packet now a b) a1 = Some (tt, a2, [Packet (cookie_echo_packet now a b)]) /\
    onReceiveData now' (cookie_echo_packet now a b) b' = Some (tt, b', [Packet (cookie_ack_packet a b)]) /\
    onReceiveData now' (cookie_ack_packet a b) a2 =
      Some (tt, a3, open_packets a2 (mCurrentTsn a) (mDataChannels a)) /\
    mState a3 = Established /\ mPeerTag a3 = mInitiateTag b /\ mPeerRwnd a3 = kInitRwnd /\
    mPeerCumulativeTsn a3 = u32 (mInitialTsn b - 1) /\
    mDataChannels a3 = map (set_state kOpening) (mDataChannels a).
Proof.
  intros Ha Hb Hb' Hne H0 Hnow Hbound L1 L2 L3.
  destruct (start_at a) as (a1 & E1 & S1 & W1).
  destruct (receive_init_ack now a a1 b Ha Hb (same_config _ _ S1) W1 L2) as (a2 & E2 & S2 & W2 & T2 & C2 & R2).
  destruct (onCookieAck_at a2 W2) as (a3 & E3 & K3 & W3 & T3 & R3 & C3 & D3).
  assert (config a2 = config a) as K2 by (rewrite (same_config _ _ S2); apply S1).
  assert (mDataChannels a2 = mDataChannels a) as D2 by (rewrite (same_channels _ _ S2); apply S1).
  assert (mCurrentTsn a2 = mCurrentTsn a) as Tsn2 by (rewrite (same_tsn _ _ S2); apply S1).
  exists a1, a2, a3. split; [exact E1|]. split; [by apply receive_init|]. split; [exact E2|].
  split; [by apply receive_cookie_echo|]. split; [|split_and!; congruence].
  rewrite receive_cookie_ack by assumption. by rewrite E3, Tsn2, D2.
Qed.

(** A cookie that this session made and that is still valid: long enough, the last
    20 of its first 56 bytes the HMAC of the 36 before them, its life not over. *)
Definition valid_cookie (now : Z) (s : t) (d : list Z) : Prop :=
  (kCookieTotalSize <= length d)%nat /\
  take 20 (drop 36 d) = evp_hmac_sha1 (mHmacKey s) (take 36 d) /\
  now <= u32 (be_value (take 4 d) + be_value (take 4 (drop 4 d))).

(** Cookies are authentic: in every state, a COOKIE ECHO of any bytes is
    answered exactly when it is long enough, the last 20 of its first 56 bytes are
    the HMAC, under the session's own key, of the 36 before them, and its life is
    not over; the state does not change either way. *)
Theorem cookie_authentic now c s : bytes_ok (SctpPacket.data c) ->
  exists es, onReceiveCookieEcho now c s = Some (tt, s, es) /\
    (es <> [] <-> valid_cookie now s (SctpPacket.data c)).
Proof.
  intros Hok. unfold onReceiveCookieEcho, valid_cookie. set (d := SctpPacket.data c) in *.
  destruct (Nat.ltb_spec (length d) kCookieTotalSize) as [Hs|Hl].
  { exists []. split; [done|]. split; [done|]. intros [H _]. lia. }
  rewrite bind_get_at. change kCookieDataSize with 36%nat. change kCookieHmacSize with 20%nat.
  change kCookieTotalSize with 56%nat in *.
  rewrite constTimeEqual_spec, bind_lift_at
    by (eauto using hmac_bytes with srtc || rewrite ?length_drop, ?hmac_length; lia).
  rewrite (take_ge (evp_hmac_sha1 _ _)) by by rewrite hmac_length.
  destruct (bool_decide_reflect (take 20 (drop 36 d) = evp_hmac_sha1 (mHmacKey s) (take 36 d))) as [E|E]; cbn [negb].
  2: { exists []. split; [done|]. split; [done|]. intros (_ & H & _). done. }
  assert (exists tag, readCookie c = Some (be_value (take 4 d), be_value (take 4 (drop 4 d)), tag)) as [tag Er].
  { unfold readCookie. fold d. change kCookieTotalSize with 56%nat. clear E.
    do 8 (destruct d as [|? d]; [cbn in Hl; lia|]). cbn [length] in Hl.
    repeat match goal with H : bytes_ok (_ :: _) |- _ => apply bytes_ok_cons_iff in H as [? H] end.
    cbn [take]. rewrite ByteReader.make_reader_at, ByteReader.readU32_at by done. cbn [mbind option_bind].
    rewrite ByteReader.readU32_at by done. cbn [mbind option_bind].
    assert (length (take 48 d) = 48%nat) as H48 by (rewrite length_take; lia).
    set (l := take 48 d) in *. clearbody l. read_some. read_some. by eexists. }
  rewrite Er, bind_lift_at. cbv beta iota.
  destruct (Z.ltb_spec (u32 (be_value (take 4 d) + be_value (take 4 (drop 4 d)))) now).
  - exists []. split; [done|]. split; [done|]. intros (_ & _ & H'). lia.
  - rewrite sendChunk_at. eexists. split; [done|]. by split.
Qed.

(** Two sessions that meet. *)
Definition demo_a : t := make 5000 5000 65536 false [[99; 104]] 1001 2001 11 12 13 14.
Definition demo_b : t := make 5000 5000 65536 true [] 1002 2002 21 22 23 24.

End Crypto.

Lemma demo_ends_ok : config_ok demo_a /\ config_ok demo_b.
Proof. split; constructor; unfold is_u16, is_u32; cbn; lia. Qed.

Lemma handshake_witness :
  exists a1 a2 a3, start demo_a = Some (tt, a1, [Packet (init_packet demo_a)]) /\
    @onReceiveData Demo.toy 100 (@init_ack_packet Demo.toy 100 demo_a demo_b) a1 =
      Some (tt, a2, [Packet (@cookie_echo_packet Demo.toy 100 demo_a demo_b)]) /\
    @onReceiveData Demo.toy 101 (cookie_ack_packet demo_a demo_b) a2 =
      Some (tt, a3, open_packets a2 2001 (mDataChannels demo_a)) /\
    mState a3 = Established.
Proof.
  destruct (@handshake_established Demo.toy Demo.toy_laws 100 101 demo_a demo_b demo_b) as
    (a1 & a2 & a3 & H1 & _ & H2 & _ & H3 & H4 & _).
  - apply demo_ends_ok.
  - apply demo_ends_ok.
  - reflexivity.
  - discriminate.
  - lia.
  - unfold kCookieLifetime. lia.
  - unfold kCookieLifetime. lia.
  - unfold lucky. vm_compute. reflexivity.
  - unfold lucky. vm_compute. reflexivity.
  - unfold lucky. vm_compute. reflexivity.
  - exists a1, a2, a3. split; [exact H1|]. split; [exact H2|]. split; [exact H3|exact H4].
Defined.

Definition demo_cookie : SctpPacket.Chunk := SctpPacket.mkChunk kChunkCookieEcho 0 (@cookie_for Demo.toy 100 demo_a demo_b).

Lemma cookie_authentic_witness :
  exists es, @onReceiveCookieEcho Demo.toy 101 demo_cookie demo_b = Some (tt, demo_b, es) /\ es <> [].
Proof.
  destruct (@cookie_authentic Demo.toy Demo.toy_laws 101 demo_cookie demo_b) as (es & E & H).
  - apply (bool_decide_unpack (bytes_ok _)). vm_compute. reflexivity.
  - exists es. split; [exact E|]. apply H. split; [vm_compute; lia|]. split; [vm_compute; reflexivity|].
    vm_compute. discriminate.
Defined.

End Handshake.
