(* ===== verification/SctpDelivery.v ===== *)
(** * Messages from one SCTP session to another

    [Delivery]: a message that one session sends is the message that the other
    delivers; what a message is cut into and how much is in flight.  [Edges]: the
    chunks whose checksum is always wrong. *)

From S2P Require Import Prelude Bytes Srtp SrtpProps Crc32c SctpPacket DataChannel SctpSession SctpRuns SctpProps.
From stdpp Require Import gmap sorting.
Open Scope Z_scope.

Module Delivery.

Import SctpSession Defs SctpRuns Handshake.

(** ** Receiving the fragments *)

Lemma list_find_alter {A} (P : A -> Prop) `{HP : !forall x, Decision (P x)} (f : A -> A) l j x :
  (forall y, P (f y) <-> P y) -> list_find P l = Some (j, x) -> list_find P (alter f j l) = Some (j, f x).
Proof.
  intros Hf H. apply list_find_Some in H as (Hj & Hp & Hbefore). apply list_find_Some.
  split_and!; [by rewrite list_lookup_alter_eq, Hj|by apply Hf|].
  intros k y Hk Hlt. rewrite list_lookup_alter_ne in Hk by lia. by eapply Hbefore.
Qed.

(** [b] has everything up to [cum] from its peer, nothing out of order, and finds
    [channel] at place [j] for the stream [sid]. *)
Record ready (b : t) (cum : Z) (sid : Z) (j : nat) (channel : DataChannel) : Prop := {
  ready_u32 : is_u32 cum;
  ready_cum : mPeerCumulativeTsn b = cum;
  ready_set : mPeerOutOfOrderTsns b = [];
  ready_channel : list_find (fun c => streamId c = sid) (mDataChannels b) = Some (j, channel)
}.

Definition delivery (l : list Z) (msg : DataChannelReceiveBuffer.Message) : Event :=
  let p := DataChannelReceiveBuffer.ppid msg in
  if (p =? kPpidString) || (p =? kPpidStringEmpty)
  then ChannelText l (DataChannelReceiveBuffer.data msg)
  else ChannelBinary l (DataChannelReceiveBuffer.data msg).

Lemma deliver_all l msgs s : forEach msgs (deliver l) s = Some (tt, s, map (delivery l) msgs).
Proof.
  induction msgs as [|m msgs IH]; [done|]. cbn [forEach map]. unfold bind, deliver, delivery, emit in *.
  destruct (_ || _); by rewrite IH.
Qed.

Lemma onMessageFragment_at sid ssn fl ppid p b cum j channel msgs buf :
  ready b cum sid j channel ->
  DataChannelReceiveBuffer.receive (receiveBuffer channel) ssn fl (unordered channel) ppid p = Some (msgs, buf) ->
  onMessageFragment sid ssn fl ppid p b =
  Some (tt, set_mDataChannels (alter (set_receiveBuffer buf) j (mDataChannels b)) b, map (delivery (label channel)) msgs).
Proof.
  intros [_ _ _ Hfind] Hr. unfold onMessageFragment. rewrite bind_get_at, Hfind, Hr, bind_lift_at.
  cbv beta iota. unfold updateChannel. by rewrite bind_modify_at, deliver_all.
Qed.

Lemma dataBody_value tsn sid ssn ppid p :
  dataBody tsn sid ssn ppid p = be_bytes 4 tsn ++ be_bytes 2 sid ++ be_bytes 2 ssn ++ be_bytes 4 ppid ++ p.
Proof. unfold dataBody, ByteWriter.write. by rewrite !Wire.writeU32_be, !Wire.writeU16_be, <- !app_assoc. Qed.

(** The next chunk in order: acknowledged, and its message handed out. *)
Lemma receive_next_chunk b cum sid j channel ssn fl ppid p msgs buf :
  ready b cum sid j channel -> is_u16 sid -> is_u16 ssn -> is_u32 ppid -> isMessagePpid ppid = true ->
  DataChannelReceiveBuffer.receive (receiveBuffer channel) ssn fl (unordered channel) ppid p = Some (msgs, buf) ->
  exists b' sack,
    onReceiveDataChunk (SctpPacket.mkChunk kChunkData fl (dataBody (u32 (cum + 1)) sid ssn ppid p)) b =
      Some (tt, b', Packet sack :: map (delivery (label channel)) msgs) /\
    ready b' (u32 (cum + 1)) sid j (set_receiveBuffer buf channel) /\ config b' = config b.
Proof.
  intros Hb Hsid Hssn Hppid Hm Hr. pose proof Hb as [Hu Hcum Hset Hfind]. unfold onReceiveDataChunk.
  cbn [SctpPacket.data SctpPacket.flags]. rewrite dataBody_value.
  rewrite !length_app, !length_be_bytes. match goal with |- context [(?n <? 12)%nat] => destruct (Nat.ltb_spec n 12); [lia|] end.
  rewrite ByteReader.make_reader_at.
  rewrite Wire.readU32_be, bind_lift_at by apply u32_range. cbv beta iota.
  rewrite Wire.readU16_be, bind_lift_at by done. cbv beta iota.
  rewrite Wire.readU16_be, bind_lift_at by done. cbv beta iota.
  rewrite Wire.readU32_be, bind_lift_at by done. cbv beta iota. rewrite bind_get_at.
  assert (isDuplicate b (u32 (cum + 1)) = false) as ->.
  { unfold isDuplicate. rewrite Hset, Hcum, orb_false_r. rewrite <- (u32_small cum) at 2 by done.
    pose proof (Account.i32_diff 0 (cum + 1) cum ltac:(lia)) as E. unfold Account.tsn_at in E. rewrite !Z.add_0_l in E.
    rewrite E. lia. }
  assert (recordTsn (u32 (cum + 1)) b = Some (set_mPeerCumulativeTsn (u32 (cum + 1)) b)) as ->.
  { unfold recordTsn. rewrite Hcum, Z.eqb_refl, Hset. cbn. by rewrite Hset. }
  rewrite bind_lift_at, bind_modify_at. unfold sendSack.
  unfold bind at 1. rewrite bind_get_at, sendChunk_at. unfold onPayload. rewrite Hm, ByteReader.current_at.
  rewrite (onMessageFragment_at sid ssn fl ppid p _ (u32 (cum + 1)) j channel msgs buf);
    [|constructor; [apply u32_range|done|done|done]|done].
  eexists _, _. split; [done|]. split; [|done]. constructor; [apply u32_range|done|done|].
  cbn. by apply list_find_alter.
Qed.

(** ** From packets *)

Definition app_events (es : list Event) : list Event :=
  List.filter (fun e => match e with Packet _ => false | _ => true end) es.

Lemma app_events_deliveries l msgs : app_events (map (delivery l) msgs) = map (delivery l) msgs.
Proof.
  induction msgs as [|m msgs IH]; [done|]. unfold app_events in *. cbn [map List.filter]. rewrite IH.
  unfold delivery at 1. by destruct (_ || _).
Qed.

Lemma app_events_app es es' : app_events (es ++ es') = app_events es ++ app_events es'.
Proof. apply List.filter_app. Qed.

(** The packets of fragments from the TSN [tsn] on. *)
Fixpoint data_packets (a : t) (tag tsn sid : Z) (fs : list (Z * Z * Z * list Z)) : list (list Z) :=
  match fs with
  | [] => []
  | (ssn, fl, ppid, p) :: fs =>
      datagram a tag kChunkData fl (dataBody tsn sid ssn ppid p) :: data_packets a tag (u32 (tsn + 1)) sid fs
  end.

Definition fragment_ok (f : Z * Z * Z * list Z) : Prop :=
  let '(ssn, fl, ppid, p) := f in
  is_u16 ssn /\ is_u8 fl /\ is_u32 ppid /\ isMessagePpid ppid = true /\ bytes_ok p /\ Z.of_nat (length p) <= 60000.

(** No packet of the fragments meets the wrong entry of the checksum's table. *)
Fixpoint all_lucky (tsn sid : Z) (fs : list (Z * Z * Z * list Z)) : Prop :=
  match fs with
  | [] => True
  | (ssn, fl, ppid, p) :: fs => lucky kChunkData fl (dataBody tsn sid ssn ppid p) /\ all_lucky (u32 (tsn + 1)) sid fs
  end.

#[global] Instance all_lucky_dec tsn sid fs : Decision (all_lucky tsn sid fs).
Proof.
  revert tsn. induction fs as [|[[[ssn fl] ppid] p] fs IH]; intros tsn; cbn [all_lucky]; [apply _|].
  unfold lucky. apply _.
Defined.

Section Crypto.
Context `{HE : !Evp}.
#[local] Set Default Proof Using "Type*".

Lemma receive_fragments now a tag sid fs : forall b cum j channel msgs buf,
  config_ok a -> is_u32 tag -> is_u16 sid -> Forall fragment_ok fs -> all_lucky (u32 (cum + 1)) sid fs ->
  ready b cum sid j channel -> mInitiateTag b = tag ->
  DataChannelReceiveBuffer.receive_all (receiveBuffer channel) (unordered channel) fs = Some (msgs, buf) ->
  exists b' es,
    forEach (data_packets a tag (u32 (cum + 1)) sid fs) (onReceiveData now) b = Some (tt, b', es) /\
    app_events es = map (delivery (label channel)) msgs /\
    ready b' (u32 (cum + Z.of_nat (length fs))) sid j (set_receiveBuffer buf channel) /\ config b' = config b.
Proof.
  induction fs as [|[[[ssn fl] ppid] p] fs IH]; intros b cum j channel msgs buf Ha Ht Hsid Hfs Hlucky Hb Htag Hr.
  - cbn in Hr. injection Hr as <- <-. exists b, []. cbn [data_packets forEach length map].
    split_and!; [done|done| |done]. rewrite Z.add_0_r, u32_small by apply Hb.
    destruct channel; exact Hb.
  - apply list.Forall_cons in Hfs as [(Hssn & Hfl & Hppid & Hm & Hp & Hlen) Hfs]. destruct Hlucky as [Hl Hlucky].
    cbn [DataChannelReceiveBuffer.receive_all] in Hr.
    destruct (DataChannelReceiveBuffer.receive _ _ _ _ _ _) as [[out buf1]|] eqn:E1; [|done]. cbn [mbind option_bind] in Hr.
    destruct (DataChannelReceiveBuffer.receive_all _ _ fs) as [[rest buf2]|] eqn:E2; [|done]. cbn [mbind option_bind] in Hr.
    injection Hr as <- <-.
    destruct (receive_next_chunk b cum sid j channel ssn fl ppid p out buf1 Hb Hsid Hssn Hppid Hm E1) as (b1 & sack & Ec & Hb1 & Hc1).
    destruct (IH b1 (u32 (cum + 1)) j (set_receiveBuffer buf1 channel) rest buf2 Ha Ht Hsid Hfs Hlucky Hb1) as (b2 & es & E & Hes & Hb2 & Hc2);
      [by rewrite Hc1|done|].
    cbn [data_packets forEach]. unfold bind at 1.
    rewrite receive_datagram; [|exact Ha|exact Ht| |exact Hl|by rewrite Htag].
    2: { apply chunk_ok_intro; [unfold is_u8, kChunkData; lia|done| |].
         - rewrite dataBody_value, !bytes_ok_app. split_and!; try apply be_bytes_ok. done.
         - rewrite dataBody_value, !length_app, !length_be_bytes. lia. }
    change (onChunk now (SctpPacket.mkChunk kChunkData fl (dataBody (u32 (cum + 1)) sid ssn ppid p)) b)
      with (onReceiveDataChunk (SctpPacket.mkChunk kChunkData fl (dataBody (u32 (cum + 1)) sid ssn ppid p)) b).
    rewrite Ec, E. eexists _, _. split; [done|]. split_and!.
    + cbn [app_events app List.filter]. fold (app_events (map (delivery (label channel)) out ++ es)).
      rewrite app_events_app, app_events_deliveries, Hes, map_app. done.
    + cbn [length]. replace (u32 (cum + Z.of_nat (S (length fs)))) with (u32 (u32 (cum + 1) + Z.of_nat (length fs))); [by destruct channel|].
      unfold u32. rewrite Zplus_mod_idemp_l. f_equal. lia.
    + by rewrite Hc2.
Qed.

End Crypto.

(** ** Sending a message *)

(** What a payload is cut into. *)
Fixpoint pieces (fuel : nat) (rest : list Z) : list (list Z) :=
  match rest, fuel with
  | [], _ => []
  | _, O => []
  | _, S fuel => take kMaxFragmentPayload rest :: pieces fuel (drop kMaxFragmentPayload rest)
  end.

Definition parts (p : list Z) : list (list Z) :=
  if (length p <=? kMaxFragmentPayload)%nat then [p] else pieces (length p) p.

Lemma pieces_join fuel : forall rest, (length rest <= fuel)%nat -> mjoin (pieces fuel rest) = rest.
Proof.
  induction fuel as [|fuel IH]; intros [|x rest] Hf; cbn [length] in Hf; try done; [lia|].
  cbn [pieces]. change (mjoin (?x :: ?l)) with (x ++ mjoin l). rewrite IH, take_drop; [done|].
  rewrite length_drop. unfold kMaxFragmentPayload. cbn [length]. lia.
Qed.

Lemma pieces_nil fuel rest : (length rest <= fuel)%nat -> pieces fuel rest = [] <-> rest = [].
Proof. destruct fuel, rest; cbn; split; try done; lia. Qed.

Lemma parts_join p : mjoin (parts p) = p.
Proof. unfold parts. destruct (_ <=? _)%nat; [apply app_nil_r|by apply pieces_join]. Qed.

Lemma parts_nonempty p : parts p <> [].
Proof.
  unfold parts. destruct (Nat.leb_spec (length p) kMaxFragmentPayload) as [|H]; [done|].
  rewrite pieces_nil by done. intros ->. cbn in H. unfold kMaxFragmentPayload in H. lia.
Qed.

Lemma pieces_size fuel : forall rest, Forall (fun f => (length f <= kMaxFragmentPayload)%nat) (pieces fuel rest).
Proof.
  induction fuel as [|fuel IH]; intros [|x rest]; cbn [pieces]; constructor; [|apply IH].
  rewrite length_take. lia.
Qed.

Lemma parts_size p : Forall (fun f => (length f <= kMaxFragmentPayload)%nat) (parts p).
Proof.
  unfold parts. destruct (Nat.leb_spec (length p) kMaxFragmentPayload); [by constructor; [|constructor]|apply pieces_size].
Qed.

(** The state after data was sent: what changed, and what did not. *)
Record sent (s : t) (n : nat) (size : Z) (s' : t) : Prop := {
  sent_config : config s' = config s;
  sent_state : mState s' = mState s;
  sent_channels : mDataChannels s' = mDataChannels s;
  sent_tag : mPeerTag s' = mPeerTag s;
  sent_rwnd : mPeerRwnd s' = mPeerRwnd s;
  sent_tsn : mCurrentTsn s' = u32 (mCurrentTsn s + Z.of_nat n);
  sent_flight : mFlightSize s' = u32 (mFlightSize s + size)
}.

Lemma sent_trans s1 s2 s3 n m x y : sent s1 n x s2 -> sent s2 m y s3 -> sent s1 (n + m) (x + y) s3.
Proof.
  intros [] []. constructor; try congruence.
  - rewrite sent_tsn1, sent_tsn0. unfold u32. rewrite Zplus_mod_idemp_l. f_equal. lia.
  - rewrite sent_flight1, sent_flight0. unfold u32. rewrite Zplus_mod_idemp_l. f_equal. lia.
Qed.

Lemma data_packets_ext a a' tag sid fs : config a = config a' -> forall tsn, data_packets a tag tsn sid fs = data_packets a' tag tsn sid fs.
Proof.
  intros H. induction fs as [|[[[ssn fl] ppid] p] fs IH]; intros tsn; [done|]. cbn [data_packets].
  by rewrite IH, (datagram_config a a').
Qed.

Lemma sendFragment_sent sid ssn ppid fl p s : exists s',
  sendFragment sid ssn ppid fl p s =
    Some (tt, s', map Packet (data_packets s (mPeerTag s) (mCurrentTsn s) sid [(ssn, fl, ppid, p)])) /\
  sent s 1 (Z.of_nat (length p)) s'.
Proof.
  rewrite sendFragment_at. eexists. split; [done|]. constructor; try done.
  cbn. unfold u32. by rewrite Zplus_mod_idemp_r.
Qed.

Lemma fragment_loop_at fuel sid ssn ppid : forall first rest s, (length rest <= fuel)%nat ->
  is_u32 (mCurrentTsn s) -> is_u32 (mFlightSize s) ->
  exists s', fragment_loop fuel sid ssn ppid 0 first rest s =
    Some (tt, s', map Packet (data_packets s (mPeerTag s) (mCurrentTsn s) sid (Reassembly.cut first ssn ppid (pieces fuel rest)))) /\
    sent s (length (pieces fuel rest)) (Z.of_nat (length rest)) s'.
Proof.
  induction fuel as [|fuel IH]; intros first [|x rest] s Hf Ht Hfl; cbn [length] in Hf; try lia.
  1, 2: (exists s; split; [done|]; constructor; try done; cbn; rewrite Z.add_0_r; by rewrite u32_small).
  set (l := x :: rest) in *. assert (Hl : length l = S (length rest)) by done.
  assert (Hne : l <> []) by done. clearbody l. destruct l as [|y l]; [done|]. cbn [fragment_loop pieces Reassembly.cut].
  assert (take (Nat.min (length (y :: l)) kMaxFragmentPayload) (y :: l) = take kMaxFragmentPayload (y :: l) /\
    drop (Nat.min (length (y :: l)) kMaxFragmentPayload) (y :: l) = drop kMaxFragmentPayload (y :: l)) as [-> ->].
  { destruct (decide (length (y :: l) <= kMaxFragmentPayload)%nat).
    - rewrite Nat.min_l, !take_ge, !drop_ge by lia. done.
    - by rewrite Nat.min_r by lia. }
  set (p := take kMaxFragmentPayload (y :: l)). set (r := drop kMaxFragmentPayload (y :: l)).
  assert (Hr : (length r <= fuel)%nat) by (subst r; rewrite length_drop; unfold kMaxFragmentPayload; lia).
  match goal with |- context [sendFragment sid ssn ppid ?fl p] => set (flags := fl) end.
  assert (flags = Z.lor (if first then kDataFlagB else 0) (if decide (pieces fuel r = []) then kDataFlagE else 0)) as ->.
  { subst flags. assert ((length (y :: l) <=? Nat.min (length (y :: l)) kMaxFragmentPayload)%nat = bool_decide (pieces fuel r = [])) as ->.
    { apply Bool.eq_iff_eq_true. rewrite Nat.leb_le, bool_decide_eq_true, pieces_nil by done.
      split; intros H.
      - subst r. apply drop_ge. lia.
      - apply (f_equal length) in H. subst r. rewrite length_drop in H. change (length (@nil Z)) with 0%nat in H. lia. }
    rewrite bool_decide_decide. by destruct first, (decide (pieces fuel r = [])). }
  set (flags := Z.lor _ _). unfold bind.
  destruct (sendFragment_sent sid ssn ppid flags p s) as (s1 & E1 & S1). rewrite E1.
  destruct (IH false r s1 Hr) as (s2 & E2 & S2);
    [rewrite (sent_tsn _ _ _ _ S1); apply u32_range|rewrite (sent_flight _ _ _ _ S1); apply u32_range|].
  rewrite E2. exists s2. split.
  - do 2 f_equal. cbn [data_packets map app]. f_equal. f_equal.
    rewrite (sent_tag _ _ _ _ S1), (sent_tsn _ _ _ _ S1). apply data_packets_ext, S1.
  - pose proof (sent_trans _ _ _ _ _ _ _ S1 S2) as HS. cbn [length Nat.add] in HS |- *.
    replace (Z.of_nat (S (length l))) with (Z.of_nat (length p) + Z.of_nat (length r)); [done|].
    subst p r. rewrite length_take, length_drop. cbn [length]. lia.
Qed.

Lemma startT3Rtx_keeps s : exists s', startT3Rtx s = Some (tt, s', []) /\
  config s' = config s /\ mState s' = mState s /\ mDataChannels s' = mDataChannels s /\ mPeerTag s' = mPeerTag s /\
  mPeerRwnd s' = mPeerRwnd s /\ mCurrentTsn s' = mCurrentTsn s /\ mFlightSize s' = mFlightSize s.
Proof. destruct (Acks.startT3Rtx_at s) as (a & b & c & E). eexists. split; [exact E|]. by split_and!. Qed.

(** A message on an ordered channel: its packets, and the state after. *)
Lemma sendMessageNow_at i ch m s :
  unordered ch = false -> is_u32 (mCurrentTsn s) -> is_u32 (mFlightSize s) ->
  let fs := Reassembly.cut true (sendSsn ch) (ppid_of m) (parts (payload m)) in
  exists s', sendMessageNow i ch m s =
    Some (tt, s', map Packet (data_packets s (mPeerTag s) (mCurrentTsn s) (streamId ch) fs)) /\
    sent (set_mDataChannels (alter (set_sendSsn (u16 (sendSsn ch + 1))) i (mDataChannels s)) s)
      (length (parts (payload m))) (Z.of_nat (length (payload m))) s'.
Proof.
  intros Hu Ht Hfl fs. unfold sendMessageNow, updateChannel. rewrite bind_modify_at, bind_gets_at, Hu.
  set (s0 := set_mDataChannels _ s).
  assert (Hbody : exists s1, (if (length (payload m) <=? kMaxFragmentPayload)%nat
      then sendFragment (streamId ch) (sendSsn ch) (ppid_of m) (Z.lor kDataFlagComplete 0) (payload m)
      else fragment_loop (length (payload m)) (streamId ch) (sendSsn ch) (ppid_of m) 0 true (payload m)) s0 =
      Some (tt, s1, map Packet (data_packets s0 (mPeerTag s0) (mCurrentTsn s0) (streamId ch) fs)) /\
      sent s0 (length (parts (payload m))) (Z.of_nat (length (payload m))) s1).
  { subst fs. unfold parts. destruct (_ <=? _)%nat; [|by apply fragment_loop_at].
    destruct (sendFragment_sent (streamId ch) (sendSsn ch) (ppid_of m) 3 (payload m) s0) as (s1 & E & HS). by exists s1. }
  destruct Hbody as (s1 & E1 & S1). unfold bind at 1. rewrite E1.
  change (data_packets s0 (mPeerTag s0) (mCurrentTsn s0)) with (data_packets s0 (mPeerTag s) (mCurrentTsn s)).
  rewrite (data_packets_ext s0 s) by done.
  destruct (_ =? _)%nat; cbn [when].
  - destruct (startT3Rtx_keeps s1) as (s2 & -> & ? & ? & ? & ? & ? & ? & ?). rewrite app_nil_r. exists s2. split; [done|].
    destruct S1. constructor; congruence.
  - unfold ret. rewrite app_nil_r. by exists s1.
Qed.

Lemma send_at i ch m s :
  mState s = Established -> findLabel (DataChannelMessage.label m) (mDataChannels s) = Some (i, ch) ->
  state ch = kOpen -> (mMaxMessageSize s = 0 \/ Z.of_nat (length (payload m)) <= mMaxMessageSize s) ->
  overflows s m = false -> send m s = sendMessageNow i ch m s.
Proof.
  intros Hst Hf Ho Hmax Hov. unfold send. rewrite bind_get_at, bool_decide_eq_true_2 by done. cbn [negb].
  rewrite Hf, bool_decide_eq_true_2 by done. cbn [negb].
  assert ((0 <? mMaxMessageSize s) && (mMaxMessageSize s <? Z.of_nat (length (payload m))) = false) as -> by lia.
  by rewrite Hov.
Qed.

(** ** The way of a message *)

(** What the application at the other end should see. *)
Definition message_event (l : list Z) (m : DataChannelMessage.t) : Event :=
  match DataChannelMessage.kind m with
  | DataChannelMessage.kText => ChannelText l (DataChannelMessage.text m)
  | DataChannelMessage.kBinary => ChannelBinary l (DataChannelMessage.binary m)
  end.

Lemma delivery_message l m :
  delivery l (DataChannelReceiveBuffer.mkMessage (ppid_of m) (payload m)) = message_event l m.
Proof.
  unfold delivery, message_event, ppid_of, payload. cbn [DataChannelReceiveBuffer.ppid DataChannelReceiveBuffer.data].
  destruct (DataChannelMessage.kind m); destruct (_ =? 0)%nat; reflexivity.
Qed.

Lemma ppid_of_ok m : is_u32 (ppid_of m) /\ isMessagePpid (ppid_of m) = true.
Proof. unfold ppid_of. destruct (DataChannelMessage.kind m), (_ =? 0)%nat; (split; [unfold is_u32, kPpidString, kPpidStringEmpty, kPpidBinary, kPpidBinaryEmpty; lia|done]). Qed.

(** Two sessions with nothing under way on a channel, which each end finds under
    its own label. *)
Record linked (a b : t) (l : list Z) (i : nat) (ch : DataChannel) (j : nat) (chb : DataChannel) (cum : Z) : Prop := {
  linked_config : config_ok a;
  linked_peer : config_ok b;
  linked_state : mState a = Established;
  linked_tag : mPeerTag a = mInitiateTag b;
  linked_flight : is_u32 (mFlightSize a);
  linked_label : findLabel l (mDataChannels a) = Some (i, ch);
  linked_open : state ch = kOpen;
  linked_ordered : unordered ch = false /\ unordered chb = false;
  linked_stream : is_u16 (streamId ch) /\ is_u16 (sendSsn ch);
  linked_tsn : mCurrentTsn a = u32 (cum + 1);
  linked_ready : ready b cum (streamId ch) j chb;
  linked_buffer : receiveBuffer chb = DataChannelReceiveBuffer.mk (sendSsn ch) ∅
}.

(** The fragments of [m] as the next message of [ch]. *)
Definition fragments_of (ch : DataChannel) (m : DataChannelMessage.t) : list (Z * Z * Z * list Z) :=
  Reassembly.cut true (sendSsn ch) (ppid_of m) (parts (payload m)).

Lemma cut_ok first ssn ppid fs : is_u16 ssn -> is_u32 ppid -> isMessagePpid ppid = true ->
  Forall bytes_ok fs -> Forall (fun f => (length f <= kMaxFragmentPayload)%nat) fs ->
  Forall fragment_ok (Reassembly.cut first ssn ppid fs).
Proof.
  intros Hssn Hppid Hm. revert first. induction fs as [|f fs IH]; intros first Hok Hsize; cbn [Reassembly.cut]; [constructor|].
  apply list.Forall_cons in Hok as [Hf Hok], Hsize as [Hfs Hsize]. constructor; [|by apply IH].
  unfold fragment_ok. split_and!; [done| |done..|unfold kMaxFragmentPayload in Hfs; lia].
  unfold is_u8. destruct first, (decide (fs = [])); (split; [discriminate|reflexivity]).
Qed.

Lemma mjoin_ok (fs : list (list Z)) : bytes_ok (mjoin fs) -> Forall bytes_ok fs.
Proof.
  induction fs as [|f fs IH]; [constructor|]. change (mjoin (f :: fs)) with (f ++ mjoin fs).
  rewrite bytes_ok_app. intros [Hf Hfs]. constructor; [done|by apply IH].
Qed.

Lemma length_cut first ssn ppid fs : length (Reassembly.cut first ssn ppid fs) = length fs.
Proof. revert first. induction fs as [|f fs IH]; intros first; [done|]. cbn. by rewrite IH. Qed.

Section Deliver.
Context `{HE : !Evp}.

(** C3: A message sent is the message received: on an open, ordered channel of two
    linked sessions (established, and agreed on the next TSN and SSN), any text or
    binary message (the empty one included) within the peer's window and maximum
    size is cut into packets whose delivery in order makes the peer hand exactly
    that message to its application, once, of the same kind and with the same
    bytes, whatever the TSNs and SSNs, wrap included; and the two are linked
    again, ready for the next message.  The packets must avoid the wrong entry of
    the checksum's table ([all_lucky]). *)
Theorem message_delivered now a b m i ch j chb cum :
  linked a b (DataChannelMessage.label m) i ch j chb cum ->
  (mMaxMessageSize a = 0 \/ Z.of_nat (length (payload m)) <= mMaxMessageSize a) ->
  overflows a m = false -> bytes_ok (payload m) ->
  all_lucky (u32 (cum + 1)) (streamId ch) (fragments_of ch m) ->
  exists a' ps b' es cum',
    send m a = Some (tt, a', map Packet ps) /\
    forEach ps (onReceiveData now) b = Some (tt, b', es) /\
    app_events es = [message_event (label chb) m] /\
    linked a' b' (DataChannelMessage.label m) i (set_sendSsn (u16 (sendSsn ch + 1)) ch)
      j (set_receiveBuffer (DataChannelReceiveBuffer.mk (u16 (sendSsn ch + 1)) ∅) chb) cum'.
Proof.
  intros L Hmax Hov Hok Hlucky. pose proof L as [Ha Hb Hst Htag Hfl Hlabel Hopen [Hu Hub] [Hsid Hssn] Htsn Hready Hbuf].
  rewrite (send_at i ch) by done. destruct (ppid_of_ok m) as [Hppid Hmp].
  destruct (sendMessageNow_at i ch m a Hu) as (a' & E & HS); [rewrite Htsn; apply u32_range|done|].
  fold (fragments_of ch m) in E. rewrite Htag, Htsn in E.
  destruct (receive_fragments now a (mInitiateTag b) (streamId ch) (fragments_of ch m) b cum j chb
    [DataChannelReceiveBuffer.mkMessage (ppid_of m) (payload m)] (DataChannelReceiveBuffer.mk (u16 (sendSsn ch + 1)) ∅))
    as (b' & es & Er & Hes & Hb' & Hcb); try done.
  - apply Hb.
  - apply cut_ok; [done|done|done| |apply parts_size]. apply mjoin_ok. by rewrite parts_join.
  - rewrite Hub, Hbuf. unfold fragments_of. rewrite Reassembly.receive_cut_first by apply parts_nonempty. by rewrite parts_join.
  - exists a', (data_packets a (mInitiateTag b) (u32 (cum + 1)) (streamId ch) (fragments_of ch m)), b', es,
      (u32 (cum + Z.of_nat (length (fragments_of ch m)))).
    split; [exact E|]. split; [exact Er|]. split; [by rewrite Hes; cbn [map]; rewrite delivery_message|].
    pose proof (sent_config _ _ _ _ HS) as K. cbn in K.
    constructor.
    + destruct Ha. constructor; by rewrite K.
    + destruct Hb. constructor; by rewrite Hcb.
    + rewrite (sent_state _ _ _ _ HS). done.
    + rewrite (sent_tag _ _ _ _ HS), Hcb. done.
    + rewrite (sent_flight _ _ _ _ HS). apply u32_range.
    + rewrite (sent_channels _ _ _ _ HS). cbn. unfold findLabel. by apply list_find_alter.
    + done.
    + done.
    + split; [done|apply u16_range].
    + rewrite (sent_tsn _ _ _ _ HS). cbn. unfold fragments_of. rewrite length_cut, Htsn. unfold u32.
      rewrite !Zplus_mod_idemp_l. f_equal. lia.
    + exact Hb'.
    + done.
Qed.

End Deliver.

(** The two demo sessions after the handshake, with a channel open on both. *)
Definition demo_channel : DataChannel :=
  mkChannel [99; 104] 0 false kOpen (DataChannelReceiveBuffer.mk 1 ∅) 1.

Definition demo_end (s : t) (tag cum : Z) : t :=
  set_mPeerCumulativeTsn cum (set_mPeerTag tag (set_mPeerRwnd kInitRwnd (set_mState Established
    (set_mDataChannels [demo_channel] s)))).

Definition end_a : t := demo_end demo_a 1002 2001.
Definition end_b : t := demo_end demo_b 1001 2000.

Definition demo_message : DataChannelMessage.t :=
  DataChannelMessage.makeBinary [99; 104] (replicate 2500 7).

Lemma demo_linked : linked end_a end_b [99; 104] 0 demo_channel 0 demo_channel 2000.
Proof.
  constructor; try reflexivity.
  - constructor; unfold is_u16, is_u32; cbn; lia.
  - constructor; unfold is_u16, is_u32; cbn; lia.
  - unfold is_u32. cbn. lia.
  - split; reflexivity.
  - split; unfold is_u16; cbn; lia.
  - constructor; try reflexivity. unfold is_u32. lia.
Qed.

(** 2500 bytes in three packets. *)
Lemma message_delivered_witness :
  exists a' ps b' es, send demo_message end_a = Some (tt, a', map Packet ps) /\
    forEach ps (@onReceiveData Demo.toy 5) end_b = Some (tt, b', es) /\
    app_events es = [ChannelBinary [99; 104] (replicate 2500 7)].
Proof.
  destruct (@message_delivered Demo.toy 5 end_a end_b demo_message 0 demo_channel 0 demo_channel 2000)
    as (a' & ps & b' & es & cum' & H1 & H2 & H3 & _).
  - exact demo_linked.
  - right. vm_compute. discriminate.
  - vm_compute. reflexivity.
  - apply (bool_decide_unpack (bytes_ok _)). vm_compute. reflexivity.
  - apply (bool_decide_unpack (all_lucky _ _ _)). vm_compute. reflexivity.
  - exists a', ps, b', es. split; [exact H1|]. split; [exact H2|exact H3].
Defined.

(** ** Sizes *)

Lemma length_build addr buf bytes : SctpPacketBuilder.build addr buf = Some bytes -> length bytes = length buf.
Proof.
  unfold SctpPacketBuilder.build. destruct (Crc32c.crc32c addr buf); [|done]. cbn. intros [= <-]. by rewrite !length_insert.
Qed.

Lemma length_datagram s tag ty fl d : Z.of_nat (length d) <= 65000 ->
  Z.of_nat (length (datagram s tag ty fl d)) <= 12 + 4 + Z.of_nat (length d) + 3.
Proof.
  intros Hl. pose proof (buildPacket_datagram s tag ty fl d) as E. unfold buildPacket in E. apply length_build in E. rewrite E.
  unfold SctpPacketBuilder.addChunk, SctpPacketBuilder.make, ByteWriter.padding, ByteWriter.write.
  rewrite u16_small by (unfold is_u16; lia).
  pose proof (PacketWire.padded_bounds (4 + Z.of_nat (length d)) ltac:(lia)).
  rewrite !Wire.writeU32_be, !Wire.writeU16_be, !Wire.writeU8_be.
  destruct (padded _ >? _), (0 <? length d)%nat; rewrite ?length_app, ?length_replicate, ?length_be_bytes; cbn [length]; lia.
Qed.

(** A bound of the packets of a message: headers, a full fragment, padding. *)
Definition kMaxPacket : Z := 1131.

Lemma data_packets_size a tag sid fs : forall tsn,
  Forall (fun '(_, _, _, p) => (length p <= kMaxFragmentPayload)%nat) fs ->
  Forall (fun b => Z.of_nat (length b) <= kMaxPacket) (data_packets a tag tsn sid fs).
Proof.
  induction fs as [|[[[ssn fl] ppid] p] fs IH]; intros tsn Hfs; cbn [data_packets]; [constructor|].
  apply list.Forall_cons in Hfs as [Hp Hfs]. constructor; [|by apply IH]. unfold kMaxFragmentPayload in Hp. unfold kMaxPacket.
  etransitivity; [apply length_datagram; rewrite dataBody_value, !length_app, !length_be_bytes; lia|].
  rewrite dataBody_value, !length_app, !length_be_bytes. lia.
Qed.

Lemma cut_size first ssn ppid fs : Forall (fun f => (length f <= kMaxFragmentPayload)%nat) fs ->
  Forall (fun '(_, _, _, p) => (length p <= kMaxFragmentPayload)%nat) (Reassembly.cut first ssn ppid fs).
Proof. intros H. revert first. induction H; intros first; cbn [Reassembly.cut]; constructor; [done|done]. Qed.

(** Bounds of sending: whatever the state and the message, [send] on an ordered
    channel emits packets of at most 1131 bytes only, which a DTLS record on any
    path carries, and never takes the payload in flight over the peer's window:
    the flight size stays as it was or stays within the window. *)
Theorem send_bounds m s :
  is_u32 (mCurrentTsn s) -> is_u32 (mFlightSize s) -> is_u32 (mPeerRwnd s) ->
  Forall (fun ch => unordered ch = false) (mDataChannels s) ->
  exists s' ps, send m s = Some (tt, s', map Packet ps) /\
    Forall (fun b => Z.of_nat (length b) <= kMaxPacket) ps /\
    (mFlightSize s' = mFlightSize s \/ mFlightSize s <= mFlightSize s' <= mPeerRwnd s).
Proof.
  intros Ht Hf Hw Hu. unfold send. rewrite bind_get_at.
  destruct (negb (bool_decide (mState s = Established))); [by exists s, []; split_and!; [done|constructor|left]|].
  destruct (findLabel _ _) as [[i ch]|] eqn:E; [|by exists s, []; split_and!; [done|constructor|left]].
  destruct (negb _); [by exists s, []; split_and!; [done|constructor|left]|].
  destruct (_ && _); [by exists s, []; split_and!; [done|constructor|left]|].
  destruct (overflows s m) eqn:Eo.
  { exists (set_mPendingSend (mPendingSend s ++ [m]) s), []. split_and!; [done|constructor|by left]. }
  assert (unordered ch = false) as Hch.
  { apply list_find_Some in E as (El & _ & _). exact (Forall_lookup_1 _ _ _ _ Hu El). }
  destruct (sendMessageNow_at i ch m s Hch Ht Hf) as (s' & E' & HS). rewrite E'. eexists s', _. split; [done|]. split.
  - apply data_packets_size, cut_size, parts_size.
  - rewrite (sent_flight _ _ _ _ HS). cbn [mFlightSize set_mDataChannels]. unfold overflows in Eo. unfold is_u32 in *.
    destruct (Z.ltb_spec 0 (Z.of_nat (length (payload m)))); cbn [andb] in Eo.
    + right. rewrite u32_small by (unfold is_u32; lia). lia.
    + left. replace (Z.of_nat (length (payload m))) with 0 by lia. rewrite Z.add_0_r. by rewrite u32_small.
Qed.

Lemma send_bounds_witness :
  exists s' ps, send demo_message end_a = Some (tt, s', map Packet ps) /\
    Forall (fun b => Z.of_nat (length b) <= kMaxPacket) ps /\ mFlightSize s' = 2500.
Proof.
  destruct (send_bounds demo_message end_a) as (s' & ps & E & Hs & _);
    [unfold is_u32; cbn; lia|unfold is_u32; cbn; lia|unfold is_u32, kInitRwnd; cbn; unfold kInitRwnd; lia|
     repeat constructor|].
  exists s', ps. split; [exact E|]. split; [exact Hs|].
  vm_compute in E. injection E as <- _. reflexivity.
Defined.

End Delivery.

(** ** The chunks whose checksum is always wrong *)

Module Edges.

Import SctpSession Defs SctpRuns Handshake Delivery.

(** The wire form of a DATA chunk, in the groups the checksum works on. *)
Lemma encode_data tsn sid ssn ppid fl p : exists h0 h1 h2 h3 rest,
  PacketWire.encode (SctpPacket.mkChunk kChunkData fl (dataBody tsn sid ssn ppid p)) =
    [h0; h1; h2; h3] ++ be_bytes 4 tsn ++ rest /\ (8 <= length rest)%nat.
Proof.
  unfold PacketWire.encode. cbn [SctpPacket.type SctpPacket.flags SctpPacket.data]. rewrite dataBody_value.
  eexists _, _, _, _, _. split; [rewrite <- !app_assoc; cbn [be_bytes app]; reflexivity|].
  rewrite ?length_app; cbn [length]. rewrite ?length_app; cbn [length]. lia.
Qed.

(** A chunk with 0xB5 as the second byte of its TSN, and nowhere else in such a place. *)
Definition unlucky (fl : Z) (tsn sid ssn ppid : Z) (p : list Z) : Prop :=
  u8 (Z.shiftr tsn 16) = 0xB5 /\
  PacketWire.every4 (drop 8 (PacketWire.encode (SctpPacket.mkChunk kChunkData fl (dataBody tsn sid ssn ppid p)))) = true.

Lemma unlucky_parse s tag fl tsn sid ssn ppid p :
  config_ok s -> is_u32 tag -> PacketWire.chunk_ok (SctpPacket.mkChunk kChunkData fl (dataBody tsn sid ssn ppid p)) ->
  unlucky fl tsn sid ssn ppid p ->
  SctpPacket.parse 0 0 (datagram s tag kChunkData fl (dataBody tsn sid ssn ppid p)) = Some None.
Proof.
  intros Hs Ht Hc [Hb Hclean]. unfold datagram. rewrite buildPacket_chunks.
  destruct (PacketWire.parse_build 0 0 0 (mLocalPort s) (mRemotePort s) tag
    [SctpPacket.mkChunk kChunkData fl (dataBody tsn sid ssn ppid p)]) as (bytes & -> & Hp); [apply Hs|apply Hs|done|by constructor|].
  change (default [] (Some bytes)) with bytes. rewrite Hp. clear Hp. unfold PacketWire.unsummed, PacketWire.header.
  cbn [fmap list_fmap mjoin list_join]. rewrite app_nil_r.
  destruct (encode_data tsn sid ssn ppid fl p) as (h0 & h1 & h2 & h3 & rest & E & Hrest).
  rewrite E in Hclean |- *. clear E.
  assert (forall n, Crc32c.hits n rest = 0%nat) as Hnone.
  { intros n. apply PacketWire.every4_hits, PacketWire.every4_drop4, Hclean. }
  rewrite (Crc32c.slips_none (0 + 12)).
  - match goal with |- context [?a =? 0] => destruct (Z.eqb_spec a 0) as [Eq|]; [|done] end. exfalso. revert Eq. apply Crc32c.slips_one.
    unfold Crc32c.all_hits. change (Crc32c.lead 0) with 4%nat. rewrite !length_app, !length_be_bytes. cbn [length].
    replace ((2 + (2 + 4) + (4 + (4 + (4 + length rest))) - 4) / 8)%nat with (S (S (length rest / 8)))
      by (replace (2 + (2 + 4) + (4 + (4 + (4 + length rest))) - 4)%nat with (length rest + 2 * 8)%nat by lia;
          rewrite Nat.div_add by lia; lia).
    cbn [be_bytes app drop Crc32c.hits nth]. rewrite Hnone. change (8 * Z.of_nat 2) with 16. rewrite Hb. done.
  - unfold Crc32c.all_hits. change (Crc32c.lead (0 + 12)) with 4%nat.
    apply PacketWire.every4_hits. rewrite drop_drop. exact Hclean.
Qed.

Section Ignored.
Context `{HE : !Evp, HL : !EvpLaws}.

(** A chunk that no receiver ever gets: when the second byte of the TSN of the
    oldest chunk in flight is 0xB5 (65536 consecutive TSNs in every 2^24), and no
    other byte of the chunk is touched by the wrong entry of the table of the
    checksum, each retransmission is the same packet, which every session in every
    state takes for damaged and ignores; the chunk stays the oldest, the timer is
    started again, and so it goes on for ever. *)
Theorem unlucky_chunk_never_arrives now a b fl tsn sid ssn ppid p size rest :
  config_ok a -> is_u32 (mPeerTag a) ->
  PacketWire.chunk_ok (SctpPacket.mkChunk kChunkData fl (dataBody tsn sid ssn ppid p)) ->
  unlucky fl tsn sid ssn ppid p ->
  mSentChunks a = mkSent tsn fl size (dataBody tsn sid ssn ppid p) :: rest ->
  exists a' packet, retransmitOldest a = Some (tt, a', [Packet packet]) /\
    mSentChunks a' = mSentChunks a /\ mTaskT3Rtx a' <> None /\
    onReceiveData now packet b = Some (tt, b, []).
Proof using HE.
  intros Ha Ht Hc Hu Es. unfold retransmitOldest. rewrite bind_get_at, Es, bind_sendChunk_at. cbn [cflags body].
  destruct (Acks.startT3Rtx_at a) as (x & y & z & ->). eexists _, _. split; [reflexivity|]. split; [exact Es|]. split; [discriminate|].
  unfold onReceiveData. by rewrite unlucky_parse, bind_lift_at.
Qed.

End Ignored.

(** TSN 0x00B50000. *)
Definition unlucky_end : t :=
  set_mSentChunks [mkSent 0xB50000 kDataFlagComplete 2 (dataBody 0xB50000 0 0 kPpidBinary [1; 2])] end_a.

Lemma unlucky_chunk_never_arrives_witness :
  exists a' packet, retransmitOldest unlucky_end = Some (tt, a', [Packet packet]) /\
    mSentChunks a' = mSentChunks unlucky_end /\ @onReceiveData Demo.toy 0 packet end_b = Some (tt, end_b, []).
Proof.
  destruct (@unlucky_chunk_never_arrives Demo.toy 0 unlucky_end end_b kDataFlagComplete 0xB50000 0 0 kPpidBinary [1; 2] 2 [])
    as (a' & packet & H1 & H2 & _ & H3).
  - destruct (linked_config _ _ _ _ _ _ _ _ demo_linked) as [H1 H2 H3 H4]. by constructor.
  - unfold is_u32. cbn. lia.
  - apply chunk_ok_intro; [unfold is_u8, kChunkData; lia|unfold is_u8, kDataFlagComplete; lia| |cbn; lia].
    apply (bool_decide_unpack (bytes_ok _)). vm_compute. reflexivity.
  - split; vm_compute; reflexivity.
  - reflexivity.
  - exists a', packet. split; [exact H1|]. split; [exact H2|exact H3].
Defined.

End Edges.
