(* ===== verification/Scheduler.v ===== *)
(** * Scheduler: delayed tasks (src/scheduler.cpp, include/srtc/scheduler.h)

    [TimedQueue] is the sorted vector that the schedulers and the pacer keep;
    [LoopScheduler] runs tasks from the event loop of a peer connection, and the
    [ScopedScheduler]s of its parts submit to it and cancel what they have
    submitted when they are destroyed.

    A task's function may call the schedulers while it runs: [prog] is what a
    function does, a tree of calls with the answers it gets.  A pointer to a task
    is a number that is never used again.  A weak pointer can be locked as long as
    the queue or [run] has the task (the callers keep weak pointers only).
    [steady_clock::now()] is [clock n] at the [n]th reading. *)

From stdpp Require Import gmap sorting.
From S2P Require Import Prelude.
Open Scope Z_scope.

(** ** A vector sorted by time *)

Module TimedQueue.

Lemma filter_none {A} (P : A -> Prop) `{!forall x, Decision (P x)} (l : list A) :
  (forall y, y ∈ l -> ~ P y) -> filter P l = [].
Proof.
  induction l as [|y l IH]; intros Hl; [done|]. rewrite filter_cons_False by (apply Hl; left).
  apply IH. intros z Hz. apply Hl. by right.
Qed.

Lemma list_filter_all {A} (P : A -> Prop) `{!forall x, Decision (P x)} (l : list A) :
  (forall y, y ∈ l -> P y) -> filter P l = l.
Proof.
  induction l as [|y l IH]; intros Hl; [done|]. rewrite filter_cons_True by (apply Hl; left).
  rewrite IH; [done|]. intros z Hz. apply Hl. by right.
Qed.

Lemma filter_ext_elem {A} (P Q : A -> Prop) `{!forall x, Decision (P x)} `{!forall x, Decision (Q x)} (l : list A) :
  (forall x, x ∈ l -> P x <-> Q x) -> filter P l = filter Q l.
Proof.
  induction l as [|x l IH]; intros Hiff; [done|]. rewrite !filter_cons, IH by (intros y Hy; apply Hiff; by right).
  pose proof (Hiff x ltac:(left)). destruct (decide (P x)), (decide (Q x)); tauto.
Qed.

Section Queue.
Context {A : Type} (when : A -> Z).

(** [queue.insert(std::upper_bound(begin, end, x, less), x)]: before the first
    element that is later; the vector is sorted by time, [insert_sorted]. *)
Fixpoint insert (x : A) (l : list A) : list A :=
  match l with
  | [] => [x]
  | y :: l' => if when x <? when y then x :: l else y :: insert x l'
  end.

Lemma insert_perm x l : insert x l ≡ₚ x :: l.
Proof.
  induction l as [|y l IH]; [done|]. cbn [insert]. destruct (when x <? when y); [done|].
  rewrite IH. apply Permutation_swap.
Qed.

Lemma elem_of_insert x y l : y ∈ insert x l <-> y = x \/ y ∈ l.
Proof. rewrite insert_perm. apply elem_of_cons. Qed.

Lemma length_insert x l : length (insert x l) = S (length l).
Proof. by rewrite insert_perm. Qed.

Definition sorted (l : list A) : Prop := StronglySorted (fun x y => when x <= when y) l.

Lemma Forall_insert (P : A -> Prop) x l : P x -> Forall P l -> Forall P (insert x l).
Proof. intros Hx Hl. rewrite insert_perm. by constructor. Qed.

(** In any order in which the new element comes after those that are not later. *)
Lemma insert_sorted_by (R : A -> A -> Prop) x l :
  (forall a b c, R a b -> R b c -> R a c) ->
  (forall y, y ∈ l -> if when x <? when y then R x y else R y x) ->
  StronglySorted R l -> StronglySorted R (insert x l).
Proof.
  intros Htrans HR. induction 1 as [|y l Hl IH Hy]; cbn [insert]; [by repeat constructor|].
  pose proof (HR y ltac:(left)) as Hxy. destruct (when x <? when y).
  - constructor; [by constructor|]. constructor; [done|].
    eapply list.Forall_impl; [exact Hy|]. intros z. by apply Htrans.
  - constructor; [|by apply Forall_insert]. apply IH. intros z Hz. apply HR. by right.
Qed.

Lemma insert_sorted x l : sorted l -> sorted (insert x l).
Proof.
  apply insert_sorted_by; [lia|]. intros y _. destruct (Z.ltb_spec (when x) (when y)); lia.
Qed.

(** *** A subsequence *)

Lemma filter_insert_out (P : A -> Prop) `{!forall x, Decision (P x)} x l :
  ~ P x -> filter P (insert x l) = filter P l.
Proof.
  intros Hx. induction l as [|y l IH]; cbn [insert]; [by rewrite filter_cons_False|].
  destruct (when x <? when y); [by rewrite filter_cons_False|].
  rewrite !filter_cons. by rewrite IH.
Qed.

Lemma filter_insert_last (P : A -> Prop) `{!forall x, Decision (P x)} x l :
  P x -> (forall y, y ∈ l -> P y -> when y <= when x) -> sorted l ->
  filter P (insert x l) = filter P l ++ [x].
Proof.
  intros Hx Hle. induction 1 as [|y l Hl IH Hy]; cbn [insert]; [by rewrite filter_cons_True|].
  destruct (Z.ltb_spec (when x) (when y)) as [Hlt|Hge].
  - assert (filter P (y :: l) = []) as E.
    { apply filter_none. intros z Hz HP. pose proof (Hle z Hz HP).
      apply elem_of_cons in Hz as [->|Hz]; [lia|]. pose proof (Forall_elem _ _ _ Hy Hz). cbn in *. lia. }
    rewrite filter_cons_True, E by done. done.
  - rewrite !filter_cons, IH; [by destruct (decide (P y))|]. intros z Hz. apply Hle. by right.
Qed.

End Queue.
End TimedQueue.

(** ** LoopScheduler *)

Module LoopScheduler.

(** [TaskImpl]: [mId] is its address.  [mBy] is not a member: the scope through
    which the task was submitted, for the statements. *)
Record TaskImpl {F : Type} := mkTask { mId : nat; mWhen : Z; mFunc : F; mBy : option nat }.
Arguments TaskImpl : clear implicits.

Arguments mkTask {F} _ _ _ _.

Inductive event {F : Type} :=
| Submitted (task : TaskImpl F)
| Cancelled (id : nat)
| Ran (task : TaskImpl F) (now : Z).
Arguments event : clear implicits.
Arguments Submitted {F} _.
Arguments Cancelled {F} _.
Arguments Ran {F} _ _.

(** [mRunning] is the variable [task] of [run]; [mNextId] and [mTicks] count the
    tasks made and the readings of the clock; [mLog] records what happened. *)
Record t {F : Type} := mk {
  mTaskQueue : list (TaskImpl F);
  mRunning : option (TaskImpl F);
  mNextId : nat;
  mTicks : nat;
  mLog : list (event F)
}.
Arguments t : clear implicits.
Arguments mk {F} _ _ _ _ _.

Definition make {F} : t F := mk [] None 0 0 [].

Section Loop.
Context {F : Type} (clock : nat -> Z).
Implicit Type s : t F.

Definition now s : Z * t F :=
  (clock (mTicks s), mk (mTaskQueue s) (mRunning s) (mNextId s) (S (mTicks s)) (mLog s)).

Definition enqueue (task : TaskImpl F) s : t F :=
  mk (TimedQueue.insert mWhen task (mTaskQueue s)) (mRunning s) (S (mNextId s)) (mTicks s)
     (mLog s ++ [Submitted task]).

(** [delay] is in milliseconds. *)
Definition submit_by (by_ : option nat) (delay : Z) (f : F) s : nat * t F :=
  let '(now, s) := now s in
  (mNextId s, enqueue (mkTask (mNextId s) (now + delay * 1000000) f by_) s).

Definition submit (delay : Z) (f : F) s : nat * t F := submit_by None delay f s.

(** [std::find] and [erase]. *)
Fixpoint erase (id : nat) (l : list (TaskImpl F)) : option (list (TaskImpl F)) :=
  match l with
  | [] => None
  | task :: l => if bool_decide (mId task = id) then Some l else l' ← erase id l; Some (task :: l')
  end.

Definition cancelImpl (id : nat) s : t F :=
  match erase id (mTaskQueue s) with
  | Some l => mk l (mRunning s) (mNextId s) (mTicks s) (mLog s ++ [Cancelled id])
  | None => s
  end.

(** [weak_ptr::lock]. *)
Definition lock (id : nat) s : option (TaskImpl F) :=
  list_find (fun task => mId task = id) (mTaskQueue s ++ option_list (mRunning s)) ≫= fun x => Some x.2.

Definition updateImpl (by_ : option nat) (oldTask : TaskImpl F) (delay : Z) s : nat * t F :=
  let s := cancelImpl (mId oldTask) s in
  submit_by by_ delay (mFunc oldTask) s.

(** [TaskImpl::cancel] and [update] through a weak pointer, [Task::cancelHelper]. *)
Definition cancel (id : nat) s : t F :=
  match lock id s with Some task => cancelImpl (mId task) s | None => s end.

Definition update (by_ : option nat) (id : nat) (delay : Z) s : option nat * t F :=
  match lock id s with
  | Some task => let '(id, s) := updateImpl by_ task delay s in (Some id, s)
  | None => (None, s)
  end.

(** [duration_cast<milliseconds>] rounds toward zero; the conversion to [int] is
    modulo 2^32. *)
Definition getTimeoutMillis (defaultValue : Z) s : Z :=
  match mTaskQueue s with
  | [] => defaultValue
  | front :: _ =>
      let diff := Z.quot (mWhen front - clock (mTicks s)) 1000000 in
      if diff <=? 0 then 0
      else if 2 ^ 32 - 1 <? diff then 2 ^ 31 - 1
      else i32 diff
  end.

(** One round of the loop of [run]: the reading of the clock, and the task that
    is due taken from the queue. *)
Definition begin s : option (TaskImpl F) * t F :=
  match mTaskQueue s with
  | [] => (None, s)
  | front :: queue =>
      let '(now, s) := now s in
      if mWhen front <=? now
      then (Some front, mk queue (Some front) (mNextId s) (mTicks s) (mLog s ++ [Ran front now]))
      else (None, s)
  end.

Definition finish s : t F := mk (mTaskQueue s) None (mNextId s) (mTicks s) (mLog s).

End Loop.
End LoopScheduler.

(** ** ScopedScheduler *)

Module ScopedScheduler.
Import LoopScheduler (lock, cancel).

(** [TaskImpl]: [iId] is its address, [mTask] the task of the scheduler below. *)
Record TaskImpl {F : Type} := mkTask { iId : nat; mTask : nat; mFunc : F }.
Arguments TaskImpl : clear implicits.
Arguments mkTask {F} _ _ _.

(** [mSelf] tells the scopes apart; [mNextImpl] counts the [TaskImpl]s made. *)
Record t {F : Type} := mk { mSelf : nat; mSubmitted : list (TaskImpl F); mNextImpl : nat }.
Arguments t : clear implicits.
Arguments mk {F} _ _ _.

Section Scoped.
Context {F : Type} (clock : nat -> Z).
Notation scheduler := (LoopScheduler.t F).
Implicit Type s : t F.
Implicit Type mScheduler : scheduler.

Definition removeExpiredLocked s mScheduler : t F :=
  mk (mSelf s) (filter (fun impl => is_Some (lock (mTask impl) mScheduler)) (mSubmitted s)) (mNextImpl s).

Definition push (task : nat) (f : F) s : nat * t F :=
  (mNextImpl s, mk (mSelf s) (mSubmitted s ++ [mkTask (mNextImpl s) task f]) (S (mNextImpl s))).

Definition submit (delay : Z) (f : F) s mScheduler : nat * t F * scheduler :=
  let s := removeExpiredLocked s mScheduler in
  let '(task, mScheduler) := LoopScheduler.submit_by clock (Some (mSelf s)) delay f mScheduler in
  (push task f s, mScheduler).

(** The list owns the [TaskImpl]s: a weak pointer is locked through it. *)
Definition lock_impl (id : nat) s : option (TaskImpl F) :=
  list_find (fun impl => iId impl = id) (mSubmitted s) ≫= fun x => Some x.2.

Definition erase (id : nat) s : t F :=
  mk (mSelf s) (filter (fun impl => iId impl <> id) (mSubmitted s)) (mNextImpl s).

Definition cancelImpl (impl : TaskImpl F) s mScheduler : t F * scheduler :=
  (erase (iId impl) s, cancel (mTask impl) mScheduler).

Definition updateImpl (oldTask : TaskImpl F) (delay : Z) s mScheduler : option nat * t F * scheduler :=
  let s := erase (iId oldTask) (removeExpiredLocked s mScheduler) in
  match LoopScheduler.update clock (Some (mSelf s)) (mTask oldTask) delay mScheduler with
  | (Some updated, mScheduler) => let '(id, s) := push updated (mFunc oldTask) s in (Some id, s, mScheduler)
  | (None, mScheduler) => (None, s, mScheduler)
  end.

(** The destructor. *)
Definition destroy s mScheduler : scheduler :=
  fold_left (fun mScheduler impl => cancel (mTask impl) mScheduler) (mSubmitted s) mScheduler.

End Scoped.
End ScopedScheduler.

(** ** Functions that call the schedulers, and [run] *)

Module Tasks.
Import LoopScheduler.

Inductive call {F : Type} :=
| Submit (delay : Z) (f : F)
| Cancel (id : nat)
| Update (id : nat) (delay : Z)
| NewScope
| ScopedSubmit (scope : nat) (delay : Z) (f : F)
| ScopedCancel (scope id : nat)
| ScopedUpdate (scope id : nat) (delay : Z)
| EndScope (scope : nat).
Arguments call : clear implicits.

(** What a function does from the state [W] of the objects it captures. *)
Inductive prog {F W : Type} :=
| Return (w : W)
| Call (c : call F) (k : option nat -> prog).
Arguments prog : clear implicits.

(** A loop scheduler with the scopes above it. *)
Record t {F : Type} := mk {
  loop : LoopScheduler.t F;
  scopes : gmap nat (ScopedScheduler.t F);
  mNextScope : nat
}.
Arguments t : clear implicits.
Arguments mk {F} _ _ _.

Definition make {F} : t F := mk LoopScheduler.make ∅ 0.

Section Run.
Context {F W : Type} (clock : nat -> Z) (body : F -> W -> prog F W).
Implicit Type st : t F.

Definition with_loop st (l : LoopScheduler.t F) : t F := mk l (scopes st) (mNextScope st).

Definition with_scope st (k : nat) (s : ScopedScheduler.t F) (l : LoopScheduler.t F) : t F :=
  mk l (<[k := s]> (scopes st)) (mNextScope st).

(** The answer is the new object, or no object.  A weak pointer of a destroyed
    scope has expired; to call the destroyed scope itself is not defined. *)
Definition apply (c : call F) st : option (option nat * t F) :=
  match c with
  | Submit delay f => let '(id, l) := submit clock delay f (loop st) in Some (Some id, with_loop st l)
  | Cancel id => Some (None, with_loop st (cancel id (loop st)))
  | Update id delay => let '(id, l) := update clock None id delay (loop st) in Some (id, with_loop st l)
  | NewScope =>
      let k := mNextScope st in
      Some (Some k, mk (loop st) (<[k := ScopedScheduler.mk k [] 0]> (scopes st)) (S k))
  | ScopedSubmit k delay f =>
      s ← scopes st !! k;
      let '(id, s, l) := ScopedScheduler.submit clock delay f s (loop st) in
      Some (Some id, with_scope st k s l)
  | ScopedCancel k id =>
      Some match scopes st !! k ≫= ScopedScheduler.lock_impl id, scopes st !! k with
           | Some impl, Some s =>
               let '(s, l) := ScopedScheduler.cancelImpl impl s (loop st) in (None, with_scope st k s l)
           | _, _ => (None, st)
           end
  | ScopedUpdate k id delay =>
      Some match scopes st !! k ≫= ScopedScheduler.lock_impl id, scopes st !! k with
           | Some impl, Some s =>
               let '(id, s, l) := ScopedScheduler.updateImpl clock impl delay s (loop st) in
               (id, with_scope st k s l)
           | _, _ => (None, st)
           end
  | EndScope k =>
      s ← scopes st !! k;
      Some (None, mk (ScopedScheduler.destroy s (loop st)) (delete k (scopes st)) (mNextScope st))
  end.

Fixpoint exec (p : prog F W) st : option (W * t F) :=
  match p with
  | Return w => Some (w, st)
  | Call c k => '(r, st) ← apply c st; exec (k r) st
  end.

(** [LoopScheduler::run]; the fuel is the number of tasks that it may run. *)
Fixpoint run (fuel : nat) (w : W) st : option (W * t F) :=
  match begin clock (loop st) with
  | (None, l) => Some (w, with_loop st l)
  | (Some task, l) =>
      match fuel with
      | O => None
      | S fuel =>
          '(w, st) ← exec (body (mFunc task) w) (with_loop st l);
          run fuel w (with_loop st (finish (loop st)))
      end
  end.

(** *** The same as steps: calls, from tasks and from outside, and the turns of [run] *)

Definition delay_of (c : call F) : option Z :=
  match c with
  | Submit delay _ | Update _ delay | ScopedSubmit _ delay _ | ScopedUpdate _ _ delay => Some delay
  | _ => None
  end.

(** [D] limits the delays. *)
Definition call_ok (D : Z -> Prop) (c : call F) : Prop := forall delay, delay_of c = Some delay -> D delay.

Fixpoint prog_ok (D : Z -> Prop) (p : prog F W) : Prop :=
  match p with Return _ => True | Call c k => call_ok D c /\ forall r, prog_ok D (k r) end.

Inductive step (D : Z -> Prop) : t F -> t F -> Prop :=
| step_call c r st st' : call_ok D c -> apply c st = Some (r, st') -> step D st st'
| step_begin task l st :
    mRunning (loop st) = None -> begin clock (loop st) = (task, l) -> step D st (with_loop st l)
| step_finish st : step D st (with_loop st (finish (loop st))).

End Run.
End Tasks.
