(* ===== verification/SchedulerProps.v ===== *)
(** * SchedulerProps: no task is lost, run twice, or run when cancelled; tasks run
    in the order of their times; a scope's end is the end of its tasks *)

From stdpp Require Import gmap sorting.
From S2P Require Import Prelude Scheduler.
Open Scope Z_scope.
Import LoopScheduler Tasks.

(** *** What happened to each task *)

Definition submitted_ids {F} (log : list (event F)) : list nat :=
  omap (fun e => match e with Submitted task => Some (mId task) | _ => None end) log.
Definition cancelled_ids {F} (log : list (event F)) : list nat :=
  omap (fun e => match e with Cancelled id => Some id | _ => None end) log.
Definition runs {F} (log : list (event F)) : list (TaskImpl F * Z) :=
  omap (fun e => match e with Ran task now => Some (task, now) | _ => None end) log.
Definition ran_ids {F} (log : list (event F)) : list nat := map (fun r => mId r.1) (runs log).
Definition ids {F} (l : list (TaskImpl F)) : list nat := map mId l.

(** Tasks that are due at the same time run in the order of submission. *)
Definition earlier {F} (a b : TaskImpl F) : Prop :=
  mWhen a < mWhen b \/ mWhen a = mWhen b /\ (mId a < mId b)%nat.

Section Props.
Context {F W : Type} (clock : nat -> Z) (body : F -> W -> prog F W).
Implicit Types (l s : LoopScheduler.t F) (st : Tasks.t F) (task : TaskImpl F).

(** **** The ledger *)

Record accounted s : Prop := {
  acc_ledger : submitted_ids (mLog s) ≡ₚ ran_ids (mLog s) ++ cancelled_ids (mLog s) ++ ids (mTaskQueue s);
  acc_unique : NoDup (submitted_ids (mLog s));
  acc_fresh : forall id, id ∈ submitted_ids (mLog s) -> (id < mNextId s)%nat;
  acc_running : forall task, mRunning s = Some task -> mId task ∈ ran_ids (mLog s);
  acc_sorted : StronglySorted earlier (mTaskQueue s)
}.

Lemma earlier_trans task1 task2 task3 : earlier task1 task2 -> earlier task2 task3 -> earlier task1 task3.
Proof. unfold earlier. lia. Qed.

Lemma queued_submitted s task : accounted s -> task ∈ mTaskQueue s -> mId task ∈ submitted_ids (mLog s).
Proof.
  intros H Hq. rewrite (acc_ledger _ H), !elem_of_app. right. right.
  by apply (list_elem_of_fmap_2 mId).
Qed.

Lemma queued_once s : accounted s -> NoDup (ids (mTaskQueue s)).
Proof.
  intros H. pose proof (acc_unique _ H) as Hn. rewrite (acc_ledger _ H) in Hn.
  by apply list.NoDup_app in Hn as (_ & _ & (_ & _ & Hn)%list.NoDup_app).
Qed.

Lemma log_ids (log : list (event F)) e :
  submitted_ids (log ++ [e]) = submitted_ids log ++ submitted_ids [e] /\
  cancelled_ids (log ++ [e]) = cancelled_ids log ++ cancelled_ids [e] /\
  runs (log ++ [e]) = runs log ++ runs [e] /\
  ran_ids (log ++ [e]) = ran_ids log ++ ran_ids [e].
Proof. unfold ran_ids, runs. rewrite !omap_app, map_app. unfold submitted_ids, cancelled_ids. by rewrite !omap_app. Qed.

Lemma now_accounted s : accounted s -> accounted (now clock s).2.
Proof. by intros []. Qed.

Lemma enqueue_accounted s when f by_ :
  accounted s -> accounted (enqueue (mkTask (mNextId s) when f by_) s).
Proof.
  intros H. destruct (log_ids (mLog s) (Submitted (mkTask (mNextId s) when f by_))) as (E1 & E2 & _ & E3).
  split; unfold enqueue; cbn [mLog mTaskQueue mNextId mRunning]; rewrite ?E1, ?E2, ?E3.
  - cbn. unfold ids. rewrite TimedQueue.insert_perm, !app_nil_r, (acc_ledger _ H). cbn. solve_Permutation.
  - cbn. apply list.NoDup_app. split; [apply H|]. split; [|apply NoDup_singleton].
    intros id Hid ->%list_elem_of_singleton. apply (acc_fresh _ H) in Hid. lia.
  - intros id [Hid|Hid]%elem_of_app; [apply (acc_fresh _ H) in Hid; lia|].
    cbn in Hid. apply list_elem_of_singleton in Hid. lia.
  - intros task Ht. apply elem_of_app. left. by apply (acc_running _ H).
  - apply TimedQueue.insert_sorted_by; [apply earlier_trans| |apply H].
    intros y Hy. pose proof (acc_fresh _ H _ (queued_submitted _ _ H Hy)). unfold earlier. cbn [mWhen mId].
    destruct (Z.ltb_spec when (mWhen y)); lia.
Qed.

Lemma submit_accounted by_ delay f s : accounted s -> accounted (submit_by clock by_ delay f s).2.
Proof. intros H. apply (enqueue_accounted (now clock s).2). by apply now_accounted. Qed.

(** Erasing a task from the queue. *)
Lemma erase_spec id (q : list (TaskImpl F)) :
  match erase id q with
  | Some q' => exists task, mId task = id /\ q ≡ₚ task :: q' /\ sublist q' q
  | None => id ∉ ids q
  end.
Proof.
  induction q as [|task q IH]; cbn [erase]; [set_solver|]. case_bool_decide as E.
  - exists task. split; [done|]. split; [done|]. by constructor.
  - destruct (erase id q) as [q'|]; cbn [mbind option_bind].
    + destruct IH as (x & Hx & Hp & Hs). exists x. split; [done|]. split; [|by constructor].
      rewrite Hp. apply Permutation_swap.
    + cbn. rewrite not_elem_of_cons. done.
Qed.

Lemma sublist_sorted (R : TaskImpl F -> TaskImpl F -> Prop) q q' :
  sublist q' q -> StronglySorted R q -> StronglySorted R q'.
Proof.
  induction 1 as [|x q' q H IH|x q' q H IH]; intros Hs; [done| |]; apply StronglySorted_inv in Hs as [Hs Hx].
  - constructor; [by apply IH|]. apply list.Forall_forall. intros y Hy. apply (Forall_elem _ _ _ Hx).
    by apply (elem_of_submseteq q' q), sublist_submseteq.
  - by apply IH.
Qed.

Lemma cancelImpl_accounted id s : accounted s -> accounted (cancelImpl id s).
Proof.
  intros H. unfold cancelImpl. pose proof (erase_spec id (mTaskQueue s)) as He.
  destruct (erase id (mTaskQueue s)) as [q|]; [|done]. destruct He as (task & Hid & Hp & Hs).
  destruct (log_ids (mLog s) (Cancelled id)) as (E1 & E2 & _ & E3).
  split; cbn [mLog mTaskQueue mNextId mRunning]; rewrite ?E1, ?E2, ?E3; cbn; rewrite ?app_nil_r; try apply H.
  - rewrite (acc_ledger _ H). unfold ids. rewrite Hp. cbn. rewrite Hid. solve_Permutation.
  - eapply sublist_sorted; [done|]. apply H.
Qed.

Lemma begin_accounted s r l : mRunning s = None -> begin clock s = (r, l) -> accounted s -> accounted l.
Proof.
  intros Hr Hb H. unfold begin in Hb. destruct (mTaskQueue s) as [|front q] eqn:Eq; [by injection Hb as <- <-|].
  cbn [now] in Hb. case_match; injection Hb as <- <-; [|by apply (now_accounted s)].
  destruct (log_ids (mLog s) (Ran front (clock (mTicks s)))) as (E1 & E2 & _ & E3).
  pose proof (acc_ledger _ H) as Hl. pose proof (acc_sorted _ H) as Hs. rewrite Eq in Hl, Hs.
  split; cbn [mLog mTaskQueue mNextId mRunning]; rewrite ?E1, ?E2, ?E3; cbn; rewrite ?app_nil_r; try apply H.
  - rewrite Hl. cbn. solve_Permutation.
  - intros task [= <-]. apply elem_of_app. right. left.
  - by apply StronglySorted_inv in Hs as [].
Qed.

(** **** What every call preserves *)

Record stable_calls (D : Z -> Prop) (P : LoopScheduler.t F -> Prop) : Prop := {
  stable_submit by_ delay f s : D delay -> P s -> P (submit_by clock by_ delay f s).2;
  stable_cancel id s : P s -> P (cancelImpl id s)
}.

Record stable (D : Z -> Prop) (P : LoopScheduler.t F -> Prop) : Prop := {
  stable_stable_calls :> stable_calls D P;
  stable_begin s r l : mRunning s = None -> begin clock s = (r, l) -> P s -> P l;
  stable_finish s : P s -> P (finish s)
}.

Lemma accounted_stable D : stable D accounted.
Proof.
  split; [split|..]; intros.
  - by apply submit_accounted.
  - by apply cancelImpl_accounted.
  - by eapply begin_accounted.
  - destruct H. by split.
Qed.

Section Stable.
Context (D : Z -> Prop) (P : LoopScheduler.t F -> Prop) (HP : stable_calls D P).

Lemma cancel_stable id s : P s -> P (cancel id s).
Proof using HP. intros H. unfold cancel. destruct (lock id s); [|done]. by apply (stable_cancel D P HP). Qed.

Lemma update_stable by_ id delay s : D delay -> P s -> P (update clock by_ id delay s).2.
Proof using HP.
  intros Hd H. unfold update. destruct (lock id s) as [task|]; [|done].
  apply (stable_submit D P HP by_ delay (mFunc task) _ Hd). by apply (stable_cancel D P HP).
Qed.

Lemma destroy_stable (impls : list (ScopedScheduler.TaskImpl F)) : forall s,
  P s -> P (fold_left (fun s impl => cancel (ScopedScheduler.mTask impl) s) impls s).
Proof using HP. induction impls as [|x impls IH]; intros s H; [done|]. cbn. by apply IH, cancel_stable. Qed.

Lemma apply_stable c r st st' : call_ok D c -> apply clock c st = Some (r, st') -> P (loop st) -> P (loop st').
Proof using HP.
  intros Hc Ha H. destruct c as [delay f|id|id delay| |k delay f|k id|k id delay|k]; cbn [apply] in Ha.
  - injection Ha as <- <-. apply (stable_submit D P HP); [by apply Hc|done].
  - injection Ha as <- <-. by apply cancel_stable.
  - pose proof (update_stable None id delay _ (Hc _ eq_refl) H) as Hu.
    destruct (update clock None id delay (loop st)). by injection Ha as <- <-.
  - by injection Ha as <- <-.
  - destruct (scopes st !! k) as [s|]; [|done]. injection Ha as <- <-.
    apply (stable_submit D P HP); [by apply Hc|done].
  - destruct (_ ≫= _), (scopes st !! k); injection Ha as <- <-; try done. by apply cancel_stable.
  - destruct (_ ≫= _) as [impl|], (scopes st !! k) as [s|]; try by injection Ha as <- <-.
    unfold ScopedScheduler.updateImpl in Ha.
    pose proof (update_stable (Some (ScopedScheduler.mSelf s)) (ScopedScheduler.mTask impl) delay _ (Hc _ eq_refl) H) as Hu.
    cbn in Ha. destruct (update _ _ _ _ _) as [[]]; by injection Ha as <- <-.
  - destruct (scopes st !! k) as [s|]; [|done]. injection Ha as <- <-. by apply destroy_stable.
Qed.

End Stable.

Lemma step_stable D P st st' : stable D P -> step clock D st st' -> P (loop st) -> P (loop st').
Proof.
  intros HP [c r st0 st1 Hc Ha|task l ? Hr Hb|?] H.
  - by apply (apply_stable D P (stable_stable_calls D P HP) c r st0).
  - by eapply (stable_begin D P HP).
  - by apply (stable_finish D P HP).
Qed.

Lemma steps_stable D P st st' : stable D P -> rtc (step clock D) st st' -> P (loop st) -> P (loop st').
Proof. intros HP. induction 1; [done|]. intros H1. by apply IHrtc, (step_stable D P x y). Qed.

(** A run is a sequence of steps. *)
Lemma exec_steps D p : forall st w st', prog_ok D p -> exec (W := W) clock p st = Some (w, st') -> rtc (step clock D) st st'.
Proof.
  induction p as [w0|c k IH]; intros st w st' Hp He; cbn [exec prog_ok] in *.
  - by injection He as <- <-.
  - destruct (apply clock c st) as [[r st1]|] eqn:Ea; [|done]. destruct Hp as [Hc Hk].
    eapply rtc_l; [by eapply step_call|]. by eapply IH.
Qed.

Lemma run_steps D fuel : forall w st w' st', (forall f w, prog_ok D (body f w)) -> mRunning (loop st) = None ->
  run clock body fuel w st = Some (w', st') -> rtc (step clock D) st st'.
Proof.
  induction fuel as [|fuel IH]; intros w st w' st' Hb Hr H; cbn [run] in H;
    destruct (begin clock (loop st)) as [[task|] l] eqn:Eb; try done.
  1, 3: injection H as <- <-; apply rtc_once; by eapply step_begin.
  destruct (exec clock (body (mFunc task) w) (with_loop st l)) as [[w1 st1]|] eqn:Ee; [|done].
  eapply rtc_l; [by eapply step_begin|]. etrans; [by eapply exec_steps|].
  eapply rtc_l; [apply step_finish|]. by eapply IH.
Qed.

(** **** The log only grows *)

Lemma log_stable D log : stable D (fun s => log `prefix_of` mLog s).
Proof.
  split; [split; [intros by_ delay f s _|intros id s]|intros s r l _ Hb|done]; intros [k Hk].
  - exists (k ++ [Submitted (mkTask (mNextId s) (clock (mTicks s) + delay * 1000000) f by_)]). cbn. by rewrite Hk, app_assoc.
  - unfold cancelImpl. destruct (erase _ _); [|by exists k]. exists (k ++ [Cancelled id]). cbn. by rewrite Hk, app_assoc.
  - unfold begin in Hb. destruct (mTaskQueue s) as [|front q]; [injection Hb as <- <-; by exists k|]. cbn [now] in Hb.
    case_match; injection Hb as <- <-; [|by exists k]. exists (k ++ [Ran front (clock (mTicks s))]). cbn. by rewrite Hk, app_assoc.
Qed.

(** **** The order of the runs *)

Section Monotone.
Context (Hclock : forall m n, (m <= n)%nat -> clock m <= clock n).

Record ordered s : Prop := {
  ord_accounted : accounted s;
  ord_ran : StronglySorted earlier (map fst (runs (mLog s)));
  ord_due : forall task now, (task, now) ∈ runs (mLog s) -> mWhen task <= now <= clock (mTicks s);
  ord_waiting : forall task now y, (task, now) ∈ runs (mLog s) -> y ∈ mTaskQueue s -> earlier task y
}.

Lemma sorted_snoc q task :
  StronglySorted earlier q -> (forall y, y ∈ q -> earlier y task) -> StronglySorted earlier (q ++ [task]).
Proof.
  induction 1 as [|x q Hq IH Hx]; intros H; cbn; [by repeat constructor|]. constructor.
  - apply IH. intros y Hy. apply H. by right.
  - apply list.Forall_app. split; [done|]. constructor; [|done]. apply H. left.
Qed.

Lemma submit_ordered by_ delay f s : 0 <= delay -> ordered s -> ordered (submit_by clock by_ delay f s).2.
Proof using Hclock.
  intros Hd H. pose proof (Hclock (mTicks s) (S (mTicks s)) ltac:(lia)) as Hm.
  pose proof (ord_accounted _ H) as Ha.
  pose proof (fun log e => proj1 (proj2 (proj2 (log_ids log e)))) as E.
  split; [by apply submit_accounted| | |];
    cbn [submit_by now enqueue mLog mTaskQueue mTicks snd]; rewrite E; cbn [runs omap list_omap]; rewrite ?app_nil_r; [apply H| |].
  - intros task now Ht. pose proof (ord_due _ H task now Ht). lia.
  - intros task now y Ht [->|Hy]%TimedQueue.elem_of_insert; [|by apply (ord_waiting _ H task now)].
    pose proof (ord_due _ H task now Ht).
    assert (mId task < mNextId s)%nat.
    { apply (acc_fresh _ Ha). rewrite (acc_ledger _ Ha). apply elem_of_app. left. unfold ran_ids.
      apply (list_elem_of_fmap_2' (fun r => mId r.1) _ (task, now)); done. }
    unfold earlier. cbn. lia.
Qed.

Lemma cancelImpl_ordered id s : ordered s -> ordered (cancelImpl id s).
Proof.
  intros H. split; [apply cancelImpl_accounted, H| | |]; unfold cancelImpl; pose proof (erase_spec id (mTaskQueue s)) as He;
    (destruct (erase id (mTaskQueue s)) as [q|]; [|apply H]); destruct He as (x & _ & Hp & _);
    cbn [mLog mTaskQueue mTicks]; rewrite (proj1 (proj2 (proj2 (log_ids _ _)))); cbn; rewrite app_nil_r; try apply H.
  intros task now y Ht Hy. apply (ord_waiting _ H task now); [done|]. rewrite Hp. by right.
Qed.

Lemma begin_ordered s r l : mRunning s = None -> begin clock s = (r, l) -> ordered s -> ordered l.
Proof using Hclock.
  intros Hr Hb H. assert (accounted l) as Hl by (eapply begin_accounted; [done..|apply H]).
  pose proof (Hclock (mTicks s) (S (mTicks s)) ltac:(lia)) as Hm.
  unfold begin in Hb. destruct (mTaskQueue s) as [|front q] eqn:Eq; [by injection Hb as <- <-|].
  cbn [now] in Hb. destruct (Z.leb_spec (mWhen front) (clock (mTicks s))) as [Hdue|_]; injection Hb as <- <-.
  - pose proof (acc_sorted _ (ord_accounted _ H)) as Hs. rewrite Eq in Hs. apply StronglySorted_inv in Hs as [_ Hs].
    pose proof (proj1 (proj2 (proj2 (log_ids (mLog s) (Ran front (clock (mTicks s))))))) as E.
    split; [done| | |]; cbn [mLog mTaskQueue mTicks]; rewrite E; cbn.
    + rewrite map_app. apply sorted_snoc; [apply H|]. intros y ((task & now) & -> & Ht)%list_elem_of_fmap.
      apply (ord_waiting _ H task now); [done|]. rewrite Eq. left.
    + intros task now [Ht|[= -> ->]%list_elem_of_singleton]%elem_of_app; [|lia].
      pose proof (ord_due _ H task now Ht). lia.
    + intros task now y [Ht|[= -> ->]%list_elem_of_singleton]%elem_of_app Hy; [|by apply (Forall_elem _ _ _ Hs)].
      apply (ord_waiting _ H task now); [done|]. rewrite Eq. by right.
  - split; cbn [mLog mTaskQueue mTicks]; try rewrite <- Eq; try apply H; try done.
    intros task now Ht. pose proof (ord_due _ H task now Ht). lia.
Qed.

Lemma ordered_stable : stable (fun delay => 0 <= delay) ordered.
Proof using Hclock.
  split; [split|..]; intros.
  - by apply submit_ordered.
  - by apply cancelImpl_ordered.
  - by eapply begin_ordered.
  - destruct H as [Ha H1 H2 H3]. split; [|done..]. destruct Ha. by split.
Qed.

End Monotone.

Lemma make_accounted : accounted (@LoopScheduler.make F).
Proof. split; cbn; [done|constructor|set_solver|done|constructor]. Qed.

Lemma reachable_accounted D st : rtc (step clock D) Tasks.make st -> accounted (loop st).
Proof. intros H. apply (steps_stable D accounted _ _ (accounted_stable D) H). apply make_accounted. Qed.

Lemma make_ordered : ordered (@LoopScheduler.make F).
Proof.
  split; [apply make_accounted|constructor| |]; [intros task now|intros task now y]; intros H; by apply elem_of_nil in H.
Qed.

(** **** What a scope has submitted *)

(** A task waiting that came through a scope is among the scope's, and the scope is
    there; what the scope has of the waiting tasks came through it. *)
Record scope_ok (sc : ScopedScheduler.t F) : Prop := {
  so_unique impl impl' : impl ∈ ScopedScheduler.mSubmitted sc -> impl' ∈ ScopedScheduler.mSubmitted sc ->
    ScopedScheduler.iId impl = ScopedScheduler.iId impl' -> impl = impl';
  so_fresh impl : impl ∈ ScopedScheduler.mSubmitted sc -> (ScopedScheduler.iId impl < ScopedScheduler.mNextImpl sc)%nat
}.

Record scoped st : Prop := {
  sc_self k sc : scopes st !! k = Some sc -> ScopedScheduler.mSelf sc = k /\ (k < mNextScope st)%nat /\ scope_ok sc;
  sc_has task k : task ∈ mTaskQueue (loop st) -> mBy task = Some k ->
    exists sc impl, scopes st !! k = Some sc /\ impl ∈ ScopedScheduler.mSubmitted sc /\ ScopedScheduler.mTask impl = mId task;
  sc_only k sc impl task : scopes st !! k = Some sc -> impl ∈ ScopedScheduler.mSubmitted sc ->
    task ∈ mTaskQueue (loop st) -> mId task = ScopedScheduler.mTask impl -> mBy task = Some k;
  sc_fresh k sc impl : scopes st !! k = Some sc -> impl ∈ ScopedScheduler.mSubmitted sc ->
    (ScopedScheduler.mTask impl < mNextId (loop st))%nat
}.

(** **** Cancelling takes one task away *)

Lemma cancelImpl_queue id s : accounted s ->
  mTaskQueue (cancelImpl id s) = filter (fun task => mId task <> id) (mTaskQueue s).
Proof.
  intros H. pose proof (queued_once _ H) as Hn. unfold cancelImpl.
  enough (match erase id (mTaskQueue s) with Some q => q | None => mTaskQueue s end =
          filter (fun task => mId task <> id) (mTaskQueue s)) as <- by (by destruct (erase _ _)).
  induction (mTaskQueue s) as [|task q IH]; [done|]. cbn [erase ids map] in *. apply list.NoDup_cons in Hn as [Hx Hn].
  specialize (IH Hn). case_bool_decide as E.
  - rewrite filter_cons_False by congruence. symmetry. apply TimedQueue.list_filter_all. intros y Hy <-. apply Hx. rewrite E.
    by apply (list_elem_of_fmap_2 mId).
  - rewrite filter_cons_True by done. rewrite <- IH. by destruct (erase id q).
Qed.

Lemma lock_some id s task : lock id s = Some task -> mId task = id.
Proof. unfold lock. destruct (list_find _ _) as [[i x]|] eqn:E; [|done]. cbn. intros [= <-]. by apply list_find_Some in E as (_ & E & _). Qed.

Lemma lock_queued task s : task ∈ mTaskQueue s -> is_Some (lock (mId task) s).
Proof.
  intros H. unfold lock. destruct (list_find_elem_of (fun x => mId x = mId task) (mTaskQueue s ++ option_list (mRunning s)) task)
    as [y ->]; [|done|by eexists]. apply elem_of_app. by left.
Qed.

Lemma cancel_queue id s : accounted s -> mTaskQueue (cancel id s) = filter (fun task => mId task <> id) (mTaskQueue s).
Proof.
  intros H. unfold cancel. destruct (lock id s) as [task|] eqn:E.
  - by rewrite (lock_some _ _ _ E), cancelImpl_queue.
  - symmetry. apply TimedQueue.list_filter_all. intros y Hy <-. apply lock_queued in Hy. rewrite E in Hy. by destruct Hy.
Qed.

Lemma cancel_next id s : mNextId (cancel id s) = mNextId s.
Proof. unfold cancel, cancelImpl. destruct (lock id s); [|done]. by destruct (erase _ _). Qed.

Lemma scoped_loop st l :
  scoped st -> (mNextId (loop st) <= mNextId l)%nat ->
  (forall task, task ∈ mTaskQueue l ->
     task ∈ mTaskQueue (loop st) \/ (mNextId (loop st) <= mId task)%nat /\ mBy task = None) ->
  scoped (with_loop st l).
Proof.
  intros H Hn Hq. split; cbn [with_loop scopes loop mNextScope].
  - apply H.
  - intros task k [Ht|[_ Ht]]%Hq Hk; [by apply H|congruence].
  - intros k sc impl task Hk Hi [Ht|[Ht _]]%Hq E; [by eapply (sc_only _ H)|].
    pose proof (sc_fresh _ H k sc impl Hk Hi). lia.
  - intros k sc impl Hk Hi. pose proof (sc_fresh _ H k sc impl Hk Hi). lia.
Qed.

(** What a call to the scope [k] does. *)
Record scope_moves st (k : nat) (sc sc' : ScopedScheduler.t F) l : Prop := {
  mv_self : ScopedScheduler.mSelf sc' = ScopedScheduler.mSelf sc;
  mv_ok : scope_ok sc';
  mv_next : (mNextId (loop st) <= mNextId l)%nat;
  mv_queue task : task ∈ mTaskQueue l -> task ∈ mTaskQueue (loop st) \/
    (mNextId (loop st) <= mId task)%nat /\ mBy task = Some k /\
    exists impl, impl ∈ ScopedScheduler.mSubmitted sc' /\ ScopedScheduler.mTask impl = mId task;
  mv_new impl : impl ∈ ScopedScheduler.mSubmitted sc' -> impl ∈ ScopedScheduler.mSubmitted sc \/
    (mNextId (loop st) <= ScopedScheduler.mTask impl < mNextId l)%nat;
  mv_gone impl task : impl ∈ ScopedScheduler.mSubmitted sc -> task ∈ mTaskQueue l ->
    mId task = ScopedScheduler.mTask impl -> impl ∈ ScopedScheduler.mSubmitted sc'
}.

Lemma scoped_scope st k sc sc' l :
  accounted (loop st) -> scoped st -> scopes st !! k = Some sc -> scope_moves st k sc sc' l ->
  scoped (with_scope st k sc' l).
Proof.
  intros Ha H Hk M. destruct (sc_self _ H k sc Hk) as (Hself & Hlt & _). pose proof (mv_next _ _ _ _ _ M) as Hn.
  assert (forall task, task ∈ mTaskQueue (loop st) -> (mId task < mNextId (loop st))%nat) as Hold.
  { intros task Ht. by apply (acc_fresh _ Ha), queued_submitted. }
  split; cbn [with_scope scopes loop mNextScope].
  - intros j sc0 [(-> & <-)|(Hj & E)]%lookup_insert_Some; [|by apply H].
    rewrite (mv_self _ _ _ _ _ M). split; [done|]. split; [done|apply M].
  - intros task j Ht Hj. destruct (mv_queue _ _ _ _ _ M task Ht) as [Hq|(_ & Hby & impl & Hi & E)].
    + destruct (sc_has _ H task j Hq Hj) as (sc0 & impl & E0 & Hi & E). destruct (decide (j = k)) as [->|Hne].
      * rewrite E0 in Hk. injection Hk as ->. exists sc', impl. rewrite lookup_insert_eq.
        split; [done|]. split; [|done]. by eapply (mv_gone _ _ _ _ _ M).
      * exists sc0, impl. by rewrite lookup_insert_ne by done.
    + rewrite Hby in Hj. injection Hj as <-. exists sc', impl. by rewrite lookup_insert_eq.
  - intros j sc0 impl task [(-> & <-)|(Hj & E0)]%lookup_insert_Some Hi Ht E.
    + destruct (mv_queue _ _ _ _ _ M task Ht) as [Hq|(_ & Hby & _)]; [|done].
      destruct (mv_new _ _ _ _ _ M impl Hi) as [Hi0|Hi0]; [by eapply (sc_only _ H)|]. apply Hold in Hq. lia.
    + pose proof (sc_fresh _ H j sc0 impl E0 Hi). destruct (mv_queue _ _ _ _ _ M task Ht) as [Hq|(Hnew & _)]; [|lia].
      by eapply (sc_only _ H).
  - intros j sc0 impl [(-> & <-)|(Hj & E0)]%lookup_insert_Some Hi.
    + destruct (mv_new _ _ _ _ _ M impl Hi) as [Hi0|Hi0]; [|lia]. pose proof (sc_fresh _ H j sc impl Hk Hi0). lia.
    + pose proof (sc_fresh _ H j sc0 impl E0 Hi). lia.
Qed.

Definition scope_impls (sc : ScopedScheduler.t F) := ScopedScheduler.mSubmitted sc.

Lemma removeExpired_elem sc l impl :
  impl ∈ scope_impls (ScopedScheduler.removeExpiredLocked sc l) <->
  is_Some (lock (ScopedScheduler.mTask impl) l) /\ impl ∈ scope_impls sc.
Proof. unfold scope_impls, ScopedScheduler.removeExpiredLocked. cbn [ScopedScheduler.mSubmitted]. by rewrite list_elem_of_filter. Qed.

Lemma scope_ok_sub sc sc' :
  scope_ok sc -> (forall impl, impl ∈ scope_impls sc' -> impl ∈ scope_impls sc) ->
  ScopedScheduler.mNextImpl sc' = ScopedScheduler.mNextImpl sc -> scope_ok sc'.
Proof. intros [Hu Hf] Hs E. split; intros; rewrite ?E; [apply Hu|apply Hf]; by try apply Hs. Qed.

Lemma scope_ok_push sc id f : scope_ok sc -> scope_ok (ScopedScheduler.push id f sc).2.
Proof.
  intros [Hu Hf]. split; cbn.
  - intros impl impl' [H1|H1%list_elem_of_singleton]%elem_of_app [H2|H2%list_elem_of_singleton]%elem_of_app E;
      [by apply Hu| | |congruence]; subst; cbn in E; [apply Hf in H1|apply Hf in H2]; lia.
  - intros impl [H1|H1%list_elem_of_singleton]%elem_of_app; [apply Hf in H1|subst; cbn]; lia.
Qed.

Lemma lock_impl_elem sc id impl : ScopedScheduler.lock_impl id sc = Some impl -> impl ∈ scope_impls sc.
Proof.
  unfold ScopedScheduler.lock_impl. destruct (list_find _ _) as [[i x]|] eqn:E; [|done]. cbn. intros [= <-].
  apply list_find_Some in E as (E & _). by eapply list_elem_of_lookup_2.
Qed.

Lemma submit_moves st k sc delay f :
  accounted (loop st) -> scoped st -> scopes st !! k = Some sc ->
  let '(id, sc', l) := ScopedScheduler.submit clock delay f sc (loop st) in scope_moves st k sc sc' l.
Proof.
  intros Ha H Hk. destruct (sc_self _ H k sc Hk) as (Hself & _ & Hok).
  split; cbn -[ScopedScheduler.removeExpiredLocked].
  - done.
  - apply (scope_ok_push (ScopedScheduler.removeExpiredLocked sc (loop st)) (mNextId (loop st)) f).
    eapply scope_ok_sub; [done| |done]. by intros impl [_ Hi]%removeExpired_elem.
  - lia.
  - intros task [->|Ht]%TimedQueue.elem_of_insert; [right|by left]. split; [cbn; lia|].
    cbn [mBy mId]. split; [cbn; by rewrite Hself|]. eexists. split; [apply elem_of_app; right; left|done].
  - intros impl [[_ Hi]%removeExpired_elem|Hi%list_elem_of_singleton]%elem_of_app; [by left|subst; right; cbn; lia].
  - intros impl task Hi [->|Ht]%TimedQueue.elem_of_insert E; apply elem_of_app; left; apply removeExpired_elem.
    + pose proof (sc_fresh _ H k sc impl Hk Hi). cbn in E. lia.
    + split; [|done]. rewrite <- E. by apply lock_queued.
Qed.

Lemma cancel_moves st k sc impl :
  accounted (loop st) -> scoped st -> scopes st !! k = Some sc -> impl ∈ scope_impls sc ->
  let '(sc', l) := ScopedScheduler.cancelImpl impl sc (loop st) in scope_moves st k sc sc' l.
Proof.
  intros Ha H Hk Hi. destruct (sc_self _ H k sc Hk) as (Hself & _ & Hok).
  split; cbn -[filter]; rewrite ?cancel_next, ?cancel_queue by done.
  - done.
  - eapply scope_ok_sub; [done| |done]. by intros x [_ Hx]%list_elem_of_filter.
  - lia.
  - intros task [_ Ht]%list_elem_of_filter. by left.
  - intros x [_ Hx]%list_elem_of_filter. by left.
  - intros x task Hx [Hne Ht]%list_elem_of_filter E. apply list_elem_of_filter. split; [|done].
    intros Heq. by rewrite (so_unique _ Hok x impl Hx Hi Heq) in E.
Qed.

Lemma update_shape by_ id delay l : accounted l ->
  update clock by_ id delay l = (None, l) \/
  exists task l', update clock by_ id delay l = (Some (mNextId l), l') /\ mNextId l' = S (mNextId l) /\
    mId task = mNextId l /\ mBy task = by_ /\
    mTaskQueue l' = TimedQueue.insert mWhen task (filter (fun task => mId task <> id) (mTaskQueue l)).
Proof.
  intros Ha. unfold update, updateImpl. destruct (lock id l) as [old|] eqn:E; [right|by left].
  pose proof (cancelImpl_queue (mId old) l Ha) as Hq. pose proof (lock_some _ _ _ E) as Hid.
  assert (mNextId (cancelImpl (mId old) l) = mNextId l) as Hn.
  { unfold cancelImpl. by destruct (erase _ _). }
  cbn [submit_by now mNextId mTicks]. eexists (mkTask _ _ _ _), _. rewrite <- Hn. split; [reflexivity|].
  cbn [enqueue mNextId mTaskQueue]. rewrite Hq, Hid. split; [done|]. split; [|split; [|reflexivity]]; done.
Qed.

Lemma update_moves st k sc impl delay :
  accounted (loop st) -> scoped st -> scopes st !! k = Some sc -> impl ∈ scope_impls sc ->
  let '(id, sc', l) := ScopedScheduler.updateImpl clock impl delay sc (loop st) in scope_moves st k sc sc' l.
Proof.
  intros Ha H Hk Hi. destruct (sc_self _ H k sc Hk) as (Hself & _ & Hok). unfold ScopedScheduler.updateImpl.
  set (sc1 := ScopedScheduler.erase (ScopedScheduler.iId impl) (ScopedScheduler.removeExpiredLocked sc (loop st))).
  assert (forall x, x ∈ scope_impls sc1 -> x ∈ scope_impls sc) as Hsub.
  { intros x (_ & Hx)%list_elem_of_filter. by apply removeExpired_elem in Hx as [_ Hx]. }
  assert (scope_ok sc1) as Hok1 by (by eapply scope_ok_sub).
  assert (forall x task, x ∈ scope_impls sc -> task ∈ mTaskQueue (loop st) -> mId task = ScopedScheduler.mTask x ->
            ScopedScheduler.mTask x <> ScopedScheduler.mTask impl -> x ∈ scope_impls sc1) as Hstay.
  { intros x task Hx Ht E Hne. apply list_elem_of_filter. split.
    - intros Heq. by rewrite (so_unique _ Hok x impl Hx Hi Heq) in Hne.
    - apply removeExpired_elem. split; [|done]. rewrite <- E. by apply lock_queued. }
  destruct (update_shape (Some (ScopedScheduler.mSelf sc1)) (ScopedScheduler.mTask impl) delay (loop st) Ha)
    as [E|(task0 & l' & E & Hn & Hid & Hby & Hq)].
  - rewrite E. split; [done|done|lia|intros task Ht; by left|intros x Hx; left; by apply Hsub|].
    intros x task Hx Ht Ex. apply (Hstay x task); try done. intros Heq.
    unfold update in E. destruct (lock_queued _ _ Ht) as [y Hy]. rewrite Ex, Heq in Hy. by rewrite Hy in E.
  - rewrite E. cbn [ScopedScheduler.push]. split; cbn [ScopedScheduler.mSelf ScopedScheduler.mSubmitted].
    + done.
    + apply (scope_ok_push sc1 (mNextId (loop st)) (ScopedScheduler.mFunc impl) Hok1).
    + lia.
    + rewrite Hq. intros task [->|[_ Ht]%list_elem_of_filter]%TimedQueue.elem_of_insert; [right|by left].
      split; [lia|]. split; [by rewrite Hby; cbn; rewrite Hself|].
      eexists. split; [apply elem_of_app; right; left|done].
    + intros x [Hx|Hx%list_elem_of_singleton]%elem_of_app; [left; by apply Hsub|subst; right; cbn; lia].
    + rewrite Hq. intros x task Hx [->|[Hne Ht]%list_elem_of_filter]%TimedQueue.elem_of_insert Ex; apply elem_of_app; left.
      * pose proof (sc_fresh _ H k sc x Hk Hx). lia.
      * apply (Hstay x task Hx Ht Ex). by rewrite <- Ex.
Qed.

(** The destructor cancels what the scope has. *)
Lemma destroy_queue (impls : list (ScopedScheduler.TaskImpl F)) : forall l, accounted l ->
  let l' := fold_left (fun l impl => cancel (ScopedScheduler.mTask impl) l) impls l in
  mNextId l' = mNextId l /\
  mTaskQueue l' = filter (fun task => mId task ∉ map ScopedScheduler.mTask impls) (mTaskQueue l).
Proof using clock.
  induction impls as [|impl impls IH]; intros l H; cbn [fold_left map].
  - split; [done|]. symmetry. apply TimedQueue.list_filter_all. intros y _. apply not_elem_of_nil.
  - destruct (IH (cancel (ScopedScheduler.mTask impl) l)) as [En Eq].
    { by apply (cancel_stable (fun _ => True) accounted (stable_stable_calls _ _ (accounted_stable _))). }
    rewrite En, Eq, cancel_next, cancel_queue by done. split; [done|]. rewrite list_filter_filter.
    apply list_filter_iff. intros y. rewrite not_elem_of_cons. tauto.
Qed.

Lemma end_scope_queue st k r st' :
  accounted (loop st) -> scoped st -> apply clock (EndScope k) st = Some (r, st') ->
  scopes st' = delete k (scopes st) /\ mNextScope st' = mNextScope st /\ mNextId (loop st') = mNextId (loop st) /\
  (k < mNextScope st)%nat /\
  mTaskQueue (loop st') = filter (fun task => mBy task <> Some k) (mTaskQueue (loop st)).
Proof.
  intros Ha H He. cbn [apply] in He. destruct (scopes st !! k) as [sc|] eqn:Hk; [|done]. injection He as <- <-.
  cbn [scopes mNextScope loop]. destruct (destroy_queue (scope_impls sc) (loop st) Ha) as [En Eq].
  split; [done|]. split; [done|]. split; [exact En|]. split; [by apply (sc_self _ H) in Hk as (_ & ? & _)|].
  unfold ScopedScheduler.destroy. fold (scope_impls sc). rewrite Eq.
  apply TimedQueue.filter_ext_elem. intros task Ht. split; intros Hno Hin; apply Hno.
  - destruct (sc_has _ H task k Ht Hin) as (sc0 & impl & E0 & Hi & <-). rewrite Hk in E0. injection E0 as <-.
    by apply (list_elem_of_fmap_2 ScopedScheduler.mTask).
  - apply list_elem_of_fmap in Hin as (impl & E & Hi). by eapply (sc_only _ H).
Qed.

Lemma end_scoped st k r st' :
  accounted (loop st) -> scoped st -> apply clock (EndScope k) st = Some (r, st') -> scoped st'.
Proof.
  intros Ha H He. destruct (end_scope_queue st k r st' Ha H He) as (E1 & E2 & E3 & _ & E5).
  split; rewrite ?E1, ?E2, ?E3, ?E5.
  - intros j sc [_ Hj]%lookup_delete_Some. by apply H.
  - intros task j [Hne Ht]%list_elem_of_filter Hj. destruct (sc_has _ H task j Ht Hj) as (sc & impl & E & Hi & Hm).
    exists sc, impl. rewrite lookup_delete_ne by congruence. done.
  - intros j sc impl task [_ Hj]%lookup_delete_Some Hi [_ Ht]%list_elem_of_filter. by eapply (sc_only _ H).
  - intros j sc impl [_ Hj]%lookup_delete_Some Hi. by eapply (sc_fresh _ H).
Qed.

Lemma new_scoped st :
  scoped st -> scoped (mk (loop st) (<[mNextScope st := ScopedScheduler.mk (mNextScope st) [] 0]> (scopes st)) (S (mNextScope st))).
Proof.
  intros H.
  assert (forall j sc, scopes st !! j = Some sc -> j <> mNextScope st) as Hne.
  { intros j sc Hj. apply (sc_self _ H) in Hj as (_ & Hj & _). lia. }
  split; cbn [scopes loop mNextScope].
  - intros k sc [(<- & <-)|(_ & Hk)]%lookup_insert_Some.
    + cbn. split; [done|]. split; [lia|]. split; cbn; [intros impl impl' Hi|intros impl Hi]; by apply elem_of_nil in Hi.
    + destruct (sc_self _ H k sc Hk) as (E & Hlt & Hok). split; [done|]. split; [lia|done].
  - intros task k Ht Hk. destruct (sc_has _ H task k Ht Hk) as (sc & impl & E & Hr). exists sc, impl.
    rewrite lookup_insert_ne; [done|]. apply not_eq_sym. by eapply Hne.
  - intros k sc impl task [(<- & <-)|(_ & Hk)]%lookup_insert_Some Hi; [by apply elem_of_nil in Hi|]. by eapply (sc_only _ H).
  - intros k sc impl [(<- & <-)|(_ & Hk)]%lookup_insert_Some Hi; [by apply elem_of_nil in Hi|]. by eapply (sc_fresh _ H).
Qed.

Lemma begin_spec s r l : begin clock s = (r, l) ->
  mNextId l = mNextId s /\
  match r with
  | Some task => exists now, mTaskQueue s = task :: mTaskQueue l /\ mLog l = mLog s ++ [Ran task now]
  | None => mTaskQueue l = mTaskQueue s /\ mLog l = mLog s
  end.
Proof.
  unfold begin. destruct (mTaskQueue s) as [|front q] eqn:E; [intros [= <- <-]; by rewrite E|].
  cbn [now]. case_match; intros [= <- <-]; cbn; [|done]. split; [done|]. by eexists.
Qed.

Lemma apply_scoped c r st st' : accounted (loop st) -> scoped st -> apply clock c st = Some (r, st') -> scoped st'.
Proof.
  intros Ha H He. destruct c as [delay f|id|id delay| |k delay f|k id|k id delay|k]; cbn [apply] in He.
  - injection He as <- <-. apply scoped_loop; [done|cbn; lia|]. cbn.
    intros task [->|Ht]%TimedQueue.elem_of_insert; [right; cbn; split; [lia|done]|by left].
  - injection He as <- <-. apply scoped_loop; [done|by rewrite cancel_next|]. rewrite cancel_queue by done.
    intros task [_ Ht]%list_elem_of_filter. by left.
  - destruct (update_shape None id delay (loop st) Ha) as [E|(task0 & l' & E & Hn & Hid & Hby & Hq)];
      rewrite E in He; injection He as <- <-; (apply scoped_loop; [done|lia|]); [by left|].
    rewrite Hq. intros task [->|[_ Ht]%list_elem_of_filter]%TimedQueue.elem_of_insert; [right; split; [lia|done]|by left].
  - injection He as <- <-. by apply new_scoped.
  - destruct (scopes st !! k) as [sc|] eqn:Hk; [|done]. injection He as <- <-.
    eapply scoped_scope; [done..|]. by apply (submit_moves st k sc delay f).
  - destruct (scopes st !! k) as [sc|] eqn:Hk; [|by injection He as <- <-]. cbn [mbind option_bind] in He.
    destruct (ScopedScheduler.lock_impl id sc) as [impl|] eqn:Hl; [|by injection He as <- <-]. injection He as <- <-.
    eapply scoped_scope; [done..|]. by apply (cancel_moves st k sc impl), (lock_impl_elem sc id).
  - destruct (scopes st !! k) as [sc|] eqn:Hk; [|by injection He as <- <-]. cbn [mbind option_bind] in He.
    destruct (ScopedScheduler.lock_impl id sc) as [impl|] eqn:Hl; [|by injection He as <- <-].
    pose proof (update_moves st k sc impl delay Ha H Hk (lock_impl_elem _ _ _ Hl)) as M.
    destruct (ScopedScheduler.updateImpl _ _ _ _ _) as [[]]. injection He as <- <-. by eapply scoped_scope.
  - by apply (end_scoped st k r st' Ha H).
Qed.

Lemma step_scoped D st st' : accounted (loop st) -> scoped st -> step clock D st st' -> scoped st'.
Proof.
  intros Ha H Hs. destruct Hs as [c r st0 st1 _ He|task l st0 Hr Hb|st0].
  - by apply (apply_scoped c r st0).
  - destruct (begin_spec _ _ _ Hb) as [En Hq]. apply scoped_loop; [done|lia|]. intros y Hy. left.
    destruct task as [task|]; [|by rewrite <- (proj1 Hq)]. destruct Hq as (now & -> & _). by right.
  - apply scoped_loop; [done|done|]. by left.
Qed.

Lemma steps_scoped D st st' : rtc (step clock D) st st' -> accounted (loop st) -> scoped st -> accounted (loop st') /\ scoped st'.
Proof.
  induction 1 as [|st st1 st' Hs _ IH]; intros Ha H; [done|].
  apply IH; [by apply (step_stable D accounted st _ (accounted_stable D))|by eapply step_scoped].
Qed.

Lemma make_scoped : scoped (@Tasks.make F).
Proof. split; cbn; [done|intros task k Ht; by apply elem_of_nil in Ht|done|done]. Qed.

Lemma runs_stable log : stable_calls (fun _ => True) (fun s => runs (mLog s) = log).
Proof.
  split; [intros by_ delay f s _ H|intros id s H].
  - cbn [submit_by now enqueue mLog snd]. rewrite (proj1 (proj2 (proj2 (log_ids _ _)))), H. apply app_nil_r.
  - unfold cancelImpl. destruct (erase _ _); [|done]. cbn [mLog].
    rewrite (proj1 (proj2 (proj2 (log_ids _ _)))), H. apply app_nil_r.
Qed.

Lemma apply_scopes c r st st' k : apply clock c st = Some (r, st') -> scopes st !! k = None -> (k < mNextScope st)%nat ->
  scopes st' !! k = None /\ (k < mNextScope st')%nat.
Proof.
  intros He Hk Hlt. destruct c as [delay f|id|id delay| |j delay f|j id|j id delay|j]; cbn [apply] in He.
  - by injection He as <- <-.
  - by injection He as <- <-.
  - destruct (update _ _ _ _ _). by injection He as <- <-.
  - injection He as <- <-. cbn. rewrite lookup_insert_ne by lia. split; [done|lia].
  - destruct (scopes st !! j) as [sc|] eqn:Hj; [|done]. injection He as <- <-. cbn.
    rewrite lookup_insert_ne by congruence. done.
  - destruct (scopes st !! j) as [sc|] eqn:Hj; [|by injection He as <- <-]. cbn [mbind option_bind] in He.
    destruct (ScopedScheduler.lock_impl id sc); injection He as <- <-; [|done]. cbn.
    rewrite lookup_insert_ne by congruence. done.
  - destruct (scopes st !! j) as [sc|] eqn:Hj; [|by injection He as <- <-]. cbn [mbind option_bind] in He.
    destruct (ScopedScheduler.lock_impl id sc); [|by injection He as <- <-].
    destruct (ScopedScheduler.updateImpl _ _ _ _ _) as [[]]. injection He as <- <-. cbn.
    rewrite lookup_insert_ne by congruence. done.
  - destruct (scopes st !! j) as [sc|] eqn:Hj; [|done]. injection He as <- <-. cbn.
    rewrite lookup_delete_ne by congruence. done.
Qed.

(** Once a scope has ended, nobody puts a task into its name, and none of them runs. *)
Definition ended (k : nat) (ran : list (TaskImpl F * Z)) st : Prop :=
  accounted (loop st) /\ scoped st /\ scopes st !! k = None /\ (k < mNextScope st)%nat /\
  forall task now, (task, now) ∈ runs (mLog (loop st)) -> mBy task = Some k -> (task, now) ∈ ran.

Lemma ended_queue k ran st task : ended k ran st -> task ∈ mTaskQueue (loop st) -> mBy task <> Some k.
Proof. intros (_ & H & Hk & _) Ht Hby. destruct (sc_has _ H task k Ht Hby) as (sc & _ & E & _). by rewrite Hk in E. Qed.

Lemma ended_step D k ran st st' : ended k ran st -> step clock D st st' -> ended k ran st'.
Proof.
  intros He Hs. destruct (He) as (Ha & H & Hk & Hlt & Hran).
  split; [by apply (step_stable D accounted st _ (accounted_stable D))|]. split; [by eapply step_scoped|].
  destruct Hs as [c r st0 st' _ Hc|r l st0 Hr Hb|st0]; [|split; [done|]; split; [done|]..]; [| |done].
  - destruct (apply_scopes _ _ _ _ _ Hc Hk Hlt) as [E1 E2]. split; [done|]. split; [done|].
    assert (runs (mLog (loop st')) = runs (mLog (loop st0))) as ->; [|done].
    by apply (apply_stable (fun _ => True) (fun l => runs (mLog l) = runs (mLog (loop st0))) (runs_stable _) c r st0 st').
  - destruct (begin_spec _ _ _ Hb) as [_ Hq]. cbn [with_loop loop].
    destruct r as [task0|]; [|by rewrite (proj2 Hq)]. destruct Hq as (now0 & Hq & ->).
    rewrite (proj1 (proj2 (proj2 (log_ids _ _)))).
    intros task now [Ht|Ht]%elem_of_app Hby; [by apply Hran|]. exfalso.
    cbn in Ht. apply list_elem_of_singleton in Ht. injection Ht as -> ->.
    apply (ended_queue k ran st0 task0 He); [|done]. rewrite Hq. left.
Qed.

Lemma ended_steps D k ran st st' : rtc (step clock D) st st' -> ended k ran st -> ended k ran st'.
Proof. induction 1 as [|st st1 st' Hs _ IH]; [done|]. intros H. by apply IH, (ended_step D k ran st). Qed.

(** **** How long a run takes *)

(** A function of at most [n] calls, which delay by [d] at least, and that calls
    no scope but those of [K]. *)
Definition call_defined (K : nat -> Prop) (c : call F) : Prop :=
  match c with ScopedSubmit k _ _ => K k | EndScope _ => False | _ => True end.

Fixpoint tame (d : Z) (K : nat -> Prop) (n : nat) (p : prog F W) : Prop :=
  match p with
  | Return _ => True
  | Call c k =>
      match n with
      | O => False
      | S n => call_ok (fun delay => d <= delay) c /\ call_defined K c /\ forall r, tame d K n (k r)
      end
  end.

Definition present (K : nat -> Prop) st : Prop := forall k, K k -> is_Some (scopes st !! k).

Lemma update_ticks by_ id delay s : (mTicks (update clock by_ id delay s).2 <= S (mTicks s))%nat.
Proof.
  unfold update, updateImpl. destruct (lock id s); [|cbn; lia]. cbn. unfold cancelImpl. destruct (erase _ _); cbn; lia.
Qed.

Lemma cancel_ticks id s : mTicks (cancel id s) = mTicks s.
Proof. unfold cancel, cancelImpl. destruct (lock id s); [|done]. by destruct (erase _ _). Qed.

Lemma apply_tame K c st : call_defined K c -> present K st ->
  exists r st', apply clock c st = Some (r, st') /\ present K st' /\ (mTicks (loop st') <= S (mTicks (loop st)))%nat.
Proof.
  intros Hc HK.
  assert (forall k sc l, present K (with_scope st k sc l)) as Hw.
  { intros k sc l j Hj. cbn. destruct (decide (j = k)) as [->|]; [rewrite lookup_insert_eq; by eexists|].
    rewrite lookup_insert_ne by done. by apply HK. }
  destruct c as [delay f|id|id delay| |k delay f|k id|k id delay|k]; cbn [apply call_defined] in *.
  - do 2 eexists. split; [reflexivity|]. split; [done|cbn; lia].
  - do 2 eexists. split; [reflexivity|]. split; [done|]. cbn. rewrite cancel_ticks. lia.
  - pose proof (update_ticks None id delay (loop st)) as Ht. destruct (update clock None id delay (loop st)).
    do 2 eexists. by split.
  - do 2 eexists. split; [reflexivity|]. split; [|cbn; lia]. intros j Hj. cbn.
    destruct (decide (j = mNextScope st)) as [->|]; [rewrite lookup_insert_eq; by eexists|].
    rewrite lookup_insert_ne by done. by apply HK.
  - destruct (HK k Hc) as [sc ->]. do 2 eexists. split; [reflexivity|]. split; [apply Hw|cbn; lia].
  - destruct (scopes st !! k) as [sc|]; [|do 2 eexists; split; [reflexivity|]; split; [done|lia]]. cbn [mbind option_bind].
    destruct (ScopedScheduler.lock_impl id sc); do 2 eexists; (split; [reflexivity|]); split; try done; [|lia].
    cbn. rewrite cancel_ticks. lia.
  - destruct (scopes st !! k) as [sc|]; [|do 2 eexists; split; [reflexivity|]; split; [done|lia]]. cbn [mbind option_bind].
    destruct (ScopedScheduler.lock_impl id sc) as [impl|]; [|do 2 eexists; split; [reflexivity|]; split; [done|lia]].
    unfold ScopedScheduler.updateImpl.
    match goal with |- context [update clock ?a ?b ?c ?d] => pose proof (update_ticks a b c d) as Ht;
      destruct (update clock a b c d) as [[id'|] l] end; do 2 eexists; (split; [reflexivity|]); by split.
  - done.
Qed.

Section Deadline.
Context (Hclock : forall m n, (m <= n)%nat -> clock m <= clock n) (d : Z) (start : nat).
Let deadline : Z := clock start + d * 1000000.

Definition due (s : LoopScheduler.t F) : nat := length (filter (fun task => mWhen task < deadline) (mTaskQueue s)).

Lemma due_stable m : stable_calls (fun delay => d <= delay) (fun s => (start <= mTicks s)%nat /\ (due s <= m)%nat).
Proof using Hclock.
  split; unfold due.
  - intros by_ delay f s Hd [Ht Hm]. cbn [submit_by now enqueue mTaskQueue mTicks snd]. split; [lia|].
    rewrite TimedQueue.filter_insert_out; [done|]. cbn [mWhen]. pose proof (Hclock start (mTicks s) Ht). unfold deadline. lia.
  - intros id s [Ht Hm]. unfold cancelImpl. pose proof (erase_spec id (mTaskQueue s)) as He.
    destruct (erase _ _) as [q|]; [|done]. destruct He as (x & _ & Hp & _). cbn. split; [done|].
    rewrite Hp, filter_cons in Hm. destruct (decide _); cbn in Hm; lia.
Qed.

Lemma exec_tame K m p : forall n st, tame d K n p -> present K st ->
  (start <= mTicks (loop st))%nat -> (due (loop st) <= m)%nat ->
  exists w st', exec (W := W) clock p st = Some (w, st') /\ present K st' /\
    (start <= mTicks (loop st'))%nat /\ (due (loop st') <= m)%nat /\ (mTicks (loop st') <= mTicks (loop st) + n)%nat.
Proof using Hclock.
  induction p as [w0|c k IH]; intros n st Hp HK Ht Hm; cbn [exec tame] in *.
  - exists w0, st. repeat (split; [done|]). lia.
  - destruct n as [|n]; [done|]. destruct Hp as (Hc & Hdef & Hk).
    destruct (apply_tame K c st Hdef HK) as (r & st1 & E & HK1 & Ht1). rewrite E. cbn [mbind option_bind].
    destruct (apply_stable _ _ (due_stable m) c r st st1 Hc E (conj Ht Hm)) as [Hs1 Hm1].
    destruct (IH r n st1 (Hk r) HK1 Hs1 Hm1) as (w & st' & E' & HK' & Hs' & Hm' & Ht'). exists w, st'.
    repeat (split; [done|]). lia.
Qed.

Lemma run_tame K B : (forall f w, tame d K B (body f w)) -> forall m w st,
  present K st -> (start <= mTicks (loop st))%nat -> (due (loop st) <= m)%nat ->
  (forall n, (n <= mTicks (loop st) + m * (B + 1))%nat -> clock n < deadline) ->
  is_Some (run clock body m w st).
Proof using Hclock.
  intros Hb. induction m as [|m IH]; intros w st HK Ht Hm Hn; cbn [run]; unfold begin, due in *;
    (destruct (mTaskQueue (loop st)) as [|front q] eqn:Eq; [done|]); cbn [now];
    (destruct (Z.leb_spec (mWhen front) (clock (mTicks (loop st)))) as [Hle|_]; [|done]);
    pose proof (Hn (mTicks (loop st)) ltac:(lia)) as Hlt; rewrite filter_cons_True in Hm by lia; cbn in Hm; [lia|].
  match goal with |- context [with_loop st ?l] => set (l1 := l) end.
  destruct (exec_tame K m (body (mFunc front) w) B (with_loop st l1) (Hb _ _) HK) as (w1 & st1 & E & HK1 & Hs1 & Hm1 & Ht1);
    [cbn; lia|unfold due; cbn; lia|].
  rewrite E. cbn [mbind option_bind]. apply IH; [done..|]. intros n Hn'. apply Hn. cbn in Hn', Ht1. lia.
Qed.

End Deadline.

(** *** What the schedulers promise *)

(** Nothing is lost and nothing happens twice: whatever is called, from
    outside or from the tasks that run, and through whatever scopes, the tasks
    submitted are exactly those that have run, those that were cancelled before
    they could, and those that wait, and each of them is only one of these. *)
Theorem tasks_accounted D st :
  rtc (step clock D) Tasks.make st ->
  let log := mLog (loop st) in
  submitted_ids log ≡ₚ ran_ids log ++ cancelled_ids log ++ ids (mTaskQueue (loop st)) /\ NoDup (submitted_ids log).
Proof. intros H. pose proof (reachable_accounted D st H) as Ha. by split; apply Ha. Qed.

(** [run] is steps of this kind and ends when nothing is due: the first task
    of the queue is later than the last reading of the clock.  All tasks ever run
    are in the order of their times, and of their submission where the times are
    equal, and none before its time. *)
Theorem run_in_order fuel w st w' st' :
  (forall m n, (m <= n)%nat -> clock m <= clock n) ->
  (forall f w, prog_ok (fun delay => 0 <= delay) (body f w)) ->
  rtc (step clock (fun delay => 0 <= delay)) Tasks.make st -> mRunning (loop st) = None ->
  run clock body fuel w st = Some (w', st') ->
  rtc (step clock (fun delay => 0 <= delay)) Tasks.make st' /\
  match mTaskQueue (loop st') with [] => True | front :: _ => clock (pred (mTicks (loop st'))) < mWhen front end /\
  StronglySorted earlier (map fst (runs (mLog (loop st')))) /\
  forall task now, (task, now) ∈ runs (mLog (loop st')) -> mWhen task <= now.
Proof.
  intros Hclock Hb Hst Hr H.
  assert (rtc (step clock (fun delay => 0 <= delay)) Tasks.make st') as Hst'.
  { etrans; [exact Hst|]. by eapply run_steps. }
  destruct (steps_stable _ _ _ _ (ordered_stable Hclock) Hst' make_ordered) as [_ Hs Hd _].
  split; [done|]. split; [|split; [done|]; intros task now Ht; apply (Hd task now Ht)].
  clear -H. revert w st H. induction fuel as [|fuel IH]; intros w st H; cbn [run] in H;
    destruct (begin clock (loop st)) as [[task|] l] eqn:Eb; try done.
  1, 3: injection H as <- <-; unfold begin in Eb; destruct (mTaskQueue (loop st)) as [|front q] eqn:Eq;
    [injection Eb as <-; cbn; by rewrite Eq|]; cbn [now] in Eb;
    (destruct (Z.leb_spec (mWhen front) (clock (mTicks (loop st)))); [done|]); injection Eb as <-; cbn; by rewrite Eq.
  destruct (exec clock (body (mFunc task) w) (with_loop st l)) as [[w1 st1]|]; [|done]. by eapply IH.
Qed.

(** [run] returns: when a function makes at most [B] calls, each with a delay
    of at least [d] milliseconds, and the clock has not advanced by [d] after the
    readings of as many functions as there were tasks, then no more functions
    than these are run.  (A function that submits itself without delay keeps [run]
    busy.) *)
Theorem run_returns d K B w st :
  (forall m n, (m <= n)%nat -> clock m <= clock n) ->
  (forall f w, tame d K B (body f w)) -> present K st ->
  (forall n, (n <= mTicks (loop st) + length (mTaskQueue (loop st)) * (B + 1))%nat ->
     clock n < clock (mTicks (loop st)) + d * 1000000) ->
  is_Some (run clock body (length (mTaskQueue (loop st))) w st).
Proof.
  intros Hclock Hb HK Hn. eapply (run_tame Hclock d (mTicks (loop st)) K B Hb); [done|lia| |done].
  apply length_filter.
Qed.

(** A task that is cancelled while it waits never runs, whatever is called
    afterwards. *)
Theorem cancelled_never_runs D task st st' :
  rtc (step clock D) Tasks.make st -> task ∈ mTaskQueue (loop st) ->
  rtc (step clock D) (with_loop st (cancel (mId task) (loop st))) st' ->
  mId task ∉ ran_ids (mLog (loop st')).
Proof.
  intros H Ht H'. pose proof (reachable_accounted D st H) as Ha.
  assert (step clock D st (with_loop st (cancel (mId task) (loop st)))) as Hs.
  { by apply (step_call _ _ (Cancel (mId task)) None). }
  assert (rtc (step clock D) Tasks.make st') as H2 by (etrans; [exact H|]; by eapply rtc_l).
  pose proof (acc_unique _ (reachable_accounted D st' H2)) as Hn. rewrite (acc_ledger _ (reachable_accounted D st' H2)) in Hn.
  apply list.NoDup_app in Hn as (_ & Hn & _). intros Hran. apply (Hn _ Hran), elem_of_app. left.
  enough (Cancelled (mId task) ∈ mLog (loop st')) as Hin.
  { apply list_elem_of_omap. by exists (Cancelled (mId task)). }
  destruct (steps_stable _ _ _ _ (log_stable D (mLog (cancel (mId task) (loop st)))) H') as [k ->]; [by exists []; rewrite app_nil_r|].
  apply elem_of_app. left. unfold cancel. destruct (lock_queued _ _ Ht) as [x Hx]. rewrite Hx, (lock_some _ _ _ Hx).
  unfold cancelImpl. pose proof (erase_spec (mId task) (mTaskQueue (loop st))) as He.
  destruct (erase _ _) as [q|]; [apply elem_of_app; right; left|]. exfalso. apply He. by apply (list_elem_of_fmap_2 mId).
Qed.

(** The end of a scope cancels the tasks that it has submitted and that still
    wait, and no others; from then on none of its tasks waits or runs, whatever is
    called. *)
Theorem scope_end D k r st st1 st' :
  rtc (step clock D) Tasks.make st -> apply clock (EndScope k) st = Some (r, st1) -> rtc (step clock D) st1 st' ->
  mTaskQueue (loop st1) = filter (fun task => mBy task <> Some k) (mTaskQueue (loop st)) /\
  (forall task, task ∈ mTaskQueue (loop st') -> mBy task <> Some k) /\
  forall task now, (task, now) ∈ runs (mLog (loop st')) -> mBy task = Some k -> (task, now) ∈ runs (mLog (loop st)).
Proof.
  intros H He H'. destruct (steps_scoped D _ _ H make_accounted make_scoped) as [Ha Hsc].
  destruct (end_scope_queue st k r st1 Ha Hsc He) as (E1 & E2 & _ & Hlt & Eq). split; [done|].
  assert (step clock D st st1) as Hs by (eapply step_call; [|exact He]; by intros delay [=]).
  assert (ended k (runs (mLog (loop st))) st1) as Hend.
  { split; [by apply (step_stable D accounted st _ (accounted_stable D))|]. split; [by eapply end_scoped|].
    rewrite E1, lookup_delete_eq, E2. split; [done|]. split; [done|].
    assert (runs (mLog (loop st1)) = runs (mLog (loop st))) as ->; [|done].
    apply (apply_stable (fun _ => True) (fun l => runs (mLog l) = runs (mLog (loop st))) (runs_stable _) (EndScope k) r st st1);
      done. }
  pose proof (ended_steps D k _ st1 st' H' Hend) as Hend'. split; [|apply Hend'].
  intros task. by apply (ended_queue k _ st' task Hend').
Qed.

(** The wait until the first task: never longer than until its time and less than
    a millisecond shorter, for times less than 2^31 milliseconds away ... *)
Lemma timeout_exact dflt front q s :
  mTaskQueue s = front :: q -> mWhen front - clock (mTicks s) < 2 ^ 31 * 1000000 ->
  let wait := getTimeoutMillis clock dflt s in
  0 <= wait /\ (wait = 0 \/ clock (mTicks s) + wait * 1000000 <= mWhen front < clock (mTicks s) + (wait + 1) * 1000000).
Proof.
  intros Hq Hlt. unfold getTimeoutMillis. rewrite Hq. set (n := mWhen front - clock (mTicks s)) in *. cbn zeta.
  destruct (Z.leb_spec (Z.quot n 1000000) 0); [lia|].
  assert (0 < n) as Hn by (Z.to_euclidean_division_equations; lia).
  rewrite Z.quot_div_nonneg in * by lia. destruct (Z.ltb_spec (2 ^ 32 - 1) (n / 1000000)); [zdm|].
  unfold i32, to_signed. rewrite Z.mod_small by zdm. case_match; [|zdm]. split; [lia|]. right. subst n. zdm.
Qed.

(** ... and negative for those between 2^31 and 2^32: the test compares with the
    maximum of [unsigned int], the result is an [int]. *)
Lemma far_timeout_negative dflt front q s :
  mTaskQueue s = front :: q -> 2 ^ 31 * 1000000 <= mWhen front - clock (mTicks s) < 2 ^ 32 * 1000000 ->
  getTimeoutMillis clock dflt s < 0.
Proof.
  intros Hq Hlt. unfold getTimeoutMillis. rewrite Hq. set (n := mWhen front - clock (mTicks s)) in *.
  rewrite Z.quot_div_nonneg by lia. destruct (Z.leb_spec (n / 1000000) 0); [zdm|].
  destruct (Z.ltb_spec (2 ^ 32 - 1) (n / 1000000)); [zdm|]. unfold i32, to_signed. rewrite Z.mod_small by zdm.
  case_match; zdm.
Qed.

End Props.

(** *** An example: a task that submits the next one in 10 ms, [n] times; the
    clock advances by a millisecond between its readings *)

Module SchedulerDemo.

Definition clock (n : nat) : Z := Z.of_nat n * 1000000.

Definition body (n : nat) (w : list nat) : prog nat (list nat) :=
  match n with O => Return (0%nat :: w) | S m => Call (Submit 10 m) (fun _ => Return (n :: w)) end.

Fixpoint apply_all (l : list (call nat)) (st : Tasks.t nat) : option (Tasks.t nat) :=
  match l with [] => Some st | c :: l => '(_, st) ← apply clock c st; apply_all l st end.

Definition calls : list (call nat) :=
  [NewScope; ScopedSubmit 0 0 1%nat; Submit 0 0%nat; Submit 1000 3%nat; ScopedSubmit 0 2000 2%nat; Cancel 2].

Definition demo : Tasks.t nat := default Tasks.make (apply_all calls Tasks.make).

Definition nonneg (delay : Z) : Prop := 0 <= delay.

Lemma clock_mono m n : (m <= n)%nat -> clock m <= clock n.
Proof. unfold clock. lia. Qed.

Lemma apply_all_steps l : forall st st',
  forallb (fun c => match delay_of c with Some d => 0 <=? d | None => true end) l = true ->
  apply_all l st = Some st' -> rtc (step clock nonneg) st st'.
Proof.
  induction l as [|c l IH]; intros st st' Hl H; cbn in H; [by injection H as <-|].
  cbn [forallb] in Hl. apply andb_prop in Hl as [Hc Hl]. destruct (apply clock c st) as [[r st1]|] eqn:E; [|done].
  eapply rtc_l; [|by apply IH]. eapply step_call; [|exact E]. intros delay Hd. rewrite Hd in Hc. unfold nonneg. lia.
Qed.

Lemma demo_reachable : rtc (step clock nonneg) Tasks.make demo.
Proof. apply (apply_all_steps calls); [done|]. vm_compute. reflexivity. Qed.

Lemma body_ok f w : prog_ok nonneg (body f w).
Proof. destruct f; cbn; [done|]. split; [|done]. intros delay [= <-]. unfold nonneg. lia. Qed.

Definition after_run : list nat * Tasks.t nat := default ([], Tasks.make) (run clock body 3 [] demo).

Example demo_ran : after_run.1 = [0; 1]%nat /\ ids (mTaskQueue (loop after_run.2)) = [4; 3]%nat.
Proof. split; vm_compute; reflexivity. Qed.

Lemma tasks_accounted_witness :
  submitted_ids (mLog (loop demo)) ≡ₚ
  ran_ids (mLog (loop demo)) ++ cancelled_ids (mLog (loop demo)) ++ ids (mTaskQueue (loop demo)).
Proof. apply (tasks_accounted clock nonneg demo demo_reachable). Defined.

Lemma run_in_order_witness : StronglySorted earlier (map fst (runs (mLog (loop after_run.2)))).
Proof.
  apply (run_in_order clock body 3 [] demo after_run.1 after_run.2 clock_mono body_ok demo_reachable);
    vm_compute; reflexivity.
Defined.

Lemma run_returns_witness : is_Some (run clock body (length (mTaskQueue (loop demo))) [] demo).
Proof.
  apply (run_returns clock body 10 (fun _ => False) 1 [] demo clock_mono).
  - intros [|f] w; cbn; [done|]. split; [|done]. intros delay [= <-]. lia.
  - by intros k.
  - intros n. assert (mTicks (loop demo) = 4%nat /\ length (mTaskQueue (loop demo)) = 3%nat) as [-> ->] by (by vm_compute).
    unfold clock. lia.
Defined.

Lemma cancelled_never_runs_witness : 1%nat ∉ ran_ids (mLog (cancel 1 (loop demo))).
Proof.
  apply (cancelled_never_runs clock nonneg (mkTask 1 (clock 1) 0%nat None) demo
           (with_loop demo (cancel 1 (loop demo))) demo_reachable); [|apply rtc_refl].
  apply list_elem_of_In. vm_compute. right. left. reflexivity.
Defined.

Lemma scope_end_witness : match apply clock (EndScope 0) demo with
  | Some (_, st) => mTaskQueue (loop st) = filter (fun task => mBy task <> Some 0%nat) (mTaskQueue (loop demo))
  | None => False end.
Proof.
  destruct (apply clock (EndScope 0) demo) as [[r st]|] eqn:E; [|by vm_compute in E].
  apply (scope_end clock nonneg 0 r demo st st demo_reachable E (rtc_refl _ _)).
Defined.

End SchedulerDemo.
