(* ===== verification/Pacing.v ===== *)
(** * Pacing: the packets of a frame spread over time ([SendPacer],
    src/send_pacer.cpp) and the part of [PeerCandidate::run] that gives it the
    frames (src/peer_candidate.cpp), with the counters of src/track_stats.cpp

    What the pacer shares with others by pointer - the history of packets, the
    source of the transport-wide numbers, the statistics of the tracks - is part of
    its state here.  The statistics of a track are found by its SSRC.  The callback
    [mOnSend] only notes the time for the keep-alive timer and is left out.
    [steady_clock::now()] is [clock n], in nanoseconds, at the [n]th reading. *)

From stdpp Require Import gmap.
From Stdlib Require Import SpecFloat.
From S2P Require Import Prelude Extension Tracks Rtp Packets ExtensionSources TwccPublish Srtp Scheduler.
Import Float.
Open Scope Z_scope.

(** ** TrackStats: the counters of what was sent *)

Module TrackStats.

Record t := mk { mSentFrames : Z; mSentPackets : Z; mSentBytes : Z }.

Definition make : t := mk 0 0 0.

(** [size_t]. *)
Definition incrementSentFrames (s : t) (increment : Z) : t :=
  mk (u64 (mSentFrames s + increment)) (mSentPackets s) (mSentBytes s).
Definition incrementSentPackets (s : t) (increment : Z) : t :=
  mk (mSentFrames s) (u64 (mSentPackets s + increment)) (mSentBytes s).
Definition incrementSentBytes (s : t) (increment : Z) : t :=
  mk (mSentFrames s) (mSentPackets s) (u64 (mSentBytes s + increment)).

End TrackStats.

(** ** SendPacer *)

Module SendPacer.

Definition kDefaultSpreadMillis : Z := 15.

Record Item := mkItem { when : Z; packet : RtpPacket.t }.

(** [mSocket]: the datagrams given to [Socket::send].  Not members: [mSending],
    the packets of [sendImpl] as they were generated, and [mTicks], the number of
    clock readings. *)
Record t := mk {
  mQueue : list Item;
  mHistory : SendRtpHistory.t;
  mTWCC : option RtpExtensionSourceTWCC.t;
  mStats : gmap Z TrackStats.t;
  mSocket : list (list Z);
  mSending : list RtpPacket.t;
  mTicks : nat
}.

Definition make (twcc : option RtpExtensionSourceTWCC.t) : t := mk [] SendRtpHistory.make twcc ∅ [] [] 0.

Definition with_queue (s : t) (q : list Item) : t :=
  mk q (mHistory s) (mTWCC s) (mStats s) (mSocket s) (mSending s) (mTicks s).

Section Pacer.
Context `{!Evp} (clock : nat -> Z) (mSrtp : SrtpConnection.t).

Definition now (s : t) : Z * t :=
  (clock (mTicks s), mk (mQueue s) (mHistory s) (mTWCC s) (mStats s) (mSocket s) (mSending s) (S (mTicks s))).

Definition track_ssrc (packet : RtpPacket.t) : Z := Track.mSSRC (RtpPacket.mTrack packet).

(** *** sendImpl *)

(** The number of the transport is written into the packet. *)
Definition number (packet : RtpPacket.t) (twcc : option RtpExtensionSourceTWCC.t)
  : option (RtpPacket.t * option RtpExtensionSourceTWCC.t) :=
  match twcc with
  | None => Some (packet, None)
  | Some s =>
      '(packet, source) ← TWCC.onBeforeGeneratingRtpPacket packet (RtpExtensionSourceTWCC.source s);
      Some (packet, Some (RtpExtensionSourceTWCC.mk source (RtpExtensionSourceTWCC.mPacketHistory s)))
  end.

(** [track->hasNack() || track->getRtxPayloadId() > 0] *)
Definition is_kept (packet : RtpPacket.t) : bool :=
  let track := RtpPacket.mTrack packet in Track.mHasNack track || (0 <? Track.mRtxPayloadId track).

Definition keep (packet : RtpPacket.t) (history : SendRtpHistory.t) : option SendRtpHistory.t :=
  if is_kept packet then SendRtpHistory.save history packet else Some history.

Definition is_last (packet : RtpPacket.t) : bool := default false (RtpPacket.mSendInfo packet).

Definition count (packet : RtpPacket.t) (size : nat) (stats : gmap Z TrackStats.t) : gmap Z TrackStats.t :=
  let s := default TrackStats.make (stats !! track_ssrc packet) in
  let s := if is_last packet then TrackStats.incrementSentFrames s 1 else s in
  let s := TrackStats.incrementSentPackets s 1 in
  <[track_ssrc packet := TrackStats.incrementSentBytes s (Z.of_nat size)]> stats.

(** [getStableTimeMicros()] of a reading. *)
Definition micros (now : Z) : Z := Z.quot now 1000.

Definition record (packet : RtpPacket.t) (generatedSize protectedSize now : Z) (twcc : option RtpExtensionSourceTWCC.t)
  : option (option RtpExtensionSourceTWCC.t) :=
  match twcc with
  | None => Some None
  | Some s =>
      s ← RtpExtensionSourceTWCC.onBeforeSendingRtpPacket packet generatedSize protectedSize (micros now) s;
      Some (Some s)
  end.

Definition sendImpl (packet : RtpPacket.t) (s : t) : option t :=
  '(packet, twcc) ← number packet (mTWCC s);
  history ← keep packet (mHistory s);
  let '(data, rollover) := RtpPacket.generate packet in
  let sending := mSending s ++ [packet] in
  protectedData ← SrtpConnection.protectSendMedia mSrtp data rollover;
  match protectedData with
  | None => Some (mk (mQueue s) history twcc (mStats s) (mSocket s) sending (mTicks s))
  | Some protectedData =>
      let stats := count packet (length protectedData) (mStats s) in
      let '(now, s) := now s in
      twcc ← record packet (Z.of_nat (length data)) (Z.of_nat (length protectedData)) now twcc;
      Some (mk (mQueue s) history twcc stats (mSocket s ++ [protectedData]) sending (mTicks s))
  end.

Fixpoint send_all (packets : list RtpPacket.t) (s : t) : option t :=
  match packets with [] => Some s | packet :: packets => s ← sendImpl packet s; send_all packets s end.

(** *** flush *)

(** The loop of [flush]: [before] is the queue up to [iter]. *)
Fixpoint flush_loop (ssrc : Z) (before rest : list Item) (s : t) : option t :=
  match rest with
  | [] => Some (with_queue s before)
  | item :: rest =>
      if track_ssrc (packet item) =? ssrc then
        s ← sendImpl (packet item) (with_queue s (before ++ rest));
        flush_loop ssrc before rest s
      else flush_loop ssrc (before ++ [item]) rest s
  end.

Definition flush (track : Track.t) (s : t) : option t := flush_loop (Track.mSSRC track) [] (mQueue s) s.

(** *** sendNow, sendPaced *)

Definition sendNow (packet : RtpPacket.t) (s : t) : option t := sendImpl (RtpPacket.setSendInfo packet true) s.

(** [packetList.back()->setSendInfo(...)] *)
Fixpoint mark_last (packets : list RtpPacket.t) : list RtpPacket.t :=
  match packets with
  | [] => []
  | [packet] => [RtpPacket.setSendInfo packet true]
  | packet :: packets => packet :: mark_last packets
  end.

(** Microseconds: the product is of [unsigned int], the quotient of [size_t]. *)
Definition spacing (spreadMillis : Z) (size : nat) : Z := u32 (1000 * spreadMillis) / Z.of_nat size.

Fixpoint enqueue (now delta i : Z) (packets : list RtpPacket.t) (q : list Item) : list Item :=
  match packets with
  | [] => q
  | packet :: packets =>
      enqueue now delta (i + 1) packets (TimedQueue.insert when (mkItem (now + delta * i * 1000) packet) q)
  end.

Definition sendPaced (packetList : list RtpPacket.t) (spreadMillis : Z) (s : t) : option t :=
  match packetList with
  | [] => Some s
  | [packet] => sendImpl packet s
  | _ =>
      let packetList := mark_last packetList in
      if spreadMillis =? 0 then send_all packetList s
      else
        let delta := spacing spreadMillis (length packetList) in
        let '(now, s) := now s in
        Some (with_queue s (enqueue now delta 0 packetList (mQueue s)))
  end.

(** [duration_cast] rounds toward zero. *)
Definition getTimeoutMillis (defaultValue : Z) (s : t) : Z :=
  match mQueue s with
  | [] => defaultValue
  | item :: _ => i32 (Z.quot (when item - clock (mTicks s)) 1000000)
  end.

(** *** run *)

Fixpoint run_loop (q : list Item) (s : t) : option t :=
  match q with
  | [] => Some s
  | item :: q =>
      let '(now, s) := now s in
      if when item <=? now then
        s ← sendImpl (packet item) (with_queue s q);
        run_loop q s
      else Some s
  end.

Definition run (s : t) : option t := run_loop (mQueue s) s.

End Pacer.
End SendPacer.

(** ** The frames of [PeerCandidate::run] *)

Module FrameSender.
Import SendPacer.

(** [uint32_t] sum, then [float]. *)
Definition calculateLayerBandwidthScale (layerList : list SimulcastLayer.t) (trackLayer : SimulcastLayer.t) : spec_float :=
  match layerList with
  | [] => f32 1
  | _ =>
      let total := fold_left (fun total layer => u32 (total + SimulcastLayer.kilobits_per_second layer)) layerList 0 in
      div32 (f32 (SimulcastLayer.kilobits_per_second trackLayer)) (f32 total)
  end.

(** [RtpExtensionSourceTWCC::getPacingSpreadMillis] *)
Definition getPacingSpreadMillis (packets : list RtpPacket.t) (bandwidthScale : spec_float) (defaultValue now : Z)
  (twcc : RtpExtensionSourceTWCC.t) : option Z :=
  let totalSize := fold_left (fun total packet => u64 (total + Z.of_nat (RtpPacket.getPayloadSize packet))) packets 0 in
  PublishPacketHistory.getPacingSpreadMillis (RtpExtensionSourceTWCC.mPacketHistory twcc) now totalSize bandwidthScale
    defaultValue.

Section Sender.
Context `{!Evp} (clock : nat -> Z) (mSrtp : SrtpConnection.t).

Definition bandwidth_scale (layerList : list SimulcastLayer.t) (track : Track.t) : option spec_float :=
  if bool_decide (Track.mMediaType track = Video) && Track.isSimulcast track then
    trackLayer ← Track.mSimulcastLayer track;
    Some (calculateLayerBandwidthScale layerList (Track.layer trackLayer))
  else Some (f32 1).

(** What becomes of the packets that the packetizer has made of a frame. *)
Definition send_frame (track : Track.t) (layerList : list SimulcastLayer.t) (packetList : list RtpPacket.t) (s : t)
  : option t :=
  s ← flush clock mSrtp track s;
  match packetList with
  | [] => Some s
  | [packet] => sendNow clock mSrtp packet s
  | _ =>
      '(spread, s) ←
        (match mTWCC s with
         | None => Some (kDefaultSpreadMillis, s)
         | Some twcc =>
             scale ← bandwidth_scale layerList track;
             let '(now, s) := now clock s in
             spread ← getPacingSpreadMillis packetList scale kDefaultSpreadMillis now twcc;
             Some (spread, s)
         end);
      sendPaced clock mSrtp packetList spread s
  end.

End Sender.
End FrameSender.
