(* ===== verification/PacingProps.v ===== *)
(** * PacingProps: every packet of a frame is sent once and in order, in time and
    with the next number of the transport *)

From stdpp Require Import gmap.
From S2P Require Import Prelude Bytes Extension Tracks Rtp Packets ExtensionSources TwccPublish TwccProps TwccLoop Srtp SrtpProps Scheduler Pacing.
Open Scope Z_scope.
Import SendPacer FrameSender.

(** ** What a candidate does with its pacer *)

Inductive op := Frame (track : Track.t) (layers : list SimulcastLayer.t) (packets : list RtpPacket.t) | Run.

Section Pacer.
Context `{Hevp : !Evp} (clock : nat -> Z) (mSrtp : SrtpConnection.t).

Definition perform (o : op) (s : t) : option t :=
  match o with
  | Frame track layers packets => send_frame clock mSrtp track layers packets s
  | Run => run clock mSrtp s
  end.

Fixpoint perform_all (l : list op) (s : t) : option t :=
  match l with [] => Some s | o :: l => s ← perform o s; perform_all l s end.

(** A packet but for what the pacer writes into it. *)
Definition content (p : RtpPacket.t) : RtpPacket.t :=
  RtpPacket.mk (RtpPacket.mTrack p) (RtpPacket.mSSRC p) (RtpPacket.mPayloadId p) (RtpPacket.mMarker p)
    (RtpPacket.mRollover p) (RtpPacket.mSequence p) (RtpPacket.mTimestamp p) (RtpPacket.mPaddingSize p)
    (RtpPacket.mPayload p) RtpExtension.make_empty None.

(** The packets of the tracks with this SSRC. *)
Definition of_track (ssrc : Z) (l : list RtpPacket.t) : list RtpPacket.t := filter (fun p => track_ssrc p = ssrc) l.

Definition submitted (l : list op) : list RtpPacket.t :=
  mjoin (map (fun o => match o with Frame _ _ packets => packets | Run => [] end) l).

(** All packets of a frame are of its track. *)
Definition own_packets (o : op) : Prop :=
  match o with Frame track _ packets => Forall (fun p => RtpPacket.mTrack p = track) packets | Run => True end.

Definition waiting (s : t) : list RtpPacket.t := map packet (mQueue s).

Lemma of_track_app ssrc l k : of_track ssrc (l ++ k) = of_track ssrc l ++ of_track ssrc k.
Proof. apply list.filter_app. Qed.

Lemma of_track_queue ssrc q :
  of_track ssrc (map packet q) = map packet (filter (fun item => track_ssrc (packet item) = ssrc) q).
Proof.
  unfold of_track. induction q as [|item q IH]; [done|]. cbn [map]. rewrite !filter_cons, IH. by destruct (decide _).
Qed.

Lemma content_track p q : content p = content q -> track_ssrc p = track_ssrc q.
Proof. unfold content, track_ssrc. by intros [= ->]. Qed.

(** Lists of packets that differ only in what the pacer writes. *)
Notation "l ≈ k" := (map content l = map content k) (at level 70).

Lemma of_track_content ssrc l : forall k, l ≈ k -> of_track ssrc l ≈ of_track ssrc k.
Proof.
  induction l as [|p l IH]; intros [|q k] H; try done.
  assert (content p = content q) as Hp by apply (f_equal (hd (content p)) H). apply (f_equal tail) in H. cbn [tail map] in H.
  unfold of_track. rewrite !filter_cons. rewrite (content_track p q Hp).
  destruct (decide (track_ssrc q = ssrc)); cbn [map]; fold (of_track ssrc l) (of_track ssrc k); [|by apply IH].
  rewrite Hp. f_equal. by apply IH.
Qed.

(** *** sendImpl *)

Lemma number_content p twcc p' twcc' : number p twcc = Some (p', twcc') ->
  content p' = content p /\ RtpPacket.mSendInfo p' = RtpPacket.mSendInfo p.
Proof.
  unfold number. destruct twcc as [s|]; [|by intros [= <- <-]]. unfold TWCC.onBeforeGeneratingRtpPacket.
  case_match; cbn [mbind option_bind]; [|by intros [= <- <-]].
  destruct (RtpExtensionBuilder.addOrReplaceU16Value _ _ _); cbn [mbind option_bind]; [|done]. by intros [= <- <-].
Qed.

Lemma sendImpl_content p s s' : sendImpl clock mSrtp p s = Some s' ->
  exists p', content p' = content p /\ mSending s' = mSending s ++ [p'] /\ mQueue s' = mQueue s.
Proof.
  unfold sendImpl. destruct (number p (mTWCC s)) as [[p' twcc]|] eqn:En; [|done]. cbn [mbind option_bind].
  apply number_content in En as [Ec _]. destruct (keep p' (mHistory s)) as [history|]; [|done]. cbn [mbind option_bind].
  destruct (RtpPacket.generate p') as [data rollover].
  destruct (SrtpConnection.protectSendMedia _ _ _) as [[protected|]|]; cbn [mbind option_bind]; [| |done].
  - cbn [now]. destruct (record _ _ _ _ _); cbn [mbind option_bind]; [|done]. intros [= <-]. by exists p'.
  - intros [= <-]. by exists p'.
Qed.

Lemma send_all_content l : forall s s', send_all clock mSrtp l s = Some s' ->
  exists l', l' ≈ l /\ mSending s' = mSending s ++ l' /\ mQueue s' = mQueue s.
Proof.
  induction l as [|p l IH]; intros s s' H; cbn [send_all] in H.
  - injection H as <-. exists []. by rewrite app_nil_r.
  - destruct (sendImpl clock mSrtp p s) as [s1|] eqn:E; [|done]. cbn [mbind option_bind] in H.
    destruct (sendImpl_content _ _ _ E) as (p' & Hp & E1 & E2). destruct (IH _ _ H) as (l' & Hl & E3 & E4).
    exists (p' :: l'). cbn [map]. rewrite Hp, Hl, E3, E1, E4, E2, <- app_assoc. done.
Qed.

(** *** flush and run *)

Lemma flush_content ssrc rest : forall before s s', flush_loop clock mSrtp ssrc before rest s = Some s' ->
  exists l', l' ≈ of_track ssrc (map packet rest) /\ mSending s' = mSending s ++ l' /\
    mQueue s' = before ++ filter (fun item => track_ssrc (packet item) <> ssrc) rest.
Proof.
  induction rest as [|item rest IH]; intros before s s' H; cbn [flush_loop] in H.
  - injection H as <-. exists []. cbn. by rewrite !app_nil_r.
  - unfold of_track. cbn [map]. destruct (Z.eqb_spec (track_ssrc (packet item)) ssrc) as [E|E].
    + destruct (sendImpl clock mSrtp (packet item) _) as [s1|] eqn:Es; [|done]. cbn [mbind option_bind] in H.
      destruct (sendImpl_content _ _ _ Es) as (p' & Hp & E1 & _). destruct (IH _ _ _ H) as (l' & Hl & E2 & E3).
      rewrite !filter_cons_True, filter_cons_False by (done || by intros ?). exists (p' :: l'). cbn [map].
      rewrite Hp, Hl, E2, E1, <- app_assoc. done.
    + destruct (IH _ _ _ H) as (l' & Hl & E2 & E3). rewrite !filter_cons_False, filter_cons_True by done.
      exists l'. split; [done|]. split; [done|]. by rewrite E3, <- app_assoc.
Qed.

Lemma run_content q : forall s s', mQueue s = q -> run_loop clock mSrtp q s = Some s' ->
  exists q1 q2 l', q = q1 ++ q2 /\ l' ≈ map packet q1 /\ mSending s' = mSending s ++ l' /\ mQueue s' = q2.
Proof.
  induction q as [|item q IH]; intros s s' Hq H; cbn [run_loop] in H.
  - injection H as <-. exists [], [], []. split_and!; [done|done|by rewrite app_nil_r|done].
  - cbn [now] in H. case_match.
    + match type of H with context [sendImpl _ _ _ ?x] => destruct (sendImpl clock mSrtp (packet item) x) as [s1|] eqn:Es; [|done] end.
      cbn [mbind option_bind] in H. destruct (sendImpl_content _ _ _ Es) as (p' & Hp & E1 & E2).
      destruct (IH _ _ E2 H) as (q1 & q2 & l' & -> & Hl & E3 & E4). exists (item :: q1), q2, (p' :: l'). cbn [map].
      rewrite Hp, Hl, E3, E1, <- app_assoc. done.
    + injection H as <-. exists [], (item :: q), []. split_and!; [done|done|by rewrite app_nil_r|done].
Qed.

(** *** sendPaced *)

Lemma mark_last_content l : mark_last l ≈ l.
Proof. induction l as [|p [|q l] IH]; [done|done|]. cbn [mark_last map] in *. by rewrite IH. Qed.

(** The new packets of the track go behind each other, those of the other tracks
    stay as they are. *)
Lemma enqueue_track now delta track l : forall i q,
  0 <= delta -> Forall (fun p => RtpPacket.mTrack p = track) l -> TimedQueue.sorted when q ->
  (forall item, item ∈ q -> track_ssrc (packet item) = Track.mSSRC track -> when item <= now + delta * i * 1000) ->
  TimedQueue.sorted when (enqueue now delta i l q) /\
  forall ssrc, of_track ssrc (map packet (enqueue now delta i l q)) = of_track ssrc (map packet q) ++ of_track ssrc l.
Proof.
  induction l as [|p l IH]; intros i q Hd Hl Hq Hw; cbn [enqueue].
  - split; [done|]. intros ssrc. by rewrite app_nil_r.
  - apply list.Forall_cons in Hl as [Hp Hl]. set (item := mkItem (now + delta * i * 1000) p).
    destruct (IH (i + 1) (TimedQueue.insert when item q) Hd Hl) as [Hs Ht].
    + by apply TimedQueue.insert_sorted.
    + intros y [->|Hy]%TimedQueue.elem_of_insert Et; cbn; [nia|]. pose proof (Hw y Hy Et). nia.
    + split; [done|]. intros ssrc. rewrite Ht, (of_track_app ssrc [p] l : of_track ssrc (p :: l) = _), app_assoc. f_equal.
      rewrite !of_track_queue. unfold of_track. destruct (decide (track_ssrc p = ssrc)) as [E|E].
      * rewrite filter_cons_True, filter_nil by done. rewrite (TimedQueue.filter_insert_last when); [by rewrite map_app|done| |done].
        intros y Hy Ey. apply Hw; [done|]. by rewrite Ey, <- E, <- Hp.
      * rewrite filter_cons_False, filter_nil by done. by rewrite TimedQueue.filter_insert_out, app_nil_r.
Qed.

(** *** The fate of a track's packets *)

(** What was sent of a track and then what waits is what was submitted. *)
Definition in_order (given : list RtpPacket.t) (s : t) : Prop :=
  TimedQueue.sorted when (mQueue s) /\
  forall ssrc, of_track ssrc (mSending s) ++ of_track ssrc (waiting s) ≈ of_track ssrc given.

Lemma sorted_filter (P : Item -> Prop) `{!forall x, Decision (P x)} q :
  TimedQueue.sorted when q -> TimedQueue.sorted when (filter P q).
Proof.
  induction 1 as [|x q Hq IH Hx]; [constructor|]. rewrite filter_cons. destruct (decide (P x)); [|done].
  constructor; [done|]. apply list.Forall_forall. intros y [_ Hy]%list_elem_of_filter. by apply (Forall_elem _ _ _ Hx).
Qed.

Lemma flush_in_order given track s s' : in_order given s -> flush clock mSrtp track s = Some s' ->
  in_order given s' /\ (forall item, item ∈ mQueue s' -> track_ssrc (packet item) <> Track.mSSRC track).
Proof.
  intros [Hs Ho] H. destruct (flush_content _ _ _ _ _ H) as (l' & Hl & E1 & E2). cbn [app] in E2. unfold in_order, waiting in *.
  rewrite E2. split; [split; [by apply sorted_filter|]|by intros item [Hne _]%list_elem_of_filter].
  intros ssrc. rewrite <- Ho, E1, of_track_app, <- app_assoc, !map_app. f_equal.
  rewrite (of_track_content ssrc _ _ Hl). rewrite !of_track_queue, <- map_app, <- map_app. do 2 f_equal.
  destruct (decide (ssrc = Track.mSSRC track)) as [->|Hne].
  - assert (filter (fun item => track_ssrc (packet item) = Track.mSSRC track)
             (filter (fun item => track_ssrc (packet item) <> Track.mSSRC track) (mQueue s)) = []) as ->.
    { apply TimedQueue.filter_none. by intros y [Hy _]%list_elem_of_filter. }
    rewrite app_nil_r, list_filter_filter. apply TimedQueue.filter_ext_elem. tauto.
  - assert (forall q : list Item, filter (fun item => track_ssrc (packet item) = ssrc)
              (filter (fun item => track_ssrc (packet item) = Track.mSSRC track) q) = []) as E.
    { intros q. apply TimedQueue.filter_none. intros y [Hy _]%list_elem_of_filter. congruence. }
    rewrite E. cbn [app]. rewrite list_filter_filter. apply TimedQueue.filter_ext_elem.
    intros y _. split; [tauto|]. intros Hy. split; congruence.
Qed.

Lemma sendPaced_cases packets spread s s' : sendPaced clock mSrtp packets spread s = Some s' ->
  (exists l', l' ≈ packets /\ mSending s' = mSending s ++ l' /\ mQueue s' = mQueue s) \/
  exists delta now, 0 <= delta /\ mSending s' = mSending s /\
    mQueue s' = enqueue now delta 0 (mark_last packets) (mQueue s).
Proof.
  intros H. pose proof (mark_last_content packets) as Hm. unfold sendPaced in H. destruct packets as [|p [|q l]].
  - injection H as <-. left. exists []. by rewrite app_nil_r.
  - destruct (sendImpl_content _ _ _ H) as (p' & Hp & E1 & E2). left. exists [p']. cbn. by rewrite Hp.
  - destruct (spread =? 0); [left|right].
    + destruct (send_all_content _ _ _ H) as (l' & Hl & E1 & E2). exists l'. by rewrite Hl.
    + cbn [now] in H. injection H as <-. do 2 eexists. split; [|split; reflexivity].
      unfold spacing. apply Z.div_pos; [apply u32_range|cbn; lia].
Qed.

Section Frame.
Context (track : Track.t) (packets : list RtpPacket.t) (Hown : Forall (fun p => RtpPacket.mTrack p = track) packets).

Lemma own_others ssrc : ssrc <> Track.mSSRC track -> of_track ssrc packets = [].
Proof using Hown.
  intros Hne. apply TimedQueue.filter_none. intros p Hp E. apply Hne. rewrite <- E. unfold track_ssrc.
  by rewrite (Forall_elem _ _ _ Hown Hp).
Qed.

Definition none_waiting (s : t) : Prop := forall item, item ∈ mQueue s -> track_ssrc (packet item) <> Track.mSSRC track.

Lemma none_waiting_track s : none_waiting s -> of_track (Track.mSSRC track) (waiting s) = [].
Proof. intros H. apply TimedQueue.filter_none. intros p (item & -> & Hi)%list_elem_of_fmap. by apply H. Qed.

(** The packets of the frame sent at once. *)
Lemma sent_in_order given s s' l' : in_order given s -> none_waiting s ->
  l' ≈ packets -> mSending s' = mSending s ++ l' -> mQueue s' = mQueue s -> in_order (given ++ packets) s'.
Proof using Hown.
  intros [Hs Ho] Hn Hl E1 E2. unfold in_order, waiting in *. rewrite E2. split; [done|]. intros ssrc. rewrite E1, !of_track_app, !map_app.
  rewrite <- Ho, !map_app, (of_track_content ssrc _ _ Hl), <- !app_assoc. f_equal.
  destruct (decide (ssrc = Track.mSSRC track)) as [->|Hne].
  - fold (waiting s). rewrite none_waiting_track by done. by rewrite app_nil_r.
  - rewrite (own_others ssrc) by done. by rewrite app_nil_r.
Qed.

(** The packets of the frame put into the queue. *)
Lemma queued_in_order given s s' delta now l' : in_order given s -> none_waiting s -> l' ≈ packets -> 0 <= delta ->
  mSending s' = mSending s -> mQueue s' = enqueue now delta 0 l' (mQueue s) -> in_order (given ++ packets) s'.
Proof using Hown.
  intros [Hs Ho] Hn Hl Hd E1 E2. unfold in_order, waiting in *. rewrite E1, E2.
  assert (Forall (fun p => RtpPacket.mTrack p = track) l') as Hl'.
  { clear -Hown Hl. revert packets Hown Hl. induction l' as [|p l' IH]; intros [|q packets] Hown Hl; try done.
    apply list.Forall_cons in Hown as [Hq Hown]. constructor.
    - assert (content p = content q) as E by apply (f_equal (hd (content p)) Hl). by injection E as ->.
    - apply (IH packets Hown). apply (f_equal tail Hl). }
  destruct (enqueue_track now delta track l' 0 (mQueue s) Hd Hl' Hs) as [Hs' Ht].
  { intros item Hi Et. by apply Hn in Hi. }
  split; [done|]. intros ssrc. rewrite Ht, app_assoc, of_track_app, !map_app. f_equal; [|by apply of_track_content].
  by rewrite <- Ho, map_app.
Qed.

Lemma sendPaced_in_order given spread s s' : in_order given s -> none_waiting s ->
  sendPaced clock mSrtp packets spread s = Some s' -> in_order (given ++ packets) s'.
Proof using Hown.
  intros Hi Hn H. destruct (sendPaced_cases _ _ _ _ H) as [(l' & Hl & E1 & E2)|(delta & now & Hd & E1 & E2)].
  - by eapply sent_in_order.
  - eapply (queued_in_order given s); [done|done|apply mark_last_content|done..].
Qed.

End Frame.

Lemma perform_in_order given o s s' : own_packets o -> in_order given s -> perform o s = Some s' ->
  in_order (given ++ submitted [o]) s'.
Proof.
  unfold submitted. cbn [map mjoin list_join]. rewrite app_nil_r. destruct o as [track layers packets|]; cbn [perform own_packets].
  - intros Hown Hi H. unfold send_frame in H. destruct (flush clock mSrtp track s) as [s1|] eqn:Ef; [|done].
    cbn [mbind option_bind] in H. destruct (flush_in_order _ _ _ _ Hi Ef) as [Hi1 Hn].
    assert (forall spread s2, mQueue s2 = mQueue s1 -> mSending s2 = mSending s1 ->
      sendPaced clock mSrtp packets spread s2 = Some s' -> in_order (given ++ packets) s') as Hpaced.
    { intros spread s2 E1 E2. apply (sendPaced_in_order track packets Hown given spread s2 s').
      - unfold in_order, waiting. by rewrite E1, E2.
      - unfold none_waiting. by rewrite E1. }
    destruct packets as [|p [|q l]].
    + injection H as <-. by rewrite app_nil_r.
    + destruct (sendImpl_content _ _ _ H) as (p' & Hp & E1 & E2).
      eapply (sent_in_order track [p] Hown given s1 s' [p']); [done|done| |done|done]. cbn. by rewrite Hp.
    + destruct (mTWCC s1) as [twcc|]; [|by eapply Hpaced; [..|exact H]].
      destruct (bandwidth_scale layers track); [|done]. cbn [mbind option_bind now] in H.
      destruct (getPacingSpreadMillis _ _ _ _ _) as [spread|]; [|done]. cbn [mbind option_bind] in H.
      by eapply Hpaced; [..|exact H].
  - intros _ [Hs Ho] H. rewrite app_nil_r. destruct (run_content _ _ _ eq_refl H) as (q1 & q2 & l' & E & Hl & E1 & E2).
    unfold in_order, waiting in *. rewrite E in Hs, Ho. rewrite E2. split.
    + clear -Hs. induction q1 as [|x q1 IH]; [done|]. cbn in Hs. apply Sorted.StronglySorted_inv in Hs as [Hs _]. by apply IH.
    + intros ssrc. specialize (Ho ssrc). rewrite (map_app packet q1 q2), of_track_app, !map_app in Ho.
      by rewrite E1, of_track_app, !map_app, (of_track_content ssrc _ _ Hl), <- app_assoc, <- Ho.
Qed.

Lemma submitted_cons o l : submitted (o :: l) = submitted [o] ++ submitted l.
Proof. unfold submitted. cbn. by rewrite app_nil_r. Qed.

Lemma all_in_order l : forall given s s', Forall own_packets l -> in_order given s -> perform_all l s = Some s' ->
  in_order (given ++ submitted l) s'.
Proof.
  induction l as [|o l IH]; intros given s s' Hl Hi H; cbn [perform_all] in H.
  - injection H as <-. by rewrite app_nil_r.
  - apply list.Forall_cons in Hl as [Ho Hl]. destruct (perform o s) as [s1|] eqn:E; [|done]. cbn [mbind option_bind] in H.
    rewrite submitted_cons, app_assoc. eapply IH; [done| |exact H]. by eapply perform_in_order.
Qed.

(** The packets of a track are sent in the order of its frames and within a
    frame in their order, none twice and none left out: what was sent and what
    still waits is, in this order, what the packetizers gave - for any frames of
    any tracks, any pacing and any clock, and whatever the socket and the
    encryption do. *)
Theorem packets_in_order l twcc s ssrc :
  Forall own_packets l -> perform_all l (make twcc) = Some s ->
  map content (of_track ssrc (mSending s)) ++ map content (of_track ssrc (waiting s)) =
  map content (of_track ssrc (submitted l)).
Proof.
  intros Hl H. destruct (all_in_order l [] (make twcc) s Hl) as [_ Ho]; [split; [constructor|done]|done|].
  rewrite <- map_app. apply Ho.
Qed.

End Pacer.

(** ** Packets that the pacer can send *)

(** The extension is one of the builder, with two bytes for the number of the
    transport if it is there; the packet has a payload. *)
Record sendable (p : RtpPacket.t) : Prop := {
  sd_payload_id : 0 <= RtpPacket.mPayloadId p < 128;
  sd_ssrc : is_u32 (RtpPacket.mSSRC p);
  sd_sequence : is_u16 (RtpPacket.mSequence p);
  sd_timestamp : is_u32 (RtpPacket.mTimestamp p);
  sd_padding : is_u8 (RtpPacket.mPaddingSize p);
  sd_payload : RtpPacket.mPayload p <> [] /\ bytes_ok (RtpPacket.mPayload p);
  sd_id : is_u8 (TWCC.getExtensionId (RtpPacket.mTrack p));
  sd_extension : exists els, RtpPacket.mExtension p = RtpExtensionBuilder.built els /\
    Forall RtpExtensionBuilder.loop_ok els /\
    Forall (fun el => bytes_ok (RtpExtension.el_bytes el)) els /\
    (length (RtpExtension.encode_elements RtpExtension.kTwoByte els) <= 1000)%nat /\
    forall el, el ∈ els -> RtpExtension.el_id el = TWCC.getExtensionId (RtpPacket.mTrack p) ->
      length (RtpExtension.el_bytes el) = 2%nat
}.

Lemma from_built els : RtpExtensionBuilder.from (RtpExtensionBuilder.built els) = RtpExtension.encode_elements RtpExtension.kTwoByte els.
Proof.
  unfold RtpExtensionBuilder.from, RtpExtensionBuilder.built, RtpExtensionBuilder.build.
  set (l := RtpExtension.encode_elements _ _). case_bool_decide as E; [by rewrite E|]. by destruct l.
Qed.

Lemma enc_bytes els : Forall RtpExtensionBuilder.loop_ok els ->
  Forall (fun el => bytes_ok (RtpExtension.el_bytes el)) els ->
  bytes_ok (RtpExtension.encode_elements RtpExtension.kTwoByte els).
Proof.
  intros H. induction H as [|el els [Hw _] _ IH]; intros Hb; [apply bytes_ok_nil|]. apply list.Forall_cons in Hb as [Hb Hbs].
  rewrite RtpExtensionBuilder.enc_cons. apply RtpExtensionBuilder.wf_elem_bounds in Hw as [Hid Hl].
  apply bytes_ok_cons; [unfold is_u8; lia|]. apply bytes_ok_cons; [unfold is_u8; lia|]. apply bytes_ok_app. split; [done|by apply IH].
Qed.

(** The packet as it is generated: its extension has the number. *)
Record numbered (p : RtpPacket.t) (els : list RtpExtension.Element) : Prop := {
  nb_extension : RtpPacket.mExtension p = RtpExtensionBuilder.built els;
  nb_bytes : bytes_ok (RtpExtension.encode_elements RtpExtension.kTwoByte els);
  nb_length : (length (RtpExtension.encode_elements RtpExtension.kTwoByte els) <= 1004)%nat
}.

Lemma extension_parts els : let e := RtpExtensionBuilder.built els in
  let data := RtpExtension.encode_elements RtpExtension.kTwoByte els in
  bytes_ok data -> (length data <= 1004)%nat ->
  bytes_ok (RtpPacket.extension_bytes e) /\
  if RtpExtension.empty e then RtpPacket.extension_bytes e = []
  else exists rest, let words := Z.of_nat ((length data + 3) / 4) in
    RtpPacket.extension_bytes e = be_bytes 2 RtpExtension.kTwoByte ++ be_bytes 2 words ++ rest /\ is_u16 words /\
    length rest = (4 * Z.to_nat words)%nat.
Proof.
  cbn zeta. set (data := RtpExtension.encode_elements _ _). intros Hb Hl.
  unfold RtpExtensionBuilder.built, RtpExtensionBuilder.build. fold data.
  case_bool_decide as E; [split; [apply bytes_ok_nil|done]|].
  assert (RtpExtension.empty (RtpExtension.mk RtpExtension.kTwoByte data) = false) as Hemp.
  { destruct data; [done|]. reflexivity. }
  unfold RtpPacket.extension_bytes, RtpPacket.writeExtension. rewrite Hemp. cbn [RtpExtension.mId RtpExtension.mData].
  assert (is_u16 (Z.of_nat ((length data + 3) / 4))) as Hw by (unfold is_u16; rewrite Nat2Z.inj_div; zdm).
  unfold ByteWriter.write. rewrite u16_small, !Wire.writeU16_be by done. cbn [app]. rewrite <- !app_assoc. split.
  - repeat (apply bytes_ok_app; split); try apply be_bytes_ok; [done|]. apply list.Forall_replicate. unfold is_u8. lia.
  - eexists. split; [done|]. split; [done|]. rewrite length_app, length_replicate, Nat2Z.id. symmetry. apply RtpPacket.align_words.
Qed.

Lemma padding_bytes_ok n : is_u8 n -> bytes_ok (RtpPacket.padding_bytes n).
Proof.
  intros Hn. unfold RtpPacket.padding_bytes, RtpPacket.writePadding. case_match; [apply bytes_ok_nil|].
  unfold ByteWriter.writeU8, ByteWriter.padding, ByteWriter.write. rewrite u8_small by done. cbn [app].
  apply bytes_ok_app. split; [apply list.Forall_replicate; unfold is_u8; lia|]. apply bytes_ok_cons; [done|apply bytes_ok_nil].
Qed.

(** The encryption finds the header of a generated packet, and a payload. *)
Lemma generated_media_ok p els p' : sendable p -> content p' = content p -> numbered p' els ->
  exists header, Roundtrip.media_ok (RtpPacket.generate p').1 header.
Proof.
  intros [Hpt Hssrc Hseq Hts Hpad [Hne Hpl] _ _] Hc [Hext Hb Hl]. injection Hc as _ E2 E3 _ _ E6 E7 E8 E9.
  rewrite <- E3 in Hpt. rewrite <- E2 in Hssrc. rewrite <- E6 in Hseq. rewrite <- E7 in Hts. rewrite <- E8 in Hpad.
  rewrite <- E9 in Hne, Hpl.
  destruct (extension_parts els Hb Hl) as [Heb He]. rewrite <- Hext in *. set (e := RtpPacket.mExtension p') in *.
  pose proof (RtpPacket.generate_parts p') as Hg. fold e in Hg.
  destruct (RtpPacket.header_bits_fields (negb (RtpPacket.mPaddingSize p' =? 0)) (negb (RtpExtension.empty e))
    (RtpPacket.mMarker p') (RtpPacket.mPayloadId p') Hpt) as (Hh & _ & H12 & _).
  set (h := RtpPacket.header_bits _ _ _ _) in *. exists h. set (data := (RtpPacket.generate p').1) in *.
  set (head := RtpPacket.fixed_header h (RtpPacket.mSequence p') (RtpPacket.mTimestamp p') (RtpPacket.mSSRC p')) in *.
  assert (length head = 12%nat) as Hhead by done.
  assert (0 < length (RtpPacket.mPayload p'))%nat as Hlp by (destruct (RtpPacket.mPayload p'); [done|cbn; lia]).
  assert (length data = 12 + length (RtpPacket.extension_bytes e) + length (RtpPacket.mPayload p') +
    length (RtpPacket.padding_bytes (RtpPacket.mPaddingSize p')))%nat as Hlen by (rewrite Hg, !length_app, Hhead; lia).
  assert (has_bit h 12 = true -> exists words, peek16 data 14 = Some words /\ 0 <= words /\
    (length (RtpPacket.extension_bytes e) = 4 + 4 * Z.to_nat words)%nat) as Hwords.
  { rewrite H12. intros Hemp. destruct (RtpExtension.empty e); [done|]. destruct He as (rest & E & Hw & Hr).
    eexists. rewrite Hg, E. split; [|split; [apply Hw|]].
    - rewrite <- !app_assoc, app_assoc. by apply (Roundtrip.peek_at 2 (head ++ be_bytes 2 RtpExtension.kTwoByte)).
    - rewrite !length_app, !length_be_bytes, Hr. lia. }
  split.
  - rewrite Hg. unfold head, RtpPacket.fixed_header. repeat (apply bytes_ok_app; split); try apply be_bytes_ok; try done.
    by apply padding_bytes_ok.
  - rewrite Hg. unfold head, RtpPacket.fixed_header. rewrite <- !app_assoc. by apply (Roundtrip.peek_at 2 []).
  - intros Hbit. destruct (Hwords Hbit) as (words & _ & _ & Hx). lia.
  - unfold Roundtrip.header_length. destruct (has_bit h 12) eqn:Hbit; [|lia].
    destruct (Hwords eq_refl) as (words & -> & H0 & Hx). cbn [default from_option id]. lia.
Qed.

(** *** The number of the transport *)

Definition wants_number (p : RtpPacket.t) : bool := negb (TWCC.getExtensionId (RtpPacket.mTrack p) =? 0).

(** The number that a packet carries. *)
Definition number_of (p : RtpPacket.t) : option Z :=
  default None (RtpExtension.findU16 (RtpPacket.mExtension p) (TWCC.getExtensionId (RtpPacket.mTrack p))).

Definition next_number (p : RtpPacket.t) (n : Z) : Z := if wants_number p then u16 (n + 1) else n.

Lemma number_spec p s : sendable p -> is_u16 (TWCC.mNextPacketSEQ s) ->
  exists p' s' els, TWCC.onBeforeGeneratingRtpPacket p s = Some (p', s') /\ numbered p' els /\
    TWCC.mNextPacketSEQ s' = next_number p (TWCC.mNextPacketSEQ s) /\
    (wants_number p = true -> number_of p' = Some (TWCC.mNextPacketSEQ s)).
Proof.
  intros [_ _ _ _ _ _ Hid (els & Hext & Hok & Hb & Hl & H2)] Hs.
  unfold TWCC.onBeforeGeneratingRtpPacket, next_number, wants_number, number_of. pose proof (enc_bytes els Hok Hb) as Henc.
  destruct (Z.eqb_spec (TWCC.getExtensionId (RtpPacket.mTrack p)) 0) as [E|E]; cbn [negb].
  - exists p, s, els. split; [done|]. split; [split; [done|done|lia]|]. done.
  - rewrite Hext, from_built.
    destruct (RtpExtensionBuilder.addOrReplaceU16_spec els (TWCC.getExtensionId (RtpPacket.mTrack p)) (TWCC.mNextPacketSEQ s))
      as (els' & -> & Hok' & Hu & _ & _ & Hl' & Hin); [done|unfold is_u8 in Hid; lia|done|done|].
    cbn [mbind option_bind]. eexists _, _, els'. split; [reflexivity|]. split.
    + split; [done| |lia]. apply enc_bytes; [done|]. apply list.Forall_forall. intros el [Hel| ->]%Hin.
      * by apply (Forall_elem _ _ _ Hb).
      * apply be_bytes_ok.
    + split; [done|]. intros _. cbn [RtpPacket.setExtension RtpPacket.mExtension RtpPacket.mTrack].
      unfold RtpExtensionBuilder.built in Hu. by rewrite Hu.
Qed.

(** ** No call stops the pacer *)

Lemma save_total h p : is_Some (SendRtpHistory.save h p).
Proof.
  unfold SendRtpHistory.save. set (item := default _ _).
  assert (forall fuel item, (length (SendRtpHistory.packetList item) < fuel)%nat ->
            is_Some (SendRtpHistory.evict_loop fuel item)) as H.
  { induction fuel as [|fuel IH]; intros x Hx; [lia|]. cbn [SendRtpHistory.evict_loop]. case_decide as Hlen; [|done].
    apply IH. unfold SendRtpHistory.evict. destruct (list.last (SendRtpHistory.packetList x)) as [back|] eqn:E.
    - cbn. rewrite length_take. unfold SendRtpHistory.kMaxHistory in Hlen. lia.
    - apply last_None in E. rewrite E in Hlen. unfold SendRtpHistory.kMaxHistory in Hlen. cbn in Hlen. lia. }
  destruct (H (S (length (SendRtpHistory.packetList item))) item ltac:(lia)) as [x ->]. by eexists.
Qed.

(** What the packets of a pacer with a source of numbers carry: consecutive
    numbers from [n], where they carry one. *)
Fixpoint numbers_from (n : Z) (l : list RtpPacket.t) : Prop :=
  match l with
  | [] => True
  | p :: l => (wants_number p = true -> number_of p = Some n) /\ numbers_from (next_number p n) l
  end.

Definition number_after (n : Z) (l : list RtpPacket.t) : Z := fold_left (fun n p => next_number p n) l n.

Lemma numbers_from_app l k : forall n, numbers_from n l -> numbers_from (number_after n l) k -> numbers_from n (l ++ k).
Proof. induction l as [|p l IH]; intros n; cbn; [done|]. intros [Hp Hl] Hk. split; [done|]. by apply IH. Qed.

Inductive pacer_call :=
| Flush (track : Track.t)
| SendNow (p : RtpPacket.t)
| SendPaced (l : list RtpPacket.t) (spreadMillis : Z)
| RunDue.

Section Total.
Context `{Hevp : !Evp, Hlaws : !EvpLaws} (clock : nat -> Z) (mSrtp : SrtpConnection.t).
#[local] Set Default Proof Using "Type".

Definition call (c : pacer_call) : t -> option t :=
  match c with
  | Flush track => flush clock mSrtp track
  | SendNow p => sendNow clock mSrtp p
  | SendPaced l spread => sendPaced clock mSrtp l spread
  | RunDue => run clock mSrtp
  end.

Fixpoint call_all (l : list pacer_call) (s : t) : option t :=
  match l with [] => Some s | c :: l => s ← call c s; call_all l s end.

Definition call_sendable (c : pacer_call) : Prop :=
  match c with SendNow p => sendable p | SendPaced l _ => Forall sendable l | _ => True end.

(** The connection is one that [SrtpConnection::create] makes. *)
Record sending_ok : Prop := {
  so_known : is_gcm (SrtpCrypto.mProfileId (SrtpConnection.mCrypto mSrtp)) = true \/
    is_cm (SrtpCrypto.mProfileId (SrtpConnection.mCrypto mSrtp)) = true;
  so_cipher : SrtpCrypto.mSendCipherCtx (SrtpConnection.mCrypto mSrtp) =
    SrtpCrypto.createCipher (SrtpCrypto.mProfileId (SrtpConnection.mCrypto mSrtp))
}.

(** [n] is the first number of the source, if there is one. *)
Record ready (n : option Z) (s : t) : Prop := {
  rd_queue : Forall (fun item => sendable (packet item)) (mQueue s);
  rd_twcc : match mTWCC s, n with
            | None, None => True
            | Some tw, Some n => TwccProps.History.hist_ok (RtpExtensionSourceTWCC.mPacketHistory tw) /\
                is_u16 (TWCC.mNextPacketSEQ (RtpExtensionSourceTWCC.source tw)) /\
                TWCC.mNextPacketSEQ (RtpExtensionSourceTWCC.source tw) = number_after n (mSending s) /\
                numbers_from n (mSending s)
            | _, _ => False
            end
}.

Lemma sendable_last p : sendable p -> sendable (RtpPacket.setSendInfo p true).
Proof. intros []. by split. Qed.

Lemma sendable_mark l : Forall sendable l -> Forall sendable (mark_last l).
Proof.
  induction 1 as [|p l Hp Hl IH]; [done|]. destruct l as [|q l]; cbn [mark_last].
  - constructor; [by apply sendable_last|done].
  - by constructor.
Qed.

Lemma number_ready n p s : sendable p -> ready n s ->
  exists p' twcc els, number p (mTWCC s) = Some (p', twcc) /\ content p' = content p /\ numbered p' els /\
    match twcc, n with
    | None, None => mTWCC s = None
    | Some tw, Some n => TwccProps.History.hist_ok (RtpExtensionSourceTWCC.mPacketHistory tw) /\
        is_u16 (TWCC.mNextPacketSEQ (RtpExtensionSourceTWCC.source tw)) /\
        TWCC.mNextPacketSEQ (RtpExtensionSourceTWCC.source tw) = number_after n (mSending s ++ [p']) /\
        numbers_from n (mSending s ++ [p'])
    | _, _ => False
    end.
Proof.
  intros Hp [_ Htw]. destruct (mTWCC s) as [tw|] eqn:E, n as [n|]; try done.
  - destruct Htw as (Hh & Hu & En & Hnum).
    destruct (number_spec p _ Hp Hu) as (p' & src & els & Eq & Hn & Enext & Hof).
    assert (number p (Some tw) = Some (p', Some (RtpExtensionSourceTWCC.mk src (RtpExtensionSourceTWCC.mPacketHistory tw)))) as Hnumber.
    { unfold number. by rewrite Eq. }
    destruct (number_content _ _ _ _ Hnumber) as [Hc _].
    assert (RtpPacket.mTrack p' = RtpPacket.mTrack p) as Ht by (by injection Hc as ->).
    assert (wants_number p' = wants_number p) as Ew by (unfold wants_number; by rewrite Ht).
    assert (forall k, next_number p' k = next_number p k) as Ek by (intros k; unfold next_number; by rewrite Ew).
    eexists _, _, els. split; [exact Hnumber|]. split; [done|]. split; [done|].
    cbn [RtpExtensionSourceTWCC.mPacketHistory RtpExtensionSourceTWCC.source]. split; [done|]. split; [|split].
    + rewrite Enext. unfold next_number. case_match; [apply u16_range|done].
    + unfold number_after. rewrite fold_left_app. cbn [fold_left]. by rewrite Ek, Enext, En.
    + apply numbers_from_app; [done|]. rewrite <- En. split; [by rewrite Ew|done].
  - destruct Hp as [_ _ _ _ _ _ _ (els & Hext & Hok & Hb & Hl & _)]. exists p, None, els. split; [done|]. split; [done|].
    split; [|done]. split; [done|by apply enc_bytes|lia].
Qed.

Context (Hconn : sending_ok).

Lemma sendImpl_ready n p s : sendable p -> ready n s -> exists s', sendImpl clock mSrtp p s = Some s' /\ ready n s'.
Proof using Hlaws Hconn.
  intros Hp Hs. destruct (number_ready n p s Hp Hs) as (p' & twcc & els & Hnum & Hc & Hn & Htw). destruct Hs as [Hq _].
  unfold sendImpl. rewrite Hnum. cbn [mbind option_bind].
  assert (exists h, keep p' (mHistory s) = Some h) as [h ->].
  { unfold keep. destruct (is_kept p'); [|by eexists]. destruct (save_total (mHistory s) p') as [h Hh]. by exists h. }
  destruct (generated_media_ok p els p' Hp Hc Hn) as [header Hm]. destruct (RtpPacket.generate p') as [data rollover].
  cbn [mbind option_bind fst] in *.
  assert (exists r, SrtpConnection.protectSendMedia mSrtp data rollover = Some r) as [r ->].
  { unfold SrtpConnection.protectSendMedia. destruct (length data <? 12)%nat; [by exists None|]. destruct Hconn as [Hk Hci].
    destruct (Roundtrip.protect_media_shape _ data header rollover Hm Hci Hk) as (r & E & _). by exists r. }
  cbn [mbind option_bind]. destruct r as [protected|].
  - cbn [now]. unfold record. destruct twcc as [tw|], n as [n|]; try done.
    + destruct Htw as (Hh & Hu & En & Hnums). unfold RtpExtensionSourceTWCC.onBeforeSendingRtpPacket.
      destruct (Sending.getFeedbackSeq_total p') as (o & -> & Ho). cbn [mbind option_bind]. destruct o as [seq|].
      * match goal with |- context [PublishPacketHistory.saveOutgoingPacket _ _ ?a ?b ?c ?d ?e ?f] =>
          destruct (Sending.saveOutgoing_total _ seq a b c d e f Hh (Ho seq eq_refl)) as (h' & -> & Hh' & _) end.
        eexists. split; [reflexivity|]. split; [done|]. cbn. done.
      * eexists. split; [reflexivity|]. split; [done|]. cbn. done.
    + eexists. split; [reflexivity|]. split; [done|]. done.
  - eexists. split; [reflexivity|]. split; [done|]. cbn. by destruct twcc, n.
Qed.

(** What only changes the queue and reads the clock. *)
Lemma ready_queue n s q ticks : ready n s -> Forall (fun item => sendable (packet item)) q ->
  ready n (mk q (mHistory s) (mTWCC s) (mStats s) (mSocket s) (mSending s) ticks).
Proof. intros [_ Ht] Hq. by split. Qed.

Lemma send_all_ready n l : forall s, Forall sendable l -> ready n s ->
  exists s', send_all clock mSrtp l s = Some s' /\ ready n s'.
Proof using Hlaws Hconn.
  induction l as [|p l IH]; intros s Hl Hs; [by exists s|]. apply list.Forall_cons in Hl as [Hp Hl].
  cbn [send_all]. destruct (sendImpl_ready n p s Hp Hs) as (s1 & -> & Hs1). by apply IH.
Qed.

Lemma flush_ready n ssrc rest : forall before s, ready n s ->
  Forall (fun item => sendable (packet item)) (before ++ rest) ->
  exists s', flush_loop clock mSrtp ssrc before rest s = Some s' /\ ready n s'.
Proof using Hlaws Hconn.
  induction rest as [|item rest IH]; intros before s Hs Hq; cbn [flush_loop].
  - rewrite app_nil_r in Hq. eexists. split; [reflexivity|]. by apply ready_queue.
  - pose proof Hq as [Hb [Hi Hr]%list.Forall_cons]%list.Forall_app.
    destruct (track_ssrc (packet item) =? ssrc).
    + destruct (sendImpl_ready n (packet item) (with_queue s (before ++ rest)) Hi) as (s1 & -> & Hs1).
      { apply ready_queue; [done|]. by apply list.Forall_app. }
      cbn [mbind option_bind]. apply IH; [done|]. by apply list.Forall_app.
    + apply IH; [done|]. by rewrite <- app_assoc.
Qed.

Lemma run_ready n q : forall s, ready n s -> Forall (fun item => sendable (packet item)) q ->
  exists s', run_loop clock mSrtp q s = Some s' /\ ready n s'.
Proof using Hlaws Hconn.
  induction q as [|item q IH]; intros s Hs Hq; [by exists s|]. apply list.Forall_cons in Hq as [Hi Hq].
  cbn [run_loop now]. case_match.
  - match goal with |- context [sendImpl _ _ _ ?x] => destruct (sendImpl_ready n (packet item) x Hi) as (s1 & -> & Hs1) end.
    { by apply (ready_queue n s). }
    by apply IH.
  - eexists. split; [reflexivity|]. apply (ready_queue n s); [done|apply Hs].
Qed.

Lemma enqueue_sendable now delta l : forall i q, Forall sendable l -> Forall (fun item => sendable (packet item)) q ->
  Forall (fun item => sendable (packet item)) (enqueue now delta i l q).
Proof.
  induction l as [|p l IH]; intros i q Hl Hq; [done|]. apply list.Forall_cons in Hl as [Hp Hl]. cbn [enqueue].
  apply IH; [done|]. by apply TimedQueue.Forall_insert.
Qed.

Lemma call_ready n c s : call_sendable c -> ready n s -> exists s', call c s = Some s' /\ ready n s'.
Proof using Hlaws Hconn.
  intros Hc Hs. destruct c as [track|p|l spread|]; cbn [call call_sendable] in *.
  - apply flush_ready; [done|apply Hs].
  - apply sendImpl_ready; [by apply sendable_last|done].
  - unfold sendPaced. destruct l as [|p [|q l]]; [by exists s|apply sendImpl_ready; [by inversion Hc|done]|].
    apply sendable_mark in Hc. destruct (spread =? 0); [by apply send_all_ready|].
    cbn [now]. eexists. split; [reflexivity|]. apply (ready_queue n s); [done|]. apply enqueue_sendable; [done|apply Hs].
  - apply run_ready; [done|apply Hs].
Qed.

(** C25: No call stops the pacer, for packets as the packetizers make them and a
    connection as [create] makes it - the assertions and ranges of the extension
    builder, the history, the encryption and the window of the sent packets all
    hold - and the packets go out with consecutive numbers of the transport, in
    the order in which they are sent, across tracks and however they are paced. *)
Theorem numbers_in_order l tw :
  Forall call_sendable l -> is_u16 (TWCC.mNextPacketSEQ (RtpExtensionSourceTWCC.source tw)) ->
  TwccProps.History.hist_ok (RtpExtensionSourceTWCC.mPacketHistory tw) ->
  exists s, call_all l (make (Some tw)) = Some s /\
    numbers_from (TWCC.mNextPacketSEQ (RtpExtensionSourceTWCC.source tw)) (mSending s).
Proof using Hlaws Hconn.
  intros Hl Hu Hh. set (n := TWCC.mNextPacketSEQ _).
  assert (forall l s, Forall call_sendable l -> ready (Some n) s -> exists s', call_all l s = Some s' /\ ready (Some n) s') as H.
  { clear l Hl. induction l as [|c l IH]; intros s Hl Hs; [by exists s|]. apply list.Forall_cons in Hl as [Hc Hl]. cbn [call_all].
    destruct (call_ready (Some n) c s Hc Hs) as (s1 & -> & Hs1). by apply IH. }
  assert (mTWCC (make (Some tw)) = Some tw) as Htw by done.
  destruct (H l (make (Some tw)) Hl) as (s & E & [_ Hs]); [by split|]. exists s. split; [done|].
  destruct (mTWCC s) as [tw'|]; [by destruct Hs as (_ & _ & _ & Hs)|done].
Qed.

End Total.

(** ** What the calls leave behind *)

Definition with_ticks (s : t) (q : list Item) (ticks : nat) : t :=
  mk q (mHistory s) (mTWCC s) (mStats s) (mSocket s) (mSending s) ticks.

(** What does not depend on the queue and the clock is kept by all operations if
    sending a packet keeps it. *)
Section Kept.
Context `{Hevp : !Evp} (clock : nat -> Z) (mSrtp : SrtpConnection.t) (P : t -> Prop).
Context (Hsend : forall p s s', sendImpl clock mSrtp p s = Some s' -> P s -> P s').
Context (Hqueue : forall s q ticks, P s -> P (with_ticks s q ticks)).

Lemma send_all_kept l : forall s s', send_all clock mSrtp l s = Some s' -> P s -> P s'.
Proof using Hsend.
  induction l as [|p l IH]; intros s s' H Hs; cbn [send_all] in H; [by injection H as <-|].
  destruct (sendImpl clock mSrtp p s) as [s1|] eqn:E; [|done]. by eapply IH, Hsend.
Qed.

Lemma flush_kept ssrc rest : forall before s s', flush_loop clock mSrtp ssrc before rest s = Some s' -> P s -> P s'.
Proof using Hsend Hqueue.
  induction rest as [|item rest IH]; intros before s s' H Hs; cbn [flush_loop] in H.
  - injection H as <-. by apply (Hqueue s).
  - case_match; [|by eapply IH]. destruct (sendImpl clock mSrtp (packet item) _) as [s1|] eqn:E; [|done].
    eapply IH, Hsend; [exact H|exact E|]. by apply (Hqueue s).
Qed.

Lemma run_kept q : forall s s', run_loop clock mSrtp q s = Some s' -> P s -> P s'.
Proof using Hsend Hqueue.
  induction q as [|item q IH]; intros s s' H Hs; cbn [run_loop now] in H; [by injection H as <-|].
  case_match; [|injection H as <-; by apply (Hqueue s)].
  match type of H with context [sendImpl _ _ _ ?x] => destruct (sendImpl clock mSrtp (packet item) x) as [s1|] eqn:E; [|done] end.
  eapply IH, Hsend; [exact H|exact E|]. by apply (Hqueue s).
Qed.

Lemma sendPaced_kept l spread s s' : sendPaced clock mSrtp l spread s = Some s' -> P s -> P s'.
Proof using Hsend Hqueue.
  unfold sendPaced. intros H Hs. destruct l as [|p [|q l]]; [by injection H as <-|by eapply Hsend|].
  destruct (spread =? 0); [by eapply send_all_kept|]. injection H as <-. by apply (Hqueue s).
Qed.

Lemma perform_kept o s s' : perform clock mSrtp o s = Some s' -> P s -> P s'.
Proof using Hsend Hqueue.
  destruct o as [track layers packets|]; [|apply run_kept]. cbn [perform]. unfold send_frame, flush.
  intros H Hs. destruct (flush_loop _ _ _ _ _ _) as [s1|] eqn:E; [|done]. cbn [mbind option_bind] in H.
  pose proof (flush_kept _ _ _ _ _ E Hs) as Hs1. destruct packets as [|p [|q l]]; [by injection H as <-|by eapply Hsend|].
  destruct (mTWCC s1); [|by apply (sendPaced_kept (p :: q :: l) kDefaultSpreadMillis s1)].
  destruct (bandwidth_scale layers track); [|done]. cbn [mbind option_bind now] in H.
  destruct (getPacingSpreadMillis _ _ _ _ _); [|done]. cbn [mbind option_bind] in H.
  eapply sendPaced_kept; [exact H|]. by apply (Hqueue s1).
Qed.

Lemma perform_all_kept l : forall s s', perform_all clock mSrtp l s = Some s' -> P s -> P s'.
Proof using Hsend Hqueue.
  induction l as [|o l IH]; intros s s' H Hs; cbn [perform_all] in H; [by injection H as <-|].
  destruct (perform clock mSrtp o s) as [s1|] eqn:E; [|done]. by eapply IH, perform_kept.
Qed.

End Kept.

Section Accounts.
Context `{Hevp : !Evp} (clock : nat -> Z) (mSrtp : SrtpConnection.t).

Definition datagram (p : RtpPacket.t) : option (list Z) :=
  let '(data, rollover) := RtpPacket.generate p in mjoin (SrtpConnection.protectSendMedia mSrtp data rollover).

(** The packets of a track that were encrypted, with their datagrams. *)
Definition encrypted (l : list RtpPacket.t) : list (RtpPacket.t * list Z) :=
  omap (fun p => d ← datagram p; Some (p, d)) l.

Definition tally (l : list (RtpPacket.t * list Z)) : TrackStats.t :=
  TrackStats.mk (u64 (Z.of_nat (length (filter (fun x => is_last x.1 = true) l)))) (u64 (Z.of_nat (length l)))
    (u64 (Z.of_nat (length (concat (map snd l))))).

Record accounts (s : t) : Prop := {
  ac_socket : mSocket s = map snd (encrypted (mSending s));
  ac_history : SendRtpHistory.save_all SendRtpHistory.make (filter (fun p => is_kept p = true) (mSending s)) = Some (mHistory s);
  ac_stats ssrc : default TrackStats.make (mStats s !! ssrc) = tally (encrypted (of_track ssrc (mSending s)))
}.

Lemma encrypted_app l k : encrypted (l ++ k) = encrypted l ++ encrypted k.
Proof. apply omap_app. Qed.

Lemma save_all_snoc l p : forall h, SendRtpHistory.save_all h (l ++ [p]) = h' ← SendRtpHistory.save_all h l; SendRtpHistory.save h' p.
Proof.
  induction l as [|q l IH]; intros h; cbn [SendRtpHistory.save_all app mbind option_bind];
    [by destruct (SendRtpHistory.save h p)|].
  destruct (SendRtpHistory.save h q) as [h1|]; [|done]. cbn [mbind option_bind]. apply IH.
Qed.

Lemma tally_snoc l p d :
  tally (l ++ [(p, d)]) =
  TrackStats.incrementSentBytes (TrackStats.incrementSentPackets
    (if is_last p then TrackStats.incrementSentFrames (tally l) 1 else tally l) 1) (Z.of_nat (length d)).
Proof.
  unfold tally, TrackStats.incrementSentBytes, TrackStats.incrementSentPackets, TrackStats.incrementSentFrames.
  rewrite list.filter_app, map_app, concat_app, !length_app, !Nat2Z.inj_add. cbn [map concat]. rewrite app_nil_r.
  rewrite filter_cons. cbn [fst snd].
  destruct (is_last p); cbn [TrackStats.mSentFrames TrackStats.mSentPackets TrackStats.mSentBytes];
    unfold u64; rewrite !Zplus_mod_idemp_l.
  - rewrite decide_True, filter_nil by done. done.
  - rewrite decide_False, filter_nil by done. cbn [length]. by rewrite Z.add_0_r.
Qed.

Lemma accounts_send p s s' : sendImpl clock mSrtp p s = Some s' -> accounts s -> accounts s'.
Proof.
  intros H [Hso Hh Hst]. unfold sendImpl in H. destruct (number p (mTWCC s)) as [[p' twcc]|] eqn:En; [|done]. clear En p.
  cbn [mbind option_bind] in H. destruct (keep p' (mHistory s)) as [h|] eqn:Ek; [|done]. cbn [mbind option_bind] in H.
  destruct (RtpPacket.generate p') as [data rollover] eqn:Eg.
  destruct (SrtpConnection.protectSendMedia mSrtp data rollover) as [r|] eqn:Ep; [|done]. cbn [mbind option_bind] in H.
  assert (datagram p' = r) as Ed by (unfold datagram; by rewrite Eg, Ep).
  assert (encrypted [p'] = match r with Some d => [(p', d)] | None => [] end) as Edel.
  { unfold encrypted. cbn [omap list_omap]. rewrite Ed. by destruct r. }
  assert (SendRtpHistory.save_all SendRtpHistory.make (filter (fun p => is_kept p = true) (mSending s ++ [p'])) = Some h) as Hh'.
  { unfold keep in Ek. rewrite list.filter_app, filter_cons, filter_nil. destruct (is_kept p').
    - rewrite decide_True, save_all_snoc, Hh by done. done.
    - rewrite decide_False, app_nil_r by done. by injection Ek as <-. }
  destruct r as [d|].
  - cbn [now] in H. destruct (record _ _ _ _ _); [|done]. injection H as <-. split; cbn [mSocket mSending mHistory mStats]; [|done|].
    + by rewrite encrypted_app, map_app, Hso, Edel.
    + intros ssrc. unfold of_track. rewrite list.filter_app, filter_cons, filter_nil, encrypted_app. unfold count.
      destruct (decide (track_ssrc p' = ssrc)) as [<-|Hne].
      * rewrite lookup_insert_eq, Edel. cbn [default from_option id]. rewrite tally_snoc. fold (of_track (track_ssrc p') (mSending s)).
        by rewrite <- Hst.
      * rewrite lookup_insert_ne, app_nil_r by done. apply Hst.
  - injection H as <-. split; cbn [mSocket mSending mHistory mStats]; [|done|].
    + by rewrite encrypted_app, map_app, Hso, Edel, app_nil_r.
    + intros ssrc. rewrite Hst. unfold of_track. rewrite list.filter_app, filter_cons, filter_nil, encrypted_app.
      destruct (decide (track_ssrc p' = ssrc)); [by rewrite Edel, app_nil_r|by rewrite app_nil_r].
Qed.

(** The books are right: the socket was given the encrypted packets in the
    order of sending, the history is that of the packets whose tracks can
    retransmit, and the statistics of a track count its frames, packets and bytes
    as they went to the socket - whatever was called. *)
Theorem books_balance l twcc s :
  perform_all clock mSrtp l (make twcc) = Some s ->
  mSocket s = map snd (encrypted (mSending s)) /\
  SendRtpHistory.save_all SendRtpHistory.make (filter (fun p => is_kept p = true) (mSending s)) = Some (mHistory s) /\
  forall ssrc, default TrackStats.make (mStats s !! ssrc) = tally (encrypted (of_track ssrc (mSending s))).
Proof.
  intros H. destruct (perform_all_kept clock mSrtp accounts accounts_send) with (l := l) (s := make twcc) (s' := s); try done.
  intros x q ticks []. by split.
Qed.

(** *** In time *)

Lemma sendImpl_ticks p s s' : sendImpl clock mSrtp p s = Some s' -> (mTicks s <= mTicks s')%nat.
Proof.
  unfold sendImpl. destruct (number p (mTWCC s)) as [[p' twcc]|]; [|done]. cbn [mbind option_bind].
  destruct (keep p' (mHistory s)); [|done]. cbn [mbind option_bind]. destruct (RtpPacket.generate p') as [data rollover].
  destruct (SrtpConnection.protectSendMedia _ _ _) as [[protected|]|]; cbn [mbind option_bind]; [| |done].
  - cbn [now]. destruct (record _ _ _ _ _); cbn [mbind option_bind]; [|done]. intros [= <-]. cbn. lia.
  - intros [= <-]. done.
Qed.

Lemma enqueue_elem now delta l item : forall i q, item ∈ enqueue now delta i l q ->
  item ∈ q \/ exists j, i <= j < i + Z.of_nat (length l) /\ when item = now + delta * j * 1000.
Proof.
  induction l as [|p l IH]; intros i q H; cbn [enqueue] in H; [by left|].
  destruct (IH _ _ H) as [[->|Hq]%TimedQueue.elem_of_insert|(j & Hj & E)]; [right; exists i|by left|right; exists j];
    (split; [cbn [length]; lia|done]).
Qed.

(** [run] sends what is due and nothing else: the packets at the head of the
    queue, none of them before its time, and all that were due when it began. *)
Theorem run_sends_due s s' :
  (forall m n, (m <= n)%nat -> clock m <= clock n) -> TimedQueue.sorted when (mQueue s) -> run clock mSrtp s = Some s' ->
  exists due l, mQueue s = due ++ mQueue s' /\ mSending s' = mSending s ++ l /\ map content l = map content (map packet due) /\
    Forall (fun item => when item <= clock (mTicks s')) due /\
    Forall (fun item => clock (mTicks s) < when item) (mQueue s').
Proof.
  intros Hclock. unfold run.
  enough (forall q s, mQueue s = q -> TimedQueue.sorted when q -> run_loop clock mSrtp q s = Some s' -> (mTicks s <= mTicks s')%nat /\
    exists due l, mQueue s = due ++ mQueue s' /\ mSending s' = mSending s ++ l /\ map content l = map content (map packet due) /\
    Forall (fun item => when item <= clock (mTicks s')) due /\ Forall (fun item => clock (mTicks s) < when item) (mQueue s')) as H.
  { intros Hs E. by apply (H (mQueue s) s eq_refl Hs E). }
  clear s. induction q as [|item q IH]; intros s Hq Hs H; cbn [run_loop] in H.
  - injection H as <-. split; [done|]. exists [], []. rewrite app_nil_r, Hq. by repeat constructor.
  - cbn [now] in H. destruct (Z.leb_spec (when item) (clock (mTicks s))) as [Hle|Hgt].
    + match type of H with context [sendImpl _ _ _ ?x] => destruct (sendImpl clock mSrtp (packet item) x) as [s1|] eqn:Es; [|done] end.
      cbn [mbind option_bind] in H. destruct (sendImpl_content _ _ _ _ _ Es) as (p' & Hp & E1 & E2).
      assert (mTicks s <= mTicks s1)%nat as Ht1 by (apply sendImpl_ticks in Es; cbn in Es; lia).
      apply Sorted.StronglySorted_inv in Hs as [Hs _]. destruct (IH s1 E2 Hs H) as (Ht & due & l & E3 & E4 & E5 & Hdue & Hlate).
      rewrite E2 in E3. cbn in E3. split; [lia|]. exists (item :: due), (p' :: l). rewrite Hq, E3, E4, E1. cbn [map app].
      split; [done|]. split; [by rewrite <- app_assoc|]. split; [by rewrite Hp, E5|]. split.
      * constructor; [|done]. pose proof (Hclock (mTicks s) (mTicks s') ltac:(lia)). lia.
      * eapply list.Forall_impl; [exact Hlate|]. intros y Hy. pose proof (Hclock (mTicks s) (mTicks s1) Ht1). cbn in Hy. lia.
    + injection H as <-. cbn. split; [lia|]. exists [], []. rewrite app_nil_r. split; [done|]. split; [done|]. split; [done|]. split; [done|].
      rewrite Hq. constructor; [done|]. apply Sorted.StronglySorted_inv in Hs as [_ Hs].
      eapply list.Forall_impl; [exact Hs|]. intros y Hy. cbn in Hy. lia.
Qed.

(** A paced frame is in the queue for less than the spread: the times of its
    packets lie between now and [spreadMillis] milliseconds from now (also where
    the product of [unsigned int] wraps around). *)
Theorem paced_within_spread l spread s s' item :
  (2 <= length l)%nat -> 0 < spread -> sendPaced clock mSrtp l spread s = Some s' ->
  item ∈ mQueue s' -> item ∉ mQueue s ->
  clock (mTicks s) <= when item < clock (mTicks s) + spread * 1000000.
Proof.
  intros Hl Hsp H Hi Hn. unfold sendPaced in H. destruct l as [|p [|q l]]; cbn [length] in Hl; [lia..|].
  assert (2 <= length (mark_last (p :: q :: l)))%nat as Hm by (destruct l; cbn; lia).
  set (marked := mark_last (p :: q :: l)) in *. clearbody marked.
  destruct (Z.eqb_spec spread 0); [lia|]. cbn [now] in H. injection H as <-. cbn [mQueue with_queue] in Hi.
  set (count := length marked) in *.
  apply enqueue_elem in Hi as [Hi|(j & Hj & ->)]; [by destruct Hn|]. fold count in Hj. unfold spacing.
  pose proof (u32_range (1000 * spread)) as [Hr _].
  assert (u32 (1000 * spread) <= 1000 * spread) as Hle by (apply Z.mod_le; lia).
  pose proof (Z.mul_div_le (u32 (1000 * spread)) (Z.of_nat count) ltac:(lia)).
  pose proof (Z.div_pos (u32 (1000 * spread)) (Z.of_nat count) Hr ltac:(lia)).
  set (delta := u32 (1000 * spread) / Z.of_nat count) in *. split; [nia|].
  assert (delta * j <= delta * (Z.of_nat count - 1)) by nia. nia.
Qed.

End Accounts.

(** ** An example: a video frame of three packets, paced, with one of audio between;
    the clock advances by a millisecond between its readings *)

Module PacingDemo.
#[local] Existing Instances Demo.toy Demo.toy_laws.

Definition clock (n : nat) : Z := Z.of_nat n * 1000000.
Definition connection : SrtpConnection.t := Demo.sender.

Definition video : Track.t := TrackBuilder.nack (TrackBuilder.make
  (Media.mk [0x30] Video (ExtensionMap.add ExtensionMap.make 5 RtpStandardExtensions.kExtGoogleTWCC)) Publish 1000 96 90000) true.
Definition audio : Track.t := TrackBuilder.make (Media.make [0x31] Audio) Publish 2000 111 48000.

Definition element (id : Z) (bytes : list Z) : RtpExtension.Element := RtpExtension.mkElement id bytes.

Definition packet_of (track : Track.t) (els : list RtpExtension.Element) (sequence : Z) : RtpPacket.t :=
  RtpPacket.make track false 0 sequence 9000 0 (RtpExtensionBuilder.built els) [1; 2; sequence mod 256].

Definition frame (sequence : Z) : list RtpPacket.t :=
  map (packet_of video [element 3 [7]; element 5 [0; 0]]) [sequence; sequence + 1; sequence + 2].

Definition demo : list op :=
  [Frame video [] (frame 10); Run; Frame audio [] [packet_of audio [] 77]; Run; Frame video [] (frame 13)].

Definition demo_state : t := default (make None) (perform_all clock connection demo (make (Some RtpExtensionSourceTWCC.make))).

Example demo_sent :
  map RtpPacket.mSequence (mSending demo_state) = [10; 77; 11; 12] /\
  map RtpPacket.mSequence (waiting demo_state) = [13; 14; 15] /\
  map number_of (mSending demo_state) = [Some 1; None; Some 2; Some 3] /\
  mStats demo_state !! 1000 = Some (TrackStats.mk 1 3 111) /\ length (mSocket demo_state) = 4%nat.
Proof. vm_compute. repeat split. Qed.

Lemma clock_monotone m n : (m <= n)%nat -> clock m <= clock n.
Proof. unfold clock. lia. Qed.

Lemma packets_in_order_witness :
  map content (of_track 1000 (mSending demo_state)) ++ map content (of_track 1000 (waiting demo_state)) =
  map content (of_track 1000 (submitted demo)).
Proof.
  apply (packets_in_order clock connection demo (Some RtpExtensionSourceTWCC.make) demo_state 1000).
  - repeat constructor.
  - vm_compute. reflexivity.
Defined.

Lemma demo_sendable sequence : 0 <= sequence < 1000 -> Forall sendable (frame sequence).
Proof.
  intros Hs. assert (forall n, 0 <= n < 1003 -> sendable (packet_of video [element 3 [7]; element 5 [0; 0]] n)) as H.
  { intros n Hn. split; try (vm_compute; split; congruence); cbn [packet_of RtpPacket.make RtpPacket.mSequence RtpPacket.mPayload RtpPacket.mExtension].
    - unfold is_u16. lia.
    - split; [done|]. repeat apply bytes_ok_cons; try apply bytes_ok_nil; unfold is_u8; [lia..|].
      pose proof (Z.mod_pos_bound n 256). lia.
    - exists [element 3 [7]; element 5 [0; 0]]. split; [done|]. split; [|split; [|split]].
      + repeat constructor; cbn; lia || done.
      + repeat constructor; cbn; unfold is_u8; lia.
      + cbn. lia.
      + intros el Hel. rewrite !elem_of_cons, elem_of_nil in Hel. destruct Hel as [->|[->|[]]]; [|done]. by vm_compute. }
  unfold frame. cbn [map]. repeat (constructor; [apply H; lia|]). constructor.
Qed.

Lemma numbers_in_order_witness :
  exists s, call_all clock connection [SendPaced (frame 10) 15; RunDue; Flush video; SendPaced (frame 13) 0]
              (make (Some RtpExtensionSourceTWCC.make)) = Some s /\ numbers_from 1 (mSending s).
Proof.
  apply (numbers_in_order clock connection).
  - split; [by right|by vm_compute].
  - repeat (constructor; [cbn; (exact I || (apply demo_sendable; lia))|]). constructor.
  - vm_compute. split; congruence.
  - apply Sending.make_ok.
Defined.

Lemma books_balance_witness : mSocket demo_state = map snd (encrypted connection (mSending demo_state)).
Proof.
  apply (books_balance clock connection demo (Some RtpExtensionSourceTWCC.make) demo_state). vm_compute. reflexivity.
Defined.

Definition paced : t := default (make None) (sendPaced clock connection (frame 10) 15 (make None)).

Lemma run_sends_due_witness : exists s', run clock connection paced = Some s' /\
  Forall (fun item => clock (mTicks paced) < when item) (mQueue s').
Proof.
  destruct (run clock connection paced) as [s'|] eqn:E; [|by vm_compute in E]. exists s'. split; [done|].
  destruct (run_sends_due clock connection paced s' clock_monotone) as (due & l & _ & _ & _ & _ & H); [|exact E|exact H].
  repeat constructor; vm_compute; congruence.
Defined.

Lemma paced_within_spread_witness : exists item, item ∈ mQueue paced /\ 0 <= when item < 15000000.
Proof.
  set (item := default (mkItem 0 (packet_of audio [] 0)) (mQueue paced !! 2%nat)). exists item.
  assert (item ∈ mQueue paced) as Hi by (apply (list_elem_of_lookup_2 _ 2); by vm_compute). split; [done|].
  apply (paced_within_spread clock connection (frame 10) 15 (make None) paced item); [cbn; lia|lia|by vm_compute|done|].
  apply not_elem_of_nil.
Defined.

End PacingDemo.
