(* ===== verification/SdpText.v ===== *)
(** * SdpText: the lines of a session description and what is in them: the
    functions at the top of src/sdp_answer.cpp and src/sdp_offer.cpp, and the
    hexadecimal text of src/util.cpp

    Strings are lists of bytes; [txt] gives those of a literal. *)

From Stdlib Require Import Ascii.
From stdpp Require Import strings.
From S2P Require Import Prelude Bytes Extension Tracks.
Open Scope Z_scope.

Module Text.

Definition text : Type := list Z.

Fixpoint txt (s : string) : text :=
  match s with
  | EmptyString => []
  | String c s => Z.of_N (N_of_ascii c) :: txt s
  end.

Fixpoint to_string (l : text) : string :=
  match l with [] => EmptyString | c :: l => String (ascii_of_N (Z.to_N c)) (to_string l) end.

Definition chr (s : string) : Z := default 0 (head (txt s)).

Definition eqb (a b : text) : bool := bool_decide (a = b).

(** [s.find(c)] with the parts in front of and behind it. *)
Fixpoint split_at (c : Z) (s : text) : option (text * text) :=
  match s with
  | [] => None
  | x :: s =>
      if x =? c then Some ([], s)
      else match split_at c s with None => None | Some (a, b) => Some (x :: a, b) end
  end.

(** The pieces between the separators: one more than there are separators. *)
Fixpoint pieces (c : Z) (s : text) : list text :=
  match s with
  | [] => [[]]
  | x :: s =>
      if x =? c then [] :: pieces c s
      else match pieces c s with [] => [[x]] | p :: ps => (x :: p) :: ps end
  end.

(** *** What is known of them *)

Definition without (c : Z) (s : text) : Prop := Forall (fun x => x <> c) s.

Lemma split_at_app c a b : without c a -> split_at c (a ++ c :: b) = Some (a, b).
Proof.
  induction a as [|x a IH]; intros H; cbn [app split_at]; [by rewrite Z.eqb_refl|].
  apply list.Forall_cons in H as [Hx H]. destruct (Z.eqb_spec x c); [done|]. by rewrite IH.
Qed.

Lemma split_at_none c s : without c s -> split_at c s = None.
Proof.
  induction s as [|x s IH]; intros H; [done|]. apply list.Forall_cons in H as [Hx H]. cbn [split_at].
  destruct (Z.eqb_spec x c); [done|]. by rewrite IH.
Qed.

Lemma split_at_some c s a b : split_at c s = Some (a, b) -> s = a ++ c :: b /\ without c a.
Proof.
  revert a b. induction s as [|x s IH]; intros a b H; [done|]. cbn [split_at] in H.
  destruct (Z.eqb_spec x c) as [->|Hne]; [injection H as <- <-; by split; [|constructor]|].
  destruct (split_at c s) as [[a' b']|]; [|done]. injection H as <- <-.
  destruct (IH a' b' eq_refl) as [-> Ha]. split; [done|]. by constructor.
Qed.

Lemma pieces_one c s : without c s -> pieces c s = [s].
Proof.
  induction s as [|x s IH]; intros H; [done|]. apply list.Forall_cons in H as [Hx H]. cbn [pieces].
  destruct (Z.eqb_spec x c); [done|]. by rewrite IH.
Qed.

Lemma pieces_cons c a b : without c a -> pieces c (a ++ c :: b) = a :: pieces c b.
Proof.
  induction a as [|x a IH]; intros H; cbn [app pieces]; [by rewrite Z.eqb_refl|].
  apply list.Forall_cons in H as [Hx H]. destruct (Z.eqb_spec x c); [done|]. by rewrite IH.
Qed.

End Text.
Import Text.

(** ** Lines *)

Module Lines.

Record line := mkLine { tag : text; key : text; value : text; props : list text }.

(** The tokens behind the first one; a space at the end has nothing behind it. *)
Fixpoint tokens (fuel : nat) (s : text) : list text :=
  match fuel, s with
  | O, _ | _, [] => []
  | S fuel, s =>
      match split_at (chr " ") s with
      | None => [s]
      | Some (a, rest) => a :: tokens fuel rest
      end
  end.

(** [false] is [None]. *)
Definition parse_line (input : text) : option line :=
  match split_at (chr "=") input with
  | None => None
  | Some (tag, remaining) =>
      let '(token, rest) :=
        match split_at (chr " ") remaining with None => (remaining, []) | Some (a, b) => (a, b) end in
      let '(key, value) :=
        match split_at (chr ":") token with None => ([], []) | Some (k, v) => (k, v) end in
      let key := if bool_decide (key = []) then token else key in
      Some (mkLine tag key value (tokens (S (length rest)) rest))
  end.

(** [while (true)]: [outMap.emplace] keeps the first value of a key. *)
Definition parse_map (line : text) : list (text * text) :=
  fold_left (fun m prop =>
    match split_at (chr "=") prop with
    | None => m
    | Some (k, v) => if existsb (fun x => eqb k x.1) m then m else m ++ [(k, v)]
    end) (pieces (chr ";") line) [].

Fixpoint map_find (m : list (text * text)) (k : text) : option text :=
  match m with
  | [] => None
  | (k', v) :: m => if eqb k' k then Some v else map_find m k
  end.

Definition split_list (line : text) : list text := pieces (chr ";") line.

(** [std::getline] up to the end, and the carriage returns taken out. *)
Definition get_lines (s : text) : list text :=
  map (List.filter (fun c => negb (c =? 13))) (pieces 10 s).

End Lines.

(** ** Numbers *)

Module Numbers.

(** The value of a digit in a radix of up to 36. *)
Definition digit (radix c : Z) : option Z :=
  let v :=
    if (48 <=? c) && (c <=? 57) then c - 48
    else if (97 <=? c) && (c <=? 122) then c - 87
    else if (65 <=? c) && (c <=? 90) then c - 55
    else radix in
  if v <? radix then Some v else None.

Fixpoint digits (radix acc : Z) (n : nat) (s : text) : Z * nat * text :=
  match s with
  | c :: s' =>
      match digit radix c with
      | Some d => digits radix (acc * radix + d) (S n) s'
      | None => (acc, n, s)
      end
  | [] => (acc, n, [])
  end.

Definition is_space (c : Z) : bool := (c =? 32) || ((9 <=? c) && (c <=? 13)).

Fixpoint skip_spaces (s : text) : text :=
  match s with c :: s' => if is_space c then skip_spaces s' else s | [] => [] end.

Definition sign (s : text) : bool * text :=
  match s with c :: s' => if c =? 45 then (true, s') else if c =? 43 then (false, s') else (false, s) | [] => (false, []) end.

(** [0x] in front of a hexadecimal digit. *)
Definition skip_prefix (radix : Z) (s : text) : text :=
  match s with
  | z :: x :: d :: s' =>
      if (radix =? 16) && (z =? 48) && ((x =? 120) || (x =? 88)) && bool_decide (is_Some (digit 16 d))
      then d :: s' else s
  | _ => s
  end.

(** [std::strtoul], with an [unsigned long] of 64 bits: the number, and where it
    ends, which is the start of the string when there is none. *)
Definition strtoul (s : text) (radix : Z) : Z * text :=
  let '(negative, s') := sign (skip_spaces s) in
  let '(v, n, rest) := digits radix 0 0 (skip_prefix radix s') in
  match n with
  | O => (0, s)
  | _ => (if 2 ^ 64 <=? v then 2 ^ 64 - 1 else if negative then u64 (- v) else v, rest)
  end.

Definition parse_u32 (s : text) (radix : Z) : option Z :=
  let '(l, endptr) := strtoul s radix in
  if bool_decide (endptr = []) then Some (u32 l) else None.

Definition is_valid_payload_id (payloadId : Z) : bool := (96 <=? payloadId) && (payloadId <=? 127).

(** [ss << n] of an unsigned integer, of at most 20 digits. *)
Fixpoint decimal_loop (fuel : nat) (n : Z) (acc : text) : text :=
  match fuel with
  | O => acc
  | S fuel =>
      let acc := (48 + n mod 10) :: acc in
      if n / 10 =? 0 then acc else decimal_loop fuel (n / 10) acc
  end.

Definition decimal (n : Z) : text := decimal_loop 20 n [].

(** [snprintf("%06x", n)] *)
Definition nibble (n : Z) : Z := if n <? 10 then 48 + n else 87 + n.

Fixpoint hex_loop (fuel : nat) (n : Z) (acc : text) : text :=
  match fuel with
  | O => acc
  | S fuel => hex_loop fuel (n / 16) (nibble (n mod 16) :: acc)
  end.

Definition hex6 (n : Z) : text := hex_loop (if n <? 2 ^ 24 then 6 else if n <? 2 ^ 28 then 7 else 8) n [].

End Numbers.

Definition parse_codec (s : text) : option Codec :=
  if eqb s (txt "VP8") then Some VP8
  else if eqb s (txt "VP9") then Some VP9
  else if eqb s (txt "H264") then Some H264
  else if eqb s (txt "H265") then Some H265
  else if eqb s (txt "AV1") then Some AV1
  else if eqb s (txt "opus") then Some Opus
  else if eqb s (txt "rtx") then Some Rtx
  else None.

(** ** Fingerprints (src/util.cpp) *)

Module Hex.

Fixpoint bin_to_hex (buf : list Z) : text :=
  match buf with
  | [] => []
  | b :: buf' =>
      Numbers.nibble (Z.land (Z.shiftr b 4) 0x0F) :: Numbers.nibble (Z.land b 0x0F) ::
      match buf' with [] => [] | _ => 58 :: bin_to_hex buf' end
  end.

(** The loop of [hex_to_bin]: the nibbles so far. *)
Fixpoint hex_loop (hex : text) (accumCount accumBuf : Z) (buf : list Z) : list Z :=
  match hex with
  | [] => buf
  | ch :: hex =>
      let accumNibble :=
        if (48 <=? ch) && (ch <=? 57) then ch - 48
        else if (97 <=? ch) && (ch <=? 102) then 10 + ch - 97
        else if (65 <=? ch) && (ch <=? 70) then 10 + ch - 65
        else -1 in
      if 0 <=? accumNibble then
        let accumCount := accumCount + 4 in
        let accumBuf := u8 (Z.lor (Z.shiftl accumBuf 4) accumNibble) in
        if accumCount =? 8 then hex_loop hex 0 0 (ByteWriter.writeU8 buf accumBuf)
        else hex_loop hex accumCount accumBuf buf
      else hex_loop hex accumCount accumBuf buf
  end.

Definition hex_to_bin (hex : text) : list Z := hex_loop hex 0 0 [].

End Hex.
