(* ===== verification/SdpOffer.v ===== *)
(** * SdpOffer: src/sdp_offer.cpp

    The draws of the random generator are a function [rnd] of their rank, with
    values up to 0x7ffffffe; the fingerprint of the certificate is a parameter. *)

From stdpp Require Import strings.
From S2P Require Import Prelude Bytes Extension Tracks ExtensionSources SdpText.
Open Scope Z_scope.
Import RtpStandardExtensions Text Numbers.

Record Config := mkConfig {
  cname : text;
  data_channels : list text;
  enable_rtx : bool;
  enable_bwe : bool;
  enable_rfc8851 : bool;
  pli_interval_millis : Z;
  jitter_buffer_length_millis : Z;
  jitter_buffer_nack_delay_millis : Z;
  enable_abs_capture_time : bool
}.

Record MediaCodec := mkMediaCodec { codec : Codec; profile_level_id : Z; mc_minptime : Z; mc_stereo : bool }.

Record MediaLine := mkMediaLine {
  id : text;
  mediaType : MediaType;
  codec_list : list MediaCodec;
  layer_list : list SimulcastLayer.t
}.

Record LayerGenerated := mkLayerGenerated { name : text; l_ssrc : Z; l_rtx : Z }.

Record MediaLineGenerated := mkMediaLineGenerated {
  mediaId : text;
  g_mediaType : MediaType;
  ssrc : Z;
  rtx : Z;
  layer : list LayerGenerated
}.

(** [mDrawn] is the number of draws so far; [mControlPacketSource] the SSRC of
    the control packets. *)
Record t := mk {
  mDrawn : nat;
  mDirection : Direction;
  mConfig : Config;
  mMediaLineList : list MediaLine;
  mOriginId : Z;
  mIceUfrag : text;
  mIcePassword : text;
  mMediaLineGeneratedList : list MediaLineGenerated;
  mControlPacketSource : option Z
}.

(** [Error { Code::InvalidData, message }], or the value. *)
Definition result (A : Type) : Type := text + A.

Section Offer.
Context (rnd : nat -> Z) (sha256FingerprintHex : text).

(** *** Random strings *)

Fixpoint generateRandomString (len : nat) (drawn : nat) : text * nat :=
  match len with
  | O => ([], drawn)
  | S len =>
      let c := default 0 (txt "abcdefghijklmnopqrstuvwxyz0123456789" !! Z.to_nat (rnd drawn mod 36)) in
      let '(res, drawn) := generateRandomString len (S drawn) in
      (c :: res, drawn)
  end.

(** The 16 bytes from the [i]-th on, with the dashes. *)
Fixpoint uuid_loop (n : nat) (i : nat) (drawn : nat) : text * nat :=
  match n with
  | O => ([], drawn)
  | S n =>
      let dash := if bool_decide (i ∈ [4; 6; 8; 10]%nat) then txt "-" else [] in
      let a := nibble (Z.land (rnd drawn) 0x0F) in
      let b := nibble (Z.land (rnd (S drawn)) 0x0F) in
      let '(res, drawn) := uuid_loop n (S i) (S (S drawn)) in
      (dash ++ a :: b :: res, drawn)
  end.

Definition generateRandomUUID (drawn : nat) : text * nat := uuid_loop 16 0 drawn.

(** The members in the order of their declaration. *)
Definition make (direction : Direction) (config : Config) (media : list MediaLine) : t :=
  let mOriginId := Z.lor (Z.shiftl (rnd 0%nat) 32) (rnd 1%nat) in
  let '(mIceUfrag, drawn) := generateRandomString 8 2 in
  let '(mIcePassword, drawn) := generateRandomString 24 drawn in
  mk drawn direction config media mOriginId mIceUfrag mIcePassword [] None.

(** *** The text *)

(** [codec_to_string]; the assertion is about [Rtx]. *)
Definition codec_to_string (c : Codec) : option text :=
  match c with
  | AV1 => Some (txt "AV1/90000")
  | VP8 => Some (txt "VP8/90000")
  | VP9 => Some (txt "VP9/90000")
  | H264 => Some (txt "H264/90000")
  | H265 => Some (txt "H265/90000")
  | Opus => Some (txt "opus/48000/2")
  | Rtx => None
  end.

Fixpoint list_to_string (n : nat) (start : Z) : text :=
  match n with
  | O => []
  | S O => decimal start
  | S n => decimal start ++ txt " " ++ list_to_string n (start + 1)
  end.

(** [ss << ... << std::endl] *)
Definition ln (parts : list text) : text := concat parts ++ [10].

Definition kSctpPort : Z := 5000.
Definition kSctpMaxMessageSize : Z := 262144.

(** The lines about a payload id. *)
Definition codec_lines (cfg : Config) (type : MediaType) (item : MediaCodec) (payloadId : Z) : option text :=
  name ← codec_to_string (codec item);
  Some
    (ln [txt "a=rtpmap:"; decimal payloadId; txt " "; name] ++
     (if bool_decide (codec item = H264) then
        ln [txt "a=fmtp:"; decimal payloadId;
            txt " level-asymmetry-allowed=1;packetization-mode=1;profile-level-id="; hex6 (profile_level_id item)]
      else if bool_decide (codec item = Opus) then
        ln [txt "a=fmtp:"; decimal payloadId; txt " minptime="; decimal (mc_minptime item);
            txt ";stereo="; decimal (if mc_stereo item then 1 else 0); txt ";useinbandfec=1"]
      else []) ++
     ln [txt "a=rtcp-fb:"; decimal payloadId; txt " nack"] ++
     (if bool_decide (type = Video) then ln [txt "a=rtcp-fb:"; decimal payloadId; txt " nack pli"] else []) ++
     (if enable_rtx cfg then
        let payloadIdRtx := u32 (payloadId + 1) in
        ln [txt "a=rtpmap:"; decimal payloadIdRtx; txt " rtx/90000"] ++
        ln [txt "a=fmtp:"; decimal payloadIdRtx; txt " apt="; decimal payloadId]
      else [])).

(** [for (const auto& item : codecList)]: the lines and the next payload id. *)
Fixpoint codecs_lines (cfg : Config) (type : MediaType) (l : list MediaCodec) (payloadId : Z) : option (text * Z) :=
  match l with
  | [] => Some ([], payloadId)
  | item :: l =>
      lines ← codec_lines cfg type item payloadId;
      '(rest, payloadId) ← codecs_lines cfg type l (u32 (payloadId + (if enable_rtx cfg then 2 else 1)));
      Some (lines ++ rest, payloadId)
  end.

(** The lines that announce an SSRC. *)
Definition ssrc_lines (cfg : Config) (s : Z) (msid : text) : text :=
  ln [txt "a=ssrc:"; decimal s; txt " cname:"; cname cfg] ++
  ln [txt "a=ssrc:"; decimal s; txt " msid:"; cname cfg; txt " "; msid].

(** [1 + mRandomGenerator.next()] *)
Definition draw_ssrc (drawn : nat) : Z * nat := (u32 (1 + rnd drawn), S drawn).

(** An SSRC, with that for retransmissions: the text, both, and the draws. *)
Definition stream_lines (cfg : Config) (msid : text) (drawn : nat) : text * Z * Z * nat :=
  let '(s, drawn) := draw_ssrc drawn in
  if enable_rtx cfg then
    let '(r, drawn) := draw_ssrc drawn in
    (ssrc_lines cfg s msid ++ ssrc_lines cfg r msid ++ ln [txt "a=ssrc-group:FID "; decimal s; txt " "; decimal r], s, r, drawn)
  else (ssrc_lines cfg s msid, s, 0, drawn).

Definition rid_line (cfg : Config) (l : SimulcastLayer.t) : text :=
  ln ([txt "a=rid:"; SimulcastLayer.name l; txt " send"] ++
      if enable_rfc8851 cfg then
        [txt " max-br="; decimal (u32 (SimulcastLayer.kilobits_per_second l * 1024)); txt ";max-width=";
         decimal (SimulcastLayer.width l); txt ";max-height="; decimal (SimulcastLayer.height l); txt ";max-fps=";
         decimal (SimulcastLayer.frames_per_second l)]
      else []).

Fixpoint names_list (l : list SimulcastLayer.t) (first : bool) : text :=
  match l with
  | [] => []
  | x :: l => (if first then txt " " else txt ";") ++ SimulcastLayer.name x ++ names_list l false
  end.

(** [for (const auto& layer : layerList)]: the second loop, which draws. *)
Fixpoint layers_lines (cfg : Config) (msid : text) (l : list SimulcastLayer.t) (drawn : nat) (control : option Z)
  : text * list LayerGenerated * nat * option Z :=
  match l with
  | [] => ([], [], drawn, control)
  | x :: l =>
      let '(lines, s, r, drawn) := stream_lines cfg msid drawn in
      let control := match control with None => Some s | Some c => Some c end in
      let '(rest, layers, drawn, control) := layers_lines cfg msid l drawn control in
      (lines ++ rest, mkLayerGenerated (SimulcastLayer.name x) s r :: layers, drawn, control)
  end.

(** What follows the codecs of a media line. *)
Definition streams_lines (o : t) (m : MediaLine) (drawn : nat) (control : option Z)
  : text * MediaLineGenerated * nat * option Z :=
  let cfg := mConfig o in
  let subscribe := match mDirection o with Subscribe => true | Publish => false end in
  let '(msid, drawn) := generateRandomUUID drawn in
  let twcc := ln [txt "a=extmap:14 "; txt kExtGoogleTWCC] in
  if bool_decide (layer_list m = []) || subscribe then
    let '(lines, s, r, drawn) := stream_lines cfg msid drawn in
    let control := match control with None => Some s | Some c => Some c end in
    ((if enable_bwe cfg || subscribe then twcc else []) ++ lines,
     mkMediaLineGenerated (id m) (mediaType m) s r [], drawn, control)
  else
    let '(lines, layers, drawn, control) := layers_lines cfg msid (layer_list m) drawn control in
    (ln [txt "a=extmap:1 "; txt kExtSdesMid] ++ ln [txt "a=extmap:2 "; txt kExtSdesRtpStreamId] ++
     (if enable_rtx cfg then ln [txt "a=extmap:3 "; txt kExtSdesRtpRepairedStreamId] else []) ++
     ln [txt "a=extmap:4 "; txt kExtGoogleVLA] ++
     (if enable_bwe cfg then twcc else []) ++
     concat (map (rid_line cfg) (layer_list m)) ++
     ln [txt "a=simulcast:send"; names_list (layer_list m) true] ++ lines,
     mkMediaLineGenerated (id m) (mediaType m) 0 0 layers, drawn, control).

(** The lines in front of the codecs. *)
Definition media_head (o : t) (m : MediaLine) (payloadId : Z) : text :=
  let cfg := mConfig o in
  let n := (if enable_rtx cfg then length (codec_list m) * 2 else length (codec_list m))%nat in
  ln [txt "m="; (match mediaType m with Video => txt "video" | Audio => txt "audio" end); txt " 9 UDP/TLS/RTP/SAVPF ";
      list_to_string n payloadId] ++
  ln [txt "c=IN IP4 0.0.0.0"] ++ ln [txt "a=rtcp:9 IN IP4 0.0.0.0"] ++ ln [txt "a=rtcp-xr:rcvr-rtt=all"] ++
  ln [txt "a=fingerprint:sha-256 "; sha256FingerprintHex] ++
  ln [txt "a=ice-ufrag:"; mIceUfrag o] ++ ln [txt "a=ice-pwd:"; mIcePassword o] ++ ln [txt "a=setup:actpass"] ++
  ln [txt "a=mid:"; id m] ++
  ln [match mDirection o with Publish => txt "a=sendonly" | Subscribe => txt "a=recvonly" end] ++
  ln [txt "a=rtcp-mux"] ++ ln [txt "a=rtcp-rsize"] ++
  (if enable_abs_capture_time cfg then ln [txt "a=extmap:12 "; txt kExtAbsCaptureTime] else []).

(** The checks of the codecs of a media line. *)
Definition check_codecs (m : MediaLine) : result unit :=
  if bool_decide (codec_list m = []) then inl (txt "A media line is present but has no codecs")
  else
    match mediaType m with
    | Audio =>
        if forallb (fun c => isAudioCodec (codec c)) (codec_list m) then inr tt
        else inl (txt "A media line with type audio has a codec that's not audio")
    | Video =>
        if forallb (fun c => isVideoCodec (codec c)) (codec_list m) then inr tt
        else inl (txt "A media line with type video has a codec that's not video")
    end.

(** [for (const auto& mediaLine : mMediaLineList)]; what was generated stays also
    when a later line is in error. *)
Fixpoint media_loop (l : list MediaLine) (payloadId : Z) (o : t) : option (result text * t) :=
  match l with
  | [] => Some (inr [], o)
  | m :: l =>
      match check_codecs m with
      | inl e => Some (inl e, o)
      | inr _ =>
          let head := media_head o m payloadId in
          '(codecs, payloadId) ← codecs_lines (mConfig o) (mediaType m) (codec_list m) payloadId;
          let '(streams, generated, drawn, control) := streams_lines o m (mDrawn o) (mControlPacketSource o) in
          let o := mk drawn (mDirection o) (mConfig o) (mMediaLineList o) (mOriginId o) (mIceUfrag o) (mIcePassword o)
                      (mMediaLineGeneratedList o ++ [generated]) control in
          '(rest, o) ← media_loop l payloadId o;
          Some (match rest with inl e => inl e | inr rest => inr (head ++ codecs ++ streams ++ rest) end, o)
      end
  end.

(** The group of all sections. *)
Definition bundle (o : t) (hasData : bool) : text :=
  let sectionCount := (length (mMediaLineList o) + (if hasData then 1 else 0))%nat in
  if (1 <? sectionCount)%nat then
    ln [txt "a=group:BUNDLE"; concat (map (fun m => txt " " ++ id m) (mMediaLineList o));
        (if hasData then txt " datachannel" else [])]
  else [].

Definition data_lines (o : t) : text :=
  ln [txt "m=application 9 UDP/DTLS/SCTP webrtc-datachannel"] ++ ln [txt "c=IN IP4 0.0.0.0"] ++
  ln [txt "a=fingerprint:sha-256 "; sha256FingerprintHex] ++
  ln [txt "a=ice-ufrag:"; mIceUfrag o] ++ ln [txt "a=ice-pwd:"; mIcePassword o] ++ ln [txt "a=setup:actpass"] ++
  ln [txt "a=mid:datachannel"] ++ ln [txt "a=sctp-port:"; decimal kSctpPort] ++
  ln [txt "a=max-message-size:"; decimal kSctpMaxMessageSize].

Definition generate (o : t) : option (result text * t) :=
  let hasMedia := negb (bool_decide (mMediaLineList o = [])) in
  let hasData := negb (bool_decide (data_channels (mConfig o) = [])) in
  if negb hasMedia && negb hasData then Some (inl (txt "No video, audio, or data channels configured"), o)
  else
    let head :=
      ln [txt "v=0"] ++ ln [txt "o=- "; decimal (mOriginId o); txt " 2 IN IP4 127.0.0.1"] ++ ln [txt "s=-"] ++
      ln [txt "t=0 0"] ++ ln [txt "a=extmap-allow-mixed"] ++ ln [txt "a=msid-semantic: WMS"] ++ bundle o hasData in
    '(media, o) ← media_loop (mMediaLineList o) 96 o;
    Some (match media with
          | inl e => inl e
          | inr media => inr (head ++ media ++ (if hasData then data_lines o else []))
          end, o).

End Offer.

(** *** What the answer asks of the offer *)

Definition getDirection (o : t) : Direction := mDirection o.
Definition getConfig (o : t) : Config := mConfig o.
Definition getIceUFrag (o : t) : text := mIceUfrag o.
Definition getIcePassword (o : t) : text := mIcePassword o.
Definition hasDataChannel (o : t) : bool := negb (bool_decide (data_channels (mConfig o) = [])).
Definition getSctpPort (o : t) : Z := kSctpPort.
Definition getSctpMaxMessageSize (o : t) : Z := kSctpMaxMessageSize.
Definition getControlPacketSource (o : t) : option Z := mControlPacketSource o.

(** The first media line with the id, and its layers if it has any. *)
Definition getVideoSimulcastLayerList (o : t) (mid : text) : option (list SimulcastLayer.t) :=
  match List.find (fun m => eqb (id m) mid) (mMediaLineList o) with
  | None => None
  | Some m => if bool_decide (layer_list m = []) then None else Some (layer_list m)
  end.

(** [None] is the assertion. *)
Definition getMediaSSRC (o : t) (mid : text) : option (Z * Z) :=
  g ← List.find (fun g => eqb (mediaId g) mid) (mMediaLineGeneratedList o);
  Some (ssrc g, rtx g).

(** The layers of that name of all media with the id, in their order. *)
Definition getVideoSimulastSSRC (o : t) (mid lname : text) : option (Z * Z) :=
  l ← List.find (fun l => eqb (name l) lname)
        (concat (map layer (List.filter (fun g => eqb (mediaId g) mid) (mMediaLineGeneratedList o))));
  Some (l_ssrc l, l_rtx l).
