(* ===== verification/SdpAnswer.v ===== *)
(** * SdpAnswer: src/sdp_answer.cpp, src/track_selector.cpp, src/x509_hash.cpp

    The text of an answer to the session description it stands for.  An error is
    a value ([inl]); [None] is an assertion that fails or the [value()] of an
    empty optional.  [inet_pton] is the platform's. *)

From stdpp Require Import strings.
From S2P Require Import Prelude Bytes Extension Tracks SdpText SdpOffer.
Open Scope Z_scope.
Import Text Lines Numbers.

(** The addresses of a text, as the bytes of [in_addr] and [in6_addr]. *)
Class Inet := { inet_pton4 : text -> option (list Z); inet_pton6 : text -> option (list Z) }.

(** ** Hosts

    [anyaddr] with its family; the port of the host is in host order. *)

Inductive Host := HostV4 (addr : list Z) (port : Z) | HostV6 (addr : list Z) (port : Z).

(** The equality of src/util.cpp: family, port and address. *)
#[export] Instance Host_eq_dec : EqDecision Host.
Proof. solve_decision. Defined.

(** ** X509Hash *)

Module X509Hash.
Record t := mk { mAlg : text; mBin : list Z; mHex : text }.
End X509Hash.

(** ** TrackSelector

    The interface, and the implementation that takes the best. *)

Definition TrackSelector : Type := list Track.t -> option Track.t.

Module HighestTrackSelector.

(** The values of the enumeration (include/srtc/srtc.h). *)
Definition codec_value (c : Codec) : Z :=
  match c with VP8 => 1 | VP9 => 2 | H264 => 3 | H265 => 4 | AV1 => 5 | Opus => 100 | Rtx => 200 end.

Definition isBetter (best : option Track.t) (curr : Track.t) : bool :=
  match best with
  | None => true
  | Some best =>
      if negb (bool_decide (Track.mCodec best = Track.mCodec curr)) then
        codec_value (Track.mCodec best) <? codec_value (Track.mCodec curr)
      else
        let best_profileId := match Track.mCodecOptions best with Some o => Track.profileLevelId o | None => 0 end in
        let curr_profileId := match Track.mCodecOptions curr with Some o => Track.profileLevelId o | None => 0 end in
        best_profileId <? curr_profileId
  end.

Definition selectTrack : TrackSelector := fun list =>
  match list with
  | [] => None
  | first :: _ =>
      match Track.mMediaType first with
      | Audio => Some first
      | Video => fold_left (fun best curr => if isBetter best curr then Some curr else best) list None
      end
  end.

End HighestTrackSelector.

(** ** The state of a media section *)

Record ParsePayloadState := mkPayload {
  payloadId : Z;
  p_codec : option Codec;
  codecOptions : option Track.CodecOptions;
  clockRate : Z;
  rtxPayloadId : Z;
  hasNack : bool;
  hasPli : bool
}.

Record ParseMediaState := mkMedia {
  m_mediaType : option MediaType;
  m_mediaId : text;
  extensionMap : ExtensionMap.t;
  ridList : list text;
  layerList : list Track.SimulcastLayerIndexed;
  payloadStateList : list ParsePayloadState;
  m_ssrc : Z;
  rtxSsrc : Z;
  ssrcList : list Z
}.

Module MediaState.

Definition make : ParseMediaState := mkMedia None [] ExtensionMap.make [] [] [] 0 0 [].

Definition clear (m : ParseMediaState) : ParseMediaState :=
  mkMedia None [] (ExtensionMap.clear (extensionMap m)) [] [] [] 0 0 [].

(** *** The fields *)

Definition set_payloads (m : ParseMediaState) (l : list ParsePayloadState) : ParseMediaState :=
  mkMedia (m_mediaType m) (m_mediaId m) (extensionMap m) (ridList m) (layerList m) l (m_ssrc m) (rtxSsrc m) (ssrcList m).
Definition set_type (m : ParseMediaState) (type : MediaType) : ParseMediaState :=
  mkMedia (Some type) (m_mediaId m) (extensionMap m) (ridList m) (layerList m) (payloadStateList m) (m_ssrc m) (rtxSsrc m)
          (ssrcList m).
Definition set_mediaId (m : ParseMediaState) (id : text) : ParseMediaState :=
  mkMedia (m_mediaType m) id (extensionMap m) (ridList m) (layerList m) (payloadStateList m) (m_ssrc m) (rtxSsrc m)
          (ssrcList m).
Definition add_extension (m : ParseMediaState) (id : Z) (name : text) : ParseMediaState :=
  mkMedia (m_mediaType m) (m_mediaId m) (ExtensionMap.add (extensionMap m) id (to_string name)) (ridList m) (layerList m)
          (payloadStateList m) (m_ssrc m) (rtxSsrc m) (ssrcList m).
Definition add_rid (m : ParseMediaState) (rid : text) : ParseMediaState :=
  mkMedia (m_mediaType m) (m_mediaId m) (extensionMap m) (ridList m ++ [rid]) (layerList m) (payloadStateList m) (m_ssrc m)
          (rtxSsrc m) (ssrcList m).
Definition add_layer (m : ParseMediaState) (l : Track.SimulcastLayerIndexed) : ParseMediaState :=
  mkMedia (m_mediaType m) (m_mediaId m) (extensionMap m) (ridList m) (layerList m ++ [l]) (payloadStateList m) (m_ssrc m)
          (rtxSsrc m) (ssrcList m).
Definition set_ssrc (m : ParseMediaState) (media rtx : Z) : ParseMediaState :=
  mkMedia (m_mediaType m) (m_mediaId m) (extensionMap m) (ridList m) (layerList m) (payloadStateList m) media rtx (ssrcList m).
Definition add_ssrc (m : ParseMediaState) (s : Z) : ParseMediaState :=
  mkMedia (m_mediaType m) (m_mediaId m) (extensionMap m) (ridList m) (layerList m) (payloadStateList m) (m_ssrc m) (rtxSsrc m)
          (ssrcList m ++ [s]).

(** *** The operations *)

(** [i] is the index of the first of [offerLayerList]. *)
Fixpoint addSimulcastLayer (m : ParseMediaState) (offerLayerList : list SimulcastLayer.t) (ridName : text) (i : Z)
  : ParseMediaState :=
  match offerLayerList with
  | [] => m
  | layer :: offerLayerList =>
      if eqb (SimulcastLayer.name layer) ridName then
        add_layer m (Track.mkLayer
          (SimulcastLayer.mk ridName (SimulcastLayer.width layer) (SimulcastLayer.height layer)
             (SimulcastLayer.frames_per_second layer) (SimulcastLayer.kilobits_per_second layer)) (u8 i))
      else addSimulcastLayer m offerLayerList ridName (i + 1)
  end.

Definition setPayloadList (m : ParseMediaState) (list : list Z) : ParseMediaState :=
  set_payloads m (map (fun i => mkPayload i None None 0 0 false false) list).

Definition getPayloadState (m : ParseMediaState) (i : Z) : option ParsePayloadState :=
  List.find (fun p => payloadId p =? i) (payloadStateList m).

(** A change through the pointer of [getPayloadState]. *)
Fixpoint update (l : list ParsePayloadState) (i : Z) (f : ParsePayloadState -> ParsePayloadState) : list ParsePayloadState :=
  match l with
  | [] => []
  | p :: l => if payloadId p =? i then f p :: l else p :: update l i f
  end.

Definition modify (m : ParseMediaState) (i : Z) (f : ParsePayloadState -> ParsePayloadState) : ParseMediaState :=
  set_payloads m (update (payloadStateList m) i f).

Definition createMedia (m : ParseMediaState) : option Media.t :=
  type ← m_mediaType m; Some (Media.mk (m_mediaId m) type (extensionMap m)).

(** The track of a payload that has a codec of its own. *)
Definition track_of (m : ParseMediaState) (direction : Direction) (media : Media.t) (ssrcMedia : Z) (p : ParsePayloadState)
  : option Track.t :=
  match p_codec p with
  | None | Some Rtx => None
  | Some c =>
      if 0 <? payloadId p then
        let none := bool_decide (layerList m = []) in
        let trackSsrc := if none then ssrcMedia else 0 in
        let trackRtxSsrc := if none && negb (rtxPayloadId p =? 0) then rtxSsrc m else 0 in
        Some (Track.mk media direction trackSsrc (payloadId p) trackRtxSsrc (rtxPayloadId p) c (codecOptions p) None
                (clockRate p) (hasNack p) (hasPli p))
      else None
  end.

(** The SSRC of the section: that of its group, or the first one it names. *)
Definition ssrcMedia (m : ParseMediaState) (direction : Direction) : Z :=
  match direction with
  | Publish => m_ssrc m
  | Subscribe => if m_ssrc m =? 0 then default (m_ssrc m) (head (ssrcList m)) else m_ssrc m
  end.

(** [None] is the assertion on the selector, [Some None] the null pointer. *)
Definition selectTrack (m : ParseMediaState) (direction : Direction) (media : Media.t) (selector : option TrackSelector)
  : option (option Track.t) :=
  if bool_decide (m_mediaId m = []) then Some None
  else if bool_decide (m_mediaType m = None) then Some None
  else
    let subscribe := match direction with Subscribe => true | Publish => false end in
    if subscribe && (ssrcMedia m direction <=? 0) then Some None
    else
      match omap (track_of m direction media (ssrcMedia m direction)) (payloadStateList m) with
      | [] => Some None
      | (first :: _) as list =>
          match selector with
          | None => Some (Some first)
          | Some select => selected ← select list; Some (Some selected)
          end
      end.

(** [for (const auto& layer : layerList)] *)
Fixpoint simulcast_loop (offer : SdpOffer.t) (mediaId : text) (single : Track.t) (l : list Track.SimulcastLayerIndexed)
  : option (list Track.t) :=
  match l with
  | [] => Some []
  | x :: l =>
      '(media, rtx) ← getVideoSimulastSSRC offer mediaId (SimulcastLayer.name (Track.layer x));
      rest ← simulcast_loop offer mediaId single l;
      Some (Track.mk (Track.mMedia single) (Track.mDirection single) media (Track.mPayloadId single) rtx
              (Track.mRtxPayloadId single) (Track.mCodec single) (Track.mCodecOptions single) (Some x)
              (Track.mClockRate single) (Track.mHasNack single) (Track.mHasPli single) :: rest)
  end.

Definition makeSimulcastTrackList (m : ParseMediaState) (offer : SdpOffer.t) (single : Track.t) : option (list Track.t) :=
  simulcast_loop offer (m_mediaId m) single (layerList m).

End MediaState.

(** ** The answer *)

Module Answer.
Record t := mk {
  mDirection : Direction;
  mIceUFrag : text;
  mIcePassword : text;
  mHostList : list Host;
  mMediaList : list Media.t;
  mTrackList : list Track.t;
  mIsSetupActive : bool;
  mCertHash : X509Hash.t;
  mHasDataChannel : bool;
  mSctpPort : Z;
  mMaxMessageSize : Z
}.

Definition isVideoSimulcast (a : t) : bool :=
  existsb (fun t => bool_decide (Track.mMediaType t = Video) && Track.isSimulcast t) (mTrackList a).
End Answer.

(** ** The parser *)

Module SdpAnswerParser.
Import MediaState.

(** The sections a line can be in: [isInMediaSection], [isInApplicationSection]. *)
Record t := mk {
  offer : SdpOffer.t;
  direction : Direction;
  selector : option TrackSelector;
  iceUFrag : text;
  icePassword : text;
  isRtcpMux : bool;
  isSetupActive : bool;
  isInMediaSection : bool;
  hasMedia : bool;
  mediaState : ParseMediaState;
  isInApplicationSection : bool;
  hasDataChannel : bool;
  sctpPort : Z;
  maxSctpMessageSize : Z;
  mediaList : list Media.t;
  trackList : list Track.t;
  hostList : list Host;
  certHashAlg : text;
  certHashBin : list Z;
  certHashHex : text
}.

Definition make (offer : SdpOffer.t) (selector : option TrackSelector) : t :=
  mk offer (getDirection offer) selector [] [] false false false false MediaState.make false false 5000 262144
     [] [] [] [] [] [].

(** *** The fields *)

Definition set_ice (p : t) (ufrag password : text) : t :=
  mk (offer p) (direction p) (selector p) ufrag password (isRtcpMux p) (isSetupActive p) (isInMediaSection p) (hasMedia p)
     (mediaState p) (isInApplicationSection p) (hasDataChannel p) (sctpPort p) (maxSctpMessageSize p) (mediaList p)
     (trackList p) (hostList p) (certHashAlg p) (certHashBin p) (certHashHex p).
Definition set_flags (p : t) (rtcpMux setupActive : bool) : t :=
  mk (offer p) (direction p) (selector p) (iceUFrag p) (icePassword p) rtcpMux setupActive (isInMediaSection p) (hasMedia p)
     (mediaState p) (isInApplicationSection p) (hasDataChannel p) (sctpPort p) (maxSctpMessageSize p) (mediaList p)
     (trackList p) (hostList p) (certHashAlg p) (certHashBin p) (certHashHex p).
Definition set_section (p : t) (media application data : bool) (m : ParseMediaState) : t :=
  mk (offer p) (direction p) (selector p) (iceUFrag p) (icePassword p) (isRtcpMux p) (isSetupActive p) media (hasMedia p)
     m application data (sctpPort p) (maxSctpMessageSize p) (mediaList p)
     (trackList p) (hostList p) (certHashAlg p) (certHashBin p) (certHashHex p).
Definition set_media (p : t) (m : ParseMediaState) : t :=
  set_section p (isInMediaSection p) (isInApplicationSection p) (hasDataChannel p) m.
Definition set_sctp (p : t) (port size : Z) : t :=
  mk (offer p) (direction p) (selector p) (iceUFrag p) (icePassword p) (isRtcpMux p) (isSetupActive p) (isInMediaSection p)
     (hasMedia p) (mediaState p) (isInApplicationSection p) (hasDataChannel p) port size (mediaList p)
     (trackList p) (hostList p) (certHashAlg p) (certHashBin p) (certHashHex p).
Definition set_hosts (p : t) (l : list Host) : t :=
  mk (offer p) (direction p) (selector p) (iceUFrag p) (icePassword p) (isRtcpMux p) (isSetupActive p) (isInMediaSection p)
     (hasMedia p) (mediaState p) (isInApplicationSection p) (hasDataChannel p) (sctpPort p) (maxSctpMessageSize p)
     (mediaList p) (trackList p) l (certHashAlg p) (certHashBin p) (certHashHex p).
Definition set_hash (p : t) (alg : text) (bin : list Z) (hex : text) : t :=
  mk (offer p) (direction p) (selector p) (iceUFrag p) (icePassword p) (isRtcpMux p) (isSetupActive p) (isInMediaSection p)
     (hasMedia p) (mediaState p) (isInApplicationSection p) (hasDataChannel p) (sctpPort p) (maxSctpMessageSize p)
     (mediaList p) (trackList p) (hostList p) alg bin hex.

(** [hasMedia], with a media and its tracks. *)
Definition add_media (p : t) (m : ParseMediaState) (media : Media.t) (tracks : list Track.t) : t :=
  mk (offer p) (direction p) (selector p) (iceUFrag p) (icePassword p) (isRtcpMux p) (isSetupActive p) (isInMediaSection p)
     true m (isInApplicationSection p) (hasDataChannel p) (sctpPort p) (maxSctpMessageSize p)
     (mediaList p ++ [media]) (trackList p ++ tracks) (hostList p) (certHashAlg p) (certHashBin p) (certHashHex p).

(** *** The end of a section *)

Definition flush_m (p : t) : option (result t) :=
  let m := mediaState p in
  if negb (isInMediaSection p) then Some (inr p)
  else if bool_decide (m_mediaType m = None) then Some (inl (txt "An unsupported media type"))
  else if bool_decide (m_mediaId m = []) then Some (inl (txt "Media id cannot be empty"))
  else
    m ← (match direction p with
         | Publish => '(media, rtx) ← getMediaSSRC (offer p) (m_mediaId m); Some (set_ssrc m media rtx)
         | Subscribe => Some m
         end);
    media ← createMedia m;
    track ← MediaState.selectTrack m (direction p) media (selector p);
    match track with
    | None => Some (inl (txt "Cannot create a media track"))
    | Some track =>
        tracks ← (if bool_decide (layerList m = []) then Some [track] else makeSimulcastTrackList m (offer p) track);
        Some (inr (add_media p m media tracks))
    end.

(** *** A line that starts a section *)

Fixpoint payload_ids (props : list text) : list Z :=
  match props with
  | [] => []
  | s :: props =>
      match parse_u32 s 10 with
      | Some n => if is_valid_payload_id n then n :: payload_ids props else payload_ids props
      | None => payload_ids props
      end
  end.

Definition media_section (p : t) (type : MediaType) (props : list text) : t :=
  set_section p true (isInApplicationSection p) (hasDataChannel p)
    (set_type (setPayloadList (mediaState p) (payload_ids (drop 2 props))) type).

Definition parseLine_m (p : t) (key : text) (props : list text) : option (result t) :=
  flushed ← flush_m p;
  match flushed with
  | inl e => Some (inl e)
  | inr p =>
      let p := set_section p false false (hasDataChannel p) (MediaState.clear (mediaState p)) in
      let second := default [] (props !! 1%nat) in
      if eqb key (txt "application") then
        if (2 <=? length props)%nat && eqb second (txt "UDP/DTLS/SCTP")
        then Some (inr (set_section p (isInMediaSection p) true true (mediaState p)))
        else Some (inr p)
      else if (length props <? 2)%nat || negb (eqb second (txt "UDP/TLS/RTP/SAVPF"))
      then Some (inl (txt "Only SAVPF over DTLS is supported"))
      else if eqb key (txt "video") then Some (inr (media_section p Video props))
      else if eqb key (txt "audio") then Some (inr (media_section p Audio props))
      else Some (inr p)
  end.

(** *** Attributes of the session *)

Definition parse_fingerprint (p : t) (value : text) (props : list text) : t :=
  match props with
  | [hex] =>
      if eqb value (txt "sha-256") then set_hash p value (Hex.hex_to_bin hex) hex
      else set_hash p value (certHashBin p) (certHashHex p)
  | _ => p
  end.

(** The characters up to a null, which [c_str] ends with. *)
Fixpoint c_str (s : text) : text :=
  match s with [] => [] | c :: s => if c =? 0 then [] else c :: c_str s end.

Definition has (s : text) (c : Z) : bool := existsb (Z.eqb c) s.

Definition add_host (p : t) (h : Host) : t :=
  if existsb (fun it => bool_decide (h = it)) (hostList p) then p else set_hosts p (hostList p ++ [h]).

Definition parse_candidate `{Inet} (p : t) (props : list text) : t :=
  match props with
  | component :: transport :: priority :: addrStr :: portStr :: typ :: type :: _ =>
      if eqb component (txt "1") && eqb transport (txt "udp") && eqb typ (txt "typ") && eqb type (txt "host") then
        match parse_u32 portStr 10 with
        | Some port =>
            if (0 <? port) && (port <=? 65536) then
              if has addrStr (chr ".") then
                match inet_pton4 (c_str addrStr) with Some a => add_host p (HostV4 a (u16 port)) | None => p end
              else if has addrStr (chr ":") then
                match inet_pton6 (c_str addrStr) with Some a => add_host p (HostV6 a (u16 port)) | None => p end
              else p
            else p
        | None => p
        end
      else p
  | _ => p
  end.

Definition parse_sctp_port (p : t) (value : text) : t :=
  match parse_u32 value 10 with
  | Some port => if (0 <? port) && (port <=? 65535) then set_sctp p port (maxSctpMessageSize p) else p
  | None => p
  end.

Definition parse_max_message_size (p : t) (value : text) : t :=
  match parse_u32 value 10 with Some size => set_sctp p (sctpPort p) size | None => p end.

(** *** Attributes of a media section *)

(** The payload id of a line's value. *)
Definition payload_id (value : text) : option Z :=
  n ← parse_u32 value 10; if is_valid_payload_id n then Some n else None.

Definition parse_extmap (m : ParseMediaState) (value : text) (props : list text) : ParseMediaState :=
  match parse_u32 value 10, props with
  | Some id, [name] => if (0 <? id) && (id <=? 255) then add_extension m id name else m
  | _, _ => m
  end.

(** The codec and the clock rate of [H264/90000] and [opus/48000/2]. *)
Definition parse_encoding (s : text) : option (Codec * Z) :=
  '(codecString, clockRateString) ← split_at (chr "/") s;
  codec ← parse_codec codecString;
  let clockRateString := match split_at (chr "/") clockRateString with Some (a, _) => a | None => clockRateString end in
  rate ← parse_u32 clockRateString 10;
  if 10000 <=? rate then Some (codec, rate) else None.

Definition set_encoding (i : Z) (c : Codec) (rate : Z) (p : ParsePayloadState) : ParsePayloadState :=
  mkPayload i (Some c) (codecOptions p) rate (rtxPayloadId p) (hasNack p) (hasPli p).

Definition parse_rtpmap (m : ParseMediaState) (value : text) (props : list text) : ParseMediaState :=
  match payload_id value, props with
  | Some i, [s] =>
      match parse_encoding s with Some (c, rate) => modify m i (set_encoding i c rate) | None => m end
  | _, _ => m
  end.

Definition set_rtx (i : Z) (p : ParsePayloadState) : ParsePayloadState :=
  mkPayload (payloadId p) (p_codec p) (codecOptions p) (clockRate p) i (hasNack p) (hasPli p).

(** The payload id of retransmissions for another one. *)
Definition parse_apt (m : ParseMediaState) (i : Z) (map : list (text * text)) : ParseMediaState :=
  match map_find map (txt "apt") with
  | None => m
  | Some apt =>
      match getPayloadState m i with
      | Some p =>
          if bool_decide (p_codec p = Some Rtx) then
            match payload_id apt with Some referenced => modify m referenced (set_rtx i) | None => m end
          else m
      | None => m
      end
  end.

(** The value of a key, 0 without it. *)
Definition number_of (map : list (text * text)) (k : text) (radix : Z) : Z :=
  match map_find map k with Some v => default 0 (parse_u32 v radix) | None => 0 end.

Definition set_options (o : Track.CodecOptions) (p : ParsePayloadState) : ParsePayloadState :=
  mkPayload (payloadId p) (p_codec p) (Some o) (clockRate p) (rtxPayloadId p) (hasNack p) (hasPli p).

(** The profile, the packet time and the channels, by the type of the section. *)
Definition option_values (type : MediaType) (map : list (text * text)) : Z * Z * bool :=
  match type with
  | Video => (number_of map (txt "profile-level-id") 16, 0, false)
  | Audio => (0, number_of map (txt "minptime") 10, negb (number_of map (txt "stereo") 10 =? 0))
  end.

(** [None] is [mediaType.value()] without a type. *)
Definition parse_options (m : ParseMediaState) (i : Z) (map : list (text * text)) : option ParseMediaState :=
  match getPayloadState m i with
  | None => Some m
  | Some _ =>
      type ← m_mediaType m;
      let '(profileLevelId, minptime, stereo) := option_values type map in
      if negb (profileLevelId =? 0) || negb (minptime =? 0) || stereo
      then Some (modify m i (set_options (Track.mkCodecOptions profileLevelId minptime stereo)))
      else Some m
  end.

Definition parse_fmtp (m : ParseMediaState) (value : text) (props : list text) : option ParseMediaState :=
  match payload_id value, props with
  | Some i, [s] => let map := parse_map s in parse_options (parse_apt m i map) i map
  | _, _ => Some m
  end.

Definition set_feedback (props : list text) (p : ParsePayloadState) : ParsePayloadState :=
  fold_left (fun p token =>
    if eqb token (txt "nack")
    then mkPayload (payloadId p) (p_codec p) (codecOptions p) (clockRate p) (rtxPayloadId p) true (hasPli p)
    else if eqb token (txt "pli")
    then mkPayload (payloadId p) (p_codec p) (codecOptions p) (clockRate p) (rtxPayloadId p) (hasNack p) true
    else p) props p.

Definition parse_rtcp_fb (m : ParseMediaState) (value : text) (props : list text) : ParseMediaState :=
  match payload_id value with Some i => modify m i (set_feedback props) | None => m end.

Definition parse_rid (m : ParseMediaState) (value : text) (props : list text) : option ParseMediaState :=
  type ← m_mediaType m;
  match type, props with
  | Video, [s] => if eqb s (txt "recv") then Some (add_rid m value) else Some m
  | _, _ => Some m
  end.

Definition parse_simulcast (offer : SdpOffer.t) (m : ParseMediaState) (value : text) (props : list text)
  : option ParseMediaState :=
  type ← m_mediaType m;
  match type, props with
  | Video, [s] =>
      if eqb value (txt "recv") then
        match getVideoSimulcastLayerList offer (m_mediaId m) with
        | Some layers => Some (fold_left (fun m rid => addSimulcastLayer m layers rid 0) (split_list s) m)
        | None => Some m
        end
      else Some m
  | _, _ => Some m
  end.

Definition parse_ssrc_group (m : ParseMediaState) (value : text) (props : list text) : ParseMediaState :=
  match props with
  | [a; b] =>
      if eqb value (txt "FID") then
        match parse_u32 a 10, parse_u32 b 10 with Some media, Some rtx => set_ssrc m media rtx | _, _ => m end
      else m
  | _ => m
  end.

Definition parse_ssrc (m : ParseMediaState) (value : text) : ParseMediaState :=
  match parse_u32 value 10 with
  | Some s => if existsb (Z.eqb s) (ssrcList m) then m else add_ssrc m s
  | None => m
  end.

(** The attributes that only count in a media section. *)
Definition media_attribute (offer : SdpOffer.t) (m : ParseMediaState) (key value : text) (props : list text)
  : option ParseMediaState :=
  if eqb key (txt "extmap") then Some (parse_extmap m value props)
  else if eqb key (txt "mid") then Some (if bool_decide (value = []) then m else set_mediaId m value)
  else if eqb key (txt "rtpmap") then Some (parse_rtpmap m value props)
  else if eqb key (txt "fmtp") then parse_fmtp m value props
  else if eqb key (txt "rtcp-fb") then Some (parse_rtcp_fb m value props)
  else if eqb key (txt "rid") then parse_rid m value props
  else if eqb key (txt "simulcast") then parse_simulcast offer m value props
  else if eqb key (txt "ssrc-group") then Some (parse_ssrc_group m value props)
  else if eqb key (txt "ssrc") then Some (parse_ssrc m value)
  else Some m.

(** [None] as above; a line of this kind is never an error. *)
Definition parseLine_a `{Inet} (p : t) (key value : text) (props : list text) : option t :=
  if eqb key (txt "rtcp-mux") then Some (set_flags p true (isSetupActive p))
  else if eqb key (txt "ice-ufrag") then Some (set_ice p value (icePassword p))
  else if eqb key (txt "ice-pwd") then Some (set_ice p (iceUFrag p) value)
  else if eqb key (txt "setup") then
    Some (if eqb value (txt "active") then set_flags p (isRtcpMux p) true else p)
  else if eqb key (txt "fingerprint") then Some (parse_fingerprint p value props)
  else if eqb key (txt "candidate") then Some (parse_candidate p props)
  else if eqb key (txt "sctp-port") then Some (if isInApplicationSection p then parse_sctp_port p value else p)
  else if eqb key (txt "max-message-size") then
    Some (if isInApplicationSection p then parse_max_message_size p value else p)
  else if isInMediaSection p then
    m ← media_attribute (offer p) (mediaState p) key value props; Some (set_media p m)
  else Some p.

(** *** Lines *)

Definition parseLine `{Inet} (p : t) (l : text) : option (result t) :=
  match parse_line l with
  | None => Some (inl (txt "Invalid line in the SDP answer"))
  | Some (mkLine tag key value props) =>
      if eqb tag (txt "a") then p ← parseLine_a p key value props; Some (inr p)
      else if eqb tag (txt "m") then parseLine_m p key props
      else Some (inr p)
  end.

Fixpoint parse_lines `{Inet} (p : t) (ls : list text) : option (result t) :=
  match ls with
  | [] => Some (inr p)
  | l :: ls =>
      if bool_decide (l = []) then parse_lines p ls
      else
        r ← parseLine p l;
        match r with inl e => Some (inl e) | inr p => parse_lines p ls end
  end.

(** What is asked of the whole. *)
Definition finish (p : t) : result Answer.t :=
  if hasMedia p && negb (isRtcpMux p) then inl (txt "The rtcp-mux extension is required")
  else if bool_decide (hostList p = []) then inl (txt "No hosts to connect to")
  else if negb (hasMedia p) && negb (hasDataChannel p) then inl (txt "No media tracks or data channels")
  else inr (Answer.mk (direction p) (iceUFrag p) (icePassword p) (hostList p) (mediaList p) (trackList p)
              (isSetupActive p) (X509Hash.mk (certHashAlg p) (certHashBin p) (certHashHex p)) (hasDataChannel p)
              (sctpPort p) (maxSctpMessageSize p)).

Definition parse `{Inet} (p : t) (answer : text) : option (result Answer.t) :=
  r ← parse_lines p (get_lines answer);
  match r with
  | inl e => Some (inl e)
  | inr p =>
      flushed ← flush_m p;
      Some (match flushed with inl e => inl e | inr p => finish p end)
  end.

End SdpAnswerParser.

(** [SdpAnswer::parse] *)
Definition parse `{Inet} (offer : SdpOffer.t) (answer : text) (selector : option TrackSelector) : option (result Answer.t) :=
  SdpAnswerParser.parse (SdpAnswerParser.make offer selector) answer.
