(* ===== verification/SdpProps.v ===== *)
(** * SdpProps: what is known of the texts of src/sdp_offer.cpp and
    src/sdp_answer.cpp

    Numbers and fingerprints read back what was printed; whatever its text, an
    accepted answer is well formed; and the answers that stop the program are
    those that name a medium the offer does not have. *)

From stdpp Require Import strings.
From S2P Require Import Prelude Bytes Extension Tracks SdpText SdpOffer SdpAnswer.
Open Scope Z_scope.
Import Text Lines Numbers.

(** ** Numbers *)

Module Numerals.

(** A character that [strtoul] takes at the start: no space, no sign. *)
Definition plain (c : Z) : Prop := 48 <= c <= 57 \/ 97 <= c <= 102.

Lemma plain_start c s : plain c -> sign (skip_spaces (c :: s)) = (false, c :: s).
Proof.
  intros H. cbn [skip_spaces]. unfold is_space, sign, plain in *.
  destruct (Z.eqb_spec c 32), (Z.leb_spec 9 c), (Z.leb_spec c 13); cbn [orb andb]; try lia;
    destruct (Z.eqb_spec c 45), (Z.eqb_spec c 43); try lia; done.
Qed.

Lemma digit_ten n : 0 <= n < 10 -> digit 10 (48 + n) = Some n.
Proof.
  intros H. unfold digit. destruct (Z.leb_spec 48 (48 + n)), (Z.leb_spec (48 + n) 57); try lia. cbn [andb].
  replace (48 + n - 48) with n by lia. by destruct (Z.ltb_spec n 10); [|lia].
Qed.

Lemma nibble_plain n : 0 <= n < 16 -> plain (nibble n) /\ nibble n <> 120.
Proof. intros H. unfold nibble, plain. destruct (Z.ltb_spec n 10); lia. Qed.

Lemma digit_nibble n : 0 <= n < 16 -> digit 16 (nibble n) = Some n.
Proof.
  intros H. unfold digit, nibble. destruct (Z.ltb_spec n 10).
  - destruct (Z.leb_spec 48 (48 + n)), (Z.leb_spec (48 + n) 57); try lia. cbn [andb].
    replace (48 + n - 48) with n by lia. by destruct (Z.ltb_spec n 16); [|lia].
  - destruct (Z.leb_spec 48 (87 + n)), (Z.leb_spec (87 + n) 57), (Z.leb_spec 97 (87 + n)), (Z.leb_spec (87 + n) 122);
      try lia. cbn [andb]. replace (87 + n - 87) with n by lia. by destruct (Z.ltb_spec n 16); [|lia].
Qed.

(** *** Decimal *)

Lemma decimal_step f n acc :
  decimal_loop (S f) n acc =
  if n / 10 =? 0 then (48 + n mod 10) :: acc else decimal_loop f (n / 10) ((48 + n mod 10) :: acc).
Proof. done. Qed.

Lemma decimal_digits f : forall n acc a k, 0 <= n < 10 ^ Z.of_nat (S f) ->
  exists l, digits 10 a k (decimal_loop (S f) n acc) = digits 10 (a * 10 ^ Z.of_nat l + n) (k + l) acc /\ l <> O.
Proof.
  induction f as [|f IH]; intros n acc a k Hn.
  all: rewrite decimal_step; rewrite Nat2Z.inj_succ, Z.pow_succ_r in Hn by lia.
  - change (Z.of_nat 0) with 0 in Hn. change (10 * 10 ^ 0) with 10 in Hn. rewrite Z.div_small by lia. cbn [Z.eqb].
    exists 1%nat. rewrite Z.mod_small by lia. cbn [digits]. rewrite digit_ten by lia.
    split; [|done]. f_equal; lia.
  - destruct (Z.eqb_spec (n / 10) 0) as [H0|H0].
    + exists 1%nat. cbn [digits]. rewrite digit_ten by zdm. split; [|done]. f_equal; zdm.
    + destruct (IH (n / 10) ((48 + n mod 10) :: acc) a k) as (l & E & Hl); [zdm|].
      exists (S l). rewrite E. cbn [digits].
      rewrite digit_ten by zdm. split; [|done]. rewrite Nat2Z.inj_succ, Z.pow_succ_r by lia. f_equal; [|lia].
      pose proof (Z.div_mod n 10). lia.
Qed.

(** The characters of a number are digits, and there is one. *)
Lemma decimal_loop_plain f : forall n acc, Forall plain acc -> Forall plain (decimal_loop f n acc).
Proof.
  induction f as [|f IH]; intros n acc H; [done|]. cbn [decimal_loop].
  assert (Forall plain ((48 + n mod 10) :: acc)) by (constructor; [left; zdm|done]).
  destruct (_ =? 0); [done|]. by apply IH.
Qed.

Lemma decimal_loop_nonempty f n acc : (acc <> [] \/ f <> O) -> decimal_loop f n acc <> [].
Proof.
  revert n acc. induction f as [|f IH]; intros n acc H; cbn [decimal_loop]; [naive_solver|].
  destruct (_ =? 0); [done|]. apply IH. by left.
Qed.

Lemma decimal_plain n : Forall plain (decimal n).
Proof. by apply decimal_loop_plain. Qed.

Lemma decimal_nonempty n : decimal n <> [].
Proof. apply decimal_loop_nonempty. by right. Qed.

Lemma strtoul_decimal n : is_u32 n -> strtoul (decimal n) 10 = (n, []).
Proof.
  intros Hn. unfold is_u32 in Hn. pose proof (decimal_plain n) as Hp. pose proof (decimal_nonempty n) as Hne. unfold strtoul.
  destruct (decimal n) as [|c s] eqn:E; [done|]. apply list.Forall_cons in Hp as [Hc _].
  rewrite plain_start by done. rewrite <- E.
  assert (skip_prefix 10 (decimal n) = decimal n) as -> by (unfold skip_prefix; by destruct (decimal n) as [|? [|? [|? ?]]]).
  destruct (decimal_digits 19 n [] 0 0) as (l & E' & Hl); [lia|]. unfold decimal. rewrite E'.
  cbn [digits Nat.add]. destruct l as [|l]; [done|]. rewrite Z.mul_0_l, Z.add_0_l.
  by destruct (Z.leb_spec (2 ^ 64) n); [lia|].
Qed.

Lemma parse_decimal n : is_u32 n -> parse_u32 (decimal n) 10 = Some n.
Proof.
  intros Hn. unfold parse_u32. rewrite strtoul_decimal by done. rewrite bool_decide_true by done.
  by rewrite u32_small.
Qed.

(** *** Hexadecimal *)

Lemma hex_digits f : forall n acc a k, 0 <= n < 16 ^ Z.of_nat f ->
  digits 16 a k (hex_loop f n acc) = digits 16 (a * 16 ^ Z.of_nat f + n) (k + f) acc.
Proof.
  induction f as [|f IH]; intros n acc a k Hn; cbn [hex_loop].
  - f_equal; [change (16 ^ Z.of_nat 0) with 1 in *|]; lia.
  - rewrite Nat2Z.inj_succ, Z.pow_succ_r in Hn by lia. rewrite IH by zdm. cbn [digits].
    rewrite digit_nibble by zdm. rewrite Nat2Z.inj_succ, Z.pow_succ_r by lia. f_equal; [|lia].
    pose proof (Z.div_mod n 16). lia.
Qed.

Lemma hex_loop_plain f : forall n acc, Forall (fun c => plain c /\ c <> 120) acc ->
  Forall (fun c => plain c /\ c <> 120) (hex_loop f n acc).
Proof.
  induction f as [|f IH]; intros n acc H; [done|]. cbn [hex_loop]. apply IH. constructor; [|done].
  apply nibble_plain. zdm.
Qed.

Lemma hex_prefix s : Forall (fun c => plain c /\ c <> 120) s -> skip_prefix 16 s = s.
Proof.
  intros H. unfold skip_prefix. destruct s as [|z [|x [|d s]]]; try done.
  apply list.Forall_cons in H as [_ H]. apply list.Forall_cons in H as [[Hx Hx'] _].
  destruct (Z.eqb_spec x 120); [done|]. unfold plain in Hx. destruct (Z.eqb_spec x 88); [lia|].
  by rewrite andb_false_r.
Qed.

Lemma hex_loop_length f n acc : length (hex_loop f n acc) = (f + length acc)%nat.
Proof. revert n acc. induction f as [|f IH]; intros n acc; [done|]. cbn [hex_loop]. rewrite IH. cbn [length]. lia. Qed.

Lemma strtoul_hex f n : f <> O -> (f <= 8)%nat -> 0 <= n < 16 ^ Z.of_nat f -> strtoul (hex_loop f n []) 16 = (n, []).
Proof.
  intros Hf Hf8 Hn. pose proof (hex_loop_plain f n [] (Forall_nil_2 _)) as Hp.
  assert (n < 2 ^ 64).
  { apply Z.lt_le_trans with (16 ^ Z.of_nat f); [lia|]. transitivity (16 ^ 8); [|done].
    apply Z.pow_le_mono_r; lia. }
  unfold strtoul. destruct (hex_loop f n []) as [|c s] eqn:E.
  { pose proof (hex_loop_length f n []) as Hl. rewrite E in Hl. cbn in Hl. lia. }
  rewrite plain_start by (by apply list.Forall_cons in Hp as [[] _]). rewrite hex_prefix by done. rewrite <- E.
  rewrite hex_digits by done. cbn [digits Nat.add]. destruct f as [|f]; [done|]. rewrite Z.mul_0_l, Z.add_0_l.
  by destruct (Z.leb_spec (2 ^ 64) n); [lia|].
Qed.

Lemma parse_hex6 n : is_u32 n -> parse_u32 (hex6 n) 16 = Some n.
Proof.
  intros Hn. unfold is_u32 in Hn. unfold parse_u32, hex6.
  assert (strtoul (hex_loop (if n <? 2 ^ 24 then 6 else if n <? 2 ^ 28 then 7 else 8) n []) 16 = (n, [])) as ->.
  { destruct (Z.ltb_spec n (2 ^ 24)); [|destruct (Z.ltb_spec n (2 ^ 28))]; apply strtoul_hex;
      first [lia|split; [lia|]; by vm_compute in *]. }
  rewrite bool_decide_true by done. by rewrite u32_small.
Qed.

(** a number that the offer prints, in decimal or with the six or more
    hexadecimal digits of a profile, is the number that the answer's parser
    reads, for all 32-bit values. *)
Theorem numbers_roundtrip n : is_u32 n ->
  parse_u32 (decimal n) 10 = Some n /\ parse_u32 (hex6 n) 16 = Some n.
Proof. intros Hn. split; [by apply parse_decimal|by apply parse_hex6]. Qed.

Lemma numbers_roundtrip_witness :
  parse_u32 (decimal 4294967295) 10 = Some 4294967295 /\ parse_u32 (hex6 4294967295) 16 = Some 4294967295.
Proof. apply (numbers_roundtrip 4294967295). unfold is_u32. lia. Defined.

End Numerals.

(** ** Fingerprints *)

Module Fingerprints.
Import Hex.

(** The value that the loop reads for a printed nibble. *)
Lemma hex_loop_nibble n hex count buf acc : 0 <= n < 16 ->
  hex_loop (nibble n :: hex) count buf acc =
  if count + 4 =? 8 then hex_loop hex 0 0 (ByteWriter.writeU8 acc (u8 (Z.lor (Z.shiftl buf 4) n)))
  else hex_loop hex (count + 4) (u8 (Z.lor (Z.shiftl buf 4) n)) acc.
Proof.
  intros Hn. cbn [hex_loop].
  assert ((if (48 <=? nibble n) && (nibble n <=? 57) then nibble n - 48
           else if (97 <=? nibble n) && (nibble n <=? 102) then 10 + nibble n - 97
           else if (65 <=? nibble n) && (nibble n <=? 70) then 10 + nibble n - 65 else -1) = n) as ->.
  { unfold nibble. destruct (Z.ltb_spec n 10).
    - destruct (Z.leb_spec 48 (48 + n)), (Z.leb_spec (48 + n) 57); try lia. cbn [andb]. lia.
    - destruct (Z.leb_spec (87 + n) 57); [lia|]. rewrite andb_false_r.
      destruct (Z.leb_spec 97 (87 + n)), (Z.leb_spec (87 + n) 102); try lia. cbn [andb]. lia. }
  by destruct (Z.leb_spec 0 n); [|lia].
Qed.

(** A byte is its two nibbles. *)
Lemma nibbles_byte b : is_u8 b ->
  u8 (Z.lor (Z.shiftl (u8 (Z.lor (Z.shiftl 0 4) (Z.land (Z.shiftr b 4) 0x0F))) 4) (Z.land b 0x0F)) = b.
Proof.
  intros Hb. apply Z.eqb_eq. revert b Hb. apply (byte_forall (fun b =>
    u8 (Z.lor (Z.shiftl (u8 (Z.lor (Z.shiftl 0 4) (Z.land (Z.shiftr b 4) 0x0F))) 4) (Z.land b 0x0F)) =? b)).
  by vm_compute.
Qed.

Lemma nibble_range x : 0 <= Z.land x 0x0F < 16.
Proof. change 0x0F with (2 ^ 4 - 1). rewrite land_ones_mod by lia. zdm. Qed.

Lemma hex_loop_print buf : forall acc, bytes_ok buf -> hex_loop (bin_to_hex buf) 0 0 acc = acc ++ buf.
Proof.
  induction buf as [|b buf IH]; intros acc H; cbn [bin_to_hex]; [cbn [hex_loop]; by rewrite app_nil_r|].
  apply list.Forall_cons in H as [Hb H].
  rewrite !hex_loop_nibble by apply nibble_range.
  change (0 + 4 =? 8) with false. change (0 + 4 + 4 =? 8) with true. cbv iota.
  rewrite nibbles_byte by done. specialize (IH (ByteWriter.writeU8 acc b) H).
  assert (acc ++ b :: buf = ByteWriter.writeU8 acc b ++ buf) as ->.
  { unfold ByteWriter.writeU8. rewrite u8_small by done. by rewrite <- app_assoc. }
  rewrite <- IH. by destruct buf.
Qed.

(** the fingerprint that a certificate prints, its bytes in hexadecimal with
    colons, is read from an answer as the same bytes, whatever their number. *)
Theorem fingerprint_roundtrip buf : bytes_ok buf -> hex_to_bin (bin_to_hex buf) = buf.
Proof. intros H. apply (hex_loop_print buf [] H). Qed.

Lemma fingerprint_roundtrip_witness : hex_to_bin (bin_to_hex [0; 10; 171; 255]) = [0; 10; 171; 255].
Proof. apply fingerprint_roundtrip. by vm_compute; repeat constructor. Defined.

End Fingerprints.

(** ** Selectors *)

(** What the parser asks of a selector: one of the tracks, if there is any. *)
Class Selector (select : TrackSelector) : Prop := {
  selects_one : forall l t, select l = Some t -> t ∈ l;
  selects_some : forall l, l <> [] -> is_Some (select l)
}.

Definition lawful (selector : option TrackSelector) : Prop :=
  match selector with None => True | Some select => Selector select end.

Module Selection.
Import HighestTrackSelector.

Definition profile (t : Track.t) : Z := match Track.mCodecOptions t with Some o => Track.profileLevelId o | None => 0 end.

(** The order of the codecs, and that of the profiles within a codec. *)
Lemma isBetter_order b c :
  isBetter (Some b) c = true <->
  codec_value (Track.mCodec b) < codec_value (Track.mCodec c) \/
  Track.mCodec b = Track.mCodec c /\ profile b < profile c.
Proof.
  unfold isBetter. fold (profile b). fold (profile c).
  destruct (decide (Track.mCodec b = Track.mCodec c)) as [E|E].
  - rewrite bool_decide_true by done. cbn [negb]. rewrite E, Z.ltb_lt. naive_solver lia.
  - rewrite bool_decide_false by done. cbn [negb]. rewrite Z.ltb_lt. naive_solver.
Qed.

Lemma codec_value_inj a b : codec_value a = codec_value b -> a = b.
Proof. by destruct a, b. Qed.

Lemma isBetter_trans a b c : isBetter (Some a) b = true -> isBetter (Some b) c = true -> isBetter (Some a) c = true.
Proof. rewrite !isBetter_order. intros [|[-> ?]] [|[E ?]]; rewrite <- ?E; [left; lia..|right; split; [done|lia]]. Qed.

(** What is not better than one is worse than what beats it. *)
Lemma isBetter_below a b c : isBetter (Some a) b = false -> isBetter (Some a) c = true -> isBetter (Some b) c = true.
Proof.
  rewrite <- !not_true_iff_false, !isBetter_order. intros H Hc.
  destruct (Z.lt_trichotomy (codec_value (Track.mCodec b)) (codec_value (Track.mCodec c))) as [|[E|]]; [by left| |].
  - apply codec_value_inj in E. right. split; [done|]. rewrite E in H. destruct Hc as [|[Hc Hp]]; [naive_solver|].
    rewrite Hc in H. destruct (Z.lt_ge_cases (profile a) (profile b)); [naive_solver|lia].
  - exfalso. destruct Hc as [|[Hc ?]]; [apply H; left; lia|]. apply H. left. rewrite Hc. lia.
Qed.

Definition beats (t : Track.t) (l : list Track.t) : Prop := Forall (fun u => isBetter (Some u) t = true) l.
Definition unbeaten (t : Track.t) (l : list Track.t) : Prop := Forall (fun u => isBetter (Some t) u = false) l.

Definition better (best : option Track.t) (curr : Track.t) : option Track.t :=
  if isBetter best curr then Some curr else best.

Lemma fold_best l : forall b, exists t, fold_left better l (Some b) = Some t /\
  (t = b /\ unbeaten b l \/
   exists l1 l2, l = l1 ++ t :: l2 /\ isBetter (Some b) t = true /\ beats t l1 /\ unbeaten t l2).
Proof.
  induction l as [|c l IH]; intros b; cbn [fold_left].
  { exists b. split; [done|]. left. by split; [|constructor]. }
  unfold better at 2. destruct (isBetter (Some b) c) eqn:E.
  - destruct (IH c) as (t & -> & H). exists t. split; [done|]. right.
    destruct H as [[-> H]|(l1 & l2 & -> & Ht & H1 & H2)].
    + exists [], l. split_and!; [done|done|by constructor|done].
    + exists (c :: l1), l2. split_and!; [done|by eapply isBetter_trans|by constructor|done].
  - destruct (IH b) as (t & -> & H). exists t. split; [done|].
    destruct H as [[-> H]|(l1 & l2 & -> & Ht & H1 & H2)].
    + left. split; [done|]. by constructor.
    + right. exists (c :: l1), l2. split_and!; [done|done|constructor; [by eapply isBetter_below|done]|done].
Qed.

Lemma highest_video first l : Track.mMediaType first = Video ->
  exists t l1 l2, selectTrack (first :: l) = Some t /\ first :: l = l1 ++ t :: l2 /\ beats t l1 /\ unbeaten t l2.
Proof.
  intros Hv. unfold selectTrack. rewrite Hv.
  change (fold_left _ (first :: l) None) with (fold_left better l (Some first)).
  destruct (fold_best l first) as (t & -> & [[-> H]|(l1 & l2 & -> & Ht & H1 & H2)]).
  - exists first, [], l. split_and!; [done|done|by constructor|done].
  - exists t, (first :: l1), l2. split_and!; [done|done|by constructor|done].
Qed.

#[export] Instance highest_selector : Selector selectTrack.
Proof.
  split.
  - intros [|first l] t H; [done|]. destruct (Track.mMediaType first) eqn:Hm.
    + destruct (highest_video first l Hm) as (u & l1 & l2 & E & -> & _). rewrite H in E. injection E as ->.
      apply elem_of_app. right. by left.
    + unfold selectTrack in H. rewrite Hm in H. injection H as <-. by left.
  - intros [|first l] Hl; [done|]. destruct (Track.mMediaType first) eqn:Hm.
    + destruct (highest_video first l Hm) as (u & l1 & l2 & -> & _). by eexists.
    + unfold selectTrack. rewrite Hm. by eexists.
Qed.

(** of the tracks of a video section the selector takes the one with the
    highest codec and, among those of that codec, the highest profile; of equals
    the first: it beats every track in front of it, and no track behind it beats
    it. Of the tracks of an audio section it takes the first. *)
Theorem highest_is_best first l :
  match Track.mMediaType first with
  | Video =>
      exists t l1 l2, selectTrack (first :: l) = Some t /\ first :: l = l1 ++ t :: l2 /\ beats t l1 /\ unbeaten t l2
  | Audio => selectTrack (first :: l) = Some first
  end.
Proof.
  destruct (Track.mMediaType first) eqn:Hm; [by apply highest_video|]. unfold selectTrack. by rewrite Hm.
Qed.

End Selection.

(** ** What is parsed is well formed *)

Module Typing.
Import MediaState SdpAnswerParser.

Definition is_payload (n : Z) : Prop := 96 <= n <= 127.
Definition is_rtx (n : Z) : Prop := n = 0 \/ is_payload n.
Definition is_rate (n : Z) : Prop := 10000 <= n < 2 ^ 32.

Definition options_ok (o : option Track.CodecOptions) : Prop :=
  match o with None => True | Some o => is_u32 (Track.profileLevelId o) /\ is_u32 (Track.minptime o) end.

Record payload_ok (p : ParsePayloadState) : Prop := {
  po_id : is_payload (payloadId p);
  po_rate : p_codec p <> None -> is_rate (clockRate p);
  po_rtx : is_rtx (rtxPayloadId p);
  po_options : options_ok (codecOptions p)
}.

Definition extensions_ok (m : ExtensionMap.t) : Prop :=
  Forall (fun e => 0 < ExtensionMap.id e <= 255) (ExtensionMap.mEntryList m).

(** A section, and its SSRCs as numbers of 32 bits. *)
Record media_ok (m : ParseMediaState) : Prop := {
  mo_payloads : Forall payload_ok (payloadStateList m);
  mo_layers : Forall (fun l => is_u8 (Track.index l)) (layerList m);
  mo_extensions : extensions_ok (extensionMap m)
}.

Definition numbers_ok (m : ParseMediaState) : Prop :=
  is_u32 (m_ssrc m) /\ is_u32 (rtxSsrc m) /\ Forall is_u32 (ssrcList m).

Definition medium_ok (m : Media.t) : Prop := Media.mId m <> [] /\ extensions_ok (Media.mExtensionMap m).

(** The SSRCs are those that the offer has announced, and without a direction of
    its own a track takes that of the offer. *)
Definition ssrcs_ok (o : SdpOffer.t) (t : Track.t) : Prop :=
  match Track.mSimulcastLayer t with
  | Some l =>
      is_u8 (Track.index l) /\
      getVideoSimulastSSRC o (Media.mId (Track.mMedia t)) (SimulcastLayer.name (Track.layer l)) =
      Some (Track.mSSRC t, Track.mRtxSSRC t)
  | None =>
      match getDirection o with
      | Publish =>
          exists rtx, getMediaSSRC o (Media.mId (Track.mMedia t)) = Some (Track.mSSRC t, rtx) /\
            Track.mRtxSSRC t = (if Track.mRtxPayloadId t =? 0 then 0 else rtx)
      | Subscribe =>
          0 < Track.mSSRC t < 2 ^ 32 /\ is_u32 (Track.mRtxSSRC t) /\ (Track.mRtxPayloadId t = 0 -> Track.mRtxSSRC t = 0)
      end
  end.

Record track_ok (o : SdpOffer.t) (t : Track.t) : Prop := {
  to_medium : medium_ok (Track.mMedia t);
  to_direction : Track.mDirection t = getDirection o;
  to_payload : is_payload (Track.mPayloadId t);
  to_rtx : is_rtx (Track.mRtxPayloadId t);
  to_codec : Track.mCodec t <> Rtx;
  to_rate : is_rate (Track.mClockRate t);
  to_options : options_ok (Track.mCodecOptions t);
  to_ssrcs : ssrcs_ok o t
}.

Definition host_ok (h : Host) : Prop := match h with HostV4 _ p | HostV6 _ p => is_u16 p end.

(** Everything that the parser holds between two lines. *)
Record parser_ok (p : SdpAnswerParser.t) : Prop := {
  pa_direction : direction p = getDirection (offer p);
  pa_selector : lawful (selector p);
  pa_state : media_ok (mediaState p);
  pa_numbers : direction p = Subscribe -> numbers_ok (mediaState p);
  pa_media : Forall medium_ok (mediaList p);
  pa_tracks : Forall (track_ok (offer p)) (trackList p);
  pa_some : hasMedia p = true -> trackList p <> [];
  pa_hosts : Forall host_ok (hostList p);
  pa_sctp : 0 < sctpPort p <= 65535 /\ is_u32 (maxSctpMessageSize p);
  pa_hash : bytes_ok (certHashBin p)
}.

Record answer_ok (o : SdpOffer.t) (a : Answer.t) : Prop := {
  ao_direction : Answer.mDirection a = getDirection o;
  ao_media : Forall medium_ok (Answer.mMediaList a);
  ao_tracks : Forall (track_ok o) (Answer.mTrackList a);
  ao_some : Answer.mTrackList a <> [] \/ Answer.mHasDataChannel a = true;
  ao_hosts : Answer.mHostList a <> [] /\ Forall host_ok (Answer.mHostList a);
  ao_sctp : 0 < Answer.mSctpPort a <= 65535 /\ is_u32 (Answer.mMaxMessageSize a);
  ao_hash : bytes_ok (X509Hash.mBin (Answer.mCertHash a))
}.

(** *** Numbers *)

Lemma parse_u32_range s radix n : parse_u32 s radix = Some n -> is_u32 n.
Proof.
  unfold parse_u32. destruct (strtoul s radix) as [l e]. destruct (bool_decide _); [|done].
  intros [= <-]. apply u32_range.
Qed.

Lemma valid_payload n : is_valid_payload_id n = true -> is_payload n.
Proof. unfold is_valid_payload_id, is_payload. lia. Qed.

Lemma payload_id_range s n : payload_id s = Some n -> is_payload n.
Proof.
  unfold payload_id. intros H. apply bind_Some_inv in H as (m & _ & H).
  destruct (is_valid_payload_id m) eqn:E; [|done]. injection H as <-. by apply valid_payload.
Qed.

Lemma payload_ids_range props : Forall is_payload (payload_ids props).
Proof.
  induction props as [|s props IH]; cbn [payload_ids]; [constructor|].
  destruct (parse_u32 s 10) as [n|]; [|done]. destruct (is_valid_payload_id n) eqn:E; [|done].
  constructor; [by apply valid_payload|done].
Qed.

Lemma number_of_range map k radix : is_u32 (number_of map k radix).
Proof.
  unfold number_of. destruct (map_find map k) as [v|]; [|by vm_compute].
  destruct (parse_u32 v radix) as [n|] eqn:E; cbn [default from_option id]; [by eapply parse_u32_range|by vm_compute].
Qed.

Lemma parse_encoding_rate s c rate : parse_encoding s = Some (c, rate) -> is_rate rate.
Proof.
  unfold parse_encoding. intros H. apply bind_Some_inv in H as ([a b] & _ & H).
  apply bind_Some_inv in H as (c' & _ & H). cbv zeta in H. apply bind_Some_inv in H as (r & E & H).
  destruct (Z.leb_spec 10000 r); [|done]. injection H as _ <-. apply parse_u32_range in E.
  unfold is_rate, is_u32 in *. lia.
Qed.

Lemma hex_bytes hex : forall count buf acc, bytes_ok acc -> bytes_ok (Hex.hex_loop hex count buf acc).
Proof.
  induction hex as [|ch hex IH]; intros count buf acc H; [done|]. cbn [Hex.hex_loop].
  destruct (0 <=? _); [|by apply IH]. destruct (count + 4 =? 8); apply IH; [|done].
  unfold ByteWriter.writeU8. apply bytes_ok_app. split; [done|]. apply bytes_ok_cons; [apply u8_range|constructor].
Qed.

(** *** Attributes of a section *)

Lemma update_payload_ok l i f : Forall payload_ok l -> (forall p, payload_ok p -> payload_ok (f p)) -> Forall payload_ok (update l i f).
Proof.
  intros H Hf. induction H as [|p l Hp H IH]; cbn [update]; [constructor|]. destruct (_ =? i); constructor; auto.
Qed.

Lemma modify_payload_ok m i f : media_ok m -> (forall p, payload_ok p -> payload_ok (f p)) -> media_ok (modify m i f).
Proof. intros [Hp Hl He] Hf. constructor; [by apply update_payload_ok|done..]. Qed.

Lemma clear_ok m : media_ok (MediaState.clear m) /\ numbers_ok (MediaState.clear m).
Proof.
  split; [constructor; constructor|]. unfold numbers_ok, is_u32. cbn [MediaState.clear m_ssrc rtxSsrc ssrcList].
  split; [lia|]. split; [lia|constructor].
Qed.

Lemma setPayloadList_ok m l : media_ok m -> Forall is_payload l -> media_ok (setPayloadList m l).
Proof.
  intros [_ Hl He] H. constructor; [|done..]. cbn. apply Forall_map. eapply list.Forall_impl; [exact H|].
  intros i Hi. constructor; cbn; [done|done|by left|done].
Qed.

Lemma parse_extmap_ok m value props : media_ok m -> media_ok (parse_extmap m value props).
Proof.
  intros H. unfold parse_extmap. destruct (parse_u32 value 10) as [n|]; [|done].
  destruct props as [|name [|? ?]]; try done. destruct (Z.ltb_spec 0 n), (Z.leb_spec n 255); try done. cbn [andb].
  destruct H as [Hp Hl He]. constructor; [done..|]. apply list.Forall_app. split; [done|]. constructor; [cbn; lia|constructor].
Qed.

Lemma parse_rtpmap_ok m value props : media_ok m -> media_ok (parse_rtpmap m value props).
Proof.
  intros H. unfold parse_rtpmap. destruct (payload_id value) as [i|] eqn:Ei; [|done]. apply payload_id_range in Ei.
  destruct props as [|s [|? ?]]; try done. destruct (parse_encoding s) as [[c rate]|] eqn:E; [|done].
  apply parse_encoding_rate in E. apply modify_payload_ok; [done|]. intros p []. by constructor.
Qed.

Lemma parse_apt_ok m i map : is_payload i -> media_ok m -> media_ok (parse_apt m i map).
Proof.
  intros Hi H. unfold parse_apt. destruct (map_find map _) as [apt|]; [|done].
  destruct (getPayloadState m i) as [p|]; [|done]. destruct (bool_decide _); [|done].
  destruct (payload_id apt) as [r|]; [|done]. apply modify_payload_ok; [done|]. intros q []. constructor; try done. by right.
Qed.

Lemma parse_options_ok m i map m' : media_ok m -> parse_options m i map = Some m' -> media_ok m'.
Proof.
  intros H. unfold parse_options. destruct (getPayloadState m i) as [p|]; [|by intros [= <-]].
  intros E. apply bind_Some_inv in E as (type & _ & E).
  assert (is_u32 (option_values type map).1.1 /\ is_u32 (option_values type map).1.2) as Ht.
  { destruct type; split; cbn [fst snd option_values]; first [apply number_of_range|unfold is_u32; lia]. }
  destruct (option_values type map) as [[pl mp] st]. cbn [fst snd] in Ht.
  destruct (_ || _); injection E as <-; [|done]. apply modify_payload_ok; [done|]. intros q []. by constructor.
Qed.

Lemma parse_fmtp_ok m value props m' : media_ok m -> parse_fmtp m value props = Some m' -> media_ok m'.
Proof.
  intros H. unfold parse_fmtp. destruct (payload_id value) as [i|] eqn:Ei; [|by intros [= <-]].
  destruct props as [|s [|? ?]]; try (by intros [= <-]). apply parse_options_ok.
  apply parse_apt_ok; [by eapply payload_id_range|done].
Qed.

Lemma parse_rtcp_fb_ok m value props : media_ok m -> media_ok (parse_rtcp_fb m value props).
Proof.
  intros H. unfold parse_rtcp_fb. destruct (payload_id value) as [i|]; [|done]. apply modify_payload_ok; [done|].
  unfold set_feedback. induction props as [|t props IH]; intros p Hp; [done|]. cbn [fold_left]. apply IH.
  destruct (eqb t _); [|destruct (eqb t _)]; destruct Hp; by constructor.
Qed.

Lemma addSimulcastLayer_ok l rid : forall m i, media_ok m -> media_ok (addSimulcastLayer m l rid i).
Proof.
  induction l as [|x l IH]; intros m i H; [done|]. cbn [addSimulcastLayer]. destruct (eqb _ _); [|by apply IH].
  destruct H as [Hp Hl He]. constructor; [done| |done]. apply list.Forall_app. split; [done|].
  constructor; [apply u8_range|constructor].
Qed.

Lemma parse_simulcast_ok o m value props m' : media_ok m -> parse_simulcast o m value props = Some m' -> media_ok m'.
Proof.
  intros H E. unfold parse_simulcast in E. apply bind_Some_inv in E as (type & _ & E).
  destruct type; [|by injection E as <-]. destruct props as [|s [|? ?]]; try (by injection E as <-).
  destruct (eqb value _); [|by injection E as <-]. destruct (getVideoSimulcastLayerList _ _) as [l|]; injection E as <-; [|done].
  revert m H. induction (split_list s) as [|rid rids IH]; intros m H; [done|]. cbn [fold_left]. apply IH.
  by apply addSimulcastLayer_ok.
Qed.

(** The rest changes no payload, no layer and no extension. *)
Lemma media_ok_same m m' :
  payloadStateList m' = payloadStateList m -> layerList m' = layerList m -> extensionMap m' = extensionMap m ->
  media_ok m -> media_ok m'.
Proof. intros E1 E2 E3 []. constructor; congruence. Qed.

Lemma media_attribute_ok o m key value props m' :
  media_ok m -> media_attribute o m key value props = Some m' -> media_ok m'.
Proof.
  intros H E. unfold media_attribute in E.
  repeat match type of E with (if eqb key ?k then _ else _) = _ => destruct (eqb key k) end;
    try (injection E as <-; auto using parse_extmap_ok, parse_rtpmap_ok, parse_rtcp_fb_ok; fail).
  - injection E as <-. destruct (bool_decide _); [done|]. by apply (media_ok_same m).
  - by eapply parse_fmtp_ok.
  - unfold parse_rid in E. apply bind_Some_inv in E as (type & _ & E).
    destruct type, props as [|s [|? ?]]; try (by injection E as <-).
    destruct (eqb s _); injection E as <-; [by apply (media_ok_same m)|done].
  - by eapply parse_simulcast_ok.
  - injection E as <-. unfold parse_ssrc_group. destruct props as [|a [|b [|? ?]]]; try done. destruct (eqb value _); [|done].
    destruct (parse_u32 a 10), (parse_u32 b 10); try done. by apply (media_ok_same m).
  - injection E as <-. unfold parse_ssrc. destruct (parse_u32 value 10) as [s|]; [|done].
    destruct (existsb _ _); [done|]. by apply (media_ok_same m).
Qed.

(** *** Its SSRCs *)

Definition ssrcs (m : ParseMediaState) : Z * Z * list Z := (m_ssrc m, rtxSsrc m, ssrcList m).

Lemma numbers_same m m' : ssrcs m' = ssrcs m -> numbers_ok m -> numbers_ok m'.
Proof. unfold ssrcs, numbers_ok. intros [= -> -> ->]. done. Qed.

Lemma addSimulcastLayer_ssrcs l rid : forall m i, ssrcs (addSimulcastLayer m l rid i) = ssrcs m.
Proof. induction l as [|x l IH]; intros m i; [done|]. cbn [addSimulcastLayer]. destruct (eqb _ _); [done|]. by rewrite IH. Qed.

Lemma parse_simulcast_ssrcs o m value props m' : parse_simulcast o m value props = Some m' -> ssrcs m' = ssrcs m.
Proof.
  intros E. unfold parse_simulcast in E. apply bind_Some_inv in E as (type & _ & E).
  destruct type; [|by injection E as <-]. destruct props as [|s [|? ?]]; try (by injection E as <-).
  destruct (eqb value _); [|by injection E as <-]. destruct (getVideoSimulcastLayerList _ _) as [l|]; injection E as <-; [|done].
  revert m. induction (split_list s) as [|rid rids IH]; intros m; [done|]. cbn [fold_left]. by rewrite IH, addSimulcastLayer_ssrcs.
Qed.

Lemma parse_fmtp_ssrcs m value props m' : parse_fmtp m value props = Some m' -> ssrcs m' = ssrcs m.
Proof.
  unfold parse_fmtp. destruct (payload_id value) as [i|]; [|by intros [= <-]].
  destruct props as [|s [|? ?]]; try (by intros [= <-]).
  assert (ssrcs (parse_apt m i (parse_map s)) = ssrcs m) as <-.
  { unfold parse_apt. destruct (map_find _ _); [|done]. destruct (getPayloadState m i); [|done].
    destruct (bool_decide _); [|done]. by destruct (payload_id _). }
  unfold parse_options. destruct (getPayloadState _ i); [|by intros [= <-]].
  intros E. apply bind_Some_inv in E as (type & _ & E). destruct (option_values type _) as [[a b] c].
  by destruct (_ || _); injection E as <-.
Qed.

Lemma parse_ssrc_group_numbers m value props : numbers_ok m -> numbers_ok (parse_ssrc_group m value props).
Proof.
  intros H. unfold parse_ssrc_group. destruct props as [|a [|b [|? ?]]]; try done. destruct (eqb value _); [|done].
  destruct (parse_u32 a 10) eqn:Ea, (parse_u32 b 10) eqn:Eb; try done.
  apply parse_u32_range in Ea, Eb. destruct H as (_ & _ & H). by split_and!.
Qed.

Lemma parse_ssrc_numbers m value : numbers_ok m -> numbers_ok (parse_ssrc m value).
Proof.
  intros H. unfold parse_ssrc. destruct (parse_u32 value 10) as [s|] eqn:E; [|done]. destruct (existsb _ _); [done|].
  apply parse_u32_range in E. destruct H as (H1 & H2 & H3). split_and!; [done..|].
  apply list.Forall_app. split; [done|]. constructor; [done|constructor].
Qed.

Lemma media_attribute_numbers o m key value props m' :
  numbers_ok m -> media_attribute o m key value props = Some m' -> numbers_ok m'.
Proof.
  intros H E. unfold media_attribute in E.
  repeat match type of E with (if eqb key ?k then _ else _) = _ => destruct (eqb key k) end;
    try (injection E as <-; auto using parse_ssrc_group_numbers, parse_ssrc_numbers; fail);
    (eapply numbers_same; [|exact H]).
  - injection E as <-. unfold parse_extmap. destruct (parse_u32 value 10), props as [|? [|? ?]]; try done. by destruct (_ && _).
  - injection E as <-. by destruct (bool_decide _).
  - injection E as <-. unfold parse_rtpmap. destruct (payload_id value), props as [|s [|? ?]]; try done.
    by destruct (parse_encoding s) as [[? ?]|].
  - by eapply parse_fmtp_ssrcs.
  - injection E as <-. unfold parse_rtcp_fb. by destruct (payload_id value).
  - unfold parse_rid in E. apply bind_Some_inv in E as (type & _ & E).
    destruct type, props as [|s [|? ?]]; try (by injection E as <-). by destruct (eqb s _); injection E as <-.
  - by eapply parse_simulcast_ssrcs.
Qed.

(** *** The tracks of a section *)

Lemma selectTrack_from m d media sel t : lawful sel -> MediaState.selectTrack m d media sel = Some (Some t) ->
  m_mediaId m <> [] /\
  exists p s, p ∈ payloadStateList m /\ track_of m d media s p = Some t /\
    match d with Publish => s = m_ssrc m | Subscribe => numbers_ok m -> 0 < s < 2 ^ 32 end.
Proof.
  intros Hsel. unfold MediaState.selectTrack. case_bool_decide as Hid; [done|]. case_bool_decide as Ht; [done|]. cbv zeta.
  destruct (_ && (ssrcMedia m d <=? 0)) eqn:Hs; [done|].
  destruct (omap _ _) as [|first l] eqn:El; [done|]. intros E. split; [done|].
  assert (t ∈ first :: l) as Hin.
  { destruct sel as [select|]; [|injection E as <-; by left].
    apply bind_Some_inv in E as (t' & E & Eq). injection Eq as <-. by apply (selects_one (Selector := Hsel)). }
  rewrite <- El in Hin. apply list_elem_of_omap in Hin as (p & Hp & Htr). exists p, (ssrcMedia m d). split_and!; [done|done|].
  destruct d; cbn [andb ssrcMedia] in Hs |- *; [done|]. intros (H1 & _ & H3). unfold is_u32 in *.
  destruct (Z.eqb_spec (m_ssrc m) 0) as [E0|E0]; [|lia]. destruct (ssrcList m) as [|x xs]; cbn in Hs |- *; [lia|].
  apply list.Forall_cons in H3 as [H3 _]. unfold is_u32 in H3. lia.
Qed.

Lemma track_of_ok m d media s p t : payload_ok p -> track_of m d media s p = Some t ->
  Track.mMedia t = media /\ Track.mDirection t = d /\ is_payload (Track.mPayloadId t) /\ is_rtx (Track.mRtxPayloadId t) /\
  Track.mCodec t <> Rtx /\ is_rate (Track.mClockRate t) /\ options_ok (Track.mCodecOptions t) /\
  Track.mSimulcastLayer t = None /\
  (layerList m = [] -> Track.mSSRC t = s /\ Track.mRtxSSRC t = if Track.mRtxPayloadId t =? 0 then 0 else rtxSsrc m).
Proof.
  intros [] H. unfold track_of in H. destruct (p_codec p) as [c|] eqn:Ec; [|done].
  destruct (Z.ltb_spec 0 (payloadId p)); [|by destruct c].
  assert (c <> Rtx) by (intros ->; done). destruct c; try done; injection H as <-; cbn;
    (split_and!; [done|done|done|done|done|by apply po_rate0|done|done|]);
    intros ->; (split; [done|]); by destruct (rtxPayloadId p =? 0).
Qed.

Lemma simulcast_loop_from o mid single l : forall ts, simulcast_loop o mid single l = Some ts ->
  length ts = length l /\
  Forall (fun t => exists x media rtx, x ∈ l /\
    getVideoSimulastSSRC o mid (SimulcastLayer.name (Track.layer x)) = Some (media, rtx) /\
    t = Track.mk (Track.mMedia single) (Track.mDirection single) media (Track.mPayloadId single) rtx
          (Track.mRtxPayloadId single) (Track.mCodec single) (Track.mCodecOptions single) (Some x)
          (Track.mClockRate single) (Track.mHasNack single) (Track.mHasPli single)) ts.
Proof.
  induction l as [|x l IH]; intros ts H; cbn [simulcast_loop] in H; [by injection H as <-|].
  apply bind_Some_inv in H as ([media rtx] & E & H). apply bind_Some_inv in H as (rest & Er & H). injection H as <-.
  destruct (IH rest Er) as [Hl H]. split; [cbn; lia|]. constructor.
  - exists x, media, rtx. split_and!; [by left|done|done].
  - eapply list.Forall_impl; [exact H|]. intros t (y & a & b & Hy & ?). exists y, a, b. split; [by right|done].
Qed.

(** What a section adds. *)
Lemma flush_m_ok p p' : parser_ok p -> flush_m p = Some (inr p') -> parser_ok p'.
Proof.
  intros Hp H. unfold flush_m in H. destruct (isInMediaSection p); cbn [negb] in H; [|by injection H as <-].
  case_bool_decide as Hmt; [done|]. case_bool_decide as Hid; [done|].
  apply bind_Some_inv in H as (m & Em & H). apply bind_Some_inv in H as (media & Emedia & H).
  apply bind_Some_inv in H as ([single|] & Etrack & H); [|done]. apply bind_Some_inv in H as (tracks & Etracks & H).
  injection H as <-. destruct Hp as [Hdir Hsel Hstate Hnum Hmedia Htracks Hsome Hhosts Hsctp Hhash].
  assert (media_ok m /\ m_mediaId m = m_mediaId (mediaState p) /\
    match direction p with
    | Publish => getMediaSSRC (offer p) (m_mediaId m) = Some (m_ssrc m, rtxSsrc m)
    | Subscribe => numbers_ok m
    end) as (Hm & Hmid & Hssrc).
  { destruct (direction p); [|injection Em as <-; auto].
    apply bind_Some_inv in Em as ([a b] & E & Em). injection Em as <-. split_and!; [|done|done].
    by apply (media_ok_same (mediaState p)). }
  assert (Media.mId media = m_mediaId m /\ medium_ok media) as [Hi Hmedium].
  { unfold createMedia in Emedia. apply bind_Some_inv in Emedia as (type & _ & E). injection E as <-.
    split; [done|]. split; [cbn; by rewrite Hmid|]. apply Hm. }
  destruct (selectTrack_from _ _ _ _ _ Hsel Etrack) as (_ & q & s & Hq & Hof & Hs).
  assert (payload_ok q) as Hqok by (by eapply Forall_elem; [apply Hm|]).
  destruct (track_of_ok _ _ _ _ _ _ Hqok Hof) as (H1 & H2 & H3 & H4 & H5 & H6 & H7 & H8 & H9).
  assert (tracks <> [] /\ Forall (track_ok (offer p)) tracks) as [Hne Hts].
  { case_bool_decide as El.
    - injection Etracks as <-. split; [done|]. constructor; [|constructor].
      destruct (H9 El) as [Ha Hb]. constructor; [by rewrite H1|by rewrite H2|done..|].
      unfold ssrcs_ok. rewrite H8, H1, Hi, Ha, Hb, <- Hdir. destruct (direction p).
      + subst s. by exists (rtxSsrc m).
      + split_and!; [by apply Hs|by apply Hs| |].
        * destruct (_ =? 0); [unfold is_u32; lia|apply Hssrc].
        * intros ->. done.
    - destruct (simulcast_loop_from _ _ _ _ _ Etracks) as [Hlen Hall]. split.
      { intros ->. by destruct (layerList m). }
      eapply list.Forall_impl; [exact Hall|]. intros t (x & a & b & Hx & E & ->). constructor; cbn; try done.
      + by rewrite H1.
      + by rewrite H2.
      + unfold ssrcs_ok. cbn. rewrite H1, Hi. split; [|done]. by apply (Forall_elem _ _ _ (mo_layers _ Hm) Hx). }
  constructor; cbn [offer direction selector mediaState mediaList trackList hasMedia hostList sctpPort maxSctpMessageSize
                    certHashBin add_media]; try done.
  - intros E. by rewrite E in Hssrc.
  - apply list.Forall_app. split; [done|by constructor].
  - by apply list.Forall_app.
  - intros _. by destruct (trackList p), tracks.
Qed.

(** *** Lines *)

(** A change of the section, and one of the fields that no track depends on. *)
Lemma set_section_ok p a b c m : parser_ok p -> media_ok m -> (direction p = Subscribe -> numbers_ok m) ->
  parser_ok (set_section p a b c m).
Proof. intros [] Hm Hn. by constructor. Qed.

Lemma add_host_ok p h : parser_ok p -> host_ok h -> parser_ok (add_host p h).
Proof.
  intros Hp Hh. unfold add_host. destruct (existsb _ _); [done|]. destruct Hp. constructor; try done.
  apply list.Forall_app. split; [done|]. by constructor.
Qed.

Lemma parse_candidate_ok `{Inet} p props : parser_ok p -> parser_ok (parse_candidate p props).
Proof.
  intros Hp. unfold parse_candidate. do 7 (destruct props as [|? props]; [done|]).
  destruct (_ && _); [|done]. destruct (parse_u32 _ 10) as [port|]; [|done]. destruct (_ && _); [|done].
  destruct (has _ _); [|destruct (has _ _); [|done]].
  - destruct (inet_pton4 _); [|done]. apply add_host_ok; [done|apply u16_range].
  - destruct (inet_pton6 _); [|done]. apply add_host_ok; [done|apply u16_range].
Qed.

Lemma parse_fingerprint_ok p value props : parser_ok p -> parser_ok (parse_fingerprint p value props).
Proof.
  intros []. unfold parse_fingerprint. destruct props as [|hex [|? ?]]; try by constructor.
  destruct (eqb value _); [|by constructor]. constructor; try done. apply (hex_bytes hex 0 0 []). constructor.
Qed.

Lemma parse_sctp_ok p value : parser_ok p ->
  parser_ok (parse_sctp_port p value) /\ parser_ok (parse_max_message_size p value).
Proof.
  intros Hp. unfold parse_sctp_port, parse_max_message_size. destruct (parse_u32 value 10) as [n|] eqn:E; [|done].
  apply parse_u32_range in E. destruct Hp. split.
  - destruct (Z.ltb_spec 0 n), (Z.leb_spec n 65535); try by constructor. cbn [andb]. constructor; try done.
    cbn. split; [lia|]. by destruct pa_sctp0.
  - constructor; try done. cbn. by destruct pa_sctp0.
Qed.

Lemma parseLine_a_ok `{Inet} p key value props p' : parser_ok p -> parseLine_a p key value props = Some p' -> parser_ok p'.
Proof.
  intros Hp E. unfold parseLine_a in E.
  repeat match type of E with (if eqb key ?k then _ else _) = _ => destruct (eqb key k) end;
    try (injection E as <-; destruct Hp; by constructor).
  - injection E as <-. destruct (eqb value _); [destruct Hp; by constructor|done].
  - injection E as <-. by apply parse_fingerprint_ok.
  - injection E as <-. by apply parse_candidate_ok.
  - injection E as <-. destruct (isInApplicationSection p); [|done]. by apply (parse_sctp_ok p value).
  - injection E as <-. destruct (isInApplicationSection p); [|done]. by apply (parse_sctp_ok p value).
  - destruct (isInMediaSection p); [|by injection E as <-]. apply bind_Some_inv in E as (m & E & H'). injection H' as <-.
    apply set_section_ok; [done|eapply media_attribute_ok; [|exact E]; by apply Hp|].
    intros Hd. eapply media_attribute_numbers; [|exact E]. by apply Hp.
Qed.

Lemma parseLine_m_ok p key props p' : parser_ok p -> parseLine_m p key props = Some (inr p') -> parser_ok p'.
Proof.
  intros Hp E. unfold parseLine_m in E. apply bind_Some_inv in E as ([e|q] & Eq & E); [done|].
  pose proof (flush_m_ok _ _ Hp Eq) as Hq. destruct (clear_ok (mediaState q)) as [Hc Hn].
  pose proof (set_section_ok q false false (hasDataChannel q) _ Hq Hc (fun _ => Hn)) as Hq'.
  cbv zeta in E. set (r := set_section q false false (hasDataChannel q) (MediaState.clear (mediaState q))) in *.
  assert (forall type, parser_ok (media_section r type props)) as Hsection.
  { intros type. apply set_section_ok; [done| |].
    - apply (media_ok_same (setPayloadList (mediaState r) (payload_ids (drop 2 props)))); try done.
      apply setPayloadList_ok; [apply Hq'|apply payload_ids_range].
    - intros _. exact Hn. }
  destruct (eqb key _).
  { destruct (_ && _); injection E as <-; [|done]. apply set_section_ok; [done|apply Hq'|intros _; exact Hn]. }
  destruct (_ || _); [done|]. destruct (eqb key _); [injection E as <-; apply Hsection|].
  destruct (eqb key _); injection E as <-; [apply Hsection|done].
Qed.

Lemma parseLine_ok `{Inet} p l p' : parser_ok p -> parseLine p l = Some (inr p') -> parser_ok p'.
Proof.
  intros Hp E. unfold parseLine in E. destruct (parse_line l) as [[tag key value props]|]; [|done].
  destruct (eqb tag _).
  - apply bind_Some_inv in E as (q & E & H'). injection H' as <-. by eapply parseLine_a_ok.
  - destruct (eqb tag _); [by eapply parseLine_m_ok|by injection E as <-].
Qed.

Lemma parse_lines_ok `{Inet} ls : forall p p', parser_ok p -> parse_lines p ls = Some (inr p') -> parser_ok p'.
Proof.
  induction ls as [|l ls IH]; intros p p' Hp E; cbn [parse_lines] in E; [by injection E as <-|].
  case_bool_decide; [by eapply IH|]. apply bind_Some_inv in E as ([e|q] & Eq & E); [done|].
  eapply IH; [|exact E]. by eapply parseLine_ok.
Qed.

(** *** The offer stays the one of the start *)

Lemma keeps_offer p p' : flush_m p = Some (inr p') -> offer p' = offer p.
Proof.
  unfold flush_m. destruct (negb _); [by intros [= <-]|]. case_bool_decide as Ht; [done|]. case_bool_decide as Hi; [done|].
  intros H. apply bind_Some_inv in H as (m & _ & H). apply bind_Some_inv in H as (media & _ & H).
  apply bind_Some_inv in H as ([single|] & _ & H); [|done]. apply bind_Some_inv in H as (tracks & _ & H). by injection H as <-.
Qed.

Lemma parseLine_a_offer `{Inet} p key value props p' : parseLine_a p key value props = Some p' -> offer p' = offer p.
Proof.
  intros E. unfold parseLine_a in E.
  repeat match type of E with (if eqb key ?k then _ else _) = _ => destruct (eqb key k) end; try (by injection E as <-).
  - injection E as <-. by destruct (eqb value _).
  - injection E as <-. unfold parse_fingerprint. destruct props as [|? [|? ?]]; try done. by destruct (eqb value _).
  - injection E as <-. unfold parse_candidate. do 7 (destruct props as [|? props]; [done|]).
    destruct (_ && _); [|done]. destruct (parse_u32 _ 10); [|done]. destruct (_ && _); [|done].
    assert (forall h, offer (add_host p h) = offer p) by (intros h; unfold add_host; by destruct (existsb _ _)).
    destruct (has _ _); [by destruct (inet_pton4 _)|]. destruct (has _ _); [by destruct (inet_pton6 _)|done].
  - injection E as <-. unfold parse_sctp_port. destruct (isInApplicationSection p); [|done].
    destruct (parse_u32 value 10); [|done]. by destruct (_ && _).
  - injection E as <-. unfold parse_max_message_size. destruct (isInApplicationSection p); [|done].
    by destruct (parse_u32 value 10).
  - destruct (isInMediaSection p); [|by injection E as <-]. apply bind_Some_inv in E as (m & _ & E). by injection E as <-.
Qed.

Lemma parse_lines_offer `{Inet} ls : forall p p', parse_lines p ls = Some (inr p') -> offer p' = offer p.
Proof.
  induction ls as [|l ls IH]; intros p p' E; cbn [parse_lines] in E; [by injection E as <-|].
  case_bool_decide; [by apply IH|]. apply bind_Some_inv in E as ([e|q] & Eq & E); [done|].
  rewrite (IH q p' E). unfold parseLine in Eq. destruct (parse_line l) as [[tag key value props]|]; [|done].
  destruct (eqb tag _).
  { apply bind_Some_inv in Eq as (q' & Ea & Eq). injection Eq as <-. by eapply parseLine_a_offer. }
  destruct (eqb tag _); [|by injection Eq as <-]. unfold parseLine_m in Eq.
  apply bind_Some_inv in Eq as ([e|f] & Ef & Eq); [done|]. rewrite <- (keeps_offer p f Ef).
  destruct (eqb key _); [by destruct (_ && _); injection Eq as <-|]. destruct (_ || _); [done|].
  destruct (eqb key _); [by injection Eq as <-|]. by destruct (eqb key _); injection Eq as <-.
Qed.

Lemma parser_make_ok o sel : lawful sel -> parser_ok (SdpAnswerParser.make o sel).
Proof.
  intros Hsel. constructor; cbn; try constructor; try done; try constructor; try done.
Qed.

(** C24: every answer that is accepted, whatever its text, and with any selector
    that chooses among the tracks it is given, is well formed: its
    tracks have the direction of the offer, a payload id from 96 to 127, a codec
    other than that of retransmissions, a clock rate from 10000, a medium with a
    name and extensions from 1 to 255; when publishing, or with simulcast layers,
    their SSRCs are those of the offer for that medium and layer, and when
    subscribing there is one; there is a host, and a track or a data channel; ports
    have 16 bits and the fingerprint is made of bytes. *)
Theorem answer_typed `{Inet} o answer sel a : lawful sel -> SdpAnswer.parse o answer sel = Some (inr a) -> answer_ok o a.
Proof.
  intros Hsel E. unfold SdpAnswer.parse, SdpAnswerParser.parse in E.
  apply bind_Some_inv in E as ([e|q] & Eq & E); [done|]. apply bind_Some_inv in E as ([e|f] & Ef & E); [done|].
  assert (parser_ok f) as [] by (eapply flush_m_ok; [|exact Ef]; eapply parse_lines_ok; [by apply parser_make_ok|exact Eq]).
  assert (offer f = o) as Ho by (rewrite (keeps_offer _ _ Ef); by rewrite (parse_lines_offer _ _ _ Eq)).
  unfold finish in E. destruct (hasMedia f && negb (isRtcpMux f)); [done|]. case_bool_decide as Hh; [done|].
  destruct (hasMedia f) eqn:Hm, (hasDataChannel f) eqn:Hd; cbn [negb andb] in E; try done; injection E as <-;
    rewrite Ho in *; constructor; cbn; try done; auto.
Qed.

End Typing.

(** ** No answer stops the program that names the media of the offer *)

Module Handling.
Import MediaState SdpAnswerParser.

(** The media that the lines of an answer name. *)
Definition names (l : text) : list text :=
  match parse_line l with
  | Some (mkLine tag key value _) =>
      if eqb tag (txt "a") && eqb key (txt "mid") && negb (bool_decide (value = [])) then [value] else []
  | None => []
  end.

Definition mids (answer : text) : list text := concat (map names (get_lines answer)).

(** The offer has generated the media and, for every medium, the layers that
    can be asked of another. *)
Definition serves (o : SdpOffer.t) (ids : list text) : Prop :=
  (getDirection o = Publish -> Forall (fun m => is_Some (getMediaSSRC o m)) ids) /\
  (forall m1 m2 layers, m1 ∈ [] :: ids -> m2 ∈ ids -> getVideoSimulcastLayerList o m1 = Some layers ->
     Forall (fun x => is_Some (getVideoSimulastSSRC o m2 (SimulcastLayer.name x))) layers).

Section Ready.
Context (o : SdpOffer.t) (ids : list text) (Hserves : serves o ids).

Definition layer_known (l : Track.SimulcastLayerIndexed) : Prop :=
  exists m1 layers x, m1 ∈ [] :: ids /\ getVideoSimulcastLayerList o m1 = Some layers /\ x ∈ layers /\
    SimulcastLayer.name (Track.layer l) = SimulcastLayer.name x.

Record section_ready (m : ParseMediaState) : Prop := {
  sr_type : m_mediaType m <> None;
  sr_id : m_mediaId m ∈ [] :: ids;
  sr_layers : Forall layer_known (layerList m)
}.

Record ready (p : SdpAnswerParser.t) : Prop := {
  r_offer : offer p = o;
  r_direction : direction p = getDirection o;
  r_selector : lawful (selector p);
  r_section : isInMediaSection p = true -> section_ready (mediaState p)
}.

(** *** Attributes *)

Lemma section_same m m' :
  m_mediaType m' = m_mediaType m -> m_mediaId m' = m_mediaId m -> layerList m' = layerList m ->
  section_ready m -> section_ready m'.
Proof. intros E1 E2 E3 []. constructor; congruence. Qed.

Lemma section_type m : section_ready m -> exists type, m_mediaType m = Some type.
Proof. intros []. destruct (m_mediaType m) as [type|]; [by exists type|done]. Qed.

Lemma addSimulcastLayer_ready layers rid m1 : m1 ∈ [] :: ids -> getVideoSimulcastLayerList o m1 = Some layers ->
  forall l m i, (forall x, x ∈ l -> x ∈ layers) -> section_ready m -> section_ready (addSimulcastLayer m l rid i).
Proof.
  intros Hm1 Hlayers. induction l as [|x l IH]; intros m i Hl H; [done|]. cbn [addSimulcastLayer].
  destruct (eqb _ _) eqn:E; [|apply IH; [|done]; intros y Hy; apply Hl; by right].
  apply bool_decide_eq_true_1 in E. destruct H as [Ht Hi Hk]. constructor; [done|done|].
  apply list.Forall_app. split; [done|]. constructor; [|constructor]. exists m1, layers, x.
  split_and!; [done|done|apply Hl; by left|by symmetry].
Qed.

Lemma parse_simulcast_ready m value props : section_ready m ->
  exists m', parse_simulcast o m value props = Some m' /\ section_ready m'.
Proof.
  intros H. destruct (section_type m H) as [type E]. unfold parse_simulcast. rewrite E. cbn [mbind option_bind].
  destruct type; [|by exists m]. destruct props as [|s [|? ?]]; try by exists m.
  destruct (eqb value _); [|by exists m]. destruct (getVideoSimulcastLayerList o (m_mediaId m)) as [layers|] eqn:El; [|by exists m].
  eexists. split; [done|]. pose proof (sr_id m H) as Hid. revert El Hid. generalize (m_mediaId m) as m1. intros m1 El Hid.
  clear E. revert m H. induction (split_list s) as [|rid rids IH]; intros m H; [done|]. cbn [fold_left]. apply IH.
  by eapply addSimulcastLayer_ready.
Qed.

Lemma parse_apt_ready m i map : section_ready m -> section_ready (parse_apt m i map).
Proof.
  intros H. unfold parse_apt. destruct (map_find _ _); [|done]. destruct (getPayloadState m i); [|done].
  destruct (bool_decide _); [|done]. destruct (payload_id _); [|done]. by apply (section_same m).
Qed.

Lemma parse_fmtp_ready m value props : section_ready m ->
  exists m', parse_fmtp m value props = Some m' /\ section_ready m'.
Proof.
  intros H. unfold parse_fmtp. destruct (payload_id value) as [i|]; [|by exists m].
  destruct props as [|s [|? ?]]; try by exists m. apply (parse_apt_ready m i (parse_map s)) in H.
  set (n := parse_apt _ _ _) in *. destruct (section_type n H) as [type E]. unfold parse_options.
  destruct (getPayloadState n i); [|by exists n]. rewrite E. cbn [mbind option_bind].
  destruct (option_values type _) as [[a b] c]. destruct (_ || _); [|by exists n].
  eexists. split; [done|]. by apply (section_same n).
Qed.

(** The next of the cases on a line's key. *)
Local Ltac case_key := match goal with |- exists _, (if ?b then _ else _) = _ /\ _ => destruct b eqn:? end.

Lemma media_attribute_ready m key value props : section_ready m -> (eqb key (txt "mid") = true -> value <> [] -> value ∈ ids) ->
  exists m', media_attribute o m key value props = Some m' /\ section_ready m'.
Proof.
  intros H Hmid. unfold media_attribute.
  case_key.
  { eexists. split; [done|]. apply (section_same m); try done; unfold parse_extmap;
      destruct (parse_u32 value 10), props as [|? [|? ?]]; try done; by destruct (_ && _). }
  case_key.
  { eexists. split; [done|]. case_bool_decide as E; [done|]. destruct H. constructor; [done| |done]. right. by apply Hmid. }
  case_key.
  { eexists. split; [done|]. unfold parse_rtpmap. destruct (payload_id value), props as [|s [|? ?]]; try done.
    destruct (parse_encoding s) as [[? ?]|]; [|done]. by apply (section_same m). }
  case_key; [by apply parse_fmtp_ready|].
  case_key.
  { eexists. split; [done|]. unfold parse_rtcp_fb. destruct (payload_id value); [|done]. by apply (section_same m). }
  case_key.
  { destruct (section_type m H) as [type E]. unfold parse_rid. rewrite E. cbn [mbind option_bind].
    destruct type, props as [|s [|? ?]]; try by exists m. destruct (eqb s _); [|by exists m].
    eexists. split; [done|]. by apply (section_same m). }
  case_key; [by apply parse_simulcast_ready|].
  case_key.
  { eexists. split; [done|]. unfold parse_ssrc_group. destruct props as [|a [|b [|? ?]]]; try done.
    destruct (eqb value _); [|done]. destruct (parse_u32 a 10), (parse_u32 b 10); try done. by apply (section_same m). }
  case_key; [|by exists m].
  eexists. split; [done|]. unfold parse_ssrc. destruct (parse_u32 value 10); [|done].
  destruct (existsb _ _); [done|]. by apply (section_same m).
Qed.

(** *** Sections *)

Lemma selectTrack_some m d media sel : lawful sel -> exists t, MediaState.selectTrack m d media sel = Some t.
Proof.
  intros Hsel. unfold MediaState.selectTrack. destruct (bool_decide _); [by eexists|]. destruct (bool_decide _); [by eexists|].
  cbv zeta. destruct (_ && _); [by eexists|]. destruct (omap _ _) as [|first l]; [by eexists|].
  destruct sel as [select|]; [|by eexists].
  destruct (selects_some (Selector := Hsel) (first :: l)) as [t ->]; [done|]. by eexists.
Qed.

Lemma simulcast_loop_some mid single l : mid ∈ ids -> Forall layer_known l ->
  exists ts, simulcast_loop o mid single l = Some ts.
Proof using Hserves.
  intros Hmid H. induction H as [|x l (m1 & layers & y & Hm1 & El & Hy & En) H (ts & IH)]; [by eexists|].
  cbn [simulcast_loop]. destruct Hserves as [_ Hl]. specialize (Hl m1 mid layers Hm1 Hmid El).
  pose proof (Forall_elem _ _ _ Hl Hy) as [[a b] E]. cbv beta in E. rewrite En, E. cbn [mbind option_bind]. rewrite IH.
  by eexists.
Qed.

Lemma flush_section_ready p : ready p -> exists r, flush_m p = Some r /\ forall p', r = inr p' -> ready p'.
Proof using Hserves.
  intros [Ho Hd Hsel Hsec]. unfold flush_m. destruct (isInMediaSection p) eqn:Em; cbn [negb].
  2: { eexists. split; [done|]. intros p' [= <-]. constructor; try done. by rewrite Em. }
  destruct (Hsec eq_refl) as [Ht Hi Hl]. rewrite bool_decide_false by done.
  case_bool_decide as Eid; [by eexists; split|].
  assert (m_mediaId (mediaState p) ∈ ids) as Hin by (apply elem_of_cons in Hi as [?|?]; [done|done]).
  assert (exists m, match direction p with
      | Publish => '(media, rtx) ← getMediaSSRC (offer p) (m_mediaId (mediaState p)); Some (set_ssrc (mediaState p) media rtx)
      | Subscribe => Some (mediaState p)
      end = Some m /\ section_ready m /\ m_mediaId m ∈ ids) as (m & -> & [Ht' Hi' Hl'] & Hin').
  { destruct (direction p) eqn:Ed; [|eexists; split_and!; [done|by constructor|done]].
    destruct Hserves as [Hpub _]. specialize (Hpub (eq_sym Hd)).
    pose proof (Forall_elem _ _ _ Hpub Hin) as [[a b] E]. cbv beta in E. rewrite Ho, E.
    eexists. split_and!; [done|by constructor|done]. }
  cbn [mbind option_bind]. unfold createMedia. destruct (m_mediaType m) as [type|] eqn:Etype; [|done].
  cbn [mbind option_bind]. set (media := Media.mk _ _ _).
  destruct (selectTrack_some m (direction p) media (selector p) Hsel) as [[single|] ->]; cbn [mbind option_bind];
    [|by eexists; split].
  assert (exists tracks, (if bool_decide (layerList m = []) then Some [single]
      else makeSimulcastTrackList m (offer p) single) = Some tracks) as [tracks ->].
  { destruct (bool_decide _); [by eexists|]. unfold makeSimulcastTrackList. rewrite Ho. by apply simulcast_loop_some. }
  cbn [mbind option_bind]. eexists. split; [done|]. intros p' [= <-]. constructor; try done.
  intros _. constructor; cbn; [by rewrite Etype|done|done].
Qed.

(** *** Lines *)

Lemma section_new p a b c m : ready p -> (a = true -> section_ready m) -> ready (set_section p a b c m).
Proof. intros [] H. by constructor. Qed.

Lemma parseLine_m_ready p key props : ready p ->
  exists r, parseLine_m p key props = Some r /\ forall p', r = inr p' -> ready p'.
Proof using Hserves.
  intros Hp. unfold parseLine_m. destruct (flush_section_ready p Hp) as ([e|q] & -> & Hq); cbn [mbind option_bind];
    [by eexists; split|]. specialize (Hq q eq_refl).
  pose proof (section_new q false false (hasDataChannel q) (MediaState.clear (mediaState q)) Hq ltac:(done)) as Hq'.
  cbv zeta. set (r := set_section q false false _ _) in *.
  assert (forall type, ready (media_section r type props)) as Hsection.
  { intros type. apply section_new; [done|]. intros _. constructor; cbn; [done|by left|constructor]. }
  destruct (eqb key _).
  { destruct (_ && _); eexists; (split; [done|]); intros p' [= <-]; [|done]. by apply section_new. }
  destruct (_ || _); [by eexists; split|]. destruct (eqb key _); [|destruct (eqb key _)]; eexists;
    (split; [done|]); intros p' [= <-]; auto.
Qed.

Lemma ready_same p p' :
  offer p' = offer p -> direction p' = direction p -> selector p' = selector p ->
  isInMediaSection p' = isInMediaSection p -> mediaState p' = mediaState p -> ready p -> ready p'.
Proof. intros E1 E2 E3 E4 E5 []. constructor; rewrite ?E1, ?E2, ?E3, ?E4, ?E5; done. Qed.

Lemma parse_candidate_same `{Inet} p props : ready p -> ready (parse_candidate p props).
Proof.
  intros Hp. unfold parse_candidate. do 7 (destruct props as [|? props]; [done|]). destruct (_ && _); [|done].
  destruct (parse_u32 _ 10); [|done]. destruct (_ && _); [|done].
  assert (forall h, ready (add_host p h)) by (intros h; unfold add_host; destruct (existsb _ _); [done|by apply (ready_same p)]).
  destruct (has _ _); [by destruct (inet_pton4 _)|]. destruct (has _ _); [by destruct (inet_pton6 _)|done].
Qed.

Lemma parseLine_a_ready `{Inet} p key value props : ready p ->
  (eqb key (txt "mid") = true -> value <> [] -> value ∈ ids) ->
  exists p', parseLine_a p key value props = Some p' /\ ready p'.
Proof.
  intros Hp Hmid. unfold parseLine_a.
  case_key; [eexists; split; [done|]; by apply (ready_same p)|].
  case_key; [eexists; split; [done|]; by apply (ready_same p)|].
  case_key; [eexists; split; [done|]; by apply (ready_same p)|].
  case_key; [eexists; split; [done|]; destruct (eqb value _); [by apply (ready_same p)|done]|].
  case_key.
  { eexists. split; [done|]. unfold parse_fingerprint. destruct props as [|? [|? ?]]; try done.
    destruct (eqb value _); by apply (ready_same p). }
  case_key; [eexists; split; [done|]; by apply parse_candidate_same|].
  case_key.
  { eexists. split; [done|]. destruct (isInApplicationSection p); [|done]. unfold parse_sctp_port.
    destruct (parse_u32 value 10); [|done]. destruct (_ && _); [|done]. by apply (ready_same p). }
  case_key.
  { eexists. split; [done|]. destruct (isInApplicationSection p); [|done]. unfold parse_max_message_size.
    destruct (parse_u32 value 10); [|done]. by apply (ready_same p). }
  destruct (isInMediaSection p) eqn:Em; [|by exists p].
  destruct (media_attribute_ready (mediaState p) key value props (r_section p Hp Em) Hmid) as (m & E & Hm).
  rewrite (r_offer p Hp), E. cbn [mbind option_bind]. eexists. split; [done|]. by apply section_new.
Qed.

Lemma parseLine_ready `{Inet} p l : ready p -> (forall v, v ∈ names l -> v ∈ ids) ->
  exists r, parseLine p l = Some r /\ forall p', r = inr p' -> ready p'.
Proof using Hserves.
  intros Hp Hids. unfold parseLine. unfold names in Hids.
  destruct (parse_line l) as [[tag key value props]|]; [|by eexists; split].
  destruct (eqb tag (txt "a")) eqn:Ea.
  - destruct (parseLine_a_ready p key value props Hp) as (p' & -> & Hp').
    { intros Ek Hv. apply Hids. rewrite Ek, bool_decide_false by done. by left. }
    cbn [mbind option_bind]. eexists. split; [done|]. by intros ? [= <-].
  - destruct (eqb tag (txt "m")); [by apply parseLine_m_ready|]. eexists. split; [done|]. by intros ? [= <-].
Qed.

Lemma parse_lines_ready `{Inet} ls : forall p, ready p -> (forall v, v ∈ concat (map names ls) -> v ∈ ids) ->
  exists r, parse_lines p ls = Some r /\ forall p', r = inr p' -> ready p'.
Proof using Hserves.
  induction ls as [|l ls IH]; intros p Hp Hids; cbn [parse_lines].
  { eexists. split; [done|]. by intros ? [= <-]. }
  cbn [map concat] in Hids.
  case_bool_decide; [apply IH; [done|]; intros v Hv; apply Hids, elem_of_app; by right|].
  destruct (parseLine_ready p l Hp) as ([e|q] & -> & Hq).
  { intros v Hv. apply Hids, elem_of_app. by left. }
  - cbn [mbind option_bind]. eexists. by split.
  - cbn [mbind option_bind]. apply IH; [by apply Hq|]. intros v Hv. apply Hids, elem_of_app. by right.
Qed.

End Ready.

(** parsing an answer always returns, a description or an error, when every
    medium the answer names is one that the offer has generated, and its layers
    too: no assertion fails and no empty value is read, whatever else the text
    holds. *)
Theorem answer_handled `{Inet} o answer sel : lawful sel -> serves o (mids answer) ->
  exists r, SdpAnswer.parse o answer sel = Some r.
Proof.
  intros Hsel Hs. unfold SdpAnswer.parse, SdpAnswerParser.parse.
  assert (ready o (mids answer) (SdpAnswerParser.make o sel)) as Hp by (by constructor).
  destruct (parse_lines_ready o (mids answer) Hs (get_lines answer) _ Hp) as ([e|q] & -> & Hq); [done|by eexists|].
  cbn [mbind option_bind]. destruct (flush_section_ready o (mids answer) Hs q (Hq q eq_refl)) as (r & -> & _).
  cbn [mbind option_bind]. by eexists.
Qed.

End Handling.

(** ** An offer and its answers *)

Module Sample.

(** A resolver that knows one address. *)
#[local] Instance resolver : Inet :=
  {| inet_pton4 := fun s => if eqb s (txt "127.0.0.1") then Some [127; 0; 0; 1] else None; inet_pton6 := fun _ => None |}.

Definition text_of (l : list string) : text := concat (map (fun s => txt s ++ [10]) l).

(** One video medium with two layers, as [generate] leaves it. *)
Definition offer : SdpOffer.t :=
  let config := mkConfig (txt "cname") [] true true false 0 0 0 false in
  let layers := [SimulcastLayer.mk (txt "low") 320 180 15 250; SimulcastLayer.mk (txt "hi") 1280 720 30 2500] in
  let o := SdpOffer.make (fun n => Z.of_nat n) Publish config
             [mkMediaLine (txt "0") Video [mkMediaCodec H264 0x42e01f 0 false; mkMediaCodec VP8 0 0 false] layers] in
  match SdpOffer.generate (fun n => Z.of_nat n) (txt "0a:ff") o with Some (_, o) => o | None => o end.

Definition answer (mid : string) (port : string) : text :=
  text_of ["v=0"; "m=video 9 UDP/TLS/RTP/SAVPF 96 97 98 99"; mid;
           "a=rtcp-mux"; "a=fingerprint:sha-256 0A:FF"; "a=rtpmap:96 H264/90000"; "a=rtpmap:97 rtx/90000"; "a=fmtp:97 apt=96";
           "a=rid:low recv"; "a=rid:hi recv"; "a=simulcast:recv low;hi";
           ("a=candidate:1 1 udp 2130706431 127.0.0.1 " +:+ port +:+ " typ host")].

Definition highest : option TrackSelector := Some HighestTrackSelector.selectTrack.

Lemma answer_typed_witness :
  exists a, SdpAnswer.parse offer (answer "a=mid:0" "443") highest = Some (inr a) /\ Typing.answer_ok offer a.
Proof.
  eexists. split; [vm_compute; reflexivity|].
  apply (Typing.answer_typed offer (answer "a=mid:0" "443") highest);
    [exact Selection.highest_selector|vm_compute; reflexivity].
Defined.

Lemma answer_handled_witness : exists r, SdpAnswer.parse offer (answer "a=mid:0" "443") highest = Some r.
Proof.
  apply (Handling.answer_handled offer (answer "a=mid:0" "443") highest); [exact Selection.highest_selector|].
  split.
  - intros _. vm_compute. repeat constructor. by eexists.
  - assert (Handling.mids (answer "a=mid:0" "443") = [txt "0"]) as -> by (vm_compute; reflexivity).
    intros m1 m2 layers Hm1 Hm2 E. apply list_elem_of_singleton in Hm2 as ->.
    apply elem_of_cons in Hm1 as [->|Hm1]; [vm_compute in E; discriminate|].
    apply list_elem_of_singleton in Hm1 as ->. vm_compute in E. injection E as <-.
    repeat constructor; vm_compute; by eexists.
Defined.

(** The layers of the answer are tracks with the offer's SSRCs. *)
Example layers_answered :
  match SdpAnswer.parse offer (answer "a=mid:0" "443") highest with
  | Some (inr a) => map (fun t => (Track.mSSRC t, Track.mRtxSSRC t, Track.mPayloadId t, Track.mRtxPayloadId t))
                      (Answer.mTrackList a)
  | _ => []
  end = [(67, 68, 96, 97); (69, 70, 96, 97)].
Proof. vm_compute. reflexivity. Qed.

(** A medium that the offer does not have stops the program. *)
Example unknown_medium_stops : SdpAnswer.parse offer (answer "a=mid:1" "443") highest = None.
Proof. vm_compute. reflexivity. Qed.

(** The port 65536 is taken, as the port 0. *)
Example port_65536 :
  match SdpAnswer.parse offer (answer "a=mid:0" "65536") highest with
  | Some (inr a) => Answer.mHostList a
  | _ => []
  end = [HostV4 [127; 0; 0; 1] 0].
Proof. vm_compute. reflexivity. Qed.

(** No digits are the number 0, and a negative number one of 32 bits. *)
Example lenient_numbers : parse_u32 [] 10 = Some 0 /\ parse_u32 (txt " -1") 10 = Some 4294967295.
Proof. split; vm_compute; reflexivity. Qed.

(** A section of type audio is accepted with a codec for video. *)
Example video_as_audio :
  match SdpAnswer.parse offer
          (text_of ["m=audio 9 UDP/TLS/RTP/SAVPF 96"; "a=mid:0"; "a=rtcp-mux"; "a=rtpmap:96 H264/90000";
                    "a=candidate:1 1 udp 2130706431 127.0.0.1 443 typ host"]) None with
  | Some (inr a) => map (fun t => (Track.mMediaType t, Track.mCodec t)) (Answer.mTrackList a)
  | _ => []
  end = [(Audio, H264)].
Proof. vm_compute. reflexivity. Qed.

End Sample.
