(* ===== verification/SdpFeed.v ===== *)
(** * SdpFeed: the parser of src/sdp_answer.cpp over the lines that
    src/sdp_offer.cpp prints

    [feeds p s q]: over the text [s] the parser goes from the state [p] to [q].  The
    lines of an offer one by one, up to those of a section's codecs and streams. *)

From stdpp Require Import strings.
From S2P Require Import Prelude Bytes Extension Tracks ExtensionSources SdpText SdpOffer SdpAnswer SdpProps.
Open Scope Z_scope.
Import RtpStandardExtensions Text Lines Numbers Numerals.

(** ** Words and lines *)

Module Words.

(** No end of a line; no space either. *)
Definition clean (s : text) : bool := forallb (fun c => negb (c =? 10) && negb (c =? 13)) s.
Definition word (s : text) : bool := forallb (fun c => negb (c =? 10) && negb (c =? 13) && negb (c =? 32)) s.

Lemma clean_app a b : clean a = true -> clean b = true -> clean (a ++ b) = true.
Proof. unfold clean. rewrite forallb_app. by intros -> ->. Qed.

Lemma word_app a b : word a = true -> word b = true -> word (a ++ b) = true.
Proof. unfold word. rewrite forallb_app. by intros -> ->. Qed.

Lemma word_clean s : word s = true -> clean s = true.
Proof.
  unfold word, clean. rewrite !forallb_forall. intros H c Hc. specialize (H c Hc). by apply andb_true_iff in H as [H _].
Qed.

Lemma word_without s : word s = true -> without 32 s.
Proof.
  unfold word, without. rewrite forallb_forall, Forall_forall. intros H c Hc. apply H in Hc.
  destruct (Z.eqb_spec c 32); [by rewrite andb_false_r in Hc|done].
Qed.

Lemma clean_without s : clean s = true -> without 10 s.
Proof.
  unfold clean, without. rewrite forallb_forall, Forall_forall. intros H c Hc. apply H in Hc.
  by destruct (Z.eqb_spec c 10).
Qed.

Lemma clean_filter s : clean s = true -> List.filter (fun c => negb (c =? 13)) s = s.
Proof.
  induction s as [|c s IH]; intros H; [done|]. cbn in *. apply andb_true_iff in H as [Hc H].
  apply andb_true_iff in Hc as [_ ->]. by rewrite IH.
Qed.

Lemma plain_word s : Forall plain s -> word s = true.
Proof.
  intros H. unfold word. apply forallb_forall. intros c Hc. rewrite Forall_forall in H.
  apply H in Hc. unfold plain in Hc.
  destruct (Z.eqb_spec c 10), (Z.eqb_spec c 13), (Z.eqb_spec c 32); try lia; done.
Qed.

Lemma decimal_word n : word (decimal n) = true.
Proof. apply plain_word, decimal_plain. Qed.

Lemma hex6_word n : word (hex6 n) = true.
Proof.
  apply plain_word. eapply list.Forall_impl; [apply (hex_loop_plain _ n [] (Forall_nil_2 _))|]. by intros c [].
Qed.

Fixpoint unwords (l : list text) : text :=
  match l with [] => [] | w :: l => match l with [] => w | _ => w ++ 32 :: unwords l end end.

(** Words, the last of which has a character. *)
Fixpoint proper (l : list text) : bool :=
  match l with [] => true | [w] => word w && negb (bool_decide (w = [])) | w :: l => word w && proper l end.

Lemma tokens_unwords l : forall n, proper l = true -> (length (unwords l) < n)%nat -> tokens n (unwords l) = l.
Proof.
  induction l as [|w l IH]; intros n H Hn; [by destruct n|]. destruct n as [|n]; [lia|].
  destruct l as [|v l]; cbn [unwords proper] in *.
  - apply andb_true_iff in H as [Hw Hne]. cbn [tokens]. rewrite split_at_none by by apply word_without.
    destruct w; [done|done].
  - apply andb_true_iff in H as [Hw H]. rewrite length_app in Hn. cbn [length] in Hn.
    cbn [tokens]. rewrite split_at_app by by apply word_without. rewrite IH by (done || lia).
    by destruct w.
Qed.

(** *** Lines of attributes *)

(** A key: not empty, without colons and spaces. *)
Definition is_key (k : text) : bool := negb (bool_decide (k = [])) && word k && forallb (fun c => negb (c =? 58)) k.

Lemma key_without k : is_key k = true -> k <> [] /\ without 32 k /\ without 58 k.
Proof.
  unfold is_key. intros H. apply andb_true_iff in H as [H Hc]. apply andb_true_iff in H as [Hk Hw].
  split_and!; [by destruct k|by apply word_without|]. unfold without. rewrite forallb_forall in Hc. apply Forall_forall.
  intros c Hin. apply Hc in Hin. by destruct (Z.eqb_spec c 58).
Qed.

Lemma parse_line_attr key value rest : is_key key = true -> word value = true ->
  parse_line (txt "a=" ++ key ++ 58 :: value ++ 32 :: rest) =
  Some (mkLine (txt "a") key value (tokens (S (length rest)) rest)).
Proof.
  intros Hk Hv. apply key_without in Hk as (Hne & Hs & Hc). apply word_without in Hv. unfold parse_line.
  change (txt "a=" ++ key ++ 58 :: value ++ 32 :: rest) with (txt "a" ++ 61 :: key ++ 58 :: value ++ 32 :: rest).
  change (chr "=") with 61. rewrite split_at_app by (unfold without; repeat constructor; done).
  change (chr " ") with 32. change (chr ":") with 58.
  assert (key ++ 58 :: value ++ 32 :: rest = (key ++ 58 :: value) ++ 32 :: rest) as -> by (by rewrite <- app_assoc).
  rewrite split_at_app by (apply list.Forall_app; split; [done|by constructor]). rewrite split_at_app by done.
  by rewrite bool_decide_false by done.
Qed.

Lemma parse_line_attr_end key value : is_key key = true -> word value = true ->
  parse_line (txt "a=" ++ key ++ 58 :: value) = Some (mkLine (txt "a") key value []).
Proof.
  intros Hk Hv. apply key_without in Hk as (Hne & Hs & Hc). apply word_without in Hv. unfold parse_line.
  change (txt "a=" ++ key ++ 58 :: value) with (txt "a" ++ 61 :: key ++ 58 :: value).
  change (chr "=") with 61. rewrite split_at_app by (unfold without; repeat constructor; done).
  change (chr " ") with 32. change (chr ":") with 58.
  rewrite split_at_none by (apply list.Forall_app; split; [done|by constructor]). rewrite split_at_app by done.
  by rewrite bool_decide_false by done.
Qed.

Lemma parse_line_m key rest : is_key key = true ->
  parse_line (txt "m=" ++ key ++ 32 :: rest) = Some (mkLine (txt "m") key [] (tokens (S (length rest)) rest)).
Proof.
  intros Hk. apply key_without in Hk as (Hne & Hs & Hc). unfold parse_line.
  change (txt "m=" ++ key ++ 32 :: rest) with (txt "m" ++ 61 :: key ++ 32 :: rest).
  change (chr "=") with 61. rewrite split_at_app by (unfold without; repeat constructor; done).
  change (chr " ") with 32. change (chr ":") with 58. rewrite split_at_app by done. by rewrite split_at_none.
Qed.

(** Words with characters. *)
Lemma proper_words l : Forall (fun w => word w = true /\ w <> []) l -> proper l = true.
Proof.
  intros H. induction H as [|w l [Hw Hne] H IH]; [done|]. cbn [proper]. destruct l; [by rewrite Hw, bool_decide_false|].
  by rewrite Hw.
Qed.

Lemma unwords_clean l : Forall (fun w => word w = true) l -> clean (unwords l) = true.
Proof.
  intros H. induction H as [|w l Hw H IH]; [done|]. cbn [unwords]. destruct l; [by apply word_clean|].
  apply clean_app; [by apply word_clean|]. exact IH.
Qed.

Lemma decimals l : Forall (fun w => word w = true /\ w <> []) (map decimal l).
Proof.
  apply Forall_map. apply list.Forall_true. intros n. split; [apply decimal_word|apply decimal_nonempty].
Qed.

Lemma list_to_string_unwords n : forall start, list_to_string n start = unwords (map decimal (seqZ start (Z.of_nat n))).
Proof.
  induction n as [|n IH]; intros start; [done|]. rewrite seqZ_cons by lia. cbn [list_to_string map unwords].
  replace (Z.pred (Z.of_nat (S n))) with (Z.of_nat n) by lia. destruct n as [|n]; [done|].
  rewrite IH. replace (start + 1) with (Z.succ start) by lia. by rewrite (seqZ_cons (Z.succ start)) by lia.
Qed.

End Words.
Import Words.
Create HintDb sdp.
#[export] Hint Resolve clean_app word_app word_clean decimal_word hex6_word : sdp.

(** ** Feeding the parser *)

Module Feeding.
Import SdpAnswerParser.

Section Feeding.
Context `{Inet}.

(** The parser goes from one state to another over a text that ends lines. *)
Definition feeds (p : t) (s : text) (q : t) : Prop :=
  forall s', parse_lines p (get_lines (s ++ s')) = parse_lines q (get_lines s').

Lemma feeds_nil p : feeds p [] p.
Proof. done. Qed.

Lemma feeds_app p a q b r : feeds p a q -> feeds q b r -> feeds p (a ++ b) r.
Proof. intros Ha Hb s'. by rewrite <- app_assoc, Ha, Hb. Qed.

Lemma feeds_line p l q : clean l = true -> l <> [] -> parseLine p l = Some (inr q) -> feeds p (l ++ [10]) q.
Proof.
  intros Hc Hne E s'. unfold get_lines. rewrite <- app_assoc. cbn [app].
  rewrite pieces_cons by by apply clean_without. cbn [map parse_lines]. rewrite clean_filter by done.
  rewrite bool_decide_false by done. by rewrite E.
Qed.

(** An attribute with further words. *)
Lemma feeds_attr p key value rest q : is_key key = true -> word value = true -> clean rest = true ->
  parseLine_a p key value (tokens (S (length rest)) rest) = Some q ->
  feeds p ((txt "a=" ++ key ++ 58 :: value ++ 32 :: rest) ++ [10]) q.
Proof.
  intros Hk Hv Hr E. pose proof (word_clean value Hv) as Hv'.
  assert (clean key = true) as Hk' by (unfold is_key in Hk; apply andb_true_iff in Hk as [Hk _];
    apply andb_true_iff in Hk as [_ Hk]; by apply word_clean).
  apply feeds_line; [|done|].
  - apply clean_app; [done|]. apply clean_app; [done|]. cbn. apply clean_app; [done|]. done.
  - unfold parseLine. rewrite parse_line_attr by done.
    change (eqb (txt "a") (txt "a")) with true. cbv iota. by rewrite E.
Qed.

Lemma feeds_words p key value props q : is_key key = true -> word value = true -> clean (unwords props) = true ->
  proper props = true -> parseLine_a p key value props = Some q ->
  feeds p ((txt "a=" ++ key ++ 58 :: value ++ 32 :: unwords props) ++ [10]) q.
Proof. intros Hk Hv Hc Hp E. apply feeds_attr; [done|done|done|]. by rewrite tokens_unwords by (done || lia). Qed.

Lemma feeds_value p key value q : is_key key = true -> word value = true ->
  parseLine_a p key value [] = Some q -> feeds p ((txt "a=" ++ key ++ 58 :: value) ++ [10]) q.
Proof.
  intros Hk Hv E. pose proof (word_clean value Hv) as Hv'.
  assert (clean key = true) as Hk' by (unfold is_key in Hk; apply andb_true_iff in Hk as [Hk _];
    apply andb_true_iff in Hk as [_ Hk]; by apply word_clean).
  apply feeds_line; [|done|].
  - apply clean_app; [done|]. apply clean_app; [done|]. done.
  - unfold parseLine. rewrite parse_line_attr_end by done.
    change (eqb (txt "a") (txt "a")) with true. cbv iota. by rewrite E.
Qed.

(** *** The lines of an offer *)

Lemma feeds_ln_attr p parts key value rest q :
  concat parts = txt "a=" ++ key ++ 58 :: value ++ 32 :: rest ->
  is_key key = true -> word value = true -> clean rest = true ->
  parseLine_a p key value (tokens (S (length rest)) rest) = Some q -> feeds p (ln parts) q.
Proof. intros E Hk Hv Hr Hq. unfold ln. rewrite E. by apply feeds_attr. Qed.

Lemma feeds_ln_words p parts key value props q :
  concat parts = txt "a=" ++ key ++ 58 :: value ++ 32 :: unwords props ->
  is_key key = true -> word value = true -> clean (unwords props) = true -> proper props = true ->
  parseLine_a p key value props = Some q -> feeds p (ln parts) q.
Proof. intros E Hk Hv Hc Hp Hq. unfold ln. rewrite E. by apply feeds_words. Qed.

Lemma feeds_ln_value p parts key value q :
  concat parts = txt "a=" ++ key ++ 58 :: value -> is_key key = true -> word value = true ->
  parseLine_a p key value [] = Some q -> feeds p (ln parts) q.
Proof. intros E Hk Hv Hq. unfold ln. rewrite E. by apply feeds_value. Qed.

(** Lines of a literal. *)
Lemma feeds_literal p s key value props q : parse_line (txt s) = Some (mkLine (txt "a") key value props) ->
  clean (txt s) = true -> parseLine_a p key value props = Some q -> feeds p (ln [txt s]) q.
Proof.
  intros E Hc Hq. unfold ln. cbn [concat]. rewrite app_nil_r. apply feeds_line; [done|by intros E'; rewrite E' in E|].
  unfold parseLine. rewrite E. change (eqb (txt "a") (txt "a")) with true. cbv iota. by rewrite Hq.
Qed.

Lemma feeds_other p l t : parse_line l = Some t -> clean l = true -> eqb (tag t) (txt "a") = false ->
  eqb (tag t) (txt "m") = false -> feeds p (l ++ [10]) p.
Proof.
  intros E Hc Ha Hm. apply feeds_line; [done|by intros ->|]. unfold parseLine. rewrite E. destruct t as [t k v ps].
  cbn [tag] in *. by rewrite Ha, Hm.
Qed.

End Feeding.
End Feeding.

(** ** Attributes of a section *)

Module Attributes.
Import MediaState SdpAnswerParser Feeding.

(** The comparisons of a literal key. *)
Ltac keys :=
  repeat match goal with
  | |- context [eqb (txt ?a) (txt ?b)] =>
      let v := eval vm_compute in (eqb (txt a) (txt b)) in change (eqb (txt a) (txt b)) with v
  end; cbv iota.

(** One line after the other. *)
Ltac split_lines := repeat match goal with |- feeds _ (_ ++ _) _ => eapply feeds_app end.

Lemma set_media_same p : set_media p (mediaState p) = p.
Proof. by destruct p. Qed.

Section Lines.
Context `{Inet} (p : SdpAnswerParser.t) (Hin : isInMediaSection p = true).

(** The lines that say nothing to the parser. *)
Lemma unknown_attr key value props :
  forallb (fun k => negb (eqb key (txt k)))
    ["rtcp-mux"; "ice-ufrag"; "ice-pwd"; "setup"; "fingerprint"; "candidate"; "sctp-port"; "max-message-size";
     "extmap"; "mid"; "rtpmap"; "fmtp"; "rtcp-fb"; "rid"; "simulcast"; "ssrc-group"; "ssrc"]%string = true ->
  parseLine_a p key value props = Some p.
Proof using Hin.
  intros E. cbn [forallb] in E.
  repeat (apply andb_true_iff in E as [?%negb_true_iff E]). unfold parseLine_a, media_attribute.
  repeat match goal with H : eqb key _ = false |- _ => rewrite H; clear H end. rewrite Hin.
  cbn [mbind option_bind]. by rewrite set_media_same.
Qed.

Lemma a_extmap value props :
  parseLine_a p (txt "extmap") value props = Some (set_media p (parse_extmap (mediaState p) value props)).
Proof using Hin. unfold parseLine_a, media_attribute. keys. by rewrite Hin. Qed.

Lemma a_mid value props : value <> [] ->
  parseLine_a p (txt "mid") value props = Some (set_media p (set_mediaId (mediaState p) value)).
Proof using Hin. intros Hv. unfold parseLine_a, media_attribute. keys. rewrite Hin. by rewrite bool_decide_false. Qed.

Lemma a_rtpmap value props :
  parseLine_a p (txt "rtpmap") value props = Some (set_media p (parse_rtpmap (mediaState p) value props)).
Proof using Hin. unfold parseLine_a, media_attribute. keys. by rewrite Hin. Qed.

Lemma a_fmtp value props :
  parseLine_a p (txt "fmtp") value props =
  (m ← parse_fmtp (mediaState p) value props; Some (set_media p m)).
Proof using Hin. unfold parseLine_a, media_attribute. keys. by rewrite Hin. Qed.

Lemma a_rtcp_fb value props :
  parseLine_a p (txt "rtcp-fb") value props = Some (set_media p (parse_rtcp_fb (mediaState p) value props)).
Proof using Hin. unfold parseLine_a, media_attribute. keys. by rewrite Hin. Qed.

Lemma a_ssrc value props :
  parseLine_a p (txt "ssrc") value props = Some (set_media p (parse_ssrc (mediaState p) value)).
Proof using Hin. unfold parseLine_a, media_attribute. keys. by rewrite Hin. Qed.

Lemma a_ssrc_group value props :
  parseLine_a p (txt "ssrc-group") value props = Some (set_media p (parse_ssrc_group (mediaState p) value props)).
Proof using Hin. unfold parseLine_a, media_attribute. keys. by rewrite Hin. Qed.

End Lines.

(** *** One payload among others *)

Definition before (i : Z) (l : list ParsePayloadState) : Prop := Forall (fun p => payloadId p < i) l.

Lemma update_at i f pre x post : before i pre -> payloadId x = i -> update (pre ++ x :: post) i f = pre ++ f x :: post.
Proof.
  intros Hpre Hx. induction Hpre as [|y pre Hy H IH]; cbn [app update].
  - rewrite Hx. by rewrite Z.eqb_refl.
  - destruct (Z.eqb_spec (payloadId y) i); [lia|]. by rewrite IH.
Qed.

Lemma find_at i pre x post : before i pre -> payloadId x = i ->
  List.find (fun p => payloadId p =? i) (pre ++ x :: post) = Some x.
Proof.
  intros Hpre Hx. induction Hpre as [|y pre Hy H IH]; cbn [app List.find].
  - rewrite Hx. by rewrite Z.eqb_refl.
  - destruct (Z.eqb_spec (payloadId y) i); [lia|]. done.
Qed.

Lemma payload_id_decimal i : Typing.is_payload i -> payload_id (decimal i) = Some i.
Proof.
  unfold Typing.is_payload, payload_id. intros Hi. rewrite parse_decimal by (unfold is_u32; lia). cbn [mbind option_bind].
  unfold is_valid_payload_id. destruct (Z.leb_spec 96 i), (Z.leb_spec i 127); (lia || done).
Qed.

(** *** What a codec's lines leave *)

Definition fresh (i : Z) : ParsePayloadState := mkPayload i None None 0 0 false false.

Definition clock_rate (c : Codec) : Z := match c with Opus => 48000 | _ => 90000 end.

Definition options_of (item : MediaCodec) : option Track.CodecOptions :=
  match codec item with
  | H264 => if profile_level_id item =? 0 then None else Some (Track.mkCodecOptions (profile_level_id item) 0 false)
  | Opus =>
      if (mc_minptime item =? 0) && negb (mc_stereo item) then None
      else Some (Track.mkCodecOptions 0 (mc_minptime item) (mc_stereo item))
  | _ => None
  end.

(** A payload after the lines of its codec, and that of its retransmissions. *)
Definition payload_of (cfg : Config) (type : MediaType) (item : MediaCodec) (i : Z) : ParsePayloadState :=
  mkPayload i (Some (codec item)) (options_of item) (clock_rate (codec item)) (if enable_rtx cfg then i + 1 else 0) true
    (bool_decide (type = Video)).
Definition rtx_payload (i : Z) : ParsePayloadState := mkPayload i (Some Rtx) None 90000 0 false false.

(** What an offer may ask for in a section of a type. *)
Record codec_ok (type : MediaType) (item : MediaCodec) : Prop := {
  co_type : match type with Video => isVideoCodec (codec item) | Audio => isAudioCodec (codec item) end = true;
  co_profile : is_u32 (profile_level_id item);
  co_minptime : is_u32 (mc_minptime item)
}.

(** *** The lines of a codec *)

Lemma codec_encoding c name : codec_to_string c = Some name ->
  parse_encoding name = Some (c, clock_rate c) /\ word name = true /\ name <> [].
Proof. by destruct c; intros [= <-]; (split_and!; [vm_compute; reflexivity|vm_compute; reflexivity|]). Qed.

Lemma without_plain c s : Forall plain s -> c < 48 \/ 57 < c < 97 \/ 102 < c -> without c s.
Proof. intros H Hc. eapply list.Forall_impl; [exact H|]. unfold plain. intros x Hx. lia. Qed.

Lemma hex6_plain n : Forall plain (hex6 n).
Proof. eapply list.Forall_impl; [apply (hex_loop_plain _ n [] (Forall_nil_2 _))|]. by intros c []. Qed.

(** The number of a literal key. *)
Lemma profile_map n :
  parse_map (txt "level-asymmetry-allowed=1;packetization-mode=1;profile-level-id=" ++ hex6 n) =
  [(txt "level-asymmetry-allowed", txt "1"); (txt "packetization-mode", txt "1"); (txt "profile-level-id", hex6 n)].
Proof.
  unfold parse_map. change (chr ";") with 59. change (chr "=") with 61.
  change (txt "level-asymmetry-allowed=1;packetization-mode=1;profile-level-id=" ++ hex6 n) with
    (txt "level-asymmetry-allowed=1" ++ 59 :: txt "packetization-mode=1" ++ 59 :: txt "profile-level-id=" ++ hex6 n).
  rewrite !pieces_cons by (unfold without; repeat constructor; done). rewrite pieces_one.
  - cbn [fold_left]. change (txt "profile-level-id=" ++ hex6 n) with (txt "profile-level-id" ++ 61 :: hex6 n).
    rewrite (split_at_app 61 (txt "profile-level-id")) by (unfold without; repeat constructor; done). done.
  - apply list.Forall_app. split; [repeat constructor; done|]. apply without_plain; [apply hex6_plain|lia].
Qed.

Lemma opus_map minptime stereo :
  parse_map (txt "minptime=" ++ decimal minptime ++ txt ";stereo=" ++ decimal stereo ++ txt ";useinbandfec=1") =
  [(txt "minptime", decimal minptime); (txt "stereo", decimal stereo); (txt "useinbandfec", txt "1")].
Proof.
  unfold parse_map. change (chr ";") with 59. change (chr "=") with 61.
  assert (txt "minptime=" ++ decimal minptime ++ txt ";stereo=" ++ decimal stereo ++ txt ";useinbandfec=1" =
    (txt "minptime=" ++ decimal minptime) ++ 59 :: (txt "stereo=" ++ decimal stereo) ++ 59 :: txt "useinbandfec=1") as ->
    by (by rewrite <- !app_assoc).
  assert (forall k n, without 59 k -> without 59 (k ++ decimal n)) as Hk.
  { intros k n Hk. apply list.Forall_app. split; [done|]. apply without_plain; [apply decimal_plain|lia]. }
  rewrite !pieces_cons by (apply Hk; unfold without; repeat constructor; done).
  rewrite pieces_one by (unfold without; repeat constructor; done). cbn [fold_left].
  change (txt "minptime=" ++ decimal minptime) with (txt "minptime" ++ 61 :: decimal minptime).
  change (txt "stereo=" ++ decimal stereo) with (txt "stereo" ++ 61 :: decimal stereo).
  rewrite (split_at_app 61 (txt "minptime")) by (unfold without; repeat constructor; done).
  rewrite (split_at_app 61 (txt "stereo")) by (unfold without; repeat constructor; done). done.
Qed.

Section Codecs.
Context `{Inet} (p : SdpAnswerParser.t) (Hin : isInMediaSection p = true).
Context (type : MediaType) (Htype : m_mediaType (mediaState p) = Some type).

(** The parser with other payloads. *)
Definition at_ (l : list ParsePayloadState) : SdpAnswerParser.t := set_media p (set_payloads (mediaState p) l).

Lemma feeds_rtpmap pre x post i name c rate :
  before i pre -> payloadId x = i -> Typing.is_payload i -> word name = true -> name <> [] ->
  parse_encoding name = Some (c, rate) ->
  feeds (at_ (pre ++ x :: post)) (ln [txt "a=rtpmap:"; decimal i; txt " "; name])
        (at_ (pre ++ set_encoding i c rate x :: post)).
Proof using Hin.
  intros Hpre Hx Hi Hw Hne He. apply (feeds_ln_words _ _ (txt "rtpmap") (decimal i) [name]).
  - cbn [concat]. by rewrite app_nil_r.
  - done.
  - apply decimal_word.
  - by apply word_clean.
  - cbn [proper]. rewrite Hw. by rewrite bool_decide_false.
  - rewrite a_rtpmap by done. unfold parse_rtpmap. rewrite payload_id_decimal, He by done.
    unfold modify. cbn [at_ set_media set_section mediaState set_payloads payloadStateList]. by rewrite update_at.
Qed.

Lemma feeds_rtcp_fb pre x post i words :
  before i pre -> payloadId x = i -> Typing.is_payload i -> proper words = true -> clean (unwords words) = true ->
  feeds (at_ (pre ++ x :: post)) (ln [txt "a=rtcp-fb:"; decimal i; 32 :: unwords words])
        (at_ (pre ++ set_feedback words x :: post)).
Proof using Hin.
  intros Hpre Hx Hi Hp Hc. apply (feeds_ln_words _ _ (txt "rtcp-fb") (decimal i) words).
  - cbn [concat]. by rewrite app_nil_r.
  - done.
  - apply decimal_word.
  - done.
  - done.
  - rewrite a_rtcp_fb by done. unfold parse_rtcp_fb. rewrite payload_id_decimal by done.
    unfold modify. cbn [at_ set_media set_section mediaState set_payloads payloadStateList]. by rewrite update_at.
Qed.

(** The options of a format: its values by the type of the section. *)
Lemma feeds_fmtp pre x post i (s : text) :
  before i pre -> payloadId x = i -> Typing.is_payload i -> word s = true -> s <> [] ->
  map_find (parse_map s) (txt "apt") = None ->
  feeds (at_ (pre ++ x :: post)) (ln [txt "a=fmtp:"; decimal i; 32 :: s])
        (at_ (pre ++ (let '(profile, minptime, stereo) := option_values type (parse_map s) in
                      if negb (profile =? 0) || negb (minptime =? 0) || stereo
                      then set_options (Track.mkCodecOptions profile minptime stereo) x else x) :: post)).
Proof using Hin Htype.
  intros Hpre Hx Hi Hw Hne Hapt. apply (feeds_ln_words _ _ (txt "fmtp") (decimal i) [s]).
  - cbn [concat]. by rewrite app_nil_r.
  - done.
  - apply decimal_word.
  - by apply word_clean.
  - cbn [proper]. rewrite Hw. by rewrite bool_decide_false.
  - rewrite a_fmtp by done. unfold parse_fmtp. rewrite payload_id_decimal by done.
    unfold parse_apt. rewrite Hapt. unfold parse_options, getPayloadState.
    cbn [at_ set_media set_section mediaState set_payloads payloadStateList m_mediaType].
    rewrite find_at by done. rewrite Htype. cbn [mbind option_bind].
    destruct (option_values type (parse_map s)) as [[a b] c]. destruct (_ || _); [|done].
    cbn [mbind option_bind]. unfold modify. cbn [set_payloads payloadStateList]. by rewrite update_at.
Qed.

(** The payload of retransmissions names the one it is for. *)
Lemma feeds_apt pre x y post i :
  before i pre -> payloadId x = i -> payloadId y = i + 1 -> p_codec y = Some Rtx ->
  Typing.is_payload i -> Typing.is_payload (i + 1) ->
  feeds (at_ (pre ++ x :: y :: post)) (ln [txt "a=fmtp:"; decimal (i + 1); txt " apt="; decimal i])
        (at_ (pre ++ set_rtx (i + 1) x :: y :: post)).
Proof using Hin Htype.
  intros Hpre Hx Hy Hc Hi Hi'.
  assert (parse_map (txt "apt=" ++ decimal i) = [(txt "apt", decimal i)]) as Hmap.
  { unfold parse_map. rewrite pieces_one.
    - cbn [fold_left]. change (txt "apt=" ++ decimal i) with (txt "apt" ++ chr "=" :: decimal i).
      by rewrite split_at_app by (unfold without; repeat constructor; done).
    - apply list.Forall_app. split; [repeat constructor; done|]. eapply list.Forall_impl; [apply decimal_plain|].
      unfold plain. intros c ? ->. change (chr ";") with 59 in *. lia. }
  apply (feeds_ln_words _ _ (txt "fmtp") (decimal (i + 1)) [txt "apt=" ++ decimal i]).
  - cbn [concat]. by rewrite app_nil_r.
  - done.
  - apply decimal_word.
  - cbn [unwords]. auto with sdp.
  - cbn [proper]. rewrite bool_decide_false by done. by rewrite word_app by (done || apply decimal_word).
  - assert (before (i + 1) (pre ++ [set_rtx (i + 1) x])) as Hpre'.
    { apply list.Forall_app. split; [|constructor; [cbn; lia|constructor]].
      eapply list.Forall_impl; [exact Hpre|]. intros q Hq. cbv beta in Hq. lia. }
    assert (before (i + 1) (pre ++ [x])) as Hpre''.
    { apply list.Forall_app. split; [|constructor; [lia|constructor]].
      eapply list.Forall_impl; [exact Hpre|]. intros q Hq. cbv beta in Hq. lia. }
    rewrite a_fmtp by done. unfold parse_fmtp. rewrite payload_id_decimal, Hmap by done.
    unfold parse_apt. change (map_find [(txt "apt", decimal i)] (txt "apt")) with (Some (decimal i)). cbv iota.
    unfold getPayloadState at 1. cbn [at_ set_media set_section mediaState set_payloads payloadStateList].
    rewrite (cons_middle x), app_assoc, find_at by done. rewrite Hc, bool_decide_true by done.
    rewrite payload_id_decimal by done. unfold modify. cbn [set_payloads payloadStateList].
    rewrite <- app_assoc. cbn [app]. rewrite update_at by done.
    unfold parse_options, getPayloadState. cbn [set_payloads payloadStateList m_mediaType].
    rewrite (cons_middle (set_rtx (i + 1) x)), app_assoc, find_at by done. rewrite <- app_assoc, Htype. cbn [mbind option_bind app].
    by destruct type.
Qed.

(** The lines between the codec's and its feedback's. *)
Definition format_lines (item : MediaCodec) (i : Z) : text :=
  if bool_decide (codec item = H264) then
    ln [txt "a=fmtp:"; decimal i;
        txt " level-asymmetry-allowed=1;packetization-mode=1;profile-level-id="; hex6 (profile_level_id item)]
  else if bool_decide (codec item = Opus) then
    ln [txt "a=fmtp:"; decimal i; txt " minptime="; decimal (mc_minptime item);
        txt ";stereo="; decimal (if mc_stereo item then 1 else 0); txt ";useinbandfec=1"]
  else [].

End Codecs.

Section Formats.
Context `{Inet} (p : SdpAnswerParser.t) (Hin : isInMediaSection p = true).
Context (pre post : list ParsePayloadState) (item : MediaCodec) (i rate : Z).
Context (Hpre : before i pre) (Hi : Typing.is_payload i).

(** A payload of the codec, before and after its format. *)
Definition plain_payload : ParsePayloadState := mkPayload i (Some (codec item)) None rate 0 false false.
Definition formatted : ParsePayloadState := mkPayload i (Some (codec item)) (options_of item) rate 0 false false.

Lemma feeds_h264 : m_mediaType (mediaState p) = Some Video -> is_u32 (profile_level_id item) -> codec item = H264 ->
  feeds (at_ p (pre ++ plain_payload :: post)) (format_lines item i) (at_ p (pre ++ formatted :: post)).
Proof using Hin Hpre Hi.
  intros Htype Hprof Ec.
  pose proof (feeds_fmtp p Hin Video Htype pre plain_payload post i
    (txt "level-asymmetry-allowed=1;packetization-mode=1;profile-level-id=" ++ hex6 (profile_level_id item))
    Hpre eq_refl Hi) as Hf. rewrite profile_map in Hf.
  specialize (Hf ltac:(apply word_app; [done|apply hex6_word]) ltac:(done) eq_refl).
  unfold option_values, number_of in Hf.
  match type of Hf with context [map_find ?m (txt "profile-level-id")] =>
    change (map_find m (txt "profile-level-id")) with (Some (hex6 (profile_level_id item))) in Hf end.
  cbv iota in Hf. rewrite parse_hex6 in Hf by done. cbn [default from_option Datatypes.id] in Hf.
  unfold format_lines, formatted, options_of. rewrite Ec, bool_decide_true by done.
  unfold ln in *. cbn [concat] in *. rewrite app_nil_r in Hf. rewrite app_nil_r.
  unfold plain_payload in Hf |- *. rewrite Ec in Hf |- *. destruct (Z.eqb_spec (profile_level_id item) 0); exact Hf.
Qed.

Lemma feeds_opus : m_mediaType (mediaState p) = Some Audio -> is_u32 (mc_minptime item) -> codec item = Opus ->
  feeds (at_ p (pre ++ plain_payload :: post)) (format_lines item i) (at_ p (pre ++ formatted :: post)).
Proof using Hin Hpre Hi.
  intros Htype Hmin Ec. set (st := if mc_stereo item then 1 else 0).
  assert (is_u32 st) as Hst by (unfold st, is_u32; destruct (mc_stereo item); lia).
  pose proof (feeds_fmtp p Hin Audio Htype pre plain_payload post i
    (txt "minptime=" ++ decimal (mc_minptime item) ++ txt ";stereo=" ++ decimal st ++ txt ";useinbandfec=1")
    Hpre eq_refl Hi) as Hf. rewrite opus_map in Hf.
  specialize (Hf ltac:(repeat apply word_app; solve [done|apply decimal_word]) ltac:(done) eq_refl).
  unfold option_values, number_of in Hf.
  match type of Hf with context [map_find ?m (txt "minptime")] =>
    change (map_find m (txt "minptime")) with (Some (decimal (mc_minptime item))) in Hf end.
  match type of Hf with context [map_find ?m (txt "stereo")] =>
    change (map_find m (txt "stereo")) with (Some (decimal st)) in Hf end.
  cbv iota in Hf. rewrite !parse_decimal in Hf by done. cbn [default from_option Datatypes.id] in Hf.
  unfold format_lines, formatted, options_of. rewrite Ec, bool_decide_false, bool_decide_true by done. fold st.
  unfold ln in *. cbn [concat] in *. rewrite app_nil_r in Hf.
  unfold plain_payload in Hf |- *. rewrite Ec in Hf |- *. unfold st in *.
  destruct (Z.eqb_spec (mc_minptime item) 0), (mc_stereo item); exact Hf.
Qed.

Lemma feeds_format type : m_mediaType (mediaState p) = Some type -> codec_ok type item ->
  feeds (at_ p (pre ++ plain_payload :: post)) (format_lines item i) (at_ p (pre ++ formatted :: post)).
Proof using Hin Hpre Hi.
  intros Htype [Hty Hprof Hmin].
  destruct (decide (codec item = H264)) as [E|E]; [destruct type; [by apply feeds_h264|by rewrite E in Hty]|].
  destruct (decide (codec item = Opus)) as [E'|E']; [destruct type; [by rewrite E' in Hty|by apply feeds_opus]|].
  unfold format_lines, formatted, options_of. rewrite !bool_decide_false by done. unfold plain_payload.
  destruct (codec item); done.
Qed.

End Formats.

Lemma before_snoc i pre x : before i pre -> payloadId x = i -> before (i + 1) (pre ++ [x]).
Proof.
  intros Hpre Hx. apply list.Forall_app. split; [|constructor; [lia|constructor]].
  eapply list.Forall_impl; [exact Hpre|]. intros q Hq. cbv beta in Hq. lia.
Qed.

Section Codec.
Context `{Inet} (p : SdpAnswerParser.t) (Hin : isInMediaSection p = true).
Context (type : MediaType) (Htype : m_mediaType (mediaState p) = Some type).
Context (cfg : Config) (pre : list ParsePayloadState) (item : MediaCodec) (i : Z).
Context (Hpre : before i pre) (Hi : Typing.is_payload i) (Hitem : codec_ok type item).

(** The lines of a payload without those of its retransmissions. *)
Definition main_lines (name : text) : text :=
  ln [txt "a=rtpmap:"; decimal i; txt " "; name] ++ format_lines item i ++
  ln [txt "a=rtcp-fb:"; decimal i; txt " nack"] ++
  (if bool_decide (type = Video) then ln [txt "a=rtcp-fb:"; decimal i; txt " nack pli"] else []).

Definition main_payload : ParsePayloadState :=
  mkPayload i (Some (codec item)) (options_of item) (clock_rate (codec item)) 0 true (bool_decide (type = Video)).

Lemma feeds_main post name : codec_to_string (codec item) = Some name ->
  feeds (at_ p (pre ++ fresh i :: post)) (main_lines name) (at_ p (pre ++ main_payload :: post)).
Proof using Hin Htype Hpre Hi Hitem.
  intros Ename. destruct (codec_encoding _ _ Ename) as (He & Hw & Hne). unfold main_lines.
  eapply feeds_app; [by apply (feeds_rtpmap p Hin pre (fresh i) post i name (codec item) (clock_rate (codec item)) Hpre eq_refl Hi)|].
  eapply feeds_app; [by apply (feeds_format p Hin pre post item i (clock_rate (codec item)) Hpre Hi type)|].
  eapply feeds_app; [by apply (feeds_rtcp_fb p Hin pre (formatted item i (clock_rate (codec item))) post i [txt "nack"] Hpre eq_refl Hi)|].
  unfold main_payload. destruct type; [rewrite bool_decide_true by done|rewrite bool_decide_false by done; apply feeds_nil].
  by apply (feeds_rtcp_fb p Hin pre (set_feedback [txt "nack"] (formatted item i (clock_rate (codec item)))) post i [txt "nack"; txt "pli"]
              Hpre eq_refl Hi).
Qed.

Lemma feeds_rtx post : Typing.is_payload (i + 1) ->
  feeds (at_ p (pre ++ main_payload :: fresh (i + 1) :: post))
    (ln [txt "a=rtpmap:"; decimal (i + 1); txt " rtx/90000"] ++ ln [txt "a=fmtp:"; decimal (i + 1); txt " apt="; decimal i])
    (at_ p (pre ++ set_rtx (i + 1) main_payload :: rtx_payload (i + 1) :: post)).
Proof using Hin Htype Hpre Hi.
  intros Hi'. eapply feeds_app; [|by apply (feeds_apt p Hin type Htype pre main_payload (rtx_payload (i + 1)) post i)].
  pose proof (feeds_rtpmap p Hin (pre ++ [main_payload]) (fresh (i + 1)) post (i + 1) (txt "rtx/90000") Rtx 90000
    (before_snoc i pre main_payload Hpre eq_refl) eq_refl Hi' eq_refl ltac:(done) eq_refl) as Hf.
  rewrite <- !app_assoc in Hf. exact Hf.
Qed.

(** The payloads of a codec, before and after its lines. *)
Definition fresh_of : list ParsePayloadState := fresh i :: if enable_rtx cfg then [fresh (i + 1)] else [].
Definition payloads_of : list ParsePayloadState :=
  payload_of cfg type item i :: if enable_rtx cfg then [rtx_payload (i + 1)] else [].

Lemma feeds_codec post text : (enable_rtx cfg = true -> Typing.is_payload (i + 1)) ->
  codec_lines cfg type item i = Some text ->
  feeds (at_ p (pre ++ fresh_of ++ post)) text (at_ p (pre ++ payloads_of ++ post)).
Proof using Hin Htype Hpre Hi Hitem.
  intros Hi' E. unfold codec_lines in E. apply bind_Some_inv in E as (name & Ename & E). apply (inj Some) in E. subst text.
  unfold fresh_of, payloads_of, payload_of.
  destruct (enable_rtx cfg) eqn:Er.
  - rewrite u32_small by (specialize (Hi' eq_refl); unfold is_u32, Typing.is_payload in *; lia).
    pose proof (feeds_app _ _ _ _ _ (feeds_main (fresh (i + 1) :: post) name Ename) (feeds_rtx post (Hi' eq_refl))) as Hf.
    unfold main_lines in Hf. rewrite <- !app_assoc in Hf. exact Hf.
  - pose proof (feeds_main post name Ename) as Hf. unfold main_lines in Hf.
    rewrite (app_nil_r (if bool_decide (type = Video) then _ else [])). exact Hf.
Qed.

End Codec.

(** *** All codecs of a section *)

Definition step_of (cfg : Config) : Z := if enable_rtx cfg then 2 else 1.

Fixpoint all_fresh (cfg : Config) (items : list MediaCodec) (i : Z) : list ParsePayloadState :=
  match items with [] => [] | _ :: items => fresh_of cfg i ++ all_fresh cfg items (i + step_of cfg) end.

Fixpoint all_payloads (cfg : Config) (type : MediaType) (items : list MediaCodec) (i : Z) : list ParsePayloadState :=
  match items with
  | [] => []
  | item :: items => payloads_of type cfg item i ++ all_payloads cfg type items (i + step_of cfg)
  end.

Definition last_id (cfg : Config) (items : list MediaCodec) (i : Z) : Z := i + step_of cfg * Z.of_nat (length items).

Lemma all_fresh_seq cfg items : forall i,
  all_fresh cfg items i = map fresh (seqZ i (step_of cfg * Z.of_nat (length items))).
Proof.
  induction items as [|item items IH]; intros i; cbn [all_fresh length].
  { by rewrite Z.mul_0_r. }
  rewrite IH. unfold fresh_of, step_of. rewrite Nat2Z.inj_succ. destruct (enable_rtx cfg).
  - rewrite (seqZ_cons i) by lia. rewrite (seqZ_cons (Z.succ i)) by lia. cbn [map app].
    replace (Z.succ i) with (i + 1) by lia. do 4 f_equal; lia.
  - rewrite (seqZ_cons i) by lia. cbn [map app]. do 3 f_equal; lia.
Qed.

Lemma feeds_codecs `{Inet} p type cfg items : isInMediaSection p = true -> m_mediaType (mediaState p) = Some type ->
  Forall (codec_ok type) items -> forall pre i, before i pre -> 96 <= i -> last_id cfg items i <= 128 ->
  exists text, codecs_lines cfg type items i = Some (text, last_id cfg items i) /\
    feeds (at_ p (pre ++ all_fresh cfg items i)) text (at_ p (pre ++ all_payloads cfg type items i)).
Proof.
  intros Hin Htype Hitems. unfold last_id. induction Hitems as [|item items Hitem H' IH]; intros pre i Hpre Hi Hlast.
  { exists []. cbn [codecs_lines length all_fresh all_payloads]. split; [do 2 f_equal; lia|apply feeds_nil]. }
  cbn [length] in Hlast. rewrite Nat2Z.inj_succ in Hlast.
  assert (1 <= step_of cfg <= 2 /\ (enable_rtx cfg = true -> step_of cfg = 2)) as [Hs Hr]
    by (unfold step_of; by destruct (enable_rtx cfg)).
  assert (Typing.is_payload i) as Hid by (unfold Typing.is_payload; nia).
  assert (enable_rtx cfg = true -> Typing.is_payload (i + 1)) as Hid'.
  { intros Er. specialize (Hr Er). unfold Typing.is_payload. nia. }
  assert (exists name, codec_to_string (codec item) = Some name) as [name Ename].
  { destruct Hitem as [Hty _ _]. destruct (codec item); try (by eexists). by destruct type. }
  assert (exists t, codec_lines cfg type item i = Some t) as [t Et].
  { unfold codec_lines. rewrite Ename. by eexists. }
  destruct (IH (pre ++ payloads_of type cfg item i) (i + step_of cfg)) as (rest & Er & Hf).
  { apply list.Forall_app. split.
    - eapply list.Forall_impl; [exact Hpre|]. intros q Hq. cbv beta in Hq. lia.
    - unfold payloads_of, payload_of, rtx_payload. constructor; [cbn; lia|].
      destruct (enable_rtx cfg) eqn:Ertx; [|constructor]. rewrite (Hr eq_refl). constructor; [cbn; lia|constructor]. }
  { lia. }
  { nia. }
  exists (t ++ rest). split.
  - cbn [codecs_lines]. rewrite Et. cbn [mbind option_bind].
    change (if enable_rtx cfg then 2 else 1) with (step_of cfg).
    rewrite u32_small by (unfold is_u32, Typing.is_payload in *; lia). rewrite Er. cbn [mbind option_bind length].
    do 2 f_equal. lia.
  - cbn [all_fresh all_payloads].
    eapply feeds_app; [by apply (feeds_codec p Hin type Htype cfg pre item i Hpre Hid Hitem _ t Hid' Et)|].
    rewrite !app_assoc in *. exact Hf.
Qed.

(** ** The start of a section *)

Lemma payload_ids_decimals i n : 96 <= i -> i + Z.of_nat n <= 128 ->
  payload_ids (map decimal (seqZ i (Z.of_nat n))) = seqZ i (Z.of_nat n).
Proof.
  revert i. induction n as [|n IH]; intros i Hi Hn; [done|]. rewrite seqZ_cons by lia.
  replace (Z.pred (Z.of_nat (S n))) with (Z.of_nat n) by lia. cbn [map payload_ids].
  rewrite parse_decimal by (unfold is_u32; lia). unfold is_valid_payload_id.
  destruct (Z.leb_spec 96 i), (Z.leb_spec i 127); try lia. cbn [andb]. rewrite IH by lia. done.
Qed.

Definition type_text (type : MediaType) : text := match type with Video => txt "video" | Audio => txt "audio" end.

Definition started (q : SdpAnswerParser.t) (type : MediaType) (ids : list Z) : SdpAnswerParser.t :=
  set_section q true false (hasDataChannel q) (set_type (set_payloads MediaState.make (map fresh ids)) type).

Lemma feeds_start `{Inet} p q type i n : flush_m p = Some (inr q) -> 96 <= i -> i + Z.of_nat n <= 128 -> n <> O ->
  feeds p (ln [txt "m="; type_text type; txt " 9 UDP/TLS/RTP/SAVPF "; list_to_string n i])
    (started q type (seqZ i (Z.of_nat n))).
Proof.
  intros Hq Hi Hn Hn0. set (ids := seqZ i (Z.of_nat n)).
  set (props := txt "9" :: txt "UDP/TLS/RTP/SAVPF" :: map decimal ids).
  assert (exists w ws, map decimal ids = w :: ws) as (w & ws & Ews).
  { unfold ids. rewrite seqZ_cons by lia. cbn [map]. by eexists _, _. }
  assert (concat [txt "m="; type_text type; txt " 9 UDP/TLS/RTP/SAVPF "; list_to_string n i] =
    txt "m=" ++ type_text type ++ 32 :: unwords props) as E.
  { cbn [concat]. rewrite app_nil_r, list_to_string_unwords. fold ids. unfold props. by rewrite Ews. }
  assert (Forall (fun w => word w = true /\ w <> []) props) as Hprops by (repeat constructor; try done; apply decimals).
  unfold ln. rewrite E. apply feeds_line.
  - apply clean_app; [done|]. apply clean_app; [by destruct type|]. apply (unwords_clean props).
    eapply list.Forall_impl; [exact Hprops|]. by intros ? [].
  - done.
  - unfold parseLine. rewrite parse_line_m by (by destruct type).
    rewrite tokens_unwords by (by apply proper_words || lia).
    change (eqb (txt "m") (txt "a")) with false. change (eqb (txt "m") (txt "m")) with true. cbv iota.
    unfold parseLine_m. rewrite Hq. cbn [mbind option_bind]. cbv zeta.
    assert (payload_ids (drop 2 props) = ids) as Hids by (by apply payload_ids_decimals).
    assert (eqb (default [] (props !! 1%nat)) (txt "UDP/TLS/RTP/SAVPF") = true) as -> by done.
    assert ((length props <? 2)%nat = false) as -> by done. cbn [orb negb].
    unfold media_section. rewrite Hids. by destruct type.
Qed.

(** *** What is the same for all sections *)

Section Head.
Context `{Inet} (o : SdpOffer.t) (fp : text) (m : MediaLine).
Context (Hfp : word fp = true /\ fp <> []) (Hufrag : word (mIceUfrag o) = true) (Hpwd : word (mIcePassword o) = true).
Context (Hid : word (id m) = true /\ id m <> []).

(** The parser after the fingerprint and the passwords. *)
Definition secured (p : SdpAnswerParser.t) : SdpAnswerParser.t :=
  let p := set_hash p (txt "sha-256") (Hex.hex_to_bin fp) fp in
  let p := set_ice p (mIceUfrag o) (icePassword p) in
  set_ice p (iceUFrag p) (mIcePassword o).

Lemma feeds_secured p : feeds p
  (ln [txt "a=fingerprint:sha-256 "; fp] ++ ln [txt "a=ice-ufrag:"; mIceUfrag o] ++ ln [txt "a=ice-pwd:"; mIcePassword o] ++
   ln [txt "a=setup:actpass"]) (secured p).
Proof using Hfp Hufrag Hpwd.
  destruct Hfp as [Hw Hne]. split_lines.
  - apply (feeds_ln_words _ _ (txt "fingerprint") (txt "sha-256") [fp]); [|done|done|by apply word_clean| |].
    + cbn [concat]. by rewrite app_nil_r.
    + cbn [proper]. by rewrite Hw, bool_decide_false.
    + unfold parseLine_a, parse_fingerprint. keys. reflexivity.
  - apply (feeds_ln_value _ _ (txt "ice-ufrag") (mIceUfrag o)); [|done|done|].
    + cbn [concat]. by rewrite app_nil_r.
    + unfold parseLine_a. keys. reflexivity.
  - apply (feeds_ln_value _ _ (txt "ice-pwd") (mIcePassword o)); [|done|done|].
    + cbn [concat]. by rewrite app_nil_r.
    + unfold parseLine_a. keys. reflexivity.
  - apply (feeds_literal _ "a=setup:actpass" (txt "setup") (txt "actpass") []); [done|done|].
    unfold parseLine_a. keys. reflexivity.
Qed.

Definition named (p : SdpAnswerParser.t) : SdpAnswerParser.t :=
  let p := set_media p (set_mediaId (mediaState p) (id m)) in
  let p := set_flags p true (isSetupActive p) in
  if enable_abs_capture_time (mConfig o) then set_media p (add_extension (mediaState p) 12 (txt kExtAbsCaptureTime)) else p.

Lemma feeds_named p : isInMediaSection p = true -> feeds p
  (ln [txt "a=mid:"; id m] ++
   ln [match mDirection o with Publish => txt "a=sendonly" | Subscribe => txt "a=recvonly" end] ++
   ln [txt "a=rtcp-mux"] ++ ln [txt "a=rtcp-rsize"] ++
   (if enable_abs_capture_time (mConfig o) then ln [txt "a=extmap:12 "; txt kExtAbsCaptureTime] else [])) (named p).
Proof using Hid.
  intros Hin. destruct Hid as [Hw Hne]. unfold named. split_lines.
  - apply (feeds_ln_value _ _ (txt "mid") (id m)); [|done|done|by rewrite a_mid].
    cbn [concat]. by rewrite app_nil_r.
  - destruct (mDirection o).
    + apply (feeds_literal _ "a=sendonly" (txt "sendonly") [] []); [done|done|by apply unknown_attr].
    + apply (feeds_literal _ "a=recvonly" (txt "recvonly") [] []); [done|done|by apply unknown_attr].
  - apply (feeds_literal _ "a=rtcp-mux" (txt "rtcp-mux") [] []); [done|done|]. unfold parseLine_a. keys. reflexivity.
  - apply (feeds_literal _ "a=rtcp-rsize" (txt "rtcp-rsize") [] []); [done|done|by apply unknown_attr].
  - destruct (enable_abs_capture_time (mConfig o)); [|apply feeds_nil].
    apply (feeds_ln_words _ _ (txt "extmap") (txt "12") [txt kExtAbsCaptureTime]); [done|done|done|done|done|].
    by rewrite a_extmap.
Qed.

Definition opened (q : SdpAnswerParser.t) (ids : list Z) : SdpAnswerParser.t := named (secured (started q (mediaType m) ids)).

Lemma feeds_head p q i : flush_m p = Some (inr q) -> codec_list m <> [] -> 96 <= i ->
  last_id (mConfig o) (codec_list m) i <= 128 ->
  feeds p (media_head fp o m i) (opened q (seqZ i (step_of (mConfig o) * Z.of_nat (length (codec_list m))))).
Proof using Hfp Hufrag Hpwd Hid.
  intros Hq Hne Hi Hlast. unfold last_id in Hlast. unfold media_head.
  set (n := if enable_rtx (mConfig o) then (length (codec_list m) * 2)%nat else length (codec_list m)).
  assert (step_of (mConfig o) * Z.of_nat (length (codec_list m)) = Z.of_nat n) as E.
  { unfold n, step_of. destruct (enable_rtx (mConfig o)); lia. }
  assert (n <> O) by (unfold n; destruct (codec_list m); [done|]; destruct (enable_rtx (mConfig o)); cbn; lia).
  rewrite E in *. set (r := started q (mediaType m) (seqZ i (Z.of_nat n))).
  assert (isInMediaSection r = true) as Hin by done.
  eapply feeds_app; [apply (feeds_start p q (mediaType m) i n Hq Hi Hlast); done|]. fold r.
  eapply feeds_app; [apply (feeds_other r (txt "c=IN IP4 0.0.0.0") (mkLine (txt "c") (txt "IN") [] [txt "IP4"; txt "0.0.0.0"])); done|].
  eapply feeds_app.
  { apply (feeds_literal r "a=rtcp:9 IN IP4 0.0.0.0" (txt "rtcp") (txt "9") [txt "IN"; txt "IP4"; txt "0.0.0.0"]); [done|done|].
    by apply unknown_attr. }
  eapply feeds_app.
  { apply (feeds_literal r "a=rtcp-xr:rcvr-rtt=all" (txt "rtcp-xr") (txt "rcvr-rtt=all") []); [done|done|]. by apply unknown_attr. }
  pose proof (feeds_app _ _ _ _ _ (feeds_secured r) (feeds_named (secured r) Hin)) as Hf.
  rewrite <- !app_assoc in Hf. exact Hf.
Qed.

End Head.

(** ** The streams of a section *)

Lemma parse_ssrc_decimal m s : is_u32 s ->
  parse_ssrc m (decimal s) = if existsb (Z.eqb s) (ssrcList m) then m else add_ssrc m s.
Proof. intros Hs. unfold parse_ssrc. by rewrite parse_decimal. Qed.

Lemma parse_ssrc_twice m s : is_u32 s -> parse_ssrc (parse_ssrc m (decimal s)) (decimal s) = parse_ssrc m (decimal s).
Proof.
  intros Hs. rewrite !parse_ssrc_decimal by done. destruct (existsb (Z.eqb s) (ssrcList m)) eqn:E; [by rewrite E|].
  cbn [add_ssrc ssrcList]. rewrite existsb_app. cbn [existsb]. by rewrite Z.eqb_refl, orb_true_r.
Qed.

Section Streams.
Context `{Inet} (cfg : Config) (Hcname : clean (cname cfg) = true).

Lemma feeds_ssrc p s msid : isInMediaSection p = true -> is_u32 s -> clean msid = true ->
  feeds p (ssrc_lines cfg s msid) (set_media p (parse_ssrc (mediaState p) (decimal s))).
Proof using Hcname.
  intros Hin Hs Hmsid. unfold ssrc_lines. eapply feeds_app.
  - apply (feeds_ln_attr _ _ (txt "ssrc") (decimal s) (txt "cname:" ++ cname cfg)).
    + cbn [concat]. by rewrite app_nil_r.
    + done.
    + apply decimal_word.
    + by apply clean_app.
    + by rewrite a_ssrc.
  - apply (feeds_ln_attr _ _ (txt "ssrc") (decimal s) (txt "msid:" ++ cname cfg ++ txt " " ++ msid)).
    + cbn [concat]. by rewrite app_nil_r.
    + done.
    + apply decimal_word.
    + by repeat apply clean_app.
    + rewrite a_ssrc by done. cbn [set_media set_section mediaState].
      by rewrite parse_ssrc_twice.
Qed.

(** The parser after a stream, with that of its retransmissions. *)
Definition streamed (p : SdpAnswerParser.t) (s r : Z) : SdpAnswerParser.t :=
  let p := set_media p (parse_ssrc (mediaState p) (decimal s)) in
  if enable_rtx cfg then
    let p := set_media p (parse_ssrc (mediaState p) (decimal r)) in set_media p (set_ssrc (mediaState p) s r)
  else p.

Lemma feeds_group p s r : isInMediaSection p = true -> is_u32 s -> is_u32 r ->
  feeds p (ln [txt "a=ssrc-group:FID "; decimal s; txt " "; decimal r]) (set_media p (set_ssrc (mediaState p) s r)).
Proof.
  intros Hin Hs Hr. apply (feeds_ln_words _ _ (txt "ssrc-group") (txt "FID") [decimal s; decimal r]).
  - cbn [concat unwords]. by rewrite app_nil_r.
  - done.
  - done.
  - apply (unwords_clean [decimal s; decimal r]). repeat constructor; apply decimal_word.
  - cbn [proper]. by rewrite !decimal_word, bool_decide_false by apply decimal_nonempty.
  - rewrite a_ssrc_group by done. unfold parse_ssrc_group. keys. by rewrite !parse_decimal.
Qed.

Context (rnd : nat -> Z) (Hrnd : forall n, 0 <= rnd n <= 0x7ffffffe).

Lemma draw_range n : 0 < (draw_ssrc rnd n).1 < 2 ^ 31.
Proof using Hrnd. unfold draw_ssrc. cbn [fst]. specialize (Hrnd n). rewrite u32_small by (unfold is_u32; lia). lia. Qed.

Lemma feeds_stream p msid drawn : isInMediaSection p = true -> clean msid = true ->
  exists text s r drawn', stream_lines rnd cfg msid drawn = (text, s, r, drawn') /\
    0 < s < 2 ^ 31 /\ (if enable_rtx cfg then 0 < r < 2 ^ 31 else r = 0) /\
    feeds p text (streamed p s r).
Proof using Hcname Hrnd.
  intros Hin Hmsid. unfold stream_lines, streamed. pose proof (draw_range drawn) as Hs.
  destruct (draw_ssrc rnd drawn) as [s d1]. cbn [fst] in Hs.
  assert (is_u32 s) as Hs' by (unfold is_u32; lia).
  destruct (enable_rtx cfg).
  - pose proof (draw_range d1) as Hr. destruct (draw_ssrc rnd d1) as [r d2]. cbn [fst] in Hr.
    assert (is_u32 r) as Hr' by (unfold is_u32; lia).
    eexists _, s, r, d2. split_and!; [done|lia|lia|lia|lia|].
    eapply feeds_app; [by apply feeds_ssrc|]. eapply feeds_app; [by apply feeds_ssrc|]. by apply feeds_group.
  - eexists _, s, 0, d1. split_and!; [done|lia|lia|lia|]. by apply feeds_ssrc.
Qed.

End Streams.

(** *** Random texts *)

Lemma random_word rnd len : forall drawn, word (generateRandomString rnd len drawn).1 = true.
Proof.
  induction len as [|len IH]; intros drawn; [done|]. cbn [generateRandomString].
  specialize (IH (S drawn)). destruct (generateRandomString rnd len (S drawn)) as [res d]. cbn [fst] in *.
  unfold word in *. cbn [forallb]. rewrite IH, andb_true_r.
  set (alphabet := txt "abcdefghijklmnopqrstuvwxyz0123456789").
  destruct (alphabet !! Z.to_nat (rnd drawn mod 36)) as [c|] eqn:E; [|done]. cbn [default from_option Datatypes.id].
  assert (word alphabet = true) as Ha by done. unfold word in Ha. rewrite forallb_forall in Ha. apply Ha.
  by apply list_elem_of_In, (list_elem_of_lookup_2 _ (Z.to_nat (rnd drawn mod 36))).
Qed.

Lemma nibble_clean x : word [nibble (Z.land x 0x0F)] = true.
Proof. apply plain_word. constructor; [|constructor]. apply nibble_plain, Fingerprints.nibble_range. Qed.

Lemma uuid_clean rnd n : forall i drawn, clean (uuid_loop rnd n i drawn).1 = true.
Proof.
  induction n as [|n IH]; intros i drawn; [done|]. cbn [uuid_loop]. specialize (IH (S i) (S (S drawn))).
  destruct (uuid_loop rnd n (S i) (S (S drawn))) as [res d]. cbn [fst] in *.
  apply clean_app; [by destruct (bool_decide _)|].
  apply (clean_app [nibble (Z.land (rnd drawn) 0x0F)]); [apply word_clean, nibble_clean|].
  apply (clean_app [nibble (Z.land (rnd (S drawn)) 0x0F)]); [apply word_clean, nibble_clean|done].
Qed.

End Attributes.
