(* ===== verification/SdpLoop.v ===== *)
(** * SdpLoop: what an offer says is what the answer's parser understands

    The text of [SdpOffer.generate], read by [SdpAnswer.parse]: the tracks, the
    SSRCs, the fingerprint and the passwords of the one are those of the other. *)

From stdpp Require Import strings.
From S2P Require Import Prelude Bytes Extension Tracks ExtensionSources SdpText SdpOffer SdpAnswer SdpProps SdpFeed.
Open Scope Z_scope.
Import RtpStandardExtensions Text Lines Numbers Numerals Words.

(** ** Sections and tracks *)

Module Negotiation.
Import MediaState SdpAnswerParser Feeding Attributes.

Section Tracks.
Context `{Inet} (cfg : Config) (bwe : bool) (d : Direction).

(** The extensions of a section. *)
Definition extensions : ExtensionMap.t :=
  ExtensionMap.mk ((if enable_abs_capture_time cfg then [ExtensionMap.mkEntry 12 kExtAbsCaptureTime] else []) ++
                   (if bwe then [ExtensionMap.mkEntry 14 kExtGoogleTWCC] else [])) 0 "".

Definition medium_of (m : MediaLine) : Media.t := Media.mk (id m) (mediaType m) extensions.

(** The track of a codec with a payload id, of a medium with its SSRCs. *)
Definition track_for (m : MediaLine) (g : MediaLineGenerated) (item : MediaCodec) (i : Z) : Track.t :=
  let retransmits := enable_rtx cfg in
  Track.mk (medium_of m) d (ssrc g) i (if retransmits then rtx g else 0) (if retransmits then i + 1 else 0) (codec item)
    (options_of item) None (clock_rate (codec item)) true (bool_decide (mediaType m = Video)).

Fixpoint tracks_for (m : MediaLine) (g : MediaLineGenerated) (items : list MediaCodec) (i : Z) : list Track.t :=
  match items with
  | [] => []
  | item :: items => track_for m g item i :: tracks_for m g items (i + step_of cfg)
  end.

(** The state of a section at its end. *)
Definition section_of (m : MediaLine) (s r : Z) (ssrcs : list Z) (i : Z) : ParseMediaState :=
  mkMedia (Some (mediaType m)) (id m) extensions [] [] (all_payloads cfg (mediaType m) (codec_list m) i)
    (if enable_rtx cfg then s else 0) (if enable_rtx cfg then r else 0) ssrcs.

Lemma tracks_of_payloads m g st items : layerList st = [] -> rtxSsrc st = (if enable_rtx cfg then rtx g else 0) ->
  Forall (codec_ok (mediaType m)) items -> forall i, 96 <= i ->
  omap (track_of st d (medium_of m) (ssrc g)) (all_payloads cfg (mediaType m) items i) = tracks_for m g items i.
Proof.
  intros Hl Hr Hitems. induction Hitems as [|item items Hitem Hitems IH]; intros i Hi; [done|].
  cbn [all_payloads tracks_for]. rewrite omap_app. rewrite IH by (unfold step_of; destruct (enable_rtx cfg); lia).
  assert (track_of st d (medium_of m) (ssrc g) (payload_of cfg (mediaType m) item i) = Some (track_for m g item i)) as E.
  { unfold track_of, payload_of, track_for. cbn [p_codec payloadId rtxPayloadId codecOptions clockRate hasNack hasPli].
    assert (codec item <> Rtx) by (destruct Hitem as [Ht _ _]; intros E; rewrite E in Ht; by destruct (mediaType m)).
    rewrite Hl, Hr, bool_decide_true by done. destruct (Z.ltb_spec 0 i); [|lia]. cbn [andb].
    assert ((if negb ((if enable_rtx cfg then i + 1 else 0) =? 0) then if enable_rtx cfg then rtx g else 0 else 0) =
            if enable_rtx cfg then rtx g else 0) as ->.
    { destruct (enable_rtx cfg); [|done]. by destruct (Z.eqb_spec (i + 1) 0); [lia|]. }
    by destruct (codec item). }
  unfold payloads_of. cbn [omap list_omap]. rewrite E. by destruct (enable_rtx cfg).
Qed.

End Tracks.

(** What is selected of the tracks. *)
Definition selected (sel : option TrackSelector) (l : list Track.t) : option Track.t :=
  match sel with None => head l | Some select => select l end.

Lemma selected_some sel l : lawful sel -> l <> [] -> exists t, selected sel l = Some t.
Proof.
  intros Hsel Hl. destruct sel as [select|]; [by apply (selects_some (Selector := Hsel))|].
  destruct l as [|t l]; [done|by exists t].
Qed.

(** The track of a section from those of its codecs. *)
Lemma selectTrack_tracks st d media sel l : m_mediaId st <> [] -> m_mediaType st <> None ->
  (d = Subscribe -> 0 < ssrcMedia st d) -> l <> [] ->
  omap (track_of st d media (ssrcMedia st d)) (payloadStateList st) = l ->
  MediaState.selectTrack st d media sel = (t ← selected sel l; Some (Some t)).
Proof.
  intros Hid Ht Hs Hne El. unfold MediaState.selectTrack. rewrite !bool_decide_false by done. cbv zeta.
  rewrite El. assert ((match d with Subscribe => true | Publish => false end && (ssrcMedia st d <=? 0)) = false) as ->.
  { destruct d; [done|]. specialize (Hs eq_refl). cbn [andb]. lia. }
  destruct l as [|t l]; [done|]. by destruct sel.
Qed.

Lemma tracks_for_nonempty cfg bwe d m g items i : items <> [] -> tracks_for cfg bwe d m g items i <> [].
Proof. by destruct items. Qed.

(** The parser at the end of a section, and after it. *)
Lemma flush_section cfg bwe p m g ssrcs i sel track :
  isInMediaSection p = true -> mediaState p = section_of cfg bwe m (ssrc g) (rtx g) ssrcs i -> selector p = sel ->
  head ssrcs = Some (ssrc g) -> 0 < ssrc g -> (enable_rtx cfg = false -> rtx g = 0) ->
  (direction p = Publish -> getMediaSSRC (offer p) (id m) = Some (ssrc g, rtx g)) ->
  id m <> [] -> codec_list m <> [] -> Forall (codec_ok (mediaType m)) (codec_list m) -> 96 <= i ->
  selected sel (tracks_for cfg bwe (direction p) m g (codec_list m) i) = Some track ->
  exists st, flush_m p = Some (inr (add_media p st (medium_of cfg bwe m) [track])).
Proof.
  intros Hin Hst <- Hhead Hs Hr Hpub Hid Hne Hitems Hi Ht. unfold flush_m. rewrite Hin, Hst. cbn [negb].
  rewrite !bool_decide_false by done.
  set (st := match direction p with Publish => set_ssrc (section_of cfg bwe m (ssrc g) (rtx g) ssrcs i) (ssrc g) (rtx g)
             | Subscribe => section_of cfg bwe m (ssrc g) (rtx g) ssrcs i end).
  assert ((match direction p with
           | Publish => '(media, r) ← getMediaSSRC (offer p) (m_mediaId (section_of cfg bwe m (ssrc g) (rtx g) ssrcs i));
                        Some (set_ssrc (section_of cfg bwe m (ssrc g) (rtx g) ssrcs i) media r)
           | Subscribe => Some (section_of cfg bwe m (ssrc g) (rtx g) ssrcs i)
           end) = Some st) as ->.
  { unfold st. destruct (direction p); [|done]. cbn [section_of m_mediaId]. by rewrite Hpub. }
  cbn [mbind option_bind].
  assert (createMedia st = Some (medium_of cfg bwe m)) as -> by (unfold st; by destruct (direction p)).
  cbn [mbind option_bind].
  assert (ssrcMedia st (direction p) = ssrc g) as Essrc.
  { unfold st, ssrcMedia. destruct (direction p); [done|]. cbn [section_of m_ssrc ssrcList]. rewrite Hhead.
    destruct (enable_rtx cfg); [|done]. by destruct (Z.eqb_spec (ssrc g) 0); [lia|]. }
  rewrite (selectTrack_tracks st (direction p) (medium_of cfg bwe m) (selector p)
             (tracks_for cfg bwe (direction p) m g (codec_list m) i)).
  - rewrite Ht. cbn [mbind option_bind].
    assert (layerList st = []) as -> by (unfold st; by destruct (direction p)).
    rewrite bool_decide_true by done. cbn [mbind option_bind]. by eexists.
  - unfold st. by destruct (direction p).
  - unfold st. by destruct (direction p).
  - intros _. by rewrite Essrc.
  - by apply tracks_for_nonempty.
  - rewrite Essrc. assert (payloadStateList st = all_payloads cfg (mediaType m) (codec_list m) i) as ->
      by (unfold st; by destruct (direction p)).
    apply tracks_of_payloads; [unfold st; by destruct (direction p)| |done|done].
    unfold st. destruct (direction p); cbn [set_ssrc section_of rtxSsrc]; destruct (enable_rtx cfg); auto.
Qed.

(** ** A section from its start to its end *)

(** What an offer may hold: names of one word, and codecs of the medium's type. *)
Record line_ok (d : Direction) (m : MediaLine) : Prop := {
  lo_id : word (id m) = true /\ id m <> [];
  lo_codecs : codec_list m <> [] /\ Forall (codec_ok (mediaType m)) (codec_list m);
  lo_layers : layer_list m = [] \/ d = Subscribe
}.

Record offer_ok (o : SdpOffer.t) : Prop := {
  oo_ufrag : word (mIceUfrag o) = true;
  oo_password : word (mIcePassword o) = true;
  oo_cname : clean (cname (mConfig o)) = true
}.

(** Congestion control is offered, or always asked for. *)
Definition bwe_of (o : SdpOffer.t) : bool :=
  enable_bwe (mConfig o) || match mDirection o with Subscribe => true | Publish => false end.

Definition with_twcc (b : bool) (p : SdpAnswerParser.t) : SdpAnswerParser.t :=
  if b then set_media p (add_extension (mediaState p) 14 (txt kExtGoogleTWCC)) else p.

(** The parser at the end of a section that starts after [q]. *)
Definition ended (o : SdpOffer.t) (fp : text) (m : MediaLine) (q : SdpAnswerParser.t) (i s r : Z) : SdpAnswerParser.t :=
  let cfg := mConfig o in
  let ids := seqZ i (step_of cfg * Z.of_nat (length (codec_list m))) in
  streamed cfg (with_twcc (bwe_of o) (at_ (opened o fp m q ids) (all_payloads cfg (mediaType m) (codec_list m) i))) s r.

(** What the parser has seen of the offer outside of the sections. *)
Record secured_by (ufrag password fp : text) (p : SdpAnswerParser.t) : Prop := {
  sb_mux : isRtcpMux p = true;
  sb_ufrag : iceUFrag p = ufrag;
  sb_password : icePassword p = password;
  sb_hash : certHashAlg p = txt "sha-256" /\ certHashBin p = Hex.hex_to_bin fp /\ certHashHex p = fp
}.

(** What the lines of a section leave as it is. *)
Definition outside (p : SdpAnswerParser.t) :=
  (offer p, direction p, selector p, trackList p, hostList p, hasDataChannel p, isInMediaSection p,
   (isRtcpMux p, iceUFrag p, icePassword p, certHashAlg p, certHashBin p, certHashHex p)).

Lemma outside_media p m : outside (set_media p m) = outside p.
Proof. done. Qed.

Lemma outside_ended o fp m q i s r :
  outside (ended o fp m q i s r) =
  (offer q, direction q, selector q, trackList q, hostList q, hasDataChannel q, true,
   (true, mIceUfrag o, mIcePassword o, txt "sha-256", Hex.hex_to_bin fp, fp)).
Proof.
  unfold ended. set (ids := seqZ i _).
  assert (forall p, outside (streamed (mConfig o) p s r) = outside p) as ->.
  { intros p. unfold streamed. by destruct (enable_rtx (mConfig o)). }
  assert (forall p, outside (with_twcc (bwe_of o) p) = outside p) as ->.
  { intros p. unfold with_twcc. by destruct (bwe_of o). }
  unfold at_. rewrite outside_media. unfold opened, named.
  by destruct (enable_abs_capture_time (mConfig o)).
Qed.

Lemma ended_fields o fp m q i s r :
  let p := ended o fp m q i s r in
  isInMediaSection p = true /\ offer p = offer q /\ direction p = direction q /\ selector p = selector q /\
  trackList p = trackList q /\ hostList p = hostList q /\ hasDataChannel p = hasDataChannel q /\ secured_by (mIceUfrag o) (mIcePassword o) fp p.
Proof.
  pose proof (outside_ended o fp m q i s r) as E. cbv zeta. set (p := ended _ _ _ _ _ _ _) in *. clearbody p.
  unfold outside in E. injection E as E1 E2 E3 E4 E5 E6 E7 E8 E9 E10 E11 E12 E13.
  do 7 (split; [done|]). by constructor.
Qed.

(** The states of a section, from the one that the lines before have left. *)
Definition streamed_state (cfg : Config) (m : ParseMediaState) (s r : Z) : ParseMediaState :=
  let m := parse_ssrc m (decimal s) in
  if enable_rtx cfg then set_ssrc (parse_ssrc m (decimal r)) s r else m.

Lemma ended_state_step o fp m q i s r :
  mediaState (ended o fp m q i s r) =
  streamed_state (mConfig o)
    (mkMedia (Some (mediaType m)) (id m) (extensions (mConfig o) (bwe_of o)) [] []
       (all_payloads (mConfig o) (mediaType m) (codec_list m) i) 0 0 []) s r.
Proof.
  unfold ended. set (ids := seqZ i _). set (l := all_payloads _ _ _ _).
  assert (forall p, mediaState (streamed (mConfig o) p s r) = streamed_state (mConfig o) (mediaState p) s r) as ->.
  { intros p. unfold streamed, streamed_state. by destruct (enable_rtx (mConfig o)). }
  f_equal. unfold extensions.
  assert (mediaState (at_ (opened o fp m q ids) l) =
    mkMedia (Some (mediaType m)) (id m)
      (ExtensionMap.mk (if enable_abs_capture_time (mConfig o) then [ExtensionMap.mkEntry 12 kExtAbsCaptureTime] else []) 0 "")
      [] [] l 0 0 []) as E.
  { unfold at_, opened, named. by destruct (enable_abs_capture_time (mConfig o)). }
  unfold with_twcc. destruct (bwe_of o); [|by rewrite app_nil_r].
  change (mediaState (set_media ?p ?m)) with m. rewrite E. unfold add_extension. cbn [extensionMap m_mediaType m_mediaId ridList
    layerList payloadStateList m_ssrc rtxSsrc ssrcList ExtensionMap.add ExtensionMap.mEntryList]. done.
Qed.

Lemma ended_state o fp m q i s r : is_u32 s -> is_u32 r -> (enable_rtx (mConfig o) = false -> r = 0) ->
  exists ssrcs, head ssrcs = Some s /\
    mediaState (ended o fp m q i s r) = section_of (mConfig o) (bwe_of o) m s r ssrcs i.
Proof.
  intros Hs Hr Hr0. rewrite ended_state_step. unfold streamed_state, section_of.
  rewrite (parse_ssrc_decimal _ s) by done. cbn [existsb ssrcList].
  destruct (enable_rtx (mConfig o)); [|by exists [s]].
  rewrite (parse_ssrc_decimal _ r) by done. cbn [existsb add_ssrc ssrcList app]. rewrite orb_false_r.
  destruct (r =? s); [by exists [s]|by exists [s; r]].
Qed.

Lemma at_same p l : payloadStateList (mediaState p) = l -> at_ p l = p.
Proof.
  intros <-. unfold at_.
  assert (set_payloads (mediaState p) (payloadStateList (mediaState p)) = mediaState p) as -> by (by destruct (mediaState p)).
  apply set_media_same.
Qed.

Lemma opened_payloads o fp m q i :
  let cfg := mConfig o in
  payloadStateList (mediaState (opened o fp m q (seqZ i (step_of cfg * Z.of_nat (length (codec_list m)))))) =
  all_fresh cfg (codec_list m) i.
Proof.
  cbv zeta. rewrite all_fresh_seq. unfold opened, named, secured, started. by destruct (enable_abs_capture_time (mConfig o)).
Qed.

Section Loop.
Context `{Inet} (rnd : nat -> Z) (Hrnd : forall n, 0 <= rnd n <= 0x7ffffffe).
Context (fp : text) (Hfp : word fp = true /\ fp <> []).

Lemma feeds_section o m i drawn control : offer_ok o -> line_ok (mDirection o) m -> 96 <= i ->
  last_id (mConfig o) (codec_list m) i <= 128 ->
  exists codecs streams g drawn' control',
    codecs_lines (mConfig o) (mediaType m) (codec_list m) i = Some (codecs, last_id (mConfig o) (codec_list m) i) /\
    streams_lines rnd o m drawn control = (streams, g, drawn', control') /\
    mediaId g = id m /\ 0 < ssrc g < 2 ^ 31 /\ (if enable_rtx (mConfig o) then 0 < rtx g < 2 ^ 31 else rtx g = 0) /\
    forall p q, flush_m p = Some (inr q) ->
      feeds p (media_head fp o m i ++ codecs ++ streams) (ended o fp m q i (ssrc g) (rtx g)).
Proof using Hrnd Hfp.
  intros [Hufrag Hpwd Hcname] [Hid [Hne Hitems] Hlayers] Hi Hlast. set (cfg := mConfig o) in *.
  (* the codecs do not depend on the parser: any one will do for their text *)
  assert (exists codecs, codecs_lines cfg (mediaType m) (codec_list m) i = Some (codecs, last_id cfg (codec_list m) i)) as
    [codecs Ec].
  { destruct (feeds_codecs (started (SdpAnswerParser.make o None) (mediaType m) []) (mediaType m) cfg (codec_list m)
      eq_refl eq_refl Hitems [] i (Forall_nil_2 _) Hi Hlast) as (codecs & E & _). by exists codecs. }
  unfold streams_lines. fold cfg.
  pose proof (uuid_clean rnd 16 0 drawn) as Hmsid. unfold generateRandomUUID.
  destruct (uuid_loop rnd 16 0 drawn) as [msid drawn1]. cbn [fst] in Hmsid.
  assert (bool_decide (layer_list m = []) || match mDirection o with Subscribe => true | Publish => false end = true) as ->.
  { destruct Hlayers as [->| ->]; [done|apply orb_true_r]. }
  assert (exists text s r drawn', stream_lines rnd cfg msid drawn1 = (text, s, r, drawn') /\
    0 < s < 2 ^ 31 /\ (if enable_rtx cfg then 0 < r < 2 ^ 31 else r = 0) /\
    forall p, isInMediaSection p = true -> feeds p text (streamed cfg p s r)) as (text & s & r & drawn' & E & Hs & Hr & Hf).
  { destruct (feeds_stream cfg Hcname rnd Hrnd (started (SdpAnswerParser.make o None) Video []) msid drawn1 eq_refl Hmsid)
      as (text & s & r & drawn' & E & Hs & Hr & _). exists text, s, r, drawn'. do 3 (split; [done|]). intros p Hin.
    destruct (feeds_stream cfg Hcname rnd Hrnd p msid drawn1 Hin Hmsid) as (text' & s' & r' & d' & E' & _ & _ & Hf).
    rewrite E in E'. by injection E' as <- <- <- <-. }
  rewrite E. eexists codecs, _, (mkMediaLineGenerated (id m) (mediaType m) s r []), _, _.
  split_and!; [done|done|done|apply Hs|apply Hs|done|]. intros p q Hq. cbn [ssrc rtx].
  unfold ended. fold cfg. set (ids := seqZ i _).
  eapply feeds_app; [by apply (feeds_head o fp m Hfp Hufrag Hpwd Hid p q i Hq Hne Hi Hlast)|]. fold cfg ids.
  assert (isInMediaSection (opened o fp m q ids) = true /\ m_mediaType (mediaState (opened o fp m q ids)) = Some (mediaType m))
    as [Hin Htype] by (unfold opened, named; by destruct (enable_abs_capture_time (mConfig o))).
  destruct (feeds_codecs (opened o fp m q ids) (mediaType m) cfg (codec_list m) Hin Htype Hitems [] i (Forall_nil_2 _) Hi Hlast)
    as (codecs' & Ec' & Hcodecs). rewrite Ec in Ec'. apply (inj Some) in Ec'. injection Ec' as <-.
  cbn [app] in Hcodecs. rewrite at_same in Hcodecs by apply opened_payloads.
  eapply feeds_app; [exact Hcodecs|].
  eapply feeds_app; [|apply Hf; unfold with_twcc; by destruct (bwe_of o)].
  unfold with_twcc, bwe_of. fold cfg. destruct (enable_bwe cfg || _); [|apply feeds_nil].
  apply (feeds_ln_words _ _ (txt "extmap") (txt "14") [txt kExtGoogleTWCC]); [done|done|done|done|done|].
  by rewrite a_extmap.
Qed.

(** ** All sections *)

Context (Q : SdpOffer.t) (sel : option TrackSelector) (Hsel : lawful sel).

(** The tracks that the parser makes of the media of an offer. *)
Fixpoint understood (cfg : Config) (bwe : bool) (l : list MediaLine) (gens : list MediaLineGenerated) (i : Z)
  : option (list Track.t) :=
  match l, gens with
  | m :: l, g :: gens =>
      t ← selected sel (tracks_for cfg bwe (getDirection Q) m g (codec_list m) i);
      ts ← understood cfg bwe l gens (last_id cfg (codec_list m) i);
      Some (t :: ts)
  | _, _ => Some []
  end.

(** The payload id behind the last section. *)
Fixpoint last_of (cfg : Config) (l : list MediaLine) (i : Z) : Z :=
  match l with [] => i | m :: l => last_of cfg l (last_id cfg (codec_list m) i) end.

Lemma last_of_ge cfg l : forall i, i <= last_of cfg l i.
Proof.
  induction l as [|m l IH]; intros i; cbn [last_of]; [lia|]. specialize (IH (last_id cfg (codec_list m) i)).
  unfold last_id, step_of in *. destruct (enable_rtx cfg); lia.
Qed.

(** The parser between two sections, with the tracks so far. *)
Record base (ufrag password : text) (p : SdpAnswerParser.t) (ts : list Track.t) : Prop := {
  b_offer : offer p = Q;
  b_direction : direction p = getDirection Q;
  b_selector : selector p = sel;
  b_tracks : trackList p = ts;
  b_hosts : hostList p = [];
  b_data : hasDataChannel p = false;
  b_media : hasMedia p = negb (bool_decide (ts = []));
  b_secured : ts <> [] -> secured_by ufrag password fp p
}.

(** When the parser's offer publishes, it knows the SSRCs. *)
Definition known (gens : list MediaLineGenerated) : Prop :=
  getDirection Q = Publish -> Forall (fun g => getMediaSSRC Q (mediaId g) = Some (ssrc g, rtx g)) gens.

Definition generated_ok (cfg : Config) (m : MediaLine) (g : MediaLineGenerated) : Prop :=
  mediaId g = id m /\ 0 < ssrc g < 2 ^ 31 /\ (if enable_rtx cfg then 0 < rtx g < 2 ^ 31 else rtx g = 0).

Lemma ended_base o m g q i ts : base (mIceUfrag o) (mIcePassword o) q ts -> line_ok (mDirection o) m -> generated_ok (mConfig o) m g -> 96 <= i ->
  known [g] ->
  exists t q', selected sel (tracks_for (mConfig o) (bwe_of o) (getDirection Q) m g (codec_list m) i) = Some t /\
    flush_m (ended o fp m q i (ssrc g) (rtx g)) = Some (inr q') /\ base (mIceUfrag o) (mIcePassword o) q' (ts ++ [t]).
Proof using Hsel.
  intros [Bo Bd Bs Bt Bh Bda Bm Bsec] [[_ Hid] [Hne Hitems] _] (Egid & Hs & Hr) Hi Hknown.
  destruct (selected_some sel (tracks_for (mConfig o) (bwe_of o) (getDirection Q) m g (codec_list m) i) Hsel)
    as [t Et]; [by apply tracks_for_nonempty|].
  destruct (ended_fields o fp m q i (ssrc g) (rtx g)) as (E1 & E2 & E3 & E4 & E5 & E6 & E7 & E8).
  assert (enable_rtx (mConfig o) = false -> rtx g = 0) as Hr0 by (intros E; by rewrite E in Hr).
  destruct (ended_state o fp m q i (ssrc g) (rtx g)) as (ssrcs & Hhead & Est); [unfold is_u32; lia| |done|].
  { unfold is_u32. destruct (enable_rtx (mConfig o)); lia. }
  rewrite Bo in E2. rewrite Bd in E3. rewrite Bs in E4. set (p := ended _ _ _ _ _ _ _) in *.
  destruct (flush_section (mConfig o) (bwe_of o) p m g ssrcs i sel t) as (st & Ef); try done.
  - lia.
  - rewrite E3, E2. intros Hp. specialize (Hknown Hp). apply list.Forall_cons in Hknown as [Hknown _].
    by rewrite Egid in Hknown.
  - by rewrite E3.
  - exists t, (add_media p st (medium_of (mConfig o) (bwe_of o) m) [t]). split; [done|]. split; [exact Ef|].
    constructor; cbn [add_media offer direction selector trackList hostList hasDataChannel hasMedia]; try congruence.
    + by rewrite bool_decide_false by (by destruct ts).
    + intros _. destruct E8. by constructor.
Qed.

Lemma loop_understood l : forall i o, offer_ok o -> Forall (line_ok (mDirection o)) l -> 96 <= i -> last_of (mConfig o) l i <= 128 ->
  exists text gens drawn control,
    media_loop rnd fp l i o =
    Some (inr text, SdpOffer.mk drawn (mDirection o) (mConfig o) (mMediaLineList o) (mOriginId o) (mIceUfrag o) (mIcePassword o)
                      (mMediaLineGeneratedList o ++ gens) control) /\
    Forall2 (generated_ok (mConfig o)) l gens /\
    forall p q ts, flush_m p = Some (inr q) -> base (mIceUfrag o) (mIcePassword o) q ts -> known gens ->
      exists p' q' ts', feeds p text p' /\ flush_m p' = Some (inr q') /\ base (mIceUfrag o) (mIcePassword o) q' (ts ++ ts') /\
        understood (mConfig o) (bwe_of o) l gens i = Some ts'.
Proof using Hrnd Hfp Hsel.
  induction l as [|m l IH]; intros i o Ho Hl Hi Hlast.
  { exists [], [], (mDrawn o), (mControlPacketSource o). rewrite app_nil_r. split; [by destruct o|].
    split; [constructor|]. intros p q ts Hq Hb _. exists p, q, []. rewrite app_nil_r.
    split; [apply feeds_nil|done]. }
  apply list.Forall_cons in Hl as [Hm Hl]. cbn [last_of] in Hlast.
  pose proof (last_of_ge (mConfig o) l (last_id (mConfig o) (codec_list m) i)) as Hge.
  destruct (feeds_section o m i (mDrawn o) (mControlPacketSource o) Ho Hm Hi) as
    (codecs & streams & g & drawn & control & Ec & Es & Eid & Hs & Hr & Hf); [lia|].
  set (o' := SdpOffer.mk drawn (mDirection o) (mConfig o) (mMediaLineList o) (mOriginId o) (mIceUfrag o) (mIcePassword o)
               (mMediaLineGeneratedList o ++ [g]) control).
  assert (i <= last_id (mConfig o) (codec_list m) i) as Hle.
  { unfold last_id, step_of. destruct (enable_rtx (mConfig o)); lia. }
  destruct (IH (last_id (mConfig o) (codec_list m) i) o') as (rest & gens & d2 & c2 & El & Hgens & Hrest);
    [by destruct Ho|done|lia|done|].
  exists (media_head fp o m i ++ codecs ++ streams ++ rest), (g :: gens), d2, c2. split; [|split].
  - cbn [media_loop].
    assert (check_codecs m = inr tt) as ->.
    { destruct Hm as [_ [Hne Hitems] _]. unfold check_codecs. rewrite bool_decide_false by done.
      assert (forall f, (forall c, codec_ok (mediaType m) c -> f (codec c) = true) ->
        forallb (fun c => f (codec c)) (codec_list m) = true) as Hall.
      { intros f Hf'. apply forallb_forall. intros c Hc. apply Hf'. rewrite Forall_forall in Hitems. by apply Hitems. }
      destruct (mediaType m) eqn:Et; rewrite Hall; try done; by intros c []. }
    rewrite Ec. cbn [mbind option_bind]. rewrite Es. fold o'. rewrite El. cbn [mbind option_bind].
    do 3 f_equal. cbn [o' mMediaLineGeneratedList]. by rewrite <- app_assoc.
  - constructor; [done|exact Hgens].
  - intros p q ts Hq Hb Hknown.
    assert (known [g] /\ known gens) as [Hk1 Hk2].
    { split; intros Hp; specialize (Hknown Hp); apply list.Forall_cons in Hknown as [??]; by try constructor. }
    destruct (ended_base o m g q i ts Hb Hm (conj Eid (conj Hs Hr)) Hi Hk1) as (t & q1 & Et & Ef & Hb1).
    destruct (Hrest _ q1 (ts ++ [t]) Ef Hb1 Hk2) as (p' & q' & ts' & Hfeed & Eq' & Hb' & Eu).
    exists p', q', (t :: ts'). split; [|split; [done|split]].
    + pose proof (feeds_app _ _ _ _ _ (Hf p q Hq) Hfeed) as Hfeed'. rewrite <- !app_assoc in Hfeed'. exact Hfeed'.
    + rewrite <- app_assoc in Hb'. exact Hb'.
    + cbn [understood]. rewrite Et. cbn [mbind option_bind].
      change (understood (mConfig o') (bwe_of o')) with (understood (mConfig o) (bwe_of o)) in Eu. by rewrite Eu.
Qed.

End Loop.

(** ** What surrounds the sections *)

Section Rest.
Context `{Inet}.

Lemma session_attr p key value props : isInMediaSection p = false ->
  forallb (fun k => negb (eqb key (txt k)))
    ["rtcp-mux"; "ice-ufrag"; "ice-pwd"; "setup"; "fingerprint"; "candidate"; "sctp-port"; "max-message-size"]%string = true ->
  parseLine_a p key value props = Some p.
Proof.
  intros Hin E. cbn [forallb] in E. repeat (apply andb_true_iff in E as [?%negb_true_iff E]). unfold parseLine_a.
  repeat match goal with H : eqb key _ = false |- _ => rewrite H; clear H end. by rewrite Hin.
Qed.

(** A line of another kind. *)
Lemma feeds_tag p t rest : without 61 t -> eqb t (txt "a") = false -> eqb t (txt "m") = false -> clean t = true ->
  clean rest = true -> feeds p ((t ++ 61 :: rest) ++ [10]) p.
Proof.
  intros Ht Ha Hm Hc Hr. apply feeds_line.
  - apply clean_app; [done|]. exact Hr.
  - by destruct t.
  - unfold parseLine, parse_line. change (chr "=") with 61. rewrite split_at_app by done.
    destruct (match split_at (chr " ") rest with None => (rest, []) | Some (a, b) => (a, b) end) as [token r].
    destruct (match split_at (chr ":") token with None => ([], []) | Some (k, v) => (k, v) end) as [k v].
    by rewrite Ha, Hm.
Qed.

Lemma feeds_bundle p o (d : bool) : isInMediaSection p = false ->
  Forall (fun m => word (id m) = true) (mMediaLineList o) -> feeds p (bundle o d) p.
Proof.
  intros Hin Hw. unfold bundle. destruct (Nat.ltb_spec 1 (length (mMediaLineList o) + (if d then 1 else 0))) as [Hn|]; [|apply feeds_nil].
  destruct (mMediaLineList o) as [|m l]; [cbn in Hn; destruct d; lia|]. apply list.Forall_cons in Hw as [Hm Hw].
  apply (feeds_ln_attr _ _ (txt "group") (txt "BUNDLE")
    (id m ++ concat (map (fun m => txt " " ++ id m) l) ++ (if d then txt " datachannel" else []))); [|done|done| |].
  - cbn [concat map]. by rewrite app_nil_r, <- !app_assoc.
  - apply clean_app; [by apply word_clean|]. apply clean_app; [|by destruct d].
    clear Hn. induction Hw as [|x l Hx Hw IH]; [done|]. cbn [map concat]. apply clean_app; [|exact IH].
    apply clean_app; [done|by apply word_clean].
  - by apply session_attr.
Qed.

(** The lines in front of the first section. *)
Definition session_lines (o : SdpOffer.t) (d : bool) : text :=
  ln [txt "v=0"] ++ ln [txt "o=- "; decimal (mOriginId o); txt " 2 IN IP4 127.0.0.1"] ++ ln [txt "s=-"] ++
  ln [txt "t=0 0"] ++ ln [txt "a=extmap-allow-mixed"] ++ ln [txt "a=msid-semantic: WMS"] ++ bundle o d.

Lemma feeds_session p o d : isInMediaSection p = false -> Forall (fun m => word (id m) = true) (mMediaLineList o) ->
  feeds p (session_lines o d) p.
Proof.
  intros Hin Hw. unfold session_lines. split_lines.
  - by apply (feeds_tag p (txt "v") (txt "0")); [repeat constructor|..].
  - assert (ln [txt "o=- "; decimal (mOriginId o); txt " 2 IN IP4 127.0.0.1"] =
      (txt "o" ++ 61 :: (txt "- " ++ decimal (mOriginId o) ++ txt " 2 IN IP4 127.0.0.1")) ++ [10]) as ->.
    { unfold ln. cbn [concat]. by rewrite app_nil_r. }
    apply feeds_tag; try done; [by repeat constructor|]. apply clean_app; [done|].
    apply clean_app; [apply word_clean, decimal_word|done].
  - by apply (feeds_tag p (txt "s") (txt "-")); [repeat constructor|..].
  - by apply (feeds_tag p (txt "t") (txt "0 0")); [repeat constructor|..].
  - apply (feeds_literal p "a=extmap-allow-mixed" (txt "extmap-allow-mixed") [] []); [done|done|by apply session_attr].
  - apply (feeds_literal p "a=msid-semantic: WMS" (txt "msid-semantic") [] [txt "WMS"]); [done|done|by apply session_attr].
  - by apply feeds_bundle.
Qed.

(** The section of the data channels. *)
Definition with_data (o : SdpOffer.t) (fp : text) (q : SdpAnswerParser.t) : SdpAnswerParser.t :=
  set_sctp (secured o fp (set_section q false true true MediaState.make)) 5000 262144.

Lemma feeds_data o fp p q : word fp = true /\ fp <> [] -> offer_ok o -> flush_m p = Some (inr q) ->
  feeds p (data_lines fp o) (with_data o fp q).
Proof.
  intros Hfp [Hu Hw _] Hq. unfold data_lines. set (r := set_section q false true true MediaState.make).
  eapply feeds_app.
  { apply (feeds_line p (txt "m=application 9 UDP/DTLS/SCTP webrtc-datachannel") r); [done|done|].
    unfold parseLine.
    assert (parse_line (txt "m=application 9 UDP/DTLS/SCTP webrtc-datachannel") = Some (mkLine (txt "m") (txt "application") []
      [txt "9"; txt "UDP/DTLS/SCTP"; txt "webrtc-datachannel"])) as -> by done.
    change (eqb (txt "m") (txt "a")) with false. change (eqb (txt "m") (txt "m")) with true. cbv iota.
    unfold parseLine_m. rewrite Hq. done. }
  eapply feeds_app; [by apply (feeds_other r (txt "c=IN IP4 0.0.0.0") (mkLine (txt "c") (txt "IN") [] [txt "IP4"; txt "0.0.0.0"]))|].
  set (tail := ln [txt "a=mid:datachannel"] ++ _).
  assert (feeds (secured o fp r) tail (with_data o fp q)) as Ht.
  { unfold tail. split_lines.
    - apply (feeds_literal _ "a=mid:datachannel" (txt "mid") (txt "datachannel") []); [done|done|by apply session_attr].
    - apply (feeds_literal _ "a=sctp-port:5000" (txt "sctp-port") (txt "5000") []); [done|done|].
      unfold parseLine_a. keys. change (isInApplicationSection (secured o fp r)) with true. cbv iota. reflexivity.
    - apply (feeds_literal _ "a=max-message-size:262144" (txt "max-message-size") (txt "262144") []); [done|done|].
      unfold parseLine_a. keys. reflexivity. }
  pose proof (feeds_app _ _ _ _ _ (feeds_secured o fp Hfp Hu Hw r) Ht) as Hf. rewrite <- !app_assoc in Hf. exact Hf.
Qed.

(** A candidate with an address that the resolver knows. *)
Definition candidate (addr : text) (port : Z) : text :=
  ln [txt "a=candidate:1 1 udp 2130706431 "; addr; txt " "; decimal port; txt " typ host"].

Record address_ok (addr : text) (bytes : list Z) (port : Z) : Prop := {
  ad_word : word addr = true;
  ad_dot : has addr (chr ".") = true;
  ad_null : c_str addr = addr;
  ad_known : inet_pton4 addr = Some bytes;
  ad_port : 0 < port < 65536
}.

Lemma feeds_candidate p addr bytes port : address_ok addr bytes port -> hostList p = [] ->
  feeds p (candidate addr port) (set_hosts p [HostV4 bytes port]).
Proof.
  intros [Hw Hdot Hnull Hknown Hport] Hhosts.
  assert (addr <> []) by (by intros ->). pose proof (decimal_word port) as Hdw. pose proof (decimal_nonempty port) as Hdn.
  assert (Forall (fun w => word w = true /\ w <> [])
    [txt "1"; txt "udp"; txt "2130706431"; addr; decimal port; txt "typ"; txt "host"]) as Hprops by (by repeat constructor).
  apply (feeds_ln_words _ _ (txt "candidate") (txt "1")
    [txt "1"; txt "udp"; txt "2130706431"; addr; decimal port; txt "typ"; txt "host"]); [|done|done| |by apply proper_words|].
  - cbn [concat unwords]. by rewrite app_nil_r.
  - apply unwords_clean. eapply list.Forall_impl; [exact Hprops|]. by intros ? [].
  - unfold parseLine_a, parse_candidate. keys. rewrite parse_decimal by (unfold is_u32; lia).
    assert ((0 <? port) && (port <=? 65536) = true) as -> by lia. rewrite Hdot, Hnull, Hknown.
    rewrite u16_small by (unfold is_u16; lia). unfold add_host. by rewrite Hhosts.
Qed.

Lemma flush_hosts p q l : flush_m p = Some (inr q) -> flush_m (set_hosts p l) = Some (inr (set_hosts q l)).
Proof.
  unfold flush_m. cbn [set_hosts isInMediaSection mediaState direction offer selector].
  destruct (negb _); [by intros [= <-]|]. case_bool_decide as Ht; [done|]. case_bool_decide as Hi; [done|].
  intros E. apply bind_Some_inv in E as (m & -> & E). cbn [mbind option_bind].
  apply bind_Some_inv in E as (media & -> & E). cbn [mbind option_bind].
  apply bind_Some_inv in E as ([t|] & -> & E); [|done]. cbn [mbind option_bind].
  apply bind_Some_inv in E as (ts & -> & E). cbn [mbind option_bind]. by injection E as <-.
Qed.

End Rest.

(** ** The whole *)

Lemma flush_keeps_hosts p q : flush_m p = Some (inr q) -> hostList q = hostList p.
Proof.
  unfold flush_m. destruct (negb _); [by intros [= <-]|]. case_bool_decide as Ht; [done|]. case_bool_decide as Hi; [done|].
  intros E. apply bind_Some_inv in E as (m & _ & E). apply bind_Some_inv in E as (media & _ & E).
  apply bind_Some_inv in E as ([t|] & _ & E); [|done]. apply bind_Some_inv in E as (ts & _ & E). by injection E as <-.
Qed.

Lemma bin_to_hex_word bytes : word (Hex.bin_to_hex bytes) = true.
Proof.
  induction bytes as [|b bytes IH]; [done|]. cbn [Hex.bin_to_hex].
  apply (word_app [nibble (Z.land (Z.shiftr b 4) 0x0F)]); [apply nibble_clean|].
  apply (word_app [nibble (Z.land b 0x0F)]); [apply nibble_clean|]. destruct bytes; [done|]. exact IH.
Qed.

Lemma understood_nonempty Q sel cfg bwe l gens i ts : l <> [] -> length gens = length l ->
  understood Q sel cfg bwe l gens i = Some ts -> ts <> [].
Proof.
  intros Hl Hg E. destruct l as [|m l]; [done|]. destruct gens as [|g gens]; [done|]. cbn [understood] in E.
  apply bind_Some_inv in E as (t & _ & E). apply bind_Some_inv in E as (ts' & _ & E). by injection E as <-.
Qed.

(** The publisher's own offer, after [generate]. *)
Lemma known_self o gens : Forall2 (fun m g => mediaId g = id m) (mMediaLineList o) gens -> NoDup (map id (mMediaLineList o)) ->
  mMediaLineGeneratedList o = gens -> known o gens.
Proof.
  intros Hg Hd E _. assert (map mediaId gens = map id (mMediaLineList o)) as Em.
  { induction Hg as [|m g l gs Eg Hg IH]; [done|]. clear -Hg Eg. cbn [map]. f_equal; [done|].
    induction Hg as [|? ? ? ? E ? IH]; [done|]. cbn [map]. by rewrite E, IH. }
  rewrite <- Em in Hd. apply Forall_forall. intros g Hin. unfold getMediaSSRC. rewrite E.
  assert (List.find (fun x => eqb (mediaId x) (mediaId g)) gens = Some g) as ->; [|done].
  clear -Hd Hin. induction gens as [|x gens IH]; [by destruct Hin|]. cbn [map List.find] in *. apply list.NoDup_cons in Hd as [Hx Hd].
  unfold eqb at 1. case_bool_decide as E.
  - destruct Hin as [->|Hin]; [done|]. exfalso. apply Hx. rewrite E. apply list_elem_of_In, List.in_map. exact Hin.
  - destruct Hin as [->|Hin]; [done|]. by apply IH.
Qed.

(** The parser at the end of an offer. *)
Record whole (Q : SdpOffer.t) (ufrag password fp : text) (d : bool) (p : SdpAnswerParser.t) (ts : list Track.t) : Prop := {
  wh_direction : direction p = getDirection Q;
  wh_tracks : trackList p = ts;
  wh_media : hasMedia p = negb (bool_decide (ts = []));
  wh_data : hasDataChannel p = d;
  wh_mux : ts <> [] -> isRtcpMux p = true;
  wh_ice : ts <> [] \/ d = true -> iceUFrag p = ufrag /\ icePassword p = password;
  wh_hash : ts <> [] \/ d = true -> certHashAlg p = txt "sha-256" /\ certHashBin p = Hex.hex_to_bin fp /\ certHashHex p = fp
}.

Lemma feeds_end `{Inet} Q sel o fp (d : bool) p q ts : word fp = true /\ fp <> [] -> offer_ok o -> flush_m p = Some (inr q) ->
  base fp Q sel (mIceUfrag o) (mIcePassword o) q ts ->
  exists e f, feeds p (if d then data_lines fp o else []) e /\ flush_m e = Some (inr f) /\ hostList e = [] /\
    whole Q (mIceUfrag o) (mIcePassword o) fp d f ts.
Proof.
  intros Hfp Ho Hq [_ Bd _ Bt Bh Bda Bm Bsec]. destruct d.
  - exists (with_data o fp q), (with_data o fp q). split; [by apply feeds_data|]. split; [done|]. split; [exact Bh|].
    constructor; try done. intros Hts. by destruct (Bsec Hts).
  - exists p, q. split; [apply feeds_nil|]. split; [done|]. split; [by rewrite <- (flush_keeps_hosts p q Hq)|].
    constructor; try done; intros Hts; try (destruct Hts as [Hts|]; [|done]); by destruct (Bsec Hts).
Qed.

(** What an answer says of an offer. *)
Record agrees (Q o : SdpOffer.t) (bytes : list Z) (h : Host) (ts : list Track.t) (a : Answer.t) : Prop := {
  ag_direction : Answer.mDirection a = getDirection Q;
  ag_tracks : Answer.mTrackList a = ts;
  ag_ice : Answer.mIceUFrag a = mIceUfrag o /\ Answer.mIcePassword a = mIcePassword o;
  ag_hash : Answer.mCertHash a = X509Hash.mk (txt "sha-256") bytes (Hex.bin_to_hex bytes);
  ag_hosts : Answer.mHostList a = [h];
  ag_data : Answer.mHasDataChannel a = SdpOffer.hasDataChannel o
}.

Lemma finish_agrees Q o bytes h d f ts : bytes_ok bytes ->
  whole Q (mIceUfrag o) (mIcePassword o) (Hex.bin_to_hex bytes) d f ts -> ts <> [] \/ d = true ->
  SdpOffer.hasDataChannel o = d -> exists a, finish (set_hosts f [h]) = inr a /\ agrees Q o bytes h ts a.
Proof.
  intros Hb [Wd Wt Wm Wda Wmux Wice Whash] Hsome Hd. unfold finish.
  cbn [set_hosts hasMedia isRtcpMux hostList hasDataChannel direction iceUFrag icePassword mediaList trackList isSetupActive
       certHashAlg certHashBin certHashHex sctpPort maxSctpMessageSize].
  assert (hasMedia f && negb (isRtcpMux f) = false) as ->.
  { rewrite Wm. case_bool_decide as E; [done|]. by rewrite (Wmux E). }
  rewrite bool_decide_false by done.
  assert (negb (hasMedia f) && negb (hasDataChannel f) = false) as ->.
  { rewrite Wm, Wda. case_bool_decide as E; [|done]. destruct Hsome as [?| ->]; done. }
  eexists. split; [done|]. destruct (Wice Hsome) as [E1 E2], (Whash Hsome) as (E3 & E4 & E5).
  assert (Hex.hex_to_bin (Hex.bin_to_hex bytes) = bytes) as Eb by (by apply (Fingerprints.hex_loop_print bytes [])).
  rewrite Eb in E4. constructor; cbn [Answer.mDirection Answer.mTrackList Answer.mIceUFrag Answer.mIcePassword
    Answer.mCertHash Answer.mHostList Answer.mHasDataChannel]; try done; [by rewrite E3, E4, E5|congruence].
Qed.


End Negotiation.

(** ** An offer that is understood, and offers that are not *)

Module LoopSample.
Import Words Attributes Negotiation.

#[local] Instance resolver : Inet :=
  {| inet_pton4 := fun s => if eqb s (txt "127.0.0.1") then Some [127; 0; 0; 1] else None; inet_pton6 := fun _ => None |}.

Definition draws (n : nat) : Z := (Z.of_nat n * 7919) mod 0x7fffffff.

Definition config : Config := mkConfig (txt "a cname") [txt "data"] true true false 0 0 0 true.
Definition video (n : nat) : MediaLine :=
  mkMediaLine (txt "v") Video (mkMediaCodec H264 0x42e01f 0 false :: repeat (mkMediaCodec VP8 0 0 false) n) [].
Definition audio : MediaLine := mkMediaLine (txt "a") Audio [mkMediaCodec Opus 0 10 true] [].
Definition offer (media : list MediaLine) : SdpOffer.t := SdpOffer.make draws Publish config media.

Lemma draws_range n : 0 <= draws n <= 0x7ffffffe.
Proof. unfold draws. zdm. Qed.

(** A subscriber that reads the publisher's offer. *)
Definition subscriber : SdpOffer.t := SdpOffer.make draws Subscribe config [].


(** The ids of more than sixteen codecs, with those of retransmissions, leave the range that the parser accepts. *)
Example ids_overflow :
  match SdpOffer.generate draws [] (offer [video 16]) with
  | (Some (inr s, _)) => existsb (eqb (txt "a=rtpmap:128 VP8/90000")) (get_lines s)
  | _ => false
  end = true /\ is_valid_payload_id 128 = false.
Proof. split; vm_compute; reflexivity. Qed.

(** A second text announces SSRCs other than those that the answer is given. *)
Example generate_twice :
  match SdpOffer.generate draws [] (offer [audio]) with
  | Some (_, o) =>
      match SdpOffer.generate draws [] o with
      | Some (inr s, o) =>
          match getMediaSSRC o (txt "a") with
          | Some (ssrc, _) => existsb (eqb (txt "a=ssrc:" ++ decimal ssrc ++ txt " cname:a cname")) (get_lines s)
          | None => true
          end
      | _ => true
      end
  | None => true
  end = false.
Proof. vm_compute. reflexivity. Qed.

End LoopSample.
