(* ===== verification/Stun.v ===== *)
(** * Stun: the messages of STUN, src/stun/{utils,stunmessage,stun5389,stuncrc32,stunhmac}.cpp

    A message is the memory at [msg->buffer], [msg->buffer_len] bytes of it; the
    members for long term keys are not used.  [None] is a read or a write outside
    that memory, or a failed assertion.  Lengths, positions and types are the
    numbers of the source; what OpenSSL computes comes from the class [Evp]. *)

From Stdlib Require Import Ascii.
From stdpp Require Import strings.
From S2P Require Import Prelude Srtp SdpText.
Open Scope Z_scope.

(** ** Memory *)

Module Memory.

Definition size (b : list Z) : Z := Z.of_nat (length b).

Definition load (b : list Z) (off n : Z) : option (list Z) :=
  if (0 <=? off) && (0 <=? n) && (off + n <=? size b)
  then Some (take (Z.to_nat n) (drop (Z.to_nat off) b)) else None.

Definition store (b : list Z) (off : Z) (v : list Z) : option (list Z) :=
  if (0 <=? off) && (off + size v <=? size b)
  then Some (take (Z.to_nat off) b ++ v ++ drop (Z.to_nat off + length v) b) else None.

Definition byte (b : list Z) (off : Z) : option Z := v ← load b off 1; head v.

End Memory.

(** ** utils.cpp, and the constants of constants.h *)

Module StunUtils.
Import Memory.

Definition STUN_MESSAGE_LENGTH_POS : Z := 2.
Definition STUN_MESSAGE_LENGTH_LEN : Z := 2.
Definition STUN_MESSAGE_TRANS_ID_POS : Z := 4.
Definition STUN_MESSAGE_TRANS_ID_LEN : Z := 16.
Definition STUN_MESSAGE_HEADER_LENGTH : Z := 20.
Definition STUN_MESSAGE_ATTRIBUTES_POS : Z := 20.
Definition STUN_ATTRIBUTE_TYPE_LEN : Z := 2.
Definition STUN_ATTRIBUTE_VALUE_POS : Z := 4.
Definition STUN_ATTRIBUTE_HEADER_LENGTH : Z := 4.
Definition STUN_MAGIC_COOKIE : Z := 0x2112A442.

Inductive StunClass := STUN_REQUEST | STUN_INDICATION | STUN_RESPONSE | STUN_ERROR.

#[global] Instance StunClass_eq_dec : EqDecision StunClass.
Proof. solve_decision. Defined.

Definition class_value (c : StunClass) : Z :=
  match c with STUN_REQUEST => 0 | STUN_INDICATION => 1 | STUN_RESPONSE => 2 | STUN_ERROR => 3 end.

Definition class_of (v : Z) : StunClass :=
  if v =? 0 then STUN_REQUEST else if v =? 1 then STUN_INDICATION else if v =? 2 then STUN_RESPONSE else STUN_ERROR.

(** Methods and attribute types are cast from the wire: numbers. *)
Definition STUN_BINDING : Z := 0x001.

Definition stun_padding (l : Z) : Z := Z.land (4 - Z.land l 3) 3.
Definition stun_align (l : Z) : Z := Z.land (l + 3) (Z.lnot 3).

Definition stun_getw (b : list Z) (off : Z) : option Z :=
  h ← byte b off; l ← byte b (off + 1); Some (Z.lor (Z.shiftl h 8) l).

Definition stun_setw (b : list Z) (off value : Z) : option (list Z) :=
  store b off [Z.shiftr (u16 value) 8; Z.land (u16 value) 0xff].

Definition stun_set_type (b : list Z) (c : StunClass) (m : Z) : option (list Z) :=
  let c := class_value c in
  store b 0 [u8 (Z.lor (Z.shiftr c 1) (Z.land (Z.shiftr m 6) 0x3e));
             u8 (Z.lor (Z.lor (Z.land (Z.shiftl c 4) 0x10) (Z.land (Z.shiftl m 1) 0xe0)) (Z.land m 0x0f))].

(** [sockaddr_storage]: ports and IPv4 addresses as numbers. *)
Inductive sockaddr :=
| AF_INET (sin_port s_addr : Z)
| AF_INET6 (sin6_port : Z) (s6_addr : list Z)
| AF_OTHER.

#[global] Instance sockaddr_eq_dec : EqDecision sockaddr.
Proof. solve_decision. Defined.

(** [sizeof (sockaddr_in)], also of [sockaddr], and [sizeof (sockaddr_in6)]. *)
Definition sizeof_in : Z := 16.
Definition sizeof_in6 : Z := 28.
Definition sizeof_storage : Z := 128.

Inductive StunMessageReturn :=
| RETURN_SUCCESS | RETURN_NOT_FOUND | RETURN_INVALID | RETURN_NOT_ENOUGH_SPACE | RETURN_UNSUPPORTED_ADDRESS.

#[global] Instance StunMessageReturn_eq_dec : EqDecision StunMessageReturn.
Proof. solve_decision. Defined.

Definition stun_xor_address (msg : list Z) (addr : sockaddr) (addrlen magic_cookie : Z)
  : option (StunMessageReturn * sockaddr) :=
  match addr with
  | AF_INET port ip =>
      if addrlen <? sizeof_in then Some (RETURN_INVALID, addr)
      else Some (RETURN_SUCCESS,
                 AF_INET (Z.lxor port (u16 (Z.shiftr magic_cookie 16))) (Z.lxor ip (u32 magic_cookie)))
  | AF_INET6 port ip =>
      if addrlen <? sizeof_in6 then Some (RETURN_INVALID, addr)
      else
        mask ← load msg 4 16;
        Some (RETURN_SUCCESS, AF_INET6 (Z.lxor port (u16 (Z.shiftr magic_cookie 16))) (zip_with Z.lxor ip mask))
  | AF_OTHER => Some (RETURN_UNSUPPORTED_ADDRESS, addr)
  end.

End StunUtils.

(** ** stuncrc32.cpp *)

Module StunCrc.

Definition crc32_tab : list Z :=
  [
   0x00000000; 0x77073096; 0xee0e612c; 0x990951ba; 0x076dc419; 0x706af48f; 0xe963a535; 0x9e6495a3;
   0x0edb8832; 0x79dcb8a4; 0xe0d5e91e; 0x97d2d988; 0x09b64c2b; 0x7eb17cbd; 0xe7b82d07; 0x90bf1d91;
   0x1db71064; 0x6ab020f2; 0xf3b97148; 0x84be41de; 0x1adad47d; 0x6ddde4eb; 0xf4d4b551; 0x83d385c7;
   0x136c9856; 0x646ba8c0; 0xfd62f97a; 0x8a65c9ec; 0x14015c4f; 0x63066cd9; 0xfa0f3d63; 0x8d080df5;
   0x3b6e20c8; 0x4c69105e; 0xd56041e4; 0xa2677172; 0x3c03e4d1; 0x4b04d447; 0xd20d85fd; 0xa50ab56b;
   0x35b5a8fa; 0x42b2986c; 0xdbbbc9d6; 0xacbcf940; 0x32d86ce3; 0x45df5c75; 0xdcd60dcf; 0xabd13d59;
   0x26d930ac; 0x51de003a; 0xc8d75180; 0xbfd06116; 0x21b4f4b5; 0x56b3c423; 0xcfba9599; 0xb8bda50f;
   0x2802b89e; 0x5f058808; 0xc60cd9b2; 0xb10be924; 0x2f6f7c87; 0x58684c11; 0xc1611dab; 0xb6662d3d;
   0x76dc4190; 0x01db7106; 0x98d220bc; 0xefd5102a; 0x71b18589; 0x06b6b51f; 0x9fbfe4a5; 0xe8b8d433;
   0x7807c9a2; 0x0f00f934; 0x9609a88e; 0xe10e9818; 0x7f6a0dbb; 0x086d3d2d; 0x91646c97; 0xe6635c01;
   0x6b6b51f4; 0x1c6c6162; 0x856530d8; 0xf262004e; 0x6c0695ed; 0x1b01a57b; 0x8208f4c1; 0xf50fc457;
   0x65b0d9c6; 0x12b7e950; 0x8bbeb8ea; 0xfcb9887c; 0x62dd1ddf; 0x15da2d49; 0x8cd37cf3; 0xfbd44c65;
   0x4db26158; 0x3ab551ce; 0xa3bc0074; 0xd4bb30e2; 0x4adfa541; 0x3dd895d7; 0xa4d1c46d; 0xd3d6f4fb;
   0x4369e96a; 0x346ed9fc; 0xad678846; 0xda60b8d0; 0x44042d73; 0x33031de5; 0xaa0a4c5f; 0xdd0d7cc9;
   0x5005713c; 0x270241aa; 0xbe0b1010; 0xc90c2086; 0x5768b525; 0x206f85b3; 0xb966d409; 0xce61e49f;
   0x5edef90e; 0x29d9c998; 0xb0d09822; 0xc7d7a8b4; 0x59b33d17; 0x2eb40d81; 0xb7bd5c3b; 0xc0ba6cad;
   0xedb88320; 0x9abfb3b6; 0x03b6e20c; 0x74b1d29a; 0xead54739; 0x9dd277af; 0x04db2615; 0x73dc1683;
   0xe3630b12; 0x94643b84; 0x0d6d6a3e; 0x7a6a5aa8; 0xe40ecf0b; 0x9309ff9d; 0x0a00ae27; 0x7d079eb1;
   0xf00f9344; 0x8708a3d2; 0x1e01f268; 0x6906c2fe; 0xf762575d; 0x806567cb; 0x196c3671; 0x6e6b06e7;
   0xfed41b76; 0x89d32be0; 0x10da7a5a; 0x67dd4acc; 0xf9b9df6f; 0x8ebeeff9; 0x17b7be43; 0x60b08ed5;
   0xd6d6a3e8; 0xa1d1937e; 0x38d8c2c4; 0x4fdff252; 0xd1bb67f1; 0xa6bc5767; 0x3fb506dd; 0x48b2364b;
   0xd80d2bda; 0xaf0a1b4c; 0x36034af6; 0x41047a60; 0xdf60efc3; 0xa867df55; 0x316e8eef; 0x4669be79;
   0xcb61b38c; 0xbc66831a; 0x256fd2a0; 0x5268e236; 0xcc0c7795; 0xbb0b4703; 0x220216b9; 0x5505262f;
   0xc5ba3bbe; 0xb2bd0b28; 0x2bb45a92; 0x5cb36a04; 0xc2d7ffa7; 0xb5d0cf31; 0x2cd99e8b; 0x5bdeae1d;
   0x9b64c2b0; 0xec63f226; 0x756aa39c; 0x026d930a; 0x9c0906a9; 0xeb0e363f; 0x72076785; 0x05005713;
   0x95bf4a82; 0xe2b87a14; 0x7bb12bae; 0x0cb61b38; 0x92d28e9b; 0xe5d5be0d; 0x7cdcefb7; 0x0bdbdf21;
   0x86d3d2d4; 0xf1d4e242; 0x68ddb3f8; 0x1fda836e; 0x81be16cd; 0xf6b9265b; 0x6fb077e1; 0x18b74777;
   0x88085ae6; 0xff0f6a70; 0x66063bca; 0x11010b5c; 0x8f659eff; 0xf862ae69; 0x616bffd3; 0x166ccf45;
   0xa00ae278; 0xd70dd2ee; 0x4e048354; 0x3903b3c2; 0xa7672661; 0xd06016f7; 0x4969474d; 0x3e6e77db;
   0xaed16a4a; 0xd9d65adc; 0x40df0b66; 0x37d83bf0; 0xa9bcae53; 0xdebb9ec5; 0x47b2cf7f; 0x30b5ffe9;
   0xbdbdf21c; 0xcabac28a; 0x53b39330; 0x24b4a3a6; 0xbad03605; 0xcdd70693; 0x54de5729; 0x23d967bf;
   0xb3667a2e; 0xc4614ab8; 0x5d681b02; 0x2a6f2b94; 0xb40bbe37; 0xc30c8ea1; 0x5a05df1b; 0x2d02ef8d].

(** One byte; [typo] is [wlm2009_stupid_crc32_typo]. *)
Definition crc_step (typo : bool) (crc p : Z) : Z :=
  let lkp := nth (Z.to_nat (Z.land (Z.lxor crc p) 0xFF)) crc32_tab 0 in
  let lkp := if (lkp =? 0x8bbeb8ea) && typo then 0x8bbe8ea else lkp in
  Z.lxor lkp (Z.shiftr crc 8).

Definition stun_crc32 (data : list (list Z)) (typo : bool) : Z :=
  Z.lxor (fold_left (fun crc buf => fold_left (crc_step typo) buf crc) data 0xffffffff) 0xffffffff.

End StunCrc.

(** ** stun5389.cpp: the fingerprint *)

Module Stun5389.
Import Memory StunUtils StunCrc.

(** The value that is returned, as it lies in memory: [htonl]. *)
Definition stun_fingerprint (msg : list Z) (len : Z) (typo : bool) : option (list Z) :=
  head ← load msg 0 2;
  rest ← load msg 4 (len - 12);
  Some (be_bytes 4 (Z.lxor (stun_crc32 [head; be_bytes 2 (u16 (len - 20)); rest] typo) 0x5354554e)).

Definition stun_message_has_cookie (msg : list Z) : option bool :=
  id ← load msg STUN_MESSAGE_TRANS_ID_POS STUN_MESSAGE_TRANS_ID_LEN;
  Some (bool_decide (take 4 id = be_bytes 4 STUN_MAGIC_COOKIE)).

Definition utf8_skip_data : list Z :=
  replicate 192 1 ++ replicate 32 2 ++ replicate 16 3 ++ replicate 8 4 ++ replicate 4 5 ++ replicate 2 6 ++ replicate 2 1.

(** The loop of [stun_message_append_software]: [ptr - software] when it ends;
    [software] with its final zero. *)
Fixpoint software_loop (n : nat) (software : list Z) (ptr : Z) : option Z :=
  c ← byte software ptr;
  if c =? 0 then Some ptr
  else match n with
       | O => Some ptr
       | S n => software_loop n software (ptr + nth (Z.to_nat c) utf8_skip_data 1)
       end.

End Stun5389.

(** ** stunmessage.cpp *)

Module StunMessage.
Import Memory StunUtils Stun5389 Text.

Definition STUN_ATTRIBUTE_USERNAME : Z := 0x0006.
Definition STUN_ATTRIBUTE_MESSAGE_INTEGRITY : Z := 0x0008.
Definition STUN_ATTRIBUTE_ERROR_CODE : Z := 0x0009.
Definition STUN_ATTRIBUTE_XOR_MAPPED_ADDRESS : Z := 0x0020.
Definition STUN_ATTRIBUTE_PRIORITY : Z := 0x0024.
Definition STUN_ATTRIBUTE_USE_CANDIDATE : Z := 0x0025.
Definition STUN_ATTRIBUTE_SOFTWARE : Z := 0x8022.
Definition STUN_ATTRIBUTE_FINGERPRINT : Z := 0x8028.
Definition STUN_ATTRIBUTE_ICE_CONTROLLING : Z := 0x802A.

(** The answer of [stun_message_init] and the memory after it. *)
Definition stun_message_init (msg : list Z) (c : StunClass) (m : Z) (id : list Z) : option (bool * list Z) :=
  if size msg <? STUN_MESSAGE_HEADER_LENGTH then Some (false, msg)
  else
    msg ← store msg 0 [0; 0; 0; 0];
    msg ← stun_set_type msg c m;
    msg ← store msg STUN_MESSAGE_TRANS_ID_POS id;
    Some (true, msg).

Definition stun_message_length (msg : list Z) : option Z :=
  w ← stun_getw msg STUN_MESSAGE_LENGTH_POS; Some (u16 (w + STUN_MESSAGE_HEADER_LENGTH)).

(** *** Attributes read *)

(** The position and the length of the value; each round of the loop moves the
    offset by 4 at least. *)
Fixpoint find_loop (fuel : nat) (msg : list Z) (type length offset : Z) : option (option (Z * Z)) :=
  if offset <? length then
    match fuel with
    | O => None
    | S fuel =>
        atype ← stun_getw msg offset;
        alen ← stun_getw msg (offset + STUN_ATTRIBUTE_TYPE_LEN);
        let offset := offset + STUN_ATTRIBUTE_VALUE_POS in
        if atype =? type then Some (Some (offset, alen))
        else if (atype =? STUN_ATTRIBUTE_MESSAGE_INTEGRITY) && negb (type =? STUN_ATTRIBUTE_FINGERPRINT)
        then Some None
        else if atype =? STUN_ATTRIBUTE_FINGERPRINT then Some None
        else find_loop fuel msg type length (offset + stun_align alen)
    end
  else Some None.

Definition stun_message_find (msg : list Z) (type : Z) : option (option (Z * Z)) :=
  length ← stun_message_length msg;
  find_loop (Z.to_nat length) msg type length STUN_MESSAGE_ATTRIBUTES_POS.

Definition stun_message_find_flag (msg : list Z) (type : Z) : option StunMessageReturn :=
  found ← stun_message_find msg type;
  Some match found with
       | None => RETURN_NOT_FOUND
       | Some (_, len) => if len =? 0 then RETURN_SUCCESS else RETURN_INVALID
       end.

(** A value is there with success only. *)
Definition stun_message_find32 (msg : list Z) (type : Z) : option (StunMessageReturn * Z) :=
  found ← stun_message_find msg type;
  match found with
  | None => Some (RETURN_NOT_FOUND, 0)
  | Some (ptr, len) =>
      if len =? 4 then val ← load msg ptr 4; Some (RETURN_SUCCESS, be_value val)
      else Some (RETURN_INVALID, 0)
  end.

Definition stun_message_find64 (msg : list Z) (type : Z) : option (StunMessageReturn * Z) :=
  found ← stun_message_find msg type;
  match found with
  | None => Some (RETURN_NOT_FOUND, 0)
  | Some (ptr, len) =>
      if len =? 8 then
        hi ← load msg ptr 4; lo ← load msg (ptr + 4) 4;
        Some (RETURN_SUCCESS, Z.lor (u64 (Z.shiftl (be_value hi) 32)) (be_value lo))
      else Some (RETURN_INVALID, 0)
  end.

(** What lies in [buf], of [buflen] bytes, without the final zero. *)
Definition stun_message_find_string (msg : list Z) (type buflen : Z) : option (StunMessageReturn * list Z) :=
  found ← stun_message_find msg type;
  match found with
  | None => Some (RETURN_NOT_FOUND, [])
  | Some (ptr, len) =>
      if buflen <=? len then Some (RETURN_NOT_ENOUGH_SPACE, [])
      else buf ← load msg ptr len; Some (RETURN_SUCCESS, buf)
  end.

(** [addrlen] after the call comes with the address. *)
Definition stun_message_find_addr (msg : list Z) (type addrlen : Z) : option (StunMessageReturn * sockaddr * Z) :=
  found ← stun_message_find msg type;
  match found with
  | None => Some (RETURN_NOT_FOUND, AF_OTHER, addrlen)
  | Some (ptr, len) =>
      if len <? 4 then Some (RETURN_INVALID, AF_OTHER, addrlen)
      else
        family ← byte msg (ptr + 1);
        if family =? 1 then
          if (addrlen <? sizeof_in) || negb (len =? 8) then Some (RETURN_INVALID, AF_OTHER, sizeof_in)
          else
            port ← load msg (ptr + 2) 2; ip ← load msg (ptr + 4) 4;
            Some (RETURN_SUCCESS, AF_INET (be_value port) (be_value ip), sizeof_in)
        else if family =? 2 then
          if (addrlen <? sizeof_in6) || negb (len =? 20) then Some (RETURN_INVALID, AF_OTHER, sizeof_in6)
          else
            port ← load msg (ptr + 2) 2; ip ← load msg (ptr + 4) 16;
            Some (RETURN_SUCCESS, AF_INET6 (be_value port) ip, sizeof_in6)
        else Some (RETURN_UNSUPPORTED_ADDRESS, AF_OTHER, addrlen)
  end.

Definition stun_message_find_xor_addr_full (msg : list Z) (type addrlen magic_cookie : Z)
  : option (StunMessageReturn * sockaddr * Z) :=
  '(val, addr, addrlen) ← stun_message_find_addr msg type addrlen;
  match val with
  | RETURN_SUCCESS =>
      '(val, addr) ← stun_xor_address msg addr addrlen magic_cookie;
      Some (val, addr, addrlen)
  | _ => Some (val, addr, addrlen)
  end.

Definition stun_message_find_xor_addr (msg : list Z) (type addrlen : Z) : option (StunMessageReturn * sockaddr * Z) :=
  '(val, addr, addrlen) ← stun_message_find_addr msg type addrlen;
  match val with
  | RETURN_SUCCESS =>
      '(val, addr) ← stun_xor_address msg addr addrlen STUN_MAGIC_COOKIE;
      Some (val, addr, addrlen)
  | _ => Some (val, addr, addrlen)
  end.

Definition stun_message_find_error (msg : list Z) : option (StunMessageReturn * Z) :=
  found ← stun_message_find msg STUN_ATTRIBUTE_ERROR_CODE;
  match found with
  | None => Some (RETURN_NOT_FOUND, 0)
  | Some (ptr, alen) =>
      if alen <? 4 then Some (RETURN_INVALID, 0)
      else
        b2 ← byte msg (ptr + 2); number ← byte msg (ptr + 3);
        let clazz := Z.land b2 0x7 in
        if (clazz <? 3) || (6 <? clazz) || (99 <? number) then Some (RETURN_INVALID, 0)
        else Some (RETURN_SUCCESS, clazz * 100 + number)
  end.

Definition stun_message_has_attribute (msg : list Z) (type : Z) : option bool :=
  found ← stun_message_find msg type; Some (bool_decide (is_Some found)).

(** *** Attributes written *)

(** The position of the value, or no room. *)
Definition stun_message_append (msg : list Z) (type length : Z) : option (option Z * list Z) :=
  mlen ← stun_message_length msg;
  if size msg <? mlen + STUN_ATTRIBUTE_HEADER_LENGTH + length then Some (None, msg)
  else
    msg ← stun_setw msg mlen type;
    cookie ← stun_message_has_cookie msg;
    msg ← stun_setw msg (mlen + 2) (if (cookie : bool) then length else stun_align length);
    let a := mlen + 4 in
    let padding := stun_padding length in
    '(mlen, msg) ← (if 0 <? padding
                    then msg ← store msg (a + length) (replicate (Z.to_nat padding) 0);
                         Some (u16 (mlen + padding), msg)
                    else Some (mlen, msg) : option (Z * list Z));
    let mlen := u16 (mlen + 4 + length) in
    msg ← stun_setw msg STUN_MESSAGE_LENGTH_POS (mlen - STUN_MESSAGE_HEADER_LENGTH);
    Some (Some a, msg).

Definition stun_message_append_bytes (msg : list Z) (type : Z) (data : list Z)
  : option (StunMessageReturn * list Z) :=
  '(ptr, msg) ← stun_message_append msg type (size data);
  match ptr with
  | None => Some (RETURN_NOT_ENOUGH_SPACE, msg)
  | Some ptr => msg ← store msg ptr data; Some (RETURN_SUCCESS, msg)
  end.

Definition stun_message_append_flag (msg : list Z) (type : Z) := stun_message_append_bytes msg type [].

Definition stun_message_append32 (msg : list Z) (type value : Z) :=
  stun_message_append_bytes msg type (be_bytes 4 value).

Definition stun_message_append64 (msg : list Z) (type value : Z) :=
  stun_message_append_bytes msg type (be_bytes 4 (u32 (Z.shiftr value 32)) ++ be_bytes 4 (u32 value)).

(** [strlen]: up to the first zero byte. *)
Fixpoint c_str (s : text) : text :=
  match s with [] => [] | c :: s => if c =? 0 then [] else c :: c_str s end.

Definition stun_message_append_string (msg : list Z) (type : Z) (str : text) :=
  stun_message_append_bytes msg type (c_str str).

Definition stun_message_append_addr (msg : list Z) (type : Z) (addr : sockaddr) (addrlen : Z)
  : option (StunMessageReturn * list Z) :=
  if addrlen <? sizeof_in then Some (RETURN_INVALID, msg)
  else
    match
      match addr with
      | AF_INET port ip => inr (1, port, be_bytes 4 ip)
      | AF_INET6 port ip => if addrlen <? sizeof_in6 then inl RETURN_INVALID else inr (2, port, ip)
      | AF_OTHER => inl RETURN_UNSUPPORTED_ADDRESS
      end
    with
    | inl error => Some (error, msg)
    | inr (family, port, pa) =>
        '(ptr, msg) ← stun_message_append msg type (4 + size pa);
        match ptr with
        | None => Some (RETURN_NOT_ENOUGH_SPACE, msg)
        | Some ptr =>
            msg ← store msg ptr [0; family];
            msg ← store msg (ptr + 2) (be_bytes 2 port);
            msg ← store msg (ptr + 4) pa;
            Some (RETURN_SUCCESS, msg)
        end
    end.

(** The copy in [tmpaddr] is the value [addr]. *)
Definition stun_message_append_xor_addr_full (msg : list Z) (type : Z) (addr : sockaddr) (addrlen magic_cookie : Z)
  : option (StunMessageReturn * list Z) :=
  let addrlen := Z.min addrlen sizeof_storage in
  '(val, tmpaddr) ← stun_xor_address msg addr addrlen magic_cookie;
  match val with
  | RETURN_SUCCESS => stun_message_append_addr msg type tmpaddr addrlen
  | _ => Some (val, msg)
  end.

Definition stun_message_append_xor_addr (msg : list Z) (type : Z) (addr : sockaddr) (addrlen : Z)
  : option (StunMessageReturn * list Z) :=
  let addrlen := Z.min addrlen sizeof_storage in
  '(val, tmpaddr) ← stun_xor_address msg addr addrlen STUN_MAGIC_COOKIE;
  match val with
  | RETURN_SUCCESS => stun_message_append_addr msg type tmpaddr addrlen
  | _ => Some (val, msg)
  end.

Definition strerror_tab : list (Z * text) :=
  [(300, txt "Try alternate server"); (400, txt "Bad request"); (401, txt "Unauthorized");
   (420, txt "Unknown Attribute"); (437, txt "Allocation Mismatch"); (438, txt "Stale Nonce");
   (439, txt "Active Destination Already Set"); (440, txt "Address Family not Supported");
   (442, txt "Unsupported Transport Protocol"); (443, txt "Invalid IP Address"); (444, txt "Invalid Port");
   (445, txt "Operation for TCP Only"); (446, txt "Connection Already Exists");
   (486, txt "Allocation Quota Reached"); (487, txt "Role conflict"); (500, txt "Server Error");
   (507, txt "Insufficient Capacity"); (508, txt "Insufficient Capacity")].

Definition stun_strerror (code : Z) : text :=
  match list_find (fun e => e.1 = code) strerror_tab with
  | Some (_, (_, phrase)) => phrase
  | None => txt "Unknown error"
  end.

Definition stun_message_append_error (msg : list Z) (code : Z) : option (StunMessageReturn * list Z) :=
  let str := stun_strerror code in
  '(ptr, msg) ← stun_message_append msg STUN_ATTRIBUTE_ERROR_CODE (4 + size str);
  match ptr with
  | None => Some (RETURN_NOT_ENOUGH_SPACE, msg)
  | Some ptr =>
      msg ← store msg ptr [0; 0; u8 (Z.quot code 100); u8 (Z.rem code 100)];
      msg ← store msg (ptr + 4) str;
      Some (RETURN_SUCCESS, msg)
  end.

(** stun5389.cpp; the loop counts to 128. *)
Definition stun_message_append_software (msg : list Z) (software : option text) : option (StunMessageReturn * list Z) :=
  let software := c_str (default (txt "srtc") software) ++ [0] in
  len ← software_loop 128 software 0;
  data ← load software 0 len;
  stun_message_append_bytes msg STUN_ATTRIBUTE_SOFTWARE data.

(** *** Validation *)

Definition STUN_MESSAGE_BUFFER_INCOMPLETE : Z := 0.
Definition STUN_MESSAGE_BUFFER_INVALID : Z := -1.

(** The buffer that holds the byte after the first [skip_remaining], and what
    remains to be skipped in it. *)
Fixpoint skip_buffers (buffers : list (list Z)) (skip_remaining : Z) : list (list Z) * Z :=
  match buffers with
  | [] => ([], skip_remaining)
  | b :: rest => if size b <=? skip_remaining then skip_buffers rest (skip_remaining - size b) else (buffers, skip_remaining)
  end.

(** [buffers] are the input vectors, [n_buffers] of them. *)
Definition stun_message_validate_buffer_length_fast (buffers : list (list Z)) (total_length : Z) (has_padding : bool)
  : option Z :=
  match buffers with
  | [] => Some STUN_MESSAGE_BUFFER_INVALID
  | first :: _ =>
      if total_length <? 1 then Some STUN_MESSAGE_BUFFER_INVALID
      else
        b0 ← byte first 0;
        if negb (Z.shiftr b0 6 =? 0) then Some STUN_MESSAGE_BUFFER_INVALID
        else if total_length <? STUN_MESSAGE_LENGTH_POS + STUN_MESSAGE_LENGTH_LEN
        then Some STUN_MESSAGE_BUFFER_INCOMPLETE
        else
          mlen ← (if STUN_MESSAGE_LENGTH_POS + STUN_MESSAGE_LENGTH_LEN <=? size first
                  then stun_getw first STUN_MESSAGE_LENGTH_POS
                  else
                    match skip_buffers buffers STUN_MESSAGE_LENGTH_POS with
                    | ([], _) => None
                    | (b :: next, skip_remaining) =>
                        if 1 <? size b - skip_remaining then stun_getw b skip_remaining
                        else
                          h ← byte b skip_remaining; l ← (head next ≫= fun n => byte n 0);
                          Some (Z.lor (Z.shiftl h 8) l)
                    end);
          let mlen := mlen + STUN_MESSAGE_HEADER_LENGTH in
          if has_padding && negb (stun_padding mlen =? 0) then Some STUN_MESSAGE_BUFFER_INVALID
          else if total_length <? mlen then Some STUN_MESSAGE_BUFFER_INCOMPLETE
          else Some mlen
  end.

(** [true] when the attributes fill [len] bytes from [off] on. *)
Fixpoint validate_loop (fuel : nat) (msg : list Z) (has_padding : bool) (off len : Z) : option bool :=
  if 0 <? len then
    match fuel with
    | O => None
    | S fuel =>
        if len <? 4 then Some false
        else
          alen ← stun_getw msg (off + STUN_ATTRIBUTE_TYPE_LEN);
          let alen := if has_padding then stun_align alen else alen in
          let len := len - 4 in
          if len <? alen then Some false
          else validate_loop fuel msg has_padding (off + 4 + alen) (len - alen)
    end
  else Some true.

(** [length] is that of the memory. *)
Definition stun_message_validate_buffer_length (msg : list Z) (has_padding : bool) : option Z :=
  fast_retval ← stun_message_validate_buffer_length_fast [msg] (size msg) has_padding;
  if fast_retval <=? 0 then Some fast_retval
  else
    valid ← validate_loop (Z.to_nat fast_retval) msg has_padding 20 (fast_retval - 20);
    Some (if (valid : bool) then fast_retval else STUN_MESSAGE_BUFFER_INVALID).

(** *** The header *)

Definition stun_message_id (msg : list Z) : option (list Z) :=
  load msg STUN_MESSAGE_TRANS_ID_POS STUN_MESSAGE_TRANS_ID_LEN.

Definition stun_message_get_method (msg : list Z) : option Z :=
  t ← stun_getw msg 0;
  let t := if t =? 0x0115 then 0x0017 else t in
  Some (Z.lor (Z.lor (Z.shiftr (Z.land t 0x3e00) 2) (Z.shiftr (Z.land t 0x00e0) 1)) (Z.land t 0x000f)).

Definition stun_message_get_class (msg : list Z) : option StunClass :=
  t ← stun_getw msg 0;
  let t := if t =? 0x0115 then 0x0017 else t in
  Some (class_of (Z.lor (Z.shiftr (Z.land t 0x0100) 7) (Z.shiftr (Z.land t 0x0010) 4))).

Definition stun_optional (t : Z) : bool := Z.shiftr t 15 =? 1.

End StunMessage.

(** ** stunhmac.cpp *)

Module StunHmac.
Import Memory.

Section Hmac.
Context `{!Evp}.

(** The digest of [key]; the assertion is that of a debug build. *)
Definition stun_sha1 (msg : list Z) (len msg_len : Z) (key : list Z) (padding : bool) : option (list Z) :=
  _ ← guard_true (44 <=? len);
  head ← load msg 0 2;
  rest ← load msg 4 (len - 28);
  let pad_char := if padding && (0 <? (len - 24) mod 64) then replicate (Z.to_nat (64 - (len - 24) mod 64)) 0 else [] in
  Some (evp_hmac_sha1 key (head ++ be_bytes 2 (u16 msg_len) ++ rest ++ pad_char)).

End Hmac.
End StunHmac.
