(* ===== verification/StunProps.v ===== *)
(** * StunProps: STUN messages as lists of attributes

    [holds b h l] says that the memory [b] begins with the message of header [h]
    and attributes [l].  The functions of [Stun] are read and write operations on
    such a list, and stay inside the memory; the validation accepts the messages
    that are of this form. *)

From stdpp Require Import strings.
From S2P Require Import Prelude Srtp SdpText Crc Stun.
Import Memory StunUtils Stun5389 StunMessage StunHmac.
Open Scope Z_scope.

(** ** Memory *)

Module Pieces.

Lemma size_app (a b : list Z) : size (a ++ b) = size a + size b.
Proof. unfold size. rewrite length_app. lia. Qed.

Lemma size_nonneg (a : list Z) : 0 <= size a.
Proof. unfold size. lia. Qed.

Lemma size_be n v : size (be_bytes n v) = Z.of_nat n.
Proof. unfold size. by rewrite length_be_bytes. Qed.

Lemma size_zeros n : 0 <= n -> size (replicate (Z.to_nat n) 0) = n.
Proof. unfold size. rewrite length_replicate. lia. Qed.

Lemma load_at (a v c : list Z) off n : off = size a -> n = size v -> load (a ++ v ++ c) off n = Some v.
Proof.
  intros -> ->. unfold load. rewrite !size_app. pose proof (size_nonneg a). pose proof (size_nonneg v).
  pose proof (size_nonneg c). repeat (rewrite (proj2 (Z.leb_le _ _)) by lia). cbn [andb]. unfold size.
  by rewrite !Nat2Z.id, drop_app_length, take_app_length.
Qed.

Lemma load_end (a v : list Z) off n : off = size a -> n = size v -> load (a ++ v) off n = Some v.
Proof. intros Ha Hv. rewrite <- (app_nil_r v) at 1. by apply load_at. Qed.

(** A part of what can be read. *)
Lemma load_part b off n x v y : load b off n = Some (x ++ v ++ y) -> load b (off + size x) (size v) = Some v.
Proof.
  unfold load at 1. destruct (_ && _) eqn:Hc; [|done]. intros [= E]. apply andb_true_iff in Hc as [Hc H3].
  apply andb_true_iff in Hc as [H1 H2]. apply Z.leb_le in H1, H2, H3.
  rewrite <- (take_drop (Z.to_nat off) b), <- (take_drop (Z.to_nat n) (drop (Z.to_nat off) b)), E.
  rewrite <- !app_assoc, app_assoc. apply load_at; [|done]. rewrite size_app. unfold size in *.
  rewrite length_take. lia.
Qed.

Lemma byte_part b off n x c y : load b off n = Some (x ++ c :: y) -> byte b (off + size x) = Some c.
Proof. intros H. unfold byte. change (c :: y) with ([c] ++ y) in H. apply load_part in H. change (size [c]) with 1 in H. by rewrite H. Qed.

Lemma store_at (a v v' c : list Z) off : off = size a -> length v' = length v ->
  store (a ++ v ++ c) off v' = Some (a ++ v' ++ c).
Proof.
  intros -> Hv. unfold store. rewrite !size_app. pose proof (size_nonneg a). pose proof (size_nonneg c).
  assert (size v' = size v) as -> by (unfold size; lia).
  repeat (rewrite (proj2 (Z.leb_le _ _)) by lia). cbn [andb]. unfold size.
  rewrite Nat2Z.id, take_app_length, Hv, (app_assoc a v), drop_app_length'; [done|].
  rewrite length_app. lia.
Qed.

Lemma store_front (v v' c : list Z) : length v' = length v -> store (v ++ c) 0 v' = Some (v' ++ c).
Proof. intros Hv. by apply (store_at []). Qed.

Lemma byte_at (a c : list Z) x off : off = size a -> byte (a ++ x :: c) off = Some x.
Proof. intros E. unfold byte. change (x :: c) with ([x] ++ c). by rewrite load_at. Qed.

Lemma byte_front x (c : list Z) : byte (x :: c) 0 = Some x.
Proof. by apply (byte_at []). Qed.

Lemma byte_next (a c : list Z) x y off : off = size a -> byte (a ++ x :: y :: c) (off + 1) = Some y.
Proof.
  intros E. change (a ++ x :: y :: c) with (a ++ [x] ++ y :: c). rewrite app_assoc.
  apply byte_at. rewrite size_app, E. done.
Qed.

Lemma word_rejoin x : is_u16 x -> Z.lor (Z.shiftl (Z.shiftr x 8) 8) (Z.land x 0xff) = x.
Proof.
  intros Hx. unfold is_u16 in Hx. change 0xff with (2 ^ 8 - 1). rewrite land_ones_mod by lia.
  rewrite lor_shiftl_add, shiftr_div by (lia || (apply Z.mod_pos_bound; lia)). zdm.
Qed.

Definition word_bytes (x : Z) : list Z := [Z.shiftr (u16 x) 8; Z.land (u16 x) 0xff].

Lemma word_bytes_be x : word_bytes x = be_bytes 2 x.
Proof.
  unfold word_bytes, be_bytes. cbn. unfold u8, u16. change 0xff with (2 ^ 8 - 1). rewrite land_ones_mod by lia.
  rewrite !shiftr_div by lia. change (8 * Z.of_nat 1) with 8. change (8 * Z.of_nat 0) with 0.
  change (2 ^ 16) with 65536. change (2 ^ 8) with 256. change (2 ^ 0) with 1. f_equal; [|f_equal]; zdm.
Qed.

Lemma getw_at (a c : list Z) x off : off = size a -> is_u16 x -> stun_getw (a ++ be_bytes 2 x ++ c) off = Some x.
Proof.
  intros E Hx. rewrite <- word_bytes_be. unfold word_bytes, stun_getw. rewrite (u16_small x Hx).
  cbn [app]. rewrite (byte_at a _ _ off E), byte_next by done. cbn. by rewrite word_rejoin.
Qed.

Lemma setw_at (a v c : list Z) x off : off = size a -> length v = 2%nat ->
  stun_setw (a ++ v ++ c) off x = Some (a ++ be_bytes 2 x ++ c).
Proof. intros E Hv. rewrite <- word_bytes_be. apply store_at; [done|]. by rewrite Hv. Qed.

(** A memory that is long enough, cut. *)
Lemma cut (r : list Z) n : 0 <= n <= size r -> exists v c, r = v ++ c /\ size v = n.
Proof.
  unfold size. intros H. exists (take (Z.to_nat n) r), (drop (Z.to_nat n) r). split; [by rewrite take_drop|].
  rewrite length_take. lia.
Qed.

Lemma padding_spec l : 0 <= l -> 0 <= stun_padding l < 4 /\ (l + stun_padding l) mod 4 = 0.
Proof.
  intros Hl. unfold stun_padding. change 3 with (2 ^ 2 - 1). rewrite !land_ones_mod by lia. change (2 ^ 2) with 4. zdm.
Qed.

Lemma align_padding l : 0 <= l -> stun_align l = l + stun_padding l.
Proof.
  intros Hl. destruct (padding_spec l Hl) as [Hp Hm]. unfold stun_align.
  assert (Z.land (l + 3) (Z.lnot 3) = (l + 3) / 4 * 4) as ->; [|zdm].
  change (Z.lnot 3) with (Z.lnot (Z.ones 2)). rewrite <- Z.ldiff_land, Z.ldiff_ones_r by lia.
  rewrite Z.shiftl_mul_pow2, shiftr_div by lia. done.
Qed.

End Pieces.

(** ** Messages as lists of attributes *)

Module Codec.
Import Pieces.

Record attr := mkAttr { a_type : Z; a_value : list Z; a_pad : list Z }.

Definition enc (a : attr) : list Z :=
  be_bytes 2 (a_type a) ++ be_bytes 2 (size (a_value a)) ++ a_value a ++ a_pad a.

Definition body (l : list attr) : list Z := concat (enc <$> l).

(** An attribute as the functions write it. *)
Definition plain (type : Z) (value : list Z) : attr :=
  mkAttr type value (replicate (Z.to_nat (stun_padding (size value))) 0).

(** The type of the message as a word, and the transaction. *)
Record header := mkHeader { h_type : Z; h_id : list Z }.

Definition wire (h : header) (l : list attr) : list Z :=
  be_bytes 2 (h_type h) ++ be_bytes 2 (size (body l)) ++ h_id h ++ body l.

Record attr_ok (a : attr) : Prop := {
  ok_type : is_u16 (a_type a);
  ok_value : size (a_value a) < 2 ^ 16;
  ok_pad : size (a_pad a) = stun_padding (size (a_value a))
}.

Record header_ok (h : header) : Prop := { ok_word : is_u16 (h_type h); ok_id : size (h_id h) = 16 }.

Record holds (b : list Z) (h : header) (l : list attr) : Prop := {
  hold_wire : exists rest, b = wire h l ++ rest;
  hold_header : header_ok h;
  hold_attrs : Forall attr_ok l;
  hold_fits : 20 + size (body l) < 2 ^ 16
}.

(** What [stun_message_find] finds in a list that begins at [off]. *)
Fixpoint attr_find (type off : Z) (l : list attr) : option (Z * Z) :=
  match l with
  | [] => None
  | a :: l =>
      if a_type a =? type then Some (off + 4, size (a_value a))
      else if (a_type a =? STUN_ATTRIBUTE_MESSAGE_INTEGRITY) && negb (type =? STUN_ATTRIBUTE_FINGERPRINT) then None
      else if a_type a =? STUN_ATTRIBUTE_FINGERPRINT then None
      else attr_find type (off + size (enc a)) l
  end.

(** *** Sizes *)

Lemma size_enc a : attr_ok a -> size (enc a) = 4 + stun_align (size (a_value a)).
Proof.
  intros [_ _ Hp]. unfold enc. rewrite !size_app, !size_be, Hp, align_padding by apply size_nonneg. lia.
Qed.

Lemma body_cons a l : body (a :: l) = enc a ++ body l.
Proof. done. Qed.

Lemma body_app l k : body (l ++ k) = body l ++ body k.
Proof. unfold body. by rewrite fmap_app, concat_app. Qed.

Lemma body_one a : body [a] = enc a.
Proof. rewrite body_cons. apply app_nil_r. Qed.

Lemma size_body_mod l : Forall attr_ok l -> size (body l) mod 4 = 0.
Proof.
  induction 1 as [|a l Ha Hl IH]; [done|]. rewrite body_cons, size_app, size_enc by done.
  pose proof (size_nonneg (a_value a)) as Hn. rewrite align_padding by done.
  destruct (padding_spec _ Hn) as [_ Hm]. zdm.
Qed.

Lemma size_body_count l : Forall attr_ok l -> 4 * Z.of_nat (length l) <= size (body l).
Proof.
  induction 1 as [|a l Ha Hl IH]; [done|]. rewrite body_cons, size_app, size_enc by done.
  pose proof (size_nonneg (a_value a)) as Hn. rewrite align_padding by done.
  destruct (padding_spec _ Hn) as [Hp _]. cbn [length]. lia.
Qed.

Lemma size_wire h l : header_ok h -> size (wire h l) = 20 + size (body l).
Proof. intros [_ Hi]. unfold wire. rewrite !size_app, !size_be, Hi. lia. Qed.

Lemma plain_ok type value : is_u16 type -> size value < 2 ^ 16 -> attr_ok (plain type value).
Proof.
  intros Ht Hv. constructor; [done..|]. cbn [a_pad a_value plain]. apply size_zeros, padding_spec, size_nonneg.
Qed.

Lemma holds_size b h l : holds b h l -> 20 + size (body l) <= size b.
Proof.
  intros [[rest ->] Hh _ _]. rewrite size_app, size_wire by done. pose proof (size_nonneg rest). lia.
Qed.

(** *** Reading *)

(** The memory around the bytes in question. *)
Lemma wire_parts h l rest :
  wire h l ++ rest = be_bytes 2 (h_type h) ++ be_bytes 2 (size (body l)) ++ (h_id h ++ body l) ++ rest.
Proof. unfold wire. by rewrite <- !app_assoc. Qed.

Lemma holds_type b h l : holds b h l -> load b 0 2 = Some (be_bytes 2 (h_type h)) /\ stun_getw b 0 = Some (h_type h).
Proof.
  intros [[rest ->] [Hw _] _ _]. rewrite wire_parts.
  split; [by apply (load_at [])|by apply (getw_at [])].
Qed.

Lemma holds_length b h l : holds b h l -> stun_message_length b = Some (20 + size (body l)).
Proof.
  intros [[rest ->] _ _ Hf]. rewrite wire_parts. unfold stun_message_length. pose proof (size_nonneg (body l)).
  rewrite getw_at; [|done|unfold is_u16; lia]. cbn. f_equal. unfold STUN_MESSAGE_HEADER_LENGTH. unfold u16.
  rewrite Z.mod_small by lia. lia.
Qed.

Lemma holds_id b h l : holds b h l -> stun_message_id b = Some (h_id h).
Proof.
  intros [[rest ->] [_ Hi] _ _]. rewrite wire_parts, <- !app_assoc. rewrite (app_assoc (be_bytes 2 _)).
  apply load_at; [by rewrite size_app, !size_be|done].
Qed.

(** The transaction and the first attributes. *)
Lemma holds_prefix b h l1 l2 : holds b h (l1 ++ l2) ->
  load b 4 (16 + size (body l1)) = Some (h_id h ++ body l1).
Proof.
  intros [[rest ->] [_ Hi] _ _]. rewrite wire_parts, body_app, <- !app_assoc.
  rewrite (app_assoc (be_bytes 2 _)), (app_assoc (h_id h)).
  apply load_at; [by rewrite size_app, !size_be|]. rewrite size_app. lia.
Qed.

Lemma enc_words pre rest a : attr_ok a ->
  stun_getw (pre ++ enc a ++ rest) (size pre) = Some (a_type a) /\
  stun_getw (pre ++ enc a ++ rest) (size pre + STUN_ATTRIBUTE_TYPE_LEN) = Some (size (a_value a)).
Proof.
  intros [Ht Hs Hd]. unfold enc. rewrite <- !app_assoc. split; [by apply getw_at|].
  rewrite (app_assoc pre). apply getw_at; [by rewrite size_app, size_be|].
  pose proof (size_nonneg (a_value a)). unfold is_u16. lia.
Qed.

Lemma find_loop_spec l fuel pre rest type : Forall attr_ok l -> (length l <= fuel)%nat ->
  find_loop fuel (pre ++ body l ++ rest) type (size pre + size (body l)) (size pre) = Some (attr_find type (size pre) l).
Proof.
  intros Hl. revert fuel pre. induction Hl as [|a l Ha Hl IH]; intros fuel pre Hf.
  - change (size (body [])) with 0. destruct fuel; cbn [find_loop attr_find]; by rewrite (proj2 (Z.ltb_ge _ _)) by lia.
  - destruct fuel as [|fuel]; [cbn in Hf; lia|]. cbn [find_loop attr_find]. rewrite body_cons, size_app.
    pose proof (size_nonneg (body l)). pose proof (size_nonneg (a_value a)) as Hv.
    pose proof (size_enc a Ha) as He. rewrite align_padding in He by done.
    destruct (padding_spec _ Hv) as [Hp _]. destruct Ha as [Ht Hs Hd].
    rewrite (proj2 (Z.ltb_lt _ _)), <- (app_assoc (enc a)) by lia. destruct (enc_words pre (body l ++ rest) a) as [-> ->]; [by constructor|].
    cbn [mbind option_bind]. unfold STUN_ATTRIBUTE_VALUE_POS.
    destruct (_ =? type); [done|]. destruct (_ && _); [done|]. destruct (_ =? STUN_ATTRIBUTE_FINGERPRINT); [done|].
    rewrite align_padding by done.
    specialize (IH fuel (pre ++ enc a) ltac:(cbn in Hf; lia)). rewrite size_app in IH.
    rewrite <- IH. f_equal; [|lia|lia]. unfold enc. by rewrite <- !app_assoc.
Qed.

Lemma holds_find b h l type : holds b h l -> stun_message_find b type = Some (attr_find type 20 l).
Proof.
  intros Hb. unfold stun_message_find. rewrite (holds_length b h l Hb). cbn [mbind option_bind].
  destruct Hb as [[rest ->] [_ Hi] Hl _]. unfold STUN_MESSAGE_ATTRIBUTES_POS.
  set (pre := be_bytes 2 (h_type h) ++ be_bytes 2 (size (body l)) ++ h_id h).
  assert (Hp : size pre = 20) by (unfold pre; rewrite !size_app, !size_be, Hi; done).
  replace (wire h l ++ rest) with (pre ++ body l ++ rest) by (unfold wire, pre; by rewrite <- !app_assoc).
  rewrite <- Hp. apply find_loop_spec; [done|]. pose proof (size_body_count l Hl). lia.
Qed.

(** What is found is the value of an attribute. *)
Lemma attr_find_split type off l p n : attr_find type off l = Some (p, n) ->
  exists l1 v pad l2, l = l1 ++ mkAttr type v pad :: l2 /\ p = off + size (body l1) + 4 /\ n = size v.
Proof.
  revert off. induction l as [|a l IH]; intros off H; [done|]. cbn [attr_find] in H.
  destruct (Z.eqb_spec (a_type a) type) as [<-|_].
  - injection H as <- <-. exists [], (a_value a), (a_pad a), l. split_and!; [by destruct a|change (size (body [])) with 0; lia|done].
  - destruct (_ && _); [done|]. destruct (_ =? STUN_ATTRIBUTE_FINGERPRINT); [done|].
    destruct (IH _ H) as (l1 & v & pad & l2 & -> & -> & ->).
    exists (a :: l1), v, pad, l2. rewrite body_cons, size_app. split_and!; [done|lia|done].
Qed.

Lemma holds_value b h l1 a l2 : holds b h (l1 ++ a :: l2) ->
  load b (20 + size (body l1) + 4) (size (a_value a)) = Some (a_value a).
Proof.
  intros [[rest ->] [_ Hi] _ _]. rewrite wire_parts, body_app, body_cons. unfold enc.
  set (s := size _). set (t := size (a_value a)).
  replace (_ ++ _) with ((be_bytes 2 (h_type h) ++ be_bytes 2 s ++ h_id h ++ body l1 ++
    be_bytes 2 (a_type a) ++ be_bytes 2 t) ++ a_value a ++ a_pad a ++ body l2 ++ rest)
    by (by rewrite <- !app_assoc).
  apply load_at; [|done]. rewrite !size_app, !size_be, Hi. lia.
Qed.

Lemma found_value b h l type p n : holds b h l -> attr_find type 20 l = Some (p, n) ->
  exists v, load b p n = Some v /\ size v = n /\ 24 <= p /\ p + n <= size b.
Proof.
  intros Hb H. destruct (attr_find_split _ _ _ _ _ H) as (l1 & v & pad & l2 & -> & -> & ->).
  exists v. pose proof (holds_value b h l1 _ l2 Hb) as Hv. cbn [a_value] in Hv.
  pose proof (holds_size _ _ _ Hb) as Hs. rewrite body_app, body_cons, !size_app in Hs. unfold enc in Hs.
  rewrite !size_app, !size_be in Hs. cbn [a_value a_pad] in Hs.
  pose proof (size_nonneg (body l1)). pose proof (size_nonneg (body l2)). pose proof (size_nonneg pad).
  split_and!; [done..|lia|lia].
Qed.

(** *** Writing *)

Definition cookied (h : header) : Prop := take 4 (h_id h) = be_bytes 4 STUN_MAGIC_COOKIE.

(** A buffer whose size is a multiple of four and below 2^15. *)
Definition roomy (b : list Z) : Prop := size b mod 4 = 0 /\ size b < 2 ^ 15.

Lemma has_cookie_at p s x rest : size p = 2 -> size s = 2 -> size x = 16 -> take 4 x = be_bytes 4 STUN_MAGIC_COOKIE ->
  stun_message_has_cookie (p ++ s ++ x ++ rest) = Some true.
Proof.
  intros Hp Hs Hx Hc. unfold stun_message_has_cookie. rewrite (app_assoc p), load_at; [|by rewrite size_app, Hp, Hs|done].
  cbn [mbind option_bind]. by rewrite bool_decide_eq_true_2.
Qed.

Lemma append_full b h l type n : holds b h l -> size b < 24 + size (body l) + n ->
  stun_message_append b type n = Some (None, b).
Proof.
  intros Hb Hn. unfold stun_message_append. rewrite (holds_length b h l Hb). cbn [mbind option_bind].
  unfold STUN_ATTRIBUTE_HEADER_LENGTH. by rewrite (proj2 (Z.ltb_lt _ _)) by lia.
Qed.

Lemma store_padding (a d c : list Z) off m n : off = size a -> 0 <= m < 2 ^ 15 -> size d = stun_padding n ->
  (if 0 <? stun_padding n
   then msg ← store (a ++ d ++ c) off (replicate (Z.to_nat (stun_padding n)) 0); Some (u16 (m + stun_padding n), msg)
   else Some (m, a ++ d ++ c)) =
  Some (m + stun_padding n, a ++ replicate (Z.to_nat (stun_padding n)) 0 ++ c).
Proof.
  intros Ho Hm Hd. pose proof (size_nonneg d). destruct (Z.ltb_spec 0 (stun_padding n)) as [Hlt|Hle].
  - assert (stun_padding n < 4).
    { unfold stun_padding in *. change 3 with (2 ^ 2 - 1) in *. rewrite land_ones_mod in * by lia. zdm. }
    rewrite store_at; [|done|rewrite length_replicate; unfold size in Hd; lia].
    cbn [mbind option_bind]. by rewrite u16_small by (unfold is_u16; lia).
  - assert (stun_padding n = 0) as E0 by lia. rewrite E0 in Hd |- *. rewrite Z.add_0_r.
    destruct d; [done|unfold size in Hd; cbn in Hd; lia].
Qed.

Lemma append_pieces p s x y t k v d c type n m :
  size p = 2 -> length s = 2%nat -> length t = 2%nat -> length k = 2%nat -> size v = n ->
  size d = stun_padding n -> size x = 16 -> take 4 x = be_bytes 4 STUN_MAGIC_COOKIE -> m = 20 + size y ->
  0 <= n -> m + 4 + n + stun_padding n < 2 ^ 15 ->
  stun_message_length (p ++ s ++ x ++ y ++ t ++ k ++ v ++ d ++ c) = Some m ->
  stun_message_append (p ++ s ++ x ++ y ++ t ++ k ++ v ++ d ++ c) type n =
  Some (Some (m + 4), p ++ be_bytes 2 (m + 4 + n + stun_padding n - 20) ++ x ++ y ++ be_bytes 2 type ++ be_bytes 2 n ++
                      v ++ replicate (Z.to_nat (stun_padding n)) 0 ++ c).
Proof.
  intros Hp Hs Ht Hk Hv Hd Hx Hc Hm Hn Hr HL. unfold stun_message_append. rewrite HL. cbn [mbind option_bind].
  destruct (padding_spec n Hn) as [Hpad _].
  assert (Hs' : size s = 2) by (unfold size; lia). assert (Ht' : size t = 2) by (unfold size; lia).
  assert (Hk' : size k = 2) by (unfold size; lia). pose proof (size_nonneg c). pose proof (size_nonneg y).
  rewrite (proj2 (Z.ltb_ge _ _)) by (unfold STUN_ATTRIBUTE_HEADER_LENGTH; rewrite !size_app; lia).
  rewrite (app_assoc x), (app_assoc s), (app_assoc p).
  rewrite setw_at by (done || (rewrite !size_app; lia)). cbn [mbind option_bind]. rewrite <- !app_assoc.
  rewrite has_cookie_at by done. cbn [mbind option_bind].
  rewrite (app_assoc y), (app_assoc x), (app_assoc s), (app_assoc p).
  rewrite setw_at by (done || (rewrite !size_app, size_be; lia)). cbn [mbind option_bind].
  rewrite (app_assoc (be_bytes 2 n) v), (app_assoc (p ++ s ++ x ++ y ++ _)).
  rewrite store_padding; [|by rewrite !size_app, !size_be; lia|lia|done]. cbn [mbind option_bind]. rewrite <- !app_assoc.
  rewrite setw_at by done. cbn [mbind option_bind]. unfold STUN_MESSAGE_HEADER_LENGTH.
  rewrite u16_small by (unfold is_u16; lia). by replace (m + stun_padding n + 4 + n) with (m + 4 + n + stun_padding n) by lia.
Qed.

Lemma cut_list (r : list Z) n : (n <= length r)%nat -> exists v c, r = v ++ c /\ length v = n.
Proof. intros H. exists (take n r), (drop n r). rewrite take_drop, length_take. split; [done|lia]. Qed.

Lemma body_snoc l a : body (l ++ [a]) = body l ++ enc a.
Proof. by rewrite body_app, body_one. Qed.

Lemma enc_plain type v : enc (plain type v) =
  be_bytes 2 type ++ be_bytes 2 (size v) ++ v ++ replicate (Z.to_nat (stun_padding (size v))) 0.
Proof. done. Qed.

Lemma size_plain type v : is_u16 type -> size v < 2 ^ 16 ->
  size (enc (plain type v)) = 4 + size v + stun_padding (size v).
Proof. intros Ht Hv. rewrite size_enc, align_padding by (apply size_nonneg || by apply plain_ok). cbn [plain a_value]. lia. Qed.

Lemma append_room b h l type n : holds b h l -> cookied h -> roomy b -> is_u16 type -> 0 <= n ->
  24 + size (body l) + n <= size b ->
  exists v b', stun_message_append b type n = Some (Some (24 + size (body l)), b') /\
    size v = n /\ holds b' h (l ++ [plain type v]) /\ size b' = size b.
Proof.
  intros Hb Hc [Hmod Hsmall] Ht Hn Hroom. pose proof (holds_length b h l Hb) as HL.
  destruct Hb as [[rest ->] Hh Hl Hf]. pose proof (size_body_mod l Hl) as Hbm.
  destruct (padding_spec n Hn) as [Hp Hpm]. rewrite size_app, size_wire in Hmod, Hsmall, Hroom by done.
  pose proof (size_nonneg (body l)) as Hbn.
  destruct (cut_list rest 2) as (t & r1 & -> & Et); [unfold size in *; lia|]. rewrite size_app in *.
  assert (size t = 2) by (unfold size; lia).
  destruct (cut_list r1 2) as (k & r2 & -> & Ek); [unfold size in *; lia|]. rewrite size_app in *.
  assert (size k = 2) by (unfold size; lia).
  destruct (cut r2 n) as (v & r3 & -> & Ev); [lia|]. rewrite size_app in *.
  destruct (cut r3 (stun_padding n)) as (d & c & -> & Ed); [zdm|]. rewrite size_app in *. pose proof (size_nonneg c).
  rewrite wire_parts, <- !app_assoc in HL |- *.
  exists v. eexists. split.
  - replace (24 + size (body l)) with (20 + size (body l) + 4) by lia.
    apply append_pieces; try done; try lia; [by destruct Hh].
  - assert (Hsz : size (body (l ++ [plain type v])) = size (body l) + 4 + n + stun_padding n).
    { rewrite body_snoc, size_app, size_plain, Ev by (done || lia). lia. }
    split_and!; [done| |].
    + constructor; [|done|apply list.Forall_app; split; [done|apply list.Forall_singleton, plain_ok; [done|lia]]|lia].
      exists c. rewrite wire_parts, Hsz, body_snoc, enc_plain, Ev.
      rewrite <- !app_assoc. by replace (20 + size (body l) + 4 + n + stun_padding n - 20) with (size (body l) + 4 + n + stun_padding n) by lia.
    + rewrite size_wire by done. destruct Hh as [_ Hi]. rewrite !size_app, !size_be, size_zeros by lia. lia.
Qed.

(** A part of the value of the last attribute, written where [stun_message_append]
    says. *)
Lemma store_part b h l type x v y v' : holds b h (l ++ [plain type (x ++ v ++ y)]) -> length v' = length v ->
  exists b', store b (24 + size (body l) + size x) v' = Some b' /\
    holds b' h (l ++ [plain type (x ++ v' ++ y)]) /\ size b' = size b.
Proof.
  intros [[rest ->] Hh Hl Hf] Hv. assert (Hs' : size v' = size v) by (unfold size; lia).
  assert (Hs : size (x ++ v' ++ y) = size (x ++ v ++ y)) by (rewrite !size_app; lia).
  apply list.Forall_app in Hl as [Hl Ha]. rewrite list.Forall_singleton in Ha. destruct Ha as [Ht Hsz _].
  cbn [plain a_type a_value] in Ht, Hsz. rewrite body_snoc, size_app, size_plain in Hf by done.
  rewrite wire_parts, body_snoc, enc_plain. set (q := size (body l ++ _)). set (k := be_bytes 2 (size _)). set (d := replicate _ _).
  exists (be_bytes 2 (h_type h) ++ be_bytes 2 q ++ (h_id h ++ body l ++ be_bytes 2 type ++ k ++ (x ++ v' ++ y) ++ d) ++ rest).
  split_and!.
  - pose proof (store_at (be_bytes 2 (h_type h) ++ be_bytes 2 q ++ h_id h ++ body l ++ be_bytes 2 type ++ k ++ x) v v'
      (y ++ d ++ rest) (24 + size (body l) + size x)) as E.
    repeat rewrite <- app_assoc in E. repeat rewrite <- app_assoc. apply E; [|done].
    unfold k. rewrite !size_app, !size_be. destruct Hh as [_ ->]. lia.
  - constructor; [|done| |].
    + assert (Hq : size (body (l ++ [plain type (x ++ v' ++ y)])) = q).
      { unfold q. rewrite body_snoc, enc_plain, Hs, !size_app. lia. }
      exists rest. by rewrite wire_parts, Hq, body_snoc, enc_plain, Hs.
    + apply list.Forall_app. split; [done|]. apply list.Forall_singleton, plain_ok; [done|lia].
    + rewrite body_snoc, size_app, size_plain by (done || lia). rewrite Hs. lia.
  - rewrite !size_app. lia.
Qed.

Lemma store_value b h l type v v' : holds b h (l ++ [plain type v]) -> length v' = length v ->
  exists b', store b (24 + size (body l)) v' = Some b' /\ holds b' h (l ++ [plain type v']) /\ size b' = size b.
Proof.
  intros Hb Hv. destruct (store_part b h l type [] v [] v') as (b' & E & H' & S); [by rewrite app_nil_r|done|].
  change (size []) with 0 in E. rewrite Z.add_0_r in E. cbn [app] in H'. rewrite app_nil_r in H'. eauto.
Qed.

Lemma append_bytes_room b h l type v : holds b h l -> cookied h -> roomy b -> is_u16 type ->
  24 + size (body l) + size v <= size b ->
  exists b', stun_message_append_bytes b type v = Some (RETURN_SUCCESS, b') /\
    holds b' h (l ++ [plain type v]) /\ size b' = size b.
Proof.
  intros Hb Hc Hr Ht Hn. pose proof (size_nonneg v) as Hv.
  destruct (append_room b h l type (size v) Hb Hc Hr Ht Hv Hn) as (v0 & b1 & E & E0 & H1 & S1).
  destruct (store_value b1 h l type v0 v H1) as (b2 & E2 & H2 & S2); [unfold size in E0; lia|].
  exists b2. unfold stun_message_append_bytes. rewrite E. cbn [mbind option_bind]. rewrite E2. split_and!; [done..|lia].
Qed.

Lemma append_bytes_full b h l type v : holds b h l -> size b < 24 + size (body l) + size v ->
  stun_message_append_bytes b type v = Some (RETURN_NOT_ENOUGH_SPACE, b).
Proof. intros Hb Hn. unfold stun_message_append_bytes. by rewrite (append_full b h l type (size v) Hb Hn). Qed.

(** The list with one attribute more, or the list that was. *)
Definition grown (l : list attr) (type : Z) (v : list Z) (l' : list attr) : Prop := l' = l ++ [plain type v] \/ l' = l.

Lemma append_bytes_defined b h l type v : holds b h l -> cookied h -> roomy b -> is_u16 type ->
  exists r b' l', stun_message_append_bytes b type v = Some (r, b') /\ holds b' h l' /\ size b' = size b /\ grown l type v l'.
Proof.
  intros Hb Hc Hr Ht. destruct (decide (24 + size (body l) + size v <= size b)) as [Hn|Hn].
  - destruct (append_bytes_room b h l type v Hb Hc Hr Ht Hn) as (b' & E & H' & S). unfold grown. eauto 10.
  - exists RETURN_NOT_ENOUGH_SPACE, b, l. unfold grown. rewrite (append_bytes_full b h l type v) by (done || lia). eauto.
Qed.

(** *** The header *)

Definition new_header (c : StunClass) (m : Z) (id : list Z) : header :=
  let c := class_value c in
  mkHeader (Z.lor (Z.shiftl (u8 (Z.lor (Z.shiftr c 1) (Z.land (Z.shiftr m 6) 0x3e))) 8)
              (u8 (Z.lor (Z.lor (Z.land (Z.shiftl c 4) 0x10) (Z.land (Z.shiftl m 1) 0xe0)) (Z.land m 0x0f)))) id.

Lemma word_join x y : is_u8 x -> is_u8 y ->
  is_u16 (Z.lor (Z.shiftl x 8) y) /\ be_bytes 2 (Z.lor (Z.shiftl x 8) y) = [x; y].
Proof.
  unfold is_u8, is_u16. intros Hx Hy. rewrite lor_shiftl_add by lia. split; [lia|].
  cbn [be_bytes]. change (8 * Z.of_nat 1) with 8. change (8 * Z.of_nat 0) with 0. rewrite !shiftr_div by lia.
  unfold u8. change (2 ^ 8) with 256 in *. change (2 ^ 0) with 1. f_equal; [|f_equal]; zdm.
Qed.

Lemma init_holds b c m id : 20 <= size b -> size id = 16 ->
  exists b', stun_message_init b c m id = Some (true, b') /\ holds b' (new_header c m id) [] /\ size b' = size b.
Proof.
  intros Hb Hi. destruct (cut b 4) as (x & r & -> & Hx); [lia|]. rewrite size_app in Hb.
  destruct (cut r 16) as (y & r2 & -> & Hy); [lia|]. unfold stun_message_init, STUN_MESSAGE_HEADER_LENGTH.
  rewrite (proj2 (Z.ltb_ge _ _)) by (rewrite !size_app in *; lia).
  rewrite store_front by (unfold size in Hx; cbn; lia). cbn [mbind option_bind]. unfold stun_set_type.
  change ([0; 0; 0; 0] ++ y ++ r2) with ([0; 0] ++ [0; 0] ++ y ++ r2).
  rewrite store_front by done. cbn [mbind option_bind]. rewrite (app_assoc _ [0; 0]).
  rewrite store_at by (done || (unfold size in Hi, Hy; lia)). cbn [mbind option_bind].
  destruct (word_join (u8 (Z.lor (Z.shiftr (class_value c) 1) (Z.land (Z.shiftr m 6) 0x3e)))
    (u8 (Z.lor (Z.lor (Z.land (Z.shiftl (class_value c) 4) 0x10) (Z.land (Z.shiftl m 1) 0xe0)) (Z.land m 0x0f))))
    as [Hw Hbytes]; [apply u8_range..|].
  eexists. split; [done|]. split.
  - constructor; [|by constructor|done|done]. exists r2. unfold wire, new_header. cbn [h_type h_id].
    by rewrite Hbytes, <- !app_assoc.
  - rewrite !size_app, Hi, Hx, Hy. done.
Qed.

Lemma types_table : forallb (fun m => forallb (fun c =>
    let w := h_type (new_header c m []) in
    (w =? 0x0115) ||
    ((Z.lor (Z.lor (Z.shiftr (Z.land w 0x3e00) 2) (Z.shiftr (Z.land w 0x00e0) 1)) (Z.land w 0x000f) =? m) &&
     bool_decide (class_of (Z.lor (Z.shiftr (Z.land w 0x0100) 7) (Z.shiftr (Z.land w 0x0010) 4)) = c)))
  [STUN_REQUEST; STUN_INDICATION; STUN_RESPONSE; STUN_ERROR]) (seqZ 0 4096) = true.
Proof. by vm_compute. Qed.

(** Class and method come back, but for the error of the method CONNECT. *)
Lemma holds_class b c m id l : holds b (new_header c m id) l -> 0 <= m < 2 ^ 12 -> h_type (new_header c m id) <> 0x0115 ->
  stun_message_get_class b = Some c /\ stun_message_get_method b = Some m.
Proof.
  intros Hb Hm Hne. destruct (holds_type b _ l Hb) as [_ Hw].
  pose proof types_table as HT. rewrite forallb_forall in HT. specialize (HT m).
  rewrite <- list_elem_of_In, elem_of_seqZ in HT. specialize (HT ltac:(lia)). rewrite forallb_forall in HT.
  specialize (HT c ltac:(destruct c; cbn; tauto)). cbn zeta in HT.
  change (h_type (new_header c m [])) with (h_type (new_header c m id)) in HT.
  apply Z.eqb_neq in Hne. rewrite Hne in HT. apply andb_true_iff in HT as [Hmm Hcc].
  apply Z.eqb_eq in Hmm. apply bool_decide_eq_true in Hcc.
  unfold stun_message_get_class, stun_message_get_method. rewrite Hw. cbn [mbind option_bind]. rewrite Hne.
  by rewrite Hmm, Hcc.
Qed.

(** *** The checks *)

Section Checks.
Context `{!Evp}.

(** The digest over the attributes before it, and the fingerprint. *)
Definition mac (h : header) (l : list attr) (key : list Z) : list Z :=
  evp_hmac_sha1 key (be_bytes 2 (h_type h) ++ be_bytes 2 (24 + size (body l)) ++ h_id h ++ body l).

Definition crc (h : header) (l : list attr) : list Z :=
  be_bytes 4 (Z.lxor (StunCrc.stun_crc32
    [be_bytes 2 (h_type h); be_bytes 2 (size (body l) + 8); h_id h ++ body l] false) 0x5354554e).

Definition sealed (h : header) (l : list attr) (key : list Z) : list attr :=
  let l := l ++ [plain STUN_ATTRIBUTE_MESSAGE_INTEGRITY (mac h l key)] in
  l ++ [plain STUN_ATTRIBUTE_FINGERPRINT (crc h l)].

Lemma sha1_prefix b h l1 l2 key : holds b h (l1 ++ l2) -> 24 + size (body l1) < 2 ^ 16 ->
  stun_sha1 b (44 + size (body l1)) (24 + size (body l1)) key false = Some (mac h l1 key).
Proof.
  intros Hb Hf. unfold stun_sha1, guard_true. pose proof (size_nonneg (body l1)).
  rewrite (proj2 (Z.leb_le _ _)) by lia. cbn [mbind option_bind].
  destruct (holds_type b h _ Hb) as [-> _]. cbn [mbind option_bind].
  replace (44 + size (body l1) - 28) with (16 + size (body l1)) by lia.
  rewrite (holds_prefix b h l1 l2 Hb). cbn [mbind option_bind andb]. rewrite u16_small by (unfold is_u16; lia).
  unfold mac. by rewrite app_nil_r.
Qed.

Lemma fingerprint_prefix b h l1 a : holds b h (l1 ++ [a]) -> size (enc a) = 8 ->
  stun_fingerprint b (20 + size (body (l1 ++ [a]))) false = Some (crc h l1).
Proof.
  intros Hb Ha. unfold stun_fingerprint. pose proof (hold_fits b h _ Hb) as Hf. rewrite body_snoc, size_app, Ha in Hf |- *.
  destruct (holds_type b h _ Hb) as [-> _]. cbn [mbind option_bind]. pose proof (size_nonneg (body l1)).
  replace (20 + (size (body l1) + 8) - 12) with (16 + size (body l1)) by lia.
  rewrite (holds_prefix b h l1 [a] Hb). cbn [mbind option_bind].
  rewrite u16_small by (unfold is_u16; lia). unfold crc.
  by replace (20 + (size (body l1) + 8) - 20) with (size (body l1) + 8) by lia.
Qed.

End Checks.
End Codec.

(** ** The validation of received messages *)

Module Validation.
Import Pieces Codec.

Lemma getw_bytes a t c off : off = size a -> length t = 2%nat -> bytes_ok t ->
  exists w, is_u16 w /\ t = be_bytes 2 w /\ stun_getw (a ++ t ++ c) off = Some w.
Proof.
  intros Ho Ht Hb. exists (be_value t). pose proof (be_value_range t Hb) as Hr. pose proof (be_bytes_value t Hb) as Hv.
  rewrite Ht in Hr, Hv. assert (Hw : is_u16 (be_value t)) by exact Hr. split_and!; [done..|].
  rewrite <- Hv at 1. by apply getw_at.
Qed.

(** The loop ends, and accepts lists of attributes only. *)
Lemma validate_sound fuel pre r len : bytes_ok r -> 0 <= len <= size r -> len mod 4 = 0 -> (Z.to_nat len <= fuel)%nat ->
  exists v, validate_loop fuel (pre ++ r) true (size pre) len = Some v /\
    (v = true -> exists l rest, r = body l ++ rest /\ size (body l) = len /\ Forall attr_ok l).
Proof.
  revert pre r len. induction fuel as [|fuel IH]; intros pre r len Hb Hlen Hmod Hf; cbn [validate_loop].
  - assert (len = 0) as -> by lia. exists true. split; [done|]. intros _. by exists [], r.
  - destruct (Z.ltb_spec 0 len) as [Hpos|Hz].
    2: { assert (len = 0) as -> by lia. exists true. split; [done|]. intros _. by exists [], r. }
    rewrite (proj2 (Z.ltb_ge len 4)) by zdm.
    destruct (cut_list r 2) as (t & r1 & -> & Ht); [unfold size in Hlen; zdm|].
    apply bytes_ok_app in Hb as [Hbt Hb1]. rewrite size_app in Hlen. assert (size t = 2) by (unfold size; lia).
    destruct (cut_list r1 2) as (k & r2 & -> & Hk); [unfold size in *; zdm|].
    apply bytes_ok_app in Hb1 as [Hbk Hb2]. rewrite size_app in Hlen. assert (size k = 2) by (unfold size; lia).
    destruct (getw_bytes [] t [] 0 eq_refl Ht Hbt) as (type & Htype & -> & _).
    destruct (getw_bytes (pre ++ be_bytes 2 type) k r2 (size pre + STUN_ATTRIBUTE_TYPE_LEN)) as (n & Hn & -> & Hget);
      [by rewrite size_app, size_be|done..|].
    rewrite <- app_assoc in Hget. rewrite Hget. cbn [mbind option_bind]. unfold is_u16 in Hn.
    destruct (padding_spec n) as [Hp Hpm]; [lia|]. rewrite align_padding by lia.
    destruct (Z.ltb_spec (len - 4) (n + stun_padding n)) as [Hsmall|Hbig]; [by exists false|].
    destruct (cut r2 n) as (v & r3 & -> & Hv); [lia|]. rewrite size_app in Hlen.
    destruct (cut r3 (stun_padding n)) as (d & r4 & -> & Hd); [lia|]. rewrite size_app in Hlen.
    apply bytes_ok_app in Hb2 as [_ Hb3]. apply bytes_ok_app in Hb3 as [_ Hb4].
    set (a := mkAttr type v d). assert (Ha : attr_ok a) by (constructor; cbn; [done|lia|by rewrite Hv]).
    assert (He : enc a = be_bytes 2 type ++ be_bytes 2 n ++ v ++ d) by (unfold enc, a; cbn; by rewrite Hv).
    destruct (IH (pre ++ enc a) r4 (len - 4 - (n + stun_padding n))) as (res & E & Hres); [done|lia|zdm|lia|].
    exists res. split.
    + rewrite <- E. rewrite size_app, size_enc, align_padding by (done || apply size_nonneg).
      change (a_value a) with v. rewrite Hv, He, <- !app_assoc. f_equal. lia.
    + intros Ht1. destruct (Hres Ht1) as (l & rest & -> & Hl & Hok). exists (a :: l), rest.
      rewrite body_cons, size_app, size_enc, align_padding, He, <- !app_assoc by (done || apply size_nonneg).
      change (a_value a) with v. rewrite Hv. split_and!; [done|lia|by constructor].
Qed.

Lemma validate_complete l fuel pre rest : Forall attr_ok l -> (length l <= fuel)%nat ->
  validate_loop fuel (pre ++ body l ++ rest) true (size pre) (size (body l)) = Some true.
Proof.
  intros Hl. revert fuel pre. induction Hl as [|a l Ha Hl IH]; intros fuel pre Hf; [by destruct fuel|].
  destruct fuel as [|fuel]; [cbn in Hf; lia|]. cbn [validate_loop]. rewrite body_cons, size_app.
  pose proof (size_nonneg (body l)). pose proof (size_nonneg (a_value a)) as Hv.
  destruct (padding_spec _ Hv) as [Hp _]. pose proof (size_enc a Ha) as He. rewrite align_padding in He by done.
  rewrite (proj2 (Z.ltb_lt _ _)), (proj2 (Z.ltb_ge _ 4)), <- (app_assoc (enc a)) by lia.
  destruct (enc_words pre (body l ++ rest) a Ha) as [_ ->]. cbn [mbind option_bind]. rewrite align_padding by done.
  rewrite (proj2 (Z.ltb_ge _ _)) by lia. specialize (IH fuel (pre ++ enc a) ltac:(cbn in Hf; lia)).
  rewrite <- IH, size_app, <- app_assoc. f_equal; lia.
Qed.

(** A message that begins with two zero bits and holds [l]. *)
Definition valid (b : list Z) (h : header) (l : list attr) : Prop := holds b h l /\ h_type h < 2 ^ 14.

(** The first check, of a memory of one piece. *)
Definition fast_check (t k : Z) (total : Z) : Z :=
  if 2 ^ 14 <=? t then STUN_MESSAGE_BUFFER_INVALID
  else if negb ((k + 20) mod 4 =? 0) then STUN_MESSAGE_BUFFER_INVALID
  else if total <? k + 20 then STUN_MESSAGE_BUFFER_INCOMPLETE
  else k + 20.

Lemma fast_pass t k total : t < 2 ^ 14 -> (k + 20) mod 4 = 0 -> k + 20 <= total -> fast_check t k total = k + 20.
Proof.
  intros Ht Hk Hs. unfold fast_check. by rewrite (proj2 (Z.leb_gt _ _)), Hk, (proj2 (Z.ltb_ge _ _)) by lia.
Qed.

Lemma fast_spec t k rest : is_u16 t -> is_u16 k ->
  let b := be_bytes 2 t ++ be_bytes 2 k ++ rest in
  stun_message_validate_buffer_length_fast [b] (size b) true = Some (fast_check t k (size b)).
Proof.
  intros Ht Hk b. unfold stun_message_validate_buffer_length_fast, fast_check. pose proof (size_nonneg rest).
  assert (Hs : size b = 4 + size rest) by (unfold b; rewrite !size_app, !size_be; lia).
  assert (H0 : byte b 0 = Some (t / 256)).
  { replace (t / 256) with (Z.shiftr (u16 t) 8) by (rewrite u16_small, shiftr_div by (done || lia); done).
    unfold b. rewrite <- word_bytes_be. by apply (byte_at []). }
  assert (Hlen : stun_getw b STUN_MESSAGE_LENGTH_POS = Some k) by (by apply getw_at).
  rewrite (proj2 (Z.ltb_ge _ 1)), H0, Hlen by lia. cbn [mbind option_bind]. unfold is_u16 in *.
  rewrite shiftr_div, Z.div_div by lia. change (256 * 2 ^ 6) with (2 ^ 14).
  unfold STUN_MESSAGE_LENGTH_POS, STUN_MESSAGE_LENGTH_LEN, STUN_MESSAGE_HEADER_LENGTH.
  rewrite (proj2 (Z.ltb_ge _ (2 + 2))), (proj2 (Z.leb_le (2 + 2) _)) by lia. cbn [mbind option_bind].
  destruct (Z.leb_spec (2 ^ 14) t) as [Hbig|Hsmall].
  - by rewrite (proj2 (Z.eqb_neq _ _)) by zdm.
  - rewrite (Z.div_small t) by lia. cbn [negb Z.eqb andb]. destruct (padding_spec (k + 20)) as [Hp Hm]; [lia|].
    replace (stun_padding (k + 20) =? 0) with ((k + 20) mod 4 =? 0); [by repeat case_match|].
    destruct (Z.eqb_spec ((k + 20) mod 4) 0), (Z.eqb_spec (stun_padding (k + 20)) 0); try done; zdm.
Qed.

Lemma valid_accepted b h l : valid b h l -> stun_message_validate_buffer_length b true = Some (20 + size (body l)).
Proof.
  intros [Hb Hty]. pose proof (holds_size b h l Hb) as Hs.
  destruct Hb as [[rest ->] [Hw Hi] Hl Hf]. pose proof (size_body_mod l Hl) as Hm. pose proof (size_nonneg (body l)) as Hn.
  unfold stun_message_validate_buffer_length. rewrite wire_parts in Hs |- *.
  rewrite fast_spec by (done || (unfold is_u16; lia)). rewrite fast_pass by (lia || zdm). cbn [mbind option_bind].
  rewrite (proj2 (Z.leb_gt _ _)) by lia. replace (size (body l) + 20 - 20) with (size (body l)) by lia.
  set (pre := be_bytes 2 (h_type h) ++ be_bytes 2 (size (body l)) ++ h_id h).
  assert (Hp : size pre = 20) by (unfold pre; rewrite !size_app, !size_be, Hi; done).
  pose proof (validate_complete l (Z.to_nat (size (body l) + 20)) pre rest Hl
    ltac:(pose proof (size_body_count l Hl); lia)) as HV. rewrite Hp in HV.
  unfold pre in HV. repeat rewrite <- app_assoc in HV. repeat rewrite <- app_assoc. rewrite HV.
  cbn. f_equal. lia.
Qed.

Lemma fast_small b : bytes_ok b -> size b < 4 ->
  exists r, stun_message_validate_buffer_length_fast [b] (size b) true = Some r /\ r <= 0.
Proof.
  intros Hb Hs. unfold stun_message_validate_buffer_length_fast.
  destruct (Z.ltb_spec (size b) 1) as [|H1]; [by exists STUN_MESSAGE_BUFFER_INVALID|].
  destruct b as [|b0 b]; [done|]. rewrite (byte_front b0 b). cbn [mbind option_bind].
  destruct (negb _); [by exists STUN_MESSAGE_BUFFER_INVALID|].
  rewrite (proj2 (Z.ltb_lt _ _)) by done. by exists STUN_MESSAGE_BUFFER_INCOMPLETE.
Qed.

Lemma accepted_valid b : bytes_ok b -> size b < 2 ^ 16 ->
  exists r, stun_message_validate_buffer_length b true = Some r /\
    (0 < r -> exists h l, valid b h l /\ r = 20 + size (body l)).
Proof.
  intros Hb Hs. unfold stun_message_validate_buffer_length. destruct (Z.lt_ge_cases (size b) 4) as [Hsmall|Hbig].
  { destruct (fast_small b Hb Hsmall) as (r & -> & Hr). cbn [mbind option_bind]. rewrite (proj2 (Z.leb_le _ _)) by done.
    exists r. split; [done|lia]. }
  destruct (cut_list b 2) as (t & b1 & -> & Ht); [unfold size in Hbig; lia|].
  apply bytes_ok_app in Hb as [Hbt Hb1]. rewrite size_app in Hs, Hbig. assert (size t = 2) by (unfold size; lia).
  destruct (cut_list b1 2) as (k & b2 & -> & Hk); [unfold size in *; lia|].
  apply bytes_ok_app in Hb1 as [Hbk Hb2]. rewrite size_app in Hs, Hbig. assert (size k = 2) by (unfold size; lia).
  destruct (getw_bytes [] t [] 0 eq_refl Ht Hbt) as (w & Hw & -> & _).
  destruct (getw_bytes [] k [] 0 eq_refl Hk Hbk) as (n & Hn & -> & _).
  rewrite fast_spec by done. cbn [mbind option_bind]. unfold fast_check. unfold is_u16 in Hn.
  destruct (Z.leb_spec (2 ^ 14) w) as [|Hty]; [by exists STUN_MESSAGE_BUFFER_INVALID|].
  destruct (Z.eqb_spec ((n + 20) mod 4) 0) as [Hmod|]; [|by exists STUN_MESSAGE_BUFFER_INVALID]. cbn [negb].
  rewrite !size_app, !size_be. destruct (Z.ltb_spec (Z.of_nat 2 + (Z.of_nat 2 + size b2)) (n + 20)) as [|Hfit];
    [by exists STUN_MESSAGE_BUFFER_INCOMPLETE|].
  rewrite (proj2 (Z.leb_gt _ _)) by lia. destruct (cut b2 16) as (id & r & -> & Hid); [lia|].
  apply bytes_ok_app in Hb2 as [_ Hbr]. rewrite size_app in Hs, Hfit.
  set (pre := be_bytes 2 w ++ be_bytes 2 n ++ id).
  assert (Hp : size pre = 20) by (unfold pre; rewrite !size_app, !size_be, Hid; done).
  destruct (validate_sound (Z.to_nat (n + 20)) pre r (n + 20 - 20) Hbr) as (v & E & Hv); [lia|zdm|lia|].
  rewrite Hp in E. unfold pre in E. repeat rewrite <- app_assoc in E. rewrite E. cbn [mbind option_bind].
  destruct v; [|by exists STUN_MESSAGE_BUFFER_INVALID]. exists (n + 20). split; [done|]. intros _.
  destruct (Hv eq_refl) as (l & rest & -> & Hl & Hok). exists (mkHeader w id), l. split; [split; [|done]|lia].
  constructor; [|by constructor|done|rewrite size_app in *; lia].
  exists rest. rewrite wire_parts. cbn [h_type h_id]. rewrite Hl, <- !app_assoc. by replace (n + 20 - 20) with n by lia.
Qed.

(** C31: the validation of a datagram (of fewer than 2^16 bytes) is exact:
    [stun_message_validate_buffer_length] always ends without reading behind the
    datagram, and gives a positive length [n] exactly when the datagram begins with a header of two zero bits, whose
    length field counts a sequence of attributes, each with its padding. *)
Theorem validation_exact b : bytes_ok b -> size b < 2 ^ 16 ->
  exists r, stun_message_validate_buffer_length b true = Some r /\
    forall n, 0 < n -> (r = n <-> exists h l, valid b h l /\ n = 20 + size (body l)).
Proof.
  intros Hb Hs. destruct (accepted_valid b Hb Hs) as (r & E & Hr). exists r. split; [done|]. intros n Hn. split.
  - intros ->. by apply Hr.
  - intros (h & l & Hv & ->). rewrite (valid_accepted b h l Hv) in E. by injection E.
Qed.

(** A Binding request that carries SOFTWARE "srtc". *)
Definition sample : list Z :=
  [0; 1; 0; 8; 33; 18; 164; 66; 1; 2; 3; 4; 5; 6; 7; 8; 9; 10; 11; 12; 128; 34; 0; 4; 115; 114; 116; 99].

Lemma validation_exact_witness :
  stun_message_validate_buffer_length sample true = Some 28 /\
  exists r, stun_message_validate_buffer_length sample true = Some r /\
    forall n, 0 < n -> (r = n <-> exists h l, valid sample h l /\ n = 20 + size (body l)).
Proof.
  split; [by vm_compute|]. apply (validation_exact sample); [|by vm_compute].
  apply (bool_decide_unpack (bytes_ok sample)). by vm_compute.
Defined.

End Validation.

(** ** Addresses *)

Module Addresses.
Import Pieces Codec.

Definition addr_ok (a : sockaddr) : Prop :=
  match a with
  | AF_INET port ip => is_u16 port /\ is_u32 ip
  | AF_INET6 port ip => is_u16 port /\ size ip = 16
  | AF_OTHER => False
  end.

Definition addr_size (a : sockaddr) : Z := match a with AF_INET6 _ _ => sizeof_in6 | _ => sizeof_in end.

(** The value of XOR-MAPPED-ADDRESS. *)
Definition addr_bytes (h : header) (a : sockaddr) : list Z :=
  match a with
  | AF_INET port ip => [0; 1] ++ be_bytes 2 (Z.lxor port 0x2112) ++ be_bytes 4 (Z.lxor ip STUN_MAGIC_COOKIE)
  | AF_INET6 port ip => [0; 2] ++ be_bytes 2 (Z.lxor port 0x2112) ++ zip_with Z.lxor ip (h_id h)
  | AF_OTHER => []
  end.

Lemma size_zip (a b : list Z) : size a = size b -> size (zip_with Z.lxor a b) = size a.
Proof. unfold size. intros E. rewrite length_zip_with. lia. Qed.

Lemma zip_twice (a b : list Z) : length a = length b -> zip_with Z.lxor (zip_with Z.lxor a b) b = a.
Proof.
  revert b. induction a as [|x a IH]; intros [|y b] E; try done. cbn. injection E as E.
  rewrite IH by done. by rewrite Z.lxor_assoc, Z.lxor_nilpotent, Z.lxor_0_r.
Qed.

Lemma size_addr_bytes h a : header_ok h -> addr_ok a ->
  size (addr_bytes h a) = match a with AF_INET6 _ _ => 20 | _ => 8 end.
Proof.
  intros [_ Hi] Ha. destruct a as [port ip|port ip|]; [done| |done]. destruct Ha as [_ Hip].
  unfold addr_bytes. rewrite !size_app, size_be, size_zip by lia. rewrite Hip. done.
Qed.

Lemma holds_mask b h l : holds b h l -> load b 4 16 = Some (h_id h).
Proof. apply holds_id. Qed.

(** The three stores behind [stun_message_append] write one value. *)
Lemma store_address b h l type v family port pa : holds b h (l ++ [plain type v]) -> size v = 4 + size pa ->
  exists b1 b2 b3, store b (24 + size (body l)) [0; family] = Some b1 /\
    store b1 (24 + size (body l) + 2) (be_bytes 2 port) = Some b2 /\
    store b2 (24 + size (body l) + 4) pa = Some b3 /\
    holds b3 h (l ++ [plain type ([0; family] ++ be_bytes 2 port ++ pa)]) /\ size b3 = size b.
Proof.
  intros Hb Hv. pose proof (size_nonneg pa).
  destruct (cut_list v 2) as (x & v1 & -> & Hx); [unfold size in *; lia|].
  rewrite size_app in Hv. assert (Sx : size x = 2) by (unfold size; lia).
  destruct (cut_list v1 2) as (y & z & -> & Hy); [unfold size in *; lia|].
  rewrite size_app in Hv. assert (Sy : size y = 2) by (unfold size; lia).
  destruct (store_part b h l type [] x (y ++ z) [0; family] Hb) as (b1 & E1 & H1 & S1); [by rewrite Hx|].
  destruct (store_part b1 h l type [0; family] y z (be_bytes 2 port) H1) as (b2 & E2 & H2 & S2); [by rewrite Hy, length_be_bytes|].
  destruct (store_part b2 h l type ([0; family] ++ be_bytes 2 port) z [] pa) as (b3 & E3 & H3 & S3);
    [by rewrite app_nil_r, <- app_assoc|unfold size in *; lia|].
  rewrite app_nil_r, <- app_assoc in H3. rewrite Z.add_0_r in E1. exists b1, b2, b3. split_and!; [done..|lia].
Qed.

(** [stun_message_append_addr] behind its [switch]. *)
Definition write_address (b : list Z) (type family port : Z) (pa : list Z) : option (StunMessageReturn * list Z) :=
  '(ptr, msg) ← stun_message_append b type (4 + size pa);
  match ptr with
  | None => Some (RETURN_NOT_ENOUGH_SPACE, msg)
  | Some ptr =>
      msg ← store msg ptr [0; family];
      msg ← store msg (ptr + 2) (be_bytes 2 port);
      msg ← store msg (ptr + 4) pa;
      Some (RETURN_SUCCESS, msg)
  end.

Lemma append_as_write b h l type a addrlen : holds b h l -> addr_ok a -> addr_size a <= addrlen <= sizeof_storage ->
  exists family port pa, addr_bytes h a = [0; family] ++ be_bytes 2 port ++ pa /\
    stun_message_append_xor_addr b type a addrlen = write_address b type family port pa.
Proof.
  intros Hb Ha Hlen. unfold stun_message_append_xor_addr. rewrite Z.min_l by lia.
  destruct a as [port ip|port ip|]; [| |done]; unfold addr_size in Hlen; unfold stun_xor_address, stun_message_append_addr.
  - exists 1, (Z.lxor port 0x2112), (be_bytes 4 (Z.lxor ip STUN_MAGIC_COOKIE)). split; [done|].
    by rewrite (proj2 (Z.ltb_ge addrlen sizeof_in)) by lia.
  - exists 2, (Z.lxor port 0x2112), (zip_with Z.lxor ip (h_id h)). split; [done|].
    unfold sizeof_in6, sizeof_in in *.
    rewrite (proj2 (Z.ltb_ge addrlen 28)), (holds_mask b h l Hb) by lia. cbn [mbind option_bind].
    by rewrite (proj2 (Z.ltb_ge addrlen 16)) by lia.
Qed.

Lemma append_address b h l type a addrlen : holds b h l -> cookied h -> roomy b -> is_u16 type -> addr_ok a ->
  addr_size a <= addrlen <= sizeof_storage -> 24 + size (body l) + size (addr_bytes h a) <= size b ->
  exists b', stun_message_append_xor_addr b type a addrlen = Some (RETURN_SUCCESS, b') /\
    holds b' h (l ++ [plain type (addr_bytes h a)]) /\ size b' = size b.
Proof.
  intros Hb Hc Hr Ht Ha Hlen Hroom.
  destruct (append_as_write b h l type a addrlen Hb Ha Hlen) as (family & port & pa & Hbytes & ->).
  rewrite Hbytes in Hroom |- *. rewrite !size_app, size_be in Hroom. change (size [0; family]) with 2 in Hroom.
  pose proof (size_nonneg pa). unfold write_address.
  destruct (append_room b h l type (4 + size pa)) as (v & b1 & E & Hv & H1 & S1); [done..|lia|lia|].
  rewrite E. cbn [mbind option_bind].
  destruct (store_address b1 h l type v family port pa H1 Hv) as (b2 & b3 & b4 & -> & E3 & E4 & H4 & S4).
  cbn [mbind option_bind]. rewrite E3. cbn [mbind option_bind]. rewrite E4. exists b4. split_and!; [done..|lia].
Qed.

Lemma append_address_defined b h l type a addrlen : holds b h l -> cookied h -> roomy b -> is_u16 type -> addr_ok a ->
  addr_size a <= addrlen <= sizeof_storage ->
  exists r b' l', stun_message_append_xor_addr b type a addrlen = Some (r, b') /\ holds b' h l' /\ size b' = size b.
Proof.
  intros Hb Hc Hr Ht Ha Hlen. destruct (decide (24 + size (body l) + size (addr_bytes h a) <= size b)) as [Hroom|Hfull].
  - destruct (append_address b h l type a addrlen) as (b' & E & H & S); eauto 10.
  - destruct (append_as_write b h l type a addrlen Hb Ha Hlen) as (family & port & pa & Hbytes & ->).
    rewrite Hbytes, !size_app, size_be in Hfull. change (size [0; family]) with 2 in Hfull.
    unfold write_address. rewrite (append_full b h l) by (done || lia). cbn [mbind option_bind].
    by exists RETURN_NOT_ENOUGH_SPACE, b, l.
Qed.

Lemma lxor_u16 a b : is_u16 a -> is_u16 b -> is_u16 (Z.lxor a b).
Proof. intros. by apply Crc.lxor_range. Qed.

Lemma unmask a b : Z.lxor (Z.lxor a b) b = a.
Proof. by rewrite Z.lxor_assoc, Z.lxor_nilpotent, Z.lxor_0_r. Qed.

Lemma address_parts b p n family x pa : load b p n = Some ([0; family] ++ be_bytes 2 x ++ pa) ->
  byte b (p + 1) = Some family /\ load b (p + 2) 2 = Some (be_bytes 2 x) /\ load b (p + 4) (size pa) = Some pa.
Proof.
  intros Hv. split_and!.
  - exact (byte_part b p n [0] family (be_bytes 2 x ++ pa) Hv).
  - pose proof (load_part b p n [0; family] (be_bytes 2 x) pa Hv) as H. by rewrite size_be in H.
  - rewrite app_assoc in Hv. rewrite <- (app_nil_r pa) in Hv at 1. apply (load_part b p n _ _ _) in Hv.
    rewrite size_app, size_be in Hv. exact Hv.
Qed.

(** The address that was written is found again. *)
Lemma find_address b h l1 l2 type a addrlen : holds b h (l1 ++ plain type (addr_bytes h a) :: l2) ->
  attr_find type 20 (l1 ++ plain type (addr_bytes h a) :: l2) = Some (24 + size (body l1), size (addr_bytes h a)) ->
  addr_ok a -> addr_size a <= addrlen ->
  stun_message_find_xor_addr b type addrlen = Some (RETURN_SUCCESS, a, addr_size a).
Proof.
  intros Hb Hf Ha Hlen. pose proof (holds_value b h l1 _ l2 Hb) as Hv. cbn [plain a_value] in Hv.
  pose proof (hold_header b h _ Hb) as Hh. pose proof (holds_mask b h _ Hb) as Hmask.
  unfold stun_message_find_xor_addr, stun_message_find_addr. rewrite (holds_find b h _ type Hb), Hf. cbn [mbind option_bind].
  replace (20 + size (body l1) + 4) with (24 + size (body l1)) in Hv by lia.
  rewrite size_addr_bytes in * by done. destruct Hh as [Hw Hi].
  destruct a as [port ip|port ip|]; [| |done]; destruct Ha as [Hport Hip]; unfold addr_size, sizeof_in, sizeof_in6 in *;
    destruct (address_parts _ _ _ _ _ _ Hv) as (-> & -> & Hpa).
  - rewrite size_be in Hpa. cbn [Z.ltb Z.compare Pos.compare Pos.compare_cont mbind option_bind Z.eqb Pos.eqb negb].
    rewrite (proj2 (Z.ltb_ge addrlen 16)) by lia. cbn [orb]. change (Z.of_nat 4) with 4 in Hpa. rewrite Hpa.
    cbn [mbind option_bind]. unfold stun_xor_address. change (16 <? sizeof_in) with false. cbn [mbind option_bind].
    rewrite !be_value_bytes; [|by apply Crc.lxor_u32|by apply lxor_u16].
    change (u16 (Z.shiftr STUN_MAGIC_COOKIE 16)) with 0x2112. change (u32 STUN_MAGIC_COOKIE) with STUN_MAGIC_COOKIE.
    by rewrite !unmask.
  - rewrite size_zip, Hip in Hpa by lia. cbn [Z.ltb Z.compare Pos.compare Pos.compare_cont mbind option_bind Z.eqb Pos.eqb negb].
    rewrite (proj2 (Z.ltb_ge addrlen 28)) by lia. cbn [orb]. rewrite Hpa.
    cbn [mbind option_bind]. unfold stun_xor_address. change (28 <? sizeof_in6) with false. cbn iota. rewrite Hmask.
    cbn [mbind option_bind]. change (u16 (Z.shiftr STUN_MAGIC_COOKIE 16)) with 0x2112.
    by rewrite be_value_bytes, unmask, zip_twice by (by apply lxor_u16 || (unfold size in *; lia)).
Qed.

End Addresses.

(** ** The checksum *)

Module Checksum.
Import Crc StunCrc.

(** The polynomial of IEEE 802.3, 0x04C11DB7, with its bits reversed. *)
#[local] Instance ieee : Polynomial.
Proof. refine {| polynomial := 0xEDB88320 |}. lia. Defined.

Definition ieee_crc (l : list Z) : Z := Z.lxor (divide 0xffffffff l) 0xffffffff.

Lemma crc_step_reg crc b : 0 <= crc -> is_u8 b -> crc_step false crc b = reg 8 (Z.lxor crc b).
Proof.
  intros Hc Hb. unfold crc_step. rewrite andb_false_r.
  apply (table_step crc32_tab crc b); [by vm_compute|done..].
Qed.

Lemma crc_fold crc l : is_u32 crc -> bytes_ok l -> fold_left (crc_step false) l crc = divide crc l.
Proof.
  intros Hc Hl. revert crc Hc. induction Hl as [|b l Hb Hl IH]; intros crc Hc; [done|].
  cbn [fold_left divide]. rewrite crc_step_reg by (done || unfold is_u32 in Hc; lia).
  apply IH, reg_range, lxor_u32; [done|by apply u8_u32].
Qed.

Lemma crc_folds crc data : is_u32 crc -> bytes_ok (concat data) ->
  fold_left (fun crc buf => fold_left (crc_step false) buf crc) data crc = divide crc (concat data).
Proof.
  revert crc. induction data as [|l data IH]; intros crc Hc Hb; [done|].
  cbn [concat] in Hb. apply bytes_ok_app in Hb as [Hl Hd]. cbn [fold_left concat].
  by rewrite crc_fold, IH, divide_app by (done || by apply divide_range).
Qed.

(** [stun_crc32] with its table is the CRC-32 of IEEE 802.3 computed bit by bit,
    of the buffers one behind the other; so it does not depend on how the message
    is cut, as [stun_fingerprint] cuts it around the length field. *)
Theorem stun_crc32_exact data : bytes_ok (concat data) -> stun_crc32 data false = ieee_crc (concat data).
Proof. intros Hb. unfold stun_crc32, ieee_crc. by rewrite crc_folds. Qed.

Lemma stun_crc32_exact_witness :
  stun_crc32 [[0x31; 0x32]; [0x33; 0x34; 0x35]; [0x36; 0x37; 0x38; 0x39]] false = 0xCBF43926.
Proof.
  rewrite (stun_crc32_exact [[0x31; 0x32]; [0x33; 0x34; 0x35]; [0x36; 0x37; 0x38; 0x39]]);
    [vm_compute; reflexivity|apply (bool_decide_unpack (bytes_ok _)); vm_compute; reflexivity].
Defined.

End Checksum.
