(* ===== verification/Ice.v ===== *)
(** * Ice: connectivity checks, src/ice_agent.cpp and the part of
    src/peer_candidate.cpp that sends and answers them

    [IceAgent] makes and verifies the messages and keeps the transactions that
    wait for an answer.  [Candidate] is the state of a [PeerCandidate] between
    its start and the media: STUN, the progress of the DTLS handshake (what
    OpenSSL answers is an argument) and the timers, on the scheduler of
    [Scheduler].  Calls to other objects are in [mLog], in their order.  [None]
    is undefined behaviour. *)

From stdpp Require Import strings.
From S2P Require Import Prelude Tracks Srtp SdpText Scheduler TwccPublish SdpOffer SdpAnswer Stun.
From Stdlib Require Import SpecFloat.
Import Float Text Memory StunUtils Stun5389 StunMessage StunHmac.
Open Scope Z_scope.

(** ** IceAgent *)

Module IceAgent.

Definition kSoftware : text := txt "srtc".

(** Times are in nanoseconds. *)
Record SavedTransaction := mkSaved { when : Z; id : list Z }.

Record t := mk { mTie : Z; mTransactionList : list SavedTransaction }.

(** The arguments are what [mRandom] draws. *)
Definition make (first second : Z) : t := mk (Z.lor (u64 (Z.shiftl first 32)) second) [].

Section Agent.
Context `{!Evp}.
Implicit Type a : t.

(** [transid] is drawn by [stun_make_transid]. *)
Definition initRequest a (buffer : list Z) (m : Z) (transid : list Z) : option (bool * list Z) :=
  '(ready, msg) ← stun_message_init buffer STUN_REQUEST m transid;
  if negb ready then Some (false, msg)
  else
    msg ← store msg STUN_MESSAGE_TRANS_ID_POS (be_bytes 4 STUN_MAGIC_COOKIE);
    '(_, msg) ← stun_message_append_software msg (Some kSoftware);
    '(_, msg) ← stun_message_append64 msg STUN_ATTRIBUTE_ICE_CONTROLLING (mTie a);
    Some (true, msg).

(** Without a request the message has no memory. *)
Definition initResponse (buffer request : list Z) : option (bool * list Z) :=
  c ← stun_message_get_class request;
  if negb (bool_decide (c = STUN_REQUEST)) then Some (false, [])
  else
    transid ← stun_message_id request;
    m ← stun_message_get_method request;
    '(ready, msg) ← stun_message_init buffer STUN_RESPONSE m transid;
    if negb ready then Some (false, msg)
    else
      '(_, msg) ← stun_message_append_software msg (Some kSoftware);
      Some (true, msg).

Definition finishMessage a (msg : list Z) (username : option text) (password : text) (now : Z)
  : option (bool * list Z * t) :=
  msg ← match username with
        | Some username => snd <$> stun_message_append_string msg STUN_ATTRIBUTE_USERNAME username
        | None => Some msg
        end;
  '(ptr, msg) ← stun_message_append msg STUN_ATTRIBUTE_MESSAGE_INTEGRITY 20;
  match ptr with
  | None => Some (false, msg, a)
  | Some ptr =>
      len ← stun_message_length msg;
      sha ← stun_sha1 msg len (len - 20) password false;
      msg ← store msg ptr sha;
      '(ptr, msg) ← stun_message_append msg STUN_ATTRIBUTE_FINGERPRINT 4;
      match ptr with
      | None => Some (false, msg, a)
      | Some ptr =>
          len ← stun_message_length msg;
          fpr ← stun_fingerprint msg len false;
          msg ← store msg ptr fpr;
          c ← stun_message_get_class msg;
          if bool_decide (c = STUN_REQUEST) then
            transid ← stun_message_id msg;
            Some (true, msg, mk (mTie a) (mTransactionList a ++ [mkSaved now transid]))
          else Some (true, msg, a)
      end
  end.

(** The round trip time, in milliseconds, of the first transaction with this id. *)
Fixpoint forget (l : list SavedTransaction) (transid : list Z) (now : Z) : option (spec_float * list SavedTransaction) :=
  match l with
  | [] => None
  | it :: l =>
      if bool_decide (id it = transid)
      then Some (div32 (f32 (Z.quot (now - when it) 1000)) (f32 1000), l)
      else '(rtt, l) ← forget l transid now; Some (rtt, it :: l)
  end.

Definition forgetTransaction a (transid : list Z) (now : Z) : option (spec_float * t) :=
  '(rtt, l) ← forget (mTransactionList a) transid now; Some (rtt, mk (mTie a) l).

(** [expiration] in milliseconds. *)
Definition forgetExpiredTransactions a (expiration now : Z) : t :=
  mk (mTie a) (filter (fun it => ~ when it < now - expiration * 1000000) (mTransactionList a)).

Definition verifyFingerprint (msg : list Z) : option bool :=
  found ← stun_message_find msg STUN_ATTRIBUTE_FINGERPRINT;
  match found with
  | Some (ptr, 4) =>
      fingerprintMessage ← load msg ptr 4;
      len ← stun_message_length msg;
      fingerprintCalculated ← stun_fingerprint msg len false;
      Some (bool_decide (fingerprintMessage = fingerprintCalculated))
  | _ => Some false
  end.

Definition verifyIntegrity (msg : list Z) (password : text) : option bool :=
  found ← stun_message_find msg STUN_ATTRIBUTE_MESSAGE_INTEGRITY;
  match found with
  | Some (ptr, 20) =>
      sha1Calculated ← stun_sha1 msg (ptr + 20) ptr password false;
      sha1Message ← load msg ptr 20;
      Some (bool_decide (sha1Calculated = sha1Message))
  | _ => Some false
  end.

Definition verifyRequestMessage (msg : list Z) (username password : text) : option bool :=
  fingerprint ← verifyFingerprint msg;
  if negb fingerprint then Some false
  else
    found ← stun_message_find msg STUN_ATTRIBUTE_USERNAME;
    match found with
    | None => Some false
    | Some (ptr, len) =>
        if len =? 0 then Some false
        else
          attrUserName ← load msg ptr len;
          if negb (bool_decide (attrUserName = username)) then Some false
          else verifyIntegrity msg password
    end.

Definition verifyResponseMessage (msg : list Z) (password : text) : option bool :=
  fingerprint ← verifyFingerprint msg;
  if negb (fingerprint : bool) then Some false else verifyIntegrity msg password.

End Agent.
End IceAgent.

(** ** PeerCandidate *)

Module Candidate.

Definition kIceMessageBufferSize : nat := 2048.
Definition kConnectTimeout : Z := 5000.
Definition kConnectionLostTimeout : Z := 5000.
Definition kExpireStunPeriod : Z := 1000.
Definition kExpireStunTimeout : Z := 5000.
Definition kKeepAliveCheckTimeout : Z := 1000.
Definition kKeepAliveSendTimeout : Z := 3000.
Definition kConnectRepeatPeriod : Z := 100.
Definition kConnectRepeatIncrement : Z := 100.

Definition make_stun_priority (type_preference local_preference component_id : Z) : Z :=
  u32 (Z.shiftl 1 24 * type_preference + Z.shiftl 1 8 * local_preference + (256 - component_id)).

Definition is_stun_message (buf : list Z) : option bool :=
  if 20 <? size buf then
    data0 ← byte buf 0;
    if data0 <? 2 then cookie ← load buf 4 4; Some (bool_decide (be_bytes 4 STUN_MAGIC_COOKIE = cookie))
    else Some false
  else Some false.

Definition is_dtls_message (buf : list Z) : option bool :=
  if 4 <=? size buf then data0 ← byte buf 0; Some ((20 <=? data0) && (data0 <=? 24)) else Some false.

Definition is_rtc_message (buf : list Z) : option bool :=
  if 8 <=? size buf then data0 ← byte buf 0; Some ((128 <=? data0) && (data0 <=? 191)) else Some false.

Inductive DtlsState := Inactive | Activating | Failed | Completed.

#[global] Instance DtlsState_eq_dec : EqDecision DtlsState.
Proof. solve_decision. Defined.

(** The functions given to the scheduler. *)
Inductive Action :=
| StartConnecting | ConnectTimeout | SendStunBindingRequest (iteration : Z) | SendStunBindingResponse (iteration : Z)
| ConnectionLost | ConnectionRestore | ExpireStunRequests | KeepAlive.

(** The members that point to tasks. *)
Inductive Slot :=
| mTaskConnectTimeout | mTaskSendStunConnectRequest | mTaskSendStunConnectResponse | mTaskConnectionLostTimeout
| mTaskConnectionRestoreTimeout | mTaskExpireStunRequests | mTaskKeepAliveTimeout.

#[global] Instance Slot_eq_dec : EqDecision Slot.
Proof. solve_decision. Defined.

(** Calls to the listener, the socket, the SRTP connection, the TWCC extension,
    the SCTP session, and [onReceivedRtcMessage]. *)
Inductive event :=
| Connecting | IceConnected | DtlsConnected | DtlsDisconnected (error : text) | FailedToConnect (error : text)
| HasDataToSend | SocketSend (buf : list Z) | SrtpPeerConnected | TwccPeerConnected
| SctpStart | SctpReceive (data : list Z) | ReceivedRtcMessage (buf : list Z).

Record Ice := mkIce {
  mIceAgent : IceAgent.t;
  mIceMessageBuffer : list Z;
  mIceRttFilter : Filter.t;
  mSentUseCandidate : bool;
  mDrawn : nat
}.

(** Whether [mDtlsSsl] and [mSrtpConnection] (with [mSendPacer]) are there. *)
Record Dtls := mkDtls {
  mDtlsState : DtlsState;
  mDtlsSsl : bool;
  mSrtpConnection : bool;
  mDtlsReceiveQueue : list (list Z)
}.

Record Timers := mkTimers {
  mTasks : Slot -> option nat;
  mScheduler : ScopedScheduler.t Action;
  mLoop : LoopScheduler.t Action
}.

(** The last times are [None] at [time_point::min()]. *)
Record t := mk {
  ice : Ice;
  dtls : Dtls;
  timers : Timers;
  mIsConnected : bool;
  mLastSendTime : option Z;
  mLastReceiveTime : option Z;
  mRawSendQueue : list (list Z);
  mLog : list event
}.

Implicit Type w : t.

Definition set_ice (x : Ice) w : t :=
  mk x (dtls w) (timers w) (mIsConnected w) (mLastSendTime w) (mLastReceiveTime w) (mRawSendQueue w) (mLog w).
Definition set_dtls (x : Dtls) w : t :=
  mk (ice w) x (timers w) (mIsConnected w) (mLastSendTime w) (mLastReceiveTime w) (mRawSendQueue w) (mLog w).
Definition set_timers (x : Timers) w : t :=
  mk (ice w) (dtls w) x (mIsConnected w) (mLastSendTime w) (mLastReceiveTime w) (mRawSendQueue w) (mLog w).
Definition set_connected (x : bool) w : t :=
  mk (ice w) (dtls w) (timers w) x (mLastSendTime w) (mLastReceiveTime w) (mRawSendQueue w) (mLog w).
Definition set_received (x : Z) w : t :=
  mk (ice w) (dtls w) (timers w) (mIsConnected w) (mLastSendTime w) (Some x) (mRawSendQueue w) (mLog w).
Definition set_sent (x : Z) w : t :=
  mk (ice w) (dtls w) (timers w) (mIsConnected w) (Some x) (mLastReceiveTime w) (mRawSendQueue w) (mLog w).
Definition set_queue (x : list (list Z)) w : t :=
  mk (ice w) (dtls w) (timers w) (mIsConnected w) (mLastSendTime w) (mLastReceiveTime w) x (mLog w).
Definition emit (e : event) w : t :=
  mk (ice w) (dtls w) (timers w) (mIsConnected w) (mLastSendTime w) (mLastReceiveTime w) (mRawSendQueue w) (mLog w ++ [e]).

Definition set_agent (a : IceAgent.t) w : t :=
  set_ice (mkIce a (mIceMessageBuffer (ice w)) (mIceRttFilter (ice w)) (mSentUseCandidate (ice w)) (mDrawn (ice w))) w.
Definition set_state (s : DtlsState) w : t :=
  set_dtls (mkDtls s (mDtlsSsl (dtls w)) (mSrtpConnection (dtls w)) (mDtlsReceiveQueue (dtls w))) w.
Definition set_srtp (b : bool) w : t :=
  set_dtls (mkDtls (mDtlsState (dtls w)) (mDtlsSsl (dtls w)) b (mDtlsReceiveQueue (dtls w))) w.

Definition set_task (slot : Slot) (id : option nat) (s : ScopedScheduler.t Action) (l : LoopScheduler.t Action) w : t :=
  set_timers (mkTimers (fun x => if decide (x = slot) then id else mTasks (timers w) x) s l) w.

Section Candidate.
Context `{!Evp} (clock : nat -> Z) (transid : nat -> list Z).
Context (mOffer : SdpOffer.t) (mAnswer : Answer.t) (hasTWCC hasSctp : bool).

(** *** The clock and the tasks *)

Definition now w : Z * t :=
  let '(now, l) := LoopScheduler.now clock (mLoop (timers w)) in
  (now, set_timers (mkTimers (mTasks (timers w)) (mScheduler (timers w)) l) w).

(** [mScheduler.submit], its answer stored in a member. *)
Definition submit (slot : Slot) (delay : Z) (f : Action) w : t :=
  let '(id, s, l) := ScopedScheduler.submit clock delay f (mScheduler (timers w)) (mLoop (timers w)) in
  set_task slot (Some id) s l w.

Definition lock (slot : Slot) w : option (ScopedScheduler.TaskImpl Action) :=
  mTasks (timers w) slot ≫= fun id => ScopedScheduler.lock_impl id (mScheduler (timers w)).

(** [Task::cancelHelper]. *)
Definition cancelHelper (slot : Slot) w : t :=
  match lock slot w with
  | Some impl =>
      let '(s, l) := ScopedScheduler.cancelImpl impl (mScheduler (timers w)) (mLoop (timers w)) in
      set_task slot None s l w
  | None => set_task slot None (mScheduler (timers w)) (mLoop (timers w)) w
  end.

(** The task is moved, or a new one submitted. *)
Definition update_or_submit (slot : Slot) (delay : Z) (f : Action) w : t :=
  match lock slot w with
  | Some impl =>
      let '(id, s, l) := ScopedScheduler.updateImpl clock impl delay (mScheduler (timers w)) (mLoop (timers w)) in
      set_task slot id s l w
  | None => submit slot delay f w
  end.

(** *** Messages *)

Definition make_stun_message_binding_request (agent : IceAgent.t) (buf : list Z) (id : list Z) (useCandidate : bool)
  (now : Z) : option (list Z * IceAgent.t) :=
  '(_, msg) ← IceAgent.initRequest agent buf STUN_BINDING id;
  msg ← (if useCandidate then snd <$> stun_message_append_flag msg STUN_ATTRIBUTE_USE_CANDIDATE else Some msg);
  '(_, msg) ← stun_message_append32 msg STUN_ATTRIBUTE_PRIORITY (make_stun_priority 200 10 1);
  let offerUserName := SdpOffer.getIceUFrag mOffer in
  let answerUserName := Answer.mIceUFrag mAnswer in
  let iceUserName := answerUserName ++ txt ":" ++ offerUserName in
  let icePassword := Answer.mIcePassword mAnswer in
  '(_, msg, agent) ← IceAgent.finishMessage agent msg (Some iceUserName) icePassword now;
  Some (msg, agent).

(** The clock is not read for a response. *)
Definition make_stun_message_binding_response (agent : IceAgent.t) (buf request : list Z) (address : sockaddr)
  (addressLen : Z) : option (list Z * IceAgent.t) :=
  '(_, msg) ← IceAgent.initResponse buf request;
  '(_, msg) ← stun_message_append_xor_addr msg STUN_ATTRIBUTE_XOR_MAPPED_ADDRESS address addressLen;
  let icePassword := SdpOffer.getIcePassword mOffer in
  '(_, msg, agent) ← IceAgent.finishMessage agent msg None icePassword 0;
  Some (msg, agent).

Definition addSendRaw (buf : list Z) w : t := emit HasDataToSend (set_queue (mRawSendQueue w ++ [buf]) w).

Definition flushSendRaw w : t := fold_left (fun w buf => emit (SocketSend buf) w) (mRawSendQueue w) (set_queue [] w).

(** What [make_stun_message_binding_request] leaves in the candidate's buffer is
    sent. *)
Definition sendBindingRequest (useCandidate : bool) w : option t :=
  let '(now, w) := now w in
  let i := ice w in
  '(msg, agent) ← make_stun_message_binding_request (mIceAgent i) (mIceMessageBuffer i) (transid (mDrawn i)) useCandidate now;
  len ← stun_message_length msg;
  buf ← load msg 0 len;
  Some (addSendRaw buf (set_ice (mkIce agent msg (mIceRttFilter i) (mSentUseCandidate i) (S (mDrawn i))) w)).

Definition repeat_delay (iteration : Z) : Z := kConnectRepeatPeriod + u32 (iteration + 1) * kConnectRepeatIncrement.

Definition sendStunBindingRequest (iteration : Z) w : option t :=
  w ← sendBindingRequest false w;
  Some (submit mTaskSendStunConnectRequest (repeat_delay iteration) (SendStunBindingRequest (u32 (iteration + 1))) w).

Definition sendStunBindingResponse (iteration : Z) w : option t :=
  w ← sendBindingRequest true w;
  Some (submit mTaskSendStunConnectResponse (repeat_delay iteration) (SendStunBindingResponse (u32 (iteration + 1))) w).

(** *** Connected, and lost *)

Definition emitOnConnecting w : t := emit Connecting w.
Definition emitOnIceConnected w : t := emit IceConnected w.

(** [mSrtpConnection] is not null. *)
Definition emitOnDtlsConnected w : option t :=
  let w := emit DtlsConnected w in
  _ ← guard_true (mSrtpConnection (dtls w));
  let w := emit SrtpPeerConnected w in
  Some (if hasTWCC then emit TwccPeerConnected w else w).

Definition emitOnDtlsDisconnected (error : text) w : t := emit (DtlsDisconnected error) w.
Definition emitOnFailedToConnect (error : text) w : t := emit (FailedToConnect error) w.

Definition updateConnectionLostTimeout w : t :=
  update_or_submit mTaskConnectionLostTimeout kConnectionLostTimeout ConnectionLost w.

Definition onReceivedFromRemote w : option t :=
  let '(now, w) := now w in
  let w := updateConnectionLostTimeout (set_received now w) in
  let w := cancelHelper mTaskConnectTimeout w in
  let w := cancelHelper mTaskConnectionRestoreTimeout w in
  if mIsConnected w then Some w else emitOnDtlsConnected (set_connected true w).

Definition sendConnectionRestoreRequest w : option t :=
  w ← sendBindingRequest false w;
  let w := cancelHelper mTaskConnectionRestoreTimeout w in
  Some (submit mTaskConnectionRestoreTimeout kConnectTimeout ConnectionRestore w).

Definition onConnectionLostTimeout w : option t :=
  let w := cancelHelper mTaskConnectionLostTimeout w in
  let w := emitOnConnecting (set_connected false w) in
  let w := cancelHelper mTaskConnectTimeout w in
  let w := submit mTaskConnectTimeout kConnectTimeout ConnectTimeout w in
  sendConnectionRestoreRequest w.

Definition updateKeepAliveTimeout w : t :=
  update_or_submit mTaskKeepAliveTimeout kKeepAliveCheckTimeout KeepAlive w.

(** The difference to [time_point::min()] overflows. *)
Definition onKeepAliveTimeout w : option t :=
  let w := updateKeepAliveTimeout w in
  let '(now, w) := now w in
  lastSend ← mLastSendTime w;
  silent ← (if now - lastSend <? kKeepAliveSendTimeout * 1000000
            then lastReceive ← mLastReceiveTime w;
                 Some (negb (now - lastReceive <? kKeepAliveSendTimeout * 1000000))
            else Some true);
  if (silent : bool) then sendBindingRequest false w else Some w.

Definition forgetExpiredStunRequests w : t :=
  let '(now, w) := now w in
  let w := set_agent (IceAgent.forgetExpiredTransactions (mIceAgent (ice w)) kExpireStunTimeout now) w in
  submit mTaskExpireStunRequests kExpireStunPeriod ExpireStunRequests w.

Definition startConnecting w : option t :=
  let w := emitOnConnecting w in
  let w := cancelHelper mTaskConnectionLostTimeout w in
  let w := cancelHelper mTaskKeepAliveTimeout w in
  let w := set_srtp false w in
  let w := cancelHelper mTaskConnectTimeout w in
  let w := submit mTaskConnectTimeout kConnectTimeout ConnectTimeout w in
  sendStunBindingRequest 0 w.

(** *** Received messages *)

Definition onReceivedStunMessage (buf : list Z) (addr : sockaddr) (addr_len : Z) w : option t :=
  stunMessageClass ← stun_message_get_class buf;
  stunMessageMethod ← stun_message_get_method buf;
  if bool_decide (stunMessageClass = STUN_REQUEST) && (stunMessageMethod =? STUN_BINDING) then
    let offerUserName := SdpOffer.getIceUFrag mOffer in
    let answerUserName := Answer.mIceUFrag mAnswer in
    let iceUserName := offerUserName ++ txt ":" ++ answerUserName in
    let icePassword := SdpOffer.getIcePassword mOffer in
    verified ← IceAgent.verifyRequestMessage buf iceUserName icePassword;
    if (verified : bool) then
      let i := ice w in
      '(response, agent) ← make_stun_message_binding_response (mIceAgent i) (mIceMessageBuffer i) buf addr addr_len;
      len ← stun_message_length response;
      raw ← load response 0 len;
      Some (addSendRaw raw (set_ice (mkIce agent response (mIceRttFilter i) (mSentUseCandidate i) (mDrawn i)) w))
    else Some w
  else if bool_decide (stunMessageClass = STUN_RESPONSE) && (stunMessageMethod =? STUN_BINDING) then
    '(found, code) ← stun_message_find_error buf;
    let errorCode := if bool_decide (found = RETURN_SUCCESS) then code else 0 in
    id ← stun_message_id buf;
    let '(time, w') := now w in
    match IceAgent.forgetTransaction (mIceAgent (ice w)) id time with
    | None => Some w
    | Some (rtt, agent) =>
        let '(time, w) := now w' in
        let i := ice w in
        let w := set_ice (mkIce agent (mIceMessageBuffer i) (Filter.update (mIceRttFilter i) rtt time)
                            (mSentUseCandidate i) (mDrawn i)) w in
        verified ← (if errorCode =? 0 then IceAgent.verifyResponseMessage buf (Answer.mIcePassword mAnswer)
                    else Some false);
        if (verified : bool) then
          if mSentUseCandidate (ice w) then
            if bool_decide (mDtlsState (dtls w) = Completed) then onReceivedFromRemote w else Some w
          else
            let i := ice w in
            let w := set_ice (mkIce (mIceAgent i) (mIceMessageBuffer i) (mIceRttFilter i) true (mDrawn i)) w in
            w ← sendStunBindingResponse 0 (emitOnIceConnected w);
            Some (set_state Activating w)
        else Some w
    end
  else Some w.

(** [freeDTLS]. *)
Definition freeDTLS w : t :=
  flushSendRaw (set_dtls (mkDtls (mDtlsState (dtls w)) false (mSrtpConnection (dtls w)) []) w).

(** What OpenSSL makes of a message: the outcome of the handshake, or of a read. *)
Inductive ssl_result :=
| WantRead
| NoCertificate
| Handshake (fingerprint : list Z) (srtpError : option text)
| HandshakeError (opensslError : text)
| Read (data : list Z)
| Shutdown
| ReadError (wants : bool).

Definition fail_dtls (error : text) w : t :=
  freeDTLS (emitOnFailedToConnect error (cancelHelper mTaskConnectTimeout (set_state Failed w))).

(** What OpenSSL writes meanwhile is not in [mRawSendQueue]. *)
Definition onReceivedDtlsMessage (buf : list Z) (ssl : ssl_result) w : option t :=
  let w := cancelHelper mTaskSendStunConnectRequest w in
  let w := cancelHelper mTaskSendStunConnectResponse w in
  let d := dtls w in
  let w := set_dtls (mkDtls (mDtlsState d) (mDtlsSsl d) (mSrtpConnection d) (mDtlsReceiveQueue d ++ [buf])) w in
  match mDtlsState d, ssl with
  | Activating, Handshake fingerprint srtpError =>
      if bool_decide (X509Hash.mBin (Answer.mCertHash mAnswer) = fingerprint) then
        match srtpError with
        | None =>
            w ← onReceivedFromRemote (set_state Completed (set_srtp true w));
            Some (if hasSctp then emit SctpStart w else w)
        | Some error => Some (fail_dtls error w)
        end
      else Some (fail_dtls (txt "Certificate hash doesn't match") w)
  | Activating, NoCertificate => Some (fail_dtls (txt "There is no DTLS server certificate") w)
  | Activating, HandshakeError error => Some (fail_dtls (txt "Failure during DTLS handshake: " ++ error) w)
  | Completed, Read data => Some (if hasSctp then emit (SctpReceive data) w else w)
  | Completed, Shutdown => Some (emitOnDtlsDisconnected [] w)
  | Completed, ReadError false => Some (emitOnDtlsDisconnected (txt "DTLS connection lost unexpectedly") w)
  | _, _ => Some w
  end.

(** One round of the loop of [run] that empties [mRawReceiveQueue]. *)
Definition receive (buf : list Z) (addr : sockaddr) (addr_len : Z) (ssl : ssl_result) w : option t :=
  stun ← is_stun_message buf;
  if (stun : bool) then onReceivedStunMessage buf addr addr_len w
  else
    is_dtls ← is_dtls_message buf;
    if mDtlsSsl (dtls w) && is_dtls then onReceivedDtlsMessage buf ssl w
    else
      rtc ← is_rtc_message buf;
      Some (if (rtc : bool) then emit (ReceivedRtcMessage buf) w else w).

(** The part of [run] behind that loop: the handshake is prepared; OpenSSL takes
    the private key or not. *)
Definition prepareDtls (keyValid : bool) w : t :=
  if bool_decide (mDtlsState (dtls w) = Activating) && negb (mDtlsSsl (dtls w)) then
    if keyValid
    then set_dtls (mkDtls Activating true (mSrtpConnection (dtls w)) (mDtlsReceiveQueue (dtls w))) w
    else emitOnFailedToConnect (txt "Invalid private key") (set_state Failed w)
  else w.

(** The function given to the pacer. *)
Definition onSend w : t := let '(now, w) := now w in set_sent now w.

(** *** The constructor, the destructor, and a turn of the scheduler *)

Definition make (agent : IceAgent.t) (startDelay : Z) : t :=
  let w := mk (mkIce agent (replicate kIceMessageBufferSize 0) (Filter.make (div32 (f32 2) (f32 10))) false 0)
              (mkDtls Inactive false false [])
              (mkTimers (fun _ => None) (ScopedScheduler.mk 0 [] 0) LoopScheduler.make)
              false None None [] [] in
  let '(_, s, l) := ScopedScheduler.submit clock startDelay StartConnecting (mScheduler (timers w)) (mLoop (timers w)) in
  let w := set_timers (mkTimers (mTasks (timers w)) s l) w in
  let w := cancelHelper mTaskExpireStunRequests w in
  submit mTaskExpireStunRequests kExpireStunPeriod ExpireStunRequests w.

Definition destroy w : t * LoopScheduler.t Action :=
  let w := freeDTLS w in (w, ScopedScheduler.destroy (mScheduler (timers w)) (mLoop (timers w))).

Definition perform (f : Action) w : option t :=
  match f with
  | StartConnecting => startConnecting w
  | ConnectTimeout => Some (emitOnFailedToConnect (txt "Connect timeout") w)
  | SendStunBindingRequest iteration => sendStunBindingRequest iteration w
  | SendStunBindingResponse iteration => sendStunBindingResponse iteration w
  | ConnectionLost => onConnectionLostTimeout w
  | ConnectionRestore => sendConnectionRestoreRequest w
  | ExpireStunRequests => Some (forgetExpiredStunRequests w)
  | KeepAlive => onKeepAliveTimeout w
  end.

Definition set_loop (l : LoopScheduler.t Action) w : t :=
  set_timers (mkTimers (mTasks (timers w)) (mScheduler (timers w)) l) w.

(** One round of [LoopScheduler::run]: whether a task was run. *)
Definition turn w : option (bool * t) :=
  match LoopScheduler.begin clock (mLoop (timers w)) with
  | (None, l) => Some (false, set_loop l w)
  | (Some task, l) =>
      w ← perform (LoopScheduler.mFunc task) (set_loop l w);
      Some (true, set_loop (LoopScheduler.finish (mLoop (timers w))) w)
  end.

End Candidate.
End Candidate.
