(* ===== verification/IceProps.v ===== *)
(** * IceProps: connectivity checks between two ends

    What one [IceAgent] makes, the other verifies ([Sealing]); a request and its
    answer bring both ends on ([Exchange]). *)

From stdpp Require Import strings.
From S2P Require Import Prelude Tracks Srtp SrtpProps SdpText Scheduler TwccPublish SdpOffer SdpAnswer SdpLoop Stun StunProps Ice.
Import Text Memory StunUtils Stun5389 StunMessage StunHmac Pieces Codec.
Open Scope Z_scope.

(** ** Messages made, and verified *)

Module Sealing.
Import IceAgent.

Section Sealing.
Context {EV : Evp} {EL : EvpLaws}.

(** The class that a type word says. *)
Definition word_class (w : Z) : StunClass :=
  let w := if w =? 0x0115 then 0x0017 else w in
  class_of (Z.lor (Z.shiftr (Z.land w 0x0100) 7) (Z.shiftr (Z.land w 0x0010) 4)).

Definition word_method (w : Z) : Z :=
  let w := if w =? 0x0115 then 0x0017 else w in
  Z.lor (Z.lor (Z.shiftr (Z.land w 0x3e00) 2) (Z.shiftr (Z.land w 0x00e0) 1)) (Z.land w 0x000f).

Lemma holds_word b h l : holds b h l ->
  stun_message_get_class b = Some (word_class (h_type h)) /\ stun_message_get_method b = Some (word_method (h_type h)).
Proof.
  intros Hb. destruct (holds_type b h l Hb) as [_ Hw]. unfold stun_message_get_class, stun_message_get_method.
  by rewrite Hw.
Qed.

Lemma software_bytes b : stun_message_append_software b (Some kSoftware) =
  stun_message_append_bytes b STUN_ATTRIBUTE_SOFTWARE kSoftware.
Proof. done. Qed.

Lemma size_mac h l key : size (mac h l key) = 20.
Proof using EL. unfold size, mac. by rewrite hmac_length. Qed.

Lemma size_crc h l : size (crc h l) = 4.
Proof. apply size_be. Qed.

(** *** The transaction of a request *)

Lemma set_cookie b h : holds b h [] ->
  exists b', store b STUN_MESSAGE_TRANS_ID_POS (be_bytes 4 STUN_MAGIC_COOKIE) = Some b' /\
    holds b' (mkHeader (h_type h) (be_bytes 4 STUN_MAGIC_COOKIE ++ drop 4 (h_id h))) [] /\ size b' = size b.
Proof.
  intros [[rest ->] [Hw Hi] Hl Hf]. set (c := be_bytes 4 STUN_MAGIC_COOKIE).
  assert (Hid : h_id h = take 4 (h_id h) ++ drop 4 (h_id h)) by (by rewrite take_drop).
  assert (Ht : length (take 4 (h_id h)) = 4%nat) by (rewrite length_take; unfold size in Hi; lia).
  exists (wire (mkHeader (h_type h) (c ++ drop 4 (h_id h))) [] ++ rest).
  rewrite !wire_parts. cbn [h_type h_id]. rewrite Hid at 1. rewrite <- !app_assoc.
  rewrite (app_assoc (be_bytes 2 _)). split_and!.
  - rewrite store_at; [by rewrite <- !app_assoc|by rewrite size_app, !size_be|]. by rewrite Ht.
  - constructor; [|constructor; [done|]|done|done].
    + exists rest. rewrite wire_parts. cbn [h_type h_id]. by rewrite <- !app_assoc.
    + cbn [h_id]. rewrite Hid, size_app in Hi. rewrite size_app. unfold size in *. rewrite Ht in Hi. cbn. lia.
  - rewrite !size_app, !size_be. rewrite Hid at 2. rewrite size_app. unfold size. rewrite Ht. cbn. lia.
Qed.

(** *** Requests and responses begun *)

Definition tie_bytes (tie : Z) : list Z := be_bytes 4 (u32 (Z.shiftr tie 32)) ++ be_bytes 4 (u32 tie).

Definition request_id (transid : list Z) : list Z := be_bytes 4 STUN_MAGIC_COOKIE ++ drop 4 transid.

Lemma request_cookied c m transid : cookied (new_header c m (request_id transid)).
Proof. done. Qed.

Lemma size_body_snoc l type v : is_u16 type -> size v < 2 ^ 16 ->
  size (body (l ++ [plain type v])) = size (body l) + 4 + size v + stun_padding (size v).
Proof. intros Ht Hv. rewrite body_snoc, size_app, size_plain by done. lia. Qed.

Lemma initRequest_holds a b m transid : size transid = 16 -> roomy b -> 40 <= size b ->
  exists b', initRequest a b m transid = Some (true, b') /\
    holds b' (new_header STUN_REQUEST m (request_id transid))
      [plain STUN_ATTRIBUTE_SOFTWARE kSoftware; plain STUN_ATTRIBUTE_ICE_CONTROLLING (tie_bytes (mTie a))] /\
    size b' = size b.
Proof.
  intros Hid [Hm Hs] Hb. unfold initRequest.
  destruct (init_holds b STUN_REQUEST m transid) as (b1 & -> & H1 & S1); [lia|done|]. cbn [mbind option_bind negb].
  destruct (set_cookie b1 _ H1) as (b2 & -> & H2 & S2). cbn [mbind option_bind].
  change (mkHeader _ _) with (new_header STUN_REQUEST m (request_id transid)) in H2.
  assert (R2 : roomy b2) by (split; [congruence|lia]).
  destruct (append_bytes_room b2 _ [] STUN_ATTRIBUTE_SOFTWARE kSoftware H2 (request_cookied _ _ _) R2) as (b3 & E3 & H3 & S3);
    [done|change (size (body [])) with 0; change (size kSoftware) with 4; lia|].
  rewrite software_bytes, E3. cbn [mbind option_bind app] in *.
  assert (R3 : roomy b3) by (split; [congruence|lia]).
  destruct (append_bytes_room b3 _ [plain STUN_ATTRIBUTE_SOFTWARE kSoftware] STUN_ATTRIBUTE_ICE_CONTROLLING
    (tie_bytes (mTie a)) H3 (request_cookied _ _ _) R3) as (b4 & E4 & H4 & S4); [done| |].
  - change (size (body [_])) with 8. unfold tie_bytes. rewrite size_app, !size_be. lia.
  - unfold stun_message_append64. fold (tie_bytes (mTie a)). rewrite E4. cbn [mbind option_bind].
    exists b4. split_and!; [done..|lia].
Qed.

Lemma initResponse_holds b request h l : holds request h l -> word_class (h_type h) = STUN_REQUEST ->
  cookied h -> roomy b -> 28 <= size b ->
  exists b', initResponse b request = Some (true, b') /\
    holds b' (new_header STUN_RESPONSE (word_method (h_type h)) (h_id h)) [plain STUN_ATTRIBUTE_SOFTWARE kSoftware] /\
    size b' = size b.
Proof.
  intros Hr Hc Hck [Hm Hs] Hb. unfold initResponse. destruct (holds_word _ _ _ Hr) as [-> ->]. cbn [mbind option_bind].
  rewrite Hc, bool_decide_eq_true_2 by done. cbn [negb]. rewrite (holds_id _ _ _ Hr). cbn [mbind option_bind].
  destruct (init_holds b STUN_RESPONSE (word_method (h_type h)) (h_id h)) as (b1 & -> & H1 & S1);
    [lia|apply (hold_header _ _ _ Hr)|]. cbn [mbind option_bind negb].
  assert (R1 : roomy b1) by (split; [congruence|lia]).
  destruct (append_bytes_room b1 _ [] STUN_ATTRIBUTE_SOFTWARE kSoftware H1 Hck R1) as (b2 & E2 & H2 & S2);
    [done|change (size (body [])) with 0; change (size kSoftware) with 4; lia|].
  rewrite software_bytes, E2. cbn [mbind option_bind app] in *. exists b2. split_and!; [done..|lia].
Qed.

(** *** Messages finished *)

Definition attrs_with (l : list attr) (username : option text) : list attr :=
  match username with Some u => l ++ [plain STUN_ATTRIBUTE_USERNAME (c_str u)] | None => l end.

(** The agent after [finishMessage]: it remembers a request. *)
Definition remembers (a : t) (h : header) (now : Z) : t :=
  if bool_decide (word_class (h_type h) = STUN_REQUEST)
  then mk (mTie a) (mTransactionList a ++ [mkSaved now (h_id h)]) else a.

Lemma roomy_same b b' : roomy b -> size b' = size b -> roomy b'.
Proof. intros [Hm Hs] E. by split; rewrite E. Qed.

Lemma append_username b h l username : holds b h l -> cookied h -> roomy b ->
  20 + size (body (attrs_with l username)) <= size b ->
  exists b', match username with
             | Some username => snd <$> stun_message_append_string b STUN_ATTRIBUTE_USERNAME username
             | None => Some b
             end = Some b' /\ holds b' h (attrs_with l username) /\ size b' = size b.
Proof.
  intros Hb Hc Hr Hroom. destruct username as [u|]; [|by exists b]. cbn [attrs_with] in Hroom.
  rewrite body_snoc, size_app, enc_plain, !size_app, !size_be in Hroom.
  destruct (append_bytes_room b h l STUN_ATTRIBUTE_USERNAME (c_str u)) as (b' & E1 & H' & S); [done..| |].
  - pose proof (size_nonneg (replicate (Z.to_nat (stun_padding (size (c_str u)))) 0)). lia.
  - exists b'. unfold stun_message_append_string. by rewrite E1.
Qed.

Lemma append_and_store b h l type n : holds b h l -> cookied h -> roomy b -> is_u16 type -> 0 <= n ->
  24 + size (body l) + n <= size b ->
  exists v b', stun_message_append b type n = Some (Some (24 + size (body l)), b') /\
    holds b' h (l ++ [plain type v]) /\ size b' = size b /\ size v = n /\
    forall v', size v' = n -> exists b'', store b' (24 + size (body l)) v' = Some b'' /\
      holds b'' h (l ++ [plain type v']) /\ size b'' = size b.
Proof.
  intros Hb Hc Hr Ht Hn Hroom. destruct (append_room b h l type n) as (v & b' & E1 & Hv & H1 & S1); [done..|].
  exists v, b'. split_and!; [done..|]. intros v' Hv'.
  destruct (store_value b' h l type v v' H1) as (b'' & E2 & H2 & S2); [unfold size in *; lia|].
  exists b''. split_and!; [done..|lia].
Qed.

Lemma finish_room a b h l username password now : holds b h l -> cookied h -> roomy b ->
  52 + size (body (attrs_with l username)) <= size b ->
  exists b', finishMessage a b username password now = Some (true, b', remembers a h now) /\
    holds b' h (sealed h (attrs_with l username) password) /\ size b' = size b.
Proof using EL.
  intros Hb Hc Hr Hroom. unfold finishMessage.
  destruct (append_username b h l username) as (b1 & -> & H1 & S1); [done..|lia|]. cbn [mbind option_bind].
  set (l1 := attrs_with l username) in *. clearbody l1. pose proof (size_nonneg (body l1)) as Hn.
  pose proof (roomy_same b b1 Hr S1) as R1. destruct Hr as [_ Hsmall].
  destruct (append_and_store b1 h l1 STUN_ATTRIBUTE_MESSAGE_INTEGRITY 20) as (v & b2 & -> & H2 & S2 & Hv & W2); [done..|lia|lia|].
  cbn [mbind option_bind]. rewrite (holds_length b2 h _ H2). cbn [mbind option_bind].
  rewrite size_body_snoc, Hv by (done || lia). change (stun_padding 20) with 0.
  replace (20 + (size (body l1) + 4 + 20 + 0)) with (44 + size (body l1)) by lia.
  replace (44 + size (body l1) - 20) with (24 + size (body l1)) by lia.
  rewrite (sha1_prefix b2 h l1 [plain STUN_ATTRIBUTE_MESSAGE_INTEGRITY v] password H2) by lia. cbn [mbind option_bind].
  destruct (W2 (mac h l1 password) (size_mac _ _ _)) as (b3 & -> & H3 & S3). cbn [mbind option_bind].
  pose proof (roomy_same b1 b3 R1 S3) as R3.
  set (l2 := l1 ++ [plain STUN_ATTRIBUTE_MESSAGE_INTEGRITY (mac h l1 password)]) in *.
  assert (Hl2 : size (body l2) = size (body l1) + 24).
  { unfold l2. rewrite size_body_snoc, size_mac by (done || rewrite ?size_mac; done). change (stun_padding 20) with 0. lia. }
  destruct (append_and_store b3 h l2 STUN_ATTRIBUTE_FINGERPRINT 4) as (w & b4 & -> & H4 & S4 & Hw & W4); [done..|lia|lia|].
  cbn [mbind option_bind]. rewrite (holds_length b4 h _ H4). cbn [mbind option_bind].
  rewrite (fingerprint_prefix b4 h l2 (plain STUN_ATTRIBUTE_FINGERPRINT w) H4)
    by (rewrite size_plain, Hw by (done || lia); done).
  cbn [mbind option_bind]. destruct (W4 (crc h l2) (size_crc _ _)) as (b5 & -> & H5 & S5). cbn [mbind option_bind].
  destruct (holds_word b5 h _ H5) as [-> _]. cbn [mbind option_bind]. rewrite (holds_id b5 h _ H5). cbn [mbind option_bind].
  exists b5. unfold remembers. split_and!; [by case_match|done|lia].
Qed.

(** Without room: still no access outside the memory. *)
Lemma finish_defined a b h l username password now : holds b h l -> cookied h -> roomy b ->
  exists (r : bool) b' l', finishMessage a b username password now = Some (r, b', if r then remembers a h now else a) /\
    holds b' h l' /\ size b' = size b.
Proof using EL.
  intros Hb Hc Hr. unfold finishMessage.
  assert (Hu : exists b1 l1, match username with
     | Some username => snd <$> stun_message_append_string b STUN_ATTRIBUTE_USERNAME username
     | None => Some b end = Some b1 /\ holds b1 h l1 /\ size b1 = size b).
  { destruct username as [u|]; [|by exists b, l].
    destruct (append_bytes_defined b h l STUN_ATTRIBUTE_USERNAME (c_str u)) as (r & b1 & l1 & E1 & H1 & S1 & _); [done..|].
    exists b1, l1. unfold stun_message_append_string. by rewrite E1. }
  destruct Hu as (b1 & l1 & -> & H1 & S1). cbn [mbind option_bind].
  pose proof (roomy_same b b1 Hr S1) as R1. pose proof (size_nonneg (body l1)) as Hn.
  destruct (decide (44 + size (body l1) <= size b1)) as [Hroom|Hfull].
  2: { rewrite (append_full b1 h l1) by (done || lia). cbn [mbind option_bind]. by exists false, b1, l1. }
  destruct (append_and_store b1 h l1 STUN_ATTRIBUTE_MESSAGE_INTEGRITY 20) as (v & b2 & -> & H2 & S2 & Hv & W2); [done..|lia|lia|].
  cbn [mbind option_bind]. rewrite (holds_length b2 h _ H2). cbn [mbind option_bind].
  rewrite size_body_snoc, Hv by (done || lia). change (stun_padding 20) with 0.
  replace (20 + (size (body l1) + 4 + 20 + 0)) with (44 + size (body l1)) by lia.
  replace (44 + size (body l1) - 20) with (24 + size (body l1)) by lia. destruct R1 as [Hm Hsmall].
  rewrite (sha1_prefix b2 h l1 [plain STUN_ATTRIBUTE_MESSAGE_INTEGRITY v] password H2) by lia. cbn [mbind option_bind].
  destruct (W2 (mac h l1 password) (size_mac _ _ _)) as (b3 & -> & H3 & S3). cbn [mbind option_bind].
  set (l2 := l1 ++ [plain STUN_ATTRIBUTE_MESSAGE_INTEGRITY (mac h l1 password)]) in *.
  assert (R3 : roomy b3) by (split; [congruence|lia]). pose proof (size_nonneg (body l2)).
  destruct (decide (28 + size (body l2) <= size b3)) as [Hroom2|Hfull].
  2: { rewrite (append_full b3 h l2) by (done || lia). cbn [mbind option_bind]. exists false, b3, l2. split_and!; [done..|lia]. }
  destruct (append_and_store b3 h l2 STUN_ATTRIBUTE_FINGERPRINT 4) as (w & b4 & -> & H4 & S4 & Hw & W4); [done..|lia|lia|].
  cbn [mbind option_bind]. rewrite (holds_length b4 h _ H4). cbn [mbind option_bind].
  rewrite (fingerprint_prefix b4 h l2 (plain STUN_ATTRIBUTE_FINGERPRINT w) H4)
    by (rewrite size_plain, Hw by (done || lia); done).
  cbn [mbind option_bind]. destruct (W4 (crc h l2) (size_crc _ _)) as (b5 & -> & H5 & S5). cbn [mbind option_bind].
  destruct (holds_word b5 h _ H5) as [-> _]. cbn [mbind option_bind]. rewrite (holds_id b5 h _ H5). cbn [mbind option_bind].
  eexists true, b5, _. unfold remembers. split_and!; [by case_match|done|lia].
Qed.

(** *** Messages verified *)

(** Neither MESSAGE-INTEGRITY, nor FINGERPRINT, nor [type]. *)
Definition none_of (type : Z) (a : attr) : Prop :=
  a_type a <> STUN_ATTRIBUTE_MESSAGE_INTEGRITY /\ a_type a <> STUN_ATTRIBUTE_FINGERPRINT /\ a_type a <> type.

Lemma attr_find_skip type off l k : Forall (none_of type) l ->
  attr_find type off (l ++ k) = attr_find type (off + size (body l)) k.
Proof.
  intros Hl. revert off. induction Hl as [|a l (H1 & H2 & H3) Hl IH]; intros off.
  - cbn. change (size (body [])) with 0. by rewrite Z.add_0_r.
  - cbn [app attr_find]. apply Z.eqb_neq in H1, H2, H3. rewrite H3, H1, H2. cbn [andb]. rewrite IH.
    rewrite body_cons, size_app. f_equal. lia.
Qed.

Lemma find_next type off l v k : Forall (none_of type) l ->
  attr_find type off (l ++ plain type v :: k) = Some (off + size (body l) + 4, size v).
Proof. intros Hl. rewrite attr_find_skip by done. cbn [attr_find plain a_type a_value]. by rewrite Z.eqb_refl. Qed.

Lemma verify_sealed b h l password : holds b h (sealed h l password) ->
  Forall (none_of STUN_ATTRIBUTE_MESSAGE_INTEGRITY) l ->
  verifyFingerprint b = Some true /\ verifyIntegrity b password = Some true.
Proof using EL.
  intros Hb Hl. unfold sealed in Hb.
  set (l1 := l ++ [plain STUN_ATTRIBUTE_MESSAGE_INTEGRITY (mac h l password)]) in *.
  pose proof (hold_fits b h _ Hb) as Hf.
  assert (Hl1 : size (body l1) = size (body l) + 24).
  { unfold l1. rewrite size_body_snoc, size_mac by (done || rewrite ?size_mac; done). change (stun_padding 20) with 0. lia. }
  rewrite size_body_snoc, Hl1, size_crc in Hf by (done || rewrite ?size_crc; done). change (stun_padding 4) with 0 in Hf. split.
  - unfold verifyFingerprint. rewrite (holds_find b h _ _ Hb).
    assert (Hfind : attr_find STUN_ATTRIBUTE_FINGERPRINT 20 (l1 ++ [plain STUN_ATTRIBUTE_FINGERPRINT (crc h l1)]) =
      Some (20 + size (body l1) + 4, 4)).
    { unfold l1 at 1. rewrite <- app_assoc. rewrite attr_find_skip; [|eapply list.Forall_impl; [exact Hl|]; intros ? (? & ? & ?); done].
      cbn [app attr_find plain a_type a_value]. rewrite Hl1, size_crc.
      change (STUN_ATTRIBUTE_MESSAGE_INTEGRITY =? STUN_ATTRIBUTE_FINGERPRINT) with false.
      change (STUN_ATTRIBUTE_MESSAGE_INTEGRITY =? STUN_ATTRIBUTE_MESSAGE_INTEGRITY) with true.
      change (STUN_ATTRIBUTE_FINGERPRINT =? STUN_ATTRIBUTE_FINGERPRINT) with true. cbn [andb negb].
      rewrite size_plain, size_mac by (done || rewrite ?size_mac; done). change (stun_padding 20) with 0. do 2 f_equal. lia. }
    rewrite Hfind. cbn [mbind option_bind].
    pose proof (holds_value b h l1 (plain STUN_ATTRIBUTE_FINGERPRINT (crc h l1)) [] Hb) as Hv. cbn [plain a_value] in Hv.
    rewrite size_crc in Hv. rewrite Hv. cbn [mbind option_bind]. rewrite (holds_length b h _ Hb). cbn [mbind option_bind].
    rewrite (fingerprint_prefix b h l1 _ Hb) by (rewrite size_plain, size_crc by (done || rewrite ?size_crc; done); done).
    cbn [mbind option_bind]. by rewrite bool_decide_eq_true_2.
  - unfold verifyIntegrity. rewrite (holds_find b h _ _ Hb). unfold l1 at 1. rewrite <- app_assoc. cbn [app].
    rewrite find_next, size_mac by done. cbn [mbind option_bind].
    unfold l1 in Hb at 1. rewrite <- app_assoc in Hb. cbn [app] in Hb.
    pose proof (holds_value b h l _ _ Hb) as Hv. cbn [plain a_value] in Hv. rewrite size_mac in Hv.
    replace (20 + size (body l) + 4 + 20) with (44 + size (body l)) by lia.
    replace (20 + size (body l) + 4) with (24 + size (body l)) in * by lia.
    rewrite (sha1_prefix b h l _ password Hb) by lia. cbn [mbind option_bind]. rewrite Hv. cbn [mbind option_bind].
    by rewrite bool_decide_eq_true_2.
Qed.

End Sealing.
End Sealing.

(** ** A request and its answer *)

Module Exchange.
Import IceAgent Candidate Sealing Addresses.

Section Parts.
Context {EV : Evp} {EL : EvpLaws} (clock : nat -> Z) (transid : nat -> list Z).
Context (mOffer : SdpOffer.t) (mAnswer : Answer.t) (hasTWCC hasSctp : bool).

Lemma holds_whole b h l : holds b h l -> load b 0 (20 + size (body l)) = Some (wire h l).
Proof. intros [[rest ->] Hh _ _]. apply (load_at []); [done|]. by rewrite size_wire. Qed.

Lemma wire_holds b h l : holds b h l -> holds (wire h l) h l.
Proof. intros [_ Hh Hl Hf]. constructor; [|done..]. exists []. by rewrite app_nil_r. Qed.

(** *** The request *)

Definition request_header (id : list Z) : header := new_header STUN_REQUEST STUN_BINDING (request_id id).

Definition request_user : text := Answer.mIceUFrag mAnswer ++ txt ":" ++ SdpOffer.getIceUFrag mOffer.

Definition request_attrs (tie : Z) (useCandidate : bool) : list attr :=
  [plain STUN_ATTRIBUTE_SOFTWARE kSoftware; plain STUN_ATTRIBUTE_ICE_CONTROLLING (tie_bytes tie)] ++
  (if useCandidate then [plain STUN_ATTRIBUTE_USE_CANDIDATE []] else []) ++
  [plain STUN_ATTRIBUTE_PRIORITY (be_bytes 4 (make_stun_priority 200 10 1))].

Definition request_list (tie : Z) (useCandidate : bool) (id : list Z) : list attr :=
  sealed (request_header id) (attrs_with (request_attrs tie useCandidate) (Some request_user)) (Answer.mIcePassword mAnswer).

Lemma size_request_attrs tie use : size (body (request_attrs tie use)) = if use then 32 else 28.
Proof. by destruct use. Qed.

(** The parts of a request that do not depend on the names. *)
Lemma request_begun a b id (use : bool) : size id = 16 -> roomy b -> 64 <= size b ->
  exists b1 b2 b3, initRequest a b STUN_BINDING id = Some (true, b1) /\
    (if use then snd <$> stun_message_append_flag b1 STUN_ATTRIBUTE_USE_CANDIDATE else Some b1) = Some b2 /\
    stun_message_append32 b2 STUN_ATTRIBUTE_PRIORITY (make_stun_priority 200 10 1) = Some (RETURN_SUCCESS, b3) /\
    holds b3 (request_header id) (request_attrs (mTie a) use) /\ size b3 = size b.
Proof.
  intros Hid Hr Hb. destruct (initRequest_holds a b STUN_BINDING id Hid Hr) as (b1 & E1 & H1 & S1); [lia|].
  pose proof (roomy_same b b1 Hr S1) as R1.
  set (l0 := [plain STUN_ATTRIBUTE_SOFTWARE kSoftware; plain STUN_ATTRIBUTE_ICE_CONTROLLING (tie_bytes (mTie a))]) in *.
  assert (Hl0 : size (body l0) = 20) by done.
  assert (H2 : exists b2, (if use then snd <$> stun_message_append_flag b1 STUN_ATTRIBUTE_USE_CANDIDATE else Some b1) = Some b2 /\
    holds b2 (request_header id) (l0 ++ if use then [plain STUN_ATTRIBUTE_USE_CANDIDATE []] else []) /\ size b2 = size b).
  { destruct use; [|exists b1; by rewrite app_nil_r].
    destruct (append_bytes_room b1 _ l0 STUN_ATTRIBUTE_USE_CANDIDATE [] H1 (request_cookied _ _ _) R1) as (b2 & E2 & H2 & S2);
      [done|rewrite Hl0; change (size []) with 0; lia|].
    exists b2. unfold stun_message_append_flag. rewrite E2. split_and!; [done..|lia]. }
  destruct H2 as (b2 & E2 & H2 & S2). pose proof (roomy_same b b2 Hr S2) as R2.
  destruct (append_bytes_room b2 _ _ STUN_ATTRIBUTE_PRIORITY (be_bytes 4 (make_stun_priority 200 10 1)) H2 (request_cookied _ _ _) R2)
    as (b3 & E3 & H3 & S3); [done| |].
  { rewrite body_app, size_app, Hl0, size_be.
    assert (size (body (if use then [plain STUN_ATTRIBUTE_USE_CANDIDATE []] else [])) <= 4) by (by destruct use). lia. }
  exists b1, b2, b3. split_and!; [done..| |lia]. unfold request_attrs. fold l0. by rewrite app_assoc.
Qed.

Lemma request_room a b id use now : size id = 16 -> roomy b -> 2048 <= size b -> size (c_str request_user) <= 1960 ->
  exists b', make_stun_message_binding_request mOffer mAnswer a b id use now =
      Some (b', IceAgent.mk (mTie a) (mTransactionList a ++ [mkSaved now (request_id id)])) /\
    holds b' (request_header id) (request_list (mTie a) use id) /\ size b' = size b.
Proof using EL.
  intros Hid Hr Hb Hu. destruct (request_begun a b id use Hid Hr) as (b1 & b2 & b3 & E1 & E2 & E3 & H3 & S3); [lia|].
  unfold make_stun_message_binding_request. rewrite E1. cbn [mbind option_bind]. rewrite E2. cbn [mbind option_bind].
  rewrite E3. cbn [mbind option_bind]. fold request_user.
  change (@Some (list Z) request_user) with (@Some text request_user).
  destruct (finish_room a b3 _ _ (Some request_user) (Answer.mIcePassword mAnswer) now H3 (request_cookied _ _ _)
    (roomy_same _ _ Hr S3)) as (b4 & -> & H4 & S4).
  - cbn [attrs_with]. rewrite size_body_snoc, size_request_attrs by (done || lia).
    destruct (padding_spec (size (c_str request_user)) (size_nonneg _)) as [Hp Hm].
    assert (size (c_str request_user) + stun_padding (size (c_str request_user)) <= 1960) by zdm.
    destruct use; lia.
  - cbn [mbind option_bind]. exists b4. split_and!; [done..|lia].
Qed.

Lemma request_defined a b id use now : size id = 16 -> roomy b -> 64 <= size b ->
  exists b' a' l', make_stun_message_binding_request mOffer mAnswer a b id use now = Some (b', a') /\
    holds b' (request_header id) l' /\ size b' = size b.
Proof using EL.
  intros Hid Hr Hb. destruct (request_begun a b id use Hid Hr Hb) as (b1 & b2 & b3 & E1 & E2 & E3 & H3 & S3).
  unfold make_stun_message_binding_request. rewrite E1. cbn [mbind option_bind]. rewrite E2. cbn [mbind option_bind].
  rewrite E3. cbn [mbind option_bind]. fold request_user.
  change (@Some (list Z) request_user) with (@Some text request_user).
  destruct (finish_defined a b3 _ _ (Some request_user) (Answer.mIcePassword mAnswer) now H3 (request_cookied _ _ _)
    (roomy_same _ _ Hr S3)) as (r & b4 & l4 & -> & H4 & S4).
  cbn [mbind option_bind]. eexists b4, _, l4. split_and!; [done..|lia].
Qed.

(** *** The response *)

Definition response_header (h : header) : header := new_header STUN_RESPONSE STUN_BINDING (h_id h).

Definition response_attrs (h : header) (addr : sockaddr) : list attr :=
  [plain STUN_ATTRIBUTE_SOFTWARE kSoftware; plain STUN_ATTRIBUTE_XOR_MAPPED_ADDRESS (addr_bytes h addr)].

Definition response_list (password : text) (h : header) (addr : sockaddr) : list attr :=
  sealed (response_header h) (response_attrs (response_header h) addr) password.

Lemma response_room a b request h l addr addrlen : holds request h l -> word_class (h_type h) = STUN_REQUEST ->
  word_method (h_type h) = STUN_BINDING -> cookied h -> roomy b -> 128 <= size b -> addr_ok addr ->
  addr_size addr <= addrlen <= sizeof_storage ->
  exists b', make_stun_message_binding_response mOffer a b request addr addrlen = Some (b', a) /\
    holds b' (response_header h) (response_list (SdpOffer.getIcePassword mOffer) h addr) /\ size b' = size b.
Proof using EL.
  intros Hreq Hc Hm Hck Hr Hb Ha Hlen. unfold make_stun_message_binding_response.
  destruct (initResponse_holds b request h l Hreq Hc Hck Hr) as (b1 & -> & H1 & S1); [lia|]. rewrite Hm in H1.
  fold (response_header h) in H1. cbn [mbind option_bind]. pose proof (roomy_same b b1 Hr S1) as R1.
  assert (Hk : cookied (response_header h)) by done.
  assert (Hsz : size (addr_bytes (response_header h) addr) <= 20).
  { rewrite size_addr_bytes by (done || apply (hold_header _ _ _ H1)). destruct addr; lia. }
  destruct (append_address b1 _ _ STUN_ATTRIBUTE_XOR_MAPPED_ADDRESS addr addrlen H1 Hk R1) as (b2 & -> & H2 & S2); [done..| |].
  { change (size (body [_])) with 8. lia. }
  cbn [mbind option_bind]. change ([_] ++ [_]) with (response_attrs (response_header h) addr) in H2.
  destruct (finish_room a b2 _ _ None (SdpOffer.getIcePassword mOffer) 0 H2 Hk) as (b3 & -> & H3 & S3).
  - by apply (roomy_same b1).
  - cbn [attrs_with]. unfold response_attrs. change (?x :: [?y]) with ([x] ++ [y]).
    rewrite size_body_snoc by (done || lia). change (size (body [_])) with 8.
    destruct (padding_spec (size (addr_bytes (response_header h) addr)) (size_nonneg _)) as [Hp _]. lia.
  - cbn [mbind option_bind]. exists b3. split_and!; [done..|lia].
Qed.

(** *** What is verified *)

Lemma request_none tie use : Forall (none_of STUN_ATTRIBUTE_MESSAGE_INTEGRITY) (request_attrs tie use) /\
  Forall (none_of STUN_ATTRIBUTE_USERNAME) (request_attrs tie use).
Proof. destruct use; split; repeat constructor; done. Qed.

Lemma request_verified b h tie use (user password : text) :
  holds b h (sealed h (attrs_with (request_attrs tie use) (Some user)) password) ->
  c_str user = user -> user <> [] -> verifyRequestMessage b user password = Some true.
Proof using EL.
  intros Hb Hu Hne. destruct (request_none tie use) as [N1 N2].
  destruct (verify_sealed _ _ _ _ Hb) as [Hf Hi].
  { cbn [attrs_with]. apply list.Forall_app. split; [done|]. by repeat constructor. }
  unfold verifyRequestMessage. rewrite Hf. cbn [mbind option_bind negb]. rewrite (holds_find _ _ _ _ Hb).
  unfold sealed in *. cbn [attrs_with] in *. rewrite Hu in *. rewrite <- !app_assoc in *. cbn [app] in *.
  rewrite find_next by done. cbn [mbind option_bind].
  assert (size user <> 0) as Hsz by (destruct user; [done|unfold size; cbn; lia]). apply Z.eqb_neq in Hsz. rewrite Hsz.
  pose proof (holds_value _ _ _ _ _ Hb) as Hv. cbn [plain a_value] in Hv. rewrite Hv. cbn [mbind option_bind].
  by rewrite bool_decide_eq_true_2.
Qed.

Lemma response_verified b h addr password : holds b (response_header h) (response_list password h addr) ->
  verifyResponseMessage b password = Some true.
Proof using EL.
  intros Hb. destruct (verify_sealed _ _ _ _ Hb) as [Hf Hi]; [by repeat constructor|].
  unfold verifyResponseMessage. rewrite Hf. cbn [mbind option_bind negb]. done.
Qed.

(** No error, and the address of the asker. *)
Lemma response_content b h addr addrlen password : holds b (response_header h) (response_list password h addr) -> addr_ok addr ->
  addr_size addr <= addrlen ->
  stun_message_find_error b = Some (RETURN_NOT_FOUND, 0) /\
  stun_message_find_xor_addr b STUN_ATTRIBUTE_XOR_MAPPED_ADDRESS addrlen = Some (RETURN_SUCCESS, addr, addr_size addr).
Proof.
  intros Hb Ha Hlen. unfold response_list, sealed, response_attrs in Hb. cbn [app] in Hb. split.
  - unfold stun_message_find_error. rewrite (holds_find _ _ _ _ Hb). done.
  - apply (find_address b (response_header h) [plain STUN_ATTRIBUTE_SOFTWARE kSoftware] _ _ _ addrlen Hb); [|done..].
    refine (find_next STUN_ATTRIBUTE_XOR_MAPPED_ADDRESS 20 [plain STUN_ATTRIBUTE_SOFTWARE kSoftware] _ _ _). by repeat constructor.
Qed.

(** *** Candidates *)

Lemma now_shape w : exists x, now clock w = (clock (LoopScheduler.mTicks (mLoop (timers w))), set_timers x w).
Proof. by eexists. Qed.

Lemma submit_shape slot delay f w : exists x, submit clock slot delay f w = set_timers x w.
Proof.
  unfold submit, set_task. destruct (ScopedScheduler.submit _ _ _ _ _) as [[id s] l]. by eexists.
Qed.

Definition candidate_ok (w : Candidate.t) : Prop := size (mIceMessageBuffer (ice w)) = 2048.

Definition saved (time : Z) (id : list Z) : SavedTransaction := mkSaved time (request_id id).

(** What sending a request does: the transaction is saved, the message queued. *)
Lemma send_request_spec use w : candidate_ok w -> size (transid (mDrawn (ice w))) = 16 -> size (c_str request_user) <= 1960 ->
  let id := transid (mDrawn (ice w)) in
  let a := mIceAgent (ice w) in
  exists x time buf, sendBindingRequest clock transid mOffer mAnswer use w =
    Some (addSendRaw (wire (request_header id) (request_list (mTie a) use id))
      (set_ice (mkIce (IceAgent.mk (mTie a) (mTransactionList a ++ [saved time id])) buf (mIceRttFilter (ice w))
        (mSentUseCandidate (ice w)) (S (mDrawn (ice w)))) (set_timers x w))) /\
    size buf = 2048 /\ holds (wire (request_header id) (request_list (mTie a) use id)) (request_header id) (request_list (mTie a) use id).
Proof using EL.
  intros Hw Hid Hu id a. unfold sendBindingRequest. destruct (now_shape w) as [x ->].
  set (time := clock _). unfold candidate_ok in Hw.
  destruct (request_room a (mIceMessageBuffer (ice w)) id use time Hid) as (b & E1 & H1 & S1);
    [by split; rewrite Hw|lia|done|].
  change (ice (set_timers x w)) with (ice w). fold a id. rewrite E1. cbn [mbind option_bind].
  rewrite (holds_length _ _ _ H1). cbn [mbind option_bind]. rewrite (holds_whole _ _ _ H1). cbn [mbind option_bind].
  exists x, time, b. split_and!; [done|lia|by eapply wire_holds].
Qed.

Lemma holds_first b h l : holds b h l -> byte b 0 = Some (h_type h / 256).
Proof.
  intros [[rest ->] [Hw Hi] _ _]. rewrite wire_parts, <- word_bytes_be.
  replace (h_type h / 256) with (Z.shiftr (u16 (h_type h)) 8)
    by (unfold is_u16 in Hw; rewrite u16_small, shiftr_div by (done || lia); done).
  apply byte_front.
Qed.

Lemma holds_cookie b h l : holds b h l -> cookied h -> load b 4 4 = Some (be_bytes 4 STUN_MAGIC_COOKIE).
Proof.
  intros Hb Hc. pose proof (holds_id _ _ _ Hb) as Hid. unfold stun_message_id in Hid.
  assert (E : h_id h = [] ++ be_bytes 4 STUN_MAGIC_COOKIE ++ drop 4 (h_id h)) by (by rewrite <- Hc, app_nil_l, take_drop).
  rewrite E in Hid at 1. apply load_part in Hid. exact Hid.
Qed.

Lemma wire_is_stun b h l : holds b h l -> cookied h -> h_type h < 512 -> 0 < size (body l) -> is_stun_message b = Some true.
Proof.
  intros Hb Hc Ht Hl. unfold is_stun_message. pose proof (holds_size _ _ _ Hb) as Hs.
  rewrite (proj2 (Z.ltb_lt 20 _)), (holds_first _ _ _ Hb) by lia. cbn [mbind option_bind].
  rewrite (proj2 (Z.ltb_lt (h_type h / 256) 2)) by zdm.
  rewrite (holds_cookie _ _ _ Hb Hc). cbn [mbind option_bind]. by rewrite bool_decide_eq_true_2.
Qed.

Lemma sealed_pos b h l password : holds b h (sealed h l password) -> 0 < size (body (sealed h l password)).
Proof.
  intros [_ _ Hl _]. apply size_body_count in Hl. revert Hl. unfold sealed. rewrite length_app. cbn [length]. lia.
Qed.

Lemma forget_last l time id now : (forall it, it ∈ l -> IceAgent.id it <> request_id id) ->
  exists rtt, forget (l ++ [saved time id]) (request_id id) now = Some (rtt, l).
Proof.
  induction l as [|it l IH]; intros Hl; cbn [app forget].
  - cbn [saved IceAgent.id]. rewrite bool_decide_eq_true_2 by done. eauto.
  - rewrite bool_decide_eq_false_2 by (apply Hl; left). destruct IH as [rtt ->]; [intros x Hx; apply Hl; by right|]. by exists rtt.
Qed.

(** The end that is asked answers, and does nothing else. *)
Lemma request_answered request tie use id user addr addrlen ssl w : let h := request_header id in
  holds request h (sealed h (attrs_with (request_attrs tie use) (Some user)) (SdpOffer.getIcePassword mOffer)) ->
  c_str user = user -> user = SdpOffer.getIceUFrag mOffer ++ txt ":" ++ Answer.mIceUFrag mAnswer ->
  candidate_ok w -> addr_ok addr -> addr_size addr <= addrlen <= sizeof_storage ->
  let i := ice w in let password := SdpOffer.getIcePassword mOffer in
  exists buf, receive clock transid mOffer mAnswer hasTWCC hasSctp request addr addrlen ssl w =
    Some (addSendRaw (wire (response_header h) (response_list password h addr))
      (set_ice (mkIce (mIceAgent i) buf (mIceRttFilter i) (mSentUseCandidate i) (mDrawn i)) w)) /\
    size buf = 2048 /\
    holds (wire (response_header h) (response_list password h addr)) (response_header h) (response_list password h addr).
Proof using EL.
  intros h Hb Hu Huser Hw Ha Hlen i password. unfold receive.
  rewrite (wire_is_stun request h _ Hb); [|done|done|].
  2: { by eapply sealed_pos. }
  cbn [mbind option_bind]. unfold onReceivedStunMessage. destruct (holds_word _ _ _ Hb) as [-> ->]. cbn [mbind option_bind].
  change (word_class (h_type h)) with STUN_REQUEST. change (word_method (h_type h)) with STUN_BINDING.
  rewrite bool_decide_eq_true_2 by done. change (STUN_BINDING =? STUN_BINDING) with true. cbn [andb].
  rewrite <- Huser. rewrite (request_verified request h tie use user (SdpOffer.getIcePassword mOffer) Hb Hu) by (rewrite Huser; by destruct (getIceUFrag mOffer)).
  cbn [mbind option_bind]. unfold candidate_ok in Hw.
  destruct (response_room (mIceAgent i) (mIceMessageBuffer i) request h _ addr addrlen Hb) as (buf & E1 & H1 & S1);
    [done..|by unfold i; split; rewrite Hw|unfold i; lia|done|done|].
  fold i. rewrite E1. cbn [mbind option_bind]. rewrite (holds_length _ _ _ H1). cbn [mbind option_bind].
  rewrite (holds_whole _ _ _ H1). cbn [mbind option_bind]. exists buf. split_and!; [done|rewrite S1; unfold i; lia|by eapply wire_holds].
Qed.

(** The answer ends its transaction: the first one selects the candidate, later
    ones are signs of life. *)
Lemma response_accepted id peer addr addrlen ssl l time w : let h := request_header id in
  let response := wire (response_header h) (response_list (Answer.mIcePassword mAnswer) h peer) in
  holds response (response_header h) (response_list (Answer.mIcePassword mAnswer) h peer) -> addr_ok peer ->
  mTransactionList (mIceAgent (ice w)) = l ++ [saved time id] -> (forall it, it ∈ l -> IceAgent.id it <> request_id id) ->
  exists x filter,
    let i := ice w in
    let w' := fun sent => set_ice (mkIce (IceAgent.mk (mTie (mIceAgent i)) l) (mIceMessageBuffer i) filter sent (mDrawn i)) (set_timers x w) in
    receive clock transid mOffer mAnswer hasTWCC hasSctp response addr addrlen ssl w =
      if mSentUseCandidate i then
        if bool_decide (mDtlsState (dtls w) = Completed) then onReceivedFromRemote clock hasTWCC (w' true) else Some (w' true)
      else
        w ← sendStunBindingResponse clock transid mOffer mAnswer 0 (emitOnIceConnected (w' true));
        Some (set_state Activating w).
Proof using EL.
  intros h response Hb Ha Hl Hne. unfold receive. rewrite (wire_is_stun response _ _ Hb); [|done|done|by eapply sealed_pos].
  cbn [mbind option_bind]. unfold onReceivedStunMessage. destruct (holds_word _ _ _ Hb) as [-> ->]. cbn [mbind option_bind].
  change (word_class _) with STUN_RESPONSE. change (word_method _) with STUN_BINDING.
  rewrite bool_decide_eq_false_2, bool_decide_eq_true_2 by done. change (STUN_BINDING =? STUN_BINDING) with true. cbn [andb].
  destruct (response_content _ h peer (addr_size peer) _ Hb Ha) as [-> _]; [lia|]. cbn [mbind option_bind].
  rewrite (holds_id _ _ _ Hb). cbn [mbind option_bind]. destruct (now_shape w) as [x ->].
  set (now1 := clock _). unfold forgetTransaction. change (ice (set_timers x w)) with (ice w). rewrite Hl.
  destruct (forget_last l time id now1 Hne) as [rtt E]. change (h_id (response_header h)) with (request_id id). rewrite E.
  cbn [mbind option_bind]. destruct (now_shape (set_timers x w)) as [y ->].
  rewrite (response_verified _ _ _ _ Hb). exists y. eexists. cbn. by destruct (mSentUseCandidate (ice w)).
Qed.

End Parts.

(** *** Two ends *)

(** What an answer says of the other end. *)
Definition knows (answer : Answer.t) (offer : SdpOffer.t) : Prop :=
  Answer.mIceUFrag answer = SdpOffer.getIceUFrag offer /\ Answer.mIcePassword answer = SdpOffer.getIcePassword offer.

(** Ids still to be drawn are not those of waiting transactions. *)
Definition fresh (transid : nat -> list Z) (w : Candidate.t) : Prop :=
  forall it n, it ∈ mTransactionList (mIceAgent (ice w)) -> (mDrawn (ice w) <= n)%nat -> IceAgent.id it <> request_id (transid n).

Section Ends.
Context {EV : Evp} {EL : EvpLaws} (clock1 clock2 : nat -> Z) (transid1 transid2 : nat -> list Z).
Context (offer1 offer2 : SdpOffer.t) (answer1 answer2 : Answer.t) (twcc1 twcc2 sctp1 sctp2 : bool).
Context (peer : sockaddr) (peerlen : Z) (addr : sockaddr) (addrlen : Z) (ssl1 ssl2 : ssl_result).
Hypothesis Hanswer1 : knows answer1 offer2.
Hypothesis Hanswer2 : knows answer2 offer1.
Hypothesis Huser : c_str (request_user offer1 answer1) = request_user offer1 answer1.
Hypothesis Hshort : size (request_user offer1 answer1) <= 1960.
Hypothesis Hids : forall n, size (transid1 n) = 16.
Hypothesis Hpeer : addr_ok peer.
Hypothesis Hpeerlen : addr_size peer <= peerlen <= sizeof_storage.

Definition receive1 := receive clock1 transid1 offer1 answer1 twcc1 sctp1.
Definition receive2 := receive clock2 transid2 offer2 answer2 twcc2 sctp2.

(** A request sent by the first end, answered by the second. *)
Lemma asked_and_answered use w1 w2 : candidate_ok w1 -> candidate_ok w2 ->
  let id := transid1 (mDrawn (ice w1)) in let h := request_header id in
  exists x time buf1 buf2 request response,
    let i := ice w1 in
    sendBindingRequest clock1 transid1 offer1 answer1 use w1 =
      Some (addSendRaw request (set_ice (mkIce (IceAgent.mk (mTie (mIceAgent i)) (mTransactionList (mIceAgent i) ++ [saved time id]))
        buf1 (mIceRttFilter i) (mSentUseCandidate i) (S (mDrawn i))) (set_timers x w1))) /\
    size buf1 = 2048 /\
    stun_message_find_flag request STUN_ATTRIBUTE_USE_CANDIDATE = Some (if use then RETURN_SUCCESS else RETURN_NOT_FOUND) /\
    receive2 request peer peerlen ssl2 w2 = Some (addSendRaw response
      (set_ice (mkIce (mIceAgent (ice w2)) buf2 (mIceRttFilter (ice w2)) (mSentUseCandidate (ice w2)) (mDrawn (ice w2))) w2)) /\
    size buf2 = 2048 /\
    response = wire (response_header h) (response_list (Answer.mIcePassword answer1) h peer) /\
    holds response (response_header h) (response_list (Answer.mIcePassword answer1) h peer).
Proof using EL Hanswer1 Hanswer2 Huser Hshort Hids Hpeer Hpeerlen.
  intros Hw1 Hw2 id h.
  destruct (send_request_spec clock1 transid1 offer1 answer1 use w1 Hw1 (Hids _)) as (x & time & buf1 & E1 & S1 & H1); [by rewrite Huser|].
  fold id in E1, H1. set (request := wire _ _) in E1, H1. destruct Hanswer1 as [Hu Hp]. destruct Hanswer2 as [Hu' _].
  destruct (request_answered clock2 transid2 offer2 answer2 twcc2 sctp2 request (mTie (mIceAgent (ice w1))) use id
    (request_user offer1 answer1) peer peerlen ssl2 w2) as (buf2 & E2 & S2 & H2); [by rewrite <- Hp|done| |done..|].
  { unfold request_user. by rewrite Hu, Hu'. }
  rewrite <- Hp in E2, H2. exists x, time, buf1, buf2. exists request. eexists. split_and!; [exact E1|done| |exact E2|done|done|exact H2].
  unfold stun_message_find_flag. rewrite (holds_find _ _ _ _ H1). unfold request_list, sealed, request_attrs. by destruct use.
Qed.

(** C12: a connectivity check works: between two ends that know each other's user
    name and password (names of 1960 bytes at most without zero bytes), in any
    state of their schedulers, and as long as the first one has selected no
    candidate, the Binding request that it queues is answered by the second; the answer says the address
    the request came from; when it comes back the first one is connected (ICE),
    starts DTLS and queues a request with USE-CANDIDATE, which is answered too;
    with this answer it has no transaction more than it had before. *)
Theorem binding_exchange iteration w1 w2 : candidate_ok w1 -> candidate_ok w2 -> fresh transid1 w1 ->
  mSentUseCandidate (ice w1) = false ->
  exists request response v1 v2 u1,
    sendStunBindingRequest clock1 transid1 offer1 answer1 iteration w1 = Some v1 /\
    mRawSendQueue v1 = mRawSendQueue w1 ++ [request] /\
    stun_message_find_flag request STUN_ATTRIBUTE_USE_CANDIDATE = Some RETURN_NOT_FOUND /\
    receive2 request peer peerlen ssl2 w2 = Some v2 /\ mRawSendQueue v2 = mRawSendQueue w2 ++ [response] /\
    stun_message_find_xor_addr response STUN_ATTRIBUTE_XOR_MAPPED_ADDRESS peerlen = Some (RETURN_SUCCESS, peer, addr_size peer) /\
    receive1 response addr addrlen ssl1 v1 = Some u1 /\
    mDtlsState (dtls u1) = Activating /\ mLog u1 = mLog v1 ++ [IceConnected; HasDataToSend] /\
    exists request' response' u2 t1,
      mRawSendQueue u1 = mRawSendQueue v1 ++ [request'] /\
      stun_message_find_flag request' STUN_ATTRIBUTE_USE_CANDIDATE = Some RETURN_SUCCESS /\
      receive2 request' peer peerlen ssl2 v2 = Some u2 /\ mRawSendQueue u2 = mRawSendQueue v2 ++ [response'] /\
      receive1 response' addr addrlen ssl1 u1 = Some t1 /\
      mTransactionList (mIceAgent (ice t1)) = mTransactionList (mIceAgent (ice w1)).
Proof using EL Hanswer1 Hanswer2 Huser Hshort Hids Hpeer Hpeerlen.
  intros Hw1 Hw2 Hfresh Hsent.
  destruct (asked_and_answered false w1 w2 Hw1 Hw2) as (x & time & b1 & b2 & request & response & E1 & S1 & F1 & E2 & S2 & -> & H2).
  set (l := mTransactionList (mIceAgent (ice w1))) in *. set (id := transid1 (mDrawn (ice w1))) in *.
  unfold sendStunBindingRequest. rewrite E1. cbn [mbind option_bind].
  edestruct (submit_shape clock1 mTaskSendStunConnectRequest) as [y Ey]. rewrite Ey. clear Ey.
  set (v1 := set_timers y _). set (v2 := addSendRaw _ _) in E2.
  destruct (response_accepted clock1 transid1 offer1 answer1 twcc1 sctp1 id peer addr addrlen ssl1 l time v1 H2 Hpeer)
    as (z & filter & E3); [done|by intros it Hit; apply Hfresh|].
  cbv zeta in E3. rewrite (Hsent : mSentUseCandidate (ice v1) = false) in E3.
  unfold sendStunBindingResponse in E3. set (s1 := emitOnIceConnected _) in E3.
  destruct (asked_and_answered true s1 v2) as (x' & time' & b1' & b2' & request' & response' & E4 & S4 & F4 & E5 & S5 & -> & H5); [done..|].
  rewrite E4 in E3. cbn [mbind option_bind] in E3.
  edestruct (submit_shape clock1 mTaskSendStunConnectResponse) as [y' Ey]. rewrite Ey in E3. clear Ey.
  set (u1 := set_state _ _) in E3. set (u2 := addSendRaw _ _) in E5.
  destruct (response_accepted clock1 transid1 offer1 answer1 twcc1 sctp1 (transid1 (mDrawn (ice s1))) peer addr addrlen ssl1 l time' u1 H5 Hpeer)
    as (z' & filter' & E6); [done|intros it Hit; apply Hfresh; [done|cbn; lia]|].
  eexists request, _, v1, v2, u1. split_and!; [done..|exact E2|done| |exact E3|done| |].
  - by destruct (response_content _ _ _ _ _ H2 Hpeer (proj1 Hpeerlen)).
  - cbn. by rewrite <- app_assoc.
  - eexists request', _, u2, _. split_and!; [done..|exact E5|done|exact E6|done].
Qed.

End Ends.
End Exchange.

(** ** Two ends with names *)

Module Sample.
Import IceAgent Candidate Exchange SdpLoop.LoopSample.
#[local] Existing Instances SrtpProps.Demo.toy SrtpProps.Demo.toy_laws.

Definition end1 : SdpOffer.t := SdpOffer.make draws Publish config [].
Definition end2 : SdpOffer.t := SdpOffer.make (fun n => draws (n + 1)) Subscribe config [].

Definition answer_of (offer : SdpOffer.t) : Answer.t :=
  Answer.mk Publish (SdpOffer.getIceUFrag offer) (SdpOffer.getIcePassword offer) [] [] [] true
    (X509Hash.mk [] [] []) false 0 0.

Definition ids (n : nat) : list Z := be_bytes 16 (Z.of_nat n).

Definition candidate (tie : Z) : Candidate.t := Candidate.make (fun n => Z.of_nat n) (IceAgent.make tie 7) 0.

Lemma binding_exchange_witness : let clock := fun n => Z.of_nat n in
  exists request response v1 v2,
    sendStunBindingRequest clock ids end1 (answer_of end2) 0 (candidate 1) = Some v1 /\
    mRawSendQueue v1 = [request] /\
    receive clock ids end2 (answer_of end1) true true request (AF_INET 4000 0x7f000001) sizeof_in WantRead (candidate 2) = Some v2 /\
    mRawSendQueue v2 = [response] /\
    stun_message_find_xor_addr response STUN_ATTRIBUTE_XOR_MAPPED_ADDRESS sizeof_in =
      Some (RETURN_SUCCESS, AF_INET 4000 0x7f000001, sizeof_in).
Proof.
  destruct (binding_exchange (fun n => Z.of_nat n) (fun n => Z.of_nat n) ids ids end1 end2 (answer_of end2) (answer_of end1)
    true true true true (AF_INET 4000 0x7f000001) sizeof_in (AF_INET 4001 0x7f000001) sizeof_in WantRead WantRead) with
    (iteration := 0) (w1 := candidate 1) (w2 := candidate 2)
    as (request & response & v1 & v2 & u1 & E1 & Q1 & _ & E2 & Q2 & F & _).
  - done.
  - done.
  - by vm_compute.
  - by vm_compute.
  - intros n. apply size_be.
  - by vm_compute.
  - by vm_compute.
  - by vm_compute.
  - by vm_compute.
  - intros it n Hit. by apply elem_of_nil in Hit.
  - done.
  - exists request, response, v1, v2. split_and!; [exact E1|exact Q1|exact E2|exact Q2|exact F].
Defined.

End Sample.
