(* ===== verification/IceRuns.v ===== *)
(** * IceRuns: all runs of a candidate

    Datagrams that the validation of [Stun] accepts are handled inside their
    memory ([Received]); from its constructor on, a candidate is in one of the
    states of [States], and none of its operations has undefined behaviour. *)

From stdpp Require Import strings relations.
From S2P Require Import Prelude Tracks Srtp SrtpProps SdpText Scheduler SchedulerProps TwccPublish SdpOffer SdpAnswer Stun StunProps Ice IceProps.
Import Text Memory StunUtils Stun5389 StunMessage StunHmac Pieces Codec.
Open Scope Z_scope.

(** ** Messages received *)

Module Received.
Import IceAgent Candidate Sealing Addresses Exchange.

Section Received.
Context {EV : Evp} {EL : EvpLaws}.

Lemma load_some b off n : 0 <= off -> 0 <= n -> off + n <= size b -> exists v, load b off n = Some v /\ size v = n.
Proof.
  intros Ho Hn Hs. destruct (cut b off) as (x & r & -> & Hx); [lia|]. rewrite size_app in Hs.
  destruct (cut r n) as (v & c & -> & Hv); [lia|]. exists v. split; [by apply load_at|done].
Qed.

Lemma byte_some b off : 0 <= off < size b -> exists c, byte b off = Some c.
Proof.
  intros Ho. destruct (load_some b off 1) as (v & Hv & Hs); [lia..|]. unfold byte. rewrite Hv. cbn [mbind option_bind].
  destruct v as [|c v]; [done|]. by exists c.
Qed.

Lemma fingerprint_defined b h l : holds b h l -> 8 <= size (body l) -> exists r, stun_fingerprint b (20 + size (body l)) false = Some r.
Proof.
  intros Hb Hl. unfold stun_fingerprint. pose proof (holds_size _ _ _ Hb) as Hs.
  destruct (load_some b 0 2) as (x & -> & _); [lia..|]. destruct (load_some b 4 (20 + size (body l) - 12)) as (y & -> & _); [lia..|].
  cbn [mbind option_bind]. eauto.
Qed.

Lemma sha1_defined b p key : 24 <= p -> p - 4 <= size b -> exists r, stun_sha1 b (p + 20) p key false = Some r.
Proof.
  intros Hp Hs. unfold stun_sha1, guard_true. rewrite (proj2 (Z.leb_le _ _)) by lia. cbn [mbind option_bind].
  destruct (load_some b 0 2) as (x & -> & _); [lia..|]. destruct (load_some b 4 (p + 20 - 28)) as (y & -> & _); [lia..|].
  cbn [mbind option_bind]. eauto.
Qed.

Lemma found_body l type p n : attr_find type 20 l = Some (p, n) -> 4 + n <= size (body l).
Proof.
  intros H. destruct (attr_find_split _ _ _ _ _ H) as (l1 & v & pad & l2 & -> & -> & ->).
  rewrite body_app, body_cons, !size_app. unfold enc. rewrite !size_app, !size_be. cbn [a_value a_pad].
  pose proof (size_nonneg (body l1)). pose proof (size_nonneg (body l2)). pose proof (size_nonneg pad). lia.
Qed.

Lemma verifyFingerprint_defined b h l : holds b h l -> exists r, verifyFingerprint b = Some r.
Proof.
  intros Hb. unfold verifyFingerprint. rewrite (holds_find _ _ _ _ Hb). cbn [mbind option_bind].
  destruct (attr_find _ _ _) as [[p n]|] eqn:Hf; [|by eexists].
  destruct (found_value _ _ _ _ _ _ Hb Hf) as (v & Hv & Hs & Hp & Hn). pose proof (found_body _ _ _ _ Hf) as Hl.
  destruct (decide (n = 4)) as [->|Hne]; [|destruct n as [|[[[]|[]|]|[[]|[]|]|]|]; (done || by eexists)].
  rewrite Hv. cbn [mbind option_bind]. rewrite (holds_length _ _ _ Hb). cbn [mbind option_bind].
  destruct (fingerprint_defined _ _ _ Hb) as [r ->]; [lia|]. by eexists.
Qed.

Lemma verifyIntegrity_defined b h l password : holds b h l -> exists r, verifyIntegrity b password = Some r.
Proof.
  intros Hb. unfold verifyIntegrity. rewrite (holds_find _ _ _ _ Hb). cbn [mbind option_bind].
  destruct (attr_find _ _ _) as [[p n]|] eqn:Hf; [|by eexists].
  destruct (found_value _ _ _ _ _ _ Hb Hf) as (v & Hv & Hs & Hp & Hn).
  destruct (decide (n = 20)) as [->|Hne].
  - destruct (sha1_defined b p password) as [r ->]; [lia..|]. cbn [mbind option_bind]. rewrite Hv. by eexists.
  - repeat (case_match; try (by exists false)); done.
Qed.

Lemma verifyRequest_defined b h l username password : holds b h l -> exists r, verifyRequestMessage b username password = Some r.
Proof.
  intros Hb. unfold verifyRequestMessage. destruct (verifyFingerprint_defined _ _ _ Hb) as [[] ->]; cbn [mbind option_bind negb]; [|by eexists].
  rewrite (holds_find _ _ _ _ Hb). cbn [mbind option_bind]. destruct (attr_find _ _ _) as [[p n]|] eqn:Hf; [|by eexists].
  destruct (n =? 0); [by eexists|]. destruct (found_value _ _ _ _ _ _ Hb Hf) as (v & -> & _). cbn [mbind option_bind].
  case_match; [by eexists|]. by eapply verifyIntegrity_defined.
Qed.

Lemma verifyResponse_defined b h l password : holds b h l -> exists r, verifyResponseMessage b password = Some r.
Proof.
  intros Hb. unfold verifyResponseMessage. destruct (verifyFingerprint_defined _ _ _ Hb) as [[] ->]; cbn [mbind option_bind negb]; [|by eexists].
  by eapply verifyIntegrity_defined.
Qed.

Lemma find_error_defined b h l : holds b h l -> exists r, stun_message_find_error b = Some r.
Proof.
  intros Hb. unfold stun_message_find_error. rewrite (holds_find _ _ _ _ Hb). cbn [mbind option_bind].
  destruct (attr_find _ _ _) as [[p n]|] eqn:Hf; [|by eexists].
  destruct (Z.ltb_spec n 4) as [|Hn]; [by eexists|]. destruct (found_value _ _ _ _ _ _ Hb Hf) as (v & _ & _ & Hp & Hs).
  destruct (byte_some b (p + 2)) as [x ->]; [lia|]. destruct (byte_some b (p + 3)) as [y ->]; [lia|].
  cbn [mbind option_bind]. case_match; by eexists.
Qed.

Lemma response_defined mOffer a b request h l addr addrlen : holds request h l -> word_class (h_type h) = STUN_REQUEST ->
  word_method (h_type h) = STUN_BINDING -> cookied h -> roomy b -> 28 <= size b -> addr_ok addr ->
  addr_size addr <= addrlen <= sizeof_storage ->
  exists b' l', make_stun_message_binding_response mOffer a b request addr addrlen = Some (b', a) /\
    holds b' (response_header h) l' /\ size b' = size b.
Proof using EL.
  intros Hreq Hc Hm Hck Hr Hb Ha Hlen. unfold make_stun_message_binding_response.
  destruct (initResponse_holds b request h l Hreq Hc Hck Hr Hb) as (b1 & -> & H1 & S1). cbn [mbind option_bind].
  rewrite Hm in H1. fold (response_header h) in H1. assert (Hk : cookied (response_header h)) by done.
  pose proof (roomy_same b b1 Hr S1) as R1.
  destruct (append_address_defined b1 _ _ STUN_ATTRIBUTE_XOR_MAPPED_ADDRESS addr addrlen H1 Hk R1) as (r & b2 & l2 & -> & H2 & S2); [done..|].
  cbn [mbind option_bind].
  destruct (finish_defined a b2 _ l2 None (SdpOffer.getIcePassword mOffer) 0 H2 Hk) as (f & b3 & l3 & -> & H3 & S3);
    [by apply (roomy_same b1)|].
  cbn [mbind option_bind]. exists b3, l3. split_and!; [by destruct f|done|lia].
Qed.

(** *** Datagrams *)

(** A datagram that looks like STUN passes the validation. *)
Definition arrives (b : list Z) : Prop :=
  bytes_ok b /\ size b < 2 ^ 16 /\
  forall r, is_stun_message b = Some true -> stun_message_validate_buffer_length b true = Some r -> 0 < r.

Lemma is_stun_defined b : exists r, is_stun_message b = Some r.
Proof.
  unfold is_stun_message. destruct (Z.ltb_spec 20 (size b)); [|by eexists].
  destruct (byte_some b 0) as [x ->]; [lia|]. cbn [mbind option_bind]. destruct (x <? 2); [|by eexists].
  destruct (load_some b 4 4) as (c & -> & _); [lia..|]. by eexists.
Qed.

Lemma is_dtls_defined b : exists r, is_dtls_message b = Some r.
Proof.
  unfold is_dtls_message. destruct (Z.leb_spec 4 (size b)); [|by eexists]. destruct (byte_some b 0) as [x ->]; [lia|]. by eexists.
Qed.

Lemma is_rtc_defined b : exists r, is_rtc_message b = Some r.
Proof.
  unfold is_rtc_message. destruct (Z.leb_spec 8 (size b)); [|by eexists]. destruct (byte_some b 0) as [x ->]; [lia|]. by eexists.
Qed.

Lemma arrives_holds b : arrives b -> is_stun_message b = Some true -> exists h l, holds b h l /\ cookied h.
Proof.
  intros (Hb & Hs & Hv) Hstun. destruct (Validation.accepted_valid b Hb Hs) as (r & E & Hr).
  destruct (Hr (Hv r Hstun E)) as (h & l & [H _] & _). exists h, l. split; [done|].
  unfold is_stun_message in Hstun. destruct (20 <? size b); [|done]. destruct (byte b 0) as [x|]; [|done].
  cbn [mbind option_bind] in Hstun. destruct (x <? 2); [|done].
  pose proof (holds_id _ _ _ H) as Hid. unfold stun_message_id in Hid.
  assert (E4 : h_id h = [] ++ take 4 (h_id h) ++ drop 4 (h_id h)) by (by rewrite app_nil_l, take_drop).
  rewrite E4 in Hid at 1. apply load_part in Hid. change (STUN_MESSAGE_TRANS_ID_POS + size []) with 4 in Hid.
  destruct (hold_header _ _ _ H) as [_ Hsize].
  assert (Ht : size (take 4 (h_id h)) = 4) by (unfold size in *; rewrite length_take; lia). rewrite Ht in Hid.
  rewrite Hid in Hstun. cbn [mbind option_bind] in Hstun. injection Hstun as Hc. apply bool_decide_eq_true_1 in Hc. by symmetry.
Qed.

End Received.
End Received.

(** ** The states of a candidate *)

Module States.
Import IceAgent Candidate Addresses Exchange Received.

Definition is_ice (e : event) : bool := match e with IceConnected => true | _ => false end.

Definition ice_connected (log : list event) : nat := length (filter (fun e => is_ice e = true) log).

(** What holds of the members between two operations. *)
Record shape_of (i : Ice) (d : Dtls) (connected : bool) (log : list event) : Prop := {
  s_buffer : size (mIceMessageBuffer i) = 2048;
  s_sent : mSentUseCandidate i = true <-> mDtlsState d <> Inactive;
  s_ssl : mDtlsSsl d = true -> mDtlsState d <> Inactive;
  s_connected : connected = true -> mDtlsState d = Completed;
  s_srtp : mDtlsState d = Completed -> mSrtpConnection d = true;
  s_ice : ice_connected log = if mSentUseCandidate i then 1%nat else 0%nat;
  s_dtls : DtlsConnected ∈ log -> mDtlsState d = Completed
}.

Definition shape (w : Candidate.t) : Prop := shape_of (ice w) (dtls w) (mIsConnected w) (mLog w).

(** The functions that wait, and the task that runs. *)
Definition loop_ok (P : Action -> Prop) (R : option (LoopScheduler.TaskImpl Action)) (l : LoopScheduler.t Action) : Prop :=
  Forall (fun task => P (LoopScheduler.mFunc task)) (LoopScheduler.mTaskQueue l) /\ LoopScheduler.mRunning l = R.

Definition running_ok (P : Action -> Prop) (R : option (LoopScheduler.TaskImpl Action)) : Prop :=
  forall task, R = Some task -> P (LoopScheduler.mFunc task).

Definition inv (P : Action -> Prop) R (w : Candidate.t) : Prop := shape w /\ loop_ok P R (mLoop (timers w)).

(** *** The schedulers *)

Section Loop.
Context (clock : nat -> Z) (P : Action -> Prop) (R : option (LoopScheduler.TaskImpl Action)).
Implicit Type l : LoopScheduler.t Action.

Lemma loop_submit by_ delay f l : P f -> loop_ok P R l -> loop_ok P R (LoopScheduler.submit_by clock by_ delay f l).2.
Proof. intros Hf [Hq Hr]. split; [|done]. cbn. by apply TimedQueue.Forall_insert. Qed.

Lemma loop_cancelImpl id l : loop_ok P R l -> loop_ok P R (LoopScheduler.cancelImpl id l).
Proof.
  intros [Hq Hr]. unfold LoopScheduler.cancelImpl.
  pose proof (SchedulerProps.erase_spec id (LoopScheduler.mTaskQueue l)) as He.
  destruct (LoopScheduler.erase id _) as [q'|]; [|done]. destruct He as (task & _ & Hp & _). split; [|done].
  rewrite Hp in Hq. by apply Forall_cons_1 in Hq as [_ Hq].
Qed.

Lemma loop_cancel id l : loop_ok P R l -> loop_ok P R (LoopScheduler.cancel id l).
Proof. intros H. unfold LoopScheduler.cancel. destruct (LoopScheduler.lock id l); [by apply loop_cancelImpl|done]. Qed.

Lemma loop_update by_ id delay l : running_ok P R -> loop_ok P R l -> loop_ok P R (LoopScheduler.update clock by_ id delay l).2.
Proof.
  intros HR H. unfold LoopScheduler.update. destruct (LoopScheduler.lock id l) as [task|] eqn:E; [|done].
  unfold LoopScheduler.updateImpl. pose proof (loop_submit by_ delay (LoopScheduler.mFunc task) (LoopScheduler.cancelImpl (LoopScheduler.mId task) l)) as Hs.
  destruct (LoopScheduler.submit_by _ _ _ _ _) as [n l'] eqn:El. cbn in *. apply Hs; [|by apply loop_cancelImpl].
  unfold LoopScheduler.lock in E. destruct (list_find _ _) as [[k t']|] eqn:Ef; [|done]. injection E as ->.
  apply list_find_Some in Ef as [Ht _]. apply list_elem_of_lookup_2 in Ht. destruct H as [Hq Hr].
  apply elem_of_app in Ht as [Ht|Ht]; [by apply (proj1 (list.Forall_forall _ _) Hq)|].
  rewrite Hr in Ht. destruct R as [r|]; [|by apply elem_of_nil in Ht]. apply list_elem_of_singleton in Ht as ->. by apply HR.
Qed.

(** *** Tasks of the candidate *)

Definition quiet (w w' : Candidate.t) : Prop := exists x, w' = set_timers x w /\ inv P R (set_timers x w).

Lemma quiet_loop w x : inv P R w -> loop_ok P R (mLoop x) -> quiet w (set_timers x w).
Proof. intros [Hs _] Hl. by exists x. Qed.

Lemma now_quiet w : inv P R w -> exists time x, now clock w = (time, set_timers x w) /\ inv P R (set_timers x w).
Proof. intros [Hs Hl]. by do 2 eexists. Qed.

Lemma submit_quiet slot delay f w : P f -> inv P R w -> quiet w (submit clock slot delay f w).
Proof.
  intros Hf Hw. pose proof (proj2 Hw) as Hl. unfold submit, ScopedScheduler.submit.
  match goal with |- context [LoopScheduler.submit_by clock ?b ?d ?f ?l] => pose proof (loop_submit b d f l Hf Hl) as H end.
  destruct (LoopScheduler.submit_by _ _ _ _ _) as [id l]. by apply quiet_loop.
Qed.

Lemma cancel_quiet slot w : inv P R w -> quiet w (cancelHelper slot w).
Proof.
  intros Hw. pose proof (proj2 Hw) as Hl. unfold cancelHelper, ScopedScheduler.cancelImpl.
  destruct (lock slot w) as [impl|]; apply quiet_loop; [done|by apply loop_cancel|done..].
Qed.

Lemma update_quiet slot delay f w : running_ok P R -> P f -> inv P R w -> quiet w (update_or_submit clock slot delay f w).
Proof.
  intros HR Hf Hw. unfold update_or_submit. destruct (lock slot w) as [impl|]; [|by apply submit_quiet].
  unfold ScopedScheduler.updateImpl. pose proof (proj2 Hw) as Hl.
  match goal with |- context [LoopScheduler.update clock ?b ?i ?d ?l] => pose proof (loop_update b i d l HR Hl) as H end.
  destruct (LoopScheduler.update _ _ _ _ _) as [[id|] l]; by apply quiet_loop.
Qed.

End Loop.

(** *** Operations *)

(** After the start: what may wait. *)
Definition live (f : Action) : Prop := f <> StartConnecting /\ f <> KeepAlive.

Definition harmless (e : event) : Prop := is_ice e = false /\ e <> DtlsConnected.

Lemma ice_connected_snoc log e : ice_connected (log ++ [e]) = (ice_connected log + if is_ice e then 1 else 0)%nat.
Proof. unfold ice_connected. rewrite list.filter_app, length_app. f_equal. rewrite list.filter_cons, list.filter_nil. by destruct e. Qed.

Lemma shape_emit i d c log e : harmless e -> shape_of i d c log -> shape_of i d c (log ++ [e]).
Proof.
  intros [He Hd] []. constructor; [done..| |].
  - rewrite ice_connected_snoc, He. lia.
  - rewrite elem_of_app, list_elem_of_singleton. intros [H|<-]; auto.
Qed.

Lemma shape_ice i d c log a b f n : shape_of i d c log -> size b = 2048 -> shape_of (mkIce a b f (mSentUseCandidate i) n) d c log.
Proof. by intros [] Hb. Qed.

Lemma inv_emit P R e w : harmless e -> inv P R w -> inv P R (emit e w).
Proof. intros He [Hs Hl]. split; [by apply shape_emit|done]. Qed.

Lemma inv_connected P R c w : (c = true -> mDtlsState (dtls w) = Completed) -> inv P R w -> inv P R (set_connected c w).
Proof. intros Hc [[] Hl]. split; [by constructor|done]. Qed.

Lemma inv_agent P R a w : inv P R w -> inv P R (set_agent a w).
Proof. intros [Hs Hl]. split; [|done]. apply shape_ice; [done|by apply Hs]. Qed.

Lemma inv_received P R time w : inv P R w -> inv P R (set_received time w).
Proof. done. Qed.

(** One call in the goal is replaced by what it does, the innermost first. *)
Ltac known w := lazymatch goal with _ : inv _ _ w |- _ => fail | _ => idtac end.

Ltac advance :=
  match goal with
  | H : inv ?P ?R ?w |- context [now ?c ?w] =>
      let E := fresh in destruct (now_quiet c P R w H) as (? & ? & E & ?); rewrite E; clear E; cbv beta iota
  | H : inv ?P ?R ?w |- context [cancelHelper ?slot ?w] =>
      let E := fresh in destruct (cancel_quiet P R slot w H) as (? & E & ?); rewrite E; clear E
  | H : inv ?P ?R ?w |- context [submit ?c ?slot ?delay ?f ?w] =>
      let E := fresh in destruct (submit_quiet c P R slot delay f w ltac:(done) H) as (? & E & ?); rewrite E; clear E
  | H : inv ?P ?R ?w, HR : running_ok ?P ?R |- context [update_or_submit ?c ?slot ?delay ?f ?w] =>
      let E := fresh in destruct (update_quiet c P R slot delay f w HR ltac:(done) H) as (? & E & ?); rewrite E; clear E
  | H : inv ?P ?R ?w |- context [emit ?e ?w] =>
      known (emit e w); pose proof (inv_emit P R e w ltac:(done) H)
  | H : inv ?P ?R ?w |- context [set_received ?time ?w] =>
      known (set_received time w); pose proof (inv_received P R time w H)
  | H : inv ?P ?R ?w |- context [set_agent ?a ?w] =>
      known (set_agent a w); pose proof (inv_agent P R a w H)
  | H : inv ?P ?R ?w |- context [set_connected false ?w] =>
      known (set_connected false w); pose proof (inv_connected P R false w ltac:(done) H)
  end.

Section Operations.
Context {EV : Evp} {EL : EvpLaws} (clock : nat -> Z) (transid : nat -> list Z).
Context (mOffer : SdpOffer.t) (mAnswer : Answer.t) (hasTWCC hasSctp : bool).
Hypothesis Hids : forall n, size (transid n) = 16.

Lemma send_defined P R use w : size (mIceMessageBuffer (ice w)) = 2048 -> loop_ok P R (mLoop (timers w)) ->
  exists x raw agent buf, sendBindingRequest clock transid mOffer mAnswer use w =
    Some (addSendRaw raw (set_ice (mkIce agent buf (mIceRttFilter (ice w)) (mSentUseCandidate (ice w)) (S (mDrawn (ice w))))
      (set_timers x w))) /\
    loop_ok P R (mLoop x) /\ size buf = 2048.
Proof using EL Hids.
  intros Hb Hl. unfold sendBindingRequest. destruct (now clock w) as [time w'] eqn:E. unfold now in E. injection E as <- <-.
  set (x := mkTimers _ _ _).
  destruct (request_defined mOffer mAnswer (mIceAgent (ice w)) (mIceMessageBuffer (ice w)) (transid (mDrawn (ice w))) use
    (clock (LoopScheduler.mTicks (mLoop (timers w)))) (Hids _)) as (buf & agent & l & E1 & H1 & S1); [by split; rewrite Hb|lia|].
  change (ice (set_timers x w)) with (ice w). rewrite E1. cbn [mbind option_bind].
  rewrite (holds_length _ _ _ H1). cbn [mbind option_bind]. rewrite (holds_whole _ _ _ H1). cbn [mbind option_bind].
  exists x. do 3 eexists. split_and!; [done|exact Hl|lia].
Qed.

(** [Some] state, with the invariant, and in the same state of the handshake. *)
Definition stays P R (w : Candidate.t) (r : option Candidate.t) : Prop :=
  exists w', r = Some w' /\ inv P R w' /\ mDtlsState (dtls w') = mDtlsState (dtls w).

Lemma stays_bind P R w r f : stays P R w r ->
  (forall w', inv P R w' -> mDtlsState (dtls w') = mDtlsState (dtls w) -> stays P R w' (f w')) -> stays P R w (r ≫= f).
Proof.
  intros (w' & -> & Hw & Hd) Hf. destruct (Hf w' Hw Hd) as (w2 & E & H2 & D2). exists w2. split_and!; [done..|congruence].
Qed.

Lemma stays_from P R w w' r : mDtlsState (dtls w') = mDtlsState (dtls w) -> stays P R w' r -> stays P R w r.
Proof. intros Hd (w2 & E & H & D). exists w2. split_and!; [done..|congruence]. Qed.

Lemma stays_some P R w w' : mDtlsState (dtls w') = mDtlsState (dtls w) -> inv P R w' -> stays P R w (Some w').
Proof. intros Hd H. by exists w'. Qed.

Lemma send_stays P R use w : inv P R w -> stays P R w (sendBindingRequest clock transid mOffer mAnswer use w).
Proof using EL Hids.
  intros [Hs Hl]. destruct (send_defined P R use w (s_buffer _ _ _ _ Hs) Hl) as (x & raw & a & b & -> & Hx & Sb).
  eexists. split; [done|]. split; [|done]. split; [|done]. by apply shape_emit; [|apply shape_ice].
Qed.

Lemma sendStunBindingRequest_stays (P : Action -> Prop) R iteration w : (forall n, P (SendStunBindingRequest n)) -> inv P R w ->
  stays P R w (sendStunBindingRequest clock transid mOffer mAnswer iteration w).
Proof using EL Hids.
  intros HP Hw. apply stays_bind; [by apply send_stays|]. intros w' Hw' _. advance. by apply stays_some.
Qed.

Lemma restore_stays R w : inv live R w -> stays live R w (sendConnectionRestoreRequest clock transid mOffer mAnswer w).
Proof using EL Hids.
  intros Hw. apply stays_bind; [by apply send_stays|]. intros w' Hw' _. cbv beta zeta. do 2 advance. by apply stays_some.
Qed.

Lemma connected_stays P R w : mDtlsState (dtls w) = Completed -> inv P R w ->
  stays P R w (emitOnDtlsConnected hasTWCC (set_connected true w)).
Proof.
  intros Hc Hw. unfold emitOnDtlsConnected. pose proof (s_srtp _ _ _ _ (proj1 Hw) Hc) as Hsrtp.
  change (mSrtpConnection _) with (mSrtpConnection (dtls w)). rewrite Hsrtp. cbn [guard_true mbind option_bind].
  assert (Hn : inv P R (emit SrtpPeerConnected (emit DtlsConnected (set_connected true w)))).
  { apply inv_emit; [done|]. destruct Hw as [[] Hl]. split; [|done]. constructor; [done..| |done].
    cbn [mLog emit set_connected ice]. rewrite ice_connected_snoc. cbn [is_ice]. lia. }
  destruct hasTWCC; apply stays_some; [done|by apply inv_emit|done..].
Qed.

Lemma fromRemote_stays R w : running_ok live R -> mDtlsState (dtls w) = Completed -> inv live R w ->
  stays live R w (onReceivedFromRemote clock hasTWCC w).
Proof.
  intros HR Hc Hw. unfold onReceivedFromRemote, updateConnectionLostTimeout. do 5 advance. case_match; [by apply stays_some|].
  match goal with |- stays _ _ _ (emitOnDtlsConnected _ (set_connected true ?v)) => apply (stays_from _ _ _ v); [done|] end.
  by apply connected_stays.
Qed.

Lemma lost_stays R w : inv live R w -> stays live R w (onConnectionLostTimeout clock transid mOffer mAnswer w).
Proof using EL Hids.
  intros Hw. unfold onConnectionLostTimeout, emitOnConnecting. repeat advance.
  match goal with |- stays _ _ _ (sendConnectionRestoreRequest _ _ _ _ ?v) => apply (stays_from _ _ _ v); [done|] end.
  by apply restore_stays.
Qed.

Lemma expired_stays (P : Action -> Prop) R w : P ExpireStunRequests -> inv P R w -> stays P R w (Some (forgetExpiredStunRequests clock w)).
Proof.
  intros HP Hw. unfold forgetExpiredStunRequests. repeat advance. by apply stays_some.
Qed.

Lemma inv_no_srtp P R w : mDtlsState (dtls w) = Inactive -> inv P R w -> inv P R (set_srtp false w).
Proof. intros Hi [[] Hl]. split; [constructor|done]; cbn; try done. congruence. Qed.

Lemma start_stays R w : mDtlsState (dtls w) = Inactive -> inv live R w ->
  stays live R w (startConnecting clock transid mOffer mAnswer w).
Proof using EL Hids.
  intros Hi Hw. unfold startConnecting, emitOnConnecting. do 3 advance.
  match goal with H : inv _ _ ?v |- context [set_srtp false ?v] => pose proof (inv_no_srtp _ _ v Hi H) end. do 2 advance.
  match goal with |- stays _ _ _ (sendStunBindingRequest _ _ _ _ _ ?v) => apply (stays_from _ _ _ v); [done|] end.
  by apply sendStunBindingRequest_stays.
Qed.

(** What waits behind the start does not change the state of the handshake. *)
Lemma perform_stays R f w : live f -> running_ok live R -> inv live R w ->
  stays live R w (perform clock transid mOffer mAnswer f w).
Proof using EL Hids.
  intros Hf HR Hw. destruct f; cbn [perform].
  - by destruct Hf.
  - apply stays_some; [done|]. by apply inv_emit.
  - by apply sendStunBindingRequest_stays.
  - apply stays_bind; [by apply send_stays|]. intros w' Hw' _. advance. by apply stays_some.
  - by apply lost_stays.
  - by apply restore_stays.
  - by apply expired_stays.
  - by destruct Hf.
Qed.

(** *** Messages *)

Definition with_ice (w : Candidate.t) (a : IceAgent.t) (x : Timers) filter (sent : bool) : Candidate.t :=
  set_ice (mkIce a (mIceMessageBuffer (ice w)) filter sent (mDrawn (ice w))) (set_timers x w).

(** An answer to a request, or nothing; or the end of a transaction. *)
Lemma stun_cases P R b h l addr addrlen w : holds b h l -> cookied h -> addr_ok addr -> addr_size addr <= addrlen <= sizeof_storage ->
  inv P R w ->
  (exists w', onReceivedStunMessage clock transid mOffer mAnswer hasTWCC b addr addrlen w = Some w' /\
    inv P R w' /\ dtls w' = dtls w /\ mIceAgent (ice w') = mIceAgent (ice w) /\ timers w' = timers w) \/
  (mTransactionList (mIceAgent (ice w)) <> [] /\ exists a x filter (v : bool), loop_ok P R (mLoop x) /\
    onReceivedStunMessage clock transid mOffer mAnswer hasTWCC b addr addrlen w =
      let w' := with_ice w a x filter in
      if v then
        if mSentUseCandidate (ice w) then
          if bool_decide (mDtlsState (dtls w) = Completed) then onReceivedFromRemote clock hasTWCC (w' true) else Some (w' true)
        else
          w ← sendStunBindingResponse clock transid mOffer mAnswer 0 (emitOnIceConnected (w' true));
          Some (set_state Activating w)
      else Some (w' (mSentUseCandidate (ice w)))).
Proof using EL.
  intros Hb Hk Ha Hlen Hw. pose proof (s_buffer _ _ _ _ (proj1 Hw)) as Hbuf. unfold onReceivedStunMessage.
  destruct (Sealing.holds_word _ _ _ Hb) as [-> ->]. cbn [mbind option_bind].
  destruct (bool_decide (Sealing.word_class (h_type h) = STUN_REQUEST) && _) eqn:Hreq.
  - left. apply andb_true_iff in Hreq as [Hc Hm]. apply bool_decide_eq_true in Hc. apply Z.eqb_eq in Hm.
    match goal with |- context [verifyRequestMessage ?b ?u ?p] => destruct (verifyRequest_defined b h l u p Hb) as [[] ->] end;
      cbn [mbind option_bind]; [|by exists w].
    destruct (response_defined mOffer (mIceAgent (ice w)) (mIceMessageBuffer (ice w)) b h l addr addrlen Hb Hc Hm Hk)
      as (buf & l' & -> & H1 & S1); [by split; rewrite Hbuf|lia|done..|].
    cbn [mbind option_bind]. rewrite (holds_length _ _ _ H1). cbn [mbind option_bind]. rewrite (holds_whole _ _ _ H1).
    cbn [mbind option_bind]. eexists. split; [done|]. split_and!; [|done..].
    destruct Hw as [Hs Hl]. split; [|done]. apply shape_emit; [done|]. apply shape_ice; [done|lia].
  - destruct (bool_decide (Sealing.word_class (h_type h) = STUN_RESPONSE) && _); [|left; by exists w].
    destruct (find_error_defined _ _ _ Hb) as [[found code] ->]. cbn [mbind option_bind].
    rewrite (holds_id _ _ _ Hb). cbn [mbind option_bind]. destruct (now_quiet clock P R w Hw) as (time & x & -> & Hx).
    cbv beta iota zeta. change (ice (set_timers x w)) with (ice w).
    destruct (forgetTransaction _ _ _) as [[rtt a]|] eqn:Hf; [|left; by exists w].
    right. split; [intros E; unfold forgetTransaction in Hf; by rewrite E in Hf|].
    destruct (now_quiet clock P R _ Hx) as (time' & y & -> & Hy). exists a, y. eexists.
    destruct (verifyResponse_defined b h l (Answer.mIcePassword mAnswer) Hb) as [v Hv].
    exists (if (if bool_decide (found = RETURN_SUCCESS) then code else 0) =? 0 then v else false). split; [by apply Hy|].
    rewrite Hv. unfold with_ice. cbn -[onReceivedFromRemote sendStunBindingResponse Filter.update].
    set (e := (if bool_decide (found = RETURN_SUCCESS) then code else 0) =? 0). by destruct e, v, (mSentUseCandidate (ice w)).
Qed.

(** The handshake goes on, or ends. *)
Definition next (s s' : DtlsState) : Prop :=
  s' = s \/ s = Inactive /\ s' = Activating \/ s = Activating /\ (s' = Completed \/ s' = Failed).

Definition moves P R (w : Candidate.t) (r : option Candidate.t) : Prop :=
  exists w', r = Some w' /\ inv P R w' /\ next (mDtlsState (dtls w)) (mDtlsState (dtls w')).

Lemma stays_moves P R w r : stays P R w r -> moves P R w r.
Proof. intros (w' & E & H & D). exists w'. split_and!; [done..|by left]. Qed.

Lemma moves_from P R w w' r : mDtlsState (dtls w') = mDtlsState (dtls w) -> moves P R w' r -> moves P R w r.
Proof. intros Hd (w2 & E & H & D). exists w2. split_and!; [done..|by rewrite <- Hd]. Qed.

Lemma with_ice_inv P R w a x filter : inv P R w -> loop_ok P R (mLoop x) ->
  inv P R (with_ice w a x filter (mSentUseCandidate (ice w))).
Proof. intros [Hs Hl] Hx. split; [|done]. by apply shape_ice; [|apply Hs]. Qed.

(** The candidate is selected. *)
Lemma selected_moves R w a x filter : inv live R w -> loop_ok live R (mLoop x) -> mSentUseCandidate (ice w) = false ->
  moves live R w (w ← sendStunBindingResponse clock transid mOffer mAnswer 0 (emitOnIceConnected (with_ice w a x filter true));
                  Some (set_state Activating w)).
Proof using EL Hids.
  intros [Hs Hl] Hx Hsent. unfold sendStunBindingResponse. set (v := emitOnIceConnected _).
  destruct (send_defined live R true v) as (y & raw & agent & buf & -> & Hy & Sb); [apply Hs|done|]. cbn [mbind option_bind].
  set (u := addSendRaw _ _). pose proof (loop_submit clock live R) as Hsub. unfold submit, ScopedScheduler.submit.
  match goal with |- context [LoopScheduler.submit_by clock ?b ?d ?f ?l] => specialize (Hsub b d f l ltac:(done) Hy) end.
  destruct (LoopScheduler.submit_by _ _ _ _ _) as [id l]. eexists. split; [done|].
  assert (Hi : mDtlsState (dtls w) = Inactive).
  { destruct (decide (mDtlsState (dtls w) = Inactive)) as [|Hne]; [done|]. apply (s_sent _ _ _ _ Hs) in Hne. congruence. }
  split; [|right; left; done]. split; [|done]. destruct Hs as [? ? ? Hc ? Hice Hd]. constructor; cbn.
  - done.
  - done.
  - done.
  - intros Hco. apply Hc in Hco. congruence.
  - done.
  - change (ice_connected ((mLog w ++ [IceConnected]) ++ [HasDataToSend]) = 1%nat).
    by rewrite !ice_connected_snoc, Hice, Hsent.
  - rewrite !elem_of_app, !list_elem_of_singleton. intros [[Hin|]|]; [|done..]. apply Hd in Hin. congruence.
Qed.

Lemma stun_moves R b h l addr addrlen w : holds b h l -> cookied h -> addr_ok addr -> addr_size addr <= addrlen <= sizeof_storage ->
  running_ok live R -> inv live R w -> moves live R w (onReceivedStunMessage clock transid mOffer mAnswer hasTWCC b addr addrlen w).
Proof using EL Hids.
  intros Hb Hk Ha Hlen HR Hw.
  destruct (stun_cases live R b h l addr addrlen w Hb Hk Ha Hlen Hw) as [(w' & -> & Hw' & Hd & _)|(_ & a & x & filter & v & Hx & ->)].
  { apply stays_moves, stays_some; [by rewrite Hd|done]. }
  pose proof (with_ice_inv live R w a x filter Hw Hx) as Hi. cbv zeta. destruct v; [|by apply stays_moves, stays_some].
  destruct (mSentUseCandidate (ice w)) eqn:Hsent; [|by apply selected_moves].
  apply stays_moves. case_bool_decide as Hc; [|by apply stays_some].
  apply (stays_from _ _ _ (with_ice w a x filter true)); [done|]. by apply fromRemote_stays.
Qed.

Lemma flush_stays P R w : inv P R w -> stays P R w (Some (flushSendRaw w)).
Proof.
  unfold flushSendRaw. intros Hw. assert (H : inv P R (set_queue [] w)) by done.
  apply (stays_from _ _ _ (set_queue [] w)); [done|]. revert H. generalize (set_queue [] w) as v.
  induction (mRawSendQueue w) as [|buf q IH]; intros v Hv; cbn [fold_left]; [by apply stays_some|].
  apply (stays_from _ _ _ (emit (SocketSend buf) v)); [done|]. apply IH. by apply inv_emit.
Qed.

Lemma inv_dtls P R d w : mDtlsState d = mDtlsState (dtls w) -> (mDtlsSsl d = true -> mDtlsSsl (dtls w) = true) ->
  mSrtpConnection d = mSrtpConnection (dtls w) -> inv P R w -> inv P R (set_dtls d w).
Proof. intros Hd Hs Hc [[] Hl]. split; [constructor|done]; cbn; rewrite ?Hd, ?Hc; auto. Qed.

Lemma fail_moves P R error w : mDtlsState (dtls w) = Activating -> inv P R w -> moves P R w (Some (fail_dtls error w)).
Proof.
  intros Hd Hw. unfold fail_dtls, emitOnFailedToConnect, freeDTLS.
  assert (Hf : inv P R (set_state Failed w)).
  { destruct Hw as [[Hb Hs Hssl Hc Hsrtp Hi Hdt] Hl]. rewrite Hd in *. split; [|done]. constructor; cbn.
    - done.
    - split; [done|]. intros _. by apply Hs.
    - done.
    - intros E. by apply Hc in E.
    - done.
    - done.
    - intros E. by apply Hdt in E. }
  do 2 advance.
  match goal with |- context [set_dtls ?d ?v] => assert (Hn : inv P R (set_dtls d v)) by (by apply inv_dtls) end.
  destruct (flush_stays P R _ Hn) as (w' & E & Hw' & D). injection E as <-. eexists. split; [done|]. split; [done|].
  right; right. split; [done|right; exact D].
Qed.

(** The handshake is done: SRTP is there. *)
Lemma completed_inv P R w : mDtlsState (dtls w) = Activating -> inv P R w -> inv P R (set_state Completed (set_srtp true w)).
Proof.
  intros Hd [[Hb Hs Hssl Hc Hsrtp Hi Hdt] Hl]. rewrite Hd in *. split; [|done]. constructor; cbn; try done.
  split; [done|]. intros _. by apply Hs.
Qed.

Lemma sctp_stays P R e w : harmless e -> inv P R w -> stays P R w (Some (if hasSctp then emit e w else w)).
Proof. intros He Hw. destruct hasSctp; apply stays_some; [done|by apply inv_emit|done..]. Qed.

Lemma dtls_moves R buf ssl w : running_ok live R -> inv live R w ->
  moves live R w (onReceivedDtlsMessage clock mAnswer hasTWCC hasSctp buf ssl w).
Proof.
  intros HR Hw. unfold onReceivedDtlsMessage. do 2 advance. cbv zeta.
  match goal with |- context [set_dtls ?d ?v] => assert (Hu : inv live R (set_dtls d v)) by (by apply inv_dtls);
    apply (moves_from _ _ _ (set_dtls d v)); [done|]; set (u := set_dtls d v) in *;
    assert (Es : mDtlsState (dtls v) = mDtlsState (dtls u)) by done; clearbody u; rewrite Es end.
  destruct (mDtlsState (dtls u)) eqn:Hd; try (by apply stays_moves, stays_some).
  - destruct ssl as [| |fingerprint srtp| | | |wants]; try (by apply stays_moves, stays_some); [by apply fail_moves| |by apply fail_moves].
    case_bool_decide; [|by apply fail_moves]. destruct srtp; [by apply fail_moves|].
    pose proof (completed_inv _ _ _ Hd Hu) as Hc.
    destruct (stays_bind live R _ _ (fun w => Some (if hasSctp then emit SctpStart w else w))
      (fromRemote_stays R (set_state Completed (set_srtp true u)) HR eq_refl Hc)) as (w' & -> & Hw' & D).
    { intros v Hv _. by apply sctp_stays. }
    eexists. split; [done|]. split; [done|]. right; right. split; [done|left; exact D].
  - apply stays_moves. destruct ssl as [| |fingerprint srtp| | | |[]]; try (by apply stays_some); [by apply sctp_stays|..];
      (apply stays_some; [done|by apply inv_emit]).
Qed.

Lemma receive_moves R buf addr addrlen ssl w : arrives buf -> addr_ok addr -> addr_size addr <= addrlen <= sizeof_storage ->
  running_ok live R -> inv live R w -> moves live R w (receive clock transid mOffer mAnswer hasTWCC hasSctp buf addr addrlen ssl w).
Proof using EL Hids.
  intros Hb Ha Hlen HR Hw. unfold receive. destruct (is_stun_defined buf) as [[] E]; rewrite E; cbn [mbind option_bind].
  - destruct (arrives_holds _ Hb E) as (h & l & H & Hk). by apply (stun_moves R buf h l).
  - destruct (is_dtls_defined buf) as [d ->]. cbn [mbind option_bind].
    destruct (mDtlsSsl (dtls w) && d); [by apply dtls_moves|]. destruct (is_rtc_defined buf) as [r ->]. cbn [mbind option_bind].
    apply stays_moves. destruct r; apply stays_some; [done|by apply inv_emit|done..].
Qed.

(** *** Before and after the start *)

Definition is_start (task : LoopScheduler.TaskImpl Action) : bool :=
  match LoopScheduler.mFunc task with StartConnecting => true | _ => false end.

Definition starts (l : LoopScheduler.t Action) : nat :=
  length (filter (fun task => is_start task = true) (LoopScheduler.mTaskQueue l)).

Definition early (f : Action) : Prop := f = StartConnecting \/ f = ExpireStunRequests.

(** Nothing was sent, and the start waits once at most. *)
Definition waiting R (w : Candidate.t) : Prop :=
  mDtlsState (dtls w) = Inactive /\ mTransactionList (mIceAgent (ice w)) = [] /\ inv early R w /\
  (starts (mLoop (timers w)) <= 1)%nat.

Definition at_rest (w : Candidate.t) : Prop := inv live None w \/ waiting None w.

Lemma submit_starts by_ delay f l : f <> StartConnecting -> starts (LoopScheduler.submit_by clock by_ delay f l).2 = starts l.
Proof. intros Hf. unfold starts. cbn. rewrite TimedQueue.filter_insert_out; [done|]. by destruct f. Qed.

(** A task taken from the queue. *)
Lemma task_taken P R w r l : inv P R w -> LoopScheduler.begin clock (mLoop (timers w)) = (r, l) ->
  match r with
  | Some task => P (LoopScheduler.mFunc task) /\ inv P (Some task) (set_loop l w) /\
      starts (mLoop (timers w)) = (starts l + if is_start task then 1 else 0)%nat
  | None => inv P R (set_loop l w) /\ starts l = starts (mLoop (timers w))
  end.
Proof.
  intros Hw E. pose proof Hw as [Hs [Hq Hr]]. unfold LoopScheduler.begin in E.
  destruct (LoopScheduler.mTaskQueue _) as [|front q] eqn:Eq; [by injection E as <- <-|].
  cbn [LoopScheduler.now] in E. apply Forall_cons_1 in Hq as [Hf Hq]. case_match; injection E as <- <-.
  - split; [done|]. split; [exact (conj Hs (conj Hq eq_refl))|]. unfold starts. rewrite Eq, list.filter_cons. cbn [LoopScheduler.mTaskQueue].
    case_decide as Hd; [rewrite Hd|apply not_true_is_false in Hd; rewrite Hd]; cbn [length]; lia.
  - split; [|by unfold starts; cbn; rewrite Eq]. split; [done|]. split; [cbn; rewrite Eq; by constructor|done].
Qed.

Lemma finish_ok P R w : inv P R w -> inv P None (set_loop (LoopScheduler.finish (mLoop (timers w))) w).
Proof. by intros [Hs [Hq Hr]]. Qed.

Lemma turn_live w : inv live None w -> exists b w', turn clock transid mOffer mAnswer w = Some (b, w') /\ inv live None w' /\
  mDtlsState (dtls w') = mDtlsState (dtls w).
Proof using EL Hids.
  intros Hw. unfold turn. destruct (LoopScheduler.begin _ _) as [[task|] l] eqn:E; pose proof (task_taken _ _ _ _ _ Hw E) as Hb.
  - destruct Hb as (Hf & Hi & _).
    destruct (perform_stays (Some task) (LoopScheduler.mFunc task) (set_loop l w) Hf) as (w' & -> & Hw' & D); [by intros t [= <-]|done|].
    cbn [mbind option_bind]. do 2 eexists. split; [done|]. split; [by eapply finish_ok|exact D].
  - destruct Hb as [Hb _]. by do 2 eexists.
Qed.

(** The first start: from then on nothing waits for it. *)
Lemma start_live task l w : waiting None w -> LoopScheduler.begin clock (mLoop (timers w)) = (Some task, l) ->
  is_start task = true -> inv live (Some task) (set_loop l w).
Proof.
  intros (Hi & Ht & Hw & Hone) E Hstart. destruct (task_taken _ _ _ _ _ Hw E) as (_ & [Hs [Hq Hr]] & Hn).
  rewrite Hstart in Hn. split; [done|]. split; [|done]. assert (Hz : starts l = 0%nat) by lia. unfold starts in Hz.
  apply nil_length_inv in Hz. rewrite list.Forall_forall in *. intros x Hx. cbn in Hx. specialize (Hq x Hx).
  split; [|by destruct Hq as [-> | ->]]. intros Hf. assert (x ∈ filter (fun task => is_start task = true) (LoopScheduler.mTaskQueue l)) as Hin.
  { apply list_elem_of_filter. split; [|done]. unfold is_start. by rewrite Hf. }
  rewrite Hz in Hin. by apply elem_of_nil in Hin.
Qed.

Lemma submit_waiting R slot delay w : waiting R w -> waiting R (submit clock slot delay ExpireStunRequests w).
Proof.
  intros (Hi & Ht & Hw & Hone). destruct (submit_quiet clock early R slot delay ExpireStunRequests w (or_intror eq_refl) Hw) as (x & E & Hx).
  rewrite E. split; [done|]. split; [done|]. split; [done|]. apply (f_equal (fun w => mLoop (timers w))) in E.
  cbn [timers set_timers] in *. rewrite <- E. unfold submit, ScopedScheduler.submit.
  match goal with |- context [LoopScheduler.submit_by clock ?b ?d ?f ?l] => pose proof (submit_starts b d f l ltac:(done)) as Hn;
    destruct (LoopScheduler.submit_by clock b d f l) as [id l'] end.
  cbn in *. lia.
Qed.

Lemma expired_waiting R w : waiting R w -> waiting R (forgetExpiredStunRequests clock w).
Proof.
  intros (Hi & Ht & Hw & Hone). apply submit_waiting. cbn [now LoopScheduler.now]. split; [done|]. split; [cbn; by rewrite Ht|].
  split; [|done]. by apply inv_agent.
Qed.

Lemma turn_waiting w : waiting None w -> exists b w', turn clock transid mOffer mAnswer w = Some (b, w') /\ at_rest w' /\
  mDtlsState (dtls w') = mDtlsState (dtls w).
Proof using EL Hids.
  intros Hw. pose proof Hw as (Hi & Ht & Hinv & Hone). unfold turn.
  destruct (LoopScheduler.begin _ _) as [[task|] l] eqn:E; pose proof (task_taken _ _ _ _ _ Hinv E) as Hb.
  - destruct Hb as ([Hf|Hf] & Hl & Hn); rewrite Hf; cbn [perform].
    + assert (Hl' : inv live (Some task) (set_loop l w)) by (apply start_live; [done..|unfold is_start; by rewrite Hf]).
      destruct (start_stays _ _ (Hi : mDtlsState (dtls (set_loop l w)) = _) Hl') as (w' & -> & Hw' & D).
      cbn [mbind option_bind]. do 2 eexists. split; [done|]. split; [left; by eapply finish_ok|exact D].
    + destruct (expired_waiting (Some task) (set_loop l w)) as (Hi' & Ht' & Hw' & Hone').
      { unfold is_start in Hn. rewrite Hf in Hn. split; [done|]. split; [done|]. split; [done|]. cbn. lia. }
      cbn [mbind option_bind]. do 2 eexists. split; [done|]. split; [|by rewrite Hi; exact Hi'].
      right. split; [done|]. split; [done|]. split; [by eapply finish_ok|done].
  - destruct Hb as [Hb Hn]. do 2 eexists. split; [done|]. split; [|done]. right. split; [done|]. split; [done|]. split; [done|].
    cbn. by rewrite Hn.
Qed.

Lemma receive_waiting buf addr addrlen ssl w : arrives buf -> addr_ok addr -> addr_size addr <= addrlen <= sizeof_storage ->
  waiting None w -> exists w', receive clock transid mOffer mAnswer hasTWCC hasSctp buf addr addrlen ssl w = Some w' /\
    waiting None w' /\ mDtlsState (dtls w') = mDtlsState (dtls w).
Proof using EL.
  intros Hb Ha Hlen (Hi & Ht & Hw & Hone). unfold receive. destruct (is_stun_defined buf) as [[] E]; rewrite E; cbn [mbind option_bind].
  - destruct (arrives_holds _ Hb E) as (h & l & H & Hk).
    destruct (stun_cases early None buf h l addr addrlen w H Hk Ha Hlen Hw) as [(w' & -> & Hw' & Hd & Hag & Htm)|[Hne _]]; [|done].
    exists w'. split_and!; [done| |by rewrite Hd]. unfold waiting. by rewrite Hd, Hag, Htm.
  - destruct (is_dtls_defined buf) as [d ->]. cbn [mbind option_bind].
    destruct (mDtlsSsl (dtls w)) eqn:Hssl; [by apply (s_ssl _ _ _ _ (proj1 Hw)) in Hssl|]. cbn [andb].
    destruct (is_rtc_defined buf) as [r ->]. cbn [mbind option_bind].
    destruct r; eexists; (split; [done|]); (split; [|done]); [|done]. split; [done|]. split; [done|]. split; [by apply inv_emit|done].
Qed.

Lemma prepare_moves P R keyValid w : inv P R w -> moves P R w (Some (prepareDtls keyValid w)).
Proof.
  intros Hw. unfold prepareDtls. destruct (bool_decide _ && _) eqn:Hc; [|by apply stays_moves, stays_some].
  apply andb_true_iff in Hc as [Hc _]. apply bool_decide_eq_true in Hc.
  destruct keyValid; eexists; (split; [done|]); (split; [|right; right; split; [done|by right]] || idtac).
  - split; [|left; by rewrite Hc]. destruct Hw as [[] Hl]. rewrite Hc in *. split; [constructor|done]; cbn; done.
  - apply inv_emit; [done|]. destruct Hw as [[Hb Hs Hssl Hcn Hsrtp Hice Hd] Hl]. rewrite Hc in *.
    split; [constructor|done]; cbn; try done; [split; [done|]; intros _; by apply Hs|intros E; by apply Hcn in E|intros E; by apply Hd in E].
Qed.

(** *** All that can happen to a candidate *)

Inductive step (w : Candidate.t) : Candidate.t -> Prop :=
| Turned b w' : turn clock transid mOffer mAnswer w = Some (b, w') -> step w w'
| Arrived buf addr addrlen ssl w' : arrives buf -> addr_ok addr -> addr_size addr <= addrlen <= sizeof_storage ->
    receive clock transid mOffer mAnswer hasTWCC hasSctp buf addr addrlen ssl w = Some w' -> step w w'
| Prepared keyValid : step w (prepareDtls keyValid w)
| Flushed : step w (flushSendRaw w)
| Paced : step w (onSend clock w).

Lemma no_running P : running_ok P None.
Proof. by intros task. Qed.

Lemma prepare_waiting keyValid w : waiting None w -> prepareDtls keyValid w = w.
Proof. intros (Hi & _). unfold prepareDtls. by rewrite Hi. Qed.

Lemma flush_same w : exists q log, flushSendRaw w = mk (ice w) (dtls w) (timers w) (mIsConnected w) (mLastSendTime w) (mLastReceiveTime w) q log.
Proof.
  unfold flushSendRaw. set (v := set_queue [] w).
  assert (Hv : exists q log, v = mk (ice w) (dtls w) (timers w) (mIsConnected w) (mLastSendTime w) (mLastReceiveTime w) q log) by (by do 2 eexists).
  clearbody v. revert v Hv. induction (mRawSendQueue w) as [|b l IH]; intros v Hv; [done|]. apply IH. destruct Hv as (q & log & ->). by do 2 eexists.
Qed.

Lemma step_rest w w' : at_rest w -> step w w' -> at_rest w' /\ next (mDtlsState (dtls w)) (mDtlsState (dtls w')).
Proof using EL Hids.
  intros [Hw|Hw] Hstep; destruct Hstep as [b w' E|buf addr addrlen ssl w' Hb Ha Hlen E|keyValid| |].
  - destruct (turn_live w Hw) as (b' & w2 & E' & H2 & D). rewrite E in E'. injection E' as -> ->. split; [by left|by left].
  - destruct (receive_moves None buf addr addrlen ssl w Hb Ha Hlen (no_running _) Hw) as (w2 & E' & H2 & D).
    rewrite E in E'. injection E' as ->. split; [by left|done].
  - destruct (prepare_moves live None keyValid w Hw) as (w2 & [= <-] & H2 & D). split; [by left|done].
  - destruct (flush_stays live None w Hw) as (w2 & [= <-] & H2 & D). split; [by left|by left].
  - destruct (now_quiet clock live None w Hw) as (time & x & E & H2). unfold onSend. rewrite E. split; [by left|by left].
  - destruct (turn_waiting w Hw) as (b' & w2 & E' & H2 & D). rewrite E in E'. injection E' as -> ->. split; [done|by left].
  - destruct (receive_waiting buf addr addrlen ssl w Hb Ha Hlen Hw) as (w2 & E' & H2 & D).
    rewrite E in E'. injection E' as ->. split; [by right|by left].
  - rewrite prepare_waiting by done. split; [by right|by left].
  - destruct Hw as (Hi & Ht & Hw & Hone). destruct (flush_stays early None w Hw) as (w2 & [= <-] & H2 & D).
    split; [|by left]. right. destruct (flush_same w) as (q & log & E). split; [by rewrite D|]. rewrite E in *. by split_and!.
  - destruct Hw as (Hi & Ht & Hw & Hone). unfold onSend, now. cbn [LoopScheduler.now]. split; [|by left]. right. by split_and!.
Qed.

Definition reachable (w : Candidate.t) : Prop :=
  exists first second delay, rtc step (make clock (IceAgent.make first second) delay) w.

Lemma make_rest first second delay : at_rest (make clock (IceAgent.make first second) delay).
Proof.
  right. assert (Hs : shape_of (mkIce (IceAgent.make first second) (replicate kIceMessageBufferSize 0) (Filter.make (Float.div32 (Float.f32 2) (Float.f32 10))) false 0)
    (mkDtls Inactive false false []) false []).
  { constructor; try done. by intros []%elem_of_nil. }
  unfold make. apply submit_waiting. split; [done|]. split; [done|]. split; [|done]. split; [exact Hs|].
  split; [|done]. repeat constructor.
Qed.

Lemma reachable_rest w : reachable w -> at_rest w.
Proof using EL Hids.
  intros (first & second & delay & H). assert (H0 := make_rest first second delay). revert H0.
  induction H as [|x y z Hxy _ IH]; intros H0; [done|]. apply IH. by destruct (step_rest _ _ H0 Hxy).
Qed.



End Operations.
End States.

(** ** A candidate that starts *)

Module RunSample.
Import Candidate Received States IceProps.Sample.
#[local] Existing Instances SrtpProps.Demo.toy SrtpProps.Demo.toy_laws.

Definition clock (n : nat) : Z := Z.of_nat n.
Notation turn_sample := (turn clock ids end1 (answer_of end2)).
Notation receive_sample := (receive clock ids end1 (answer_of end2) true true).
Notation start := (Candidate.make clock (IceAgent.make 1 7) 0).

Lemma ids_size n : size (ids n) = 16.
Proof. apply size_be. Qed.

Lemma candidate_reachable : reachable clock ids end1 (answer_of end2) true true start.
Proof. exists 1, 7, 0. apply rtc_refl. Qed.



(** A request of 21 bytes whose length field says 65512: without the validation
    the attributes are looked for behind its end. *)
Definition overlong : list Z := [0; 1; 255; 232; 33; 18; 164; 66; 1; 2; 3; 4; 5; 6; 7; 8; 9; 10; 11; 12; 128].

Example overlong_read : is_stun_message overlong = Some true /\
  stun_message_validate_buffer_length overlong true = Some STUN_MESSAGE_BUFFER_INCOMPLETE /\
  receive_sample overlong (AF_INET 4000 0x7f000001) sizeof_in WantRead start = None.
Proof. split_and!; by vm_compute. Qed.

End RunSample.
