(* ===== verification/EndToEnd.v ===== *)
(** * From a frame to a frame

    A frame that is packetized, arrives packet by packet in order, waits in the
    jitter buffer and is put together again is the frame that was sent: the
    packetizers, the sequence numbers, [JitterBuffer] and the depacketizers
    work together. *)

From stdpp Require Import gmap.
From S2P Require Import Prelude Bytes Sequence Extension Tracks Rtp Packets ExtensionSources Vp8Opus Vp9 H264 Jitter JitterSpec JitterProps.
Import JitterBuffer Ring Queue Refinement WellFormed.

Section Arrivals.
Context {D : Type} `{!Depacketizer D}.
Variable c : config.
Variable k : Z.
Hypothesis Hc : config_ok c k.
Hypothesis Ht : @depacketizer_total D _.
Hypothesis Hk2 : 2 <= k.

#[local] Set Default Proof Using "All".

Notation state := (@JitterBuffer.state D).
Notation queue := (@Queue.queue D).

(** The frame's first packet arrives at [t0], has the extended number [first]; all
    have the extended timestamp [ts]. *)
Variables (d : D) (t0 first ts : Z).
Hypothesis Ht0 : 0 <= t0 < 2 ^ 59.
Hypothesis Hfirst : 2 ^ 16 <= first < 2 ^ 17.
Hypothesis Hts : 2 ^ 32 <= ts < 2 ^ 33.

(** The packet with the number [n], of which the depacketizer sees [vk]: its marker
    and payload, and its kind. *)
Record arrives (n : Z) (x : Z * RtpPacket.t) (vk : bool * list Z * PacketKind) : Prop := {
  arrives_ok : packet_ok x.2;
  arrives_main : RtpPacket.mSSRC x.2 <> Track.mRtxSSRC (mTrack c) \/
                 RtpPacket.mPayloadId x.2 <> Track.mRtxPayloadId (mTrack c);
  arrives_seq : RtpPacket.mSequence x.2 = n mod 2 ^ 16;
  arrives_ts : RtpPacket.mTimestamp x.2 = ts mod 2 ^ 32;
  arrives_view : view x.2 = vk.1;
  arrives_time : t0 <= x.1 < t0 + kNoPacketsResetDelay;
  arrives_kind : dep_getPacketKind d (RtpPacket.mPayload x.2) (RtpPacket.mMarker x.2) = Some vk.2
}.

Fixpoint arrive_from (n : Z) (xs : list (Z * RtpPacket.t)) (vks : list (bool * list Z * PacketKind)) : Prop :=
  match xs, vks with
  | [], [] => True
  | x :: xs, vk :: vks => arrives n x vk /\ arrive_from (n + 1) xs vks
  | _, _ => False
  end.

(** What the buffer holds for such a packet. *)
Definition holds (vk : bool * list Z * PacketKind) (item : JitterBufferItem) : Prop :=
  received item = true /\ kind item = vk.2 /\ carries ts vk.1 item /\
  when_dequeue item = t0 + mLength c * 1000000.

Record arriving (s : state) (l : list JitterBufferItem) : Prop := {
  arriving_wf : wf c k s;
  arriving_window : window_ok c k s (mkQ d first l None);
  arriving_seq : exists since, ExtendedValue.tracks 16 (mExtValueSeq s) (first + Z.of_nat (length l) - 1) since;
  arriving_ts : exists since, ExtendedValue.tracks 32 (mExtValueRtpTimestamp s) ts since;
  arriving_base : mBaseTime s = t0 /\ mBaseRtpTimestamp s = ts;
  arriving_last : t0 <= mLastPacketTime s < t0 + kNoPacketsResetDelay
}.

Lemma unwrap_main x n vk : arrives n x vk ->
  unwrap c x.2 = Some (Some (RtpPacket.mSequence x.2, RtpPacket.mPayload x.2)).
Proof using Type.
  intros []. unfold unwrap.
  destruct arrives_main0 as [E|E]; apply Z.eqb_neq in E; rewrite E; [done|by rewrite andb_false_r].
Qed.

(** All packets of the frame are due together. *)
Lemma schedule_frame now (s : state) : 0 <= now < 2 ^ 60 -> mBaseTime s = t0 -> mBaseRtpTimestamp s = ts ->
  schedule c now ts s = Some (t0 + mLength c * 1000000, now + mNackDelay c * 1000000).
Proof.
  intros Hnow Hb Hr. unfold schedule. destruct Hc as [_ _ Hrate Hlen Hnack]. rewrite Hr, Hb, Z.sub_diag.
  destruct (Z.eqb_spec (Track.mClockRate (mTrack c)) 0); [lia|]. cbn [negb guard_true mbind option_bind].
  change (u64 (1000 * u64 0)) with 0. rewrite Zdiv.Zdiv_0_l. change (i64 0) with 0.
  rewrite (add_millis_some t0 0) by lia. cbn [mbind option_bind]. rewrite Z.mul_0_l, Z.add_0_r.
  rewrite add_millis_some by lia. cbn [mbind option_bind].
  by rewrite add_millis_some by lia.
Qed.

Lemma room_next request abandon n min l :
  n = min + Z.of_nat (length l) -> Z.of_nat (length l) < 2 ^ k ->
  Queue.make_room c n request abandon min l = Some (min, l ++ [newItem]).
Proof.
  intros -> Hl. unfold Queue.make_room. rewrite (config_capacity _ _ Hc).
  destruct (Z.ltb_spec (min + Z.of_nat (length l)) min); [lia|].
  destruct (Z.leb_spec (min + Z.of_nat (length l)) (min + Z.of_nat (length l))); [|lia].
  destruct (Z.ltb_spec (min + 2 ^ k) (min + Z.of_nat (length l))); [lia|].
  by replace (Z.to_nat (min + Z.of_nat (length l) - (min + Z.of_nat (length l)))) with O by lia.
Qed.

(** A packet at the end that is not the start of a frame keeps its kind. *)
Lemma fill_end l x item : l = [] \/ kind item <> Start ->
  Queue.fill (l ++ [x]) (length l) item = l ++ [item].
Proof using Type.
  intros H. unfold Queue.fill.
  assert (fixed_kind (l ++ [x]) (length l) item = item) as ->.
  { unfold fixed_kind. case_bool_decide; [|done]. destruct H as [->|]; [done|done]. }
  assert (<[length l := item]> (l ++ [x]) = l ++ [item]) as ->.
  { rewrite <- (Nat.add_0_r (length l)). by rewrite insert_app_r. }
  unfold fixed_next. destruct (_ || _); [|done].
  by rewrite lookup_ge_None_2 by (rewrite length_app; cbn [length]; lia).
Qed.

Lemma frame_times now : 0 <= now < 2 ^ 60 ->
  time_ok (t0 + mLength c * 1000000) /\ time_ok (now + mNackDelay c * 1000000).
Proof. intros Hnow. destruct Hc as [_ _ _ ? ?]. unfold time_ok. lia. Qed.

(** A packet for which there is room at the end of the window goes there. *)
Lemma enter_last (s : state) l0 l n now packet vk :
  refines c k s (mkQ d first l0 None) -> items_ok_but (Some n) first l0 ->
  n = first + Z.of_nat (length l) -> t0 <= now < 2 ^ 60 -> n < first + 2 ^ k ->
  Queue.make_room c n (now + mNackDelay c * 1000000) (t0 + mLength c * 1000000) first l0
    = Some (first, l ++ [newItem]) ->
  dep_getPacketKind d (RtpPacket.mPayload packet) (RtpPacket.mMarker packet) = Some vk.2 ->
  view packet = vk.1 -> (l = [] \/ vk.2 <> Start) ->
  exists items min max item, let s' := set_window s items min max in
    (room ← JitterBuffer.make_room c n (now + mNackDelay c * 1000000) (t0 + mLength c * 1000000) s;
     match room with
     | None => Some s
     | Some s => JitterBuffer.fill c now n ts (t0 + mLength c * 1000000) (now + mNackDelay c * 1000000)
                   packet (RtpPacket.mPayload packet) s
     end) = Some s' /\
    refines c k s' (mkQ d first (l ++ [item]) None) /\ items_ok first (l ++ [item]) /\ holds vk item.
Proof.
  intros Hr Hi Hn Hnow Hlen Eroom Hkd Hv Hkind. destruct (frame_times now) as [Hd Hreq]; [lia|].
  assert (2 ^ k <= 2 ^ 32) as Hkmax by (apply Z.pow_le_mono_r; [lia|apply (config_k _ _ Hc)]).
  pose proof (r_min _ _ _ _ Hr) as Hmin. pose proof (r_dep _ _ _ _ Hr) as Hdep. cbn [q_min q_dep] in Hmin, Hdep.
  assert (~ collides k n s) as Hcol by (unfold collides; lia).
  destruct (enter_ok c k Hc (proj1 Ht) s _ now n ts _ _ packet (RtpPacket.mPayload packet)
    Hr Hi ltac:(lia) ltac:(lia) Hd Hreq Hcol)
    as [[Hdrop _]|(items & min & max & q' & E & Hr' & Hi' & kd & Ekd & Edep & Elast & lr & Er & Eq')].
  { exfalso. pose proof (make_room_refines c k (config_k _ _ Hc) (config_capacity _ _ Hc) s _ n
      (now + mNackDelay c * 1000000) (t0 + mLength c * 1000000) Hr ltac:(lia) Hcol) as Hroom.
    cbn [q_min q_items] in Hroom. rewrite Eroom in Hroom. destruct Hroom as (? & _ & _ & _ & Ee). congruence. }
  cbn [q_min q_items q_dep q_last] in *. rewrite Eroom in Er. injection Er as Emin <-.
  rewrite Hdep, Hkd in Ekd. injection Ekd as <-.
  replace (Z.to_nat (n - q_min q')) with (length l) in Eq' by lia. rewrite fill_end in Eq' by done.
  exists items, min, max, (packet_item now n ts (t0 + mLength c * 1000000) (now + mNackDelay c * 1000000)
    packet (RtpPacket.mPayload packet) vk.2).
  assert (q' = mkQ d first (q_items q') None) as Eq by (destruct q'; cbn in *; by subst).
  rewrite Eq' in Eq. rewrite Eq in Hr', Hi'. split; [exact E|]. split; [done|]. split; [done|].
  split; [done|]. split; [done|]. split; [rewrite <- Hv; by split|done].
Qed.

(** What the counters make of the next packet of the frame. *)
Lemma next_extended s l now packet n vk :
  arriving s l -> l <> [] -> n = first + Z.of_nat (length l) -> Z.of_nat (length l) < 2 ^ k ->
  arrives n (now, packet) vk ->
  exists es et, ExtendedValue.extend 16 now (mExtValueSeq s) (RtpPacket.mSequence packet) = (n, es) /\
    ExtendedValue.extend 32 now (mExtValueRtpTimestamp s) (RtpPacket.mTimestamp packet) = (ts, et) /\
    (exists since, ExtendedValue.tracks 16 es n since) /\ (exists since, ExtendedValue.tracks 32 et ts since).
Proof.
  intros [_ _ (since & Hseq) (since' & Htsv) _ _] Hne Hn Hlen [_ _ Es Et _ Htime _]. cbn [fst snd] in *.
  assert (2 ^ k <= 2 ^ 32) as Hkmax by (apply Z.pow_le_mono_r; [lia|apply (config_k _ _ Hc)]).
  assert (0 < Z.of_nat (length l)) as Hpos by (destruct l; [done|cbn [length]; lia]).
  set (cur := first + Z.of_nat (length l) - 1) in *.
  assert (cur / 2 ^ 16 <= n / 2 ^ 16) as Hepoch by (apply Z.div_le_mono; lia).
  destruct (ExtendedValue.extend_tracks 16 (mExtValueSeq s) cur since now n ltac:(lia) Hseq) as (es & Ees & Hes).
  { unfold ExtendedValue.close_to. split; [change (2 ^ (16 - 2)) with 16384; lia|]. split; lia. }
  destruct (ExtendedValue.extend_tracks 32 (mExtValueRtpTimestamp s) ts since' now ts ltac:(lia) Htsv)
    as (et & Eet & Het).
  { unfold ExtendedValue.close_to. rewrite Z.sub_diag. split; [change (2 ^ (32 - 2)) with 1073741824; cbn; lia|].
    split; lia. }
  assert (ExtendedValue.next_cur 16 cur n = n) as E1.
  { unfold ExtendedValue.next_cur. by destruct (Z.ltb_spec (n / 2 ^ 16) (cur / 2 ^ 16)); [lia|]. }
  assert (ExtendedValue.next_cur 32 ts ts = ts) as E2 by (unfold ExtendedValue.next_cur; by rewrite Z.ltb_irrefl).
  rewrite E1 in Hes. rewrite E2 in Het. exists es, et. rewrite Es, Et.
  split_and!; [done|done|by eexists|by eexists].
Qed.

Lemma next_current s l now packet n vk :
  arriving s l -> l <> [] -> n = first + Z.of_nat (length l) -> Z.of_nat (length l) < 2 ^ k ->
  arrives n (now, packet) vk ->
  extended_seq now (RtpPacket.mSequence packet) s = n ->
  current c now packet (RtpPacket.mSequence packet) (RtpPacket.mPayload packet) s.
Proof.
  intros [Hwf Hwin (since & Hseq) (since' & Htsv) _ Hlast] Hne Hn Hlen Ha Hen.
  pose proof (unwrap_main _ _ _ Ha) as Hu. destruct Ha as [Hp _ _ _ _ Htime _]. cbn [fst snd] in *.
  assert (2 ^ k <= 2 ^ 32) as Hkmax by (apply Z.pow_le_mono_r; [lia|apply (config_k _ _ Hc)]).
  assert (4 <= 2 ^ k) as Hkmin by (change 4 with (2 ^ 2); apply Z.pow_le_mono_r; lia).
  assert (kNoPacketsResetDelay = 2000000000) as Hdelay by done.
  pose proof (window_refines _ _ _ _ Hwin) as Hr.
  pose proof (r_min _ _ _ _ Hr) as Hmin. pose proof (r_max _ _ _ _ Hr) as Hmax. cbn [q_min q_items] in Hmin, Hmax.
  assert (0 < Z.of_nat (length l)) as Hpos by (destruct l; [done|cbn [length]; lia]).
  set (cur := first + Z.of_nat (length l) - 1) in *.
  split; [done|done|lia| | |lia|].
  - destruct Hseq as (Hrv & _ & _ & ?), Htsv as (Hrv' & _ & _ & ?). unfold counters_ok. rewrite Hrv, Hrv'.
    split; [|zdm]. assert (cur / 2 ^ 16 * 2 ^ 16 <= cur) by zdm. lia.
  - unfold not_older. by rewrite (r_last _ _ _ _ Hr).
  - rewrite Hen, (config_capacity _ _ Hc). zdm.
Qed.

Lemma next_packet s l now packet n vk :
  arriving s l -> l <> [] -> n = first + Z.of_nat (length l) -> Z.of_nat (length l) < 2 ^ k ->
  arrives n (now, packet) vk -> vk.2 <> Start ->
  exists s' item, consume c now packet s = Some s' /\ arriving s' (l ++ [item]) /\ holds vk item.
Proof.
  intros Harr Hne Hn Hlen Ha Hkind.
  destruct (next_extended _ _ _ _ _ _ Harr Hne Hn Hlen Ha) as (es & et & Ees & Eet & Hes & Het).
  assert (extended_seq now (RtpPacket.mSequence packet) s = n) as Hen by (unfold extended_seq; by rewrite Ees).
  assert (extended_timestamp now (RtpPacket.mTimestamp packet) s = ts) as Het'
    by (unfold extended_timestamp; by rewrite Eet).
  pose proof (next_current _ _ _ _ _ _ Harr Hne Hn Hlen Ha Hen) as Hcur.
  destruct Harr as [Hwf Hwin _ _ [Hb Hbr] _]. destruct Ha as [_ _ _ _ Hv Htime Hkd]. cbn [fst snd] in *.
  assert (t0 <= now < 2 ^ 60) as Hnow by (unfold kNoPacketsResetDelay in Htime; lia).
  destruct (noted_ok c k s _ now packet _ _ Hc Hwf Hwin Hcur) as (Hwin1 & Hwf1 & _).
  rewrite (consume_enters c k s _ now packet _ _ Hc Hwf Hwin Hcur), Hen, Het'.
  assert (noted now packet (RtpPacket.mSequence packet) s = set_last_packet (set_extended s es et) now) as Es1
    by (unfold noted; by rewrite Ees, Eet).
  rewrite Es1 in Hwin1, Hwf1 |- *. set (s1 := set_last_packet _ now) in *.
  rewrite (schedule_frame now) by (done || lia). cbn [mbind option_bind].
  destruct (enter_last s1 l l n now packet vk (window_refines _ _ _ _ Hwin1)
    (items_ok_skip _ _ _ (window_items _ _ _ _ Hwin1)) Hn Hnow ltac:(lia)) as
    (items & min & max & item & E & Hr & Hi & Hitem); [by apply room_next|done|done|by right|].
  exists (set_window s1 items min max), item. split; [exact E|]. split; [|done].
  destruct Hwin1 as [_ _ Hl1 Hb1]. destruct Hwf1 as [Hx Hy _].
  assert (window_ok c k (set_window s1 items min max) (mkQ d first (l ++ [item]) None)) as Hw by (by split).
  split; [split; [done|done|right; by eexists]|done| |exact Het|done|cbn; lia].
  rewrite length_app. cbn [length]. by replace (first + Z.of_nat (length l + 1) - 1) with n by lia.
Qed.

(** The first value of a counter. *)
Lemma extend_fresh w now src :
  2 <= w <= 32 -> 0 <= src < 2 ^ w ->
  exists s', ExtendedValue.extend w now ExtendedValue.make src = (2 ^ w + src, s') /\
    ExtendedValue.tracks w s' (2 ^ w + src) now /\ ExtendedValue.ext_ok w s'.
Proof using Type.
  intros Hw Hsrc.
  assert (4 <= 2 ^ w <= 2 ^ 32) as HW by (change 4 with (2 ^ 2); split; apply Z.pow_le_mono_r; lia).
  unfold ExtendedValue.extend, ExtendedValue.make, ExtendedValue.mRolloverIncrement.
  cbn [ExtendedValue.mRolloverValue ExtendedValue.mLastValue Z.eqb].
  pose proof (ExtendedValue.lor_epoch w 1 src ltac:(lia) Hsrc) as E. rewrite Z.mul_1_l in E. rewrite E.
  eexists. split; [done|]. split.
  - unfold ExtendedValue.tracks. cbn.
    replace (2 ^ w + src) with (src + 1 * 2 ^ w) by lia. rewrite Z.div_add, Z.mod_add by lia.
    rewrite Z.div_small, Z.mod_small by lia. split_and!; done || lia.
  - right. exists 1, src. cbn. rewrite Z.mul_1_l. split_and!; done || lia.
Qed.

Lemma first_packet s0 packet vk :
  make c d = Some s0 -> first = 2 ^ 16 + RtpPacket.mSequence packet -> ts = 2 ^ 32 + RtpPacket.mTimestamp packet ->
  arrives first (t0, packet) vk ->
  exists s item, consume c t0 packet s0 = Some s /\ arriving s [item] /\ holds vk item.
Proof.
  intros Hmake Ef Ets Ha. pose proof (unwrap_main _ _ _ Ha) as Hu. cbn [fst snd] in Hu.
  destruct Ha as [Hp _ _ _ Hv _ Hkd]. cbn [fst snd] in *.
  unfold make in Hmake. apply bind_Some_inv in Hmake as (? & _ & [= <-]).
  destruct Hp as (Hbytes & Hseq & Htsr).
  destruct (extend_fresh 16 t0 (RtpPacket.mSequence packet) ltac:(lia) Hseq) as (es & Ees & Hes & Hoes).
  destruct (extend_fresh 32 t0 (RtpPacket.mTimestamp packet) ltac:(lia) Htsr) as (et & Eet & Het & Hoet).
  unfold consume. rewrite Hu. cbn [mbind option_bind mExtValueSeq mExtValueRtpTimestamp].
  rewrite Ees, Eet, <- Ef, <- Ets. cbn [mLastFrameTimeStamp set_extended from_option].
  unfold reset_if_idle. cbn [mItemList set_extended mbind option_bind].
  match goal with |- context [open_window c t0 first ts ?s] => set (s1 := s) end.
  destruct (first_window c k Hc (proj1 Ht) s1 t0 first ts ltac:(lia) ltac:(lia) ltac:(lia) eq_refl)
    as (s2 & -> & Hr & E1 & E2 & E3 & E4 & E5).
  rewrite (schedule_frame t0) by (done || lia). cbn [mbind option_bind].
  pose proof (cap_pos c k (config_k _ _ Hc) (config_capacity _ _ Hc)) as Hcap.
  destruct (enter_last s2 [newItem] [] first t0 packet vk Hr (items_ok_hole _ _)) as
    (items & min & max & item & E & Hr' & Hi' & Hitem); try done; [cbn [length]; lia|lia|lia| |by left|].
  { unfold Queue.make_room. rewrite Z.ltb_irrefl. cbn [length].
    by destruct (Z.leb_spec (first + Z.of_nat 1) first); [lia|]. }
  exists (set_window s2 items min max), item. split; [exact E|]. cbn [app] in Hr', Hi'.
  assert (window_ok c k (set_window s2 items min max) (mkQ d first [item] None)) as Hw.
  { split; [done|done| |]; cbn; rewrite ?E3, ?E4, ?E5; unfold s1; cbn; lia. }
  split; [|done]. split.
  - split; cbn; rewrite ?E1, ?E2; unfold s1; cbn; [done|done|]. right. by eexists.
  - done.
  - exists t0. replace (first + Z.of_nat (length [item]) - 1) with (2 ^ 16 + RtpPacket.mSequence packet)
      by (cbn [length]; lia).
    cbn [mExtValueSeq set_window]. rewrite E1. exact Hes.
  - exists t0. cbn [mExtValueRtpTimestamp set_window]. rewrite E2, Ets. exact Het.
  - by cbn; rewrite E4, E5.
  - cbn. rewrite E3. unfold s1. cbn. unfold kNoPacketsResetDelay. lia.
Qed.

Lemma more_packets xs : forall vks s l,
  arriving s l -> l <> [] -> arrive_from (first + Z.of_nat (length l)) xs vks ->
  Z.of_nat (length l + length xs) <= 2 ^ k -> Forall (fun vk => vk.2 <> Start) vks ->
  exists s' l', consume_all c xs s = Some s' /\ arriving s' (l ++ l') /\ Forall2 holds vks l'.
Proof.
  induction xs as [|[now packet] xs IH]; intros vks s l Ha Hne Hx Hlen Hk.
  - destruct vks; [|done]. exists s, []. by rewrite app_nil_r.
  - destruct vks as [|vk vks]; [done|]. destruct Hx as [Hx1 Hx2]. cbn [length] in Hlen.
    apply list.Forall_cons in Hk as [Hk1 Hk'].
    destruct (next_packet s l now packet _ vk Ha Hne eq_refl ltac:(lia) Hx1 Hk1) as (s1 & item & E & Ha1 & Hh).
    destruct (IH vks s1 (l ++ [item]) Ha1) as (s2 & l2 & E2 & Ha2 & Hh2).
    + by destruct l.
    + rewrite length_app. cbn [length].
      by replace (first + Z.of_nat (length l + 1)) with (first + Z.of_nat (length l) + 1) by lia.
    + rewrite length_app. cbn [length]. lia.
    + done.
    + exists s2, (item :: l2). cbn [consume_all]. rewrite E. cbn [mbind option_bind]. split; [done|].
      rewrite <- app_assoc in Ha2. split; [done|by constructor].
Qed.

(** All packets of a frame, in order, into a fresh buffer. *)
Lemma all_packets s0 x xs vk vks :
  make c d = Some s0 -> x.1 = t0 -> first = 2 ^ 16 + RtpPacket.mSequence x.2 ->
  ts = 2 ^ 32 + RtpPacket.mTimestamp x.2 ->
  arrive_from first (x :: xs) (vk :: vks) -> Z.of_nat (S (length xs)) <= 2 ^ k ->
  Forall (fun vk => vk.2 <> Start) vks ->
  exists s l, consume_all c (x :: xs) s0 = Some s /\ arriving s l /\ Forall2 holds (vk :: vks) l.
Proof.
  destruct x as [now packet]. cbn [fst snd]. intros Hmake -> Ef Ets [Hx Hxs] Hlen Hk.
  destruct (first_packet s0 packet vk Hmake Ef Ets Hx) as (s1 & item & E & Ha & Hh).
  destruct (more_packets xs vks s1 [item] Ha) as (s2 & l2 & E2 & Ha2 & Hh2); [done|done|cbn [length]; lia|done|].
  exists s2, (item :: l2). cbn [consume_all]. rewrite E. cbn [mbind option_bind].
  split; [done|]. split; [done|by constructor].
Qed.

(** *** Taking the frame out *)

Hypothesis Hndebug : NDEBUG c = true.

Lemma scan_kinds rest : forall i, rest <> [] -> Forall (fun x => received x = true) rest ->
  map kind rest = kinds false (length rest) -> scan rest i = SComplete (i + length rest - 1).
Proof using Type.
  induction rest as [|x rest IH]; intros i Hne Hrec Hk; [done|]. apply list.Forall_cons in Hrec as [Hx Hrec].
  cbn [map length kinds] in Hk. injection Hk as Hkx Hk. cbn [scan length]. rewrite Hx. cbn [negb].
  destruct rest as [|y rest].
  - cbn in Hkx. rewrite Hkx. cbn. f_equal. lia.
  - cbn in Hkx. rewrite Hkx. rewrite bool_decide_false by done. rewrite bool_decide_true by done. cbn [negb].
    rewrite IH by done. f_equal. cbn [length]. lia.
Qed.

(** One round takes the whole window. *)
Lemma round_frame now q item rest data d' :
  q_items q = item :: rest -> q_last q = None -> items_ok (q_min q) (q_items q) ->
  Forall (fun x => received x = true) (q_items q) ->
  map kind (q_items q) = kinds true (length (q_items q)) ->
  due (when_dequeue item) now = Some true -> time_ok now ->
  dep_extract (q_dep q) (q_items q) = Some ([data], d') -> data <> [] ->
  exists f q', round c now q = Some (Some ([f], q')) /\ f_data f = data /\
    f_rtp_timestamp_ext f = rtp_timestamp_ext item /\ q_items q' = [].
Proof.
  intros Hq Hlast Hok Hrec Hkinds Hdue Hnow Hext Hdata.
  assert (forall lastItem, received lastItem = true -> (exists b, item_ok b lastItem) ->
    exists f q', take_frames c now (length (q_items q)) item lastItem q = Some ([f], q') /\ f_data f = data /\
      f_rtp_timestamp_ext f = rtp_timestamp_ext item /\ q_items q' = []) as Htake.
  { intros lastItem Hrl [b Hb]. unfold take_frames. rewrite take_ge, Hext by lia. cbn [mbind option_bind].
    rewrite Hlast. rewrite Hq in Hok, Hrec. pose proof (Hok 0%nat item eq_refl ltac:(done)) as Hitem.
    apply list.Forall_cons in Hrec as [Hri _].
    destruct (next_frames_some c k Hc (proj1 Ht) (proj2 Ht) Hndebug item lastItem now [data] None Hri Hrl)
      as (frames & lastTs & -> & Hcases); [by eexists _, _|done|by constructor|].
    destruct Hcases as [(-> & -> & [?|Hn])|([Hd Hf] & _ & _ & ->)]; [done|by destruct Hn|].
    destruct frames as [|f [|? ?]]; try done. cbn in Hd. injection Hd as Hd.
    apply list.Forall_cons in Hf as [[_ Hf] _].
    eexists f, _. cbn [mbind option_bind]. split; [done|]. split; [done|]. split; [done|].
    unfold drop_items. cbn [q_items]. apply drop_ge. lia. }
  unfold round. rewrite Hq in *. apply list.Forall_cons in Hrec as [Hri Hrest]. rewrite Hri, Hdue. cbn [mbind option_bind].
  cbn [map length kinds] in Hkinds. injection Hkinds as Hk0 Hkr.
  destruct rest as [|y rest].
  - cbn in Hk0. rewrite Hk0. change (take_frames c now 1) with (take_frames c now (length [item])).
    destruct (Htake item Hri) as (f & q' & -> & Hf); [by eexists; apply (Hok 0%nat)|].
    exists f, q'. done.
  - cbn in Hk0. rewrite Hk0. rewrite (scan_kinds (y :: rest) 0) by done.
    unfold debug_checks. rewrite Hndebug. cbn [mbind option_bind].
    set (n := (0 + length (y :: rest) - 1)%nat).
    destruct (lookup_lt_is_Some_2 (y :: rest) n) as [z Hz]; [unfold n; cbn [length]; lia|].
    rewrite Hz. cbn [default from_option id].
    replace (n + 2)%nat with (length (item :: y :: rest)) by (unfold n; cbn [length]; lia).
    destruct (Htake z) as (f & q' & -> & Hf).
    { by apply (Forall_elem _ _ z Hrest), (list_elem_of_lookup_2 _ n). }
    { eexists. apply (Hok (S n)); done. }
    exists f, q'. done.
Qed.

Lemma frame_out now s l vks data d' :
  arriving s l -> l <> [] -> Forall2 holds vks l -> map snd vks = kinds true (length vks) ->
  t0 + mLength c * 1000000 <= now <= t0 + mLength c * 1000000 + 2 ^ 30 * 1000000 ->
  dep_extract d l = Some ([data], d') -> data <> [] ->
  exists f s', JitterBuffer.processDeque c now s = Some ([f], s') /\ f_data f = data /\
    f_rtp_timestamp_ext f = ts /\ mMinSeq s' = mMaxSeq s'.
Proof.
  intros [_ Hwin _ _ _ _] Hne Hh Hkinds Hnow Hext Hdata.
  destruct l as [|item rest]; [done|]. destruct Hc as [Hk Hcap Hrate Hlen Hnack].
  pose proof Hwin as [Hr Hok _ _]. cbn [q_min q_items] in Hok.
  assert (Forall (fun x => received x = true) (item :: rest)) as Hrec.
  { apply list.Forall_lookup. intros i x Hx. destruct (Forall2_lookup_r _ _ _ _ _ Hh Hx) as (v & _ & ? & _). done. }
  assert (map kind (item :: rest) = map snd vks) as Hmk.
  { clear -Hh. induction Hh as [|v x vks l (_ & Hk & _) _ IH]; [done|]. cbn [map]. by rewrite Hk, IH. }
  destruct (Forall2_lookup_r _ _ _ 0%nat item Hh eq_refl) as (v0 & _ & _ & _ & (_ & _ & Hts0) & Hdq).
  assert (due (when_dequeue item) now = Some true) as Hdue.
  { rewrite Hdq. unfold due, diff_millis. rewrite in64_some by (unfold time_min, time_max; lia). cbn [mbind option_bind].
    rewrite in64_some by (unfold time_min, time_max; lia). cbn [mbind option_bind fmap option_fmap option_map].
    f_equal. apply Z.leb_le. set (x := t0 + mLength c * 1000000 - now + 500000).
    assert (- 2 ^ 30 <= Z.quot x 1000000 <= 0) as Hx.
    { unfold x. Z.quot_rem_to_equations. lia. }
    unfold i32, to_signed. change (32 - 1) with 31. cbv zeta.
    destruct (Z.eq_dec (Z.quot x 1000000) 0) as [->|Hne0]; [by cbn|].
    replace (Z.quot x 1000000 mod 2 ^ 32) with (Z.quot x 1000000 + 2 ^ 32) by zdm.
    destruct (Z.ltb_spec (Z.quot x 1000000 + 2 ^ 32) (2 ^ 31)); lia. }
  destruct (round_frame now (mkQ d first (item :: rest) None) item rest data d')
    as (f & q' & Eround & Hf & Hft & Hq'); try done; [|by apply now_ok; lia|].
  { cbn [q_items]. rewrite Hmk, Hkinds. f_equal. by eapply Forall2_length. }
  pose proof (dequeue_loop_refines c k Hk Hcap now (length (item :: rest)) s _ [] Hr ltac:(cbn; lia)) as H.
  cbn [length dequeue] in H. rewrite Eround in H. cbn [mbind option_bind] in H.
  assert (dequeue c (length rest) now q' = Some ([], q')) as Erest.
  { destruct (length rest); [done|]. cbn [dequeue]. unfold round. by rewrite Hq'. }
  rewrite Erest in H. cbn [mbind option_bind app] in H. destruct H as (s' & Es & Hr').
  exists f, s'. rewrite (processDeque_loop c k s _ now Hr). split; [exact Es|]. split; [done|].
  split; [by rewrite Hft|]. rewrite (r_max _ _ _ _ Hr'), (r_min _ _ _ _ Hr'), Hq'. cbn. lia.
Qed.

End Arrivals.

(** ** VP8, from frame to frame *)

(** The packet [x.2] that arrives at [x.1] carries what [p] was sent with. *)
Record delivers (c : config) (t0 : Z) (p : RtpPacket.t) (x : Z * RtpPacket.t) : Prop := {
  delivers_ok : packet_ok x.2;
  delivers_main : RtpPacket.mSSRC x.2 <> Track.mRtxSSRC (mTrack c) \/
                  RtpPacket.mPayloadId x.2 <> Track.mRtxPayloadId (mTrack c);
  delivers_seq : RtpPacket.mSequence x.2 = RtpPacket.mSequence p;
  delivers_ts : RtpPacket.mTimestamp x.2 = RtpPacket.mTimestamp p;
  delivers_view : view x.2 = view p;
  delivers_time : t0 <= x.1 < t0 + kNoPacketsResetDelay
}.

(** The extended numbers with which a fresh buffer starts. *)
Lemma first_mod w x : 0 <= w -> 0 <= x < 2 ^ w -> (2 ^ w + x) mod 2 ^ w = x.
Proof.
  intros Hw Hx. replace (2 ^ w + x) with (x + 1 * 2 ^ w) by lia. rewrite Z.mod_add by lia. by apply Z.mod_small.
Qed.

Lemma frameTimestamp_seq {S} (e : env S) now pts : e_seq (frameTimestamp e now pts).2 = e_seq e.
Proof. unfold frameTimestamp. by destruct (RtpTimeSource.getFrameTimestamp _ _ _). Qed.

Section Frames.
Context {D : Type} `{!Depacketizer D} (Ht : @depacketizer_total D _) (c : config) (k : Z) (Hc : config_ok c k).
#[local] Set Default Proof Using "All".

Lemma deliveries_arrive t0 ts (d : D) ps : forall xs kds x0 n,
  Forall2 (delivers c t0) ps xs -> chained x0 ps -> n mod 2 ^ 16 = u16 (x0 + 1) ->
  Forall (fun p => RtpPacket.mTimestamp p = ts mod 2 ^ 32) ps ->
  map (fun v => dep_getPacketKind d v.2 v.1) (map view ps) = map Some kds ->
  arrive_from c d t0 ts n xs (zip (map view ps) kds).
Proof using Type.
  induction ps as [|p ps IH]; intros xs kds x0 n H Hch Hn Hts Hk; inversion H as [|? x ? xs' Hx Hxs]; subst; [done|].
  destruct kds as [|kd kds]; [done|]. cbn [map] in Hk. injection Hk as Hk1 Hk.
  cbn [arrive_from map zip zip_with]. destruct Hch as [Hs Hch]. apply list.Forall_cons in Hts as [Hts1 Hts]. split.
  - destruct Hx. split; try done; [congruence|congruence|]. injection delivers_view0 as -> ->. exact Hk1.
  - apply (IH _ _ (RtpPacket.mSequence p)); try done. rewrite Hs, <- Hn. unfold u16.
    by rewrite Zplus_mod_idemp_l.
Qed.

Lemma holds_carries t0 ts vs : forall kds l,
  length kds = length vs -> Forall2 (holds c t0 ts) (zip vs kds) l -> Forall2 (carries ts) vs l.
Proof using Type.
  induction vs as [|v vs IH]; intros [|kd kds] l Hl H; try done; cbn [zip zip_with] in H;
    inversion H as [|? ? ? l' (_ & _ & Hv & _) H']; subst; constructor; [done|].
  apply (IH kds); [by injection Hl|done].
Qed.

(** A whole frame whose packets arrive in order comes out of the buffer. *)
Lemma frame_arrives {S} (I : list S -> Prop) track ts0 (e : env S) ps e' frame (d d' : D) s0 t0 now_r xs :
  2 <= k -> NDEBUG c = true -> make c d = Some s0 -> 0 <= t0 < 2 ^ 59 ->
  t0 + mLength c * 1000000 <= now_r <= t0 + mLength c * 1000000 + 2 ^ 30 * 1000000 ->
  emitted I track ts0 e ps e' -> whole_frame (map view ps) frame d d' ->
  Forall2 (delivers c t0) ps xs -> Z.of_nat (length xs) <= 2 ^ k -> from_option fst 0 (head xs) = t0 ->
  exists s f s', consume_all c xs s0 = Some s /\
    JitterBuffer.processDeque c now_r s = Some ([f], s') /\ f_data f = frame.
Proof.
  intros Hk2 Hndebug Hmake Ht0 Hnow [Hfields Hseqs _ _] [[Hps Hframe] Hkinds Hext] Hxs Hcap Hhead.
  apply take_sequences_chained in Hseqs. rewrite length_map in Hkinds.
  destruct xs as [|x xs]; [by inversion Hxs; subst|]. destruct ps as [|p ps]; [done|].
  cbn [head from_option] in Hhead. pose proof Hxs as Hxs'. inversion Hxs' as [|? ? ? ? Hx _]; subst.
  destruct Hx as [(Hb & Hseq & Htsr) _ Es Ets _ _].
  set (first := 2 ^ 16 + RtpPacket.mSequence x.2). set (ts := 2 ^ 32 + RtpPacket.mTimestamp x.2).
  unfold is_u16, is_u32 in *.
  assert (ts mod 2 ^ 32 = RtpPacket.mTimestamp x.2) as Hmod by (by apply first_mod).
  assert (first mod 2 ^ 16 = u16 (RtpPacketSource.mNextSequence (e_seq e) + 1)) as Hmod16.
  { destruct Hseqs as [Hs _]. rewrite <- Hs, <- Es. by apply first_mod. }
  assert (Forall (fun p => RtpPacket.mTimestamp p = ts mod 2 ^ 32) (p :: ps)) as Hall.
  { rewrite Hmod, Ets. apply list.Forall_cons in Hfields as [[_ Hp] Hfields]. constructor; [done|].
    apply (list.Forall_impl _ _ _ Hfields). intros q [_ Hq]. congruence. }
  pose proof (deliveries_arrive x.1 ts d (p :: ps) (x :: xs) _ _ first Hxs Hseqs Hmod16 Hall Hkinds) as Harr.
  cbn [length kinds map zip zip_with] in Harr.
  destruct (all_packets c k Hc Ht Hk2 d x.1 first ts Ht0 ltac:(lia) ltac:(lia) s0 x xs _ _ Hmake eq_refl eq_refl
    eq_refl Harr ltac:(cbn [length] in Hcap; lia)) as (s & l & Es1 & Ha & Hh).
  { apply list.Forall_lookup. intros i [v kd] (_ & Hl)%lookup_zip_Some.
    by apply (list.Forall_lookup_1 _ _ _ _ (kinds_no_start (length ps)) Hl). }
  destruct (frame_out c k Hc Ht Hk2 d x.1 first ts Ht0 ltac:(lia) ltac:(lia) Hndebug now_r s l
    (zip (map view (p :: ps)) (kinds true (length (p :: ps)))) frame d' Ha)
    as (f & s' & Ed & Hf & _); [intros ->; by inversion Hh|exact Hh| |done| |done|by exists s, f, s'].
  - rewrite length_zip_with, length_map, length_kinds, Nat.min_id.
    apply snd_zip. by rewrite length_map, length_kinds.
  - apply (Hext ts). apply (holds_carries x.1 ts (map view (p :: ps)) (kinds true (length (p :: ps)))); [|exact Hh].
    by rewrite length_kinds, length_map.
Qed.

End Frames.

Lemma vp9_total : @depacketizer_total DepacketizerVP9.state _.
Proof. split; [by intros; eexists|]. intros d l _. apply DepacketizerVP9.extract_total_vp9. Qed.

Section Properties.
Import Vp8Wire.
Context {S : Type} `{!RtpExtensionSource S} (overhead : Z) (I : list S -> Prop) `{!PacketSources S overhead I}.
#[local] Set Default Proof Using "All".

(** C2: a VP8 frame (of three bytes at least) goes through the whole pipeline: cut into packets by the
    sender, delivered in order to a fresh jitter buffer within two seconds, and
    taken out when the buffer's delay has passed, it comes out as exactly one
    frame with exactly the bytes that were sent, whatever its size (up to the
    capacity of the buffer) and wherever in their 16 and 32 bits the sequence
    numbers and timestamps are - provided that it is a key frame or the
    depacketizer has seen one (others are dropped), and in a build without
    assertions (NDEBUG), which ask the depacketizer a second time. *)
Theorem vp8_end_to_end c k track now_s pts frame (e : env S) (d : DepacketizerVP8.state) t0 now_r s0 :
  config_ok c k -> 2 <= k -> NDEBUG c = true -> I (e_sources e) -> (3 <= length frame)%nat ->
  DepacketizerVP8.mSeenKeyFrame d = true \/ PacketizerVP8.isKeyFrame frame = true ->
  make c d = Some s0 -> 0 <= t0 < 2 ^ 59 ->
  t0 + mLength c * 1000000 <= now_r <= t0 + mLength c * 1000000 + 2 ^ 30 * 1000000 ->
  exists ps e', PacketizerVP8.generate track overhead now_s pts frame e = Some (ps, e') /\ ps <> [] /\
    forall xs, Forall2 (delivers c t0) ps xs -> Z.of_nat (length xs) <= 2 ^ k ->
      from_option fst 0 (head xs) = t0 ->
      exists s f s', consume_all c xs s0 = Some s /\
        JitterBuffer.processDeque c now_r s = Some ([f], s') /\ f_data f = frame.
Proof.
  intros Hc Hk2 Hndebug HI Hlen Hkey Hmake Ht0 Hnow.
  destruct (generate_ok overhead I track now_s pts frame e HI Hlen)
    as (ps & e' & chunks & E & Hview & Hcat & Hne & Hcs & Hem & _).
  pose proof (vp8_whole_frame _ chunks d (tag_bit frame) Hne Hcs ltac:(by rewrite Hcat)) as Hw.
  rewrite <- Hview, Hcat in Hw. exists ps, e'. split; [done|].
  split; [intros ->; by apply (proj1 (whole_some _ _ _ _ Hw))|].
  intros xs Hxs Hcap Hhead. by eapply (frame_arrives vp8_total c k Hc I).
Qed.

(** C20: the same of a VP9 frame that is not empty, whose packets carry the picture
    number: a key frame, or one behind a key frame that the depacketizer has seen,
    comes out of a fresh jitter buffer as exactly one frame with exactly the bytes
    that were sent (in a build without assertions). *)
Theorem vp9_end_to_end c k track now_s pts frame pst (e : env S) (d : DepacketizerVP9.state) t0 now_r s0 :
  config_ok c k -> 2 <= k -> NDEBUG c = true -> I (e_sources e) -> frame <> [] -> Vp9Wire.id_ok pst ->
  DepacketizerVP9.mSeenKeyFrame d = true \/ PacketizerVP9.isKeyFrame frame = true ->
  make c d = Some s0 -> 0 <= t0 < 2 ^ 59 ->
  t0 + mLength c * 1000000 <= now_r <= t0 + mLength c * 1000000 + 2 ^ 30 * 1000000 ->
  exists ps pst' e', PacketizerVP9.generate track overhead now_s pts frame pst e = Some (ps, pst', e') /\ ps <> [] /\
    forall xs, Forall2 (delivers c t0) ps xs -> Z.of_nat (length xs) <= 2 ^ k ->
      from_option fst 0 (head xs) = t0 ->
      exists s f s', consume_all c xs s0 = Some s /\
        JitterBuffer.processDeque c now_r s = Some ([f], s') /\ f_data f = frame.
Proof.
  intros Hc Hk2 Hndebug HI Hlen Hid Hkey Hmake Ht0 Hnow.
  destruct (Vp9Wire.generate_vp9 overhead I track now_s pts frame pst e HI Hlen)
    as (ps & pst' & e' & chunks & E & _ & Hview & Hcat & Hne & Hcs & Hem & _).
  pose proof (Vp9Wire.vp9_whole_frame (CodecVP9.isKeyFrame frame) _ chunks d Hid Hne Hcs ltac:(by rewrite Hcat)) as Hw.
  rewrite <- Hview, Hcat in Hw. exists ps, pst', e'. split; [done|].
  split; [intros ->; by apply (proj1 (whole_some _ _ _ _ Hw))|].
  intros xs Hxs Hcap Hhead. by eapply (frame_arrives vp9_total c k Hc I).
Qed.

End Properties.

Section Witnesses.
Import Demo.

Lemma vp8_end_to_end_witness :
  exists ps e', PacketizerVP8.generate demo_track 10 1000 40000 Vp8Opus.demo_frame demo_env = Some (ps, e') /\ ps <> [] /\
    forall xs, Forall2 (delivers (demo_config (2 ^ 4)) 1000000000) ps xs -> Z.of_nat (length xs) <= 2 ^ 4 ->
      from_option fst 0 (head xs) = 1000000000 ->
      exists s f s', consume_all (demo_config (2 ^ 4)) xs demo_empty = Some s /\
        JitterBuffer.processDeque (demo_config (2 ^ 4)) 1100000000 s = Some ([f], s') /\ f_data f = Vp8Opus.demo_frame.
Proof.
  apply (vp8_end_to_end 10 (sources_small 10) (demo_config (2 ^ 4)) 4 demo_track 1000 40000 Vp8Opus.demo_frame demo_env
    DepacketizerVP8.make 1000000000 1100000000 demo_empty).
  - by apply demo_config_ok.
  - lia.
  - reflexivity.
  - split; vm_compute; congruence.
  - vm_compute. lia.
  - right. reflexivity.
  - reflexivity.
  - lia.
  - vm_compute. split; congruence.
Defined.

Definition demo_fresh : @JitterBuffer.state DepacketizerVP9.state :=
  JitterBuffer.mk DepacketizerVP9.make time_min None 0 0 ExtendedValue.make ExtendedValue.make time_min 0 None.

Lemma vp9_end_to_end_witness :
  exists ps pst' e', PacketizerVP9.generate demo_track 10 1000 40000 Vp9.demo_vp9 PacketizerVP9.make demo_env
      = Some (ps, pst', e') /\ ps <> [] /\
    forall xs, Forall2 (delivers (demo_config (2 ^ 4)) 1000000000) ps xs -> Z.of_nat (length xs) <= 2 ^ 4 ->
      from_option fst 0 (head xs) = 1000000000 ->
      exists s f s', consume_all (demo_config (2 ^ 4)) xs demo_fresh = Some s /\
        JitterBuffer.processDeque (demo_config (2 ^ 4)) 1100000000 s = Some ([f], s') /\ f_data f = Vp9.demo_vp9.
Proof.
  apply (vp9_end_to_end 10 (sources_small 10) (demo_config (2 ^ 4)) 4 demo_track 1000 40000 Vp9.demo_vp9
    PacketizerVP9.make demo_env DepacketizerVP9.make 1000000000 1100000000 demo_fresh).
  - by apply demo_config_ok.
  - lia.
  - reflexivity.
  - split; vm_compute; congruence.
  - done.
  - split; vm_compute; congruence.
  - right. reflexivity.
  - reflexivity.
  - lia.
  - vm_compute. split; congruence.
Defined.

End Witnesses.
